(* ===== verification/_CoqProject ===== *)
-Q . S2P
Prelude.v
Words.v
Constants.v
Xxh64.v
Errors.v
FseTable.v
FseCounts.v
FseBuild.v
BitDStream.v
HufTable.v
HufWeights.v
HufFill.v
HufStream.v
HufDecode.v
HufFast.v
HufX2Table.v
HufX2.v
HufX2Decode.v
HufX2Fast.v
Headers.v
HeaderUnits.v
FrameWrite.v
SeqTables.v
Copy.v
CopyProofs.v
SeqExec.v
SeqDecode.v
SeqRun.v
BlockDecode.v
DecodeDict.v
Frame.v
FrameRef.v
FrameProofs.v
Decompress.v
FrameEmit.v
BitCStream.v
FseEncode.v
FseEncodeProofs.v
SeqStream.v
FseNorm.v
FseNormProofs.v
NCountProofs.v
Entropy.v
Histogram.v
Params.v
SeqEncode.v
SeqCost.v
SeqEncodeProofs.v
SeqSection.v
HufCStream.v
HufRoundTrip.v
HufCTable.v
HufCanon.v
HufSort.v
HufBuckets.v
HufTree.v
HufHeight.v
HufRepay.v
HufBuild.v
HufLiterals.v
WeightStream.v
HufDescription.v
HufSection.v
Split.v
BlockEncode.v
BlockRound.v
Presplit.v
Splitter.v
Window.v
MatchCommon.v
MatchState.v
Finder.v
Search.v
Fast.v
DFast.v
Matcher.v
Blocks.v
BlocksProofs.v
RoundTrip.v
