(* ===== verification/Prelude.v ===== *)
(** * A verification development for rust-zstd

    A model in Rocq of the Zstandard codec in the repository's [src/], with the theorems
    that make it correct. Names are the source's; each definition says in its
    comment which function or type of the source it translates.

    ** The program, and the files that model it

    The decoder ([src/decode.rs], [src/decode/dict.rs]) reads frames from
    bytes. The encoder ([src/compress/], [src/huf.rs], [src/fse.rs]) writes
    them. They share the format's constants ([src/constants.rs]) and the
    checksum ([src/xxhash.rs]). From the bottom up:

    - [Prelude], [Words]: outcomes and their monad, loops with fuel, checked
      list accesses, machine integers.
    - [Constants]: [src/constants.rs] and the decoder's code tables.
      [Xxh64]: [src/xxhash.rs]. [Errors]: every error message of the decoder,
      a constructor each.
    - [FseTable], with the proofs [FseCounts] (the header of a table is read
      safely and its counts tile the table) and [FseBuild] (what the builder
      builds): [FSETable] of [src/decode.rs].
    - [BitDStream]: the backward bit reader, and its refinement of a cursor
      into one number.
    - [HufTable], with [HufWeights], [HufFill] and [HufX2Table]: the tree
      descriptions and the single- and double-symbol tables
      ([HuffmanTable]). [HufStream] with [HufDecode] and [HufFast], [HufX2]
      with [HufX2Decode] and [HufX2Fast]: the streams, one or four, by the
      plain loops and by the loops without bounds checks.
    - [Headers], with [HeaderUnits]: the parsers of frame, block, literals
      and sequences headers. [FrameWrite]: the encoder's writers of the same
      headers, with the round trips.
    - [SeqTables]: the three tables a block's sequences decode with.
      [Copy], with [CopyProofs]: the wide copies, an interface [WildCopy] of
      four instances with its laws [WildCopyLaws]. [SeqExec], with
      [SeqDecode] and [SeqRun]: decoding sequences and executing them, proved
      against [WildCopyLaws] alone.
    - [BlockDecode]: [DecoderScratch], [decompress_block] and what it
      calls, proved against the block's meaning [ref_block]. [DecodeDict]: dictionaries.
    - [Frame]: [FrameDecoder], the state machine that takes a unit of input
      (a header, a block's content, a checksum) at a time and writes through
      the interface [FrameOut]; [VecOut] and [decompress_frames].
      [FrameRef]: what frames mean, on lists. [FrameProofs] and
      [Decompress]: the program refines that meaning, and what follows.
    - [FrameEmit]: the encoder's block-type decision and the assembly of a
      frame, round-tripped through the decoder.
    - [BitCStream]: the bit writers of [src/bitstream.rs]. [FseEncode], with
      [FseEncodeProofs]: the compression tables and coding states of
      [src/fse.rs] and its sequence coder; [SeqStream]: the stream it writes,
      read back. [FseNorm], with [FseNormProofs] and [NCountProofs]:
      normalisation and the description of a table.
    - [Entropy]: [src/compress/entropy.rs], the tables held across blocks.
      [Histogram]: [hist_count] of [src/huf.rs]. [Params]:
      [src/compress/params.rs]. [SeqEncode], with [SeqCost],
      [SeqEncodeProofs] and [SeqSection]: how a sequences section chooses,
      describes and builds its tables, and the whole section, which
      [SeqTables] and [SeqExec] read back, block after block.
    - The Huffman coder of [src/huf.rs]. [HufCStream], with
      [HufRoundTrip]: a code and the streams written with it. [HufCTable]: the table builder, proved in steps: [HufSort] and
      [HufBuckets] (the sort), [HufTree] (the tree), [HufHeight],
      [HufRepay] (the length limit), [HufCanon], [HufBuild] (the canonical
      code). [HufLiterals], with [WeightStream], [HufDescription] and
      [HufSection]: the description of a table and the literals section.
    - [Split]: a block's store cut into partitions ([src/compress/split.rs],
      [src/compress/seqstore.rs]). [BlockEncode], with [BlockRound]: the
      block's entropy stage, its block state and the commit
      ([src/compress/block.rs]). [Presplit] and [Splitter]: where
      blocks are cut, before and after the search.
    - The search. [Window] and [MatchState]: [src/compress/matchstate.rs].
      [MatchCommon]: [src/compress/common.rs]. [Search]: [store_seq]
      and what the strategies' proofs share. [Fast] and [DFast]: the two
      strategies.
    - [Finder] is the interface between the search and the rest: a class of
      operations with the law that what is found executes to the block.
      [Matcher] is its instance. [Blocks], with [BlocksProofs], is written
      against the interface: [compress_blocks], the cutting of a job, a frame
      and the context a compressor keeps ([src/compress/mod.rs]).
      [RoundTrip] puts both together.

    ** How state and effects are modelled

    Bytes are [Z] in [0, 256), a machine integer of [w] bits is a [Z] in
    [0, 2 ^ w) whose wrapping operations reduce it; [usize] has 64 bits. A
    mutable value is passed in and returned. A Rust call is a value of [res]:
    [Ok], [Err] with the error of its [Result], or [Fault]. [Fault] is a
    panic, and in [unsafe] code also any access out of its buffer or a
    [copy_nonoverlapping] of overlapping ranges, so a theorem that excludes
    [Fault] is a memory-safety theorem. Where the source drops an object or
    stops using it after an error, the model drops the state with the error.

    A loop that is not structural is [loopM] with fuel; running out is
    [Stuck], which no Rust run shows and every theorem excludes. The fuel of
    each loop is given next to it by the data: an input loop takes the length
    of its input ([frames_turn] two turns for each byte and two more, since
    of two turns one reads input or the frame ends), a stream loop the
    output's length, a table loop the table's, so the theorems prove
    termination with the bound as well.

    A raw pointer is an offset into its buffer. Room the code reserves past a
    vector's length, which it writes before reading, is zeros. The four-stream
    loops advance the streams in the code's order, one after the other within
    a turn.

    ** What the theorems show

    - Compression as a whole: [compress_roundtrip] (at every level up to the
      default and every input below 4 TiB, without long distance matching,
      compressing returns a frame that decompresses
      to the input), [compressor_reusable] (and so again, from whatever
      context the frames before left).
    - Decompression as a whole: [decompress_correct] (it is the format's
      meaning on every input, without panic, access out of bounds or endless
      loop), [frame_claims_checked], [decompress_bounded],
      [simd_levels_agree], and for one block [compressed_block_decodes].
    - Encoder against decoder, part by part: [emitted_frames_roundtrip],
      [literals_section_roundtrip], [sequences_section_roundtrip],
      [frame_header_roundtrip], [seq_codes_roundtrip],
      [repeat_offsets_agree], [is_rle_correct].
    - What the encoder decides: [level_params_bounds], [count_correct].
    - Entropy tables: [read_probabilities_sound], [build_decoder_correct],
      [fse_transitions_partition], [huffman_description_sound],
      [huffman_table_correct], [huffman_tables_correct],
      [sequence_tables_sound], [dictionary_sound]; for the encoder
      [build_ctable_correct], [normalize_count_sound], [fse_tables_inverse],
      [ncount_roundtrip], [hist_count_correct], [slots_refine].
    - Streams: [bitstream_reads], [huf_1x1_decodes], [huf_4x1_decodes],
      [huf_decompress_decodes], [cstream_roundtrip].
    - Sequences: [copy_match_reference], [sequences_execute],
      [sequences_roundtrip].
    - Framing and checksum: [frame_header_units], [xxh64_streaming].

    ** Not modelled, and why

    - The allocator: whether [try_reserve] succeeds is a parameter, and of a
      vector's capacity the model knows what the code asked for
      ([v_reserved] of [VecOut]), which [decompress_bounded] bounds.
    - The [parallel] feature (rayon pools, [mod parallel] of
      [src/decode.rs]), the compressor's parallel jobs and its pipelined block
      loop: the model is of the serial build. Threads and atomics are outside
      a functional model.
    - The state an error leaves in a reused decoder.
    - The streaming interfaces of both sides ([src/decode/stream.rs],
      [src/compress/stream.rs]), which drive the same units and blocks.
    - The strategies from [Greedy] up ([src/compress/lazy.rs],
      [src/compress/bt.rs], [src/compress/opt.rs]), which levels from 4 on
      run, and long distance matching ([src/compress/ldm.rs]): they are
      further instances of [Finder], so what is proved of [Blocks] holds of
      them once their law is.
    - Encoder dictionaries ([src/compress/dict.rs], [src/compress/lazy/dms.rs])
      and the searches against them. *)

From Stdlib Require Export ZArith Lia.
From stdpp Require Export base numbers option list tactics.
Export stdpp.list_basics.list stdpp.list_relations.list stdpp.list_monad.list
  stdpp.list_misc.list.

#[global] Open Scope Z_scope.

(** ** Outcomes

    A Rust computation either returns a value, returns an error value of its
    [Result] type, or leaves the language: [Fault] is a panic (a bounds check,
    an [unwrap], an [assert!], an [unreachable!]) or an access that an
    [unsafe] block makes out of range. [Stuck] is not a Rust outcome: it marks
    a loop of the model whose fuel ran out, and every loop's theorem excludes
    it. *)
Inductive res (E A : Type) : Type :=
| Ok (a : A)
| Err (e : E)
| Fault
| Stuck.

Arguments Ok {E A} a.
Arguments Err {E A} e.
Arguments Fault {E A}.
Arguments Stuck {E A}.

#[global] Instance res_ret E : MRet (res E) := fun A a => Ok a.

#[global] Instance res_bind E : MBind (res E) := fun A B f m =>
  match m with
  | Ok a => f a
  | Err e => Err e
  | Fault => Fault
  | Stuck => Stuck
  end.

#[global] Instance res_fmap E : FMap (res E) := fun A B f m =>
  match m with
  | Ok a => Ok (f a)
  | Err e => Err e
  | Fault => Fault
  | Stuck => Stuck
  end.

(** [map_err]: the [?] of a caller whose error type differs. *)
Definition map_err {E E' A} (f : E -> E') (m : res E A) : res E' A :=
  match m with
  | Ok a => Ok a
  | Err e => Err (f e)
  | Fault => Fault
  | Stuck => Stuck
  end.

(** [assert!] and the preconditions of [unsafe] operations. *)
Definition rassert {E} (b : bool) : res E unit :=
  if b then Ok tt else Fault.

(** An early [return Err(e)] when [b] holds. *)
Definition fail_if {E} (b : bool) (e : E) : res E unit :=
  if b then Err e else Ok tt.

(** [o.unwrap()]. *)
Definition unwrap {E A} (o : option A) : res E A :=
  match o with
  | Some a => Ok a
  | None => Fault
  end.

(** [o.ok_or(e)]. *)
Definition ok_or {E A} (e : E) (o : option A) : res E A :=
  match o with
  | Some a => Ok a
  | None => Err e
  end.

(** ** Slices

    Indices and lengths are [Z]; [zlen] is the length. *)
Definition zlen {A} (l : list A) : Z := Z.of_nat (length l).

(** [l.get(i)]. *)
Definition zget {A} (l : list A) (i : Z) : option A :=
  if i <? 0 then None else l !! Z.to_nat i.

(** [l[i]]. *)
Definition idx {E A} (l : list A) (i : Z) : res E A := unwrap (zget l i).

(** [l[i] = x], the list without effect out of range. *)
Definition zset {A} (l : list A) (i : Z) (x : A) : list A :=
  <[Z.to_nat i := x]> l.

(** [l[i] = x] with its bounds check. *)
Definition store {E A} (l : list A) (i : Z) (x : A) : res E (list A) :=
  if (0 <=? i) && (i <? zlen l) then Ok (zset l i x) else Fault.

Definition ztake {A} (n : Z) (l : list A) : list A := take (Z.to_nat n) l.
Definition zdrop {A} (n : Z) (l : list A) : list A := drop (Z.to_nat n) l.

(** [l.get(a..b)]. *)
Definition zslice {A} (l : list A) (a b : Z) : option (list A) :=
  if (0 <=? a) && (a <=? b) && (b <=? zlen l)
  then Some (ztake (b - a) (zdrop a l))
  else None.

(** [&l[a..b]]. *)
Definition slice {E A} (l : list A) (a b : Z) : res E (list A) :=
  unwrap (zslice l a b).

(** [&l[a..]]. *)
Definition slice_from {E A} (l : list A) (a : Z) : res E (list A) :=
  slice l a (zlen l).

(** [f(&mut l[a..b])]: an update of a part of a list, in place. *)
Definition on_slice {E A} (l : list A) (a b : Z) (f : list A -> res E (list A))
    : res E (list A) :=
  s ← slice l a b;
  s' ← f s;
  Ok (ztake a l ++ s' ++ zdrop b l).

(** [l[a..b].copy_from_slice(s)]. *)
Definition copy_from_slice {E A} (l : list A) (a b : Z) (s : list A) : res E (list A) :=
  on_slice l a b (fun old => _ ← rassert (zlen old =? zlen s); Ok s).

Definition zrepeat {A} (x : A) (n : Z) : list A := replicate (Z.to_nat n) x.

(** [Vec::resize(n, x)]. *)
Definition vresize {A} (l : list A) (n : Z) (x : A) : list A :=
  ztake n l ++ zrepeat x (n - zlen l).

(** [l.iter().enumerate()]. *)
Definition enumerate {A} (l : list A) : list (Z * A) := imap (fun i x => (Z.of_nat i, x)) l.

Definition is_empty {A} (l : list A) : bool :=
  match l with [] => true | _ :: _ => false end.

#[global] Arguments zlen : simpl never.
#[global] Arguments zget : simpl never.
#[global] Arguments zset : simpl never.
#[global] Arguments ztake : simpl never.
#[global] Arguments zdrop : simpl never.
#[global] Arguments zslice : simpl never.
#[global] Arguments zrepeat : simpl never.
#[global] Arguments vresize : simpl never.
#[global] Arguments idx : simpl never.
#[global] Arguments store : simpl never.
#[global] Arguments slice : simpl never.

(** ** Loops *)

(** [for b in l] over a state. *)
Fixpoint foldM {E A B} (f : A -> B -> res E A) (a : A) (l : list B) : res E A :=
  match l with
  | [] => Ok a
  | b :: l' => a' ← f a b; foldM f a' l'
  end.

(** A [loop] whose body continues with a new state ([inl]) or breaks with a
    result ([inr]). *)
Fixpoint loopM {E S R} (fuel : nat) (body : S -> res E (S + R)) (s : S) : res E R :=
  match fuel with
  | O => Stuck
  | S fuel' =>
      r ← body s;
      match r with
      | inl s' => loopM fuel' body s'
      | inr v => Ok v
      end
  end.

(** ** Bytes *)

Definition is_byte (b : Z) : Prop := 0 <= b < 256.

Abbreviation bytes := (Forall is_byte).

#[global] Instance is_byte_dec b : Decision (is_byte b).
Proof. unfold is_byte. apply _. Defined.

(** ** Outcome logic

    [safe Q m]: [m] does not panic, does not run out of fuel and does not
    leave a buffer; if it returns a value, the value satisfies [Q]. *)
Definition safe {E A} (Q : A -> Prop) (m : res E A) : Prop :=
  match m with
  | Ok a => Q a
  | Err _ => True
  | Fault | Stuck => False
  end.

(** [returns Q m]: moreover [m] is no error. *)
Definition returns {E A} (Q : A -> Prop) (m : res E A) : Prop :=
  match m with
  | Ok a => Q a
  | _ => False
  end.

(** What a reference in [option] computes of an outcome: its value, without
    the reason of a failure. *)
Definition to_option {E A} (m : res E A) : option A :=
  match m with
  | Ok a => Some a
  | _ => None
  end.

(** [refines R m o]: [m] implements the reference [o]. It returns a value
    related by [R] to the reference's, or an error where the reference has no
    value, and never faults. *)
Definition refines {E A B} (R : A -> B -> Prop) (m : res E A) (o : option B) : Prop :=
  match m with
  | Ok a => exists b, o = Some b /\ R a b
  | Err _ => o = None
  | Fault | Stuck => False
  end.

(** ** Tactics of the development *)

(** Turn boolean tests in hypotheses into propositions. *)
Ltac bools :=
  repeat match goal with
  | H : _ && _ = true |- _ => apply andb_true_iff in H; destruct H
  | H : _ && _ = false |- _ => apply andb_false_iff in H
  | H : _ || _ = false |- _ => apply orb_false_iff in H; destruct H
  | H : _ || _ = true |- _ => apply orb_true_iff in H
  | H : negb _ = true |- _ => apply negb_true_iff in H
  | H : negb _ = false |- _ => apply negb_false_iff in H
  | H : (_ <? _) = true |- _ => apply Z.ltb_lt in H
  | H : (_ <? _) = false |- _ => apply Z.ltb_ge in H
  | H : (_ <=? _) = true |- _ => apply Z.leb_le in H
  | H : (_ <=? _) = false |- _ => apply Z.leb_gt in H
  | H : (_ =? _) = true |- _ => apply Z.eqb_eq in H
  | H : (_ =? _) = false |- _ => apply Z.eqb_neq in H
  | H : (_ >? _) = true |- _ => rewrite Z.gtb_ltb in H; apply Z.ltb_lt in H
  | H : (_ >? _) = false |- _ => rewrite Z.gtb_ltb in H; apply Z.ltb_ge in H
  | H : (_ >=? _) = true |- _ => rewrite Z.geb_leb in H; apply Z.leb_le in H
  | H : (_ >=? _) = false |- _ => rewrite Z.geb_leb in H; apply Z.leb_gt in H
  end.

(** Case analysis on one boolean test of the goal. *)
Ltac case_bool :=
  match goal with
  | |- context [if ?b then _ else _] =>
      lazymatch b with
      | context [if _ then _ else _] => fail
      | _ => destruct b eqn:?; bools
      end
  end.

(** [bytes] of a list of known elements. *)
Ltac solve_bytes :=
  repeat (apply List.Forall_cons; [unfold is_byte in *; lia|]); apply List.Forall_nil.

(** Inversion of a computation that returned. *)
Ltac inv_ok :=
  repeat match goal with
  | H : Ok _ = Ok _ |- _ => injection H as H; subst
  | H : Err _ = Ok _ |- _ => discriminate H
  | H : Fault = Ok _ |- _ => discriminate H
  | H : Stuck = Ok _ |- _ => discriminate H
  | H : mret _ = Ok _ |- _ => injection H as H; subst
  | H : (?m ≫= _) = Ok _ |- _ =>
      let E := fresh "E" in
      destruct m eqn:E;
      [ cbn [mbind res_bind] in H | discriminate H | discriminate H | discriminate H ]
  | H : fail_if ?b _ = Ok _ |- _ =>
      let E := fresh "E" in
      destruct b eqn:E; [ discriminate H | clear H; bools ]
  end.

(** ** Lemmas on outcomes *)

Section safe.
Context {E : Type}.

Lemma safe_ok {A} (Q : A -> Prop) (a : A) : Q a -> safe Q (Ok a : res E A).
Proof. done. Qed.

Lemma safe_ret {A} (Q : A -> Prop) (a : A) : Q a -> safe Q (mret a : res E A).
Proof. done. Qed.

Lemma safe_err {A} (Q : A -> Prop) (e : E) : safe Q (Err e : res E A).
Proof. done. Qed.

Lemma safe_mono {A} (P Q : A -> Prop) (m : res E A) :
  safe P m -> (forall a, P a -> Q a) -> safe Q m.
Proof. destruct m; cbn; auto. Qed.

Lemma safe_bind {A B} (P : A -> Prop) (Q : B -> Prop) (m : res E A) (f : A -> res E B) :
  safe P m -> (forall a, P a -> safe Q (f a)) -> safe Q (m ≫= f).
Proof. destruct m; cbn; auto. Qed.

(** The equation form, for a subcomputation whose result is needed. *)
Lemma safe_bind_eq {A B} (P : A -> Prop) (Q : B -> Prop) (m : res E A) (f : A -> res E B) :
  safe P m -> (forall a, m = Ok a -> P a -> safe Q (f a)) -> safe Q (m ≫= f).
Proof. destruct m; cbn; auto. Qed.

Lemma safe_ok_inv {A} (Q : A -> Prop) (m : res E A) a :
  safe Q m -> m = Ok a -> Q a.
Proof. intros H ->. exact H. Qed.

Lemma returns_safe {A} (Q : A -> Prop) (m : res E A) : returns Q m -> safe Q m.
Proof. by destruct m. Qed.

Lemma returns_inv {A} (Q : A -> Prop) (m : res E A) :
  returns Q m -> exists a, m = Ok a /\ Q a.
Proof. destruct m; cbn; try done. eauto. Qed.

Lemma returns_bind {A B} (P : A -> Prop) (Q : B -> Prop) (m : res E A) (f : A -> res E B) :
  returns P m -> (forall a, P a -> returns Q (f a)) -> returns Q (m ≫= f).
Proof. destruct m; cbn; try done; auto. Qed.

Lemma safe_rassert {A} (Q : A -> Prop) (b : bool) (k : unit -> res E A) :
  b = true -> safe Q (k tt) -> safe Q (rassert b ≫= k).
Proof. by intros ->. Qed.

Lemma safe_fail_if {A} (Q : A -> Prop) (b : bool) (e : E) (k : unit -> res E A) :
  (b = false -> safe Q (k tt)) -> safe Q (fail_if b e ≫= k).
Proof. destruct b; cbn; auto. Qed.

Lemma safe_ok_or {A B} (Q : B -> Prop) (e : E) (o : option A) (k : A -> res E B) :
  (forall a, o = Some a -> safe Q (k a)) -> safe Q (ok_or e o ≫= k).
Proof. destruct o; cbn; auto. Qed.

Lemma safe_unwrap {A B} (Q : B -> Prop) (o : option A) (k : A -> res E B) :
  is_Some o -> (forall a, o = Some a -> safe Q (k a)) -> safe Q (unwrap o ≫= k).
Proof. intros [a ->] H. cbn. auto. Qed.

Lemma safe_foldM {A B} (I : list B -> A -> Prop) (f : A -> B -> res E A) a l :
  I l a ->
  (forall a' b l', I (b :: l') a' -> safe (I l') (f a' b)) ->
  safe (I []) (foldM f a l).
Proof.
  revert a. induction l as [|b l IH]; intros a HI Hf; cbn; [done|].
  apply safe_bind with (I l); auto.
Qed.

Lemma safe_loopM {S R} (I : S -> Prop) (m : S -> nat) (Q : R -> Prop)
    (body : S -> res E (S + R)) fuel s :
  I s -> (m s < fuel)%nat ->
  (forall s', I s' ->
     safe (fun r => match r with
                    | inl s'' => I s'' /\ (m s'' < m s')%nat
                    | inr v => Q v
                    end) (body s')) ->
  safe Q (loopM fuel body s).
Proof.
  intros HI Hm Hb. revert s HI Hm.
  induction fuel as [|n IH]; intros s HI Hm; [lia|]. cbn.
  eapply safe_bind; [by apply Hb|].
  intros [s'|v] Hr; [|done]. destruct Hr. apply IH; [done|lia].
Qed.

Lemma returns_mono {A} (P Q : A -> Prop) (m : res E A) :
  returns P m -> (forall a, P a -> Q a) -> returns Q m.
Proof. destruct m; cbn; auto. Qed.

Lemma returns_intro {A} (Q : A -> Prop) (m : res E A) a : m = Ok a -> Q a -> returns Q m.
Proof. by intros ->. Qed.

Lemma returns_loopM {S R} (I : S -> Prop) (m : S -> nat) (Q : R -> Prop)
    (body : S -> res E (S + R)) fuel s :
  I s -> (m s < fuel)%nat ->
  (forall s', I s' ->
     returns (fun r => match r with
                       | inl s'' => I s'' /\ (m s'' < m s')%nat
                       | inr v => Q v
                       end) (body s')) ->
  returns Q (loopM fuel body s).
Proof.
  intros HI Hm Hb. revert s HI Hm.
  induction fuel as [|n IH]; intros s HI Hm; [lia|]. cbn.
  eapply returns_bind; [by apply Hb|].
  intros [s'|v] Hr; [|done]. destruct Hr. apply IH; [done|lia].
Qed.

(** A [for] loop with an invariant over the number of turns. *)
Lemma returns_foldM {A B} (I : nat -> A -> Prop) (f : A -> B -> res E A) a l :
  I O a ->
  (forall k b a', l !! k = Some b -> I k a' -> returns (I (Datatypes.S k)) (f a' b)) ->
  returns (I (length l)) (foldM f a l).
Proof.
  revert a I. induction l as [|b l IH]; intros a I HI Hf; cbn; [done|].
  apply returns_bind with (I 1%nat); [by apply (Hf O)|].
  intros a' Ha'. apply (IH a' (fun k => I (Datatypes.S k))); [done|].
  intros k b' a'' Hk. by apply (Hf (Datatypes.S k)).
Qed.

Lemma foldM_app {A B} (f : A -> B -> res E A) a l1 l2 :
  foldM f a (l1 ++ l2) = a' ← foldM f a l1; foldM f a' l2.
Proof.
  revert a. induction l1 as [|b l1 IH]; intros a; cbn; [done|].
  destruct (f a b); cbn; auto.
Qed.

Lemma foldM_ext {A B} (f g : A -> B -> res E A) a l : (forall a b, In b l -> f a b = g a b) ->
  foldM f a l = foldM g a l.
Proof.
  revert a. induction l as [|b l IH]; intros a H; cbn; [done|]. rewrite H by by left.
  destruct (g a b); cbn; try done. apply IH. intros. apply H. by right.
Qed.

Lemma bind_assoc {A B C} (m : res E A) (f : A -> res E B) (g : B -> res E C) :
  (m ≫= f) ≫= g = m ≫= (fun a => f a ≫= g).
Proof. by destruct m. Qed.
End safe.

(** ** Two programs in step

    A loop that follows another one, whose result is known. *)
Section sim.
Context {E1 E2 S1 S2 R1 R2 : Type}.

Lemma loopM_sim (RS : S1 -> S2 -> Prop) (RR : R1 -> R2 -> Prop) (f : S1 -> res E1 (S1 + R1))
    (g : S2 -> res E2 (S2 + R2)) n s1 s2 v :
  RS s1 s2 ->
  (forall a b r, RS a b -> f a = Ok r -> exists r', g b = Ok r' /\
     match r, r' with
     | inl a', inl b' => RS a' b'
     | inr x, inr y => RR x y
     | _, _ => False
     end) ->
  loopM n f s1 = Ok v -> exists v', loopM n g s2 = Ok v' /\ RR v v'.
Proof.
  intros HR Hstep. revert s1 s2 HR. induction n as [|n IH]; intros s1 s2 HR; cbn; [done|].
  destruct (f s1) as [r| | |] eqn:Ef; cbn; try done. destruct (Hstep _ _ _ HR Ef) as (r' & -> & Hr). cbn.
  destruct r as [a'|x], r' as [b'|y]; try done.
  - intros H. by apply (IH a' b').
  - intros [= <-]. eauto.
Qed.

Lemma foldM_sim (RS : S1 -> S2 -> Prop) (RB : R1 -> R2 -> Prop) (f : S1 -> R1 -> res E1 S1)
    (g : S2 -> R2 -> res E2 S2) s1 s2 l1 l2 v :
  RS s1 s2 -> Forall2 RB l1 l2 ->
  (forall a b x y a', RS a b -> RB x y -> f a x = Ok a' -> exists b', g b y = Ok b' /\ RS a' b') ->
  foldM f s1 l1 = Ok v -> exists v', foldM g s2 l2 = Ok v' /\ RS v v'.
Proof.
  intros HR Hl Hstep. revert s1 s2 HR. induction Hl as [|x y l1 l2 Hxy Hl IH]; intros s1 s2 HR; cbn.
  - intros [= <-]. eauto.
  - destruct (f s1 x) as [a'| | |] eqn:Ef; cbn; try done.
    destruct (Hstep _ _ _ _ _ HR Hxy Ef) as (b' & -> & HR'). cbn. by apply IH.
Qed.
End sim.

Section refines.
Context {E : Type}.

Lemma refines_ok {A B} (R : A -> B -> Prop) a b : R a b -> refines R (Ok a : res E A) (Some b).
Proof. cbn. eauto. Qed.

Lemma refines_bind {A B C D} (R : A -> B -> Prop) (Q : C -> D -> Prop) (m : res E A) o
    (f : A -> res E C) (g : B -> option D) :
  refines R m o -> (forall a b, m = Ok a -> o = Some b -> R a b -> refines Q (f a) (g b)) ->
  refines Q (m ≫= f) (o ≫= g).
Proof.
  destruct m as [a|e| |]; cbn; try done.
  - intros (b & -> & HR) Hf. cbn. by apply Hf.
  - by intros ->.
Qed.

Lemma refines_mono {A B} (P Q : A -> B -> Prop) (m : res E A) o :
  refines P m o -> (forall a b, P a b -> Q a b) -> refines Q m o.
Proof. destruct m; cbn; try done. intros (b & Hb & HP) H. eauto. Qed.

(** A step the reference takes from the program. *)
Lemma refines_self {A} (Q : A -> Prop) (m : res E A) :
  safe Q m -> refines (fun a b => a = b /\ Q a) m (to_option m).
Proof. destruct m; cbn; try done. eauto. Qed.

(** A step that cannot fail and the reference has not. *)
Lemma refines_step {A C D} (P : A -> Prop) (Q : C -> D -> Prop) (m : res E A) (f : A -> res E C) o :
  returns P m -> (forall a, m = Ok a -> P a -> refines Q (f a) o) -> refines Q (m ≫= f) o.
Proof. destruct m; cbn; try done. auto. Qed.

(** A test both make. *)
Lemma refines_fail_if {A B} (Q : A -> B -> Prop) (b : bool) (e : E) (k : unit -> res E A) o :
  (b = false -> refines Q (k tt) o) -> refines Q (fail_if b e ≫= k) (if b then None else o).
Proof. destruct b; cbn; auto. Qed.

Lemma refines_safe {A B} (R : A -> B -> Prop) (m : res E A) o :
  refines R m o -> safe (fun a => exists b, o = Some b /\ R a b) m.
Proof. by destruct m. Qed.
End refines.

(** ** Lemmas on lists indexed by [Z] *)

Section zlist.
Context {A : Type}.
Implicit Types (l : list A) (i n : Z).

Lemma zlen_nonneg l : 0 <= zlen l.
Proof. unfold zlen. lia. Qed.

Lemma zlen_nil : zlen (@nil A) = 0.
Proof. done. Qed.

Lemma zlen_cons x l : zlen (x :: l) = zlen l + 1.
Proof. unfold zlen. cbn [length]. lia. Qed.

Lemma zlen_app l1 l2 : zlen (l1 ++ l2) = zlen l1 + zlen l2.
Proof. unfold zlen. rewrite length_app. lia. Qed.

Lemma zlen_zset l i x : zlen (zset l i x) = zlen l.
Proof. unfold zlen, zset. by rewrite length_insert. Qed.

Lemma zlen_zrepeat (x : A) n : 0 <= n -> zlen (zrepeat x n) = n.
Proof. unfold zlen, zrepeat. rewrite length_replicate. lia. Qed.

Lemma zlen_ztake l n : 0 <= n <= zlen l -> zlen (ztake n l) = n.
Proof. unfold zlen, ztake. rewrite length_take. lia. Qed.

Lemma zlen_zdrop l n : 0 <= n <= zlen l -> zlen (zdrop n l) = zlen l - n.
Proof. unfold zlen, zdrop. rewrite length_drop. lia. Qed.

Lemma zlen_vresize l n x : 0 <= n -> zlen (vresize l n x) = n.
Proof.
  intros. unfold vresize, zlen, ztake, zrepeat.
  rewrite length_app, length_take, length_replicate. lia.
Qed.

Lemma zget_Some l i x : zget l i = Some x <-> 0 <= i /\ l !! Z.to_nat i = Some x.
Proof. unfold zget. case_bool; split; intros Hi; destruct_and?; try done; try lia. Qed.

Lemma zget_nat l (k : nat) : zget l (Z.of_nat k) = l !! k.
Proof.
  unfold zget. rewrite Nat2Z.id. destruct (Z.ltb_spec (Z.of_nat k) 0); [lia|done].
Qed.

Lemma zget_lt l i x : zget l i = Some x -> 0 <= i < zlen l.
Proof.
  rewrite zget_Some. intros [? H%lookup_lt_Some]. unfold zlen. lia.
Qed.

Lemma zget_is_Some l i : 0 <= i < zlen l -> exists x, zget l i = Some x.
Proof.
  intros. unfold zlen in *.
  destruct (lookup_lt_is_Some_2 l (Z.to_nat i)) as [x Hx]; [lia|].
  exists x. rewrite zget_Some. split; [lia|done].
Qed.

Lemma zget_None l i : i < 0 \/ zlen l <= i -> zget l i = None.
Proof.
  intros H. destruct (zget l i) eqn:E; [|done]. apply zget_lt in E. lia.
Qed.

Lemma zget_zset_eq l i x : 0 <= i < zlen l -> zget (zset l i x) i = Some x.
Proof.
  intros. rewrite zget_Some. split; [lia|]. unfold zset, zlen in *.
  rewrite list_lookup_insert_eq; [done|lia].
Qed.

Lemma zget_zset_ne l i j x : 0 <= i -> i <> j -> zget (zset l i x) j = zget l j.
Proof.
  intros. unfold zget, zset. destruct (Z.ltb_spec j 0); [done|].
  rewrite list_lookup_insert_ne; [done|lia].
Qed.

Lemma zget_zset l i j x : 0 <= i < zlen l ->
  zget (zset l i x) j = if i =? j then Some x else zget l j.
Proof.
  intros. destruct (Z.eqb_spec i j) as [->|]; [by apply zget_zset_eq|].
  apply zget_zset_ne; lia.
Qed.

Lemma zget_app_l l1 l2 i : i < zlen l1 -> zget (l1 ++ l2) i = zget l1 i.
Proof.
  intros. unfold zget, zlen in *. destruct (Z.ltb_spec i 0); [done|].
  apply lookup_app_l. lia.
Qed.

Lemma zget_app_r l1 l2 i : zlen l1 <= i -> zget (l1 ++ l2) i = zget l2 (i - zlen l1).
Proof.
  intros. unfold zget, zlen in *.
  destruct (Z.ltb_spec i 0), (Z.ltb_spec (i - Z.of_nat (length l1)) 0); try lia.
  rewrite lookup_app_r by lia. f_equal. lia.
Qed.

Lemma zget_ztake l i n : 0 <= i < n -> zget (ztake n l) i = zget l i.
Proof.
  intros. unfold zget, ztake. destruct (Z.ltb_spec i 0); [lia|].
  rewrite lookup_take_lt; [done|lia].
Qed.

Lemma zget_zdrop l i n : 0 <= i -> 0 <= n -> zget (zdrop n l) i = zget l (n + i).
Proof.
  intros. unfold zget, zdrop.
  destruct (Z.ltb_spec i 0), (Z.ltb_spec (n + i) 0); try lia.
  rewrite lookup_drop. f_equal. lia.
Qed.

Lemma zget_zrepeat (x : A) n i : 0 <= i < n -> zget (zrepeat x n) i = Some x.
Proof.
  intros. rewrite zget_Some. split; [lia|]. unfold zrepeat.
  apply lookup_replicate. split; [done|lia].
Qed.

Lemma zlist_eq l1 l2 :
  zlen l1 = zlen l2 -> (forall i, 0 <= i < zlen l1 -> zget l1 i = zget l2 i) -> l1 = l2.
Proof.
  intros Hl H. apply list_eq. intros k. unfold zlen in *.
  destruct (decide (k < length l1)%nat) as [Hk|Hk].
  - specialize (H (Z.of_nat k)). rewrite !zget_nat in H. apply H. lia.
  - rewrite !lookup_ge_None_2; [done|lia..].
Qed.

Lemma zslice_Some l a b s : zslice l a b = Some s ->
  0 <= a <= b /\ b <= zlen l /\ s = ztake (b - a) (zdrop a l) /\ zlen s = b - a.
Proof.
  unfold zslice. case_bool; [|done]. intros [= <-].
  split_and!; [lia..|done|]. rewrite zlen_ztake; [done|].
  rewrite zlen_zdrop; lia.
Qed.

Lemma zslice_ok l a b : 0 <= a <= b -> b <= zlen l ->
  zslice l a b = Some (ztake (b - a) (zdrop a l)).
Proof.
  intros. unfold zslice.
  destruct (Z.leb_spec 0 a), (Z.leb_spec a b), (Z.leb_spec b (zlen l)); try lia. done.
Qed.

Lemma zget_slice l a b s i : zslice l a b = Some s -> 0 <= i < b - a ->
  zget s i = zget l (a + i).
Proof.
  intros H%zslice_Some ?. destruct_and!. subst s.
  rewrite zget_ztake, zget_zdrop; [done|lia..].
Qed.

Lemma Forall_zget (P : A -> Prop) l i x : Forall P l -> zget l i = Some x -> P x.
Proof. intros HP [_ H]%zget_Some. by eapply Forall_lookup_1. Qed.

Lemma Forall_slice (P : A -> Prop) l a b s :
  Forall P l -> zslice l a b = Some s -> Forall P s.
Proof.
  intros HP H%zslice_Some. destruct_and!. subst s.
  by apply Forall_take, Forall_drop.
Qed.

Lemma Forall_zset (P : A -> Prop) l i x : Forall P l -> P x -> Forall P (zset l i x).
Proof. intros. by apply Forall_insert. Qed.

Lemma Forall_zrepeat (P : A -> Prop) (x : A) n : P x -> Forall P (zrepeat x n).
Proof. intros. by apply Forall_replicate. Qed.

Lemma Forall_vresize (P : A -> Prop) l n x :
  Forall P l -> P x -> Forall P (vresize l n x).
Proof.
  intros. unfold vresize, ztake. apply Forall_app. split.
  - by apply Forall_take.
  - by apply Forall_zrepeat.
Qed.

Lemma vresize_id l n x : zlen l = n -> vresize l n x = l.
Proof.
  intros <-. unfold vresize, ztake, zrepeat, zlen. rewrite Nat2Z.id, firstn_all.
  rewrite Z.sub_diag. apply app_nil_r.
Qed.
End zlist.

Lemma ztake_all {A} (l : list A) n : zlen l <= n -> ztake n l = l.
Proof. intros. unfold ztake, zlen in *. apply firstn_all2. lia. Qed.

Lemma ztake_app_le {A} (l1 l2 : list A) n : n <= zlen l1 -> ztake n (l1 ++ l2) = ztake n l1.
Proof. intros. unfold ztake, zlen in *. apply take_app_le. lia. Qed.

Lemma ztake_app_add {A} (l1 l2 : list A) n : 0 <= n ->
  ztake (zlen l1 + n) (l1 ++ l2) = l1 ++ ztake n l2.
Proof.
  intros. unfold ztake, zlen. rewrite Z2Nat.inj_add, Nat2Z.id by lia.
  apply take_app_add.
Qed.

Lemma ztake_ztake {A} (l : list A) n m : n <= m -> ztake n (ztake m l) = ztake n l.
Proof.
  intros. unfold ztake. rewrite take_take. f_equal. lia.
Qed.

Lemma ztake_zrepeat {A} (x : A) n m : n <= m -> ztake n (zrepeat x m) = zrepeat x n.
Proof. intros. unfold ztake, zrepeat. rewrite take_replicate. f_equal. lia. Qed.

Lemma zrepeat_app {A} (x : A) n m : 0 <= n -> 0 <= m ->
  zrepeat x n ++ zrepeat x m = zrepeat x (n + m).
Proof.
  intros. unfold zrepeat. rewrite <- replicate_add. f_equal. lia.
Qed.

Section safe_lists.
Context {E A B : Type} (Q : B -> Prop).

Lemma safe_idx (l : list A) i (k : A -> res E B) :
  0 <= i < zlen l -> (forall x, zget l i = Some x -> safe Q (k x)) ->
  safe Q (idx l i ≫= k).
Proof.
  intros H Hk. destruct (zget_is_Some l i H) as [x Hx].
  unfold idx. rewrite Hx. cbn. auto.
Qed.

Lemma safe_store (l : list A) i x (k : list A -> res E B) :
  0 <= i < zlen l -> safe Q (k (zset l i x)) -> safe Q (store l i x ≫= k).
Proof.
  intros H Hk. unfold store.
  destruct (Z.leb_spec 0 i), (Z.ltb_spec i (zlen l)); try lia. done.
Qed.

Lemma safe_slice (l : list A) a b (k : list A -> res E B) :
  0 <= a <= b -> b <= zlen l ->
  (forall s, zslice l a b = Some s -> zlen s = b - a -> safe Q (k s)) ->
  safe Q (slice l a b ≫= k).
Proof.
  intros H1 H2 Hk. unfold slice. rewrite zslice_ok by done. cbn. apply Hk.
  - by apply zslice_ok.
  - rewrite zlen_ztake; [done|]. rewrite zlen_zdrop; lia.
Qed.
End safe_lists.

Lemma zget_fmap {A B} (f : A -> B) (l : list A) i : zget (f <$> l) i = f <$> zget l i.
Proof. unfold zget. case_bool; [done|]. apply list_lookup_fmap. Qed.

Lemma zget_zip_with {A B C} (f : A -> B -> C) l1 l2 i :
  zget (zip_with f l1 l2) i = x ← zget l1 i; y ← zget l2 i; Some (f x y).
Proof.
  unfold zget. case_bool; [done|]. rewrite lookup_zip_with. by destruct (l1 !! _), (l2 !! _).
Qed.

Lemma seqZ_zget m n k : 0 <= k < n -> zget (seqZ m n) k = Some (m + k).
Proof.
  intros. rewrite zget_Some. split; [lia|]. rewrite lookup_seqZ. lia.
Qed.

Lemma zlen_seqZ m n : 0 <= n -> zlen (seqZ m n) = n.
Proof. intros. unfold zlen. rewrite length_seqZ. lia. Qed.

Lemma zlen_fmap {A B} (f : A -> B) l : zlen (f <$> l) = zlen l.
Proof. unfold zlen. by rewrite length_fmap. Qed.

Lemma idx_ok {E A} (l : list A) i x : zget l i = Some x -> idx l i = (Ok x : res E A).
Proof. unfold idx. by intros ->. Qed.

Lemma idx_ztake {E A} (l : list A) n i : 0 <= i < n -> idx (ztake n l) i = (idx l i : res E A).
Proof. intros. unfold idx. by rewrite zget_ztake. Qed.

Lemma idx_inv {E A} (l : list A) i x : idx l i = (Ok x : res E A) -> zget l i = Some x.
Proof. unfold idx. destruct (zget l i); cbn; congruence. Qed.

Lemma store_inv {E A} (l l' : list A) i x : store l i x = (Ok l' : res E (list A)) ->
  0 <= i < zlen l /\ l' = zset l i x.
Proof. unfold store. destruct (_ && _) eqn:H; [|done]. intros [= <-]. bools. done. Qed.

Lemma store_ok {E A} (l : list A) i x :
  0 <= i < zlen l -> store l i x = (Ok (zset l i x) : res E (list A)).
Proof.
  intros. unfold store.
  destruct (Z.leb_spec 0 i), (Z.ltb_spec i (zlen l)); try lia. done.
Qed.

Lemma slice_ok {E A} (l : list A) a b :
  0 <= a <= b -> b <= zlen l ->
  slice l a b = (Ok (ztake (b - a) (zdrop a l)) : res E (list A)).
Proof. intros. unfold slice. by rewrite zslice_ok. Qed.

Lemma slice_prefix {E A} (l : list A) b :
  0 <= b <= zlen l -> slice l 0 b = (Ok (ztake b l) : res E (list A)).
Proof. intros. rewrite slice_ok by lia. by rewrite Z.sub_0_r. Qed.

Lemma slice_from_ok {E A} (l : list A) a :
  0 <= a <= zlen l -> slice_from l a = (Ok (zdrop a l) : res E (list A)).
Proof.
  intros. unfold slice_from. rewrite slice_ok by lia. do 2 f_equal.
  unfold ztake. rewrite firstn_all2; [done|].
  assert (zlen (zdrop a l) = zlen l - a) by (apply zlen_zdrop; lia).
  unfold zlen in *. lia.
Qed.

(** A [for] loop over a range, upwards and downwards. *)
Lemma returns_for_up {E A} (I : Z -> A -> Prop) (f : A -> Z -> res E A) a m n :
  0 <= n -> I m a -> (forall i a, m <= i < m + n -> I i a -> returns (I (i + 1)) (f a i)) ->
  returns (I (m + n)) (foldM f a (seqZ m n)).
Proof.
  intros Hn H0 Hf. eapply returns_mono; [apply (returns_foldM (fun k => I (m + Z.of_nat k)))|].
  - by rewrite Z.add_0_r.
  - intros k i a' Hk HI. apply lookup_seqZ in Hk as [-> Hk].
    replace (m + Z.of_nat (S k)) with (m + Z.of_nat k + 1) by lia. apply Hf; [lia|done].
  - intros a' Ha. rewrite length_seqZ in Ha. by rewrite Z2Nat.id in Ha.
Qed.

Lemma returns_for_down {E A} (I : Z -> A -> Prop) (f : A -> Z -> res E A) a m n :
  0 <= n -> I (m + n) a -> (forall i a, m <= i < m + n -> I (i + 1) a -> returns (I i) (f a i)) ->
  returns (I m) (foldM f a (reverse (seqZ m n))).
Proof.
  intros Hn H0 Hf. eapply returns_mono; [apply (returns_foldM (fun k => I (m + n - Z.of_nat k)))|].
  - by rewrite Z.sub_0_r.
  - intros k i a' Hk HI. apply reverse_lookup_Some in Hk as [Hk Hlt].
    apply lookup_seqZ in Hk as [-> Hk]. rewrite length_seqZ in *.
    replace (m + n - Z.of_nat (S k)) with (m + Z.of_nat (Z.to_nat n - S k)) by lia.
    apply Hf; [lia|]. by replace (m + Z.of_nat (Z.to_nat n - S k) + 1) with (m + n - Z.of_nat k) by lia.
  - intros a' Ha. rewrite length_reverse, length_seqZ, Z2Nat.id in Ha by lia. by replace (m + n - n) with m in Ha by lia.
Qed.

Lemma filter_true {A} (P : A -> Prop) `{!forall x, Decision (P x)} (l : list A) :
  (forall x, x ∈ l -> P x) -> filter P l = l.
Proof.
  induction l as [|x l IH]; intros HP; [done|].
  rewrite filter_cons_True by (apply HP; left). f_equal. apply IH. intros. apply HP. by right.
Qed.

Lemma filter_false {A} (P : A -> Prop) `{!forall x, Decision (P x)} (l : list A) :
  (forall x, x ∈ l -> ~ P x) -> filter P l = [].
Proof.
  induction l as [|x l IH]; intros HP; [done|].
  rewrite filter_cons_False by (apply HP; left). apply IH. intros. apply HP. by right.
Qed.

Lemma zget_cons {A} (x : A) l i :
  zget (x :: l) i = if i =? 0 then Some x else if i <? 0 then None else zget l (i - 1).
Proof.
  unfold zget. destruct (Z.eqb_spec i 0) as [->|]; [done|].
  destruct (Z.ltb_spec i 0); [done|]. destruct (Z.ltb_spec (i - 1) 0); [lia|].
  replace (Z.to_nat i) with (S (Z.to_nat (i - 1))) by lia. done.
Qed.

Lemma zget_cons_S {A} (x : A) l i : 0 <= i -> zget (x :: l) (i + 1) = zget l i.
Proof.
  intros Hi. rewrite zget_cons. case_bool; [lia|]. case_bool; [lia|]. by replace (i + 1 - 1) with i by lia.
Qed.

Lemma elem_of_enumerate {A} (l : list A) i x : (i, x) ∈ enumerate l <-> zget l i = Some x.
Proof.
  unfold enumerate. rewrite list_elem_of_lookup, zget_Some. split.
  - intros [k Hk]. rewrite list_lookup_imap in Hk. destruct (l !! k) eqn:E; [|done]. cbn in Hk. injection Hk as <- <-.
    split; [lia|]. by rewrite Nat2Z.id.
  - intros [Hi Hx]. exists (Z.to_nat i). rewrite list_lookup_imap, Hx. cbn. by rewrite Z2Nat.id.
Qed.

Lemma enumerate_snd {A} (l : list A) : snd <$> enumerate l = l.
Proof.
  apply list_eq. intros i. unfold enumerate. rewrite list_lookup_fmap, list_lookup_imap. by destruct (l !! i).
Qed.

Lemma returns_on_slice {E A} (Q : list A -> Prop) (l : list A) a b (f : list A -> res E (list A)) :
  0 <= a -> a <= b -> b <= zlen l -> returns Q (f (ztake (b - a) (zdrop a l))) ->
  returns (fun l' => exists s, Q s /\ l' = ztake a l ++ s ++ zdrop b l) (on_slice l a b f).
Proof.
  intros Ha Hb Hl Hf. unfold on_slice. rewrite slice_ok by lia. cbn [mbind res_bind].
  eapply returns_bind; [exact Hf|]. intros s Hs. cbn [returns]. by exists s.
Qed.

Lemma copy_from_slice_eq {E A} (l s : list A) a b : 0 <= a -> b <= zlen l -> b - a = zlen s ->
  copy_from_slice l a b s = (Ok (ztake a l ++ s ++ zdrop b l) : res E (list A)).
Proof.
  intros Ha Hb Hs. pose proof (zlen_nonneg s). unfold copy_from_slice, on_slice. rewrite slice_ok by lia.
  cbn [mbind res_bind]. rewrite zlen_ztake by (rewrite zlen_zdrop; lia). by rewrite (proj2 (Z.eqb_eq (b - a) (zlen s))).
Qed.

(** One step of a [safe] goal along the structure of the program. *)
Ltac safe_step :=
  lazymatch goal with
  | |- safe _ (Ok _) => apply safe_ok
  | |- safe _ (mret _) => apply safe_ret
  | |- safe _ (Err _) => apply safe_err
  | |- safe _ (idx _ _ ≫= _) => apply safe_idx; [| intros ? ?]
  | |- safe _ (store _ _ _ ≫= _) => apply safe_store
  | |- safe _ (slice _ _ _ ≫= _) => apply safe_slice; [| | intros ? ? ?]
  | |- safe _ (slice_from _ _ ≫= _) => apply safe_slice; [| | intros ? ? ?]
  | |- safe _ (rassert _ ≫= _) => apply safe_rassert
  | |- safe _ (fail_if _ _ ≫= _) => apply safe_fail_if; intros ?
  | |- safe _ (ok_or _ _ ≫= _) => apply safe_ok_or; intros ? ?
  | |- safe _ (unwrap _ ≫= _) => apply safe_unwrap; [| intros ? ?]
  | |- safe _ (_ ≫= _) => eapply safe_bind
  | |- safe _ (if ?b then _ else _) => destruct b eqn:?; bools
  | |- safe _ (match ?o with _ => _ end) => destruct o eqn:?
  end.

Create HintDb zlist.
Create Rewrite HintDb zlist.
#[export] Hint Rewrite @zlen_zset @zlen_app @zlen_cons @zlen_nil @length_insert : zlist.
#[export] Hint Resolve zlen_nonneg Forall_zset Forall_zrepeat : zlist.

(** Bytes, by computation. *)
Lemma bytes_check l : forallb (fun x => (0 <=? x) && (x <? 256)) l = true -> bytes l.
Proof.
  intros Hall. apply Forall_forall. intros x Hx. rewrite forallb_forall in Hall. apply list_elem_of_In in Hx. specialize (Hall x Hx). unfold is_byte. lia.
Qed.
