(* ===== verification/Words.v ===== *)
(** * Machine integers

    The fixed-width unsigned arithmetic of Rust on [Z]: a [w]-bit value is a
    [Z] in [0, 2^w), the wrapping operations reduce modulo [2^w], and
    [u64::from_le_bytes] and its kin are [le_val]. Also the bit-slice
    arithmetic that the bit streams are specified with. *)

From S2P Require Import Prelude.

(** ** Operations *)

(** Truncation to [w] bits ([as u8], [as u16], [as u32], [as u64]). *)
Definition wrap (w x : Z) : Z := x mod 2 ^ w.

Definition wadd (w a b : Z) : Z := wrap w (a + b).
Definition wsub (w a b : Z) : Z := wrap w (a - b).
Definition wmul (w a b : Z) : Z := wrap w (a * b).

(** [x << n] of a [w]-bit value, [n < w]: bits shifted out are lost. *)
Definition wshl (w x n : Z) : Z := wrap w (Z.shiftl x n).

(** [x.rotate_left(n)]. *)
Definition rotl (w x n : Z) : Z := Z.lor (wshl w x n) (Z.shiftr x (w - n)).

(** [!x]. *)
Definition wnot (w x : Z) : Z := 2 ^ w - 1 - x.

(** Two's complement reading of a [w]-bit value. *)
Definition signed (w x : Z) : Z := if x <? 2 ^ (w - 1) then x else x - 2 ^ w.

(** [x.leading_zeros()]. *)
Definition leading_zeros (w x : Z) : Z :=
  if x <=? 0 then w else w - 1 - Z.log2 x.

Fixpoint ctz_pos (p : positive) : Z :=
  match p with
  | xO q => ctz_pos q + 1
  | _ => 0
  end.

(** [x.trailing_zeros()]. *)
Definition trailing_zeros (w x : Z) : Z :=
  match x with
  | Zpos p => ctz_pos p
  | _ => w
  end.

(** [x.is_power_of_two()]. *)
Definition is_power_of_two (x : Z) : bool :=
  (0 <? x) && (x =? 2 ^ Z.log2 x).

(** [from_le_bytes]. *)
Fixpoint le_val (bs : list Z) : Z :=
  match bs with
  | [] => 0
  | b :: bs' => b + 256 * le_val bs'
  end.

(** [to_le_bytes] of an [8 * n]-bit value. *)
Fixpoint le_bytes (n : nat) (v : Z) : list Z :=
  match n with
  | O => []
  | S n' => v mod 256 :: le_bytes n' (v / 256)
  end.

(** Bits [a, a + n) of [x]: the specification of a bit-stream read. *)
Definition bits (x a n : Z) : Z := (x / 2 ^ a) mod 2 ^ n.

(** Ceiling division ([usize::div_ceil]). *)
Definition div_ceil (a b : Z) : Z := (a + b - 1) / b.

(** ** Lemmas *)

(** [lia] with the quotients and remainders by constants. *)
Ltac divlia := Z.div_mod_to_equations; lia.

(** [lia] of 32-bit values. *)
Ltac u32lia := change (2 ^ 32) with 4294967296 in *; lia.

Lemma pow2_pos n : 0 <= n -> 0 < 2 ^ n.
Proof. intros. apply Z.pow_pos_nonneg; lia. Qed.

Lemma pow2_add a b : 0 <= a -> 0 <= b -> 2 ^ (a + b) = 2 ^ a * 2 ^ b.
Proof. apply Z.pow_add_r. Qed.

Lemma pow2_le a b : 0 <= a <= b -> 2 ^ a <= 2 ^ b.
Proof. intros. apply Z.pow_le_mono_r; lia. Qed.

Lemma pow2_lt a b : 0 <= a < b -> 2 ^ a < 2 ^ b.
Proof. intros. apply Z.pow_lt_mono_r; lia. Qed.

Lemma wrap_range w x : 0 <= w -> 0 <= wrap w x < 2 ^ w.
Proof. intros. apply Z.mod_pos_bound, pow2_pos. lia. Qed.

Lemma wrap_small w x : 0 <= x < 2 ^ w -> wrap w x = x.
Proof. apply Z.mod_small. Qed.

Lemma wshl_div w x n : 0 <= n -> wshl w x n = (x * 2 ^ n) mod 2 ^ w.
Proof. intros. unfold wshl, wrap. by rewrite Z.shiftl_mul_pow2 by lia. Qed.

Lemma shiftr_div x n : 0 <= n -> Z.shiftr x n = x / 2 ^ n.
Proof. apply Z.shiftr_div_pow2. Qed.

Lemma land_mod x n : 0 <= n -> Z.land x (2 ^ n - 1) = x mod 2 ^ n.
Proof.
  intros. rewrite <- Z.land_ones by lia. by rewrite Z.ones_equiv, Z.sub_1_r.
Qed.

Lemma bits_range x a n : 0 <= n -> 0 <= bits x a n < 2 ^ n.
Proof. intros. apply Z.mod_pos_bound, pow2_pos. lia. Qed.

Lemma bits_0 x a : bits x a 0 = 0.
Proof. unfold bits. apply Z.mod_1_r. Qed.

Lemma testbit_bits x a n i : 0 <= a -> 0 <= n -> 0 <= i ->
  Z.testbit (bits x a n) i = (i <? n) && Z.testbit x (a + i).
Proof.
  intros. unfold bits. destruct (Z.ltb_spec i n).
  - rewrite Z.mod_pow2_bits_low, Z.div_pow2_bits by lia. cbn. f_equal. lia.
  - by rewrite Z.mod_pow2_bits_high by lia.
Qed.

(** A slice of a slice. *)
Lemma bits_bits x a n b m : 0 <= a -> 0 <= b -> 0 <= m -> b + m <= n ->
  bits (bits x a n) b m = bits x (a + b) m.
Proof.
  intros. apply Z.bits_inj'. intros i Hi.
  rewrite !testbit_bits by lia.
  destruct (Z.ltb_spec i m), (Z.ltb_spec (b + i) n); cbn; try done; try lia.
  f_equal. lia.
Qed.

(** A slice splits into its low and high parts. *)
Lemma bits_split x a n m : 0 <= a -> 0 <= n -> 0 <= m ->
  bits x a (n + m) = bits x a n + 2 ^ n * bits x (a + n) m.
Proof.
  intros. unfold bits.
  assert (0 < 2 ^ a) by (apply pow2_pos; lia).
  assert (0 < 2 ^ n) by (apply pow2_pos; lia).
  assert (0 < 2 ^ m) by (apply pow2_pos; lia).
  rewrite (pow2_add n m), (pow2_add a n) by lia.
  rewrite Z.rem_mul_r by lia.
  by rewrite Z.div_div by lia.
Qed.

Lemma bits_small x n : 0 <= x < 2 ^ n -> bits x 0 n = x.
Proof. intros. unfold bits. rewrite Z.div_1_r. by apply Z.mod_small. Qed.

(** Reading [n] bits below the top [64 - c] of a container, by the two
    shifts of [BIT_lookBits]. *)
Lemma shift_look w x c n : 0 <= c -> 0 <= n -> c + n <= w ->
  ((x * 2 ^ c) mod 2 ^ w) / 2 ^ (w - n) = bits x (w - c - n) n.
Proof.
  intros. apply Z.bits_inj'. intros i Hi.
  rewrite testbit_bits by lia. rewrite Z.div_pow2_bits by lia.
  destruct (Z.ltb_spec i n).
  - rewrite Z.mod_pow2_bits_low by lia. rewrite Z.mul_pow2_bits by lia.
    cbn. f_equal. lia.
  - rewrite Z.mod_pow2_bits_high by lia. done.
Qed.

Lemma le_val_app l1 l2 : le_val (l1 ++ l2) = le_val l1 + 2 ^ (8 * zlen l1) * le_val l2.
Proof.
  induction l1 as [|b l1 IH]; cbn [le_val app].
  - change (2 ^ (8 * zlen (@nil Z))) with 1. lia.
  - pose proof (zlen_nonneg l1).
    rewrite IH, zlen_cons, (Z.mul_add_distr_l 8), pow2_add by lia.
    change (2 ^ (8 * 1)) with 256. lia.
Qed.

Lemma le_val_range l : bytes l -> 0 <= le_val l < 2 ^ (8 * zlen l).
Proof.
  induction 1 as [|b l Hb Hl IH]; cbn [le_val].
  - change (2 ^ (8 * zlen (@nil Z))) with 1. lia.
  - pose proof (zlen_nonneg l).
    rewrite zlen_cons, (Z.mul_add_distr_l 8), pow2_add by lia.
    change (2 ^ (8 * 1)) with 256. unfold is_byte in Hb. lia.
Qed.

Lemma le_val_take_drop l a : bytes l -> 0 <= a <= zlen l ->
  le_val (ztake a l) = le_val l mod 2 ^ (8 * a) /\
  le_val (zdrop a l) = le_val l / 2 ^ (8 * a).
Proof.
  intros Hl Ha.
  pose proof (le_val_range (ztake a l) (Forall_take _ _ _ Hl)) as Hr.
  rewrite zlen_ztake in Hr by done.
  assert (le_val l = le_val (ztake a l) + 2 ^ (8 * a) * le_val (zdrop a l)) as He.
  { rewrite <- (take_drop (Z.to_nat a) l) at 1. rewrite le_val_app.
    fold (ztake a l). rewrite zlen_ztake by done. done. }
  split.
  - symmetry. rewrite He, Z.mul_comm, Z_mod_plus_full. apply Z.mod_small. lia.
  - symmetry. rewrite He, Z.mul_comm, Z.div_add by lia.
    rewrite Z.div_small by lia. done.
Qed.

(** The value of a slice is a bit slice of the value. *)
Lemma le_val_slice l a b s : bytes l -> zslice l a b = Some s ->
  le_val s = bits (le_val l) (8 * a) (8 * (b - a)).
Proof.
  intros Hl H%zslice_Some. destruct H as (? & ? & -> & ?).
  assert (bytes (zdrop a l)) as Hd by by apply Forall_drop.
  rewrite (proj1 (le_val_take_drop (zdrop a l) (b - a) Hd ltac:(rewrite zlen_zdrop; lia))).
  by rewrite (proj2 (le_val_take_drop l a Hl ltac:(lia))).
Qed.

Lemma length_le_bytes n v : length (le_bytes n v) = n.
Proof. revert v. induction n; intros; cbn; auto. Qed.

Lemma le_bytes_bytes n v : bytes (le_bytes n v).
Proof.
  revert v. induction n; intros; cbn; constructor; auto.
  unfold is_byte. divlia.
Qed.

Lemma le_val_le_bytes n v : le_val (le_bytes n v) = v mod 2 ^ (8 * Z.of_nat n).
Proof.
  revert v. induction n as [|n IH]; intros v; cbn [le_bytes le_val].
  - by rewrite Z.mod_1_r.
  - rewrite IH. replace (8 * Z.of_nat (S n)) with (8 + 8 * Z.of_nat n) by lia.
    rewrite pow2_add by lia. change (2 ^ 8) with 256.
    rewrite Z.rem_mul_r by (try apply pow2_pos; lia). lia.
Qed.

Lemma le_bytes_le_val l : bytes l -> le_bytes (length l) (le_val l) = l.
Proof.
  induction 1 as [|b l Hb Hl IH]; cbn [le_bytes le_val length]; [done|].
  unfold is_byte in Hb.
  assert ((b + 256 * le_val l) mod 256 = b) as -> by
    (symmetry; apply Zmod_unique with (le_val l); lia).
  assert ((b + 256 * le_val l) / 256 = le_val l) as -> by
    (symmetry; apply Zdiv_unique with b; lia).
  by rewrite IH.
Qed.

Lemma leading_zeros_log2 w x : 0 < x -> leading_zeros w x = w - 1 - Z.log2 x.
Proof. intros. unfold leading_zeros. destruct (Z.leb_spec x 0); lia. Qed.

Lemma log2_lt_pow2 x n : 0 < x -> 0 <= n -> x < 2 ^ n -> Z.log2 x < n.
Proof. intros. apply Z.log2_lt_pow2; lia. Qed.

Lemma byte_log2 b : 0 < b < 256 -> 0 <= Z.log2 b < 8.
Proof.
  intros. split; [apply Z.log2_nonneg|]. apply log2_lt_pow2; cbn; lia.
Qed.

Lemma lor_disjoint_add x y n : 0 <= n -> 0 <= x < 2 ^ n -> Z.lor x (y * 2 ^ n) = x + y * 2 ^ n.
Proof.
  intros Hn Hx. rewrite <- Z.lxor_lor, Z.add_nocarry_lxor; try done.
  all: apply Z.bits_inj'; intros i Hi; rewrite Z.land_spec, Z.testbit_0_l;
    destruct (Z.ltb_spec i n) as [Hlt|Hge].
  1,3: rewrite (Z.mul_pow2_bits_low y n i) by lia; apply andb_false_r.
  all: rewrite <- (Z.mod_small x (2 ^ n)) by lia; rewrite Z.mod_pow2_bits_high by lia; done.
Qed.

#[export] Hint Resolve le_bytes_bytes : zlist.

(** ** Trailing zeros *)

Lemma ctz_pos_nonneg p : 0 <= ctz_pos p.
Proof. induction p; cbn; lia. Qed.

Lemma ctz_pos_spec p : exists k, 0 <= k /\ Zpos p = 2 ^ ctz_pos p * (2 * k + 1).
Proof.
  induction p as [p _|p (k & ? & IH)|]; cbn [ctz_pos].
  - exists (Zpos p). lia.
  - exists k. split; [done|]. pose proof (ctz_pos_nonneg p).
    rewrite Z.pow_add_r by lia. lia.
  - exists 0. lia.
Qed.

Lemma trailing_zeros_spec w x : 0 < x -> exists k, 0 <= k /\
  0 <= trailing_zeros w x /\ x = 2 ^ trailing_zeros w x * (2 * k + 1).
Proof.
  intros. destruct x as [|p|p]; try lia. cbn.
  destruct (ctz_pos_spec p) as (k & ? & ?). exists k.
  split_and!; auto using ctz_pos_nonneg.
Qed.

Lemma trailing_zeros_lt w x n : 0 < x < 2 ^ n -> 0 <= trailing_zeros w x < n.
Proof.
  intros. destruct (trailing_zeros_spec w x) as (k & ? & ? & Hx); [lia|].
  split; [done|]. apply (Z.pow_lt_mono_r_iff 2); [lia| |].
  - destruct (Z_lt_ge_dec n 0); [|lia]. rewrite Z.pow_neg_r in * by lia. lia.
  - nia.
Qed.

Lemma trailing_zeros_mod w x n : 0 < x -> 0 <= n <= trailing_zeros w x -> x mod 2 ^ n = 0.
Proof.
  intros. destruct (trailing_zeros_spec w x) as (k & ? & ? & Hx); [lia|].
  rewrite Hx. replace (trailing_zeros w x) with (n + (trailing_zeros w x - n)) by lia.
  rewrite pow2_add by lia. rewrite <- Z.mul_assoc, Z.mul_comm.
  apply Z_mod_mult.
Qed.
