(* ===== verification/Constants.v ===== *)
(** * Format constants and sequence codes

    [src/constants.rs] and the constant tables of [src/decode.rs]: the block
    and literals types, the base values and extra-bit counts of the sequence
    codes, the predefined distributions, and the three functions that map a
    literal length, a match length and an offset to its code. *)

From S2P Require Import Prelude Words.

(** ** [src/constants.rs] *)

Definition ZSTD_MAGIC : Z := 0xFD2FB528.
Definition ZSTD_BLOCKSIZELOG_MAX : Z := 17.
Definition ZSTD_BLOCKSIZE_MAX : Z := 2 ^ ZSTD_BLOCKSIZELOG_MAX.

(** The development models a 64-bit target: [usize] has 64 bits. *)
Definition USIZE_BITS : Z := 64.
Definition MEM_32BITS : bool := USIZE_BITS =? 32.
Definition ZSTD_WINDOWLOG_MAX : Z := if MEM_32BITS then 30 else 31.
Definition ZSTD_HASHLOG_MIN : Z := 6.
Definition ZSTD_HASHLOG_MAX : Z :=
  if ZSTD_WINDOWLOG_MAX <? 30 then ZSTD_WINDOWLOG_MAX else 30.
Definition ZSTD_MINMATCH : Z := 3.

Definition BLOCK_TYPE_RAW : Z := 0.
Definition BLOCK_TYPE_RLE : Z := 1.
Definition BLOCK_TYPE_COMPRESSED : Z := 2.

Definition LIT_TYPE_RAW : Z := 0.
Definition LIT_TYPE_RLE : Z := 1.
Definition LIT_TYPE_COMPRESSED : Z := 2.
Definition LIT_TYPE_TREELESS : Z := 3.

Definition SEQ_MODE_PREDEFINED : Z := 0.
Definition SEQ_MODE_RLE : Z := 1.
Definition SEQ_MODE_FSE : Z := 2.
Definition SEQ_MODE_REPEAT : Z := 3.

Definition MAX_LL : Z := 35.
Definition MAX_ML : Z := 52.
Definition MAX_OFF : Z := 31.

Definition LL_FSE_LOG : Z := 9.
Definition ML_FSE_LOG : Z := 9.
Definition OFF_FSE_LOG : Z := 8.

Definition LL_DEFAULT_NORM_LOG : Z := 6.
Definition ML_DEFAULT_NORM_LOG : Z := 6.
Definition OF_DEFAULT_NORM_LOG : Z := 5.

Definition LL_BITS : list Z := [
  0; 0; 0; 0; 0; 0; 0; 0; 0; 0; 0; 0; 0; 0; 0; 0; 1; 1; 1; 1; 2; 2; 3; 3;
  4; 6; 7; 8; 9; 10; 11; 12; 13; 14; 15; 16
].

Definition LL_BASE : list Z := [
  0; 1; 2; 3; 4; 5; 6; 7; 8; 9; 10; 11; 12; 13; 14; 15; 16; 18; 20; 22; 24;
  28; 32; 40; 48; 64; 128; 256; 512; 1024; 2048; 4096; 8192; 16384; 32768;
  65536
].

Definition ML_BITS : list Z := [
  0; 0; 0; 0; 0; 0; 0; 0; 0; 0; 0; 0; 0; 0; 0; 0; 0; 0; 0; 0; 0; 0; 0; 0;
  0; 0; 0; 0; 0; 0; 0; 0; 1; 1; 1; 1; 2; 2; 3; 3; 4; 4; 5; 7; 8; 9; 10; 11;
  12; 13; 14; 15; 16
].

Definition ML_BASE : list Z := [
  3; 4; 5; 6; 7; 8; 9; 10; 11; 12; 13; 14; 15; 16; 17; 18; 19; 20; 21; 22;
  23; 24; 25; 26; 27; 28; 29; 30; 31; 32; 33; 34; 35; 37; 39; 41; 43; 47;
  51; 59; 67; 83; 99; 131; 259; 515; 1027; 2051; 4099; 8195; 16387; 32771;
  65539
].

Definition OF_BITS : list Z := [
  0; 1; 2; 3; 4; 5; 6; 7; 8; 9; 10; 11; 12; 13; 14; 15; 16; 17; 18; 19; 20;
  21; 22; 23; 24; 25; 26; 27; 28; 29; 30; 31
].

Definition LL_DEFAULT_NORM : list Z := [
  4; 3; 2; 2; 2; 2; 2; 2; 2; 2; 2; 2; 2; 1; 1; 1; 2; 2; 2; 2; 2; 2; 2; 2;
  2; 3; 2; 1; 1; 1; 1; 1; (-1); (-1); (-1); (-1)
].

Definition ML_DEFAULT_NORM : list Z := [
  1; 4; 3; 2; 2; 2; 2; 2; 2; 1; 1; 1; 1; 1; 1; 1; 1; 1; 1; 1; 1; 1; 1; 1;
  1; 1; 1; 1; 1; 1; 1; 1; 1; 1; 1; 1; 1; 1; 1; 1; 1; 1; 1; 1; 1; 1; (-1);
  (-1); (-1); (-1); (-1); (-1); (-1)
].

Definition OF_DEFAULT_NORM : list Z := [
  1; 1; 1; 1; 1; 1; 2; 2; 2; 1; 1; 1; 1; 1; 1; 1; 1; 1; 1; 1; 1; 1; 1; 1;
  (-1); (-1); (-1); (-1); (-1)
].

Definition LL_CODE_TABLE : list Z := [
  0; 1; 2; 3; 4; 5; 6; 7; 8; 9; 10; 11; 12; 13; 14; 15; 16; 16; 17; 17; 18;
  18; 19; 19; 20; 20; 20; 20; 21; 21; 21; 21; 22; 22; 22; 22; 22; 22; 22;
  22; 23; 23; 23; 23; 23; 23; 23; 23; 24; 24; 24; 24; 24; 24; 24; 24; 24;
  24; 24; 24; 24; 24; 24; 24
].

Definition ML_CODE_TABLE : list Z := [
  0; 1; 2; 3; 4; 5; 6; 7; 8; 9; 10; 11; 12; 13; 14; 15; 16; 17; 18; 19; 20;
  21; 22; 23; 24; 25; 26; 27; 28; 29; 30; 31; 32; 32; 33; 33; 34; 34; 35;
  35; 36; 36; 36; 36; 37; 37; 37; 37; 38; 38; 38; 38; 38; 38; 38; 38; 39;
  39; 39; 39; 39; 39; 39; 39; 40; 40; 40; 40; 40; 40; 40; 40; 40; 40; 40;
  40; 40; 40; 40; 40; 41; 41; 41; 41; 41; 41; 41; 41; 41; 41; 41; 41; 41;
  41; 41; 41; 42; 42; 42; 42; 42; 42; 42; 42; 42; 42; 42; 42; 42; 42; 42;
  42; 42; 42; 42; 42; 42; 42; 42; 42; 42; 42; 42; 42; 42; 42; 42; 42
].

(** [highbit32]: 0 for inputs 0 and 1. *)
Definition highbit32 (v : Z) : Z :=
  if v <=? 1 then 0 else 31 - leading_zeros 32 v.

Definition LL_DELTA : Z := 19.
Definition ML_DELTA : Z := 36.

Definition ll_code {E} (litlen : Z) : res E Z :=
  if litlen <=? 63 then idx LL_CODE_TABLE litlen
  else Ok (wrap 8 (highbit32 litlen + LL_DELTA)).

Definition ml_code {E} (ml_base : Z) : res E Z :=
  if ml_base <=? 127 then idx ML_CODE_TABLE ml_base
  else Ok (wrap 8 (highbit32 ml_base + ML_DELTA)).

Definition off_code (offset : Z) : Z := wrap 8 (highbit32 offset).

(** ** The decoder's own tables ([src/decode.rs]) *)

Definition MIN_WINDOW_SIZE : Z := 1024.
Definition MAX_BLOCK_SIZE : Z := 128 * 1024.
Definition HUF_TABLELOG_MAX : Z := 11.
Definition ACC_LOG_OFFSET : Z := 5.
Definition MAX_LITERAL_LENGTH_CODE : Z := 35.
Definition MAX_MATCH_LENGTH_CODE : Z := 52.
Definition MAX_OFFSET_CODE : Z := 31.
Definition LL_MAX_LOG : Z := 9.
Definition ML_MAX_LOG : Z := 9.
Definition OF_MAX_LOG : Z := 8.
Definition LL_DEFAULT_ACC_LOG : Z := 6.
Definition ML_DEFAULT_ACC_LOG : Z := 6.
Definition OF_DEFAULT_ACC_LOG : Z := 5.

Definition LITERALS_LENGTH_DEFAULT_DISTRIBUTION : list Z := [
  4; 3; 2; 2; 2; 2; 2; 2; 2; 2; 2; 2; 2; 1; 1; 1; 2; 2; 2; 2; 2; 2; 2; 2;
  2; 3; 2; 1; 1; 1; 1; 1; (-1); (-1); (-1); (-1)
].

Definition MATCH_LENGTH_DEFAULT_DISTRIBUTION : list Z := [
  1; 4; 3; 2; 2; 2; 2; 2; 2; 1; 1; 1; 1; 1; 1; 1; 1; 1; 1; 1; 1; 1; 1; 1;
  1; 1; 1; 1; 1; 1; 1; 1; 1; 1; 1; 1; 1; 1; 1; 1; 1; 1; 1; 1; 1; 1; (-1);
  (-1); (-1); (-1); (-1); (-1); (-1)
].

Definition OFFSET_DEFAULT_DISTRIBUTION : list Z := [
  1; 1; 1; 1; 1; 1; 2; 2; 2; 1; 1; 1; 1; 1; 1; 1; 1; 1; 1; 1; 1; 1; 1; 1;
  (-1); (-1); (-1); (-1); (-1)
].

Definition DEC_LL_BASE : list Z := [
  0; 1; 2; 3; 4; 5; 6; 7; 8; 9; 10; 11; 12; 13; 14; 15; 16; 18; 20; 22; 24;
  28; 32; 40; 48; 64; 128; 256; 512; 1024; 2048; 4096; 8192; 16384; 32768;
  65536
].

Definition DEC_LL_BITS : list Z := [
  0; 0; 0; 0; 0; 0; 0; 0; 0; 0; 0; 0; 0; 0; 0; 0; 1; 1; 1; 1; 2; 2; 3; 3;
  4; 6; 7; 8; 9; 10; 11; 12; 13; 14; 15; 16
].

Definition DEC_ML_BASE : list Z := [
  3; 4; 5; 6; 7; 8; 9; 10; 11; 12; 13; 14; 15; 16; 17; 18; 19; 20; 21; 22;
  23; 24; 25; 26; 27; 28; 29; 30; 31; 32; 33; 34; 35; 37; 39; 41; 43; 47;
  51; 59; 67; 83; 99; 131; 259; 515; 1027; 2051; 4099; 8195; 16387; 32771;
  65539
].

Definition DEC_ML_BITS : list Z := [
  0; 0; 0; 0; 0; 0; 0; 0; 0; 0; 0; 0; 0; 0; 0; 0; 0; 0; 0; 0; 0; 0; 0; 0;
  0; 0; 0; 0; 0; 0; 0; 0; 1; 1; 1; 1; 2; 2; 3; 3; 4; 4; 5; 7; 8; 9; 10; 11;
  12; 13; 14; 15; 16
].

Definition DEC_OF_BASE : list Z := [
  0; 1; 1; 5; 13; 29; 61; 125; 253; 509; 1021; 2045; 4093; 8189; 16381;
  32765; 65533; 131069; 262141; 524285; 1048573; 2097149; 4194301; 8388605;
  16777213; 33554429; 67108861; 134217725; 268435453; 536870909;
  1073741821; 2147483645
].

Definition DEC_OF_BITS : list Z := [
  0; 1; 2; 3; 4; 5; 6; 7; 8; 9; 10; 11; 12; 13; 14; 15; 16; 17; 18; 19; 20;
  21; 22; 23; 24; 25; 26; 27; 28; 29; 30; 31
].

Definition WILDCOPY_OVERLENGTH : Z := 32.
Definition WILDCOPY_VECLEN : Z := 16.
Definition ZSTD_REP_NUM : Z := 3.

(** ** Lemmas *)

(** [v] has the highest set bit [k]. *)
Lemma highbit32_log2 v : 1 <= v -> highbit32 v = Z.log2 v.
Proof.
  intros. unfold highbit32. destruct (Z.leb_spec v 1).
  - replace v with 1 by lia. done.
  - rewrite leading_zeros_log2 by lia. lia.
Qed.

Lemma log2_bounds v n : 0 < v < 2 ^ n -> 0 <= Z.log2 v < n.
Proof.
  intros. split; [apply Z.log2_nonneg|]. apply Z.log2_lt_pow2; lia.
Qed.

(** The low [log2 v] bits of [v] are what is left above its highest bit. *)
Lemma mod_highbit v : 0 < v -> v mod 2 ^ Z.log2 v = v - 2 ^ Z.log2 v.
Proof.
  intros. pose proof (Z.log2_spec v ltac:(lia)) as [H1 H2].
  rewrite Z.pow_succ_r in H2 by apply Z.log2_nonneg.
  symmetry. apply Z.mod_unique with 1; lia.
Qed.

(** A code table entry: [value] is the base plus its low extra bits. *)
Definition code_decodes (base nbits : list Z) (off c v : Z) : bool :=
  match zget base c, zget nbits c with
  | Some b, Some n => b + v mod 2 ^ n =? v + off
  | _, _ => false
  end.

(** [f] holds at every value below [n]. *)
Definition forall_below (n : Z) (f : Z -> bool) : bool :=
  forallb f (seqZ 0 n).

Lemma forall_below_spec n f : forall_below n f = true -> forall i, 0 <= i < n -> f i = true.
Proof.
  intros H i Hi. unfold forall_below in H. rewrite forallb_forall in H.
  apply H, list_elem_of_In, elem_of_seqZ. lia.
Qed.

(** Codes past the lookup tables: one per power of two. *)
Lemma big_code_decodes base nbits off delta lo hi v :
  forall_below (hi - lo) (fun i =>
    code_decodes base nbits off (lo + i + delta) (2 ^ (lo + i)) &&
    match zget nbits (lo + i + delta) with Some n => n =? lo + i | None => false end) = true ->
  0 <= lo -> 2 ^ lo <= v < 2 ^ hi ->
  code_decodes base nbits off (Z.log2 v + delta) v = true.
Proof.
  intros Hall Hlo [Hv1 Hv2].
  assert (0 < v) by (pose proof (pow2_pos lo); lia).
  assert (lo <= Z.log2 v) by (apply Z.log2_le_pow2; lia).
  assert (Z.log2 v < hi) by (apply Z.log2_lt_pow2; lia).
  specialize (forall_below_spec _ _ Hall (Z.log2 v - lo) ltac:(lia)) as Hk.
  cbv beta in Hk. replace (lo + (Z.log2 v - lo)) with (Z.log2 v) in Hk by lia.
  unfold code_decodes in *.
  destruct (zget base (Z.log2 v + delta)) as [b|]; [|done].
  destruct (zget nbits (Z.log2 v + delta)) as [n|]; [|done].
  bools. subst n. rewrite mod_highbit by done.
  rewrite Z.mod_same in * by (pose proof (pow2_pos (Z.log2 v) (Z.log2_nonneg v)); lia).
  apply Z.eqb_eq. lia.
Qed.

Lemma ll_code_spec l : 0 <= l < 2 ^ 17 -> exists c,
  (ll_code l : res Empty_set Z) = Ok c /\ 0 <= c <= MAX_LL /\
  code_decodes DEC_LL_BASE DEC_LL_BITS 0 c l = true.
Proof.
  intros Hl. unfold ll_code. destruct (Z.leb_spec l 63).
  - assert (forall_below 64 (fun l => match zget LL_CODE_TABLE l with
      | Some c => (0 <=? c) && (c <=? MAX_LL) && code_decodes DEC_LL_BASE DEC_LL_BITS 0 c l
      | None => false end) = true) as H64 by (vm_compute; done).
    specialize (forall_below_spec _ _ H64 l ltac:(lia)) as Hc. cbv beta in Hc.
    unfold idx. destruct (zget LL_CODE_TABLE l) as [c|]; [|done].
    exists c. bools. cbn [unwrap]. auto with lia.
  - pose proof (log2_bounds l 17 ltac:(lia)).
    rewrite highbit32_log2 by lia. rewrite wrap_small by (unfold LL_DELTA; cbn; lia).
    eexists. split; [done|].
    assert (6 <= Z.log2 l) by (apply Z.log2_le_pow2; lia).
    unfold LL_DELTA, MAX_LL. split; [lia|].
    apply big_code_decodes with 6 17; [vm_compute; done| lia| lia].
Qed.

Lemma ml_code_spec m : 0 <= m < 2 ^ 17 -> exists c,
  (ml_code m : res Empty_set Z) = Ok c /\ 0 <= c <= MAX_ML /\
  code_decodes DEC_ML_BASE DEC_ML_BITS ZSTD_MINMATCH c m = true.
Proof.
  intros Hm. unfold ml_code. destruct (Z.leb_spec m 127).
  - assert (forall_below 128 (fun m => match zget ML_CODE_TABLE m with
      | Some c => (0 <=? c) && (c <=? MAX_ML) &&
                  code_decodes DEC_ML_BASE DEC_ML_BITS ZSTD_MINMATCH c m
      | None => false end) = true) as H128 by (vm_compute; done).
    specialize (forall_below_spec _ _ H128 m ltac:(lia)) as Hc. cbv beta in Hc.
    unfold idx. destruct (zget ML_CODE_TABLE m) as [c|]; [|done].
    exists c. bools. cbn [unwrap]. auto with lia.
  - pose proof (log2_bounds m 17 ltac:(lia)).
    rewrite highbit32_log2 by lia. rewrite wrap_small by (unfold ML_DELTA; cbn; lia).
    eexists. split; [done|].
    assert (7 <= Z.log2 m) by (apply Z.log2_le_pow2; lia).
    unfold ML_DELTA, MAX_ML. split; [lia|].
    apply big_code_decodes with 7 17; [vm_compute; done| lia| lia].
Qed.

Lemma off_code_spec o : 4 <= o < 2 ^ 32 ->
  2 <= off_code o <= MAX_OFF /\
  code_decodes DEC_OF_BASE DEC_OF_BITS (- ZSTD_REP_NUM) (off_code o) o = true.
Proof.
  intros Ho. unfold off_code, MAX_OFF. rewrite highbit32_log2 by lia.
  pose proof (log2_bounds o 32 ltac:(lia)).
  assert (2 <= Z.log2 o) by (apply Z.log2_le_pow2; lia).
  rewrite wrap_small by (cbn; lia). split; [lia|].
  rewrite <- (Z.add_0_r (Z.log2 o)).
  apply big_code_decodes with 2 32; [vm_compute; done| lia| lia].
Qed.

(** C14: The sequence codes round-trip between the encoder and the decoder.
    For every literal length and match length of a block, and every 32-bit
    offset sum that names a new offset, the code the encoder picks is within
    the decoder's tables, and the decoder's base value for it plus the low
    extra bits of the value (which the encoder writes) is the value: the
    literal length, the match length (whose sum is short by [ZSTD_MINMATCH])
    and the offset (whose sum exceeds it by [ZSTD_REP_NUM]). *)
Theorem seq_codes_roundtrip l m o :
  0 <= l < ZSTD_BLOCKSIZE_MAX -> 0 <= m < ZSTD_BLOCKSIZE_MAX -> 4 <= o < 2 ^ 32 ->
  exists cl cm,
    (ll_code l : res Empty_set Z) = Ok cl /\ 0 <= cl <= MAX_LL /\
    code_decodes DEC_LL_BASE DEC_LL_BITS 0 cl l = true /\
    (ml_code m : res Empty_set Z) = Ok cm /\ 0 <= cm <= MAX_ML /\
    code_decodes DEC_ML_BASE DEC_ML_BITS ZSTD_MINMATCH cm m = true /\
    2 <= off_code o <= MAX_OFF /\
    code_decodes DEC_OF_BASE DEC_OF_BITS (- ZSTD_REP_NUM) (off_code o) o = true.
Proof.
  intros Hl Hm Ho.
  destruct (ll_code_spec l) as (cl & ? & ? & ?); [done|].
  destruct (ml_code_spec m) as (cm & ? & ? & ?); [done|].
  destruct (off_code_spec o Ho). exists cl, cm. split_and!; done || lia.
Qed.

Example seq_codes_roundtrip_witness :
  exists cl cm,
    (ll_code 100 : res Empty_set Z) = Ok cl /\ 0 <= cl <= MAX_LL /\
    code_decodes DEC_LL_BASE DEC_LL_BITS 0 cl 100 = true /\
    (ml_code 1000 : res Empty_set Z) = Ok cm /\ 0 <= cm <= MAX_ML /\
    code_decodes DEC_ML_BASE DEC_ML_BITS ZSTD_MINMATCH cm 1000 = true /\
    2 <= off_code 123456 <= MAX_OFF /\
    code_decodes DEC_OF_BASE DEC_OF_BITS (- ZSTD_REP_NUM) (off_code 123456) 123456 = true.
Proof.
  apply (seq_codes_roundtrip 100 1000 123456); unfold ZSTD_BLOCKSIZE_MAX; vm_compute; split; congruence.
Defined.
