(* ===== verification/Xxh64.v ===== *)
(** * XXH64 ([src/xxhash.rs])

    The streaming hash behind the frame's Content_Checksum: a state of four
    lanes and up to 31 bytes of input not yet hashed, fed by [update] in
    pieces of any size and read by [digest]. The theorems relate the state to
    the concatenation of the pieces, so any split of the input gives the
    digest of the whole. *)

From S2P Require Import Prelude Words.

Definition PRIME64_1 : Z := 0x9E3779B185EBCA87.
Definition PRIME64_2 : Z := 0xC2B2AE3D27D4EB4F.
Definition PRIME64_3 : Z := 0x165667B19E3779F9.
Definition PRIME64_4 : Z := 0x85EBCA77C2B2AE63.
Definition PRIME64_5 : Z := 0x27D4EB2F165667C5.

(** [round]. *)
Definition round (acc input : Z) : Z :=
  wmul 64 (rotl 64 (wadd 64 acc (wmul 64 input PRIME64_2)) 31) PRIME64_1.

Definition merge_round (acc val : Z) : Z :=
  wadd 64 (wmul 64 (Z.lxor acc (round 0 val)) PRIME64_1) PRIME64_4.

(** [read64]: the first 8 bytes of [b]. *)
Definition read64 (b : list Z) : Z := le_val (ztake 8 b).

Record lanes := Lanes { v1 : Z; v2 : Z; v3 : Z; v4 : Z }.

(** [stripe]: one 32-byte stripe into the four lanes. *)
Definition stripe (v : lanes) (s : list Z) : lanes :=
  Lanes (round (v1 v) (read64 s))
        (round (v2 v) (read64 (zdrop 8 s)))
        (round (v3 v) (read64 (zdrop 16 s)))
        (round (v4 v) (read64 (zdrop 24 s))).

Record Xxh64 := MkXxh64 {
  lanes_of : lanes;
  total_len : Z;
  mem : list Z;
  mem_size : Z;
}.

(** [Xxh64::new]. *)
Definition new : Xxh64 :=
  MkXxh64
    (Lanes (wadd 64 PRIME64_1 PRIME64_2) PRIME64_2 0 (wsub 64 0 PRIME64_1))
    0 (zrepeat 0 32) 0.

(** [dst[at..at + src.len()].copy_from_slice(src)]. *)
Definition copy_at {E} (dst : list Z) (at_ : Z) (src : list Z) : res E (list Z) :=
  if (0 <=? at_) && (at_ + zlen src <=? zlen dst)
  then Ok (ztake at_ dst ++ src ++ zdrop (at_ + zlen src) dst)
  else Fault.

(** [input.as_chunks::<32>()]: the whole stripes and the tail. *)
Fixpoint as_chunks32 (n : nat) (input : list Z) : list (list Z) * list Z :=
  match n with
  | O => ([], input)
  | S n' => let '(cs, tail) := as_chunks32 n' (zdrop 32 input) in
            (ztake 32 input :: cs, tail)
  end.

Definition chunks32 (input : list Z) : list (list Z) * list Z :=
  as_chunks32 (Z.to_nat (zlen input / 32)) input.

(** The bytes held back are completed to a stripe first. *)
Definition complete_stripe {E} (st : Xxh64) (input : list Z) : res E (lanes * list Z * list Z) :=
  if 0 <? mem_size st then
    head ← slice input 0 (32 - mem_size st);
    rest ← slice_from input (32 - mem_size st);
    m ← copy_at (mem st) (mem_size st) head;
    Ok (stripe (lanes_of st) m, m, rest)
  else Ok (lanes_of st, mem st, input).

(** [Xxh64::update]. The [+=] of [total_len] panics when 64 bits overflow, as
    in a build that checks arithmetic. *)
Definition update {E} (st : Xxh64) (input : list Z) : res E Xxh64 :=
  let total := total_len st + zlen input in
  _ ← rassert (total <? 2 ^ 64);
  if mem_size st + zlen input <? 32 then
    m ← copy_at (mem st) (mem_size st) input;
    Ok (MkXxh64 (lanes_of st) total m (mem_size st + zlen input))
  else
    '(v, m, input) ← complete_stripe st input;
    let '(stripes, tail) := chunks32 input in
    let v := foldl stripe v stripes in
    m ← copy_at m 0 tail;
    Ok (MkXxh64 v total m (zlen tail)).

(** The [while tail.len() >= 8] loop of [XXH64_finalize]. *)
Fixpoint finalize8 (h : Z) (tail : list Z) : Z * list Z :=
  match tail with
  | b0 :: b1 :: b2 :: b3 :: b4 :: b5 :: b6 :: b7 :: rest =>
      let h := Z.lxor h (round 0 (le_val [b0; b1; b2; b3; b4; b5; b6; b7])) in
      finalize8 (wadd 64 (wmul 64 (rotl 64 h 27) PRIME64_1) PRIME64_4) rest
  | _ => (h, tail)
  end.

(** Its 4-byte step. *)
Definition finalize4 (h : Z) (tail : list Z) : Z * list Z :=
  if 4 <=? zlen tail then
    let k := le_val (ztake 4 tail) in
    let h := Z.lxor h (wmul 64 k PRIME64_1) in
    (wadd 64 (wmul 64 (rotl 64 h 23) PRIME64_2) PRIME64_3, zdrop 4 tail)
  else (h, tail).

(** Its last bytes. *)
Definition finalize1 (h : Z) (tail : list Z) : Z :=
  foldl (fun h b => wmul 64 (rotl 64 (Z.lxor h (wmul 64 b PRIME64_5)) 11) PRIME64_1) h tail.

(** [XXH64_avalanche]. *)
Definition avalanche (h : Z) : Z :=
  let h := Z.lxor h (Z.shiftr h 33) in
  let h := wmul 64 h PRIME64_2 in
  let h := Z.lxor h (Z.shiftr h 29) in
  let h := wmul 64 h PRIME64_3 in
  Z.lxor h (Z.shiftr h 32).

(** The part of [digest] that reads the lanes. *)
Definition digest_lanes (v : lanes) (total : Z) : Z :=
  if 32 <=? total then
    let h := wadd 64 (wadd 64 (wadd 64 (rotl 64 (v1 v) 1) (rotl 64 (v2 v) 7))
                              (rotl 64 (v3 v) 12)) (rotl 64 (v4 v) 18) in
    foldl merge_round h [v1 v; v2 v; v3 v; v4 v]
  else wadd 64 (v3 v) PRIME64_5.

(** The part of [digest] that reads the tail. *)
Definition digest_tail (h : Z) (tail : list Z) : Z :=
  let '(h, tail) := finalize8 h tail in
  let '(h, tail) := finalize4 h tail in
  avalanche (finalize1 h tail).

(** [Xxh64::digest]. *)
Definition digest {E} (st : Xxh64) : res E Z :=
  let h := wadd 64 (digest_lanes (lanes_of st) (total_len st)) (total_len st) in
  tail ← slice (mem st) 0 (mem_size st);
  Ok (digest_tail h tail).

(** ** Specification

    The hash of a byte string given at once: the lanes after its whole
    stripes, and its last [zlen data mod 32] bytes. *)
Definition xxh64 (data : list Z) : Z :=
  let '(stripes, tail) := chunks32 data in
  let v := foldl stripe (lanes_of new) stripes in
  digest_tail (wadd 64 (digest_lanes v (zlen data)) (zlen data)) tail.

(** [st] has been fed [data]. *)
Record fed (st : Xxh64) (data : list Z) : Prop := {
  fed_lanes : lanes_of st = foldl stripe (lanes_of new) (chunks32 data).1;
  fed_total : total_len st = zlen data;
  fed_mem : zlen (mem st) = 32;
  fed_size : mem_size st = zlen (chunks32 data).2;
  fed_tail : ztake (mem_size st) (mem st) = (chunks32 data).2;
}.

(** Feeding pieces one after another. *)
Definition update_all {E} (st : Xxh64) (pieces : list (list Z)) : res E Xxh64 :=
  foldM update st pieces.

(** Two states of the same input: the lanes, the length and the bytes held
    back agree; what the buffer holds past them is free. *)
#[export] Instance xxh64_equiv : Equiv Xxh64 := fun a b =>
  lanes_of a = lanes_of b /\ total_len a = total_len b /\
  mem_size a = mem_size b /\
  zlen (mem a) = 32 /\ zlen (mem b) = 32 /\ 0 <= mem_size a < 32 /\
  ztake (mem_size a) (mem a) = ztake (mem_size b) (mem b).

(** ** Lemmas *)

Implicit Types (l s data input dst src : list Z).

Lemma chunks32_small l : zlen l < 32 -> chunks32 l = ([], l).
Proof.
  intros. unfold chunks32. pose proof (zlen_nonneg l).
  by rewrite Z.div_small by lia.
Qed.

Lemma chunks32_stripe s l : zlen s = 32 ->
  chunks32 (s ++ l) = (s :: (chunks32 l).1, (chunks32 l).2).
Proof.
  intros Hs. unfold chunks32. rewrite zlen_app, Hs.
  replace ((32 + zlen l) / 32) with (zlen l / 32 + 1) by divlia.
  pose proof (zlen_nonneg l).
  rewrite Z2Nat.inj_add by (try apply Z.div_pos; lia).
  rewrite Nat.add_1_r. cbn [as_chunks32].
  unfold ztake, zdrop, zlen in *.
  rewrite take_app_length', drop_app_length' by lia.
  by destruct (as_chunks32 _ l).
Qed.

Lemma split_stripe l : 32 <= zlen l -> exists s l', l = s ++ l' /\ zlen s = 32.
Proof.
  intros. exists (ztake 32 l), (zdrop 32 l). split.
  - unfold ztake, zdrop. by rewrite take_drop.
  - apply zlen_ztake. lia.
Qed.

(** Induction on the stripes of an input. *)
Lemma stripe_ind (P : list Z -> Prop) :
  (forall l, zlen l < 32 -> P l) ->
  (forall s l, zlen s = 32 -> P l -> P (s ++ l)) ->
  forall l, P l.
Proof.
  intros Hs Hc l. remember (length l) as n eqn:Hn.
  revert l Hn. induction (lt_wf n) as [n _ IH]. intros l ->.
  destruct (Z_lt_ge_dec (zlen l) 32); [by apply Hs|].
  destruct (split_stripe l) as (s & l' & -> & Hl); [lia|].
  apply Hc; [done|]. eapply IH; [|done].
  rewrite length_app. unfold zlen in Hl. lia.
Qed.

Lemma chunks32_app a b :
  chunks32 (a ++ b) =
    ((chunks32 a).1 ++ (chunks32 ((chunks32 a).2 ++ b)).1,
     (chunks32 ((chunks32 a).2 ++ b)).2).
Proof.
  revert a. refine (stripe_ind _ _ _).
  - intros l Hl. rewrite (chunks32_small l) by done. cbn.
    by destruct (chunks32 (l ++ b)).
  - intros s l Hs IH. by rewrite <- (assoc_L (++)), !(chunks32_stripe s), IH by done.
Qed.

Lemma chunks32_tail_lt l : zlen (chunks32 l).2 < 32.
Proof.
  revert l. refine (stripe_ind _ _ _).
  - intros l ?. by rewrite chunks32_small.
  - intros s l ? ?. by rewrite chunks32_stripe.
Qed.

Lemma copy_at_ok {E} dst at_ src : 0 <= at_ -> at_ + zlen src <= zlen dst ->
  exists m, copy_at dst at_ src = (Ok m : res E (list Z)) /\ zlen m = zlen dst /\
    ztake (at_ + zlen src) m = ztake at_ dst ++ src.
Proof.
  intros H1 H2. unfold copy_at. pose proof (zlen_nonneg src).
  destruct (Z.leb_spec 0 at_), (Z.leb_spec (at_ + zlen src) (zlen dst)); try lia.
  eexists. split; [done|]. split.
  - rewrite !zlen_app, zlen_ztake, zlen_zdrop by lia. lia.
  - unfold ztake, zdrop, zlen in *. rewrite (assoc_L (++)).
    rewrite take_app_length'; [done|]. rewrite length_app, length_take. lia.
Qed.

Lemma fed_new : fed new [].
Proof. by split. Qed.

Lemma complete_stripe_spec {E} st data input :
  fed st data -> 32 <= mem_size st + zlen input ->
  exists v m rest ss, complete_stripe st input = (Ok (v, m, rest) : res E _) /\
    zlen m = 32 /\ v = foldl stripe (lanes_of st) ss /\
    chunks32 ((chunks32 data).2 ++ input) = (ss ++ (chunks32 rest).1, (chunks32 rest).2).
Proof.
  intros [Hl Ht Hm Hs Htl] Hbig. unfold complete_stripe.
  pose proof (chunks32_tail_lt data) as Hlt. pose proof (zlen_nonneg (chunks32 data).2).
  rewrite <- Hs in Hlt.
  destruct (Z.ltb_spec 0 (mem_size st)).
  - rewrite slice_prefix, slice_from_ok by lia. cbn.
    set (head := ztake (32 - mem_size st) input).
    assert (zlen head = 32 - mem_size st) as Hh by (apply zlen_ztake; lia).
    destruct (copy_at_ok (E:=E) (mem st) (mem_size st) head) as (m & -> & Hml & Hmt); [lia..|].
    cbn. exists (stripe (lanes_of st) m), m. eexists _, [m]. split_and!; [done|lia|done|].
    replace (mem_size st + zlen head) with (zlen m) in Hmt by lia.
    unfold ztake in Hmt at 1. unfold zlen in Hmt at 1. rewrite Nat2Z.id, firstn_all in Hmt.
    rewrite Htl in Hmt.
    rewrite <- (take_drop (Z.to_nat (32 - mem_size st)) input) at 1.
    rewrite (assoc_L (++)).
    fold (ztake (32 - mem_size st) input). fold head.
    by rewrite <- Hmt, chunks32_stripe by lia.
  - exists (lanes_of st), (mem st), input, []. split_and!; try done.
    assert ((chunks32 data).2 = []) as ->.
    { apply nil_length_inv. unfold zlen in *. lia. }
    cbn. by destruct (chunks32 input).
Qed.

(** Feeding more input. *)
Lemma update_fed {E} st data input :
  fed st data -> zlen data + zlen input < 2 ^ 64 ->
  exists st', update st input = (Ok st' : res E Xxh64) /\ fed st' (data ++ input).
Proof.
  intros Hf H64. pose proof Hf as [Hl Ht Hm Hs Htl]. unfold update.
  cbv zeta. rewrite (proj2 (Z.ltb_lt (total_len st + zlen input) (2 ^ 64))) by lia. cbn [rassert mbind res_bind].
  pose proof (chunks32_tail_lt data) as Hlt.
  pose proof (zlen_nonneg (chunks32 data).2). pose proof (zlen_nonneg input).
  rewrite <- Hs in Hlt.
  destruct (Z.ltb_spec (mem_size st + zlen input) 32) as [Hsmall|Hbig].
  - destruct (copy_at_ok (E:=E) (mem st) (mem_size st) input) as (m & -> & Hmlen & Hmt); [lia..|].
    cbn. eexists. split; [done|].
    assert (chunks32 ((chunks32 data).2 ++ input) = ([], (chunks32 data).2 ++ input)) as Hc
      by (apply chunks32_small; rewrite zlen_app; lia).
    split; cbn [lanes_of total_len mem mem_size]; try rewrite (chunks32_app data input), Hc; cbn [fst snd].
    + by rewrite app_nil_r.
    + rewrite zlen_app. lia.
    + lia.
    + rewrite zlen_app. lia.
    + by rewrite Hmt, Htl.
  - destruct (complete_stripe_spec (E:=E) st data input Hf Hbig)
      as (v & m & rest & ss & -> & Hml & Hv & Hc). cbn.
    destruct (chunks32 rest) as [stripes tail] eqn:Hr. cbn in Hc.
    pose proof (chunks32_tail_lt rest) as Htl'. rewrite Hr in Htl'. cbn in Htl'.
    destruct (copy_at_ok (E:=E) m 0 tail) as (m' & -> & Hmlen & Hmt); [lia..|].
    cbn. eexists. split; [done|].
    split; cbn [lanes_of total_len mem mem_size]; try rewrite (chunks32_app data input), Hc; cbn [fst snd].
    + rewrite !foldl_app. by rewrite Hv, Hl.
    + rewrite zlen_app. lia.
    + lia.
    + done.
    + exact Hmt.
Qed.

Lemma update_all_fed {E} st data pieces :
  fed st data -> zlen data + zlen (concat pieces) < 2 ^ 64 ->
  exists st', update_all st pieces = (Ok st' : res E Xxh64) /\ fed st' (data ++ concat pieces).
Proof.
  revert st data. induction pieces as [|p ps IH]; intros st data Hf H64; cbn.
  - exists st. rewrite app_nil_r. done.
  - cbn [concat] in H64. rewrite zlen_app in H64. pose proof (zlen_nonneg (concat ps)).
    destruct (update_fed (E:=E) st data p Hf ltac:(lia)) as (st' & -> & Hf').
    destruct (IH st' _ Hf' ltac:(rewrite zlen_app; lia)) as (st'' & Hu & Hf''). exists st''.
    rewrite (assoc_L (++)). split; [exact Hu|done].
Qed.

Lemma digest_fed {E} st data : fed st data -> digest st = (Ok (xxh64 data) : res E Z).
Proof.
  intros [Hl Ht Hm Hs Htl]. unfold digest, xxh64.
  pose proof (chunks32_tail_lt data). pose proof (zlen_nonneg (chunks32 data).2).
  rewrite slice_prefix by lia. rewrite Htl, Hl, Ht.
  by destruct (chunks32 data) as [stripes tail].
Qed.

Lemma fed_equiv a b data : fed a data -> fed b data -> a ≡ b.
Proof.
  intros [] []. pose proof (chunks32_tail_lt data). pose proof (zlen_nonneg (chunks32 data).2).
  unfold equiv, xxh64_equiv. split_and!; congruence || lia.
Qed.

(** [digest] does not see what the buffer holds past the bytes held back. *)
#[export] Instance digest_proper {E} : Proper ((≡) ==> (=)) (@digest E).
Proof.
  intros a b (Hl & Ht & Hs & Ha & Hb & Hr & Htl). unfold digest.
  rewrite !slice_prefix by lia. by rewrite Hl, Ht, Htl.
Qed.

(** C15: XXH64 is a streaming hash: feeding any sequence of pieces to a fresh
    state never panics while they are less than 2^64 bytes in all (the byte
    counter is a [u64]), and the digest is that of their concatenation, so
    every split of the input gives the same digest. *)
Theorem xxh64_streaming {E} (pieces : list (list Z)) : zlen (concat pieces) < 2 ^ 64 ->
  (st ← update_all new pieces; digest st) = (Ok (xxh64 (concat pieces)) : res E Z).
Proof.
  intros H64. destruct (update_all_fed (E:=E) new [] pieces fed_new H64) as (st & -> & Hf).
  exact (digest_fed st _ Hf).
Qed.

(** A stripe over three pieces, and the digest of the whole. *)
Lemma xxh64_streaming_witness :
  (st ← update_all new [seqZ 0 20; []; seqZ 20 30]; digest st) = (Ok 0x21044de93561a992 : res unit Z).
Proof.
  rewrite (xxh64_streaming [seqZ 0 20; []; seqZ 20 30] ltac:(by vm_compute)). by vm_compute.
Defined.

(** Reference vectors of [src/xxhash.rs]. *)
Example xxh64_empty : xxh64 [] = 0xef46db3751d8e999.
Proof. vm_compute. done. Qed.

Example xxh64_abc : xxh64 [97; 98; 99] = 0x44bc2cf5ad770999.
Proof. vm_compute. done. Qed.
