(* ===== verification/Errors.v ===== *)
(** * Decoding errors ([src/decode.rs], "Errors")

    [DecodeError] is a message; here it is one constructor per message of the
    decoder, with the numbers the message prints. [SeqError] is the reason a
    sequence could not be executed, made a message by [seq_error_message]. *)

From S2P Require Import Prelude.

Inductive DecodeError :=
(* FSE tables *)
| EFseFewSymbols
| EFseDistribution (counts cells acc_log : Z)
| EFseHeaderPastInput
| EAccuracyLog (log max : Z)
| EFseUnassigned (left cells : Z)
| ETooManySymbols (n : Z)
(* Huffman weights and tables *)
| EWeightsStreamShort
| ETooManyWeights
| EHufUninitialized
| EHufSourceEmpty
| ERawWeightsShort (n : Z)
| EWeightsShort (have need : Z)
| EWeightExceeds (w max : Z)
| EMissingWeights
| EMaxBits (n : Z)
| ELeftover (n : Z)
| EWeightOne (n : Z)
(* Huffman streams *)
| EStreamEmpty
| EStreamNoEndMark
| EStreamNotConsumed
| EFourStreamsShort (len : Z)
| EJumpTable
| EFourSegments
| EStreamOverranStart
| EStreamOverranSegment
(* sections *)
| ELiteralsHeaderShort (have need : Z)
| ESequencesHeaderEmpty
| ESequencesHeaderShort (have need : Z)
| EModesReserved (byte : Z)
| ETreelessUninitialized
| ERleTableByte (t : Z)
| ERleTableCode (t code : Z)
| ERepeatWithoutTable (t : Z)
(* sequences *)
| ESeqNotEnoughLiterals
| ESeqBlockTooLarge
| ESeqOffsetTooFar
| ESeqOffsetBeforeDict
| ESeqOffsetPastWindow
| EFseUninitialized
| ESequencesNotConsumed
| EBlockDecodesTo (decoded max : Z)
(* blocks *)
| ELiteralsSize (size max : Z)
| ESectionHeader (need have : Z)
| EExtraBits (n : Z)
| EBlockHeaderTruncated
| EReservedBlock
| EReservedEncountered
| EBlockSize (size max : Z)
(* frames *)
| EMagicTruncated
| ESkipSizeTruncated
| ESkippable (size : Z)
| EBadMagic (magic : Z)
| EDescriptorTruncated
| EReservedBit (desc : Z)
| EWindowDescriptorTruncated
| EDictIdFlag (flag : Z)
| EDictIdTruncated
| EFcsFlag (flag : Z)
| EFcsTruncated
| EWindowLog (log : Z)
| EWindowTooSmall (size : Z)
| EFrameHeader (e : DecodeError)
| EDictMismatch (want have : Z)
| EDictMissing (want : Z)
| EContentSize (said decoded : Z)
| EChecksum (stored computed : Z)
| ELeftOver (n : Z)
| ESkipPastEnd
| EBlockContentTruncated
| EChecksumTruncated
| EReserveTooLarge (fcs : Z)
| EReserveFailed (want : Z)
(* dictionaries *)
| EDictNoTables
| EDictRepsTruncated
| EDictRep (rep content_len : Z)
| EDictCorrupted (e : DecodeError)
(* streaming *)
| EWindowLimit (window max : Z)
| ERingAlloc (len : Z)
| EContentPending (n : Z).

#[export] Instance DecodeError_eq_dec : EqDecision DecodeError.
Proof. intros x y. unfold Decision. repeat decide equality. Defined.

Inductive SeqError :=
| NotEnoughLiterals
| BlockTooLarge
| OffsetTooFar
| OffsetBeforeDict
| OffsetPastWindow.

#[export] Instance SeqError_eq_dec : EqDecision SeqError.
Proof. solve_decision. Defined.

Definition seq_error_message (e : SeqError) : DecodeError :=
  match e with
  | NotEnoughLiterals => ESeqNotEnoughLiterals
  | BlockTooLarge => ESeqBlockTooLarge
  | OffsetTooFar => ESeqOffsetTooFar
  | OffsetBeforeDict => ESeqOffsetBeforeDict
  | OffsetPastWindow => ESeqOffsetPastWindow
  end.

(** A computation of the decoder. *)
Abbreviation dec := (res DecodeError).
