(* ===== verification/FseTable.v ===== *)
(** * FSE decoding tables ([src/decode.rs], [FSETable])

    The normalized-count header parser ([read_probabilities]), the table
    builder ([build_decoding_table]) in its two spreading strategies, and the
    three ways a table is made ([build_rle], [build_decoder],
    [build_from_probabilities]). The proofs about them are in
    [FseCounts] (the header) and [FseBuild] (the table). *)

From S2P Require Import Prelude Words Constants Errors.

(** [FSEEntry]. *)
Record FSEEntry := MkEntry {
  next_state : Z;
  num_bits : Z;
  extra_bits : Z;
  base_value : Z;
}.

(** [FSEEntry::default()]. *)
Definition entry_default : FSEEntry := MkEntry 0 0 0 0.

Definition FSE_MAX_TABLE_LOG : Z := LL_MAX_LOG.
Definition FSE_MAX_TABLE_SIZE : Z := Z.shiftl 1 FSE_MAX_TABLE_LOG.

Record FSETable := MkTable {
  max_symbol : Z;
  cells : list FSEEntry;
  size : Z;
  accuracy_log : Z;
  symbol_probabilities : list Z;
  symbol_next : list Z;
  spread : list Z;
}.

(** [FSETable::new]. *)
Definition new (max_symbol : Z) : FSETable :=
  MkTable max_symbol [] 0 0 [] [] [].

(** [FSETable::decode]: the cells of the built table. *)
Definition decode (t : FSETable) : dec (list FSEEntry) :=
  slice (cells t) 0 (size t).

(** [FSETable::reset]. *)
Definition reset (t : FSETable) : FSETable :=
  MkTable (max_symbol t) (cells t) 0 0 [] (symbol_next t) (spread t).

(** The base values and extra bits of a table's symbols. *)
Abbreviation codes := (option (list Z * list Z)).

(** [FSETable::build_rle]. *)
Definition build_rle (t : FSETable) (symbol : Z) (base bits : list Z) : dec FSETable :=
  let t := reset t in
  let cs := vresize (cells t) FSE_MAX_TABLE_SIZE entry_default in
  extra ← idx bits symbol;
  b ← idx base symbol;
  cs ← store cs 0 (MkEntry 0 0 extra b);
  Ok (MkTable (max_symbol t) cs 1 (accuracy_log t) (symbol_probabilities t)
        (symbol_next t) (spread t)).

(** [highest_bit_set]. *)
Definition highest_bit_set {E} (x : Z) : res E Z :=
  _ ← rassert (0 <? x);
  Ok (32 - leading_zeros 32 x).

(** [fse_cell_state]: the bit count and next state of the next cell of
    [symbol], with its counter advanced. *)
Definition fse_cell_state (symbol_next : list Z) (symbol table_log : Z)
    : dec (list Z * (Z * Z)) :=
  ns ← idx symbol_next symbol;
  sn ← store symbol_next symbol (wrap 16 (ns + 1));
  _ ← rassert (leading_zeros 32 ns <=? 31);
  let hb := 32 - 1 - leading_zeros 32 ns in
  _ ← rassert (hb <=? table_log);
  let nb := table_log - hb in
  let shifted := wshl 32 ns nb in
  _ ← rassert (Z.shiftl 1 table_log <=? shifted);
  Ok (sn, (wrap 8 nb, wrap 16 (shifted - Z.shiftl 1 table_log))).

(** [dt[i].base_value = s]. *)
Definition set_base (dt : list FSEEntry) (i s : Z) : dec (list FSEEntry) :=
  c ← idx dt i;
  store dt i (MkEntry (next_state c) (num_bits c) (extra_bits c) s).

(** The first loop of [build_decoding_table]: low-probability symbols take
    the highest cells, and every symbol's counter starts at its count. *)
Definition place_low (st : Z * list FSEEntry * list Z) (sn : Z * Z)
    : dec (Z * list FSEEntry * list Z) :=
  let '(high_threshold, dt, next) := st in
  let '(s, n) := sn in
  if n =? -1 then
    _ ← rassert (1 <=? high_threshold);
    let high_threshold := high_threshold - 1 in
    dt ← set_base dt high_threshold s;
    next ← store next s 1;
    Ok (high_threshold, dt, next)
  else
    next ← store next s (wrap 16 n);
    Ok (high_threshold, dt, next).

(** [spread[pos..pos + 8].copy_from_slice(&sv.to_le_bytes())]. *)
Definition write8 (spread : list Z) (pos sv : Z) : dec (list Z) :=
  _ ← rassert ((0 <=? pos) && (pos + 8 <=? zlen spread));
  Ok (ztake pos spread ++ le_bytes 8 sv ++ zdrop (pos + 8) spread).

(** [while i < n { spread[pos + i..][..8] = sv; i += 8 }]. *)
Definition write_run (spread : list Z) (pos n sv : Z) : dec (list Z) :=
  loopM (Z.to_nat n + 1) (fun '(spread, i) =>
    if i <? n then
      spread ← write8 spread (pos + i) sv;
      Ok (inl (spread, i + 8))
    else Ok (inr spread)) (spread, 8).

(** Lay the symbols down in order, 8 bytes at a time. *)
Definition lay_symbol (st : list Z * Z * Z) (n : Z) : dec (list Z * Z * Z) :=
  let '(spread, pos, sv) := st in
  let n := wrap 64 n in
  spread ← write8 spread pos sv;
  spread ← write_run spread pos n sv;
  Ok (spread, pos + n, wadd 64 sv 0x0101010101010101).

(** [0..table_size] in steps of 2. *)
Definition evens (table_size : Z) : list Z :=
  (fun i => 2 * i) <$> seqZ 0 (div_ceil table_size 2).

(** Scatter two symbols per turn. *)
Definition scatter2 (spread : list Z) (step mask : Z) (st : list FSEEntry * Z) (s : Z)
    : dec (list FSEEntry * Z) :=
  let '(dt, position) := st in
  a ← idx spread s;
  dt ← set_base dt position a;
  b ← idx spread (s + 1);
  dt ← set_base dt (Z.land (position + step) mask) b;
  Ok (dt, Z.land (position + 2 * step) mask).

(** [while position >= high_threshold { .. }]. *)
Definition skip_high (table_size step mask high_threshold position : Z) : dec Z :=
  loopM (Z.to_nat table_size + 1) (fun position =>
    if high_threshold <=? position
    then Ok (inl (Z.land (position + step) mask))
    else Ok (inr position)) position.

(** Place one occurrence of [s] below [high_threshold]. *)
Definition place_one (table_size step mask high_threshold s : Z)
    (st : list FSEEntry * Z) (_ : Z) : dec (list FSEEntry * Z) :=
  let '(dt, position) := st in
  dt ← set_base dt position s;
  position ← skip_high table_size step mask high_threshold (Z.land (position + step) mask);
  Ok (dt, position).

(** Place the [n.max(0)] occurrences of [s]. *)
Definition place_symbol (table_size step mask high_threshold : Z)
    (st : list FSEEntry * Z) (sn : Z * Z) : dec (list FSEEntry * Z) :=
  let '(s, n) := sn in
  foldM (place_one table_size step mask high_threshold s) st (seqZ 0 (Z.max n 0)).

(** The last pass, one cell: bit count, next state and code of its symbol. *)
Definition finish_cell (cs : codes) (table_log : Z) (st : list Z * list FSEEntry)
    (cell : FSEEntry) : dec (list Z * list FSEEntry) :=
  let '(next, done) := st in
  let symbol := wrap 8 (base_value cell) in
  '(next, (nb, ns)) ← fse_cell_state next symbol table_log;
  match cs with
  | Some (base, bits) =>
      extra ← idx bits symbol;
      b ← idx base symbol;
      Ok (next, done ++ [MkEntry ns nb extra b])
  | None => Ok (next, done ++ [MkEntry ns nb (extra_bits cell) (base_value cell)])
  end.

(** [FSETable::build_decoding_table]. *)
Definition build_decoding_table (t : FSETable) (cs : codes) : dec FSETable :=
  let table_log := accuracy_log t in
  _ ← rassert (table_log <=? FSE_MAX_TABLE_LOG);
  let table_size := Z.shiftl 1 table_log in
  let mask := table_size - 1 in
  let step := Z.shiftr table_size 1 + Z.shiftr table_size 3 + 3 in
  let dt := vresize (cells t) FSE_MAX_TABLE_SIZE entry_default in
  let next := vresize (symbol_next t) 256 0 in
  let sp := vresize (spread t) (FSE_MAX_TABLE_SIZE + 8) 0 in
  let counts := symbol_probabilities t in
  '(high_threshold, dt, next) ←
    foldM place_low (table_size, dt, next) (take 256 (enumerate counts));
  '(dt, sp) ←
    (if high_threshold =? table_size then
       '(sp, _, _) ← foldM lay_symbol (sp, 0, 0) counts;
       '(dt, _) ← foldM (scatter2 sp step mask) (dt, 0) (evens table_size);
       Ok (dt, sp)
     else
       '(dt, _) ← foldM (place_symbol table_size step mask high_threshold) (dt, 0)
                    (enumerate counts);
       Ok (dt, sp));
  built ← slice dt 0 table_size;
  '(next, built) ← foldM (finish_cell cs table_log) (next, []) built;
  Ok (MkTable (max_symbol t) (built ++ zdrop table_size dt) table_size table_log
        counts next sp).

(** ** The normalized-count header *)

(** The loop state of [read_ncount_body]. *)
Record nc_state := MkNc {
  nc_ip : Z;
  nc_stream : Z;
  nc_count : Z;          (* bit_count *)
  nc_bits : Z;           (* nb_bits *)
  nc_remaining : Z;
  nc_threshold : Z;
  nc_charnum : Z;
  nc_previous0 : bool;
  nc_counts : list Z;
}.

(** [read32]. *)
Definition read32 (src : list Z) (at_ : Z) : dec Z :=
  b ← slice src at_ (at_ + 4);
  Ok (le_val b).

(** [read32(ip) >> bit_count]. *)
Definition window (src : list Z) (ip bit_count : Z) : dec Z :=
  w ← read32 src ip;
  _ ← rassert ((0 <=? bit_count) && (bit_count <? 32));
  Ok (Z.shiftr w bit_count).

(** The [advance] closure. *)
Definition advance (iend : Z) (ip bit_count : Z) : Z * Z :=
  if (ip + 7 <=? iend) || (ip + Z.shiftr bit_count 3 + 4 <=? iend)
  then (ip + Z.shiftr bit_count 3, Z.land bit_count 7)
  else (iend - 4, Z.land (wsub 32 bit_count (wrap 32 (8 * (iend - 4 - ip)))) 31).

(** The number of [0b11] repeat codes at the bottom of [bit_stream]. *)
Definition nc_repeats (bit_stream : Z) : Z :=
  Z.shiftr (trailing_zeros 32 (Z.lor (wnot 32 bit_stream) 0x80000000)) 1.

(** [while repeats >= 12 { .. }]: the state is (ip, bit_count, bit_stream,
    charnum, repeats). *)
Definition skip_repeats (src : list Z) (ip bit_count bit_stream charnum : Z)
    : dec (Z * Z * Z * Z * Z) :=
  let iend := zlen src in
  loopM (length src + 8)
    (fun '(ip, bit_count, bit_stream, charnum, repeats) =>
      if 12 <=? repeats then
        let charnum := charnum + 3 * 12 in
        let '(ip, bit_count) :=
          if ip + 7 <=? iend then (ip + 3, bit_count)
          else (iend - 4, Z.land (wrap 32 (bit_count - 8 * (iend - 7 - ip))) 31) in
        bit_stream ← window src ip bit_count;
        Ok (inl (ip, bit_count, bit_stream, charnum, nc_repeats bit_stream))
      else Ok (inr (ip, bit_count, bit_stream, charnum, repeats)))
    (ip, bit_count, bit_stream, charnum, nc_repeats bit_stream).

(** The [if previous0] block of the loop: skip the zero counts the repeat
    codes stand for. [inr] is its [break]. *)
Definition nc_zeros (src : list Z) (max_sv1 : Z) (st : nc_state)
    : dec (nc_state + nc_state) :=
  '(ip, bit_count, bit_stream, charnum, repeats) ←
    skip_repeats src (nc_ip st) (nc_count st) (nc_stream st) (nc_charnum st);
  let charnum := charnum + 3 * repeats in
  let bit_stream := Z.shiftr bit_stream (2 * repeats) in
  let bit_count := bit_count + 2 * repeats in
  let charnum := charnum + Z.land bit_stream 3 in
  let bit_count := bit_count + 2 in
  if max_sv1 <=? charnum then
    Ok (inr (MkNc ip bit_stream bit_count (nc_bits st) (nc_remaining st) (nc_threshold st)
               charnum (nc_previous0 st) (nc_counts st)))
  else
    let '(ip, bit_count) := advance (zlen src) ip bit_count in
    bit_stream ← window src ip bit_count;
    Ok (inl (MkNc ip bit_stream bit_count (nc_bits st) (nc_remaining st) (nc_threshold st)
               charnum (nc_previous0 st) (nc_counts st))).

(** The count at the bottom of the window, and the bits it takes. *)
Definition nc_decode_count (st : nc_state) : Z * Z :=
  let threshold := nc_threshold st in
  let max := (2 * threshold - 1) - nc_remaining st in
  let low := Z.land (nc_stream st) (threshold - 1) in
  if low <? max then (low - 1, nc_count st + (nc_bits st - 1))
  else
    let count := Z.land (nc_stream st) (2 * threshold - 1) in
    let count := if threshold <=? count then count - max else count in
    (count - 1, nc_count st + nc_bits st).

(** The rest of the loop's body: one count. *)
Definition nc_one (src : list Z) (max_sv1 : Z) (st : nc_state)
    : dec (nc_state + nc_state) :=
  let '(count, bit_count) := nc_decode_count st in
  let remaining := if 0 <=? count then nc_remaining st - count else nc_remaining st + count in
  counts ← store (nc_counts st) (nc_charnum st) count;
  let charnum := nc_charnum st + 1 in
  let previous0 := count =? 0 in
  let stop nb th :=
    MkNc (nc_ip st) (nc_stream st) bit_count nb remaining th charnum previous0 counts in
  let go nb th : dec (nc_state + nc_state) :=
    if max_sv1 <=? charnum then Ok (inr (stop nb th))
    else
      let '(ip, bit_count) := advance (zlen src) (nc_ip st) bit_count in
      bit_stream ← window src ip bit_count;
      Ok (inl (MkNc ip bit_stream bit_count nb remaining th charnum previous0 counts)) in
  if remaining <? nc_threshold st then
    if remaining <=? 1 then Ok (inr (stop (nc_bits st) (nc_threshold st)))
    else
      nb_bits ← highest_bit_set remaining;
      go nb_bits (Z.shiftl 1 (nb_bits - 1))
  else go (nc_bits st) (nc_threshold st).

(** The body of the [loop]. *)
Definition nc_body (src : list Z) (max_sv1 : Z) (st : nc_state)
    : dec (nc_state + nc_state) :=
  r ← (if nc_previous0 st then nc_zeros src max_sv1 st else Ok (inl st));
  match r with
  | inr st => Ok (inr st)
  | inl st => nc_one src max_sv1 st
  end.

(** [FSETable::read_ncount_body]. *)
Definition read_ncount_body (t : FSETable) (src : list Z) (max_log : Z)
    : dec (FSETable * Z) :=
  _ ← rassert (8 <=? zlen src);
  let max_sv1 := max_symbol t + 1 in
  let counts := zrepeat 0 max_sv1 in
  bit_stream ← read32 src 0;
  let nb_bits := Z.land bit_stream 0xF + ACC_LOG_OFFSET in
  _ ← fail_if (max_log <? nb_bits) (EAccuracyLog nb_bits max_log);
  let acc := wrap 8 nb_bits in
  let st := MkNc 0 (Z.shiftr bit_stream 4) 4 (nb_bits + 1) (Z.shiftl 1 nb_bits + 1)
              (Z.shiftl 1 nb_bits) 0 false counts in
  st ← loopM (Z.to_nat max_sv1 + 1) (nc_body src max_sv1) st;
  _ ← fail_if (negb (nc_remaining st =? 1))
        (EFseUnassigned (nc_remaining st - 1) (Z.shiftl 1 acc));
  _ ← fail_if (max_sv1 <? nc_charnum st) (ETooManySymbols (nc_charnum st));
  _ ← fail_if (32 <? nc_count st) EFseHeaderPastInput;
  Ok (MkTable (max_symbol t) (cells t) (size t) acc (ztake (nc_charnum st) (nc_counts st))
        (symbol_next t) (spread t),
      nc_ip st + Z.shiftr (nc_count st + 7) 3).

(** [FSETable::read_probabilities]. *)
Definition read_probabilities (t : FSETable) (source : list Z) (max_log : Z)
    : dec (FSETable * Z) :=
  if zlen source <? 8 then
    let buffer := source ++ zrepeat 0 (8 - zlen source) in
    '(t, n) ← read_ncount_body t buffer max_log;
    _ ← fail_if (zlen source <? n) EFseHeaderPastInput;
    Ok (t, n)
  else read_ncount_body t source max_log.

(** [FSETable::build_decoder]. *)
Definition build_decoder (t : FSETable) (source : list Z) (max_log : Z) (cs : codes)
    : dec (FSETable * Z) :=
  let t := reset t in
  '(t, bytes_read) ← read_probabilities t source max_log;
  let nonzero := filter (fun c => c <> 0) (symbol_probabilities t) in
  _ ← fail_if (zlen nonzero <? 2) EFseFewSymbols;
  t ← build_decoding_table t cs;
  Ok (t, bytes_read).

(** [FSETable::build_from_probabilities]. *)
Definition build_from_probabilities (t : FSETable) (acc_log : Z) (probs : list Z) (cs : codes)
    : dec FSETable :=
  let t := reset t in
  let ncells := foldr Z.add 0 (Z.abs <$> probs) in
  _ ← fail_if ((acc_log <? ACC_LOG_OFFSET) || (FSE_MAX_TABLE_LOG <? acc_log)
               || (max_symbol t + 1 <? zlen probs)
               || existsb (fun p => p <? -1) probs
               || negb (ncells =? Z.shiftl 1 acc_log))
        (EFseDistribution (zlen probs) ncells acc_log);
  let t := MkTable (max_symbol t) (cells t) (size t) acc_log
             (symbol_probabilities t ++ probs) (symbol_next t) (spread t) in
  build_decoding_table t cs.
