(* ===== verification/FseCounts.v ===== *)
(** * The normalized-count header: safety and soundness

    [read_ncount_body] reads past no buffer, its two loops terminate, and the
    counts of a header it accepts tile the table: their absolute values sum to
    the table size. *)

From S2P Require Import Prelude Words Constants Errors FseTable.

(** The sum of the absolute counts: the cells the symbols take. *)
Definition cell_sum (counts : list Z) : Z := foldr Z.add 0 (Z.abs <$> counts).

(** Counts of a table of [2 ^ log] cells over symbols [0..=max_symbol]. *)
Record tiles (max_symbol log : Z) (counts : list Z) : Prop := {
  tiles_sum : cell_sum counts = 2 ^ log;
  tiles_low : Forall (fun c => -1 <= c) counts;
  tiles_len : zlen counts <= max_symbol + 1;
  tiles_log : ACC_LOG_OFFSET <= log <= FSE_MAX_TABLE_LOG;
}.

(** The invariant of the header loop over [iend] bytes and [max_sv1] symbols
    at accuracy log [log]. *)
Record nc_inv (iend max_sv1 log : Z) (st : nc_state) : Prop := {
  inv_ip : 0 <= nc_ip st <= iend - 4;
  inv_count : 0 <= nc_count st <= 31;
  inv_aligned : nc_ip st + 7 <= iend -> nc_count st <= 7;
  inv_stream : 0 <= nc_stream st < 2 ^ (32 - nc_count st);
  inv_charnum : 0 <= nc_charnum st < max_sv1;
  inv_len : zlen (nc_counts st) = max_sv1;
  inv_zeros : forall i, nc_charnum st <= i < max_sv1 -> zget (nc_counts st) i = Some 0;
  inv_low : Forall (fun c => -1 <= c) (nc_counts st);
  inv_sum : nc_remaining st = 2 ^ log + 1 - cell_sum (nc_counts st);
  inv_bits : 1 <= nc_bits st <= log + 1;
  inv_thr : nc_threshold st = 2 ^ (nc_bits st - 1);
  inv_rem : nc_threshold st <= nc_remaining st < 2 * nc_threshold st;
  inv_two : 2 <= nc_remaining st;
}.

(** What a [break] leaves. *)
Record nc_end (iend max_sv1 log : Z) (st : nc_state) : Prop := {
  end_ip : 0 <= nc_ip st <= iend - 4;
  end_count : 0 <= nc_count st;
  end_charnum : 0 <= nc_charnum st;
  end_len : zlen (nc_counts st) = max_sv1;
  end_zeros : forall i, nc_charnum st <= i < max_sv1 -> zget (nc_counts st) i = Some 0;
  end_low : Forall (fun c => -1 <= c) (nc_counts st);
  end_sum : nc_remaining st = 2 ^ log + 1 - cell_sum (nc_counts st);
}.

(** ** Sums of counts *)

Lemma cell_sum_app l1 l2 : cell_sum (l1 ++ l2) = cell_sum l1 + cell_sum l2.
Proof.
  unfold cell_sum. rewrite fmap_app, foldr_app.
  induction (Z.abs <$> l1) as [|x l IH]; cbn; lia.
Qed.

Lemma cell_sum_nonneg l : 0 <= cell_sum l.
Proof. unfold cell_sum. induction l; cbn in *; lia. Qed.

Lemma cell_sum_zset l i x : zget l i = Some 0 -> cell_sum (zset l i x) = cell_sum l + Z.abs x.
Proof.
  intros [Hi Hl]%zget_Some. unfold zset. rewrite <- (take_drop_middle _ _ _ Hl) at 2.
  rewrite insert_take_drop by by eapply lookup_lt_Some.
  rewrite !cell_sum_app. cbn. lia.
Qed.

Lemma cell_sum_zeros l : (forall i, 0 <= i < zlen l -> zget l i = Some 0) -> cell_sum l = 0.
Proof.
  intros H. assert (l = zrepeat 0 (zlen l)) as ->.
  { apply zlist_eq; [by rewrite zlen_zrepeat by apply zlen_nonneg|].
    intros i Hi. by rewrite H, zget_zrepeat. }
  unfold zrepeat. generalize (Z.to_nat (zlen l)). induction n; cbn; auto.
Qed.

Lemma cell_sum_ztake l n : 0 <= n <= zlen l ->
  (forall i, n <= i < zlen l -> zget l i = Some 0) -> cell_sum (ztake n l) = cell_sum l.
Proof.
  intros Hn Hz. rewrite <- (take_drop (Z.to_nat n) l) at 2. rewrite cell_sum_app.
  rewrite (cell_sum_zeros (drop _ _)); [unfold ztake; lia|].
  fold (zdrop n l). intros i Hi. rewrite zlen_zdrop in Hi by lia.
  rewrite zget_zdrop by lia. apply Hz. lia.
Qed.

Lemma cell_sum_zrepeat n : cell_sum (zrepeat 0 n) = 0.
Proof.
  apply cell_sum_zeros. intros i Hi. unfold zlen, zrepeat in Hi.
  rewrite length_replicate in Hi. apply zget_zrepeat. lia.
Qed.

#[global] Arguments cell_sum : simpl never.

(** ** The window *)

Lemma window_safe {A} (Q : A -> Prop) src ip bc (k : Z -> dec A) :
  bytes src -> 0 <= ip <= zlen src - 4 -> 0 <= bc <= 31 ->
  (forall w, 0 <= w < 2 ^ (32 - bc) -> safe Q (k w)) ->
  safe Q (window src ip bc ≫= k).
Proof.
  intros Hs Hip Hbc Hk. unfold window, read32. rewrite !bind_assoc.
  rewrite slice_ok by lia. cbn [mbind res_bind].
  destruct (Z.leb_spec 0 bc), (Z.ltb_spec bc 32); try lia. cbn.
  apply Hk. rewrite Z.shiftr_div_pow2 by lia.
  pose proof (le_val_range (ztake (ip + 4 - ip) (zdrop ip src))
    (Forall_take _ _ _ (Forall_drop _ _ _ Hs))) as Hr.
  rewrite zlen_ztake in Hr by (rewrite zlen_zdrop; lia).
  replace (8 * (ip + 4 - ip)) with ((32 - bc) + bc) in Hr by lia.
  rewrite pow2_add in Hr by lia. pose proof (pow2_pos bc).
  split; [apply Z.div_pos; lia|]. apply Z.div_lt_upper_bound; lia.
Qed.

Lemma nc_repeats_spec bs : 0 <= bs < 2 ^ 32 ->
  0 <= nc_repeats bs <= 15 /\ (12 <= nc_repeats bs -> 2 ^ 24 - 1 <= bs).
Proof.
  intros Hb. unfold nc_repeats, wnot.
  assert (0 < Z.lor (2 ^ 32 - 1 - bs) 0x80000000 < 2 ^ 32) as Hz.
  { assert (0 <= Z.lor (2 ^ 32 - 1 - bs) 0x80000000) by (apply Z.lor_nonneg; lia).
    assert (Z.lor (2 ^ 32 - 1 - bs) 0x80000000 <> 0) by (rewrite Z.lor_eq_0_iff; lia).
    split; [lia|]. apply Z.log2_lt_cancel. rewrite Z.log2_lor by lia.
    rewrite Z.log2_pow2 by lia.
    destruct (decide (2 ^ 32 - 1 - bs = 0)) as [->|]; [cbn; lia|].
    pose proof (log2_bounds (2 ^ 32 - 1 - bs) 32 ltac:(lia)).
    change (Z.log2 0x80000000) with 31. lia. }
  pose proof (trailing_zeros_lt 32 _ 32 Hz) as Ht.
  rewrite Z.shiftr_div_pow2 by lia. change (2 ^ 1) with 2.
  split; [divlia|]. intros H12.
  set (z := Z.lor (2 ^ 32 - 1 - bs) 0x80000000) in *.
  assert (z mod 2 ^ 24 = 0) as Hm by (apply (trailing_zeros_mod 32); [lia|divlia]).
  assert ((2 ^ 32 - 1 - bs) mod 2 ^ 24 = 0) as Hm'.
  { apply Z.bits_inj'. intros i Hi. rewrite Z.bits_0.
    destruct (Z.ltb_spec i 24); [|by rewrite Z.mod_pow2_bits_high by lia].
    rewrite Z.mod_pow2_bits_low by lia.
    assert (Z.testbit (z mod 2 ^ 24) i = false) as Hzi by (rewrite Hm; apply Z.bits_0).
    rewrite Z.mod_pow2_bits_low in Hzi by lia. unfold z in Hzi.
    rewrite Z.lor_spec in Hzi. by apply orb_false_iff in Hzi as [? _]. }
  change (2 ^ 32) with 4294967296 in *. change (2 ^ 24) with 16777216 in *. divlia.
Qed.

(** ** The repeat loop *)

(** Turns left at the last window; more before it. *)
Definition skip_measure (iend ip bit_count : Z) : nat :=
  if ip =? iend - 4
  then if bit_count <? 8 then 1 else if bit_count =? 8 then 2 else 0
  else Z.to_nat (3 + (iend - ip)).

Lemma land31 x : Z.land x 31 = x mod 32.
Proof. apply (land_mod x 5). lia. Qed.

Lemma land7 x : Z.land x 7 = x mod 8.
Proof. apply (land_mod x 3). lia. Qed.

(** Where the repeat loop stands: the fields it changes, with the window. *)
Record skip_inv (iend ip bc bs ch : Z) : Prop := {
  skip_ip : 0 <= ip <= iend - 4;
  skip_count : 0 <= bc <= 31;
  skip_aligned : ip + 7 <= iend -> bc <= 7;
  skip_stream : 0 <= bs < 2 ^ (32 - bc);
}.

Lemma skip_stream_32 iend ip bc bs ch : skip_inv iend ip bc bs ch -> 0 <= bs < 2 ^ 32.
Proof. intros []. pose proof (pow2_le (32 - bc) 32). lia. Qed.

Lemma skip_repeats_safe src ip bc bs ch :
  bytes src -> 8 <= zlen src -> skip_inv (zlen src) ip bc bs ch -> 0 <= ch ->
  safe (fun '(ip, bc, bs, ch', r) =>
          skip_inv (zlen src) ip bc bs ch' /\ ch <= ch' /\ 0 <= r <= 11)
    (skip_repeats src ip bc bs ch).
Proof.
  intros Hs H8 Hi Hch. unfold skip_repeats.
  apply (safe_loopM
    (fun '(ip, bc, bs, ch', r) =>
       skip_inv (zlen src) ip bc bs ch' /\ ch <= ch' /\ r = nc_repeats bs)
    (fun '(ip, bc, _, _, _) => skip_measure (zlen src) ip bc)).
  - split_and!; done || lia.
  - unfold skip_measure. destruct Hi. unfold zlen in *.
    repeat case_bool; lia.
  - clear ip bc bs Hi. intros [[[[ip bc] bs] ch'] r] (Hi & Hle & ->).
    pose proof (nc_repeats_spec bs (skip_stream_32 _ _ _ _ _ Hi)) as [Hr Hr12].
    destruct (Z.leb_spec 12 (nc_repeats bs)) as [H12|]; [|cbn; split_and!; done || lia].
    specialize (Hr12 H12). destruct Hi as [Hip Hbc Hal Hst].
    assert (bc <= 8) as Hbc8.
    { destruct (Z_le_gt_dec bc 8); [done|].
      pose proof (pow2_le (32 - bc) 23 ltac:(lia)). cbn in *. lia. }
    destruct (Z.leb_spec (ip + 7) (zlen src)).
    + apply window_safe; [done|lia|lia|]. intros w Hw. cbn.
      split_and!; [split; lia|lia|done|]. unfold skip_measure. repeat case_bool; lia.
    + assert (bc - 8 * (zlen src - 7 - ip) >= 0 /\ bc - 8 * (zlen src - 7 - ip) < 64)
        as Hr2 by lia.
      rewrite wrap_small by (cbn; lia). rewrite land31.
      apply window_safe; [done|lia|divlia|]. intros w Hw. cbn.
      split_and!; [split; divlia|lia|done|].
      unfold skip_measure. rewrite Z.eqb_refl.
      destruct (Z.eqb_spec ip (zlen src - 4)) as [->|]; repeat case_bool; divlia.
Qed.

(** ** One turn of the loop *)

Lemma advance_spec iend ip bc :
  0 <= ip <= iend - 4 -> 0 <= bc < 64 -> (ip + 7 <= iend -> bc <= 31) ->
  let '(ip', bc') := advance iend ip bc in
  0 <= ip' <= iend - 4 /\ 0 <= bc' <= 31 /\ (ip' + 7 <= iend -> bc' <= 7).
Proof.
  intros Hip Hbc Hal. unfold advance. rewrite !Z.shiftr_div_pow2 by lia.
  change (2 ^ 3) with 8. rewrite land7, land31.
  destruct (_ || _) eqn:E.
  - apply orb_true_iff in E. bools. destruct E; bools; divlia.
  - divlia.
Qed.

Lemma nc_zeros_safe src max_sv1 log st :
  bytes src -> 8 <= zlen src -> nc_inv (zlen src) max_sv1 log st ->
  safe (fun r => match r with
                 | inl st' => nc_inv (zlen src) max_sv1 log st' /\
                              nc_charnum st <= nc_charnum st'
                 | inr st' => nc_end (zlen src) max_sv1 log st'
                 end) (nc_zeros src max_sv1 st).
Proof.
  intros Hs H8 [Hip Hct Hal Hstr Hch Hlen Hz Hlow Hsum Hb Ht Hrem H2]. unfold nc_zeros.
  eapply safe_bind; [apply skip_repeats_safe; [done..| |lia]|].
  { by split. }
  intros [[[[ip bc] bs] ch] r] ([Hip' Hct' Hal' Hstr'] & Hle & Hr).
  pose proof (Z.land_nonneg (Z.shiftr bs (2 * r)) 3) as Hl.
  assert (Z.land (Z.shiftr bs (2 * r)) 3 = Z.shiftr bs (2 * r) mod 4) as Hm
    by (apply (land_mod _ 2); lia).
  rewrite Hm in *.
  destruct (Z.leb_spec max_sv1 (ch + 3 * r + Z.shiftr bs (2 * r) mod 4)).
  - apply safe_ok. split; cbn; try done; try lia; divlia.
  - pose proof (advance_spec (zlen src) ip (bc + 2 * r + 2)) as Ha.
    destruct (advance _ _ _) as [ip' bc'].
    destruct Ha as (? & ? & ?); [lia..|].
    apply window_safe; [done|lia|lia|]. intros w Hw. cbn.
    split; [|divlia].
    split; cbn; try done; try lia; try divlia.
    intros i Hi. apply Hz. divlia.
Qed.

Lemma nc_decode_count_spec iend max_sv1 log st :
  log <= FSE_MAX_TABLE_LOG -> nc_inv iend max_sv1 log st ->
  let '(count, bc) := nc_decode_count st in
  -1 <= count /\ nc_count st <= bc <= nc_count st + 10 /\
  count + 1 <= 2 * nc_threshold st.
Proof.
  intros Hlog [Hip Hct Hal Hstr Hch Hlen Hz Hlow Hsum Hb Ht Hrem H2].
  unfold nc_decode_count. set (t := nc_threshold st) in *.
  assert (Z.land (nc_stream st) (t - 1) = nc_stream st mod 2 ^ (nc_bits st - 1)) as ->
    by (rewrite Ht; apply land_mod; lia).
  assert (2 * t = 2 ^ nc_bits st) as H2t.
  { rewrite Ht, <- Z.pow_succ_r by lia. f_equal. lia. }
  rewrite H2t. rewrite land_mod by lia. rewrite Ht in *.
  unfold FSE_MAX_TABLE_LOG, LL_MAX_LOG in Hlog.
  pose proof (Z.mod_pos_bound (nc_stream st) (2 ^ (nc_bits st - 1))
                ltac:(apply pow2_pos; lia)) as Hm1.
  pose proof (Z.mod_pos_bound (nc_stream st) (2 ^ nc_bits st)
                ltac:(apply pow2_pos; lia)) as Hm2.
  destruct (Z.ltb_spec (nc_stream st mod 2 ^ (nc_bits st - 1))
              (2 ^ nc_bits st - 1 - nc_remaining st)); [lia|].
  destruct (Z.leb_spec (2 ^ (nc_bits st - 1)) (nc_stream st mod 2 ^ nc_bits st)); lia.
Qed.

Lemma highest_bit_set_spec x : 0 < x < 2 ^ 32 ->
  highest_bit_set x = (Ok (Z.log2 x + 1) : dec Z).
Proof.
  intros. unfold highest_bit_set.
  destruct (Z.ltb_spec 0 x); [|lia]. cbn. unfold mret, res_ret.
  rewrite leading_zeros_log2 by lia. f_equal. lia.
Qed.

Lemma nc_one_safe src max_sv1 log st :
  bytes src -> 8 <= zlen src -> 0 <= log <= FSE_MAX_TABLE_LOG ->
  nc_inv (zlen src) max_sv1 log st ->
  safe (fun r => match r with
                 | inl st' => nc_inv (zlen src) max_sv1 log st' /\
                              nc_charnum st < nc_charnum st'
                 | inr st' => nc_end (zlen src) max_sv1 log st'
                 end) (nc_one src max_sv1 st).
Proof.
  intros Hs H8 Hlog Hi. unfold nc_one.
  pose proof (nc_decode_count_spec _ _ _ _ (proj2 Hlog) Hi) as Hc.
  destruct (nc_decode_count st) as [count bc]. destruct Hc as (Hc1 & Hbc & Hc2).
  destruct Hi as [Hip Hct Hal Hstr Hch Hlen Hz Hlow Hsum Hb Ht Hrem H2].
  unfold FSE_MAX_TABLE_LOG, LL_MAX_LOG in Hlog.
  apply safe_store; [lia|].
  set (rem := if 0 <=? count then _ else _).
  assert (rem = nc_remaining st - Z.abs count) as Hrm by (subst rem; case_bool; lia).
  set (counts := zset (nc_counts st) (nc_charnum st) count).
  assert (cell_sum counts = cell_sum (nc_counts st) + Z.abs count) as Hcs
    by (apply cell_sum_zset, Hz; lia).
  assert (zlen counts = max_sv1) as Hcl by (unfold counts; by rewrite zlen_zset).
  assert (Forall (fun c => -1 <= c) counts) as Hcf by (by apply Forall_zset).
  assert (forall i, nc_charnum st + 1 <= i < max_sv1 -> zget counts i = Some 0) as Hcz.
  { intros i Hi. unfold counts. rewrite zget_zset_ne by lia. apply Hz. lia. }
  clearbody rem counts.
  assert (forall nb th, 1 <= nb <= log + 1 -> th = 2 ^ (nb - 1) -> th <= rem < 2 * th ->
    2 <= rem ->
    safe (fun r => match r with
                   | inl st' => nc_inv (zlen src) max_sv1 log st' /\
                                nc_charnum st < nc_charnum st'
                   | inr st' => nc_end (zlen src) max_sv1 log st'
                   end)
      (if max_sv1 <=? nc_charnum st + 1
       then Ok (inr (MkNc (nc_ip st) (nc_stream st) bc nb rem th (nc_charnum st + 1)
                       (count =? 0) counts))
       else let '(ip, bit_count) := advance (zlen src) (nc_ip st) bc in
            bit_stream ← window src ip bit_count;
            Ok (inl (MkNc ip bit_stream bit_count nb rem th (nc_charnum st + 1)
                       (count =? 0) counts)))) as Hgo.
  { intros nb th Hnb Hth Hr Hr2. case_bool.
    - apply safe_ok. split; cbn; done || lia.
    - pose proof (advance_spec (zlen src) (nc_ip st) bc) as Ha.
      destruct (advance _ _ _) as [ip' bc'].
      destruct Ha as (? & ? & ?); [lia..|].
      apply window_safe; [done|lia|lia|]. intros w Hw. cbn.
      split; [|lia]. split; cbn; done || lia. }
  case_bool; [case_bool|].
  - apply safe_ok. split; cbn; done || lia.
  - assert (2 ^ (nc_bits st - 1) <= 2 ^ 9) by (apply pow2_le; lia).
    change (2 ^ 9) with 512 in *.
    rewrite highest_bit_set_spec by (cbn; lia). cbn [mbind res_bind].
    pose proof (Z.log2_spec rem ltac:(lia)) as [Hl1 Hl2].
    rewrite Z.pow_succ_r in Hl2 by apply Z.log2_nonneg.
    pose proof (Z.log2_nonneg rem).
    assert (Z.log2 rem < nc_bits st - 1) by (apply Z.log2_lt_pow2; lia).
    rewrite Z.shiftl_1_l. rewrite Z.add_simpl_r in *.
    apply Hgo; rewrite ?Z.add_simpl_r; lia.
  - apply Hgo; lia.
Qed.

Lemma nc_body_safe src max_sv1 log st :
  bytes src -> 8 <= zlen src -> 0 <= log <= FSE_MAX_TABLE_LOG ->
  nc_inv (zlen src) max_sv1 log st ->
  safe (fun r => match r with
                 | inl st' => nc_inv (zlen src) max_sv1 log st' /\
                              nc_charnum st < nc_charnum st'
                 | inr st' => nc_end (zlen src) max_sv1 log st'
                 end) (nc_body src max_sv1 st).
Proof.
  intros Hs H8 Hlog Hi. unfold nc_body.
  apply safe_bind with (fun r => match r with
    | inl st' => nc_inv (zlen src) max_sv1 log st' /\ nc_charnum st <= nc_charnum st'
    | inr st' => nc_end (zlen src) max_sv1 log st' end).
  - destruct (nc_previous0 st); [by apply nc_zeros_safe|]. cbn. split; done || lia.
  - intros [st'|st'] H; [|done]. destruct H as [Hi' Hle].
    eapply safe_mono; [by apply nc_one_safe|].
    intros [st''|st'']; [|done]. intros [? ?]. split; done || lia.
Qed.

(** What a header that parses gives. *)
Definition header_ok (t : FSETable) (max_log : Z) (len : Z) (r : FSETable * Z) : Prop :=
  let '(t', n) := r in
  0 <= n <= len /\ accuracy_log t' <= max_log /\
  tiles (max_symbol t) (accuracy_log t') (symbol_probabilities t') /\
  max_symbol t' = max_symbol t /\ cells t' = cells t /\ size t' = size t /\
  symbol_next t' = symbol_next t /\ spread t' = spread t.

Lemma read_ncount_body_safe t src max_log :
  bytes src -> 8 <= zlen src -> 0 <= max_symbol t -> max_log <= FSE_MAX_TABLE_LOG ->
  safe (header_ok t max_log (zlen src)) (read_ncount_body t src max_log).
Proof.
  intros Hs H8 Hms Hml. unfold read_ncount_body.
  apply safe_rassert; [by apply Z.leb_le|].
  unfold read32. rewrite bind_assoc. rewrite slice_prefix by lia. cbn [mbind res_bind].
  set (w := le_val (ztake (0 + 4) src)).
  assert (0 <= w < 2 ^ 32) as Hw.
  { pose proof (le_val_range (ztake 4 src) (Forall_take _ _ _ Hs)) as Hr.
    rewrite zlen_ztake in Hr by lia. exact Hr. }
  assert (Z.land w 15 = w mod 16) as Hla by (apply (land_mod w 4); lia).
  set (log := Z.land w 15 + ACC_LOG_OFFSET).
  assert (5 <= log) by (unfold log, ACC_LOG_OFFSET; divlia).
  apply safe_fail_if. intros Hmx. bools.
  unfold FSE_MAX_TABLE_LOG, LL_MAX_LOG in *.
  rewrite (wrap_small 8 log) by (cbn; lia). rewrite !Z.shiftl_1_l.
  pose proof (pow2_le 5 log ltac:(lia)) as Hp5. change (2 ^ 5) with 32 in Hp5.
  apply safe_bind with (nc_end (zlen src) (max_symbol t + 1) log).
  - apply (safe_loopM (nc_inv (zlen src) (max_symbol t + 1) log)
      (fun st => Z.to_nat (max_symbol t + 1 - nc_charnum st))).
    + rewrite Z.shiftr_div_pow2 by lia. change (2 ^ 4) with 16.
      split; cbn; rewrite ?cell_sum_zrepeat, ?Z.add_simpl_r; try done; try lia.
      * change (2 ^ 28) with 268435456. change (2 ^ 32) with 4294967296 in Hw. divlia.
      * apply zlen_zrepeat. lia.
      * intros i Hi. by apply zget_zrepeat.
      * by apply Forall_zrepeat.
    + cbn. lia.
    + intros st Hi. eapply safe_mono; [apply (nc_body_safe _ _ log); try done; unfold FSE_MAX_TABLE_LOG, LL_MAX_LOG; lia|].
      intros [st'|st']; [|done]. intros [Hi' ?]. split; [done|].
      destruct Hi'. lia.
  - intros st [Hip Hct Hch Hlen Hz Hlow Hsum].
    apply safe_fail_if. intros Hrem. bools.
    apply safe_fail_if. intros Hcm. bools.
    apply safe_fail_if. intros Hc32. bools.
    cbn. rewrite Z.shiftr_div_pow2 by lia. change (2 ^ 3) with 8.
    split_and!; try done; try lia; try divlia.
    split; cbn; unfold ACC_LOG_OFFSET, FSE_MAX_TABLE_LOG, LL_MAX_LOG.
    + rewrite cell_sum_ztake; [lia|lia|]. rewrite Hlen. done.
    + by apply Forall_take.
    + rewrite zlen_ztake by lia. lia.
    + lia.
Qed.

Lemma read_probabilities_safe t source max_log :
  bytes source -> 0 <= max_symbol t -> max_log <= FSE_MAX_TABLE_LOG ->
  safe (header_ok t max_log (zlen source)) (read_probabilities t source max_log).
Proof.
  intros Hs Hms Hml. unfold read_probabilities. pose proof (zlen_nonneg source).
  case_bool; [|by apply read_ncount_body_safe].
  assert (zlen (source ++ zrepeat 0 (8 - zlen source)) = 8) as Hl
    by (rewrite zlen_app, zlen_zrepeat by lia; lia).
  eapply safe_bind.
  - apply read_ncount_body_safe; [|lia|done|done].
    apply Forall_app. split; [done|]. by apply Forall_zrepeat.
  - rewrite Hl. intros [t' n] (? & ? & ? & ?).
    apply safe_fail_if. intros ?. bools. cbn. split; [lia|]. tauto.
Qed.

(** C16: The FSE table-description parser is safe and sound: on every byte
    string it reads within the input, its loops terminate, and it either
    reports an error or returns a length within the input together with
    counts that tile the table: at least -1 each, for at most
    [max_symbol + 1] symbols, their absolute values summing to
    [2 ^ accuracy_log], with an accuracy log between 5 and [max_log]. *)
Theorem read_probabilities_sound t source max_log :
  bytes source -> 0 <= max_symbol t -> max_log <= FSE_MAX_TABLE_LOG ->
  match read_probabilities t source max_log with
  | Ok (t', n) =>
      0 <= n <= zlen source /\ accuracy_log t' <= max_log /\
      tiles (max_symbol t) (accuracy_log t') (symbol_probabilities t')
  | Err _ => True
  | Fault | Stuck => False
  end.
Proof.
  intros Hs Hms Hml. pose proof (read_probabilities_safe t source max_log Hs Hms Hml) as H.
  destruct (read_probabilities _ _ _) as [[t' n]| | |]; cbn in H; tauto.
Qed.

(** A 2-byte header: two symbols of 16 cells each, of a table of 32. *)
Lemma read_probabilities_sound_witness :
  exists t' n, read_probabilities (FseTable.new 35) [0x10; 0x3F] 9 = Ok (t', n) /\
    n = 2 /\ symbol_probabilities t' = [16; 16] /\
    tiles 35 (accuracy_log t') (symbol_probabilities t').
Proof.
  pose proof (read_probabilities_sound (FseTable.new 35) [0x10; 0x3F] 9) as H.
  assert (bytes [0x10; 0x3F]) as Hb by (repeat constructor; unfold is_byte; lia).
  specialize (H Hb ltac:(by vm_compute) ltac:(by vm_compute)).
  destruct (read_probabilities (FseTable.new 35) [0x10; 0x3F] 9) as [[t' n]|e| |] eqn:E;
    vm_compute in E; try discriminate E.
  exists t', n. injection E as <- <-. destruct H as (_ & _ & H).
  split; [done|]. split; [done|]. split; [done|]. exact H.
Defined.
