(* ===== verification/FseBuild.v ===== *)
(** * FSE decoding tables: what the builder builds

    A reference for [FseTable.build_decoding_table]: the walk over the table's
    positions, the symbols in the order the walk meets them, and the
    transition of each cell. Both spreading strategies refine it, and the
    transitions of each symbol's cells partition the state space. *)

From S2P Require Import Prelude Words Constants Errors FseTable FseCounts.

(** ** The reference *)

Definition spread_step (log : Z) : Z := 2 ^ log / 2 + 2 ^ log / 8 + 3.

(** The positions in the order the builder visits them. *)
Definition orbit (log : Z) : list Z :=
  (fun j => (j * spread_step log) mod 2 ^ log) <$> seqZ 0 (2 ^ log).

(** The positions below [ht], in the order of the visit. *)
Definition walk (log ht : Z) : list Z := filter (fun p => p < ht) (orbit log).

(** The symbols the walk lays down: each as often as its count. *)
Definition expand_from (s : Z) (counts : list Z) : list Z :=
  concat (imap (fun k n => zrepeat (s + Z.of_nat k) n) counts).

Definition expand : list Z -> list Z := expand_from 0.

(** The symbols of probability "less than one", in order. *)
Definition lows_from (s : Z) (counts : list Z) : list Z :=
  concat (imap (fun k n => if n =? -1 then [s + Z.of_nat k] else []) counts).

Definition lows : list Z -> list Z := lows_from 0.

(** [syms] is the symbol of each cell of the table of [counts]. *)
Record spread_of (log : Z) (counts syms : list Z) : Prop := {
  spread_len : zlen syms = 2 ^ log;
  spread_walk : forall k p s,
    zget (walk log (2 ^ log - zlen (lows counts))) k = Some p ->
    zget (expand counts) k = Some s -> zget syms p = Some s;
  spread_lows : forall k s, zget (lows counts) k = Some s ->
    zget syms (2 ^ log - 1 - k) = Some s;
}.

(** Occurrences of [s]. *)
Definition occurrences (s : Z) (l : list Z) : Z := zlen (filter (fun x => x = s) l).

(** The counter a cell is given: the symbol's count, plus the cells of the
    symbol before it. *)
Definition counter (counts syms : list Z) (i : Z) (s : Z) : Z :=
  Z.abs (default 0 (zget counts s)) + occurrences s (ztake i syms).

(** Cell [i], of symbol [s] and counter [n]: it reads [log - log2 n] bits and
    goes to the states from [n * 2 ^ bits - 2 ^ log] on. *)
Definition cell_ok (cs : codes) (log n s : Z) (e : FSEEntry) : Prop :=
  num_bits e = log - Z.log2 n /\
  next_state e = n * 2 ^ (log - Z.log2 n) - 2 ^ log /\
  match cs with
  | Some (base, bits) => zget base s = Some (base_value e) /\ zget bits s = Some (extra_bits e)
  | None => base_value e = s
  end.

(** The codes of every symbol exist. *)
Definition codes_cover (cs : codes) (n : Z) : Prop :=
  match cs with
  | Some (base, bits) => n <= zlen base /\ n <= zlen bits
  | None => True
  end.

(** What a built table holds. *)
Record built (cs : codes) (log : Z) (counts : list Z) (t : FSETable) (syms : list Z) : Prop := {
  built_size : size t = 2 ^ log;
  built_log : accuracy_log t = log;
  built_counts : symbol_probabilities t = counts;
  built_cap : 2 ^ log <= zlen (cells t);
  built_spread : spread_of log counts syms;
  built_cell : forall i s, zget syms i = Some s ->
    exists e, zget (cells t) i = Some e /\ cell_ok cs log (counter counts syms i s) s e;
}.

(** ** Permutations of a table *)

(** A list that holds [x] at the positions [p] is a permutation of [x], when
    the positions are all of it, each once. *)
Lemma placed_permutation (l x p : list Z) :
  NoDup p -> Forall (fun i => 0 <= i < zlen l) p -> zlen p = zlen l -> zlen x = zlen l ->
  (forall k i s, zget p k = Some i -> zget x k = Some s -> zget l i = Some s) ->
  l ≡ₚ x.
Proof.
  intros Hnd Hr Hp Hx Hk.
  assert (p ≡ₚ seqZ 0 (zlen l)) as Hpm.
  { apply submseteq_length_Permutation.
    - apply NoDup_submseteq; [done|]. intros i Hi. apply elem_of_seqZ.
      rewrite Forall_forall in Hr. specialize (Hr i Hi). lia.
    - rewrite length_seqZ. unfold zlen in *. lia. }
  assert (l = (fun i => default 0 (zget l i)) <$> seqZ 0 (zlen l)) as Hl.
  { pose proof (zlen_nonneg l).
    apply zlist_eq; [by rewrite zlen_fmap, zlen_seqZ|].
    intros i Hi. rewrite zget_fmap, seqZ_zget, Z.add_0_l by done. cbn.
    destruct (zget_is_Some l i Hi) as [v Hv]. by rewrite Hv. }
  assert (x = (fun i => default 0 (zget l i)) <$> p) as ->.
  { apply zlist_eq; [rewrite zlen_fmap; lia|].
    intros k Hk'. rewrite zget_fmap.
    destruct (zget_is_Some x k Hk') as [v Hv].
    destruct (zget_is_Some p k ltac:(lia)) as [i Hi].
    rewrite Hv, Hi. cbn. by rewrite (Hk _ _ _ Hi Hv). }
  rewrite Hpm. by rewrite <- Hl.
Qed.

Lemma occurrences_perm s l1 l2 : l1 ≡ₚ l2 -> occurrences s l1 = occurrences s l2.
Proof. intros H. unfold occurrences, zlen. by rewrite H. Qed.

Lemma occurrences_app s l1 l2 : occurrences s (l1 ++ l2) = occurrences s l1 + occurrences s l2.
Proof. unfold occurrences. by rewrite filter_app, zlen_app. Qed.

Lemma occurrences_cons s x l : occurrences s (x :: l) = (if x =? s then 1 else 0) + occurrences s l.
Proof.
  unfold occurrences. rewrite filter_cons.
  destruct (decide (x = s)), (Z.eqb_spec x s); try done. rewrite zlen_cons. lia.
Qed.

Lemma occurrences_nonneg s l : 0 <= occurrences s l.
Proof. apply zlen_nonneg. Qed.

Lemma occurrences_zrepeat s x n :
  occurrences s (zrepeat x n) = if x =? s then Z.max n 0 else 0.
Proof.
  unfold zrepeat. rewrite <- (Z2Nat.id (Z.max n 0)) by lia.
  replace (Z.to_nat (Z.max n 0)) with (Z.to_nat n) by lia.
  induction (Z.to_nat n) as [|k IH]; cbn [replicate].
  - by destruct (x =? s).
  - rewrite occurrences_cons, IH. case_bool; lia.
Qed.

(** ** The symbols laid down *)

Lemma expand_from_cons s n l : expand_from s (n :: l) = zrepeat s n ++ expand_from (s + 1) l.
Proof.
  unfold expand_from. cbn. rewrite Z.add_0_r. do 2 f_equal.
  apply imap_ext. intros. cbn. f_equal. lia.
Qed.

Lemma lows_from_cons s n l :
  lows_from s (n :: l) = (if n =? -1 then [s] else []) ++ lows_from (s + 1) l.
Proof.
  unfold lows_from. cbn. rewrite Z.add_0_r. do 2 f_equal.
  apply imap_ext. intros. cbn. case_bool; [|done]. f_equal. lia.
Qed.

Lemma expand_lows_length s counts : Forall (fun c => -1 <= c) counts ->
  zlen (expand_from s counts) + zlen (lows_from s counts) = cell_sum counts.
Proof.
  intros H. revert s. induction H as [|n l Hn Hl IH]; intros s; [done|].
  rewrite expand_from_cons, lows_from_cons, !zlen_app.
  specialize (IH (s + 1)). change (n :: l) with ([n] ++ l). rewrite cell_sum_app.
  assert (cell_sum [n] = Z.abs n) as -> by (unfold cell_sum; cbn -[Z.abs Z.add]; lia).
  destruct (Z.eqb_spec n (-1)) as [->|].
  - change (zlen (zrepeat s (-1))) with 0. change (zlen [s]) with 1. lia.
  - rewrite zlen_zrepeat by lia. change (zlen (@nil Z)) with 0. lia.
Qed.

Lemma occurrences_laid s counts k : Forall (fun c => -1 <= c) counts ->
  occurrences k (expand_from s counts ++ lows_from s counts) =
  Z.abs (default 0 (zget counts (k - s))).
Proof.
  intros H. revert s. induction H as [|n l Hn Hl IH]; intros s.
  - cbn. unfold zget. by case_bool.
  - rewrite expand_from_cons, lows_from_cons. specialize (IH (s + 1)).
    rewrite !occurrences_app, occurrences_zrepeat in *.
    assert (occurrences k (if n =? -1 then [s] else []) =
            if s =? k then (if n =? -1 then 1 else 0) else 0) as ->.
    { case_bool; [|by destruct (s =? k)].
      rewrite occurrences_cons. change (occurrences k []) with 0. by destruct (s =? k). }
    destruct (Z.eqb_spec s k) as [->|].
    + rewrite Z.sub_diag. change (zget (n :: l) 0) with (Some n). cbn [default].
      rewrite zget_None in IH by lia. cbn in IH.
      destruct (Z.eqb_spec n (-1)) as [->|]; cbn -[Z.add Z.max] in *; lia.
    + assert (zget (n :: l) (k - s) = zget l (k - (s + 1))) as ->.
      { unfold zget. destruct (Z.ltb_spec (k - s) 0), (Z.ltb_spec (k - (s + 1)) 0); try lia; try done.
        replace (Z.to_nat (k - s)) with (S (Z.to_nat (k - (s + 1)))) by lia. done. }
      lia.
Qed.

#[global] Arguments occurrences : simpl never.
#[global] Arguments expand_from : simpl never.
#[global] Arguments lows_from : simpl never.

(** ** The walk *)

Lemma spread_step_coprime log : 5 <= log <= 9 -> Z.gcd (2 ^ log) (spread_step log) = 1.
Proof.
  intros. assert (log = 5 \/ log = 6 \/ log = 7 \/ log = 8 \/ log = 9) as H' by lia.
  destruct_or! H'; subst; reflexivity.
Qed.

Lemma orbit_NoDup log : 5 <= log <= 9 -> NoDup (orbit log).
Proof.
  intros Hlog. unfold orbit. pose proof (pow2_pos log ltac:(lia)).
  apply NoDup_fmap_2_strong; [|apply NoDup_seqZ].
  intros i j Hi%elem_of_seqZ Hj%elem_of_seqZ Heq.
  assert ((2 ^ log | (i - j) * spread_step log)) as Hd.
  { apply Z.mod_divide; [lia|]. rewrite Z.mul_sub_distr_r, Zminus_mod, Heq, Z.sub_diag.
    apply Z.mod_0_l. lia. }
  rewrite Z.mul_comm in Hd. apply Z.gauss in Hd; [|by apply spread_step_coprime].
  destruct Hd as [q Hq]. assert (q = 0) by nia. nia.
Qed.

Lemma orbit_range log p : 0 <= log -> p ∈ orbit log -> 0 <= p < 2 ^ log.
Proof.
  intros ? (j & -> & _)%list_elem_of_fmap. apply Z.mod_pos_bound. by apply pow2_pos.
Qed.

Lemma orbit_permutation log : 5 <= log <= 9 -> orbit log ≡ₚ seqZ 0 (2 ^ log).
Proof.
  intros Hlog. apply submseteq_length_Permutation.
  - apply NoDup_submseteq; [by apply orbit_NoDup|].
    intros p Hp. apply elem_of_seqZ. apply orbit_range in Hp; lia.
  - unfold orbit. by rewrite length_fmap.
Qed.

Lemma filter_seqZ_lt a n : 0 <= a <= n -> filter (fun p => p < a) (seqZ 0 n) = seqZ 0 a.
Proof.
  intros. replace n with (a + (n - a)) by lia.
  rewrite seqZ_app, filter_app by lia.
  rewrite filter_true, filter_false; [apply app_nil_r| |]; intros ? ?%elem_of_seqZ; lia.
Qed.

Lemma walk_permutation log ht : 5 <= log <= 9 -> 0 <= ht <= 2 ^ log ->
  walk log ht ≡ₚ seqZ 0 ht.
Proof.
  intros. unfold walk. rewrite orbit_permutation by done. by rewrite filter_seqZ_lt.
Qed.

Lemma zlen_walk log ht : 5 <= log <= 9 -> 0 <= ht <= 2 ^ log -> zlen (walk log ht) = ht.
Proof.
  intros. unfold zlen. rewrite walk_permutation by done. rewrite length_seqZ. lia.
Qed.

(** ** Placing symbols along a list of positions *)

(** After [k] turns: [B] holds the first [k] symbols of [X] at the first [k]
    positions of [W], and what [B0] held elsewhere. *)
Record placed (W X B0 : list Z) (k : Z) (B : list Z) : Prop := {
  placed_len : zlen B = zlen B0;
  placed_done : forall j p s, j < k -> zget W j = Some p -> zget X j = Some s ->
    zget B p = Some s;
  placed_keep : forall i, i ∉ W -> zget B i = zget B0 i;
}.

Lemma zget_NoDup (W : list Z) i j p :
  NoDup W -> zget W i = Some p -> zget W j = Some p -> i = j.
Proof.
  intros Hnd [? Hi]%zget_Some [? Hj]%zget_Some.
  pose proof (NoDup_lookup _ _ _ _ Hnd Hi Hj). lia.
Qed.

Lemma zget_elem (W : list Z) i p : zget W i = Some p -> p ∈ W.
Proof. intros [_ H]%zget_Some. by eapply list_elem_of_lookup_2. Qed.

Lemma placed_step W X B0 k B p s :
  NoDup W -> placed W X B0 k B -> zget W k = Some p -> zget X k = Some s ->
  0 <= p < zlen B -> placed W X B0 (k + 1) (zset B p s).
Proof.
  intros Hnd [Hl Hd Hk] HW HX Hp. split; [by rewrite zlen_zset| |].
  - intros j p' s' Hj Hj1 Hj2. rewrite zget_zset by done.
    destruct (Z.eqb_spec p p') as [->|Hne].
    + rewrite (zget_NoDup _ _ _ _ Hnd HW Hj1) in HX. congruence.
    + apply (Hd j); [|done..]. assert (j <> k) by congruence. lia.
  - intros i Hi. rewrite zget_zset by done.
    destruct (Z.eqb_spec p i) as [->|]; [|by apply Hk].
    apply zget_elem in HW. done.
Qed.

Lemma placed_0 W X B : placed W X B 0 B.
Proof. split; [done| |done]. intros j p s ? [? _]%zget_Some. lia. Qed.

(** ** The builder's loops *)

Definition bases (dt : list FSEEntry) : list Z := base_value <$> dt.

#[global] Arguments bases : simpl never.

Lemma set_base_ok dt i s : 0 <= i < zlen dt ->
  exists dt', set_base dt i s = Ok dt' /\ zlen dt' = zlen dt /\
    bases dt' = zset (bases dt) i s.
Proof.
  intros Hi. unfold set_base. destruct (zget_is_Some _ _ Hi) as [c Hc].
  rewrite (idx_ok _ _ _ Hc). cbn [mbind res_bind]. rewrite store_ok by done.
  eexists. split; [done|]. split; [apply zlen_zset|].
  unfold bases, zset. by rewrite list_fmap_insert.
Qed.

Definition enum_from (s : Z) (l : list Z) : list (Z * Z) :=
  imap (fun i x => (s + Z.of_nat i, x)) l.

Lemma enumerate_enum l : enumerate l = enum_from 0 l.
Proof. done. Qed.

Lemma enum_from_cons s x l : enum_from s (x :: l) = (s, x) :: enum_from (s + 1) l.
Proof.
  unfold enum_from. cbn. rewrite Z.add_0_r. f_equal. apply imap_ext.
  intros. cbn. f_equal. lia.
Qed.

(** What the first loop leaves. *)
Record low_placed (s ht : Z) (counts : list Z) (dt : list FSEEntry) (next : list Z)
    (r : Z * list FSEEntry * list Z) : Prop := {
  low_ht : r.1.1 = ht - zlen (lows_from s counts);
  low_len : zlen r.1.2 = zlen dt;
  low_at : forall k x, zget (lows_from s counts) k = Some x ->
    zget (bases r.1.2) (ht - 1 - k) = Some x;
  low_keep : forall i, i < r.1.1 \/ ht <= i -> zget (bases r.1.2) i = zget (bases dt) i;
  low_next_len : zlen r.2 = zlen next;
  low_next : forall k c, zget counts k = Some c -> zget r.2 (s + k) = Some (Z.abs c);
  low_next_keep : forall j, j < s -> zget r.2 j = zget next j;
}.

Lemma place_low_spec counts s ht dt next :
  Forall (fun c => -1 <= c < 2 ^ 16) counts -> 0 <= s -> s + zlen counts <= zlen next ->
  zlen (lows_from s counts) <= ht <= zlen dt ->
  returns (low_placed s ht counts dt next)
    (foldM place_low (ht, dt, next) (enum_from s counts)).
Proof.
  intros Hc. revert s ht dt next.
  induction Hc as [|n l Hn Hl IH]; intros s ht dt next Hs Hlen Hht.
  - cbn. split; cbn; try done; [change (zlen _) with 0; lia|..];
      intros k x []%zget_Some; done.
  - rewrite enum_from_cons. cbn [foldM]. rewrite zlen_cons in Hlen.
    pose proof (zlen_nonneg l). rewrite lows_from_cons in *.
    unfold place_low at 2. destruct (Z.eqb_spec n (-1)) as [->|Hne].
    + rewrite zlen_app in Hht. change (zlen [s]) with 1 in Hht.
      pose proof (zlen_nonneg (lows_from (s + 1) l)).
      destruct (Z.leb_spec 1 ht); [|lia]. cbn [rassert mbind res_bind].
      destruct (set_base_ok dt (ht - 1) s ltac:(lia)) as (dt1 & -> & Hl1 & Hb1).
      cbn [mbind res_bind]. rewrite store_ok by lia. cbn [mbind res_bind].
      eapply returns_mono; [apply IH; rewrite ?zlen_zset; lia|].
      intros [[ht' dt'] next'] [L1 L2 L3 L4 L5 L6 L7]; cbn in *.
      assert (zlen (bases dt) = zlen dt) as Hbl by (unfold bases; by rewrite zlen_fmap).
      rewrite Hb1 in *.
      split; cbn; rewrite ?lows_from_cons, ?Z.eqb_refl; cbn [app].
      * rewrite zlen_cons. lia.
      * congruence.
      * intros k x. rewrite zget_cons. case_bool; [intros [= <-]; subst k|case_bool; [done|]].
        -- rewrite L4 by lia. rewrite zget_zset by lia. by rewrite Z.sub_0_r, Z.eqb_refl.
        -- intros Hk. rewrite <- (L3 _ _ Hk). f_equal. lia.
      * intros i Hi. rewrite L4 by lia. rewrite zget_zset by lia. case_bool; [lia|done].
      * by rewrite L5, zlen_zset.
      * intros k c. rewrite zget_cons. case_bool; [intros [= <-]; subst k|case_bool; [done|]].
        -- rewrite Z.add_0_r, L7, zget_zset, Z.eqb_refl by lia. done.
        -- intros Hk. rewrite <- (L6 _ _ Hk). f_equal. lia.
      * intros j Hj. rewrite L7, zget_zset by lia. case_bool; [lia|done].
    + cbn [app] in *. rewrite store_ok by lia. cbn [mbind res_bind].
      rewrite wrap_small by lia.
      eapply returns_mono; [apply IH; rewrite ?zlen_zset; lia|].
      intros [[ht' dt'] next'] [L1 L2 L3 L4 L5 L6 L7]; cbn in *.
      apply Z.eqb_neq in Hne.
      split; cbn; rewrite ?lows_from_cons, ?Hne; cbn [app]; try done.
      * by rewrite L5, zlen_zset.
      * intros k c. rewrite zget_cons. case_bool; [intros [= <-]; subst k|case_bool; [done|]].
        -- rewrite Z.add_0_r, L7, zget_zset, Z.eqb_refl by lia. f_equal. lia.
        -- intros Hk. rewrite <- (L6 _ _ Hk). f_equal. lia.
      * intros j Hj. rewrite L7, zget_zset by lia. case_bool; [lia|done].
Qed.

(** ** Laying the symbols down 8 bytes at a time *)

(** The 8 copies of [s] in a [u64]. *)
Lemma le_bytes_splat s : 0 <= s < 256 -> le_bytes 8 (s * 0x0101010101010101) = zrepeat s 8.
Proof.
  intros Hs. assert (bytes (zrepeat s 8)) as Hb by (by apply Forall_zrepeat).
  assert (le_val (zrepeat s 8) = s * 0x0101010101010101) as <-.
  { change (zrepeat s 8) with [s; s; s; s; s; s; s; s]. cbn [le_val]. lia. }
  apply (le_bytes_le_val _ Hb).
Qed.

Lemma write8_ok sp pos sv : 0 <= pos -> pos + 8 <= zlen sp ->
  exists sp', write8 sp pos sv = Ok sp' /\ zlen sp' = zlen sp /\
    ztake (pos + 8) sp' = ztake pos sp ++ le_bytes 8 sv.
Proof.
  intros. unfold write8.
  destruct (Z.leb_spec 0 pos), (Z.leb_spec (pos + 8) (zlen sp)); try lia.
  cbn [andb rassert mbind res_bind]. eexists. split; [done|].
  assert (zlen (le_bytes 8 sv) = 8) as H8 by (unfold zlen; by rewrite length_le_bytes).
  assert (zlen (ztake pos sp) = pos) as Hp by (apply zlen_ztake; lia).
  split.
  - rewrite !zlen_app, H8, Hp, zlen_zdrop by lia. lia.
  - rewrite app_assoc, ztake_app_le by (rewrite zlen_app; lia).
    apply ztake_all. rewrite zlen_app. lia.
Qed.

Lemma write_run_ok sp pos n s :
  0 <= s < 256 -> 0 <= pos -> 0 <= n -> pos + n + 8 <= zlen sp -> pos + 8 <= zlen sp ->
  ztake (pos + 8) sp = ztake pos sp ++ zrepeat s 8 ->
  returns (fun sp' => zlen sp' = zlen sp /\ ztake (pos + n) sp' = ztake pos sp ++ zrepeat s n)
    (write_run sp pos n (s * 0x0101010101010101)).
Proof.
  intros Hs Hpos Hn Hl H8 Hsp. unfold write_run.
  apply (returns_loopM (fun '(sp', i) => zlen sp' = zlen sp /\ 8 <= i /\
           ztake (pos + i) sp' = ztake pos sp ++ zrepeat s i)
         (fun '(_, i) => Z.to_nat (n - i))); [|lia|].
  - split_and!; done || lia.
  - intros [sp' i] (Hl' & Hi & Heq). destruct (Z.ltb_spec i n).
    + destruct (write8_ok sp' (pos + i) (s * 0x0101010101010101)) as (sp2 & -> & Hl2 & Ht);
        [lia..|].
      cbn. split_and!; [lia..| |lia]. rewrite Z.add_assoc, Ht, Heq, le_bytes_splat by done.
      rewrite <- app_assoc. f_equal. by rewrite zrepeat_app by lia.
    + cbn. split; [done|]. rewrite <- (ztake_ztake sp' (pos + n) (pos + i)) by lia.
      rewrite Heq. rewrite <- (zlen_ztake sp pos) at 1 by lia.
      rewrite ztake_app_add, ztake_zrepeat by lia. done.
Qed.

(** What laying [counts] down from symbol [s] leaves, [P] before it. *)
Definition laid (P : list Z) (s : Z) (counts sp : list Z) (r : list Z * Z * Z) : Prop :=
  zlen r.1.1 = zlen sp /\ r.1.2 = zlen P + zlen (expand_from s counts) /\
  ztake r.1.2 r.1.1 = P ++ expand_from s counts.

Lemma lay_symbols_ok counts s sp P :
  Forall (fun c => 0 <= c < 2 ^ 16) counts -> 0 <= s -> s + zlen counts <= 256 ->
  zlen P + zlen (expand_from s counts) + 8 <= zlen sp -> ztake (zlen P) sp = P ->
  returns (laid P s counts sp)
    (foldM lay_symbol (sp, zlen P, wrap 64 (s * 0x0101010101010101)) counts).
Proof.
  intros Hc. revert s sp P. induction Hc as [|n l Hn Hl IH]; intros s sp P Hs Hlen Hcap HP.
  - cbn. unfold laid. cbn. change (expand_from s []) with (@nil Z). rewrite app_nil_r.
    change (zlen (@nil Z)) with 0. split_and!; done || lia.
  - cbn [foldM]. rewrite zlen_cons in Hlen. pose proof (zlen_nonneg l).
    rewrite expand_from_cons, zlen_app, zlen_zrepeat in Hcap by lia.
    pose proof (zlen_nonneg (expand_from (s + 1) l)). pose proof (zlen_nonneg P).
    unfold lay_symbol at 2. rewrite (wrap_small 64 n) by lia.
    rewrite (wrap_small 64 (s * _)) by lia.
    destruct (write8_ok sp (zlen P) (s * 0x0101010101010101)) as (sp1 & -> & Hl1 & Ht1); [lia..|].
    cbn [mbind res_bind]. rewrite bind_assoc.
    rewrite HP, le_bytes_splat in Ht1 by lia.
    assert (ztake (zlen P) sp1 = P) as HP1.
    { rewrite <- (ztake_ztake sp1 (zlen P) (zlen P + 8)) by lia. rewrite Ht1.
      rewrite ztake_app_le by lia. by apply ztake_all. }
    eapply returns_bind; [apply write_run_ok; try lia; by rewrite HP1|].
    intros sp2 [Hl2 Ht2]. rewrite HP1 in Ht2. cbn [mbind res_bind].
    assert (zlen P + n = zlen (P ++ zrepeat s n)) as HP2
      by (rewrite zlen_app, zlen_zrepeat; lia).
    unfold wadd. rewrite HP2 in *.
    replace (s * 0x0101010101010101 + 0x0101010101010101)
      with ((s + 1) * 0x0101010101010101) by lia.
    eapply returns_mono; [apply IH; try done; lia|].
    intros [[sp3 pos] sv] (L1 & L2 & L3). unfold laid. cbn in *.
    rewrite expand_from_cons, app_assoc, zlen_app, zlen_zrepeat by lia.
    rewrite <- HP2 in L2. split_and!; done || lia.
Qed.

(** ** The two strategies *)

Section strategies.
Context (log : Z) (Hlog : 5 <= log <= 9).

Local Abbreviation step := (spread_step log).
Local Abbreviation mask := (2 ^ log - 1).
Local Abbreviation pos j := ((j * step) mod 2 ^ log).

Lemma size_bounds : 32 <= 2 ^ log <= 512.
Proof.
  pose proof (pow2_le 5 log). pose proof (pow2_le log 9).
  change (2 ^ 5) with 32 in *. change (2 ^ 9) with 512 in *. lia.
Qed.

Lemma zget_orbit k : 0 <= k < 2 ^ log -> zget (orbit log) k = Some (pos k).
Proof. intros. unfold orbit. by rewrite zget_fmap, seqZ_zget. Qed.

Lemma pos_range j : 0 <= pos j < 2 ^ log.
Proof. apply Z.mod_pos_bound. apply pow2_pos. lia. Qed.

Lemma pos_next j k p : p = pos j -> Z.land (p + k * step) mask = pos (j + k).
Proof.
  intros ->. rewrite land_mod by lia. rewrite Zplus_mod_idemp_l.
  f_equal. lia.
Qed.

Lemma pos_next1 j p : p = pos j -> Z.land (p + step) mask = pos (j + 1).
Proof. intros Hp. rewrite <- (pos_next j 1 p Hp). by rewrite Z.mul_1_l. Qed.

Lemma walk_full : walk log (2 ^ log) = orbit log.
Proof.
  apply filter_true. intros p Hp%orbit_range; lia.
Qed.

Lemma scatter_ok sp dt X :
  2 ^ log <= zlen dt -> 2 ^ log <= zlen sp -> zlen X = 2 ^ log -> ztake (2 ^ log) sp = X ->
  returns (fun '(dt', _) => zlen dt' = zlen dt /\
             placed (orbit log) X (bases dt) (2 ^ log) (bases dt'))
    (foldM (scatter2 sp step mask) (dt, 0) (evens (2 ^ log))).
Proof.
  intros Hdt Hsp HX Hxs. pose proof size_bounds.
  assert (2 ^ log = 2 * (2 ^ log / 2)) as Hev.
  { replace log with (1 + (log - 1)) by lia. rewrite pow2_add by lia.
    change (2 ^ 1) with 2. divlia. }
  assert (div_ceil (2 ^ log) 2 = 2 ^ log / 2) as Hdc by (unfold div_ceil; divlia).
  assert (forall k, 0 <= k < 2 ^ log -> zget sp k = zget X k) as Hget.
  { intros k Hk. rewrite <- Hxs. by rewrite zget_ztake. }
  eapply returns_mono.
  - apply (returns_foldM (fun k '(dt', p) => zlen dt' = zlen dt /\ p = pos (2 * Z.of_nat k) /\
      placed (orbit log) X (bases dt) (2 * Z.of_nat k) (bases dt'))).
    + split_and!; [done| |apply placed_0].
      change (0 = 0 mod 2 ^ log). by rewrite Z.mod_0_l by lia.
    + intros k s [dt' p] Hk (Hl & Hp & Hpl).
      unfold evens in Hk. rewrite list_lookup_fmap in Hk.
      apply fmap_Some in Hk as (i & Hi & ->). apply lookup_seqZ in Hi as [-> Hi].
      rewrite Z.add_0_l. rewrite Hdc in Hi.
      pose proof (pos_range (2 * Z.of_nat k)). pose proof (pos_range (2 * Z.of_nat k + 1)).
      destruct (zget_is_Some X (2 * Z.of_nat k) ltac:(lia)) as [a Ha].
      destruct (zget_is_Some X (2 * Z.of_nat k + 1) ltac:(lia)) as [b Hb].
      unfold scatter2. rewrite (idx_ok sp (2 * Z.of_nat k) a) by (rewrite <- Ha; apply Hget; lia).
      cbn [mbind res_bind].
      destruct (set_base_ok dt' p a ltac:(lia)) as (dt1 & -> & Hl1 & Hb1).
      cbn [mbind res_bind].
      rewrite (idx_ok sp (2 * Z.of_nat k + 1) b) by (rewrite <- Hb; apply Hget; lia). cbn [mbind res_bind].
      rewrite (pos_next1 (2 * Z.of_nat k)), (pos_next (2 * Z.of_nat k)) by done.
      destruct (set_base_ok dt1 (pos (2 * Z.of_nat k + 1)) b ltac:(lia)) as (dt2 & -> & Hl2 & Hb2).
      cbn. split_and!; [lia|f_equal; lia|].
      replace (2 * Z.of_nat (S k)) with ((2 * Z.of_nat k + 1) + 1) by lia.
      rewrite Hb2, Hb1. apply placed_step; try done.
      * by apply orbit_NoDup.
      * apply placed_step; try done.
        -- by apply orbit_NoDup.
        -- subst p. apply zget_orbit. lia.
        -- unfold bases. rewrite zlen_fmap. lia.
      * apply zget_orbit. lia.
      * rewrite zlen_zset. unfold bases. rewrite zlen_fmap. lia.
  - intros [dt' p] (Hl & _ & Hpl). split; [done|].
    unfold evens in Hpl. rewrite length_fmap, length_seqZ, Hdc in Hpl.
    replace (2 * Z.of_nat (Z.to_nat (2 ^ log / 2))) with (2 ^ log) in Hpl by lia. done.
Qed.

(** The rest of the walk, from turn [j] of the orbit. *)
Definition rest (ht j : Z) : list Z := filter (fun p => p < ht) (zdrop j (orbit log)).

Lemma rest_step ht j : 0 <= j < 2 ^ log ->
  rest ht j = (if pos j <? ht then [pos j] else []) ++ rest ht (j + 1).
Proof.
  intros Hj. unfold rest, zdrop.
  pose proof (zget_orbit j Hj) as [_ Hl]%zget_Some.
  rewrite (drop_S _ _ _ Hl). rewrite filter_cons.
  replace (Z.to_nat (j + 1)) with (S (Z.to_nat j)) by lia.
  destruct (decide (pos j < ht)), (Z.ltb_spec (pos j) ht); done || lia.
Qed.

Lemma rest_end ht : rest ht (2 ^ log) = [].
Proof.
  unfold rest, zdrop. rewrite drop_ge; [done|]. unfold orbit.
  rewrite length_fmap, length_seqZ. lia.
Qed.

Lemma skip_high_ok ht j p :
  0 < ht -> 0 <= j <= 2 ^ log -> p = pos j ->
  returns (fun p' => exists j', j <= j' <= 2 ^ log /\ p' = pos j' /\ rest ht j' = rest ht j /\
             p' < ht)
    (skip_high (2 ^ log) step mask ht p).
Proof.
  intros Hht Hj ->. pose proof size_bounds. unfold skip_high.
  set (fuel := (Z.to_nat (2 ^ log) + 1)%nat).
  assert (Z.to_nat (2 ^ log - j) < fuel)%nat as Hf by lia. clearbody fuel.
  revert j Hj Hf. induction fuel as [|f IH]; intros j Hj Hf; [lia|].
  cbn [loopM]. destruct (Z.leb_spec ht (pos j)).
  - cbn [mbind res_bind]. rewrite (pos_next1 j) by done.
    assert (j < 2 ^ log).
    { destruct (Z.eq_dec j (2 ^ log)) as [->|]; [|lia].
      rewrite Z.mul_comm, Z.mod_mul in * by lia. lia. }
    eapply returns_mono; [apply IH; lia|].
    intros p' (j' & ? & -> & Hr & ?). exists j'. split_and!; [lia..| |done].
    rewrite Hr, (rest_step ht j) by lia. destruct (Z.ltb_spec (pos j) ht); [lia|done].
  - cbn. exists j. split_and!; done || lia.
Qed.

(** Between two placements: the walk from [p] on is what is left of it. *)
Definition at_turn (ht : Z) (W : list Z) (k p : Z) : Prop :=
  exists j, 0 <= j <= 2 ^ log /\ p = pos j /\ rest ht j = zdrop k W /\
    (0 < ht -> p < ht) /\ (ht = 0 -> p = 0).

Lemma place_one_ok ht X B0 k s dt p n :
  let W := walk log ht in
  0 <= ht <= zlen dt -> ht <= 2 ^ log -> 0 <= k < zlen W -> zget X k = Some s ->
  placed W X B0 k (bases dt) -> at_turn ht W k p ->
  returns (fun '(dt', p') => zlen dt' = zlen dt /\ placed W X B0 (k + 1) (bases dt') /\
             at_turn ht W (k + 1) p')
    (place_one (2 ^ log) step mask ht s (dt, p) n).
Proof.
  intros W Hht Hht2 Hk HX Hpl (j & Hj & -> & Hr & Hlt & _).
  assert (0 < ht) as Hpos by (pose proof (zlen_walk log ht Hlog ltac:(lia)) as HW; fold W in HW; lia).
  specialize (Hlt Hpos). pose proof (pos_range j). unfold place_one.
  destruct (set_base_ok dt (pos j) s ltac:(lia)) as (dt1 & -> & Hl1 & Hb1).
  cbn [mbind res_bind]. rewrite (pos_next1 j) by done.
  assert (j < 2 ^ log).
  { destruct (Z.eq_dec j (2 ^ log)) as [->|]; [|lia]. rewrite rest_end in Hr.
    apply (f_equal zlen) in Hr. rewrite zlen_zdrop in Hr by lia.
    change (zlen (@nil Z)) with 0 in Hr. lia. }
  rewrite rest_step in Hr by lia. destruct (Z.ltb_spec (pos j) ht); [|lia].
  cbn [app] in Hr.
  assert (zget W k = Some (pos j) /\ rest ht (j + 1) = zdrop (k + 1) W) as [HWk Hr1].
  { split.
    - replace k with (k + 0) by lia. rewrite <- zget_zdrop by lia. by rewrite <- Hr.
    - apply (f_equal (drop 1)) in Hr.
      change (drop 1 (_ :: ?l)) with l in Hr. rewrite Hr. unfold zdrop.
      rewrite drop_drop. f_equal. lia. }
  eapply returns_bind; [apply (skip_high_ok ht (j + 1)); lia || done|].
  intros p' (j' & Hj' & -> & Hr' & Hp'). cbn. split_and!; [done| |].
  - rewrite Hb1. apply placed_step; try done.
    + unfold W, walk. by apply NoDup_filter, orbit_NoDup.
    + unfold bases. rewrite zlen_fmap. lia.
  - exists j'. split_and!; done || lia || congruence.
Qed.

Lemma place_symbols_flat ht st s counts :
  foldM (place_symbol (2 ^ log) step mask ht) st (enum_from s counts) =
  foldM (fun st x => place_one (2 ^ log) step mask ht x st 0) st (expand_from s counts).
Proof.
  revert st s. induction counts as [|n l IH]; intros st s; [done|].
  rewrite enum_from_cons, expand_from_cons, foldM_app. cbn [foldM].
  assert (place_symbol (2 ^ log) step mask ht st (s, n) =
    foldM (fun st x => place_one (2 ^ log) step mask ht x st 0) st (zrepeat s n)) as ->.
  { unfold place_symbol, zrepeat. replace (Z.to_nat n) with (length (seqZ 0 (Z.max n 0)))
      by (rewrite length_seqZ; lia).
    generalize (seqZ 0 (Z.max n 0)). intros l'. revert st.
    induction l' as [|y l' IHl]; intros st; [done|]. cbn [foldM length replicate].
    assert (place_one (2 ^ log) step mask ht s st y = place_one (2 ^ log) step mask ht s st 0)
      as -> by (by destruct st).
    destruct (place_one _ _ _ _ _ _ _); cbn; done || apply IHl. }
  destruct (foldM _ st (zrepeat s n)); cbn; done || apply IH.
Qed.

(** The walk ends where it began. *)
Lemma at_turn_end ht W p : 0 <= ht <= 2 ^ log -> at_turn ht W (zlen W) p -> p = 0.
Proof.
  intros Hht (j & Hj & -> & Hr & Hlt & H0). destruct (Z.eq_dec ht 0) as [|Hne]; [by apply H0|].
  specialize (Hlt ltac:(lia)). unfold zdrop in Hr. rewrite drop_ge in Hr by (unfold zlen; lia).
  destruct (Z.eq_dec j (2 ^ log)) as [->|]; [by rewrite Z.mul_comm, Z.mod_mul by lia|].
  rewrite rest_step in Hr by lia. destruct (Z.ltb_spec (pos j) ht); [done|lia].
Qed.

Lemma place_symbols_ok ht counts dt :
  0 <= ht <= 2 ^ log -> 2 ^ log <= zlen dt -> zlen (expand counts) = ht ->
  returns (fun '(dt', p) => zlen dt' = zlen dt /\
             placed (walk log ht) (expand counts) (bases dt) ht (bases dt') /\ p = 0)
    (foldM (place_symbol (2 ^ log) step mask ht) (dt, 0) (enumerate counts)).
Proof.
  intros Hht Hdt HX. pose proof size_bounds.
  rewrite enumerate_enum, place_symbols_flat. fold (expand counts).
  pose proof (zlen_walk log ht Hlog Hht) as HW.
  eapply returns_mono.
  - apply (returns_foldM (fun k '(dt', p) => zlen dt' = zlen dt /\
      placed (walk log ht) (expand counts) (bases dt) (Z.of_nat k) (bases dt') /\
      at_turn ht (walk log ht) (Z.of_nat k) p)).
    + split_and!; [done|apply placed_0|].
      destruct (Z.eq_dec ht 0) as [->|].
      * exists (2 ^ log). split_and!; [lia|lia| | |lia|done].
        -- by rewrite Z.mul_comm, Z.mod_mul by lia.
        -- rewrite rest_end. destruct (walk log 0); [done|].
           rewrite zlen_cons in HW. pose proof (zlen_nonneg l). lia.
      * exists 0. split_and!; [lia|lia| |done|lia|done]. change (0 * step) with 0.
        by rewrite Z.mod_0_l by lia.
    + intros k s [dt' p] Hk (Hl & Hpl & Hat).
      rewrite <- zget_nat in Hk. pose proof (zget_lt _ _ _ Hk).
      eapply returns_mono.
      * apply (place_one_ok ht (expand counts) (bases dt) (Z.of_nat k)); done || lia.
      * intros [dt2 p2] (? & ? & ?). rewrite Nat2Z.inj_succ. unfold Z.succ.
        split_and!; [congruence|done|done].
  - intros [dt' p] (Hl & Hpl & Hend). unfold zlen in HX. rewrite HX in Hpl, Hend.
    split_and!; [done|done|]. apply (at_turn_end ht (walk log ht)); [done|]. by rewrite HW.
Qed.
End strategies.

(** ** The transitions *)

Lemma fse_cell_state_ok sn s log n :
  5 <= log <= 9 -> zget sn s = Some n -> 1 <= n < 2 * 2 ^ log ->
  fse_cell_state sn s log =
    Ok (zset sn s (n + 1), (log - Z.log2 n, n * 2 ^ (log - Z.log2 n) - 2 ^ log)).
Proof.
  intros Hlog Hn Hr. unfold fse_cell_state. pose proof (size_bounds log Hlog).
  rewrite (idx_ok _ _ _ Hn). cbn [mbind res_bind].
  rewrite store_ok by by eapply zget_lt. cbn [mbind res_bind].
  rewrite leading_zeros_log2 by lia.
  pose proof (Z.log2_nonneg n). pose proof (Z.log2_spec n ltac:(lia)) as [Hl1 Hl2].
  assert (Z.log2 n <= log).
  { assert (Z.log2 n < log + 1); [|lia]. apply log2_lt_pow2; [lia..|].
    rewrite pow2_add by lia. lia. }
  rewrite Z.pow_succ_r in Hl2 by lia.
  assert (2 ^ log = 2 ^ (log - Z.log2 n) * 2 ^ Z.log2 n) as Hsp.
  { rewrite <- pow2_add by lia. f_equal. lia. }
  pose proof (pow2_pos (log - Z.log2 n) ltac:(lia)) as Hpp.
  assert (2 ^ log <= n * 2 ^ (log - Z.log2 n) < 2 * 2 ^ log) as Hsh by nia.
  destruct (Z.leb_spec (32 - 1 - Z.log2 n) 31); [|lia]. cbn [rassert mbind res_bind].
  replace (32 - 1 - (32 - 1 - Z.log2 n)) with (Z.log2 n) by lia.
  destruct (Z.leb_spec (Z.log2 n) log); [|lia]. cbn [rassert mbind res_bind].
  rewrite wshl_div by lia. rewrite (Z.mod_small (n * _)) by lia. rewrite Z.shiftl_1_l.
  destruct (Z.leb_spec (2 ^ log) (n * 2 ^ (log - Z.log2 n))); [|lia].
  cbn [rassert mbind res_bind]. rewrite !wrap_small by lia. done.
Qed.

Lemma occurrences_ztake_lt s l i : zget l i = Some s ->
  occurrences s (ztake (i + 1) l) = occurrences s (ztake i l) + 1 /\
  occurrences s (ztake i l) + 1 <= occurrences s l.
Proof.
  intros Hi. pose proof (zget_lt _ _ _ Hi). pose proof Hi as [_ Hl]%zget_Some.
  assert (ztake (i + 1) l = ztake i l ++ [s]) as ->.
  { unfold ztake. replace (Z.to_nat (i + 1)) with (S (Z.to_nat i)) by lia.
    by apply take_S_r. }
  rewrite occurrences_app, occurrences_cons, Z.eqb_refl. change (occurrences s []) with 0.
  split; [lia|]. rewrite <- (take_drop_middle _ _ _ Hl) at 2.
  rewrite occurrences_app, occurrences_cons, Z.eqb_refl.
  pose proof (occurrences_nonneg s (drop (S (Z.to_nat i)) l)). unfold ztake. lia.
Qed.

Lemma occurrences_ztake_ne s x l i : zget l i = Some x -> x <> s ->
  occurrences s (ztake (i + 1) l) = occurrences s (ztake i l).
Proof.
  intros Hi Hne. pose proof (zget_lt _ _ _ Hi). pose proof Hi as [_ Hl]%zget_Some.
  assert (ztake (i + 1) l = ztake i l ++ [x]) as ->.
  { unfold ztake. replace (Z.to_nat (i + 1)) with (S (Z.to_nat i)) by lia.
    by apply take_S_r. }
  rewrite occurrences_app, occurrences_cons. change (occurrences s []) with 0.
  case_bool; lia.
Qed.

(** The [m]-th occurrence. *)
Lemma occurrence_exists s l m : 0 <= m < occurrences s l ->
  exists i, zget l i = Some s /\ occurrences s (ztake i l) = m.
Proof.
  revert m. induction l as [|x l IH] using rev_ind; intros m Hm.
  - change (occurrences s []) with 0 in Hm. lia.
  - rewrite occurrences_app, occurrences_cons in Hm. change (occurrences s []) with 0 in Hm.
    destruct (Z_lt_dec m (occurrences s l)) as [Hlt|].
    + destruct (IH m ltac:(lia)) as (i & Hi & Ho). pose proof (zget_lt _ _ _ Hi).
      exists i. split; [by rewrite zget_app_l by lia|]. by rewrite ztake_app_le by lia.
    + destruct (Z.eqb_spec x s) as [->|]; [|lia]. exists (zlen l).
      split; [by rewrite zget_app_r, Z.sub_diag by lia|].
      rewrite ztake_app_le, ztake_all by lia. lia.
Qed.

Lemma occurrence_unique s l i j :
  zget l i = Some s -> zget l j = Some s ->
  occurrences s (ztake i l) = occurrences s (ztake j l) -> i = j.
Proof.
  assert (forall i j, zget l i = Some s -> zget l j = Some s -> i < j ->
            occurrences s (ztake i l) < occurrences s (ztake j l)) as Hlt.
  { intros a b Ha Hb Hab. destruct (occurrences_ztake_lt s l a Ha) as [H1 _].
    assert (occurrences s (ztake (a + 1) l) <= occurrences s (ztake b l)); [|lia].
    rewrite <- (ztake_ztake l (a + 1) b) by lia.
    rewrite <- (take_drop (Z.to_nat (a + 1)) (ztake b l)) at 2.
    rewrite occurrences_app.
    pose proof (occurrences_nonneg s (drop (Z.to_nat (a + 1)) (ztake b l))).
    unfold ztake at 1. lia. }
  intros Hi Hj Ho. destruct (Z.lt_trichotomy i j) as [H|[H|H]]; [|done|].
  - pose proof (Hlt i j Hi Hj H). lia.
  - pose proof (Hlt j i Hj Hi H). lia.
Qed.

(** A spread gives each symbol as many cells as its count. *)
Lemma spread_occurrences log ms counts syms s :
  tiles ms log counts -> spread_of log counts syms ->
  occurrences s syms = Z.abs (default 0 (zget counts s)).
Proof.
  intros [Hsum Hlow Hlen Hlog] [Hsl Hsw Hsk].
  unfold ACC_LOG_OFFSET, FSE_MAX_TABLE_LOG, LL_MAX_LOG in Hlog.
  pose proof (size_bounds log Hlog).
  pose proof (expand_lows_length 0 counts Hlow) as HX. fold (expand counts) (lows counts) in HX.
  pose proof (zlen_nonneg (expand counts)). pose proof (zlen_nonneg (lows counts)).
  set (ht := 2 ^ log - zlen (lows counts)) in *.
  assert (zlen (walk log ht) = ht) as HW by (apply zlen_walk; lia).
  rewrite (occurrences_perm s syms (expand counts ++ lows counts)).
  { unfold expand, lows. rewrite occurrences_laid by done. by rewrite Z.sub_0_r. }
  apply (placed_permutation syms (expand counts ++ lows counts)
    (walk log ht ++ ((fun k => 2 ^ log - 1 - k) <$> seqZ 0 (zlen (lows counts))))).
  - apply NoDup_app. split_and!.
    + by apply NoDup_filter, orbit_NoDup.
    + intros p Hp Hq. rewrite walk_permutation in Hp by (subst ht; lia).
      apply elem_of_seqZ in Hp. apply list_elem_of_fmap in Hq as (k & -> & Hk%elem_of_seqZ). lia.
    + apply NoDup_fmap_2; [|apply NoDup_seqZ]. intros a b. lia.
  - apply Forall_app. split; apply Forall_forall; intros p Hp.
    + rewrite walk_permutation in Hp by (subst ht; lia). apply elem_of_seqZ in Hp. lia.
    + apply list_elem_of_fmap in Hp as (k & -> & Hk%elem_of_seqZ). lia.
  - rewrite zlen_app, zlen_fmap, zlen_seqZ by lia. lia.
  - rewrite zlen_app. lia.
  - intros k i x Hi Hx. destruct (Z_lt_dec k ht).
    + rewrite zget_app_l in Hi by lia. rewrite zget_app_l in Hx by lia. by eapply Hsw.
    + rewrite zget_app_r in Hi by lia. rewrite zget_app_r in Hx by lia.
      pose proof (zget_lt _ _ _ Hx).
      rewrite zget_fmap, seqZ_zget in Hi by lia. injection Hi as <-.
      rewrite <- (Hsk _ _ Hx). f_equal. lia.
Qed.

(** ** The last pass *)

Section finish.
Context (cs : codes) (log ms : Z) (counts syms : list Z).
Context (Ht : tiles ms log counts) (Hms : ms <= 255)
  (Hcov : codes_cover cs (zlen counts)) (Hsp : spread_of log counts syms).

Local Lemma log_range : 5 <= log <= 9.
Proof. destruct Ht as [_ _ _ H]. exact H. Qed.

Lemma count_bound s c : zget counts s = Some c -> Z.abs c <= 2 ^ log.
Proof.
  intros Hc. destruct Ht as [Hsum _ _ _]. rewrite <- Hsum.
  pose proof Hc as [_ Hl]%zget_Some. rewrite <- (take_drop_middle _ _ _ Hl).
  change (c :: ?l) with ([c] ++ l). rewrite !cell_sum_app.
  pose proof (cell_sum_nonneg (take (Z.to_nat s) counts)).
  pose proof (cell_sum_nonneg (drop (S (Z.to_nat s)) counts)).
  assert (cell_sum [c] = Z.abs c) by (unfold cell_sum; cbn -[Z.abs Z.add]; lia). lia.
Qed.

(** A cell's symbol is one of the counts', and its counter in range. *)
Lemma counter_range i s : zget syms i = Some s ->
  exists c, zget counts s = Some c /\ 0 <= s <= 255 /\ 1 <= Z.abs c /\
    Z.abs c <= counter counts syms i s < 2 * Z.abs c.
Proof.
  intros Hi. pose proof (spread_occurrences _ _ _ _ s Ht Hsp) as Ho.
  destruct (occurrences_ztake_lt s syms i Hi) as [_ H1].
  pose proof (occurrences_nonneg s (ztake i syms)).
  unfold counter. destruct (zget counts s) as [c|] eqn:Hc; cbn in *; [|lia].
  exists c. pose proof (zget_lt _ _ _ Hc). destruct Ht as [_ _ Hl _].
  split_and!; try done; lia.
Qed.

Lemma counter_size i s : zget syms i = Some s -> 1 <= counter counts syms i s < 2 * 2 ^ log.
Proof.
  intros Hi. destruct (counter_range i s Hi) as (c & Hc & ? & ? & ?).
  pose proof (count_bound s c Hc). lia.
Qed.

(** The pass after [k] cells. *)
Definition finishing (k : Z) (st : list Z * list FSEEntry) : Prop :=
  zlen st.1 = 256 /\ zlen st.2 = k /\
  (forall s c, zget counts s = Some c ->
     zget st.1 s = Some (Z.abs c + occurrences s (ztake k syms))) /\
  (forall i s, i < k -> zget syms i = Some s ->
     exists e, zget st.2 i = Some e /\ cell_ok cs log (counter counts syms i s) s e).

Lemma finish_cell_ok k s cell st :
  finishing k st -> zget syms k = Some s -> base_value cell = s ->
  returns (finishing (k + 1)) (finish_cell cs log st cell).
Proof.
  destruct st as [next dn]. intros (Hn & Hd & Hnx & Hdn) Hs Hcell. cbn in *.
  pose proof log_range as Hlog.
  destruct (counter_range k s Hs) as (c & Hc & Hsr & ? & ?).
  pose proof (counter_size k s Hs) as Hsz.
  unfold finish_cell. rewrite Hcell, (wrap_small 8 s) by (cbn; lia).
  assert (zget next s = Some (counter counts syms k s)) as Hns.
  { rewrite (Hnx s c Hc). unfold counter. by rewrite Hc. }
  rewrite (fse_cell_state_ok _ _ _ _ Hlog Hns Hsz). cbn [mbind res_bind].
  pose proof (zget_lt _ _ _ Hs).
  assert (forall e, cell_ok cs log (counter counts syms k s) s e ->
    finishing (k + 1) (zset next s (counter counts syms k s + 1), dn ++ [e])) as Hstep.
  { intros e He. split_and!; cbn.
    - by rewrite zlen_zset.
    - rewrite zlen_app. change (zlen [e]) with 1. lia.
    - intros x cx Hx. rewrite zget_zset by lia. destruct (Z.eqb_spec s x) as [<-|].
      + destruct (occurrences_ztake_lt s syms k Hs) as [-> _].
        unfold counter. rewrite Hx. cbn. f_equal. lia.
      + rewrite (occurrences_ztake_ne x s) by done. by apply Hnx.
    - intros i x Hi Hx. destruct (Z.eq_dec i k) as [->|].
      + assert (x = s) as -> by congruence. exists e. split; [|done].
        rewrite zget_app_r by lia. by rewrite Hd, Z.sub_diag.
      + rewrite zget_app_l by (apply zget_lt in Hx; lia). apply Hdn; [lia|done]. }
  destruct cs as [[base ebits]|] eqn:Hcs.
  - destruct Hcov as [Hcb Hce]. pose proof (zget_lt _ _ _ Hc).
    destruct (zget_is_Some ebits s ltac:(lia)) as [x Hx].
    destruct (zget_is_Some base s ltac:(lia)) as [b Hb].
    rewrite (idx_ok _ _ _ Hx). cbn [mbind res_bind].
    rewrite (idx_ok _ _ _ Hb). apply Hstep. done.
  - apply Hstep. done.
Qed.

Lemma finish_cells_ok next cells :
  bases cells = syms -> zlen next = 256 ->
  (forall s c, zget counts s = Some c -> zget next s = Some (Z.abs c)) ->
  returns (finishing (2 ^ log)) (foldM (finish_cell cs log) (next, []) cells).
Proof.
  intros Hb Hn Hnx. destruct Hsp as [Hsl _ _].
  eapply returns_mono.
  - apply (returns_foldM (fun k => finishing (Z.of_nat k))).
    + split_and!; try done.
      * intros s c Hc. cbn. rewrite (Hnx s c Hc).
        change (occurrences s (ztake (Z.of_nat 0) syms)) with 0. f_equal. lia.
      * intros i s Hi [? _]%zget_Some. lia.
    + intros k cell st Hk Hf. rewrite Nat2Z.inj_succ. unfold Z.succ.
      rewrite <- zget_nat in Hk.
      apply (finish_cell_ok _ (base_value cell)); [done| |done].
      rewrite <- Hb. unfold bases. by rewrite zget_fmap, Hk.
  - intros st. rewrite <- Hb in Hsl. unfold bases in Hsl. rewrite zlen_fmap in Hsl.
    unfold zlen in Hsl. by rewrite Hsl.
Qed.
End finish.

(** ** The builder *)

Lemma zget_bases dt i : zget (bases dt) i = base_value <$> zget dt i.
Proof. apply zget_fmap. Qed.

(** Symbols placed along the walk, and the low ones at the top. *)
Lemma spread_of_lists log counts B0 B :
  tiles 255 log counts -> 2 ^ log <= zlen B0 ->
  (forall k s, zget (lows counts) k = Some s -> zget B0 (2 ^ log - 1 - k) = Some s) ->
  placed (walk log (2 ^ log - zlen (lows counts))) (expand counts) B0 (2 ^ log - zlen (lows counts)) B ->
  spread_of log counts (ztake (2 ^ log) B).
Proof.
  intros [Hsum Hlow Hlen Hlog] Hl0 Hat [Hpl Hdo Hke].
  unfold ACC_LOG_OFFSET, FSE_MAX_TABLE_LOG, LL_MAX_LOG in Hlog.
  pose proof (size_bounds log Hlog).
  pose proof (expand_lows_length 0 counts Hlow) as HX. fold (expand counts) (lows counts) in HX.
  pose proof (zlen_nonneg (expand counts)). pose proof (zlen_nonneg (lows counts)).
  set (ht := 2 ^ log - zlen (lows counts)) in *.
  split.
  - apply zlen_ztake. lia.
  - intros k p s Hp Hs. assert (0 <= p < ht).
    { apply zget_elem in Hp. rewrite walk_permutation in Hp by lia.
      apply elem_of_seqZ in Hp. lia. }
    rewrite zget_ztake by lia. apply (Hdo k); [|done..].
    apply zget_lt in Hs. lia.
  - intros k s Hk. pose proof (zget_lt _ _ _ Hk). rewrite zget_ztake by lia.
    rewrite Hke; [by apply Hat|]. rewrite walk_permutation by lia.
    rewrite elem_of_seqZ. lia.
Qed.

(** Either strategy spreads the symbols as the reference does. *)
Lemma spread_of_placed log counts dt dt' next next' sp :
  tiles 255 log counts -> 2 ^ log <= zlen dt ->
  low_placed 0 (2 ^ log) counts dt next (2 ^ log - zlen (lows counts), dt', next') ->
  zlen sp = zlen dt' ->
  placed (walk log (2 ^ log - zlen (lows counts))) (expand counts) (bases dt')
    (2 ^ log - zlen (lows counts)) (bases sp) ->
  spread_of log counts (bases (ztake (2 ^ log) sp)).
Proof.
  intros Ht Hdt [_ Hl1 Hat _ _ _ _] Hl Hpl; cbn in *.
  assert (bases (ztake (2 ^ log) sp) = ztake (2 ^ log) (bases sp)) as ->.
  { unfold bases, ztake. apply fmap_take. }
  apply (spread_of_lists log counts (bases dt')); try done.
  unfold bases. rewrite zlen_fmap. lia.
Qed.

Lemma lows_nil s counts : Forall (fun c => -1 <= c) counts ->
  zlen (lows_from s counts) = 0 -> Forall (fun c => 0 <= c) counts.
Proof.
  intros H. revert s. induction H as [|n l Hn Hl IH]; intros s; [done|].
  rewrite lows_from_cons, zlen_app. pose proof (zlen_nonneg (lows_from (s + 1) l)).
  destruct (Z.eqb_spec n (-1)); [change (zlen [s]) with 1; lia|].
  change (zlen (@nil Z)) with 0. intros Hz. constructor; [lia|]. apply (IH (s + 1)). lia.
Qed.

Lemma tiles_small log counts : tiles 255 log counts ->
  Forall (fun c => -1 <= c < 2 ^ 16) counts.
Proof.
  intros Ht. pose proof Ht as [_ Hlow _ Hlog].
  unfold ACC_LOG_OFFSET, FSE_MAX_TABLE_LOG, LL_MAX_LOG in Hlog.
  pose proof (size_bounds log Hlog).
  apply Forall_forall. intros c Hc. apply list_elem_of_lookup_1 in Hc as [i Hi].
  rewrite <- zget_nat in Hi. pose proof (count_bound log 255 counts Ht _ _ Hi).
  pose proof (Forall_zget _ _ _ _ Hlow Hi). cbn in *. lia.
Qed.

(** The branch between the two strategies. *)
Lemma strategies_ok log counts dt sp :
  tiles 255 log counts -> zlen dt = 512 -> zlen sp = 520 ->
  let ht := 2 ^ log - zlen (lows counts) in
  returns (fun '(dt2, _) => zlen dt2 = zlen dt /\
             placed (walk log ht) (expand counts) (bases dt) ht (bases dt2))
    (if ht =? 2 ^ log then
       '(sp, _, _) ← foldM lay_symbol (sp, 0, 0) counts;
       '(dt, _) ← foldM (scatter2 sp (spread_step log) (2 ^ log - 1)) (dt, 0) (evens (2 ^ log));
       Ok (dt, sp)
     else
       '(dt, _) ← foldM (place_symbol (2 ^ log) (spread_step log) (2 ^ log - 1) ht) (dt, 0)
                    (enumerate counts);
       Ok (dt, sp)).
Proof.
  intros Ht Hdt Hsp ht. pose proof Ht as [Hsum Hlow Hlen Hlog].
  unfold ACC_LOG_OFFSET, FSE_MAX_TABLE_LOG, LL_MAX_LOG in Hlog.
  pose proof (size_bounds log Hlog).
  pose proof (expand_lows_length 0 counts Hlow) as HX. fold (expand counts) (lows counts) in HX.
  pose proof (zlen_nonneg (expand counts)). pose proof (zlen_nonneg (lows counts)).
  destruct (Z.eqb_spec ht (2 ^ log)) as [Heq|].
  - rewrite Heq, walk_full by done. subst ht.
    assert (Forall (fun c => 0 <= c < 2 ^ 16) counts) as Hc0.
    { pose proof (lows_nil 0 counts Hlow) as Hnn. fold (lows counts) in Hnn.
      specialize (Hnn ltac:(lia)). pose proof (tiles_small log counts Ht) as Hsm.
      rewrite Forall_forall in *. intros c Hc. specialize (Hnn c Hc). specialize (Hsm c Hc). lia. }
    eapply returns_bind.
    { pose proof (lay_symbols_ok counts 0 sp []) as Hlay.
      change (zlen (@nil Z)) with 0 in Hlay.
      change (wrap 64 (0 * 0x0101010101010101)) with 0 in Hlay. fold (expand counts) in Hlay.
      apply Hlay; done || lia. }
    intros [[sp1 p1] sv1] (Hs1 & Hs2 & Hs3). cbn in Hs1, Hs2, Hs3.
    fold (expand counts) in *. change (zlen (@nil Z)) with 0 in *.
    eapply returns_bind.
    { apply (scatter_ok log Hlog sp1 dt (expand counts)); try lia.
      rewrite <- Hs3. f_equal. lia. }
    intros [dt2 p2] [? ?]. done.
  - eapply returns_bind; [apply (place_symbols_ok log Hlog ht); lia|].
    intros [dt2 p2] (? & ? & _). done.
Qed.

Lemma build_decoding_table_built t cs :
  tiles 255 (accuracy_log t) (symbol_probabilities t) ->
  codes_cover cs (zlen (symbol_probabilities t)) ->
  returns (fun t' => max_symbol t' = max_symbol t /\
             exists syms, built cs (accuracy_log t) (symbol_probabilities t) t' syms)
    (build_decoding_table t cs).
Proof.
  intros Ht Hcov. pose proof Ht as [Hsum Hlow Hlen Hlog]. unfold build_decoding_table.
  set (log := accuracy_log t) in *. set (counts := symbol_probabilities t) in *.
  unfold ACC_LOG_OFFSET in Hlog. assert (5 <= log <= 9) as Hlog' by exact Hlog.
  pose proof (size_bounds log Hlog').
  destruct (Z.leb_spec log FSE_MAX_TABLE_LOG); [|lia]. cbn [rassert mbind res_bind].
  rewrite Z.shiftl_1_l, !Z.shiftr_div_pow2 by lia.
  change (2 ^ 1) with 2. change (2 ^ 3) with 8. fold (spread_step log).
  set (dt := vresize (cells t) FSE_MAX_TABLE_SIZE entry_default).
  assert (zlen dt = 512) as Hdt by (apply zlen_vresize; done).
  set (sp := vresize (spread t) _ _).
  assert (zlen sp = 520) as Hsp by (apply zlen_vresize; done).
  set (next := vresize (symbol_next t) 256 0).
  assert (zlen next = 256) as Hnext by (apply zlen_vresize; done).
  clearbody dt sp next.
  assert (take 256 (enumerate counts) = enum_from 0 counts) as ->.
  { rewrite enumerate_enum. apply firstn_all2. unfold enum_from. rewrite length_imap.
    unfold zlen in Hlen. lia. }
  pose proof (expand_lows_length 0 counts Hlow) as HX. fold (expand counts) (lows counts) in HX.
  pose proof (zlen_nonneg (expand counts)). pose proof (zlen_nonneg (lows counts)).
  eapply returns_bind.
  { apply place_low_spec; [by eapply tiles_small|lia..|]. fold (lows counts). lia. }
  intros [[ht dt1] next1] Hlp. pose proof (low_ht _ _ _ _ _ _ Hlp) as Hht. cbn in Hht.
  fold (lows counts) in Hht. subst ht.
  pose proof (low_len _ _ _ _ _ _ Hlp) as Hl1. cbn in Hl1.
  eapply returns_bind; [by apply (strategies_ok log counts dt1 sp Ht); lia|].
  intros [dt2 sp2] [Hl2 Hpl2].
  rewrite slice_prefix by lia. cbn [mbind res_bind].
  pose proof (spread_of_placed log counts dt dt1 next next1 dt2 Ht ltac:(lia) Hlp Hl2 Hpl2) as Hso.
  eapply returns_bind.
  { apply (finish_cells_ok cs log 255 counts _ Ht ltac:(lia) Hcov Hso); [done| |].
    - pose proof (low_next_len _ _ _ _ _ _ Hlp). cbn in *. lia.
    - intros s c Hc. apply (low_next _ _ _ _ _ _ Hlp). done. }
  intros [next3 dn] (Hn3 & Hdn & _ & Hcell). cbn in Hn3, Hdn, Hcell. cbn. split; [done|].
  exists (bases (ztake (2 ^ log) dt2)). split; cbn; try done.
  - rewrite zlen_app. pose proof (zlen_nonneg (zdrop (2 ^ log) dt2)). lia.
  - intros i s Hi. pose proof (zget_lt _ _ _ Hi) as Hil.
    rewrite (spread_len _ _ _ Hso) in Hil.
    destruct (Hcell i s ltac:(lia) Hi) as (e & He & Hok).
    exists e. split; [|done]. by rewrite zget_app_l by lia.
Qed.

(** ** What follows of a built table *)

(** A decoder in a state of the table that reads the state's bits is again in
    a state of the table. *)
Definition states_ok (log : Z) (t : FSETable) : Prop :=
  forall i, 0 <= i < 2 ^ log -> exists e, zget (cells t) i = Some e /\
    0 <= num_bits e <= log /\ 0 <= next_state e /\ next_state e + 2 ^ num_bits e <= 2 ^ log.

(** The transition of counter [n]. *)
Lemma transition_range log n : 5 <= log -> 1 <= n < 2 * 2 ^ log ->
  0 <= log - Z.log2 n <= log /\
  0 <= n * 2 ^ (log - Z.log2 n) - 2 ^ log /\
  n * 2 ^ (log - Z.log2 n) - 2 ^ log + 2 ^ (log - Z.log2 n) <= 2 ^ log.
Proof.
  intros Hlog Hn. pose proof (Z.log2_nonneg n).
  pose proof (Z.log2_spec n ltac:(lia)) as [Hl1 Hl2]. rewrite Z.pow_succ_r in Hl2 by lia.
  assert (Z.log2 n <= log).
  { assert (Z.log2 n < log + 1); [|lia]. apply log2_lt_pow2; [lia..|].
    rewrite pow2_add by lia. lia. }
  assert (2 ^ log = 2 ^ (log - Z.log2 n) * 2 ^ Z.log2 n) as Hsp.
  { rewrite <- pow2_add by lia. f_equal. lia. }
  pose proof (pow2_pos (log - Z.log2 n) ltac:(lia)). split; [lia|]. nia.
Qed.

Lemma built_states cs ms log counts t syms :
  tiles ms log counts -> ms <= 255 -> built cs log counts t syms -> states_ok log t.
Proof.
  intros Ht Hms [_ _ _ _ Hsp Hcell] i Hi. rewrite <- (spread_len _ _ _ Hsp) in Hi.
  destruct (zget_is_Some _ _ Hi) as [s Hs].
  destruct (Hcell i s Hs) as (e & He & Hnb & Hns & _). exists e. split; [done|].
  pose proof (counter_size log ms counts syms Ht Hms Hsp i s Hs) as Hc.
  destruct Ht as [_ _ _ Hlog]. unfold ACC_LOG_OFFSET in Hlog.
  rewrite Hnb, Hns. apply transition_range; [lia|done].
Qed.

(** The counters from [c] to [2 c - 1]: each state of the table belongs to
    the transition of exactly one. *)
Lemma transition_cover log c x : 5 <= log -> 1 <= c <= 2 ^ log -> 0 <= x < 2 ^ log ->
  exists n, c <= n < 2 * c /\
    n * 2 ^ (log - Z.log2 n) - 2 ^ log <= x <
    n * 2 ^ (log - Z.log2 n) - 2 ^ log + 2 ^ (log - Z.log2 n).
Proof.
  intros Hlog Hc Hx. set (y := x + 2 ^ log).
  pose proof (Z.log2_nonneg c). pose proof (Z.log2_spec c ltac:(lia)) as [Hc1 Hc2].
  rewrite Z.pow_succ_r in Hc2 by lia.
  assert (Z.log2 c <= log).
  { assert (Z.log2 c < log + 1); [|lia]. apply log2_lt_pow2; [lia..|].
    rewrite pow2_add by lia. lia. }
  assert (forall l n, 0 <= l <= log -> n = y / 2 ^ (log - l) -> 2 ^ l <= n < 2 * 2 ^ l ->
            Z.log2 n = l /\ n * 2 ^ (log - Z.log2 n) - 2 ^ log <= x <
            n * 2 ^ (log - Z.log2 n) - 2 ^ log + 2 ^ (log - Z.log2 n)) as Hn.
  { intros l n Hl Hdef Hr.
    assert (Z.log2 n = l) as Hlg.
    { apply Z.log2_unique; [lia|]. rewrite Z.pow_succ_r by lia. lia. }
    split; [done|]. rewrite Hlg. pose proof (pow2_pos (log - l) ltac:(lia)).
    pose proof (Z.div_mod y (2 ^ (log - l)) ltac:(lia)).
    pose proof (Z.mod_pos_bound y (2 ^ (log - l)) ltac:(lia)). subst n y. lia. }
  assert (forall l, 0 <= l <= log -> 2 ^ l <= y / 2 ^ (log - l) < 2 * 2 ^ l) as Hdiv.
  { intros l Hl. assert (2 ^ log = 2 ^ (log - l) * 2 ^ l) as Hsp.
    { rewrite <- pow2_add by lia. f_equal. lia. }
    pose proof (pow2_pos (log - l) ltac:(lia)). pose proof (pow2_pos l ltac:(lia)). subst y.
    split; [apply Z.div_le_lower_bound; lia|apply Z.div_lt_upper_bound; nia]. }
  pose proof (Hdiv (Z.log2 c) ltac:(lia)) as Hd.
  destruct (Z_le_gt_dec c (y / 2 ^ (log - Z.log2 c))).
  - exists (y / 2 ^ (log - Z.log2 c)).
    destruct (Hn (Z.log2 c) _ ltac:(lia) eq_refl Hd). split; [lia|done].
  - assert (Z.log2 c < log).
    { destruct (Z.eq_dec (Z.log2 c) log) as [He|]; [|lia]. rewrite He in *.
      rewrite Z.sub_diag in *. rewrite Z.div_1_r in *. subst y. lia. }
    pose proof (Hdiv (Z.log2 c + 1) ltac:(lia)) as Hd1.
    exists (y / 2 ^ (log - (Z.log2 c + 1))).
    destruct (Hn (Z.log2 c + 1) _ ltac:(lia) eq_refl Hd1) as [_ Hr]. split; [|done].
    rewrite pow2_add in Hd1 by lia. change (2 ^ 1) with 2 in Hd1.
    assert (y / 2 ^ (log - (Z.log2 c + 1)) < 2 * c); [|lia].
    assert (2 ^ (log - Z.log2 c) = 2 * 2 ^ (log - (Z.log2 c + 1))) as H2.
    { rewrite <- Z.pow_succ_r by lia. f_equal. lia. }
    rewrite H2, (Z.mul_comm 2), <- Z.div_div in * by (try apply Z.pow_nonzero; lia).
    set (m := y / 2 ^ (log - (Z.log2 c + 1))) in *. clearbody m. divlia.
Qed.

Lemma transition_unique log c n n' x :
  1 <= c -> c <= n < 2 * c -> c <= n' < 2 * c -> 2 * c <= 2 * 2 ^ log -> 5 <= log ->
  n * 2 ^ (log - Z.log2 n) - 2 ^ log <= x <
    n * 2 ^ (log - Z.log2 n) - 2 ^ log + 2 ^ (log - Z.log2 n) ->
  n' * 2 ^ (log - Z.log2 n') - 2 ^ log <= x <
    n' * 2 ^ (log - Z.log2 n') - 2 ^ log + 2 ^ (log - Z.log2 n') -> n = n'.
Proof.
  assert (forall n n', 1 <= c -> c <= n < 2 * c -> c <= n' < 2 * c -> 2 * c <= 2 * 2 ^ log ->
    5 <= log -> Z.log2 n < Z.log2 n' ->
    n * 2 ^ (log - Z.log2 n) <= x + 2 ^ log ->
    x + 2 ^ log < (n' + 1) * 2 ^ (log - Z.log2 n') -> False) as Hlt.
  { intros a b Hc Ha Hb Hcl Hlog Hab H1 H2. pose proof (Z.log2_nonneg a).
    pose proof (transition_range log b Hlog ltac:(lia)) as [Hrb _].
    assert (2 ^ (log - Z.log2 a) =
            2 ^ (log - Z.log2 b) * 2 ^ (Z.log2 b - Z.log2 a)) as Hp.
    { rewrite <- pow2_add by lia. f_equal. lia. }
    pose proof (pow2_le 1 (Z.log2 b - Z.log2 a) ltac:(lia)) as Hp2. change (2 ^ 1) with 2 in Hp2.
    pose proof (pow2_pos (log - Z.log2 b) ltac:(lia)) as HP. rewrite Hp in H1.
    set (P := 2 ^ (log - Z.log2 b)) in *. set (K := 2 ^ (Z.log2 b - Z.log2 a)) in *.
    assert (a * K < b + 1); [|nia]. apply (Z.mul_lt_mono_pos_r P); lia. }
  intros Hc Hn Hn' Hcl Hlog H1 H2.
  destruct (Z.lt_trichotomy (Z.log2 n) (Z.log2 n')) as [H|[H|H]].
  - exfalso. apply (Hlt n n'); lia || nia.
  - rewrite <- H in H2. assert (5 <= log) by done.
    pose proof (transition_range log n Hlog ltac:(lia)) as [Hr _].
    pose proof (pow2_pos (log - Z.log2 n) ltac:(lia)). nia.
  - exfalso. apply (Hlt n' n); lia || nia.
Qed.

Lemma built_partition cs ms log counts t syms s c x :
  tiles ms log counts -> ms <= 255 -> built cs log counts t syms ->
  zget counts s = Some c -> c <> 0 -> 0 <= x < 2 ^ log ->
  exists! i, zget syms i = Some s /\ exists e, zget (cells t) i = Some e /\
    next_state e <= x < next_state e + 2 ^ num_bits e.
Proof.
  intros Ht Hms [_ _ _ _ Hsp Hcell] Hc Hc0 Hx.
  pose proof (spread_occurrences _ _ _ _ s Ht Hsp) as Ho. rewrite Hc in Ho. cbn in Ho.
  pose proof (count_bound log ms counts Ht s c Hc).
  pose proof Ht as [_ _ _ Hlog]. unfold ACC_LOG_OFFSET in Hlog.
  destruct (transition_cover log (Z.abs c) x) as (n & Hn & Hnx); [lia..|].
  destruct (occurrence_exists s syms (n - Z.abs c)) as (i & Hi & Hio); [lia|].
  assert (counter counts syms i s = n) as Hcn by (unfold counter; rewrite Hc; cbn; lia).
  exists i. split.
  - split; [done|]. destruct (Hcell i s Hi) as (e & He & Hnb & Hns & _).
    exists e. split; [done|]. rewrite Hnb, Hns, Hcn. done.
  - intros j [Hj (e & He & Hex)]. apply (occurrence_unique s syms i j Hi Hj).
    destruct (Hcell j s Hj) as (e' & He' & Hnb & Hns & _).
    assert (e' = e) as -> by congruence. rewrite Hnb, Hns in Hex.
    destruct (counter_range log ms counts syms Ht Hms Hsp j s Hj) as (c' & Hc' & _ & _ & Hr).
    assert (c' = c) as -> by congruence.
    pose proof (transition_unique log (Z.abs c) n (counter counts syms j s) x) as Hu.
    assert (n = counter counts syms j s) as Heq by (apply Hu; done || lia).
    unfold counter in Heq. rewrite Hc in Heq. cbn in Heq. lia.
Qed.

(** What [build_decoder] promises: it never faults, and the table of a
    description it accepts is the one of the description's counts. *)
Definition decoder_built (cs : codes) (ms max_log len : Z) (r : FSETable * Z) : Prop :=
  exists log counts syms, 0 <= r.2 <= len /\ log <= max_log /\
    tiles ms log counts /\ built cs log counts r.1 syms.

Lemma tiles_mono ms ms' log counts : tiles ms log counts -> ms <= ms' -> tiles ms' log counts.
Proof. intros [? ? ? ?] ?. split; done || lia. Qed.

Lemma codes_cover_mono cs n m : codes_cover cs n -> m <= n -> codes_cover cs m.
Proof. destruct cs as [[]|]; cbn; [lia|done]. Qed.

Lemma build_decoder_safe t source max_log cs :
  bytes source -> 0 <= max_symbol t <= 255 -> max_log <= FSE_MAX_TABLE_LOG ->
  codes_cover cs (max_symbol t + 1) ->
  safe (fun r => decoder_built cs (max_symbol t) max_log (zlen source) r /\ max_symbol r.1 = max_symbol t)
    (build_decoder t source max_log cs).
Proof.
  intros Hs Hms Hml Hcov. unfold build_decoder.
  eapply safe_bind; [apply read_probabilities_safe; cbn; done || lia|].
  intros [t1 n] (Hn & Hl & Ht & Hmt & _). cbn in Ht.
  apply safe_fail_if. intros _.
  eapply safe_bind.
  - apply returns_safe, build_decoding_table_built; [eapply tiles_mono; [done|cbn; lia]|].
    eapply codes_cover_mono; [done|]. by destruct Ht.
  - intros t2 (Hm2 & syms & Hb). cbn. split; [|rewrite Hm2, Hmt; done].
    exists (accuracy_log t1), (symbol_probabilities t1), syms. cbn. split_and!; try done; lia.
Qed.

Lemma build_from_probabilities_safe t log probs cs :
  0 <= max_symbol t <= 255 -> codes_cover cs (max_symbol t + 1) -> 
  safe (fun t' => tiles 255 log probs /\ max_symbol t' = max_symbol t /\
          exists syms, built cs log probs t' syms)
    (build_from_probabilities t log probs cs).
Proof.
  intros Hms Hcov. unfold build_from_probabilities. apply safe_fail_if. intros Hf.
  bools. match goal with H : existsb _ _ = false |- _ => rename H into Hex end.
  cbn [max_symbol reset] in *.
  assert (tiles 255 log probs) as Ht.
  { split; [|..|].
    - unfold cell_sum. rewrite <- Z.shiftl_1_l. done.
    - apply Forall_forall. intros p Hp. destruct (Z_le_gt_dec (-1) p); [done|].
      assert (existsb (fun p => p <? -1) probs = true); [|congruence].
      apply existsb_exists. exists p. split; [by apply list_elem_of_In|]. apply Z.ltb_lt. lia.
    - lia.
    - lia. }
  eapply safe_mono.
  - apply returns_safe, build_decoding_table_built; cbn; [done|].
    eapply codes_cover_mono; [done|lia].
  - cbn. intros t' [Hm Hb]. done.
Qed.

(** ** Properties *)

(** C17: The FSE decoding-table builder is safe and correct on every input
    byte string: [build_decoder] never panics or runs on, and when it accepts
    a table description it has read at most the input and has built the table
    of a distribution that tiles [2 ^ log] cells: the symbols lie where the
    reference walk puts them, whichever of its two spreading strategies ran,
    and each cell has the bit count, next state and code of its symbol's
    counter. *)
Theorem build_decoder_correct t source max_log cs :
  bytes source -> 0 <= max_symbol t <= 255 -> max_log <= FSE_MAX_TABLE_LOG ->
  codes_cover cs (max_symbol t + 1) ->
  match build_decoder t source max_log cs with
  | Ok (t', n) => exists log counts syms, 0 <= n <= zlen source /\ log <= max_log /\
      tiles (max_symbol t) log counts /\ built cs log counts t' syms
  | Err _ => True
  | Fault | Stuck => False
  end.
Proof.
  intros Hs Hms Hml Hcov. pose proof (build_decoder_safe t source max_log cs Hs Hms Hml Hcov) as H.
  destruct (build_decoder _ _ _ _) as [[t' n]| | |]; cbn in H; try done. by destruct H.
Qed.

Lemma build_decoder_correct_witness :
  exists t' n, build_decoder (FseTable.new 35) [0x10; 0x3F] 9 (Some (DEC_LL_BASE, DEC_LL_BITS)) = Ok (t', n) /\
    exists log counts syms, 0 <= n <= 2 /\ log <= 9 /\ tiles 35 log counts /\
      built (Some (DEC_LL_BASE, DEC_LL_BITS)) log counts t' syms.
Proof.
  assert (bytes [0x10; 0x3F]) as Hb by (repeat constructor; unfold is_byte; lia).
  assert (0 <= max_symbol (FseTable.new 35) <= 255) as Hm by (cbn; lia).
  assert (9 <= FSE_MAX_TABLE_LOG) as Hl by by vm_compute.
  assert (codes_cover (Some (DEC_LL_BASE, DEC_LL_BITS)) (max_symbol (FseTable.new 35) + 1)) as Hc
    by by vm_compute.
  pose proof (build_decoder_correct (FseTable.new 35) [0x10; 0x3F] 9
                (Some (DEC_LL_BASE, DEC_LL_BITS)) Hb Hm Hl Hc) as H.
  destruct (build_decoder _ _ _ _) as [[t' n]|e| |] eqn:E; [|vm_compute in E; discriminate E..].
  exists t', n. split; [done|]. exact H.
Defined.

(** C18: In the table the builder makes of a distribution, each symbol of
    nonzero count has exactly one cell for every target state: the state
    ranges its cells lead to partition the table. It is what makes the
    encoder's choice of a state, and so the decoding, unique. *)
Theorem fse_transitions_partition t log probs cs t' s c x :
  0 <= max_symbol t <= 255 -> codes_cover cs (max_symbol t + 1) ->
  build_from_probabilities t log probs cs = Ok t' ->
  zget probs s = Some c -> c <> 0 -> 0 <= x < 2 ^ log ->
  exists syms, built cs log probs t' syms /\
  exists! i, zget syms i = Some s /\ exists e, zget (cells t') i = Some e /\
    next_state e <= x < next_state e + 2 ^ num_bits e.
Proof.
  intros Hms Hcov Hb Hc Hc0 Hx.
  pose proof (safe_ok_inv _ _ _ (build_from_probabilities_safe t log probs cs Hms Hcov) Hb)
    as (Ht & _ & syms & Hbt).
  exists syms. split; [done|]. by eapply built_partition.
Qed.

Lemma fse_transitions_partition_witness :
  exists t', build_from_probabilities (FseTable.new 35) 6 LITERALS_LENGTH_DEFAULT_DISTRIBUTION
               None = Ok t' /\
    exists syms, built None 6 LITERALS_LENGTH_DEFAULT_DISTRIBUTION t' syms /\
    exists! i, zget syms i = Some 0 /\ exists e, zget (cells t') i = Some e /\
      next_state e <= 17 < next_state e + 2 ^ num_bits e.
Proof.
  destruct (build_from_probabilities (FseTable.new 35) 6 LITERALS_LENGTH_DEFAULT_DISTRIBUTION
    None) as [t'|e| |] eqn:E; [|vm_compute in E; discriminate E..].
  exists t'. split; [done|].
  apply (fse_transitions_partition (FseTable.new 35) 6 LITERALS_LENGTH_DEFAULT_DISTRIBUTION
    None t' 0 4 17); [cbn; lia|exact I|exact E|reflexivity|lia|lia].
Defined.
