(* ===== verification/BitDStream.v ===== *)
(** * The backward bit reader ([src/decode.rs], [BitDStream])

    The 64-bit container over a byte stream that is read from its last byte
    backwards, and its refinement of a cursor into one big little-endian
    number: [unread] bits are left, and reading takes them from the top. *)

From S2P Require Import Prelude Words Constants Errors.

Inductive HufStreamStatus :=
| Unfinished
| EndOfBuffer
| Completed
| Overflow.

#[global] Instance HufStreamStatus_eq_dec : EqDecision HufStreamStatus.
Proof. solve_decision. Defined.

Record BitDStream := MkDStream {
  src : list Z;
  ptr : Z;
  container : Z;
  bits_consumed : Z;
}.

(** [read_le64] and [read_le64_unchecked]: the checked access panics where
    the unchecked one would leave the buffer. *)
Definition read_le64 (s : list Z) (at_ : Z) : dec Z :=
  b ← slice s at_ (at_ + 8);
  Ok (le_val b).

(** [read_le_short]. *)
Definition read_le_short (s : list Z) : dec Z :=
  let n := zlen s in
  if 4 <=? n then
    l ← slice s 0 4;
    h ← slice s (n - 4) n;
    let lo := le_val l in
    let hi := le_val h in
    Ok (Z.lor lo (wshl 64 hi (8 * (n - 4))))
  else
    let mid := n / 2 in
    a ← idx s 0;
    b ← idx s mid;
    c ← idx s (n - 1);
    Ok (Z.lor (Z.lor a (wshl 64 b (8 * mid))) (wshl 64 c (8 * (n - 1)))).

(** [BitDStream::new]. *)
Definition new (s : list Z) : dec BitDStream :=
  last ← ok_or EStreamEmpty (zget s (zlen s - 1));
  _ ← fail_if (last =? 0) EStreamNoEndMark;
  let padding := leading_zeros 8 last + 1 in
  if 8 <=? zlen s then
    let ptr := zlen s - 8 in
    c ← read_le64 s ptr;
    Ok (MkDStream s ptr c padding)
  else
    c ← read_le_short s;
    Ok (MkDStream s 0 c (padding + (8 - zlen s) * 8)).

(** [look_bits]. *)
Definition look_bits (br : BitDStream) (n : Z) : Z :=
  Z.shiftr (wshl 64 (container br) (Z.land (bits_consumed br) 63)) (64 - n).

(** [look_bits_any]. *)
Definition look_bits_any (br : BitDStream) (n : Z) : Z :=
  Z.shiftr (Z.shiftr (wshl 64 (container br) (Z.land (bits_consumed br) 63)) 1)
    (Z.land (63 - n) 63).

(** [skip_bits]. *)
Definition skip_bits (br : BitDStream) (n : Z) : BitDStream :=
  MkDStream (src br) (ptr br) (container br) (wadd 32 (bits_consumed br) n).

(** [read_bits]. *)
Definition read_bits (br : BitDStream) (n : Z) : Z * BitDStream :=
  let value := look_bits_any br n in
  (value, skip_bits br n).

(** [read_bits_fast]. *)
Definition read_bits_fast (br : BitDStream) (n : Z) : Z * BitDStream :=
  let value := look_bits br n in
  (value, skip_bits br n).

(** [reload_internal], with its debug assertion. *)
Definition reload_internal (br : BitDStream) : dec (HufStreamStatus * BitDStream) :=
  _ ← rassert ((8 <=? ptr br) && (bits_consumed br <=? 64));
  let p := ptr br - Z.shiftr (bits_consumed br) 3 in
  c ← read_le64 (src br) p;
  Ok (Unfinished, MkDStream (src br) p c (Z.land (bits_consumed br) 7)).

(** [reload_fast]. *)
Definition reload_fast (br : BitDStream) : dec (HufStreamStatus * BitDStream) :=
  if ptr br <? 8 then Ok (Overflow, br) else reload_internal br.

(** [reload]. *)
Definition reload (br : BitDStream) : dec (HufStreamStatus * BitDStream) :=
  if 64 <? bits_consumed br then Ok (Overflow, br)
  else if 8 <=? ptr br then reload_internal br
  else if ptr br =? 0 then
    Ok (if bits_consumed br <? 64 then EndOfBuffer else Completed, br)
  else
    let nb_bytes := Z.shiftr (bits_consumed br) 3 in
    let '(nb_bytes, result) :=
      if ptr br <? nb_bytes then (ptr br, EndOfBuffer) else (nb_bytes, Unfinished) in
    let p := ptr br - nb_bytes in
    let bc := bits_consumed br - nb_bytes * 8 in
    c ← read_le64 (src br) p;
    Ok (result, MkDStream (src br) p c bc).

(** [is_finished]. *)
Definition is_finished (br : BitDStream) : bool :=
  (ptr br =? 0) && (bits_consumed br =? 64).

(** ** The cursor

    The stream as one number, of which the [unread] low bits are left. *)
Definition stream_val (br : BitDStream) : Z := le_val (src br).
Definition unread (br : BitDStream) : Z := 8 * ptr br + 64 - bits_consumed br.

(** The next [k] bits of a cursor at [u], zeros past the stream's start. *)
Definition peek (v u k : Z) : Z := (v * 2 ^ k / 2 ^ u) mod 2 ^ k.

(** The representation invariant. *)
Record stream_ok (br : BitDStream) : Prop := {
  ok_bytes : bytes (src br);
  ok_ptr : 0 <= ptr br;
  ok_end : ptr br + 8 <= zlen (src br) \/ ptr br = 0 /\ zlen (src br) < 8;
  ok_container : container br = bits (stream_val br) (8 * ptr br) 64;
  ok_consumed : 0 <= bits_consumed br < 2 ^ 32;
}.

(** ** Lemmas *)

Lemma le_val_part s a b : bytes s -> 0 <= a <= b -> b <= zlen s ->
  le_val (ztake (b - a) (zdrop a s)) = bits (le_val s) (8 * a) (8 * (b - a)).
Proof. intros. apply le_val_slice; [done|]. by apply zslice_ok. Qed.

Lemma read_le64_ok s a : bytes s -> 0 <= a -> a + 8 <= zlen s ->
  read_le64 s a = Ok (bits (le_val s) (8 * a) 64).
Proof.
  intros Hs Ha Hl. unfold read_le64. rewrite slice_ok by lia. cbn [mbind res_bind].
  f_equal. rewrite le_val_part by (done || lia). f_equal. lia.
Qed.

(** A piece of a number put back in its place. *)
Lemma testbit_piece v a n i : 0 <= a -> 0 <= n -> 0 <= i -> a + n <= 64 ->
  Z.testbit (wshl 64 (bits v a n) a) i = (a <=? i) && (i <? a + n) && Z.testbit v i.
Proof.
  intros. rewrite wshl_div by lia. destruct (Z.ltb_spec i 64).
  - rewrite Z.mod_pow2_bits_low by lia. rewrite Z.mul_pow2_bits by lia.
    destruct (Z.leb_spec a i).
    + rewrite testbit_bits by lia. cbn [andb]. replace (a + (i - a)) with i by lia.
      destruct (Z.ltb_spec (i - a) n), (Z.ltb_spec i (a + n)); try lia; done.
    + rewrite Z.testbit_neg_r by lia. done.
  - rewrite Z.mod_pow2_bits_high by lia. destruct (Z.ltb_spec i (a + n)); [lia|].
    by rewrite andb_false_r.
Qed.

Lemma testbit_above v n i : 0 <= v < 2 ^ n -> 0 <= n <= i -> Z.testbit v i = false.
Proof.
  intros Hv Hn. rewrite <- (Z.mod_small v (2 ^ n)) by lia. apply Z.mod_pow2_bits_high. lia.
Qed.

(** A byte of a byte string is its digit. *)
Lemma idx_digit s i : bytes s -> 0 <= i < zlen s ->
  (idx s i : dec Z) = Ok (bits (le_val s) (8 * i) 8).
Proof.
  intros Hs Hi. destruct (zget_is_Some s i Hi) as [b Hb].
  rewrite (idx_ok _ _ _ Hb). f_equal.
  assert (zslice s i (i + 1) = Some [b]) as Hsl.
  { rewrite zslice_ok by lia. f_equal. unfold ztake, zdrop.
    apply zget_Some in Hb as [_ Hb]. rewrite (drop_S _ _ _ Hb).
    replace (Z.to_nat (i + 1 - i)) with 1%nat by lia. done. }
  pose proof (le_val_slice _ _ _ _ Hs Hsl) as H. cbn [le_val] in H.
  replace (8 * (i + 1 - i)) with 8 in H by lia. lia.
Qed.

Lemma read_le_short_ok s : bytes s -> 1 <= zlen s <= 8 -> read_le_short s = Ok (le_val s).
Proof.
  intros Hs Hl. pose proof (le_val_range s Hs) as Hv. unfold read_le_short.
  destruct (Z.leb_spec 4 (zlen s)).
  - rewrite !slice_ok by lia. cbn [mbind res_bind]. f_equal.
    rewrite !le_val_part by (done || lia).
    apply Z.bits_inj'. intros i Hi. rewrite Z.lor_spec, testbit_piece, testbit_bits by lia.
    change (8 * 0) with 0. rewrite !Z.add_0_l.
    destruct (Z.ltb_spec i (8 * (4 - 0))), (Z.leb_spec (8 * (zlen s - 4)) i),
      (Z.ltb_spec i (8 * (zlen s - 4) + 8 * (zlen s - (zlen s - 4)))); try lia;
      cbn; rewrite ?orb_false_r, ?orb_diag; try done.
    symmetry. apply (testbit_above _ (8 * zlen s)); lia.
  - assert (0 <= zlen s / 2 < zlen s) by divlia.
    rewrite !idx_digit by (done || lia). cbn [mbind res_bind]. f_equal.
    change (8 * 0) with 0.
    apply Z.bits_inj'. intros i Hi. rewrite !Z.lor_spec, !testbit_piece by lia.
    rewrite testbit_bits by lia. rewrite Z.add_0_l.
    assert (Z.testbit (le_val s) i = true -> i < 8 * zlen s) as Hlt.
    { intros Ht. destruct (Z_lt_dec i (8 * zlen s)); [done|].
      rewrite (testbit_above _ (8 * zlen s)) in Ht by lia. done. }
    assert (zlen s / 2 = if zlen s =? 1 then 0 else 1) as -> by (case_bool; divlia).
    destruct (Z.testbit (le_val s) i); rewrite ?andb_true_r, ?andb_false_r; [|done].
    specialize (Hlt eq_refl). case_bool; lia.
Qed.

Lemma stream_container_bit br i : stream_ok br -> 0 <= i < 64 ->
  Z.testbit (container br) i = Z.testbit (stream_val br) (8 * ptr br + i).
Proof.
  intros [_ Hp _ Hc _] Hi. rewrite Hc, testbit_bits by lia.
  destruct (Z.ltb_spec i 64); [done|lia].
Qed.

Lemma testbit_peek v u k i : 0 <= u -> 0 <= k -> 0 <= i ->
  Z.testbit (peek v u k) i = (i <? k) && Z.testbit v (i + u - k).
Proof.
  intros. unfold peek. destruct (Z.ltb_spec i k).
  - rewrite Z.mod_pow2_bits_low, Z.div_pow2_bits, Z.mul_pow2_bits by lia. cbn. f_equal; lia.
  - by rewrite Z.mod_pow2_bits_high by lia.
Qed.

Lemma peek_range v u k : 0 <= k -> 0 <= peek v u k < 2 ^ k.
Proof. intros. apply Z.mod_pos_bound, pow2_pos. lia. Qed.

Lemma peek_bits v u k : 0 <= k <= u -> peek v u k = bits v (u - k) k.
Proof.
  intros. apply Z.bits_inj'. intros i Hi. rewrite testbit_peek, testbit_bits by lia.
  do 2 f_equal. lia.
Qed.

Lemma peek_0 v u : peek v u 0 = 0.
Proof. unfold peek. apply Z.mod_1_r. Qed.

Lemma look_bits_any_range br n : 0 <= n <= 63 -> 0 <= look_bits_any br n < 2 ^ n.
Proof.
  intros Hn. unfold look_bits_any.
  assert (Z.land (63 - n) 63 = 63 - n) as ->.
  { rewrite (land_mod _ 6) by lia. apply Z.mod_small. cbn. lia. }
  set (x := wshl 64 _ _). assert (0 <= x < 2 ^ 64) as Hx by (apply wrap_range; lia).
  rewrite Z.shiftr_shiftr, shiftr_div by lia. pose proof (pow2_pos (1 + (63 - n)) ltac:(lia)).
  split; [apply Z.div_pos; lia|]. apply Z.div_lt_upper_bound; [done|].
  rewrite <- pow2_add by lia. replace (1 + (63 - n) + n) with 64 by lia. lia.
Qed.

(** A lookup of [k] bits sees the cursor's next [k] bits when the container
    holds them, or is the last one. *)
Definition loaded (br : BitDStream) (k : Z) : Prop :=
  bits_consumed br <= 63 /\ (bits_consumed br + k <= 64 \/ ptr br = 0).

Lemma look_bits_peek br k : stream_ok br -> 1 <= k <= 64 -> loaded br k ->
  look_bits br k = peek (stream_val br) (unread br) k.
Proof.
  intros Hok Hk [Hb Hl]. pose proof Hok as [_ Hp _ _ Hc]. unfold look_bits.
  assert (Z.land (bits_consumed br) 63 = bits_consumed br) as ->.
  { rewrite (land_mod _ 6) by lia. apply Z.mod_small. cbn; lia. }
  rewrite shiftr_div, wshl_div by lia.
  apply Z.bits_inj'. intros i Hi. unfold unread.
  rewrite Z.div_pow2_bits, testbit_peek by lia. destruct (Z.ltb_spec i k); cbn [andb].
  - rewrite Z.mod_pow2_bits_low, Z.mul_pow2_bits by lia.
    destruct (Z_lt_dec (i + (64 - k) - bits_consumed br) 0).
    + rewrite !Z.testbit_neg_r by lia. done.
    + rewrite stream_container_bit by (done || lia). f_equal. lia.
  - by rewrite Z.mod_pow2_bits_high by lia.
Qed.

Lemma look_bits_any_look br k : 1 <= k <= 56 -> look_bits_any br k = look_bits br k.
Proof.
  intros. unfold look_bits_any, look_bits. rewrite Z.shiftr_shiftr by
    (rewrite (land_mod _ 6) by lia; divlia).
  f_equal. rewrite (land_mod _ 6), Z.mod_small by (cbn; lia). lia.
Qed.

Lemma look_bits_any_peek br k : stream_ok br -> 0 <= k <= 56 -> loaded br k ->
  look_bits_any br k = peek (stream_val br) (unread br) k.
Proof.
  intros Hok Hk Hl. destruct (Z.eq_dec k 0) as [->|].
  - rewrite peek_0. unfold look_bits_any. change (Z.land (63 - 0) 63) with 63.
    rewrite !shiftr_div by lia. rewrite Z.div_div by lia.
    apply Z.div_small. apply (wrap_range 64). lia.
  - rewrite look_bits_any_look by lia. apply look_bits_peek; done || lia.
Qed.

Lemma skip_bits_ok br n : stream_ok br -> 0 <= n -> bits_consumed br + n < 2 ^ 32 ->
  stream_ok (skip_bits br n) /\ unread (skip_bits br n) = unread br - n /\
  bits_consumed (skip_bits br n) = bits_consumed br + n.
Proof.
  intros [Hb Hp He Hc Hk] Hn Hs. unfold skip_bits, unread, wadd. cbn.
  rewrite wrap_small by lia. split_and!; [split; cbn; done || lia|lia..].
Qed.

(** [new] sets the cursor at the end mark, the highest set bit. *)
Lemma le_val_log2 s last : bytes s -> zget s (zlen s - 1) = Some last -> 0 < last ->
  Z.log2 (le_val s) = 8 * (zlen s - 1) + Z.log2 last.
Proof.
  intros Hs Hlast Hpos. pose proof (zget_lt _ _ _ Hlast) as Hl.
  pose proof (Forall_zget _ _ _ _ Hs Hlast) as Hb. unfold is_byte in Hb.
  apply zget_Some in Hlast as [_ Hn].
  assert (s = ztake (zlen s - 1) s ++ [last]) as Hsp.
  { rewrite <- (take_drop_middle _ _ _ Hn) at 1. unfold ztake. f_equal.
    rewrite drop_ge; [done|]. unfold zlen in *. lia. }
  assert (le_val s = le_val (ztake (zlen s - 1) s) + 2 ^ (8 * (zlen s - 1)) * last) as ->.
  { rewrite Hsp at 1. rewrite le_val_app. cbn [le_val].
    rewrite zlen_ztake by lia. lia. }
  pose proof (le_val_range (ztake (zlen s - 1) s) (Forall_take _ _ _ Hs)) as Hr.
  rewrite zlen_ztake in Hr by lia.
  pose proof (Z.log2_spec last Hpos) as [H1 H2].
  pose proof (Z.log2_nonneg last). rewrite Z.pow_succ_r in H2 by lia.
  pose proof (pow2_pos (8 * (zlen s - 1)) ltac:(lia)).
  apply Z.log2_unique; [lia|]. rewrite Z.pow_succ_r, pow2_add by lia. nia.
Qed.

Lemma new_ok s : bytes s ->
  match new s with
  | Ok br => src br = s /\ stream_ok br /\ unread br = Z.log2 (le_val s) /\
      bits_consumed br <= 64 /\ 0 < le_val s
  | Err e => e = EStreamEmpty /\ s = [] \/
             e = EStreamNoEndMark /\ zget s (zlen s - 1) = Some 0
  | Fault | Stuck => False
  end.
Proof.
  intros Hs. unfold new. destruct (zget s (zlen s - 1)) as [last|] eqn:Hlast; cbn [ok_or mbind res_bind].
  - unfold fail_if. destruct (Z.eqb_spec last 0) as [->|Hnz]; cbn [mbind res_bind]; [auto|].
    pose proof (zget_lt _ _ _ Hlast) as Hl.
    pose proof (Forall_zget _ _ _ _ Hs Hlast) as Hb. unfold is_byte in Hb.
    pose proof (byte_log2 last ltac:(lia)) as Hlg.
    pose proof (le_val_log2 s last Hs Hlast ltac:(lia)) as Hv.
    assert (0 < le_val s).
    { destruct (Z_lt_dec 0 (le_val s)); [done|].
      rewrite (Z.log2_nonpos (le_val s)) in Hv by lia.
      pose proof (le_val_range s Hs). assert (le_val s = 0) by lia.
      assert (zlen s = 1) by lia. destruct s as [|b [|b' s]].
      - done.
      - cbn in *. injection Hlast as ->. lia.
      - rewrite !zlen_cons in *. pose proof (zlen_nonneg s). lia. }
    rewrite leading_zeros_log2 by lia.
    destruct (Z.leb_spec 8 (zlen s)).
    + rewrite read_le64_ok by (done || lia). cbn [mbind res_bind].
      split_and!; cbn; try done; try lia; unfold unread; cbn; try lia.
      split; cbn; try done; lia.
    + rewrite read_le_short_ok by (done || lia). cbn [mbind res_bind].
      split_and!; cbn; try done; try lia; unfold unread; cbn; try lia.
      split; cbn; try done; try lia. rewrite bits_small; [done|].
      pose proof (le_val_range s Hs). pose proof (pow2_le (8 * zlen s) 64). lia.
  - left. split; [done|]. destruct s; [done|].
    destruct (zget_is_Some (z :: s) (zlen (z :: s) - 1)) as [x Hx]; [|congruence].
    rewrite zlen_cons. pose proof (zlen_nonneg s). lia.
Qed.

(** What a reload leaves. *)
Record reloaded (br : BitDStream) (st : HufStreamStatus) (br' : BitDStream) : Prop := {
  rel_ok : stream_ok br';
  rel_src : src br' = src br;
  rel_unread : unread br' = unread br;
  rel_unfinished : st = Unfinished -> bits_consumed br' <= 7;
  rel_end : st = EndOfBuffer -> ptr br' = 0 /\ bits_consumed br' <= 63;
  rel_completed : st = Completed -> ptr br' = 0 /\ bits_consumed br' = 64;
}.

Lemma reload_internal_ok br : stream_ok br -> 8 <= ptr br -> bits_consumed br <= 64 ->
  returns (fun '(st, br') => st = Unfinished /\ reloaded br st br') (reload_internal br).
Proof.
  intros [Hb Hp He Hc Hk] H8 H64. unfold reload_internal.
  rewrite (proj2 (Z.leb_le 8 _) H8), (proj2 (Z.leb_le _ 64) H64). cbn [andb rassert mbind res_bind].
  rewrite shiftr_div by lia. change (2 ^ 3) with 8.
  rewrite read_le64_ok by (done || divlia). cbn [mbind res_bind returns].
  rewrite (land_mod _ 3) by lia. change (2 ^ 3) with 8.
  split; [done|]. split; cbn; try done; unfold unread; cbn; try divlia.
  split; cbn; try done; divlia.
Qed.

Lemma reload_ok br : stream_ok br ->
  returns (fun '(st, br') => (st = Overflow <-> 64 < bits_consumed br) /\
             (st = Overflow -> br' = br) /\ reloaded br st br') (reload br).
Proof.
  intros Hok. pose proof Hok as [Hb Hp He Hc Hk]. unfold reload.
  destruct (Z.ltb_spec 64 (bits_consumed br)).
  { cbn. split; [split; done|]. split; [done|]. by split. }
  destruct (Z.leb_spec 8 (ptr br)).
  { eapply returns_mono; [by apply reload_internal_ok|]. intros [st br'] [-> Hr].
    split; [split; [done|lia]|]. done. }
  destruct (Z.eqb_spec (ptr br) 0).
  { cbn. case_bool; split_and!; try (split; done || lia); try done;
      split; try done; intros _; lia. }
  rewrite shiftr_div by lia. change (2 ^ 3) with 8.
  assert (8 <= zlen (src br)) by lia.
  destruct (Z.ltb_spec (ptr br) (bits_consumed br / 8)).
  - rewrite read_le64_ok by (done || divlia). cbn [mbind res_bind returns].
    split_and!; [split; [done|lia]|done|]. split; cbn; try done; unfold unread; cbn; try divlia.
    split; cbn; try done; divlia.
  - rewrite read_le64_ok by (done || divlia). cbn [mbind res_bind returns].
    split_and!; [split; [done|lia]|done|]. split; cbn; try done; unfold unread; cbn; try divlia.
    split; cbn; try done; divlia.
Qed.

Lemma reload_fast_ok br : stream_ok br -> bits_consumed br <= 64 ->
  returns (fun '(st, br') => (st = Overflow -> br' = br /\ ptr br < 8) /\
             (st = Overflow \/ st = Unfinished) /\ reloaded br st br') (reload_fast br).
Proof.
  intros Hok Hb. unfold reload_fast. destruct (Z.ltb_spec (ptr br) 8).
  - cbn. split_and!; [done|auto|]. by split.
  - eapply returns_mono; [by apply reload_internal_ok|]. intros [st br'] [-> Hr].
    split_and!; [done|auto|done].
Qed.

(** What a reload that found bits has loaded. *)
Lemma reloaded_loaded br st br' k : reloaded br st br' ->
  st = Unfinished \/ st = EndOfBuffer -> k <= 57 -> loaded br' k.
Proof.
  intros [Hok _ _ Hu He _] Hst Hk. unfold loaded.
  destruct Hst as [->| ->]; [specialize (Hu eq_refl)|specialize (He eq_refl)]; lia.
Qed.

Lemma is_finished_iff br : stream_ok br -> bits_consumed br <= 64 ->
  is_finished br = true <-> unread br = 0.
Proof.
  intros [_ Hp _ _ _] Hb. unfold is_finished, unread. rewrite andb_true_iff, !Z.eqb_eq. lia.
Qed.

Lemma is_finished_unread br : is_finished br = true -> unread br = 0.
Proof. unfold is_finished, unread. rewrite andb_true_iff, !Z.eqb_eq. lia. Qed.

(** ** A client: reads of given widths, each followed by a reload *)

Fixpoint read_all (br : BitDStream) (ns : list Z) : dec (list Z * BitDStream) :=
  match ns with
  | [] => Ok ([], br)
  | n :: ns =>
      let '(v, br) := read_bits br n in
      '(_, br) ← reload br;
      '(vs, br) ← read_all br ns;
      Ok (v :: vs, br)
  end.

(** The same reads of a number's low [u] bits, from the top. *)
Fixpoint take_all (v u : Z) (ns : list Z) : list Z :=
  match ns with
  | [] => []
  | n :: ns => bits v (u - n) n :: take_all v (u - n) ns
  end.

Lemma read_all_ok ns br : Forall (fun n => 0 <= n <= 56) ns ->
  stream_ok br -> bits_consumed br <= 64 -> loaded br 56 \/ unread br = 0 ->
  foldr Z.add 0 ns <= unread br ->
  returns (fun '(vs, br') => vs = take_all (stream_val br) (unread br) ns /\
             stream_ok br' /\ src br' = src br /\ bits_consumed br' <= 64 /\
             unread br' = unread br - foldr Z.add 0 ns) (read_all br ns).
Proof.
  intros Hns. revert br. induction Hns as [|n ns Hn Hns IH]; intros br Hok H64 Hl Hsum.
  - cbn. split_and!; done || lia.
  - cbn [foldr] in Hsum. assert (0 <= foldr Z.add 0 ns).
    { clear -Hns. induction Hns; cbn; lia. }
    cbn [read_all]. unfold read_bits.
    assert (look_bits_any br n = bits (stream_val br) (unread br - n) n) as ->.
    { destruct (Z.eq_dec n 0) as [->|].
      - rewrite bits_0. destruct Hl as [Hl|Hl].
        + rewrite look_bits_any_peek by (done || lia || (destruct Hl; split; lia)).
          apply peek_0.
        + unfold look_bits_any. change (Z.land (63 - 0) 63) with 63.
          rewrite !shiftr_div by lia. rewrite Z.div_div by lia.
          apply Z.div_small. apply (wrap_range 64). lia.
      - destruct Hl as [Hl|Hl]; [|lia].
        rewrite look_bits_any_peek by (done || lia || (destruct Hl; split; lia)).
        apply peek_bits. lia. }
    pose proof Hok as [_ _ _ _ Hk].
    destruct (skip_bits_ok br n Hok ltac:(lia) ltac:(lia)) as (Hok1 & Hu1 & Hb1).
    eapply returns_bind; [by apply reload_ok|].
    intros [st br2] (Hov & Hsame & Hrel). pose proof Hrel as [Hok2 Hs2 Hu2 Hun He Hco].
    assert (unread br2 = unread br - n) as Hu by lia.
    assert (bits_consumed br2 <= 64 /\ (loaded br2 56 \/ unread br2 = 0)) as [H642 Hl2].
    { destruct st.
      - specialize (Hun eq_refl). unfold loaded. lia.
      - specialize (He eq_refl). unfold loaded. lia.
      - specialize (Hco eq_refl). unfold unread. lia.
      - rewrite (Hsame eq_refl) in *. assert (64 < bits_consumed (skip_bits br n)) by by apply Hov.
        (* Nothing unread is left past the container. *)
        exfalso. unfold loaded, unread in *. cbn in *. lia. }
    eapply returns_bind; [apply (IH br2); done || lia|].
    intros [vs br3] (-> & Hok3 & Hs3 & H643 & Hu3). cbn.
    assert (stream_val br2 = stream_val br) as Hsv by (unfold stream_val; by rewrite Hs2).
    split_and!; [by rewrite Hsv, Hu|done|by rewrite Hs3, Hs2|done|lia].
Qed.

Lemma new_loaded s br : bytes s -> new s = Ok br -> loaded br 56 \/ unread br = 0.
Proof.
  intros Hs Hn. pose proof (new_ok s Hs) as H. rewrite Hn in H.
  destruct H as (Hsrc & Hok & Hu & Hb & Hpos). pose proof Hok as [_ Hp He _ _].
  rewrite Hsrc in He. unfold loaded, unread.
  destruct He as [He|[He Hl]]; [|lia]. left.
  (* Eight bytes or more: only the padding is consumed. *)
  unfold new in Hn. destruct (zget s (zlen s - 1)) as [last|] eqn:Hlast; [|discriminate].
  cbn [ok_or mbind res_bind] in Hn. inv_ok.
  pose proof (Forall_zget _ _ _ _ Hs Hlast) as Hlb. unfold is_byte in Hlb.
  pose proof (byte_log2 last ltac:(lia)).
  rewrite leading_zeros_log2 in Hn by lia.
  destruct (Z.leb_spec 8 (zlen s)); [|lia].
  rewrite read_le64_ok in Hn by (done || lia). cbn in Hn. injection Hn as <-. cbn. lia.
Qed.

Lemma read_all_new s br ns :
  bytes s -> new s = Ok br -> Forall (fun n => 0 <= n <= 56) ns ->
  foldr Z.add 0 ns <= Z.log2 (le_val s) ->
  exists br', read_all br ns = Ok (take_all (le_val s) (Z.log2 (le_val s)) ns, br') /\
    (is_finished br' = true <-> foldr Z.add 0 ns = Z.log2 (le_val s)).
Proof.
  intros Hs Hn Hns Hsum. pose proof (new_ok s Hs) as H. rewrite Hn in H.
  destruct H as (Hsrc & Hok & Hu & Hb & Hpos).
  pose proof (read_all_ok ns br Hns Hok Hb (new_loaded s br Hs Hn) ltac:(lia)) as Hr.
  destruct (returns_inv _ _ Hr) as ([vs br'] & Heq & -> & Hok' & _ & H64' & Hu').
  exists br'. unfold stream_val in Heq. rewrite Hsrc, Hu in Heq. split; [done|].
  rewrite is_finished_iff by done. lia.
Qed.

(** C19: The backward bit reader refines a cursor into one number. On every
    byte string with an end mark it starts at the mark, the string's highest
    set bit; reads of any widths up to 56 bits, each followed by a reload,
    return exactly the string's bits from there downwards, never leave the
    buffer, and the stream then reports itself finished precisely when every
    bit below the mark was read. *)
Theorem bitstream_reads s br ns :
  bytes s -> new s = Ok br -> Forall (fun n => 0 <= n <= 56) ns ->
  foldr Z.add 0 ns <= Z.log2 (le_val s) ->
  exists br', read_all br ns = Ok (take_all (le_val s) (Z.log2 (le_val s)) ns, br') /\
    (is_finished br' = true <-> foldr Z.add 0 ns = Z.log2 (le_val s)).
Proof. apply read_all_new. Qed.

Lemma bitstream_reads_witness :
  exists br br', new [0xA5; 0x3C; 0x17] = Ok br /\
    read_all br [3; 10; 7] = Ok ([3; 633; 37], br') /\ is_finished br' = true.
Proof.
  assert (bytes [0xA5; 0x3C; 0x17]) as Hb by (repeat constructor; unfold is_byte; lia).
  destruct (new [0xA5; 0x3C; 0x17]) as [br|e| |] eqn:E; [|vm_compute in E; discriminate E..].
  assert (Forall (fun n => 0 <= n <= 56) [3; 10; 7]) as Hn by (repeat constructor; lia).
  destruct (bitstream_reads [0xA5; 0x3C; 0x17] br [3; 10; 7] Hb E Hn) as (br' & Hr & Hf);
    [by vm_compute|].
  exists br, br'. split; [done|]. split; [exact Hr|]. by apply Hf.
Defined.
