(* ===== verification/HufTable.v ===== *)
(** * Huffman decoding tables ([src/decode.rs], [HuffmanTable])

    The tree description (raw or FSE-compressed weights), its statistics and
    checks, and the two fills of the decoding table, one symbol to a cell
    ([fill_x1]) or up to two ([fill_x2]). The proofs are in [HufWeights]
    (description and statistics) and [HufFill] (the single-symbol table). *)

From S2P Require Import Prelude Words Constants Errors FseTable BitDStream.

(** ** FSE-compressed weights *)

(** The [decode] closure of [fse_decompress_weights]: the state's symbol and
    the next state. *)
Definition decode_weight (dt : list FSEEntry) (state : Z) (br : BitDStream)
    : dec (Z * Z * BitDStream) :=
  cell ← idx dt state;
  let '(v, br) := read_bits br (num_bits cell) in
  Ok (wrap 8 (base_value cell), next_state cell + v, br).

(** The loop states: the two FSE states, the stream, the output and the
    number of weights in it. *)
Record weights_state := MkWS {
  ws_state1 : Z;
  ws_state2 : Z;
  ws_br : BitDStream;
  ws_out : list Z;
  ws_op : Z;
}.

(** One weight of the first state into [out[at]]. *)
Definition weight1 (dt : list FSEEntry) (at_ : Z) (st : weights_state) : dec weights_state :=
  '(w, s1, br) ← decode_weight dt (ws_state1 st) (ws_br st);
  out ← store (ws_out st) at_ w;
  Ok (MkWS s1 (ws_state2 st) br out (ws_op st)).

(** One weight of the second state into [out[at]]. *)
Definition weight2 (dt : list FSEEntry) (at_ : Z) (st : weights_state) : dec weights_state :=
  '(w, s2, br) ← decode_weight dt (ws_state2 st) (ws_br st);
  out ← store (ws_out st) at_ w;
  Ok (MkWS (ws_state1 st) s2 br out (ws_op st)).

Definition ws_advance (n : Z) (st : weights_state) : weights_state :=
  MkWS (ws_state1 st) (ws_state2 st) (ws_br st) (ws_out st) (ws_op st + n).

(** [br.reload()] within the loops. *)
Definition ws_reload (st : weights_state) : dec (HufStreamStatus * weights_state) :=
  '(status, br) ← reload (ws_br st);
  Ok (status, MkWS (ws_state1 st) (ws_state2 st) br (ws_out st) (ws_op st)).

(** The four-at-a-time loop. *)
Definition weights_four (dt : list FSEEntry) (omax : Z) (st : weights_state)
    : dec (weights_state + weights_state) :=
  '(status, st) ← ws_reload st;
  if (if decide (status = Unfinished) then ws_op st <? omax - 3 else false) then
    let op := ws_op st in
    st ← weight1 dt op st;
    st ← weight2 dt (op + 1) st;
    st ← weight1 dt (op + 2) st;
    st ← weight2 dt (op + 3) st;
    Ok (inl (ws_advance 4 st))
  else Ok (inr st).

(** The one-at-a-time loop, until the stream overflows. *)
Definition weights_one (dt : list FSEEntry) (omax : Z) (st : weights_state)
    : dec (weights_state + weights_state) :=
  _ ← fail_if (omax - 2 <? ws_op st) ETooManyWeights;
  st ← weight1 dt (ws_op st) st;
  let st := ws_advance 1 st in
  '(status, st) ← ws_reload st;
  if decide (status = Overflow) then
    st ← weight2 dt (ws_op st) st;
    Ok (inr (ws_advance 1 st))
  else
    _ ← fail_if (omax - 2 <? ws_op st) ETooManyWeights;
    st ← weight2 dt (ws_op st) st;
    let st := ws_advance 1 st in
    '(status, st) ← ws_reload st;
    if decide (status = Overflow) then
      st ← weight1 dt (ws_op st) st;
      Ok (inr (ws_advance 1 st))
    else Ok (inl st).

(** [fse_decompress_weights]. *)
Definition fse_decompress_weights (table : FSETable) (src out : list Z)
    : dec (list Z * Z) :=
  dt ← FseTable.decode table;
  let table_log := accuracy_log table in
  br ← BitDStream.new src;
  let '(state1, br) := read_bits br table_log in
  '(_, br) ← reload br;
  let '(state2, br) := read_bits br table_log in
  '(_, br) ← reload br;
  '(status, br) ← reload br;
  if decide (status = Overflow) then Err EWeightsStreamShort
  else
    let omax := zlen out in
    st ← loopM (length out + 1) (weights_four dt omax) (MkWS state1 state2 br out 0);
    st ← loopM (length out + 1) (weights_one dt omax) st;
    Ok (ws_out st, ws_op st).

(** ** Cells *)

(** [HuffmanEntry]. *)
Record HuffmanEntry := MkHuf {
  symbol : Z;
  nb : Z;          (* num_bits *)
}.

Definition huf_default : HuffmanEntry := MkHuf 0 0.

(** [HufEntryX2]. *)
Record HufEntryX2 := MkHufX2 {
  sequence : Z;
  nb_bits : Z;
  length_x2 : Z;   (* length *)
}.

Definition huf_x2_default : HufEntryX2 := MkHufX2 0 0 0.

(** [HufEntryX2::advance]. *)
Definition advance_x2 (e : HufEntryX2) : Z := 1 + Z.land (Z.shiftr (length_x2 e) 1) 1.

Definition HUF_FAST_TABLE_LOG : Z := HUF_TABLELOG_MAX.

(** [huf_cells]. *)
Definition huf_cells {A} (cells : list A) : dec (list A) :=
  if zlen cells =? Z.shiftl 1 HUF_FAST_TABLE_LOG then Ok cells else Err EHufUninitialized.

(** [bytemuck::cast_slice] of the cells to their [repr(C)] bytes, and back. *)
Definition x1_bytes (cells : list HuffmanEntry) : list Z :=
  concat ((fun e => [symbol e; nb e]) <$> cells).

Fixpoint x1_cells (bs : list Z) : list HuffmanEntry :=
  match bs with
  | s :: n :: bs' => MkHuf s n :: x1_cells bs'
  | _ => []
  end.

Definition x2_bytes (cells : list HufEntryX2) : list Z :=
  concat ((fun e => le_bytes 2 (sequence e) ++ [nb_bits e; length_x2 e]) <$> cells).

Fixpoint x2_cells (bs : list Z) : list HufEntryX2 :=
  match bs with
  | a :: b :: n :: l :: bs' => MkHufX2 (le_val [a; b]) n l :: x2_cells bs'
  | _ => []
  end.

(** [HUF_ALGO_TIME]. *)
Definition HUF_ALGO_TIME : list ((Z * Z) * (Z * Z)) := [
  ((0, 0), (1, 1)); ((0, 0), (1, 1)); ((150, 216), (381, 119)); ((170, 205), (514, 112));
  ((177, 199), (539, 110)); ((197, 194), (644, 107)); ((221, 192), (735, 107));
  ((256, 189), (881, 106)); ((359, 188), (1167, 109)); ((582, 187), (1570, 114));
  ((688, 187), (1712, 122)); ((825, 186), (1965, 136)); ((976, 185), (2131, 150));
  ((1180, 186), (2070, 175)); ((1377, 185), (1731, 202)); ((1412, 185), (1695, 202))].

(** [huf_select_x2]. *)
Definition huf_select_x2 (dst_size src_size : Z) : dec bool :=
  let q := if dst_size <=? src_size then 15 else src_size * 16 / dst_size in
  let d256 := wrap 32 (Z.shiftr dst_size 8) in
  '((t0, d0), (t1, d1)) ← idx HUF_ALGO_TIME q;
  let time0 := wadd 32 t0 (wmul 32 d0 d256) in
  let time1 := wadd 32 t1 (wmul 32 d1 d256) in
  let time1 := wadd 32 time1 (Z.shiftr time1 5) in
  Ok (time1 <? time0).

(** ** Packed counters *)

(** [WeightLanes]. *)
Record WeightLanes := MkLanes {
  lo : Z;
  hi : Z;
}.

Definition lanes_default : WeightLanes := MkLanes 0 0.

(** [WeightLanes::add]. *)
Definition lanes_add (l : WeightLanes) (w n : Z) : WeightLanes :=
  let v := wshl 64 n (8 * Z.land w 7) in
  if Z.land w 8 =? 0 then MkLanes (wadd 64 (lo l) v) (hi l)
  else MkLanes (lo l) (wadd 64 (hi l) v).

(** [ONE[w]] of [WeightLanes::bump]: a one in the weight's lane. *)
Definition lane_one (w : Z) : Z * Z :=
  let v := Z.shiftl 1 (8 * (w mod 8)) in
  if w / 8 =? 0 then (v, 0) else (0, v).

(** [WeightLanes::bump]. *)
Definition lanes_bump (l : WeightLanes) (w : Z) : WeightLanes :=
  let '(l1, h1) := lane_one (Z.land w 15) in
  MkLanes (wadd 64 (lo l) l1) (wadd 64 (hi l) h1).

(** [WeightLanes::get]. *)
Definition lanes_get (l : WeightLanes) (w : Z) : Z :=
  let half := if Z.land w 8 =? 0 then lo l else hi l in
  wrap 8 (Z.shiftr half (8 * Z.land w 7)).

(** ** The table *)

Record HuffmanTable := MkHT {
  ht_decode : list HuffmanEntry;
  ht_decode_x2 : list HufEntryX2;
  is_x2 : bool;
  weights : list Z;
  nb_symbols : Z;
  max_num_bits : Z;
  rank_stats : list Z;
  sorted : list Z;
  fse_table : FSETable;
}.

(** [HuffmanTable::new]. *)
Definition huf_new : HuffmanTable :=
  MkHT [] [] false (zrepeat 0 256) 0 0 (zrepeat 0 (HUF_TABLELOG_MAX + 1)) (zrepeat 0 256)
    (FseTable.new HUF_TABLELOG_MAX).

(** [HuffmanTable::copy_from]. *)
Definition copy_from (t src : HuffmanTable) : HuffmanTable :=
  let x2 := is_x2 src in
  MkHT (if x2 then ht_decode t else ht_decode src)
    (if x2 then ht_decode_x2 src else ht_decode_x2 t) x2 (weights src) (nb_symbols src)
    (max_num_bits src) (rank_stats src) (sorted src) (fse_table t).

(** [HuffmanTable::reset]. *)
Definition huf_reset (t : HuffmanTable) : HuffmanTable :=
  MkHT (ht_decode t) (ht_decode_x2 t) false (weights t) 0 0 (rank_stats t) (sorted t)
    (FseTable.reset (fse_table t)).

(** [HuffmanTable::code_len]. *)
Definition code_len (t : HuffmanTable) (symbol : Z) : dec Z :=
  w ← idx (weights t) symbol;
  Ok (max_num_bits t + 1 - w).

(** [pair[0] = b >> 4; pair[1] = b & 15] for each packed byte. *)
Fixpoint unpack_weights (weights packed : list Z) : list Z :=
  match weights, packed with
  | _ :: _ :: weights', b :: packed' =>
      Z.shiftr b 4 :: Z.land b 15 :: unpack_weights weights' packed'
  | _, _ => weights
  end.

Definition with_weights (t : HuffmanTable) (ws : list Z) (fse : FSETable) : HuffmanTable :=
  MkHT (ht_decode t) (ht_decode_x2 t) (is_x2 t) ws (nb_symbols t) (max_num_bits t)
    (rank_stats t) (sorted t) fse.

(** [HuffmanTable::read_weights]. *)
Definition read_weights (t : HuffmanTable) (source : list Z)
    : dec (HuffmanTable * (Z * Z)) :=
  header ← ok_or EHufSourceEmpty (zget source 0);
  if 128 <=? header then
    let nb_weights := header - 127 in
    let size := div_ceil nb_weights 2 in
    packed ← ok_or (ERawWeightsShort nb_weights) (zslice source 1 (1 + size));
    Ok (with_weights t (unpack_weights (weights t) packed) (fse_table t), (1 + size, nb_weights))
  else
    src ← ok_or (EWeightsShort (zlen source - 1) header) (zslice source 1 (1 + header));
    '(fse, ncount) ← FseTable.build_decoder (fse_table t) src 6 None;
    body ← slice_from src ncount;
    out ← slice (weights t) 0 255;
    '(out, nb_weights) ← fse_decompress_weights fse body out;
    Ok (with_weights t (out ++ zdrop 255 (weights t)) fse, (1 + header, nb_weights)).

(** [for (w, n) in rank_stats.iter_mut().enumerate()]. *)
Definition count_ranks (counts : WeightLanes) : list Z * Z :=
  foldl (fun '(ranks, total) w =>
      let n := lanes_get counts w in
      (ranks ++ [n], wadd 32 total (wmul 32 n (Z.shiftr (Z.shiftl 1 w) 1))))
    ([], 0) (seqZ 0 (HUF_TABLELOG_MAX + 1)).

(** [HuffmanTable::weight_stats]. *)
Definition weight_stats (t : HuffmanTable) (nb_weights : Z) : dec HuffmanTable :=
  ws ← slice (weights t) 0 nb_weights;
  let counts := foldl lanes_bump lanes_default ws in
  _ ← (if existsb (fun w => negb (lanes_get counts w =? 0))
            (seqZ (HUF_TABLELOG_MAX + 1) (16 - (HUF_TABLELOG_MAX + 1)))
       then
         w ← unwrap (List.find (fun w => HUF_TABLELOG_MAX <? w) ws);
         Err (EWeightExceeds w HUF_TABLELOG_MAX)
       else Ok tt);
  let '(ranks, weight_total) := count_ranks counts in
  _ ← fail_if (weight_total =? 0) EMissingWeights;
  table_log ← highest_bit_set weight_total;
  _ ← fail_if (HUF_TABLELOG_MAX <? table_log) (EMaxBits table_log);
  let rest := wsub 32 (Z.shiftl 1 table_log) weight_total in
  _ ← fail_if (negb (is_power_of_two rest)) (ELeftover rest);
  last_weight ← highest_bit_set rest;
  ws ← store (weights t) nb_weights (wrap 8 last_weight);
  r ← idx ranks last_weight;
  ranks ← store ranks last_weight (r + 1);
  r1 ← idx ranks 1;
  _ ← fail_if ((r1 <? 2) || negb (Z.land r1 1 =? 0)) (EWeightOne r1);
  Ok (MkHT (ht_decode t) (ht_decode_x2 t) (is_x2 t) ws (nb_weights + 1) (wrap 8 table_log)
        ranks (sorted t) (fse_table t)).

(** [HuffmanTable::sort_symbols]. *)
Definition sort_symbols (t : HuffmanTable) : dec (HuffmanTable * list Z) :=
  let '(rank_start, next, start) :=
    foldl (fun '(rank_start, next, start) '(w, n) =>
        (rank_start ++ [start], lanes_add next w start, start + n))
      ([], lanes_default, 0) (enumerate (rank_stats t)) in
  let rank_start := rank_start ++ [start] in
  ws ← slice (weights t) 0 (nb_symbols t);
  '(srt, _) ← foldM (fun '(srt, next) '(s, w) =>
      srt ← store srt (lanes_get next w) (wrap 8 s);
      Ok (srt, lanes_bump next w))
    (sorted t, next) (enumerate ws);
  Ok (MkHT (ht_decode t) (ht_decode_x2 t) (is_x2 t) (weights t) (nb_symbols t) (max_num_bits t)
        (rank_stats t) srt (fse_table t), rank_start).

(** [for (c, &s) in run.chunks_mut(k).zip(syms) { *c = f(s) }]: the whole
    chunks of [k] bytes only. *)
Fixpoint fill_chunks (k : Z) (f : Z -> list Z) (run syms : list Z) : list Z :=
  match syms with
  | [] => run
  | s :: syms' =>
      if k <=? zlen run then f s ++ fill_chunks k f (zdrop k run) syms' else run
  end.

(** [for c in r.as_chunks_mut::<32>().0 { *c = d }] over [n] bytes. *)
Definition splat32 (n : Z) (d : list Z) : list Z := concat (zrepeat d (n / 32)).

(** [d4]: a cell four times in a word. *)
Definition d4 (num_bits s : Z) : Z := wmul 64 (le_val [s; num_bits]) 0x0001000100010001.

(** The bytes [fill_x1] writes for one symbol of [length] cells. *)
Definition x1_run (length num_bits s : Z) : list Z :=
  let d := d4 num_bits s in
  if length =? 1 then le_bytes 2 (wrap 16 d)
  else if length =? 2 then le_bytes 4 (wrap 32 d)
  else if length =? 4 then le_bytes 8 d
  else if length =? 8 then le_bytes 8 d ++ le_bytes 8 d
  else splat32 (2 * length) (le_bytes 8 d ++ le_bytes 8 d ++ le_bytes 8 d ++ le_bytes 8 d).

(** One weight of [fill_x1]. *)
Definition fill_x1_weight (t : HuffmanTable) (rank_start : list Z) (max_bits rescale : Z)
    (st : list Z * Z) (w : Z) : dec (list Z * Z) :=
  let '(cells, u) := st in
  count ← idx (rank_stats t) w;
  let length := Z.shiftl 1 (w - 1 + rescale) in
  let num_bits := wrap 8 (max_bits + 1 - w) in
  a ← idx rank_start w;
  b ← idx rank_start (w + 1);
  syms ← slice (sorted t) a b;
  cells ← on_slice cells (2 * u) (2 * (u + count * length)) (fun run =>
    Ok (fill_chunks (2 * length) (x1_run length num_bits) run syms));
  Ok (cells, u + count * length).

(** [HuffmanTable::fill_x1]. *)
Definition fill_x1 (t : HuffmanTable) : dec HuffmanTable :=
  let max_bits := max_num_bits t in
  let dt_log := HUF_FAST_TABLE_LOG in
  _ ← rassert (max_bits <=? dt_log);
  let rescale := dt_log - max_bits in
  '(t, rank_start) ← sort_symbols t;
  let dt := vresize (ht_decode t) (Z.shiftl 1 dt_log) huf_default in
  '(cells, _) ← foldM (fill_x1_weight t rank_start max_bits rescale) (x1_bytes dt, 0)
                  (seqZ 1 max_bits);
  Ok (MkHT (x1_cells cells) (ht_decode_x2 t) (is_x2 t) (weights t) (nb_symbols t)
        (max_num_bits t) (rank_stats t) (sorted t) (fse_table t)).

(** ** The double-symbol table, over the cells' bytes *)

(** [huf_build_x2], as the cell's bytes. *)
Definition huf_build_x2 (symbol nb_bits base_seq level : Z) : list Z :=
  let sequence := if level =? 1 then symbol else Z.lor base_seq (wshl 16 symbol 8) in
  le_bytes 2 sequence ++ [wrap 8 nb_bits; level].

(** The bytes [huf_fill_x2_for_weight] writes for one symbol of [length] cells. *)
Definition x2_run (length nb_bits base_seq level symbol : Z) : list Z :=
  let cell := huf_build_x2 symbol nb_bits base_seq level in
  let cell2 := cell ++ cell in
  if length =? 1 then cell
  else if length =? 2 then cell2
  else if length =? 4 then cell2 ++ cell2
  else splat32 (4 * length) (cell2 ++ cell2 ++ cell2 ++ cell2).

(** [huf_fill_x2_for_weight]. *)
Definition huf_fill_x2_for_weight (dt symbols : list Z) (nb_bits target_log base_seq level : Z)
    : dec (list Z) :=
  _ ← rassert (nb_bits <=? target_log);
  let length := Z.shiftl 1 (target_log - nb_bits) in
  on_slice dt 0 (4 * (zlen symbols * length)) (fun cells =>
    Ok (fill_chunks (4 * length) (x2_run length nb_bits base_seq level) cells symbols)).

(** [n.next_multiple_of(8)]. *)
Definition next_multiple_of8 (n : Z) : Z := 8 * div_ceil n 8.

(** The [min_weight > 1] block of [huf_fill_x2_level2]. *)
Definition x2_single_run (dt rank_val : list Z) (consumed_bits min_weight base_seq : Z)
    : dec (list Z) :=
  let cell := huf_build_x2 base_seq consumed_bits 0 1 in
  let cell2 := cell ++ cell in
  skip ← idx rank_val min_weight;
  let n := zlen dt / 4 in
  if n =? 2 then copy_from_slice dt 0 (zlen dt) cell2
  else if n =? 4 then copy_from_slice dt 0 (zlen dt) (cell2 ++ cell2)
  else
    let m := 4 * next_multiple_of8 skip in
    on_slice dt 0 m (fun cells => Ok (splat32 m (cell2 ++ cell2 ++ cell2 ++ cell2))).

(** [huf_fill_x2_level2]. *)
Definition huf_fill_x2_level2 (dt : list Z) (target_log consumed_bits : Z) (rank_val : list Z)
    (min_weight max_weight1 : Z) (sorted rank_start : list Z) (nb_bits_baseline base_seq : Z)
    : dec (list Z) :=
  dt ← (if 1 <? min_weight then x2_single_run dt rank_val consumed_bits min_weight base_seq
        else Ok dt);
  foldM (fun dt w =>
      a ← idx rank_start w;
      b ← idx rank_start (w + 1);
      let nb_bits := nb_bits_baseline - w in
      start ← idx rank_val w;
      syms ← slice sorted a b;
      on_slice dt (4 * start) (zlen dt) (fun dt =>
        huf_fill_x2_for_weight dt syms (nb_bits + consumed_bits) target_log base_seq 2))
    dt (seqZ min_weight (max_weight1 - min_weight)).

(** [while self.rank_stats[max_w] == 0 { max_w -= 1 }]. *)
Definition highest_weight (rank_stats : list Z) (table_log : Z) : dec Z :=
  loopM (Z.to_nat table_log + 1) (fun w =>
      n ← idx rank_stats w;
      if n =? 0 then Ok (inl (w - 1)) else Ok (inr w)) table_log.

(** [rank_val[0]]: the first cell of each weight. *)
Definition x2_rank_val0 (rank_stats : list Z) (max_w rescale : Z) : dec (list Z * Z) :=
  foldM (fun '(row, next_val) w =>
      n ← idx rank_stats w;
      row ← store row w next_val;
      Ok (row, wadd 32 next_val (wshl 32 n (w - 1 + rescale))))
    (zrepeat 0 (HUF_TABLELOG_MAX + 1), 0) (seqZ 1 max_w).

(** The rows of [rank_val]: the first cells once some bits are consumed. *)
Definition x2_rank_val (row0 : list Z) (max_w min_bits target_log : Z) : dec (list (list Z)) :=
  foldM (fun rows consumed =>
      row ← foldM (fun row w =>
          v ← idx row0 w;
          store row w (Z.shiftr v consumed)) (zrepeat 0 (HUF_TABLELOG_MAX + 1)) (seqZ 1 max_w);
      store rows consumed row)
    (row0 :: zrepeat (zrepeat 0 (HUF_TABLELOG_MAX + 1)) (HUF_TABLELOG_MAX - 1))
    (seqZ min_bits (target_log - min_bits + 1 - min_bits)).

(** One weight of [fill_x2]. *)
Definition fill_x2_weight (sorted rank_start : list Z) (rank_val : list (list Z))
    (max_w min_bits nb_bits_baseline target_log : Z) (dt : list Z) (w : Z) : dec (list Z) :=
  a ← idx rank_start w;
  b ← idx rank_start (w + 1);
  syms ← slice sorted a b;
  let nb_bits := nb_bits_baseline - w in
  row0 ← idx rank_val 0;
  start ← idx row0 w;
  if min_bits <=? target_log - nb_bits then
    let length := Z.shiftl 1 (target_log - nb_bits) in
    let min_weight := Z.max (nb_bits + (nb_bits_baseline - target_log)) 1 in
    row ← idx rank_val nb_bits;
    '(dt, _) ← foldM (fun '(dt, start) base_seq =>
        dt ← on_slice dt (4 * start) (4 * (start + length)) (fun d =>
          huf_fill_x2_level2 d target_log nb_bits row min_weight (max_w + 1) sorted
            rank_start nb_bits_baseline base_seq);
        Ok (dt, start + length)) (dt, start) syms;
    Ok dt
  else
    on_slice dt (4 * start) (zlen dt) (fun dt =>
      huf_fill_x2_for_weight dt syms nb_bits target_log 0 1).

(** [HuffmanTable::fill_x2]. *)
Definition fill_x2 (t : HuffmanTable) : dec HuffmanTable :=
  let table_log := max_num_bits t in
  let target_log := HUF_FAST_TABLE_LOG in
  let nb_bits_baseline := table_log + 1 in
  max_w ← highest_weight (rank_stats t) table_log;
  '(t, rank_start) ← sort_symbols t;
  _ ← rassert (table_log <=? target_log);
  let rescale := target_log - table_log in
  '(row0, _) ← x2_rank_val0 (rank_stats t) max_w rescale;
  let min_bits := nb_bits_baseline - max_w in
  rank_val ← x2_rank_val row0 max_w min_bits target_log;
  let dt := vresize (ht_decode_x2 t) (Z.shiftl 1 target_log) huf_x2_default in
  cells ← foldM (fill_x2_weight (sorted t) rank_start rank_val max_w min_bits nb_bits_baseline
                   target_log) (x2_bytes dt) (seqZ 1 max_w);
  Ok (MkHT (ht_decode t) (x2_cells cells) (is_x2 t) (weights t) (nb_symbols t)
        (max_num_bits t) (rank_stats t) (sorted t) (fse_table t)).

(** [HuffmanTable::fill]. *)
Definition fill (t : HuffmanTable) (x2 : bool) : dec HuffmanTable :=
  let t := MkHT (ht_decode t) (ht_decode_x2 t) x2 (weights t) (nb_symbols t) (max_num_bits t)
             (rank_stats t) (sorted t) (fse_table t) in
  if x2 then fill_x2 t else fill_x1 t.

(** [HuffmanTable::build_decoder]. *)
Definition huf_build_decoder (t : HuffmanTable) (source : list Z) (dst_size : Z)
    (four_streams : bool) : dec (HuffmanTable * Z) :=
  let t := MkHT (ht_decode t) (ht_decode_x2 t) (is_x2 t) (weights t) (nb_symbols t) 0
             (rank_stats t) (sorted t) (fse_table t) in
  '(t, (bytes_used, nb_weights)) ← read_weights t source;
  t ← weight_stats t nb_weights;
  x2 ← (if four_streams then huf_select_x2 dst_size (zlen source) else Ok false);
  t ← fill t x2;
  Ok (t, wrap 32 bytes_used).
