(* ===== verification/HufWeights.v ===== *)
(** * Huffman tree descriptions: safety and what they denote

    [read_weights] and [weight_stats] on arbitrary bytes: no access leaves a
    buffer, the weights' decoding loops end, and the weights of a description
    that is accepted are those of a complete prefix code. *)

From S2P Require Import Prelude Words Constants Errors FseTable FseCounts FseBuild BitDStream.
From S2P Require Import HufTable.

(** ** The FSE-compressed weights *)

(** What the weights' decoder keeps: FSE states inside the table, a sound
    stream with few bits consumed past its end, and an output whose first [d]
    bytes are weights. *)
Record ws_ok (log len bound d : Z) (st : weights_state) : Prop := {
  ws_s1 : 0 <= ws_state1 st < 2 ^ log;
  ws_s2 : 0 <= ws_state2 st < 2 ^ log;
  ws_stream : stream_ok (ws_br st);
  ws_bits : bits_consumed (ws_br st) <= bound;
  ws_len : zlen (ws_out st) = len;
  ws_bytes : bytes (ws_out st);
  ws_done : forall i w, i < d -> zget (ws_out st) i = Some w -> 0 <= w <= 11;
}.

(** A table whose cells decode weights. *)
Record weights_table (log : Z) (dt : list FSEEntry) : Prop := {
  wt_log : 5 <= log <= 6;
  wt_len : zlen dt = 2 ^ log;
  wt_cell : forall i e, zget dt i = Some e -> 0 <= num_bits e <= log /\
    0 <= next_state e /\ next_state e + 2 ^ num_bits e <= 2 ^ log /\ 0 <= base_value e <= 11;
}.

Section weights.
Context (log : Z) (dt : list FSEEntry) (Hdt : weights_table log dt).

Lemma decode_weight_ok state br bound :
  0 <= state < 2 ^ log -> stream_ok br -> bits_consumed br <= bound -> bound <= 256 ->
  returns (fun '(w, s, br') => 0 <= w <= 11 /\ 0 <= s < 2 ^ log /\ stream_ok br' /\
             bits_consumed br' <= bound + 6) (decode_weight dt state br).
Proof.
  intros Hs Hok Hb Hbd. destruct Hdt as [Hlog Hl Hc]. unfold decode_weight.
  rewrite <- Hl in Hs. destruct (zget_is_Some _ _ Hs) as [e He].
  rewrite (idx_ok _ _ _ He). cbn [mbind res_bind]. unfold read_bits.
  destruct (Hc _ _ He) as (Hn & Hns & Hsum & Hbv).
  pose proof (look_bits_any_range br (num_bits e) ltac:(lia)).
  destruct (skip_bits_ok br (num_bits e) Hok ltac:(lia) ltac:(lia)) as (Hok' & _ & Hb').
  cbn [returns]. rewrite wrap_small by (cbn; lia). split_and!; done || lia.
Qed.

(** A weight stored after the first [d]. *)
Lemma ws_store out d w : 0 <= d < zlen out -> 0 <= w <= 11 ->
  (forall i x, i < d -> zget out i = Some x -> 0 <= x <= 11) ->
  forall i x, i < d + 1 -> zget (zset out d w) i = Some x -> 0 <= x <= 11.
Proof.
  intros Hd Hw Hdn i x Hi. rewrite zget_zset by done. case_bool; [|apply Hdn; lia].
  intros [= <-]. done.
Qed.

Lemma weight1_ok len bound d st :
  ws_ok log len bound d st -> bound <= 256 -> 0 <= d < len ->
  returns (fun st' => ws_ok log len (bound + 6) (d + 1) st' /\ ws_op st' = ws_op st)
    (weight1 dt d st).
Proof.
  intros [H1 H2 Hs Hb Hl Hbs Hd] Hbd Hat. unfold weight1.
  eapply returns_bind; [by eapply decode_weight_ok|].
  intros [[w s] br] (Hw & Hst & Hok & Hbr).
  rewrite store_ok by lia. cbn. split; [|done]. split; cbn; try done; try lia.
  - by rewrite zlen_zset.
  - apply Forall_zset; [done|]. unfold is_byte. lia.
  - apply ws_store; done || lia.
Qed.

Lemma weight2_ok len bound d st :
  ws_ok log len bound d st -> bound <= 256 -> 0 <= d < len ->
  returns (fun st' => ws_ok log len (bound + 6) (d + 1) st' /\ ws_op st' = ws_op st)
    (weight2 dt d st).
Proof.
  intros [H1 H2 Hs Hb Hl Hbs Hd] Hbd Hat. unfold weight2.
  eapply returns_bind; [by eapply decode_weight_ok|].
  intros [[w s] br] (Hw & Hst & Hok & Hbr).
  rewrite store_ok by lia. cbn. split; [|done]. split; cbn; try done; try lia.
  - by rewrite zlen_zset.
  - apply Forall_zset; [done|]. unfold is_byte. lia.
  - apply ws_store; done || lia.
Qed.

Lemma ws_reload_ok len bound d st : ws_ok log len bound d st -> 64 <= bound ->
  returns (fun '(status, st') => ws_op st' = ws_op st /\ ws_ok log len bound d st' /\
             (status <> Overflow -> ws_ok log len 64 d st')) (ws_reload st).
Proof.
  intros [H1 H2 Hs Hb Hl Hbs Hd] Hbd. unfold ws_reload.
  eapply returns_bind; [by apply reload_ok|].
  intros [status br] (Hov & Hsame & [Hok _ _ Hu He Hc]). cbn. split; [done|].
  assert (status <> Overflow -> bits_consumed br <= 64) as H64.
  { intros Hno. destruct status; [specialize (Hu eq_refl)|specialize (He eq_refl)
      |specialize (Hc eq_refl)|done]; lia. }
  assert (bits_consumed br <= bound).
  { destruct status; try (specialize (H64 ltac:(done)); lia). by rewrite Hsame. }
  split; [split; cbn; done|]. intros Hno. specialize (H64 Hno). split; cbn; done.
Qed.

(** Between two turns of the loops: little consumed past the container. *)
Definition ws_turn (len : Z) (st : weights_state) : Prop :=
  0 <= ws_op st <= len /\ ws_ok log len 100 (ws_op st) st.

Lemma ws_turn_intro len b st n : ws_ok log len b (ws_op st + n) st -> b <= 100 ->
  0 <= ws_op st + n <= len -> ws_turn len (ws_advance n st).
Proof. intros [] ? ?. split; cbn; [done|]. split; cbn; done || lia. Qed.

Lemma weights_four_ok len st : ws_turn len st ->
  returns (fun r => match r with
                    | inl st' => ws_turn len st' /\ ws_op st < ws_op st'
                    | inr st' => ws_turn len st'
                    end) (weights_four dt len st).
Proof.
  intros [Hop Hok]. unfold weights_four.
  eapply returns_bind; [by apply ws_reload_ok|].
  intros [status st1] (Ho1 & Hok1 & Hov). rewrite <- Ho1 in *.
  destruct (decide (status = Unfinished)) as [->|]; [|by split].
  specialize (Hov ltac:(done)).
  destruct (Z.ltb_spec (ws_op st1) (len - 3)); [|by split].
  eapply returns_bind; [apply (weight1_ok len 64 (ws_op st1)); done || lia|].
  intros st2 [Hok2 Ho2].
  eapply returns_bind; [apply (weight2_ok len 70); done || lia|]. intros st3 [Hok3 Ho3].
  replace (ws_op st1 + 1 + 1) with (ws_op st1 + 2) in * by lia.
  eapply returns_bind; [apply (weight1_ok len 76); done || lia|]. intros st4 [Hok4 Ho4].
  replace (ws_op st1 + 2 + 1) with (ws_op st1 + 3) in * by lia.
  eapply returns_bind; [apply (weight2_ok len 82); done || lia|]. intros st5 [Hok5 Ho5].
  replace (ws_op st1 + 3 + 1) with (ws_op st1 + 4) in * by lia.
  assert (ws_op st5 = ws_op st1) as Ho by congruence. rewrite <- Ho in *.
  cbn. split; [|lia]. apply (ws_turn_intro len 88); done || lia.
Qed.

(** What the second loop returns: between 2 and [len] weights. *)
Definition ws_final (len : Z) (st : weights_state) : Prop :=
  2 <= ws_op st <= len /\ ws_ok log len 112 (ws_op st) st.

Lemma ws_final_intro len b st : ws_ok log len b (ws_op st + 1) st -> b <= 112 ->
  1 <= ws_op st < len -> ws_final len (ws_advance 1 st).
Proof. intros [] ? ?. split; cbn; [lia|]. split; cbn; done || lia. Qed.

Lemma weights_one_ok len st : ws_turn len st ->
  safe (fun r => match r with
                 | inl st' => ws_turn len st' /\ ws_op st < ws_op st'
                 | inr st' => ws_final len st'
                 end) (weights_one dt len st).
Proof.
  intros [Hop Hok]. unfold weights_one.
  apply safe_fail_if. intros Hf1. bools.
  eapply safe_bind; [apply returns_safe, (weight1_ok len 100 (ws_op st)); done || lia|].
  intros st1 [Hok1 Ho1].
  eapply safe_bind; [apply returns_safe, (ws_reload_ok len 106 (ws_op st + 1))|].
  { destruct Hok1. split; done. }
  { lia. }
  intros [status st2] (Ho2 & Hok2 & Hov). cbn in Ho2.
  destruct (decide (status = Overflow)).
  - rewrite <- Ho1 in Hok2.
    eapply safe_bind; [apply returns_safe, (weight2_ok len 106 (ws_op st2))|].
    { by rewrite Ho2. }
    { lia. }
    { lia. }
    intros st3 [Hok3 Ho3]. apply safe_ok.
    apply (ws_final_intro len 112); [by rewrite Ho3|lia|lia].
  - specialize (Hov ltac:(done)). apply safe_fail_if. intros Hf2. bools.
    rewrite <- Ho1 in Hov.
    eapply safe_bind; [apply returns_safe, (weight2_ok len 64 (ws_op st2))|].
    { by rewrite Ho2. }
    { lia. }
    { lia. }
    intros st3 [Hok3 Ho3].
    eapply safe_bind; [apply returns_safe, (ws_reload_ok len 70 (ws_op st2 + 1))|].
    { destruct Hok3. split; done. }
    { lia. }
    intros [status2 st4] (Ho4 & Hok4 & Hov4). cbn in Ho4.
    destruct (decide (status2 = Overflow)).
    + eapply safe_bind; [apply returns_safe, (weight1_ok len 70 (ws_op st4))|].
      { by rewrite Ho4, Ho3. }
      { lia. }
      { lia. }
      intros st5 [Hok5 Ho5]. apply safe_ok.
      apply (ws_final_intro len 76); [by rewrite Ho5|lia|lia].
    + apply safe_ok. split; [|lia]. split; [lia|].
      rewrite Ho4, Ho3. destruct (Hov4 ltac:(done)). split; done || lia.
Qed.
End weights.

Lemma fse_decompress_weights_safe table src out :
  weights_table (accuracy_log table) (ztake (size table) (cells table)) ->
  size table = 2 ^ accuracy_log table -> size table <= zlen (cells table) ->
  bytes src -> bytes out -> zlen out = 255 ->
  safe (fun '(out', n) => zlen out' = 255 /\ bytes out' /\ 2 <= n <= 255 /\
          forall i w, i < n -> zget out' i = Some w -> 0 <= w <= 11)
    (fse_decompress_weights table src out).
Proof.
  intros Hwt Hsz Hcap Hsrc Hout Hlen. pose proof Hwt as [Hlog Hl _].
  unfold fse_decompress_weights, FseTable.decode.
  pose proof (pow2_pos (accuracy_log table) ltac:(lia)).
  rewrite slice_prefix by lia. cbn [mbind res_bind].
  set (dt := ztake _ _) in *. set (log := accuracy_log table) in *.
  pose proof (new_ok src Hsrc) as Hnew.
  destruct (BitDStream.new src) as [br| | |]; [|done..]. cbn [mbind res_bind].
  destruct Hnew as (_ & Hok & _ & Hb & _). unfold read_bits.
  pose proof (look_bits_any_range br log ltac:(lia)) as Hv1.
  destruct (skip_bits_ok br log Hok ltac:(lia) ltac:(lia)) as (Hok1 & _ & Hb1).
  eapply safe_bind; [by apply returns_safe, reload_ok|].
  intros [st1 br1] (Hov1 & Hsame1 & Hr1).
  assert (bits_consumed br1 <= 70) as Hb2.
  { destruct Hr1 as [_ _ _ Hu He Hc]. destruct st1; [specialize (Hu eq_refl)|
      specialize (He eq_refl)|specialize (Hc eq_refl)|rewrite Hsame1 by done]; lia. }
  pose proof (look_bits_any_range br1 log ltac:(lia)) as Hv2.
  pose proof (rel_ok _ _ _ Hr1) as Hok2.
  destruct (skip_bits_ok br1 log Hok2 ltac:(lia) ltac:(lia)) as (Hok3 & _ & Hb3).
  eapply safe_bind; [by apply returns_safe, reload_ok|].
  intros [st2 br2] (_ & _ & Hr2).
  eapply safe_bind; [apply returns_safe, reload_ok, (rel_ok _ _ _ Hr2)|].
  intros [st3 br3] (Hov3 & Hsame3 & Hr3).
  destruct (decide (st3 = Overflow)); [done|].
  assert (bits_consumed br3 <= 64) as Hb4.
  { destruct Hr3 as [_ _ _ Hu He Hc]. destruct st3; [specialize (Hu eq_refl)|
      specialize (He eq_refl)|specialize (Hc eq_refl)|done]; lia. }
  rewrite Hlen.
  eapply safe_bind with (ws_turn log 255).
  { apply (safe_loopM (ws_turn log 255) (fun st => Z.to_nat (255 - ws_op st))).
    - split; cbn; [lia|]. split; cbn; try done; try lia; [by apply (rel_ok _ _ _ Hr3)|].
      intros i w Hi [? _]%zget_Some. lia.
    - cbn. unfold zlen in Hlen. lia.
    - intros st Hst. eapply safe_mono; [by apply returns_safe, (weights_four_ok log dt Hwt)|].
      intros [st'|st']; [|done]. intros [Hst' Hlt]. split; [done|]. destruct Hst'. lia. }
  intros st Hst. eapply safe_bind with (ws_final log 255).
  { apply (safe_loopM (ws_turn log 255) (fun st => Z.to_nat (255 - ws_op st))).
    - done.
    - destruct Hst. unfold zlen in Hlen. lia.
    - intros s Hs. eapply safe_mono; [by apply (weights_one_ok log dt Hwt)|].
      intros [st'|st']; [|done]. intros [Hst' Hlt]. split; [done|]. destruct Hst'. lia. }
  intros st' [Hop [_ _ _ _ Hl' Hby Hd]]. apply safe_ok. split_and!; done || lia.
Qed.

(** ** The packed counters

    [lanes_are l vs]: the 16 lanes of [l] hold [vs], up to the carries of
    lanes above 255 into their neighbours. *)
Definition lanes_are (l : WeightLanes) (vs : list Z) : Prop :=
  zlen vs = 16 /\ lo l = le_val (ztake 8 vs) mod 2 ^ 64 /\ hi l = le_val (zdrop 8 vs) mod 2 ^ 64.

Lemma le_val_zset l i x v : zget l i = Some v ->
  le_val (zset l i x) = le_val l + 2 ^ (8 * i) * (x - v).
Proof.
  revert i. induction l as [|y l IH]; intros i Hi.
  - apply zget_lt in Hi. change (zlen (@nil Z)) with 0 in Hi. lia.
  - rewrite zget_cons in Hi. destruct (Z.eqb_spec i 0) as [Hi0|].
    + injection Hi as Hyv. subst i y. change (zset (v :: l) 0 x) with (x :: l).
      change (2 ^ (8 * 0)) with 1. cbn [le_val]. lia.
    + destruct (Z.ltb_spec i 0); [done|].
      assert (zset (y :: l) i x = y :: zset l (i - 1) x) as ->.
      { unfold zset. replace (Z.to_nat i) with (S (Z.to_nat (i - 1))) by lia. done. }
      cbn [le_val]. rewrite (IH _ Hi). replace (8 * i) with (8 + 8 * (i - 1)) by lia.
      rewrite pow2_add by lia. change (2 ^ 8) with 256. lia.
Qed.

Lemma ztake_zset {A} (l : list A) i x n : 0 <= i < n -> ztake n (zset l i x) = zset (ztake n l) i x.
Proof. intros. unfold ztake, zset. apply take_insert_lt. lia. Qed.

Lemma ztake_zset_ge {A} (l : list A) i x n : 0 <= n <= i -> ztake n (zset l i x) = ztake n l.
Proof. intros. unfold ztake, zset. apply take_insert_ge. lia. Qed.

Lemma zdrop_zset {A} (l : list A) i x n : 0 <= n <= i -> zdrop n (zset l i x) = zset (zdrop n l) (i - n) x.
Proof.
  intros. unfold zdrop, zset. rewrite drop_insert_ge by lia. f_equal. lia.
Qed.

Lemma zdrop_zset_lt {A} (l : list A) i x n : 0 <= i < n -> zdrop n (zset l i x) = zdrop n l.
Proof. intros. unfold zdrop, zset. apply drop_insert_lt. lia. Qed.

Lemma lanes_update l vs w n v :
  lanes_are l vs -> 0 <= w < 16 -> zget vs w = Some v ->
  lanes_are (MkLanes (wadd 64 (lo l) (if w <? 8 then wshl 64 n (8 * (w mod 8)) else 0))
                     (wadd 64 (hi l) (if w <? 8 then 0 else wshl 64 n (8 * (w mod 8)))))
    (zset vs w (v + n)).
Proof.
  intros (Hl & Hlo & Hhi) Hw Hv. unfold lanes_are. cbn. rewrite zlen_zset.
  split; [done|]. unfold wadd, wrap.
  destruct (Z.ltb_spec w 8).
  - rewrite (Z.mod_small w 8) by lia. rewrite ztake_zset, zdrop_zset_lt by lia. split.
    + rewrite (le_val_zset _ _ _ v) by (by rewrite zget_ztake by lia).
      rewrite Hlo, wshl_div by lia. rewrite Zplus_mod_idemp_l, Zplus_mod_idemp_r.
      f_equal. lia.
    + rewrite Z.add_0_r, Hhi. apply Z.mod_mod. lia.
  - replace (w mod 8) with (w - 8) by divlia. rewrite ztake_zset_ge, zdrop_zset by lia. split.
    + rewrite Z.add_0_r, Hlo. apply Z.mod_mod. lia.
    + rewrite (le_val_zset _ _ _ v).
      2: { rewrite zget_zdrop by lia. by replace (8 + (w - 8)) with w by lia. }
      rewrite Hhi, wshl_div by lia. rewrite Zplus_mod_idemp_l, Zplus_mod_idemp_r.
      f_equal. lia.
Qed.

Lemma weight_lane w : 0 <= w < 16 ->
  Z.land w 7 = w mod 8 /\ (Z.land w 8 =? 0) = (w <? 8) /\ Z.land w 15 = w /\ (w / 8 =? 0) = (w <? 8).
Proof.
  intros. assert (forallb (fun w => (Z.land w 7 =? w mod 8) &&
    Bool.eqb (Z.land w 8 =? 0) (w <? 8) && (Z.land w 15 =? w) &&
    Bool.eqb (w / 8 =? 0) (w <? 8)) (seqZ 0 16) = true) as Hall by reflexivity.
  rewrite forallb_forall in Hall. specialize (Hall w).
  assert (w ∈ seqZ 0 16) as Hin by (apply elem_of_seqZ; lia).
  apply list_elem_of_In in Hin. specialize (Hall Hin). bools.
  split_and!; try done; by apply eqb_prop.
Qed.

Lemma lanes_add_ok l vs w n v : lanes_are l vs -> 0 <= w < 16 -> zget vs w = Some v ->
  lanes_are (lanes_add l w n) (zset vs w (v + n)).
Proof.
  intros Hl Hw Hv. pose proof (lanes_update l vs w n v Hl Hw Hv) as Hu.
  destruct Hl as (_ & Hlo & Hhi).
  assert (forall x, x mod 2 ^ 64 mod 2 ^ 64 = x mod 2 ^ 64) as Hmm by (intros; apply Z.mod_mod; lia).
  unfold lanes_add. destruct (weight_lane w Hw) as (-> & -> & _ & _).
  destruct (w <? 8).
  - destruct Hu as (Hu1 & Hu2 & Hu3). cbn in Hu2, Hu3. split_and!; [done|done|]. cbn.
    rewrite <- Hu3. unfold wadd, wrap. by rewrite Z.add_0_r, Hhi, Hmm.
  - destruct Hu as (Hu1 & Hu2 & Hu3). cbn in Hu2, Hu3. split_and!; [done| |done]. cbn.
    rewrite <- Hu2. unfold wadd, wrap. by rewrite Z.add_0_r, Hlo, Hmm.
Qed.

Lemma lanes_bump_ok l vs w v : lanes_are l vs -> 0 <= w < 16 -> zget vs w = Some v ->
  lanes_are (lanes_bump l w) (zset vs w (v + 1)).
Proof.
  intros Hl Hw Hv. pose proof (lanes_update l vs w 1 v Hl Hw Hv) as Hu.
  unfold lanes_bump, lane_one. destruct (weight_lane w Hw) as (_ & _ & -> & ->).
  assert (Z.shiftl 1 (8 * (w mod 8)) = wshl 64 1 (8 * (w mod 8))) as ->.
  { unfold wshl. rewrite wrap_small; [done|]. rewrite Z.shiftl_1_l.
    assert (0 <= w mod 8 < 8) by divlia. pose proof (pow2_pos (8 * (w mod 8)) ltac:(lia)).
    pose proof (pow2_lt (8 * (w mod 8)) 64 ltac:(lia)). lia. }
  destruct (w <? 8); exact Hu.
Qed.

Lemma lane_get bs j v : zlen bs = 8 -> 0 <= j < 8 -> zget bs j = Some v -> bytes (ztake j bs) ->
  wrap 8 (Z.shiftr (le_val bs mod 2 ^ 64) (8 * j)) = v mod 256.
Proof.
  intros Hl Hj Hv Hb. pose proof Hv as [_ Hn]%zget_Some.
  assert (le_val bs = le_val (ztake j bs) + 2 ^ (8 * j) * (v + 256 * le_val (zdrop (j + 1) bs))) as Hsp.
  { rewrite <- (take_drop_middle _ _ _ Hn) at 1. rewrite le_val_app. unfold ztake, zdrop.
    replace (Z.to_nat (j + 1)) with (S (Z.to_nat j)) by lia. cbn [le_val].
    fold (ztake j bs). rewrite zlen_ztake by lia. lia. }
  pose proof (le_val_range _ Hb) as Hr. rewrite zlen_ztake in Hr by lia.
  unfold wrap. change 256 with (2 ^ 8). rewrite shiftr_div by lia.
  assert ((le_val bs mod 2 ^ 64 / 2 ^ (8 * j)) mod 2 ^ 8 = (le_val bs / 2 ^ (8 * j)) mod 2 ^ 8) as ->.
  { apply Z.bits_inj'. intros i Hi. destruct (Z.ltb_spec i 8).
    - rewrite !Z.mod_pow2_bits_low, !Z.div_pow2_bits, Z.mod_pow2_bits_low by lia. done.
    - rewrite !Z.mod_pow2_bits_high by lia. done. }
  rewrite Hsp, (Z.mul_comm (2 ^ _)), Z.div_add by (apply Z.pow_nonzero; lia).
  rewrite Z.div_small by lia. rewrite Z.add_0_l, Z.mul_comm. change (2 ^ 8) with 256.
  apply Z.mod_add. lia.
Qed.

Lemma lanes_get_ok l vs w v :
  lanes_are l vs -> 0 <= w < 16 -> zget vs w = Some v ->
  (forall i x, i < w -> zget vs i = Some x -> is_byte x) ->
  lanes_get l w = v mod 256.
Proof.
  intros (Hl & Hlo & Hhi) Hw Hv Hb. unfold lanes_get.
  destruct (weight_lane w Hw) as (-> & -> & _ & _).
  assert (forall k m, m <= w -> bytes (ztake k (ztake m vs))) as Hbt.
  { intros k m Hm. apply Forall_take, Forall_forall. intros x Hx.
    apply list_elem_of_lookup_1 in Hx as [i Hi]. rewrite <- zget_nat in Hi.
    unfold ztake in Hi. rewrite zget_nat in Hi. apply lookup_take_Some in Hi as [Hi Hlt].
    apply (Hb (Z.of_nat i)); [lia|]. by rewrite zget_nat. }
  destruct (Z.ltb_spec w 8).
  - rewrite Hlo, (Z.mod_small w 8) by lia. apply lane_get; [rewrite zlen_ztake; lia|lia| |].
    + by rewrite zget_ztake by lia.
    + rewrite ztake_ztake by lia. rewrite <- (ztake_ztake vs w w) by lia. by apply Hbt.
  - rewrite Hhi. replace (w mod 8) with (w - 8) by divlia.
    apply lane_get; [rewrite zlen_zdrop; lia|lia| |].
    + rewrite zget_zdrop by lia. by replace (8 + (w - 8)) with w by lia.
    + apply Forall_forall. intros x Hx. apply list_elem_of_lookup_1 in Hx as [i Hi].
      unfold ztake, zdrop in Hi. apply lookup_take_Some in Hi as [Hi Hlt].
      rewrite lookup_drop in Hi. apply (Hb (Z.of_nat (8 + i))); [lia|].
      rewrite zget_nat. rewrite <- Hi. f_equal.
Qed.

Lemma lanes_default_ok : lanes_are lanes_default (zrepeat 0 16).
Proof. done. Qed.

(** Counting weights in the lanes. *)
Lemma lanes_count ws l vs : lanes_are l vs -> Forall (fun w => 0 <= w < 16) ws ->
  exists vs', lanes_are (foldl lanes_bump l ws) vs' /\
    forall w v, zget vs w = Some v -> zget vs' w = Some (v + occurrences w ws).
Proof.
  intros Hl Hws. revert l vs Hl. induction Hws as [|w ws Hw Hws IH]; intros l vs Hl; cbn.
  - exists vs. split; [done|]. intros w v ->. change (occurrences w []) with 0. f_equal. lia.
  - pose proof Hl as (Hlen & _). destruct (zget_is_Some vs w ltac:(lia)) as [v Hv].
    destruct (IH _ _ (lanes_bump_ok l vs w v Hl Hw Hv)) as (vs' & Hl' & Hg).
    exists vs'. split; [done|]. intros x y Hx. rewrite occurrences_cons.
    destruct (Z.eqb_spec w x) as [->|].
    + rewrite (Hg x (v + 1)); [f_equal; assert (y = v) by congruence; lia|].
      rewrite zget_zset_eq; [done|lia].
    + rewrite (Hg x y); [f_equal; lia|]. rewrite zget_zset_ne by lia. done.
Qed.

Lemma occurrences_le w ws : occurrences w ws <= zlen ws.
Proof.
  unfold occurrences, zlen. pose proof (length_filter (fun x => x = w) ws). lia.
Qed.

Lemma lanes_get_count ws w : Forall (fun w => 0 <= w < 16) ws -> zlen ws <= 255 -> 0 <= w < 16 ->
  lanes_get (foldl lanes_bump lanes_default ws) w = occurrences w ws.
Proof.
  intros Hws Hlen Hw.
  destruct (lanes_count ws _ _ lanes_default_ok Hws) as (vs & Hl & Hg).
  assert (forall i, 0 <= i < 16 -> zget vs i = Some (occurrences i ws)) as Hv.
  { intros i Hi. rewrite (Hg i 0); [done|]. by apply zget_zrepeat. }
  rewrite (lanes_get_ok _ vs w _ Hl Hw (Hv w Hw)).
  - apply Z.mod_small. pose proof (occurrences_nonneg w ws). pose proof (occurrences_le w ws). lia.
  - intros i x Hi Hx. pose proof (zget_lt _ _ _ Hx) as Hr. destruct Hl as (Hlv & _).
    rewrite Hv in Hx by lia. injection Hx as <-. unfold is_byte.
    pose proof (occurrences_nonneg i ws). pose proof (occurrences_le i ws). lia.
Qed.

(** ** The statistics *)

(** The cells a weight's symbol takes of a table of one weight-1 cell each. *)
Definition cell_share (w : Z) : Z := 2 ^ w / 2.

Definition kraft (ws : list Z) : Z := foldr (fun w a => cell_share w + a) 0 ws.

(** The weights of a complete prefix code: those of the [nb_symbols] first
    symbols fill a table of [2 ^ max_num_bits] cells. *)
Record complete (t : HuffmanTable) : Prop := {
  cc_len : zlen (weights t) = 256;
  cc_bytes : bytes (weights t);
  cc_symbols : 1 <= nb_symbols t <= 256;
  cc_log : 1 <= max_num_bits t <= HUF_TABLELOG_MAX;
  cc_weights : Forall (fun w => 0 <= w <= max_num_bits t) (ztake (nb_symbols t) (weights t));
  cc_ranks : rank_stats t =
    (fun w => occurrences w (ztake (nb_symbols t) (weights t))) <$> seqZ 0 12;
  cc_kraft : kraft (ztake (nb_symbols t) (weights t)) = 2 ^ max_num_bits t;
  cc_leaves : 2 <= occurrences 1 (ztake (nb_symbols t) (weights t));
}.

Lemma cell_share_pow w : 1 <= w -> cell_share w = 2 ^ (w - 1).
Proof.
  intros. unfold cell_share. replace w with (1 + (w - 1)) at 1 by lia.
  rewrite pow2_add by lia. change (2 ^ 1) with 2. rewrite Z.mul_comm. apply Z.div_mul. lia.
Qed.

Lemma cell_share_0 : cell_share 0 = 0.
Proof. done. Qed.

Lemma cell_share_nonneg w : 0 <= cell_share w.
Proof. unfold cell_share. apply Z.div_pos; [apply Z.pow_nonneg; lia|lia]. Qed.

Lemma kraft_app l1 l2 : kraft (l1 ++ l2) = kraft l1 + kraft l2.
Proof. induction l1; cbn; [done|]. unfold kraft in *. lia. Qed.

Lemma kraft_nonneg l : 0 <= kraft l.
Proof.
  induction l as [|w l IH]; cbn; [done|]. pose proof (cell_share_nonneg w). unfold kraft in *. lia.
Qed.

Lemma kraft_bound l : Forall (fun w => 0 <= w <= 11) l -> kraft l <= 1024 * zlen l.
Proof.
  induction 1 as [|w l Hw Hl IH]; [done|]. rewrite zlen_cons. cbn. unfold kraft in *.
  assert (cell_share w <= 1024); [|lia].
  destruct (Z.eq_dec w 0) as [->|]; [done|]. rewrite cell_share_pow by lia.
  pose proof (pow2_le (w - 1) 10 ltac:(lia)). change (2 ^ 10) with 1024 in *. lia.
Qed.

Lemma kraft_member l w : w ∈ l -> w <> 1 -> cell_share w + occurrences 1 l <= kraft l.
Proof.
  intros Hin Hne. induction l as [|x l IH]; [by apply not_elem_of_nil in Hin|].
  rewrite occurrences_cons. unfold kraft. cbn [foldr]. fold (kraft l).
  assert (forall l', occurrences 1 l' <= kraft l') as Hocc.
  { induction l' as [|y l' IH']; [done|]. rewrite occurrences_cons. unfold kraft. cbn [foldr].
    fold (kraft l'). pose proof (cell_share_nonneg y).
    destruct (Z.eqb_spec y 1) as [->|]; [change (cell_share 1) with 1|]; lia. }
  apply elem_of_cons in Hin as [->|Hin].
  - destruct (Z.eqb_spec x 1); [done|]. specialize (Hocc l). lia.
  - specialize (IH Hin). pose proof (cell_share_nonneg x).
    destruct (Z.eqb_spec x 1) as [->|]; [change (cell_share 1) with 1|]; lia.
Qed.

(** The shares of the weights, summed by weight. *)
Definition rank_sum (g : Z -> Z) (l : list Z) : Z := foldr (fun w a => g w * cell_share w + a) 0 l.

Lemma rank_sum_ext g h l : (forall w, w ∈ l -> g w = h w) -> rank_sum g l = rank_sum h l.
Proof.
  induction l as [|w l IH]; intros Hg; [done|]. unfold rank_sum in *. cbn [foldr].
  rewrite IH by (intros; apply Hg; by right). by rewrite (Hg w) by left.
Qed.

Lemma rank_sum_cons_ne ws x l : x ∉ l ->
  rank_sum (fun w => occurrences w (x :: ws)) l = rank_sum (fun w => occurrences w ws) l.
Proof.
  intros Hx. induction l as [|y l IH]; [done|]. apply not_elem_of_cons in Hx as [Hne Hx].
  unfold rank_sum in *. cbn [foldr]. rewrite IH by done. rewrite occurrences_cons.
  destruct (Z.eqb_spec x y); [done|]. lia.
Qed.

Lemma rank_sum_cons ws x l : NoDup l -> x ∈ l ->
  rank_sum (fun w => occurrences w (x :: ws)) l =
  cell_share x + rank_sum (fun w => occurrences w ws) l.
Proof.
  induction 1 as [|y l Hy Hnd IH]; intros Hx; [by apply not_elem_of_nil in Hx|].
  apply elem_of_cons in Hx as [->|Hx].
  - unfold rank_sum. cbn [foldr].
    change (foldr _ 0 l) with (rank_sum (fun w => occurrences w (y :: ws)) l) at 1.
    rewrite rank_sum_cons_ne by done. rewrite occurrences_cons, Z.eqb_refl.
    unfold rank_sum. lia.
  - specialize (IH Hx). unfold rank_sum in *. cbn [foldr]. rewrite IH.
    rewrite occurrences_cons. destruct (Z.eqb_spec x y); [by subst|]. lia.
Qed.

Lemma rank_sum_kraft ws : Forall (fun w => 0 <= w <= 11) ws ->
  rank_sum (fun w => occurrences w ws) (seqZ 0 12) = kraft ws.
Proof.
  induction 1 as [|w ws Hw Hws IH]; [done|].
  rewrite rank_sum_cons, IH; [done|apply NoDup_seqZ|apply elem_of_seqZ; lia].
Qed.

Lemma count_ranks_fold g l r t0 :
  (forall w, w ∈ l -> 0 <= w <= 11 /\ 0 <= g w) -> 0 <= t0 -> t0 + rank_sum g l < 2 ^ 32 ->
  foldl (fun '(ranks, total) w =>
      (ranks ++ [g w], wadd 32 total (wmul 32 (g w) (Z.shiftr (Z.shiftl 1 w) 1)))) (r, t0) l
  = (r ++ (g <$> l), t0 + rank_sum g l).
Proof.
  revert r t0. induction l as [|w l IH]; intros r t0 Hg Ht0 Hs.
  - cbn. rewrite app_nil_r. f_equal. lia.
  - cbn [foldl]. unfold rank_sum in Hs. cbn [foldr] in Hs. fold (rank_sum g l) in Hs.
    destruct (Hg w ltac:(left)) as [Hw Hgw].
    assert (0 <= rank_sum g l) as Hnn.
    { assert (forall x, x ∈ l -> 0 <= g x) as Hl by (intros; apply Hg; by right).
      clear -Hl. induction l as [|y l IH]; [done|]. unfold rank_sum in *. cbn [foldr].
      specialize (IH ltac:(intros; apply Hl; by right)). specialize (Hl y ltac:(left)).
      pose proof (cell_share_nonneg y). nia. }
    pose proof (cell_share_nonneg w).
    assert (Z.shiftr (Z.shiftl 1 w) 1 = cell_share w) as ->.
    { rewrite Z.shiftl_1_l, shiftr_div by lia. done. }
    unfold wadd, wmul. rewrite (wrap_small 32 (g w * _)) by nia.
    rewrite wrap_small by nia.
    rewrite IH; [|intros; apply Hg; by right|nia|lia].
    rewrite <- app_assoc. unfold rank_sum. cbn [foldr fmap list_fmap app]. f_equal. lia.
Qed.

Lemma is_power_of_two_spec x : is_power_of_two x = true -> 0 < x /\ x = 2 ^ Z.log2 x.
Proof. unfold is_power_of_two. intros. bools. done. Qed.

Lemma forall_occurrences ws : Forall (fun w => 0 <= w < 16) ws ->
  (forall w, 12 <= w < 16 -> occurrences w ws = 0) -> Forall (fun w => 0 <= w <= 11) ws.
Proof.
  intros Hws Hz. rewrite Forall_forall in *. intros w Hw. specialize (Hws w Hw).
  destruct (Z_le_gt_dec w 11); [lia|]. exfalso. specialize (Hz w ltac:(lia)).
  unfold occurrences, zlen in Hz.
  assert (w ∈ filter (fun x => x = w) ws) as Hin by (by apply list_elem_of_filter).
  destruct (filter _ ws); [by apply not_elem_of_nil in Hin|]. cbn in Hz. lia.
Qed.

Lemma find_weight ws w : 12 <= w -> occurrences w ws <> 0 ->
  is_Some (List.find (fun w => HUF_TABLELOG_MAX <? w) ws).
Proof.
  intros Hw Ho. destruct (List.find _ ws) as [x|] eqn:Hf; [by exists x|]. exfalso.
  unfold occurrences in Ho. apply Ho.
  rewrite filter_false; [done|]. intros x Hx ->.
  pose proof (find_none _ _ Hf w (proj1 (list_elem_of_In _ _) Hx)) as Hn. bools.
  unfold HUF_TABLELOG_MAX in Hn. lia.
Qed.

(** The weight that completes the sum to a power of two. *)
Lemma last_weight_ok total :
  1 <= total -> Z.log2 total + 1 <= 11 ->
  let rest := 2 ^ (Z.log2 total + 1) - total in
  is_power_of_two rest = true ->
  1 <= Z.log2 rest + 1 <= Z.log2 total + 1 /\ cell_share (Z.log2 rest + 1) = rest /\
  0 < rest < 2 ^ 32.
Proof.
  intros Ht Hlog rest Hp. apply is_power_of_two_spec in Hp as [Hr Hpow].
  pose proof (Z.log2_nonneg total). pose proof (Z.log2_spec total ltac:(lia)) as [H1 H2].
  pose proof (Z.log2_nonneg rest).
  assert (rest <= 2 ^ Z.log2 total) as Hle.
  { subst rest. rewrite pow2_add by lia. change (2 ^ 1) with 2. lia. }
  split_and!.
  - lia.
  - assert (Z.log2 rest <= Z.log2 (2 ^ Z.log2 total)) as Hl by (apply Z.log2_le_mono; lia).
    rewrite Z.log2_pow2 in Hl by lia. lia.
  - rewrite cell_share_pow by lia. rewrite Z.add_simpl_r. by rewrite <- Hpow.
  - done.
  - pose proof (pow2_le (Z.log2 total) 10 ltac:(lia)). change (2 ^ 10) with 1024 in *.
    change (2 ^ 32) with 4294967296. lia.
Qed.

Lemma ztake_S {A} (l : list A) n x : zget l n = Some x -> ztake (n + 1) l = ztake n l ++ [x].
Proof.
  intros Hx. pose proof (zget_lt _ _ _ Hx). apply zget_Some in Hx as [_ Hx].
  unfold ztake. replace (Z.to_nat (n + 1)) with (S (Z.to_nat n)) by lia. by apply take_S_r.
Qed.

(** The fields [weight_stats] leaves alone. *)
Definition same_tables (t t' : HuffmanTable) : Prop :=
  ht_decode t' = ht_decode t /\ ht_decode_x2 t' = ht_decode_x2 t /\ is_x2 t' = is_x2 t /\
  sorted t' = sorted t /\ fse_table t' = fse_table t.

Lemma zset_fmap_rank ws last :
  0 <= last <= 11 ->
  zset ((fun w => occurrences w ws) <$> seqZ 0 12) last (occurrences last ws + 1) =
  (fun w => occurrences w (ws ++ [last])) <$> seqZ 0 12.
Proof.
  intros Hl.
  assert (forall f : Z -> Z, zlen (f <$> seqZ 0 12) = 12) as Hlen by (intros; by rewrite zlen_fmap).
  apply zlist_eq; [by rewrite zlen_zset, !Hlen|].
  intros i Hi. rewrite zlen_zset, Hlen in Hi. rewrite zget_zset by (rewrite Hlen; lia).
  rewrite !zget_fmap, seqZ_zget by done. cbn [fmap option_fmap option_map].
  rewrite occurrences_app, occurrences_cons. change (occurrences _ []) with 0.
  rewrite !Z.add_0_l. destruct (Z.eqb_spec last i) as [->|]; f_equal; lia.
Qed.

Lemma weight_stats_ok t n :
  zlen (weights t) = 256 -> bytes (weights t) -> 1 <= n <= 255 ->
  Forall (fun w => 0 <= w < 16) (ztake n (weights t)) ->
  safe (fun t' => complete t' /\ nb_symbols t' = n + 1 /\
          ztake n (weights t') = ztake n (weights t) /\ same_tables t t') (weight_stats t n).
Proof.
  intros Hlen Hb Hn Hws. unfold weight_stats.
  rewrite slice_prefix by lia. cbn [mbind res_bind].
  set (ws := ztake n (weights t)) in *.
  assert (zlen ws = n) as Hwl by (apply zlen_ztake; lia).
  assert (forall w, 0 <= w < 16 -> lanes_get (foldl lanes_bump lanes_default ws) w = occurrences w ws)
    as Hget by (intros; apply lanes_get_count; done || lia).
  set (counts := foldl lanes_bump lanes_default ws) in *. clearbody counts.
  eapply safe_bind with (fun _ => Forall (fun w => 0 <= w <= 11) ws).
  { destruct (existsb _ _) eqn:Hex.
    - apply existsb_exists in Hex as (w & Hin & Hw). apply list_elem_of_In in Hin.
      apply elem_of_seqZ in Hin. unfold HUF_TABLELOG_MAX in Hin. bools.
      rewrite Hget in Hw by lia. apply safe_unwrap; [by apply (find_weight ws w); [lia|]|].
      intros; done.
    - apply safe_ok. apply forall_occurrences; [done|]. intros w Hw.
      rewrite <- Hget by lia. destruct (Z.eq_dec (lanes_get counts w) 0) as [|Hne]; [done|].
      exfalso. assert (existsb (fun w => negb (lanes_get counts w =? 0))
        (seqZ (HUF_TABLELOG_MAX + 1) (16 - (HUF_TABLELOG_MAX + 1))) = true); [|congruence].
      apply existsb_exists. exists w. split.
      + apply list_elem_of_In, elem_of_seqZ. unfold HUF_TABLELOG_MAX. lia.
      + by apply negb_true_iff, Z.eqb_neq. }
  intros _ Hw11. pose proof (rank_sum_kraft ws Hw11) as Hrs.
  pose proof (kraft_bound ws Hw11) as Hkb. pose proof (kraft_nonneg ws) as Hkn.
  assert (rank_sum (lanes_get counts) (seqZ 0 12) = kraft ws) as Hrs'.
  { rewrite <- Hrs. apply rank_sum_ext. intros w Hw%elem_of_seqZ. apply Hget. lia. }
  assert (lanes_get counts <$> seqZ 0 12 = (fun w => occurrences w ws) <$> seqZ 0 12) as Hrk.
  { apply list_fmap_ext. intros i w Hi. apply lookup_seqZ in Hi. apply Hget. lia. }
  unfold count_ranks. change (HUF_TABLELOG_MAX + 1) with 12.
  rewrite count_ranks_fold; [|..].
  2: { intros w Hw%elem_of_seqZ. split; [lia|]. rewrite Hget by lia. apply occurrences_nonneg. }
  2: lia.
  2: { rewrite Hrs'. change (2 ^ 32) with 4294967296. lia. }
  rewrite app_nil_l, Hrk, Hrs', Z.add_0_l. cbn [mbind res_bind].
  apply safe_fail_if. intros Hz. bools.
  rewrite highest_bit_set_spec by (change (2 ^ 32) with 4294967296; lia).
  cbn [mbind res_bind]. apply safe_fail_if. intros Hmax. bools. unfold HUF_TABLELOG_MAX in Hmax.
  set (total := kraft ws) in *. pose proof (Z.log2_nonneg total).
  rewrite Z.shiftl_1_l.
  pose proof (Z.log2_spec total ltac:(lia)) as [_ Hl2]. unfold Z.succ in Hl2.
  pose proof (pow2_le (Z.log2 total + 1) 11 ltac:(lia)) as Hp11. change (2 ^ 11) with 2048 in Hp11.
  unfold wsub. rewrite (wrap_small 32 (2 ^ (Z.log2 total + 1) - total))
    by (change (2 ^ 32) with 4294967296; lia).
  apply safe_fail_if. intros Hp2. bools.
  destruct (last_weight_ok total ltac:(lia) ltac:(lia) Hp2) as (Hlast & Hshare & Hrest).
  rewrite highest_bit_set_spec by done. cbn [mbind res_bind].
  set (last := Z.log2 (2 ^ (Z.log2 total + 1) - total) + 1) in *.
  rewrite (wrap_small 8 last) by (cbn; lia).
  rewrite store_ok by lia. cbn [mbind res_bind].
  rewrite (idx_ok _ _ (occurrences last ws)) by
    (rewrite zget_fmap, seqZ_zget by lia; cbn; by rewrite Z.add_0_l).
  cbn [mbind res_bind]. rewrite store_ok by (rewrite zlen_fmap, zlen_seqZ; lia). cbn [mbind res_bind].
  rewrite zset_fmap_rank by lia.
  rewrite (idx_ok _ 1 (occurrences 1 (ws ++ [last]))) by (rewrite zget_fmap, seqZ_zget by lia; done).
  cbn [mbind res_bind]. apply safe_fail_if. intros Hl1. bools.
  rewrite (wrap_small 8 (Z.log2 total + 1)) by (cbn; lia).
  assert (ztake (n + 1) (zset (weights t) n last) = ws ++ [last]) as Hts.
  { rewrite (ztake_S _ n last) by (apply zget_zset_eq; lia).
    rewrite ztake_zset_ge by lia. done. }
  apply safe_ok. split_and!; cbn; [|done| |by split_and!].
  - split; cbn; rewrite ?Hts; unfold HUF_TABLELOG_MAX; try done; try lia.
    + by rewrite zlen_zset.
    + apply Forall_zset; [done|]. unfold is_byte. lia.
    + apply Forall_app. split; [|constructor; [lia|constructor]].
      rewrite Forall_forall in *. intros w Hw. specialize (Hw11 w Hw). split; [lia|].
      destruct (Z.eq_dec w 1) as [->|Hne1]; [lia|]. destruct (Z.eq_dec w 0) as [->|]; [lia|].
      pose proof (kraft_member (ws ++ [last]) w ltac:(apply elem_of_app; by left) Hne1) as Hk.
      rewrite kraft_app in Hk. unfold kraft at 2 in Hk. cbn [foldr] in Hk.
      rewrite cell_share_pow in Hk by lia. fold total in Hk.
      destruct (Z_le_gt_dec w (Z.log2 total + 1)); [done|].
      pose proof (pow2_le (Z.log2 total + 1) (w - 1) ltac:(lia)). lia.
    + rewrite kraft_app. unfold kraft at 2. cbn [foldr]. fold total. lia.
  - rewrite ztake_zset_ge by lia. done.
Qed.

(** ** Reading the weights *)

(** What every [HuffmanTable] of the decoder satisfies. *)
Record huf_wf (t : HuffmanTable) : Prop := {
  wf_weights : zlen (weights t) = 256;
  wf_bytes : bytes (weights t);
  wf_sorted : zlen (sorted t) = 256;
  wf_fse : max_symbol (fse_table t) = HUF_TABLELOG_MAX;
}.

Lemma huf_new_wf : huf_wf huf_new.
Proof. split; try done. apply Forall_zrepeat. done. Qed.

Lemma byte_nibbles b : is_byte b -> 0 <= Z.shiftr b 4 < 16 /\ 0 <= Z.land b 15 < 16.
Proof.
  unfold is_byte. intros. rewrite shiftr_div by lia. change (2 ^ 4) with 16.
  replace (Z.land b 15) with (b mod 16) by (symmetry; apply (land_mod b 4); lia). divlia.
Qed.

Lemma unpack_weights_ok ws packed n : bytes ws -> bytes packed -> n <= 2 * zlen packed ->
  2 * zlen packed <= zlen ws ->
  zlen (unpack_weights ws packed) = zlen ws /\ bytes (unpack_weights ws packed) /\
  Forall (fun w => 0 <= w < 16) (ztake n (unpack_weights ws packed)).
Proof.
  intros Hws Hp. revert ws n Hws. induction Hp as [|b packed Hb Hp IH]; intros ws n Hws Hn Hl.
  - change (zlen (@nil Z)) with 0 in *.
    assert (unpack_weights ws [] = ws) as -> by (by destruct ws as [|? []]).
    split_and!; [done|done|]. unfold ztake. replace (Z.to_nat n) with 0%nat by lia. constructor.
  - rewrite zlen_cons in *. pose proof (zlen_nonneg packed).
    destruct ws as [|w1 [|w2 ws]]; [change (zlen (@nil Z)) with 0 in Hl; lia|
      rewrite zlen_cons in Hl; change (zlen (@nil Z)) with 0 in Hl; lia|].
    rewrite !zlen_cons in Hl. inversion Hws as [|? ? Hw1 Hws1]; subst.
    inversion Hws1 as [|? ? Hw2 Hws2]; subst.
    destruct (byte_nibbles b Hb) as [Hh Hlo].
    destruct (IH ws (n - 2) Hws2 ltac:(lia) ltac:(lia)) as (IH1 & IH2 & IH3).
    cbn [unpack_weights]. rewrite !zlen_cons, IH1. split; [done|]. split.
    + repeat constructor; try done; lia.
    + unfold ztake in *. destruct (Z.to_nat n) as [|[|k]] eqn:Hk; cbn [take firstn];
        [apply List.Forall_nil|apply List.Forall_cons; [lia|apply List.Forall_nil]|].
      apply List.Forall_cons; [lia|]. apply List.Forall_cons; [lia|].
      replace (Z.to_nat (n - 2)) with k in IH3 by lia. exact IH3.
Qed.

(** A table the builder makes of symbols up to 11 decodes weights. *)
Lemma built_weights_table log counts t syms :
  log <= 6 -> tiles HUF_TABLELOG_MAX log counts -> built None log counts t syms ->
  weights_table log (ztake (2 ^ log) (cells t)).
Proof.
  intros Hlog Ht Hb. pose proof (built_states _ _ _ _ _ _ Ht ltac:(by vm_compute) Hb) as Hst.
  pose proof Hb as [_ _ _ Hcap Hsp Hcell]. pose proof Ht as [_ _ Hcl Hl5].
  unfold ACC_LOG_OFFSET, HUF_TABLELOG_MAX in *. pose proof (pow2_pos log ltac:(lia)).
  assert (zlen (ztake (2 ^ log) (cells t)) = 2 ^ log) as Hlen by (apply zlen_ztake; lia).
  split; [lia|done|].
  intros i e He. pose proof (zget_lt _ _ _ He) as Hi. rewrite Hlen in Hi.
  rewrite zget_ztake in He by lia.
  destruct (Hst i Hi) as (e' & He' & Hn & Hns & Hsum). assert (e' = e) as -> by congruence.
  rewrite <- (spread_len _ _ _ Hsp) in Hi. destruct (zget_is_Some _ _ Hi) as [s Hs].
  destruct (Hcell i s Hs) as (e'' & He'' & _ & _ & Hbv). assert (e'' = e) as -> by congruence.
  destruct (counter_range log 11 counts syms Ht ltac:(lia) Hsp i s Hs) as (c & Hc & Hsr & _ & _).
  apply zget_lt in Hc. split_and!; done || lia.
Qed.

Lemma read_weights_ok t source : huf_wf t -> bytes source ->
  safe (fun '(t', (used, n)) => huf_wf t' /\ 1 <= used <= zlen source /\ used <= 128 /\ 1 <= n <= 255 /\
          Forall (fun w => 0 <= w < 16) (ztake n (weights t')) /\
          ht_decode t' = ht_decode t /\ ht_decode_x2 t' = ht_decode_x2 t /\
          is_x2 t' = is_x2 t /\ sorted t' = sorted t)
    (read_weights t source).
Proof.
  intros [Hw Hb Hs Hf] Hsrc. unfold read_weights. apply safe_ok_or. intros header Hh.
  pose proof (Forall_zget _ _ _ _ Hsrc Hh) as Hhb. unfold is_byte in Hhb.
  apply zget_lt in Hh. destruct (Z.leb_spec 128 header).
  - set (n := header - 127). assert (0 <= div_ceil n 2 <= 64 /\ n <= 2 * div_ceil n 2) as [Hd Hd2].
    { unfold div_ceil, n. divlia. }
    apply safe_ok_or. intros packed Hp. pose proof (zslice_Some _ _ _ _ Hp) as (_ & Hpl & _ & Hpz).
    apply safe_ok. pose proof (Forall_slice _ _ _ _ _ Hsrc Hp) as Hpb.
    destruct (unpack_weights_ok (weights t) packed n Hb Hpb) as (H1 & H2 & H3); [lia..|].
    split_and!; cbn; try done; try lia. split; cbn; try done. lia.
  - apply safe_ok_or. intros src Hsl. pose proof (zslice_Some _ _ _ _ Hsl) as (_ & Hpl & _ & Hpz).
    pose proof (Forall_slice _ _ _ _ _ Hsrc Hsl) as Hsb.
    eapply safe_bind; [apply build_decoder_safe; [done|rewrite Hf; by vm_compute|by vm_compute|done]|].
    intros [fse ncount] [(log & counts & syms & Hn & Hlog & Ht & Hbt) Hms]. cbn in Hn, Hbt, Hms.
    rewrite Hf in *. rewrite slice_from_ok by lia. cbn [mbind res_bind].
    rewrite slice_prefix by lia. cbn [mbind res_bind].
    assert (accuracy_log fse = log) as Hal by apply Hbt.
    assert (size fse = 2 ^ log) as Hsz by apply Hbt.
    eapply safe_bind.
    + apply fse_decompress_weights_safe.
      * rewrite Hal, Hsz. by eapply built_weights_table.
      * by rewrite Hal.
      * rewrite Hsz. apply Hbt.
      * by apply Forall_drop.
      * by apply Forall_take.
      * apply zlen_ztake. lia.
    + intros [out nb] (Ho1 & Ho2 & Ho3 & Ho4). apply safe_ok.
      assert (zlen (out ++ zdrop 255 (weights t)) = 256) as Hl256
        by (rewrite zlen_app, zlen_zdrop by lia; lia).
      split_and!; cbn; try done; try lia.
      * split; cbn; try done. apply Forall_app. split; [done|]. by apply Forall_drop.
      * rewrite ztake_app_le by lia. apply Forall_forall. intros w Hw'.
        apply list_elem_of_lookup_1 in Hw' as [i Hi]. unfold ztake in Hi.
        apply lookup_take_Some in Hi as [Hi Hlt].
        assert (0 <= w <= 11); [|lia]. apply (Ho4 (Z.of_nat i)); [lia|]. by rewrite zget_nat.
Qed.

(** The tree description, read and checked. *)
Definition read_tree (t : HuffmanTable) (source : list Z) : dec (HuffmanTable * Z) :=
  '(t, (used, n)) ← read_weights t source;
  t ← weight_stats t n;
  Ok (t, used).

Lemma read_tree_ok t source : huf_wf t -> bytes source ->
  safe (fun '(t', used) => complete t' /\ huf_wf t' /\ 1 <= used <= zlen source)
    (read_tree t source).
Proof.
  intros Hwf Hs. unfold read_tree. eapply safe_bind; [by apply read_weights_ok|].
  intros [t1 [used n]] ([Hw1 Hb1 Hs1 Hf1] & Hu & _ & Hn & Hws & _).
  eapply safe_bind; [by apply weight_stats_ok|].
  intros t2 (Hc & _ & _ & Hst). apply safe_ok. split; [done|]. split; [|done].
  destruct Hst as (_ & _ & _ & Hso & Hfs). destruct Hc. split; try done; congruence.
Qed.

(** C20: Reading a Huffman tree description is safe and sound: on every byte
    string, raw or FSE-compressed, it never leaves a buffer and its loops end;
    a description it accepts is at most the input long and its weights are
    those of a complete prefix code of at most 256 symbols and 11 bits: the
    symbols' shares of the code space, weight 0 for none, sum to exactly
    [2 ^ max_num_bits], and the counts per weight the tables are built from are
    the weights' own. *)
Theorem huffman_description_sound t source :
  huf_wf t -> bytes source ->
  match read_tree t source with
  | Ok (t', used) => complete t' /\ 1 <= used <= zlen source
  | Err _ => True
  | Fault | Stuck => False
  end.
Proof.
  intros Hwf Hs. pose proof (read_tree_ok t source Hwf Hs) as H.
  destruct (read_tree t source) as [[t' used]| | |]; cbn in H; tauto.
Qed.

Lemma huffman_description_sound_witness :
  exists t', read_tree huf_new [132; 0x11; 0x23; 0x40; 0; 0; 0; 0] = Ok (t', 4) /\
    complete t' /\ max_num_bits t' = 5.
Proof.
  assert (bytes [132; 0x11; 0x23; 0x40; 0; 0; 0; 0]) as Hb by (repeat constructor; unfold is_byte; lia).
  pose proof (huffman_description_sound huf_new _ huf_new_wf Hb) as H.
  destruct (read_tree huf_new [132; 0x11; 0x23; 0x40; 0; 0; 0; 0]) as [[t' n]|e| |] eqn:E;
    [|vm_compute in E; discriminate E..].
  destruct H as [Hc _]. exists t'.
  assert (n = 4 /\ max_num_bits t' = 5) as [-> Hm] by (vm_compute in E; by injection E as <- <-).
  split; [done|]. by split.
Defined.
