(* ===== verification/HufFill.v ===== *)
(** * The single-symbol Huffman table

    [sort_symbols] orders the symbols by weight and [fill_x1] tiles the table
    with them; the result is the canonical prefix code's lookup table: looking
    up any 11 bits that begin with a symbol's code gives that symbol. *)

From stdpp Require Import sorting.
From S2P Require Import Prelude Words Constants Errors FseTable FseCounts FseBuild BitDStream.
From S2P Require Import HufTable HufWeights.

(** ** The reference table *)

(** The symbols of weight [w], in order. *)
Definition symbols_of (ws : list Z) (w : Z) : list Z :=
  filter (fun s => zget ws s = Some w) (seqZ 0 (zlen ws)).

(** Where the symbols of weight [w] start among the sorted symbols. *)
Definition rank_from (ws : list Z) (w : Z) : Z := zlen (filter (fun x => x < w) ws).

(** The runs of equal cells of the table: those of weight 1 first. *)
Definition x1_runs (ws : list Z) (max_bits : Z) : list (Z * HuffmanEntry) :=
  concat ((fun w =>
    (fun s => (2 ^ (w - 1 + (HUF_FAST_TABLE_LOG - max_bits)), MkHuf s (max_bits + 1 - w)))
      <$> symbols_of ws w) <$> seqZ 1 max_bits).

Definition expand_runs (runs : list (Z * HuffmanEntry)) : list HuffmanEntry :=
  concat ((fun '(n, e) => zrepeat e n) <$> runs).

(** The code's weights. *)
Definition code_weights (t : HuffmanTable) : list Z := ztake (nb_symbols t) (weights t).

(** The table of the code. *)
Definition x1_table (t : HuffmanTable) : list HuffmanEntry :=
  expand_runs (x1_runs (code_weights t) (max_num_bits t)).

(** A lookup table of a prefix code: every cell with a given cell's leading
    bits, as many as the cell says, is that cell. *)
Record prefix_table (dt : list HuffmanEntry) : Prop := {
  pt_len : zlen dt = 2 ^ HUF_FAST_TABLE_LOG;
  pt_cell : forall i e, zget dt i = Some e ->
    1 <= nb e <= HUF_FAST_TABLE_LOG /\ is_byte (symbol e);
  pt_prefix : forall i j e, zget dt i = Some e -> 0 <= j ->
    i / 2 ^ (HUF_FAST_TABLE_LOG - nb e) = j / 2 ^ (HUF_FAST_TABLE_LOG - nb e) ->
    zget dt j = Some e;
}.

(** ** Sorting the symbols *)

Lemma rank_from_0 ws : Forall (fun w => 0 <= w) ws -> rank_from ws 0 = 0.
Proof.
  intros H. unfold rank_from. rewrite filter_false; [done|].
  rewrite Forall_forall in H. intros x Hx. specialize (H x Hx). lia.
Qed.

Lemma rank_from_S ws w : rank_from ws (w + 1) = rank_from ws w + occurrences w ws.
Proof.
  unfold rank_from, occurrences. induction ws as [|x ws IH]; [done|].
  rewrite !filter_cons.
  destruct (decide (x < w + 1)), (decide (x < w)), (decide (x = w)); try lia;
    rewrite ?zlen_cons; lia.
Qed.

Lemma rank_from_mono ws a b : a <= b -> rank_from ws a <= rank_from ws b.
Proof.
  intros H. replace b with (a + Z.of_nat (Z.to_nat (b - a))) by lia.
  induction (Z.to_nat (b - a)) as [|k IH]; [by rewrite Z.add_0_r|].
  rewrite Nat2Z.inj_succ. unfold Z.succ. rewrite Z.add_assoc, rank_from_S.
  pose proof (occurrences_nonneg (a + Z.of_nat k) ws). lia.
Qed.

Lemma rank_from_le ws w : 0 <= rank_from ws w <= zlen ws.
Proof.
  split; [apply zlen_nonneg|]. unfold rank_from, zlen.
  pose proof (length_filter (fun x => x < w) ws). lia.
Qed.

Lemma rank_from_all ws w : Forall (fun x => x < w) ws -> rank_from ws w = zlen ws.
Proof.
  intros H. unfold rank_from. rewrite filter_true; [done|]. by apply Forall_forall.
Qed.

(** The symbols of weight [w] among the first [k]. *)
Definition symbols_upto (ws : list Z) (w k : Z) : list Z :=
  filter (fun s => zget ws s = Some w) (seqZ 0 k).

Lemma symbols_upto_S ws w k x : 0 <= k -> zget ws k = Some x ->
  symbols_upto ws w (k + 1) = symbols_upto ws w k ++ (if x =? w then [k] else []).
Proof.
  intros Hk Hx. unfold symbols_upto. rewrite seqZ_app, filter_app by lia.
  f_equal. rewrite Z.add_0_l. change (seqZ k 1) with [k].
  rewrite filter_cons. rewrite filter_nil.
  destruct (decide _) as [Hd|Hd], (Z.eqb_spec x w); congruence || done.
Qed.

Lemma zlen_symbols_upto ws w k : 0 <= k <= zlen ws ->
  zlen (symbols_upto ws w k) = occurrences w (ztake k ws).
Proof.
  intros Hk. rewrite <- (Z2Nat.id k) by lia. assert (Z.of_nat (Z.to_nat k) <= zlen ws) as Hl by lia.
  clear Hk. induction (Z.to_nat k) as [|n IH]; [done|].
  rewrite Nat2Z.inj_succ in *. unfold Z.succ in *. specialize (IH ltac:(lia)).
  destruct (zget_is_Some ws (Z.of_nat n) ltac:(lia)) as [x Hx].
  rewrite (symbols_upto_S _ _ _ x) by (done || lia). rewrite zlen_app, IH.
  destruct (Z.eqb_spec x w) as [->|].
  - destruct (occurrences_ztake_lt w ws _ Hx) as [-> _]. done.
  - rewrite (occurrences_ztake_ne w x) by done. change (zlen (@nil Z)) with 0. lia.
Qed.

(** The first loop: the start of each weight, in the list and in the lanes. *)
Lemma rank_starts_fold ws rs next vs w0 k :
  0 <= w0 -> 0 <= k -> w0 + k <= 16 -> lanes_are next vs ->
  (forall w, w0 <= w < w0 + k -> zget vs w = Some 0) ->
  exists next' vs',
    foldl (fun '(rank_start, next, start) '(w, n) =>
        (rank_start ++ [start], lanes_add next w start, start + n))
      (rs, next, rank_from ws w0)
      (enum_from w0 ((fun w => occurrences w ws) <$> seqZ w0 k)) =
    (rs ++ (rank_from ws <$> seqZ w0 k), next', rank_from ws (w0 + k)) /\
    lanes_are next' vs' /\
    (forall w, w0 <= w < w0 + k -> zget vs' w = Some (rank_from ws w)) /\
    (forall w, w < w0 -> zget vs' w = zget vs w).
Proof.
  intros Hw0 Hk. rewrite <- (Z2Nat.id k) by lia. clear Hk. revert rs next vs w0 Hw0.
  induction (Z.to_nat k) as [|n IH]; intros rs next vs w0 Hw0 Hk16 Hl Hz.
  - exists next, vs. change (Z.of_nat 0) with 0. rewrite Z.add_0_r.
    change (seqZ w0 0) with (@nil Z). cbn. rewrite app_nil_r. split_and!; try done. lia.
  - rewrite Nat2Z.inj_succ in *. rewrite seqZ_cons by lia. rewrite Z.pred_succ.
    cbn [fmap list_fmap]. rewrite enum_from_cons. cbn [foldl].
    rewrite <- rank_from_S.
    pose proof (lanes_add_ok next vs w0 (rank_from ws w0) 0 Hl ltac:(lia) (Hz w0 ltac:(lia))) as Hl1.
    rewrite Z.add_0_l in Hl1. unfold Z.succ in *.
    pose proof Hl as (Hlen & _).
    destruct (IH (rs ++ [rank_from ws w0]) _ _ (w0 + 1) ltac:(lia) ltac:(lia) Hl1)
      as (next' & vs' & Heq & Hl' & Hv & Hk').
    { intros w Hw. rewrite zget_zset_ne by lia. apply Hz. lia. }
    exists next', vs'. rewrite Heq, <- app_assoc. split_and!.
    + cbn. do 2 f_equal. lia.
    + done.
    + intros w Hw. destruct (Z.eq_dec w w0) as [->|]; [|apply Hv; lia].
      rewrite Hk' by lia. rewrite zget_zset_eq by lia. done.
    + intros w Hw. rewrite Hk' by lia. by rewrite zget_zset_ne by lia.
Qed.

(** Between two turns of the second loop: [k] symbols are placed. *)
Definition sorting (ws : list Z) (k : Z) (st : list Z * WeightLanes) : Prop :=
  zlen st.1 = 256 /\
  (exists vs, lanes_are st.2 vs /\ forall w, 0 <= w < 12 ->
     zget vs w = Some (rank_from ws w + occurrences w (ztake k ws))) /\
  (forall w j s, 0 <= w < 12 -> zget (symbols_upto ws w k) j = Some s ->
     zget st.1 (rank_from ws w + j) = Some s).

Lemma sort_step_ok ws k w st :
  Forall (fun w => 0 <= w < 12) ws -> zlen ws <= 256 -> zget ws k = Some w -> sorting ws k st ->
  returns (sorting ws (k + 1))
    (let '(srt, next) := st in
     srt ← store srt (lanes_get next w) (wrap 8 k);
     Ok (srt, lanes_bump next w) : dec _).
Proof.
  intros Hws Hlen Hk. destruct st as [srt next]. intros (Hl & (vs & Hvs & Hv) & Hs). cbn in *.
  pose proof (zget_lt _ _ _ Hk) as Hkr.
  pose proof (Forall_zget _ _ _ _ Hws Hk) as Hw. cbn in Hw.
  destruct (occurrences_ztake_lt w ws k Hk) as [Hoc1 Hoc2].
  pose proof (occurrences_nonneg w (ztake k ws)).
  pose proof (rank_from_S ws w) as HS. pose proof (rank_from_le ws (w + 1)).
  pose proof (rank_from_le ws w).
  set (p := rank_from ws w + occurrences w (ztake k ws)) in *.
  assert (lanes_get next w = p) as ->.
  { rewrite (lanes_get_ok next vs w p Hvs ltac:(lia) (Hv w ltac:(lia))).
    - apply Z.mod_small. lia.
    - intros i x Hi Hx. pose proof (zget_lt _ _ _ Hx). rewrite Hv in Hx by lia.
      injection Hx as <-. unfold is_byte. pose proof (occurrences_nonneg i (ztake k ws)).
      pose proof (rank_from_le ws i). pose proof (rank_from_S ws i).
      pose proof (rank_from_mono ws (i + 1) w ltac:(lia)).
      pose proof (occurrences_app i (ztake k ws) (zdrop k ws)) as Happ.
      unfold ztake, zdrop in Happ. rewrite take_drop in Happ.
      pose proof (occurrences_nonneg i (drop (Z.to_nat k) ws)). unfold ztake in *. lia. }
  rewrite store_ok by lia. cbn [mbind res_bind returns]. rewrite wrap_small by (cbn; lia).
  split_and!; cbn.
  - by rewrite zlen_zset.
  - exists (zset vs w (p + 1)). pose proof Hvs as (Hvl & _). split.
    + apply lanes_bump_ok; [done|lia|by apply Hv; lia].
    + intros x Hx. rewrite zget_zset by lia. destruct (Z.eqb_spec w x) as [<-|].
      * rewrite Hoc1. f_equal. lia.
      * rewrite (occurrences_ztake_ne x w) by done. by apply Hv.
  - intros x j s Hx Hj. rewrite (symbols_upto_S ws x k w) in Hj by (done || lia).
    pose proof (zlen_symbols_upto ws x k ltac:(lia)) as Hsl.
    pose proof (zget_lt _ _ _ Hj) as Hjr. rewrite zlen_app in Hjr.
    rewrite zget_zset by lia. destruct (Z.eqb_spec w x) as [<-|Hne].
    + change (zlen [k]) with 1 in Hjr. destruct (Z.eq_dec j (occurrences w (ztake k ws))) as [->|].
      * rewrite zget_app_r in Hj by lia. rewrite Hsl, Z.sub_diag in Hj. injection Hj as <-.
        by rewrite Z.eqb_refl.
      * rewrite zget_app_l in Hj by lia. destruct (Z.eqb_spec p (rank_from ws w + j)); [lia|].
        by apply Hs.
    + rewrite app_nil_r in Hj. change (zlen (@nil Z)) with 0 in Hjr.
      assert (p <> rank_from ws x + j).
      { pose proof (occurrences_app x (ztake k ws) (zdrop k ws)) as Happ.
        unfold ztake, zdrop in Happ. rewrite take_drop in Happ.
        pose proof (occurrences_nonneg x (drop (Z.to_nat k) ws)).
        pose proof (rank_from_S ws x). unfold ztake in *.
        destruct (Z_lt_dec w x).
        - pose proof (rank_from_mono ws (w + 1) x ltac:(lia)). lia.
        - pose proof (rank_from_mono ws (x + 1) w ltac:(lia)). lia. }
      destruct (Z.eqb_spec p (rank_from ws x + j)); [done|]. by apply Hs.
Qed.

Lemma zlen_code_weights t : complete t -> zlen (code_weights t) = nb_symbols t.
Proof. intros []. apply zlen_ztake. lia. Qed.

Lemma code_weights_small t : complete t -> Forall (fun w => 0 <= w < 12) (code_weights t).
Proof.
  intros [_ _ _ Hl Hw _ _ _]. eapply Forall_impl; [exact Hw|]. cbn. intros w Hr.
  unfold HUF_TABLELOG_MAX in Hl. lia.
Qed.

(** What sorting gives: the symbols of each weight between its starts. *)
Definition symbols_sorted (ws srt : list Z) : Prop :=
  zlen srt = 256 /\ forall w, 0 <= w < 12 ->
    zslice srt (rank_from ws w) (rank_from ws (w + 1)) = Some (symbols_of ws w).

Lemma sorted_slices ws srt next : Forall (fun w => 0 <= w < 12) ws -> zlen ws <= 256 ->
  sorting ws (zlen ws) (srt, next) -> symbols_sorted ws srt.
Proof.
  intros Hws Hl (Hlen & _ & Hs). cbn in *. split; [done|]. intros w Hw.
  pose proof (rank_from_S ws w) as HS. pose proof (rank_from_le ws (w + 1)).
  pose proof (rank_from_le ws w). pose proof (occurrences_nonneg w ws).
  rewrite zslice_ok by lia. f_equal.
  assert (zlen (symbols_of ws w) = occurrences w ws) as Hsy.
  { pose proof (zlen_symbols_upto ws w (zlen ws) ltac:(lia)) as Hz.
    rewrite ztake_all in Hz by lia. exact Hz. }
  apply zlist_eq.
  - rewrite zlen_ztake; [lia|]. rewrite zlen_zdrop; lia.
  - intros i Hi. rewrite zlen_ztake in Hi by (rewrite zlen_zdrop; lia).
    rewrite zget_ztake, zget_zdrop by lia.
    destruct (zget_is_Some (symbols_of ws w) i ltac:(lia)) as [s Hsi].
    rewrite Hsi. by apply Hs.
Qed.

Lemma sort_symbols_ok t : complete t -> zlen (sorted t) = 256 ->
  exists srt, symbols_sorted (code_weights t) srt /\
    sort_symbols t =
      Ok (MkHT (ht_decode t) (ht_decode_x2 t) (is_x2 t) (weights t) (nb_symbols t)
            (max_num_bits t) (rank_stats t) srt (fse_table t),
          rank_from (code_weights t) <$> seqZ 0 13).
Proof.
  intros Hc Hsl. pose proof (zlen_code_weights t Hc) as Hwl.
  pose proof (code_weights_small t Hc) as Hws.
  pose proof Hc as [Hlen Hb Hn Hlog Hw Hr _ _].
  unfold sort_symbols. rewrite Hr. fold (code_weights t) in *.
  set (ws := code_weights t) in *.
  assert (rank_from ws 0 = 0) as H0.
  { apply rank_from_0. eapply Forall_impl; [exact Hws|]. cbn. lia. }
  destruct (rank_starts_fold ws [] lanes_default (zrepeat 0 16) 0 12) as (next & vs & Heq & Hl & Hv & _);
    [lia|lia|lia|done|intros w Hw'; by apply zget_zrepeat; lia|].
  rewrite H0, app_nil_l, Z.add_0_l in Heq. rewrite enumerate_enum, Heq.
  rewrite slice_prefix by lia. cbn [mbind res_bind]. fold (code_weights t). fold ws.
  assert (returns (sorting ws (zlen ws))
    (foldM (fun '(srt, next) '(s, w) =>
        srt ← store srt (lanes_get next w) (wrap 8 s);
        Ok (srt, lanes_bump next w)) (sorted t, next) (enumerate ws) : dec _)) as Hret.
  { assert (zlen ws = Z.of_nat (length (enumerate ws))) as ->
      by (unfold enumerate; by rewrite length_imap).
    apply (returns_foldM (fun k => sorting ws (Z.of_nat k))).
    - split_and!; cbn; [done| |].
      + exists vs. split; [done|]. intros w Hw'. rewrite Hv by lia.
        change (occurrences w (ztake (Z.of_nat 0) ws)) with 0. f_equal. lia.
      + intros w j s _ []%zget_Some. done.
    - intros k [s w] st Hk Hst. unfold enumerate in Hk. rewrite list_lookup_imap in Hk.
      destruct (ws !! k) as [w'|] eqn:Hwk; [|done]. cbn in Hk. injection Hk as <- <-.
      rewrite Nat2Z.inj_succ. unfold Z.succ.
      destruct st as [srt nx]. apply (sort_step_ok ws (Z.of_nat k) w' (srt, nx) Hws); [lia|by rewrite zget_nat|done]. }
  destruct (returns_inv _ _ Hret) as ([srt next'] & Hfold & Hsort). rewrite Hfold. cbn [mbind res_bind].
  exists srt. split; [eapply sorted_slices; done || lia|].
  assert (seqZ 0 13 = seqZ 0 12 ++ [12]) as -> by reflexivity.
  by rewrite fmap_app.
Qed.

(** ** Writing the cells *)

Lemma x1_bytes_app l1 l2 : x1_bytes (l1 ++ l2) = x1_bytes l1 ++ x1_bytes l2.
Proof. unfold x1_bytes. by rewrite fmap_app, concat_app. Qed.

Lemma zlen_x1_bytes l : zlen (x1_bytes l) = 2 * zlen l.
Proof.
  induction l as [|e l IH]; [done|]. change (e :: l) with ([e] ++ l) at 1.
  rewrite x1_bytes_app, zlen_app, zlen_cons, IH. change (zlen (x1_bytes [e])) with 2. lia.
Qed.

Lemma x1_cells_bytes l : x1_cells (x1_bytes l) = l.
Proof.
  induction l as [|[s n] l IH]; [done|]. change (x1_bytes (MkHuf s n :: l)) with (s :: n :: x1_bytes l).
  cbn [x1_cells]. by rewrite IH.
Qed.

Lemma d4_bytes b s : is_byte b -> is_byte s ->
  le_bytes 8 (d4 b s) = [s; b; s; b; s; b; s; b] /\
  le_bytes 4 (wrap 32 (d4 b s)) = [s; b; s; b] /\
  le_bytes 2 (wrap 16 (d4 b s)) = [s; b].
Proof.
  unfold is_byte. intros Hb Hs.
  assert (bytes [s; b; s; b; s; b; s; b]) as Hbs by solve_bytes.
  assert (d4 b s = le_val [s; b; s; b; s; b; s; b]) as ->.
  { unfold d4, wmul. cbn [le_val]. rewrite wrap_small by lia. lia. }
  split_and!.
  - apply (le_bytes_le_val _ Hbs).
  - unfold wrap. change (2 ^ 32) with (2 ^ (8 * 4)).
    destruct (le_val_take_drop [s; b; s; b; s; b; s; b] 4 Hbs) as [<- _]; [done|].
    apply (le_bytes_le_val [s; b; s; b]). solve_bytes.
  - unfold wrap. change (2 ^ 16) with (2 ^ (8 * 2)).
    destruct (le_val_take_drop [s; b; s; b; s; b; s; b] 2 Hbs) as [<- _]; [done|].
    apply (le_bytes_le_val [s; b]). solve_bytes.
Qed.

Lemma x1_run_ok m b s : 0 <= m <= 10 -> is_byte b -> is_byte s ->
  x1_run (2 ^ m) b s = x1_bytes (zrepeat (MkHuf s b) (2 ^ m)).
Proof.
  intros Hm Hb Hs. destruct (d4_bytes b s Hb Hs) as (H8 & H4 & H2).
  unfold x1_run. rewrite H8, H4, H2. clear -Hm.
  assert (m = 0 \/ m = 1 \/ m = 2 \/ m = 3 \/ m = 4 \/ m = 5 \/ m = 6 \/ m = 7 \/ m = 8 \/
          m = 9 \/ m = 10) as Hc by lia.
  destruct_or! Hc; subst; vm_compute; reflexivity.
Qed.

Lemma fill_chunks_ok k f run syms : 1 <= k -> Forall (fun s => zlen (f s) = k) syms ->
  zlen run = k * zlen syms -> fill_chunks k f run syms = concat (f <$> syms).
Proof.
  intros Hk Hf. revert run. induction Hf as [|s syms Hs Hf IH]; intros run Hr; cbn.
  - destruct run; [done|]. rewrite zlen_cons in Hr. change (zlen (@nil Z)) with 0 in Hr.
    pose proof (zlen_nonneg run). lia.
  - rewrite zlen_cons in Hr. pose proof (zlen_nonneg syms).
    destruct (Z.leb_spec k (zlen run)); [|nia]. rewrite IH; [done|].
    rewrite zlen_zdrop by lia. lia.
Qed.

(** The table after the weights up to [k]. *)
Definition runs_upto (ws : list Z) (max_bits k : Z) : list (Z * HuffmanEntry) :=
  concat ((fun w =>
    (fun s => (2 ^ (w - 1 + (HUF_FAST_TABLE_LOG - max_bits)), MkHuf s (max_bits + 1 - w)))
      <$> symbols_of ws w) <$> seqZ 1 k).

Lemma expand_runs_app r1 r2 : expand_runs (r1 ++ r2) = expand_runs r1 ++ expand_runs r2.
Proof. unfold expand_runs. by rewrite fmap_app, concat_app. Qed.

Lemma runs_upto_S ws max_bits k : 0 <= k ->
  runs_upto ws max_bits (k + 1) = runs_upto ws max_bits k ++
    ((fun s => (2 ^ (k + (HUF_FAST_TABLE_LOG - max_bits)), MkHuf s (max_bits - k)))
      <$> symbols_of ws (k + 1)).
Proof.
  intros Hk. unfold runs_upto. rewrite seqZ_app, fmap_app, concat_app by lia.
  change (seqZ (1 + k) 1) with [1 + k]. cbn [fmap list_fmap concat]. rewrite app_nil_r.
  f_equal. rewrite (Z.add_comm 1 k). apply list_fmap_ext. intros _ s _.
  do 2 f_equal; lia.
Qed.

Lemma expand_run_const n (f : Z -> HuffmanEntry) syms : 0 <= n ->
  expand_runs ((fun s => (n, f s)) <$> syms) = concat ((fun s => zrepeat (f s) n) <$> syms) /\
  zlen (expand_runs ((fun s => (n, f s)) <$> syms)) = zlen syms * n.
Proof.
  intros Hn. unfold expand_runs. split.
  - by rewrite <- list_fmap_compose.
  - induction syms as [|s syms IH]; [done|]. rewrite !fmap_cons. cbn [concat].
    rewrite zlen_app, zlen_cons, IH, zlen_zrepeat by lia. lia.
Qed.

Lemma zlen_symbols_of ws w : zlen (symbols_of ws w) = occurrences w ws.
Proof.
  pose proof (zlen_symbols_upto ws w (zlen ws)) as H. rewrite ztake_all in H by lia.
  apply H. pose proof (zlen_nonneg ws). lia.
Qed.

Lemma rank_sum_app g l1 l2 : rank_sum g (l1 ++ l2) = rank_sum g l1 + rank_sum g l2.
Proof. induction l1 as [|x l1 IH]; [done|]. unfold rank_sum in *. cbn [foldr app]. lia. Qed.

Lemma rank_sum_nonneg ws l : 0 <= rank_sum (fun w => occurrences w ws) l.
Proof.
  induction l as [|w l IH]; [done|]. unfold rank_sum in *. cbn [foldr].
  pose proof (occurrences_nonneg w ws). pose proof (cell_share_nonneg w). nia.
Qed.

Lemma zlen_table_upto ws max_bits k : 0 <= k -> max_bits <= HUF_FAST_TABLE_LOG ->
  zlen (expand_runs (runs_upto ws max_bits k)) =
  2 ^ (HUF_FAST_TABLE_LOG - max_bits) * rank_sum (fun w => occurrences w ws) (seqZ 1 k).
Proof.
  intros Hk Hm. rewrite <- (Z2Nat.id k) by lia. clear Hk. induction (Z.to_nat k) as [|n IH].
  - rewrite Z.mul_0_r. done.
  - rewrite Nat2Z.inj_succ. unfold Z.succ. rewrite runs_upto_S by lia.
    rewrite expand_runs_app, zlen_app, IH.
    pose proof (pow2_pos (Z.of_nat n + (HUF_FAST_TABLE_LOG - max_bits)) ltac:(lia)).
    destruct (expand_run_const (2 ^ (Z.of_nat n + (HUF_FAST_TABLE_LOG - max_bits)))
      (fun s => MkHuf s (max_bits - Z.of_nat n)) (symbols_of ws (Z.of_nat n + 1)) ltac:(lia))
      as [_ ->].
    rewrite zlen_symbols_of, seqZ_app, rank_sum_app by lia.
    change (seqZ (1 + Z.of_nat n) 1) with [1 + Z.of_nat n]. unfold rank_sum at 3. cbn [foldr].
    rewrite cell_share_pow by lia. rewrite pow2_add by lia.
    replace (1 + Z.of_nat n - 1) with (Z.of_nat n) by lia. rewrite (Z.add_comm 1). lia.
Qed.

Lemma rank_sum_kraft_list ws l : NoDup l -> 0 ∉ l -> Forall (fun w => w = 0 \/ w ∈ l) ws ->
  rank_sum (fun w => occurrences w ws) l = kraft ws.
Proof.
  intros Hnd H0. induction 1 as [|w ws Hw Hws IH].
  - induction l as [|x l IHl]; [done|]. apply NoDup_cons in Hnd as [_ Hnd].
    apply not_elem_of_cons in H0 as [_ H0]. unfold rank_sum in *. cbn [foldr].
    change (occurrences x []) with 0. rewrite IHl by done. lia.
  - destruct Hw as [->|Hw].
    + rewrite rank_sum_cons_ne by done. rewrite IH. done.
    + by rewrite rank_sum_cons, IH.
Qed.

Lemma zlen_x1_table t : complete t -> zlen (x1_table t) = 2 ^ HUF_FAST_TABLE_LOG.
Proof.
  intros [_ _ _ Hl Hw _ Hk _]. unfold x1_table.
  change HUF_TABLELOG_MAX with HUF_FAST_TABLE_LOG in Hl.
  pose proof (zlen_table_upto (code_weights t) (max_num_bits t) (max_num_bits t)
    ltac:(lia) ltac:(lia)) as Hz. unfold runs_upto in Hz. unfold x1_runs. rewrite Hz.
  rewrite rank_sum_kraft_list.
  - unfold code_weights. rewrite Hk. rewrite <- pow2_add by (unfold HUF_FAST_TABLE_LOG in *; lia).
    f_equal. lia.
  - apply NoDup_seqZ.
  - rewrite elem_of_seqZ. lia.
  - unfold code_weights. eapply Forall_impl; [exact Hw|]. cbn. intros w Hr.
    rewrite elem_of_seqZ. lia.
Qed.

Lemma on_slice_ok {A} (l : list A) a b (f : list A -> dec (list A)) s' :
  0 <= a <= b -> b <= zlen l -> f (ztake (b - a) (zdrop a l)) = Ok s' ->
  on_slice l a b f = Ok (ztake a l ++ s' ++ zdrop b l).
Proof. intros. unfold on_slice. rewrite slice_ok by lia. cbn. by rewrite H1. Qed.

Section fill.
Context (t : HuffmanTable) (srt : list Z).
Context (Hc : complete t) (Hs : symbols_sorted (code_weights t) srt).

Local Abbreviation ws := (code_weights t).
Local Abbreviation max_bits := (max_num_bits t).
Local Abbreviation rescale := (HUF_FAST_TABLE_LOG - max_bits).
Local Abbreviation upto k := (expand_runs (runs_upto ws max_bits k)).

Definition sorted_table : HuffmanTable :=
  MkHT (ht_decode t) (ht_decode_x2 t) (is_x2 t) (weights t) (nb_symbols t)
    (max_num_bits t) (rank_stats t) srt (fse_table t).

Local Lemma max_bits_range : 1 <= max_bits <= HUF_FAST_TABLE_LOG.
Proof. apply Hc. Qed.

Lemma upto_le k : 0 <= k <= max_bits -> zlen (upto k) <= 2048.
Proof.
  intros Hk. pose proof max_bits_range. change 2048 with (2 ^ HUF_FAST_TABLE_LOG).
  rewrite <- (zlen_x1_table t Hc). unfold x1_table. fold (runs_upto ws max_bits max_bits).
  change (x1_runs ws max_bits) with (runs_upto ws max_bits max_bits).
  rewrite !zlen_table_upto by lia. pose proof (pow2_pos rescale ltac:(lia)).
  assert (seqZ 1 max_bits = seqZ 1 k ++ seqZ (1 + k) (max_bits - k)) as ->
    by (rewrite <- seqZ_app by lia; f_equal; lia).
  rewrite rank_sum_app.
  pose proof (rank_sum_nonneg ws (seqZ (1 + k) (max_bits - k))). nia.
Qed.

(** The fill after the weights up to [k]. *)
Definition filling (k : Z) (st : list Z * Z) : Prop :=
  zlen st.1 = 4096 /\ st.2 = zlen (upto k) /\ ztake (2 * st.2) st.1 = x1_bytes (upto k).

Lemma symbols_of_bytes w : Forall is_byte (symbols_of ws w).
Proof.
  apply Forall_forall. intros s Hin. apply list_elem_of_filter in Hin as [_ Hin].
  apply elem_of_seqZ in Hin. rewrite (zlen_code_weights t Hc) in Hin.
  destruct Hc. unfold is_byte. lia.
Qed.

Lemma fill_x1_weight_ok k st : 0 <= k < max_bits -> filling k st ->
  returns (filling (k + 1))
    (fill_x1_weight sorted_table (rank_from ws <$> seqZ 0 13) max_bits rescale st (k + 1)).
Proof.
  intros Hk. destruct st as [cells u]. intros (Hl & Hu & Ht). cbn in Hl, Hu, Ht.
  pose proof max_bits_range as Hmb. pose proof (zlen_nonneg (upto k)).
  unfold HUF_FAST_TABLE_LOG, HUF_TABLELOG_MAX in Hmb.
  unfold fill_x1_weight. cbn [rank_stats sorted sorted_table].
  rewrite (idx_ok (rank_stats t) (k + 1) (occurrences (k + 1) ws)).
  2: { rewrite (cc_ranks t Hc), zget_fmap, seqZ_zget by lia. cbn. by rewrite Z.add_0_l. }
  cbn [mbind res_bind].
  assert (forall w, 0 <= w < 13 -> zget (rank_from ws <$> seqZ 0 13) w = Some (rank_from ws w)) as Hrf.
  { intros w Hw. rewrite zget_fmap, seqZ_zget by lia. cbn. by rewrite Z.add_0_l. }
  rewrite (idx_ok _ _ _ (Hrf (k + 1) ltac:(lia))). cbn [mbind res_bind].
  rewrite (idx_ok _ _ _ (Hrf (k + 1 + 1) ltac:(lia))). cbn [mbind res_bind].
  destruct Hs as [Hsl Hss]. unfold slice. rewrite (Hss (k + 1) ltac:(lia)). cbn [unwrap mbind res_bind].
  replace (k + 1 - 1 + rescale) with (k + rescale) by lia. rewrite Z.shiftl_1_l.
  set (len := 2 ^ (k + rescale)).
  assert (1 <= len) as Hlen by (pose proof (pow2_pos (k + rescale)); unfold HUF_FAST_TABLE_LOG, HUF_TABLELOG_MAX in *; lia).
  rewrite (wrap_small 8) by (cbn; lia). replace (max_bits + 1 - (k + 1)) with (max_bits - k) by lia.
  set (count := occurrences (k + 1) ws). pose proof (occurrences_nonneg (k + 1) ws) as Hcn. fold count in Hcn.
  assert (zlen (symbols_of ws (k + 1)) = count) as Hsy by apply zlen_symbols_of.
  destruct (expand_run_const len (fun s => MkHuf s (max_bits - k)) (symbols_of ws (k + 1)) ltac:(lia))
    as [Hexp Hexpl].
  pose proof (runs_upto_S ws max_bits k ltac:(lia)) as HS. fold len in HS.
  pose proof (upto_le (k + 1) ltac:(lia)) as Hle. rewrite HS, expand_runs_app, zlen_app, Hexpl in Hle.
  assert (forall s, is_byte s -> x1_run len (max_bits - k) s =
            x1_bytes (zrepeat (MkHuf s (max_bits - k)) len)) as Hrun.
  { intros s Hsb. apply x1_run_ok; unfold HUF_FAST_TABLE_LOG, HUF_TABLELOG_MAX, is_byte in *; lia || done. }
  pose proof (symbols_of_bytes (k + 1)) as Hsb.
  erewrite on_slice_ok; [|nia|nia|].
  2: { rewrite fill_chunks_ok; [reflexivity|lia| |].
    - eapply Forall_impl; [exact Hsb|]. cbn. intros s Hs1. rewrite Hrun by done.
      rewrite zlen_x1_bytes, zlen_zrepeat by lia. done.
    - rewrite zlen_ztake; [nia|]. rewrite zlen_zdrop; nia. }
  assert (concat (x1_run len (max_bits - k) <$> symbols_of ws (k + 1)) =
          x1_bytes (expand_runs ((fun s => (len, MkHuf s (max_bits - k))) <$> symbols_of ws (k + 1))))
    as ->.
  { rewrite Hexp. clear -Hsb Hrun. induction Hsb as [|s l Hs1 Hl IH]; [done|].
    rewrite !fmap_cons. cbn [concat]. by rewrite x1_bytes_app, Hrun, IH. }
  cbn [mbind res_bind returns]. rewrite Hu in Ht |- *.
  assert (zlen (ztake (2 * zlen (upto k)) cells) = 2 * zlen (upto k)) as Htl by (apply zlen_ztake; nia).
  split_and!; cbn.
  - rewrite !zlen_app, Htl, zlen_x1_bytes, Hexpl, zlen_zdrop by nia. nia.
  - rewrite HS, expand_runs_app, zlen_app, Hexpl, Hsy. done.
  - rewrite HS, expand_runs_app, x1_bytes_app, app_assoc.
    rewrite ztake_app_le; [|rewrite zlen_app, Htl, zlen_x1_bytes, Hexpl, Hsy; nia].
    rewrite Ht, <- x1_bytes_app. apply ztake_all.
    rewrite zlen_x1_bytes, zlen_app, Hexpl, Hsy. lia.
Qed.
End fill.

Lemma fill_x1_ok t : complete t -> zlen (sorted t) = 256 ->
  returns (fun t' => ht_decode t' = x1_table t /\ weights t' = weights t /\
             nb_symbols t' = nb_symbols t /\ max_num_bits t' = max_num_bits t /\
             rank_stats t' = rank_stats t /\ is_x2 t' = is_x2 t /\ fse_table t' = fse_table t /\
             zlen (sorted t') = 256)
    (fill_x1 t).
Proof.
  intros Hc Hsl. pose proof (cc_log t Hc) as Hlog. unfold fill_x1.
  destruct (Z.leb_spec (max_num_bits t) HUF_FAST_TABLE_LOG);
    [|unfold HUF_FAST_TABLE_LOG in *; lia]. cbn [rassert mbind res_bind].
  destruct (sort_symbols_ok t Hc Hsl) as (srt & Hs & ->). cbn [mbind res_bind ht_decode].
  fold (sorted_table t srt).
  set (dt := vresize (ht_decode t) _ _).
  assert (zlen dt = 2048) as Hdt by (apply zlen_vresize; done).
  assert (returns (filling t (max_num_bits t))
    (foldM (fill_x1_weight (sorted_table t srt) (rank_from (code_weights t) <$> seqZ 0 13)
       (max_num_bits t) (HUF_FAST_TABLE_LOG - max_num_bits t)) (x1_bytes dt, 0)
       (seqZ 1 (max_num_bits t)))) as Hret.
  { replace (max_num_bits t) with (Z.of_nat (length (seqZ 1 (max_num_bits t)))) at 1
      by (rewrite length_seqZ; lia).
    apply (returns_foldM (fun k => filling t (Z.of_nat k))).
    - split_and!; cbn; [rewrite zlen_x1_bytes; lia|done|done].
    - intros k w st Hk Hst. apply lookup_seqZ in Hk as [-> Hk].
      rewrite Nat2Z.inj_succ. unfold Z.succ. rewrite (Z.add_comm 1).
      apply fill_x1_weight_ok; done || lia. }
  destruct (returns_inv _ _ Hret) as ([cells u] & Hf & Hl & Hu & Ht). rewrite Hf. cbn in Hl, Hu, Ht.
  cbn [mbind res_bind returns ht_decode weights nb_symbols max_num_bits rank_stats is_x2 fse_table sorted sorted_table].
  split_and!; try done; [|by destruct Hs].
  assert (expand_runs (runs_upto (code_weights t) (max_num_bits t) (max_num_bits t)) = x1_table t)
    as Hx by done.
  rewrite Hx in *. pose proof (zlen_x1_table t Hc) as Hxl. change (2 ^ HUF_FAST_TABLE_LOG) with 2048 in Hxl.
  rewrite Hu, Hxl in Ht. rewrite ztake_all in Ht by lia. rewrite Ht. apply x1_cells_bytes.
Qed.

(** ** The table is a prefix code's *)

Lemma expand_runs_cons n e runs : expand_runs ((n, e) :: runs) = zrepeat e n ++ expand_runs runs.
Proof. done. Qed.

Lemma zget_zrepeat_inv {A} (x y : A) n i : zget (zrepeat x n) i = Some y -> x = y /\ 0 <= i < n.
Proof.
  intros H. pose proof (zget_lt _ _ _ H) as Hl. apply zget_Some in H as [_ H].
  apply lookup_replicate in H as [-> H]. split; [done|lia].
Qed.

(** A cell lies in the run of its entry. *)
Lemma expand_runs_run runs i e : Forall (fun r => 0 <= r.1) runs ->
  zget (expand_runs runs) i = Some e ->
  exists pre n post, runs = pre ++ (n, e) :: post /\
    zlen (expand_runs pre) <= i < zlen (expand_runs pre) + n.
Proof.
  intros Hr. revert i. induction Hr as [|[n x] runs Hn Hr IH]; intros i Hi.
  - apply zget_lt in Hi. cbn in Hi. change (zlen _) with 0 in Hi. lia.
  - cbn in Hn. rewrite expand_runs_cons in Hi. destruct (Z_lt_dec i n).
    + rewrite zget_app_l in Hi by (rewrite zlen_zrepeat; lia).
      apply zget_zrepeat_inv in Hi as [-> Hi]. exists [], n, runs. split; [done|].
      change (zlen (expand_runs [])) with 0. lia.
    + rewrite zget_app_r in Hi by (rewrite zlen_zrepeat; lia).
      rewrite zlen_zrepeat in Hi by lia.
      destruct (IH _ Hi) as (pre & m & post & -> & Hp). exists ((n, x) :: pre), m, post.
      split; [done|]. rewrite expand_runs_cons, zlen_app, zlen_zrepeat by lia. lia.
Qed.

Lemma expand_runs_in pre n e post j :
  zlen (expand_runs pre) <= j < zlen (expand_runs pre) + n ->
  zget (expand_runs (pre ++ (n, e) :: post)) j = Some e.
Proof.
  intros Hj. rewrite expand_runs_app, expand_runs_cons.
  rewrite zget_app_r by lia. rewrite zget_app_l by (rewrite zlen_zrepeat; lia).
  apply zget_zrepeat. lia.
Qed.

Lemma pow2_divide a b : 0 <= a <= b -> (2 ^ a | 2 ^ b).
Proof.
  intros H. exists (2 ^ (b - a)). rewrite <- pow2_add by lia. f_equal. lia.
Qed.

Definition run_divides (x y : Z * HuffmanEntry) : Prop := (x.1 | y.1).

Lemma runs_upto_spec ws max_bits k : 0 <= k -> max_bits <= HUF_FAST_TABLE_LOG ->
  StronglySorted run_divides (runs_upto ws max_bits k) /\
  forall r, r ∈ runs_upto ws max_bits k -> exists w s, 1 <= w <= k /\ s ∈ symbols_of ws w /\
    r = (2 ^ (w - 1 + (HUF_FAST_TABLE_LOG - max_bits)), MkHuf s (max_bits + 1 - w)).
Proof.
  intros Hk Hm. rewrite <- (Z2Nat.id k) by lia. clear Hk.
  induction (Z.to_nat k) as [|n [IH1 IH2]].
  - split; [constructor|]. intros r Hr. by apply not_elem_of_nil in Hr.
  - rewrite Nat2Z.inj_succ. unfold Z.succ. rewrite runs_upto_S by lia. split.
    + apply StronglySorted_app. split_and!; [|done|].
      * intros x y Hx Hy. destruct (IH2 x Hx) as (w & s & Hw & _ & ->).
        apply list_elem_of_fmap in Hy as (s' & -> & _). unfold run_divides. cbn.
        apply pow2_divide. lia.
      * induction (symbols_of ws (Z.of_nat n + 1)) as [|s l IH]; constructor; [done|].
        apply Forall_forall. intros y Hy. apply list_elem_of_fmap in Hy as (s' & -> & _).
        unfold run_divides. cbn. done.
    + intros r Hr. apply elem_of_app in Hr as [Hr|Hr].
      * destruct (IH2 r Hr) as (w & s & Hw & Hs & ->). exists w, s. split_and!; done || lia.
      * apply list_elem_of_fmap in Hr as (s & -> & Hs). exists (Z.of_nat n + 1), s.
        split_and!; [lia|lia|done|]. do 2 f_equal; lia.
Qed.

Lemma divide_expand n runs : Forall (fun r => 0 <= r.1 /\ (n | r.1)) runs -> (n | zlen (expand_runs runs)).
Proof.
  induction 1 as [|[m e] runs [H0 Hm] Hr IH]; [apply Z.divide_0_r|].
  rewrite expand_runs_cons, zlen_app, zlen_zrepeat by done. by apply Z.divide_add_r.
Qed.

Lemma x1_table_prefix t : complete t -> prefix_table (x1_table t).
Proof.
  intros Hc. pose proof (zlen_x1_table t Hc) as Hlen. pose proof (cc_log t Hc) as Hlog.
  change HUF_TABLELOG_MAX with HUF_FAST_TABLE_LOG in Hlog.
  unfold x1_table in *. change (x1_runs ?a ?b) with (runs_upto a b b) in *.
  destruct (runs_upto_spec (code_weights t) (max_num_bits t) (max_num_bits t)) as [Hsort Hin]; [lia..|].
  set (runs := runs_upto _ _ _) in *.
  assert (Forall (fun r => 0 <= r.1) runs) as Hpos.
  { apply Forall_forall. intros r Hr. destruct (Hin r Hr) as (w & s & Hw & _ & ->). cbn.
    apply Z.pow_nonneg. lia. }
  assert (forall i e, zget (expand_runs runs) i = Some e ->
    exists pre n post w s, runs = pre ++ (n, e) :: post /\
      zlen (expand_runs pre) <= i < zlen (expand_runs pre) + n /\ 1 <= w <= max_num_bits t /\
      s ∈ symbols_of (code_weights t) w /\
      n = 2 ^ (w - 1 + (HUF_FAST_TABLE_LOG - max_num_bits t)) /\
      e = MkHuf s (max_num_bits t + 1 - w)) as Hcell.
  { intros i e Hi. destruct (expand_runs_run runs i e Hpos Hi) as (pre & n & post & Hsp & Hr).
    destruct (Hin (n, e)) as (w & s & Hw & Hs & Heq).
    { rewrite Hsp. apply elem_of_app. right. left. }
    injection Heq as -> ->. exists pre, (2 ^ (w - 1 + (HUF_FAST_TABLE_LOG - max_num_bits t))), post, w, s.
    split_and!; done || lia. }
  split; [done| |].
  - intros i e Hi. destruct (Hcell i e Hi) as (pre & n & post & w & s & _ & _ & Hw & Hs & _ & ->).
    cbn. split; [lia|]. pose proof (symbols_of_bytes t Hc w) as Hb.
    rewrite Forall_forall in Hb. by apply Hb.
  - intros i j e Hi Hj Hij.
    destruct (Hcell i e Hi) as (pre & n & post & w & s & Hsp & Hr & Hw & Hs & Hn & He).
    assert (2 ^ (HUF_FAST_TABLE_LOG - nb e) = n) as Hln.
    { subst n e. cbn. f_equal. lia. }
    rewrite Hln in Hij. rewrite Hsp. apply expand_runs_in.
    assert (0 < n) by (subst n; apply pow2_pos; lia).
    assert ((n | zlen (expand_runs pre))) as [q Hq].
    { assert (zlen (expand_runs runs) = zlen (expand_runs pre) + (n + zlen (expand_runs post))) as Hz.
      { rewrite Hsp, expand_runs_app, expand_runs_cons, !zlen_app, zlen_zrepeat by lia. lia. }
      assert ((n | zlen (expand_runs post))) as Hpd.
      { apply divide_expand. apply Forall_forall. intros r Hrp. split.
        - rewrite Forall_forall in Hpos. apply Hpos. rewrite Hsp. apply elem_of_app. right. by right.
        - rewrite Hsp in Hsort. apply StronglySorted_app in Hsort as (_ & _ & Hs2).
          apply StronglySorted_cons in Hs2 as [Hall _]. rewrite Forall_forall in Hall.
          by apply (Hall r). }
      assert ((n | 2 ^ HUF_FAST_TABLE_LOG)) as Htd.
      { subst n. apply pow2_divide. lia. }
      rewrite <- Hlen, Hz in Htd. apply (Z.divide_add_cancel_r _ (n + zlen (expand_runs post))).
      - by apply Z.divide_add_r.
      - by rewrite Z.add_comm. }
    rewrite Hq in *. assert (i / n = q) as Hiq.
    { symmetry. apply (Z.div_unique _ _ _ (i - q * n)); lia. }
    rewrite Hiq in Hij. pose proof (Z.div_mod j n ltac:(lia)).
    pose proof (Z.mod_pos_bound j n ltac:(lia)). nia.
Qed.

(** ** Properties *)

Lemma huf_build_x1_safe t source dst_size : huf_wf t -> bytes source ->
  safe (fun '(t', used) => complete t' /\ huf_wf t' /\ is_x2 t' = false /\
          ht_decode t' = x1_table t' /\ 1 <= used <= zlen source)
    (huf_build_decoder t source dst_size false).
Proof.
  intros [Hw Hb Hso Hf] Hs. unfold huf_build_decoder.
  eapply safe_bind; [by apply read_weights_ok|].
  intros [t1 [used n]] ([Hw1 Hb1 Hs1 Hf1] & Hu & Hu2 & Hn & Hws & _).
  eapply safe_bind; [by apply weight_stats_ok|].
  intros t2 (Hc & _ & _ & Hst). destruct Hst as (_ & _ & _ & Hso2 & Hfs).
  cbn [mbind res_bind]. unfold fill.
  assert (complete (MkHT (ht_decode t2) (ht_decode_x2 t2) false (weights t2) (nb_symbols t2)
    (max_num_bits t2) (rank_stats t2) (sorted t2) (fse_table t2))) as Hc2 by (by destruct Hc; split).
  eapply safe_bind; [apply returns_safe, fill_x1_ok; [done|cbn; congruence]|].
  intros t3 (H1 & H2 & H3 & H4 & H5 & H6 & H7 & H8). apply safe_ok. cbn in *.
  rewrite (wrap_small 32 used) by (change (2 ^ 32) with 4294967296; lia).
  destruct Hc2 as [C1 C2 C3 C4 C5 C6 C7 C8]. cbn in *.
  assert (complete t3) as Hc3 by (split; rewrite ?H2, ?H3, ?H4, ?H5; done).
  split_and!; try done; try lia.
  - split; rewrite ?H2; try done. rewrite H7. congruence.
  - rewrite H1. unfold x1_table, code_weights. cbn. by rewrite H2, H3, H4.
Qed.

(** C21: The single-symbol Huffman table is that of the description's prefix
    code: on every byte string [build_decoder] neither faults nor runs on, and
    if it accepts, each of the 2048 cells has been written, symbols come in
    the order of their weights and values, each owning as many consecutive
    cells as its weight says, and looking up any 11 bits that begin with the
    code of a cell gives that very cell. *)
Theorem huffman_table_correct t source dst_size :
  huf_wf t -> bytes source ->
  match huf_build_decoder t source dst_size false with
  | Ok (t', used) => complete t' /\ 1 <= used <= zlen source /\
      ht_decode t' = x1_table t' /\ prefix_table (ht_decode t')
  | Err _ => True
  | Fault | Stuck => False
  end.
Proof.
  intros Hwf Hs. pose proof (huf_build_x1_safe t source dst_size Hwf Hs) as H.
  destruct (huf_build_decoder _ _ _ _) as [[t' used]| | |]; cbn in H; try done.
  destruct H as (Hc & _ & _ & Hd & Hu). split_and!; try done; try lia.
  rewrite Hd. by apply x1_table_prefix.
Qed.

Lemma huffman_table_correct_witness :
  exists t', huf_build_decoder huf_new [132; 0x11; 0x23; 0x40; 0; 0; 0; 0] 100 false = Ok (t', 4) /\
    complete t' /\ prefix_table (ht_decode t').
Proof.
  assert (bytes [132; 0x11; 0x23; 0x40; 0; 0; 0; 0]) as Hb by solve_bytes.
  pose proof (huffman_table_correct huf_new _ 100 huf_new_wf Hb) as H.
  destruct (huf_build_decoder _ _ _ _) as [[t' n]|e| |] eqn:E; [|vm_compute in E; discriminate E..].
  destruct H as (Hc & _ & _ & Hp). exists t'.
  assert (n = 4) as -> by (vm_compute in E; by injection E as <- <-).
  split; [done|]. by split.
Defined.
