(* ===== verification/HufStream.v ===== *)
(** * Huffman literals streams ([src/decode.rs], "Huffman symbol decoding")

    The single-symbol decoders of one stream and of four interleaved ones,
    with the unchecked loop of the latter. Its reads and writes without bounds
    checks are checked here, [Fault] standing for the undefined behaviour.
    The proofs are in [HufDecode] and [HufFast]. *)

From S2P Require Import Prelude Words Constants Errors BitDStream HufTable.

(** [huf_decode_symbol_x1]. *)
Definition huf_decode_symbol_x1 (br : BitDStream) (dt : list HuffmanEntry) : dec (Z * BitDStream) :=
  entry ← idx dt (look_bits br HUF_FAST_TABLE_LOG);
  Ok (symbol entry, skip_bits br (nb entry)).

(** One turn of the four-symbol loop of [huf_decode_stream_x1]. *)
Definition stream_x1_four (dt : list HuffmanEntry) (st : list Z * BitDStream * Z)
    : dec (list Z * BitDStream * Z + list Z * BitDStream * Z) :=
  let '(out, br, p) := st in
  '(status, br) ← reload br;
  if (if decide (status = Unfinished) then p <? zlen out - 3 else false) then
    '(a, br) ← huf_decode_symbol_x1 br dt;
    '(b, br) ← huf_decode_symbol_x1 br dt;
    '(c, br) ← huf_decode_symbol_x1 br dt;
    '(d, br) ← huf_decode_symbol_x1 br dt;
    out ← copy_from_slice out p (p + 4) [a; b; c; d];
    Ok (inl (out, br, p + 4))
  else Ok (inr (out, br, p)).

(** One turn of its last loop. *)
Definition stream_x1_one (dt : list HuffmanEntry) (st : list Z * BitDStream * Z)
    : dec (list Z * BitDStream * Z + list Z * BitDStream) :=
  let '(out, br, p) := st in
  if p <? zlen out then
    '(a, br) ← huf_decode_symbol_x1 br dt;
    out ← store out p a;
    Ok (inl (out, br, p + 1))
  else Ok (inr (out, br)).

(** [huf_decode_stream_x1]. *)
Definition huf_decode_stream_x1 (out : list Z) (br : BitDStream) (dt : list HuffmanEntry)
    : dec (list Z * BitDStream) :=
  '(out, br, p) ←
    (if 3 <? zlen out then loopM (length out + 1) (stream_x1_four dt) (out, br, 0)
     else
       '(_, br) ← reload br;
       Ok (out, br, 0));
  loopM (length out + 1) (stream_x1_one dt) (out, br, p).

(** [huf_decompress_1x1]. *)
Definition huf_decompress_1x1 (out src : list Z) (table : HuffmanTable) : dec (list Z) :=
  dt ← huf_cells (ht_decode table);
  br ← BitDStream.new src;
  '(out, br) ← huf_decode_stream_x1 out br dt;
  _ ← fail_if (negb (is_finished br)) EStreamNotConsumed;
  Ok out.

(** ** Four streams *)

(** [HufStreams]. *)
Record HufStreams := MkStreams {
  istart : list Z;
  iend : list Z;
  segment : Z;
}.

(** [HufStreams::split]. *)
Definition split (src : list Z) (dst_size : Z) : dec HufStreams :=
  _ ← fail_if (zlen src <? 10) (EFourStreamsShort (zlen src));
  b0 ← idx src 0; b1 ← idx src 1; b2 ← idx src 2; b3 ← idx src 3; b4 ← idx src 4; b5 ← idx src 5;
  let len1 := le_val [b0; b1] in
  let len2 := le_val [b2; b3] in
  let len3 := le_val [b4; b5] in
  _ ← fail_if (zlen src <? 6 + len1 + len2 + len3) EJumpTable;
  let i1 := 6 + len1 in
  let i2 := 6 + len1 + len2 in
  let i3 := 6 + len1 + len2 + len3 in
  let segment := div_ceil dst_size 4 in
  _ ← fail_if (dst_size <? 3 * segment) EFourSegments;
  Ok (MkStreams [6; i1; i2; i3] [i1; i2; i3; zlen src] segment).

(** [HufStreams::stream]. *)
Definition stream (h : HufStreams) (src : list Z) (s : Z) : dec (list Z) :=
  a ← idx (istart h) s;
  b ← idx (iend h) s;
  slice src a b.

(** [HufStreams::segment_end]. *)
Definition segment_end (h : HufStreams) (s dst_size : Z) : Z :=
  Z.min ((s + 1) * segment h) dst_size.

(** [HufFastArgs]. *)
Record HufFastArgs := MkFast {
  ip : list Z;
  op : list Z;
  fbits : list Z;   (* bits *)
}.

(** [huf_fast_args_init]: the set-up of stream [s]; [None] leaves the loop. *)
Definition fast_init_stream (h : HufStreams) (src : list Z) (s : Z) : dec (option (Z * Z)) :=
  a ← idx (istart h) s;
  b ← idx (iend h) s;
  if b - a <? 8 then Ok None
  else
    last ← idx src (b - 1);
    _ ← fail_if (last =? 0) EStreamNoEndMark;
    w ← read_le64 src (b - 8);
    Ok (Some (b - 8, wshl 64 (Z.lor w 1) (leading_zeros 8 last + 1))).

(** [huf_fast_args_init]. *)
Definition huf_fast_args_init (h : HufStreams) (src : list Z) (dst_size : Z)
    : dec (option HufFastArgs) :=
  let sg := segment h in
  if dst_size <=? 3 * sg then Ok None
  else
    r ← foldM (fun acc s =>
        match acc with
        | None => Ok None
        | Some (ips, bs) =>
            o ← fast_init_stream h src s;
            match o with
            | None => Ok None
            | Some (i, b) => Ok (Some (ips ++ [i], bs ++ [b]))
            end
        end) (Some ([], [])) [0; 1; 2; 3];
    match r with
    | None => Ok None
    | Some (ips, bs) => Ok (Some (MkFast ips [0; sg; 2 * sg; 3 * sg] bs))
    end.

(** [huf_remaining_dstream]. *)
Definition huf_remaining_dstream (args : HufFastArgs) (h : HufStreams) (s : Z) (src : list Z)
    : dec BitDStream :=
  start ← idx (istart h) s;
  st ← stream h src s;
  i ← idx (ip args) s;
  _ ← fail_if (i + 8 <? start) EStreamOverranStart;
  let '(ptr, below) := if start <=? i then (i - start, 0) else (0, start - i) in
  b ← idx (fbits args) s;
  let bits_consumed := trailing_zeros 64 b + wrap 32 below * 8 in
  _ ← fail_if (64 <? bits_consumed) EStreamOverranStart;
  c ← read_le64 st ptr;
  Ok (MkDStream st ptr c bits_consumed).

(** The [decode!] macro of [huf_4x1_fast_loop]. *)
Definition fast_decode_x1 (dt : list HuffmanEntry) (st : HufFastArgs * list Z) (sk : Z * Z)
    : dec (HufFastArgs * list Z) :=
  let '(args, out) := st in
  let '(s, k) := sk in
  b ← idx (fbits args) s;
  entry ← idx dt (Z.shiftr b (64 - HUF_FAST_TABLE_LOG));
  o ← idx (op args) s;
  out ← store out (o + k) (symbol entry);
  bs ← store (fbits args) s (wshl 64 b (nb entry));
  Ok (MkFast (ip args) (op args) bs, out).

(** The [reload!] macro: [n] bytes were written. *)
Definition fast_reload (src : list Z) (n : Z) (args : HufFastArgs) (s : Z) : dec HufFastArgs :=
  b ← idx (fbits args) s;
  let ctz := trailing_zeros 64 b in
  o ← idx (op args) s;
  ops ← store (op args) s (o + n);
  i ← idx (ip args) s;
  let i := i - Z.shiftr ctz 3 in
  ips ← store (ip args) s i;
  w ← read_le64 src i;
  bs ← store (fbits args) s (wshl 64 (Z.lor w 1) (Z.land ctz 7));
  Ok (MkFast ips ops bs).

(** The order of the 20 [decode!]s. *)
Definition fast_order : list (Z * Z) :=
  k ← [0; 1; 2; 3; 4]; (fun s => (s, k)) <$> [0; 1; 2; 3].

(** One turn of the inner loop. *)
Definition fast_x1_turn (src : list Z) (dt : list HuffmanEntry) (olimit : Z)
    (st : HufFastArgs * list Z) : dec (HufFastArgs * list Z + HufFastArgs * list Z) :=
  '(args, out) ← foldM (fast_decode_x1 dt) st fast_order;
  args ← foldM (fast_reload src 5) args [0; 1; 2; 3];
  o3 ← idx (op args) 3;
  Ok (if olimit <=? o3 then inr (args, out) else inl (args, out)).

(** [ip[1] < ip[0] || ip[2] < ip[1] || ip[3] < ip[2]]. *)
Definition streams_crossed (ips : list Z) : dec bool :=
  i0 ← idx ips 0; i1 ← idx ips 1; i2 ← idx ips 2; i3 ← idx ips 3;
  Ok ((i1 <? i0) || (i2 <? i1) || (i3 <? i2)).

(** One turn of the outer loop of [huf_4x1_fast_loop]. *)
Definition fast_x1_round (src : list Z) (dt : list HuffmanEntry) (st : HufFastArgs * list Z)
    : dec (HufFastArgs * list Z + HufFastArgs * list Z) :=
  let '(args, out) := st in
  o3 ← idx (op args) 3;
  i0 ← idx (ip args) 0;
  let oiters := (zlen out - o3) / 5 in
  let iiters := i0 / 7 in
  let olimit := o3 + Z.min oiters iiters * 5 in
  if o3 =? olimit then Ok (inr (args, out))
  else
    crossed ← streams_crossed (ip args);
    if (crossed : bool) then Ok (inr (args, out))
    else
      st ← loopM (length out + 1) (fast_x1_turn src dt olimit) (args, out);
      Ok (inl st).

(** [huf_4x1_fast_loop]. *)
Definition huf_4x1_fast_loop (args : HufFastArgs) (out src : list Z) (dt : list HuffmanEntry)
    : dec (HufFastArgs * list Z) :=
  loopM (length out + 1) (fast_x1_round src dt) (args, out).

(** The rest of stream [s] after the fast loop. *)
Definition fast_rest_x1 (args : HufFastArgs) (h : HufStreams) (src : list Z)
    (dt : list HuffmanEntry) (out : list Z) (s : Z) : dec (list Z) :=
  let e := segment_end h s (zlen out) in
  o ← idx (op args) s;
  _ ← fail_if (e <? o) EStreamOverranSegment;
  br ← huf_remaining_dstream args h s src;
  seg ← slice out o e;
  '(seg, br) ← huf_decode_stream_x1 seg br dt;
  _ ← fail_if (negb (is_finished br)) EStreamNotConsumed;
  Ok (ztake o out ++ seg ++ zdrop e out).

(** One turn of the plain loop: four symbols of each of the four streams. The
    state is the four segments, the four readers and the write position. *)
Definition four_symbols (dt : list HuffmanEntry) (br : BitDStream) : dec (list Z * BitDStream) :=
  '(a, br) ← huf_decode_symbol_x1 br dt;
  '(b, br) ← huf_decode_symbol_x1 br dt;
  '(c, br) ← huf_decode_symbol_x1 br dt;
  '(d, br) ← huf_decode_symbol_x1 br dt;
  Ok ([a; b; c; d], br).

(** One stream's share of a turn: its symbols and its reload. *)
Definition plain_x1_stream (dt : list HuffmanEntry) (p : Z) (st : list Z * BitDStream)
    : dec (bool * (list Z * BitDStream)) :=
  let '(o, br) := st in
  '(w, br) ← four_symbols dt br;
  o ← copy_from_slice o p (p + 4) w;
  '(status, br) ← reload_fast br;
  Ok (bool_decide (status = Unfinished), (o, br)).

(** The plain loop. The four streams' steps of a turn touch disjoint state:
    stream by stream is the same as the interleaving of the source. *)
Definition plain_x1_turn (dt : list HuffmanEntry)
    (st : bool * Z * list (list Z * BitDStream))
    : dec (bool * Z * list (list Z * BitDStream) + list (list Z * BitDStream) * Z) :=
  let '(end_signal, p, ss) := st in
  o4 ← idx ss 3;
  if end_signal && (p + 4 <=? zlen o4.1) then
    '(sig, ss) ← foldM (fun '(sig, done) s =>
        '(b, s) ← plain_x1_stream dt p s;
        Ok (sig && b, done ++ [s])) (true, []) ss;
    Ok (inl (sig, p + 4, ss))
  else Ok (inr (ss, p)).

(** The plain path of [huf_decompress_4x1]. *)
Definition plain_4x1 (out src : list Z) (h : HufStreams) (dt : list HuffmanEntry) : dec (list Z) :=
  let sg := segment h in
  o1 ← slice out 0 sg;
  o2 ← slice out sg (2 * sg);
  o3 ← slice out (2 * sg) (3 * sg);
  o4 ← slice out (3 * sg) (zlen out);
  brs ← foldM (fun acc s =>
      st ← stream h src s;
      br ← BitDStream.new st;
      Ok (acc ++ [br])) [] [0; 1; 2; 3];
  let ss := zip [o1; o2; o3; o4] brs in
  '(ss, p) ← (if 8 <=? zlen o4
              then loopM (length o4 + 1) (plain_x1_turn dt) (true, 0, ss)
              else Ok (ss, 0));
  ss ← foldM (fun acc '(o, br) =>
      o' ← slice_from o p;
      '(o', br) ← huf_decode_stream_x1 o' br dt;
      Ok (acc ++ [(ztake p o ++ o', br)])) [] ss;
  _ ← fail_if (negb (forallb (fun s => is_finished s.2) ss)) EStreamNotConsumed;
  Ok (concat (fst <$> ss)).

(** [huf_decompress_4x1]. *)
Definition huf_decompress_4x1 (out src : list Z) (table : HuffmanTable) : dec (list Z) :=
  dt ← huf_cells (ht_decode table);
  h ← split src (zlen out);
  fast ← huf_fast_args_init h src (zlen out);
  match fast with
  | Some args =>
      '(args, out) ← huf_4x1_fast_loop args out src dt;
      foldM (fast_rest_x1 args h src dt) out [0; 1; 2; 3]
  | None => plain_4x1 out src h dt
  end.
