(* ===== verification/HufDecode.v ===== *)
(** * Huffman streams decode a prefix code

    A reference decoder reads a stream as one number, from its end mark
    downwards, a symbol of the prefix code at a time. [huf_decompress_1x1] is
    that decoder: it accepts exactly the streams whose last symbol ends on
    their first bit, and returns the reference's symbols. *)

From S2P Require Import Prelude Words Constants Errors FseBuild BitDStream HufTable HufWeights.
From S2P Require Import HufFill HufStream.

(** ** The reference *)

(** [n] symbols from cursor [u0] of the number [v], and the cursor after
    them; [None] when the stream's start is passed. *)
Fixpoint decode_ref (dt : list HuffmanEntry) (v u0 : Z) (n : nat) : option (list Z * Z) :=
  match n with
  | O => Some ([], u0)
  | S n =>
      match decode_ref dt v u0 n with
      | Some (l, u) =>
          if 0 <? u then
            match zget dt (peek v u HUF_FAST_TABLE_LOG) with
            | Some e => if nb e <=? u then Some (l ++ [symbol e], u - nb e) else None
            | None => None
            end
          else None
      | None => None
      end
  end.

(** A stream of [n] symbols: it ends with a marked byte, and its symbols end
    on its first bit. *)
Definition huf_ref (dt : list HuffmanEntry) (src : list Z) (n : nat) : option (list Z) :=
  match zget src (zlen src - 1) with
  | Some last =>
      if last =? 0 then None
      else
        match decode_ref dt (le_val src) (Z.log2 (le_val src)) n with
        | Some (l, u) => if u =? 0 then Some l else None
        | None => None
        end
  | None => None
  end.

(** ** One symbol *)

Section decode.
Context (dt : list HuffmanEntry) (Hdt : prefix_table dt).

Local Abbreviation v br := (stream_val br).

Lemma decode_ref_length s u0 n l u : decode_ref dt s u0 n = Some (l, u) -> length l = n.
Proof.
  revert l u. induction n as [|n IH]; intros l u H; cbn in H; [by injection H as <- _|].
  destruct (decode_ref dt s u0 n) as [[l' u']|]; [|done]. specialize (IH _ _ eq_refl).
  destruct (0 <? u'); [|done]. destruct (zget dt _); [|done].
  destruct (_ <=? _); [|done]. injection H as <- _. rewrite length_app. cbn. lia.
Qed.

Lemma decode_ref_bytes s u0 n l u : decode_ref dt s u0 n = Some (l, u) -> bytes l.
Proof.
  revert l u. induction n as [|n IH]; intros l u H; cbn in H; [by injection H as <- _|].
  destruct (decode_ref dt s u0 n) as [[l' u']|]; [|done]. specialize (IH _ _ eq_refl).
  destruct (0 <? u'); [|done]. destruct (zget dt _) as [e|] eqn:He; [|done].
  destruct (_ <=? _); [|done]. injection H as <- _. apply Forall_app. split; [done|].
  constructor; [|constructor]. by apply (pt_cell dt Hdt _ _ He).
Qed.

Lemma decode_ref_None_S s u0 n : decode_ref dt s u0 n = None -> decode_ref dt s u0 (S n) = None.
Proof. intros H. cbn. by rewrite H. Qed.

(** After [n] symbols the reader stands at the reference's cursor ([l] are
    the symbols), or has passed the stream's start, for good. *)
Definition at_cursor (s : list Z) (u0 : Z) (n : nat) (l : list Z) (br : BitDStream) : Prop :=
  stream_ok br /\ src br = s /\ length l = n /\
  ((decode_ref dt (le_val s) u0 n = Some (l, unread br) /\ 0 <= unread br /\
    bits_consumed br <= 64) \/
   (decode_ref dt (le_val s) u0 n = None /\ ptr br = 0 /\ 64 < bits_consumed br)).

(** Enough is loaded for [k] symbols, or the container is the last. *)
Definition ready (k : Z) (br : BitDStream) : Prop :=
  bits_consumed br + 11 * k <= 64 \/ ptr br = 0.

Lemma look_in_table br : exists e, zget dt (look_bits br HUF_FAST_TABLE_LOG) = Some e /\
  1 <= nb e <= 11 /\ is_byte (symbol e).
Proof.
  assert (0 <= look_bits br HUF_FAST_TABLE_LOG < 2 ^ HUF_FAST_TABLE_LOG) as Hr.
  { unfold look_bits, HUF_FAST_TABLE_LOG, HUF_TABLELOG_MAX. rewrite shiftr_div by lia.
    pose proof (wrap_range 64 (Z.shiftl (container br) (Z.land (bits_consumed br) 63)) ltac:(lia)) as Hw.
    change (wrap 64 (Z.shiftl ?a ?b)) with (wshl 64 a b) in Hw.
    split; [apply Z.div_pos; [lia|apply pow2_pos; lia]|].
    apply Z.div_lt_upper_bound; [apply pow2_pos; lia|]. rewrite <- pow2_add by lia.
    replace (64 - 11 + 11) with 64 by lia. lia. }
  rewrite <- (pt_len dt Hdt) in Hr. destruct (zget_is_Some _ _ Hr) as [e He].
  exists e. split; [done|]. by apply (pt_cell dt Hdt _ _ He).
Qed.

Lemma decode_symbol_ok s u0 n l br k :
  at_cursor s u0 n l br -> ready k br -> 1 <= k -> bits_consumed br < 2 ^ 31 ->
  returns (fun '(x, br') => at_cursor s u0 (S n) (l ++ [x]) br' /\ ready (k - 1) br' /\
             is_byte x /\ bits_consumed br' <= bits_consumed br + 11)
    (huf_decode_symbol_x1 br dt).
Proof.
  intros (Hok & Hsrc & Hlen & Hc) Hrdy Hk Hb31. unfold huf_decode_symbol_x1.
  destruct (look_in_table br) as (e & He & Hnb & Hsy).
  rewrite (idx_ok _ _ _ He). cbn [mbind res_bind returns].
  assert (bits_consumed br + nb e < 2 ^ 32) as Hb32.
  { change (2 ^ 31) with 2147483648 in Hb31. change (2 ^ 32) with 4294967296. lia. }
  destruct (skip_bits_ok br (nb e) Hok ltac:(lia) Hb32) as (Hok' & Hu' & Hb').
  assert (ptr (skip_bits br (nb e)) = ptr br) as Hp' by done.
  assert (ready (k - 1) (skip_bits br (nb e))) as Hr' by (unfold ready in *; lia).
  split_and!; [|done|apply Hsy|lia].
  split_and!; [done|done|rewrite length_app; cbn; lia|].
  destruct Hc as [(Href & Hu & H64)|(Href & Hpz & H64)].
  2: { right. split_and!; [by apply decode_ref_None_S|done|lia]. }
  cbn [decode_ref]. rewrite Href. destruct (Z.ltb_spec 0 (unread br)) as [Hpos|].
  2: { right. pose proof (ok_ptr _ Hok). split_and!; [done| |]; unfold ready, unread in *; lia. }
  assert (loaded br 11) as Hld.
  { unfold ready, loaded, unread in *. destruct Hok. lia. }
  unfold HUF_FAST_TABLE_LOG, HUF_TABLELOG_MAX in *.
  rewrite look_bits_peek in He by (done || lia). unfold stream_val in He. rewrite Hsrc in He.
  rewrite He. destruct (Z.leb_spec (nb e) (unread br)).
  - left. rewrite Hu'. split_and!; [done|lia|]. unfold ready, unread in *. destruct Hok. lia.
  - right. pose proof (ok_ptr _ Hok). split_and!; [done| |]; unfold ready, unread in *; lia.
Qed.

(** A reload keeps the cursor; after one that found bits five symbols are
    ready, and else the container is the last one. *)
Lemma at_cursor_reload s u0 n l br :
  at_cursor s u0 n l br ->
  returns (fun '(st, br') => at_cursor s u0 n l br' /\
             bits_consumed br' <= Z.max (bits_consumed br) 64 /\
             (st = Unfinished -> bits_consumed br' <= 7) /\
             (st <> Unfinished -> ptr br' = 0)) (reload br).
Proof.
  intros (Hok & Hsrc & Hlen & Hc). eapply returns_mono; [by apply reload_ok|].
  intros [st br'] (Hov & Hsame & Hrel). destruct Hrel as [Hok' Hs' Hu' Hun He Hco].
  destruct Hc as [(Href & Hu & H64)|(Href & Hpz & H64)].
  - assert (st <> Overflow) as Hno by (intros ->; pose proof (proj1 Hov eq_refl); lia).
    assert (bits_consumed br' <= 64) as H64'.
    { destruct st; [specialize (Hun eq_refl)|specialize (He eq_refl)|
        specialize (Hco eq_refl)|done]; lia. }
    split_and!; [|lia|exact Hun|].
    + split_and!; [done|congruence|done|]. left. rewrite Hu'. split_and!; done || lia.
    + intros Hst. destruct st; try done; [by apply He|by apply Hco].
  - assert (st = Overflow) as -> by (by apply Hov). rewrite Hsame by done.
    split_and!; [|lia|done|done]. split_and!; try done. by right.
Qed.

Lemma at_cursor_reload_fast s u0 n l br :
  at_cursor s u0 n l br -> bits_consumed br <= 64 \/ ptr br < 8 ->
  returns (fun '(st, br') => at_cursor s u0 n l br' /\
             bits_consumed br' <= bits_consumed br /\
             (st = Unfinished -> bits_consumed br' <= 7)) (reload_fast br).
Proof.
  intros Hat Hb. pose proof Hat as (Hok & Hsrc & Hlen & Hc).
  unfold reload_fast. destruct (Z.ltb_spec (ptr br) 8).
  - cbn. split_and!; done.
  - eapply returns_mono; [apply reload_internal_ok; done || lia|].
    intros [st br'] [-> Hrel]. destruct Hrel as [Hok' Hs' Hu' Hun _ _].
    specialize (Hun eq_refl).
    destruct Hc as [(Href & Hu & H64)|(Href & Hpz & H64)]; [|lia].
    assert (0 <= bits_consumed br) by (destruct Hok; lia).
    assert (bits_consumed br' <= bits_consumed br).
    { unfold unread in *. pose proof (ok_ptr _ Hok').
      destruct Hok as [Ho1 Ho2 Ho3 Ho4 Ho5]. destruct Hok' as [Hq1 Hq2 Hq3 Hq4 Hq5].
      destruct (Z_le_gt_dec (bits_consumed br') (bits_consumed br)); [done|].
      (* The pointer only moves by whole bytes, the count keeps its low bits. *)
      assert (bits_consumed br' - bits_consumed br = 8 * (ptr br' - ptr br)) by lia. nia. }
    split_and!; [|done|done]. split_and!; [done|congruence|done|]. left. rewrite Hu'.
    split_and!; done || lia.
Qed.

Lemma at_cursor_finished s u0 n l br : at_cursor s u0 n l br ->
  is_finished br = true <-> decode_ref dt (le_val s) u0 n = Some (l, 0).
Proof.
  intros (Hok & Hsrc & Hlen & Hc).
  destruct Hc as [(Href & Hu & H64)|(Href & Hpz & H64)]; rewrite Href.
  - rewrite is_finished_iff by done. split; [by intros ->|congruence].
  - unfold is_finished. rewrite andb_true_iff, !Z.eqb_eq. split; [lia|done].
Qed.

(** ** A stream *)

Lemma zlen_length {A} (l : list A) : zlen l = Z.of_nat (length l).
Proof. done. Qed.

Lemma ztake_store {A} (out : list A) p x : 0 <= p < zlen out ->
  ztake (p + 1) (zset out p x) = ztake p out ++ [x].
Proof.
  intros Hp. rewrite (ztake_S _ p x) by by apply zget_zset_eq.
  by rewrite ztake_zset_ge by lia.
Qed.

Lemma copy_from_slice_ok {A} (out s : list A) a b : 0 <= a -> b <= zlen out -> b - a = zlen s ->
  (copy_from_slice out a b s : dec (list A)) = Ok (ztake a out ++ s ++ zdrop b out) /\
  zlen (ztake a out ++ s ++ zdrop b out) = zlen out /\
  ztake b (ztake a out ++ s ++ zdrop b out) = ztake a out ++ s.
Proof.
  intros Ha Hb Hs. pose proof (zlen_nonneg s). split_and!.
  - by apply copy_from_slice_eq.
  - rewrite !zlen_app, zlen_ztake, zlen_zdrop by lia. lia.
  - rewrite app_assoc, ztake_app_le by (rewrite zlen_app, zlen_ztake; lia).
    apply ztake_all. rewrite zlen_app, zlen_ztake; lia.
Qed.

(** A position in an output whose first [p] bytes continue [l0]. *)
Definition out_at (s : list Z) (u0 : Z) (n0 : nat) (l0 : list Z) (len bound p : Z)
    (out : list Z) (br : BitDStream) : Prop :=
  zlen out = len /\ 0 <= p <= len /\ bits_consumed br <= bound /\
  at_cursor s u0 (n0 + Z.to_nat p) (l0 ++ ztake p out) br.

Lemma out_at_symbol s u0 n0 l0 len bound p out br k :
  out_at s u0 n0 l0 len bound p out br -> p < len -> ready k br -> 1 <= k -> bound < 2 ^ 31 ->
  returns (fun '(x, br') => ready (k - 1) br' /\ is_byte x /\
             out_at s u0 n0 l0 len (bound + 11) (p + 1) (zset out p x) br')
    (huf_decode_symbol_x1 br dt).
Proof.
  intros (Hl & Hp & Hb & Hat) Hlt Hr Hk Hbd.
  eapply returns_mono; [apply (decode_symbol_ok _ _ _ _ _ k Hat Hr Hk); lia|].
  intros [x br'] (Hat' & Hr' & Hx & Hb'). split; [done|]. split; [done|].
  split_and!; [by rewrite zlen_zset|lia|lia|lia|].
  rewrite ztake_store by lia. rewrite app_assoc.
  by replace (n0 + Z.to_nat (p + 1))%nat with (S (n0 + Z.to_nat p)) by lia.
Qed.

(** Four symbols, and their bytes. *)
Lemma four_symbols_ok s u0 n l br b : at_cursor s u0 n l br -> ready 4 br ->
  bits_consumed br <= b -> b < 2 ^ 30 ->
  returns (fun '(w, br') => at_cursor s u0 (n + 4) (l ++ w) br' /\ zlen w = 4 /\ bytes w /\
             bits_consumed br' <= b + 44 /\ (bits_consumed br + 44 <= 64 -> bits_consumed br' <= 64))
    (four_symbols dt br).
Proof.
  intros Hat Hr Hb Hbd. unfold four_symbols. change (2 ^ 30) with 1073741824 in Hbd.
  eapply returns_bind; [apply (decode_symbol_ok _ _ _ _ _ 4 Hat Hr); cbn; lia|].
  intros [a br1] (Hat1 & Hr1 & Ha & Hb1).
  eapply returns_bind; [apply (decode_symbol_ok _ _ _ _ _ 3 Hat1 Hr1); cbn; lia|].
  intros [c br2] (Hat2 & Hr2 & Hc & Hb2).
  eapply returns_bind; [apply (decode_symbol_ok _ _ _ _ _ 2 Hat2 Hr2); cbn; lia|].
  intros [d br3] (Hat3 & Hr3 & Hd & Hb3).
  eapply returns_bind; [apply (decode_symbol_ok _ _ _ _ _ 1 Hat3 Hr3); cbn; lia|].
  intros [e br4] (Hat4 & Hr4 & He & Hb4).
  rewrite <- !app_assoc in Hat4. cbn [app] in Hat4.
  replace (n + 4)%nat with (S (S (S (S n)))) by lia.
  cbn. split_and!; [done|done|solve_bytes|lia|lia].
Qed.

Lemma stream_x1_four_eq st :
  stream_x1_four dt st =
    let '(out, br, p) := st in
    '(status, br) ← reload br;
    if (if decide (status = Unfinished) then p <? zlen out - 3 else false) then
      '(w, br) ← four_symbols dt br;
      out ← copy_from_slice out p (p + 4) w;
      Ok (inl (out, br, p + 4))
    else Ok (inr (out, br, p)).
Proof.
  destruct st as [[out br] p]. unfold stream_x1_four.
  destruct (reload br) as [[status br']| | |]; try done. cbn [mbind res_bind].
  case_match; [|done]. unfold four_symbols.
  do 4 (match goal with |- context [huf_decode_symbol_x1 ?b dt] =>
    destruct (huf_decode_symbol_x1 b dt) as [[? ?]| | |]; [|done..]; cbn [mbind res_bind] end).
  done.
Qed.

(** After the four-symbol loop: the last symbols are loaded. *)
Definition loop_end (s : list Z) (u0 : Z) (n0 : nat) (l0 : list Z) (len bound : Z)
    (st : list Z * BitDStream * Z) : Prop :=
  out_at s u0 n0 l0 len bound st.2 st.1.1 st.1.2 /\ bytes st.1.1 /\
  (bits_consumed st.1.2 <= 7 /\ len - st.2 <= 3 \/ ptr st.1.2 = 0).

Lemma stream_x1_four_ok s u0 n0 l0 len bound out br p :
  64 <= bound < 2 ^ 30 -> bytes out -> out_at s u0 n0 l0 len bound p out br ->
  returns (fun r => match r with
                    | inl st => out_at s u0 n0 l0 len bound st.2 st.1.1 st.1.2 /\
                                bytes st.1.1 /\ p < st.2
                    | inr st => loop_end s u0 n0 l0 len bound st
                    end) (stream_x1_four dt (out, br, p)).
Proof.
  intros Hbd Hby (Hl & Hp & Hb & Hat). rewrite stream_x1_four_eq.
  eapply returns_bind; [by apply at_cursor_reload|].
  intros [status br1] (Hat1 & Hb1 & Hun & Hov).
  destruct (decide (status = Unfinished)) as [Hst|Hst].
  - specialize (Hun Hst). destruct (Z.ltb_spec p (zlen out - 3)).
    + eapply returns_bind; [apply (four_symbols_ok _ _ _ _ _ 7 Hat1); cbn; unfold ready; lia|].
      intros [w br2] (Hat2 & Hw & Hwb & Hb2 & _).
      destruct (copy_from_slice_ok out w p (p + 4)) as (-> & Hcl & Hct); [lia..|].
      cbn. unfold out_at. split_and!; try lia.
      * rewrite Hct, app_assoc.
        by replace (n0 + Z.to_nat (p + 4))%nat with (n0 + Z.to_nat p + 4)%nat by lia.
      * repeat (apply Forall_app; split); [by apply Forall_take|done|by apply Forall_drop].
    + cbn. unfold loop_end, out_at. cbn. split_and!; try done; lia.
  - cbn. unfold loop_end, out_at. cbn. split_and!; try done; try lia. right. by apply Hov.
Qed.

Lemma stream_x1_rest_ok s u0 n0 l0 len bound st :
  64 <= bound -> bound + 11 * len < 2 ^ 30 -> loop_end s u0 n0 l0 len bound st ->
  returns (fun '(out', br') => zlen out' = len /\ bytes out' /\
             at_cursor s u0 (n0 + Z.to_nat len) (l0 ++ out') br')
    (loopM (Z.to_nat len + 1) (stream_x1_one dt) st).
Proof.
  intros Hbd Hlen Hst. change (2 ^ 30) with 1073741824 in Hlen.
  apply (returns_loopM (fun st => out_at s u0 n0 l0 len (bound + 11 * st.2) st.2 st.1.1 st.1.2 /\
      bytes st.1.1 /\ ready (len - st.2) st.1.2) (fun st => Z.to_nat (len - st.2))).
  - destruct st as [[out br] p]. destruct Hst as ((Hl & Hp & Hb & Hat) & Hby & Hr). cbn in *.
    split; [unfold out_at; split_and!; done || lia|]. split; [done|unfold ready; lia].
  - destruct st as [[out br] p]. destruct Hst as ((Hl & Hp & Hb & Hat) & Hby & Hr). cbn in *. lia.
  - intros [[out br] p] (Ho & Hby & Hr). cbn in *. pose proof Ho as (Hl & Hp & Hb & Hat).
    unfold stream_x1_one. rewrite Hl. destruct (Z.ltb_spec p len).
    + eapply returns_bind;
        [apply (out_at_symbol _ _ _ _ _ _ _ _ _ (len - p) Ho); change (2 ^ 31) with 2147483648; done || lia|].
      intros [x br'] (Hr' & Hx & Ho'). rewrite store_ok by lia. cbn.
      replace (len - p - 1) with (len - (p + 1)) in Hr' by lia.
      replace (bound + 11 * p + 11) with (bound + 11 * (p + 1)) in Ho' by lia.
      split_and!; try done; [by apply Forall_zset|lia].
    + cbn. assert (p = len) as -> by lia. rewrite ztake_all in Hat by lia. split_and!; done || lia.
Qed.

Lemma stream_x1_ok s u0 n0 l0 out br :
  at_cursor s u0 n0 l0 br -> bytes out -> zlen out <= 2 ^ 24 -> bits_consumed br <= 2 ^ 20 ->
  returns (fun '(out', br') => zlen out' = zlen out /\ bytes out' /\
             at_cursor s u0 (n0 + length out) (l0 ++ out') br')
    (huf_decode_stream_x1 out br dt).
Proof.
  intros Hat Hby Hlen Hb. unfold huf_decode_stream_x1. pose proof (zlen_nonneg out).
  change (2 ^ 24) with 16777216 in Hlen. change (2 ^ 20) with 1048576 in Hb.
  set (bound := 1048576).
  eapply returns_bind with (loop_end s u0 n0 l0 (zlen out) bound).
  { destruct (Z.ltb_spec 3 (zlen out)).
    - apply (returns_loopM (fun st => out_at s u0 n0 l0 (zlen out) bound st.2 st.1.1 st.1.2 /\
          bytes st.1.1) (fun st => Z.to_nat (zlen out - st.2))).
      + split; [|done]. unfold out_at. cbn. split_and!; try lia.
        by rewrite Nat.add_0_r, app_nil_r.
      + cbn. unfold zlen. lia.
      + intros [[out' br'] p] [Ho Hby']. cbn in *.
        eapply returns_mono; [apply (stream_x1_four_ok s u0 n0 l0 (zlen out) bound); [|done|done]|].
        { subst bound. cbn. lia. }
        intros [st|st]; [|done]. intros (Ho' & Hby2 & Hp). split; [done|].
        destruct Ho'. destruct Ho. lia.
    - eapply returns_bind; [by apply at_cursor_reload|].
      intros [st br1] (Hat1 & Hb1 & Hun & Hov). unfold loop_end, out_at. cbn. split_and!; try done; try lia.
      + by rewrite Nat.add_0_r, app_nil_r.
      + destruct (decide (st = Unfinished)) as [Hst|Hst]; [left|right]; [|by apply Hov].
        specialize (Hun Hst). lia. }
  intros [[out1 br1] p] Hend.
  pose proof (stream_x1_rest_ok s u0 n0 l0 (zlen out) bound _ ltac:(subst bound; lia)
    ltac:(subst bound; cbn; lia) Hend) as Hr.
  assert (Z.to_nat (zlen out) = length out) as Hzn by (unfold zlen; lia). rewrite Hzn in Hr.
  assert (length out1 = length out) as Hle.
  { destruct Hend as ((Hl & _) & _). cbn in Hl. unfold zlen in Hl. lia. }
  rewrite Hle. exact Hr.
Qed.
End decode.

(** ** One stream, whole *)

Lemma huf_decompress_1x1_ref out src t :
  complete t -> ht_decode t = x1_table t -> bytes src -> bytes out -> zlen out <= 2 ^ 24 ->
  match huf_ref (x1_table t) src (length out) with
  | Some l => huf_decompress_1x1 out src t = Ok l
  | None => exists e, huf_decompress_1x1 out src t = Err e
  end.
Proof.
  intros Hc Hdt Hs Ho Hlen. pose proof (x1_table_prefix t Hc) as Hp.
  unfold huf_decompress_1x1, huf_ref. rewrite Hdt. unfold huf_cells.
  rewrite (zlen_x1_table t Hc). change (Z.shiftl 1 HUF_FAST_TABLE_LOG) with (2 ^ HUF_FAST_TABLE_LOG).
  rewrite Z.eqb_refl. cbn [mbind res_bind].
  pose proof (new_ok src Hs) as Hn. unfold BitDStream.new in *.
  destruct (zget src (zlen src - 1)) as [last|] eqn:Hlast; cbn [ok_or mbind res_bind] in *;
    [|by eexists].
  unfold fail_if in *. destruct (Z.eqb_spec last 0) as [|Hnz]; cbn [mbind res_bind] in *; [by eexists|].
  match type of Hn with match ?m with _ => _ end => set (nw := m) in * end.
  destruct nw as [br| | |]; [|destruct Hn as [[_ Hnil]|[_ Hz]]; [subst src; done|congruence]|done|done].
  destruct Hn as (Hsrc & Hok & Hu & Hb & Hpos). cbn [mbind res_bind].
  assert (at_cursor (x1_table t) src (Z.log2 (le_val src)) 0 [] br) as Hat.
  { split_and!; try done. left. split_and!; [by rewrite Hu|rewrite Hu; apply Z.log2_nonneg|done]. }
  pose proof (stream_x1_ok _ Hp _ _ _ _ out br Hat Ho Hlen ltac:(cbn; lia)) as Hr.
  destruct (returns_inv _ _ Hr) as ([out' br'] & Heq & Hl & Hby & Hat'). rewrite Heq.
  cbn [mbind res_bind]. rewrite app_nil_l, Nat.add_0_l in Hat'.
  pose proof (at_cursor_finished _ _ _ _ _ _ Hat') as Hf.
  destruct (is_finished br') eqn:Hfin; cbn.
  - rewrite (proj1 Hf eq_refl). done.
  - destruct (decode_ref _ _ _ _) as [[l u]|] eqn:Hd; [|by eexists].
    destruct (Z.eqb_spec u 0) as [->|]; [|by eexists].
    destruct Hat' as (_ & _ & _ & [(Href & _)|(Href & _)]); [|congruence].
    exfalso. rewrite Hd in Href. injection Href as -> Hun.
    assert (false = true); [|done]. apply Hf. first [exact Hd|done].
Qed.

(** C23: The single-stream Huffman literals decoder is the reference decoder of
    the prefix code: for every table the decoder builds, input bytes and
    output size up to 2^24, it returns the reference's symbols when the
    stream's last symbol ends exactly on its first bit, and an error
    otherwise; no lookup, reload or write leaves a buffer and the loops end,
    however corrupt the stream. *)
Theorem huf_1x1_decodes out src t :
  complete t -> ht_decode t = x1_table t -> bytes src -> bytes out -> zlen out <= 2 ^ 24 ->
  match huf_ref (x1_table t) src (length out) with
  | Some l => huf_decompress_1x1 out src t = Ok l
  | None => exists e, huf_decompress_1x1 out src t = Err e
  end.
Proof. apply huf_decompress_1x1_ref. Qed.

Lemma huf_1x1_decodes_witness :
  exists t, huf_build_decoder huf_new [132; 0x11; 0x23; 0x40; 0; 0; 0; 0] 100 false = Ok (t, 4) /\
    huf_decompress_1x1 [0; 0; 0; 0] [0xD9] t = Ok [5; 4; 5; 3].
Proof.
  assert (bytes [132; 0x11; 0x23; 0x40; 0; 0; 0; 0]) as Hb by solve_bytes.
  pose proof (huf_build_x1_safe huf_new _ 100 huf_new_wf Hb) as H.
  destruct (huf_build_decoder _ _ _ _) as [[t n]|e| |] eqn:E; [|vm_compute in E; discriminate E..].
  destruct H as (Hc & _ & _ & Hd & _). exists t.
  assert (n = 4) as -> by (vm_compute in E; by injection E as <- <-).
  split; [done|].
  assert (bytes [0xD9]) as Hb1 by solve_bytes.
  assert (bytes [0; 0; 0; 0]) as Hb2 by solve_bytes.
  pose proof (huf_1x1_decodes [0; 0; 0; 0] [0xD9] t Hc Hd Hb1 Hb2 ltac:(done)) as H.
  assert (huf_ref (ht_decode t) [0xD9] 4 = Some [5; 4; 5; 3]) as Hr.
  { vm_compute in E. injection E as <-. by vm_compute. }
  rewrite <- Hd in H. change (length [0; 0; 0; 0]) with 4%nat in H. rewrite Hr in H. exact H.
Defined.
