(* ===== verification/HufFast.v ===== *)
(** * Four Huffman streams: the unchecked loop is the reference decoder

    [huf_4x1_fast_loop] keeps, per stream, a 64-bit container with a sentinel
    bit below its unread bits, and reads and writes without bounds checks.
    Here: none of its accesses leaves a buffer, and after it each stream
    stands where the reference decoder of [HufDecode] does, so that the
    section decodes to the four streams' reference symbols, on this path and
    on the plain one. *)

From S2P Require Import Prelude Words Constants Errors FseBuild BitDStream HufTable HufWeights.
From S2P Require Import HufFill HufStream HufDecode.

(** ** The sentinel *)

Lemma two_adic_unique a b k m : 0 <= a -> 0 <= b ->
  2 ^ a * (2 * k + 1) = 2 ^ b * (2 * m + 1) -> a = b.
Proof.
  assert (forall a b k m, 0 <= a < b -> 2 ^ a * (2 * k + 1) = 2 ^ b * (2 * m + 1) -> False) as Hlt.
  { intros x y k' m' H Heq. replace y with (x + (1 + (y - x - 1))) in Heq by lia.
    rewrite !pow2_add in Heq by lia. change (2 ^ 1) with 2 in Heq.
    pose proof (pow2_pos x ltac:(lia)). set (t := 2 ^ (y - x - 1)) in *.
    assert (2 * k' + 1 = 2 * (t * (2 * m' + 1))) as H2; [|lia].
    apply (Z.mul_reg_l _ _ (2 ^ x)); [lia|]. rewrite Heq. ring. }
  intros Ha Hb Heq. destruct (Z.lt_trichotomy a b) as [H|[H|H]]; [|done|].
  - exfalso. by apply (Hlt a b k m).
  - exfalso. apply (Hlt b a m k); [lia|done].
Qed.

(** The container: a window [w] with its sentinel, [c] bits consumed. *)
Definition container_of (w c : Z) : Z := wshl 64 (Z.lor w 1) c.

Lemma lor_1 w : 0 <= w -> Z.lor w 1 = w + (1 - w mod 2).
Proof.
  intros Hw. apply Z.bits_inj'. intros i Hi. rewrite Z.lor_spec.
  assert (w + (1 - w mod 2) = 2 * (w / 2) + 1) as -> by divlia.
  destruct (Z.eq_dec i 0) as [->|].
  - rewrite Z.testbit_odd_0. change (Z.testbit 1 0) with true. by rewrite orb_true_r.
  - replace i with (Z.succ (i - 1)) by lia. rewrite Z.testbit_odd_succ by lia.
    rewrite Z.bits_above_log2 with (a := 1) by (cbn; lia).
    rewrite orb_false_r. rewrite <- Z.div2_div, Z.div2_spec, Z.shiftr_spec by lia.
    f_equal; lia.
Qed.

Lemma container_ctz w c : 0 <= w < 2 ^ 64 -> 0 <= c <= 63 -> trailing_zeros 64 (container_of w c) = c.
Proof.
  intros Hw Hc. unfold container_of. rewrite wshl_div, lor_1 by lia.
  set (o := w + (1 - w mod 2)).
  assert (o mod 2 = 1) as Ho by (unfold o; divlia).
  assert ((o * 2 ^ c) mod 2 ^ 64 = 2 ^ c * (o mod 2 ^ (64 - c))) as ->.
  { replace 64 with (c + (64 - c)) at 1 by lia. rewrite pow2_add by lia.
    rewrite (Z.mul_comm o). apply Z.mul_mod_distr_l; apply Z.pow_nonzero; lia. }
  set (r := o mod 2 ^ (64 - c)).
  assert (r mod 2 = 1) as Hr.
  { unfold r. replace (64 - c) with (1 + (63 - c)) by lia. rewrite pow2_add by lia.
    change (2 ^ 1) with 2. rewrite <- Ho. apply Z.mod_mod_divide. exists (2 ^ (63 - c)). lia. }
  assert (0 <= r) by (apply Z.mod_pos_bound, pow2_pos; lia).
  assert (0 < r) by divlia.
  pose proof (pow2_pos c ltac:(lia)).
  destruct (trailing_zeros_spec 64 (2 ^ c * r)) as (k & Hk & Ht & Heq); [nia|].
  symmetry. apply (two_adic_unique c _ (r / 2) k); [lia|done|].
  rewrite <- Heq. f_equal. divlia.
Qed.

(** Eleven bits above the sentinel are the window's. *)
Lemma container_look w c : 0 <= w < 2 ^ 64 -> 0 <= c <= 52 ->
  Z.shiftr (container_of w c) 53 = bits w (53 - c) 11.
Proof.
  intros Hw Hc. unfold container_of. rewrite wshl_div, shiftr_div by lia.
  change 53 with (64 - 11) at 1. rewrite shift_look by lia.
  replace (64 - c - 11) with (53 - c) by lia.
  apply Z.bits_inj'. intros i Hi. rewrite !testbit_bits by lia. f_equal.
  rewrite Z.lor_spec. rewrite Z.bits_above_log2 with (a := 1) by (cbn; lia).
  apply orb_false_r.
Qed.

Lemma container_skip w c n : 0 <= c -> 0 <= n ->
  wshl 64 (container_of w c) n = container_of w (c + n).
Proof.
  intros Hc Hn. unfold container_of. rewrite !wshl_div by lia.
  rewrite Z.mul_mod_idemp_l by (apply Z.pow_nonzero; lia).
  rewrite pow2_add by lia. f_equal. lia.
Qed.

(** ** One stream's cursor in the section *)

Section fast.
Context (dt : list HuffmanEntry) (Hdt : prefix_table dt).
Context (src : list Z) (Hsrc : bytes src).

(** The stream [a, b) of the section. *)
Local Abbreviation part a b := (ztake (b - a) (zdrop a src)).
Local Abbreviation pval a b := (le_val (part a b)).

Lemma pval_bits a b : 0 <= a <= b -> b <= zlen src ->
  pval a b = bits (le_val src) (8 * a) (8 * (b - a)).
Proof. intros. by apply le_val_part. Qed.

(** The lookups of the section and of the stream agree on the bits the
    stream still has. *)
Lemma peek_part a b u m : 0 <= a <= b -> b <= zlen src -> 0 <= m <= u -> m <= 11 ->
  u <= 8 * (b - a) ->
  peek (le_val src) (8 * a + u) 11 / 2 ^ (11 - m) = peek (pval a b) u 11 / 2 ^ (11 - m).
Proof.
  intros Ha Hb Hm H11 Hu. apply Z.bits_inj'. intros i Hi.
  rewrite !Z.div_pow2_bits, !testbit_peek by lia.
  destruct (Z.ltb_spec (i + (11 - m)) 11); [|done]. cbn [andb].
  rewrite pval_bits by done.
  destruct (Z_lt_dec (i + (11 - m) + u - 11) 0); [lia|].
  rewrite testbit_bits by lia. destruct (Z.ltb_spec (i + (11 - m) + u - 11) (8 * (b - a))); [|lia].
  cbn [andb]. f_equal. lia.
Qed.

(** So do their cells, unless both pass the stream's start. *)
Lemma part_lookup a b u e : 0 <= a <= b -> b <= zlen src -> 0 < u <= 8 * (b - a) ->
  zget dt (peek (le_val src) (8 * a + u) HUF_FAST_TABLE_LOG) = Some e ->
  exists e', zget dt (peek (pval a b) u HUF_FAST_TABLE_LOG) = Some e' /\
    (e' = e \/ u < nb e /\ u < nb e').
Proof.
  intros Ha Hb Hu He. destruct (pt_cell dt Hdt _ _ He) as [Hnb _].
  pose proof (peek_range (pval a b) u HUF_FAST_TABLE_LOG ltac:(by vm_compute)) as Hpr.
  rewrite <- (pt_len dt Hdt) in Hpr. destruct (zget_is_Some _ _ Hpr) as [e' He'].
  destruct (pt_cell dt Hdt _ _ He') as [Hnb' _]. exists e'. split; [done|].
  unfold HUF_FAST_TABLE_LOG, HUF_TABLELOG_MAX in *.
  destruct (Z_le_gt_dec (nb e') u) as [Hle'|]; [left|destruct (Z_le_gt_dec (nb e) u) as [Hle|]; [left|right; lia]].
  - assert (zget dt (peek (le_val src) (8 * a + u) 11) = Some e'); [|congruence].
    apply (pt_prefix dt Hdt (peek (pval a b) u 11)); [done|apply peek_range; lia|].
    symmetry. apply (peek_part a b u (nb e') Ha Hb); lia.
  - assert (zget dt (peek (pval a b) u 11) = Some e); [|congruence].
    apply (pt_prefix dt Hdt (peek (le_val src) (8 * a + u) 11)); [done|apply peek_range; lia|].
    apply (peek_part a b u (nb e) Ha Hb); lia.
Qed.

(** After [n] symbols [l] of the stream [a, b): the container [bs] holds
    the eight bytes at [i], at most [cmax] bits of them consumed, and the
    position is the reference's, or below the stream's start for good. *)
Definition fast_at (a b : Z) (n : Z) (l : list Z) (i bs cmax : Z) : Prop :=
  exists c, 0 <= c <= cmax /\ bs = container_of (bits (le_val src) (8 * i) 64) c /\
    0 <= i /\ i + 8 <= b /\ zlen l = n /\ bytes l /\
    let u0 := Z.log2 (pval a b) in
    let u := 8 * i + 64 - c - 8 * a in
    (decode_ref dt (pval a b) u0 (Z.to_nat n) = Some (l, u) /\ 0 <= u \/
     decode_ref dt (pval a b) u0 (Z.to_nat n) = None /\ u < 0).

Lemma fast_at_lookup a b n l i bs cmax :
  0 <= a <= b -> b <= zlen src -> 0 <= n -> fast_at a b n l i bs cmax -> cmax <= 52 ->
  exists e, zget dt (Z.shiftr bs (64 - HUF_FAST_TABLE_LOG)) = Some e /\ is_byte (symbol e) /\
    fast_at a b (n + 1) (l ++ [symbol e]) i (wshl 64 bs (nb e)) (cmax + 11).
Proof.
  intros Ha Hb Hn (c & Hc & -> & Hi & Hib & Hl & Hbl & Hcur) Hcm.
  change (64 - HUF_FAST_TABLE_LOG) with 53.
  pose proof (bits_range (le_val src) (8 * i) 64 ltac:(lia)) as Hw.
  rewrite container_look, bits_bits by lia.
  set (q := 8 * i + 64 - c). set (u := q - 8 * a) in *.
  assert (bits (le_val src) (8 * i + (53 - c)) 11 = peek (le_val src) q 11) as ->.
  { rewrite peek_bits by lia. f_equal. lia. }
  pose proof (peek_range (le_val src) q 11 ltac:(lia)) as Hpr.
  change (2 ^ 11) with (2 ^ HUF_FAST_TABLE_LOG) in Hpr. rewrite <- (pt_len dt Hdt) in Hpr.
  destruct (zget_is_Some _ _ Hpr) as [e He].
  destruct (pt_cell dt Hdt _ _ He) as [Hnb Hsy]. unfold HUF_FAST_TABLE_LOG, HUF_TABLELOG_MAX in Hnb.
  exists e. split; [done|]. split; [done|]. exists (c + nb e).
  rewrite container_skip by lia.
  assert (zlen (l ++ [symbol e]) = n + 1) as Hl1.
  { rewrite zlen_app. change (zlen [symbol e]) with 1. lia. }
  split_and!; try done; try lia.
  { apply Forall_app. split; [done|]. constructor; [done|constructor]. }
  replace (Z.to_nat (n + 1)) with (S (Z.to_nat n)) by lia. cbn zeta in *.
  replace (8 * i + 64 - (c + nb e) - 8 * a) with (u - nb e) by lia.
  destruct Hcur as [[Href Hu]|[Href Hu]]; [|right; split; [by apply decode_ref_None_S|lia]].
  fold q u in Href, Hu. cbn [decode_ref]. rewrite Href.
  destruct (Z.ltb_spec 0 u); [|right; split; [done|lia]].
  destruct (part_lookup a b u e Ha Hb ltac:(lia)) as (e' & -> & [->|[H1 H2]]).
  { by replace (8 * a + u) with q by lia. }
  - destruct (Z.leb_spec (nb e) u); [left|right]; split; done || lia.
  - destruct (Z.leb_spec (nb e') u); [lia|]. right. split; [done|lia].
Qed.

(** A reload moves the container down by the whole bytes consumed. *)
Lemma fast_at_reload a b n l i bs cmax :
  b <= zlen src -> fast_at a b n l i bs cmax -> cmax <= 63 -> 7 <= i ->
  let ctz := trailing_zeros 64 bs in
  let i' := i - Z.shiftr ctz 3 in
  i - 7 <= i' /\ i' + 8 <= zlen src /\
  read_le64 src i' = Ok (bits (le_val src) (8 * i') 64) /\
  fast_at a b n l i' (wshl 64 (Z.lor (bits (le_val src) (8 * i') 64) 1) (Z.land ctz 7)) 7.
Proof.
  intros Hb (c & Hc & -> & Hi & Hib & Hl & Hbl & Hcur) Hcm H7 ctz i'.
  pose proof (bits_range (le_val src) (8 * i) 64 ltac:(lia)) as Hw.
  assert (ctz = c) as Hctz by (unfold ctz; apply container_ctz; done || lia).
  unfold i' in *. rewrite Hctz, shiftr_div by lia. change (2 ^ 3) with 8.
  replace (Z.land c 7) with (c mod 8) by (symmetry; apply (land_mod c 3); lia).
  split; [divlia|]. split; [divlia|]. split; [apply read_le64_ok; [done|divlia|divlia]|].
  exists (c mod 8). split_and!; try done; try divlia.
  cbn zeta in *. replace (8 * (i - c / 8) + 64 - c mod 8 - 8 * a) with (8 * i + 64 - c - 8 * a) by divlia.
  done.
Qed.

Lemma fast_at_mono a b n l i bs c c' : fast_at a b n l i bs c -> c <= c' -> fast_at a b n l i bs c'.
Proof. intros (x & Hx & H) Hc. exists x. split; [lia|done]. Qed.
End fast.

(** ** The layout of a section *)

Definition start_of (h : HufStreams) (s : Z) : Z := default 0 (zget (istart h) s).
Definition end_of (h : HufStreams) (s : Z) : Z := default 0 (zget (iend h) s).

Record layout (src : list Z) (dst : Z) (h : HufStreams) : Prop := {
  lay_start : forall s, 0 <= s < 4 -> zget (istart h) s = Some (start_of h s);
  lay_end : forall s, 0 <= s < 4 -> zget (iend h) s = Some (end_of h s);
  lay_range : forall s, 0 <= s < 4 -> 0 <= start_of h s <= end_of h s /\ end_of h s <= zlen src;
  lay_segment : 0 <= segment h /\ 3 * segment h <= dst <= 4 * segment h;
}.

Lemma four_cases s : 0 <= s < 4 -> s = 0 \/ s = 1 \/ s = 2 \/ s = 3.
Proof. lia. Qed.

Lemma split_layout src dst : bytes src -> 0 <= dst -> safe (layout src dst) (split src dst).
Proof.
  intros Hs Hd. unfold split. apply safe_fail_if. intros H10. bools.
  apply safe_idx; [lia|intros c0 Hc0]. apply safe_idx; [lia|intros c1 Hc1].
  apply safe_idx; [lia|intros c2 Hc2]. apply safe_idx; [lia|intros c3 Hc3].
  apply safe_idx; [lia|intros c4 Hc4]. apply safe_idx; [lia|intros c5 Hc5].
  assert (forall x y, is_byte x -> is_byte y -> 0 <= le_val [x; y]) as Hle.
  { intros x y Hx Hy. apply (le_val_range [x; y]). solve_bytes. }
  pose proof (fun i x => Forall_zget _ _ i x Hs) as Hby.
  assert (0 <= le_val [c0; c1]) as L1 by eauto. assert (0 <= le_val [c2; c3]) as L2 by eauto.
  assert (0 <= le_val [c4; c5]) as L3 by eauto.
  set (l1 := le_val [c0; c1]) in *. set (l2 := le_val [c2; c3]) in *. set (l3 := le_val [c4; c5]) in *.
  clearbody l1 l2 l3.
  apply safe_fail_if. intros Hj. apply safe_fail_if. intros Hsg. bools.
  apply safe_ok. assert (dst <= 4 * div_ceil dst 4 /\ 0 <= div_ceil dst 4) as [Hd4 Hd0]
    by (unfold div_ceil; divlia).
  split; cbn [istart iend segment]; try lia.
  all: intros s Hs4; destruct (four_cases s Hs4) as [->|[->|[->| ->]]]; unfold start_of, end_of, zget;
    try change (Z.to_nat 0) with 0%nat; try change (Z.to_nat 1) with 1%nat;
    try change (Z.to_nat 2) with 2%nat; try change (Z.to_nat 3) with 3%nat; cbn; try done; lia.
Qed.

(** The stream [s] of the section. *)
Definition stream_of (src : list Z) (h : HufStreams) (s : Z) : list Z :=
  ztake (end_of h s - start_of h s) (zdrop (start_of h s) src).

Lemma stream_ok_of src dst h s : layout src dst h -> 0 <= s < 4 ->
  stream h src s = Ok (stream_of src h s).
Proof.
  intros [Ha Hb Hr _] Hs. unfold stream. rewrite (idx_ok _ _ _ (Ha s Hs)). cbn [mbind res_bind].
  rewrite (idx_ok _ _ _ (Hb s Hs)). cbn [mbind res_bind]. apply slice_ok; apply Hr; done.
Qed.

Lemma zlen_stream_of src dst h s : layout src dst h -> 0 <= s < 4 ->
  zlen (stream_of src h s) = end_of h s - start_of h s.
Proof.
  intros [_ _ Hr _] Hs. destruct (Hr s Hs). unfold stream_of.
  rewrite zlen_ztake; [done|]. rewrite zlen_zdrop; lia.
Qed.

(** The symbols of stream [s] and their number. *)
Definition part_len (h : HufStreams) (dst s : Z) : Z := segment_end h s dst - s * segment h.

Definition part_ref (dt : list HuffmanEntry) (src : list Z) (h : HufStreams) (dst s : Z)
    : option (list Z) :=
  huf_ref dt (stream_of src h s) (Z.to_nat (part_len h dst s)).

(** The four parts of a section whose layout is known. *)
Definition parts_ref (dt : list HuffmanEntry) (src : list Z) (h : HufStreams) (dst : Z)
    : option (list Z) :=
  l0 ← part_ref dt src h dst 0; l1 ← part_ref dt src h dst 1;
  l2 ← part_ref dt src h dst 2; l3 ← part_ref dt src h dst 3;
  Some (l0 ++ l1 ++ l2 ++ l3).

(** The four parts, in order. *)
Definition huf4_ref (dt : list HuffmanEntry) (src : list Z) (dst : Z) : option (list Z) :=
  match split src dst with
  | Ok h => parts_ref dt src h dst
  | _ => None
  end.

Lemma parts_none dt src h dst s : 0 <= s < 4 -> part_ref dt src h dst s = None ->
  parts_ref dt src h dst = None.
Proof.
  intros Hs Hn. unfold parts_ref. destruct (four_cases s Hs) as [->|[->|[->| ->]]]; rewrite Hn.
  - done.
  - by destruct (part_ref dt src h dst 0).
  - by destruct (part_ref dt src h dst 0), (part_ref dt src h dst 1).
  - by destruct (part_ref dt src h dst 0), (part_ref dt src h dst 1), (part_ref dt src h dst 2).
Qed.

Lemma part_len_range src dst h s : layout src dst h -> 0 <= s < 4 ->
  0 <= part_len h dst s <= segment h /\ s * segment h + part_len h dst s <= dst /\
  (s < 3 -> part_len h dst s = segment h) /\ part_len h dst 3 <= part_len h dst s.
Proof.
  intros [_ _ _ Hsg] Hs. unfold part_len, segment_end.
  destruct (four_cases s Hs) as [->|[->|[->| ->]]]; lia.
Qed.

(** ** The four streams' state *)

Definition upd (f : Z -> Z) (s v : Z) : Z -> Z := fun x => if x =? s then v else f x.

Section loop.
Context (dt : list HuffmanEntry) (Hdt : prefix_table dt).
Context (src : list Z) (Hsrc : bytes src) (dst : Z) (h : HufStreams).
Context (Hlay : layout src dst h).

(** Stream [s] wrote up to [opv s] before its last reload, has [cnt s]
    symbols decoded, at most [cmax s] bits of its container consumed and
    its container at [ilow s] or above. *)
Record fast_inv (opv cnt cmax ilow : Z -> Z) (args : HufFastArgs) (out : list Z) : Prop := {
  fi_out : zlen out = dst;
  fi_bytes : bytes out;
  fi_len : zlen (ip args) = 4 /\ zlen (op args) = 4 /\ zlen (fbits args) = 4;
  fi_op : forall s, 0 <= s < 4 -> zget (op args) s = Some (s * segment h + opv s);
  fi_cnt : forall s, 0 <= s < 4 -> 0 <= cnt s <= part_len h dst s;
  fi_stream : forall s, 0 <= s < 4 -> exists i bs l,
    zget (ip args) s = Some i /\ zget (fbits args) s = Some bs /\ ilow s <= i /\
    fast_at dt src (start_of h s) (end_of h s) (cnt s) l i bs (cmax s) /\
    forall j x, zget l j = Some x -> zget out (s * segment h + j) = Some x;
}.

Lemma fast_inv_mono opv cnt cmax ilow opv' cnt' cmax' ilow' args out :
  fast_inv opv cnt cmax ilow args out ->
  (forall s, 0 <= s < 4 -> opv' s = opv s /\ cnt' s = cnt s /\ cmax s <= cmax' s /\ ilow' s <= ilow s) ->
  fast_inv opv' cnt' cmax' ilow' args out.
Proof.
  intros [H1 H2 H3 H4 H5 H6] Heq. split; try done.
  - intros s Hs. destruct (Heq s Hs) as (-> & _). by apply H4.
  - intros s Hs. destruct (Heq s Hs) as (_ & -> & _). by apply H5.
  - intros s Hs. destruct (Heq s Hs) as (_ & Hc & Hcm & Hil).
    destruct (H6 s Hs) as (i & bs & l & Hi & Hbs & Hlo & Hat & Hout).
    exists i, bs, l. rewrite Hc. split_and!; try done; [lia|]. by eapply fast_at_mono.
Qed.

Lemma fast_decode_ok opv cnt cmax ilow args out s k :
  fast_inv opv cnt cmax ilow args out -> 0 <= s < 4 -> opv s + k = cnt s ->
  cnt s < part_len h dst s -> cmax s <= 52 ->
  returns (fun '(args', out') =>
      fast_inv opv (upd cnt s (cnt s + 1)) (upd cmax s (cmax s + 11)) ilow args' out')
    (fast_decode_x1 dt (args, out) (s, k)).
Proof.
  intros [H1 H2 H3 H4 H5 H6] Hs Hk Hc Hcm. unfold fast_decode_x1.
  destruct (H6 s Hs) as (i & bs & l & Hi & Hbs & Hlo & Hat & Hout).
  rewrite (idx_ok _ _ _ Hbs). cbn [mbind res_bind].
  pose proof (lay_range _ _ _ Hlay s Hs) as [Hab Hbl].
  destruct (fast_at_lookup dt Hdt src Hsrc _ _ _ _ _ _ _ Hab Hbl (proj1 (H5 s Hs)) Hat Hcm)
    as (e & He & Hsy & Hat').
  rewrite (idx_ok _ _ _ He). cbn [mbind res_bind].
  rewrite (idx_ok _ _ _ (H4 s Hs)). cbn [mbind res_bind].
  destruct (part_len_range _ _ _ s Hlay Hs) as (Hp1 & Hp2 & Hp3 & _).
  pose proof (lay_segment _ _ _ Hlay) as Hsg. specialize (H5 s Hs) as Hcs.
  replace (s * segment h + opv s + k) with (s * segment h + cnt s) by lia.
  assert (0 <= s * segment h) by nia.
  rewrite !store_ok by lia. cbn [mbind res_bind returns].
  assert (zlen l = cnt s) as Hll by (destruct Hat as (? & ? & ? & ? & ? & ? & ?); done).
  split; cbn [ip op fbits].
  - by rewrite zlen_zset.
  - by apply Forall_zset.
  - rewrite zlen_zset. done.
  - done.
  - intros x Hx. unfold upd. destruct (Z.eqb_spec x s) as [->|]; [lia|by apply H5].
  - intros x Hx. unfold upd. destruct (Z.eqb_spec x s) as [->|Hne].
    + exists i, (wshl 64 bs (nb e)), (l ++ [symbol e]). split_and!; try done.
      * apply zget_zset_eq. destruct H3 as (_ & _ & ->). lia.
      * intros j y Hj. rewrite zget_zset by lia.
        pose proof (zget_lt _ _ _ Hj) as Hjr. rewrite zlen_app in Hjr.
        change (zlen [symbol e]) with 1 in Hjr.
        destruct (Z.eq_dec j (zlen l)) as [->|].
        -- rewrite zget_app_r, Z.sub_diag in Hj by lia. injection Hj as <-.
           rewrite Hll, Z.eqb_refl. done.
        -- rewrite zget_app_l in Hj by lia.
           destruct (Z.eqb_spec (s * segment h + cnt s) (s * segment h + j)); [lia|]. by apply Hout.
    + destruct (H6 x Hx) as (i' & bs' & l' & Hi' & Hbs' & Hlo' & Hat2 & Hout').
      exists i', bs', l'. split_and!; try done.
      * rewrite zget_zset_ne by lia. done.
      * intros j y Hj. rewrite zget_zset by lia.
        assert (zlen l' = cnt x) as Hll' by (destruct Hat2 as (? & ? & ? & ? & ? & ? & ?); done).
        pose proof (zget_lt _ _ _ Hj) as Hjr.
        destruct (part_len_range _ _ _ x Hlay Hx) as (Hx1 & _ & Hx3 & _).
        pose proof (H5 x Hx). 
        destruct (Z.eqb_spec (s * segment h + cnt s) (x * segment h + j)) as [Heq|]; [|by apply Hout'].
        exfalso. destruct (Z_lt_dec s x).
        -- assert (s < 3) by lia. specialize (Hp3 ltac:(lia)). nia.
        -- assert (x < 3) by lia. specialize (Hx3 ltac:(lia)). nia.
Qed.

Lemma fast_reload_ok k opv cnt cmax ilow args out s :
  fast_inv opv cnt cmax ilow args out -> 0 <= s < 4 -> cmax s <= 63 -> 7 <= ilow s ->
  returns (fun args' =>
      fast_inv (upd opv s (opv s + k)) cnt (upd cmax s 7) (upd ilow s (ilow s - 7)) args' out)
    (fast_reload src k args s).
Proof.
  intros [H1 H2 H3 H4 H5 H6] Hs Hcm Hil. unfold fast_reload.
  destruct (H6 s Hs) as (i & bs & l & Hi & Hbs & Hlo & Hat & Hout).
  rewrite (idx_ok _ _ _ Hbs). cbn [mbind res_bind].
  rewrite (idx_ok _ _ _ (H4 s Hs)). cbn [mbind res_bind]. destruct H3 as (H31 & H32 & H33).
  rewrite store_ok by lia. cbn [mbind res_bind].
  rewrite (idx_ok _ _ _ Hi). cbn [mbind res_bind]. rewrite store_ok by lia. cbn [mbind res_bind].
  pose proof (lay_range _ _ _ Hlay s Hs) as [Hab Hbl].
  destruct (fast_at_reload dt src Hsrc _ _ _ _ _ _ _ Hbl Hat Hcm ltac:(lia)) as (Hi7 & Hi8 & Hrd & Hat').
  rewrite Hrd. cbn [mbind res_bind]. rewrite store_ok by lia. cbn [mbind res_bind returns].
  split; cbn [ip op fbits]; try done.
  - by rewrite !zlen_zset.
  - intros x Hx. rewrite zget_zset by lia. unfold upd. rewrite (Z.eqb_sym x s).
    destruct (Z.eqb_spec s x) as [<-|]; [f_equal; lia|by apply H4].
  - intros x Hx. unfold upd. destruct (Z.eqb_spec x s) as [->|Hne].
    + eexists _, _, l. rewrite !zget_zset_eq by lia. split_and!; try done. lia.
    + destruct (H6 x Hx) as (i' & bs' & l' & Hi' & Hbs' & Hlo' & Hat2 & Hout').
      exists i', bs', l'. rewrite !zget_zset_ne by lia. by split_and!.
Qed.

(** The four streams in step: [n] symbols each. *)
Definition in_step (n cmax ilow : Z) : HufFastArgs -> list Z -> Prop :=
  fast_inv (fun _ => n) (fun _ => n) (fun _ => cmax) (fun _ => ilow).

Ltac upd_cases :=
  let s := fresh "s" in let Hs := fresh "Hs" in
  intros s Hs; unfold upd; destruct (four_cases s Hs) as [->|[->|[->| ->]]]; cbn; lia.

(** [decode!(0, k); .. decode!(3, k)]. *)
Lemma decode_row_ok n k cmax ilow args out :
  fast_inv (fun _ => n) (fun _ => n + k) (fun _ => cmax) (fun _ => ilow) args out ->
  n + k < part_len h dst 3 -> cmax <= 52 ->
  returns (fun '(args', out') => fast_inv (fun _ => n) (fun _ => n + (k + 1))
             (fun _ => cmax + 11) (fun _ => ilow) args' out')
    (foldM (fast_decode_x1 dt) (args, out) [(0, k); (1, k); (2, k); (3, k)]).
Proof.
  intros H0 Hn Hc.
  assert (forall s, 0 <= s < 4 -> n + k < part_len h dst s) as Hns.
  { intros s Hs. destruct (part_len_range _ _ _ s Hlay Hs) as (_ & _ & _ & ?). lia. }
  cbn [foldM].
  eapply returns_bind; [apply (fast_decode_ok _ _ _ _ _ _ 0 k H0); cbn; try lia; apply Hns; lia|].
  intros [a1 o1] H1.
  eapply returns_bind; [apply (fast_decode_ok _ _ _ _ _ _ 1 k H1); cbn; try lia; apply Hns; lia|].
  intros [a2 o2] H2.
  eapply returns_bind; [apply (fast_decode_ok _ _ _ _ _ _ 2 k H2); cbn; try lia; apply Hns; lia|].
  intros [a3 o3] H3.
  eapply returns_bind; [apply (fast_decode_ok _ _ _ _ _ _ 3 k H3); cbn; try lia; apply Hns; lia|].
  intros [a4 o4] H4. cbn. eapply fast_inv_mono; [exact H4|]. upd_cases.
Qed.

Lemma reload_row_ok n c ilow args out :
  fast_inv (fun _ => n) (fun _ => n + 5) (fun _ => c) (fun _ => ilow) args out ->
  c <= 63 -> 7 <= ilow ->
  returns (fun args' => in_step (n + 5) 8 (ilow - 7) args' out)
    (foldM (fast_reload src 5) args [0; 1; 2; 3]).
Proof.
  intros H0 Hc Hil. cbn [foldM].
  eapply returns_bind; [apply (fast_reload_ok 5 _ _ _ _ _ _ 0 H0); cbn; lia|]. intros a1 H1.
  eapply returns_bind; [apply (fast_reload_ok 5 _ _ _ _ _ _ 1 H1); cbn; lia|]. intros a2 H2.
  eapply returns_bind; [apply (fast_reload_ok 5 _ _ _ _ _ _ 2 H2); cbn; lia|]. intros a3 H3.
  eapply returns_bind; [apply (fast_reload_ok 5 _ _ _ _ _ _ 3 H3); cbn; lia|]. intros a4 H4.
  cbn. eapply fast_inv_mono; [exact H4|]. upd_cases.
Qed.

Lemma fast_order_rows : fast_order =
  [(0, 0); (1, 0); (2, 0); (3, 0)] ++ [(0, 1); (1, 1); (2, 1); (3, 1)] ++
  [(0, 2); (1, 2); (2, 2); (3, 2)] ++ [(0, 3); (1, 3); (2, 3); (3, 3)] ++
  [(0, 4); (1, 4); (2, 4); (3, 4)].
Proof. reflexivity. Qed.

(** One turn of the inner loop: five symbols of each stream. *)
Lemma fast_turn_ok n ilow olimit args out :
  in_step n 8 ilow args out -> 7 <= ilow -> n + 5 <= part_len h dst 3 ->
  returns (fun r => match r with
                    | inl (a, o) => in_step (n + 5) 8 (ilow - 7) a o /\
                                    3 * segment h + (n + 5) < olimit
                    | inr (a, o) => in_step (n + 5) 8 (ilow - 7) a o /\
                                    olimit <= 3 * segment h + (n + 5)
                    end) (fast_x1_turn src dt olimit (args, out)).
Proof.
  intros H0 Hil Hn. unfold fast_x1_turn. rewrite fast_order_rows.
  assert (fast_inv (fun _ => n) (fun _ => n + 0) (fun _ => 8) (fun _ => ilow) args out) as H0'.
  { eapply fast_inv_mono; [exact H0|]. intros s Hs. cbn. lia. }
  eapply returns_bind with (fun '(a, o) =>
    fast_inv (fun _ => n) (fun _ => n + 5) (fun _ => 63) (fun _ => ilow) a o).
  { rewrite foldM_app. eapply returns_bind; [apply (decode_row_ok n 0 8 ilow); done || lia|].
    intros [a1 o1] H1. rewrite foldM_app.
    eapply returns_bind; [apply (decode_row_ok n 1 19 ilow); done || lia|].
    intros [a2 o2] H2. rewrite foldM_app.
    eapply returns_bind; [apply (decode_row_ok n 2 30 ilow); done || lia|].
    intros [a3 o3] H3. rewrite foldM_app.
    eapply returns_bind; [apply (decode_row_ok n 3 41 ilow); done || lia|].
    intros [a4 o4] H4.
    eapply returns_mono; [apply (decode_row_ok n 4 52 ilow); done || lia|].
    intros [a5 o5] H5. exact H5. }
  intros [a o] H1. eapply returns_bind; [apply (reload_row_ok n 63 ilow); done || lia|].
  intros a' H2. rewrite (idx_ok _ _ _ (fi_op _ _ _ _ _ _ H2 3 ltac:(lia))).
  cbn [mbind res_bind returns]. destruct (Z.leb_spec olimit (3 * segment h + (n + 5))); by split.
Qed.

(** The inner loop: [iters] turns. *)
Lemma fast_turns_ok iters n ilow args out fuel :
  in_step n 8 ilow args out -> 1 <= iters -> 7 * iters <= ilow ->
  n + 5 * iters <= part_len h dst 3 -> iters < Z.of_nat fuel ->
  returns (fun '(a, o) => in_step (n + 5 * iters) 8 0 a o)
    (loopM fuel (fast_x1_turn src dt (3 * segment h + n + 5 * iters)) (args, out)).
Proof.
  revert iters n ilow args out. induction fuel as [|fuel IH]; intros iters n ilow args out H0 Hi Hil Hn Hf; [lia|].
  cbn [loopM]. eapply returns_bind; [apply (fast_turn_ok n ilow); done || lia|].
  intros [[a o]|[a o]] [Hs Ho].
  - assert (1 < iters) by lia.
    replace (3 * segment h + n + 5 * iters) with (3 * segment h + (n + 5) + 5 * (iters - 1)) by lia.
    eapply returns_mono; [apply (IH (iters - 1) (n + 5) (ilow - 7)); done || lia|].
    intros [a' o'] H'. eapply fast_inv_mono; [exact H'|]. intros s Hs'. cbn. lia.
  - assert (iters = 1) as -> by lia. cbn. eapply fast_inv_mono; [exact Hs|]. intros s Hs'. cbn. lia.
Qed.

(** The outer loop ends wherever it stops. *)
Lemma fast_loop_ok args out :
  in_step 0 8 0 args out ->
  returns (fun '(a, o) => exists n, in_step n 8 0 a o) (huf_4x1_fast_loop args out src dt).
Proof.
  intros H0. unfold huf_4x1_fast_loop.
  apply (returns_loopM
    (fun '(a, o) => exists n, in_step n 8 0 a o)
    (fun '(a, o) => Z.to_nat (dst - default 0 (zget (op a) 3)))).
  - by exists 0.
  - pose proof (fi_out _ _ _ _ _ _ H0) as Hout. unfold zlen in Hout.
    rewrite (fi_op _ _ _ _ _ _ H0 3) by lia. cbn -[Z.mul Z.add].
    pose proof (lay_segment _ _ _ Hlay). lia.
  - intros [a o] (n & Hn). unfold fast_x1_round.
    pose proof (fi_op _ _ _ _ _ _ Hn 3 ltac:(lia)) as Ho3.
    rewrite (idx_ok (op a) 3 _ Ho3). cbn [mbind res_bind].
    assert (forall s, 0 <= s < 4 -> exists i, zget (ip a) s = Some i /\ 0 <= i) as Hip.
    { intros s Hs. destruct (fi_stream _ _ _ _ _ _ Hn s Hs) as (i & bs & l & Hi & _ & Hlo & _).
      by exists i. }
    destruct (Hip 0 ltac:(lia)) as (i0 & Hi0 & Hp0). destruct (Hip 1 ltac:(lia)) as (i1 & Hi1 & Hp1).
    destruct (Hip 2 ltac:(lia)) as (i2 & Hi2 & Hp2). destruct (Hip 3 ltac:(lia)) as (i3 & Hi3 & Hp3).
    rewrite (idx_ok (ip a) 0 _ Hi0). cbn [mbind res_bind].
    rewrite (fi_out _ _ _ _ _ _ Hn).
    set (iters := Z.min ((dst - (3 * segment h + n)) / 5) (i0 / 7)).
    destruct (Z.eqb_spec (3 * segment h + n) (3 * segment h + n + iters * 5)).
    { cbn. by exists n. }
    unfold streams_crossed.
    rewrite (idx_ok _ _ _ Hi0). cbn [mbind res_bind]. rewrite (idx_ok _ _ _ Hi1). cbn [mbind res_bind].
    rewrite (idx_ok _ _ _ Hi2). cbn [mbind res_bind]. rewrite (idx_ok _ _ _ Hi3). cbn [mbind res_bind].
    destruct (_ || _) eqn:Hcr; [cbn; by exists n|]. bools.
    pose proof (fi_cnt _ _ _ _ _ _ Hn 3 ltac:(lia)) as Hcn. cbn beta in Hcn.
    assert (part_len h dst 3 = dst - 3 * segment h) as Hp.
    { unfold part_len, segment_end. pose proof (lay_segment _ _ _ Hlay). lia. }
    assert (0 <= (dst - (3 * segment h + n)) / 5) by (apply Z.div_pos; lia).
    assert (0 <= i0 / 7) by (apply Z.div_pos; lia).
    assert (1 <= iters) as Hit by (subst iters; lia).
    assert (in_step n 8 (7 * iters) a o) as Hn7.
    { destruct Hn as [F1 F2 F3 F4 F5 F6]. split; try done. intros s Hs.
      destruct (F6 s Hs) as (i & bs & l & Hi & Hb & Hlo & Hrest). exists i, bs, l.
      split_and!; try apply Hrest; try done.
      assert (i0 <= i) as Hii.
      { destruct (four_cases s Hs) as [->|[->|[->| ->]]]; simplify_eq; lia. }
      unfold iters. divlia. }
    replace (3 * segment h + n + iters * 5) with (3 * segment h + n + 5 * iters) by lia.
    assert (5 * iters <= dst - (3 * segment h + n)) as H5 by (unfold iters; divlia).
    pose proof (fi_out _ _ _ _ _ _ Hn) as Hout. unfold zlen in Hout.
    pose proof (lay_segment _ _ _ Hlay) as Hsg.
    eapply returns_bind; [apply (fast_turns_ok iters n (7 * iters)); done || lia|].
    intros [a' o'] H'. cbn. split; [by eexists|].
    pose proof (fi_op _ _ _ _ _ _ H' 3 ltac:(lia)) as Ho3'. rewrite Ho3, Ho3'.
    cbn -[Z.mul Z.add Z.sub]. lia.
Qed.
End loop.

Lemma decode_ref_mono dt v u0 n m : decode_ref dt v u0 n = None -> (n <= m)%nat ->
  decode_ref dt v u0 m = None.
Proof. induction 2 as [|m _ IH]; [done|]. by apply decode_ref_None_S. Qed.

Lemma huf_ref_None_prefix dt st n m :
  decode_ref dt (le_val st) (Z.log2 (le_val st)) n = None -> (n <= m)%nat ->
  huf_ref dt st m = None.
Proof.
  intros H Hle. unfold huf_ref. rewrite (decode_ref_mono _ _ _ _ _ H Hle).
  destruct (zget _ _); [|done]. by case_bool.
Qed.

Lemma huf_ref_final dt st last n l br :
  zget st (zlen st - 1) = Some last -> last <> 0 ->
  at_cursor dt st (Z.log2 (le_val st)) n l br ->
  if is_finished br then huf_ref dt st n = Some l else huf_ref dt st n = None.
Proof.
  intros Hlast Hnz Hat. unfold huf_ref. rewrite Hlast.
  destruct (Z.eqb_spec last 0); [done|].
  pose proof (at_cursor_finished _ _ _ _ _ _ Hat) as Hf.
  destruct (is_finished br) eqn:Hfin.
  - by rewrite (proj1 Hf eq_refl).
  - destruct (decode_ref _ _ _ _) as [[l' u]|] eqn:Hd; [|done].
    destruct (Z.eqb_spec u 0) as [->|]; [|done]. exfalso.
    destruct Hat as (_ & _ & _ & [(Href & _)|(Href & _)]); [|congruence].
    assert (false = true); [|done]. apply Hf. congruence.
Qed.

(** ** Setting the loop up, and finishing the streams *)

(** The rest of stream [s] by a decoder of one stream. *)
Definition fast_rest (decode : list Z -> BitDStream -> dec (list Z * BitDStream))
    (args : HufFastArgs) (h : HufStreams) (src : list Z) (out : list Z) (s : Z) : dec (list Z) :=
  let e := segment_end h s (zlen out) in
  o ← idx (op args) s;
  _ ← fail_if (e <? o) EStreamOverranSegment;
  br ← huf_remaining_dstream args h s src;
  seg ← slice out o e;
  '(seg, br) ← decode seg br;
  _ ← fail_if (negb (is_finished br)) EStreamNotConsumed;
  Ok (ztake o out ++ seg ++ zdrop e out).

(** A decoder that goes on where the reference stands, to the end of its
    output. *)
Definition stream_decoder (dt : list HuffmanEntry)
    (decode : list Z -> BitDStream -> dec (list Z * BitDStream)) : Prop :=
  forall s u0 n0 l0 out br,
    at_cursor dt s u0 n0 l0 br -> bytes out -> zlen out <= 2 ^ 24 -> bits_consumed br <= 2 ^ 20 ->
    returns (fun '(out', br') => zlen out' = zlen out /\ bytes out' /\
               at_cursor dt s u0 (n0 + length out) (l0 ++ out') br') (decode out br).

Section ends.
Context (dt : list HuffmanEntry).
Context (decode : list Z -> BitDStream -> dec (list Z * BitDStream)).
Context (Hdec : stream_decoder dt decode).
Context (src : list Z) (Hsrc : bytes src) (dst : Z) (h : HufStreams).
Context (Hlay : layout src dst h) (Hdst : dst <= 2 ^ 24).

(** Streams the fast loop takes: eight bytes or more, with an end mark. *)
Definition fast_stream (s : Z) : Prop :=
  8 <= end_of h s - start_of h s /\ exists last, zget src (end_of h s - 1) = Some last /\ last <> 0.

Lemma zget_stream_last s last : 0 <= s < 4 -> start_of h s < end_of h s ->
  zget src (end_of h s - 1) = Some last ->
  zget (stream_of src h s) (zlen (stream_of src h s) - 1) = Some last.
Proof.
  intros Hs Hlt Hl. rewrite (zlen_stream_of _ _ _ _ Hlay Hs).
  pose proof (lay_range _ _ _ Hlay s Hs). unfold stream_of.
  rewrite zget_ztake, zget_zdrop by lia. rewrite <- Hl. f_equal. lia.
Qed.

Lemma fast_init_stream_ok s : 0 <= s < 4 ->
  match fast_init_stream h src s with
  | Ok (Some (i, b)) => fast_stream s /\
      fast_at dt src (start_of h s) (end_of h s) 0 [] i b 8 /\ 0 <= i
  | Ok None => True
  | Err _ => part_ref dt src h dst s = None
  | Fault | Stuck => False
  end.
Proof.
  intros Hs. unfold fast_init_stream.
  rewrite (idx_ok _ _ _ (lay_start _ _ _ Hlay s Hs)). cbn [mbind res_bind].
  rewrite (idx_ok _ _ _ (lay_end _ _ _ Hlay s Hs)). cbn [mbind res_bind].
  pose proof (lay_range _ _ _ Hlay s Hs) as [Hab Hb].
  destruct (Z.ltb_spec (end_of h s - start_of h s) 8); [done|].
  destruct (zget_is_Some src (end_of h s - 1) ltac:(lia)) as [last Hlast].
  rewrite (idx_ok _ _ _ Hlast). cbn [mbind res_bind].
  pose proof (zget_stream_last s last Hs ltac:(lia) Hlast) as Hsl.
  unfold fail_if. destruct (Z.eqb_spec last 0) as [->|Hnz]; cbn [mbind res_bind].
  { unfold part_ref, huf_ref. rewrite Hsl. done. }
  rewrite read_le64_ok by (done || lia). cbn [mbind res_bind].
  split; [split; [done|by exists last]|]. split; [|lia].
  pose proof (Forall_zget _ _ _ _ Hsrc Hlast) as Hbyte. unfold is_byte in Hbyte.
  pose proof (byte_log2 last ltac:(lia)). rewrite leading_zeros_log2 by lia.
  exists (8 - 1 - Z.log2 last + 1). split_and!; try done; try lia.
  left. split; [|lia]. change (Z.to_nat 0) with 0%nat. cbn [decode_ref]. do 2 f_equal.
  assert (bytes (stream_of src h s)) as Hsb by (by apply Forall_take, Forall_drop).
  pose proof (le_val_log2 _ _ Hsb Hsl ltac:(lia)) as Hv.
  rewrite (zlen_stream_of _ _ _ _ Hlay Hs) in Hv. unfold stream_of in Hv. rewrite Hv. lia.
Qed.

Lemma fast_init_ok out : zlen out = dst -> bytes out ->
  match huf_fast_args_init h src dst with
  | Ok (Some args) => (forall s, 0 <= s < 4 -> fast_stream s) /\
      in_step dt src dst h 0 8 0 args out
  | Ok None => True
  | Err _ => exists s, 0 <= s < 4 /\ part_ref dt src h dst s = None
  | Fault | Stuck => False
  end.
Proof.
  intros Hout Hby. unfold huf_fast_args_init. destruct (dst <=? 3 * segment h); [done|].
  cbn [foldM mbind res_bind].
  pose proof (fast_init_stream_ok 0 ltac:(lia)) as H0.
  destruct (fast_init_stream h src 0) as [[[i0 b0]|]| | |]; try done; [|by exists 0].
  cbn [mbind res_bind app]. pose proof (fast_init_stream_ok 1 ltac:(lia)) as H1.
  destruct (fast_init_stream h src 1) as [[[i1 b1]|]| | |]; try done; [|by exists 1].
  cbn [mbind res_bind app]. pose proof (fast_init_stream_ok 2 ltac:(lia)) as H2.
  destruct (fast_init_stream h src 2) as [[[i2 b2]|]| | |]; try done; [|by exists 2].
  cbn [mbind res_bind app]. pose proof (fast_init_stream_ok 3 ltac:(lia)) as H3.
  destruct (fast_init_stream h src 3) as [[[i3 b3]|]| | |]; try done; [|by exists 3].
  cbn [mbind res_bind app].
  destruct H0 as (F0 & A0 & I0), H1 as (F1 & A1 & I1), H2 as (F2 & A2 & I2), H3 as (F3 & A3 & I3).
  split.
  { intros s Hs. destruct (four_cases s Hs) as [->|[->|[->| ->]]]; done. }
  pose proof (lay_segment _ _ _ Hlay). split; try done.
  - intros s Hs. cbn [op]. destruct (four_cases s Hs) as [->|[->|[->| ->]]].
    + change (Some 0 = Some (0 * segment h + 0)). done.
    + change (Some (segment h) = Some (1 * segment h + 0)). f_equal. lia.
    + change (Some (2 * segment h) = Some (2 * segment h + 0)). f_equal. lia.
    + change (Some (3 * segment h) = Some (3 * segment h + 0)). f_equal. lia.
  - intros s Hs. pose proof (part_len_range _ _ _ s Hlay Hs). cbn beta. lia.
  - intros s Hs. destruct (four_cases s Hs) as [->|[->|[->| ->]]].
    all: eexists _, _, []; split; [reflexivity|]; split; [reflexivity|]; split; [done|];
      split; [done|]; intros j x []%zget_Some; done.
Qed.

(** [l] stands at the start of segment [s]. *)
Definition filled (out : list Z) (s : Z) (l : list Z) : Prop :=
  forall j x, zget l j = Some x -> zget out (s * segment h + j) = Some x.

(** The plain decoder takes over where the fast loop left stream [s]. *)
Lemma remaining_ok cnt args out s :
  fast_inv dt src dst h cnt cnt (fun _ => 8) (fun _ => 0) args out -> 0 <= s < 4 -> fast_stream s ->
  exists l, filled out s l /\ zlen l = cnt s /\
  match huf_remaining_dstream args h s src with
  | Ok br => at_cursor dt (stream_of src h s) (Z.log2 (le_val (stream_of src h s))) (Z.to_nat (cnt s)) l br /\
      bits_consumed br <= 64
  | Err _ => part_ref dt src h dst s = None
  | Fault | Stuck => False
  end.
Proof.
  intros Hin Hs [H8 Hlast]. pose proof (fi_cnt _ _ _ _ _ _ _ _ _ _ Hin s Hs) as Hn. cbn beta in Hn.
  destruct (fi_stream _ _ _ _ _ _ _ _ _ _ Hin s Hs) as (i & bs & l & Hi & Hbs & Hlo & Hat & Hfill).
  exists l. split; [exact Hfill|].
  destruct Hat as (c & Hc & -> & Hi0 & Hib & Hl & Hbl & Hcur). cbn beta in Hc, Hl, Hcur. split; [done|].
  pose proof (lay_range _ _ _ Hlay s Hs) as [Hab Hb]. fold (stream_of src h s) in Hcur.
  unfold huf_remaining_dstream.
  rewrite (idx_ok _ _ _ (lay_start _ _ _ Hlay s Hs)). cbn [mbind res_bind].
  rewrite (stream_ok_of _ _ _ _ Hlay Hs). cbn [mbind res_bind].
  rewrite (idx_ok _ _ _ Hi). cbn [mbind res_bind].
  set (st := stream_of src h s) in *. set (u := 8 * i + 64 - c - 8 * start_of h s) in *.
  assert (zlen st = end_of h s - start_of h s) as Hsl by by eapply zlen_stream_of.
  assert (bytes st) as Hsb by (by apply Forall_take, Forall_drop).
  assert (u < 0 -> part_ref dt src h dst s = None) as Hdead.
  { intros Hu. destruct Hcur as [[_ ?]|[Href _]]; [lia|].
    apply (huf_ref_None_prefix _ _ _ _ Href). unfold part_len in *. lia. }
  pose proof (bits_range (le_val src) (8 * i) 64 ltac:(lia)) as Hw.
  unfold fail_if. destruct (Z.ltb_spec (i + 8) (start_of h s)); cbn [mbind res_bind]; [apply Hdead; lia|].
  rewrite (idx_ok _ _ _ Hbs). 
  destruct (Z.leb_spec (start_of h s) i); cbn [mbind res_bind];
    rewrite container_ctz by (done || lia).
  - rewrite (wrap_small 32 0) by (cbn; lia). destruct (Z.ltb_spec 64 (c + 0 * 8)); [lia|].
    cbn [mbind res_bind]. rewrite read_le64_ok by (done || lia). cbn [mbind res_bind].
    destruct Hcur as [[Href Hu]|[_ ?]]; [|lia].
    split; [|cbn; lia]. split_and!; try done.
    + split; cbn; try done; try lia.
    + unfold zlen in Hl. lia.
    + left. assert (unread (MkDStream st (i - start_of h s) (bits (le_val st) (8 * (i - start_of h s)) 64)
        (c + 0 * 8)) = u) as -> by (unfold unread; cbn; lia). split_and!; try done; cbn; lia.
  - rewrite (wrap_small 32) by (change (2 ^ 32) with 4294967296; lia).
    destruct (Z.ltb_spec 64 (c + (start_of h s - i) * 8)); cbn [mbind res_bind]; [apply Hdead; lia|].
    rewrite read_le64_ok by (done || lia). cbn [mbind res_bind].
    destruct Hcur as [[Href Hu]|[_ ?]]; [|lia].
    split; [|cbn; lia]. split_and!; try done.
    + split; cbn; try done; try lia.
    + unfold zlen in Hl. lia.
    + left. assert (unread (MkDStream st 0 (bits (le_val st) (8 * 0) 64)
        (c + (start_of h s - i) * 8)) = u) as -> by (unfold unread; cbn; lia).
      split_and!; try done; cbn; lia.
Qed.

Lemma segment_end_eq s : segment_end h s dst = s * segment h + part_len h dst s.
Proof. unfold part_len. lia. Qed.

Lemma zget_splice (out seg : list Z) a b j : 0 <= a -> a + zlen seg = b -> b <= zlen out ->
  zget (ztake a out ++ seg ++ zdrop b out) j =
  if (a <=? j) && (j <? b) then zget seg (j - a) else zget out j.
Proof.
  intros Ha Hb Hl. pose proof (zlen_nonneg seg).
  assert (zlen (ztake a out) = a) as Hta by (apply zlen_ztake; lia).
  destruct (Z_lt_dec j a).
  { destruct (Z.leb_spec a j); [lia|]. cbn [andb]. rewrite zget_app_l by lia.
    destruct (Z_lt_dec j 0); [by rewrite !zget_None by lia|]. by rewrite zget_ztake by lia. }
  destruct (Z.leb_spec a j); [|lia]. cbn [andb]. rewrite zget_app_r, Hta by lia.
  destruct (Z.ltb_spec j b).
  - rewrite zget_app_l by lia. done.
  - rewrite zget_app_r by lia. rewrite zget_zdrop by lia. f_equal. lia.
Qed.

(** The rest of one stream: the segment is the reference's, and the other
    segments are kept. *)
Lemma fast_rest_ok cnt args out0 out s :
  fast_inv dt src dst h cnt cnt (fun _ => 8) (fun _ => 0) args out0 -> 0 <= s < 4 -> fast_stream s ->
  zlen out = dst -> bytes out ->
  (forall j, s * segment h <= j < s * segment h + cnt s -> zget out j = zget out0 j) ->
  match part_ref dt src h dst s with
  | Some full => exists out', fast_rest decode args h src out s = Ok out' /\
      zlen out' = dst /\ bytes out' /\ zlen full = part_len h dst s /\ filled out' s full /\
      forall j, j < s * segment h \/ s * segment h + part_len h dst s <= j ->
        zget out' j = zget out j
  | None => exists e, fast_rest decode args h src out s = Err e
  end.
Proof.
  intros Hin Hs Hfs Hout Hby Hsame.
  pose proof (fi_cnt _ _ _ _ _ _ _ _ _ _ Hin s Hs) as Hn. cbn beta in Hn.
  pose proof (fi_op _ _ _ _ _ _ _ _ _ _ Hin s Hs) as Hop. cbn beta in Hop.
  destruct (part_len_range _ _ _ s Hlay Hs) as (Hp1 & Hp2 & _).
  pose proof (lay_segment _ _ _ Hlay) as Hsg.
  assert (0 <= s * segment h) by nia.
  unfold fast_rest. rewrite Hout, segment_end_eq.
  rewrite (idx_ok _ _ _ Hop). cbn [mbind res_bind]. unfold fail_if at 1.
  destruct (Z.ltb_spec (s * segment h + part_len h dst s) (s * segment h + cnt s)); [lia|].
  cbn [mbind res_bind].
  destruct (remaining_ok cnt args out0 s Hin Hs Hfs) as (l & Hfill & Hl & Hrem).
  destruct (huf_remaining_dstream args h s src) as [br|e| |]; [|rewrite Hrem; by exists e|done|done].
  destruct Hrem as [Hat Hb64]. cbn [mbind res_bind].
  rewrite slice_ok by lia. cbn [mbind res_bind].
  set (st := stream_of src h s) in *.
  set (seg := ztake _ (zdrop _ out)).
  assert (zlen seg = part_len h dst s - cnt s) as Hseg.
  { unfold seg. rewrite zlen_ztake; [lia|]. rewrite zlen_zdrop; lia. }
  pose proof (Hdec _ _ _ _ seg br Hat) as Hr.
  destruct (returns_inv _ _ (Hr ltac:(by apply Forall_take, Forall_drop) ltac:(lia)
    ltac:(change (2 ^ 20) with 1048576; lia))) as ([seg' br'] & Heq & Hl' & Hby' & Hat').
  rewrite Heq. cbn [mbind res_bind].
  assert (Z.to_nat (cnt s) + length seg = Z.to_nat (part_len h dst s))%nat as Hlen.
  { unfold zlen in Hseg. lia. }
  rewrite Hlen in Hat'. destruct Hfs as [H8 (last & Hlast & Hnz)].
  pose proof (huf_ref_final dt st last _ _ _ ltac:(apply zget_stream_last; done || lia) Hnz Hat') as Hfin.
  unfold part_ref. fold st. destruct (is_finished br'); rewrite Hfin; cbn; [|by eexists].
  assert (zlen seg' = part_len h dst s - cnt s) as Hsl by lia.
  eexists. split; [done|]. split_and!.
  - rewrite !zlen_app, zlen_ztake, zlen_zdrop by lia. lia.
  - repeat (apply Forall_app; split); [by apply Forall_take|done|by apply Forall_drop].
  - rewrite zlen_app. lia.
  - intros j x Hj. pose proof (zget_lt _ _ _ Hj) as Hjr. rewrite zlen_app in Hjr.
    rewrite zget_splice by lia. destruct (Z_lt_dec j (cnt s)).
    + destruct (Z.leb_spec (s * segment h + cnt s) (s * segment h + j)); [lia|]. cbn [andb].
      rewrite Hsame by lia. apply Hfill. rewrite zget_app_l in Hj by lia. done.
    + destruct (Z.leb_spec (s * segment h + cnt s) (s * segment h + j)); [|lia].
      destruct (Z.ltb_spec (s * segment h + j) (s * segment h + part_len h dst s)); [|lia].
      cbn [andb]. rewrite zget_app_r in Hj by lia. rewrite <- Hj. f_equal. lia.
  - intros j Hj. rewrite zget_splice by lia.
    destruct (Z.leb_spec (s * segment h + cnt s) j), (Z.ltb_spec j (s * segment h + part_len h dst s)); try lia; done.
Qed.

(** The segments are disjoint. *)
Lemma segments_disjoint s x j : 0 <= s < 4 -> 0 <= x < 4 -> s <> x ->
  x * segment h <= j < x * segment h + part_len h dst x ->
  j < s * segment h \/ s * segment h + part_len h dst s <= j.
Proof.
  intros Hs Hx Hne Hj.
  destruct (part_len_range _ _ _ s Hlay Hs) as (Hp1 & _).
  destruct (part_len_range _ _ _ x Hlay Hx) as (Hx1 & _).
  destruct (Z_lt_dec s x); nia.
Qed.

(** The rests of the streams [ss], one after the other. *)
Lemma fast_rests_ok cnt args out0 ss out :
  fast_inv dt src dst h cnt cnt (fun _ => 8) (fun _ => 0) args out0 ->
  (forall s, 0 <= s < 4 -> fast_stream s) -> NoDup ss -> Forall (fun s => 0 <= s < 4) ss ->
  zlen out = dst -> bytes out ->
  (forall s j, s ∈ ss -> s * segment h <= j < s * segment h + cnt s -> zget out j = zget out0 j) ->
  (exists out', foldM (fast_rest decode args h src) out ss = Ok out' /\ zlen out' = dst /\
     (forall s, s ∈ ss -> exists full, part_ref dt src h dst s = Some full /\
        zlen full = part_len h dst s /\ filled out' s full) /\
     (forall x j, 0 <= x < 4 -> x ∉ ss ->
        x * segment h <= j < x * segment h + part_len h dst x -> zget out' j = zget out j)) \/
  (exists s e, s ∈ ss /\ part_ref dt src h dst s = None /\
     foldM (fast_rest decode args h src) out ss = Err e).
Proof.
  intros Hin Hfs Hnd Hss. revert out. induction Hss as [|s ss Hs Hss IH]; intros out Hout Hby Hsame.
  - left. exists out. split_and!; try done. intros s Hs%not_elem_of_nil. done.
  - apply NoDup_cons in Hnd as [Hni Hnd]. cbn [foldM].
    pose proof (fast_rest_ok cnt args out0 out s Hin Hs (Hfs s Hs) Hout Hby) as Hr.
    specialize (Hr ltac:(intros j Hj; apply (Hsame s); [by left|done])).
    destruct (part_ref dt src h dst s) as [full|] eqn:Hpr.
    2: { destruct Hr as [e Hr]. right. exists s, e. rewrite Hr. split_and!; [by left|done|done]. }
    destruct Hr as (out1 & -> & Ho1 & Hb1 & Hfl & Hfi & Hkeep). cbn [mbind res_bind].
    pose proof (fi_cnt _ _ _ _ _ _ _ _ _ _ Hin) as Hn. cbn beta in Hn.
    destruct (IH Hnd out1 Ho1 Hb1) as [(out' & Heq & Ho' & Hall & Hk)|(x & e & Hx & Hxn & Heq)].
    + intros x j Hx Hj. rewrite Forall_forall in Hss. pose proof (Hss x Hx) as Hx4. cbn beta in Hx4.
      rewrite Hkeep; [by apply (Hsame x); [by right|]|].
      apply (segments_disjoint s x); try done; [intros ->; done|]. pose proof (Hn x Hx4). lia.
    + left. exists out'. split_and!; try done.
      * intros x [->|Hx]%elem_of_cons; [|by apply Hall]. exists full. split_and!; try done.
        intros j y Hj. pose proof (zget_lt _ _ _ Hj). rewrite (Hk s) by (done || lia). by apply Hfi.
      * intros x j Hx Hnx Hj. apply not_elem_of_cons in Hnx as [Hne Hnx].
        rewrite (Hk x) by done. apply Hkeep. by apply (segments_disjoint s x).
    + right. exists x, e. split_and!; [by right|done|done].
Qed.

(** Four full segments are the output. *)
Lemma filled_all out l0 l1 l2 l3 :
  zlen out = dst -> zlen l0 = part_len h dst 0 -> zlen l1 = part_len h dst 1 ->
  zlen l2 = part_len h dst 2 -> zlen l3 = part_len h dst 3 ->
  filled out 0 l0 -> filled out 1 l1 -> filled out 2 l2 -> filled out 3 l3 ->
  out = l0 ++ l1 ++ l2 ++ l3.
Proof.
  intros Hout H0 H1 H2 H3 F0 F1 F2 F3. pose proof (lay_segment _ _ _ Hlay) as Hsg.
  unfold part_len, segment_end in *.
  apply zlist_eq; [rewrite !zlen_app; lia|]. intros j Hj.
  assert (forall s l, filled out s l -> 0 <= j - s * segment h < zlen l ->
            zget out j = zget l (j - s * segment h)) as Hf.
  { intros s l Hl Hr. destruct (zget_is_Some l _ Hr) as [x Hx]. rewrite Hx.
    rewrite <- (Hl _ _ Hx). f_equal. lia. }
  destruct (Z_lt_dec j (segment h)).
  { rewrite zget_app_l by lia. rewrite (Hf 0 l0 F0) by lia. f_equal. lia. }
  rewrite zget_app_r by lia. destruct (Z_lt_dec j (2 * segment h)).
  { rewrite zget_app_l by lia. rewrite (Hf 1 l1 F1) by lia. f_equal. lia. }
  rewrite zget_app_r by lia. destruct (Z_lt_dec j (3 * segment h)).
  { rewrite zget_app_l by lia. rewrite (Hf 2 l2 F2) by lia. f_equal. lia. }
  rewrite zget_app_r by lia. rewrite (Hf 3 l3 F3) by lia. f_equal. lia.
Qed.
End ends.

(** What the loop leaves, finished. *)
Lemma fast_rests_path dt decode src dst h cnt args out :
  stream_decoder dt decode -> bytes src -> layout src dst h -> dst <= 2 ^ 24 ->
  (forall s, 0 <= s < 4 -> fast_stream src h s) ->
  fast_inv dt src dst h cnt cnt (fun _ => 8) (fun _ => 0) args out ->
  match parts_ref dt src h dst with
  | Some o => foldM (fast_rest decode args h src) out [0; 1; 2; 3] = Ok o
  | None => exists e, foldM (fast_rest decode args h src) out [0; 1; 2; 3] = Err e
  end.
Proof.
  intros Hdec Hsrc Hlay Hdst Hfs Hin.
  destruct (fast_rests_ok dt decode Hdec src Hsrc dst h Hlay Hdst cnt args out [0; 1; 2; 3] out Hin)
    as [(o & Heq & Ho & Hall & _)|(s & e & Hs & Hn & Heq)]; try done.
  - by apply (bool_decide_unpack _).
  - repeat constructor; lia.
  - by destruct Hin.
  - by destruct Hin.
  - rewrite Heq. unfold parts_ref.
    destruct (Hall 0 ltac:(repeat constructor)) as (l0 & -> & L0 & F0).
    destruct (Hall 1 ltac:(repeat constructor)) as (l1 & -> & L1 & F1).
    destruct (Hall 2 ltac:(repeat constructor)) as (l2 & -> & L2 & F2).
    destruct (Hall 3 ltac:(repeat constructor)) as (l3 & -> & L3 & F3).
    cbn. f_equal. by eapply (filled_all src dst h Hlay).
  - rewrite Heq, (parts_none _ _ _ _ s); [by eexists| |done].
    rewrite !elem_of_cons, elem_of_nil in Hs. lia.
Qed.

(** The fast path of [huf_decompress_4x1]. *)
Lemma fast_path_ok dt src dst h args out :
  prefix_table dt -> bytes src -> layout src dst h -> dst <= 2 ^ 24 ->
  (forall s, 0 <= s < 4 -> fast_stream src h s) ->
  in_step dt src dst h 0 8 0 args out ->
  match parts_ref dt src h dst with
  | Some o => ('(args, out) ← huf_4x1_fast_loop args out src dt;
               foldM (fast_rest_x1 args h src dt) out [0; 1; 2; 3]) = Ok o
  | None => exists e, ('(args, out) ← huf_4x1_fast_loop args out src dt;
               foldM (fast_rest_x1 args h src dt) out [0; 1; 2; 3]) = Err e
  end.
Proof.
  intros Hdt Hsrc Hlay Hdst Hfs Hin.
  pose proof (fast_loop_ok dt Hdt src Hsrc dst h Hlay args out Hin) as Hloop.
  destruct (returns_inv _ _ Hloop) as ([args' out'] & -> & n & Hin'). cbn [mbind res_bind].
  apply (fast_rests_path dt (fun seg br => huf_decode_stream_x1 seg br dt) src dst h (fun _ => n)); try done.
  intros s u0 n0 l0 o br. by apply stream_x1_ok.
Qed.

(** ** The plain path *)

Section plain.
Context (dt : list HuffmanEntry) (Hdt : prefix_table dt).
Context (src : list Z) (Hsrc : bytes src) (dst : Z) (h : HufStreams).
Context (Hlay : layout src dst h) (Hdst : dst <= 2 ^ 24).

Local Abbreviation st s := (stream_of src h s).

(** Stream [s] with [p] bytes of its segment written. *)
Definition plain_at (p s : Z) (x : list Z * BitDStream) : Prop :=
  0 <= s < 4 /\ zlen x.1 = part_len h dst s /\ bytes x.1 /\ 0 <= p <= part_len h dst s /\
  at_cursor dt (st s) (Z.log2 (le_val (st s))) (Z.to_nat p) (ztake p x.1) x.2 /\
  bits_consumed x.2 <= 128 /\
  exists last, zget (st s) (zlen (st s) - 1) = Some last /\ last <> 0.

(** The next turn's lookups are loaded. *)
Definition plain_ready (x : list Z * BitDStream) : Prop :=
  ready 4 x.2 /\ bits_consumed x.2 <= 64.

Lemma plain_new_ok s : 0 <= s < 4 ->
  match BitDStream.new (st s) with
  | Ok br => at_cursor dt (st s) (Z.log2 (le_val (st s))) 0 [] br /\ ready 4 br /\
      bits_consumed br <= 64 /\
      exists last, zget (st s) (zlen (st s) - 1) = Some last /\ last <> 0
  | Err _ => part_ref dt src h dst s = None
  | Fault | Stuck => False
  end.
Proof.
  intros Hs. assert (bytes (st s)) as Hb by (by apply Forall_take, Forall_drop).
  pose proof (new_ok (st s) Hb) as Hn. destruct (BitDStream.new (st s)) as [br|e| |] eqn:Hnew; try done.
  - destruct Hn as (Hsr & Hok & Hu & H64 & _). pose proof (new_loaded _ _ Hb Hnew) as Hld.
    split; [split; [done|split; [done|split; [done|]]]|split_and!].
    + left. split_and!; [by rewrite Hu|rewrite Hu; apply Z.log2_nonneg|done].
    + unfold ready. destruct Hld as [[H1 H2]|H0]; [lia|]. right. unfold unread in H0.
      pose proof (ok_ptr _ Hok). lia.
    + done.
    + unfold BitDStream.new in Hnew. destruct (zget (st s) (zlen (st s) - 1)) as [last|]; [|done].
      cbn [ok_or mbind res_bind] in Hnew. exists last. split; [done|]. intros ->. done.
  - unfold part_ref, huf_ref. destruct Hn as [[_ Hnil]|[_ Hz]].
    + rewrite Hnil. done.
    + rewrite Hz. done.
Qed.

Lemma plain_stream_ok p s x : plain_at p s x -> plain_ready x -> p + 4 <= part_len h dst s ->
  returns (fun '(b, x') => plain_at (p + 4) s x' /\ (b = true -> plain_ready x'))
    (plain_x1_stream dt p x).
Proof.
  intros (Hs & Hl & Hby & Hp & Hat & Hb & Hmark) [Hr Hb64] Hp4. destruct x as [o br]. cbn in *.
  eapply returns_bind; [apply (four_symbols_ok dt Hdt _ _ _ _ _ 64 Hat Hr); cbn; lia|].
  intros [w br1] (Hat1 & Hw & Hwb & Hb1 & _).
  destruct (copy_from_slice_ok o w p (p + 4)) as (-> & Hcl & Hct); [lia..|]. cbn [mbind res_bind].
  eapply returns_bind; [apply (at_cursor_reload_fast dt _ _ _ _ _ Hat1)|].
  { destruct Hat1 as (_ & _ & _ & [(_ & _ & ?)|(_ & ? & _)]); lia. }
  intros [status br2] (Hat2 & Hb2 & Hun). cbn. split.
  - unfold plain_at. cbn. split_and!; try done; try lia.
    + repeat (apply Forall_app; split); [by apply Forall_take|done|by apply Forall_drop].
    + rewrite Hct. by replace (Z.to_nat (p + 4)) with (Z.to_nat p + 4)%nat by lia.
  - intros Hsig%bool_decide_eq_true. specialize (Hun Hsig). split; cbn; [|lia].
    unfold ready. lia.
Qed.

(** One turn over all the streams. *)
Lemma plain_streams_ok p ids ss sig done_ids dn :
  Forall2 (plain_at p) ids ss -> Forall plain_ready ss ->
  Forall (fun s => p + 4 <= part_len h dst s) ids ->
  Forall2 (plain_at (p + 4)) done_ids dn -> (sig = true -> Forall plain_ready dn) ->
  returns (fun '(sig', ss') => Forall2 (plain_at (p + 4)) (done_ids ++ ids) ss' /\
             (sig' = true -> Forall plain_ready ss'))
    (foldM (fun '(sig, dn) s =>
        '(b, s) ← plain_x1_stream dt p s;
        Ok (sig && b, dn ++ [s]) : dec _) (sig, dn) ss).
Proof.
  intros Hall. revert sig done_ids dn. induction Hall as [|s x ids ss Hx Hall IH];
    intros sig done_ids dn Hr Hp Hd Hsig; cbn [foldM].
  - rewrite app_nil_r. done.
  - inversion Hr as [|? ? Hrx Hrs]; subst. inversion Hp as [|? ? Hpx Hps]; subst.
    rewrite bind_assoc. eapply returns_bind; [by apply (plain_stream_ok p s x)|].
    intros [b x'] [Hx' Hbr]. cbn [mbind res_bind].
    replace (done_ids ++ s :: ids) with ((done_ids ++ [s]) ++ ids) by by rewrite <- app_assoc.
    apply IH; try done.
    + apply Forall2_app; [done|]. by constructor.
    + intros [? ?]%andb_true_iff. apply Forall_app. split; [by apply Hsig|].
      constructor; [by apply Hbr|constructor].
Qed.

Local Abbreviation ids := [0; 1; 2; 3].

Lemma ids_range s : s ∈ ids -> 0 <= s < 4.
Proof. rewrite !elem_of_cons, elem_of_nil. lia. Qed.

Lemma plain_loop_ok ss : Forall2 (plain_at 0) ids ss -> Forall plain_ready ss ->
  returns (fun '(ss', p) => Forall2 (plain_at p) ids ss')
    (loopM (Z.to_nat (part_len h dst 3) + 1) (plain_x1_turn dt) (true, 0, ss)).
Proof.
  intros H0 Hr. pose proof (part_len_range _ _ _ 3 Hlay ltac:(lia)) as Hp3.
  apply (returns_loopM (fun '(sig, p, ss) => 0 <= p <= part_len h dst 3 /\
      Forall2 (plain_at p) ids ss /\ (sig = true -> Forall plain_ready ss))
    (fun '(_, p, _) => Z.to_nat (part_len h dst 3 - p))).
  - split_and!; done || lia.
  - lia.
  - intros [[sig p] ss'] (Hp & Hall & Hsig). unfold plain_x1_turn.
    destruct (Forall2_lookup_l _ _ _ 3%nat 3 Hall eq_refl) as (x4 & Hx4 & Hat4).
    rewrite (idx_ok ss' 3 x4) by (change 3 with (Z.of_nat 3); by rewrite zget_nat).
    cbn [mbind res_bind]. destruct Hat4 as (_ & Hl4 & _). rewrite Hl4.
    destruct sig; cbn [andb].
    + destruct (Z.leb_spec (p + 4) (part_len h dst 3)); [|cbn; done].
      assert (Forall (fun s => p + 4 <= part_len h dst s) ids) as Hroom.
      { apply Forall_forall. intros s Hs%ids_range.
        pose proof (part_len_range _ _ _ s Hlay Hs) as Hps. lia. }
      eapply returns_bind.
      { apply (plain_streams_ok p ids ss' true [] []); [done|by apply Hsig|done|constructor|].
        intros _. constructor. }
      intros [sig' ss2] [Hall2 Hs2]. cbn. split_and!; done || lia.
    + cbn. done.
Qed.


(** A stream to its end. *)
Definition plain_done (s : Z) (x : list Z * BitDStream) : Prop :=
  0 <= s < 4 /\ zlen x.1 = part_len h dst s /\
  at_cursor dt (st s) (Z.log2 (le_val (st s))) (Z.to_nat (part_len h dst s)) x.1 x.2 /\
  exists last, zget (st s) (zlen (st s) - 1) = Some last /\ last <> 0.

Lemma plain_ends_ok p l ss done_ids dn :
  Forall2 (plain_at p) l ss -> Forall2 plain_done done_ids dn ->
  returns (fun ss' => Forall2 plain_done (done_ids ++ l) ss')
    (foldM (fun acc '(o, br) =>
      o' ← slice_from o p;
      '(o', br) ← huf_decode_stream_x1 o' br dt;
      Ok (acc ++ [(ztake p o ++ o', br)]) : dec _) dn ss).
Proof.
  intros Hall. revert done_ids dn. induction Hall as [|s [o br] l ss Hx Hall IH];
    intros done_ids dn Hd; cbn [foldM].
  - by rewrite app_nil_r.
  - destruct Hx as (Hs & Hl & Hby & Hp & Hat & Hb & Hmark). cbn in Hl, Hby, Hat, Hb.
    destruct (part_len_range _ _ _ s Hlay Hs) as (Hp1 & Hp2 & _).
    pose proof (lay_segment _ _ _ Hlay).
    rewrite slice_from_ok by lia. cbn [mbind res_bind]. rewrite bind_assoc.
    assert (zlen (zdrop p o) = part_len h dst s - p) as Hzl by (rewrite zlen_zdrop; lia).
    eapply returns_bind.
    { apply (stream_x1_ok dt Hdt _ _ _ _ (zdrop p o) br Hat); [by apply Forall_drop|nia|
        change (2 ^ 20) with 1048576; lia]. }
    intros [o' br'] (Hl' & Hby' & Hat'). cbn [mbind res_bind].
    replace (done_ids ++ s :: l) with ((done_ids ++ [s]) ++ l) by by rewrite <- app_assoc.
    apply IH. apply Forall2_app; [done|]. constructor; [|constructor].
    split; [done|split; [|split; [|done]]]; cbn [fst snd].
    + rewrite zlen_app, zlen_ztake by lia. change (zlen o' = zlen (zdrop p o)) in Hl'. lia.
    + replace (Z.to_nat (part_len h dst s)) with (Z.to_nat p + length (zdrop p o))%nat; [done|].
      unfold zlen in Hzl. lia.
Qed.

Lemma plain_done_ref s x : plain_done s x ->
  part_ref dt src h dst s = if is_finished x.2 then Some x.1 else None.
Proof.
  intros (Hs & Hl & Hat & last & Hlast & Hnz).
  pose proof (huf_ref_final _ _ _ _ _ _ Hlast Hnz Hat) as H. unfold part_ref.
  by destruct (is_finished x.2).
Qed.

(** A reader just opened on stream [s]. *)
Definition plain_fresh (s : Z) (br : BitDStream) : Prop :=
  0 <= s < 4 /\ at_cursor dt (st s) (Z.log2 (le_val (st s))) 0 [] br /\ ready 4 br /\
  bits_consumed br <= 64 /\
  exists last, zget (st s) (zlen (st s) - 1) = Some last /\ last <> 0.

Lemma plain_brs_ok l done_ids acc :
  Forall (fun s => 0 <= s < 4) l -> Forall2 plain_fresh done_ids acc ->
  match foldM (fun acc s =>
      st ← stream h src s;
      br ← BitDStream.new st;
      Ok (acc ++ [br]) : dec _) acc l with
  | Ok brs => Forall2 plain_fresh (done_ids ++ l) brs
  | Err _ => exists s, 0 <= s < 4 /\ part_ref dt src h dst s = None
  | Fault | Stuck => False
  end.
Proof.
  intros Hl. revert done_ids acc. induction Hl as [|s l Hs Hl IH]; intros done_ids acc Hd;
    cbn [foldM].
  - by rewrite app_nil_r.
  - rewrite (stream_ok_of _ _ _ _ Hlay Hs). cbn [mbind res_bind].
    pose proof (plain_new_ok s Hs) as Hn.
    destruct (BitDStream.new (st s)) as [br|e| |]; cbn [mbind res_bind]; try done.
    + replace (done_ids ++ s :: l) with ((done_ids ++ [s]) ++ l) by by rewrite <- app_assoc.
      apply IH. apply Forall2_app; [done|]. constructor; [|constructor]. by split.
    + by exists s.
Qed.

Lemma plain_at_fresh s o br : plain_fresh s br -> zlen o = part_len h dst s -> bytes o ->
  plain_at 0 s (o, br).
Proof.
  intros (Hs & Hat & Hr & Hb & Hmark) Hl Hby.
  pose proof (part_len_range _ _ _ s Hlay Hs) as Hps.
  split; [done|split; [done|split; [done|split; [lia|split; [done|split; [cbn; lia|done]]]]]].
Qed.

Lemma plain_ready_fresh s o br : plain_fresh s br -> plain_ready (o, br).
Proof. by intros (_ & _ & ? & ? & _). Qed.

(** The segments of the output the streams write. *)
Lemma plain_part out s : zlen out = dst -> bytes out -> 0 <= s < 4 ->
  exists o, slice (E:=DecodeError) out (s * segment h) (s * segment h + part_len h dst s) = Ok o /\
    zlen o = part_len h dst s /\ bytes o.
Proof.
  intros Hout Hby Hs. pose proof (part_len_range _ _ _ s Hlay Hs) as Hps.
  pose proof (lay_segment _ _ _ Hlay).
  rewrite slice_ok by nia. eexists. split; [done|]. split.
  - rewrite zlen_ztake; [lia|]. rewrite zlen_zdrop by nia. nia.
  - by apply Forall_take, Forall_drop.
Qed.

Lemma plain_path_ok out : zlen out = dst -> bytes out ->
  match parts_ref dt src h dst with
  | Some o => plain_4x1 out src h dt = Ok o
  | None => exists e, plain_4x1 out src h dt = Err e
  end.
Proof.
  intros Hout Hby. unfold plain_4x1. pose proof (lay_segment _ _ _ Hlay) as Hsg.
  destruct (plain_part out 0 Hout Hby) as (o0 & Ho0 & L0 & B0); [lia|].
  destruct (plain_part out 1 Hout Hby) as (o1 & Ho1 & L1 & B1); [lia|].
  destruct (plain_part out 2 Hout Hby) as (o2 & Ho2 & L2 & B2); [lia|].
  destruct (plain_part out 3 Hout Hby) as (o3 & Ho3 & L3 & B3); [lia|].
  unfold part_len, segment_end in Ho0, Ho1, Ho2, Ho3.
  replace (0 * segment h) with 0 in Ho0 by lia.
  replace (0 + _) with (segment h) in Ho0 by lia.
  replace (1 * segment h) with (segment h) in Ho1 by lia.
  replace (segment h + _) with (2 * segment h) in Ho1 by lia.
  replace (2 * segment h + _) with (3 * segment h) in Ho2 by lia.
  replace (3 * segment h + _) with (zlen out) in Ho3 by lia.
  rewrite Ho0, Ho1, Ho2, Ho3. cbn [mbind res_bind].
  pose proof (plain_brs_ok ids [] [] ltac:(repeat constructor; lia) ltac:(constructor)) as Hbrs.
  destruct (foldM _ [] ids) as [brs|e| |]; [| |done|done]; cycle 1.
  { cbn [mbind res_bind]. destruct Hbrs as (s & Hs & Hnone).
    rewrite (parts_none _ _ _ _ s) by done. by eexists. }
  cbn [mbind res_bind]. cbn [app] in Hbrs.
  destruct brs as [|b0 [|b1 [|b2 [|b3 [|]]]]]; try (exfalso; apply Forall2_length in Hbrs; done).
  rewrite !Forall2_cons in Hbrs. destruct Hbrs as (F0 & F1 & F2 & F3 & _).
  cbn [zip zip_with].
  assert (Forall2 (plain_at 0) ids [(o0, b0); (o1, b1); (o2, b2); (o3, b3)]) as Hat0.
  { repeat (constructor; [by apply plain_at_fresh|]). constructor. }
  assert (Forall plain_ready [(o0, b0); (o1, b1); (o2, b2); (o3, b3)]) as Hready0.
  { repeat (constructor; [by eapply plain_ready_fresh|]). constructor. }
  set (ss0 := [(o0, b0); (o1, b1); (o2, b2); (o3, b3)]) in *. clearbody ss0.
  assert (returns (fun '(ss, p) => Forall2 (plain_at p) ids ss)
    (if 8 <=? zlen o3 then loopM (length o3 + 1) (plain_x1_turn dt) (true, 0, ss0)
     else Ok (ss0, 0))) as Hloop.
  { destruct (8 <=? zlen o3); [|done].
    replace (length o3) with (Z.to_nat (part_len h dst 3)) by (unfold zlen in L3; lia).
    by apply plain_loop_ok. }
  destruct (returns_inv _ _ Hloop) as ([ss p] & -> & Hat). cbn [mbind res_bind].
  pose proof (plain_ends_ok p ids ss [] [] Hat ltac:(constructor)) as Hends.
  destruct (returns_inv _ _ Hends) as (ss' & -> & Hdone). cbn [mbind res_bind app] in *.
  destruct ss' as [|x0 [|x1 [|x2 [|x3 [|]]]]]; try (exfalso; apply Forall2_length in Hdone; done).
  rewrite !Forall2_cons in Hdone. destruct Hdone as (D0 & D1 & D2 & D3 & _).
  unfold parts_ref. rewrite (plain_done_ref 0 _ D0), (plain_done_ref 1 _ D1), (plain_done_ref 2 _ D2),
    (plain_done_ref 3 _ D3). cbn [forallb].
  destruct (is_finished x0.2), (is_finished x1.2), (is_finished x2.2), (is_finished x3.2); cbn;
    try (by eexists). by rewrite app_nil_r.
Qed.
End plain.

(** ** Four streams, whole *)

Lemma huf_decompress_4x1_ref out src t :
  complete t -> ht_decode t = x1_table t -> bytes src -> bytes out -> zlen out <= 2 ^ 24 ->
  match huf4_ref (x1_table t) src (zlen out) with
  | Some l => huf_decompress_4x1 out src t = Ok l
  | None => exists e, huf_decompress_4x1 out src t = Err e
  end.
Proof.
  intros Hc Hdt Hs Ho Hlen. pose proof (x1_table_prefix t Hc) as Hp.
  unfold huf_decompress_4x1, huf4_ref. rewrite Hdt. unfold huf_cells.
  rewrite (zlen_x1_table t Hc). change (Z.shiftl 1 HUF_FAST_TABLE_LOG) with (2 ^ HUF_FAST_TABLE_LOG).
  rewrite Z.eqb_refl. cbn [mbind res_bind].
  pose proof (split_layout src (zlen out) Hs (zlen_nonneg _)) as Hlay.
  destruct (split src (zlen out)) as [h|e| |]; [|by eexists|done|done].
  cbn [safe mbind res_bind] in *.
  pose proof (fast_init_ok (x1_table t) src Hs (zlen out) h Hlay out eq_refl Ho) as Hinit.
  destruct (huf_fast_args_init h src (zlen out)) as [[args|]|e| |]; cbn [mbind res_bind] in *;
    [| | |done|done].
  - destruct Hinit as [Hfs Hin]. by apply (fast_path_ok _ src (zlen out) h args out).
  - by apply plain_path_ok.
  - destruct Hinit as (s & Hs4 & Hn). rewrite (parts_none _ _ _ _ s) by done. by eexists.
Qed.

(** C24: The four-stream Huffman decoder, with its unchecked interleaved fast
    loop and with the plain loop it falls back to, is the reference decoder
    applied to each of the four streams of the jump table: for every table
    the decoder builds it returns the concatenation of the four reference
    outputs when every stream decodes exactly to its end, and an error
    otherwise. No table lookup, 8-byte reload or output store of the loop
    without bounds checks leaves its buffer, and the loops end, however
    corrupt the streams are. *)
Theorem huf_4x1_decodes out src t :
  complete t -> ht_decode t = x1_table t -> bytes src -> bytes out -> zlen out <= 2 ^ 24 ->
  match huf4_ref (x1_table t) src (zlen out) with
  | Some l => huf_decompress_4x1 out src t = Ok l
  | None => exists e, huf_decompress_4x1 out src t = Err e
  end.
Proof. apply huf_decompress_4x1_ref. Qed.

Lemma huf_4x1_decodes_witness :
  exists t, huf_build_decoder huf_new [132; 0x11; 0x23; 0x40; 0; 0; 0; 0] 100 false = Ok (t, 4) /\
    huf_decompress_4x1 (zrepeat 0 16) [1; 0; 1; 0; 1; 0; 0xD9; 0xD9; 0xD9; 0xD9] t =
      Ok [5; 4; 5; 3; 5; 4; 5; 3; 5; 4; 5; 3; 5; 4; 5; 3].
Proof.
  assert (bytes [132; 0x11; 0x23; 0x40; 0; 0; 0; 0]) as Hb by solve_bytes.
  pose proof (huf_build_x1_safe huf_new _ 100 huf_new_wf Hb) as H.
  destruct (huf_build_decoder _ _ _ _) as [[t n]|e| |] eqn:E; [|vm_compute in E; discriminate E..].
  destruct H as (Hc & _ & _ & Hd & _). exists t.
  assert (n = 4) as -> by (vm_compute in E; by injection E as <- <-).
  split; [done|].
  set (src := [1; 0; 1; 0; 1; 0; 0xD9; 0xD9; 0xD9; 0xD9]).
  assert (bytes src) as Hb1 by solve_bytes.
  assert (bytes (zrepeat 0 16)) as Hb2 by solve_bytes.
  pose proof (huf_4x1_decodes (zrepeat 0 16) src t Hc Hd Hb1 Hb2 ltac:(done)) as H.
  assert (huf4_ref (ht_decode t) src (zlen (zrepeat 0 16)) =
    Some [5; 4; 5; 3; 5; 4; 5; 3; 5; 4; 5; 3; 5; 4; 5; 3]) as Hr.
  { vm_compute in E. injection E as <-. by vm_compute. }
  rewrite <- Hd in H. rewrite Hr in H. exact H.
Defined.
