(* ===== verification/HufX2Table.v ===== *)
(** * The double-symbol Huffman table ([src/decode.rs], [fill_x2])

    [fill_x2] fills the table in two levels, the second on the cells of each
    first symbol whose code leaves room for another. Here: every cell of the
    result is what two lookups in the single-symbol table say, one after the
    other. *)

From S2P Require Import Prelude Words Constants Errors FseTable FseBuild BitDStream.
From S2P Require Import HufTable HufWeights HufFill.

(** ** The reference: two lookups *)

(** The cell of a first symbol [e1], the cursor's next 11 bits being those of
    [i2]. *)
Definition x2_second (dt : list HuffmanEntry) (e1 : HuffmanEntry) (i2 : Z) : option HufEntryX2 :=
  e2 ← zget dt i2;
  Some (if nb e1 + nb e2 <=? HUF_FAST_TABLE_LOG
        then MkHufX2 (symbol e1 + 256 * symbol e2) (nb e1 + nb e2) 2
        else MkHufX2 (symbol e1) (nb e1) 1).

Definition x2_cell (dt : list HuffmanEntry) (i : Z) : option HufEntryX2 :=
  e1 ← zget dt i;
  x2_second dt e1 ((i * 2 ^ nb e1) mod 2 ^ HUF_FAST_TABLE_LOG).

(** The double-symbol table of a single-symbol one. *)
Definition x2_table_of (dt : list HuffmanEntry) (cells : list HufEntryX2) : Prop :=
  zlen cells = 2 ^ HUF_FAST_TABLE_LOG /\
  forall i, 0 <= i < 2 ^ HUF_FAST_TABLE_LOG -> zget cells i = x2_cell dt i.

(** ** Runs of equal cells *)

Definition runs_of {A} (f : Z -> A) (n : Z) (syms : list Z) : list A :=
  concat ((fun s => zrepeat (f s) n) <$> syms).

Lemma runs_of_cons {A} (f : Z -> A) n s syms :
  runs_of f n (s :: syms) = zrepeat (f s) n ++ runs_of f n syms.
Proof. done. Qed.

Lemma zlen_runs_of {A} (f : Z -> A) n syms : 0 <= n -> zlen (runs_of f n syms) = zlen syms * n.
Proof.
  intros Hn. induction syms as [|s syms IH]; [done|].
  rewrite runs_of_cons, zlen_app, zlen_cons, IH, zlen_zrepeat by lia. lia.
Qed.

Lemma zget_runs_of {A} (f : Z -> A) n syms j : 0 < n -> 0 <= j < zlen syms * n ->
  zget (runs_of f n syms) j = f <$> zget syms (j / n).
Proof.
  intros Hn. revert j. induction syms as [|s syms IH]; intros j Hj.
  - change (zlen (@nil Z)) with 0 in Hj. lia.
  - rewrite zlen_cons in Hj. rewrite runs_of_cons. destruct (Z_lt_dec j n).
    + rewrite zget_app_l by (rewrite zlen_zrepeat; lia). rewrite zget_zrepeat by lia.
      rewrite (Z.div_small j n) by lia. done.
    + rewrite zget_app_r by (rewrite zlen_zrepeat; lia). rewrite zlen_zrepeat by lia.
      rewrite IH by lia. rewrite zget_cons.
      assert (j / n = (j - n) / n + 1) as Hq.
      { rewrite <- Z.div_add by lia. f_equal. lia. }
      assert (0 <= (j - n) / n) by (apply Z.div_pos; lia).
      rewrite Hq. destruct (Z.eqb_spec ((j - n) / n + 1) 0); [lia|].
    destruct (Z.ltb_spec ((j - n) / n + 1) 0); [lia|]. f_equal. f_equal. lia.
Qed.

(** ** The cells' bytes *)

Lemma x2_bytes_app l1 l2 : x2_bytes (l1 ++ l2) = x2_bytes l1 ++ x2_bytes l2.
Proof. unfold x2_bytes. by rewrite fmap_app, concat_app. Qed.

Lemma zlen_x2_bytes l : zlen (x2_bytes l) = 4 * zlen l.
Proof.
  induction l as [|e l IH]; [done|]. change (e :: l) with ([e] ++ l) at 1.
  rewrite x2_bytes_app, zlen_app, zlen_cons, IH. change (zlen (x2_bytes [e])) with 4. lia.
Qed.

Lemma x2_cells_bytes l : Forall (fun e => 0 <= sequence e < 65536) l -> x2_cells (x2_bytes l) = l.
Proof.
  induction 1 as [|[s n k] l Hs Hl IH]; [done|]. cbn in Hs.
  change (x2_bytes (MkHufX2 s n k :: l)) with (x2_bytes [MkHufX2 s n k] ++ x2_bytes l).
  change (x2_bytes [MkHufX2 s n k]) with (le_bytes 2 s ++ [n; k]).
  pose proof (le_val_le_bytes 2 s) as Hv. pose proof (length_le_bytes 2 s) as Hl2.
  destruct (le_bytes 2 s) as [|a [|b [|]]]; try done. cbn [app x2_cells].
  rewrite IH, Hv. by rewrite Z.mod_small by (cbn; lia).
Qed.

Lemma x2_bytes_split l n : 0 <= n <= zlen l ->
  ztake (4 * n) (x2_bytes l) = x2_bytes (ztake n l) /\
  zdrop (4 * n) (x2_bytes l) = x2_bytes (zdrop n l).
Proof.
  intros Hn.
  assert (x2_bytes l = x2_bytes (ztake n l) ++ x2_bytes (zdrop n l)) as Heq.
  { rewrite <- x2_bytes_app. unfold ztake, zdrop. by rewrite take_drop. }
  assert (zlen (x2_bytes (ztake n l)) = 4 * n) as Hl.
  { rewrite zlen_x2_bytes, zlen_ztake; lia. }
  rewrite Heq. unfold ztake at 1, zdrop at 1. unfold zlen in Hl.
  split; [apply take_app_length'|apply drop_app_length']; lia.
Qed.

Lemma on_slice_x2 cs a b f new : 0 <= a <= b -> b <= zlen cs ->
  f (x2_bytes (ztake (b - a) (zdrop a cs))) = Ok (x2_bytes new) ->
  (on_slice (x2_bytes cs) (4 * a) (4 * b) f : dec (list Z)) =
    Ok (x2_bytes (ztake a cs ++ new ++ zdrop b cs)).
Proof.
  intros Ha Hb Hf.
  destruct (x2_bytes_split cs a ltac:(lia)) as [Ht1 Hd1].
  destruct (x2_bytes_split cs b ltac:(lia)) as [_ Hd2].
  destruct (x2_bytes_split (zdrop a cs) (b - a)) as [Ht3 _]; [rewrite zlen_zdrop; lia|].
  erewrite on_slice_ok; [|lia|rewrite zlen_x2_bytes; lia|].
  - rewrite Ht1, Hd2, !x2_bytes_app. done.
  - rewrite Hd1. replace (4 * b - 4 * a) with (4 * (b - a)) by lia. by rewrite Ht3.
Qed.

(** ** One symbol's run *)

Lemma zrepeat_bytes c n : x2_bytes (zrepeat c n) = concat (zrepeat (x2_bytes [c]) n).
Proof.
  unfold zrepeat. induction (Z.to_nat n) as [|k IH]; [done|]. cbn [replicate].
  change (c :: replicate k c) with ([c] ++ replicate k c). by rewrite x2_bytes_app, IH.
Qed.

(** The cell [huf_build_x2] makes. *)
Definition built_cell (nb_bits base_seq level symbol : Z) : HufEntryX2 :=
  MkHufX2 (if level =? 1 then symbol else base_seq + 256 * symbol) nb_bits level.

Lemma huf_build_x2_ok symbol nb_bits base_seq level :
  is_byte symbol -> is_byte base_seq -> is_byte nb_bits ->
  huf_build_x2 symbol nb_bits base_seq level = x2_bytes [built_cell nb_bits base_seq level symbol].
Proof.
  unfold is_byte. intros Hs Hb Hn. unfold huf_build_x2, built_cell, x2_bytes.
  cbn [fmap list_fmap concat sequence HufTable.nb_bits length_x2]. rewrite app_nil_r.
  rewrite (wrap_small 8) by (cbn; lia). f_equal. f_equal.
  destruct (level =? 1); [done|]. rewrite wshl_div by lia.
  change (2 ^ 8) with 256. change (2 ^ 16) with 65536.
  rewrite Z.mod_small by lia. f_equal.
  pose proof (lor_disjoint_add base_seq symbol 8 ltac:(lia) ltac:(cbn; lia)) as H.
  change (2 ^ 8) with 256 in H. lia.
Qed.

Lemma x2_run_ok m nb_bits base_seq level symbol : 0 <= m <= 10 ->
  is_byte symbol -> is_byte base_seq -> is_byte nb_bits ->
  x2_run (2 ^ m) nb_bits base_seq level symbol =
  x2_bytes (zrepeat (built_cell nb_bits base_seq level symbol) (2 ^ m)).
Proof.
  intros Hm Hs Hb Hn. rewrite zrepeat_bytes. unfold x2_run. rewrite huf_build_x2_ok by done.
  set (c := x2_bytes _). assert (length c = 4%nat) as Hc by done. clearbody c.
  destruct c as [|c0 [|c1 [|c2 [|c3 [|]]]]]; try done. clear -Hm.
  assert (m = 0 \/ m = 1 \/ m = 2 \/ m = 3 \/ m = 4 \/ m = 5 \/ m = 6 \/ m = 7 \/ m = 8 \/
          m = 9 \/ m = 10) as Hc by lia.
  destruct_or! Hc; subst; vm_compute; reflexivity.
Qed.

Lemma fill_x2_for_weight_ok cs syms nb_bits base_seq level :
  1 <= nb_bits <= 11 -> Forall is_byte syms -> is_byte base_seq ->
  zlen syms * 2 ^ (11 - nb_bits) <= zlen cs ->
  huf_fill_x2_for_weight (x2_bytes cs) syms nb_bits 11 base_seq level =
  Ok (x2_bytes (runs_of (built_cell nb_bits base_seq level) (2 ^ (11 - nb_bits)) syms ++
                zdrop (zlen syms * 2 ^ (11 - nb_bits)) cs)).
Proof.
  intros Hn Hs Hb Hl. unfold huf_fill_x2_for_weight.
  destruct (Z.leb_spec nb_bits 11); [|lia]. cbn [rassert mbind res_bind].
  rewrite Z.shiftl_1_l. pose proof (pow2_pos (11 - nb_bits) ltac:(lia)) as Hp.
  set (len := 2 ^ (11 - nb_bits)) in *. pose proof (zlen_nonneg syms).
  change 0 with (4 * 0) at 1.
  assert (forall s, is_byte s -> x2_run len nb_bits base_seq level s =
            x2_bytes (zrepeat (built_cell nb_bits base_seq level s) len)) as Hrun.
  { intros s Hsb. apply x2_run_ok; try done; unfold is_byte in *; lia. }
  rewrite (on_slice_x2 cs 0 (zlen syms * len) _
    (runs_of (built_cell nb_bits base_seq level) len syms)); [done|nia|done|]. f_equal.
  rewrite fill_chunks_ok; [|lia| |].
  - unfold runs_of. clear -Hs Hrun. induction Hs as [|s l Hs1 Hl IH]; [done|].
    rewrite !fmap_cons. cbn [concat]. by rewrite x2_bytes_app, Hrun, IH.
  - eapply Forall_impl; [exact Hs|]. cbn. intros s Hs1. rewrite Hrun by done.
    rewrite zlen_x2_bytes, zlen_zrepeat by lia. done.
  - rewrite zlen_x2_bytes, zlen_ztake, Z.sub_0_r; [nia|]. rewrite zlen_zdrop; nia.
Qed.

(** ** Where the weights stand in the single-symbol table *)

Section layout.
Context (t : HuffmanTable) (Hc : complete t).

Local Abbreviation ws := (code_weights t).
Local Abbreviation max_bits := (max_num_bits t).
Local Abbreviation dt := (x1_table t).

(** The cells of one symbol of weight [w], and the first of them. *)
Definition x1_len (w : Z) : Z := 2 ^ (w - 1 + (11 - max_bits)).
Definition x1_start (w : Z) : Z := zlen (expand_runs (runs_upto ws max_bits (w - 1))).

Local Lemma bits_le : 1 <= max_bits <= 11.
Proof. apply Hc. Qed.

Lemma x1_len_pos w : 1 <= w -> 1 <= x1_len w.
Proof.
  intros Hw. pose proof bits_le. unfold x1_len.
  pose proof (pow2_pos (w - 1 + (11 - max_bits)) ltac:(lia)). lia.
Qed.

Lemma x1_start_S w : 1 <= w -> x1_start (w + 1) = x1_start w + occurrences w ws * x1_len w.
Proof.
  intros Hw. pose proof bits_le. unfold x1_start, x1_len.
  replace (w + 1 - 1) with (w - 1 + 1) by lia. rewrite runs_upto_S by lia.
  rewrite expand_runs_app, zlen_app. f_equal.
  destruct (expand_run_const (2 ^ (w - 1 + (HUF_FAST_TABLE_LOG - max_bits)))
    (fun s => MkHuf s (max_bits - (w - 1))) (symbols_of ws (w - 1 + 1))) as [_ ->].
  { apply Z.pow_nonneg. lia. }
  rewrite zlen_symbols_of. replace (w - 1 + 1) with w by lia. done.
Qed.

Lemma x1_start_1 : x1_start 1 = 0.
Proof. done. Qed.

Lemma x1_start_top : x1_start (max_bits + 1) = 2048.
Proof.
  unfold x1_start. replace (max_bits + 1 - 1) with max_bits by lia.
  change (runs_upto ws max_bits max_bits) with (x1_runs ws max_bits).
  apply (zlen_x1_table t Hc).
Qed.

(** No cells above the highest weight. *)
Lemma x1_start_empty w : 1 <= w <= max_bits + 1 ->
  (forall x, w <= x <= max_bits -> occurrences x ws = 0) -> x1_start w = 2048.
Proof.
  intros Hw Hz. rewrite <- x1_start_top.
  assert (exists k, 0 <= k /\ w + k = max_bits + 1) as (k & Hk & Heq) by (exists (max_bits + 1 - w); lia).
  rewrite <- Heq. assert (w + k <= max_bits + 1) as Hle by lia. clear Heq.
  rewrite <- (Z2Nat.id k) in * by lia. induction (Z.to_nat k) as [|n IH]; [by rewrite Z.add_0_r|].
  rewrite Nat2Z.inj_succ in *. unfold Z.succ in *. rewrite Z.add_assoc, x1_start_S by lia.
  rewrite Hz by lia. rewrite <- IH by lia. lia.
Qed.

(** The table starts with the runs of the lower weights. *)
Lemma x1_prefix w : 0 <= w <= max_bits ->
  exists rest, dt = expand_runs (runs_upto ws max_bits w) ++ rest.
Proof.
  intros Hw. unfold x1_table. change (x1_runs ws max_bits) with (runs_upto ws max_bits max_bits).
  unfold runs_upto at 1.
  assert (seqZ 1 max_bits = seqZ 1 w ++ seqZ (1 + w) (max_bits - w)) as ->
    by (rewrite <- seqZ_app by lia; f_equal; lia).
  rewrite fmap_app, concat_app, expand_runs_app. by eexists.
Qed.

Lemma x1_start_le w : 1 <= w <= max_bits + 1 -> 0 <= x1_start w <= 2048.
Proof.
  intros Hw. split; [apply zlen_nonneg|]. pose proof bits_le.
  apply (upto_le t Hc). lia.
Qed.

(** The cells of weight [w]. *)
Lemma x1_at w x : 1 <= w <= max_bits -> 0 <= x < occurrences w ws * x1_len w ->
  zget dt (x1_start w + x) =
    (fun s => MkHuf s (max_bits + 1 - w)) <$> zget (symbols_of ws w) (x / x1_len w).
Proof.
  intros Hw Hx. destruct (x1_prefix w ltac:(lia)) as [rest ->].
  pose proof (x1_start_S w ltac:(lia)) as HS. unfold x1_start in *.
  replace (w + 1 - 1) with w in HS by lia.
  pose proof (zlen_nonneg (expand_runs (runs_upto ws max_bits (w - 1)))).
  rewrite zget_app_l by lia. replace w with (w - 1 + 1) at 1 by lia.
  rewrite runs_upto_S, expand_runs_app by lia.
  rewrite zget_app_r by lia.
  match goal with |- zget _ (?a + x - ?a) = _ => replace (a + x - a) with x by lia end.
  pose proof (x1_len_pos w ltac:(lia)).
  destruct (expand_run_const (x1_len w) (fun s => MkHuf s (max_bits + 1 - w)) (symbols_of ws w) ltac:(lia))
    as [He _].
  replace (w - 1 + 1) with w by lia. replace (max_bits - (w - 1)) with (max_bits + 1 - w) by lia.
  change (2 ^ (w - 1 + (HUF_FAST_TABLE_LOG - max_bits))) with (x1_len w). rewrite He.
  change (concat _) with (runs_of (fun s => MkHuf s (max_bits + 1 - w)) (x1_len w) (symbols_of ws w)).
  apply zget_runs_of; [lia|]. rewrite zlen_symbols_of. lia.
Qed.

(** The cells below it have lower weights. *)
Lemma x1_below w i : 1 <= w <= max_bits + 1 -> 0 <= i < x1_start w ->
  exists e, zget dt i = Some e /\ max_bits + 2 - w <= nb e /\ is_byte (symbol e).
Proof.
  intros Hw Hi. pose proof bits_le.
  destruct (x1_prefix (w - 1) ltac:(lia)) as [rest Hp].
  destruct (zget_is_Some (expand_runs (runs_upto ws max_bits (w - 1))) i Hi) as [e He].
  exists e. rewrite Hp, zget_app_l by apply Hi. split; [done|].
  destruct (runs_upto_spec ws max_bits (w - 1) ltac:(lia)
    ltac:(unfold HUF_FAST_TABLE_LOG, HUF_TABLELOG_MAX; lia)) as [_ Hin].
  destruct (expand_runs_run _ _ _ ltac:(apply Forall_forall; intros r Hr;
    destruct (Hin r Hr) as (w' & s & _ & _ & ->); apply Z.pow_nonneg; lia) He)
    as (pre & n & post & Heq & _).
  destruct (Hin (n, e)) as (w' & s & Hw' & Hs & Hne).
  { rewrite Heq. apply elem_of_app. right. left. }
  injection Hne as -> ->. cbn. split; [lia|].
  pose proof (symbols_of_bytes t Hc w') as Hb. rewrite Forall_forall in Hb. by apply Hb.
Qed.

Lemma x1_len_S w : 1 <= w -> x1_len (w + 1) = 2 * x1_len w.
Proof.
  intros Hw. pose proof bits_le. unfold x1_len.
  replace (w + 1 - 1 + (11 - max_bits)) with (1 + (w - 1 + (11 - max_bits))) by lia.
  by rewrite pow2_add by lia.
Qed.

(** A weight's cells are aligned. *)
Lemma x1_start_aligned w : 1 <= w <= max_bits + 1 -> (x1_len w | x1_start w).
Proof.
  intros Hw. assert (exists k, 0 <= k /\ w = max_bits + 1 - k) as (k & Hk & ->)
    by (exists (max_bits + 1 - w); lia).
  pose proof bits_le. rewrite <- (Z2Nat.id k) in * by lia.
  induction (Z.to_nat k) as [|n IH].
  - change (Z.of_nat 0) with 0. rewrite Z.sub_0_r, x1_start_top. unfold x1_len.
    replace (max_bits + 1 - 1 + (11 - max_bits)) with 11 by lia. done.
  - rewrite Nat2Z.inj_succ in *. unfold Z.succ in *. specialize (IH ltac:(lia) ltac:(lia)).
    set (w := max_bits + 1 - (Z.of_nat n + 1)) in *.
    replace (max_bits + 1 - Z.of_nat n) with (w + 1) in IH by lia.
    rewrite x1_start_S, x1_len_S in IH by lia.
    apply (Z.divide_add_cancel_r _ (occurrences w ws * x1_len w)).
    + by exists (occurrences w ws).
    + rewrite Z.add_comm. destruct IH as [q Hq]. exists (2 * q). lia.
Qed.

(** The weights' starts as [sort_symbols] gives them, and the symbols between. *)
Lemma rank_start_at w : 0 <= w < 13 ->
  zget (rank_from ws <$> seqZ 0 13) w = Some (rank_from ws w).
Proof. intros Hw. rewrite zget_fmap, seqZ_zget by lia. cbn. by rewrite Z.add_0_l. Qed.

(** ** The second level *)

Section level2.
Context (srt : list Z) (Hs : symbols_sorted ws srt).
Context (s1 nb1 : Z) (Hs1 : is_byte s1) (Hnb1 : 1 <= nb1 <= 10).

Local Abbreviation second j := (x2_second dt (MkHuf s1 nb1) (j * 2 ^ nb1)).

(** The second symbols of weight below [w] are in place. *)
Definition second_upto (w : Z) (cs : list HufEntryX2) : Prop :=
  zlen cs = 2 ^ (11 - nb1) /\
  forall j, 0 <= j < x1_start w / 2 ^ nb1 -> zget cs j = second j.

Lemma second_at w j : 1 <= w <= max_bits -> nb1 + (max_bits + 1 - w) <= 11 ->
  let l := 2 ^ (11 - nb1 - (max_bits + 1 - w)) in
  let r := x1_start w / 2 ^ nb1 in
  r <= j < r + occurrences w ws * l ->
  second j = built_cell (nb1 + (max_bits + 1 - w)) s1 2 <$> zget (symbols_of ws w) ((j - r) / l).
Proof.
  intros Hw Hfit l r Hj. pose proof bits_le.
  pose proof (pow2_pos nb1 ltac:(lia)) as HD. set (D := 2 ^ nb1) in *.
  pose proof (pow2_pos (11 - nb1 - (max_bits + 1 - w)) ltac:(lia)) as Hl. fold l in Hl.
  assert (x1_len w = D * l) as Hlen.
  { unfold x1_len, D, l. rewrite <- pow2_add by lia. f_equal. lia. }
  destruct (x1_start_aligned w ltac:(lia)) as [q Hq]. rewrite Hlen in Hq.
  assert (r = q * l) as Hr.
  { unfold r. rewrite Hq. replace (q * (D * l)) with (q * l * D) by lia. apply Z.div_mul. lia. }
  assert (j * D = x1_start w + (j - r) * D) as -> by (rewrite Hq, Hr; ring).
  unfold x2_second. rewrite x1_at by (rewrite ?Hlen; nia).
  rewrite Hlen, (Z.mul_comm D l), Z.div_mul_cancel_r by lia.
  destruct (zget (symbols_of ws w) ((j - r) / l)) as [s|]; [|done]. cbn [fmap option_fmap option_map mbind option_bind].
  cbn [nb symbol]. destruct (Z.leb_spec (nb1 + (max_bits + 1 - w)) HUF_FAST_TABLE_LOG) as [|Hx]; [done|].
  unfold HUF_FAST_TABLE_LOG, HUF_TABLELOG_MAX in Hx. lia.
Qed.

Lemma second_upto_S w : 1 <= w <= max_bits -> nb1 + (max_bits + 1 - w) <= 11 ->
  x1_start (w + 1) / 2 ^ nb1 =
    x1_start w / 2 ^ nb1 + occurrences w ws * 2 ^ (11 - nb1 - (max_bits + 1 - w)) /\
  x1_start w / 2 ^ nb1 + occurrences w ws * 2 ^ (11 - nb1 - (max_bits + 1 - w)) <= 2 ^ (11 - nb1).
Proof.
  intros Hw Hfit. pose proof bits_le. pose proof (pow2_pos nb1 ltac:(lia)) as HD.
  assert (x1_start (w + 1) / 2 ^ nb1 =
    x1_start w / 2 ^ nb1 + occurrences w ws * 2 ^ (11 - nb1 - (max_bits + 1 - w))) as Heq.
  { rewrite x1_start_S by lia. unfold x1_len.
    replace (w - 1 + (11 - max_bits)) with ((11 - nb1 - (max_bits + 1 - w)) + nb1) by lia.
    rewrite pow2_add, Z.mul_assoc, Z.div_add by lia. done. }
  split; [done|]. rewrite <- Heq. apply Z.div_le_upper_bound; [done|].
  rewrite <- pow2_add by lia. replace (nb1 + (11 - nb1)) with 11 by lia.
  apply x1_start_le. lia.
Qed.

Lemma level2_weight_ok w row cs : 1 <= w <= max_bits -> nb1 + (max_bits + 1 - w) <= 11 ->
  zget row w = Some (Z.shiftr (x1_start w) nb1) -> second_upto w cs ->
  returns (fun out => exists cs', out = x2_bytes cs' /\ second_upto (w + 1) cs')
    (a ← idx (rank_from ws <$> seqZ 0 13) w;
     b ← idx (rank_from ws <$> seqZ 0 13) (w + 1);
     let nb_bits := max_bits + 1 - w in
     start ← idx row w;
     syms ← slice srt a b;
     on_slice (x2_bytes cs) (4 * start) (zlen (x2_bytes cs)) (fun dt =>
       huf_fill_x2_for_weight dt syms (nb_bits + nb1) 11 s1 2) : dec _).
Proof.
  intros Hw Hfit Hrow [Hl Hcs]. pose proof bits_le.
  destruct (second_upto_S w Hw Hfit) as [Hnext Hroom].
  rewrite (idx_ok _ _ _ (rank_start_at w ltac:(lia))). cbn [mbind res_bind].
  rewrite (idx_ok _ _ _ (rank_start_at (w + 1) ltac:(lia))). cbn [mbind res_bind].
  rewrite (idx_ok _ _ _ Hrow). cbn [mbind res_bind].
  destruct Hs as [_ Hss]. unfold slice at 1. rewrite (Hss w ltac:(lia)). cbn [unwrap mbind res_bind].
  rewrite shiftr_div in * by lia. set (r := x1_start w / 2 ^ nb1) in *.
  assert (0 <= r) as Hr.
  { apply Z.div_pos; [apply zlen_nonneg|apply pow2_pos; lia]. }
  replace (max_bits + 1 - w + nb1) with (nb1 + (max_bits + 1 - w)) by lia.
  replace (11 - nb1 - (max_bits + 1 - w)) with (11 - (nb1 + (max_bits + 1 - w))) in * by lia.
  set (nbs := nb1 + (max_bits + 1 - w)) in *.
  pose proof (pow2_pos (11 - nbs) ltac:(lia)) as Hlp. set (l := 2 ^ (11 - nbs)) in *.
  pose proof (occurrences_nonneg w ws) as Hon. set (k := occurrences w ws) in *.
  assert (zlen (symbols_of ws w) = k) as Hsy by apply zlen_symbols_of.
  rewrite zlen_x2_bytes.
  erewrite on_slice_x2; [|lia|lia|].
  2: { apply fill_x2_for_weight_ok; [lia|by apply symbols_of_bytes|done|].
       rewrite zlen_ztake by (rewrite zlen_zdrop; nia). rewrite Hsy. fold l. nia. }
  cbn [returns]. eexists. split; [done|]. rewrite (ztake_all (zdrop r cs)) by (rewrite zlen_zdrop; nia).
  fold l. rewrite Hsy.
  assert (zlen (ztake r cs) = r) as Htl by (apply zlen_ztake; nia).
  assert (zlen (runs_of (built_cell nbs s1 2) l (symbols_of ws w)) = k * l) as Hrl
    by (rewrite zlen_runs_of; lia).
  split.
  - rewrite !zlen_app, Htl, Hrl, !zlen_zdrop; [|rewrite ?zlen_zdrop; nia..]. lia.
  - rewrite Hnext. intros j Hj. destruct (Z_lt_dec j r).
    + rewrite zget_app_l, zget_ztake by lia. apply Hcs. lia.
    + rewrite zget_app_r, Htl by lia. rewrite <- app_assoc. rewrite zget_app_l, zget_runs_of by lia.
      pose proof (second_at w j Hw Hfit) as H2. cbv zeta in H2. fold r nbs in H2.
      replace (11 - nb1 - (max_bits + 1 - w)) with (11 - nbs) in H2 by (unfold nbs; lia).
      fold l k in H2. symmetry. apply H2. lia.
Qed.

(** The second symbols of too low a weight do not fit. *)
Lemma second_single w : 1 <= w <= max_bits + 1 -> 11 < nb1 + (max_bits + 2 - w) ->
  forall j, 0 <= j < x1_start w / 2 ^ nb1 -> second j = Some (MkHufX2 s1 nb1 1).
Proof.
  intros Hw Hbig j Hj. pose proof (pow2_pos nb1 ltac:(lia)) as HD.
  pose proof (Z.mul_div_le (x1_start w) (2 ^ nb1) HD).
  destruct (x1_below w (j * 2 ^ nb1) Hw ltac:(nia)) as (e & He & Hn & _).
  unfold x2_second. rewrite He. cbn.
  destruct (Z.leb_spec (nb1 + nb e) HUF_FAST_TABLE_LOG) as [Hx|]; [|done].
  unfold HUF_FAST_TABLE_LOG, HUF_TABLELOG_MAX in Hx. lia.
Qed.

(** The block of [min_weight > 1]: single symbols up to the first weight
    that fits, and maybe some more cells. *)
Lemma single_run_ok row w cs : 1 <= w <= max_bits -> 11 < nb1 + (max_bits + 2 - w) ->
  nb1 + (max_bits + 1 - w) <= 11 ->
  zget row w = Some (Z.shiftr (x1_start w) nb1) -> zlen cs = 2 ^ (11 - nb1) ->
  returns (fun out => exists cs', out = x2_bytes cs' /\ second_upto w cs')
    (x2_single_run (x2_bytes cs) row nb1 w s1).
Proof.
  intros Hw Hbig Hfit Hrow Hl. unfold x2_single_run.
  rewrite huf_build_x2_ok by (done || (unfold is_byte; lia)).
  unfold built_cell. change (1 =? 1) with true. cbv iota.
  rewrite (idx_ok _ _ _ Hrow). cbn [mbind res_bind]. rewrite shiftr_div by lia.
  pose proof (second_single w ltac:(lia) Hbig) as Hsec.
  destruct (second_upto_S w Hw Hfit) as [_ Hroom]. pose proof (occurrences_nonneg w ws).
  pose proof (pow2_pos (11 - nb1 - (max_bits + 1 - w)) ltac:(lia)).
  assert (x1_start w / 2 ^ nb1 <= 2 ^ (11 - nb1)) as Hr by nia.
  set (r := x1_start w / 2 ^ nb1) in *.
  assert (0 <= r) as Hr0 by (apply Z.div_pos; [apply zlen_nonneg|apply pow2_pos; lia]).
  set (c := MkHufX2 s1 nb1 1) in *.
  assert (forall k rest, r <= k -> zlen (zrepeat c k ++ rest) = 2 ^ (11 - nb1) ->
    second_upto w (zrepeat c k ++ rest)) as Hdone.
  { intros k rest Hk Hlen. split; [done|]. fold r. intros j Hj.
    rewrite zget_app_l by (rewrite zlen_zrepeat; lia). rewrite zget_zrepeat by lia.
    symmetry. by apply Hsec. }
  assert (forall n s, zlen cs = n -> s = x2_bytes (zrepeat c n) -> r <= n ->
    returns (fun out => exists cs', out = x2_bytes cs' /\ second_upto w cs')
      (copy_from_slice (x2_bytes cs) 0 (zlen (x2_bytes cs)) s : dec _)) as Hwhole.
  { intros n s Hn -> Hrn. unfold copy_from_slice. pose proof (zlen_nonneg cs).
    assert (zlen (zrepeat c n) = n) as Hz by (apply zlen_zrepeat; lia).
    erewrite (on_slice_ok _ 0 _ _ (x2_bytes (zrepeat c n))); [|rewrite zlen_x2_bytes; lia|lia|].
    - cbn [returns]. exists (zrepeat c n). change (ztake 0 (x2_bytes cs)) with (@nil Z). cbn [app].
      unfold zdrop. rewrite drop_ge by (unfold zlen; lia). rewrite app_nil_r. split; [done|].
      rewrite <- (app_nil_r (zrepeat c n)). apply Hdone; [done|]. rewrite app_nil_r. lia.
    - rewrite Z.sub_0_r, ztake_all by done. change (zdrop 0 (x2_bytes cs)) with (x2_bytes cs).
      rewrite !zlen_x2_bytes, Hz, Hn, Z.eqb_refl. done. }
  rewrite !zlen_x2_bytes. replace (4 * zlen cs / 4) with (zlen cs) by (rewrite Z.mul_comm, Z.div_mul; lia).
  rewrite <- (zlen_x2_bytes cs).
  destruct (Z.eqb_spec (zlen cs) 2) as [E2|]; [by apply (Hwhole 2); [|reflexivity|lia]|].
  destruct (Z.eqb_spec (zlen cs) 4) as [E4|]; [by apply (Hwhole 4); [|reflexivity|lia]|].
  assert (exists q, 1 <= q /\ zlen cs = 8 * q) as (q & Hq & Hcs8).
  { exists (2 ^ (8 - nb1)). rewrite Hl. destruct (Z_le_gt_dec nb1 8).
    - pose proof (pow2_pos (8 - nb1) ltac:(lia)). split; [lia|].
      replace (11 - nb1) with (3 + (8 - nb1)) by lia. by rewrite pow2_add by lia.
    - exfalso. assert (nb1 = 9 \/ nb1 = 10) as [->| ->] by lia; cbn in *; lia. }
  unfold next_multiple_of8, div_ceil. set (m := (r + 8 - 1) / 8).
  assert (r <= 8 * m /\ 0 <= m <= q) as [Hm1 Hm2] by (unfold m; divlia).
  change 0 with (4 * 0) at 1.
  erewrite (on_slice_x2 cs 0 (8 * m) _ (zrepeat c (8 * m))); [|lia|lia|].
  - cbn [returns]. eexists. split; [done|]. change (ztake 0 cs) with (@nil HufEntryX2). cbn [app].
    apply Hdone; [done|]. rewrite zlen_app, zlen_zrepeat, zlen_zdrop by lia. lia.
  - f_equal. unfold splat32. replace (4 * (8 * m) / 32) with m by divlia.
    rewrite zrepeat_bytes. clear. unfold zrepeat.
    replace (Z.to_nat (8 * m)) with (8 * Z.to_nat m)%nat by lia.
    induction (Z.to_nat m) as [|k IH]; [done|].
    replace (8 * S k)%nat with (8 + 8 * k)%nat by lia. cbn [replicate concat Nat.add].
    rewrite IH, <- !app_assoc. done.
Qed.

(** The whole second level. *)
Lemma level2_ok mw row cs : 1 <= mw <= max_bits ->
  (forall x, mw < x <= max_bits -> occurrences x ws = 0) ->
  (forall w, 1 <= w <= mw -> zget row w = Some (Z.shiftr (x1_start w) nb1)) ->
  zlen cs = 2 ^ (11 - nb1) ->
  let min_weight := Z.max (nb1 + (max_bits + 1 - 11)) 1 in
  min_weight <= mw ->
  returns (fun out => exists cs', out = x2_bytes cs' /\ zlen cs' = 2 ^ (11 - nb1) /\
             forall j, 0 <= j < 2 ^ (11 - nb1) -> zget cs' j = second j)
    (huf_fill_x2_level2 (x2_bytes cs) 11 nb1 row min_weight (mw + 1) srt
       (rank_from ws <$> seqZ 0 13) (max_bits + 1) s1).
Proof.
  intros Hmw Hhigh Hrow Hl min_weight Hmin. pose proof bits_le. unfold huf_fill_x2_level2.
  eapply (returns_bind (fun out => exists cs', out = x2_bytes cs' /\ second_upto min_weight cs')).
  { destruct (Z.ltb_spec 1 min_weight) as [Hgt|Hle].
    - apply single_run_ok; try lia. apply Hrow. lia.
    - exists cs. split; [done|]. split; [done|]. assert (min_weight = 1) as -> by lia.
      rewrite x1_start_1. intros j Hj. rewrite Z.div_0_l in Hj by (apply Z.pow_nonzero; lia). lia. }
  intros out0 Hout0.
  eapply returns_mono.
  { apply (returns_foldM (fun k out => exists cs', out = x2_bytes cs' /\
      second_upto (min_weight + Z.of_nat k) cs')).
    - by rewrite Z.add_0_r.
    - intros k w out Hk (cs' & -> & Hcs'). apply lookup_seqZ in Hk as [-> Hk].
      rewrite Nat2Z.inj_succ. unfold Z.succ. rewrite Z.add_assoc.
      apply level2_weight_ok; [lia|lia| |done]. apply Hrow. lia. }
  intros out (cs' & -> & Hlen & Hcs'). rewrite length_seqZ in Hcs'.
  replace (min_weight + Z.of_nat (Z.to_nat (mw + 1 - min_weight))) with (mw + 1) in Hcs' by lia.
  rewrite (x1_start_empty (mw + 1)) in Hcs' by (lia || (intros; apply Hhigh; lia)).
  exists cs'. split; [done|]. split; [done|]. intros j Hj. apply Hcs'.
  change 2048 with (2 ^ 11). replace 11 with ((11 - nb1) + nb1) at 1 by lia.
  rewrite pow2_add, Z.div_mul by (try lia; apply Z.pow_nonzero; lia). done.
Qed.
End level2.

(** ** The rows of first cells *)

Lemma rank_stats_at w : 0 <= w < 12 -> zget (rank_stats t) w = Some (occurrences w ws).
Proof. intros Hw. rewrite (cc_ranks t Hc), zget_fmap, seqZ_zget by lia. cbn. by rewrite Z.add_0_l. Qed.

(** [mw] is the highest weight that occurs. *)
Definition is_highest (mw : Z) : Prop :=
  1 <= mw <= max_bits /\ forall x, mw < x <= max_bits -> occurrences x ws = 0.

Lemma highest_weight_ok : returns is_highest (highest_weight (rank_stats t) max_bits).
Proof.
  pose proof bits_le. pose proof (cc_leaves t Hc) as H1. fold ws in H1. unfold highest_weight.
  apply (returns_loopM is_highest Z.to_nat); [split; [lia|intros; lia]|lia|].
  intros w [Hw Hz]. rewrite (idx_ok _ _ _ (rank_stats_at w ltac:(lia))). cbn [mbind res_bind].
  destruct (Z.eqb_spec (occurrences w ws) 0) as [E|]; cbn [returns]; [|by split].
  assert (w <> 1) by (intros ->; lia). split; [|lia]. split; [lia|].
  intros x Hx. destruct (Z.eq_dec x w) as [->|]; [done|]. apply Hz. lia.
Qed.

(** A row holding, for each weight, its first cell over [2 ^ c]. *)
Definition row_ok (mw c : Z) (row : list Z) : Prop :=
  zlen row = 12 /\ forall w, 1 <= w <= mw -> zget row w = Some (Z.shiftr (x1_start w) c).

Lemma x2_rank_val0_ok mw : is_highest mw ->
  returns (fun '(row, _) => row_ok mw 0 row)
    (x2_rank_val0 (rank_stats t) mw (11 - max_bits)).
Proof.
  intros [Hmw Hz]. pose proof bits_le. unfold x2_rank_val0.
  eapply returns_mono.
  { apply (returns_foldM (fun k st => st.2 = x1_start (1 + Z.of_nat k) /\ row_ok (Z.of_nat k) 0 st.1)).
    - split; [done|]. split; [done|]. lia.
    - intros k w [row next] Hk [Hn [Hl Hr]]. apply lookup_seqZ in Hk as [-> Hk]. cbn in Hn, Hl, Hr.
      rewrite (idx_ok _ _ _ (rank_stats_at (1 + Z.of_nat k) ltac:(lia))). cbn [mbind res_bind].
      rewrite store_ok by lia. cbn [mbind res_bind returns fst snd].
      rewrite Nat2Z.inj_succ. unfold Z.succ. split.
      + pose proof (x1_start_S (1 + Z.of_nat k) ltac:(lia)) as HS. rewrite Hn.
        replace (1 + (Z.of_nat k + 1)) with (1 + Z.of_nat k + 1) by lia.
        pose proof (x1_start_le (1 + Z.of_nat k + 1) ltac:(lia)).
        pose proof (x1_start_le (1 + Z.of_nat k) ltac:(lia)).
        rewrite wshl_div by lia. fold (x1_len (1 + Z.of_nat k)). unfold wadd.
        pose proof (occurrences_nonneg (1 + Z.of_nat k) ws).
        pose proof (x1_len_pos (1 + Z.of_nat k) ltac:(lia)).
        change (2 ^ 32) with 4294967296. rewrite Z.mod_small by nia.
        rewrite wrap_small by (change (2 ^ 32) with 4294967296; nia). lia.
      + split; [by rewrite zlen_zset|]. intros w Hw. rewrite zget_zset by lia.
        destruct (Z.eqb_spec (1 + Z.of_nat k) w) as [<-|]; [by rewrite Hn, Z.shiftr_0_r|].
        apply Hr. lia. }
  intros [row next] [_ Hr]. cbn in Hr. rewrite length_seqZ, Z2Nat.id in Hr by lia. done.
Qed.

Lemma x2_rank_row_ok mw row0 c : 1 <= mw <= 11 -> 0 <= c -> row_ok mw 0 row0 ->
  returns (row_ok mw c)
    (foldM (fun row w =>
        v ← idx row0 w;
        store row w (Z.shiftr v c)) (zrepeat 0 (HUF_TABLELOG_MAX + 1)) (seqZ 1 mw) : dec _).
Proof.
  intros Hmw Hcn [Hl0 Hr0]. eapply returns_mono.
  { apply (returns_foldM (fun k row => row_ok (Z.of_nat k) c row)).
    - split; [done|]. lia.
    - intros k w row Hk [Hl Hr]. apply lookup_seqZ in Hk as [-> Hk].
      rewrite (idx_ok _ _ _ (Hr0 (1 + Z.of_nat k) ltac:(lia))). cbn [mbind res_bind]. rewrite store_ok by lia.
      rewrite Z.shiftr_0_r. cbn [returns]. split; [by rewrite zlen_zset|].
      intros w Hw. rewrite zget_zset by lia.
      destruct (Z.eqb_spec (1 + Z.of_nat k) w) as [<-|]; [done|]. apply Hr. lia. }
  intros row Hr. by rewrite length_seqZ, Z2Nat.id in Hr by lia.
Qed.

Lemma x2_rank_val_ok mw row0 : is_highest mw -> row_ok mw 0 row0 ->
  let min_bits := max_bits + 1 - mw in
  returns (fun rows => zget rows 0 = Some row0 /\
      forall c, min_bits <= c <= 11 - min_bits -> exists row, zget rows c = Some row /\ row_ok mw c row)
    (x2_rank_val row0 mw min_bits 11).
Proof.
  intros [Hmw Hz] Hrow0 min_bits. pose proof bits_le. unfold x2_rank_val.
  set (n := 11 - min_bits + 1 - min_bits). eapply returns_mono.
  { apply (returns_foldM (fun k rows => zlen rows = 11 /\ zget rows 0 = Some row0 /\
      forall c, min_bits <= c < min_bits + Z.of_nat k ->
        exists row, zget rows c = Some row /\ row_ok mw c row)).
    - split_and!; [done|done|lia].
    - intros k c rows Hk (Hl & H0 & Hr). apply lookup_seqZ in Hk as [-> Hk].
      eapply returns_bind; [apply x2_rank_row_ok; [lia|lia|done]|]. intros row Hrow.
      rewrite store_ok by lia. cbn [returns]. split; [by rewrite zlen_zset|].
      split; [by rewrite zget_zset_ne by lia|].
      intros c Hcr. rewrite zget_zset by lia.
      destruct (Z.eqb_spec (min_bits + Z.of_nat k) c) as [<-|]; [by exists row|]. apply Hr. lia. }
  intros rows (_ & H0 & Hr). split; [done|]. intros c Hcr. apply Hr.
  rewrite length_seqZ. lia.
Qed.

(** ** The whole table *)

(** The first [u] cells are done. *)
Definition filled_to (u : Z) (out : list Z) : Prop :=
  exists cs, out = x2_bytes cs /\ zlen cs = 2048 /\ forall i, 0 <= i < u -> zget cs i = x2_cell dt i.

(** The cells of the [k]-th symbol of weight [w]. *)
Lemma x2_cell_at w k s j : 1 <= w <= max_bits -> zget (symbols_of ws w) k = Some s ->
  0 <= j < x1_len w ->
  x2_cell dt (x1_start w + k * x1_len w + j) =
    x2_second dt (MkHuf s (max_bits + 1 - w)) (j * 2 ^ (max_bits + 1 - w)).
Proof.
  intros Hw Hk Hj. pose proof bits_le. pose proof (zget_lt _ _ _ Hk) as Hkr.
  rewrite zlen_symbols_of in Hkr. unfold x2_cell.
  rewrite <- Z.add_assoc, x1_at by nia.
  replace ((k * x1_len w + j) / x1_len w) with k
    by (apply (Z.div_unique_pos _ _ _ j); lia).
  rewrite Hk. cbn [fmap option_fmap option_map mbind option_bind nb]. f_equal.
  destruct (x1_start_aligned w ltac:(lia)) as [q ->].
  set (D := 2 ^ (max_bits + 1 - w)). pose proof (pow2_pos (max_bits + 1 - w) ltac:(lia)) as HD.
  fold D in HD.
  assert (2 ^ HUF_FAST_TABLE_LOG = x1_len w * D) as ->.
  { unfold x1_len, D. rewrite <- pow2_add by lia. f_equal.
    unfold HUF_FAST_TABLE_LOG, HUF_TABLELOG_MAX. lia. }
  symmetry. apply (Z.mod_unique_pos _ _ (q + k)); nia.
Qed.

Lemma filled_app u cs new n : zlen cs = 2048 -> (forall i, 0 <= i < u -> zget cs i = x2_cell dt i) ->
  0 <= u -> zlen new = n -> u + n <= 2048 ->
  (forall j, 0 <= j < n -> zget new j = x2_cell dt (u + j)) ->
  filled_to (u + n) (x2_bytes (ztake u cs ++ new ++ zdrop (u + n) cs)).
Proof.
  intros Hl Hcs Hu Hn Hr Hnew. eexists. split; [done|].
  pose proof (zlen_nonneg new).
  assert (zlen (ztake u cs) = u) as Htl by (apply zlen_ztake; lia).
  split; [rewrite !zlen_app, Htl, zlen_zdrop by lia; lia|].
  intros i Hi. destruct (Z_lt_dec i u).
  - rewrite zget_app_l, zget_ztake by lia. apply Hcs. lia.
  - rewrite zget_app_r, Htl by lia. rewrite zget_app_l by lia. rewrite Hnew by lia. f_equal. lia.
Qed.

(** The end of a weight's run of symbols. *)
Lemma x1_run_end w k : 1 <= w <= max_bits -> 0 <= k < occurrences w ws ->
  x1_start w + k * x1_len w + x1_len w <= 2048.
Proof.
  intros Hw Hk. pose proof (x1_start_S w ltac:(lia)). pose proof (x1_start_le (w + 1) ltac:(lia)).
  pose proof (x1_len_pos w ltac:(lia)). nia.
Qed.

Section weights.
Context (srt : list Z) (Hs : symbols_sorted ws srt).
Context (mw : Z) (Hmw : is_highest mw) (rows : list (list Z)) (row0 : list Z).
Context (Hrow0 : zget rows 0 = Some row0) (Hrow : row_ok mw 0 row0).
Context (Hrows : forall c, max_bits + 1 - mw <= c <= 11 - (max_bits + 1 - mw) ->
  exists row, zget rows c = Some row /\ row_ok mw c row).

(** One first symbol with room for a second. *)
Lemma fill_symbol_ok w k s row out : 1 <= w <= mw -> max_bits + 1 - mw <= 11 - (max_bits + 1 - w) ->
  zget (symbols_of ws w) k = Some s -> row_ok mw (max_bits + 1 - w) row ->
  filled_to (x1_start w + k * x1_len w) out ->
  returns (filled_to (x1_start w + (k + 1) * x1_len w))
    (on_slice out (4 * (x1_start w + k * x1_len w)) (4 * (x1_start w + k * x1_len w + x1_len w))
      (fun d => huf_fill_x2_level2 d 11 (max_bits + 1 - w) row
         (Z.max (max_bits + 1 - w + (max_bits + 1 - 11)) 1) (mw + 1) srt
         (rank_from ws <$> seqZ 0 13) (max_bits + 1) s)).
Proof.
  intros Hw Hfit Hk Hr (cs & -> & Hl & Hcs). pose proof bits_le. destruct Hmw as [Hmr Hz].
  pose proof (zget_lt _ _ _ Hk) as Hkr. rewrite zlen_symbols_of in Hkr.
  pose proof (x1_run_end w k ltac:(lia) Hkr) as Hend. pose proof (x1_len_pos w ltac:(lia)).
  pose proof (x1_start_le w ltac:(lia)).
  assert (is_byte s) as Hsb by (eapply Forall_zget; [by apply (symbols_of_bytes t Hc w)|done]).
  assert (x1_len w = 2 ^ (11 - (max_bits + 1 - w))) as Hlen by (unfold x1_len; f_equal; lia).
  assert (0 <= k * x1_len w) by nia.
  set (u := x1_start w + k * x1_len w) in *.
  destruct (returns_inv _ _ (level2_ok srt Hs s (max_bits + 1 - w) Hsb ltac:(lia) mw row
    (ztake (u + x1_len w - u) (zdrop u cs)) Hmr Hz (proj2 Hr)
    ltac:(rewrite zlen_ztake; [lia|rewrite zlen_zdrop; lia]) ltac:(lia))) as (o & Ho & new & -> & Hnl & Hnew).
  rewrite (on_slice_x2 cs u (u + x1_len w) _ new); [|lia|lia|exact Ho]. cbn [returns].
  replace (x1_start w + (k + 1) * x1_len w) with (u + x1_len w) by (unfold u; lia).
  apply filled_app; [done|done|lia|lia|lia|].
  intros j Hj. rewrite Hnew by lia. symmetry. unfold u. apply x2_cell_at; [lia|done|lia].
Qed.

(** The symbols of a weight with no room for a second. *)
Lemma fill_singles_ok w out : 1 <= w <= mw -> 11 - (max_bits + 1 - w) < max_bits + 1 - mw ->
  filled_to (x1_start w) out ->
  returns (filled_to (x1_start (w + 1)))
    (on_slice out (4 * x1_start w) (zlen out)
      (fun d => huf_fill_x2_for_weight d (symbols_of ws w) (max_bits + 1 - w) 11 0 1)).
Proof.
  intros Hw Hfit (cs & -> & Hl & Hcs). pose proof bits_le. destruct Hmw as [Hmr Hz].
  pose proof (x1_start_le w ltac:(lia)). pose proof (x1_start_le (w + 1) ltac:(lia)).
  pose proof (x1_start_S w ltac:(lia)) as HS. pose proof (x1_len_pos w ltac:(lia)).
  assert (2 ^ (11 - (max_bits + 1 - w)) = x1_len w) as Hlen by (unfold x1_len; f_equal; lia).
  pose proof (occurrences_nonneg w ws). rewrite zlen_x2_bytes, Hl.
  assert (0 <= occurrences w ws * x1_len w) by nia.
  set (u := x1_start w) in *. set (n := occurrences w ws * x1_len w) in *.
  assert (zlen (runs_of (built_cell (max_bits + 1 - w) 0 1) (x1_len w) (symbols_of ws w)) = n) as Hrl.
  { rewrite zlen_runs_of, zlen_symbols_of by lia. done. }
  erewrite (on_slice_x2 cs u 2048); [|lia|lia|].
  2: { apply fill_x2_for_weight_ok; [lia|by apply symbols_of_bytes|by vm_compute|].
       rewrite zlen_ztake by (rewrite zlen_zdrop; lia). rewrite zlen_symbols_of, Hlen. lia. }
  cbn [returns]. rewrite Hlen, zlen_symbols_of. fold n.
  rewrite (ztake_all (zdrop u cs)) by (rewrite zlen_zdrop; lia).
  assert (zdrop 2048 cs = []) as -> by (apply drop_ge; unfold zlen in Hl; lia). rewrite app_nil_r.
  assert (zdrop n (zdrop u cs) = zdrop (u + n) cs) as ->.
  { unfold zdrop. rewrite drop_drop. f_equal. lia. }
  rewrite HS. apply filled_app; [done|done|lia|done|lia|].
  intros j Hj. rewrite zget_runs_of by (rewrite ?zlen_symbols_of; lia).
  pose proof (Z.div_mod j (x1_len w) ltac:(lia)) as Hdm.
  pose proof (Z.mod_pos_bound j (x1_len w) ltac:(lia)) as Hmod.
  destruct (zget_is_Some (symbols_of ws w) (j / x1_len w)) as [s Hsy].
  { rewrite zlen_symbols_of. split; [apply Z.div_pos; lia|]. apply Z.div_lt_upper_bound; lia. }
  rewrite Hsy. replace (u + j) with (u + j / x1_len w * x1_len w + j mod x1_len w) by lia.
  unfold u. rewrite (x2_cell_at w _ s) by (done || lia).
  unfold x2_second.
  pose proof (pow2_pos (max_bits + 1 - w) ltac:(lia)) as HD.
  destruct (x1_below (mw + 1) (j mod x1_len w * 2 ^ (max_bits + 1 - w)) ltac:(lia)) as (e & He & Hne & _).
  { rewrite (x1_start_empty (mw + 1)) by (lia || (intros; apply Hz; lia)). split; [nia|].
    change 2048 with (2 ^ 11). replace 11 with ((11 - (max_bits + 1 - w)) + (max_bits + 1 - w)) at 1 by lia.
    rewrite (pow2_add (11 - _)), Hlen by lia. nia. }
  rewrite He. cbn. destruct (Z.leb_spec (max_bits + 1 - w + nb e) HUF_FAST_TABLE_LOG) as [Hx|]; [|done].
  unfold HUF_FAST_TABLE_LOG, HUF_TABLELOG_MAX in Hx. lia.
Qed.

Lemma fill_x2_weight_ok w out : 1 <= w <= mw -> filled_to (x1_start w) out ->
  returns (filled_to (x1_start (w + 1)))
    (fill_x2_weight srt (rank_from ws <$> seqZ 0 13) rows mw (max_bits + 1 - mw) (max_bits + 1) 11 out w).
Proof.
  intros Hw Hout. pose proof bits_le. destruct Hmw as [Hmr Hz]. unfold fill_x2_weight.
  rewrite (idx_ok _ _ _ (rank_start_at w ltac:(lia))). cbn [mbind res_bind].
  rewrite (idx_ok _ _ _ (rank_start_at (w + 1) ltac:(lia))). cbn [mbind res_bind].
  destruct Hs as [_ Hss]. unfold slice at 1. rewrite (Hss w ltac:(lia)). cbn [unwrap mbind res_bind].
  rewrite (idx_ok _ _ _ Hrow0). cbn [mbind res_bind].
  rewrite (idx_ok _ _ _ (proj2 Hrow w ltac:(lia))). cbn [mbind res_bind]. rewrite Z.shiftr_0_r.
  destruct (Z.leb_spec (max_bits + 1 - mw) (11 - (max_bits + 1 - w))) as [Hfit|Hfit];
    [|by apply fill_singles_ok].
  rewrite Z.shiftl_1_l. replace (2 ^ (11 - (max_bits + 1 - w))) with (x1_len w) by (unfold x1_len; f_equal; lia).
  destruct (Hrows (max_bits + 1 - w)) as (row & Hrw & Hrok); [lia|].
  rewrite (idx_ok _ _ _ Hrw). cbn [mbind res_bind].
  eapply returns_bind.
  { apply (returns_foldM (fun k st => st.2 = x1_start w + Z.of_nat k * x1_len w /\
      filled_to (x1_start w + Z.of_nat k * x1_len w) st.1)).
    - cbn. by rewrite Z.add_0_r.
    - intros k s [d start] Hk [Hst Hf]. cbn in Hst, Hf. subst start.
      eapply returns_bind; [apply (fill_symbol_ok w (Z.of_nat k) s); try done; by rewrite zget_nat|].
      intros d' Hd'. cbn. rewrite Nat2Z.inj_succ. unfold Z.succ. split; [lia|done]. }
  intros [d start] [_ Hf]. cbn in *. rewrite x1_start_S by lia.
  pose proof (zlen_symbols_of ws w) as Hsl. unfold zlen in Hsl. by rewrite <- Hsl.
Qed.
End weights.
End layout.

(** ** The fill *)

(** What a cell of the double-symbol table says. *)
Lemma x2_cell_inv t i e : complete t -> 0 <= i -> x2_cell (x1_table t) i = Some e ->
  exists e1 e2, zget (x1_table t) i = Some e1 /\
    zget (x1_table t) ((i * 2 ^ nb e1) mod 2 ^ HUF_FAST_TABLE_LOG) = Some e2 /\
    (nb e1 + nb e2 <= 11 /\ e = MkHufX2 (symbol e1 + 256 * symbol e2) (nb e1 + nb e2) 2 \/
     11 < nb e1 + nb e2 /\ e = MkHufX2 (symbol e1) (nb e1) 1).
Proof.
  intros Hc Hi He. unfold x2_cell in He. destruct (zget (x1_table t) i) as [e1|]; [|done].
  cbn in He. unfold x2_second in He.
  destruct (zget (x1_table t) _) as [e2|] eqn:H2; [|done]. cbn in He. exists e1, e2.
  split; [done|]. split; [done|]. injection He as <-.
  change HUF_FAST_TABLE_LOG with 11. destruct (Z.leb_spec (nb e1 + nb e2) 11); [by left|by right].
Qed.

Lemma x2_cell_sequence t i e : complete t -> 0 <= i -> x2_cell (x1_table t) i = Some e ->
  0 <= sequence e < 65536.
Proof.
  intros Hc Hi He. destruct (x2_cell_inv t i e Hc Hi He) as (e1 & e2 & H1 & H2 & H).
  pose proof (x1_table_prefix t Hc) as Hp.
  destruct (pt_cell _ Hp _ _ H1) as [_ Hb1]. destruct (pt_cell _ Hp _ _ H2) as [_ Hb2].
  unfold is_byte in *. destruct H as [[_ ->]|[_ ->]]; cbn; lia.
Qed.

Lemma fill_x2_ok t : complete t -> zlen (sorted t) = 256 ->
  returns (fun t' => x2_table_of (x1_table t) (ht_decode_x2 t') /\ weights t' = weights t /\
             nb_symbols t' = nb_symbols t /\ max_num_bits t' = max_num_bits t /\
             rank_stats t' = rank_stats t /\ is_x2 t' = is_x2 t /\ fse_table t' = fse_table t /\
             zlen (sorted t') = 256)
    (fill_x2 t).
Proof.
  intros Hc Hsl. pose proof (cc_log t Hc) as Hlog. unfold HUF_TABLELOG_MAX in Hlog.
  unfold fill_x2. change HUF_FAST_TABLE_LOG with 11.
  eapply returns_bind; [by apply highest_weight_ok|]. intros mw Hmw.
  destruct (sort_symbols_ok t Hc Hsl) as (srt & Hs & ->). cbn [mbind res_bind].
  destruct (Z.leb_spec (max_num_bits t) 11); [|lia]. cbn [rassert mbind res_bind].
  cbn [rank_stats ht_decode_x2 HufTable.sorted].
  eapply returns_bind; [by apply x2_rank_val0_ok|]. intros [row0 nv] Hrow0.
  eapply returns_bind; [by apply x2_rank_val_ok|]. intros rows [Hr0 Hrows].
  set (cs0 := vresize (ht_decode_x2 t) _ _).
  assert (zlen cs0 = 2048) as Hcs0 by (by apply zlen_vresize).
  eapply returns_bind.
  { apply (returns_foldM (fun k => filled_to t (x1_start t (1 + Z.of_nat k)))).
    - exists cs0. split_and!; [done|done|]. intros i Hi.
      change (1 + Z.of_nat 0) with 1 in Hi. rewrite x1_start_1 in Hi. lia.
    - intros k w out Hk Hout. apply lookup_seqZ in Hk as [-> Hk].
      replace (1 + Z.of_nat (S k)) with (1 + Z.of_nat k + 1) by lia.
      by apply (fill_x2_weight_ok t Hc srt Hs mw Hmw rows row0); try done; lia. }
  intros out (cs & -> & Hl & Hcs). rewrite length_seqZ in Hcs. destruct Hmw as [Hmr Hz].
  replace (1 + Z.of_nat (Z.to_nat mw)) with (mw + 1) in Hcs by lia.
  rewrite (x1_start_empty t Hc (mw + 1)) in Hcs by (lia || (intros; apply Hz; lia)).
  cbn. rewrite x2_cells_bytes.
  - split; [split; [exact Hl|exact Hcs]|]. split_and!; try done. by destruct Hs.
  - apply Forall_lookup_2. intros k e Hk. rewrite <- zget_nat in Hk.
    pose proof (zget_lt _ _ _ Hk) as Hkr. rewrite Hcs in Hk by lia.
    apply (x2_cell_sequence t (Z.of_nat k)); done || lia.
Qed.

(** ** Either table *)

Lemma huf_select_x2_ok dst src : 0 <= dst -> 0 <= src -> returns (fun _ => True) (huf_select_x2 dst src).
Proof.
  intros Hd Hs. unfold huf_select_x2.
  set (q := if dst <=? src then 15 else src * 16 / dst).
  assert (0 <= q < 16) as Hq.
  { unfold q. destruct (Z.leb_spec dst src); [lia|]. split; [apply Z.div_pos; lia|].
    apply Z.div_lt_upper_bound; lia. }
  destruct (zget_is_Some HUF_ALGO_TIME q) as [[[t0 d0] [t1 d1]] Hx]; [by change (zlen _) with 16|].
  rewrite (idx_ok _ _ _ Hx). done.
Qed.

(** A built table holds the code's cells, of one symbol or of two. *)
Definition huf_built (t : HuffmanTable) : Prop :=
  complete t /\
  if is_x2 t then x2_table_of (x1_table t) (ht_decode_x2 t) else ht_decode t = x1_table t.

(** [fill] on the tree of a description, in either layout, keeps the tree. *)
Lemma huf_fill_keeps t x2 : complete t -> huf_wf t ->
  returns (fun t' => (huf_built t' /\ huf_wf t') /\ code_weights t' = code_weights t /\ max_num_bits t' = max_num_bits t) (fill t x2).
Proof.
  intros Hc [Hw Hb Hso Hf]. unfold fill. set (t2 := MkHT _ _ _ _ _ _ _ _ _).
  assert (complete t2) as Hc2 by (by destruct Hc; split).
  assert (zlen (sorted t2) = 256) as Hsl by done.
  assert (forall t3, weights t3 = weights t2 -> nb_symbols t3 = nb_symbols t2 ->
    max_num_bits t3 = max_num_bits t2 -> rank_stats t3 = rank_stats t2 ->
    fse_table t3 = fse_table t2 -> zlen (sorted t3) = 256 ->
    complete t3 /\ huf_wf t3 /\ x1_table t3 = x1_table t2 /\ code_weights t3 = code_weights t2 /\ max_num_bits t3 = max_num_bits t2) as Hsame.
  { intros t3 H2 H3 H4 H5 H7 H8. destruct Hc2 as [C1 C2 C3 C4 C5 C6 C7 C8]. split_and!.
    - split; rewrite ?H2, ?H3, ?H4, ?H5; done.
    - split; rewrite ?H2; try done. by rewrite H7.
    - unfold x1_table, code_weights. by rewrite H2, H3, H4.
    - unfold code_weights. by rewrite H2, H3.
    - done. }
  destruct x2.
  - eapply returns_mono; [by apply fill_x2_ok|].
    intros t3 (H1 & H2 & H3 & H4 & H5 & H6 & H7 & H8).
    destruct (Hsame t3) as (K1 & K2 & K3 & K4); try done. unfold huf_built. by rewrite H6, K3.
  - eapply returns_mono; [by apply fill_x1_ok|].
    intros t3 (H1 & H2 & H3 & H4 & H5 & H6 & H7 & H8).
    destruct (Hsame t3) as (K1 & K2 & K3 & K4); try done. unfold huf_built. by rewrite H6, K3.
Qed.

Lemma huf_fill_ok t x2 : complete t -> huf_wf t ->
  returns (fun t' => huf_built t' /\ huf_wf t') (fill t x2).
Proof. intros Hc Hwf. eapply returns_mono; [by apply huf_fill_keeps|]. by intros t' [? _]. Qed.

(** The tree of a description: its weights, then their statistics. *)
Lemma huf_tree_ok t source : huf_wf t -> bytes source ->
  safe (fun '(t', used) => complete t' /\ huf_wf t' /\ 1 <= used <= zlen source /\ used <= 128)
    ('(t, (used, n)) ← read_weights t source; t ← weight_stats t n; Ok (t, used)).
Proof.
  intros Hwf Hs. eapply safe_bind; [by apply read_weights_ok|].
  intros [t1 [used n]] ([Hw1 Hb1 Hs1 Hf1] & Hu & Hu2 & Hn & Hws & _).
  eapply safe_bind; [by apply weight_stats_ok|].
  intros t2 (Hc & _ & _ & Hst). destruct Hst as (_ & _ & _ & Hso2 & Hfs). apply safe_ok.
  split; [done|]. split; [|done]. destruct Hc. split; try done; congruence.
Qed.

Lemma huf_build_ok t source dst_size four : huf_wf t -> bytes source -> 0 <= dst_size ->
  safe (fun '(t', used) => huf_built t' /\ huf_wf t' /\ 1 <= used <= zlen source)
    (huf_build_decoder t source dst_size four).
Proof.
  intros [Hw Hb Hso Hf] Hs Hd. unfold huf_build_decoder.
  set (t0 := MkHT _ _ _ _ _ _ _ _ _).
  pose proof (huf_tree_ok t0 source ltac:(by split) Hs) as Htree.
  destruct (read_weights t0 source) as [[t1 [used n]]|e| |]; cbn [mbind res_bind] in *; try done.
  destruct (weight_stats t1 n) as [t2|e| |]; cbn [mbind res_bind] in *; try done.
  destruct Htree as (Hc & Hwf & Hu & Hu2).
  eapply (safe_bind (fun _ => True)).
  { destruct four; [apply returns_safe, huf_select_x2_ok; [done|apply zlen_nonneg]|done]. }
  intros x2 _. eapply safe_bind; [by apply returns_safe, huf_fill_ok|]. intros t3 [H1 H2].
  apply safe_ok. rewrite wrap_small by (change (2 ^ 32) with 4294967296; lia). done.
Qed.

(** C22: The Huffman table is that of the description's prefix code, whichever
    of the two layouts [build_decoder] picks: on every byte string it neither
    faults nor runs on; if it accepts, the code is complete, a single-symbol
    table is the code's lookup table, and each of the 2048 cells of a
    double-symbol table says what two lookups in that table, one after the
    other, say: both symbols and their total length when the two codes fit in
    11 bits, else the first symbol alone. *)
Theorem huffman_tables_correct t source dst_size four :
  huf_wf t -> bytes source -> 0 <= dst_size ->
  match huf_build_decoder t source dst_size four with
  | Ok (t', used) => complete t' /\ 1 <= used <= zlen source /\
      (if is_x2 t' then
         zlen (ht_decode_x2 t') = 2048 /\
         forall i, 0 <= i < 2048 -> zget (ht_decode_x2 t') i = x2_cell (x1_table t') i
       else ht_decode t' = x1_table t')
  | Err _ => True
  | Fault | Stuck => False
  end.
Proof.
  intros Hwf Hs Hd. pose proof (huf_build_ok t source dst_size four Hwf Hs Hd) as H.
  destruct (huf_build_decoder _ _ _ _) as [[t' used]| | |]; cbn in H; try done.
  destruct H as ((Hc & Hd') & _ & Hu). split_and!; try done; try lia.
Qed.

Lemma huffman_tables_correct_witness :
  exists t' e, huf_build_decoder huf_new ([132; 0x11; 0x23; 0x40] ++ zrepeat 0 124) 800 true = Ok (t', 4) /\
    is_x2 t' = true /\ zget (ht_decode_x2 t') 0 = Some e /\ x2_cell (x1_table t') 0 = Some e.
Proof.
  assert (bytes ([132; 0x11; 0x23; 0x40] ++ zrepeat 0 124)) as Hb
    by (apply Forall_app; split; [solve_bytes|by apply Forall_zrepeat]).
  pose proof (huffman_tables_correct huf_new _ 800 true huf_new_wf Hb ltac:(lia)) as H.
  destruct (huf_build_decoder _ _ _ _) as [[t' n]|e| |] eqn:E; [|vm_compute in E; discriminate E..].
  assert (n = 4) as -> by (vm_compute in E; by injection E as <- <-).
  assert (is_x2 t' = true) as Hx by (vm_compute in E; by injection E as <-).
  rewrite Hx in H. destruct H as (Hc & _ & Hl & Hcells).
  destruct (zget_is_Some (ht_decode_x2 t') 0) as [e He]; [rewrite Hl; lia|].
  exists t', e. specialize (Hcells 0 ltac:(lia)).
  split; [done|]. split; [done|]. split; [done|]. by rewrite <- Hcells.
Defined.
