(* ===== verification/HufX2.v ===== *)
(** * The double-symbol Huffman streams ([src/decode.rs], "X2")

    The decoders that take up to two symbols a lookup: one stream, and four
    with the unchecked loop or the plain one. [huf_decompress] picks among
    them and those of [HufStream]. The proofs are in [HufX2Decode] and
    [HufX2Fast]. *)

From S2P Require Import Prelude Words Constants Errors BitDStream HufTable HufStream.

(** The turn of the loop in [huf_decode_cells_x2]: one cell. *)
Definition cell_x2 (dt : list HufEntryX2) (st : list Z * BitDStream * Z)
    : dec (list Z * BitDStream * Z) :=
  let '(w, br, o) := st in
  entry ← idx dt (look_bits br HUF_FAST_TABLE_LOG);
  w ← copy_from_slice w o (o + 2) (le_bytes 2 (sequence entry));
  Ok (w, skip_bits br (nb_bits entry), o + advance_x2 entry).

(** [huf_decode_cells_x2::<N>], on the room [w] of [n] bytes. *)
Definition huf_decode_cells_x2 (n : Z) (w : list Z) (br : BitDStream) (dt : list HufEntryX2)
    : dec (list Z * BitDStream * Z) :=
  foldM (fun st _ => cell_x2 dt st) (w, br, 0) (seqZ 0 (n / 2)).

(** [out[op..].first_chunk_mut()] with [N = n], decoded into. *)
Definition cells_at (n : Z) (dt : list HufEntryX2) (out : list Z) (op : Z) (br : BitDStream)
    : dec (list Z * BitDStream * Z) :=
  w ← slice out op (op + n);
  '(w, br, k) ← huf_decode_cells_x2 n w br dt;
  out ← copy_from_slice out op (op + n) w;
  Ok (out, br, op + k).

(** [while br.reload() == Unfinished { .. }], in chunks of [n]. *)
Definition stream_x2_loaded (n : Z) (dt : list HufEntryX2) (st : list Z * BitDStream * Z)
    : dec (list Z * BitDStream * Z + list Z * BitDStream * Z) :=
  let '(out, br, op) := st in
  '(status, br) ← reload br;
  if decide (status = Unfinished) then
    rest ← slice_from out op;
    if n <=? zlen rest then st ← cells_at n dt out op br; Ok (inl st)
    else Ok (inr (out, br, op))
  else Ok (inr (out, br, op)).

(** The last loop, with no reloads. *)
Definition stream_x2_last (dt : list HufEntryX2) (st : list Z * BitDStream * Z)
    : dec (list Z * BitDStream * Z + list Z * BitDStream * Z) :=
  let '(out, br, op) := st in
  rest ← slice_from out op;
  if 2 <=? zlen rest then st ← cells_at 2 dt out op br; Ok (inl st)
  else Ok (inr (out, br, op)).

(** [huf_decode_last_symbol_x2]. *)
Definition huf_decode_last_symbol_x2 (out : list Z) (op : Z) (br : BitDStream)
    (dt : list HufEntryX2) (table : HuffmanTable) : dec (list Z * BitDStream) :=
  entry ← idx dt (look_bits br HUF_FAST_TABLE_LOG);
  let symbol := wrap 8 (sequence entry) in
  out ← store out op symbol;
  n ← code_len table symbol;
  Ok (out, skip_bits br n).

(** [huf_decode_stream_x2]. *)
Definition huf_decode_stream_x2 (out : list Z) (br : BitDStream) (dt : list HufEntryX2)
    (table : HuffmanTable) : dec (list Z * BitDStream) :=
  let end_ := zlen out in
  '(out, br, op) ←
    (if 8 <=? end_ then loopM (length out + 1) (stream_x2_loaded 10 dt) (out, br, 0)
     else
       '(_, br) ← reload br;
       Ok (out, br, 0));
  '(out, br, op) ←
    (if 2 <=? end_ - op then
       st ← loopM (length out + 1) (stream_x2_loaded 2 dt) (out, br, op);
       loopM (length out + 1) (stream_x2_last dt) st
     else Ok (out, br, op));
  if op <? end_ then huf_decode_last_symbol_x2 out op br dt table else Ok (out, br).

(** [huf_decompress_1x2]. *)
Definition huf_decompress_1x2 (out src : list Z) (table : HuffmanTable) : dec (list Z) :=
  dt ← huf_cells (ht_decode_x2 table);
  br ← BitDStream.new src;
  '(out, br) ← huf_decode_stream_x2 out br dt table;
  _ ← fail_if (negb (is_finished br)) EStreamNotConsumed;
  Ok out.

(** ** Four streams *)

(** The [decode!] macro of [huf_4x2_fast_loop]. *)
Definition fast_decode_x2 (dt : list HufEntryX2) (st : HufFastArgs * list Z) (s : Z)
    : dec (HufFastArgs * list Z) :=
  let '(args, out) := st in
  b ← idx (fbits args) s;
  entry ← idx dt (Z.shiftr b (64 - HUF_FAST_TABLE_LOG));
  o ← idx (op args) s;
  out ← copy_from_slice out o (o + 2) (le_bytes 2 (sequence entry));
  bs ← store (fbits args) s (wshl 64 b (nb_bits entry));
  ops ← store (op args) s (o + length_x2 entry);
  Ok (MkFast (ip args) ops bs, out).

(** Its [reload!] macro: a cell of stream 3, then the reload, which advances
    no output. *)
Definition fast_reload_x2 (src : list Z) (dt : list HufEntryX2) (st : HufFastArgs * list Z) (s : Z)
    : dec (HufFastArgs * list Z) :=
  '(args, out) ← fast_decode_x2 dt st 3;
  args ← fast_reload src 0 args s;
  Ok (args, out).

(** The 16 cells before the reloads. *)
Definition fast_order_x2 : list Z := concat (replicate 5 [0; 1; 2]) ++ [3].

(** One turn of the inner loop. *)
Definition fast_x2_turn (src : list Z) (dt : list HufEntryX2) (olimit : Z)
    (st : HufFastArgs * list Z) : dec (HufFastArgs * list Z + HufFastArgs * list Z) :=
  st ← foldM (fast_decode_x2 dt) st fast_order_x2;
  '(args, out) ← foldM (fast_reload_x2 src dt) st [0; 1; 2; 3];
  o3 ← idx (op args) 3;
  Ok (if olimit <=? o3 then inr (args, out) else inl (args, out)).

(** [iters]: the turns the input and each stream's room allow. *)
Definition fast_x2_iters (args : HufFastArgs) (oend : list Z) : dec Z :=
  i0 ← idx (ip args) 0;
  foldM (fun iters s =>
      e ← idx oend s;
      o ← idx (op args) s;
      _ ← rassert (o <=? e);
      Ok (Z.min iters ((e - o) / 10))) (i0 / 7) [0; 1; 2; 3].

(** One turn of the outer loop. *)
Definition fast_x2_round (src : list Z) (dt : list HufEntryX2) (oend : list Z)
    (st : HufFastArgs * list Z) : dec (HufFastArgs * list Z + HufFastArgs * list Z) :=
  let '(args, out) := st in
  iters ← fast_x2_iters args oend;
  o3 ← idx (op args) 3;
  let olimit := o3 + iters * 5 in
  if o3 =? olimit then Ok (inr (args, out))
  else
    crossed ← streams_crossed (ip args);
    if (crossed : bool) then Ok (inr (args, out))
    else
      st ← loopM (length out + 1) (fast_x2_turn src dt olimit) (args, out);
      Ok (inl st).

(** [huf_4x2_fast_loop]. *)
Definition huf_4x2_fast_loop (args : HufFastArgs) (out src : list Z) (dt : list HufEntryX2)
    : dec (HufFastArgs * list Z) :=
  o1 ← idx (op args) 1; o2 ← idx (op args) 2; o3 ← idx (op args) 3;
  let oend := [o1; o2; o3; zlen out] in
  loopM (length out + 1) (fast_x2_round src dt oend) (args, out).

(** The rest of stream [s] after the fast loop. *)
Definition fast_rest_x2 (args : HufFastArgs) (h : HufStreams) (src : list Z) (dt : list HufEntryX2)
    (table : HuffmanTable) (out : list Z) (s : Z) : dec (list Z) :=
  let e := segment_end h s (zlen out) in
  o ← idx (op args) s;
  _ ← fail_if (e <? o) EStreamOverranSegment;
  br ← huf_remaining_dstream args h s src;
  seg ← slice out o e;
  '(seg, br) ← huf_decode_stream_x2 seg br dt table;
  _ ← fail_if (negb (is_finished br)) EStreamNotConsumed;
  Ok (ztake o out ++ seg ++ zdrop e out).

(** The plain loop keeps, for each stream, its write position in the common
    output and its reader. [op += huf_decode_cells_x2::<8>(..)] of stream [s]: *)
Definition plain_x2_cells (dt : list HufEntryX2) (st : list Z * list (Z * BitDStream)) (s : Z)
    : dec (list Z * list (Z * BitDStream)) :=
  let '(out, ss) := st in
  '(op, br) ← idx ss s;
  '(out, br, op) ← cells_at 8 dt out op br;
  ss ← store ss s (op, br);
  Ok (out, ss).

(** [end_signal &= br.reload_fast() == Unfinished] of stream [s]. *)
Definition plain_x2_reload (st : bool * list (Z * BitDStream)) (s : Z)
    : dec (bool * list (Z * BitDStream)) :=
  let '(sig, ss) := st in
  '(op, br) ← idx ss s;
  '(status, br) ← reload_fast br;
  ss ← store ss s (op, br);
  Ok (sig && bool_decide (status = Unfinished), ss).

(** One turn of the plain loop. *)
Definition plain_x2_turn (dt : list HufEntryX2) (st : bool * list Z * list (Z * BitDStream))
    : dec (bool * list Z * list (Z * BitDStream) + list Z * list (Z * BitDStream)) :=
  let '(sig, out, ss) := st in
  s4 ← idx ss 3;
  if sig && (s4.1 + 8 <=? zlen out) then
    '(out, ss) ← foldM (plain_x2_cells dt) (out, ss) [0; 1];
    '(sig, ss) ← foldM plain_x2_reload (sig, ss) [0; 1];
    '(out, ss) ← foldM (plain_x2_cells dt) (out, ss) [2; 3];
    '(sig, ss) ← foldM plain_x2_reload (sig, ss) [2; 3];
    Ok (inl (sig, out, ss))
  else Ok (inr (out, ss)).

(** [huf_decode_stream_x2(&mut out[op..end], ..)] of stream [s]. *)
Definition decode_part_x2 (dt : list HufEntryX2) (table : HuffmanTable) (ends : list Z)
    (st : list Z * list (Z * BitDStream)) (s : Z) : dec (list Z * list (Z * BitDStream)) :=
  let '(out, ss) := st in
  '(op, br) ← idx ss s;
  e ← idx ends s;
  seg ← slice out op e;
  '(seg, br) ← huf_decode_stream_x2 seg br dt table;
  ss ← store ss s (op, br);
  Ok (ztake op out ++ seg ++ zdrop e out, ss).

(** The plain path of [huf_decompress_4x2]. *)
Definition plain_4x2 (out src : list Z) (h : HufStreams) (dt : list HufEntryX2) (table : HuffmanTable)
    : dec (list Z) :=
  let oend := zlen out in
  let sg := segment h in
  brs ← foldM (fun acc s =>
      st ← stream h src s;
      br ← BitDStream.new st;
      Ok (acc ++ [br])) [] [0; 1; 2; 3];
  let ss := zip [0; sg; 2 * sg; 3 * sg] brs in
  '(out, ss) ←
    (if 8 <=? oend - 3 * sg then loopM (length out + 1) (plain_x2_turn dt) (true, out, ss)
     else Ok (out, ss));
  s1 ← idx ss 0; s2 ← idx ss 1; s3 ← idx ss 2;
  _ ← fail_if ((sg <? s1.1) || (2 * sg <? s2.1) || (3 * sg <? s3.1)) EStreamOverranSegment;
  '(out, ss) ← foldM (decode_part_x2 dt table [sg; 2 * sg; 3 * sg; oend]) (out, ss) [0; 1; 2; 3];
  _ ← fail_if (negb (forallb (fun s => is_finished s.2) ss)) EStreamNotConsumed;
  Ok out.

(** [huf_decompress_4x2]. *)
Definition huf_decompress_4x2 (out src : list Z) (table : HuffmanTable) : dec (list Z) :=
  dt ← huf_cells (ht_decode_x2 table);
  h ← split src (zlen out);
  fast ← huf_fast_args_init h src (zlen out);
  match fast with
  | Some args =>
      '(args, out) ← huf_4x2_fast_loop args out src dt;
      foldM (fast_rest_x2 args h src dt table) out [0; 1; 2; 3]
  | None => plain_4x2 out src h dt table
  end.

(** [huf_decompress]. *)
Definition huf_decompress (out source : list Z) (four_streams : bool) (t : HuffmanTable)
    : dec (list Z) :=
  match four_streams, is_x2 t with
  | true, true => huf_decompress_4x2 out source t
  | true, false => huf_decompress_4x1 out source t
  | false, true => huf_decompress_1x2 out source t
  | false, false => huf_decompress_1x1 out source t
  end.
