(* ===== verification/HufX2Decode.v ===== *)
(** * The double-symbol decoder of one stream

    [huf_decode_stream_x2] reads a cell of up to two symbols at a time. Here:
    it decodes the same symbols as the reference decoder of [HufDecode], and
    ends on the same bit. *)

From S2P Require Import Prelude Words Constants Errors FseBuild BitDStream HufTable HufWeights.
From S2P Require Import HufFill HufStream HufDecode HufX2Table HufX2.

(** ** The reference's cursor, two symbols at a time *)

(** [n] symbols [l] of the stream number [v] leave [u] bits, or the stream's
    start is passed. *)
Definition cursor (dt : list HuffmanEntry) (v u0 : Z) (n : nat) (l : list Z) (u : Z) : Prop :=
  length l = n /\
  (decode_ref dt v u0 n = Some (l, u) /\ 0 <= u \/ decode_ref dt v u0 n = None /\ u < 0).

Lemma cursor_step dt v u0 n l u e :
  cursor dt v u0 n l u -> 1 <= nb e ->
  (0 < u -> exists e', zget dt (peek v u HUF_FAST_TABLE_LOG) = Some e' /\
     (e' = e \/ u < nb e /\ u < nb e')) ->
  cursor dt v u0 (S n) (l ++ [symbol e]) (u - nb e).
Proof.
  intros [Hl Hc] Hnb Hlook. split; [rewrite length_app; cbn; lia|].
  destruct Hc as [[Href Hu]|[Href Hu]]; [|right; split; [by apply decode_ref_None_S|lia]].
  cbn [decode_ref]. rewrite Href. destruct (Z.ltb_spec 0 u); [|right; split; [done|lia]].
  destruct (Hlook ltac:(lia)) as (e' & -> & [->|[H1 H2]]).
  - destruct (Z.leb_spec (nb e) u); [left|right]; split; done || lia.
  - destruct (Z.leb_spec (nb e') u); [lia|]. right. split; [done|lia].
Qed.

Section decode.
Context (t : HuffmanTable) (Hc : complete t).
Context (cells : list HufEntryX2) (Hcells : x2_table_of (x1_table t) cells).

Local Abbreviation dt := (x1_table t).
Local Definition Hdt : prefix_table dt := x1_table_prefix t Hc.

(** The code's length of a cell's symbol. *)
Lemma code_len_ok i e : zget dt i = Some e -> code_len t (symbol e) = Ok (nb e).
Proof.
  intros Hi. pose proof (cc_log t Hc) as Hlog. unfold HUF_TABLELOG_MAX in Hlog.
  unfold x1_table in Hi. change (x1_runs ?a ?b) with (runs_upto a b b) in Hi.
  destruct (runs_upto_spec (code_weights t) (max_num_bits t) (max_num_bits t)) as [_ Hin];
    [lia|unfold HUF_FAST_TABLE_LOG, HUF_TABLELOG_MAX; lia|].
  destruct (expand_runs_run _ i e ltac:(apply Forall_forall; intros r Hr;
    destruct (Hin r Hr) as (w & s & _ & _ & ->); apply Z.pow_nonneg; lia) Hi)
    as (pre & n & post & Heq & _).
  destruct (Hin (n, e)) as (w & s & Hw & Hs & Hne).
  { rewrite Heq. apply elem_of_app. right. left. }
  injection Hne as -> ->. apply list_elem_of_filter in Hs as [Hs Hr]. unfold code_len. cbn [symbol nb].
  unfold code_weights in *. apply elem_of_seqZ in Hr.
  rewrite zget_ztake in Hs by (pose proof (zget_lt _ _ _ Hs) as Hl;
    rewrite zlen_ztake in Hl by (destruct Hc; lia); lia).
  rewrite (idx_ok _ _ _ Hs). done.
Qed.

(** The symbols of a cell. *)
Definition cell_symbols (e : HufEntryX2) : list Z := ztake (length_x2 e) (le_bytes 2 (sequence e)).

(** What a cell is made of. *)
Record cell_of (i : Z) (e : HufEntryX2) (e1 e2 : HuffmanEntry) : Prop := {
  co_first : zget dt i = Some e1;
  co_second : zget dt ((i * 2 ^ nb e1) mod 2 ^ HUF_FAST_TABLE_LOG) = Some e2;
  co_range : 1 <= nb e1 <= 11 /\ 1 <= nb e2 <= 11 /\ is_byte (symbol e1) /\ is_byte (symbol e2);
  co_case : nb e1 + nb e2 <= 11 /\ nb_bits e = nb e1 + nb e2 /\ length_x2 e = 2 /\
              cell_symbols e = [symbol e1; symbol e2] \/
            nb_bits e = nb e1 /\ length_x2 e = 1 /\ cell_symbols e = [symbol e1];
  co_byte : wrap 8 (sequence e) = symbol e1;
}.

Lemma cell_at i : 0 <= i < 2 ^ HUF_FAST_TABLE_LOG ->
  exists e e1 e2, zget cells i = Some e /\ cell_of i e e1 e2.
Proof.
  intros Hi. destruct Hcells as [Hl Hg].
  destruct (zget_is_Some cells i ltac:(lia)) as [e He]. exists e.
  rewrite Hg in He by done. destruct (x2_cell_inv t i e Hc ltac:(lia) He) as (e1 & e2 & H1 & H2 & H).
  exists e1, e2. rewrite Hg by done. split; [done|].
  destruct (pt_cell _ Hdt _ _ H1) as [Hn1 Hb1]. destruct (pt_cell _ Hdt _ _ H2) as [Hn2 Hb2].
  unfold is_byte in *. split; try done.
  - unfold cell_symbols. destruct H as [[Hle ->]|[_ ->]]; cbn [sequence length_x2 HufTable.nb_bits]; [left|right].
    + split_and!; try done.
      replace (symbol e1 + 256 * symbol e2) with (le_val [symbol e1; symbol e2]) by (cbn; lia).
      pose proof (le_bytes_le_val [symbol e1; symbol e2] ltac:(solve_bytes)) as Hb.
      change (length _) with 2%nat in Hb. by rewrite Hb.
    + split_and!; try done.
      replace (symbol e1) with (le_val [symbol e1; 0]) at 1 by (cbn; lia).
      pose proof (le_bytes_le_val [symbol e1; 0] ltac:(solve_bytes)) as Hb.
      change (length _) with 2%nat in Hb. by rewrite Hb.
  - unfold wrap. change (2 ^ 8) with 256.
    destruct H as [[_ ->]|[_ ->]]; cbn [sequence].
    + rewrite (Z.mul_comm 256), Z.mod_add by lia. apply Z.mod_small. lia.
    + apply Z.mod_small. lia.
Qed.

(** The second symbol is the lookup after the first. *)
Lemma cell_peek v q e e1 e2 : cell_of (peek v q HUF_FAST_TABLE_LOG) e e1 e2 ->
  nb e1 + nb e2 <= 11 -> nb e1 < q ->
  zget dt (peek v (q - nb e1) HUF_FAST_TABLE_LOG) = Some e2.
Proof.
  intros [H1 H2 (Hn1 & Hn2 & _) _ _] Hfit Hq.
  unfold HUF_FAST_TABLE_LOG, HUF_TABLELOG_MAX in *.
  apply (pt_prefix _ Hdt ((peek v q 11 * 2 ^ nb e1) mod 2 ^ 11)); [done|apply peek_range; lia|].
  unfold HUF_FAST_TABLE_LOG, HUF_TABLELOG_MAX.
  apply Z.bits_inj'. intros i Hi. rewrite !Z.div_pow2_bits by lia.
  rewrite testbit_peek by lia. destruct (Z.ltb_spec (i + (11 - nb e2)) 11); cbn [andb].
  - rewrite Z.mod_pow2_bits_low, Z.mul_pow2_bits by lia. rewrite testbit_peek by lia.
    destruct (Z.ltb_spec (i + (11 - nb e2) - nb e1) 11); [|lia]. cbn [andb]. f_equal. lia.
  - rewrite Z.mod_pow2_bits_high by lia. done.
Qed.

(** A cell read where the reference stands advances it by the cell's symbols. *)
Lemma cursor_cell v u0 n l u i e e1 e2 :
  cursor dt v u0 n l u -> cell_of i e e1 e2 ->
  (0 < u -> exists e', zget dt (peek v u HUF_FAST_TABLE_LOG) = Some e' /\
     (e' = e1 \/ u < nb e1 /\ u < nb e')) ->
  (nb e1 + nb e2 <= 11 -> nb e1 < u ->
     exists e', zget dt (peek v (u - nb e1) HUF_FAST_TABLE_LOG) = Some e' /\
     (e' = e2 \/ u - nb e1 < nb e2 /\ u - nb e1 < nb e')) ->
  cursor dt v u0 (n + length (cell_symbols e)) (l ++ cell_symbols e) (u - nb_bits e).
Proof.
  intros Hcur [H1 H2 (Hn1 & Hn2 & _) Hcase _] Hl1 Hl2.
  pose proof (cursor_step dt v u0 n l u e1 Hcur ltac:(lia) Hl1) as Hs1.
  destruct Hcase as [(Hfit & -> & _ & ->)|(-> & _ & ->)].
  - replace (n + length [symbol e1; symbol e2])%nat with (S (S n)) by (cbn; lia).
    replace (l ++ [symbol e1; symbol e2]) with ((l ++ [symbol e1]) ++ [symbol e2]) by by rewrite <- app_assoc.
    replace (u - (nb e1 + nb e2)) with (u - nb e1 - nb e2) by lia.
    apply cursor_step; [done|lia|]. intros Hpos. apply Hl2; [done|lia].
  - by replace (n + length [symbol e1])%nat with (S n) by (cbn; lia).
Qed.

Lemma at_cursor_iff s u0 n l br : at_cursor dt s u0 n l br <->
  stream_ok br /\ src br = s /\ cursor dt (le_val s) u0 n l (unread br) /\
  (0 <= unread br -> bits_consumed br <= 64) /\ (unread br < 0 -> ptr br = 0).
Proof.
  unfold at_cursor, cursor. split.
  - intros (Hok & Hsrc & Hl & [(H1 & H2 & H3)|(H1 & H2 & H3)]); pose proof (ok_ptr _ Hok).
    + split_and!; try done; [by left|lia].
    + assert (unread br < 0) by (unfold unread; lia). split_and!; try done; [by right|lia].
  - intros (Hok & Hsrc & (Hl & [[H1 H2]|[H1 H2]]) & Ha & Hb); pose proof (ok_ptr _ Hok).
    + split_and!; try done. left. split_and!; try done. by apply Ha.
    + split_and!; try done. right. specialize (Hb H2). unfold unread in H2. split_and!; done || lia.
Qed.

(** Any lookup finds a cell. *)
Lemma look_bits_11 br : 0 <= look_bits br HUF_FAST_TABLE_LOG < 2 ^ HUF_FAST_TABLE_LOG.
Proof.
  destruct (look_in_table dt Hdt br) as (e & He & _). pose proof (zget_lt _ _ _ He) as Hl.
  rewrite <- (pt_len dt Hdt). done.
Qed.

Lemma look_cell_ok s u0 n l br k :
  at_cursor dt s u0 n l br -> ready k br -> 1 <= k -> bits_consumed br < 2 ^ 31 ->
  exists e e1 e2, zget cells (look_bits br HUF_FAST_TABLE_LOG) = Some e /\
    cell_of (look_bits br HUF_FAST_TABLE_LOG) e e1 e2 /\
    at_cursor dt s u0 (n + length (cell_symbols e)) (l ++ cell_symbols e) (skip_bits br (nb_bits e)) /\
    at_cursor dt s u0 (S n) (l ++ [symbol e1]) (skip_bits br (nb e1)) /\
    ready (k - 1) (skip_bits br (nb_bits e)) /\
    bits_consumed (skip_bits br (nb_bits e)) <= bits_consumed br + 11.
Proof.
  intros (Hok & Hsrc & Hcur & H64 & Hp0)%at_cursor_iff Hr Hk Hb31.
  change (2 ^ 31) with 2147483648 in Hb31.
  destruct (cell_at _ (look_bits_11 br)) as (e & e1 & e2 & He & Hco). exists e, e1, e2.
  split; [done|]. split; [done|].
  pose proof Hco as [H1 _ (Hn1 & Hn2 & _) Hcase _].
  assert (1 <= nb_bits e <= 11) as Hnb by lia.
  assert (forall m, 1 <= m <= 11 -> stream_ok (skip_bits br m) /\ unread (skip_bits br m) = unread br - m /\
    bits_consumed (skip_bits br m) = bits_consumed br + m) as Hskip.
  { intros m Hm. apply skip_bits_ok; [done|lia|change (2 ^ 32) with 4294967296; lia]. }
  assert (0 < unread br -> look_bits br HUF_FAST_TABLE_LOG = peek (le_val s) (unread br) HUF_FAST_TABLE_LOG)
    as Hpeek.
  { intros Hu. rewrite <- Hsrc. apply look_bits_peek; [done|by vm_compute|].
    unfold loaded, HUF_FAST_TABLE_LOG, HUF_TABLELOG_MAX. pose proof (ok_ptr _ Hok).
    unfold ready, unread in *. lia. }
  assert (forall m n' l', 1 <= m <= 11 -> cursor dt (le_val s) u0 n' l' (unread br - m) ->
    at_cursor dt s u0 n' l' (skip_bits br m)) as Hat.
  { intros m n' l' Hm Hc'. destruct (Hskip m Hm) as (Hok' & Hu' & Hb').
    apply at_cursor_iff. rewrite Hu', Hb'. split_and!; try done.
    - unfold ready, unread in *. lia.
    - change (unread br - m < 0 -> ptr br = 0). unfold ready, unread in *.
      pose proof (ok_ptr _ Hok). lia. }
  split_and!.
  - apply Hat; [done|]. eapply cursor_cell; [done|done| |].
    + intros Hu. exists e1. rewrite <- Hpeek by done. split; [done|by left].
    + intros Hfit Hu. exists e2. rewrite Hpeek in Hco by lia.
      split; [by apply (cell_peek _ _ e)|by left].
  - apply Hat; [done|]. apply cursor_step; [done|lia|].
    intros Hu. exists e1. rewrite <- Hpeek by done. split; [done|by left].
  - destruct (Hskip (nb_bits e) Hnb) as (_ & _ & Hb'). change (ptr (skip_bits br (nb_bits e))) with (ptr br).
    unfold ready in *. rewrite Hb'. change (ptr (skip_bits br (nb_bits e))) with (ptr br). lia.
  - destruct (Hskip (nb_bits e) Hnb) as (_ & _ & Hb'). lia.
Qed.

(** ** Several cells *)

Lemma cell_symbols_ok i e e1 e2 : cell_of i e e1 e2 ->
  bytes (cell_symbols e) /\ zlen (cell_symbols e) = length_x2 e /\ 1 <= length_x2 e <= 2 /\
  advance_x2 e = length_x2 e.
Proof.
  intros [_ _ (_ & _ & B1 & B2) [(_ & _ & Hl & ->)|(_ & Hl & ->)] _]; unfold advance_x2; rewrite Hl.
  - split_and!; [solve_bytes|done..].
  - split_and!; [solve_bytes|done..].
Qed.

(** The two bytes of a cell, put at [o]. *)
Lemma put_cell i e e1 e2 (w : list Z) o : cell_of i e e1 e2 -> bytes w -> 0 <= o -> o + 2 <= zlen w ->
  exists w', (copy_from_slice w o (o + 2) (le_bytes 2 (sequence e)) : dec (list Z)) = Ok w' /\
    zlen w' = zlen w /\ bytes w' /\ ztake (o + length_x2 e) w' = ztake o w ++ cell_symbols e /\
    (forall j, j < o \/ o + 2 <= j -> zget w' j = zget w j).
Proof.
  intros Hco Hw Ho Hl. destruct (cell_symbols_ok _ _ _ _ Hco) as (_ & Hsl & Hlen & _).
  destruct (copy_from_slice_ok w (le_bytes 2 (sequence e)) o (o + 2)) as (-> & Hcl & Hct);
    [lia|lia|unfold zlen; rewrite length_le_bytes; lia|].
  eexists. split; [done|]. split; [done|]. split; [|split].
  - repeat (apply Forall_app; split); [by apply Forall_take|apply le_bytes_bytes|by apply Forall_drop].
  - assert (zlen (ztake o w) = o) as Hto by (apply zlen_ztake; lia).
    rewrite <- Hto at 1. rewrite ztake_app_add by lia. f_equal. unfold cell_symbols.
    apply ztake_app_le. unfold zlen. rewrite length_le_bytes. lia.
  - intros j Hj. assert (zlen (ztake o w) = o) as Hto by (apply zlen_ztake; lia).
    assert (zlen (le_bytes 2 (sequence e)) = 2) as Hlb by (unfold zlen; by rewrite length_le_bytes).
    destruct (Z_lt_dec j 0); [by rewrite !zget_None by lia|]. destruct Hj as [Hj|Hj].
    + rewrite zget_app_l, zget_ztake by lia. done.
    + rewrite zget_app_r, Hto by lia. rewrite zget_app_r, Hlb by lia.
      rewrite zget_zdrop by lia. f_equal. lia.
Qed.

Lemma cell_step_ok s u0 n l w br o k :
  at_cursor dt s u0 n l br -> ready k br -> 1 <= k -> bits_consumed br < 2 ^ 31 ->
  bytes w -> 0 <= o -> o + 2 <= zlen w ->
  returns (fun '(w', br', o') => exists x, at_cursor dt s u0 (n + length x) (l ++ x) br' /\
             ready (k - 1) br' /\ bits_consumed br' <= bits_consumed br + 11 /\ ptr br' = ptr br /\
             zlen w' = zlen w /\ bytes w' /\ o' = o + zlen x /\ 1 <= zlen x <= 2 /\
             ztake o' w' = ztake o w ++ x /\ (forall j, o' < j -> zget w' j = zget w j))
    (cell_x2 cells (w, br, o)).
Proof.
  intros Hat Hr Hk Hb Hw Ho Hl. unfold cell_x2.
  destruct (look_cell_ok s u0 n l br k Hat Hr Hk Hb) as (e & e1 & e2 & He & Hco & Hat' & _ & Hr' & Hb').
  rewrite (idx_ok _ _ _ He). cbn [mbind res_bind].
  destruct (put_cell _ _ _ _ w o Hco Hw Ho Hl) as (w' & -> & Hl' & Hw' & Ht & Hk'). cbn [mbind res_bind returns].
  destruct (cell_symbols_ok _ _ _ _ Hco) as (Hsb & Hsl & Hlen & ->).
  exists (cell_symbols e). rewrite Hsl. split_and!; try done; try lia. intros j Hj. apply Hk'. lia.
Qed.

Lemma cells_ok c s u0 n l w br :
  at_cursor dt s u0 n l br -> ready c br -> 0 <= c -> bits_consumed br + 11 * c < 2 ^ 31 ->
  bytes w -> zlen w = 2 * c ->
  returns (fun '(w', br', o) => zlen w' = 2 * c /\ bytes w' /\ c <= o <= 2 * c /\
             at_cursor dt s u0 (n + Z.to_nat o) (l ++ ztake o w') br' /\
             bits_consumed br' <= bits_consumed br + 11 * c /\ ptr br' = ptr br /\
             unread br - 11 * c <= unread br' /\
             forall j, o < j -> zget w' j = zget w j)
    (huf_decode_cells_x2 (2 * c) w br cells).
Proof.
  intros Hat Hr Hc0 Hb Hw Hl. change (2 ^ 31) with 2147483648 in Hb. unfold huf_decode_cells_x2.
  rewrite (Z.mul_comm 2 c), Z.div_mul by lia.
  eapply returns_mono.
  { apply (returns_foldM (fun k '(w', br', o) => zlen w' = 2 * c /\ bytes w' /\
      Z.of_nat k <= o <= 2 * Z.of_nat k /\ at_cursor dt s u0 (n + Z.to_nat o) (l ++ ztake o w') br' /\
      ready (c - Z.of_nat k) br' /\ bits_consumed br' <= bits_consumed br + 11 * Z.of_nat k /\
      ptr br' = ptr br /\ forall j, o < j -> zget w' j = zget w j)).
    - split_and!; try done; try lia.
      + change (ztake 0 w) with (@nil Z). by rewrite Nat.add_0_r, app_nil_r.
      + by rewrite Z.sub_0_r.
    - intros k i [[w' br'] o] Hk (Hl' & Hw' & Ho & Hat' & Hr' & Hb' & Hp' & Hk'). apply lookup_seqZ in Hk as [-> Hk].
      eapply returns_mono; [apply (cell_step_ok _ _ _ _ _ _ o (c - Z.of_nat k) Hat' Hr');
        try done; change (2 ^ 31) with 2147483648; lia|].
      intros [[w2 br2] o2] (x & Hat2 & Hr2 & Hb2 & Hp2 & Hl2 & Hw2 & -> & Hx & Ht & Hk2).
      rewrite Nat2Z.inj_succ. unfold Z.succ. split_and!; try done; try lia.
      + rewrite Ht. rewrite app_assoc.
        replace (n + Z.to_nat (o + zlen x))%nat with (n + Z.to_nat o + length x)%nat
          by (unfold zlen; lia). done.
      + replace (c - (Z.of_nat k + 1)) with (c - Z.of_nat k - 1) by lia. done.
      + intros j Hj. rewrite Hk2 by done. apply Hk'. lia. }
  intros [[w' br'] o] (Hl' & Hw' & Ho & Hat' & _ & Hb' & Hp' & Hk'). rewrite length_seqZ in *.
  unfold unread. split_and!; try done; lia.
Qed.

(** Cells decoded in place at [op]. *)
Lemma cells_at_ok c s u0 n0 l0 len bound op out br :
  out_at dt s u0 n0 l0 len bound op out br -> bytes out -> ready c br -> 0 <= c ->
  op + 2 * c <= len -> bound + 11 * c < 2 ^ 31 ->
  returns (fun '(out', br', op') => out_at dt s u0 n0 l0 len (bound + 11 * c) op' out' br' /\
             bytes out' /\ op + c <= op' <= op + 2 * c /\
             bits_consumed br' <= bits_consumed br + 11 * c /\ ptr br' = ptr br /\
             unread br - 11 * c <= unread br' /\
             (forall j, j < op \/ op + 2 * c <= j \/ op' < j -> zget out' j = zget out j))
    (cells_at (2 * c) cells out op br).
Proof.
  intros (Hl & Hp & Hb & Hat) Hby Hr Hc0 Hroom Hbd. change (2 ^ 31) with 2147483648 in *.
  unfold cells_at. rewrite slice_ok by lia. cbn [mbind res_bind].
  set (w := ztake _ _).
  assert (zlen w = 2 * c) as Hwl by (unfold w; rewrite zlen_ztake; [lia|rewrite zlen_zdrop; lia]).
  assert (bytes w) as Hwb by (by apply Forall_take, Forall_drop).
  eapply returns_bind.
  { apply (cells_ok c _ _ _ _ w br Hat Hr Hc0); try done. change (2 ^ 31) with 2147483648. lia. }
  intros [[w' br'] o] (Hwl' & Hwb' & Ho & Hat' & Hb' & Hp' & Hu' & Hk').
  destruct (copy_from_slice_ok out w' op (op + 2 * c)) as (-> & Hcl & Hct); [lia..|].
  cbn [mbind res_bind returns].
  assert (zlen (ztake op out) = op) as Hto by (apply zlen_ztake; lia).
  split_and!; try lia.
  - assert (ztake (op + o) (ztake op out ++ w' ++ zdrop (op + 2 * c) out) = ztake op out ++ ztake o w') as Ht.
    { rewrite <- Hto at 1. rewrite ztake_app_add by lia. f_equal. apply ztake_app_le. lia. }
    unfold out_at. rewrite Ht, (app_assoc l0). split_and!; [lia..|].
    by replace (n0 + Z.to_nat (op + o))%nat with (n0 + Z.to_nat op + Z.to_nat o)%nat by lia.
  - repeat (apply Forall_app; split); [by apply Forall_take|done|by apply Forall_drop].
  - intros j Hj. destruct (Z_lt_dec j 0); [by rewrite !zget_None by lia|].
    destruct (Z_lt_dec j op).
    { rewrite zget_app_l, zget_ztake by lia. done. }
    rewrite zget_app_r, Hto by lia. destruct (Z_lt_dec j (op + 2 * c)).
    + rewrite zget_app_l, Hk' by lia. unfold w. rewrite zget_ztake, zget_zdrop by lia. f_equal. lia.
    + rewrite zget_app_r, Hwl' by lia. rewrite zget_zdrop by lia. f_equal. lia.
Qed.

(** ** A stream *)

Section stream.
Context (s : list Z) (u0 : Z) (n0 : nat) (l0 : list Z) (len : Z).

Local Abbreviation out_at := (out_at dt s u0 n0 l0 len).

(** What a loop with reloads leaves: the next lookup is loaded and the room
    is short, or the container is the last. *)
Definition x2_left (c bound : Z) (st : list Z * BitDStream * Z) : Prop :=
  out_at bound st.2 st.1.1 st.1.2 /\ bytes st.1.1 /\
  (bits_consumed st.1.2 <= 7 /\ len - st.2 < 2 * c \/ ptr st.1.2 = 0).

Lemma stream_x2_loaded_ok c bound out br p :
  1 <= c <= 5 -> 64 <= bound < 2 ^ 30 -> bytes out -> out_at bound p out br ->
  returns (fun r => match r with
                    | inl st => out_at bound st.2 st.1.1 st.1.2 /\ bytes st.1.1 /\ p < st.2
                    | inr st => x2_left c bound st
                    end) (stream_x2_loaded (2 * c) cells (out, br, p)).
Proof.
  intros Hc5 Hbd Hby (Hl & Hp & Hb & Hat). change (2 ^ 30) with 1073741824 in Hbd.
  unfold stream_x2_loaded. eapply returns_bind; [by apply at_cursor_reload|].
  intros [status br1] (Hat1 & Hb1 & Hun & Hov).
  assert (out_at bound p out br1) as Ho1 by (split_and!; done || lia).
  destruct (decide (status = Unfinished)) as [Hst|Hst].
  - specialize (Hun Hst). rewrite slice_from_ok by lia. cbn [mbind res_bind].
    rewrite zlen_zdrop by lia. destruct (Z.leb_spec (2 * c) (zlen out - p)).
    + assert (out_at 7 p out br1) as Ho2 by (split_and!; done || lia).
      eapply returns_bind.
      { apply (cells_at_ok c _ _ _ _ _ _ _ _ _ Ho2 Hby); [unfold ready; lia|lia|lia|].
        change (2 ^ 31) with 2147483648. lia. }
      intros [[out2 br2] p2] (Ho3 & Hby2 & Hp2 & _). cbn. split_and!; [|done|lia].
      destruct Ho3 as (A1 & A2 & A3 & A4). split_and!; done || lia.
    + cbn. split; [done|]. split; [done|]. left. cbn. lia.
  - cbn. split; [done|]. split; [done|]. right. by apply Hov.
Qed.

(** Its loop. *)
Lemma stream_x2_loop_ok c bound out br p fuel :
  1 <= c <= 5 -> 64 <= bound < 2 ^ 30 -> bytes out -> out_at bound p out br ->
  len < Z.of_nat fuel ->
  returns (x2_left c bound) (loopM fuel (stream_x2_loaded (2 * c) cells) (out, br, p)).
Proof.
  intros Hc5 Hbd Hby Ho Hf.
  apply (returns_loopM (fun st => out_at bound st.2 st.1.1 st.1.2 /\ bytes st.1.1)
    (fun st => Z.to_nat (len - st.2))).
  - by split.
  - cbn. destruct Ho as (? & ? & _). lia.
  - intros [[out' br'] p'] [Ho' Hby']. cbn in *.
    eapply returns_mono; [by apply (stream_x2_loaded_ok c bound)|].
    intros [st|st]; [|done]. intros (Ho2 & Hby2 & Hp). split; [done|].
    destruct Ho2 as (? & ? & _). lia.
Qed.

(** The loop on the last container. *)
Lemma stream_x2_last_ok bound st fuel : 64 <= bound -> bound + 11 * len < 2 ^ 30 ->
  x2_left 1 bound st -> len < Z.of_nat fuel ->
  returns (fun st' => out_at (bound + 11 * len) st'.2 st'.1.1 st'.1.2 /\ bytes st'.1.1 /\
             len - st'.2 < 2 /\ ready 1 st'.1.2)
    (loopM fuel (stream_x2_last cells) st).
Proof.
  intros Hbd Hlen Hst Hf. change (2 ^ 30) with 1073741824 in Hlen.
  destruct Hst as ((Hl & Hp & Hb & Hat) & Hby & Hr).
  apply (returns_loopM (fun st => out_at (bound + 11 * st.2) st.2 st.1.1 st.1.2 /\ bytes st.1.1 /\
      (bits_consumed st.1.2 <= 7 /\ len - st.2 < 2 \/ ptr st.1.2 = 0))
    (fun st => Z.to_nat (len - st.2))).
  - split; [|split; [done|lia]]. split_and!; done || lia.
  - lia.
  - clear st Hl Hp Hb Hat Hby Hr Hf. intros [[out br] p] (Ho & Hby & Hr). cbn in *.
    pose proof Ho as (Hl & Hp & Hb & Hat). unfold stream_x2_last.
    rewrite slice_from_ok by lia. cbn [mbind res_bind]. rewrite zlen_zdrop by lia.
    destruct (Z.leb_spec 2 (zlen out - p)).
    + eapply returns_bind.
      { apply (cells_at_ok 1 _ _ _ _ _ _ _ _ _ Ho Hby); [unfold ready; lia|lia|lia|].
        change (2 ^ 31) with 2147483648. lia. }
      intros [[out2 br2] p2] (Ho3 & Hby2 & Hp2 & _ & Hpt & _). cbn. split; [|destruct Ho3 as (_ & ? & _); lia].
      split; [|split; [done|lia]]. destruct Ho3 as (A1 & A2 & A3 & A4). split_and!; done || lia.
    + cbn. split; [split_and!; done || lia|]. split; [done|]. unfold ready. lia.
Qed.

(** The last symbol, alone. *)
Lemma last_symbol_ok bound op out br : out_at bound op out br -> bytes out -> op = len - 1 ->
  ready 1 br -> bound < 2 ^ 30 ->
  returns (fun '(out', br') => zlen out' = len /\ bytes out' /\
             at_cursor dt s u0 (n0 + Z.to_nat len) (l0 ++ out') br')
    (huf_decode_last_symbol_x2 out op br cells t).
Proof.
  intros (Hl & Hp & Hb & Hat) Hby Hop Hr Hbd. change (2 ^ 30) with 1073741824 in Hbd.
  unfold huf_decode_last_symbol_x2.
  destruct (look_cell_ok s u0 _ _ br 1 Hat Hr) as (e & e1 & e2 & He & Hco & _ & Hat' & _);
    [lia|change (2 ^ 31) with 2147483648; lia|].
  rewrite (idx_ok _ _ _ He). cbn [mbind res_bind]. rewrite (co_byte _ _ _ _ Hco).
  rewrite store_ok by lia. cbn [mbind res_bind].
  rewrite (code_len_ok _ _ (co_first _ _ _ _ Hco)). cbn [mbind res_bind returns].
  destruct (co_range _ _ _ _ Hco) as (_ & _ & Hsy & _).
  split_and!; [by rewrite zlen_zset|by apply Forall_zset|].
  rewrite <- app_assoc, <- ztake_store in Hat' by lia.
  rewrite (ztake_all (zset out op (symbol e1))) in Hat' by (rewrite zlen_zset; lia).
  by replace (n0 + Z.to_nat len)%nat with (S (n0 + Z.to_nat op)) by lia.
Qed.
End stream.

(** The whole stream. *)
Lemma stream_x2_ok s u0 n0 l0 out br :
  at_cursor dt s u0 n0 l0 br -> bytes out -> zlen out <= 2 ^ 24 -> bits_consumed br <= 2 ^ 20 ->
  returns (fun '(out', br') => zlen out' = zlen out /\ bytes out' /\
             at_cursor dt s u0 (n0 + length out) (l0 ++ out') br')
    (huf_decode_stream_x2 out br cells t).
Proof.
  intros Hat Hby Hlen Hb. unfold huf_decode_stream_x2. pose proof (zlen_nonneg out).
  change (2 ^ 24) with 16777216 in Hlen. change (2 ^ 20) with 1048576 in Hb.
  set (bound := 1048576).
  assert (out_at dt s u0 n0 l0 (zlen out) bound 0 out br) as Ho.
  { split_and!; try lia. change (ztake 0 out) with (@nil Z). by rewrite Nat.add_0_r, app_nil_r. }
  assert (zlen out < Z.of_nat (length out + 1)) as Hf by (unfold zlen; lia).
  eapply returns_bind with (x2_left s u0 n0 l0 (zlen out) 5 bound).
  { destruct (Z.leb_spec 8 (zlen out)).
    - apply (stream_x2_loop_ok s u0 n0 l0 (zlen out) 5); try done.
    - eapply returns_bind; [by apply at_cursor_reload|].
      intros [st br1] (Hat1 & Hb1 & Hun & Hov). cbn. split; [|split; [done|]].
      + cbn. split_and!; try lia. change (ztake 0 out) with (@nil Z). by rewrite Nat.add_0_r, app_nil_r.
      + cbn. destruct (decide (st = Unfinished)) as [Hst|Hst]; [left|right]; [|by apply Hov].
        specialize (Hun Hst). lia. }
  intros [[out1 br1] p1] (Ho1 & Hby1 & Hleft1). cbn [fst snd] in *.
  eapply returns_bind with (fun st' => out_at dt s u0 n0 l0 (zlen out) (bound + 11 * zlen out) st'.2 st'.1.1 st'.1.2 /\
    bytes st'.1.1 /\ zlen out - st'.2 < 2 /\ ready 1 st'.1.2).
  { destruct (Z.leb_spec 2 (zlen out - p1)).
    - assert (zlen out < Z.of_nat (length out1 + 1)) as Hf1.
      { destruct Ho1 as (Hl1 & _). unfold zlen in *. lia. }
      eapply returns_bind; [by apply (stream_x2_loop_ok s u0 n0 l0 (zlen out) 1 bound)|].
      intros st Hst. apply (stream_x2_last_ok s u0 n0 l0 (zlen out) bound); try done.
      change (2 ^ 30) with 1073741824. unfold bound. lia.
    - cbn. split; [|split; [done|split; [lia|unfold ready; lia]]].
      destruct Ho1 as (A1 & A2 & A3 & A4). split_and!; done || lia. }
  intros [[out2 br2] p2] (Ho2 & Hby2 & Hroom & Hr). cbn [fst snd] in *.
  assert (Z.to_nat (zlen out) = length out) as Hzn by (unfold zlen; lia). rewrite <- Hzn.
  destruct Ho2 as (A1 & A2 & A3 & A4). destruct (Z.ltb_spec p2 (zlen out)).
  - apply (last_symbol_ok s u0 n0 l0 (zlen out) (bound + 11 * zlen out)); try done; lia.
  - cbn. assert (p2 = zlen out) as -> by lia. rewrite ztake_all in A4 by lia. by split_and!.
Qed.
End decode.
