(* ===== verification/HufX2Fast.v ===== *)
(** * The double-symbol decoder of four streams

    [huf_decompress_4x2]: each stream advances at its own pace, so the loops
    bound the four positions one by one. Here: no access of the unchecked
    loop leaves a buffer, the loops end, and the section decodes to the four
    streams' reference symbols. *)

From S2P Require Import Prelude Words Constants Errors FseBuild BitDStream HufTable HufWeights.
From S2P Require Import HufFill HufStream HufDecode HufFast HufX2Table HufX2 HufX2Decode.

Section fast.
Context (t : HuffmanTable) (Hc : complete t).
Context (cells : list HufEntryX2) (Hcells : x2_table_of (x1_table t) cells).
Context (src : list Z) (Hsrc : bytes src).

Local Abbreviation dt := (x1_table t).
Local Abbreviation pval a b := (le_val (ztake (b - a) (zdrop a src))).

(** One cell from a container. *)
Lemma fast_at_cell a b n l i bs cmax :
  0 <= a <= b -> b <= zlen src -> 0 <= n -> fast_at dt src a b n l i bs cmax -> cmax <= 52 ->
  exists e i0 e1 e2, zget cells (Z.shiftr bs (64 - HUF_FAST_TABLE_LOG)) = Some e /\
    cell_of t i0 e e1 e2 /\
    fast_at dt src a b (n + length_x2 e) (l ++ cell_symbols e) i (wshl 64 bs (nb_bits e)) (cmax + 11).
Proof.
  intros Ha Hb Hn (c & Hcr & -> & Hi & Hib & Hl & Hbl & Hcur) Hcm.
  change (64 - HUF_FAST_TABLE_LOG) with 53.
  pose proof (bits_range (le_val src) (8 * i) 64 ltac:(lia)) as Hw.
  rewrite container_look, bits_bits by lia.
  set (q := 8 * i + 64 - c) in *. set (u := q - 8 * a) in *.
  assert (bits (le_val src) (8 * i + (53 - c)) 11 = peek (le_val src) q HUF_FAST_TABLE_LOG) as ->.
  { change HUF_FAST_TABLE_LOG with 11. rewrite peek_bits by lia. f_equal. lia. }
  destruct (cell_at t Hc cells Hcells (peek (le_val src) q HUF_FAST_TABLE_LOG)
    ltac:(apply peek_range; by vm_compute)) as (e & e1 & e2 & He & Hco).
  exists e, (peek (le_val src) q HUF_FAST_TABLE_LOG), e1, e2. split; [done|]. split; [done|].
  destruct (cell_symbols_ok t _ _ _ _ Hco) as (Hsb & Hsl & Hlen & _).
  pose proof Hco as [H1 _ (Hn1 & Hn2 & _) Hcase _].
  assert (1 <= nb_bits e <= 11) as Hnb by lia.
  exists (c + nb_bits e). rewrite container_skip by lia.
  split_and!; try done; try lia.
  { rewrite zlen_app. lia. }
  { by apply Forall_app. }
  cbn zeta in *. fold q in Hcur. fold u in Hcur.
  replace (8 * i + 64 - (c + nb_bits e) - 8 * a) with (u - nb_bits e) by lia.
  assert (cursor dt (pval a b) (Z.log2 (pval a b)) (Z.to_nat n) l u) as Hcu.
  { split; [unfold zlen in Hl; lia|done]. }
  pose proof (cursor_cell t _ _ _ _ _ _ e e1 e2 Hcu Hco) as Hstep.
  replace (Z.to_nat (n + length_x2 e)) with (Z.to_nat n + length (cell_symbols e))%nat
    by (unfold zlen in Hsl; lia).
  apply Hstep.
  - intros Hu. apply (part_lookup dt (x1_table_prefix t Hc) src Hsrc a b u e1 Ha Hb ltac:(lia)).
    by replace (8 * a + u) with q by lia.
  - intros Hfit Hu.
    apply (part_lookup dt (x1_table_prefix t Hc) src Hsrc a b (u - nb e1) e2 Ha Hb ltac:(lia)).
    replace (8 * a + (u - nb e1)) with (q - nb e1) by lia.
    apply (cell_peek t Hc _ _ e); [done|done|lia].
Qed.

(** ** The four streams' state *)

Context (dst : Z) (h : HufStreams) (Hlay : layout src dst h).

(** Since a turn began at [cnt0] symbols: [d s] cells of stream [s] are
    decoded, [k s] of them from its present container, which stands at
    [il s] or above. *)
Definition x2_state (cnt0 d k il : Z -> Z) (args : HufFastArgs) (out : list Z) : Prop :=
  exists cnt, fast_inv dt src dst h cnt cnt (fun s => 8 + 11 * k s) il args out /\
    forall s, 0 <= s < 4 -> cnt0 s + d s <= cnt s <= cnt0 s + 2 * d s.

Lemma x2_state_ext cnt0 d k il d' k' il' args out : x2_state cnt0 d k il args out ->
  (forall s, 0 <= s < 4 -> d' s = d s /\ k s <= k' s /\ il' s <= il s) ->
  x2_state cnt0 d' k' il' args out.
Proof.
  intros (cnt & Hin & Hcnt) Heq. exists cnt. split.
  - eapply fast_inv_mono; [exact Hin|]. intros s Hs. destruct (Heq s Hs) as (_ & H1 & H2).
    split_and!; done || lia.
  - intros s Hs. destruct (Heq s Hs) as (-> & _ & _). by apply Hcnt.
Qed.

Lemma zget_upd (l : list Z) (f : Z -> Z) s v x : 0 <= s < zlen l -> 0 <= x ->
  zget l x = Some (f x) -> zget (zset l s v) x = Some (upd f s v x).
Proof.
  intros Hs Hx Hl. rewrite zget_zset by lia. unfold upd. rewrite Z.eqb_sym.
  by destruct (x =? s).
Qed.

Lemma fast_decode_x2_ok cnt0 d k il args out s :
  x2_state cnt0 d k il args out -> 0 <= s < 4 ->
  cnt0 s + 2 * d s + 2 <= part_len h dst s -> k s <= 4 ->
  returns (fun '(args', out') =>
      x2_state cnt0 (upd d s (d s + 1)) (upd k s (k s + 1)) il args' out')
    (fast_decode_x2 cells (args, out) s).
Proof.
  intros (cnt & [H1 H2 (L1 & L2 & L3) H4 H5 H6] & Hcnt) Hs Hroom Hk. unfold fast_decode_x2.
  destruct (H6 s Hs) as (i & bs & l & Hi & Hbs & Hlo & Hat & Hout).
  rewrite (idx_ok _ _ _ Hbs). cbn [mbind res_bind].
  pose proof (lay_range _ _ _ Hlay s Hs) as [Hab Hbl]. specialize (Hcnt s Hs) as Hcs.
  destruct (fast_at_cell _ _ _ _ _ _ _ Hab Hbl (proj1 (H5 s Hs)) Hat ltac:(lia))
    as (e & i0 & e1 & e2 & He & Hco & Hat').
  rewrite (idx_ok _ _ _ He). cbn [mbind res_bind].
  rewrite (idx_ok _ _ _ (H4 s Hs)). cbn [mbind res_bind].
  destruct (part_len_range _ _ _ s Hlay Hs) as (Hp1 & Hp2 & Hp3 & _).
  pose proof (lay_segment _ _ _ Hlay) as Hsg. assert (0 <= s * segment h) by nia.
  specialize (H5 s Hs) as Hcr.
  destruct (cell_symbols_ok t _ _ _ _ Hco) as (Hsb & Hsl & Hlen & _).
  destruct (put_cell t _ _ _ _ out (s * segment h + cnt s) Hco H2 ltac:(lia) ltac:(lia))
    as (out' & -> & Hl' & Hb' & Ht & Hkeep). cbn [mbind res_bind].
  rewrite !store_ok by lia. cbn [mbind res_bind returns].
  assert (zlen l = cnt s) as Hll by (destruct Hat as (? & ? & ? & ? & ? & ? & ?); done).
  exists (upd cnt s (cnt s + length_x2 e)). split.
  2: { intros x Hx. specialize (Hcnt x Hx). unfold upd. destruct (Z.eqb_spec x s) as [->|]; lia. }
  split; cbn [ip op fbits].
  - lia.
  - done.
  - by rewrite !zlen_zset.
  - intros x Hx. pose proof (H4 x Hx) as Hox. rewrite zget_zset by lia. unfold upd.
    rewrite (Z.eqb_sym x s). destruct (Z.eqb_spec s x) as [<-|]; [f_equal; lia|done].
  - intros x Hx. unfold upd. destruct (Z.eqb_spec x s) as [->|]; [lia|by apply H5].
  - intros x Hx. unfold upd. destruct (Z.eqb_spec x s) as [->|Hne].
    + exists i, (wshl 64 bs (nb_bits e)), (l ++ cell_symbols e). split_and!; try done.
      * apply zget_zset_eq. lia.
      * eapply fast_at_mono; [exact Hat'|lia].
      * intros j y Hj. pose proof (zget_lt _ _ _ Hj) as Hjr. rewrite zlen_app in Hjr.
        destruct (Z_lt_dec j (zlen l)).
        -- rewrite zget_app_l in Hj by lia. rewrite Hkeep by lia. by apply Hout.
        -- rewrite zget_app_r in Hj by lia.
           rewrite <- (zget_ztake out' _ (s * segment h + cnt s + length_x2 e)) by lia.
           rewrite Ht, zget_app_r by (rewrite zlen_ztake; lia). rewrite zlen_ztake by lia.
           rewrite <- Hj. f_equal. lia.
    + destruct (H6 x Hx) as (i' & bs' & l' & Hi' & Hbs' & Hlo' & Hat2 & Hout').
      exists i', bs', l'. split_and!; try done.
      * rewrite zget_zset_ne by lia. done.
      * intros j y Hj. assert (zlen l' = cnt x) as Hll' by (destruct Hat2 as (? & ? & ? & ? & ? & ? & ?); done).
        pose proof (zget_lt _ _ _ Hj) as Hjr. pose proof (H5 x Hx) as Hcx.
        rewrite Hkeep; [by apply Hout'|].
        destruct (part_len_range _ _ _ x Hlay Hx) as (Hx1 & _ & Hx3 & _).
        destruct (Z_lt_dec s x); nia.
Qed.

Lemma fast_reload_x2_ok cnt0 d k il args out s :
  x2_state cnt0 d k il args out -> 0 <= s < 4 -> k s <= 5 -> 7 <= il s ->
  returns (fun args' => x2_state cnt0 d (upd k s 0) (upd il s (il s - 7)) args' out)
    (fast_reload src 0 args s).
Proof.
  intros (cnt & Hin & Hcnt) Hs Hk Hil.
  eapply returns_mono.
  { apply (fast_reload_ok dt src Hsrc dst h Hlay 0 _ _ _ _ _ _ s Hin Hs); cbn; lia. }
  intros args' Hin'. exists cnt. split; [|done].
  eapply fast_inv_mono; [exact Hin'|]. intros x Hx. unfold upd.
  destruct (Z.eqb_spec x s) as [->|]; split_and!; done || lia.
Qed.

(** A list of [decode!]s. *)
Lemma decodes_ok l cnt0 d k il args out :
  x2_state cnt0 d k il args out -> Forall (fun s => 0 <= s < 4) l ->
  (forall s, 0 <= s < 4 -> cnt0 s + 2 * (d s + occurrences s l) <= part_len h dst s /\
     k s + occurrences s l <= 5) ->
  returns (fun '(args', out') => x2_state cnt0 (fun s => d s + occurrences s l)
             (fun s => k s + occurrences s l) il args' out')
    (foldM (fast_decode_x2 cells) (args, out) l).
Proof.
  intros H0 Hl. revert d k args out H0. induction Hl as [|s l Hs Hl IH]; intros d k args out H0 Hr.
  - cbn. eapply x2_state_ext; [exact H0|]. intros s Hs. change (occurrences s []) with 0. lia.
  - cbn [foldM]. pose proof (Hr s Hs) as Hrs. rewrite occurrences_cons, Z.eqb_refl in Hrs.
    pose proof (occurrences_nonneg s l).
    eapply returns_bind; [apply (fast_decode_x2_ok _ _ _ _ _ _ s H0 Hs); lia|].
    intros [a o] H1. eapply returns_mono.
    { apply (IH _ _ _ _ H1). intros x Hx. pose proof (Hr x Hx) as Hrx. rewrite occurrences_cons in Hrx.
      unfold upd. destruct (Z.eqb_spec x s) as [->|Hne]; [rewrite Z.eqb_refl in Hrx; lia|].
      destruct (Z.eqb_spec s x); [by subst|]. lia. }
    intros [a' o'] H2. eapply x2_state_ext; [exact H2|]. intros x Hx. cbn beta.
    rewrite occurrences_cons. unfold upd. rewrite (Z.eqb_sym x s).
    destruct (Z.eqb_spec s x) as [->|]; lia.
Qed.

(** The [reload!] macro. *)
Lemma reload_x2_ok cnt0 d k il args out s :
  x2_state cnt0 d k il args out -> 0 <= s < 4 ->
  cnt0 3 + 2 * d 3 + 2 <= part_len h dst 3 -> k 3 <= 4 -> upd k 3 (k 3 + 1) s <= 5 -> 7 <= il s ->
  returns (fun '(args', out') => x2_state cnt0 (upd d 3 (d 3 + 1)) (upd (upd k 3 (k 3 + 1)) s 0)
             (upd il s (il s - 7)) args' out')
    (fast_reload_x2 src cells (args, out) s).
Proof.
  intros H0 Hs Hr Hk Hks Hil. unfold fast_reload_x2.
  eapply returns_bind; [apply (fast_decode_x2_ok _ _ _ _ _ _ 3 H0); lia|].
  intros [a o] H1. eapply returns_bind; [by apply (fast_reload_x2_ok _ _ _ _ _ _ s H1)|].
  intros a' H2. exact H2.
Qed.

(** One turn of the inner loop: five cells of each stream. *)
Lemma x2_turn_ok cnt0 il olimit args out :
  x2_state cnt0 (fun _ => 0) (fun _ => 0) (fun _ => il) args out -> 7 <= il ->
  (forall s, 0 <= s < 4 -> cnt0 s + 10 <= part_len h dst s) ->
  returns (fun r =>
      let '(a, o) := match r with inl st => st | inr st => st end in
      exists cnt, fast_inv dt src dst h cnt cnt (fun _ => 8) (fun _ => il - 7) a o /\
        (forall s, 0 <= s < 4 -> cnt0 s + 5 <= cnt s <= cnt0 s + 10) /\
        match r with
        | inl _ => 3 * segment h + cnt 3 < olimit
        | inr _ => olimit <= 3 * segment h + cnt 3
        end) (fast_x2_turn src cells olimit (args, out)).
Proof.
  intros H0 Hil Hroom. unfold fast_x2_turn.
  assert (forall s, 0 <= s < 4 -> occurrences s fast_order_x2 = if s =? 3 then 1 else 5) as Hocc.
  { intros s Hs. destruct (four_cases s Hs) as [->|[->|[->| ->]]]; reflexivity. }
  pose proof (Hroom 3 ltac:(lia)).
  eapply returns_bind.
  { apply (decodes_ok fast_order_x2 _ _ _ _ _ _ H0).
    - by apply (bool_decide_unpack _).
    - intros s Hs. rewrite Hocc by done. specialize (Hroom s Hs). case_bool; lia. }
  intros [a0 o0] H1.
  assert (x2_state cnt0 (fun s => if s =? 3 then 1 else 5) (fun s => if s =? 3 then 1 else 5)
    (fun _ => il) a0 o0) as H1'.
  { eapply x2_state_ext; [exact H1|]. intros s Hs. cbn beta. rewrite Hocc by done. lia. }
  eapply returns_bind with (fun '(a, o) => x2_state cnt0 (fun _ => 5) (fun _ => 0) (fun _ => il - 7) a o).
  { cbn [foldM].
    eapply returns_bind; [apply (reload_x2_ok _ _ _ _ _ _ 0 H1'); cbn; lia|]. intros [a2 o2] H2.
    eapply returns_bind; [apply (reload_x2_ok _ _ _ _ _ _ 1 H2); cbn; lia|]. intros [a3 o3] H3.
    eapply returns_bind; [apply (reload_x2_ok _ _ _ _ _ _ 2 H3); cbn; lia|]. intros [a4 o4] H4.
    eapply returns_bind; [apply (reload_x2_ok _ _ _ _ _ _ 3 H4); cbn; lia|]. intros [a5 o5] H5.
    cbn. eapply x2_state_ext; [exact H5|].
    intros s Hs; unfold upd; destruct (four_cases s Hs) as [->|[->|[->| ->]]]; cbn; lia. }
  intros [a o] (cnt & Hin & Hcnt). cbn beta in Hcnt.
  rewrite (idx_ok _ _ _ (fi_op _ _ _ _ _ _ _ _ _ _ Hin 3 ltac:(lia))). cbn [mbind res_bind returns].
  assert (fast_inv dt src dst h cnt cnt (fun _ => 8) (fun _ => il - 7) a o) as Hin'.
  { eapply fast_inv_mono; [exact Hin|]. intros s Hs. cbn. lia. }
  destruct (Z.leb_spec olimit (3 * segment h + cnt 3)); exists cnt; (split; [done|]);
    (split; [|done]); intros s Hs; specialize (Hcnt s Hs); lia.
Qed.

(** The streams where the loops may stop. *)
Local Abbreviation stopped cnt il a o := (fast_inv dt src dst h cnt cnt (fun _ => 8) (fun _ => il) a o).

Lemma stopped_state cnt il a o : stopped cnt il a o ->
  x2_state cnt (fun _ => 0) (fun _ => 0) (fun _ => il) a o.
Proof. intros H. exists cnt. split; [exact H|]. intros s Hs. lia. Qed.

(** The inner loop: at most [iters] turns. *)
Lemma x2_turns_ok fuel iters cnt il args out :
  stopped cnt il args out -> 1 <= iters -> 7 * iters <= il -> iters < Z.of_nat fuel ->
  (forall s, 0 <= s < 4 -> cnt s + 10 * iters <= part_len h dst s) ->
  forall olimit, olimit <= 3 * segment h + cnt 3 + iters * 5 ->
  returns (fun '(a, o) => exists cnt', stopped cnt' 0 a o /\ cnt 3 + 5 <= cnt' 3)
    (loopM fuel (fast_x2_turn src cells olimit) (args, out)).
Proof.
  revert iters cnt il args out.
  induction fuel as [|fuel IH]; intros iters cnt il args out H0 Hi Hil Hf Hroom olimit Hol; [lia|].
  cbn [loopM]. eapply returns_bind.
  { apply (x2_turn_ok cnt il olimit args out); [by apply stopped_state|lia|].
    intros s Hs. specialize (Hroom s Hs). lia. }
  assert (forall cnt' a o, stopped cnt' (il - 7) a o -> stopped cnt' 0 a o) as Hlow.
  { intros cnt' a o H. eapply fast_inv_mono; [exact H|]. intros s Hs. cbn. lia. }
  intros [[a o]|[a o]] (cnt' & Hin & Hcnt & Ho); pose proof (Hcnt 3 ltac:(lia)) as H3.
  - destruct (Z.eq_dec iters 1) as [->|]; [lia|].
    eapply returns_mono.
    + apply (IH (iters - 1) cnt' (il - 7) a o Hin); try lia.
      intros s Hs. specialize (Hroom s Hs). specialize (Hcnt s Hs). lia.
    + intros [a' o'] (c2 & Hc2 & Hge). exists c2. split; [done|lia].
  - cbn. exists cnt'. split; [by apply Hlow|lia].
Qed.

(** [iters]. *)
Lemma x2_iters_ok cnt args out : stopped cnt 0 args out ->
  let oend := [segment h; 2 * segment h; 3 * segment h; dst] in
  returns (fun iters => (exists i0, zget (ip args) 0 = Some i0 /\ iters <= i0 / 7) /\ 0 <= iters /\
      forall s, 0 <= s < 4 -> cnt s + 10 * iters <= part_len h dst s) (fast_x2_iters args oend).
Proof.
  intros Hin oend. pose proof (lay_segment _ _ _ Hlay) as Hsg. unfold fast_x2_iters.
  destruct (fi_stream _ _ _ _ _ _ _ _ _ _ Hin 0 ltac:(lia)) as (i0 & bs & l & Hi0 & _ & Hlo & _).
  rewrite (idx_ok _ _ _ Hi0). cbn [mbind res_bind].
  assert (forall s, 0 <= s < 4 -> zget oend s = Some (s * segment h + part_len h dst s)) as He.
  { intros s Hs. unfold part_len, segment_end.
    destruct (four_cases s Hs) as [->|[->|[->| ->]]]; unfold oend, zget;
      try change (Z.to_nat 0) with 0%nat; try change (Z.to_nat 1) with 1%nat;
      try change (Z.to_nat 2) with 2%nat; try change (Z.to_nat 3) with 3%nat;
      cbn -[Z.mul Z.add Z.min Z.sub]; f_equal; lia. }
  assert (0 <= i0 / 7) as Hi07 by (apply Z.div_pos; lia).
  eapply returns_mono.
  { apply (returns_foldM (fun k iters => iters <= i0 / 7 /\ 0 <= iters /\
      forall s, 0 <= s < Z.of_nat k -> cnt s + 10 * iters <= part_len h dst s)).
    - split_and!; lia.
    - intros k s iters Hk (H1 & H2 & H3).
      assert (s = Z.of_nat k /\ 0 <= s < 4) as [-> Hs].
      { apply (lookup_seqZ 0 4) in Hk. lia. }
      rewrite (idx_ok _ _ _ (He _ Hs)). cbn [mbind res_bind].
      rewrite (idx_ok _ _ _ (fi_op _ _ _ _ _ _ _ _ _ _ Hin _ Hs)). cbn [mbind res_bind].
      pose proof (fi_cnt _ _ _ _ _ _ _ _ _ _ Hin _ Hs) as Hcs. cbn beta in Hcs.
      destruct (Z.leb_spec (Z.of_nat k * segment h + cnt (Z.of_nat k))
        (Z.of_nat k * segment h + part_len h dst (Z.of_nat k))); [|lia].
      cbn [rassert mbind res_bind returns].
      match goal with |- context [?a / 10] => set (x := a / 10); assert (0 <= x /\ 10 * x <= a) by (unfold x; divlia) end.
      split; [lia|]. split; [lia|]. intros s Hs'. rewrite Nat2Z.inj_succ in Hs'.
      destruct (Z.eq_dec s (Z.of_nat k)) as [->|]; [lia|]. specialize (H3 s ltac:(lia)). lia. }
  intros iters (H1 & H2 & H3). split; [by exists i0|]. split; [done|]. exact H3.
Qed.

(** The outer loop ends wherever it stops. *)
Lemma fast_x2_loop_ok args out : stopped (fun _ => 0) 0 args out ->
  returns (fun '(a, o) => exists cnt, stopped cnt 0 a o) (huf_4x2_fast_loop args out src cells).
Proof.
  intros H0. pose proof (lay_segment _ _ _ Hlay) as Hsg. unfold huf_4x2_fast_loop.
  rewrite (idx_ok _ _ _ (fi_op _ _ _ _ _ _ _ _ _ _ H0 1 ltac:(lia))). cbn [mbind res_bind].
  rewrite (idx_ok _ _ _ (fi_op _ _ _ _ _ _ _ _ _ _ H0 2 ltac:(lia))). cbn [mbind res_bind].
  rewrite (idx_ok _ _ _ (fi_op _ _ _ _ _ _ _ _ _ _ H0 3 ltac:(lia))). cbn [mbind res_bind].
  rewrite (fi_out _ _ _ _ _ _ _ _ _ _ H0).
  replace (1 * segment h + 0) with (segment h) by lia. rewrite !Z.add_0_r.
  set (oend := [segment h; 2 * segment h; 3 * segment h; dst]).
  apply (returns_loopM
    (fun '(a, o) => exists cnt, stopped cnt 0 a o)
    (fun '(a, o) => Z.to_nat (dst - default 0 (zget (op a) 3)))).
  - by eexists.
  - pose proof (fi_out _ _ _ _ _ _ _ _ _ _ H0) as Hout. unfold zlen in Hout.
    rewrite (fi_op _ _ _ _ _ _ _ _ _ _ H0 3) by lia. cbn -[Z.mul Z.add]. lia.
  - intros [a o] (cnt & Hn). unfold fast_x2_round.
    eapply returns_bind; [exact (x2_iters_ok cnt a o Hn)|].
    intros iters ((i0 & Hi0 & Hit) & Hit0 & Hroom).
    pose proof (fi_op _ _ _ _ _ _ _ _ _ _ Hn 3 ltac:(lia)) as Ho3.
    rewrite (idx_ok (op a) 3 _ Ho3). cbn [mbind res_bind].
    destruct (Z.eqb_spec (3 * segment h + cnt 3) (3 * segment h + cnt 3 + iters * 5)).
    { cbn. by exists cnt. }
    assert (forall s, 0 <= s < 4 -> exists i, zget (ip a) s = Some i /\ 0 <= i) as Hip.
    { intros s Hs. destruct (fi_stream _ _ _ _ _ _ _ _ _ _ Hn s Hs) as (i & bs & l & Hi & _ & Hlo & _).
      by exists i. }
    destruct (Hip 1 ltac:(lia)) as (i1 & Hi1 & Hp1).
    destruct (Hip 2 ltac:(lia)) as (i2 & Hi2 & Hp2). destruct (Hip 3 ltac:(lia)) as (i3 & Hi3 & Hp3).
    unfold streams_crossed.
    rewrite (idx_ok _ _ _ Hi0). cbn [mbind res_bind]. rewrite (idx_ok _ _ _ Hi1). cbn [mbind res_bind].
    rewrite (idx_ok _ _ _ Hi2). cbn [mbind res_bind]. rewrite (idx_ok _ _ _ Hi3). cbn [mbind res_bind].
    destruct (_ || _) eqn:Hcr; [cbn; by exists cnt|]. bools.
    assert (stopped cnt (7 * iters) a o) as Hn7.
    { destruct Hn as [F1 F2 F3 F4 F5 F6]. split; try done. intros s Hs.
      destruct (F6 s Hs) as (i & bs & l & Hi & Hb & Hlo & Hrest). exists i, bs, l.
      split_and!; try apply Hrest; try done.
      assert (i0 <= i) as Hii.
      { destruct (four_cases s Hs) as [->|[->|[->| ->]]]; simplify_eq; lia. }
      assert (7 * (i0 / 7) <= i0) by divlia. lia. }
    pose proof (fi_out _ _ _ _ _ _ _ _ _ _ Hn) as Hout. unfold zlen in Hout.
    pose proof (Hroom 3 ltac:(lia)) as Hr3.
    destruct (part_len_range _ _ _ 3 Hlay ltac:(lia)) as (Hp31 & Hp32 & _).
    pose proof (fi_cnt _ _ _ _ _ _ _ _ _ _ Hn 3 ltac:(lia)) as Hc3. cbn beta in Hc3.
    eapply returns_bind; [apply (x2_turns_ok _ iters cnt (7 * iters)); done || lia|].
    intros [a' o'] (cnt' & H' & Hge). cbn. split; [by eexists|].
    pose proof (fi_op _ _ _ _ _ _ _ _ _ _ H' 3 ltac:(lia)) as Ho3'. rewrite Ho3, Ho3'.
    pose proof (fi_cnt _ _ _ _ _ _ _ _ _ _ H' 3 ltac:(lia)) as Hc3'. cbn beta in Hc3'.
    cbn -[Z.mul Z.add Z.sub]. lia.
Qed.

(** ** The plain path *)

Context (Hdst : dst <= 2 ^ 24).

Local Abbreviation st s := (stream_of src h s).
Local Abbreviation sg := (segment h).

Lemma decode_ref_prefix v u0 n m l u : decode_ref dt v u0 n = Some (l, u) -> (m <= n)%nat ->
  exists l' u', decode_ref dt v u0 m = Some (l', u') /\ u <= u'.
Proof.
  intros H Hle. revert l u H. induction Hle as [|n Hle IH]; intros l u H; [by exists l, u|].
  cbn [decode_ref] in H. destruct (decode_ref dt v u0 n) as [[l1 u1]|]; [|done].
  destruct (IH _ _ eq_refl) as (l' & u' & Hm & Hu). exists l', u'. split; [done|].
  destruct (0 <? u1); [|done]. destruct (zget dt _) as [e|] eqn:He; [|done].
  destruct (pt_cell _ (x1_table_prefix t Hc) _ _ He) as [Hn _].
  destruct (nb e <=? u1); [|done]. injection H as _ <-. lia.
Qed.

(** A stream with bits left after more symbols than its segment holds has no
    reference output. *)
Lemma overrun_none s n l br : at_cursor dt (st s) (Z.log2 (le_val (st s))) n l br ->
  0 < unread br -> (Z.to_nat (part_len h dst s) <= n)%nat -> part_ref dt src h dst s = None.
Proof.
  intros (Hok & _ & _ & Hcase) Hu Hle. unfold part_ref, huf_ref.
  destruct (zget _ _); [|done]. case_bool; [done|].
  destruct Hcase as [(Href & _)|(_ & Hp & Hb)]; [|unfold unread in Hu; lia].
  destruct (decode_ref_prefix _ _ _ _ _ _ Href Hle) as (l' & u' & -> & Hle').
  destruct (Z.eqb_spec u' 0); [lia|done].
Qed.

(** Stream [s] between two steps: [n] symbols [l] decoded; with [fresh], its
    next cells are loaded, and it is at its start or far from its end. *)
Definition px_stream (fresh : bool) (s n : Z) (l : list Z) (br : BitDStream) : Prop :=
  0 <= n /\ at_cursor dt (st s) (Z.log2 (le_val (st s))) (Z.to_nat n) l br /\
  (bits_consumed br <= 64 \/ ptr br < 8) /\ bits_consumed br <= 128 /\
  (exists last, zget (st s) (zlen (st s) - 1) = Some last /\ last <> 0) /\
  (fresh = true -> ready 4 br /\ bits_consumed br <= 64 /\ (n = 0 \/ 57 <= unread br)).

(** The loop's state: stream [s] has had [q s] turns. Unless some stream has
    no reference output, the segments hold the symbols. *)
Definition px_inv (q : Z -> Z) (fresh : Z -> bool) (out : list Z) (ss : list (Z * BitDStream)) : Prop :=
  zlen out = dst /\ bytes out /\ zlen ss = 4 /\
  exists n l,
    (forall s, 0 <= s < 4 -> exists br, zget ss s = Some (s * sg + n s, br) /\
       px_stream (fresh s) s (n s) (l s) br /\ n s <= 8 * q s) /\
    4 * q 3 <= n 3 <= part_len h dst 3 /\
    (parts_ref dt src h dst = None \/
     forall s, 0 <= s < 4 -> n s <= part_len h dst s /\ filled h out s (l s)).

Lemma zlen_px_stream f s n l br : px_stream f s n l br -> zlen l = n.
Proof. intros (H0 & (_ & _ & Hl & _) & _). unfold zlen. lia. Qed.

(** New symbols of stream [s] within its segment. *)
Lemma filled_step out out' n l s o w' :
  (forall x, 0 <= x < 4 -> zlen (l x) = n x /\ n x <= part_len h dst x /\ filled h out x (l x)) ->
  0 <= s < 4 -> 0 <= o <= zlen w' -> n s + o <= part_len h dst s ->
  (forall j, j < s * sg + n s \/ s * sg + part_len h dst s <= j -> zget out' j = zget out j) ->
  (forall j, 0 <= j < o -> zget out' (s * sg + n s + j) = zget w' j) ->
  forall x, 0 <= x < 4 -> upd n s (n s + o) x <= part_len h dst x /\
    filled h out' x (if x =? s then l s ++ ztake o w' else l x).
Proof.
  intros Hall Hs Ho Hle Hkeep Hnew x Hx. unfold upd. destruct (Hall s Hs) as (Hll & _ & Hfs).
  destruct (Z.eqb_spec x s) as [->|Hne].
  - split; [done|]. intros j y Hj. pose proof (zget_lt _ _ _ Hj) as Hjr.
    rewrite zlen_app, zlen_ztake, Hll in Hjr by lia. destruct (Z_lt_dec j (n s)).
    + rewrite zget_app_l in Hj by lia. rewrite Hkeep by lia. by apply Hfs.
    + rewrite zget_app_r, Hll, zget_ztake in Hj by lia. rewrite <- Hj, <- Hnew by lia. f_equal. lia.
  - destruct (Hall x Hx) as (Hlx & Hnx & Hfx). split; [done|]. intros j y Hj.
    pose proof (zget_lt _ _ _ Hj) as Hjr. rewrite Hkeep; [by apply Hfx|].
    destruct (segments_disjoint src dst h Hlay s x (x * sg + j) Hs Hx ltac:(congruence)); [lia| |lia].
    pose proof (zlen_nonneg (l s)). lia.
Qed.

(** The four cells of stream [s]. *)
Lemma px_cells_ok q fresh out ss s : px_inv q fresh out ss -> 0 <= s < 4 -> fresh s = true ->
  8 <= part_len h dst 3 ->
  (s * sg + 8 * q s + 8 <= dst /\ s < 3 \/ s = 3 /\ exists op br, zget ss 3 = Some (op, br) /\ op + 8 <= dst) ->
  returns (fun '(out', ss') => px_inv (upd q s (q s + 1)) (fun x => if x =? s then false else fresh x) out' ss' /\
             zlen out' = zlen out /\ forall x, x <> s -> zget ss' x = zget ss x)
    (plain_x2_cells cells (out, ss) s).
Proof.
  intros (Hout & Hby & Hss & n & l & Hall & H3 & Hfill) Hs Hf Hp8 Hroom. unfold plain_x2_cells.
  destruct (Hall s Hs) as (br & Hg & Hpx & Hq).
  pose proof Hpx as (Hn0 & Hat & Hbp & Hb & Hmark & Hfr). destruct (Hfr Hf) as (Hr & Hb64 & Hun).
  destruct (part_len_range _ _ _ s Hlay Hs) as (Hp1 & Hp2 & Hp3 & Hp4).
  pose proof (lay_segment _ _ _ Hlay) as Hsg.
  rewrite (idx_ok _ _ _ Hg). cbn [mbind res_bind].
  assert (s * sg + n s + 8 <= dst) as Hr8.
  { destruct Hroom as [[? ?]|(-> & op & br3 & Hg3 & ?)]; [lia|]. rewrite Hg in Hg3. injection Hg3 as <- _. lia. }
  assert (0 <= s * sg) by nia. pose proof (zlen_px_stream _ _ _ _ _ Hpx) as Hll.
  (* The cursor within the whole output. *)
  change 8 with (2 * 4) at 1. unfold cells_at. rewrite slice_ok by lia. cbn [mbind res_bind].
  set (w := ztake _ _).
  assert (zlen w = 2 * 4) as Hwl by (unfold w; rewrite zlen_ztake; [lia|rewrite zlen_zdrop; lia]).
  assert (bytes w) as Hwb by (by apply Forall_take, Forall_drop). rewrite bind_assoc.
  eapply returns_bind.
  { apply (cells_ok t Hc cells Hcells 4 _ _ _ _ w br Hat Hr); try done.
    change (2 ^ 31) with 2147483648. lia. }
  intros [[w' br'] o] (Hwl' & Hwb' & Ho & Hat' & Hb' & Hpt & Hu' & Hk').
  destruct (copy_from_slice_ok out w' (s * sg + n s) (s * sg + n s + 2 * 4)) as (-> & Hcl & Hct); [lia..|].
  cbn [mbind res_bind]. rewrite store_ok by lia. cbn [mbind res_bind returns].
  assert (zlen (ztake (s * sg + n s) out) = s * sg + n s) as Hto by (apply zlen_ztake; lia).
  set (out' := ztake _ out ++ w' ++ _) in *.
  assert (forall j, j < s * sg + n s \/ s * sg + n s + o < j \/ s * sg + n s + 8 <= j -> zget out' j = zget out j) as Hkeep.
  { intros j Hj. unfold out'. rewrite zget_splice by lia.
    destruct (Z.leb_spec (s * sg + n s) j), (Z.ltb_spec j (s * sg + n s + 2 * 4)); try done.
    cbn [andb]. rewrite Hk' by lia. unfold w. rewrite zget_ztake, zget_zdrop by lia. f_equal. lia. }
  assert (forall j, 0 <= j < o -> zget out' (s * sg + n s + j) = zget w' j) as Hnew.
  { intros j Hj. unfold out'. rewrite zget_splice by lia.
    destruct (Z.leb_spec (s * sg + n s) (s * sg + n s + j)), (Z.ltb_spec (s * sg + n s + j) (s * sg + n s + 2 * 4)); try lia.
    cbn [andb]. f_equal. lia. }
  replace (Z.to_nat (n s) + Z.to_nat o)%nat with (Z.to_nat (n s + o)) in Hat' by lia.
  split; [|split; [done|intros x Hx; apply zget_zset_ne; lia]].
  split; [lia|]. split; [|split; [by rewrite zlen_zset|]].
  { repeat (apply Forall_app; split); [by apply Forall_take|done|by apply Forall_drop]. }
  exists (upd n s (n s + o)), (fun x => if x =? s then l s ++ ztake o w' else l x). split; [|split].
  - intros x Hx. rewrite zget_zset by lia. unfold upd. rewrite (Z.eqb_sym x s).
    destruct (Z.eqb_spec s x) as [<-|]; [|by apply Hall].
    exists br'. split; [f_equal; f_equal; lia|]. split; [|lia].
    split; [lia|]. split; [done|]. split; [|split; [lia|split; [done|done]]].
    unfold ready in Hr. rewrite Hpt. lia.
  - unfold upd. change (3 =? s) with (3 =? s). destruct (Z.eqb_spec 3 s) as [<-|]; [|done].
    unfold part_len, segment_end in *. lia.
  - destruct Hfill as [Hnone|Hfill]; [by left|].
    destruct (Z_lt_dec (n s + o) (part_len h dst s)) as [Hin|Hover].
    2: destruct (Z.eq_dec s 3) as [->|]; [|destruct (Z.eq_dec (n s) 0) as [Hz|Hnz]].
    4: { left. apply (parts_none _ _ _ _ s Hs). apply (overrun_none s _ _ br' Hat'); lia. }
    all: right; apply (filled_step out); try done; try (unfold part_len, segment_end in *; lia).
    all: try (intros x Hx; destruct (Hall x Hx) as (bx & _ & Hpxx & _);
      split; [by apply (zlen_px_stream _ _ _ _ _ Hpxx)|by apply Hfill]).
    all: intros j Hj; apply Hkeep; unfold part_len, segment_end in *; lia.
Qed.

Lemma px_inv_ext q fresh q' fresh' out ss : px_inv q fresh out ss ->
  (forall s, 0 <= s < 4 -> q' s = q s /\ (fresh' s = true -> fresh s = true)) ->
  px_inv q' fresh' out ss.
Proof.
  intros (Hout & Hby & Hss & n & l & Hall & H3 & Hfill) Heq.
  split; [done|split; [done|split; [done|]]]. exists n, l. split; [|split; [|done]].
  - intros s Hs. destruct (Heq s Hs) as [-> Hf]. destruct (Hall s Hs) as (br & Hg & Hpx & Hq).
    exists br. split; [done|]. split; [|done]. destruct Hpx as (A1 & A2 & A3 & A4 & A5 & A6).
    split; [done|split; [done|split; [done|split; [done|split; [done|]]]]]. auto.
  - by destruct (Heq 3) as [-> _].
Qed.

(** The reload of stream [s]. *)
Lemma px_reload_ok q fresh out ss s (sig : bool) : px_inv q fresh out ss -> 0 <= s < 4 ->
  returns (fun '(sig', ss') => (sig' = true -> sig = true) /\
             px_inv q (fun x => if x =? s then sig' else fresh x) out ss' /\
             forall x, x <> s -> zget ss' x = zget ss x)
    (plain_x2_reload (sig, ss) s).
Proof.
  intros (Hout & Hby & Hss & n & l & Hall & H3 & Hfill) Hs. unfold plain_x2_reload.
  destruct (Hall s Hs) as (br & Hg & (Hn0 & Hat & Hbp & Hb & Hmark & _) & Hq).
  rewrite (idx_ok _ _ _ Hg). cbn [mbind res_bind].
  eapply returns_bind; [by apply (at_cursor_reload_fast _ _ _ _ _ _ Hat)|].
  intros [status br'] (Hat' & Hb' & Hun). rewrite store_ok by lia. cbn [mbind res_bind returns].
  split; [by intros [? _]%andb_true_iff|].
  split; [|intros x Hx; apply zget_zset_ne; lia].
  split; [done|split; [done|split; [by rewrite zlen_zset|]]]. exists n, l. split; [|done].
  intros x Hx. rewrite zget_zset by lia. rewrite (Z.eqb_sym x s).
  destruct (Z.eqb_spec s x) as [<-|]; [|by apply Hall].
  exists br'. split; [done|]. split; [|done].
  assert (bits_consumed br' <= 64 \/ ptr br' < 8) as Hbp'.
  { destruct Hat' as (_ & _ & _ & [(_ & _ & ?)|(_ & ? & _)]); lia. }
  split; [done|split; [done|split; [done|split; [lia|split; [done|]]]]].
  intros [_ Hst%bool_decide_eq_true]%andb_true_iff. specialize (Hun Hst).
  destruct Hat' as (Hok & _). pose proof (ok_ptr _ Hok). unfold ready, unread. lia.
Qed.

(** One turn. *)
Lemma px_turn_ok k out ss (sig : bool) : 0 <= k -> 8 <= part_len h dst 3 ->
  px_inv (fun _ => k) (fun _ => sig) out ss ->
  returns (fun r => match r with
                    | inl (sig', out', ss') => px_inv (fun _ => k + 1) (fun _ => sig') out' ss' /\
                        4 * (k + 1) <= part_len h dst 3
                    | inr (out', ss') => px_inv (fun _ => k) (fun _ => false) out' ss'
                    end) (plain_x2_turn cells (sig, out, ss)).
Proof.
  intros Hk Hp8 Hinv. unfold plain_x2_turn.
  pose proof Hinv as (Hout & _ & Hss & n & l & Hall & H3 & _).
  destruct (Hall 3 ltac:(lia)) as (br3 & Hg3 & _ & _).
  rewrite (idx_ok _ _ _ Hg3). cbn [mbind res_bind fst].
  pose proof (lay_segment _ _ _ Hlay) as Hsg.
  destruct sig; cbn [andb]; [|cbn; exact Hinv].
  destruct (Z.leb_spec (3 * sg + n 3 + 8) (zlen out)) as [Hroom|]; cbn [andb].
  2: { cbn. eapply px_inv_ext; [exact Hinv|]. intros s Hs. split; [done|]. done. }
  assert (4 * k + 8 <= dst - 3 * sg) as H4k by lia.
  cbn [foldM].
  rewrite bind_assoc. eapply returns_bind; [apply (px_cells_ok _ _ _ _ 0 Hinv); try done; left; lia|].
  intros [o1 ss1] (I1 & L1 & K1). rewrite bind_assoc.
  eapply returns_bind; [apply (px_cells_ok _ _ _ _ 1 I1); try done; left; unfold upd; cbn; lia|].
  intros [o2 ss2] (I2 & L2 & K2). cbn [mbind res_bind]. rewrite bind_assoc.
  eapply returns_bind; [apply (px_reload_ok _ _ _ _ 0 true I2); lia|]. intros [sig3 ss3] (S3 & I3 & K3).
  rewrite bind_assoc.
  eapply returns_bind; [apply (px_reload_ok _ _ _ _ 1 sig3 I3); lia|]. intros [sig4 ss4] (S4 & I4 & K4).
  cbn [mbind res_bind]. rewrite bind_assoc.
  eapply returns_bind; [apply (px_cells_ok _ _ _ _ 2 I4); try done; left; unfold upd; cbn; lia|].
  intros [o5 ss5] (I5 & L5 & K5).
  rewrite bind_assoc. eapply returns_bind with (fun '(o6, ss6) => px_inv (fun _ => k + 1)
    (fun x => if x <? 2 then sig4 else false) o6 ss6 /\ 4 * (k + 1) <= part_len h dst 3).
  { eapply returns_mono; [apply (px_cells_ok _ _ _ _ 3 I5); try done; right; split; [done|]|].
    - exists (3 * sg + n 3), br3. rewrite K5, K4, K3, K2, K1 by lia. split; [done|lia].
    - intros [o6 ss6] (I6 & _). split.
      + eapply px_inv_ext; [exact I6|]. intros s Hs. unfold upd.
        destruct (four_cases s Hs) as [->|[->|[->| ->]]]; cbn; auto.
      + pose proof I6 as (_ & _ & _ & n' & l' & _ & H3' & _). unfold upd in H3'. cbn in H3'. lia. }
  intros [o6 ss6] [I6 H6]. cbn [mbind res_bind]. rewrite bind_assoc.
  eapply returns_bind; [apply (px_reload_ok _ _ _ _ 2 sig4 I6); lia|]. intros [sig7 ss7] (S7 & I7 & K7).
  rewrite bind_assoc.
  eapply returns_bind; [apply (px_reload_ok _ _ _ _ 3 sig7 I7); lia|]. intros [sig8 ss8] (S8 & I8 & K8).
  cbn. split; [|done]. eapply px_inv_ext; [exact I8|]. intros s Hs. split; [done|]. intros H8.
  pose proof (S8 H8) as H7. pose proof (S7 H7) as H4. pose proof (S4 H4) as H33.
  destruct (four_cases s Hs) as [->|[->|[->| ->]]]; cbn; done.
Qed.

Lemma px_loop_ok fuel k sig out ss : 0 <= k -> 8 <= part_len h dst 3 ->
  px_inv (fun _ => k) (fun _ => sig) out ss -> part_len h dst 3 < 4 * (k + Z.of_nat fuel) ->
  returns (fun '(out', ss') => exists q, px_inv q (fun _ => false) out' ss')
    (loopM fuel (plain_x2_turn cells) (sig, out, ss)).
Proof.
  revert k sig out ss. induction fuel as [|fuel IH]; intros k sig out ss Hk Hp8 Hinv Hf.
  - destruct Hinv as (_ & _ & _ & n & l & _ & H3 & _). lia.
  - cbn [loopM]. eapply returns_bind; [by apply (px_turn_ok k)|].
    intros [[[sig' out'] ss']|[out' ss']] Hr.
    + apply (IH (k + 1)); [lia|done|by destruct Hr|lia].
    + cbn. by exists (fun _ => k).
Qed.

(** The ends of the streams: those [fin] are decoded whole. *)
Definition pd_inv (fin : Z -> bool) (out : list Z) (ss : list (Z * BitDStream)) : Prop :=
  zlen out = dst /\ bytes out /\ zlen ss = 4 /\
  exists n l,
    (forall s, 0 <= s < 4 -> exists op br, zget ss s = Some (op, br) /\ 0 <= n s <= part_len h dst s /\
       at_cursor dt (st s) (Z.log2 (le_val (st s))) (Z.to_nat (n s)) (l s) br /\
       (exists last, zget (st s) (zlen (st s) - 1) = Some last /\ last <> 0) /\
       if fin s then n s = part_len h dst s
       else op = s * sg + n s /\ bits_consumed br <= 128) /\
    (parts_ref dt src h dst = None \/ forall s, 0 <= s < 4 -> filled h out s (l s)).

Lemma pd_part_ok fin out ss s : pd_inv fin out ss -> 0 <= s < 4 -> fin s = false ->
  returns (fun '(out', ss') => pd_inv (fun x => if x =? s then true else fin x) out' ss')
    (decode_part_x2 cells t [sg; 2 * sg; 3 * sg; dst] (out, ss) s).
Proof.
  intros (Hout & Hby & Hss & n & l & Hall & Hfill) Hs Hf. unfold decode_part_x2.
  destruct (Hall s Hs) as (op & br & Hg & Hn & Hat & Hmark & Hop). rewrite Hf in Hop.
  destruct Hop as [-> Hb]. pose proof (lay_segment _ _ _ Hlay) as Hsg.
  destruct (part_len_range _ _ _ s Hlay Hs) as (Hp1 & Hp2 & _). assert (0 <= s * sg) by nia.
  rewrite (idx_ok _ _ _ Hg). cbn [mbind res_bind].
  assert (zget [sg; 2 * sg; 3 * sg; dst] s = Some (s * sg + part_len h dst s)) as He.
  { unfold part_len, segment_end. destruct (four_cases s Hs) as [->|[->|[->| ->]]]; unfold zget;
      try change (Z.to_nat 0) with 0%nat; try change (Z.to_nat 1) with 1%nat;
      try change (Z.to_nat 2) with 2%nat; try change (Z.to_nat 3) with 3%nat;
      cbn -[Z.mul Z.add Z.min Z.sub]; f_equal; lia. }
  rewrite (idx_ok _ _ _ He). cbn [mbind res_bind]. rewrite slice_ok by lia. cbn [mbind res_bind].
  set (seg := ztake _ (zdrop _ out)).
  assert (zlen seg = part_len h dst s - n s) as Hseg.
  { unfold seg. rewrite zlen_ztake; [lia|]. rewrite zlen_zdrop; lia. }
  eapply returns_bind.
  { apply (stream_x2_ok t Hc cells Hcells _ _ _ _ seg br Hat); [by apply Forall_take, Forall_drop|lia|].
    change (2 ^ 20) with 1048576. lia. }
  intros [seg' br'] (Hl' & Hby' & Hat'). rewrite store_ok by lia. cbn [mbind res_bind returns].
  replace (Z.to_nat (n s) + length seg)%nat with (Z.to_nat (part_len h dst s)) in Hat' by (unfold zlen in Hseg; lia).
  split; [|split; [|split; [by rewrite zlen_zset|]]].
  { rewrite !zlen_app, zlen_ztake, zlen_zdrop by lia. lia. }
  { repeat (apply Forall_app; split); [by apply Forall_take|done|by apply Forall_drop]. }
  exists (upd n s (n s + (part_len h dst s - n s))),
    (fun x => if x =? s then l s ++ ztake (part_len h dst s - n s) seg' else l x). split.
  - intros x Hx. rewrite zget_zset by lia. unfold upd. rewrite (Z.eqb_sym x s).
    destruct (Z.eqb_spec s x) as [<-|]; [|by apply Hall].
    eexists _, br'. split; [done|]. split; [lia|]. split; [|split; [done|lia]].
    rewrite ztake_all by lia. by replace (n s + (part_len h dst s - n s)) with (part_len h dst s) by lia.
  - destruct Hfill as [Hnone|Hfill]; [by left|right]. intros x Hx.
    apply (filled_step out _ n l s (part_len h dst s - n s) seg'); try done; try lia.
    + intros y Hy. destruct (Hall y Hy) as (op' & br2 & _ & Hny & (_ & _ & Hly & _) & _).
      split_and!; [unfold zlen; lia|lia|by apply Hfill].
    + intros j Hj. rewrite zget_splice by lia.
      destruct (Z.leb_spec (s * sg + n s) j), (Z.ltb_spec j (s * sg + part_len h dst s)); try lia; done.
    + intros j Hj. rewrite zget_splice by lia.
      destruct (Z.leb_spec (s * sg + n s) (s * sg + n s + j)), (Z.ltb_spec (s * sg + n s + j) (s * sg + part_len h dst s)); try lia.
      cbn [andb]. f_equal. lia.
Qed.

(** All the streams decoded. *)
Lemma pd_done out ss : pd_inv (fun _ => true) out ss ->
  match parts_ref dt src h dst with
  | Some o => forallb (fun s => is_finished s.2) ss = true /\ out = o
  | None => forallb (fun s => is_finished s.2) ss = false
  end.
Proof.
  intros (Hout & Hby & Hss & n & l & Hall & Hfill).
  assert (forall s, 0 <= s < 4 -> exists x, zget ss s = Some x /\ zlen (l s) = part_len h dst s /\
    part_ref dt src h dst s = if is_finished x.2 then Some (l s) else None) as Href.
  { intros s Hs. destruct (Hall s Hs) as (op & br & Hg & _ & Hat & (last & Hlast & Hnz) & Hn).
    cbn in Hn. rewrite Hn in Hat. exists (op, br). split; [done|].
    destruct (part_len_range _ _ _ s Hlay Hs) as (Hp1 & _).
    split; [destruct Hat as (_ & _ & Hl & _); unfold zlen; lia|].
    pose proof (huf_ref_final _ _ _ _ _ _ Hlast Hnz Hat) as H. unfold part_ref. cbn [snd].
    by destruct (is_finished br). }
  destruct (Href 0 ltac:(lia)) as (x0 & G0 & L0 & R0). destruct (Href 1 ltac:(lia)) as (x1 & G1 & L1 & R1).
  destruct (Href 2 ltac:(lia)) as (x2 & G2 & L2 & R2). destruct (Href 3 ltac:(lia)) as (x3 & G3 & L3 & R3).
  destruct ss as [|y0 [|y1 [|y2 [|y3 [|]]]]]; try (unfold zlen in Hss; cbn in Hss; lia).
  assert (y0 = x0 /\ y1 = x1 /\ y2 = x2 /\ y3 = x3) as (-> & -> & -> & ->).
  { change (Some y0 = Some x0) in G0. change (Some y1 = Some x1) in G1.
    change (Some y2 = Some x2) in G2. change (Some y3 = Some x3) in G3. repeat split; congruence. }
  unfold parts_ref in *. rewrite R0, R1, R2, R3 in *. cbn [forallb].
  destruct (is_finished x0.2), (is_finished x1.2), (is_finished x2.2), (is_finished x3.2); cbn in *; try done.
  destruct Hfill as [|Hfill]; [done|]. split; [done|].
  apply (filled_all src dst h Hlay); try done; apply Hfill; lia.
Qed.

Lemma plain_4x2_ok out : zlen out = dst -> bytes out ->
  match parts_ref dt src h dst with
  | Some o => plain_4x2 out src h cells t = Ok o
  | None => exists e, plain_4x2 out src h cells t = Err e
  end.
Proof.
  intros Hout Hby. unfold plain_4x2. pose proof (lay_segment _ _ _ Hlay) as Hsg.
  pose proof (plain_brs_ok dt src Hsrc dst h Hlay [0; 1; 2; 3] [] [] ltac:(repeat constructor; lia)
    ltac:(constructor)) as Hbrs.
  destruct (foldM _ [] [0; 1; 2; 3]) as [brs|e| |]; [| |done|done]; cycle 1.
  { cbn [mbind res_bind]. destruct Hbrs as (s & Hs & Hnone).
    rewrite (parts_none _ _ _ _ s) by done. by eexists. }
  cbn [mbind res_bind]. cbn [app] in Hbrs.
  destruct brs as [|b0 [|b1 [|b2 [|b3 [|]]]]]; try (exfalso; apply Forall2_length in Hbrs; done).
  rewrite !Forall2_cons in Hbrs. destruct Hbrs as (F0 & F1 & F2 & F3 & _). cbn [zip zip_with].
  set (ss0 := [(0, b0); (sg, b1); (2 * sg, b2); (3 * sg, b3)]).
  assert (px_inv (fun _ => 0) (fun _ => true) out ss0) as Hinv0.
  { split; [done|split; [done|split; [done|]]]. exists (fun _ => 0), (fun _ => []).
    assert (0 <= part_len h dst 3) by (apply (part_len_range _ _ _ 3 Hlay); lia).
    split; [|split; [lia|right]].
    - intros s Hs. assert (forall br, plain_fresh dt src h s br -> px_stream true s 0 [] br) as Hfr.
      { intros br (_ & Hat & Hr & Hb & Hmark). split; [lia|]. split; [done|].
        split; [lia|split; [lia|split; [done|]]]. intros _. split; [done|]. split; [done|]. by left. }
      destruct (four_cases s Hs) as [->|[->|[->| ->]]]; [exists b0|exists b1|exists b2|exists b3];
        (split; [|split; [by apply Hfr|lia]]).
      + change (Some (0, b0) = Some (0 * sg + 0, b0)). do 2 f_equal; lia.
      + change (Some (sg, b1) = Some (1 * sg + 0, b1)). do 2 f_equal; lia.
      + change (Some (2 * sg, b2) = Some (2 * sg + 0, b2)). do 2 f_equal; lia.
      + change (Some (3 * sg, b3) = Some (3 * sg + 0, b3)). do 2 f_equal; lia.
    - intros s Hs. split; [apply (part_len_range _ _ _ s Hlay Hs)|]. intros j x []%zget_Some. done. }
  assert (returns (fun '(out', ss') => exists q, px_inv q (fun _ => false) out' ss')
    (if 8 <=? zlen out - 3 * sg then loopM (length out + 1) (plain_x2_turn cells) (true, out, ss0)
     else Ok (out, ss0))) as Hloop.
  { assert (part_len h dst 3 = dst - 3 * sg) as Hp by (unfold part_len, segment_end; lia).
    destruct (Z.leb_spec 8 (zlen out - 3 * sg)).
    - apply (px_loop_ok _ 0); [lia|lia|done|]. unfold zlen in *. lia.
    - cbn. exists (fun _ => 0). eapply px_inv_ext; [exact Hinv0|]. done. }
  destruct (returns_inv _ _ Hloop) as ([out1 ss1] & -> & q & Hinv). cbn [mbind res_bind].
  destruct Hinv as (Hout1 & Hby1 & Hss1 & n & l & Hall & H3 & Hfill).
  destruct (Hall 0 ltac:(lia)) as (c0 & G0 & P0 & _). destruct (Hall 1 ltac:(lia)) as (c1 & G1 & P1 & _).
  destruct (Hall 2 ltac:(lia)) as (c2 & G2 & P2 & _).
  rewrite (idx_ok _ _ _ G0). cbn [mbind res_bind]. rewrite (idx_ok _ _ _ G1). cbn [mbind res_bind].
  rewrite (idx_ok _ _ _ G2). cbn [mbind res_bind fst].
  assert (forall s, 0 <= s < 3 -> part_len h dst s = sg) as Hpl.
  { intros s Hs. apply (part_len_range _ _ _ s Hlay ltac:(lia)). lia. }
  unfold fail_if at 1.
  destruct ((sg <? 0 * sg + n 0) || (2 * sg <? 1 * sg + n 1) || (3 * sg <? 2 * sg + n 2)) eqn:Hover;
    cbn [mbind res_bind].
  { destruct Hfill as [->|Hfill]; [by eexists|]. exfalso.
    pose proof (proj1 (Hfill 0 ltac:(lia))). pose proof (proj1 (Hfill 1 ltac:(lia))).
    pose proof (proj1 (Hfill 2 ltac:(lia))). rewrite !Hpl in * by lia. bools; lia. }
  bools.
  assert (forall s, 0 <= s < 4 -> n s <= part_len h dst s) as Hle.
  { intros s Hs. destruct (four_cases s Hs) as [->|[->|[->| ->]]]; rewrite ?Hpl by lia; lia. }
  assert (pd_inv (fun _ => false) out1 ss1) as Hpd.
  { split; [done|split; [done|split; [done|]]]. exists n, l. split.
    - intros s Hs. destruct (Hall s Hs) as (br & Hg & (A1 & A2 & A3 & A4 & A5 & _) & _).
      exists (s * sg + n s), br. specialize (Hle s Hs). by split_and!.
    - destruct Hfill as [?|Hfill]; [by left|right]. intros s Hs. by apply Hfill. }
  rewrite Hout. cbn [foldM]. rewrite !bind_assoc.
  destruct (returns_inv _ _ (pd_part_ok _ _ _ 0 Hpd ltac:(lia) eq_refl)) as ([o2 s2] & -> & I2).
  cbn [mbind res_bind].
  destruct (returns_inv _ _ (pd_part_ok _ _ _ 1 I2 ltac:(lia) eq_refl)) as ([o3 s3] & -> & I3).
  cbn [mbind res_bind].
  destruct (returns_inv _ _ (pd_part_ok _ _ _ 2 I3 ltac:(lia) eq_refl)) as ([o4 s4] & -> & I4).
  cbn [mbind res_bind].
  destruct (returns_inv _ _ (pd_part_ok _ _ _ 3 I4 ltac:(lia) eq_refl)) as ([o5 s5] & -> & I5).
  cbn [mbind res_bind].
  assert (pd_inv (fun _ => true) o5 s5) as Hfin.
  { destruct I5 as (A1 & A2 & A3 & n' & l' & A4 & A5). split; [done|split; [done|split; [done|]]].
    exists n', l'. split; [|done]. intros s Hs. specialize (A4 s Hs).
    destruct (four_cases s Hs) as [->|[->|[->| ->]]]; exact A4. }
  pose proof (pd_done o5 s5 Hfin) as Hd. destruct (parts_ref dt src h dst).
  - destruct Hd as [-> ->]. done.
  - rewrite Hd. by eexists.
Qed.
End fast.

(** ** The four decoders *)

Lemma fast_rest_x2_eq args h src cells t out s :
  fast_rest_x2 args h src cells t out s =
  fast_rest (fun seg br => huf_decode_stream_x2 seg br cells t) args h src out s.
Proof. reflexivity. Qed.

Lemma huf_cells_x2 t cells : x2_table_of (x1_table t) cells -> huf_cells cells = Ok cells.
Proof.
  intros [Hl _]. unfold huf_cells. rewrite Hl. change (Z.shiftl 1 HUF_FAST_TABLE_LOG) with (2 ^ HUF_FAST_TABLE_LOG).
  by rewrite Z.eqb_refl.
Qed.

Lemma huf_decompress_1x2_ref out src t :
  complete t -> x2_table_of (x1_table t) (ht_decode_x2 t) -> bytes src -> bytes out -> zlen out <= 2 ^ 24 ->
  match huf_ref (x1_table t) src (length out) with
  | Some l => huf_decompress_1x2 out src t = Ok l
  | None => exists e, huf_decompress_1x2 out src t = Err e
  end.
Proof.
  intros Hc Hcells Hs Ho Hlen. unfold huf_decompress_1x2.
  rewrite (huf_cells_x2 t) by done. cbn [mbind res_bind].
  pose proof (new_ok src Hs) as Hn. destruct (BitDStream.new src) as [br|e| |] eqn:Hnew; try done.
  2: { cbn. unfold huf_ref. destruct Hn as [[_ ->]|[_ ->]]; [by eexists|]. cbn. by eexists. }
  destruct Hn as (Hsr & Hok & Hu & H64 & Hpos). cbn [mbind res_bind].
  assert (exists last, zget src (zlen src - 1) = Some last /\ last <> 0) as (last & Hlast & Hnz).
  { unfold BitDStream.new in Hnew. destruct (zget src (zlen src - 1)) as [last|]; [|done].
    cbn [ok_or mbind res_bind] in Hnew. exists last. split; [done|]. intros ->. done. }
  assert (at_cursor (x1_table t) src (Z.log2 (le_val src)) 0 [] br) as Hat.
  { split_and!; try done. left. split_and!; [by rewrite Hu|rewrite Hu; apply Z.log2_nonneg|done]. }
  pose proof (stream_x2_ok t Hc _ Hcells _ _ _ _ out br Hat Ho Hlen ltac:(cbn; lia)) as Hr.
  destruct (returns_inv _ _ Hr) as ([out' br'] & -> & _ & _ & Hat'). cbn [mbind res_bind].
  pose proof (huf_ref_final _ _ _ _ _ _ Hlast Hnz Hat') as Hf. rewrite Nat.add_0_l in Hf.
  destruct (is_finished br'); rewrite Hf; cbn; [done|by eexists].
Qed.

Lemma huf_decompress_4x2_ref out src t :
  complete t -> x2_table_of (x1_table t) (ht_decode_x2 t) -> bytes src -> bytes out -> zlen out <= 2 ^ 24 ->
  match huf4_ref (x1_table t) src (zlen out) with
  | Some l => huf_decompress_4x2 out src t = Ok l
  | None => exists e, huf_decompress_4x2 out src t = Err e
  end.
Proof.
  intros Hc Hcells Hs Ho Hlen. unfold huf_decompress_4x2, huf4_ref.
  rewrite (huf_cells_x2 t) by done. cbn [mbind res_bind].
  pose proof (split_layout src (zlen out) Hs (zlen_nonneg _)) as Hlay.
  destruct (split src (zlen out)) as [h|e| |]; [|by eexists|done|done].
  cbn [safe mbind res_bind] in *.
  pose proof (fast_init_ok (x1_table t) src Hs (zlen out) h Hlay out eq_refl Ho) as Hinit.
  destruct (huf_fast_args_init h src (zlen out)) as [[args|]|e| |]; cbn [mbind res_bind] in *;
    [| |destruct Hinit as (s & Hs4 & Hn); rewrite (parts_none _ _ _ _ s) by done; by eexists|done|done].
  - destruct Hinit as [Hfs Hin].
    pose proof (fast_x2_loop_ok t Hc _ Hcells src Hs (zlen out) h Hlay args out Hin) as Hloop.
    destruct (returns_inv _ _ Hloop) as ([args' out'] & -> & cnt & Hin'). cbn [mbind res_bind].
    rewrite (foldM_ext _ _ _ _ (fun out s _ => fast_rest_x2_eq args' h src (ht_decode_x2 t) t out s)).
    apply (fast_rests_path _ _ src (zlen out) h cnt); try done.
    intros s u0 n0 l0 o br. by apply stream_x2_ok.
  - by apply plain_4x2_ok.
Qed.

(** What the four decoders compute. *)
Definition huf_section_ref (t : HuffmanTable) (src : list Z) (four_streams : bool) (n : Z) : option (list Z) :=
  if four_streams then huf4_ref (x1_table t) src n else huf_ref (x1_table t) src (Z.to_nat n).

Lemma huf_decompress_ref out src four t :
  huf_built t -> bytes src -> bytes out -> zlen out <= 2 ^ 24 ->
  match huf_section_ref t src four (zlen out) with
  | Some l => huf_decompress out src four t = Ok l
  | None => exists e, huf_decompress out src four t = Err e
  end.
Proof.
  intros [Hc Ht] Hs Ho Hlen. unfold huf_section_ref, huf_decompress.
  assert (Z.to_nat (zlen out) = length out) as -> by (unfold zlen; lia).
  destruct four, (is_x2 t).
  - by apply huf_decompress_4x2_ref.
  - by apply huf_decompress_4x1_ref.
  - by apply huf_decompress_1x2_ref.
  - by apply huf_decompress_1x1_ref.
Qed.

(** The length of the decoded section. *)
Lemma huf_ref_length dt src n l : prefix_table dt -> huf_ref dt src n = Some l -> length l = n /\ bytes l.
Proof.
  intros Hdt H. unfold huf_ref in H. destruct (zget _ _); [|done]. destruct (z =? 0); [done|].
  destruct (decode_ref _ _ _ _) as [[l' u]|] eqn:Hd; [|done]. destruct (u =? 0); [|done].
  injection H as ->. split; [by eapply decode_ref_length|by eapply decode_ref_bytes].
Qed.

Lemma huf_section_ref_length t src four n l : complete t -> bytes src -> 0 <= n ->
  huf_section_ref t src four n = Some l -> zlen l = n /\ bytes l.
Proof.
  intros Hc Hs Hn H. pose proof (x1_table_prefix t Hc) as Hp. unfold huf_section_ref in H. destruct four.
  - unfold huf4_ref in H. pose proof (split_layout src n Hs Hn) as Hlay.
    destruct (split src n) as [h| | |]; try done. cbn in Hlay. unfold parts_ref in H.
    destruct (part_ref _ _ _ _ 0) as [l0|] eqn:E0; [|done]. cbn in H.
    destruct (part_ref _ _ _ _ 1) as [l1|] eqn:E1; [|done]. cbn in H.
    destruct (part_ref _ _ _ _ 2) as [l2|] eqn:E2; [|done]. cbn in H.
    destruct (part_ref _ _ _ _ 3) as [l3|] eqn:E3; [|done]. injection H as <-.
    apply (huf_ref_length _ _ _ _ Hp) in E0, E1, E2, E3.
    pose proof (part_len_range _ _ _ 0 Hlay). pose proof (part_len_range _ _ _ 1 Hlay).
    pose proof (part_len_range _ _ _ 2 Hlay). pose proof (part_len_range _ _ _ 3 Hlay).
    pose proof (lay_segment _ _ _ Hlay). unfold part_len, segment_end in *.
    split; [rewrite !zlen_app; unfold zlen; lia|].
    repeat (apply Forall_app; split); intuition.
  - apply (huf_ref_length _ _ _ _ Hp) in H. unfold zlen. split; [lia|tauto].
Qed.

(** C25: The Huffman literals of a block, whichever of the four decoders
    takes them: for every table [build_decoder] accepts, in either layout,
    any input bytes and any output size up to 2^24, one stream or four, the
    section decodes to the symbols of the prefix code read stream by stream
    from its end mark down when each stream ends exactly on its first bit,
    and to an error otherwise. The double-symbol decoders thus agree with the
    single-symbol ones, although their positions run at the data's pace; no
    lookup, load or store leaves its buffer and the loops end. *)
Theorem huf_decompress_decodes t0 desc dst_size four0 t used out src four :
  huf_wf t0 -> bytes desc -> 0 <= dst_size ->
  huf_build_decoder t0 desc dst_size four0 = Ok (t, used) ->
  bytes src -> bytes out -> zlen out <= 2 ^ 24 ->
  match huf_section_ref t src four (zlen out) with
  | Some l => huf_decompress out src four t = Ok l /\ zlen l = zlen out
  | None => exists e, huf_decompress out src four t = Err e
  end.
Proof.
  intros Hwf Hd Hsz Hb Hs Ho Hlen.
  pose proof (huf_build_ok t0 desc dst_size four0 Hwf Hd Hsz) as H. rewrite Hb in H.
  destruct H as (Hbuilt & _). pose proof (huf_decompress_ref out src four t Hbuilt Hs Ho Hlen) as Hr.
  destruct (huf_section_ref t src four (zlen out)) as [l|] eqn:Hl; [|done]. split; [done|].
  by apply (huf_section_ref_length t src four (zlen out) l (proj1 Hbuilt) Hs (zlen_nonneg _)).
Qed.

Lemma huf_decompress_decodes_witness :
  exists t, huf_build_decoder huf_new ([132; 0x11; 0x23; 0x40] ++ zrepeat 0 124) 800 true = Ok (t, 4) /\
    is_x2 t = true /\
    huf_decompress (zrepeat 0 16) [1; 0; 1; 0; 1; 0; 0xD9; 0xD9; 0xD9; 0xD9] true t =
      Ok [5; 4; 5; 3; 5; 4; 5; 3; 5; 4; 5; 3; 5; 4; 5; 3].
Proof.
  set (desc := [132; 0x11; 0x23; 0x40] ++ zrepeat 0 124).
  assert (bytes desc) as Hb by (apply Forall_app; split; [solve_bytes|by apply Forall_zrepeat]).
  destruct (huf_build_decoder huf_new desc 800 true) as [[t n]|e| |] eqn:E; [|vm_compute in E; discriminate E..].
  assert (n = 4 /\ is_x2 t = true) as [-> Hx] by (vm_compute in E; injection E as <- <-; done).
  exists t. split; [done|]. split; [done|].
  set (src := [1; 0; 1; 0; 1; 0; 0xD9; 0xD9; 0xD9; 0xD9]).
  assert (bytes src) as Hb1 by solve_bytes.
  assert (bytes (zrepeat 0 16)) as Hb2 by solve_bytes.
  pose proof (huf_decompress_decodes huf_new desc 800 true t 4 (zrepeat 0 16) src true huf_new_wf Hb
    ltac:(lia) E Hb1 Hb2 ltac:(done)) as H.
  assert (huf_section_ref t src true (zlen (zrepeat 0 16)) =
    Some [5; 4; 5; 3; 5; 4; 5; 3; 5; 4; 5; 3; 5; 4; 5; 3]) as Hr.
  { vm_compute in E. injection E as <-. by vm_compute. }
  rewrite Hr in H. exact (proj1 H).
Defined.
