(* ===== verification/Headers.v ===== *)
(** * Section, block and frame headers ([src/decode.rs])

    The parsers of the format's headers: literals and sequences sections,
    blocks and frames, with the length of a frame header as its first bytes
    tell it ([frame_header_len]) and a block located in the input
    ([locate_block]). The proofs are in [HeaderUnits] (agreement of lengths
    and parsers) and [FrameWrite] (round trips with the encoder). *)

From S2P Require Import Prelude Words Constants Errors.

(** ** Blocks *)

(** [BlockType]. *)
Inductive BlockType := Raw | RLE | Compressed | Reserved.

#[export] Instance BlockType_eq_dec : EqDecision BlockType.
Proof. solve_decision. Defined.

(** [BlockHeader]. *)
Record BlockHeader := MkBlock {
  last_block : bool;
  block_type : BlockType;
  decompressed_size : Z;
  content_size : Z;
}.

(** The [match block_type_raw] of [parse_block_header]; its [unreachable!] is
    [Fault]. *)
Definition block_type_of (raw : Z) : dec BlockType :=
  if raw =? 0 then Ok Raw
  else if raw =? 1 then Ok RLE
  else if raw =? 2 then Ok Compressed
  else if raw =? 3 then Ok Reserved
  else Fault.

(** [parse_block_header]. *)
Definition parse_block_header (src : list Z) (block_size_max : Z) : dec BlockHeader :=
  buf ← ok_or EBlockHeaderTruncated (zslice src 0 3);
  b0 ← idx buf 0;
  b1 ← idx buf 1;
  b2 ← idx buf 2;
  let last := Z.land b0 0x1 =? 1 in
  ty ← block_type_of (Z.land (Z.shiftr b0 1) 0x3);
  _ ← fail_if (bool_decide (ty = Reserved)) EReservedBlock;
  let block_size := Z.lor (Z.lor (Z.shiftr b0 3) (wshl 32 b1 5)) (wshl 32 b2 13) in
  _ ← fail_if (block_size_max <? block_size) (EBlockSize block_size block_size_max);
  Ok (MkBlock last ty
        (match ty with Raw | RLE => block_size | Compressed | Reserved => 0 end)
        (match ty with Raw | Compressed => block_size | RLE => 1 | Reserved => 0 end)).

(** ** Literals sections *)

(** [LiteralsSectionType]. *)
Inductive LiteralsSectionType := LitRaw | LitRLE | LitCompressed | LitTreeless.

(** [LiteralsSection]. *)
Record LiteralsSection := MkLits {
  regenerated_size : Z;
  lits_content : Z;     (* content_size *)
  ls_type : LiteralsSectionType;
  four_streams : bool;
}.

(** The type of a section, of its header's low two bits. *)
Definition literals_type_of (t : Z) : LiteralsSectionType :=
  if t =? 0 then LitRaw else if t =? 1 then LitRLE
  else if t =? 2 then LitCompressed else LitTreeless.

(** The length of the header of a section of type [ty] and Size_Format
    [size_format]. *)
Definition literals_header_len (ty : LiteralsSectionType) (size_format : Z) : Z :=
  match ty with
  | LitRaw | LitRLE =>
      if (size_format =? 0) || (size_format =? 2) then 1
      else if size_format =? 1 then 2 else 3
  | LitCompressed | LitTreeless =>
      if (size_format =? 0) || (size_format =? 1) then 3
      else if size_format =? 2 then 4 else 5
  end.

(** [LiteralsSection::parse]. *)
Definition parse_literals_section (raw : list Z) : dec (LiteralsSection * Z) :=
  first ← ok_or (ELiteralsHeaderShort (zlen raw) 1) (zget raw 0);
  let ty := literals_type_of (Z.land first 3) in
  let size_format := Z.land (Z.shiftr first 2) 3 in
  let len := literals_header_len ty size_format in
  h ← ok_or (ELiteralsHeaderShort (zlen raw) len) (zslice raw 0 len);
  let b := fun i => idx (E:=DecodeError) h i in
  match ty with
  | LitRaw | LitRLE =>
      size ← (if len =? 1 then b0 ← b 0; Ok (Z.shiftr b0 3)
              else if len =? 2 then b0 ← b 0; b1 ← b 1; Ok (Z.shiftr b0 4 + wshl 32 b1 4)
              else b0 ← b 0; b1 ← b 1; b2 ← b 2;
                   Ok (Z.shiftr b0 4 + wshl 32 b1 4 + wshl 32 b2 12));
      let content := match ty with LitRLE => 1 | _ => size end in
      Ok (MkLits size content ty false, len)
  | LitCompressed | LitTreeless =>
      '(size, compressed) ←
        (b0 ← b 0; b1 ← b 1; b2 ← b 2;
         if len =? 3 then
           Ok (Z.shiftr b0 4 + wshl 32 (Z.land b1 0x3f) 4, Z.shiftr b1 6 + wshl 32 b2 2)
         else if len =? 4 then
           b3 ← b 3;
           Ok (Z.shiftr b0 4 + wshl 32 b1 4 + wshl 32 (Z.land b2 0x3) 12,
               Z.shiftr b2 2 + wshl 32 b3 6)
         else
           b3 ← b 3; b4 ← b 4;
           Ok (Z.shiftr b0 4 + wshl 32 b1 4 + wshl 32 (Z.land b2 0x3f) 12,
               Z.shiftr b2 6 + wshl 32 b3 2 + wshl 32 b4 10));
      Ok (MkLits size compressed ty (negb (size_format =? 0)), len)
  end.

(** ** Sequences sections *)

(** [CompressionModes]: the Symbol_Compression_Modes byte. *)
Record CompressionModes := MkModes { modes_byte : Z }.

(** [ModeType]. *)
Inductive ModeType := MPredefined | MRLE | MFSECompressed | MRepeat.

(** [CompressionModes::new]. *)
Definition new_modes (byte : Z) : dec CompressionModes :=
  _ ← fail_if (negb (Z.land byte 3 =? 0)) (EModesReserved byte);
  Ok (MkModes byte).

(** [CompressionModes::decode_mode]; its [panic!] is [Fault]. *)
Definition decode_mode (m : Z) : dec ModeType :=
  if m =? 0 then Ok MPredefined
  else if m =? 1 then Ok MRLE
  else if m =? 2 then Ok MFSECompressed
  else if m =? 3 then Ok MRepeat
  else Fault.

Definition ll_mode (m : CompressionModes) : dec ModeType :=
  decode_mode (Z.shiftr (modes_byte m) 6).
Definition of_mode (m : CompressionModes) : dec ModeType :=
  decode_mode (Z.land (Z.shiftr (modes_byte m) 4) 0x3).
Definition ml_mode (m : CompressionModes) : dec ModeType :=
  decode_mode (Z.land (Z.shiftr (modes_byte m) 2) 0x3).

(** [CompressionModes::all]. *)
Definition all_modes (m : CompressionModes) : dec (list ModeType) :=
  a ← ll_mode m; b ← of_mode m; c ← ml_mode m; Ok [a; b; c].

(** [SequencesHeader]. *)
Record SequencesHeader := MkSeqHeader {
  num_sequences : Z;
  modes : CompressionModes;
}.

(** The count of [SequencesHeader::parse] and the bytes it takes. *)
Definition sequence_count (source : list Z) : dec (Z * Z) :=
  match source with
  | [] => Err ESequencesHeaderEmpty
  | n :: rest =>
      if n =? 0 then Ok (0, 1)
      else if n <=? 127 then Ok (n, 1)
      else if n <=? 254 then
        match rest with
        | low :: _ => Ok (wshl 32 (n - 128) 8 + low, 2)
        | [] => Err (ESequencesHeaderShort (zlen source) 2)
        end
      else
        match rest with
        | low :: high :: _ => Ok (low + wshl 32 high 8 + 0x7F00, 3)
        | _ => Err (ESequencesHeaderShort (zlen source) 4)
        end
  end.

(** [SequencesHeader::parse]. *)
Definition parse_sequences_header (source : list Z) : dec (SequencesHeader * Z) :=
  '(num, len) ← sequence_count source;
  m ← (if num =? 0 then Ok (MkModes 0)
       else
         byte ← ok_or (ESequencesHeaderShort (zlen source) (len + 1)) (zget source len);
         new_modes byte);
  Ok (MkSeqHeader num m, len + Z.b2z (negb (num =? 0))).

(** ** Frames *)

(** [FrameDescriptor]. *)
Record FrameDescriptor := MkDescriptor { descriptor_byte : Z }.

Definition frame_content_size_flag (d : FrameDescriptor) : Z := Z.shiftr (descriptor_byte d) 6.
Definition single_segment_flag (d : FrameDescriptor) : bool :=
  Z.land (Z.shiftr (descriptor_byte d) 5) 0x1 =? 1.
Definition content_checksum_flag (d : FrameDescriptor) : bool :=
  Z.land (Z.shiftr (descriptor_byte d) 2) 0x1 =? 1.
Definition dict_id_flag (d : FrameDescriptor) : Z := Z.land (descriptor_byte d) 0x3.

Definition frame_content_size_bytes (d : FrameDescriptor) : dec Z :=
  let f := frame_content_size_flag d in
  if f =? 0 then Ok (if single_segment_flag d then 1 else 0)
  else if f =? 1 then Ok 2
  else if f =? 2 then Ok 4
  else if f =? 3 then Ok 8
  else Err (EFcsFlag f).

Definition dictionary_id_bytes (d : FrameDescriptor) : dec Z :=
  let f := dict_id_flag d in
  if f =? 0 then Ok 0
  else if f =? 1 then Ok 1
  else if f =? 2 then Ok 2
  else if f =? 3 then Ok 4
  else Err (EDictIdFlag f).

(** [FrameHeader]. *)
Record FrameHeader := MkFrameHeader {
  descriptor : FrameDescriptor;
  window_descriptor : Z;
  frame_content_size : option Z;
  dict_id : Z;
}.

(** [FrameHeader::window_size]. *)
Definition window_size (h : FrameHeader) : dec Z :=
  if single_segment_flag (descriptor h) then Ok (default 0 (frame_content_size h))
  else
    let exp := Z.shiftr (window_descriptor h) 3 in
    let mantissa := Z.land (window_descriptor h) 0x7 in
    let window_log := 10 + exp in
    _ ← fail_if (ZSTD_WINDOWLOG_MAX <? window_log) (EWindowLog window_log);
    let window_base := wshl 64 1 window_log in
    let window_add := window_base / 8 * mantissa in
    let size := window_base + window_add in
    if size <? MIN_WINDOW_SIZE then Err (EWindowTooSmall size) else Ok size.

(** [FrameDecoderError]. *)
Record FrameDecoderError := MkFrameError {
  msg : DecodeError;
  skip_size : option Z;
}.

Definition frame_error_new (m : DecodeError) : FrameDecoderError := MkFrameError m None.
Definition frame_error_skip (size : Z) : FrameDecoderError :=
  MkFrameError (ESkippable size) (Some size).

Definition SKIPPABLE_FRAME_HEADER_LEN : Z := 8.
Definition FRAME_HEADER_PREFIX_LEN : Z := 5.

(** [(0x184D2A50..=0x184D2A5F).contains(&magic)]. *)
Definition skippable_magic (magic : Z) : bool :=
  (0x184D2A50 <=? magic) && (magic <=? 0x184D2A5F).

(** The Dictionary_ID of its bytes. *)
Definition dict_id_of (bs : list Z) : Z :=
  foldl (fun id b => Z.lor (wshl 32 id 8) b) 0 (reverse bs).

(** The Frame_Content_Size of its bytes. *)
Definition content_size_of (bs : list Z) : Z :=
  let fcs := foldl (fun fcs '(i, b) => fcs + wshl 64 b (8 * i)) 0 (enumerate bs) in
  if zlen bs =? 2 then fcs + 256 else fcs.

(** [parse_frame_header]. *)
Definition parse_frame_header (src : list Z) : res FrameDecoderError (FrameHeader * Z) :=
  m ← ok_or (frame_error_new EMagicTruncated) (zslice src 0 4);
  let magic := le_val m in
  if skippable_magic magic then
    s ← ok_or (frame_error_new ESkipSizeTruncated) (zslice src 4 8);
    Err (frame_error_skip (le_val s))
  else
    _ ← fail_if (negb (magic =? ZSTD_MAGIC)) (frame_error_new (EBadMagic magic));
    byte ← ok_or (frame_error_new EDescriptorTruncated) (zget src 4);
    let pos := 5 in
    let desc := MkDescriptor byte in
    _ ← fail_if (negb (Z.land byte 0x08 =? 0)) (frame_error_new (EReservedBit byte));
    '(wd, pos) ←
      (if negb (single_segment_flag desc) then
         w ← ok_or (frame_error_new EWindowDescriptorTruncated) (zget src pos);
         Ok (w, pos + 1)
       else Ok (0, pos));
    id_len ← map_err frame_error_new (dictionary_id_bytes desc);
    id ← ok_or (frame_error_new EDictIdTruncated) (zslice src pos (pos + id_len));
    let pos := pos + id_len in
    fcs_len ← map_err frame_error_new (frame_content_size_bytes desc);
    if negb (fcs_len =? 0) then
      fcs ← ok_or (frame_error_new EFcsTruncated) (zslice src pos (pos + fcs_len));
      Ok (MkFrameHeader desc wd (Some (content_size_of fcs)) (dict_id_of id), pos + fcs_len)
    else Ok (MkFrameHeader desc wd None (dict_id_of id), pos).

(** [unwrap_or(0)] of a result. *)
Definition unwrap_or_0 (m : dec Z) : Z :=
  match m with Ok v => v | _ => 0 end.

(** [frame_header_len]. *)
Definition frame_header_len (head : list Z) : Z :=
  match zslice head 0 FRAME_HEADER_PREFIX_LEN with
  | Some [m0; m1; m2; m3; byte] =>
      let magic := le_val [m0; m1; m2; m3] in
      if skippable_magic magic then SKIPPABLE_FRAME_HEADER_LEN
      else if negb (magic =? ZSTD_MAGIC) then FRAME_HEADER_PREFIX_LEN
      else
        let d := MkDescriptor byte in
        FRAME_HEADER_PREFIX_LEN + Z.b2z (negb (single_segment_flag d))
          + unwrap_or_0 (dictionary_id_bytes d) + unwrap_or_0 (frame_content_size_bytes d)
  | _ => FRAME_HEADER_PREFIX_LEN
  end.

Definition BLOCK_HEADER_LEN : Z := 3.

(** [locate_block]. *)
Definition locate_block (src : list Z) (block_size_max : Z) : dec (option (BlockHeader * list Z)) :=
  match zslice src 0 BLOCK_HEADER_LEN with
  | None => Ok None
  | Some head =>
      match parse_block_header head block_size_max with
      | Ok block =>
          Ok ((fun content => (block, content)) <$>
                zslice src BLOCK_HEADER_LEN (BLOCK_HEADER_LEN + content_size block))
      | Err _ => Ok None
      | Fault => Fault
      | Stuck => Stuck
      end
  end.
