(* ===== verification/HeaderUnits.v ===== *)
(** * Header parsers: safety, lengths and prefixes

    Every parser of [Headers] is total on bytes, bounds what it returns, and
    reads only the bytes whose count it returns. The length
    [frame_header_len] tells from a frame's first bytes is the length the
    frame header parser takes. *)

From S2P Require Import Prelude Words Constants Errors Headers.

(** ** Prefixes *)

Lemma zslice_app_l {A} (p rest : list A) a b : b <= zlen p ->
  zslice (p ++ rest) a b = zslice p a b.
Proof.
  intros Hb. unfold zslice. rewrite zlen_app. pose proof (zlen_nonneg rest).
  destruct (Z.leb_spec 0 a), (Z.leb_spec a b); try done. cbn [andb].
  rewrite !(proj2 (Z.leb_le _ _)) by lia. f_equal. unfold ztake, zdrop, zlen in *.
  rewrite drop_app_le by lia. rewrite take_app_le; [done|]. rewrite length_drop. lia.
Qed.

Lemma zslice_is_Some {A} (l : list A) a b : 0 <= a <= b -> b <= zlen l ->
  exists s, zslice l a b = Some s /\ zlen s = b - a.
Proof.
  intros Ha Hb. rewrite (zslice_ok l a b) by lia. eexists. split; [done|].
  rewrite zlen_ztake; [done|]. rewrite zlen_zdrop by lia. lia.
Qed.

Lemma zslice_None {A} (l : list A) a b : zlen l < b -> zslice l a b = None.
Proof.
  intros. unfold zslice. rewrite (proj2 (Z.leb_gt b (zlen l))) by lia. by rewrite andb_false_r.
Qed.

Lemma bytes_slice (l s : list Z) a b : bytes l -> zslice l a b = Some s -> bytes s.
Proof. intros Hl Hs. by eapply Forall_slice. Qed.

(** A predicate over all bytes, decided by computation. *)
Lemma forall_byte (f : Z -> bool) : forall_below 256 f = true -> forall b, is_byte b -> f b = true.
Proof. intros H b Hb. by apply (forall_below_spec 256 f H). Qed.

(** ** Blocks *)

Definition is_ok {E A} (m : res E A) : bool := match m with Ok _ => true | _ => false end.

Lemma is_ok_inv {E A} (m : res E A) : is_ok m = true -> exists a, m = Ok a.
Proof. destruct m; cbn; try done. eauto. Qed.

Lemma block_type_ok b : is_byte b -> exists ty, block_type_of (Z.land (Z.shiftr b 1) 0x3) = Ok ty.
Proof.
  intros Hb. apply is_ok_inv.
  by apply (forall_byte (fun b => is_ok (block_type_of (Z.land (Z.shiftr b 1) 0x3)))).
Qed.

(** What a block header may say in a frame of Block_Maximum_Size [bsm]. *)
Record block_header_ok (bsm : Z) (h : BlockHeader) : Prop := {
  bh_type : block_type h <> Reserved;
  bh_decompressed : 0 <= decompressed_size h <= bsm;
  bh_content : 0 <= content_size h < 2 ^ 21;
  bh_raw : block_type h = Raw -> decompressed_size h = content_size h;
  bh_rle : block_type h = RLE -> content_size h = 1;
  bh_compressed : block_type h = Compressed -> content_size h <= bsm;
}.

Lemma lor_bounds x y n : 0 <= n -> 0 <= x < 2 ^ n -> 0 <= y < 2 ^ n -> 0 <= Z.lor x y < 2 ^ n.
Proof.
  intros Hn Hx Hy. split; [apply Z.lor_nonneg; lia|].
  destruct (Z.eq_dec (Z.lor x y) 0) as [->|Hne]; [lia|].
  assert (0 <= Z.lor x y) by (apply Z.lor_nonneg; lia).
  destruct (Z.eq_dec x 0) as [->|]; [rewrite Z.lor_0_l; lia|].
  destruct (Z.eq_dec y 0) as [->|]; [rewrite Z.lor_0_r; lia|].
  apply Z.log2_lt_pow2; [lia|]. rewrite Z.log2_lor by lia.
  pose proof (proj1 (Z.log2_lt_pow2 x n ltac:(lia)) ltac:(lia)).
  pose proof (proj1 (Z.log2_lt_pow2 y n ltac:(lia)) ltac:(lia)). lia.
Qed.

Lemma wshl_byte b k : is_byte b -> 0 <= k -> k + 8 <= 32 -> wshl 32 b k = b * 2 ^ k.
Proof.
  unfold is_byte. intros Hb Hk H32. rewrite wshl_div by lia. apply Z.mod_small.
  pose proof (pow2_pos k Hk). assert (2 ^ (k + 8) <= 2 ^ 32) as Hle by (apply pow2_le; lia).
  rewrite pow2_add in Hle by lia. change (2 ^ 8) with 256 in Hle. nia.
Qed.

Lemma parse_block_header_safe src bsm : bytes src -> 0 <= bsm ->
  safe (fun h => block_header_ok bsm h /\ 3 <= zlen src) (parse_block_header src bsm).
Proof.
  intros Hs Hbsm. unfold parse_block_header. apply safe_ok_or. intros buf Hbuf.
  pose proof (bytes_slice _ _ _ _ Hs Hbuf) as Hbb. apply zslice_Some in Hbuf as (_ & H3 & _ & Hlen).
  apply safe_idx; [lia|]. intros b0 H0. apply safe_idx; [lia|]. intros b1 H1.
  apply safe_idx; [lia|]. intros b2 H2.
  pose proof (Forall_zget _ _ _ _ Hbb H0) as B0. pose proof (Forall_zget _ _ _ _ Hbb H1) as B1.
  pose proof (Forall_zget _ _ _ _ Hbb H2) as B2.
  destruct (block_type_ok b0 B0) as [ty ->]. cbn [mbind res_bind].
  apply safe_fail_if. intros Hty%bool_decide_eq_false. apply safe_fail_if. intros Hsize. bools.
  set (sz := Z.lor _ _) in *.
  assert (0 <= sz < 2 ^ 21) as Hsz.
  { unfold sz. rewrite !wshl_byte by (done || lia). unfold is_byte in *.
    rewrite shiftr_div by lia. change (2 ^ 3) with 8.
    change (2 ^ 5) with 32. change (2 ^ 13) with 8192. change (2 ^ 21) with 2097152.
    apply (lor_bounds _ _ 21); [lia| |change (2 ^ 21) with 2097152; lia].
    apply lor_bounds; [lia| |change (2 ^ 21) with 2097152; lia].
    change (2 ^ 21) with 2097152. Z.to_euclidean_division_equations; lia. }
  clearbody sz. split; [|lia]. change (2 ^ 21) with 2097152 in *.
  split; cbn; destruct ty; done || lia || (change (2 ^ 21) with 2097152; lia).
Qed.

Lemma parse_block_header_prefix p rest bsm : 3 <= zlen p ->
  parse_block_header (p ++ rest) bsm = parse_block_header p bsm.
Proof. intros. unfold parse_block_header. by rewrite zslice_app_l by lia. Qed.

(** ** Literals sections *)

Record literals_section_ok (s : LiteralsSection) : Prop := {
  ls_regenerated : 0 <= regenerated_size s < 2 ^ 20;
  ls_content_range : 0 <= lits_content s < 2 ^ 20;
  ls_raw : ls_type s = LitRaw -> lits_content s = regenerated_size s;
  ls_rle : ls_type s = LitRLE -> lits_content s = 1;
}.

Lemma land_3f b : Z.land b 0x3f = b mod 64.
Proof. apply (land_mod b 6). lia. Qed.

Lemma land_3 b : Z.land b 0x3 = b mod 4.
Proof. apply (land_mod b 2). lia. Qed.

(** Shifts and masks of bytes as divisions, products and remainders. *)
Ltac byte_arith :=
  unfold is_byte in *; rewrite ?shiftr_div by lia; rewrite ?land_3f, ?land_3;
  rewrite ?wshl_byte by (unfold is_byte; Z.to_euclidean_division_equations; lia);
  repeat match goal with
  | |- context [2 ^ ?k] => let v := eval compute in (2 ^ k) in change (2 ^ k) with v
  end;
  Z.to_euclidean_division_equations; lia.

Lemma literals_header_len_range ty sf : 1 <= literals_header_len ty sf <= 5.
Proof. unfold literals_header_len. destruct ty; repeat case_match; lia. Qed.

Lemma safe_idx_byte {E A} (l : list Z) i (k : Z -> res E A) (Q : A -> Prop) :
  bytes l -> 0 <= i < zlen l -> (forall b, is_byte b -> safe Q (k b)) -> safe Q (idx l i ≫= k).
Proof.
  intros Hl Hi Hk. apply safe_idx; [done|]. intros b Hb. apply Hk. by eapply Forall_zget.
Qed.

Lemma parse_literals_section_safe raw : bytes raw ->
  safe (fun '(s, len) => literals_section_ok s /\ 1 <= len <= 5 /\ len <= zlen raw)
    (parse_literals_section raw).
Proof.
  intros Hr. unfold parse_literals_section. apply safe_ok_or. intros first Hf.
  set (ty := literals_type_of _). set (sf := Z.land (Z.shiftr first 2) 3).
  pose proof (literals_header_len_range ty sf) as Hlen.
  apply safe_ok_or. intros h Hh. pose proof (bytes_slice _ _ _ _ Hr Hh) as Hb.
  apply zslice_Some in Hh as (_ & Hle & _ & Hzl). rewrite Z.sub_0_r in Hzl.
  clearbody ty sf. unfold literals_header_len in *. destruct ty.
  all: repeat case_match; bools; try lia; subst; cbn [Z.eqb Z.compare Pos.compare Pos.compare_cont].
  all: rewrite ?bind_assoc; cbn zeta.
  all: repeat first
    [ apply safe_idx_byte; [done|lia|intros ? ?]
    | progress cbn [mbind res_bind]
    | rewrite bind_assoc ].
  all: cbn [safe]; (split; [|lia]).
  all: split; cbn [regenerated_size lits_content ls_type]; try done; try lia; intros; byte_arith.
Qed.

(** ** Sequences sections *)

Lemma mode_ok b (f : CompressionModes -> dec ModeType) :
  is_byte b -> forall_below 256 (fun b => is_ok (f (MkModes b))) = true ->
  exists m, f (MkModes b) = Ok m.
Proof. intros Hb Hf. apply is_ok_inv. by apply (forall_byte _ Hf). Qed.

Lemma all_modes_ok m : is_byte (modes_byte m) ->
  exists a b c, all_modes m = Ok [a; b; c].
Proof.
  destruct m as [b]. cbn [modes_byte]. intros Hb. unfold all_modes.
  destruct (mode_ok b ll_mode Hb ltac:(by vm_compute)) as [x ->].
  destruct (mode_ok b of_mode Hb ltac:(by vm_compute)) as [y ->].
  destruct (mode_ok b ml_mode Hb ltac:(by vm_compute)) as [z ->].
  by exists x, y, z.
Qed.

Record sequences_header_ok (h : SequencesHeader) : Prop := {
  sh_count : 0 <= num_sequences h < 2 ^ 17;
  sh_modes : is_byte (modes_byte (modes h));
}.

Lemma sequence_count_safe source : bytes source ->
  safe (fun '(n, len) => 0 <= n < 2 ^ 17 /\ 1 <= len <= 3 /\ len <= zlen source)
    (sequence_count source).
Proof.
  intros Hs. unfold sequence_count. change (2 ^ 17) with 131072.
  destruct Hs as [|n rest Hn Hs]; [done|]. rewrite zlen_cons. pose proof (zlen_nonneg rest).
  repeat case_bool; cbn; unfold is_byte in *; try lia.
  - destruct Hs as [|low rest' Hlow Hs]; cbn; [done|]. rewrite zlen_cons.
    pose proof (zlen_nonneg rest'). rewrite wshl_byte by (unfold is_byte in *; lia).
    unfold is_byte in *. change (2 ^ 8) with 256. lia.
  - destruct Hs as [|low ? Hlow [|high rest' Hhigh Hs]]; cbn; try done. rewrite !zlen_cons.
    pose proof (zlen_nonneg rest'). rewrite wshl_byte by (unfold is_byte in *; lia).
    unfold is_byte in *. change (2 ^ 8) with 256. lia.
Qed.

Lemma parse_sequences_header_safe source : bytes source ->
  safe (fun '(h, len) => sequences_header_ok h /\ 1 <= len <= 4 /\ len <= zlen source)
    (parse_sequences_header source).
Proof.
  intros Hs. unfold parse_sequences_header.
  eapply safe_bind; [by apply sequence_count_safe|]. intros [n len] (Hn & Hl & Hle).
  destruct (Z.eqb_spec n 0) as [->|Hnz]; cbn [mbind res_bind negb Z.b2z].
  - cbn. split; [|lia]. split; cbn; [lia|unfold is_byte; lia].
  - rewrite bind_assoc. apply safe_ok_or. intros byte Hb.
    unfold new_modes. rewrite bind_assoc. apply safe_fail_if. intros _.
    apply zget_lt in Hb as Hlt. cbn. split; [|lia]. split; cbn; [lia|]. by eapply Forall_zget.
Qed.

(** ** Frames *)

Lemma dictionary_id_bytes_ok b : is_byte b ->
  exists n, dictionary_id_bytes (MkDescriptor b) = Ok n /\ 0 <= n <= 4.
Proof.
  intros Hb. pose proof (forall_byte (fun b => match dictionary_id_bytes (MkDescriptor b) with
    | Ok n => (0 <=? n) && (n <=? 4) | _ => false end) ltac:(by vm_compute) b Hb) as H.
  cbv beta in H. destruct (dictionary_id_bytes _) as [n| | |]; try done. bools. eexists. by split.
Qed.

Lemma frame_content_size_bytes_ok b : is_byte b ->
  exists n, frame_content_size_bytes (MkDescriptor b) = Ok n /\ 0 <= n <= 8.
Proof.
  intros Hb. pose proof (forall_byte (fun b => match frame_content_size_bytes (MkDescriptor b) with
    | Ok n => (0 <=? n) && (n <=? 8) | _ => false end) ltac:(by vm_compute) b Hb) as H.
  cbv beta in H. destruct (frame_content_size_bytes _) as [n| | |]; try done. bools.
  eexists. by split.
Qed.

(** The header length once the prefix is there. *)
Lemma frame_header_len_eq src m byte : bytes src -> 5 <= zlen src ->
  zslice src 0 4 = Some m -> zget src 4 = Some byte ->
  frame_header_len src =
    if skippable_magic (le_val m) then 8
    else if negb (le_val m =? ZSTD_MAGIC) then 5
    else 5 + Z.b2z (negb (single_segment_flag (MkDescriptor byte)))
           + unwrap_or_0 (dictionary_id_bytes (MkDescriptor byte))
           + unwrap_or_0 (frame_content_size_bytes (MkDescriptor byte)).
Proof.
  intros Hs H5 Hm Hb. unfold frame_header_len.
  destruct src as [|m0 [|m1 [|m2 [|m3 [|b rest]]]]];
    try (rewrite ?zlen_cons in H5; change (zlen (@nil Z)) with 0 in H5; lia).
  assert (zslice (m0 :: m1 :: m2 :: m3 :: b :: rest) 0 FRAME_HEADER_PREFIX_LEN =
    Some [m0; m1; m2; m3; b]) as ->.
  { rewrite zslice_ok; [done|done|]. unfold FRAME_HEADER_PREFIX_LEN. lia. }
  rewrite zslice_ok in Hm by lia. injection Hm as <-.
  change (ztake (4 - 0) (zdrop 0 (m0 :: m1 :: m2 :: m3 :: b :: rest))) with [m0; m1; m2; m3].
  injection Hb as ->. done.
Qed.

Lemma frame_header_len_short src : zlen src < 5 -> frame_header_len src = 5.
Proof. intros. unfold frame_header_len, FRAME_HEADER_PREFIX_LEN. by rewrite zslice_None. Qed.

Lemma frame_header_len_range src : bytes src -> 5 <= frame_header_len src <= 18.
Proof.
  intros Hs. destruct (Z_lt_dec (zlen src) 5).
  { rewrite frame_header_len_short by done. lia. }
  destruct (zslice_is_Some src 0 4) as (m & Hm & _); [lia..|].
  destruct (zget_is_Some src 4) as [byte Hb]; [lia|].
  rewrite (frame_header_len_eq src m byte) by (done || lia).
  pose proof (Forall_zget _ _ _ _ Hs Hb) as Hbyte.
  destruct (dictionary_id_bytes_ok byte Hbyte) as (idl & -> & Hidl).
  destruct (frame_content_size_bytes_ok byte Hbyte) as (k & -> & Hk). cbn [unwrap_or_0].
  destruct (skippable_magic _); [lia|]. destruct (negb _); [lia|].
  destruct (negb _); cbn [Z.b2z]; lia.
Qed.

Lemma content_size_fold l k a : bytes l -> 0 <= k -> 8 * (k + zlen l) <= 64 ->
  foldl (fun fcs '(i, b) => fcs + wshl 64 b (8 * i)) a (imap (fun i x => (k + Z.of_nat i, x)) l)
    = a + 2 ^ (8 * k) * le_val l.
Proof.
  intros Hl. revert k a. induction Hl as [|b l Hb Hl IH]; intros k a Hk H64; cbn [le_val].
  - cbn. lia.
  - rewrite zlen_cons in H64. pose proof (zlen_nonneg l). rewrite imap_cons. cbn [foldl].
    rewrite Z.add_0_r.
    rewrite (imap_ext _ (fun i x => (k + 1 + Z.of_nat i, x))) by (intros; cbn; f_equal; lia).
    rewrite IH by lia. rewrite wshl_div by lia. unfold is_byte in Hb.
    assert (2 ^ (8 * k + 8) <= 2 ^ 64) as Hle by (apply pow2_le; lia).
    rewrite pow2_add in Hle by lia. pose proof (pow2_pos (8 * k) ltac:(lia)).
    change (2 ^ 8) with 256 in Hle. rewrite Z.mod_small by nia.
    replace (8 * (k + 1)) with (8 * k + 8) by lia. rewrite pow2_add by lia.
    change (2 ^ 8) with 256. nia.
Qed.

Lemma content_size_of_ok l : bytes l -> zlen l <= 8 ->
  content_size_of l = le_val l + (if zlen l =? 2 then 256 else 0).
Proof.
  intros Hl H8. unfold content_size_of, enumerate.
  pose proof (content_size_fold l 0 0 Hl ltac:(lia) ltac:(lia)) as H.
  rewrite (imap_ext _ (fun i x => (0 + Z.of_nat i, x))) by (intros; cbn; f_equal; lia).
  rewrite H. change (2 ^ (8 * 0)) with 1. destruct (zlen l =? 2); lia.
Qed.

Lemma dict_id_of_ok l : bytes l -> zlen l <= 4 -> dict_id_of l = le_val l.
Proof.
  unfold dict_id_of. induction 1 as [|b l Hb Hl IH]; intros H4; [done|].
  rewrite zlen_cons in H4. rewrite reverse_cons, foldl_app. cbn [foldl le_val].
  rewrite IH by lia. pose proof (le_val_range l Hl) as Hr.
  assert (2 ^ (8 * zlen l) <= 2 ^ 24) as Hle by (apply pow2_le; pose proof (zlen_nonneg l); lia).
  change (2 ^ 24) with 16777216 in Hle. rewrite wshl_div by lia.
  rewrite Z.mod_small by (change (2 ^ 8) with 256; change (2 ^ 32) with 4294967296; lia).
  rewrite Z.lor_comm, lor_disjoint_add by (unfold is_byte in Hb; change (2 ^ 8) with 256; lia).
  change (2 ^ 8) with 256. lia.
Qed.

(** What a parsed frame header holds. *)
Record frame_header_wf (h : FrameHeader) : Prop := {
  fh_descriptor : is_byte (descriptor_byte (descriptor h));
  fh_window : is_byte (window_descriptor h);
  fh_dict_id : 0 <= dict_id h < 2 ^ 32;
  fh_content : forall n, frame_content_size h = Some n -> 0 <= n < 2 ^ 64;
}.

Lemma le_val_bound l n : bytes l -> zlen l <= n -> 0 <= le_val l < 2 ^ (8 * n).
Proof.
  intros Hl Hn. pose proof (le_val_range l Hl). pose proof (zlen_nonneg l).
  assert (2 ^ (8 * zlen l) <= 2 ^ (8 * n)) by (apply pow2_le; lia). lia.
Qed.

Lemma content_size_of_range l : bytes l -> zlen l <= 8 -> 0 <= content_size_of l < 2 ^ 64.
Proof.
  intros Hl H8. rewrite content_size_of_ok by done.
  destruct (Z.eqb_spec (zlen l) 2) as [H2|].
  - pose proof (le_val_bound l 2 Hl ltac:(lia)) as Hb. change (2 ^ (8 * 2)) with 65536 in Hb.
    change (2 ^ 64) with 18446744073709551616. lia.
  - pose proof (le_val_bound l 8 Hl H8) as Hb. change (8 * 8) with 64 in Hb. lia.
Qed.

Lemma single_segment_sized b n : is_byte b -> single_segment_flag (MkDescriptor b) = true ->
  frame_content_size_bytes (MkDescriptor b) = Ok n -> n <> 0.
Proof.
  intros Hb. pose proof (forall_byte (fun b => match frame_content_size_bytes (MkDescriptor b) with
    | Ok n => negb (single_segment_flag (MkDescriptor b) && (n =? 0)) | _ => false end)
    ltac:(by vm_compute) b Hb) as H. cbv beta in H. intros Hs Hn. rewrite Hn, Hs in H.
  intros ->. done.
Qed.

(** The verdict of [parse_frame_header], with the length of what it takes. *)
Definition frame_header_verdict (src : list Z) (r : res FrameDecoderError (FrameHeader * Z)) : Prop :=
  match r with
  | Ok (h, pos) => pos = frame_header_len src /\ pos <= zlen src /\ frame_header_wf h /\
      (single_segment_flag (descriptor h) = true -> is_Some (frame_content_size h))
  | Err e => forall n, Headers.skip_size e = Some n ->
      frame_header_len src = SKIPPABLE_FRAME_HEADER_LEN /\
      SKIPPABLE_FRAME_HEADER_LEN <= zlen src /\ 0 <= n < 2 ^ 32
  | Fault | Stuck => False
  end.

(** The fields after the descriptor. *)
Lemma parse_frame_fields src byte pos wd : bytes src -> is_byte byte -> is_byte wd -> 0 <= pos ->
  pos + unwrap_or_0 (dictionary_id_bytes (MkDescriptor byte))
    + unwrap_or_0 (frame_content_size_bytes (MkDescriptor byte)) = frame_header_len src ->
  frame_header_verdict src
    (id_len ← map_err frame_error_new (dictionary_id_bytes (MkDescriptor byte));
     id ← ok_or (frame_error_new EDictIdTruncated) (zslice src pos (pos + id_len));
     fcs_len ← map_err frame_error_new (frame_content_size_bytes (MkDescriptor byte));
     if negb (fcs_len =? 0) then
       fcs ← ok_or (frame_error_new EFcsTruncated)
               (zslice src (pos + id_len) (pos + id_len + fcs_len));
       Ok (MkFrameHeader (MkDescriptor byte) wd (Some (content_size_of fcs)) (dict_id_of id),
           pos + id_len + fcs_len)
     else Ok (MkFrameHeader (MkDescriptor byte) wd None (dict_id_of id), pos + id_len)).
Proof.
  intros Hs Hb Hwd Hpos.
  destruct (dictionary_id_bytes_ok byte Hb) as (idl & -> & Hidl).
  destruct (frame_content_size_bytes_ok byte Hb) as (fl & Hfl & Hflr). rewrite Hfl.
  cbn [unwrap_or_0 map_err mbind res_bind]. intros Hlen.
  destruct (zslice src pos (pos + idl)) as [id|] eqn:Hid; [|done]. cbn [ok_or mbind res_bind].
  pose proof (bytes_slice _ _ _ _ Hs Hid) as Hidb.
  apply zslice_Some in Hid as (_ & Hle & _ & Hidl').
  pose proof (le_val_bound id 4 Hidb ltac:(lia)) as Hidv.
  destruct (Z.eqb_spec fl 0) as [->|Hnz]; cbn [negb].
  - split; [lia|]. split; [done|]. split.
    + split; cbn; try done. rewrite dict_id_of_ok by (done || lia). done.
    + cbn. intros Hss. by destruct (single_segment_sized byte 0 Hb Hss).
  - destruct (zslice src (pos + idl) (pos + idl + fl)) as [fcs|] eqn:Hfcs; [|done].
    cbn [ok_or mbind res_bind]. pose proof (bytes_slice _ _ _ _ Hs Hfcs) as Hfb.
    apply zslice_Some in Hfcs as (_ & Hle2 & _ & Hfl').
    split; [lia|]. split; [done|]. split; [|done].
    split; cbn; try done.
    + rewrite dict_id_of_ok by (done || lia). done.
    + intros n [= <-]. apply content_size_of_range; [done|lia].
Qed.

Lemma parse_frame_header_ok src : bytes src ->
  frame_header_verdict src (parse_frame_header src).
Proof.
  intros Hs. unfold parse_frame_header.
  destruct (zslice src 0 4) as [m|] eqn:Hm; [|done]. cbn [ok_or mbind res_bind].
  pose proof (bytes_slice _ _ _ _ Hs Hm) as Hmb. pose proof Hm as (_ & H4 & _ & Hml)%zslice_Some.
  destruct (skippable_magic (le_val m)) eqn:Hskip.
  { destruct (zslice src 4 8) as [s|] eqn:H8; [|done]. cbn [ok_or mbind res_bind].
    pose proof (bytes_slice _ _ _ _ Hs H8) as Hsb.
    apply zslice_Some in H8 as (_ & H8 & _ & Hsl). cbn. intros n [= <-].
    destruct (zget_is_Some src 4) as [byte Hbyte]; [lia|].
    rewrite (frame_header_len_eq src m byte) by (done || lia). rewrite Hskip.
    split; [done|]. split; [done|]. apply (le_val_bound s 4); [done|lia]. }
  unfold fail_if at 1. destruct (Z.eqb_spec (le_val m) ZSTD_MAGIC) as [Hmagic|]; [|done].
  cbn [negb mbind res_bind].
  destruct (zget src 4) as [byte|] eqn:Hbyte; [|done]. cbn [ok_or mbind res_bind].
  pose proof (Forall_zget _ _ _ _ Hs Hbyte) as Hb. pose proof (zget_lt _ _ _ Hbyte) as H5.
  pose proof (frame_header_len_eq src m byte Hs ltac:(lia) Hm Hbyte) as Hlen.
  rewrite Hskip, (proj2 (Z.eqb_eq _ _) Hmagic) in Hlen. cbn [negb] in Hlen.
  unfold fail_if. destruct (negb (Z.land byte 8 =? 0)); [done|]. cbn [mbind res_bind].
  destruct (single_segment_flag (MkDescriptor byte)) eqn:Hss; cbn [negb Z.b2z] in *.
  - apply (parse_frame_fields src byte 5 0 Hs Hb); [unfold is_byte; lia|lia|lia].
  - destruct (zget src 5) as [w|] eqn:Hw; [|done]. cbn [ok_or mbind res_bind].
    pose proof (Forall_zget _ _ _ _ Hs Hw) as Hwb.
    apply (parse_frame_fields src byte (5 + 1) w Hs Hb); [done|lia|lia].
Qed.

(** A parser of a prefix that holds the header is the parser of the whole. *)
Lemma parse_frame_header_prefix p rest : bytes (p ++ rest) -> frame_header_len p <= zlen p ->
  parse_frame_header (p ++ rest) = parse_frame_header p.
Proof.
  intros Hs Hlen. pose proof Hs as [Hp _]%Forall_app.
  pose proof (frame_header_len_range p Hp) as Hr.
  destruct (zslice_is_Some p 0 4) as (m & Hm & _); [lia..|].
  destruct (zget_is_Some p 4) as [byte Hbyte]; [lia|].
  pose proof (frame_header_len_eq p m byte Hp ltac:(lia) Hm Hbyte) as Heq.
  pose proof (Forall_zget _ _ _ _ Hp Hbyte) as Hb.
  unfold parse_frame_header. rewrite (zslice_app_l p rest 0 4) by lia. rewrite Hm.
  cbn [ok_or mbind res_bind].
  destruct (skippable_magic (le_val m)); [by rewrite (zslice_app_l p rest 4 8) by lia|].
  destruct (Z.eqb_spec (le_val m) ZSTD_MAGIC); [|done]. cbn [negb] in *.
  rewrite (zget_app_l p rest 4) by lia. rewrite Hbyte. cbn [fail_if ok_or mbind res_bind].
  destruct (negb (Z.land byte 8 =? 0)); [done|]. cbn [fail_if mbind res_bind].
  destruct (dictionary_id_bytes_ok byte Hb) as (idl & Hid & Hidl). rewrite Hid in *.
  destruct (frame_content_size_bytes_ok byte Hb) as (fl & Hfl & Hflr). rewrite Hfl in *.
  cbn [unwrap_or_0 map_err] in *.
  destruct (single_segment_flag (MkDescriptor byte)); cbn [negb Z.b2z mbind res_bind] in *.
  - rewrite !zslice_app_l by lia. done.
  - rewrite (zget_app_l p rest 5) by lia. destruct (zget_is_Some p 5) as [w ->]; [lia|].
    cbn [ok_or mbind res_bind]. rewrite !zslice_app_l by lia. done.
Qed.

Lemma frame_header_len_prefix p rest : bytes (p ++ rest) -> 5 <= zlen p ->
  frame_header_len (p ++ rest) = frame_header_len p.
Proof.
  intros Hs H5. unfold frame_header_len, FRAME_HEADER_PREFIX_LEN.
  by rewrite zslice_app_l by lia.
Qed.

Lemma frame_header_units_core src : bytes src ->
  frame_header_verdict src (parse_frame_header src) /\
  (forall rest, frame_header_len src <= zlen src -> bytes rest ->
     frame_header_len (src ++ rest) = frame_header_len src /\
     parse_frame_header (src ++ rest) = parse_frame_header src) /\
  (zlen src < frame_header_len src -> exists e,
     parse_frame_header src = Err e /\ Headers.skip_size e = None).
Proof.
  intros Hs. pose proof (parse_frame_header_ok src Hs) as Hv.
  pose proof (frame_header_len_range src Hs) as Hr. split; [done|]. split.
  - intros rest Hlen Hrest. assert (bytes (src ++ rest)) by by apply Forall_app.
    split; [apply frame_header_len_prefix|apply parse_frame_header_prefix]; done || lia.
  - intros Hshort. destruct (parse_frame_header src) as [[h pos]|e| |]; [..|done|done].
    + destruct Hv as (? & ? & _). lia.
    + exists e. split; [done|]. destruct (Headers.skip_size e) as [n|] eqn:He; [|done].
      destruct (Hv n He) as (Hl8 & ? & _). rewrite Hl8 in Hshort. lia.
Qed.

(** C26: The length a frame header takes is the length its first bytes tell.
    On every byte input the frame header parser returns without panicking;
    when it accepts a header, it took exactly [frame_header_len] bytes, and
    the fields are in range (a Single_Segment header has a content size); a
    skippable frame is exactly an 8-byte unit; the verdict and the length do
    not depend on the bytes after the header; and while fewer bytes than the
    length are there, it never accepts, so that the [unreachable!] of the
    end-of-input verdict is unreachable. *)
Theorem frame_header_units src : bytes src ->
  frame_header_verdict src (parse_frame_header src) /\
  (forall rest, frame_header_len src <= zlen src -> bytes rest ->
     frame_header_len (src ++ rest) = frame_header_len src /\
     parse_frame_header (src ++ rest) = parse_frame_header src) /\
  (zlen src < frame_header_len src -> exists e,
     parse_frame_header src = Err e /\ Headers.skip_size e = None).
Proof. apply frame_header_units_core. Qed.

Lemma frame_header_units_witness :
  parse_frame_header [0x28; 0xB5; 0x2F; 0xFD; 0x20; 7; 1; 2; 3] =
    Ok (MkFrameHeader (MkDescriptor 0x20) 0 (Some 7) 0, 6).
Proof.
  assert (bytes [0x28; 0xB5; 0x2F; 0xFD; 0x20; 7]) as Hp by solve_bytes.
  destruct (frame_header_units [0x28; 0xB5; 0x2F; 0xFD; 0x20; 7] Hp) as (_ & Hpre & _).
  assert (bytes [1; 2; 3]) as Hr by solve_bytes.
  destruct (Hpre [1; 2; 3] ltac:(by vm_compute) Hr) as [_ H].
  transitivity (parse_frame_header [0x28; 0xB5; 0x2F; 0xFD; 0x20; 7]); [exact H|by vm_compute].
Defined.
