(* ===== verification/FrameWrite.v ===== *)
(** * Headers the encoder writes, and their round trips with the decoder

    The framing side of the encoder: block headers
    ([src/compress/block.rs], [write_raw_block] and its siblings), frame
    headers ([src/compress/mod.rs], [write_frame_header]), literals section
    headers ([src/huf.rs]) and the sequence count ([src/fse.rs]). What they
    write, the parsers of [Headers] read back. *)

From S2P Require Import Prelude Words Constants Errors Headers HeaderUnits.

(** ** Blocks ([src/compress/block.rs]) *)

Definition ZSTD_BLOCKHEADERSIZE : Z := 3.

(** [is_last | (ty << 1) | ((len as u32) << 3)], its low 3 bytes. *)
Definition block_header_bytes (ty : Z) (len : Z) (is_last : bool) : list Z :=
  let header := Z.lor (Z.lor (Z.b2z is_last) (wshl 32 ty 1)) (wshl 32 (wrap 32 len) 3) in
  ztake ZSTD_BLOCKHEADERSIZE (le_bytes 4 header).

(** [write_raw_block]. *)
Definition write_raw_block (out data : list Z) (is_last : bool) : list Z :=
  out ++ block_header_bytes BLOCK_TYPE_RAW (zlen data) is_last ++ data.

(** [write_rle_block]. *)
Definition write_rle_block (out : list Z) (byte repeat_count : Z) (is_last : bool) : list Z :=
  out ++ block_header_bytes BLOCK_TYPE_RLE repeat_count is_last ++ [byte].

(** [write_compressed_block]. *)
Definition write_compressed_block (out compressed : list Z) (is_last : bool) : list Z :=
  out ++ block_header_bytes BLOCK_TYPE_COMPRESSED (zlen compressed) is_last ++ compressed.

(** ** Literals sections ([src/huf.rs]) *)

(** The header of a Raw or RLE section of type [ty]. *)
Definition plain_literals_header (ty size : Z) : list Z :=
  if size <=? 31 then [Z.lor ty (wshl 8 (wrap 8 size) 3)]
  else if size <=? 4095 then
    le_bytes 2 (Z.lor (Z.lor ty (Z.shiftl 1 2)) (wshl 16 (wrap 16 size) 4))
  else ztake 3 (le_bytes 4 (Z.lor (Z.lor ty (Z.shiftl 3 2)) (wshl 32 (wrap 32 size) 4))).

(** [encode_literals_raw]. *)
Definition encode_literals_raw (out literals : list Z) : list Z :=
  out ++ plain_literals_header LIT_TYPE_RAW (zlen literals) ++ literals.

(** [encode_literals_rle]. *)
Definition encode_literals_rle (out : list Z) (byte size : Z) : list Z :=
  out ++ plain_literals_header LIT_TYPE_RLE size ++ [byte].

(** [lh_size] of [compress_literals_with]. *)
Definition literals_lh_size (src_size : Z) : Z :=
  3 + Z.b2z (1024 <=? src_size) + Z.b2z (16384 <=? src_size).

(** The header [compress_literals_with] builds over the [lh_size] bytes it
    left before the compressed literals. *)
Definition compressed_literals_header (h_type : Z) (single_stream : bool)
    (src_size c_lit_size : Z) : list Z :=
  let lh_size := literals_lh_size src_size in
  if lh_size =? 3 then
    ztake 3 (le_bytes 4 (Z.lor (Z.lor (Z.lor h_type (wshl 32 (Z.b2z (negb single_stream)) 2))
                                 (wshl 32 (wrap 32 src_size) 4))
                           (wshl 32 (wrap 32 c_lit_size) 14)))
  else if lh_size =? 4 then
    le_bytes 4 (Z.lor (Z.lor (Z.lor h_type (Z.shiftl 2 2)) (wshl 32 (wrap 32 src_size) 4))
                  (wshl 32 (wrap 32 c_lit_size) 18))
  else
    le_bytes 4 (Z.lor (Z.lor (Z.lor h_type (Z.shiftl 3 2)) (wshl 32 (wrap 32 src_size) 4))
                  (wshl 32 (wrap 32 c_lit_size) 22))
      ++ [wrap 8 (Z.shiftr c_lit_size 10)].

(** ** Sequences sections ([src/fse.rs]) *)

Definition LONGNBSEQ : Z := 0x7F00.

(** The sequence count at the head of [encode_sequences_section_with]. *)
Definition sequence_count_header (nb_seq : Z) : list Z :=
  if nb_seq <? 128 then [wrap 8 nb_seq]
  else if nb_seq <? LONGNBSEQ then
    [wrap 8 (Z.shiftr nb_seq 8) + 0x80; wrap 8 nb_seq]
  else 0xFF :: le_bytes 2 (wrap 16 (nb_seq - LONGNBSEQ)).

(** ** Frames ([src/compress/mod.rs]) *)

Definition ZSTD_WINDOWLOG_ABSOLUTEMIN : Z := 10.

(** [write_frame_header]. *)
Definition write_frame_header (out : list Z) (content_size : option Z) (window_log : Z)
    (checksum : bool) (dict_id : Z) : list Z :=
  let window_size := wshl 64 1 window_log in
  let single_segment := match content_size with Some size => size <=? window_size | None => false end in
  let fcs_code := match content_size with
                  | Some size => Z.b2z (256 <=? size) + Z.b2z (65536 + 256 <=? size)
                                 + Z.b2z (0xFFFFFFFF <=? size)
                  | None => 0
                  end in
  let content_size := default 0 content_size in
  let dict_id_code := Z.b2z (0 <? dict_id) + Z.b2z (256 <=? dict_id) + Z.b2z (65536 <=? dict_id) in
  let descriptor := Z.lor (Z.lor (Z.lor dict_id_code (wshl 8 (Z.b2z checksum) 2))
                             (wshl 8 (Z.b2z single_segment) 5)) (wshl 8 fcs_code 6) in
  out ++ le_bytes 4 ZSTD_MAGIC ++ [descriptor]
    ++ (if negb single_segment
        then [wrap 8 (wshl 32 (window_log - ZSTD_WINDOWLOG_ABSOLUTEMIN) 3)] else [])
    ++ (if dict_id_code =? 0 then []
        else if dict_id_code =? 1 then [wrap 8 dict_id]
        else if dict_id_code =? 2 then le_bytes 2 (wrap 16 dict_id)
        else le_bytes 4 dict_id)
    ++ (if fcs_code =? 0 then (if single_segment then [wrap 8 content_size] else [])
        else if fcs_code =? 1 then le_bytes 2 (wrap 16 (content_size - 256))
        else if fcs_code =? 2 then le_bytes 4 (wrap 32 content_size)
        else le_bytes 8 content_size).

(** ** Block round trips *)

Lemma lor_add_pow x y k : 0 <= k -> 0 <= x < 2 ^ k -> Z.lor x (y * 2 ^ k) = x + y * 2 ^ k.
Proof. apply lor_disjoint_add. Qed.

Lemma wshl_small w x k : 0 <= x -> 0 <= k -> x * 2 ^ k < 2 ^ w -> wshl w x k = x * 2 ^ k.
Proof. intros. rewrite wshl_div by lia. apply Z.mod_small. pose proof (pow2_pos k). nia. Qed.

Lemma block_header_value ty n (l : bool) : 0 <= ty < 4 -> 0 <= n < 2 ^ 21 ->
  block_header_bytes ty n l =
    [(Z.b2z l + ty * 2 + n * 8) mod 256; (Z.b2z l + ty * 2 + n * 8) / 256 mod 256;
     (Z.b2z l + ty * 2 + n * 8) / 256 / 256 mod 256].
Proof.
  intros Ht Hn. unfold block_header_bytes. change (2 ^ 21) with 2097152 in Hn.
  rewrite (wrap_small 32 n) by (change (2 ^ 32) with 4294967296; lia).
  rewrite !wshl_small by (change (2 ^ 32) with 4294967296; change (2 ^ 1) with 2;
    change (2 ^ 3) with 8; lia).
  rewrite (lor_disjoint_add (Z.b2z l) ty 1) by (destruct l; cbn; lia).
  rewrite (lor_disjoint_add _ n 3) by (change (2 ^ 3) with 8; change (2 ^ 1) with 2; destruct l; cbn; lia).
  reflexivity.
Qed.

Lemma land_1 b : Z.land b 0x1 = b mod 2.
Proof. apply (land_mod b 1). lia. Qed.

Lemma parse_written_header ty code n (l : bool) rest bsm :
  block_type_of code = Ok ty -> ty <> Reserved -> 0 <= code < 4 -> 0 <= n < 2 ^ 21 -> n <= bsm ->
  parse_block_header (block_header_bytes code n l ++ rest) bsm =
    Ok (MkBlock l ty (match ty with Raw | RLE => n | _ => 0 end)
          (match ty with Raw | Compressed => n | RLE => 1 | Reserved => 0 end)).
Proof.
  intros Hty Hnr Hcode Hn Hle. rewrite block_header_value by done.
  set (v := Z.b2z l + code * 2 + n * 8). change (2 ^ 21) with 2097152 in Hn.
  assert (0 <= Z.b2z l <= 1) as Hl by (destruct l; cbn; lia).
  set (b0 := v mod 256). set (b1 := v / 256 mod 256). set (b2 := v / 256 / 256 mod 256).
  rewrite parse_block_header_prefix by done. unfold parse_block_header.
  change (zslice [b0; b1; b2] 0 3) with (Some [b0; b1; b2]). cbn [ok_or mbind res_bind].
  change (idx (E:=DecodeError) [b0; b1; b2] 0) with (Ok (E:=DecodeError) b0).
  change (idx (E:=DecodeError) [b0; b1; b2] 1) with (Ok (E:=DecodeError) b1).
  change (idx (E:=DecodeError) [b0; b1; b2] 2) with (Ok (E:=DecodeError) b2).
  cbn [mbind res_bind].
  assert (is_byte b0 /\ is_byte b1 /\ is_byte b2) as (B0 & B1 & B2).
  { unfold is_byte, b0, b1, b2. Z.to_euclidean_division_equations; lia. }
  assert (Z.land (Z.shiftr b0 1) 3 = code) as ->.
  { rewrite land_3, shiftr_div by lia. unfold b0, v. change (2 ^ 1) with 2.
    Z.to_euclidean_division_equations; lia. }
  rewrite Hty. cbn [mbind res_bind]. rewrite bool_decide_eq_false_2 by done.
  cbn [fail_if mbind res_bind].
  assert (Z.lor (Z.lor (Z.shiftr b0 3) (wshl 32 b1 5)) (wshl 32 b2 13) = n) as ->.
  { rewrite !wshl_byte, shiftr_div by (done || lia). unfold is_byte in *.
    change (2 ^ 3) with 8.
    rewrite (lor_disjoint_add (b0 / 8) b1 5) by (change (2 ^ 5) with 32; Z.to_euclidean_division_equations; lia).
    rewrite lor_disjoint_add by (change (2 ^ 13) with 8192; change (2 ^ 5) with 32;
      Z.to_euclidean_division_equations; lia).
    change (2 ^ 5) with 32. change (2 ^ 13) with 8192. unfold b0, b1, b2, v.
    Z.to_euclidean_division_equations; lia. }
  rewrite (proj2 (Z.ltb_ge _ _)) by lia. cbn [fail_if mbind res_bind]. do 2 f_equal.
  rewrite land_1. apply eq_true_iff_eq. rewrite Z.eqb_eq. unfold b0, v.
  destruct l; cbn [Z.b2z] in *; Z.to_euclidean_division_equations; split; intros; done || lia.
Qed.

(** The bytes of a written block, located. *)
Lemma locate_written code ty n (l : bool) content rest bsm :
  block_type_of code = Ok ty -> ty <> Reserved -> 0 <= code < 4 -> 0 <= n < 2 ^ 21 -> n <= bsm ->
  zlen content = match ty with Raw | Compressed => n | RLE => 1 | Reserved => 0 end ->
  locate_block (block_header_bytes code n l ++ content ++ rest) bsm =
    Ok (Some (MkBlock l ty (match ty with Raw | RLE => n | _ => 0 end) (zlen content), content)).
Proof.
  intros Hty Hnr Hcode Hn Hle Hc. unfold locate_block, BLOCK_HEADER_LEN.
  assert (zlen (block_header_bytes code n l) = 3) as H3 by by rewrite block_header_value.
  assert (zslice (block_header_bytes code n l ++ content ++ rest) 0 3
          = Some (block_header_bytes code n l)) as ->.
  { rewrite zslice_app_l by lia. by rewrite block_header_value. }
  rewrite <- (app_nil_r (block_header_bytes code n l)) at 1.
  rewrite (parse_written_header ty) by done. cbn [content_size]. rewrite <- Hc.
  assert (zslice (block_header_bytes code n l ++ content ++ rest) 3 (3 + zlen content)
          = Some content) as ->; [|done].
  rewrite app_assoc, zslice_app_l by (rewrite zlen_app; lia).
  rewrite block_header_value by done. pose proof (zlen_nonneg content).
  rewrite zslice_ok by (rewrite ?zlen_app; change (zlen [_; _; _]) with 3; lia).
  f_equal. replace (3 + zlen content - 3) with (zlen content) by lia.
  change (zdrop 3 (?a :: ?b :: ?c :: content)) with content.
  unfold ztake, zlen. rewrite Nat2Z.id. apply firstn_all.
Qed.

(** ** Literals header round trips *)

Lemma parse_literals_prefix b0 h rest :
  literals_header_len (literals_type_of (Z.land b0 3)) (Z.land (Z.shiftr b0 2) 3) <= zlen (b0 :: h) ->
  parse_literals_section ((b0 :: h) ++ rest) = parse_literals_section (b0 :: h).
Proof.
  intros Hlen. unfold parse_literals_section.
  change (zget ((b0 :: h) ++ rest) 0) with (Some b0). change (zget (b0 :: h) 0) with (Some b0).
  cbn [ok_or mbind res_bind].
  pose proof (literals_header_len_range (literals_type_of (Z.land b0 3))
    (Z.land (Z.shiftr b0 2) 3)).
  rewrite zslice_app_l by done.
  destruct (zslice_is_Some (b0 :: h) 0 (literals_header_len (literals_type_of (Z.land b0 3))
    (Z.land (Z.shiftr b0 2) 3))) as (s & -> & _); [lia..|]. done.
Qed.

(** The fields of a literals header byte of type [ty], Size_Format [sf] and
    high bits [v]. *)
Lemma literals_first ty sf v : 0 <= ty < 4 -> 0 <= sf < 4 ->
  Z.land (ty + sf * 4 + v * 16) 3 = ty /\
  Z.land (Z.shiftr (ty + sf * 4 + v * 16) 2) 3 = sf.
Proof.
  intros. rewrite !land_3, shiftr_div by lia. change (2 ^ 2) with 4.
  Z.to_euclidean_division_equations; lia.
Qed.

(** Reads at literal indices of lists of variables. *)
Ltac eval_reads :=
  repeat match goal with
  | |- context [@idx ?E ?A (?a :: ?l) ?i] =>
      let r := eval vm_compute in (@idx E A (a :: l) i) in
      change (@idx E A (a :: l) i) with r
  | |- context [@zget ?A (?a :: ?l) ?i] =>
      let r := eval vm_compute in (@zget A (a :: l) i) in
      change (@zget A (a :: l) i) with r
  | |- context [@zslice ?A (?a :: ?l) ?i ?j] =>
      let r := eval vm_compute in (@zslice A (a :: l) i j) in
      change (@zslice A (a :: l) i j) with r
  | |- _ => progress cbn [mbind res_bind ok_or Z.eqb Pos.eqb]
  end.

Lemma plain_header_parse1 ty n rest : ty = LIT_TYPE_RAW \/ ty = LIT_TYPE_RLE -> 0 <= n <= 31 ->
  parse_literals_section (plain_literals_header ty n ++ rest) =
    Ok (MkLits n (if ty =? LIT_TYPE_RLE then 1 else n) (literals_type_of ty) false,
        zlen (plain_literals_header ty n)).
Proof.
  intros Hty Hn.
  assert (0 <= ty < 2) as Ht by (unfold LIT_TYPE_RAW, LIT_TYPE_RLE in Hty; lia).
  unfold plain_literals_header. rewrite (proj2 (Z.leb_le n 31)) by lia.
  rewrite (wrap_small 8) by (change (2 ^ 8) with 256; lia).
  rewrite wshl_small by (change (2 ^ 3) with 8; change (2 ^ 8) with 256; lia).
  rewrite lor_disjoint_add by (change (2 ^ 3) with 8; lia). change (2 ^ 3) with 8.
  set (b0 := ty + n * 8).
  assert (Z.land b0 3 = ty) as H1 by (rewrite land_3; unfold b0; Z.to_euclidean_division_equations; lia).
  assert (Z.land (Z.shiftr b0 2) 3 = 2 * (n mod 2)) as H2.
  { rewrite land_3, shiftr_div by lia. change (2 ^ 2) with 4. unfold b0.
    Z.to_euclidean_division_equations; lia. }
  assert (literals_header_len (literals_type_of ty) (2 * (n mod 2)) = 1) as Hl.
  { assert (n mod 2 = 0 \/ n mod 2 = 1) as [->| ->] by (Z.to_euclidean_division_equations; lia);
    destruct Hty as [->| ->]; done. }
  rewrite parse_literals_prefix by (rewrite H1, H2, Hl; done).
  assert (Z.shiftr b0 3 = n) as H3.
  { rewrite shiftr_div by lia. change (2 ^ 3) with 8. unfold b0.
    Z.to_euclidean_division_equations; lia. }
  clearbody b0. unfold parse_literals_section. change (zget [b0] 0) with (Some b0).
  cbn [ok_or mbind res_bind]. rewrite H1, H2, Hl.
  destruct Hty as [->| ->]; eval_reads; cbn [literals_type_of Z.eqb Pos.eqb]; rewrite H3; done.
Qed.

Lemma plain_header_parse2 ty n rest : ty = LIT_TYPE_RAW \/ ty = LIT_TYPE_RLE -> 31 < n <= 4095 ->
  parse_literals_section (plain_literals_header ty n ++ rest) =
    Ok (MkLits n (if ty =? LIT_TYPE_RLE then 1 else n) (literals_type_of ty) false,
        zlen (plain_literals_header ty n)).
Proof.
  intros Hty Hn.
  assert (0 <= ty < 2) as Ht by (unfold LIT_TYPE_RAW, LIT_TYPE_RLE in Hty; lia).
  unfold plain_literals_header. rewrite (proj2 (Z.leb_gt n 31)), (proj2 (Z.leb_le n 4095)) by lia.
  rewrite (wrap_small 16) by (change (2 ^ 16) with 65536; lia).
  rewrite wshl_small by (change (2 ^ 4) with 16; change (2 ^ 16) with 65536; lia).
  assert (Z.lor (Z.lor ty (Z.shiftl 1 2)) (n * 2 ^ 4) = ty + 1 * 4 + n * 16) as ->.
  { assert (Z.lor ty (Z.shiftl 1 2) = ty + 1 * 4) as -> by (destruct Hty as [->| ->]; reflexivity).
    rewrite (lor_disjoint_add _ n 4) by (change (2 ^ 4) with 16; lia). done. }
  cbn [le_bytes]. set (v := ty + 1 * 4 + n * 16).
  assert (v mod 256 = ty + 1 * 4 + (n mod 16) * 16) as Hv0
    by (unfold v; Z.to_euclidean_division_equations; lia).
  destruct (literals_first ty 1 (n mod 16)) as [H1 H2]; [lia..|]. rewrite <- Hv0 in H1, H2.
  assert (literals_header_len (literals_type_of ty) 1 = 2) as Hl by by destruct Hty as [->| ->].
  rewrite parse_literals_prefix by (rewrite H1, H2, Hl; done).
  assert (Z.shiftr (v mod 256) 4 + wshl 32 (v / 256 mod 256) 4 = n) as H3.
  { rewrite wshl_byte, shiftr_div by (unfold is_byte; Z.to_euclidean_division_equations; lia).
    change (2 ^ 4) with 16. unfold v. Z.to_euclidean_division_equations; lia. }
  revert H1 H2 H3. generalize (v mod 256) (v / 256 mod 256). intros b0 b1 H1 H2 H3.
  unfold parse_literals_section. change (zget [b0; b1] 0) with (Some b0).
  cbn [ok_or mbind res_bind]. rewrite H1, H2, Hl.
  destruct Hty as [->| ->]; eval_reads; cbn [literals_type_of Z.eqb Pos.eqb]; rewrite H3; done.
Qed.

Lemma plain_header_parse3 ty n rest : ty = LIT_TYPE_RAW \/ ty = LIT_TYPE_RLE -> 4095 < n < 1048576 ->
  parse_literals_section (plain_literals_header ty n ++ rest) =
    Ok (MkLits n (if ty =? LIT_TYPE_RLE then 1 else n) (literals_type_of ty) false,
        zlen (plain_literals_header ty n)).
Proof.
  intros Hty Hn.
  assert (0 <= ty < 2) as Ht by (unfold LIT_TYPE_RAW, LIT_TYPE_RLE in Hty; lia).
  unfold plain_literals_header. rewrite (proj2 (Z.leb_gt n 31)), (proj2 (Z.leb_gt n 4095)) by lia.
  rewrite (wrap_small 32) by (change (2 ^ 32) with 4294967296; lia).
  rewrite wshl_small by (change (2 ^ 4) with 16; change (2 ^ 32) with 4294967296; lia).
  assert (Z.lor (Z.lor ty (Z.shiftl 3 2)) (n * 2 ^ 4) = ty + 3 * 4 + n * 16) as ->.
  { assert (Z.lor ty (Z.shiftl 3 2) = ty + 3 * 4) as -> by (destruct Hty as [->| ->]; reflexivity).
    rewrite (lor_disjoint_add _ n 4) by (change (2 ^ 4) with 16; lia). done. }
  change (ztake 3 (le_bytes 4 ?v)) with [v mod 256; v / 256 mod 256; v / 256 / 256 mod 256].
  set (v := ty + 3 * 4 + n * 16).
  assert (v mod 256 = ty + 3 * 4 + (n mod 16) * 16) as Hv0
    by (unfold v; Z.to_euclidean_division_equations; lia).
  destruct (literals_first ty 3 (n mod 16)) as [H1 H2]; [lia..|]. rewrite <- Hv0 in H1, H2.
  assert (literals_header_len (literals_type_of ty) 3 = 3) as Hl by by destruct Hty as [->| ->].
  rewrite parse_literals_prefix by (rewrite H1, H2, Hl; done).
  assert (Z.shiftr (v mod 256) 4 + wshl 32 (v / 256 mod 256) 4
          + wshl 32 (v / 256 / 256 mod 256) 12 = n) as H3.
  { rewrite !wshl_byte, shiftr_div by (unfold is_byte; Z.to_euclidean_division_equations; lia).
    change (2 ^ 4) with 16. change (2 ^ 12) with 4096. unfold v.
    Z.to_euclidean_division_equations; lia. }
  revert H1 H2 H3. generalize (v mod 256) (v / 256 mod 256) (v / 256 / 256 mod 256).
  intros b0 b1 b2 H1 H2 H3.
  unfold parse_literals_section. change (zget [b0; b1; b2] 0) with (Some b0).
  cbn [ok_or mbind res_bind]. rewrite H1, H2, Hl.
  destruct Hty as [->| ->]; eval_reads; cbn [literals_type_of Z.eqb Pos.eqb]; rewrite H3; done.
Qed.

Lemma plain_header_parse ty n rest : ty = LIT_TYPE_RAW \/ ty = LIT_TYPE_RLE -> 0 <= n < 2 ^ 20 ->
  parse_literals_section (plain_literals_header ty n ++ rest) =
    Ok (MkLits n (if ty =? LIT_TYPE_RLE then 1 else n) (literals_type_of ty) false,
        zlen (plain_literals_header ty n)).
Proof.
  intros Hty Hn. change (2 ^ 20) with 1048576 in Hn.
  destruct (Z_le_gt_dec n 31); [apply plain_header_parse1; done || lia|].
  destruct (Z_le_gt_dec n 4095); [apply plain_header_parse2|apply plain_header_parse3]; done || lia.
Qed.

(** The first byte of a Huffman section's header and its parse. *)
Lemma compressed_parse_prefix ty sf x b0 h rest : ty = LIT_TYPE_COMPRESSED \/ ty = LIT_TYPE_TREELESS ->
  0 <= sf < 4 -> b0 = ty + sf * 4 + x * 16 ->
  zlen (b0 :: h) = (if sf <=? 1 then 3 else if sf =? 2 then 4 else 5) ->
  parse_literals_section ((b0 :: h) ++ rest) = parse_literals_section (b0 :: h) /\
  literals_type_of (Z.land b0 3) = literals_type_of ty /\ Z.land (Z.shiftr b0 2) 3 = sf.
Proof.
  intros Hty Hsf -> Hl.
  assert (0 <= ty < 4) as Ht by (unfold LIT_TYPE_COMPRESSED, LIT_TYPE_TREELESS in Hty; lia).
  destruct (literals_first ty sf x Ht Hsf) as [H1 H2]. rewrite H1, H2. split; [|done].
  apply parse_literals_prefix. rewrite H1, H2, Hl.
  assert (sf = 0 \/ sf = 1 \/ sf = 2 \/ sf = 3) as [->|[->|[->| ->]]] by lia;
    destruct Hty as [->| ->]; done.
Qed.

Definition compressed_section (ty n c : Z) (four : bool) : LiteralsSection :=
  MkLits n c (literals_type_of ty) four.

Lemma compressed_header_parse3 ty single n c rest :
  ty = LIT_TYPE_COMPRESSED \/ ty = LIT_TYPE_TREELESS -> 0 <= n < 1024 -> 0 <= c < 1024 ->
  parse_literals_section (compressed_literals_header ty single n c ++ rest) =
    Ok (compressed_section ty n c (negb single), 3).
Proof.
  intros Hty Hn Hc. unfold compressed_literals_header, literals_lh_size.
  rewrite (proj2 (Z.leb_gt 1024 n)), (proj2 (Z.leb_gt 16384 n)) by lia.
  change (3 + Z.b2z false + Z.b2z false =? 3) with true. cbv iota.
  rewrite !(wrap_small 32) by (change (2 ^ 32) with 4294967296; lia).
  rewrite (wshl_small 32 n), (wshl_small 32 c)
    by (change (2 ^ 4) with 16; change (2 ^ 14) with 16384; change (2 ^ 32) with 4294967296; lia).
  set (sf := Z.b2z (negb single)). assert (0 <= sf <= 1) as Hsf by (destruct single; cbn; lia).
  assert (Z.lor ty (wshl 32 sf 2) = ty + sf * 4) as ->
    by (destruct Hty as [->| ->], single; reflexivity).
  assert (0 <= ty < 4) as Ht by (unfold LIT_TYPE_COMPRESSED, LIT_TYPE_TREELESS in Hty; lia).
  rewrite (lor_disjoint_add _ n 4) by (change (2 ^ 4) with 16; lia).
  rewrite (lor_disjoint_add _ c 14) by (change (2 ^ 4) with 16; change (2 ^ 14) with 16384; lia).
  change (2 ^ 4) with 16. change (2 ^ 14) with 16384.
  change (ztake 3 (le_bytes 4 ?v)) with [v mod 256; v / 256 mod 256; v / 256 / 256 mod 256].
  set (v := ty + sf * 4 + n * 16 + c * 16384).
  destruct (compressed_parse_prefix ty sf (n mod 16) (v mod 256) [v / 256 mod 256; v / 256 / 256 mod 256]
    rest Hty ltac:(lia)) as (-> & H1 & H2).
  { unfold v. Z.to_euclidean_division_equations; lia. }
  { by rewrite (proj2 (Z.leb_le sf 1)) by lia. }
  assert (Z.shiftr (v mod 256) 4 + wshl 32 (Z.land (v / 256 mod 256) 63) 4 = n) as H3.
  { rewrite land_3f, wshl_byte, shiftr_div by (unfold is_byte; Z.to_euclidean_division_equations; lia).
    change (2 ^ 4) with 16. unfold v. Z.to_euclidean_division_equations; lia. }
  assert (Z.shiftr (v / 256 mod 256) 6 + wshl 32 (v / 256 / 256 mod 256) 2 = c) as H4.
  { rewrite wshl_byte, shiftr_div by (unfold is_byte; Z.to_euclidean_division_equations; lia).
    change (2 ^ 2) with 4. change (2 ^ 6) with 64. unfold v. Z.to_euclidean_division_equations; lia. }
  revert H1 H2 H3 H4. generalize (v mod 256) (v / 256 mod 256) (v / 256 / 256 mod 256).
  intros b0 b1 b2 H1 H2 H3 H4. clearbody v. unfold parse_literals_section.
  change (zget [b0; b1; b2] 0) with (Some b0). cbn [ok_or mbind res_bind]. rewrite H1, H2.
  unfold sf. destruct Hty as [->| ->], single; cbn [negb Z.b2z];
    cbn [literals_type_of literals_header_len Z.eqb Pos.eqb orb LIT_TYPE_COMPRESSED LIT_TYPE_TREELESS];
    eval_reads; rewrite H3, H4; done.
Qed.

Lemma compressed_header_parse4 ty n c rest :
  ty = LIT_TYPE_COMPRESSED \/ ty = LIT_TYPE_TREELESS -> 1024 <= n < 16384 -> 0 <= c < 16384 ->
  parse_literals_section (compressed_literals_header ty false n c ++ rest) =
    Ok (compressed_section ty n c true, 4).
Proof.
  intros Hty Hn Hc. unfold compressed_literals_header, literals_lh_size.
  rewrite (proj2 (Z.leb_le 1024 n)), (proj2 (Z.leb_gt 16384 n)) by lia.
  change (3 + Z.b2z true + Z.b2z false =? 3) with false.
  change (3 + Z.b2z true + Z.b2z false =? 4) with true. cbv iota.
  rewrite !(wrap_small 32) by (change (2 ^ 32) with 4294967296; lia).
  rewrite (wshl_small 32 n), (wshl_small 32 c)
    by (change (2 ^ 4) with 16; change (2 ^ 18) with 262144; change (2 ^ 32) with 4294967296; lia).
  assert (Z.lor ty (Z.shiftl 2 2) = ty + 2 * 4) as -> by (destruct Hty as [->| ->]; reflexivity).
  assert (0 <= ty < 4) as Ht by (unfold LIT_TYPE_COMPRESSED, LIT_TYPE_TREELESS in Hty; lia).
  rewrite (lor_disjoint_add _ n 4) by (change (2 ^ 4) with 16; lia).
  rewrite (lor_disjoint_add _ c 18) by (change (2 ^ 4) with 16; change (2 ^ 18) with 262144; lia).
  change (2 ^ 4) with 16. change (2 ^ 18) with 262144.
  set (v := ty + 2 * 4 + n * 16 + c * 262144). cbn [le_bytes].
  destruct (compressed_parse_prefix ty 2 (n mod 16) (v mod 256)
    [v / 256 mod 256; v / 256 / 256 mod 256; v / 256 / 256 / 256 mod 256] rest Hty ltac:(lia))
    as (-> & H1 & H2).
  { unfold v. Z.to_euclidean_division_equations; lia. }
  { done. }
  assert (Z.shiftr (v mod 256) 4 + wshl 32 (v / 256 mod 256) 4
          + wshl 32 (Z.land (v / 256 / 256 mod 256) 3) 12 = n) as H3.
  { rewrite land_3, !wshl_byte, shiftr_div
      by (unfold is_byte; Z.to_euclidean_division_equations; lia).
    change (2 ^ 4) with 16. change (2 ^ 12) with 4096. unfold v.
    Z.to_euclidean_division_equations; lia. }
  assert (Z.shiftr (v / 256 / 256 mod 256) 2 + wshl 32 (v / 256 / 256 / 256 mod 256) 6 = c) as H4.
  { rewrite wshl_byte, shiftr_div by (unfold is_byte; Z.to_euclidean_division_equations; lia).
    change (2 ^ 2) with 4. change (2 ^ 6) with 64. unfold v.
    Z.to_euclidean_division_equations; lia. }
  revert H1 H2 H3 H4.
  generalize (v mod 256) (v / 256 mod 256) (v / 256 / 256 mod 256) (v / 256 / 256 / 256 mod 256).
  intros b0 b1 b2 b3 H1 H2 H3 H4. clearbody v. unfold parse_literals_section.
  change (zget [b0; b1; b2; b3] 0) with (Some b0). cbn [ok_or mbind res_bind]. rewrite H1, H2.
  destruct Hty as [->| ->];
    cbn [literals_type_of literals_header_len Z.eqb Pos.eqb orb LIT_TYPE_COMPRESSED LIT_TYPE_TREELESS];
    eval_reads; rewrite H3, H4; done.
Qed.

Lemma compressed_header_parse5 ty n c rest :
  ty = LIT_TYPE_COMPRESSED \/ ty = LIT_TYPE_TREELESS -> 16384 <= n < 262144 -> 0 <= c < 262144 ->
  parse_literals_section (compressed_literals_header ty false n c ++ rest) =
    Ok (compressed_section ty n c true, 5).
Proof.
  intros Hty Hn Hc. unfold compressed_literals_header, literals_lh_size.
  rewrite (proj2 (Z.leb_le 1024 n)), (proj2 (Z.leb_le 16384 n)) by lia.
  change (3 + Z.b2z true + Z.b2z true =? 3) with false.
  change (3 + Z.b2z true + Z.b2z true =? 4) with false. cbv iota.
  rewrite !(wrap_small 32) by (change (2 ^ 32) with 4294967296; lia).
  rewrite (wshl_small 32 n) by (change (2 ^ 4) with 16; change (2 ^ 32) with 4294967296; lia).
  assert (wshl 32 c 22 = (c mod 1024) * 2 ^ 22) as ->.
  { rewrite wshl_div by lia. change (2 ^ 32) with (1024 * 2 ^ 22).
    by rewrite Z.mul_mod_distr_r by done. }
  assert (Z.lor ty (Z.shiftl 3 2) = ty + 3 * 4) as -> by (destruct Hty as [->| ->]; reflexivity).
  assert (0 <= ty < 4) as Ht by (unfold LIT_TYPE_COMPRESSED, LIT_TYPE_TREELESS in Hty; lia).
  rewrite (lor_disjoint_add _ n 4) by (change (2 ^ 4) with 16; lia).
  rewrite (lor_disjoint_add _ _ 22) by (change (2 ^ 4) with 16; change (2 ^ 22) with 4194304; lia).
  change (2 ^ 4) with 16. change (2 ^ 22) with 4194304.
  set (v := ty + 3 * 4 + n * 16 + c mod 1024 * 4194304). cbn [le_bytes app].
  assert (wrap 8 (Z.shiftr c 10) = c / 1024) as ->.
  { rewrite shiftr_div by lia. apply wrap_small. change (2 ^ 10) with 1024. change (2 ^ 8) with 256.
    Z.to_euclidean_division_equations; lia. }
  change (?a :: ?b :: ?x :: ?d :: ([?e] ++ ?r)) with ([a; b; x; d; e] ++ r).
  destruct (compressed_parse_prefix ty 3 (n mod 16) (v mod 256)
    [v / 256 mod 256; v / 256 / 256 mod 256; v / 256 / 256 / 256 mod 256; c / 1024] rest Hty ltac:(lia))
    as (Hpre & H1 & H2).
  { unfold v. Z.to_euclidean_division_equations; lia. }
  { done. }
  cbn [app] in Hpre. cbn [app]. rewrite Hpre.
  assert (Z.shiftr (v mod 256) 4 + wshl 32 (v / 256 mod 256) 4
          + wshl 32 (Z.land (v / 256 / 256 mod 256) 63) 12 = n) as H3.
  { rewrite land_3f, !wshl_byte, shiftr_div
      by (unfold is_byte; Z.to_euclidean_division_equations; lia).
    change (2 ^ 4) with 16. change (2 ^ 12) with 4096. unfold v.
    Z.to_euclidean_division_equations; lia. }
  assert (Z.shiftr (v / 256 / 256 mod 256) 6 + wshl 32 (v / 256 / 256 / 256 mod 256) 2
          + wshl 32 (c / 1024) 10 = c) as H4.
  { rewrite !wshl_byte, shiftr_div by (unfold is_byte; Z.to_euclidean_division_equations; lia).
    change (2 ^ 2) with 4. change (2 ^ 6) with 64. change (2 ^ 10) with 1024. unfold v.
    Z.to_euclidean_division_equations; lia. }
  revert H1 H2 H3 H4. clear Hpre.
  generalize (v mod 256) (v / 256 mod 256) (v / 256 / 256 mod 256) (v / 256 / 256 / 256 mod 256)
    (c / 1024).
  intros b0 b1 b2 b3 b4 H1 H2 H3 H4. clearbody v. unfold parse_literals_section.
  change (zget [b0; b1; b2; b3; b4] 0) with (Some b0). cbn [ok_or mbind res_bind]. rewrite H1, H2.
  destruct Hty as [->| ->];
    cbn [literals_type_of literals_header_len Z.eqb Pos.eqb orb LIT_TYPE_COMPRESSED LIT_TYPE_TREELESS];
    eval_reads; rewrite H3, H4; done.
Qed.

(** ** Sequence count round trip *)

Lemma sequence_count_written nb rest : 0 <= nb < 0x7F00 + 0x10000 ->
  sequence_count (sequence_count_header nb ++ rest) = Ok (nb, zlen (sequence_count_header nb)).
Proof.
  intros Hn. unfold sequence_count_header, LONGNBSEQ.
  destruct (Z.ltb_spec nb 128); [|destruct (Z.ltb_spec nb 0x7F00)].
  - rewrite wrap_small by (change (2 ^ 8) with 256; lia). cbn [app sequence_count].
    destruct (Z.eqb_spec nb 0) as [->|]; [done|]. by rewrite (proj2 (Z.leb_le nb 127)) by lia.
  - rewrite shiftr_div by lia. change (2 ^ 8) with 256.
    rewrite (wrap_small 8 (nb / 256))
      by (change (2 ^ 8) with 256; Z.to_euclidean_division_equations; lia).
    unfold wrap. change (2 ^ 8) with 256. cbn [app sequence_count].
    assert (0 <= nb / 256 < 0x7F) by (Z.to_euclidean_division_equations; lia).
    rewrite (proj2 (Z.eqb_neq _ 0)), (proj2 (Z.leb_gt _ 127)), (proj2 (Z.leb_le _ 254)) by lia.
    do 2 f_equal. replace (nb / 256 + 0x80 - 128) with (nb / 256) by lia.
    rewrite wshl_byte by (unfold is_byte; lia). change (2 ^ 8) with 256.
    Z.to_euclidean_division_equations; lia.
  - rewrite wrap_small by (change (2 ^ 16) with 65536; lia). cbn [le_bytes app sequence_count].
    change (0xFF =? 0) with false. change (0xFF <=? 127) with false.
    change (0xFF <=? 254) with false. cbv iota. do 2 f_equal.
    rewrite wshl_byte by (unfold is_byte; Z.to_euclidean_division_equations; lia).
    change (2 ^ 8) with 256. Z.to_euclidean_division_equations; lia.
Qed.

(** Any Huffman section's header. *)
Lemma compressed_header_parse ty single n c rest : 0 <= n < 2 ^ 18 -> 0 <= c <= n -> (single = true -> n < 1024) ->
  ty = LIT_TYPE_COMPRESSED \/ ty = LIT_TYPE_TREELESS ->
  parse_literals_section (compressed_literals_header ty single n c ++ rest) =
    Ok (MkLits n c (literals_type_of ty) (negb single), literals_lh_size n).
Proof.
  intros Hn Hc Hs Hty. change (2 ^ 18) with 262144 in Hn.
  unfold literals_lh_size. destruct (Z.leb_spec 1024 n) as [Hl|Hl].
  - destruct single; [by specialize (Hs eq_refl); lia|].
    destruct (Z.leb_spec 16384 n); [apply compressed_header_parse5|apply compressed_header_parse4];
      done || lia.
  - rewrite (proj2 (Z.leb_gt 16384 n)) by lia. apply compressed_header_parse3; done || lia.
Qed.

(** The headers' lengths and bytes. *)
Lemma zlen_plain_header ty n : zlen (plain_literals_header ty n) = 1 + Z.b2z (31 <? n) + Z.b2z (4095 <? n).
Proof.
  unfold plain_literals_header. destruct (Z.leb_spec n 31), (Z.ltb_spec 31 n), (Z.ltb_spec 4095 n); try lia; [done| |];
    destruct (Z.leb_spec n 4095); try lia; done.
Qed.

Lemma zlen_compressed_header ty single n c : zlen (compressed_literals_header ty single n c) = literals_lh_size n.
Proof.
  unfold compressed_literals_header, literals_lh_size. destruct (1024 <=? n), (16384 <=? n); done.
Qed.

Lemma bytes_plain_header ty n : ty = LIT_TYPE_RAW \/ ty = LIT_TYPE_RLE -> 0 <= n -> bytes (plain_literals_header ty n).
Proof.
  intros Hty Hn. unfold plain_literals_header. destruct (Z.leb_spec n 31).
  - constructor; [|constructor].
    pose proof (forall_below_spec 32 (fun n => let b0 := Z.lor LIT_TYPE_RAW (wshl 8 (wrap 8 n) 3) in let b1 := Z.lor LIT_TYPE_RLE (wshl 8 (wrap 8 n) 3) in
      (0 <=? b0) && (b0 <? 256) && (0 <=? b1) && (b1 <? 256)) eq_refl n ltac:(lia)) as Hr. cbn beta zeta in Hr. bools.
    unfold is_byte. destruct Hty as [->| ->]; lia.
  - destruct (n <=? 4095); [|apply Forall_take]; apply le_bytes_bytes.
Qed.

Lemma bytes_compressed_header ty single n c : bytes (compressed_literals_header ty single n c).
Proof.
  unfold compressed_literals_header. destruct (_ =? 3); [apply Forall_take; apply le_bytes_bytes|].
  destruct (_ =? 4); [apply le_bytes_bytes|]. apply Forall_app. split; [apply le_bytes_bytes|]. constructor; [|constructor].
  unfold is_byte, wrap. apply Z.mod_pos_bound. done.
Qed.

(** Literals and sequences headers round-trip. What the encoder writes
    at the head of a Raw, RLE, Compressed or Treeless literals section, of
    any size below the format's limits, the decoder parses back to the same
    type, sizes and number of streams, whatever bytes follow, and it takes
    exactly the header's length; so does the sequence count in each of its
    three encodings. *)
Lemma section_headers_roundtrip ty single n c nb rest :
  0 <= n < 2 ^ 18 -> 0 <= c <= n -> (single = true -> n < 1024) ->
  ty = LIT_TYPE_COMPRESSED \/ ty = LIT_TYPE_TREELESS -> 0 <= nb < 0x7F00 + 0x10000 ->
  parse_literals_section (plain_literals_header LIT_TYPE_RAW n ++ rest) =
    Ok (MkLits n n LitRaw false, zlen (plain_literals_header LIT_TYPE_RAW n)) /\
  parse_literals_section (plain_literals_header LIT_TYPE_RLE n ++ rest) =
    Ok (MkLits n 1 LitRLE false, zlen (plain_literals_header LIT_TYPE_RLE n)) /\
  parse_literals_section (compressed_literals_header ty single n c ++ rest) =
    Ok (MkLits n c (literals_type_of ty) (negb single), literals_lh_size n) /\
  sequence_count (sequence_count_header nb ++ rest) = Ok (nb, zlen (sequence_count_header nb)).
Proof.
  intros Hn Hc Hs Hty Hnb. change (2 ^ 18) with 262144 in Hn.
  assert (n < 2 ^ 20) by (change (2 ^ 20) with 1048576; lia).
  split; [apply (plain_header_parse LIT_TYPE_RAW); [by left|lia]|].
  split; [apply (plain_header_parse LIT_TYPE_RLE); [by right|lia]|].
  split; [|by apply sequence_count_written]. by apply compressed_header_parse.
Qed.

(** Blocks round-trip. A block the encoder writes, raw, run-length or
    compressed, last or not, whose size is within the frame's
    Block_Maximum_Size, is located by the decoder at the front of the input,
    with the same type, sizes and last-block flag and with exactly its
    content, whatever follows it. *)
Lemma blocks_roundtrip data byte n l rest bsm :
  zlen data <= bsm -> 0 <= n <= bsm -> bsm <= MAX_BLOCK_SIZE ->
  locate_block (write_raw_block [] data l ++ rest) bsm =
    Ok (Some (MkBlock l Raw (zlen data) (zlen data), data)) /\
  locate_block (write_rle_block [] byte n l ++ rest) bsm =
    Ok (Some (MkBlock l RLE n 1, [byte])) /\
  locate_block (write_compressed_block [] data l ++ rest) bsm =
    Ok (Some (MkBlock l Compressed 0 (zlen data), data)).
Proof.
  unfold MAX_BLOCK_SIZE. intros Hd Hn Hb. pose proof (zlen_nonneg data).
  assert (bsm < 2 ^ 21) by (change (2 ^ 21) with 2097152; lia).
  unfold write_raw_block, write_rle_block, write_compressed_block.
  rewrite !app_nil_l, <- !app_assoc. split; [|split].
  - apply (locate_written BLOCK_TYPE_RAW Raw); done || (unfold BLOCK_TYPE_RAW; lia).
  - apply (locate_written BLOCK_TYPE_RLE RLE); done || (unfold BLOCK_TYPE_RLE; lia).
  - apply (locate_written BLOCK_TYPE_COMPRESSED Compressed); done || (unfold BLOCK_TYPE_COMPRESSED; lia).
Qed.

(** ** Frame header round trip *)

(** The descriptor byte of its fields. *)
Definition descriptor_of (dict_code fcs_code : Z) (checksum single : bool) : Z :=
  Z.lor (Z.lor (Z.lor dict_code (wshl 8 (Z.b2z checksum) 2)) (wshl 8 (Z.b2z single) 5))
    (wshl 8 fcs_code 6).

Lemma small_code c : 0 <= c <= 3 -> c = 0 \/ c = 1 \/ c = 2 \/ c = 3.
Proof. lia. Qed.

Lemma descriptor_fields dc fc ck ss : 0 <= dc <= 3 -> 0 <= fc <= 3 ->
  let d := MkDescriptor (descriptor_of dc fc ck ss) in
  Z.land (descriptor_byte d) 8 = 0 /\ single_segment_flag d = ss /\ content_checksum_flag d = ck /\
  dictionary_id_bytes d = Ok (if dc =? 3 then 4 else dc) /\
  frame_content_size_bytes d =
    Ok (if fc =? 0 then Z.b2z ss else if fc =? 1 then 2 else if fc =? 2 then 4 else 8) /\
  is_byte (descriptor_byte d).
Proof.
  intros Hd Hf.
  destruct (small_code dc Hd) as [->|[->|[->| ->]]], (small_code fc Hf) as [->|[->|[->| ->]]], ck, ss;
    repeat split; done.
Qed.

Lemma zslice_mid {A} (a m r : list A) i j : i = zlen a -> j = zlen a + zlen m ->
  zslice (a ++ m ++ r) i j = Some m.
Proof.
  intros -> ->. pose proof (zlen_nonneg a). pose proof (zlen_nonneg m). pose proof (zlen_nonneg r).
  rewrite zslice_ok by (rewrite ?zlen_app; lia). f_equal.
  replace (zlen a + zlen m - zlen a) with (zlen m) by lia. unfold ztake, zdrop, zlen.
  rewrite !Nat2Z.id, drop_app_length, take_app_length. done.
Qed.

(** A header put together from its fields is parsed into them. *)
Lemma parse_assembled d W D F rest dl fl :
  Z.land d 8 = 0 -> dictionary_id_bytes (MkDescriptor d) = Ok dl ->
  frame_content_size_bytes (MkDescriptor d) = Ok fl ->
  zlen W = Z.b2z (negb (single_segment_flag (MkDescriptor d))) -> zlen D = dl -> zlen F = fl ->
  parse_frame_header ((le_bytes 4 ZSTD_MAGIC ++ [d]) ++ W ++ D ++ F ++ rest) =
    Ok (MkFrameHeader (MkDescriptor d) (default 0 (zget W 0))
          (if fl =? 0 then None else Some (content_size_of F)) (dict_id_of D),
        5 + zlen W + zlen D + zlen F) /\
  frame_header_len ((le_bytes 4 ZSTD_MAGIC ++ [d]) ++ W ++ D ++ F ++ rest) =
    5 + zlen W + zlen D + zlen F.
Proof.
  intros H8 Hd Hf HW HD HF.
  pose proof (zlen_nonneg W). pose proof (zlen_nonneg D). pose proof (zlen_nonneg F).
  assert (zlen (le_bytes 4 ZSTD_MAGIC ++ [d]) = 5) as H5 by done.
  assert (zslice ((le_bytes 4 ZSTD_MAGIC ++ [d]) ++ W ++ D ++ F ++ rest) 0 4 =
          Some (le_bytes 4 ZSTD_MAGIC)) as Hm by by rewrite zslice_app_l.
  assert (zget ((le_bytes 4 ZSTD_MAGIC ++ [d]) ++ W ++ D ++ F ++ rest) 4 = Some d) as H4
    by by rewrite zget_app_l.
  assert (le_val (le_bytes 4 ZSTD_MAGIC) = ZSTD_MAGIC) as Hmagic by by vm_compute.
  split; cycle 1.
  { unfold frame_header_len, FRAME_HEADER_PREFIX_LEN. rewrite zslice_app_l by lia.
    change (zslice (le_bytes 4 ZSTD_MAGIC ++ [d]) 0 5) with (Some (le_bytes 4 ZSTD_MAGIC ++ [d])).
    change (le_bytes 4 ZSTD_MAGIC) with [0x28; 0xB5; 0x2F; 0xFD]. cbn [app].
    change (skippable_magic (le_val [0x28; 0xB5; 0x2F; 0xFD])) with false.
    change (negb (le_val [0x28; 0xB5; 0x2F; 0xFD] =? ZSTD_MAGIC)) with false. cbv iota.
    rewrite Hd, Hf. cbn [unwrap_or_0]. lia. }
  unfold parse_frame_header. rewrite Hm. cbn [ok_or mbind res_bind]. rewrite Hmagic.
  change (skippable_magic ZSTD_MAGIC) with false. rewrite Z.eqb_refl.
  cbn [negb fail_if mbind res_bind]. rewrite H4. cbn [ok_or mbind res_bind]. rewrite H8.
  cbn [negb fail_if mbind res_bind Z.eqb]. rewrite Hd, Hf.
  set (pre := le_bytes 4 ZSTD_MAGIC ++ [d]) in *.
  assert (forall pos, pos = 5 + zlen W -> zslice (pre ++ W ++ D ++ F ++ rest) pos (pos + dl) = Some D) as HsD.
  { intros pos ->. rewrite (app_assoc pre W). apply zslice_mid; rewrite zlen_app; lia. }
  assert (forall pos, pos = 5 + zlen W -> zslice (pre ++ W ++ D ++ F ++ rest) (pos + dl) (pos + dl + fl) = Some F) as HsF.
  { intros pos ->. rewrite (app_assoc pre W), (app_assoc (pre ++ W) D).
    apply zslice_mid; rewrite !zlen_app; lia. }
  destruct (single_segment_flag (MkDescriptor d)); cbn [negb Z.b2z] in HW |- *;
    cbn [map_err mbind res_bind].
  - rewrite (HsD 5), (HsF 5) by lia. cbn [ok_or mbind res_bind].
    destruct W as [|w W']; [|rewrite zlen_cons in HW; pose proof (zlen_nonneg W'); lia].
    change (zget (@nil Z) 0) with (@None Z). cbn [default].
    destruct (Z.eqb_spec fl 0); cbn [negb]; do 2 f_equal; lia.
  - destruct W as [|w [|w' W']]; [done| |rewrite !zlen_cons in HW; pose proof (zlen_nonneg W'); lia].
    assert (zget (pre ++ [w] ++ D ++ F ++ rest) 5 = Some w) as ->.
    { rewrite zget_app_r by lia. rewrite H5. done. }
    cbn [ok_or mbind res_bind]. rewrite (HsD (5 + 1)), (HsF (5 + 1)) by done.
    cbn [ok_or mbind res_bind]. change (zget [w] 0) with (Some w). cbn [default].
    destruct (Z.eqb_spec fl 0); cbn [negb]; do 2 f_equal; rewrite ?HD, ?HF;
      change (zlen [w]) with 1; lia.
Qed.

(** The encoder's Dictionary_ID field. *)
Lemma dict_field_ok did : 0 <= did < 2 ^ 32 ->
  let code := Z.b2z (0 <? did) + Z.b2z (256 <=? did) + Z.b2z (65536 <=? did) in
  let D := if code =? 0 then [] else if code =? 1 then [wrap 8 did]
           else if code =? 2 then le_bytes 2 (wrap 16 did) else le_bytes 4 did in
  0 <= code <= 3 /\ zlen D = (if code =? 3 then 4 else code) /\ dict_id_of D = did.
Proof.
  intros Hd code D. subst code D. change (2 ^ 32) with 4294967296 in Hd.
  destruct (Z.ltb_spec 0 did) as [H0|H0];
    [destruct (Z.leb_spec 256 did) as [H1|H1]; [destruct (Z.leb_spec 65536 did) as [H2|H2]|]|].
  - cbn [Z.b2z]. change (1 + 1 + 1 =? 0) with false. change (1 + 1 + 1 =? 1) with false.
    change (1 + 1 + 1 =? 2) with false. cbv iota. split; [lia|]. split; [done|].
    rewrite dict_id_of_ok by (apply le_bytes_bytes || done). rewrite le_val_le_bytes.
    change (2 ^ (8 * Z.of_nat 4)) with 4294967296. apply Z.mod_small. lia.
  - rewrite (wrap_small 16 did) by (change (2 ^ 16) with 65536; lia).
    cbn [Z.b2z]. change (1 + 1 + 0 =? 0) with false. change (1 + 1 + 0 =? 1) with false.
    change (1 + 1 + 0 =? 2) with true. cbv iota. split; [lia|]. split; [done|].
    rewrite dict_id_of_ok by (apply le_bytes_bytes || done). rewrite le_val_le_bytes.
    change (2 ^ (8 * Z.of_nat 2)) with 65536. apply Z.mod_small. lia.
  - rewrite (proj2 (Z.leb_gt 65536 did)) by lia. rewrite (wrap_small 8 did) by (change (2 ^ 8) with 256; lia).
    cbn [Z.b2z]. change (1 + 0 + 0 =? 0) with false. change (1 + 0 + 0 =? 1) with true. cbv iota.
    split; [lia|]. split; [done|].
    rewrite dict_id_of_ok; [cbn; lia| |done]. constructor; [unfold is_byte; lia|constructor].
  - rewrite (proj2 (Z.leb_gt 256 did)), (proj2 (Z.leb_gt 65536 did)) by lia.
    assert (did = 0) as -> by lia. done.
Qed.

(** The content sizes a frame header of its code writes. *)
Lemma size_field_ok n single : 0 <= n < 2 ^ 64 -> (n < 256 -> single = true) ->
  let code := Z.b2z (256 <=? n) + Z.b2z (65536 + 256 <=? n) + Z.b2z (0xFFFFFFFF <=? n) in
  let F := if code =? 0 then (if single : bool then [wrap 8 n] else [])
           else if code =? 1 then le_bytes 2 (wrap 16 (n - 256))
           else if code =? 2 then le_bytes 4 (wrap 32 n) else le_bytes 8 n in
  0 <= code <= 3 /\
  zlen F = (if code =? 0 then Z.b2z single else if code =? 1 then 2 else if code =? 2 then 4 else 8) /\
  0 < zlen F /\ content_size_of F = n.
Proof.
  intros Hn Hs code F. subst code F. change (2 ^ 64) with 18446744073709551616 in Hn.
  destruct (Z.leb_spec 256 n) as [H0|H0];
    [destruct (Z.leb_spec (65536 + 256) n) as [H1|H1];
      [destruct (Z.leb_spec 0xFFFFFFFF n) as [H2|H2]|]|].
  - cbn [Z.b2z]. change (1 + 1 + 1 =? 0) with false. change (1 + 1 + 1 =? 1) with false.
    change (1 + 1 + 1 =? 2) with false. cbv iota. split; [lia|]. split; [done|]. split; [done|].
    rewrite content_size_of_ok by (apply le_bytes_bytes || done). rewrite le_val_le_bytes.
    change (2 ^ (8 * Z.of_nat 8)) with 18446744073709551616.
    change (zlen (le_bytes 8 n) =? 2) with false. rewrite Z.mod_small by lia. lia.
  - rewrite (wrap_small 32 n) by (change (2 ^ 32) with 4294967296; lia).
    cbn [Z.b2z]. change (1 + 1 + 0 =? 0) with false. change (1 + 1 + 0 =? 1) with false.
    change (1 + 1 + 0 =? 2) with true. cbv iota. split; [lia|]. split; [done|]. split; [done|].
    rewrite content_size_of_ok by (apply le_bytes_bytes || done). rewrite le_val_le_bytes.
    change (2 ^ (8 * Z.of_nat 4)) with 4294967296.
    change (zlen (le_bytes 4 n) =? 2) with false. rewrite Z.mod_small by lia. lia.
  - rewrite (proj2 (Z.leb_gt 0xFFFFFFFF n)) by lia.
    rewrite (wrap_small 16 (n - 256)) by (change (2 ^ 16) with 65536; lia).
    cbn [Z.b2z]. change (1 + 0 + 0 =? 0) with false. change (1 + 0 + 0 =? 1) with true. cbv iota.
    split; [lia|]. split; [done|]. split; [done|].
    rewrite content_size_of_ok by (apply le_bytes_bytes || done). rewrite le_val_le_bytes.
    change (2 ^ (8 * Z.of_nat 2)) with 65536.
    change (zlen (le_bytes 2 (n - 256)) =? 2) with true. rewrite Z.mod_small by lia. lia.
  - rewrite (proj2 (Z.leb_gt (65536 + 256) n)), (proj2 (Z.leb_gt 0xFFFFFFFF n)) by lia.
    rewrite (Hs ltac:(lia)). rewrite (wrap_small 8 n) by (change (2 ^ 8) with 256; lia).
    cbn [Z.b2z]. change (0 + 0 + 0 =? 0) with true. cbv iota.
    split; [lia|]. split; [done|]. split; [done|].
    rewrite content_size_of_ok; [change (zlen [n] =? 2) with false; cbn [le_val]; lia| |done]. constructor; [unfold is_byte; lia|constructor].
Qed.

(** The window of a header the encoder wrote. *)
Definition written_window (content_size : option Z) (window_log : Z) : Z :=
  match content_size with
  | Some n => if n <=? 2 ^ window_log then n else 2 ^ window_log
  | None => 2 ^ window_log
  end.

Lemma window_byte_ok wl : 10 <= wl <= 31 -> wrap 8 (wshl 32 (wl - 10) 3) = (wl - 10) * 8 /\
  is_byte ((wl - 10) * 8).
Proof.
  intros. rewrite wshl_small by (change (2 ^ 3) with 8; change (2 ^ 32) with 4294967296; lia).
  change (2 ^ 3) with 8. rewrite wrap_small by (change (2 ^ 8) with 256; lia).
  split; [done|unfold is_byte; lia].
Qed.

Lemma window_size_written h wl : single_segment_flag (descriptor h) = false ->
  window_descriptor h = (wl - 10) * 8 -> 10 <= wl <= 31 -> window_size h = Ok (2 ^ wl).
Proof.
  intros Hs Hw Hwl. unfold window_size. rewrite Hs, Hw.
  rewrite shiftr_div by lia. change (2 ^ 3) with 8. rewrite Z.div_mul by done.
  assert (Z.land ((wl - 10) * 8) 7 = 0) as ->.
  { replace (Z.land ((wl - 10) * 8) 7) with (((wl - 10) * 8) mod 8) by (symmetry; apply (land_mod _ 3); lia).
    apply Z.mod_mul. done. }
  replace (10 + (wl - 10)) with wl by lia.
  change ZSTD_WINDOWLOG_MAX with 31. rewrite (proj2 (Z.ltb_ge 31 wl)) by lia.
  cbn [fail_if mbind res_bind]. assert (2 ^ wl < 2 ^ 64) by (apply Z.pow_lt_mono_r; lia).
  rewrite wshl_small by lia. rewrite Z.mul_1_l, Z.mul_0_r, Z.add_0_r.
  assert (2 ^ 10 <= 2 ^ wl) as H10 by (apply Z.pow_le_mono_r; lia).
  change MIN_WINDOW_SIZE with (2 ^ 10). by rewrite (proj2 (Z.ltb_ge _ _)) by lia.
Qed.

Lemma window_size_single h n : single_segment_flag (descriptor h) = true ->
  frame_content_size h = Some n -> window_size h = Ok n.
Proof. intros Hs Hn. unfold window_size. by rewrite Hs, Hn. Qed.

Lemma write_frame_header_ok content_size wl ck did rest :
  (forall n, content_size = Some n -> 0 <= n < 2 ^ 64) -> 10 <= wl <= 31 -> 0 <= did < 2 ^ 32 ->
  exists h,
    parse_frame_header (write_frame_header [] content_size wl ck did ++ rest) =
      Ok (h, zlen (write_frame_header [] content_size wl ck did)) /\
    frame_header_len (write_frame_header [] content_size wl ck did ++ rest) =
      zlen (write_frame_header [] content_size wl ck did) /\
    frame_content_size h = content_size /\ Headers.dict_id h = did /\
    content_checksum_flag (descriptor h) = ck /\
    window_size h = Ok (written_window content_size wl).
Proof.
  intros Hsize Hwl Hdid. unfold write_frame_header. rewrite app_nil_l.
  assert (2 ^ 10 <= 2 ^ wl) as H10 by (apply Z.pow_le_mono_r; lia). change (2 ^ 10) with 1024 in H10.
  assert (2 ^ wl < 2 ^ 64) by (apply Z.pow_lt_mono_r; lia).
  rewrite (wshl_small 64 1 wl), Z.mul_1_l by lia.
  pose proof (dict_field_ok did Hdid) as Hdict. cbn zeta in Hdict.
  set (dc := Z.b2z (0 <? did) + _ + _) in *. set (D := if dc =? 0 then [] else _) in *.
  destruct Hdict as (Hdc & HD & HDv).
  set (ss := match content_size with Some size => size <=? 2 ^ wl | None => false end).
  set (fc := match content_size with Some size => _ | None => 0 end).
  set (F := if fc =? 0 then (if ss then _ else []) else _).
  assert (0 <= fc <= 3 /\
    zlen F = (if fc =? 0 then Z.b2z ss else if fc =? 1 then 2 else if fc =? 2 then 4 else 8) /\
    (if zlen F =? 0 then None else Some (content_size_of F)) = content_size) as (Hfc & HF & HFv).
  { destruct content_size as [n|].
    - destruct (size_field_ok n ss (Hsize n eq_refl)) as (H1 & H2 & H3 & H4).
      { intros. unfold ss. apply Z.leb_le. lia. }
      split; [exact H1|]. split; [exact H2|].
      rewrite (proj2 (Z.eqb_neq (zlen F) 0)); [by f_equal|].
      assert (0 < zlen F) as HF0 by exact H3. lia.
    - done. }
  change (Z.lor (Z.lor (Z.lor dc (wshl 8 (Z.b2z ck) 2)) (wshl 8 (Z.b2z ss) 5)) (wshl 8 fc 6))
    with (descriptor_of dc fc ck ss).
  destruct (descriptor_fields dc fc ck ss Hdc Hfc) as (P1 & P2 & P3 & P4 & P5 & _).
  cbn [descriptor_byte] in P1. set (d := descriptor_of dc fc ck ss) in *.
  destruct (window_byte_ok wl Hwl) as [Hw _]. unfold ZSTD_WINDOWLOG_ABSOLUTEMIN. rewrite Hw.
  set (W := if negb ss then [(wl - 10) * 8] else []).
  assert (zlen W = Z.b2z (negb ss)) as HW by (unfold W; by destruct (negb ss)).
  replace (le_bytes 4 ZSTD_MAGIC ++ [d] ++ W ++ D ++ F)
    with ((le_bytes 4 ZSTD_MAGIC ++ [d]) ++ W ++ D ++ F) by by rewrite <- app_assoc.
  rewrite <- !app_assoc. cbn [app].
  destruct (parse_assembled d W D F rest _ _ P1 P4 P5) as [H1 H2];
    [by rewrite P2|exact HD|exact HF|].
  rewrite <- !app_assoc in H1, H2. cbn [app] in H1, H2.
  assert (zlen (le_bytes 4 ZSTD_MAGIC ++ d :: W ++ D ++ F) = 5 + zlen W + zlen D + zlen F) as Hlen.
  { rewrite zlen_app, zlen_cons, !zlen_app. change (zlen (le_bytes 4 ZSTD_MAGIC)) with 4. lia. }
  rewrite Hlen. eexists. split; [exact H1|]. split; [exact H2|].
  rewrite <- HF in *. cbn [frame_content_size Headers.dict_id descriptor].
  split; [exact HFv|]. split; [exact HDv|]. split; [exact P3|].
  unfold written_window. destruct content_size as [n|].
  - destruct (Z.leb_spec n (2 ^ wl)) as [Hle|Hgt].
    + apply window_size_single; cbn [descriptor frame_content_size]; [|exact HFv].
      by rewrite P2.
    + assert (ss = false) as Hss by done.
      apply window_size_written; cbn [descriptor window_descriptor]; [by rewrite P2| |done].
      unfold W. by rewrite Hss.
  - by apply window_size_written.
Qed.

(** C27: Frame headers round-trip. For every content size (known or not),
    window log from 10 to 31, checksum flag and dictionary id, the decoder
    parses the header the encoder writes, whatever follows it: it takes
    exactly the header, [frame_header_len] tells that length in advance, and
    content size, dictionary id and checksum flag come back; the window is
    the content when it fits the encoder's window, and that window
    otherwise. *)
Theorem frame_header_roundtrip content_size wl ck did rest :
  (forall n, content_size = Some n -> 0 <= n < 2 ^ 64) -> 10 <= wl <= 31 -> 0 <= did < 2 ^ 32 ->
  exists h,
    parse_frame_header (write_frame_header [] content_size wl ck did ++ rest) =
      Ok (h, zlen (write_frame_header [] content_size wl ck did)) /\
    frame_header_len (write_frame_header [] content_size wl ck did ++ rest) =
      zlen (write_frame_header [] content_size wl ck did) /\
    frame_content_size h = content_size /\ Headers.dict_id h = did /\
    content_checksum_flag (descriptor h) = ck /\
    window_size h = Ok (written_window content_size wl).
Proof. apply write_frame_header_ok. Qed.

Lemma frame_header_roundtrip_witness : exists h,
  parse_frame_header (write_frame_header [] (Some 1000000) 17 true 300 ++ [1; 2]) = Ok (h, 12) /\
  window_size h = Ok 131072.
Proof.
  assert (forall n, Some 1000000 = Some n -> 0 <= n < 2 ^ 64) as H1
    by (intros n [= <-]; vm_compute; split; congruence).
  destruct (frame_header_roundtrip (Some 1000000) 17 true 300 [1; 2] H1 ltac:(lia)
    ltac:(vm_compute; split; congruence)) as (h & Hp & _ & _ & _ & _ & Hw).
  exists h. split; [exact Hp|exact Hw].
Defined.
