(* ===== verification/SeqTables.v ===== *)
(** * The sequence sections' tables ([src/decode.rs], [FSEScratch])

    The literal length, offset and match length tables a block's sequences
    are decoded with: described by the block, run-length, predefined, kept
    from the block before or a dictionary's. A table in use is always a built
    one ([seq_table_ok]), which is what the decoder's unchecked state lookups
    rely on. *)

From S2P Require Import Prelude Words Constants Errors FseTable FseCounts FseBuild Headers HeaderUnits.

(** [SeqTableSource]. *)
Inductive SeqTableSource := Own | Predefined | FromDict.

(** [SeqTableKind], its name being the table's index. *)
Record SeqTableKind := MkKind {
  max_log : Z;
  max_code : Z;
  default_log : Z;
  default_distribution : list Z;
  base : list Z;
  kind_bits : list Z;
}.

Definition SEQ_TABLES : list SeqTableKind := [
  MkKind LL_MAX_LOG MAX_LITERAL_LENGTH_CODE LL_DEFAULT_ACC_LOG
    LITERALS_LENGTH_DEFAULT_DISTRIBUTION DEC_LL_BASE DEC_LL_BITS;
  MkKind OF_MAX_LOG MAX_OFFSET_CODE OF_DEFAULT_ACC_LOG
    OFFSET_DEFAULT_DISTRIBUTION DEC_OF_BASE DEC_OF_BITS;
  MkKind ML_MAX_LOG MAX_MATCH_LENGTH_CODE ML_DEFAULT_ACC_LOG
    MATCH_LENGTH_DEFAULT_DISTRIBUTION DEC_ML_BASE DEC_ML_BITS
].

(** The table of [PREDEFINED_TABLES] at [t]; its [expect] is [Fault]. *)
Definition predefined_table (t : Z) : dec FSETable :=
  kind ← idx SEQ_TABLES t;
  match build_from_probabilities (FseTable.new (max_code kind)) (default_log kind)
          (default_distribution kind) (Some (base kind, kind_bits kind)) with
  | Ok table => Ok table
  | Err _ | Fault => Fault
  | Stuck => Stuck
  end.

(** [FSEScratch]. *)
Record FSEScratch := MkFse {
  offsets : FSETable;
  literal_lengths : FSETable;
  match_lengths : FSETable;
  fse_source : list SeqTableSource;
}.

(** [FSEScratch::new]. *)
Definition fse_new : FSEScratch :=
  MkFse (FseTable.new MAX_OFFSET_CODE) (FseTable.new MAX_LITERAL_LENGTH_CODE)
    (FseTable.new MAX_MATCH_LENGTH_CODE) [Own; Own; Own].

(** [FSEScratch::reset]. *)
Definition fse_reset (s : FSEScratch) : FSEScratch :=
  MkFse (FseTable.reset (offsets s)) (FseTable.reset (literal_lengths s))
    (FseTable.reset (match_lengths s)) [Own; Own; Own].

(** [FSEScratch::own]. *)
Definition own (s : FSEScratch) (t : Z) : FSETable :=
  if t =? 0 then literal_lengths s else if t =? 1 then offsets s else match_lengths s.

(** A write through [FSEScratch::own_mut]. *)
Definition set_own (s : FSEScratch) (t : Z) (table : FSETable) : FSEScratch :=
  if t =? 0 then MkFse (offsets s) table (match_lengths s) (fse_source s)
  else if t =? 1 then MkFse table (literal_lengths s) (match_lengths s) (fse_source s)
  else MkFse (offsets s) (literal_lengths s) table (fse_source s).

(** [scratch.source[t] = src]. *)
Definition set_source (s : FSEScratch) (t : Z) (src : SeqTableSource) : dec FSEScratch :=
  l ← store (fse_source s) t src;
  Ok (MkFse (offsets s) (literal_lengths s) (match_lengths s) l).

(** [FSEScratch::table]; its [unreachable!] is [Fault]. *)
Definition table (s : FSEScratch) (t : Z) (dict : option FSEScratch) : dec FSETable :=
  src ← idx (fse_source s) t;
  match src, dict with
  | Own, _ => Ok (own s t)
  | Predefined, _ => predefined_table t
  | FromDict, Some d => Ok (own d t)
  | FromDict, None => Fault
  end.

(** [FSEScratch::tables]. *)
Definition tables (s : FSEScratch) (dict : option FSEScratch) : dec (FSETable * FSETable * FSETable) :=
  a ← table s 0 dict; b ← table s 1 dict; c ← table s 2 dict; Ok (a, b, c).

(** [FSEScratch::repeatable]. *)
Definition repeatable (s : FSEScratch) (t : Z) : dec bool :=
  src ← idx (fse_source s) t;
  match src with
  | Own => cells ← FseTable.decode (own s t); Ok (negb (is_empty cells))
  | _ => Ok true
  end.

(** [build_sequence_table]. *)
Definition build_sequence_table (mode : ModeType) (source : list Z) (scratch : FSEScratch) (t : Z)
    : dec (FSEScratch * Z) :=
  kind ← idx SEQ_TABLES t;
  match mode with
  | MFSECompressed =>
      scratch ← set_source scratch t Own;
      '(table, n) ← build_decoder (own scratch t) source (max_log kind)
                      (Some (base kind, kind_bits kind));
      Ok (set_own scratch t table, n)
  | MRLE =>
      code ← ok_or (ERleTableByte t) (zget source 0);
      _ ← fail_if (max_code kind <? code) (ERleTableCode t code);
      scratch ← set_source scratch t Own;
      table ← build_rle (own scratch t) code (base kind) (kind_bits kind);
      Ok (set_own scratch t table, 1)
  | MPredefined =>
      scratch ← set_source scratch t Predefined;
      Ok (scratch, 0)
  | MRepeat =>
      r ← repeatable scratch t;
      _ ← fail_if (negb r) (ERepeatWithoutTable t);
      Ok (scratch, 0)
  end.

(** [build_sequence_tables]. *)
Definition build_sequence_tables (section : SequencesHeader) (source : list Z) (scratch : FSEScratch)
    : dec (FSEScratch * Z) :=
  ms ← all_modes (modes section);
  foldM (fun '(scratch, bytes_read) '(t, mode) =>
    rest ← slice_from source bytes_read;
    '(scratch, n) ← build_sequence_table mode rest scratch t;
    Ok (scratch, bytes_read + n)) (scratch, 0) (enumerate ms).

Definition SHORT_OFFSET_SHARE_MIN : Z := 32.

(** [short_offset_share]. *)
Definition short_offset_share (table : FSETable) : dec Z :=
  short ← (if accuracy_log table =? 0 then
             cells ← FseTable.decode table;
             Ok (match zget cells 0 with
                 | Some e => Z.b2z ((2 <=? extra_bits e) && (extra_bits e <=? 4))
                 | None => 0
                 end)
           else
             Ok (foldr Z.add 0 (Z.abs <$> zdrop 2 (ztake 5 (symbol_probabilities table)))));
  _ ← rassert (accuracy_log table <=? OF_MAX_LOG);
  Ok (wshl 64 short (OF_MAX_LOG - accuracy_log table)).

(** ** What a table in use is *)

(** The cell of a code of [kind], with its transition inside [2 ^ log]. *)
Definition seq_cell_ok (kind : SeqTableKind) (log : Z) (e : FSEEntry) : Prop :=
  0 <= num_bits e <= log /\ 0 <= next_state e /\ next_state e + 2 ^ num_bits e <= 2 ^ log /\
  exists code, 0 <= code <= max_code kind /\
    zget (base kind) code = Some (base_value e) /\ zget (kind_bits kind) code = Some (extra_bits e).

(** A built table of [kind]. *)
Record seq_table_ok (kind : SeqTableKind) (t : FSETable) : Prop := {
  st_log : 0 <= accuracy_log t <= max_log kind;
  st_size : size t = 2 ^ accuracy_log t;
  st_cap : size t <= zlen (cells t);
  st_cell : forall i, 0 <= i < size t ->
    exists e, zget (cells t) i = Some e /\ seq_cell_ok kind (accuracy_log t) e;
}.

(** The scratch's own table of [kind]: one that was built, or none. *)
Definition own_ok (kind : SeqTableKind) (t : FSETable) : Prop :=
  max_symbol t = max_code kind /\ 0 <= size t <= zlen (cells t) /\
  (size t = 0 \/ seq_table_ok kind t).

(** Every table in use that is not the scratch's own is built. *)
Record fse_wf (dict : option FSEScratch) (s : FSEScratch) : Prop := {
  fs_sources : zlen (fse_source s) = 3;
  fs_own : forall t kind, zget SEQ_TABLES t = Some kind -> own_ok kind (own s t);
  fs_dict : forall t kind, zget (fse_source s) t = Some FromDict -> zget SEQ_TABLES t = Some kind ->
    exists d, dict = Some d /\ seq_table_ok kind (own d t);
}.

(** ** Proofs *)

Lemma seq_kind t kind : zget SEQ_TABLES t = Some kind ->
  (t = 0 \/ t = 1 \/ t = 2) /\ 0 <= max_code kind <= 255 /\ max_log kind <= FSE_MAX_TABLE_LOG /\
  0 <= max_log kind /\
  codes_cover (Some (base kind, kind_bits kind)) (max_code kind + 1).
Proof.
  intros Hk. pose proof (zget_lt _ _ _ Hk) as Hr. change (zlen SEQ_TABLES) with 3 in Hr.
  assert (t = 0 \/ t = 1 \/ t = 2) as Ht by lia. split; [done|].
  destruct Ht as [->|[->| ->]]; injection Hk as <-; repeat split; vm_compute; congruence.
Qed.

Lemma kind_base_len t kind : zget SEQ_TABLES t = Some kind -> zlen (base kind) = max_code kind + 1.
Proof.
  intros Hk. destruct (seq_kind t kind Hk) as ([->|[->| ->]] & _); by injection Hk as <-.
Qed.

Lemma built_seq_table t kind ms log counts tb syms : zget SEQ_TABLES t = Some kind ->
  tiles ms log counts -> ms <= 255 -> log <= max_log kind ->
  built (Some (base kind, kind_bits kind)) log counts tb syms -> seq_table_ok kind tb.
Proof.
  intros Hk Ht Hms Hlog Hb. pose proof (built_states _ _ _ _ _ _ Ht Hms Hb) as Hst.
  pose proof Hb as [Hsz Hl Hcnt Hcap Hsp Hcell]. destruct Ht as [_ _ _ Htl].
  unfold ACC_LOG_OFFSET in Htl. split.
  - lia.
  - by rewrite Hl.
  - lia.
  - rewrite Hsz, Hl. intros i Hi. destruct (Hst i Hi) as (e & He & Hnb & Hns & Hle).
    exists e. split; [done|]. split; [done|]. split; [done|]. split; [done|].
    rewrite <- (spread_len _ _ _ Hsp) in Hi. destruct (zget_is_Some _ _ Hi) as [s Hs].
    destruct (Hcell i s Hs) as (e' & He' & _ & _ & Hbase & Hbits).
    rewrite He in He'. injection He' as <-.
    exists s. pose proof (zget_lt _ _ _ Hbase) as Hlt. rewrite (kind_base_len t kind Hk) in Hlt.
    split; [lia|done].
Qed.

Lemma predefined_ok t kind : zget SEQ_TABLES t = Some kind ->
  exists tb, predefined_table t = Ok tb /\ seq_table_ok kind tb.
Proof.
  intros Hk. destruct (seq_kind t kind Hk) as (Ht & Hc & Hml & Hml0 & Hcov).
  unfold predefined_table. rewrite (idx_ok _ _ _ Hk). cbn [mbind res_bind].
  pose proof (build_from_probabilities_safe (FseTable.new (max_code kind)) (default_log kind)
    (default_distribution kind) (Some (base kind, kind_bits kind)) Hc Hcov) as Hs.
  assert (is_ok (build_from_probabilities (FseTable.new (max_code kind)) (default_log kind)
    (default_distribution kind) (Some (base kind, kind_bits kind))) = true) as Hok.
  { destruct Ht as [->|[->| ->]]; injection Hk as <-; by vm_compute. }
  destruct (build_from_probabilities _ _ _ _) as [tb| | |]; try done.
  exists tb. split; [done|]. destruct Hs as (Htl & _ & syms & Hb).
  eapply built_seq_table; [done|done|lia| |done].
  destruct Ht as [->|[->| ->]]; injection Hk as <-; vm_compute; congruence.
Qed.

Lemma zlen_vresize_table {A} (l : list A) n x : 0 <= n -> zlen (vresize l n x) = n.
Proof. intros. by apply zlen_vresize. Qed.

Lemma build_rle_ok t kind tb code : zget SEQ_TABLES t = Some kind -> max_symbol tb = max_code kind ->
  0 <= code <= max_code kind ->
  returns (fun tb' => max_symbol tb' = max_code kind /\ size tb' = 1 /\ seq_table_ok kind tb')
    (build_rle tb code (base kind) (kind_bits kind)).
Proof.
  intros Hk Hms Hcode. destruct (seq_kind t kind Hk) as (_ & _ & _ & Hml0 & Hb1 & Hb2).
  unfold build_rle.
  destruct (zget_is_Some (kind_bits kind) code ltac:(lia)) as [x Hx].
  destruct (zget_is_Some (base kind) code ltac:(lia)) as [b Hb].
  rewrite (idx_ok _ _ _ Hx), (idx_ok _ _ _ Hb). cbn [mbind res_bind].
  assert (zlen (vresize (cells (FseTable.reset tb)) FSE_MAX_TABLE_SIZE entry_default) = 512) as Hl.
  { by rewrite zlen_vresize_table. }
  rewrite store_ok by lia. cbn [mbind res_bind]. split; [done|]. split; [done|].
  split; cbn [accuracy_log size cells FseTable.reset].
  - lia.
  - done.
  - rewrite zlen_zset. cbn in Hl. rewrite Hl. lia.
  - intros i Hi. assert (i = 0) as -> by lia. rewrite zget_zset_eq by (cbn in Hl; rewrite Hl; lia).
    eexists. split; [done|]. unfold seq_cell_ok. cbn. split; [lia|]. split; [lia|]. split; [lia|].
    by exists code.
Qed.

(** [t] is in use: the table blocks decode with is built. *)
Definition in_use (dict : option FSEScratch) (s : FSEScratch) (t : Z) (kind : SeqTableKind) : Prop :=
  exists tb, table s t dict = Ok tb /\ seq_table_ok kind tb.

Lemma in_use_intro dict s t kind src : fse_wf dict s -> zget SEQ_TABLES t = Some kind ->
  zget (fse_source s) t = Some src -> (src = Own -> size (own s t) <> 0) -> in_use dict s t kind.
Proof.
  intros [Hl Ho Hd] Hk Hsrc Hown. unfold in_use, table. rewrite (idx_ok _ _ _ Hsrc).
  cbn [mbind res_bind]. destruct src.
  - destruct (Ho t kind Hk) as (_ & _ & [H0|Hok]); [by specialize (Hown eq_refl)|]. by eexists.
  - by apply predefined_ok.
  - destruct (Hd t kind Hsrc Hk) as (d & -> & Hok). by eexists.
Qed.

Lemma in_use_ext dict s s' t kind : own s' t = own s t ->
  zget (fse_source s') t = zget (fse_source s) t -> in_use dict s t kind -> in_use dict s' t kind.
Proof.
  unfold in_use, table, idx. intros Ho Hs. rewrite Ho, Hs. done.
Qed.

Lemma own_set_own s t tb t' : (t = 0 \/ t = 1 \/ t = 2) -> (t' = 0 \/ t' = 1 \/ t' = 2) ->
  own (set_own s t tb) t' = if t' =? t then tb else own s t'.
Proof. by intros [->|[->| ->]] [->|[->| ->]]. Qed.

Lemma set_own_source s t tb : fse_source (set_own s t tb) = fse_source s.
Proof. unfold set_own. by destruct (t =? 0), (t =? 1). Qed.

Lemma seq_index t : 0 <= t < 3 -> exists kind, zget SEQ_TABLES t = Some kind.
Proof. intros. apply zget_is_Some. done. Qed.

Lemma set_source_ok s t src : zlen (fse_source s) = 3 -> 0 <= t < 3 ->
  returns (fun s' => (forall u, own s' u = own s u) /\ zlen (fse_source s') = 3 /\
      forall u, zget (fse_source s') u = if decide (u = t) then Some src else zget (fse_source s) u)
    (set_source s t src).
Proof.
  intros Hl Ht. unfold set_source. rewrite store_ok by lia. cbn [mbind res_bind returns fse_source].
  split; [done|]. rewrite zlen_zset. split; [done|]. intros u.
  destruct (decide (u = t)) as [->|]; [by rewrite zget_zset_eq by lia|].
  rewrite zget_zset_ne; [done|lia|congruence].
Qed.

(** What one step keeps of the scratch. *)
Definition same_but (t : Z) (s s' : FSEScratch) : Prop :=
  forall u, 0 <= u < 3 -> u <> t -> own s' u = own s u /\ zget (fse_source s') u = zget (fse_source s) u.

(** Table [t] replaced by a built one of its own, or by another source. *)
Lemma fse_wf_step dict s s' t kind : fse_wf dict s -> zget SEQ_TABLES t = Some kind ->
  zlen (fse_source s') = 3 -> same_but t s s' -> own_ok kind (own s' t) ->
  (zget (fse_source s') t = Some FromDict -> zget (fse_source s) t = Some FromDict) ->
  fse_wf dict s'.
Proof.
  intros [Hl Ho Hd] Hk Hl' Hsame Hown Hsrc. split; [done|..].
  - intros u ku Hu. pose proof (zget_lt _ _ _ Hu) as Hr. change (zlen SEQ_TABLES) with 3 in Hr.
    destruct (decide (u = t)) as [->|Hne].
    + rewrite Hk in Hu. by injection Hu as <-.
    + destruct (Hsame u Hr Hne) as [-> _]. by apply Ho.
  - intros u ku Hu Hku. pose proof (zget_lt _ _ _ Hku) as Hr. change (zlen SEQ_TABLES) with 3 in Hr.
    destruct (decide (u = t)) as [->|Hne].
    + apply Hd; [by apply Hsrc|done].
    + destruct (Hsame u Hr Hne) as [_ Heq]. rewrite Heq in Hu. by apply Hd.
Qed.

Lemma own_ok_reset kind t : own_ok kind t -> own_ok kind (FseTable.reset t).
Proof.
  intros (Hm & Hs & _). split; [done|]. cbn. pose proof (zlen_nonneg (cells t)).
  split; [lia|by left].
Qed.

Lemma seq_table_own_ok kind t : max_symbol t = max_code kind -> seq_table_ok kind t -> own_ok kind t.
Proof.
  intros Hm Ht. split; [done|]. split; [|by right]. destruct Ht as [Hl Hs Hc _].
  pose proof (pow2_pos (accuracy_log t)). lia.
Qed.

Lemma repeatable_ok dict s t kind : fse_wf dict s -> zget SEQ_TABLES t = Some kind ->
  returns (fun r : bool => r = true -> in_use dict s t kind) (repeatable s t).
Proof.
  intros Hwf Hk. pose proof Hwf as [Hl Ho _]. pose proof (zget_lt _ _ _ Hk) as Hr.
  change (zlen SEQ_TABLES) with 3 in Hr. unfold repeatable.
  destruct (zget_is_Some (fse_source s) t ltac:(lia)) as [src Hsrc].
  rewrite (idx_ok _ _ _ Hsrc). cbn [mbind res_bind].
  destruct (Ho t kind Hk) as (_ & Hsz & _). destruct src.
  - unfold FseTable.decode. rewrite slice_ok by lia. cbn [mbind res_bind returns]. intros Hne.
    apply (in_use_intro dict s t kind Own); [done..|]. intros _ H0. rewrite H0 in Hne. done.
  - cbn. intros _. by apply (in_use_intro dict s t kind Predefined).
  - cbn. intros _. by apply (in_use_intro dict s t kind FromDict).
Qed.

(** A step that builds the scratch's own table. *)
Lemma built_step dict s s' t kind tb n len : fse_wf dict s -> zget SEQ_TABLES t = Some kind ->
  (forall u, own s' u = own s u) -> zlen (fse_source s') = 3 ->
  (forall u, zget (fse_source s') u = if decide (u = t) then Some Own else zget (fse_source s) u) ->
  max_symbol tb = max_code kind -> seq_table_ok kind tb -> 0 <= n <= len ->
  fse_wf dict (set_own s' t tb) /\ 0 <= n <= len /\ same_but t s (set_own s' t tb) /\
  in_use dict (set_own s' t tb) t kind.
Proof.
  intros Hwf Hk Hown Hl Hsrc Hm Hok Hn.
  destruct (seq_kind t kind Hk) as (Ht3 & _).
  assert (own (set_own s' t tb) t = tb) as Hot by (rewrite own_set_own by done; by rewrite Z.eqb_refl).
  assert (zget (fse_source (set_own s' t tb)) t = Some Own) as Hst.
  { rewrite set_own_source, Hsrc. by rewrite decide_True. }
  assert (same_but t s (set_own s' t tb)) as Hsame.
  { intros u Hu Hne. rewrite own_set_own by (done || lia). rewrite (proj2 (Z.eqb_neq u t)) by done.
    split; [apply Hown|]. rewrite set_own_source, Hsrc. by rewrite decide_False. }
  assert (fse_wf dict (set_own s' t tb)) as Hwf'.
  { apply (fse_wf_step dict s _ t kind); try done.
    - by rewrite set_own_source.
    - rewrite Hot. by apply seq_table_own_ok.
    - by rewrite Hst. }
  split; [done|]. split; [done|]. split; [done|].
  apply (in_use_intro dict _ t kind Own); [done..|]. intros _. rewrite Hot.
  destruct Hok as [Hlog Hs _ _]. pose proof (pow2_pos (accuracy_log tb)). lia.
Qed.

Lemma build_sequence_table_safe dict s mode source t kind :
  fse_wf dict s -> zget SEQ_TABLES t = Some kind -> bytes source ->
  safe (fun '(s', n) => fse_wf dict s' /\ 0 <= n <= zlen source /\ same_but t s s' /\
          in_use dict s' t kind) (build_sequence_table mode source s t).
Proof.
  intros Hwf Hk Hb. pose proof Hwf as [Hl Ho Hd]. pose proof (zget_lt _ _ _ Hk) as Hr.
  change (zlen SEQ_TABLES) with 3 in Hr.
  destruct (seq_kind t kind Hk) as (Ht3 & Hc & Hml & Hml0 & Hcov).
  pose proof (zlen_nonneg source). destruct (Ho t kind Hk) as (Hms & Hsz & Hor).
  unfold build_sequence_table. rewrite (idx_ok _ _ _ Hk). cbn [mbind res_bind]. destruct mode.
  - eapply safe_bind; [apply returns_safe, (set_source_ok s t Predefined); lia|].
    intros s' (Hown & Hl' & Hsrc). cbn.
    assert (zget (fse_source s') t = Some Predefined) as Hst by (rewrite Hsrc; by rewrite decide_True).
    assert (same_but t s s') as Hsame.
    { intros u Hu Hne. split; [done|]. rewrite Hsrc. by rewrite decide_False. }
    assert (fse_wf dict s') as Hwf'.
    { apply (fse_wf_step dict s s' t kind); try done; [|by rewrite Hst]. rewrite Hown. by apply Ho. }
    split; [done|]. split; [lia|]. split; [done|]. by apply (in_use_intro dict s' t kind Predefined).
  - apply safe_ok_or. intros code Hcode. apply safe_fail_if. intros Hle. bools.
    eapply safe_bind; [apply returns_safe, (set_source_ok s t Own); lia|].
    intros s' (Hown & Hl' & Hsrc).
    pose proof (Forall_zget _ _ _ _ Hb Hcode) as Hbyte. unfold is_byte in Hbyte.
    pose proof (zget_lt _ _ _ Hcode).
    eapply safe_bind; [apply returns_safe, (build_rle_ok t kind (own s' t) code Hk)|].
    { by rewrite Hown. }
    { lia. }
    intros tb (Hm & H1 & Hok). cbn.
    apply (built_step dict s s' t kind tb 1 (zlen source)); done || lia.
  - eapply safe_bind; [apply returns_safe, (set_source_ok s t Own); lia|].
    intros s' (Hown & Hl' & Hsrc).
    eapply safe_bind; [apply (build_decoder_safe (own s' t) source (max_log kind)
      (Some (base kind, kind_bits kind))); rewrite ?Hown, ?Hms; done|].
    intros [tb n] [(log & counts & syms & Hn & Hlog & Htl & Hbt) Hm]. cbn in *.
    rewrite Hown, Hms in Htl, Hm.
    assert (seq_table_ok kind tb) as Hok by (eapply built_seq_table; done || lia).
    apply (built_step dict s s' t kind tb n (zlen source)); done || lia.
  - eapply safe_bind; [by apply returns_safe, repeatable_ok|]. intros r Hrep.
    apply safe_fail_if. intros Hneg. bools. cbn. split; [done|]. split; [lia|].
    split; [done|]. by apply Hrep.
Qed.

(** The three tables blocks decode with, each a built one of its kind. *)
Definition tables_ready (dict : option FSEScratch) (s : FSEScratch) : Prop :=
  exists ll off ml, tables s dict = Ok (ll, off, ml) /\
    (forall kind, zget SEQ_TABLES 0 = Some kind -> seq_table_ok kind ll) /\
    (forall kind, zget SEQ_TABLES 1 = Some kind -> seq_table_ok kind off) /\
    (forall kind, zget SEQ_TABLES 2 = Some kind -> seq_table_ok kind ml).

(** One turn of [build_sequence_tables]. *)
Lemma build_turn_safe dict s mode source n t : fse_wf dict s -> 0 <= t < 3 -> bytes source ->
  0 <= n <= zlen source ->
  safe (fun '(s', n') => fse_wf dict s' /\ 0 <= n' <= zlen source /\ same_but t s s' /\
          forall kind, zget SEQ_TABLES t = Some kind -> in_use dict s' t kind)
    (rest ← slice_from source n;
     '(scratch, k) ← build_sequence_table mode rest s t;
     Ok (scratch, n + k)).
Proof.
  intros Hwf Ht Hb Hn. rewrite slice_from_ok by lia. cbn [mbind res_bind].
  destruct (seq_index t Ht) as [kind Hk].
  eapply safe_bind; [apply (build_sequence_table_safe dict s mode (zdrop n source) t kind);
    [done|done|by apply Forall_drop]|].
  intros [s' k] (Hwf' & Hk' & Hsame & Huse). rewrite zlen_zdrop in Hk' by lia. cbn.
  split; [done|]. split; [lia|]. split; [done|]. intros kind' Hk2. rewrite Hk in Hk2.
  by injection Hk2 as <-.
Qed.

Lemma in_use_same dict s s' t kind u : same_but t s s' -> 0 <= u < 3 -> u <> t ->
  in_use dict s u kind -> in_use dict s' u kind.
Proof. intros Hsame Hu Hne. destruct (Hsame u Hu Hne). by apply in_use_ext. Qed.

Lemma build_sequence_tables_safe dict s section source :
  fse_wf dict s -> sequences_header_ok section -> bytes source ->
  safe (fun '(s', n) => fse_wf dict s' /\ 0 <= n <= zlen source /\ tables_ready dict s')
    (build_sequence_tables section source s).
Proof.
  intros Hwf [_ Hm] Hb. unfold build_sequence_tables.
  destruct (all_modes_ok (modes section) Hm) as (a & b & c & ->). cbn [mbind res_bind].
  change (enumerate [a; b; c]) with [(0, a); (1, b); (2, c)]. cbn [foldM].
  pose proof (zlen_nonneg source).
  eapply safe_bind; [apply (build_turn_safe dict s a source 0 0); done || lia|].
  intros [s1 n1] (Hwf1 & Hn1 & _ & U0).
  eapply safe_bind; [apply (build_turn_safe dict s1 b source n1 1); done || lia|].
  intros [s2 n2] (Hwf2 & Hn2 & Hs2 & U1).
  eapply safe_bind; [apply (build_turn_safe dict s2 c source n2 2); done || lia|].
  intros [s3 n3] (Hwf3 & Hn3 & Hs3 & U2). cbn. split; [done|]. split; [done|].
  destruct (seq_index 0 ltac:(lia)) as [k0 E0]. destruct (seq_index 1 ltac:(lia)) as [k1 E1].
  destruct (seq_index 2 ltac:(lia)) as [k2 E2].
  destruct (in_use_same dict s2 s3 2 k0 0 Hs3 ltac:(lia) ltac:(lia)
    (in_use_same dict s1 s2 1 k0 0 Hs2 ltac:(lia) ltac:(lia) (U0 k0 E0))) as (ll & Hll & Ok0).
  destruct (in_use_same dict s2 s3 2 k1 1 Hs3 ltac:(lia) ltac:(lia) (U1 k1 E1)) as (off & Hoff & Ok1).
  destruct (U2 k2 E2) as (ml & Hml & Ok2).
  exists ll, off, ml. unfold tables. rewrite Hll, Hoff, Hml. cbn [mbind res_bind].
  split; [done|]. split; [|split]; intros kind Hk; congruence.
Qed.

Lemma own_new_ok ms kind : max_code kind = ms -> own_ok kind (FseTable.new ms).
Proof. intros <-. split; [done|]. split; [done|by left]. Qed.

Lemma fse_new_wf dict : fse_wf dict fse_new.
Proof.
  split; [done|..].
  - intros t kind Hk. destruct (seq_kind t kind Hk) as ([->|[->| ->]] & _); injection Hk as <-;
      by apply own_new_ok.
  - intros t kind Hs Hk. destruct (seq_kind t kind Hk) as ([->|[->| ->]] & _); done.
Qed.

Lemma fse_reset_wf dict dict' s : fse_wf dict s -> fse_wf dict' (fse_reset s).
Proof.
  intros [Hl Ho _]. split; [done|..].
  - intros t kind Hk. pose proof (own_ok_reset kind _ (Ho t kind Hk)) as H.
    destruct (seq_kind t kind Hk) as ([->|[->| ->]] & _); exact H.
  - intros t kind Hs Hk. destruct (seq_kind t kind Hk) as ([->|[->| ->]] & _); done.
Qed.

(** C28: The tables of a sequences section are always built ones. For every
    parsed header, table bytes and scratch that earlier blocks or a
    dictionary left, building the section's tables never panics, reads at
    most the input, and when it succeeds each of the three tables the block
    decodes with (described, run-length, predefined, repeated or a
    dictionary's) has [2 ^ accuracy_log] cells whose transitions stay inside
    it and whose base values and extra bits are those of a code: exactly what
    the unchecked lookups of the sequence decoder assume. A Repeat mode
    without a previous table is refused, and predefined tables always build. *)
Theorem sequence_tables_sound dict s section source :
  fse_wf dict s -> sequences_header_ok section -> bytes source ->
  match build_sequence_tables section source s with
  | Ok (s', n) => fse_wf dict s' /\ 0 <= n <= zlen source /\ tables_ready dict s'
  | Err _ => True
  | Fault | Stuck => False
  end.
Proof.
  intros Hwf Hh Hb. pose proof (build_sequence_tables_safe dict s section source Hwf Hh Hb) as H.
  by destruct (build_sequence_tables _ _ _) as [[s' n]| | |].
Qed.

Lemma sequence_tables_sound_witness : exists s' n,
  build_sequence_tables (MkSeqHeader 3 (MkModes 0x44)) [5; 7; 9] fse_new = Ok (s', n) /\
  tables_ready None s'.
Proof.
  assert (fse_wf None fse_new) as Hwf by apply fse_new_wf.
  assert (sequences_header_ok (MkSeqHeader 3 (MkModes 0x44))) as Hh
    by (split; vm_compute; split; congruence).
  assert (bytes [5; 7; 9]) as Hb by solve_bytes.
  pose proof (sequence_tables_sound None fse_new (MkSeqHeader 3 (MkModes 0x44)) [5; 7; 9] Hwf Hh Hb) as H.
  destruct (build_sequence_tables _ _ _) as [[s' n]|e| |] eqn:E; [|vm_compute in E; discriminate E..].
  exists s', n. split; [reflexivity|]. by destruct H as (_ & _ & H).
Defined.
