(* ===== verification/Copy.v ===== *)
(** * The wide copies of sequence execution ([src/decode.rs], [WildCopy])

    Matches and literals are copied by chunks that may overshoot, in four
    variants picked by CPU and block. A pointer is a buffer and an offset
    into it; every access is checked against its buffer, and a
    [copy_nonoverlapping] of overlapping ranges is undefined behaviour too:
    [Fault]. The proofs that all four implement one copy are in
    [CopyProofs]. *)

From S2P Require Import Prelude Words Constants Errors.

(** ** Memory *)

(** The allocations a block's execution touches: the output it writes, the
    block's literals, and the history outside the output (a dictionary's
    content). *)
Inductive Buf := BOut | BLit | BExt.

#[export] Instance Buf_eq_dec : EqDecision Buf.
Proof. solve_decision. Defined.

Record Mem := MkMem {
  m_out : list Z;
  m_lit : list Z;
  m_ext : list Z;
}.

Definition buffer (m : Mem) (b : Buf) : list Z :=
  match b with BOut => m_out m | BLit => m_lit m | BExt => m_ext m end.

(** [*const u8]. Destinations are always in the output: an offset. *)
Abbreviation ptr := (Buf * Z)%type.

Definition padd (p : ptr) (n : Z) : ptr := (p.1, p.2 + n).

Definition read (m : Mem) (p : ptr) (n : Z) : dec (list Z) :=
  slice (buffer m p.1) p.2 (p.2 + n).

Definition write (m : Mem) (dst : Z) (bs : list Z) : dec Mem :=
  out ← copy_from_slice (m_out m) dst (dst + zlen bs) bs;
  Ok (MkMem out (m_lit m) (m_ext m)).

(** [ptr::copy]: a load of [n] bytes, then their store. *)
Definition copy (m : Mem) (dst : Z) (src : ptr) (n : Z) : dec Mem :=
  bs ← read m src n;
  write m dst bs.

(** [ptr::copy_nonoverlapping]. *)
Definition copy_nonoverlapping (m : Mem) (dst : Z) (src : ptr) (n : Z) : dec Mem :=
  _ ← rassert (negb (bool_decide (src.1 = BOut)) || (n <=? Z.abs (dst - src.2)));
  copy m dst src n.

(** [copy16]. *)
Definition copy16 (m : Mem) (dst : Z) (src : ptr) : dec Mem := copy_nonoverlapping m dst src 16.

(** ** Chunked copies *)

(** [wildcopy]. *)
Definition wildcopy (m : Mem) (dst : Z) (src : ptr) (len : Z) : dec Mem :=
  m ← copy16 m dst src;
  if len <=? 16 then Ok m
  else
    let end_ := dst + len in
    loopM (Z.to_nat len + 1) (fun '(m, dst, src) =>
      m ← copy16 m dst src;
      m ← copy16 m (dst + 16) (padd src 16);
      let dst := dst + 32 in
      let src := padd src 32 in
      Ok (if end_ <=? dst then inr m else inl (m, dst, src))) (m, dst + 16, padd src 16).

(** [wildcopy32]: one AVX2 load and store per chunk. *)
Definition wildcopy32 (m : Mem) (dst : Z) (src : ptr) (len : Z) : dec Mem :=
  let end_ := dst + len in
  loopM (Z.to_nat len + 1) (fun '(m, dst, src) =>
    m ← copy m dst src 32;
    let dst := dst + 32 in
    let src := padd src 32 in
    Ok (if end_ <=? dst then inr m else inl (m, dst, src))) (m, dst, src).

(** [wildcopy_overlap8]. *)
Definition wildcopy_overlap8 (m : Mem) (dst : Z) (src : ptr) (len : Z) : dec Mem :=
  let end_ := dst + len in
  loopM (Z.to_nat len + 1) (fun '(m, dst, src) =>
    m ← copy_nonoverlapping m dst src 8;
    let dst := dst + 8 in
    let src := padd src 8 in
    Ok (if end_ <=? dst then inr m else inl (m, dst, src))) (m, dst, src).

(** [*dst = *src] for the first [n] bytes, one by one. *)
Definition copy_bytes (m : Mem) (dst : Z) (src : ptr) (n : nat) : dec Mem :=
  foldM (fun m i => copy m (dst + i) (padd src i) 1) m (seqZ 0 (Z.of_nat n)).

Definition OVERLAP_DEC32 : list Z := [0; 1; 2; 1; 4; 4; 4; 4].
Definition OVERLAP_DEC64 : list Z := [8; 8; 8; 7; 8; 9; 10; 11].

(** [overlap_copy8]. *)
Definition overlap_copy8 (m : Mem) (dst : Z) (src : ptr) (offset : Z) : dec (Mem * Z * ptr) :=
  if offset <? 8 then
    m ← copy_bytes m dst src 4;
    d32 ← idx OVERLAP_DEC32 offset;
    d64 ← idx OVERLAP_DEC64 offset;
    let s2 := padd src d32 in
    m ← copy_nonoverlapping m (dst + 4) s2 4;
    Ok (m, dst + 8, padd s2 (8 - d64))
  else
    m ← copy_nonoverlapping m dst src 8;
    Ok (m, dst + 8, padd src 8).

(** The short-offset tail shared by [Fallback] and [Avx2]. *)
Definition copy_match_overlap (m : Mem) (dst : Z) (src : ptr) (offset ml : Z) : dec Mem :=
  '(m, dst, src) ← overlap_copy8 m dst src offset;
  if 8 <? ml then wildcopy_overlap8 m dst src (ml - 8) else Ok m.

(** ** The variants *)

(** [WildCopy]. *)
Class WildCopy := {
  WIDTH : Z;
  w_wildcopy : Mem -> Z -> ptr -> Z -> dec Mem;
  copy_match : Mem -> Z -> Z -> Z -> Z -> dec Mem;   (* dst, offset, ml, avail *)
}.

(** [Fallback::copy_match]. *)
Definition fallback_copy_match (m : Mem) (dst offset ml avail : Z) : dec Mem :=
  let src := (BOut, dst - offset) in
  if 16 <=? offset then
    m ← copy16 m dst src;
    let s2 := if 16 <? ml then padd src 16 else src in
    m ← copy16 m (dst + 16) s2;
    if 32 <? ml then wildcopy m (dst + 32) (padd src 32) (ml - 32) else Ok m
  else copy_match_overlap m dst src offset ml.

(** [Fallback]. *)
Definition Fallback : WildCopy := {|
  WIDTH := 16;
  w_wildcopy := wildcopy;
  copy_match := fallback_copy_match;
|}.

Definition SHORT_DEC32 : list Z := [0; 1; 2; 1; 4; 4; 4; 4; 4].
Definition SHORT_DEC64 : list Z := [8; 8; 8; 7; 8; 9; 10; 11; 4].

(** [FallbackShortOffsets::copy_match]. *)
Definition fallback_short_copy_match (m : Mem) (dst offset ml avail : Z) : dec Mem :=
  let src := (BOut, dst - offset) in
  let o := Z.min offset 8 in
  m ← copy_bytes m dst src 4;
  d32 ← idx SHORT_DEC32 o;
  d64 ← idx SHORT_DEC64 o;
  let s2 := padd src d32 in
  m ← copy_nonoverlapping m (dst + 4) s2 4;
  let dst := dst + 8 in
  let src := padd s2 (8 - d64) in
  m ← copy_nonoverlapping m dst src 8;
  if 16 <? ml then wildcopy_overlap8 m (dst + 8) (padd src 8) (ml - 16) else Ok m.

(** [FallbackShortOffsets]. *)
Definition FallbackShortOffsets : WildCopy := {|
  WIDTH := 16;
  w_wildcopy := wildcopy;
  copy_match := fallback_short_copy_match;
|}.

(** [wide_chunks]. *)
Definition wide_chunks (dist : Z) : bool := (128 <? dist) && negb (dist mod 32 =? 16).

(** [wildcopy_periodic]. *)
Definition wildcopy_periodic (m : Mem) (dst dist len : Z) : dec Mem :=
  let src := (BOut, dst - dist) in
  if wide_chunks dist then wildcopy32 m dst src len else wildcopy m dst src len.

(** [Avx2::copy_match]. *)
Definition avx2_copy_match (m : Mem) (dst offset ml avail : Z) : dec Mem :=
  let src := (BOut, dst - offset) in
  if 32 <=? offset then
    m ← copy_nonoverlapping m dst src 32;
    if 32 <? ml then wildcopy_periodic m (dst + 32) offset (ml - 32) else Ok m
  else if WILDCOPY_VECLEN <=? offset then wildcopy m dst src ml
  else copy_match_overlap m dst src offset ml.

(** [Avx2]. *)
Definition Avx2 : WildCopy := {|
  WIDTH := 32;
  w_wildcopy := wildcopy32;
  copy_match := avx2_copy_match;
|}.

(** A row of [MATCH_MASKS]: the two shuffle masks of period [m]. *)
Definition match_masks (m : Z) : list Z * list Z :=
  let idxs := (fun i => 32 - m + i mod m) <$> seqZ 0 32 in
  ((fun i => if i <? 16 then i else 0x80) <$> idxs,
   (fun i => if i <? 16 then 0x80 else i - 16) <$> idxs).

(** [PERIOD_SPREAD]. *)
Definition PERIOD_SPREAD : list Z :=
  0 :: ((fun o => wrap 8 (o * div_ceil 16 o)) <$> seqZ 1 15).

(** [_mm256_shuffle_epi8] of a 16-byte lane broadcast to both lanes. *)
Definition shuffle_lane (lane mask : list Z) : list Z :=
  (fun k => if Z.testbit k 7 then 0 else default 0 (zget lane (Z.land k 15))) <$> mask.

(** [copy_match_short]. *)
Definition copy_match_short (m : Mem) (dst offset ml : Z) : dec Mem :=
  let masks := match_masks (Z.min offset 32) in
  let src := (BOut, dst - Z.max offset 32) in
  lo ← read m src 16;
  hi ← read m (padd src 16) 16;
  let head := zip_with Z.lor (shuffle_lane lo masks.1) (shuffle_lane hi masks.2) in
  m ← write m dst head;
  if 32 <? ml then
    dist ← (if 16 <=? offset then Ok offset else idx PERIOD_SPREAD offset);
    wildcopy_periodic m (dst + 32) dist (ml - 32)
  else Ok m.

(** [Avx2ShortOffsets]. *)
Definition Avx2ShortOffsets : WildCopy := {|
  WIDTH := 32;
  w_wildcopy := wildcopy32;
  copy_match := fun m dst offset ml avail =>
    if avail <? 32 then avx2_copy_match m dst offset ml avail
    else copy_match_short m dst offset ml;
|}.
