(* ===== verification/CopyProofs.v ===== *)
(** * The four variants implement one copy

    [WildCopyLaws] is what sequence execution asks of its copies; [Fallback],
    [FallbackShortOffsets], [Avx2] and [Avx2ShortOffsets] are its instances.
    The chunked copies of a match rest on one lemma, [period_chunk]: a chunk
    copied from a multiple of the offset back, no shorter than the chunk,
    continues the period. *)

From S2P Require Import Prelude Words Constants Errors FseBuild Copy.

(** ** Frames *)

(** Only the [k] output bytes from [dst] changed. *)
Record frame (m m' : Mem) (dst k : Z) : Prop := {
  fr_len : zlen (m_out m') = zlen (m_out m);
  fr_lit : m_lit m' = m_lit m;
  fr_ext : m_ext m' = m_ext m;
  fr_out : forall j, j < dst \/ dst + k <= j -> zget (m_out m') j = zget (m_out m) j;
}.

Lemma frame_refl m dst k : frame m m dst k.
Proof. by split. Qed.

Lemma frame_trans m m1 m2 dst k d1 k1 d2 k2 : frame m m1 d1 k1 -> frame m1 m2 d2 k2 ->
  dst <= d1 -> d1 + k1 <= dst + k -> dst <= d2 -> d2 + k2 <= dst + k -> frame m m2 dst k.
Proof.
  intros [L1 A1 B1 O1] [L2 A2 B2 O2] ????. split; [congruence..|].
  intros j Hj. rewrite O2 by lia. apply O1. lia.
Qed.

Lemma frame_weaken m m' d k dst n : frame m m' d k -> dst <= d -> d + k <= dst + n -> frame m m' dst n.
Proof. intros [? ? ? H] ??. split; [done..|]. intros j Hj. apply H. lia. Qed.

Lemma frame_buffer m m' dst k b : frame m m' dst k -> b <> BOut -> buffer m' b = buffer m b.
Proof. intros [_ Hl He _] Hb. by destruct b. Qed.

Lemma frame_buffer_len m m' dst k b : frame m m' dst k -> zlen (buffer m' b) = zlen (buffer m b).
Proof. intros [Hl Hlit Hext _]. destruct b; cbn; congruence. Qed.

(** ** One chunk *)

Lemma zget_splice3 (l s : list Z) a j : 0 <= a -> a + zlen s <= zlen l ->
  zget (ztake a l ++ s ++ zdrop (a + zlen s) l) j =
    if (a <=? j) && (j <? a + zlen s) then zget s (j - a) else zget l j.
Proof.
  intros Ha Hl. pose proof (zlen_nonneg s).
  assert (zlen (ztake a l) = a) as Ht by (apply zlen_ztake; lia).
  destruct (Z.leb_spec a j); cbn [andb]; [destruct (Z.ltb_spec j (a + zlen s))|].
  - rewrite zget_app_r, Ht by lia. by rewrite zget_app_l by lia.
  - rewrite zget_app_r, Ht by lia. rewrite zget_app_r by lia. rewrite zget_zdrop by lia. f_equal. lia.
  - rewrite zget_app_l by lia. destruct (Z_lt_dec j 0).
    + unfold zget. by rewrite (proj2 (Z.ltb_lt j 0)).
    + by rewrite zget_ztake by lia.
Qed.

Lemma write_ok m dst bs : 0 <= dst -> dst + zlen bs <= zlen (m_out m) ->
  returns (fun m' => frame m m' dst (zlen bs) /\
      forall i, 0 <= i < zlen bs -> zget (m_out m') (dst + i) = zget bs i) (write m dst bs).
Proof.
  intros Hd Hl. unfold write, copy_from_slice, on_slice. pose proof (zlen_nonneg bs).
  rewrite slice_ok by lia. cbn [mbind res_bind].
  rewrite zlen_ztake by (rewrite zlen_zdrop by lia; lia).
  replace (dst + zlen bs - dst) with (zlen bs) by lia. rewrite Z.eqb_refl.
  cbn [rassert mbind res_bind returns m_out]. split.
  - split; cbn; try done.
    + rewrite !zlen_app, zlen_ztake, zlen_zdrop by lia. lia.
    + intros j Hj. rewrite zget_splice3 by lia.
      destruct (Z.leb_spec dst j), (Z.ltb_spec j (dst + zlen bs)); cbn [andb]; done || lia.
  - intros i Hi. rewrite zget_splice3 by lia.
    rewrite (proj2 (Z.leb_le _ _)), (proj2 (Z.ltb_lt _ _)) by lia. cbn [andb]. f_equal. lia.
Qed.

(** What one chunk does: its bytes are those of the memory before it. *)
Definition chunked (m : Mem) (dst : Z) (src : ptr) (n : Z) (m' : Mem) : Prop :=
  frame m m' dst n /\
  forall i, 0 <= i < n -> zget (m_out m') (dst + i) = zget (buffer m src.1) (src.2 + i).

Lemma copy_ok m dst src n : 0 <= src.2 -> 0 <= n -> src.2 + n <= zlen (buffer m src.1) ->
  0 <= dst -> dst + n <= zlen (m_out m) ->
  returns (chunked m dst src n) (copy m dst src n).
Proof.
  intros Hs Hn Hsl Hd Hdl. unfold copy, read. rewrite slice_ok by lia. cbn [mbind res_bind].
  set (bs := ztake _ _).
  assert (zlen bs = n) as Hbs.
  { unfold bs. rewrite zlen_ztake; [lia|]. rewrite zlen_zdrop by lia. lia. }
  eapply returns_mono; [apply write_ok; lia|]. intros m' [Hf Hb]. rewrite Hbs in *.
  split; [done|]. intros i Hi. rewrite Hb by done. unfold bs.
  rewrite zget_ztake by lia. rewrite zget_zdrop by lia. done.
Qed.

Lemma copy_nonoverlapping_ok m dst src n : 0 <= src.2 -> 0 <= n ->
  src.2 + n <= zlen (buffer m src.1) -> 0 <= dst -> dst + n <= zlen (m_out m) ->
  (src.1 <> BOut \/ n <= Z.abs (dst - src.2)) ->
  returns (chunked m dst src n) (copy_nonoverlapping m dst src n).
Proof.
  intros Hs Hn Hsl Hd Hdl Hov. unfold copy_nonoverlapping.
  assert (negb (bool_decide (src.1 = BOut)) || (n <=? Z.abs (dst - src.2)) = true) as ->.
  { apply orb_true_iff. destruct Hov as [Hb|Ha].
    - left. by rewrite bool_decide_eq_false_2.
    - right. by apply Z.leb_le. }
  cbn [rassert mbind res_bind]. by apply copy_ok.
Qed.

(** ** Periods *)

(** The first [k] bytes of the match at [dst] repeat with period [offset]. *)
Definition periodic (m : Mem) (dst offset k : Z) : Prop :=
  forall i, 0 <= i < k -> zget (m_out m) (dst + i) = zget (m_out m) (dst + i - offset).

Lemma periodic_0 m dst offset : periodic m dst offset 0.
Proof. intros i Hi. lia. Qed.

Lemma periodic_le m dst offset k k' : periodic m dst offset k -> k' <= k -> periodic m dst offset k'.
Proof. intros H Hk i Hi. apply H. lia. Qed.

(** Bytes [q] periods apart. *)
Lemma periodic_chain m dst offset k : periodic m dst offset k -> 1 <= offset ->
  forall q y, y < dst + k -> (q = 0%nat \/ dst <= y - (Z.of_nat q - 1) * offset) ->
  zget (m_out m) y = zget (m_out m) (y - Z.of_nat q * offset).
Proof.
  intros Hp Ho q. induction q as [|q IH]; intros y Hy Hq.
  - f_equal. lia.
  - destruct Hq as [?|Hq]; [lia|]. rewrite IH; [|lia|destruct q; [by left|right; nia]].
    replace (y - Z.of_nat q * offset) with (dst + (y - dst - Z.of_nat q * offset)) by lia.
    rewrite Hp by nia. f_equal. lia.
Qed.

Lemma period_chunk m m' dst offset k D n : periodic m dst offset k -> 1 <= offset -> 0 <= k ->
  (offset | D) -> 0 < D <= k + offset -> n <= D ->
  chunked m (dst + k) (BOut, dst + k - D) n m' -> periodic m' dst offset (k + n).
Proof.
  intros Hp Ho Hk [q Hq] HD Hn [[_ _ _ Hf] Hb] i Hi. cbn in Hb.
  destruct (Z_lt_dec i k) as [Hik|Hik].
  { rewrite !Hf by lia. apply Hp; lia. }
  replace (dst + i) with (dst + k + (i - k)) at 1 by lia. rewrite Hb by lia.
  destruct (Z_lt_dec (i - k) offset) as [Hlt|Hge].
  - rewrite (Hf (dst + i - offset)) by lia.
    assert (1 <= q) by nia.
    rewrite (periodic_chain m dst offset k Hp Ho (Z.to_nat (q - 1)) (dst + i - offset));
      [f_equal; nia|lia|].
    destruct (Z.eq_dec q 1) as [->|]; [by left|right]. nia.
  - replace (dst + i - offset) with (dst + k + (i - k - offset)) by lia. rewrite Hb by lia.
    replace (dst + k - D + (i - k)) with (dst + (i - D)) by lia. rewrite Hp by lia. f_equal. lia.
Qed.

(** ** Strided loops *)

Lemma padd_padd src a b : padd (padd src a) b = padd src (a + b).
Proof. unfold padd. cbn. f_equal. lia. Qed.

Lemma padd_0 src : padd src 0 = src.
Proof. destruct src. unfold padd. cbn. f_equal. lia. Qed.

(** A loop that copies [c] more bytes a turn until [K]. *)
Lemma stride_ok (body : Mem * Z * ptr -> dec (Mem * Z * ptr + Mem)) c dst0 src0 k0 K
    (Inv : Z -> Mem -> Prop) fuel m :
  0 < c -> Inv k0 m -> k0 < K -> (Z.to_nat (K - k0) < fuel)%nat ->
  (forall k m, Inv k m -> k0 <= k < K ->
     returns (fun r => exists m', Inv (k + c) m' /\
       r = if dst0 + K <=? dst0 + k + c then inr m' else inl (m', dst0 + k + c, padd src0 (k + c)))
       (body (m, dst0 + k, padd src0 k))) ->
  returns (fun m' => exists k, K <= k < K + c /\ Inv k m')
    (loopM fuel body (m, dst0 + k0, padd src0 k0)).
Proof.
  intros Hc HI HK Hf Hb.
  apply (returns_loopM (fun '(m, dst, src) => exists k, k0 <= k < K /\ Inv k m /\
           dst = dst0 + k /\ src = padd src0 k)
         (fun '(_, dst, _) => Z.to_nat (dst0 + K - dst))).
  - exists k0. split; [lia|done].
  - lia.
  - intros [[m1 dst] src] (k & Hk & HIk & -> & ->).
    eapply returns_mono; [by apply Hb|]. intros r (m' & Hm' & ->).
    destruct (Z.leb_spec (dst0 + K) (dst0 + k + c)).
    + exists (k + c). split; [lia|done].
    + split; [|lia]. exists (k + c). split; [lia|]. split; [done|]. split; [lia|done].
Qed.

(** Two chunks of 16 are a turn of [wildcopy]. *)
Definition pair16 (m : Mem) (dst : Z) (src : ptr) : dec Mem :=
  m ← copy16 m dst src; copy16 m (dst + 16) (padd src 16).

(** The loops, given what a chunk keeps. *)
Section strides.
Context (Inv : Z -> Mem -> Prop) (dst0 : Z) (src0 : ptr).

Lemma wildcopy32_stride m k0 len : Inv k0 m -> 1 <= len ->
  (forall k m, Inv k m -> k0 <= k < k0 + len ->
     returns (Inv (k + 32)) (copy m (dst0 + k) (padd src0 k) 32)) ->
  returns (fun m' => exists k, k0 + len <= k < k0 + len + 32 /\ Inv k m')
    (wildcopy32 m (dst0 + k0) (padd src0 k0) len).
Proof.
  intros HI Hl Hs. unfold wildcopy32. apply stride_ok; try lia; [done|].
  intros k m1 HIk Hk. eapply returns_bind; [by apply Hs|]. intros m2 Hm2. cbn [returns].
  exists m2. split; [done|]. rewrite padd_padd, <- !Z.add_assoc. done.
Qed.

Lemma overlap8_stride m k0 len : Inv k0 m -> 1 <= len ->
  (forall k m, Inv k m -> k0 <= k < k0 + len ->
     returns (Inv (k + 8)) (copy_nonoverlapping m (dst0 + k) (padd src0 k) 8)) ->
  returns (fun m' => exists k, k0 + len <= k < k0 + len + 8 /\ Inv k m')
    (wildcopy_overlap8 m (dst0 + k0) (padd src0 k0) len).
Proof.
  intros HI Hl Hs. unfold wildcopy_overlap8. apply stride_ok; try lia; [done|].
  intros k m1 HIk Hk. eapply returns_bind; [by apply Hs|]. intros m2 Hm2. cbn [returns].
  exists m2. split; [done|]. rewrite padd_padd, <- !Z.add_assoc. done.
Qed.

Lemma wildcopy_stride m k0 len : Inv k0 m -> 1 <= len ->
  (forall k m, Inv k m -> k0 <= k < k0 + len + 16 ->
     returns (Inv (k + 16)) (copy16 m (dst0 + k) (padd src0 k))) ->
  returns (fun m' => exists k, k0 + len <= k < k0 + len + 32 /\ Inv k m')
    (wildcopy m (dst0 + k0) (padd src0 k0) len).
Proof.
  intros HI Hl Hs. unfold wildcopy. eapply returns_bind; [apply Hs; done || lia|].
  intros m1 Hm1. destruct (Z.leb_spec len 16).
  { exists (k0 + 16). split; [lia|done]. }
  rewrite padd_padd. replace (dst0 + k0 + 16) with (dst0 + (k0 + 16)) by lia.
  replace (dst0 + k0 + len) with (dst0 + (k0 + len)) by lia.
  apply (stride_ok _ 32 dst0 src0 (k0 + 16) (k0 + len) Inv); try lia; [done|].
  intros k m2 HIk Hk. eapply returns_bind; [apply Hs; done || lia|]. intros m3 Hm3.
  rewrite !padd_padd. replace (dst0 + k + 16) with (dst0 + (k + 16)) by lia.
  eapply returns_bind; [apply Hs; done || lia|]. intros m4 Hm4. cbn [returns].
  exists m4. split; [by replace (k + 32) with (k + 16 + 16) by lia|done].
Qed.
End strides.

(** ** Plain forward copies *)

(** The [k] bytes from [dst0] are those from [src0] of the memory [m0]; the
    source is another buffer, or ahead of the destination by [w]. *)
Definition forwarded (m0 : Mem) (dst0 : Z) (src0 : ptr) (k : Z) (m : Mem) : Prop :=
  0 <= k /\ frame m0 m dst0 k /\
  forall i, 0 <= i < k -> zget (m_out m) (dst0 + i) = zget (buffer m0 src0.1) (src0.2 + i).

Lemma forwarded_0 m dst src : forwarded m dst src 0 m.
Proof. split; [done|]. split; [apply frame_refl|]. intros i Hi. lia. Qed.

Lemma forwarded_chunk m0 dst0 src0 k m w n :
  forwarded m0 dst0 src0 k m -> 0 < n <= w -> src0.1 <> BOut \/ w <= src0.2 - dst0 ->
  0 <= src0.2 -> src0.2 + k + n <= zlen (buffer m0 src0.1) ->
  0 <= dst0 -> dst0 + k + n <= zlen (m_out m0) ->
  returns (forwarded m0 dst0 src0 (k + n)) (copy m (dst0 + k) (padd src0 k) n) /\
  returns (forwarded m0 dst0 src0 (k + n)) (copy_nonoverlapping m (dst0 + k) (padd src0 k) n).
Proof.
  intros (Hk & Hf & Hb) Hn Hap Hs Hsl Hd Hdl. pose proof Hf as [Hfl _ _ Hfo].
  pose proof (frame_buffer_len m0 m dst0 k src0.1 Hf) as Hbl.
  assert (forall m', chunked m (dst0 + k) (padd src0 k) n m' -> forwarded m0 dst0 src0 (k + n) m') as Hc.
  { intros m' [Hf' Hb']. split; [lia|]. split; [apply (frame_trans _ _ _ _ _ _ _ _ _ Hf Hf'); lia|].
    intros i Hi. destruct (Z_lt_dec i k).
    - rewrite (fr_out _ _ _ _ Hf') by lia. apply Hb; lia.
    - replace (dst0 + i) with (dst0 + k + (i - k)) by lia. rewrite Hb' by lia. unfold padd. cbn.
      replace (src0.2 + k + (i - k)) with (src0.2 + i) by lia.
      destruct Hap as [Hne|Hah]; [by rewrite (frame_buffer _ _ _ _ _ Hf Hne)|].
      destruct (decide (src0.1 = BOut)) as [He|Hne]; [|by rewrite (frame_buffer _ _ _ _ _ Hf Hne)].
      rewrite He. cbn. apply Hfo. lia. }
  split; (eapply returns_mono; [|exact Hc]).
  - apply copy_ok; unfold padd; cbn; lia.
  - apply copy_nonoverlapping_ok; unfold padd; cbn; try lia.
    destruct Hap; [by left|right; lia].
Qed.

Lemma forwarded_done m0 dst src k len m : forwarded m0 dst src k m -> len <= k < len + 32 ->
  frame m0 m dst (len + 31) /\
  forall i, 0 <= i < len -> zget (m_out m) (dst + i) = zget (buffer m0 src.1) (src.2 + i).
Proof.
  intros (Hk & Hf & Hb) Hl. split; [apply (frame_weaken _ _ _ _ _ _ Hf); lia|].
  intros i Hi. apply Hb. lia.
Qed.

(** ** The interface *)

(** What sequence execution asks of a variant. *)
Class WildCopyLaws (W : WildCopy) := {
  width_range : 16 <= WIDTH <= 32;
  wildcopy_law : forall m dst src len, 1 <= len ->
    0 <= src.2 -> src.2 + len + 31 <= zlen (buffer m src.1) ->
    0 <= dst -> dst + len + 31 <= zlen (m_out m) ->
    src.1 <> BOut \/ WIDTH <= src.2 - dst ->
    returns (fun m' => frame m m' dst (len + 31) /\
        forall i, 0 <= i < len -> zget (m_out m') (dst + i) = zget (buffer m src.1) (src.2 + i))
      (w_wildcopy m dst src len);
  copy_match_law : forall m dst offset ml avail, 1 <= ml -> 1 <= offset <= avail -> avail <= dst ->
    dst + ml + 31 <= zlen (m_out m) ->
    returns (fun m' => frame m m' dst (ml + 31) /\ periodic m' dst offset ml)
      (copy_match m dst offset ml avail);
}.

(** ** Periodic copies *)

(** The match is right up to [k], and only it changed. *)
Definition matched (m0 : Mem) (dst offset k : Z) (m : Mem) : Prop :=
  0 <= k /\ frame m0 m dst k /\ periodic m dst offset k.

Lemma matched_0 m dst offset : matched m dst offset 0 m.
Proof. split; [done|]. split; [apply frame_refl|apply periodic_0]. Qed.

Lemma matched_chunk m0 m dst offset k D n : matched m0 dst offset k m ->
  1 <= offset <= dst -> (offset | D) -> 0 < D <= k + offset -> 0 < n <= D ->
  dst + k + n <= zlen (m_out m0) ->
  returns (matched m0 dst offset (k + n)) (copy m (dst + k) (BOut, dst + k - D) n) /\
  returns (matched m0 dst offset (k + n)) (copy_nonoverlapping m (dst + k) (BOut, dst + k - D) n).
Proof.
  intros (Hk & Hf & Hp) Ho HD Hd Hn Hl. pose proof (fr_len _ _ _ _ Hf) as Hfl.
  assert (forall m', chunked m (dst + k) (BOut, dst + k - D) n m' -> matched m0 dst offset (k + n) m') as Hc.
  { intros m' Hch. split; [lia|]. split.
    - destruct Hch as [Hf' _]. apply (frame_trans _ _ _ _ _ _ _ _ _ Hf Hf'); lia.
    - apply (period_chunk m m' dst offset k D n); done || lia. }
  split; (eapply returns_mono; [|exact Hc]).
  - apply copy_ok; cbn; lia.
  - apply copy_nonoverlapping_ok; cbn; lia.
Qed.

(** The result asked for, when at least [ml] bytes were matched. *)
Definition match_done (m0 : Mem) (dst offset ml : Z) (m : Mem) : Prop :=
  frame m0 m dst (ml + 31) /\ periodic m dst offset ml.

Lemma matched_done m0 dst offset ml k m : matched m0 dst offset k m -> ml <= k < ml + 32 ->
  match_done m0 dst offset ml m.
Proof.
  intros (Hk & Hf & Hp) Hl. split; [apply (frame_weaken _ _ _ _ _ _ Hf); lia|].
  apply (periodic_le _ _ _ _ _ Hp). lia.
Qed.

(** Bytes past the match may be anything. *)
Lemma matched_extra m0 m m' dst offset k d n ml : matched m0 dst offset k m -> 1 <= offset -> ml <= k ->
  frame m m' d n -> dst + ml <= d -> dst <= d -> d + n <= dst + ml + 31 -> k <= ml + 31 ->
  match_done m0 dst offset ml m'.
Proof.
  intros (Hk & Hf & Hp) Ho Hml Hf' Hd Hd0 Hn Hk31. split.
  - apply (frame_trans _ _ _ _ _ _ _ _ _ Hf Hf'); lia.
  - intros i Hi. rewrite (fr_out _ _ _ _ Hf' (dst + i)), (fr_out _ _ _ _ Hf' (dst + i - offset)) by lia.
    apply Hp. lia.
Qed.

(** The continuation of a match in chunks at distance [D]. *)
Section continue.
Context (m0 : Mem) (dst offset D : Z) (Ho : 1 <= offset <= dst) (HD : (offset | D)).

Lemma continue_pos k : padd (BOut, dst - D) k = (BOut, dst + k - D).
Proof. unfold padd. cbn. f_equal. lia. Qed.

Lemma continue_overlap8 m k0 ml : matched m0 dst offset k0 m -> k0 < ml -> 8 <= D <= k0 + offset ->
  dst + ml + 31 <= zlen (m_out m0) ->
  returns (match_done m0 dst offset ml)
    (wildcopy_overlap8 m (dst + k0) (BOut, dst + k0 - D) (ml - k0)).
Proof.
  intros Hm Hk Hd Hl. rewrite <- continue_pos.
  eapply returns_mono; [apply (overlap8_stride (fun k m => k0 <= k /\ matched m0 dst offset k m)); try lia|].
  - by split.
  - intros k m1 [Hk1 Hm1] Hr. rewrite continue_pos.
    eapply returns_mono; [apply (matched_chunk m0 m1 dst offset k D 8 Hm1); try done; lia|].
    intros m2 Hm2. split; [lia|done].
  - intros m1 (k & Hk1 & _ & Hm1). apply (matched_done _ _ _ _ k); [done|lia].
Qed.

Lemma continue_wildcopy m k0 ml : matched m0 dst offset k0 m -> k0 < ml -> 16 <= D <= k0 + offset ->
  dst + ml + 31 <= zlen (m_out m0) ->
  returns (match_done m0 dst offset ml)
    (wildcopy m (dst + k0) (BOut, dst + k0 - D) (ml - k0)).
Proof.
  intros Hm Hk Hd Hl. rewrite <- continue_pos.
  eapply returns_mono; [apply (wildcopy_stride (fun k m => k0 <= k /\ matched m0 dst offset k m)); try lia|].
  - by split.
  - intros k m1 [Hk1 Hm1] Hr. rewrite continue_pos.
    eapply returns_mono; [apply (matched_chunk m0 m1 dst offset k D 16 Hm1); try done; lia|].
    intros m2 Hm2. split; [lia|done].
  - intros m1 (k & Hk1 & _ & Hm1). apply (matched_done _ _ _ _ k); [done|lia].
Qed.

Lemma continue_wildcopy32 m k0 ml : matched m0 dst offset k0 m -> k0 < ml -> 32 <= D <= k0 + offset ->
  dst + ml + 31 <= zlen (m_out m0) ->
  returns (match_done m0 dst offset ml)
    (wildcopy32 m (dst + k0) (BOut, dst + k0 - D) (ml - k0)).
Proof.
  intros Hm Hk Hd Hl. rewrite <- continue_pos.
  eapply returns_mono; [apply (wildcopy32_stride (fun k m => k0 <= k /\ matched m0 dst offset k m)); try lia|].
  - by split.
  - intros k m1 [Hk1 Hm1] Hr. rewrite continue_pos.
    eapply returns_mono; [apply (matched_chunk m0 m1 dst offset k D 32 Hm1); try done; lia|].
    intros m2 Hm2. split; [lia|done].
  - intros m1 (k & Hk1 & _ & Hm1). apply (matched_done _ _ _ _ k); [done|lia].
Qed.

(** [wildcopy_periodic] in chunks of either width. *)
Lemma continue_periodic m k0 ml : matched m0 dst offset k0 m -> k0 < ml -> 16 <= D <= k0 + offset ->
  dst + ml + 31 <= zlen (m_out m0) ->
  returns (match_done m0 dst offset ml) (wildcopy_periodic m (dst + k0) D (ml - k0)).
Proof.
  intros Hm Hk Hd Hl. unfold wildcopy_periodic, wide_chunks.
  destruct (Z.ltb_spec 128 D); cbn [andb]; [destruct (negb _)|].
  - apply continue_wildcopy32; try done. lia.
  - by apply continue_wildcopy.
  - by apply continue_wildcopy.
Qed.
End continue.


(** ** The overlapping head *)

(** Four single bytes. *)
Lemma copy_bytes_matched m dst offset : 1 <= offset <= dst -> dst + 4 <= zlen (m_out m) ->
  returns (matched m dst offset 4) (copy_bytes m dst (BOut, dst - offset) 4).
Proof.
  intros Ho Hl. unfold copy_bytes.
  replace (seqZ 0 (Z.of_nat 4)) with [0; 1; 2; 3] by reflexivity. cbn [foldM].
  assert (forall i m', matched m dst offset i m' -> 0 <= i < 4 ->
    returns (matched m dst offset (i + 1)) (copy m' (dst + i) (padd (BOut, dst - offset) i) 1)) as Hs.
  { intros i m' Hm Hi. rewrite continue_pos.
    apply (matched_chunk m m' dst offset i offset 1 Hm); try lia. apply Z.divide_refl. }
  eapply returns_bind; [apply Hs; [apply matched_0|lia]|]. intros m1 H1.
  eapply returns_bind; [apply (Hs (0 + 1)); [done|lia]|]. intros m2 H2.
  eapply returns_bind; [apply (Hs (0 + 1 + 1)); [done|lia]|]. intros m3 H3.
  eapply returns_bind; [apply (Hs (0 + 1 + 1 + 1)); [done|lia]|]. intros m4 H4. done.
Qed.

(** The tables' distances: multiples of the offset, wide enough for the
    chunk read and for the chunks that follow. *)
Definition spreads (offset d32 d64 : Z) : Prop :=
  (offset | 4 + offset - d32) /\ 4 <= 4 + offset - d32 <= 4 + offset /\
  (offset | offset - d32 + d64) /\ 8 <= offset - d32 + d64 <= 8 + offset.

Lemma overlap_dec offset : 1 <= offset < 8 -> exists d32 d64,
  (idx OVERLAP_DEC32 offset : dec Z) = Ok d32 /\ (idx OVERLAP_DEC64 offset : dec Z) = Ok d64 /\ spreads offset d32 d64.
Proof.
  intros Ho. unfold spreads.
  assert (offset = 1 \/ offset = 2 \/ offset = 3 \/ offset = 4 \/ offset = 5 \/ offset = 6 \/ offset = 7)
    as [-> | [-> | [-> | [-> | [-> | [-> | ->]]]]]] by lia;
    (do 2 eexists; split; [reflexivity|split; [reflexivity|]]);
    (split; [apply Z.mod_divide; [lia|reflexivity]|split; [lia|split; [apply Z.mod_divide; [lia|reflexivity]|lia]]]).
Qed.

Lemma short_dec offset : 1 <= offset -> exists d32 d64,
  (idx SHORT_DEC32 (Z.min offset 8) : dec Z) = Ok d32 /\ (idx SHORT_DEC64 (Z.min offset 8) : dec Z) = Ok d64 /\
  spreads offset d32 d64.
Proof.
  intros Ho. destruct (Z_lt_dec offset 8).
  - destruct (overlap_dec offset) as (d32 & d64 & H1 & H2 & H3); [lia|]. exists d32, d64.
    rewrite Z.min_l by lia. split_and!; [| |done].
    + rewrite <- H1. unfold idx, zget. destruct (offset <? 0); [done|].
      by rewrite <- (lookup_app_l OVERLAP_DEC32 [4]) by (cbn; lia).
    + rewrite <- H2. unfold idx, zget. destruct (offset <? 0); [done|].
      by rewrite <- (lookup_app_l OVERLAP_DEC64 [4]) by (cbn; lia).
  - exists 4, 4. rewrite Z.min_r by lia. split_and!; [reflexivity..|].
    unfold spreads. replace (4 + offset - 4) with offset by lia. replace (offset - 4 + 4) with offset by lia.
    split_and!; try lia; apply Z.divide_refl.
Qed.

(** [overlap_copy8]: eight bytes matched, the source a spread distance back. *)
Lemma overlap_copy8_matched m dst offset : 1 <= offset <= dst -> dst + 8 <= zlen (m_out m) ->
  returns (fun '(m', d, s) => d = dst + 8 /\ matched m dst offset 8 m' /\
      exists D, s = (BOut, dst + 8 - D) /\ (offset | D) /\ 8 <= D <= 8 + offset)
    (overlap_copy8 m dst (BOut, dst - offset) offset).
Proof.
  intros Ho Hl. unfold overlap_copy8. destruct (Z.ltb_spec offset 8).
  - destruct (overlap_dec offset) as (d32 & d64 & E32 & E64 & S1 & S2 & S3 & S4); [lia|].
    eapply returns_bind; [apply copy_bytes_matched; lia|]. intros m1 Hm1.
    rewrite E32, E64. cbn [mbind res_bind]. rewrite continue_pos.
    replace (dst + d32 - offset) with (dst + 4 - (4 + offset - d32)) by lia.
    eapply returns_bind; [apply (matched_chunk m m1 dst offset 4 (4 + offset - d32) 4 Hm1); done || lia|].
    intros m2 Hm2. cbn [returns]. split; [done|]. split; [done|].
    exists (offset - d32 + d64). split; [|done]. unfold padd. cbn. f_equal. lia.
  - pose proof (matched_chunk m m dst offset 0 offset 8 (matched_0 _ _ _)) as [_ Hc];
      [lia|apply Z.divide_refl|lia..|]. rewrite Z.add_0_r in Hc.
    eapply returns_bind; [exact Hc|]. intros m1 Hm1. cbn [returns]. split; [done|]. split; [done|].
    exists offset. split; [unfold padd; cbn; f_equal; lia|]. split; [apply Z.divide_refl|lia].
Qed.

Lemma copy_match_overlap_matched m dst offset ml : 1 <= ml -> 1 <= offset <= dst ->
  dst + ml + 31 <= zlen (m_out m) ->
  returns (match_done m dst offset ml) (copy_match_overlap m dst (BOut, dst - offset) offset ml).
Proof.
  intros Hml Ho Hl. unfold copy_match_overlap.
  eapply returns_bind; [apply overlap_copy8_matched; lia|].
  intros [[m1 d] s] (-> & Hm1 & D & -> & HD & Hr). destruct (Z.ltb_spec 8 ml).
  - apply (continue_overlap8 m dst offset D); done || lia.
  - cbn [returns]. apply (matched_done _ _ _ _ 8); [done|lia].
Qed.

(** ** The plain variants *)

Lemma wildcopy_forward m dst src len w : 16 <= w -> 1 <= len ->
  0 <= src.2 -> src.2 + len + 31 <= zlen (buffer m src.1) ->
  0 <= dst -> dst + len + 31 <= zlen (m_out m) -> src.1 <> BOut \/ w <= src.2 - dst ->
  returns (fun m' => frame m m' dst (len + 31) /\
      forall i, 0 <= i < len -> zget (m_out m') (dst + i) = zget (buffer m src.1) (src.2 + i))
    (wildcopy m dst src len).
Proof.
  intros Hw Hlen Hs Hsl Hd Hdl Hap.
  replace (wildcopy m dst src len) with (wildcopy m (dst + 0) (padd src 0) len)
    by (by rewrite padd_0, Z.add_0_r).
  eapply returns_mono; [apply (wildcopy_stride (forwarded m dst src))|].
  - apply forwarded_0.
  - done.
  - intros k m1 Hm1 Hk. apply (forwarded_chunk m dst src k m1 w 16); done || lia.
  - intros m1 (k & Hk & Hm1). apply (forwarded_done m dst src k len m1 Hm1). lia.
Qed.

Lemma wildcopy32_forward m dst src len : 1 <= len ->
  0 <= src.2 -> src.2 + len + 31 <= zlen (buffer m src.1) ->
  0 <= dst -> dst + len + 31 <= zlen (m_out m) -> src.1 <> BOut \/ 32 <= src.2 - dst ->
  returns (fun m' => frame m m' dst (len + 31) /\
      forall i, 0 <= i < len -> zget (m_out m') (dst + i) = zget (buffer m src.1) (src.2 + i))
    (wildcopy32 m dst src len).
Proof.
  intros Hlen Hs Hsl Hd Hdl Hap.
  replace (wildcopy32 m dst src len) with (wildcopy32 m (dst + 0) (padd src 0) len)
    by (by rewrite padd_0, Z.add_0_r).
  eapply returns_mono; [apply (wildcopy32_stride (forwarded m dst src))|].
  - apply forwarded_0.
  - done.
  - intros k m1 Hm1 Hk. apply (forwarded_chunk m dst src k m1 32 32); done || lia.
  - intros m1 (k & Hk & Hm1). apply (forwarded_done m dst src k len m1 Hm1). lia.
Qed.

Lemma head_matched m dst offset n : 1 <= offset <= dst -> 0 < n <= offset ->
  dst + n <= zlen (m_out m) ->
  returns (matched m dst offset n) (copy_nonoverlapping m dst (BOut, dst - offset) n).
Proof.
  intros Ho Hn Hl.
  pose proof (matched_chunk m m dst offset 0 offset n (matched_0 _ _ _)) as [_ Hc];
    [lia|apply Z.divide_refl|lia..|]. by rewrite Z.add_0_r in Hc.
Qed.

Lemma fallback_copy_match_matched m dst offset ml avail : 1 <= ml -> 1 <= offset <= dst ->
  dst + ml + 31 <= zlen (m_out m) ->
  returns (match_done m dst offset ml) (fallback_copy_match m dst offset ml avail).
Proof.
  intros Hml Ho Hl. unfold fallback_copy_match.
  destruct (Z.leb_spec 16 offset); [|by apply copy_match_overlap_matched].
  eapply returns_bind; [apply head_matched; lia|]. intros m1 Hm1.
  destruct (Z.ltb_spec 16 ml).
  - rewrite !continue_pos.
    eapply returns_bind.
    { apply (matched_chunk m m1 dst offset 16 offset 16 Hm1); try lia. apply Z.divide_refl. }
    intros m2 Hm2. cbn in Hm2. destruct (Z.ltb_spec 32 ml).
    + apply (continue_wildcopy m dst offset offset); try lia; [apply Z.divide_refl|done].
    + apply (matched_done _ _ _ _ 32); [done|lia].
  - pose proof Hm1 as (_ & Hf & _). pose proof (fr_len _ _ _ _ Hf).
    eapply returns_bind; [apply copy_nonoverlapping_ok; cbn; lia|].
    intros m2 [Hf2 _]. destruct (Z.ltb_spec 32 ml); [lia|].
    cbn [returns]. apply (matched_extra m m1 m2 dst offset 16 (dst + 16) 16 ml); try done; lia.
Qed.

Lemma fallback_short_matched m dst offset ml avail : 1 <= ml -> 1 <= offset <= dst ->
  dst + ml + 31 <= zlen (m_out m) ->
  returns (match_done m dst offset ml) (fallback_short_copy_match m dst offset ml avail).
Proof.
  intros Hml Ho Hl. unfold fallback_short_copy_match.
  destruct (short_dec offset) as (d32 & d64 & E32 & E64 & S1 & S2 & S3 & S4); [lia|].
  eapply returns_bind; [apply copy_bytes_matched; lia|]. intros m1 Hm1.
  rewrite E32, E64. cbn [mbind res_bind]. rewrite !padd_padd, !continue_pos.
  replace (dst + d32 - offset) with (dst + 4 - (4 + offset - d32)) by lia.
  eapply returns_bind; [apply (matched_chunk m m1 dst offset 4 (4 + offset - d32) 4 Hm1); done || lia|].
  intros m2 Hm2. cbn in Hm2.
  set (D := offset - d32 + d64) in *.
  replace (dst + (d32 + (8 - d64)) - offset) with (dst + 8 - D) by lia.
  eapply returns_bind; [apply (matched_chunk m m2 dst offset 8 D 8 Hm2); done || lia|].
  intros m3 Hm3. cbn in Hm3. destruct (Z.ltb_spec 16 ml).
  - replace (dst + 8 + 8) with (dst + 16) by lia.
    replace (dst + (d32 + (8 - d64 + 8)) - offset) with (dst + 16 - D) by lia.
    apply (continue_overlap8 m dst offset D); done || lia.
  - cbn [returns]. apply (matched_done _ _ _ _ 16); [done|lia].
Qed.

Lemma avx2_matched m dst offset ml avail : 1 <= ml -> 1 <= offset <= dst ->
  dst + ml + 31 <= zlen (m_out m) ->
  returns (match_done m dst offset ml) (avx2_copy_match m dst offset ml avail).
Proof.
  intros Hml Ho Hl. unfold avx2_copy_match, WILDCOPY_VECLEN.
  destruct (Z.leb_spec 32 offset); [|destruct (Z.leb_spec 16 offset); [|by apply copy_match_overlap_matched]].
  - eapply returns_bind; [apply head_matched; lia|]. intros m1 Hm1. destruct (Z.ltb_spec 32 ml).
    + apply (continue_periodic m dst offset offset); try lia; [apply Z.divide_refl|done].
    + apply (matched_done _ _ _ _ 32); [done|lia].
  - pose proof (continue_wildcopy m dst offset offset ltac:(lia) (Z.divide_refl _) m 0 ml
      (matched_0 _ _ _)) as Hw.
    rewrite !Z.add_0_r, Z.sub_0_r in Hw. apply Hw; lia.
Qed.

(** ** The shuffled head *)

Lemma read_ok m src n : 0 <= src.2 -> 0 <= n -> src.2 + n <= zlen (buffer m src.1) ->
  returns (fun bs => zlen bs = n /\
      forall i, 0 <= i < n -> zget bs i = zget (buffer m src.1) (src.2 + i)) (read m src n).
Proof.
  intros Hs Hn Hl. unfold read. rewrite slice_ok by lia. cbn [returns].
  split; [rewrite zlen_ztake by (rewrite zlen_zdrop; lia); lia|].
  intros i Hi. rewrite zget_ztake by lia. by rewrite zget_zdrop by lia.
Qed.

Lemma mask_index m i : 1 <= m <= 32 -> 0 <= i < 32 -> let k := 32 - m + i mod m in
  0 <= k < 32 /\ zget (match_masks m).1 i = Some (if k <? 16 then k else 0x80) /\
  zget (match_masks m).2 i = Some (if k <? 16 then 0x80 else k - 16).
Proof.
  intros Hm Hi k. pose proof (Z.mod_pos_bound i m).
  split; [lia|]. unfold match_masks. cbn [fst snd].
  rewrite !zget_fmap, seqZ_zget by lia. done.
Qed.

(** [pshufb] on one index: a byte of the lane, or zero. *)
Lemma shuffle_lane_get lane mask i k : zget mask i = Some k -> 0 <= k < 16 ->
  zget (shuffle_lane lane mask) i = Some (default 0 (zget lane k)).
Proof.
  intros Hk Hr. unfold shuffle_lane. rewrite zget_fmap, Hk.
  assert (forallb (fun k => negb (Z.testbit k 7) && (Z.land k 15 =? k)) (seqZ 0 16) = true) as H
    by reflexivity.
  rewrite forallb_forall in H. specialize (H k). rewrite andb_true_iff, negb_true_iff, Z.eqb_eq in H.
  destruct H as [H7 H15]; [apply list_elem_of_In, elem_of_seqZ; lia|].
  cbn [fmap option_fmap option_map]. by rewrite H7, H15.
Qed.

Lemma shuffle_lane_zero lane mask i : zget mask i = Some 0x80 ->
  zget (shuffle_lane lane mask) i = Some 0.
Proof. intros Hk. unfold shuffle_lane. by rewrite zget_fmap, Hk. Qed.

(** Byte [i] of the shuffle is byte [32 - m + i mod m] of the 32 loaded. *)
Lemma shuffle_head lo hi m i : zlen lo = 16 -> zlen hi = 16 -> 1 <= m <= 32 -> 0 <= i < 32 ->
  zget (zip_with Z.lor (shuffle_lane lo (match_masks m).1) (shuffle_lane hi (match_masks m).2)) i =
  zget (lo ++ hi) (32 - m + i mod m).
Proof.
  intros Hlo Hhi Hm Hi. rewrite zget_zip_with.
  destruct (mask_index m i Hm Hi) as (Hk & H1 & H2). set (k := 32 - m + i mod m) in *. clearbody k.
  destruct (Z.ltb_spec k 16).
  - rewrite (shuffle_lane_get lo _ i k), (shuffle_lane_zero hi) by (done || lia). cbn.
    rewrite Z.lor_0_r, zget_app_l by lia.
    destruct (zget_is_Some lo k) as [x ->]; [lia|done].
  - rewrite (shuffle_lane_get hi _ i (k - 16)), (shuffle_lane_zero lo) by (done || lia). cbn.
    rewrite zget_app_r, Hlo by lia.
    destruct (zget_is_Some hi (k - 16)) as [x ->]; [lia|done].
Qed.

Lemma shuffle_head_len lo hi m :
  zlen (zip_with Z.lor (shuffle_lane lo (match_masks m).1) (shuffle_lane hi (match_masks m).2)) = 32.
Proof.
  unfold zlen, shuffle_lane, match_masks. cbn [fst snd].
  rewrite length_zip_with, !length_fmap, length_seqZ. done.
Qed.

Lemma period_spread offset : 1 <= offset < 16 -> exists D, (idx PERIOD_SPREAD offset : dec Z) = Ok D /\
  (offset | D) /\ 16 <= D <= 32.
Proof.
  intros Ho.
  assert (forallb (fun o => match zget PERIOD_SPREAD o with
      Some D => (D mod o =? 0) && (16 <=? D) && (D <=? 32) | None => false end) (seqZ 1 15) = true) as H
    by reflexivity.
  rewrite forallb_forall in H. specialize (H offset).
  unfold idx. destruct (zget PERIOD_SPREAD offset) as [D|].
  - exists D. rewrite !andb_true_iff, Z.eqb_eq, !Z.leb_le in H.
    destruct H as [[H1 H2] H3]; [apply list_elem_of_In, elem_of_seqZ; lia|].
    split; [done|]. split; [apply Z.mod_divide; lia|lia].
  - discriminate H. apply list_elem_of_In, elem_of_seqZ. lia.
Qed.

(** The head in memory: 32 matched bytes. *)
Lemma head_shuffled m m' dst offset lo hi : 1 <= offset ->
  frame m m' dst 32 ->
  (forall i, 0 <= i < 32 -> zget (m_out m') (dst + i) =
     zget (lo ++ hi) (32 - Z.min offset 32 + i mod Z.min offset 32)) ->
  (forall i, 0 <= i < 32 -> zget (lo ++ hi) i = zget (m_out m) (dst - Z.max offset 32 + i)) ->
  matched m dst offset 32 m'.
Proof.
  intros Ho Hf Hh Hs. split; [lia|]. split; [done|]. intros i Hi.
  assert (forall j, 0 <= j < 32 -> zget (m_out m') (dst + j) =
    zget (m_out m) (dst - offset + j mod Z.min offset 32)) as Hm.
  { intros j Hj. pose proof (Z.mod_pos_bound j (Z.min offset 32)). rewrite Hh, Hs by lia. f_equal. lia. }
  rewrite Hm by lia. destruct (Z_lt_dec i offset).
  - rewrite (fr_out _ _ _ _ Hf) by lia. rewrite Z.mod_small by lia. f_equal. lia.
  - replace (dst + i - offset) with (dst + (i - offset)) by lia. rewrite Hm by lia.
    rewrite Z.min_l by lia. f_equal. f_equal. rewrite <- (Z.mod_add (i - offset) 1 offset) by lia.
    f_equal. lia.
Qed.

Lemma copy_match_short_matched m dst offset ml : 1 <= ml -> 1 <= offset <= dst -> 32 <= dst ->
  dst + ml + 31 <= zlen (m_out m) ->
  returns (match_done m dst offset ml) (copy_match_short m dst offset ml).
Proof.
  intros Hml Ho Hd Hl. unfold copy_match_short.
  eapply returns_bind; [apply read_ok; cbn; lia|]. intros lo [Hlo Hlob].
  eapply returns_bind; [apply read_ok; unfold padd; cbn; lia|]. intros hi [Hhi Hhib].
  unfold padd in Hhib. cbn in Hlob, Hhib.
  set (head := zip_with _ _ _). assert (zlen head = 32) as Hh by apply shuffle_head_len.
  eapply returns_bind; [apply write_ok; lia|]. intros m1 [Hf1 Hb1]. rewrite Hh in Hf1, Hb1.
  assert (matched m dst offset 32 m1) as Hm1.
  { apply (head_shuffled m m1 dst offset lo hi); [lia|done| |].
    - intros i Hi. rewrite Hb1 by lia. apply shuffle_head; lia.
    - intros i Hi. destruct (Z_lt_dec i 16).
      + rewrite zget_app_l by lia. apply Hlob. lia.
      + rewrite zget_app_r, Hlo by lia. rewrite Hhib by lia. f_equal. lia. }
  destruct (Z.ltb_spec 32 ml); [|apply (matched_done _ _ _ _ 32); [done|lia]].
  destruct (Z.leb_spec 16 offset).
  - cbn [mbind res_bind].
    apply (continue_periodic m dst offset offset); try lia; [apply Z.divide_refl|done].
  - destruct (period_spread offset) as (D & -> & HD & HDr); [lia|]. cbn [mbind res_bind].
    apply (continue_periodic m dst offset D); done || lia.
Qed.

(** ** The instances *)

#[export] Instance Fallback_laws : WildCopyLaws Fallback.
Proof.
  split; cbn; [lia|..].
  - intros. by apply (wildcopy_forward m dst src len 16).
  - intros. apply fallback_copy_match_matched; lia.
Qed.

#[export] Instance FallbackShortOffsets_laws : WildCopyLaws FallbackShortOffsets.
Proof.
  split; cbn; [lia|..].
  - intros. by apply (wildcopy_forward m dst src len 16).
  - intros. apply fallback_short_matched; lia.
Qed.

#[export] Instance Avx2_laws : WildCopyLaws Avx2.
Proof.
  split; cbn; [lia|..].
  - intros. by apply wildcopy32_forward.
  - intros. apply avx2_matched; lia.
Qed.

#[export] Instance Avx2ShortOffsets_laws : WildCopyLaws Avx2ShortOffsets.
Proof.
  split; cbn; [lia|..].
  - intros. by apply wildcopy32_forward.
  - intros m dst offset ml avail Hml Ho Ha Hl. destruct (Z.ltb_spec avail 32).
    + apply avx2_matched; lia.
    + apply copy_match_short_matched; lia.
Qed.

(** ** The reference copy *)

(** A match, byte by byte: [n] bytes appended, each from [offset] back. *)
Fixpoint lz_match (out : list Z) (offset : Z) (n : nat) : list Z :=
  match n with
  | O => out
  | S n => lz_match (out ++ [default 0 (zget out (zlen out - offset))]) offset n
  end.

Lemma zlen_lz_match offset n : forall out, zlen (lz_match out offset n) = zlen out + Z.of_nat n.
Proof.
  induction n as [|n IH]; intros out; cbn [lz_match]; [lia|].
  rewrite IH, zlen_app. unfold zlen. cbn. lia.
Qed.

Lemma lz_match_unique offset n : forall out l, 1 <= offset <= zlen out ->
  zlen l = zlen out + Z.of_nat n -> (forall i, 0 <= i < zlen out -> zget l i = zget out i) ->
  (forall i, zlen out <= i < zlen l -> zget l i = zget l (i - offset)) ->
  l = lz_match out offset n.
Proof.
  induction n as [|n IH]; intros out l Ho Hl Hp Hper; cbn [lz_match].
  - apply zlist_eq; [lia|]. intros i Hi. apply Hp. lia.
  - assert (zlen (out ++ [default 0 (zget out (zlen out - offset))]) = zlen out + 1) as Hlen
      by (rewrite zlen_app; done).
    apply IH; rewrite ?Hlen; try lia.
    + intros i Hi. destruct (Z.eq_dec i (zlen out)) as [->|].
      * rewrite zget_app_r, Z.sub_diag by lia. rewrite Hper, Hp by lia.
        destruct (zget_is_Some out (zlen out - offset)) as [x ->]; [lia|done].
      * rewrite zget_app_l by lia. apply Hp. lia.
    + intros i Hi. apply Hper. lia.
Qed.

(** A matched memory holds the reference copy. *)
Lemma matched_lz m0 m dst offset ml : 1 <= offset <= dst -> 1 <= ml ->
  dst + ml + 31 <= zlen (m_out m0) -> match_done m0 dst offset ml m ->
  ztake (dst + ml) (m_out m) = lz_match (ztake dst (m_out m0)) offset (Z.to_nat ml).
Proof.
  intros Ho Hml Hl [[Hfl _ _ Hfo] Hp].
  assert (zlen (ztake dst (m_out m0)) = dst) as Hd by (apply zlen_ztake; lia).
  assert (zlen (ztake (dst + ml) (m_out m)) = dst + ml) as Hd' by (apply zlen_ztake; lia).
  apply lz_match_unique; rewrite ?Hd, ?Hd'; try lia.
  - intros i Hi. rewrite !zget_ztake by lia. apply Hfo. lia.
  - intros i Hi. rewrite !zget_ztake by lia.
    replace i with (dst + (i - dst)) by lia. rewrite Hp by lia. f_equal.
Qed.

Definition variants : list WildCopy := [Fallback; FallbackShortOffsets; Avx2; Avx2ShortOffsets].

(** C30: every [copy_match] copies a match as the byte-by-byte copy at its
    offset does, overlapping or not: its accesses are in bounds, its
    [copy_nonoverlapping]s do not overlap, the output up to the match's end
    is the reference's, and at most 31 bytes past that end change. *)
Theorem copy_match_reference W m dst offset ml avail : In W variants ->
  1 <= ml -> 1 <= offset <= avail -> avail <= dst -> dst + ml + 31 <= zlen (m_out m) ->
  exists m', @copy_match W m dst offset ml avail = Ok m' /\
    ztake (dst + ml) (m_out m') = lz_match (ztake dst (m_out m)) offset (Z.to_nat ml) /\
    frame m m' dst (ml + 31).
Proof.
  intros HW Hml Ho Ha Hl.
  assert (WildCopyLaws W) as HL
    by (destruct HW as [<-|[<-|[<-|[<-|[]]]]]; typeclasses eauto).
  pose proof (copy_match_law m dst offset ml avail Hml Ho Ha Hl) as H.
  apply returns_inv in H as (m' & Hm & Hf & Hp). exists m'. split; [done|]. split; [|done].
  apply matched_lz; [lia|lia|done|by split].
Qed.

(** A 40-byte match at offset 3, the shuffled head included. *)
Lemma copy_match_reference_witness :
  let m := MkMem (seqZ 0 40 ++ zrepeat 0 80) [] [] in
  exists m', @copy_match Avx2ShortOffsets m 40 3 40 40 = Ok m' /\
    ztake 80 (m_out m') = seqZ 0 40 ++ concat (replicate 13 [37; 38; 39]) ++ [37] /\
    frame m m' 40 71.
Proof.
  intros m.
  assert (40 + 40 + 31 <= zlen (m_out m)) as Hl by (vm_compute; discriminate).
  destruct (copy_match_reference Avx2ShortOffsets m 40 3 40 40) as (m' & H1 & H2 & H3);
    [cbn; tauto|lia..|done|].
  exists m'. split; [done|]. split; [|done]. etransitivity; [exact H2|]. vm_compute. reflexivity.
Defined.
