(* ===== verification/SeqExec.v ===== *)
(** * Decoding and executing sequences ([src/decode.rs], "Sequence execution")

    A block's sequences are decoded from the backward bit stream by three
    FSE states and executed at once: literals copied from the block's, a
    match from the output. The code is generic in its copies ([WildCopy],
    the variants of [Copy]) and in whether matches reach outside the segment
    ([EXT]). Addresses are offsets into their buffers; the sums the code
    takes of them are below [2 ^ 64], so comparing offsets compares
    addresses. *)

From S2P Require Import Prelude Words Constants Errors FseTable BitDStream SeqTables Copy.

Definition USIZE_MAX : Z := 2 ^ 64 - 1.

(** ** Where a block goes *)

(** [ExtHistory]. *)
Record ExtHistory := MkExt {
  e_end : Copy.ptr;
  e_len : Z;
  e_dict : bool;
}.

(** [ExtHistory::NONE]. *)
Definition ext_none : ExtHistory := MkExt (BExt, 0) 0 false.

(** [ExtHistory::dict]. *)
Definition ext_dict (content : list Z) : ExtHistory := MkExt (BExt, zlen content) (zlen content) true.

(** [Dst]. *)
Record Dst := MkDst {
  d_base : Z;
  d_op : Z;
  d_window : Z;
}.

(** [Prefix]. *)
Record Prefix := MkPrefix {
  p_start : Z;
  p_window : Z;
}.

(** [Prefix::dst]: the output with [room] bytes reserved (zeros here; no
    theorem depends on what they hold), and where the block goes. *)
Definition prefix_dst (p : Prefix) (output : list Z) (room : Z) : list Z * Dst :=
  (output ++ zrepeat 0 room, MkDst (p_start p) (zlen output - p_start p) (p_window p)).

(** ** Decoding one sequence *)

(** [SeqState]. *)
Record SeqState := MkSt {
  s_ll : Z;
  s_ml : Z;
  s_of : Z;
  s_hist : list Z;
}.

(** The offset of [decode_sequence], and the history it updates. *)
Definition decode_offset (br : BitDStream) (hist : list Z) (base bits ll : Z)
    : dec (Z * list Z * BitDStream) :=
  if 1 <? bits then
    let '(x, br) := read_bits_fast br bits in
    let o := base + x in
    h1 ← idx hist 1; hist ← store hist 2 h1;
    h0 ← idx hist 0; hist ← store hist 1 h0;
    hist ← store hist 0 o;
    Ok (o, hist, br)
  else
    let ll0 := Z.b2z (ll =? 0) in
    if bits =? 0 then
      o ← idx hist ll0;
      h ← idx hist (1 - ll0); hist ← store hist 1 h;
      hist ← store hist 0 o;
      Ok (o, hist, br)
    else
      let '(x, br) := read_bits_fast br 1 in
      let o := 1 + ll0 + x in
      temp ← (if o =? 3 then h0 ← idx hist 0; Ok (wsub 64 h0 1) else idx hist o);
      let temp := if temp =? 0 then USIZE_MAX else temp in
      hist ← (if negb (o =? 1) then h1 ← idx hist 1; store hist 2 h1 else Ok hist);
      h0 ← idx hist 0; hist ← store hist 1 h0;
      hist ← store hist 0 temp;
      Ok (temp, hist, br).

(** A next state: [usize::from(e.next_state) + br.read_bits(e.num_bits)]. *)
Definition next_of (br : BitDStream) (e : FSEEntry) : Z * BitDStream :=
  let '(x, br) := read_bits br (num_bits e) in (next_state e + x, br).

(** [decode_sequence]. The unchecked [table_entry] is a checked access. *)
Definition decode_sequence (br : BitDStream) (st : SeqState)
    (ll_dt ml_dt of_dt : list FSEEntry) (is_last : bool)
    : dec ((Z * Z * Z) * BitDStream * SeqState) :=
  ll_e ← idx ll_dt (s_ll st);
  ml_e ← idx ml_dt (s_ml st);
  of_e ← idx of_dt (s_of st);
  let ll := base_value ll_e in
  let ml := base_value ml_e in
  let ll_bits := extra_bits ll_e in
  let ml_bits := extra_bits ml_e in
  let of_bits := extra_bits of_e in
  let total_bits := ll_bits + ml_bits + of_bits in
  '(offset, hist, br) ← decode_offset br (s_hist st) (base_value of_e) of_bits ll;
  let '(ml, br) :=
    if 0 <? ml_bits then let '(x, br) := read_bits_fast br ml_bits in (ml + x, br) else (ml, br) in
  br ← (if 57 - 26 <=? total_bits then '(_, br) ← reload br; Ok br else Ok br);
  let '(ll, br) :=
    if 0 <? ll_bits then let '(x, br) := read_bits_fast br ll_bits in (ll + x, br) else (ll, br) in
  if is_last then Ok ((ll, ml, offset), br, MkSt (s_ll st) (s_ml st) (s_of st) hist)
  else
    let '(sl, br) := next_of br ll_e in
    let '(sm, br) := next_of br ml_e in
    let '(so, br) := next_of br of_e in
    '(_, br) ← reload br;
    Ok ((ll, ml, offset), br, MkSt sl sm so hist).

(** ** Executing one sequence *)

(** [SeqCursor]: [op] in the output, [lit] in the literals. *)
Record SeqCursor := MkCur {
  c_op : Z;
  c_lit : Z;
}.

(** [SeqLimits]. *)
Record SeqLimits := MkLim {
  l_oend_w : Z;
  l_lit_limit : Z;
  l_prefix : Z;
  l_ext : ExtHistory;
  l_window : Z;
}.

(** The copies have no errors of their own. *)
Definition no_err {A} (m : dec A) : res SeqError A :=
  match m with
  | Ok a => Ok a
  | Err _ | Fault => Fault
  | Stuck => Stuck
  end.

Section copies.
Context (W : WildCopy).

(** [copy_literals]. *)
Definition copy_literals (m : Mem) (op lit ll : Z) : dec Mem :=
  m ← copy16 m op (BLit, lit);
  if 16 <? ll then w_wildcopy m (op + 16) (BLit, lit + 16) (ll - 16) else Ok m.

(** [exec_sequence_ext]. *)
Definition exec_sequence_ext (m : Mem) (op lit ll ml offset avail : Z) (ext : ExtHistory)
    : res SeqError Mem :=
  if offset =? 0 then Err OffsetTooFar
  else if e_len ext <? offset - avail then
    Err (if e_dict ext then OffsetBeforeDict else OffsetTooFar)
  else
    m ← no_err (copy_literals m op lit ll);
    let dst := op + ll in
    let back := offset - avail in
    let head := Z.min back ml in
    m ← no_err (copy m dst (padd (e_end ext) (- back)) head);
    if head <? ml then no_err (copy_match m (dst + head) offset (ml - head) offset) else Ok m.

(** [exec_sequence] past its test of the window. *)
Definition exec_sequence_within (EXT : bool) (m : Mem) (cur : SeqCursor) (lim : SeqLimits)
    (ll ml offset : Z) : res SeqError (Mem * SeqCursor) :=
  let op := c_op cur in
  let lit := c_lit cur in
  let o_lit_end := op + ll in
  let o_match_end := o_lit_end + ml in
  if l_lit_limit lim <? lit + ll then Err NotEnoughLiterals
  else if l_oend_w lim <? o_match_end then Err BlockTooLarge
  else
    let cur' := MkCur (op + (ll + ml)) (lit + ll) in
    if o_lit_end - l_prefix lim <=? wsub 64 offset 1 then
      if negb EXT then Err OffsetTooFar
      else
        let avail := o_lit_end - l_prefix lim in
        let back := wsub 64 offset avail in
        if (back <=? e_len (l_ext lim)) && (ml + WILDCOPY_OVERLENGTH <=? back) then
          m ← no_err (copy_literals m op lit ll);
          m ← no_err (w_wildcopy m (op + ll) (padd (e_end (l_ext lim)) (- back)) ml);
          Ok (m, cur')
        else
          m ← exec_sequence_ext m op lit ll ml offset avail (l_ext lim);
          Ok (m, cur')
    else
      m ← no_err (copy_literals m op lit ll);
      m ← no_err (copy_match m (op + ll) offset ml (o_lit_end - l_prefix lim));
      Ok (m, cur').

(** [exec_sequence_past_window]: its call of [exec_sequence] is one with
    [window: usize::MAX], which no [usize] exceeds. *)
Definition exec_sequence_past_window (m : Mem) (cur : SeqCursor) (lim : SeqLimits)
    (ll ml offset : Z) : res SeqError (Mem * SeqCursor) :=
  let avail := c_op cur + ll - l_prefix lim in
  if negb (e_dict (l_ext lim)) || (l_window lim <? avail) then Err OffsetPastWindow
  else
    let lim := MkLim (l_oend_w lim) (l_lit_limit lim) (l_prefix lim) (l_ext lim) USIZE_MAX in
    _ ← rassert (negb (l_window lim <? offset));
    exec_sequence_within true m cur lim ll ml offset.

(** [exec_sequence]. *)
Definition exec_sequence (EXT : bool) (m : Mem) (cur : SeqCursor) (lim : SeqLimits)
    (ll ml offset : Z) : res SeqError (Mem * SeqCursor) :=
  if l_window lim <? offset then
    if negb EXT then Err OffsetPastWindow
    else exec_sequence_past_window m cur lim ll ml offset
  else exec_sequence_within EXT m cur lim ll ml offset.
End copies.

(** ** A block's sequences *)

(** [SeqInput]; its literals are the memory's [BLit]. *)
Record SeqInput := MkSeqIn {
  q_num : Z;
  q_bits : list Z;
  q_ll : FSETable;
  q_of : FSETable;
  q_ml : FSETable;
}.

(** One turn of the loop of [run_sequences]. *)
Definition seq_step (W : WildCopy) (EXT : bool) (ll_dt ml_dt of_dt : list FSEEntry) (lim : SeqLimits)
    (is_last : bool) (r : BitDStream * SeqState * Mem * SeqCursor)
    : dec (BitDStream * SeqState * Mem * SeqCursor) :=
  let '(br, st, m, cur) := r in
  '((ll, ml, offset), br, st) ← decode_sequence br st ll_dt ml_dt of_dt is_last;
  '(m, cur) ← map_err seq_error_message (exec_sequence W EXT m cur lim ll ml offset);
  Ok (br, st, m, cur).

(** The three initial states. *)
Definition init_states (br : BitDStream) (ll_log of_log ml_log : Z)
    : dec (Z * Z * Z * BitDStream) :=
  let '(ll_state, br) := read_bits br ll_log in
  '(_, br) ← reload br;
  let '(of_state, br) := read_bits br of_log in
  '(_, br) ← reload br;
  let '(ml_state, br) := read_bits br ml_log in
  '(_, br) ← reload br;
  Ok (ll_state, of_state, ml_state, br).

(** The end of [run_sequences]: the stream's, and the last literals. *)
Definition finish_block (out oend literals_len : Z) (r : BitDStream * SeqState * Mem * SeqCursor)
    : dec (Z * list Z * Mem) :=
  let '(br, st, m, cur) := r in
  let op := c_op cur - out in
  let lit_pos := c_lit cur in
  _ ← fail_if (negb (is_finished br)) ESequencesNotConsumed;
  _ ← rassert (lit_pos <=? literals_len);
  let rest := literals_len - lit_pos in
  _ ← fail_if (oend <? op + rest) (seq_error_message BlockTooLarge);
  m ← copy_nonoverlapping m (out + op) (BLit, lit_pos) rest;
  let op := op + rest in
  h0 ← idx (s_hist st) 0; h1 ← idx (s_hist st) 1; h2 ← idx (s_hist st) 2;
  Ok (op, [wrap 32 h0; wrap 32 h1; wrap 32 h2], m).

(** [run_sequences]: the block's end, the offset history and the memory. *)
Definition run_sequences (W : WildCopy) (EXT : bool) (seqs : SeqInput) (ext : ExtHistory)
    (offset_hist : list Z) (m : Mem) (dst : Dst) : dec (Z * list Z * Mem) :=
  let out := d_base dst in
  let op := d_op dst in
  ll_dt ← FseTable.decode (q_ll seqs);
  of_dt ← FseTable.decode (q_of seqs);
  ml_dt ← FseTable.decode (q_ml seqs);
  let ll_log := accuracy_log (q_ll seqs) in
  let of_log := accuracy_log (q_of seqs) in
  let ml_log := accuracy_log (q_ml seqs) in
  _ ← fail_if (negb (zlen ll_dt =? Z.shiftl 1 ll_log) || negb (zlen of_dt =? Z.shiftl 1 of_log)
               || negb (zlen ml_dt =? Z.shiftl 1 ml_log)) EFseUninitialized;
  _ ← rassert (WILDCOPY_OVERLENGTH <=? zlen (m_lit m));
  let literals_len := zlen (m_lit m) - WILDCOPY_OVERLENGTH in
  let oend := op + MAX_BLOCK_SIZE in
  br ← BitDStream.new (q_bits seqs);
  '(ll_state, of_state, ml_state, br) ← init_states br ll_log of_log ml_log;
  h0 ← idx offset_hist 0; h1 ← idx offset_hist 1; h2 ← idx offset_hist 2;
  let st := MkSt ll_state ml_state of_state [h0; h1; h2] in
  let cur := MkCur (out + op) 0 in
  let lim := MkLim (out + oend) literals_len out ext (d_window dst) in
  r ← foldM (fun r _ => seq_step W EXT ll_dt ml_dt of_dt lim false r) (br, st, m, cur)
        (seqZ 1 (q_num seqs - 1));
  r ← seq_step W EXT ll_dt ml_dt of_dt lim true r;
  finish_block out oend literals_len r.

(** [BlockSequences]. *)
Class BlockSequences (S : Type) :=
  execute : forall W : WildCopy, S -> list Z -> Mem -> Dst -> dec (Z * list Z * Mem).

#[export] Instance SeqInput_sequences : BlockSequences SeqInput :=
  fun W seqs hist m dst => run_sequences W false seqs ext_none hist m dst.

(** [ExtSeqInput]. *)
Record ExtSeqInput := MkExtIn {
  x_seqs : SeqInput;
  x_ext : ExtHistory;
}.

#[export] Instance ExtSeqInput_sequences : BlockSequences ExtSeqInput :=
  fun W seqs hist m dst => run_sequences W true (x_seqs seqs) (x_ext seqs) hist m dst.

(** The SIMD levels sequence execution tells apart. *)
Inductive Level := LAvx2 | LFallback.

(** The copies [execute_with] picks. *)
Definition pick_copies (simd : Level) (short : bool) : WildCopy :=
  match simd with
  | LAvx2 => if short then Avx2ShortOffsets else Avx2
  | LFallback => if short then FallbackShortOffsets else Fallback
  end.

(** [execute_with]. *)
Definition execute_with {S} `{BlockSequences S} (simd : Level) (short : bool) (seqs : S)
    (offset_hist : list Z) (block_size_max : Z) (m : Mem) (dst : Dst) : dec (Z * list Z * Mem) :=
  '(end_, hist, m) ← execute (pick_copies simd short) seqs offset_hist m dst;
  let decoded := end_ - d_op dst in
  _ ← fail_if (block_size_max <? decoded) (EBlockDecodesTo decoded block_size_max);
  Ok (end_, hist, m).

(** [execute_with_copies]. *)
Definition execute_with_copies {S} `{BlockSequences S} (simd : Level) (offsets : FSETable) (seqs : S)
    (offset_hist : list Z) (block_size_max : Z) (m : Mem) (dst : Dst) : dec (Z * list Z * Mem) :=
  share ← short_offset_share offsets;
  execute_with simd (SHORT_OFFSET_SHARE_MIN <=? share) seqs offset_hist block_size_max m dst.
