(* ===== verification/SeqDecode.v ===== *)
(** * Sequences as the bit stream spells them

    A reference decoder of sequences over one big number, its repeat offsets
    as the format defines them, and its equality with [decode_sequence] and
    its 64-bit container. The encoder's history ([src/compress/seqstore.rs],
    [update_rep]) is the same one. *)

From S2P Require Import Prelude Words Constants Errors FseTable FseBuild.
From S2P Require Import Headers SeqTables Copy SeqExec BitDStream.

(** ** The encoder's offset history *)

Definition offset_to_offbase (offset : Z) : Z := offset + ZSTD_REP_NUM.
Definition repcode_to_offbase (repcode : Z) : Z := repcode.
Definition offbase_is_offset (off_base : Z) : bool := ZSTD_REP_NUM <? off_base.
Definition offbase_is_repcode (off_base : Z) : bool := (1 <=? off_base) && (off_base <=? ZSTD_REP_NUM).

(** [offbase_to_offset] and [offbase_to_repcode], with their assertions. *)
Definition offbase_to_offset (off_base : Z) : dec Z :=
  _ ← rassert (offbase_is_offset off_base); Ok (off_base - ZSTD_REP_NUM).
Definition offbase_to_repcode (off_base : Z) : dec Z :=
  _ ← rassert (offbase_is_repcode off_base); Ok off_base.

(** [update_rep]; its subtraction in [u32] panics below zero. *)
Definition update_rep (rep : list Z) (off_base : Z) (ll0 : bool) : dec (list Z) :=
  if offbase_is_offset off_base then
    r1 ← idx rep 1; rep ← store rep 2 r1;
    r0 ← idx rep 0; rep ← store rep 1 r0;
    o ← offbase_to_offset off_base; store rep 0 o
  else
    r ← offbase_to_repcode off_base;
    let rep_code := r - 1 + Z.b2z ll0 in
    if 0 <? rep_code then
      current ← (if rep_code =? ZSTD_REP_NUM then
                   r0 ← idx rep 0; _ ← rassert (1 <=? r0); Ok (r0 - 1)
                 else idx rep rep_code);
      r2 ← (if 2 <=? rep_code then idx rep 1 else idx rep 2);
      rep ← store rep 2 r2;
      r0 ← idx rep 0; rep ← store rep 1 r0;
      store rep 0 current
    else Ok rep.

(** ** The reference *)

(** The [n] bits below a cursor at [u]. *)
Definition rd (v u n : Z) : option (Z * Z) :=
  if n <=? u then Some (bits v (u - n) n, u - n) else None.

(** The offset an offset value stands for, and the history after it: a value
    above 3 is an offset, a smaller one names a recent offset, one further
    when the sequence has no literals. The zero that [offset1 - 1] may give
    is no offset. *)
Definition repcode (hist : list Z) (value : Z) (ll0 : bool) : Z * list Z :=
  match hist with
  | [h0; h1; h2] =>
      if 3 <? value then (value - 3, [value - 3; h0; h1])
      else
        let k := value + Z.b2z ll0 in
        if k =? 1 then (h0, [h0; h1; h2])
        else if k =? 2 then (h1, [h1; h0; h2])
        else if k =? 3 then (h2, [h2; h0; h1])
        else let o := if h0 =? 1 then USIZE_MAX else h0 - 1 in (o, [o; h0; h1])
  | _ => (0, hist)
  end.

(** One sequence: offset bits, match length bits, literal length bits, then
    the three states' bits. *)
Definition ref_sequence (v u : Z) (st : SeqState) (ll_dt ml_dt of_dt : list FSEEntry) (last : bool)
    : option ((Z * Z * Z) * Z * SeqState) :=
  ll_e ← zget ll_dt (s_ll st);
  ml_e ← zget ml_dt (s_ml st);
  of_e ← zget of_dt (s_of st);
  '(x, u) ← rd v u (extra_bits of_e);
  '(y, u) ← rd v u (extra_bits ml_e);
  '(z, u) ← rd v u (extra_bits ll_e);
  let ll := base_value ll_e + z in
  let ml := base_value ml_e + y in
  let '(offset, hist) := repcode (s_hist st) (2 ^ extra_bits of_e + x) (ll =? 0) in
  if last then Some ((ll, ml, offset), u, MkSt (s_ll st) (s_ml st) (s_of st) hist)
  else
    '(a, u) ← rd v u (num_bits ll_e);
    '(b, u) ← rd v u (num_bits ml_e);
    '(c, u) ← rd v u (num_bits of_e);
    Some ((ll, ml, offset), u,
          MkSt (next_state ll_e + a) (next_state ml_e + b) (next_state of_e + c) hist).

(** ** Reads between reloads *)

(** [k] more bits can be read: the container holds them, or is the last. *)
Definition room (br : BitDStream) (k : Z) : Prop := bits_consumed br + k <= 64 \/ ptr br = 0.

Lemma room_le br k k' : room br k -> k' <= k -> room br k'.
Proof. unfold room. lia. Qed.

(** A read of [n] bits: the cursor's next, when there are as many. *)
Record reads (br : BitDStream) (k n : Z) (br' : BitDStream) (x : Z) : Prop := {
  rs_ok : stream_ok br';
  rs_src : src br' = src br;
  rs_unread : unread br' = unread br - n;
  rs_room : room br' (k - n);
  rs_range : 0 <= x < 2 ^ n;
  rs_value : 0 <= unread br' -> x = bits (stream_val br) (unread br - n) n;
}.

Lemma room_consumed br k : stream_ok br -> room br k -> 0 <= k ->
  bits_consumed br <= 64 + Z.max 0 (- unread br).
Proof. intros [_ Hp _ _ _] Hr Hk. unfold room, unread in *. lia. Qed.

Lemma read_bits_reads br k n : stream_ok br -> room br k -> 0 <= n <= k -> n <= 56 ->
  - 2 ^ 31 <= unread br -> let '(x, br') := read_bits br n in reads br k n br' x.
Proof.
  intros Hok Hr Hn Hn56 Hu. unfold read_bits. pose proof (room_consumed br k Hok Hr ltac:(lia)) as Hc.
  change (2 ^ 31) with 2147483648 in Hu.
  destruct (skip_bits_ok br n Hok ltac:(lia)) as (Hok' & Hu' & Hc').
  { change (2 ^ 32) with 4294967296. lia. }
  split; [done|done|done| | |].
  - unfold room, skip_bits in *. cbn in *. lia.
  - apply look_bits_any_range. lia.
  - intros Hpos. destruct (Z.eq_dec n 0) as [->|].
    + rewrite bits_0. pose proof (look_bits_any_range br 0 ltac:(lia)). lia.
    + rewrite look_bits_any_peek; [apply peek_bits; lia|done|lia|].
      unfold loaded, room, unread in *. cbn in *. pose proof Hok as [_ Hp _ _ _]. lia.
Qed.

Lemma read_bits_fast_eq br n : 1 <= n <= 56 -> read_bits_fast br n = read_bits br n.
Proof. intros. unfold read_bits_fast, read_bits. by rewrite look_bits_any_look. Qed.

(** A reload keeps the cursor and makes room for 57 bits. *)
Lemma reload_room br : stream_ok br -> room br 0 ->
  returns (fun '(_, br') => stream_ok br' /\ src br' = src br /\ unread br' = unread br /\ room br' 57)
    (reload br).
Proof.
  intros Hok Hr. eapply returns_mono; [by apply reload_ok|].
  intros [st br'] (Hov & Hsame & Hrel). pose proof Hrel as [Hok' Hs Hu Hun He Hco].
  split; [done|]. split; [done|]. split; [done|]. unfold room in *. destruct st.
  - specialize (Hun eq_refl). lia.
  - specialize (He eq_refl). lia.
  - specialize (Hco eq_refl). lia.
  - rewrite (Hsame eq_refl). assert (64 < bits_consumed br) by by apply Hov. lia.
Qed.

Lemma new_room s br : bytes s -> new s = Ok br ->
  src br = s /\ stream_ok br /\ unread br = Z.log2 (le_val s) /\ 0 < le_val s /\ room br 56 /\
  exists last, zget s (zlen s - 1) = Some last /\ last <> 0.
Proof.
  intros Hs Hn. pose proof (new_ok s Hs) as H. rewrite Hn in H.
  destruct H as (Hsrc & Hok & Hu & Hb & Hpos). split_and!; try done.
  - pose proof (new_loaded s br Hs Hn) as Hl. unfold loaded, room, unread in *.
    pose proof Hok as [_ Hp _ _ _]. lia.
  - unfold new in Hn. destruct (zget s _) as [last|]; [|discriminate].
    exists last. split; [done|]. intros ->. discriminate.
Qed.

Lemma is_finished_room br : stream_ok br -> room br 0 -> is_finished br = (unread br =? 0).
Proof.
  intros [_ Hp _ _ _] Hr. unfold is_finished, unread, room in *.
  apply eq_iff_eq_true. rewrite andb_true_iff, !Z.eqb_eq. lia.
Qed.

(** The reference's read at the reader's cursor. *)
Lemma rd_reads br k n br' x : reads br k n br' x ->
  rd (stream_val br) (unread br) n = if 0 <=? unread br' then Some (x, unread br') else None.
Proof.
  intros [_ _ Hu _ _ Hv]. unfold rd. rewrite Hu in *.
  destruct (Z.leb_spec n (unread br)), (Z.leb_spec 0 (unread br - n)); try lia; [|done].
  by rewrite Hv by lia.
Qed.

Lemma reads_val br k n br' x : reads br k n br' x -> stream_val br' = stream_val br.
Proof. intros [_ Hs _ _ _ _]. unfold stream_val. by rewrite Hs. Qed.

(** ** Cells *)

Definition ll_kind : SeqTableKind := MkKind LL_MAX_LOG MAX_LITERAL_LENGTH_CODE LL_DEFAULT_ACC_LOG
  LITERALS_LENGTH_DEFAULT_DISTRIBUTION DEC_LL_BASE DEC_LL_BITS.
Definition of_kind : SeqTableKind := MkKind OF_MAX_LOG MAX_OFFSET_CODE OF_DEFAULT_ACC_LOG
  OFFSET_DEFAULT_DISTRIBUTION DEC_OF_BASE DEC_OF_BITS.
Definition ml_kind : SeqTableKind := MkKind ML_MAX_LOG MAX_MATCH_LENGTH_CODE ML_DEFAULT_ACC_LOG
  MATCH_LENGTH_DEFAULT_DISTRIBUTION DEC_ML_BASE DEC_ML_BITS.

(** The cells a state indexes. *)
Definition cells_ok (kind : SeqTableKind) (log : Z) (dt : list FSEEntry) : Prop :=
  0 <= log <= max_log kind /\ zlen dt = 2 ^ log /\
  forall i, 0 <= i < 2 ^ log -> exists e, zget dt i = Some e /\ seq_cell_ok kind log e.

(** The cells of a table. *)
Definition table_cells (t : FSETable) : list FSEEntry := ztake (size t) (cells t).

Lemma seq_table_cells kind t : seq_table_ok kind t ->
  FseTable.decode t = Ok (table_cells t) /\ cells_ok kind (accuracy_log t) (table_cells t).
Proof.
  intros [Hl Hs Hc Hcell]. pose proof (pow2_pos (accuracy_log t) ltac:(lia)). unfold table_cells.
  split; [by apply slice_prefix; lia|].
  split; [done|]. split; [rewrite zlen_ztake; lia|]. intros i Hi.
  rewrite zget_ztake by lia. apply Hcell. lia.
Qed.

(** A fact of every code of a kind is one of every cell. *)
Definition kind_fact (kind : SeqTableKind) (f : Z -> Z -> bool) : bool :=
  forall_below (max_code kind + 1) (fun c =>
    match zget (base kind) c, zget (kind_bits kind) c with Some b, Some x => f b x | _, _ => false end).

Lemma kind_fact_cell kind f log e : kind_fact kind f = true -> seq_cell_ok kind log e ->
  f (base_value e) (extra_bits e) = true.
Proof.
  intros Hf (_ & _ & _ & c & Hc & Hb & Hx). pose proof (forall_below_spec _ _ Hf c ltac:(lia)) as H.
  cbn in H. by rewrite Hb, Hx in H.
Qed.

Lemma ll_cell log e : seq_cell_ok ll_kind log e -> 0 <= extra_bits e <= 16 /\ 0 <= base_value e /\
  base_value e + 2 ^ extra_bits e <= 2 ^ 17 /\ (base_value e = 0 -> extra_bits e = 0).
Proof.
  intros He. pose proof (kind_fact_cell ll_kind (fun b x => (0 <=? x) && (x <=? 16) && (0 <=? b) &&
    (b + 2 ^ x <=? 2 ^ 17) && (negb (b =? 0) || (x =? 0))) log e eq_refl He) as H. cbn beta in H.
  rewrite !andb_true_iff, !Z.leb_le, orb_true_iff, negb_true_iff, Z.eqb_neq, Z.eqb_eq in H. lia.
Qed.

Lemma ml_cell log e : seq_cell_ok ml_kind log e -> 0 <= extra_bits e <= 16 /\ 3 <= base_value e /\
  base_value e + 2 ^ extra_bits e <= 2 ^ 18.
Proof.
  intros He. pose proof (kind_fact_cell ml_kind (fun b x => (0 <=? x) && (x <=? 16) && (3 <=? b) &&
    (b + 2 ^ x <=? 2 ^ 18)) log e eq_refl He) as H. cbn beta in H.
  rewrite !andb_true_iff, !Z.leb_le in H. lia.
Qed.

Lemma of_cell log e : seq_cell_ok of_kind log e -> 0 <= extra_bits e <= 31 /\
  (2 <= extra_bits e -> base_value e = 2 ^ extra_bits e - 3).
Proof.
  intros He. pose proof (kind_fact_cell of_kind (fun b x => (0 <=? x) && (x <=? 31) &&
    ((x <? 2) || (b =? 2 ^ x - 3))) log e eq_refl He) as H. cbn beta in H.
  rewrite !andb_true_iff, !Z.leb_le, orb_true_iff, Z.ltb_lt, Z.eqb_eq in H. lia.
Qed.

(** ** Offsets *)

(** A history of real offsets. *)
Definition hist_ok (h : list Z) : Prop :=
  exists h0 h1 h2, h = [h0; h1; h2] /\ 1 <= h0 < 2 ^ 32 /\ 1 <= h1 < 2 ^ 32 /\ 1 <= h2 < 2 ^ 32.

(** An offset and the history after it, or the offset that is never valid. *)
Definition offset_ok (o : Z) (h : list Z) : Prop := 1 <= o < 2 ^ 32 /\ hist_ok h \/ o = USIZE_MAX.

Lemma repcode_ok h value ll0 : hist_ok h -> 1 <= value < 2 ^ 32 ->
  let '(o, h') := repcode h value ll0 in offset_ok o h'.
Proof.
  intros (h0 & h1 & h2 & -> & B0 & B1 & B2) Hv. unfold repcode, offset_ok, hist_ok.
  change (2 ^ 32) with 4294967296 in *.
  destruct (Z.ltb_spec 3 value); [left; split; [lia|do 3 eexists; split_and!; done || lia]|].
  destruct (Z.eqb_spec (value + Z.b2z ll0) 1); [left; split; [lia|do 3 eexists; split_and!; done || lia]|].
  destruct (Z.eqb_spec (value + Z.b2z ll0) 2); [left; split; [lia|do 3 eexists; split_and!; done || lia]|].
  destruct (Z.eqb_spec (value + Z.b2z ll0) 3); [left; split; [lia|do 3 eexists; split_and!; done || lia]|].
  destruct (Z.eqb_spec h0 1); [by right|]. left; split; [lia|do 3 eexists; split_and!; done || lia].
Qed.

Lemma reads_0 br k : stream_ok br -> room br k -> reads br k 0 br 0.
Proof.
  intros Hok Hr. split; try done; try lia.
  - by rewrite Z.sub_0_r.
  - intros _. by rewrite bits_0.
Qed.

Lemma wsub_pred h : 1 <= h < 2 ^ 32 -> wsub 64 h 1 = h - 1.
Proof. intros. apply wrap_small. change (2 ^ 32) with 4294967296 in *. change (2 ^ 64) with 18446744073709551616. lia. Qed.

Lemma read_fast_reads br k n : stream_ok br -> room br k -> 1 <= n <= k -> n <= 56 ->
  - 2 ^ 31 <= unread br -> let '(x, br') := read_bits_fast br n in reads br k n br' x.
Proof. intros. rewrite read_bits_fast_eq by lia. apply read_bits_reads; done || lia. Qed.

Lemma decode_offset_ok br h log e b : stream_ok br -> room br 57 -> - 2 ^ 31 <= unread br ->
  hist_ok h -> seq_cell_ok of_kind log e ->
  returns (fun '(o, h', br') => exists x, reads br 57 (extra_bits e) br' x /\
      (o, h') = repcode h (2 ^ extra_bits e + x) (b =? 0) /\ offset_ok o h')
    (decode_offset br h (base_value e) (extra_bits e) b).
Proof.
  intros Hok Hr Hu Hh He. destruct (of_cell log e He) as [Hx Hb]. set (n := extra_bits e) in *.
  assert (forall x, 0 <= x < 2 ^ n -> forall o h', (o, h') = repcode h (2 ^ n + x) (b =? 0) ->
    offset_ok o h') as Hoff.
  { intros x Hxr o h' Heq. pose proof (repcode_ok h (2 ^ n + x) (b =? 0) Hh) as H. rewrite <- Heq in H.
    apply H. pose proof (pow2_pos n ltac:(lia)). pose proof (pow2_le n 31 ltac:(lia)).
    change (2 ^ 31) with 2147483648 in *. change (2 ^ 32) with 4294967296. lia. }
  pose proof Hh as (h0 & h1 & h2 & -> & B0 & B1 & B2). unfold decode_offset.
  destruct (Z.ltb_spec 1 n).
  - pose proof (read_fast_reads br 57 n Hok Hr ltac:(lia) ltac:(lia) Hu) as Hrd.
    destruct (read_bits_fast br n) as [x br']. cbn. exists x. split; [done|].
    pose proof (rs_range _ _ _ _ _ Hrd) as Hxr.
    assert ((base_value e + x, [base_value e + x; h0; h1]) = repcode [h0; h1; h2] (2 ^ n + x) (b =? 0)) as Heq.
    { pose proof (pow2_le 2 n ltac:(lia)). change (2 ^ 2) with 4 in *.
      unfold repcode. rewrite (proj2 (Z.ltb_lt _ _)) by lia. rewrite Hb by lia.
      replace (2 ^ n - 3 + x) with (2 ^ n + x - 3) by lia. done. }
    split; [done|]. by apply (Hoff x Hxr).
  - destruct (Z.eqb_spec n 0) as [H0|H0].
    + match goal with |- returns _ ?m =>
        assert (returns (fun '(o, h', br') => br' = br /\ (o, h') = repcode [h0; h1; h2] 1 (b =? 0)) m)
          as Hz end.
      { by destruct (b =? 0). }
      eapply returns_mono; [exact Hz|]. intros [[o h'] br'] [-> Heq]. exists 0.
      rewrite H0 in *. split; [by apply reads_0|]. split; [done|]. by apply (Hoff 0 ltac:(lia)).
    + assert (n = 1) as H1 by lia. rewrite H1 in *.
      pose proof (read_fast_reads br 57 1 Hok Hr ltac:(lia) ltac:(lia) Hu) as Hrd.
      destruct (read_bits_fast br 1) as [x br']. pose proof (rs_range _ _ _ _ _ Hrd) as Hxr.
      change (2 ^ 1) with 2 in *.
      match goal with |- returns _ ?m =>
        assert (returns (fun '(o, h', br2) => br2 = br' /\ (o, h') = repcode [h0; h1; h2] (2 + x) (b =? 0)) m) as Hz end.
      { unfold repcode. rewrite (proj2 (Z.ltb_ge 3 (2 + x))) by lia.
        replace (2 + x + Z.b2z (b =? 0)) with (1 + Z.b2z (b =? 0) + x + 1) by lia.
        assert (exists o, 1 + Z.b2z (b =? 0) + x = o /\ (o = 1 \/ o = 2 \/ o = 3)) as (o & -> & Ho)
          by (eexists; split; [done|destruct (b =? 0); cbn; lia]).
        destruct Ho as [-> |[-> | ->]].
        - change (1 + 1) with 2. eapply returns_intro; [reflexivity|]. cbn. destruct (Z.eqb_spec h1 0); [lia|done].
        - change (2 + 1) with 3. eapply returns_intro; [reflexivity|]. cbn. destruct (Z.eqb_spec h2 0); [lia|done].
        - change (3 + 1) with 4. eapply returns_intro; [reflexivity|]. cbn. rewrite wsub_pred by done.
          destruct (Z.eqb_spec (h0 - 1) 0), (Z.eqb_spec h0 1); done || lia. }
      eapply returns_mono; [exact Hz|]. intros [[o h'] br2] [-> Heq]. exists x. split; [done|].
      split; [done|]. by apply (Hoff x Hxr).
Qed.

(** ** One sequence *)

Lemma opt_read_ok br k n b : stream_ok br -> room br k -> 0 <= n <= k -> n <= 56 ->
  - 2 ^ 31 <= unread br ->
  let '(v, br') := (if 0 <? n then let '(x, br) := read_bits_fast br n in (b + x, br) else (b, br)) in
  exists x, v = b + x /\ reads br k n br' x.
Proof.
  intros Hok Hr Hn H56 Hu. destruct (Z.ltb_spec 0 n).
  - pose proof (read_fast_reads br k n Hok Hr ltac:(lia) H56 Hu) as H1.
    destruct (read_bits_fast br n) as [x br']. by exists x.
  - assert (n = 0) as -> by lia. exists 0. split; [lia|]. by apply reads_0.
Qed.

Lemma next_of_ok br k kind log e : stream_ok br -> room br k -> seq_cell_ok kind log e -> log <= 56 ->
  log <= k -> - 2 ^ 31 <= unread br ->
  let '(s, br') := next_of br e in
  exists x, s = next_state e + x /\ 0 <= s < 2 ^ log /\ reads br k (num_bits e) br' x.
Proof.
  intros Hok Hr (Hn & Hs & Hle & _) H56 Hk Hu. unfold next_of.
  pose proof (read_bits_reads br k (num_bits e) Hok Hr ltac:(lia) ltac:(lia) Hu) as H.
  destruct (read_bits br (num_bits e)) as [x br']. exists x. split; [done|]. split; [|done].
  pose proof (rs_range _ _ _ _ _ H). lia.
Qed.

(** One read of the reference: the stream holds it, or is overrun by the
    end, [u]. *)
Ltac ref_read E u :=
  rewrite E; match goal with |- context [if 0 <=? ?a then Some _ else None] =>
    destruct (Z.leb_spec 0 a); cbn [mbind option_bind];
    [|destruct (Z.leb_spec 0 u); [lia|done]] end.

Section sequence.
Context (ll_log ml_log of_log : Z) (ll_dt ml_dt of_dt : list FSEEntry).
Context (Hll : cells_ok ll_kind ll_log ll_dt) (Hml : cells_ok ml_kind ml_log ml_dt).
Context (Hof : cells_ok of_kind of_log of_dt).

Record states_ok (st : SeqState) : Prop := {
  ss_ll : 0 <= s_ll st < 2 ^ ll_log;
  ss_ml : 0 <= s_ml st < 2 ^ ml_log;
  ss_of : 0 <= s_of st < 2 ^ of_log;
}.

(** What decoding one sequence gives: a reader [br'] further on by at most
    89 bits, states inside the tables, and the reference's sequence unless
    the stream overran its start. *)
Record decoded (br : BitDStream) (st : SeqState) (last : bool) (ll ml offset : Z)
    (br' : BitDStream) (st' : SeqState) : Prop := {
  dq_ok : stream_ok br';
  dq_src : src br' = src br;
  dq_unread : unread br - 89 <= unread br' <= unread br;
  dq_room : room br' (if last then 0 else 57);
  dq_states : states_ok st';
  dq_ll : 0 <= ll < 2 ^ 17;
  dq_ml : 3 <= ml < 2 ^ 18;
  dq_offset : offset_ok offset (s_hist st');
  dq_ref : ref_sequence (stream_val br) (unread br) st ll_dt ml_dt of_dt last =
    if 0 <=? unread br' then Some ((ll, ml, offset), unread br', st') else None;
}.

(** The extra bits, before the states' updates. *)
Lemma reload_if_ok br k t r : stream_ok br -> room br k -> 0 <= k -> r <= 57 -> (t < 31 -> r <= k) ->
  returns (fun br' => stream_ok br' /\ src br' = src br /\ unread br' = unread br /\ room br' r)
    (if 57 - 26 <=? t then '(_, br) ← reload br; Ok br else Ok br).
Proof.
  intros Hok Hr Hk H57 Hle. destruct (Z.leb_spec (57 - 26) t).
  - eapply returns_bind; [apply reload_room; [done|by apply (room_le _ k)]|].
    intros [s br'] (H1 & H2 & H3 & H4). cbn. split_and!; try done. by apply (room_le _ 57).
  - cbn. split_and!; try done. apply (room_le _ k); [done|]. apply Hle. lia.
Qed.

Lemma decode_sequence_ok br st last : stream_ok br -> room br 57 -> - 2 ^ 30 <= unread br ->
  states_ok st -> hist_ok (s_hist st) ->
  returns (fun '((ll, ml, offset), br', st') => decoded br st last ll ml offset br' st')
    (decode_sequence br st ll_dt ml_dt of_dt last).
Proof.
  intros Hok Hr Hu [Sl Sm So] Hh. change (2 ^ 30) with 1073741824 in Hu.
  destruct Hll as (Ll & _ & Cl), Hml as (Lm & _ & Cm), Hof as (Lo & _ & Co).
  cbn [max_log ll_kind ml_kind of_kind] in Ll, Lm, Lo.
  unfold LL_MAX_LOG, ML_MAX_LOG, OF_MAX_LOG in *.
  destruct (Cl _ Sl) as (el & El & Kl), (Cm _ Sm) as (em & Em & Km), (Co _ So) as (eo & Eo & Ko).
  pose proof (ll_cell _ _ Kl) as (Xl & Bl & Tl & Zl). pose proof (ml_cell _ _ Km) as (Xm & Bm & Tm).
  pose proof (of_cell _ _ Ko) as (Xo & _). unfold decode_sequence, ref_sequence.
  rewrite (idx_ok _ _ _ El), (idx_ok _ _ _ Em), (idx_ok _ _ _ Eo). cbn [mbind res_bind].
  eapply returns_bind; [apply (decode_offset_ok br _ of_log eo); try done|].
  { change (2 ^ 31) with 2147483648. lia. }
  intros [[o h] br1] (x & R1 & Hrep & Hoff). pose proof R1 as [O1 S1 U1 M1 _ _].
  pose proof (opt_read_ok br1 (57 - extra_bits eo) (extra_bits em) (base_value em) O1 M1
    ltac:(lia) ltac:(lia) ltac:(change (2 ^ 31) with 2147483648; lia)) as R2.
  destruct (if 0 <? extra_bits em then _ else _) as [ml br2]. destruct R2 as (y & -> & R2).
  pose proof R2 as [O2 S2 U2 M2 Y2 _].
  eapply returns_bind; [apply (reload_if_ok br2 _ _ (26 + extra_bits el) O2 M2); lia|].
  intros br3 (O3 & S3 & U3 & M3).
  pose proof (opt_read_ok br3 (26 + extra_bits el) (extra_bits el) (base_value el) O3 M3
    ltac:(lia) ltac:(lia) ltac:(change (2 ^ 31) with 2147483648; lia)) as R4.
  destruct (if 0 <? extra_bits el then _ else _) as [ll br4]. destruct R4 as (z & -> & R4).
  pose proof R4 as [O4 S4 U4 M4 Z4 _].
  assert ((base_value el + z =? 0) = (base_value el =? 0)) as Hz.
  { apply eq_iff_eq_true. rewrite !Z.eqb_eq. split; intros; [lia|]. rewrite Zl in Z4 by lia.
    change (2 ^ 0) with 1 in Z4. lia. }
  pose proof (rd_reads _ _ _ _ _ R1) as E1. pose proof (rd_reads _ _ _ _ _ R2) as E2.
  pose proof (rd_reads _ _ _ _ _ R4) as E4.
  assert (stream_val br1 = stream_val br) as V1 by (unfold stream_val; congruence).
  assert (stream_val br3 = stream_val br) as V3 by (unfold stream_val; congruence).
  rewrite V1 in E2. rewrite V3, U3 in E4. destruct last.
  { cbn [returns]. split; try done; try lia.
    - congruence.
    - apply (room_le _ _ _ M4); lia.
    - unfold ref_sequence. rewrite El, Em, Eo. cbn [mbind option_bind].
      ref_read E1 (unread br4). ref_read E2 (unread br4). ref_read E4 (unread br4).
      rewrite Hz, <- Hrep. by destruct (Z.leb_spec 0 (unread br4)); [|lia]. }
  pose proof (next_of_ok br4 26 _ _ el O4 (room_le br4 _ 26 M4 ltac:(lia)) Kl ltac:(lia) ltac:(lia)
    ltac:(change (2 ^ 31) with 2147483648; lia)) as R5.
  destruct (next_of br4 el) as [sl br5]. destruct R5 as (a & Ea & Ra & R5).
  pose proof R5 as [O5 S5 U5 M5 _ _]. pose proof Kl as (Nl & _). pose proof Km as (Nm & _).
  pose proof Ko as (No & _).
  pose proof (next_of_ok br5 (26 - num_bits el) _ _ em O5 M5 Km ltac:(lia) ltac:(lia)
    ltac:(change (2 ^ 31) with 2147483648; lia)) as R6.
  destruct (next_of br5 em) as [sm br6]. destruct R6 as (b & Eb & Rb & R6).
  pose proof R6 as [O6 S6 U6 M6 _ _].
  pose proof (next_of_ok br6 (26 - num_bits el - num_bits em) _ _ eo O6 M6 Ko ltac:(lia) ltac:(lia)
    ltac:(change (2 ^ 31) with 2147483648; lia)) as R7.
  destruct (next_of br6 eo) as [so br7]. destruct R7 as (c & Ec & Rc & R7).
  pose proof R7 as [O7 S7 U7 M7 _ _].
  eapply returns_bind; [apply reload_room; [done|apply (room_le _ _ _ M7); lia]|].
  intros [rs br8] (O8 & S8 & U8 & M8). cbn [returns].
  pose proof (rd_reads _ _ _ _ _ R5) as E5. pose proof (rd_reads _ _ _ _ _ R6) as E6.
  pose proof (rd_reads _ _ _ _ _ R7) as E7.
  assert (stream_val br4 = stream_val br) as V4 by (unfold stream_val; congruence).
  assert (stream_val br5 = stream_val br) as V5 by (unfold stream_val; congruence).
  assert (stream_val br6 = stream_val br) as V6 by (unfold stream_val; congruence).
  rewrite V4 in E5. rewrite V5 in E6. rewrite V6 in E7.
  split; try done; try lia.
  - congruence.
  - unfold ref_sequence. rewrite El, Em, Eo. cbn [mbind option_bind].
    ref_read E1 (unread br8). ref_read E2 (unread br8). ref_read E4 (unread br8). rewrite Hz, <- Hrep.
    ref_read E5 (unread br8). ref_read E6 (unread br8). ref_read E7 (unread br8).
    rewrite U8, Ea, Eb, Ec. by destruct (Z.leb_spec 0 (unread br7)); [|lia].
Qed.
End sequence.

(** ** The encoder's history is the decoder's *)

Lemma update_rep_repcode h value ll0 : hist_ok h -> 1 <= value ->
  ~ (value = 3 /\ ll0 = true /\ zget h 0 = Some 1) ->
  update_rep h value ll0 = Ok (repcode h value ll0).2 /\
  zget (repcode h value ll0).2 0 = Some (repcode h value ll0).1 /\
  (value < 2 ^ 32 -> 1 <= (repcode h value ll0).1 < 2 ^ 32).
Proof.
  intros (h0 & h1 & h2 & -> & B0 & B1 & B2) Hv Hm. change (2 ^ 32) with 4294967296 in *.
  unfold update_rep, offbase_to_offset, offbase_to_repcode, offbase_is_offset, offbase_is_repcode,
    ZSTD_REP_NUM, repcode in *.
  destruct (Z.ltb_spec 3 value); [split; [done|]; split; [done|cbn; lia]|].
  rewrite (proj2 (Z.leb_le 1 value)), (proj2 (Z.leb_le value 3)) by lia.
  cbn [andb rassert mbind res_bind].
  replace (value - 1 + Z.b2z ll0) with (value + Z.b2z ll0 - 1) by lia.
  destruct (Z.eqb_spec h0 1) as [->|Hh0].
  - assert (exists k, value + Z.b2z ll0 = k /\ (k = 1 \/ k = 2 \/ k = 3)) as (k & -> & Hk).
    { eexists. split; [done|]. destruct ll0; cbn [Z.b2z] in *; [|lia].
      assert (value <> 3) by (intros ->; by apply Hm). lia. }
    by destruct Hk as [-> |[-> | ->]].
  - assert (exists k, value + Z.b2z ll0 = k /\ (k = 1 \/ k = 2 \/ k = 3 \/ k = 4)) as (k & -> & Hk)
      by (eexists; split; [done|destruct ll0; cbn; lia]).
    destruct Hk as [-> |[-> |[-> | ->]]]; [done..|].
    change (4 - 1) with 3. cbn [Z.ltb Z.compare Pos.compare Pos.compare_cont Z.eqb Pos.eqb].
    change (idx [h0; h1; h2] 0) with (Ok h0 : dec Z). cbn [mbind res_bind].
    rewrite (proj2 (Z.leb_le 1 h0)) by lia. split; [done|]. split; [done|cbn; lia].
Qed.

(** The repeat code of no offset. *)
Lemma repcode_none h value ll0 : value = 3 /\ ll0 = true /\ zget h 0 = Some 1 -> hist_ok h ->
  (repcode h value ll0).1 = USIZE_MAX.
Proof. by intros (-> & -> & H) (h0 & h1 & h2 & -> & _); injection H as ->. Qed.

(** C31: The decoder and the encoder keep one offset history. The [n] extra
    bits [x] of an offset cell are the next ones of the stream, while it has as
    many, and the value [2 ^ n + x] they spell (an offset, or a repeat code 1 to 3, shifted when
    the sequence has no literals) updates the decoder's history as [update_rep]
    of the encoder does from the same value; the decoder's offset is the new
    history's head, and it stays within [1, 2^32). The one exception is the
    third repeat code of a sequence without literals when the last offset is
    1: it means offset 0, and the decoder's offset is then [usize::MAX], which
    execution rejects. *)
Theorem repeat_offsets_agree br h log e b :
  stream_ok br -> room br 57 -> - 2 ^ 31 <= unread br -> hist_ok h -> seq_cell_ok of_kind log e ->
  exists o h' br' x,
    decode_offset br h (base_value e) (extra_bits e) b = Ok (o, h', br') /\
    src br' = src br /\ unread br' = unread br - extra_bits e /\ 0 <= x < 2 ^ extra_bits e /\
    (0 <= unread br' -> x = bits (stream_val br) (unread br') (extra_bits e)) /\
    if decide (2 ^ extra_bits e + x = 3 /\ b = 0 /\ zget h 0 = Some 1) then o = USIZE_MAX
    else update_rep h (2 ^ extra_bits e + x) (b =? 0) = Ok h' /\ zget h' 0 = Some o /\ hist_ok h'.
Proof.
  intros Hok Hr Hu Hh He. pose proof (decode_offset_ok br h log e b Hok Hr Hu Hh He) as H.
  apply returns_inv in H as ([[o h'] br'] & Heq & x & [_ Hs Hun _ Hx Hv] & Hrep & Hoff).
  exists o, h', br', x. rewrite Hun in *. split_and!; try done; try lia.
  pose proof (of_cell log e He) as [Hb _]. pose proof (pow2_pos (extra_bits e) ltac:(lia)) as Hp.
  pose proof (pow2_le (extra_bits e) 31 ltac:(lia)) as Hp31. change (2 ^ 31) with 2147483648 in Hp31.
  assert (forall P : Prop, P /\ b = 0 /\ zget h 0 = Some 1 <-> P /\ (b =? 0) = true /\ zget h 0 = Some 1) as Hb0
    by (intros P; by rewrite Z.eqb_eq).
  destruct (decide _) as [Hz|Hz]; rewrite Hb0 in Hz.
  - pose proof (repcode_none h _ _ Hz Hh) as Hn. by rewrite <- Hrep in Hn.
  - destruct (update_rep_repcode h (2 ^ extra_bits e + x) (b =? 0) Hh ltac:(lia) Hz) as (H1 & H2 & H3).
    rewrite <- Hrep in H1, H2, H3. cbn [fst snd] in *. split; [done|]. split; [done|].
    destruct Hoff as [[_ ?]|Ho]; [done|]. change (2 ^ 32) with 4294967296 in H3.
    unfold USIZE_MAX in Ho. change (2 ^ 64 - 1) with 18446744073709551615 in Ho. lia.
Qed.

(** The third repeat offset. *)
Lemma repeat_offsets_agree_witness : exists h' br',
  decode_offset (MkDStream [0x80] 0 0x80 57) [1; 4; 8] 1 1 7 = Ok (4, h', br') /\
    src br' = [0x80] /\ unread br' = 6 /\ update_rep [1; 4; 8] 2 false = Ok h' /\ zget h' 0 = Some 4 /\ hist_ok h'.
Proof.
  assert (stream_ok (MkDStream [0x80] 0 0x80 57)) as Hok.
  { split; cbn; [solve_bytes|lia|by right|reflexivity|lia]. }
  assert (room (MkDStream [0x80] 0 0x80 57) 57) as Hr by (right; reflexivity).
  assert (hist_ok [1; 4; 8]) as Hh by (do 3 eexists; split; [reflexivity|vm_compute; intuition congruence]).
  assert (seq_cell_ok of_kind 5 (MkEntry 0 5 1 1)) as He.
  { split; [vm_compute; split; congruence|]. split; [vm_compute; congruence|].
    split; [vm_compute; congruence|]. exists 1. split; [vm_compute; split; congruence|done]. }
  destruct (repeat_offsets_agree (MkDStream [0x80] 0 0x80 57) [1; 4; 8] 5 (MkEntry 0 5 1 1) 7 Hok Hr
    ltac:(vm_compute; discriminate) Hh He) as (o & h' & br' & x & Hd & Hs & Hun & Hx & Hv & H).
  change (unread br' = 6) in Hun. assert (x = 0) as -> by (rewrite Hv by (rewrite Hun; discriminate); rewrite Hun; reflexivity).
  assert (o = 4) as -> by (vm_compute in Hd; by injection Hd). exists h', br'.
  destruct (decide _) as [Hc|_]; [destruct Hc as (Hc & _); discriminate Hc|].
  split; [exact Hd|]. split; [exact Hs|]. split; [exact Hun|exact H].
Defined.
