(* ===== verification/SeqRun.v ===== *)
(** * Execution refines the reference

    [lz_sequence] is what a sequence means on the history before it, a list
    of bytes; [ref_run] a whole block's sequences. [exec_sequence] and
    [run_sequences] compute the same, at any [WildCopy] that meets
    [WildCopyLaws], with every access in bounds; past the block's end only
    its slack changes. *)

From S2P Require Import Prelude Words Constants Errors FseTable FseBuild Headers HeaderUnits SeqTables.
From S2P Require Import Copy CopyProofs SeqExec SeqDecode BitDStream.

(** ** The reference *)

(** One sequence: [h] is all of the history, of which the first [ext] bytes
    lie before the segment, and [limit] bounds its length. *)
Definition lz_sequence (dict : bool) (ext window limit : Z) (h lits : list Z) (ll ml offset : Z)
    : res SeqError (list Z * list Z) :=
  let avail := zlen h - ext + ll in
  _ ← fail_if ((window <? offset) && negb (dict && (avail <=? window))) OffsetPastWindow;
  _ ← fail_if (zlen lits <? ll) NotEnoughLiterals;
  _ ← fail_if (limit <? zlen h + ll + ml) BlockTooLarge;
  _ ← fail_if (offset =? 0) OffsetTooFar;
  _ ← fail_if (zlen h + ll <? offset) (if dict then OffsetBeforeDict else OffsetTooFar);
  Ok (lz_match (h ++ ztake ll lits) offset (Z.to_nat ml), zdrop ll lits).

(** The remaining [n] sequences, the last one without a states update. *)
Fixpoint ref_loop (v : Z) (ll_dt ml_dt of_dt : list FSEEntry) (dict : bool) (ext window limit : Z)
    (n : nat) (u : Z) (st : SeqState) (h lits : list Z) : option (Z * SeqState * list Z * list Z) :=
  let last := match n with O => true | S _ => false end in
  '((ll, ml, offset), u, st) ← ref_sequence v u st ll_dt ml_dt of_dt last;
  match lz_sequence dict ext window limit h lits ll ml offset with
  | Ok (h, lits) =>
      match n with
      | O => Some (u, st, h, lits)
      | S n => ref_loop v ll_dt ml_dt of_dt dict ext window limit n u st h lits
      end
  | _ => None
  end.

(** A block's sequences section: a last byte with an end mark, three initial
    states from the mark down, the sequences, every bit read, and the
    literals that are left. *)
Definition ref_run (bs : list Z) (ll_log ml_log of_log : Z) (ll_dt ml_dt of_dt : list FSEEntry)
    (dict : bool) (ext window limit : Z) (num : Z) (offset_hist h lits : list Z)
    : option (list Z * list Z) :=
  last ← zget bs (zlen bs - 1);
  if last =? 0 then None
  else
    let v := le_val bs in
    '(sl, u) ← rd v (Z.log2 v) ll_log;
    '(so, u) ← rd v u of_log;
    '(sm, u) ← rd v u ml_log;
    '(u, st, h, lits) ← ref_loop v ll_dt ml_dt of_dt dict ext window limit (Z.to_nat (num - 1)) u
                          (MkSt sl sm so offset_hist) h lits;
    if (u =? 0) && (zlen h + zlen lits <=? limit) then Some (h ++ lits, s_hist st) else None.

(** ** The history in memory *)

Definition ext_bytes (EXT : bool) (m : Mem) (ext : ExtHistory) : list Z :=
  if EXT then ztake (e_len ext) (zdrop ((e_end ext).2 - e_len ext) (buffer m (e_end ext).1)) else [].

(** A dictionary's content: history in a buffer of its own. *)
Definition ext_ok (EXT : bool) (m : Mem) (ext : ExtHistory) : Prop :=
  EXT = true -> (e_end ext).1 <> BOut /\ 0 <= e_len ext <= (e_end ext).2 /\
    (e_end ext).2 <= zlen (buffer m (e_end ext).1).

Definition ext_len (EXT : bool) (ext : ExtHistory) : Z := if EXT then e_len ext else 0.

Definition history (EXT : bool) (m : Mem) (lim : SeqLimits) (op : Z) : list Z :=
  ext_bytes EXT m (l_ext lim) ++ zdrop (l_prefix lim) (ztake op (m_out m)).

#[global] Arguments ext_len : simpl never.
#[global] Arguments ext_bytes : simpl never.
#[global] Arguments history : simpl never.

(** The literals not executed yet. *)
Definition literals (m : Mem) (lim : SeqLimits) (lit : Z) : list Z :=
  zdrop lit (ztake (l_lit_limit lim) (m_lit m)).

(** The contract of [Dst] and [ExtHistory]. *)
Record lim_ok (EXT : bool) (m : Mem) (lim : SeqLimits) : Prop := {
  lk_prefix : 0 <= l_prefix lim;
  lk_out : l_oend_w lim + WILDCOPY_OVERLENGTH <= zlen (m_out m);
  lk_lit : l_lit_limit lim + WILDCOPY_OVERLENGTH <= zlen (m_lit m);
  lk_window : 0 <= l_window lim <= USIZE_MAX;
  lk_size : zlen (m_out m) < 2 ^ 63;
  lk_ext : ext_ok EXT m (l_ext lim);
  lk_ext_size : ext_len EXT (l_ext lim) < 2 ^ 63;
}.

Record cur_ok (lim : SeqLimits) (cur : SeqCursor) : Prop := {
  ck_op : l_prefix lim <= c_op cur <= l_oend_w lim;
  ck_lit : 0 <= c_lit cur <= l_lit_limit lim;
}.

(** ** Lemmas *)

Lemma zlen_ext_bytes EXT m ext : ext_ok EXT m ext -> zlen (ext_bytes EXT m ext) = ext_len EXT ext.
Proof.
  unfold ext_bytes, ext_len. destruct EXT; [|done]. intros H. destruct (H eq_refl) as (_ & H1 & H2).
  rewrite zlen_ztake; [done|]. rewrite zlen_zdrop by lia. lia.
Qed.

Lemma ext_bytes_frame EXT m m' ext dst k : ext_ok EXT m ext -> frame m m' dst k ->
  ext_bytes EXT m' ext = ext_bytes EXT m ext /\ ext_ok EXT m' ext.
Proof.
  intros H Hf. unfold ext_bytes, ext_ok in *. destruct EXT; [|done].
  destruct (H eq_refl) as (Hb & H1 & H2). rewrite (frame_buffer _ _ _ _ _ Hf Hb). done.
Qed.

Lemma lim_ok_frame EXT m m' lim dst k : lim_ok EXT m lim -> frame m m' dst k -> lim_ok EXT m' lim.
Proof.
  intros [H1 H2 H3 H4 H5 H6 H7] Hf. pose proof Hf as [Hl Hlit _ _].
  split; try done; rewrite ?Hl, ?Hlit; try done. by eapply ext_bytes_frame.
Qed.

Section history.
Context (EXT : bool) (m : Mem) (lim : SeqLimits) (Hok : lim_ok EXT m lim).
Abbreviation xl := (ext_len EXT (l_ext lim)).

Lemma zlen_history op : l_prefix lim <= op <= zlen (m_out m) ->
  zlen (history EXT m lim op) = xl + op - l_prefix lim.
Proof.
  destruct Hok as [H1 H2 _ _ _ H6 _]. intros Ho. unfold history.
  rewrite zlen_app, zlen_ext_bytes by done. rewrite zlen_zdrop by (rewrite zlen_ztake; lia).
  rewrite zlen_ztake by lia. lia.
Qed.

Lemma history_ext op i : 0 <= i < xl -> zget (history EXT m lim op) i = zget (ext_bytes EXT m (l_ext lim)) i.
Proof. destruct Hok as [_ _ _ _ _ H6 _]. intros Hi. unfold history. by rewrite zget_app_l by (rewrite zlen_ext_bytes; done || lia). Qed.

Lemma history_out op i : l_prefix lim <= i < op ->
  zget (history EXT m lim op) (xl + i - l_prefix lim) = zget (m_out m) i.
Proof.
  destruct Hok as [H1 _ _ _ _ H6 _]. intros Hi. unfold history.
  rewrite zget_app_r by (rewrite zlen_ext_bytes by done; lia). rewrite zlen_ext_bytes by done.
  rewrite zget_zdrop by lia. rewrite zget_ztake by lia. f_equal. lia.
Qed.

(** A byte of the external history, from its end back. *)
Lemma history_back op b : EXT = true -> 0 < b <= xl ->
  zget (history EXT m lim op) (xl - b) =
    zget (buffer m (e_end (l_ext lim)).1) ((e_end (l_ext lim)).2 - b).
Proof.
  intros HE Hb. pose proof Hok as [_ _ _ _ _ H6 _]. destruct (H6 HE) as (_ & Hx1 & Hx2).
  rewrite history_ext by lia. unfold ext_bytes, ext_len in *. rewrite HE in *.
  rewrite zget_ztake by lia. rewrite zget_zdrop by lia. f_equal. lia.
Qed.
End history.

(** What executing a sequence changes: [n] bytes from [op], and slack. *)
Section steps.
Context (EXT : bool) (lim : SeqLimits).
Abbreviation xl := (ext_len EXT (l_ext lim)).
Abbreviation pre := (l_prefix lim).

Lemma history_below m m' dst k op i : lim_ok EXT m lim -> frame m m' dst k -> pre <= op <= dst ->
  dst <= zlen (m_out m) -> 0 <= i < xl + op - pre ->
  forall op', op <= op' -> op' <= zlen (m_out m) ->
  zget (history EXT m' lim op') i = zget (history EXT m lim op) i.
Proof.
  intros Hok Hf Ho Hd Hi op' Hop Hl. pose proof (lim_ok_frame _ _ _ _ _ _ Hok Hf) as Hok'.
  destruct (Z_lt_dec i xl).
  - rewrite !history_ext by (done || lia). f_equal.
    by apply (ext_bytes_frame EXT m m' _ dst k (lk_ext _ _ _ Hok)).
  - replace i with (xl + (pre + i - xl) - pre) by lia.
    rewrite !history_out by (done || lia). apply (fr_out _ _ _ _ Hf). lia.
Qed.

(** A literals copy appends the literals. *)
Lemma history_literals m m' op lit ll : lim_ok EXT m lim -> frame m m' op (ll + 31) ->
  (forall i, 0 <= i < ll -> zget (m_out m') (op + i) = zget (m_lit m) (lit + i)) ->
  0 <= ll -> pre <= op -> op + ll <= zlen (m_out m) -> 0 <= lit -> lit + ll <= l_lit_limit lim ->
  history EXT m' lim (op + ll) = history EXT m lim op ++ ztake ll (literals m lim lit).
Proof.
  intros Hok Hf Hb Hll Ho Hol Hlit Hlim. pose proof (lim_ok_frame _ _ _ _ _ _ Hok Hf) as Hok'.
  pose proof Hok as [H1 H2 H3 _ _ _ _]. unfold WILDCOPY_OVERLENGTH in *.
  pose proof (fr_len _ _ _ _ Hf) as Hfl.
  pose proof (zlen_history EXT m lim Hok op ltac:(lia)) as Hh.
  assert (zlen (ztake ll (literals m lim lit)) = ll) as Htl.
  { unfold literals. rewrite zlen_ztake; [done|]. rewrite zlen_zdrop by (rewrite zlen_ztake; lia).
    rewrite zlen_ztake by lia. lia. }
  pose proof (zlen_nonneg (history EXT m lim op)).
  apply zlist_eq; rewrite (zlen_history EXT m' lim Hok') by lia; rewrite ?zlen_app; [lia|].
  intros i Hi. destruct (Z_lt_dec i (zlen (history EXT m lim op))).
  - rewrite zget_app_l by lia. apply (history_below m m' op (ll + 31) op); try done; lia.
  - rewrite zget_app_r by lia.
    replace i with (xl + (pre + i - xl) - pre) at 1 by lia. rewrite history_out by (done || lia).
    rewrite zget_ztake by lia. unfold literals. rewrite zget_zdrop by lia. rewrite zget_ztake by lia.
    replace (pre + i - xl) with (op + (i - zlen (history EXT m lim op))) by lia. apply Hb. lia.
Qed.

(** A match appends the reference's match. *)
Lemma history_match m m' dst offset ml : lim_ok EXT m lim -> frame m m' dst (ml + 31) ->
  pre <= dst -> 1 <= ml -> dst + ml <= zlen (m_out m) -> 1 <= offset <= xl + dst - pre ->
  (forall i, 0 <= i < ml -> zget (m_out m') (dst + i) =
     zget (history EXT m' lim (dst + ml)) (xl + dst + i - pre - offset)) ->
  history EXT m' lim (dst + ml) = lz_match (history EXT m lim dst) offset (Z.to_nat ml).
Proof.
  intros Hok Hf Hd Hml Hl Ho Hb. pose proof (lim_ok_frame _ _ _ _ _ _ Hok Hf) as Hok'.
  pose proof (fr_len _ _ _ _ Hf) as Hfl.
  pose proof (zlen_history EXT m lim Hok dst ltac:(lia)) as Hh.
  pose proof (zlen_history EXT m' lim Hok' (dst + ml) ltac:(lia)) as Hh'.
  apply lz_match_unique; [lia|lia| |].
  - intros i Hi. apply (history_below m m' dst (ml + 31) dst); try done; lia.
  - intros i Hi. replace i with (xl + (pre + i - xl) - pre) at 1 by lia.
    rewrite (history_out _ _ _ Hok') by lia.
    replace (pre + i - xl) with (dst + (i - (xl + dst - pre))) by lia.
    rewrite Hb by lia. f_equal. lia.
Qed.
End steps.

(** ** One sequence *)

Section exec.
Context (W : WildCopy) `{HW : !WildCopyLaws W}.

Lemma copy_literals_ok m op lit ll : 0 <= ll -> 0 <= op -> op + ll + 32 <= zlen (m_out m) ->
  0 <= lit -> lit + ll + 32 <= zlen (m_lit m) ->
  returns (fun m' => frame m m' op (ll + 31) /\
      forall i, 0 <= i < ll -> zget (m_out m') (op + i) = zget (m_lit m) (lit + i))
    (copy_literals W m op lit ll).
Proof.
  intros Hll Ho Hol Hl Hlit. unfold copy_literals.
  eapply returns_bind; [apply copy_nonoverlapping_ok; cbn; try lia; by left|].
  intros m1 [Hf1 Hb1]. cbn in Hb1. pose proof Hf1 as [Hl1 Hlit1 _ Ho1]. destruct (Z.ltb_spec 16 ll).
  - eapply returns_mono.
    { apply (wildcopy_law m1 (op + 16) (BLit, lit + 16) (ll - 16)); cbn; rewrite ?Hlit1; try lia. by left. }
    cbn. intros m2 [Hf2 Hb2]. rewrite Hlit1 in Hb2.
    split; [apply (frame_trans _ _ _ _ _ _ _ _ _ Hf1 Hf2); lia|].
    intros i Hi. destruct (Z_lt_dec i 16).
    + rewrite (fr_out _ _ _ _ Hf2) by lia. apply Hb1. lia.
    + replace (op + i) with (op + 16 + (i - 16)) by lia. rewrite Hb2 by lia. f_equal. lia.
  - split; [apply (frame_weaken _ _ _ _ _ _ Hf1); lia|]. intros i Hi. apply Hb1. lia.
Qed.

Lemma no_err_ok {A} (Q : A -> Prop) (m : dec A) : returns Q m -> returns Q (no_err m).
Proof. by destruct m. Qed.

(** A sequence executed: the history grows as the reference's, only the
    bytes after [op] and their slack change, and the cursors advance. *)
Record executed (EXT : bool) (lim : SeqLimits) (m : Mem) (cur : SeqCursor) (h lits : list Z)
    (m' : Mem) (cur' : SeqCursor) : Prop := {
  ex_cur : cur_ok lim cur';
  ex_op : c_op cur <= c_op cur';
  ex_frame : frame m m' (c_op cur) (c_op cur' - c_op cur + 31);
  ex_history : history EXT m' lim (c_op cur') = h;
  ex_literals : literals m' lim (c_lit cur') = lits;
}.

(** The literals and one match, given what the match's copy does. *)
Lemma executed_intro EXT lim m cur ll ml offset m1 m2 : lim_ok EXT m lim -> cur_ok lim cur ->
  0 <= ll -> 1 <= ml -> c_lit cur + ll <= l_lit_limit lim -> c_op cur + ll + ml <= l_oend_w lim ->
  1 <= offset <= ext_len EXT (l_ext lim) + (c_op cur + ll) - l_prefix lim ->
  frame m m1 (c_op cur) (ll + 31) ->
  (forall i, 0 <= i < ll -> zget (m_out m1) (c_op cur + i) = zget (m_lit m) (c_lit cur + i)) ->
  frame m1 m2 (c_op cur + ll) (ml + 31) ->
  (forall i, 0 <= i < ml -> zget (m_out m2) (c_op cur + ll + i) =
     zget (history EXT m2 lim (c_op cur + ll + ml))
       (ext_len EXT (l_ext lim) + (c_op cur + ll) + i - l_prefix lim - offset)) ->
  executed EXT lim m cur
    (lz_match (history EXT m lim (c_op cur) ++ ztake ll (literals m lim (c_lit cur))) offset (Z.to_nat ml))
    (zdrop ll (literals m lim (c_lit cur))) m2 (MkCur (c_op cur + (ll + ml)) (c_lit cur + ll)).
Proof.
  intros Hok [Co Cl] Hll Hml Hlit Hop Ho Hf1 Hb1 Hf2 Hb2.
  pose proof Hok as [H1 H2 _ _ _ _ _]. unfold WILDCOPY_OVERLENGTH in *.
  pose proof (lim_ok_frame _ _ _ _ _ _ Hok Hf1) as Hok1. pose proof (fr_len _ _ _ _ Hf1) as Hl1.
  split; cbn [c_op c_lit].
  - split; cbn; lia.
  - lia.
  - apply (frame_trans _ _ _ _ _ _ _ _ _ Hf1 Hf2); lia.
  - rewrite <- (history_literals EXT lim m m1) by (done || lia).
    rewrite <- (history_match EXT lim m1 m2 (c_op cur + ll) offset ml) by (done || lia).
    f_equal. lia.
  - unfold literals. rewrite (fr_lit _ _ _ _ Hf2), (fr_lit _ _ _ _ Hf1).
    unfold zdrop. rewrite drop_drop. f_equal. lia.
Qed.

(** The match copied by [copy_match] from the segment. *)
Lemma match_within EXT lim m1 dst offset ml : lim_ok EXT m1 lim -> 1 <= ml ->
  l_prefix lim <= dst -> dst + ml <= l_oend_w lim -> 1 <= offset <= dst - l_prefix lim ->
  returns (fun m2 => frame m1 m2 dst (ml + 31) /\
      forall i, 0 <= i < ml -> zget (m_out m2) (dst + i) =
        zget (history EXT m2 lim (dst + ml)) (ext_len EXT (l_ext lim) + dst + i - l_prefix lim - offset))
    (copy_match m1 dst offset ml (dst - l_prefix lim)).
Proof.
  intros Hok Hml Hd Hl Ho. pose proof Hok as [H1 H2 _ _ _ _ _]. unfold WILDCOPY_OVERLENGTH in *.
  eapply returns_mono; [apply copy_match_law; lia|]. intros m2 [Hf Hp]. split; [done|].
  intros i Hi. rewrite Hp by done. pose proof (lim_ok_frame _ _ _ _ _ _ Hok Hf) as Hok2.
  rewrite <- (history_out EXT m2 lim Hok2 (dst + ml) (dst + i - offset)) by lia. f_equal. lia.
Qed.

(** The match copied from the external history alone. *)
Lemma match_far lim m1 dst offset ml back : back = offset - (dst - l_prefix lim) ->
  lim_ok true m1 lim -> 1 <= ml -> l_prefix lim <= dst -> dst + ml <= l_oend_w lim ->
  ml + 32 <= back <= e_len (l_ext lim) ->
  returns (fun m2 => frame m1 m2 dst (ml + 31) /\
      forall i, 0 <= i < ml -> zget (m_out m2) (dst + i) =
        zget (history true m2 lim (dst + ml)) (ext_len true (l_ext lim) + dst + i - l_prefix lim - offset))
    (w_wildcopy m1 dst (padd (e_end (l_ext lim)) (- back)) ml).
Proof.
  intros Hback Hok Hml Hd Hl Hb. pose proof Hok as [H1 H2 _ _ _ H6 _].
  destruct (H6 eq_refl) as (Hne & Hx1 & Hx2). unfold WILDCOPY_OVERLENGTH in *.
  eapply returns_mono.
  { apply (wildcopy_law m1 dst (padd (e_end (l_ext lim)) (- back)) ml); cbn; try lia. by left. }
  cbn. intros m2 [Hf Hc]. split; [done|]. intros i Hi. rewrite Hc by done.
  pose proof (lim_ok_frame _ _ _ _ _ _ Hok Hf) as Hok2.
  replace (ext_len true (l_ext lim) + dst + i - l_prefix lim - offset)
    with (ext_len true (l_ext lim) - (back - i)) by lia.
  rewrite (history_back true m2 lim Hok2) by (done || (unfold ext_len; lia)).
  rewrite (frame_buffer _ _ _ _ _ Hf Hne). f_equal. lia.
Qed.

(** The match that starts in the external history, and may run on into the
    segment. *)
Lemma match_across lim m1 dst offset ml back : back = offset - (dst - l_prefix lim) ->
  lim_ok true m1 lim -> 1 <= ml -> l_prefix lim <= dst -> dst + ml <= l_oend_w lim ->
  0 < back <= e_len (l_ext lim) ->
  returns (fun m2 => frame m1 m2 dst (ml + 31) /\
      forall i, 0 <= i < ml -> zget (m_out m2) (dst + i) =
        zget (history true m2 lim (dst + ml)) (ext_len true (l_ext lim) + dst + i - l_prefix lim - offset))
    (m ← no_err (copy m1 dst (padd (e_end (l_ext lim)) (- back)) (Z.min back ml));
     if Z.min back ml <? ml then
       no_err (copy_match m (dst + Z.min back ml) offset (ml - Z.min back ml) offset) else Ok m).
Proof.
  intros Hback Hok Hml Hd Hl Hb. pose proof Hok as [H1 H2 _ _ _ H6 _].
  destruct (H6 eq_refl) as (Hne & Hx1 & Hx2). unfold WILDCOPY_OVERLENGTH in *.
  assert (forall m2 i, frame m1 m2 dst (ml + 31) -> 0 <= i < Z.min back ml ->
    zget (m_out m2) (dst + i) = zget (buffer m1 (e_end (l_ext lim)).1) ((e_end (l_ext lim)).2 - back + i) ->
    zget (m_out m2) (dst + i) =
      zget (history true m2 lim (dst + ml)) (ext_len true (l_ext lim) + dst + i - l_prefix lim - offset)) as Hin.
  { intros m2 i Hf Hi ->. pose proof (lim_ok_frame _ _ _ _ _ _ Hok Hf) as Hok2.
    replace (ext_len true (l_ext lim) + dst + i - l_prefix lim - offset)
      with (ext_len true (l_ext lim) - (back - i)) by lia.
    rewrite (history_back true m2 lim Hok2) by (done || (unfold ext_len; lia)).
    rewrite (frame_buffer _ _ _ _ _ Hf Hne). f_equal. lia. }
  eapply returns_bind; [apply no_err_ok, copy_ok; cbn; lia|]. intros m2 [Hf2 Hb2]. cbn in Hb2.
  pose proof (fr_len _ _ _ _ Hf2) as Hl2. destruct (Z.ltb_spec (Z.min back ml) ml).
  - assert (Z.min back ml = back) as Hm by lia. rewrite Hm in *.
    eapply returns_mono; [apply no_err_ok, copy_match_law; lia|].
    intros m3 [Hf3 Hp3].
    assert (frame m1 m3 dst (ml + 31)) as Hf by (apply (frame_trans _ _ _ _ _ _ _ _ _ Hf2 Hf3); lia).
    split; [done|]. intros i Hi. destruct (Z_lt_dec i back).
    + apply (Hin m3 i Hf); [lia|]. rewrite (fr_out _ _ _ _ Hf3) by lia. rewrite Hb2 by lia. f_equal.
    + replace (dst + i) with (dst + back + (i - back)) at 1 by lia. rewrite Hp3 by lia.
      pose proof (lim_ok_frame _ _ _ _ _ _ Hok Hf) as Hok3.
      rewrite <- (history_out true m3 lim Hok3 (dst + ml) (dst + back + (i - back) - offset)) by lia.
      f_equal. lia.
  - assert (Z.min back ml = ml) as Hm by lia. rewrite Hm in *. assert (frame m1 m2 dst (ml + 31)) as Hf
      by (apply (frame_weaken _ _ _ _ _ _ Hf2); lia).
    split; [done|]. intros i Hi. apply (Hin m2 i Hf); [lia|]. rewrite Hb2 by lia. f_equal.
Qed.

(** The reference's verdict is the code's. *)
Definition agrees {E A B} (Q : A -> B -> Prop) (spec : res E A) (code : res E B) : Prop :=
  match spec with
  | Ok a => returns (Q a) code
  | Err e => code = Err e
  | _ => False
  end.

Lemma agrees_fail {E A B} (Q : A -> B -> Prop) (b : bool) (e : E) (k : unit -> res E A) k' :
  (b = false -> agrees Q (k tt) k') -> agrees Q (_ ← fail_if b e; k tt) (if b then Err e else k').
Proof. destruct b; cbn; auto. Qed.

Abbreviation limit EXT lim := (ext_len EXT (l_ext lim) + l_oend_w lim - l_prefix lim) (only parsing).

Lemma wsub_small a b : 0 <= b <= a -> a < 2 ^ 64 -> wsub 64 a b = a - b.
Proof. intros. apply wrap_small. lia. Qed.

Lemma wsub_borrow a b : 0 <= a < b -> b < 2 ^ 64 -> wsub 64 a b = 2 ^ 64 + a - b.
Proof.
  intros. unfold wsub, wrap. rewrite <- (Z.mod_add _ 1) by lia. rewrite Z.mod_small; lia.
Qed.

Lemma zlen_literals EXT m lim lit : lim_ok EXT m lim -> 0 <= lit <= l_lit_limit lim ->
  zlen (literals m lim lit) = l_lit_limit lim - lit.
Proof.
  intros [_ _ H3 _ _ _ _] Hl. unfold literals, WILDCOPY_OVERLENGTH in *.
  rewrite zlen_zdrop by (rewrite zlen_ztake; lia). rewrite zlen_ztake; lia.
Qed.

(** A match from the external history, in either of its copies. *)
Lemma exec_before_ok lim m cur ll ml offset back : lim_ok true m lim -> cur_ok lim cur ->
  0 <= ll -> 1 <= ml -> c_lit cur + ll <= l_lit_limit lim -> c_op cur + ll + ml <= l_oend_w lim ->
  back = offset - (c_op cur + ll - l_prefix lim) -> 0 < back <= e_len (l_ext lim) ->
  returns (fun '(m', cur') => executed true lim m cur
      (lz_match (history true m lim (c_op cur) ++ ztake ll (literals m lim (c_lit cur))) offset (Z.to_nat ml))
      (zdrop ll (literals m lim (c_lit cur))) m' cur')
    (let cur' := MkCur (c_op cur + (ll + ml)) (c_lit cur + ll) in
     if (back <=? e_len (l_ext lim)) && (ml + 32 <=? back) then
       m ← no_err (copy_literals W m (c_op cur) (c_lit cur) ll);
       m ← no_err (w_wildcopy m (c_op cur + ll) (padd (e_end (l_ext lim)) (- back)) ml);
       Ok (m, cur')
     else
       m ← exec_sequence_ext W m (c_op cur) (c_lit cur) ll ml offset
             (c_op cur + ll - l_prefix lim) (l_ext lim);
       Ok (m, cur')).
Proof.
  intros Hok Hcur Hll Hml Hlit Hop Hb Hr. cbv zeta. set (cur' := MkCur _ _). pose proof Hok as [H1 H2 H3 _ _ _ _].
  pose proof Hcur as [Co Cl]. unfold WILDCOPY_OVERLENGTH in *.
  pose proof (copy_literals_ok m (c_op cur) (c_lit cur) ll Hll ltac:(lia) ltac:(lia) ltac:(lia) ltac:(lia))
    as Hlits.
  assert (forall m1 m2, frame m m1 (c_op cur) (ll + 31) ->
    (forall i, 0 <= i < ll -> zget (m_out m1) (c_op cur + i) = zget (m_lit m) (c_lit cur + i)) ->
    frame m1 m2 (c_op cur + ll) (ml + 31) /\ (forall i, 0 <= i < ml ->
      zget (m_out m2) (c_op cur + ll + i) = zget (history true m2 lim (c_op cur + ll + ml))
       (ext_len true (l_ext lim) + (c_op cur + ll) + i - l_prefix lim - offset)) ->
    executed true lim m cur
      (lz_match (history true m lim (c_op cur) ++ ztake ll (literals m lim (c_lit cur))) offset (Z.to_nat ml))
      (zdrop ll (literals m lim (c_lit cur))) m2 cur') as Hdone.
  { intros m1 m2 Hf1 Hb1 [Hf2 Hb2].
    apply (executed_intro true lim m cur ll ml offset m1 m2); try done. unfold ext_len. lia. }
  destruct ((back <=? _) && (ml + 32 <=? back)) eqn:Hfit; bools.
  - eapply returns_bind; [by apply no_err_ok|]. intros m1 [Hf1 Hb1].
    pose proof (lim_ok_frame _ _ _ _ _ _ Hok Hf1) as Hok1.
    eapply returns_bind; [apply no_err_ok, (match_far lim m1 _ offset ml back); done || lia|].
    intros m2 Hm2. by apply (Hdone m1 m2).
  - unfold exec_sequence_ext. rewrite (proj2 (Z.eqb_neq offset 0)) by lia.
    rewrite (proj2 (Z.ltb_ge _ _)) by lia. rewrite <- Hb.
    rewrite bind_assoc. eapply returns_bind; [by apply no_err_ok|]. intros m1 [Hf1 Hb1].
    pose proof (lim_ok_frame _ _ _ _ _ _ Hok Hf1) as Hok1.
    eapply returns_bind; [apply (match_across lim m1 _ offset ml back); done || lia|].
    intros m2 Hm2. by apply (Hdone m1 m2).
Qed.

(** Past the bounds' tests: the three ways a match is copied. *)
Lemma exec_match_ok EXT lim m cur ll ml offset : lim_ok EXT m lim -> cur_ok lim cur ->
  0 <= ll -> 1 <= ml -> 0 <= offset <= USIZE_MAX ->
  c_lit cur + ll <= l_lit_limit lim -> c_op cur + ll + ml <= l_oend_w lim ->
  let h := history EXT m lim (c_op cur) in
  let lits := literals m lim (c_lit cur) in
  agrees (fun '(h', lits') '(m', cur') => executed EXT lim m cur h' lits' m' cur')
    (_ ← fail_if (offset =? 0) OffsetTooFar;
     _ ← fail_if (zlen h + ll <? offset) (if EXT && e_dict (l_ext lim) then OffsetBeforeDict else OffsetTooFar);
     Ok (lz_match (h ++ ztake ll lits) offset (Z.to_nat ml), zdrop ll lits))
    (exec_sequence_within W EXT m cur lim ll ml offset).
Proof.
  intros Hok Hcur Hll Hml Hoff Hlit Hop h lits. pose proof Hok as [H1 H2 H3 _ Hsz Hx Hxs].
  pose proof Hcur as [Co Cl]. unfold WILDCOPY_OVERLENGTH, USIZE_MAX in *.
  change (2 ^ 63) with 9223372036854775808 in *. change (2 ^ 64) with 18446744073709551616 in *.
  assert (zlen h = ext_len EXT (l_ext lim) + c_op cur - l_prefix lim) as Hh
    by (apply zlen_history; done || lia).
  unfold exec_sequence_within, WILDCOPY_OVERLENGTH. rewrite (proj2 (Z.ltb_ge (l_lit_limit lim) _)) by lia.
  rewrite (proj2 (Z.ltb_ge (l_oend_w lim) _)) by lia.
  assert (0 <= ext_len EXT (l_ext lim)) as Hx0.
  { unfold ext_len. destruct EXT; [|done]. destruct (Hx eq_refl) as (_ & ? & _). lia. }
  pose proof (copy_literals_ok m (c_op cur) (c_lit cur) ll Hll ltac:(lia) ltac:(lia) ltac:(lia) ltac:(lia))
    as Hlits.
  destruct (Z.leb_spec (c_op cur + ll - l_prefix lim) (wsub 64 offset 1)) as [Hfar|Hin].
  - destruct EXT; cbn [negb andb].
    + set (back := wsub 64 offset _).
      destruct (Z.eqb_spec offset 0) as [->|Hnz]; cbn [fail_if mbind res_bind agrees].
      { assert ((back <=? e_len (l_ext lim)) && (ml + 32 <=? back) = false) as ->; [|done].
        unfold ext_len in *. unfold back.
        destruct (Z.eq_dec (c_op cur + ll - l_prefix lim) 0) as [->|Hne].
        - rewrite wsub_small by lia. apply andb_false_iff. right. apply Z.leb_gt. lia.
        - rewrite wsub_borrow by lia. apply andb_false_iff. left. apply Z.leb_gt. lia. }
      rewrite wsub_small in Hfar by lia.
      assert (back = offset - (c_op cur + ll - l_prefix lim)) as Hb by (apply wsub_small; lia).
      destruct (Z.ltb_spec (zlen h + ll) offset); cbn [fail_if mbind res_bind agrees].
      * unfold ext_len in *.
        rewrite (proj2 (Z.leb_gt back _)) by lia. cbn [andb].
        unfold exec_sequence_ext. rewrite (proj2 (Z.eqb_neq offset 0)) by lia.
        by rewrite (proj2 (Z.ltb_lt _ _)) by lia.
      * unfold ext_len in Hh. apply (exec_before_ok lim m cur ll ml offset back); done || lia.
    + destruct (Z.eqb_spec offset 0) as [->|Hnz]; [done|]. cbn [fail_if mbind res_bind].
      rewrite wsub_small in Hfar by lia. unfold ext_len in Hh.
      by rewrite (proj2 (Z.ltb_lt _ _)) by lia.
  - assert (offset <> 0) by (intros ->; rewrite wsub_borrow in Hin; lia).
    rewrite wsub_small in Hin by lia. rewrite (proj2 (Z.eqb_neq offset 0)) by done.
    rewrite (proj2 (Z.ltb_ge _ offset)) by lia. cbn [fail_if mbind res_bind agrees].
    eapply returns_bind; [by apply no_err_ok|]. intros m1 [Hf1 Hb1].
    pose proof (lim_ok_frame _ _ _ _ _ _ Hok Hf1) as Hok1.
    eapply returns_bind; [apply no_err_ok, (match_within EXT lim m1 _ offset ml); done || lia|].
    intros m2 [Hf2 Hb2]. cbn.
    apply (executed_intro EXT lim m cur ll ml offset m1 m2); done || lia.
Qed.

Lemma exec_sequence_within_ok EXT lim m cur ll ml offset : lim_ok EXT m lim -> cur_ok lim cur ->
  0 <= ll -> 1 <= ml -> 0 <= offset <= USIZE_MAX ->
  agrees (fun '(h', lits') '(m', cur') => executed EXT lim m cur h' lits' m' cur')
    (lz_sequence (EXT && e_dict (l_ext lim)) (ext_len EXT (l_ext lim)) USIZE_MAX (limit EXT lim)
       (history EXT m lim (c_op cur)) (literals m lim (c_lit cur)) ll ml offset)
    (exec_sequence_within W EXT m cur lim ll ml offset).
Proof.
  intros Hok Hcur Hll Hml Hoff. pose proof Hok as [H1 H2 _ _ _ _ _]. pose proof Hcur as [Co Cl].
  unfold WILDCOPY_OVERLENGTH in *.
  pose proof (zlen_history EXT m lim Hok (c_op cur) ltac:(lia)) as Hh.
  pose proof (zlen_literals EXT m lim (c_lit cur) Hok Cl) as Hl.
  unfold lz_sequence. rewrite (proj2 (Z.ltb_ge USIZE_MAX offset)) by lia. cbn [andb fail_if mbind res_bind].
  destruct (Z.ltb_spec (zlen (literals m lim (c_lit cur))) ll).
  { cbn. unfold exec_sequence_within. by rewrite (proj2 (Z.ltb_lt (l_lit_limit lim) _)) by lia. }
  destruct (Z.ltb_spec (limit EXT lim) (zlen (history EXT m lim (c_op cur)) + ll + ml)).
  { cbn. unfold exec_sequence_within. rewrite (proj2 (Z.ltb_ge (l_lit_limit lim) _)) by lia.
    by rewrite (proj2 (Z.ltb_lt (l_oend_w lim) _)) by lia. }
  cbn [fail_if mbind res_bind]. apply exec_match_ok; done || lia.
Qed.

Lemma lz_sequence_window dict ext w h lits ll ml offset lim :
  offset <= w \/ dict = true /\ zlen h - ext + ll <= w -> offset <= USIZE_MAX ->
  lz_sequence dict ext w lim h lits ll ml offset = lz_sequence dict ext USIZE_MAX lim h lits ll ml offset.
Proof.
  intros Hw Ho. unfold lz_sequence. rewrite (proj2 (Z.ltb_ge USIZE_MAX offset)) by lia.
  destruct Hw as [Hw|[-> Hw]]; [by rewrite (proj2 (Z.ltb_ge w offset)) by lia|].
  rewrite (proj2 (Z.leb_le (zlen h - ext + ll) w)) by lia. cbn. by rewrite andb_false_r.
Qed.

Lemma exec_sequence_ok EXT lim m cur ll ml offset : lim_ok EXT m lim -> cur_ok lim cur ->
  0 <= ll -> 1 <= ml -> 0 <= offset <= USIZE_MAX ->
  agrees (fun '(h', lits') '(m', cur') => executed EXT lim m cur h' lits' m' cur')
    (lz_sequence (EXT && e_dict (l_ext lim)) (ext_len EXT (l_ext lim)) (l_window lim) (limit EXT lim)
       (history EXT m lim (c_op cur)) (literals m lim (c_lit cur)) ll ml offset)
    (exec_sequence W EXT m cur lim ll ml offset).
Proof.
  intros Hok Hcur Hll Hml Hoff. pose proof Hok as [H1 H2 _ _ _ _ _]. pose proof Hcur as [Co Cl].
  unfold WILDCOPY_OVERLENGTH in *.
  pose proof (zlen_history EXT m lim Hok (c_op cur) ltac:(lia)) as Hh.
  pose proof (exec_sequence_within_ok EXT lim m cur ll ml offset Hok Hcur Hll Hml Hoff) as Hin.
  unfold exec_sequence. destruct (Z.ltb_spec (l_window lim) offset) as [Hw|Hw].
  2: { rewrite lz_sequence_window by lia. done. }
  destruct EXT; cbn [negb andb] in *.
  - unfold exec_sequence_past_window.
    destruct (e_dict (l_ext lim)) eqn:Hd; cbn [negb orb].
    + destruct (Z.ltb_spec (l_window lim) (c_op cur + ll - l_prefix lim)).
      * unfold lz_sequence. rewrite (proj2 (Z.ltb_lt (l_window lim) offset)) by lia.
        by rewrite (proj2 (Z.leb_gt _ (l_window lim))) by lia.
      * rewrite lz_sequence_window by (lia || (right; split; [done|lia])).
        cbn [l_window]. rewrite (proj2 (Z.ltb_ge USIZE_MAX offset)) by lia. exact Hin.
    + unfold lz_sequence. by rewrite (proj2 (Z.ltb_lt (l_window lim) offset)) by lia.
  - unfold lz_sequence. by rewrite (proj2 (Z.ltb_lt (l_window lim) offset)) by lia.
Qed.

(** ** A block *)

Section run.
Context (EXT : bool) (lim : SeqLimits) (s : list Z) (op0 : Z) (m0 : Mem).
Context (ll_log ml_log of_log : Z) (ll_dt ml_dt of_dt : list FSEEntry).
Context (Hll : cells_ok ll_kind ll_log ll_dt) (Hml : cells_ok ml_kind ml_log ml_dt).
Context (Hof : cells_ok of_kind of_log of_dt).
Abbreviation ref_go := (ref_loop (le_val s) ll_dt ml_dt of_dt (EXT && e_dict (l_ext lim))
  (ext_len EXT (l_ext lim)) (l_window lim) (limit EXT lim)).

(** Between two sequences. [k] bounds those that are left. *)
Record running (k : Z) (last : bool) (br : BitDStream) (st : SeqState) (m : Mem) (cur : SeqCursor) : Prop := {
  rn_ok : stream_ok br;
  rn_src : src br = s;
  rn_unread : 89 * k - 2 ^ 30 <= unread br;
  rn_room : room br (if last then 0 else 57);
  rn_states : states_ok ll_log ml_log of_log st;
  rn_hist : hist_ok (s_hist st);
  rn_lim : lim_ok EXT m lim;
  rn_cur : cur_ok lim cur;
  rn_op : op0 <= c_op cur;
  rn_frame : frame m0 m op0 (c_op cur - op0 + 31);
}.

(** A result of the loop, against the reference's. *)
Definition ran (u : Z) (ref : option (Z * SeqState * list Z * list Z))
    (r : dec (BitDStream * SeqState * Mem * SeqCursor)) : Prop :=
  match r with
  | Ok (br', st', m', cur') => running 0 true br' st' m' cur' /\ unread br' <= u /\
      ref = if 0 <=? unread br'
            then Some (unread br', st', history EXT m' lim (c_op cur'), literals m' lim (c_lit cur'))
            else None
  | Err _ => ref = None
  | Fault | Stuck => False
  end.

(** One turn: the reference's sequence, then its execution. *)
Lemma seq_step_ok k last br st m cur : 1 <= k -> running k false br st m cur ->
  match seq_step W EXT ll_dt ml_dt of_dt lim last (br, st, m, cur) with
  | Ok (br', st', m', cur') => running (k - 1) last br' st' m' cur' /\ unread br' <= unread br /\
      exists ll ml offset,
      ref_sequence (le_val s) (unread br) st ll_dt ml_dt of_dt last =
        (if 0 <=? unread br' then Some ((ll, ml, offset), unread br', st') else None) /\
      lz_sequence (EXT && e_dict (l_ext lim)) (ext_len EXT (l_ext lim)) (l_window lim) (limit EXT lim)
        (history EXT m lim (c_op cur)) (literals m lim (c_lit cur)) ll ml offset =
        Ok (history EXT m' lim (c_op cur'), literals m' lim (c_lit cur'))
  | Err _ => match ref_sequence (le_val s) (unread br) st ll_dt ml_dt of_dt last with
      | Some ((ll, ml, offset), _, _) => is_ok (lz_sequence (EXT && e_dict (l_ext lim))
          (ext_len EXT (l_ext lim)) (l_window lim) (limit EXT lim)
          (history EXT m lim (c_op cur)) (literals m lim (c_lit cur)) ll ml offset) = false
      | None => True
      end
  | Fault | Stuck => False
  end.
Proof.
  intros Hk [O S U M St Hh L C Op F]. unfold seq_step. change (2 ^ 30) with 1073741824 in U.
  pose proof (decode_sequence_ok ll_log ml_log of_log ll_dt ml_dt of_dt Hll Hml Hof br st last O M
    ltac:(change (2 ^ 30) with 1073741824; lia) St Hh) as Hd.
  destruct (decode_sequence br st ll_dt ml_dt of_dt last) as [[[[[ll ml] offset] br'] st']| | |]; try done.
  destruct Hd as [O' S' U' M' St' Lr Mr Of Rf]. cbn [mbind res_bind].
  assert (stream_val br = le_val s) as Hv by (unfold stream_val; by rewrite S). rewrite Hv in Rf.
  assert (0 <= offset <= USIZE_MAX) as Ho.
  { unfold USIZE_MAX. change (2 ^ 64) with 18446744073709551616. destruct Of as [[? _]| ->]; [|done].
    change (2 ^ 32) with 4294967296 in *. lia. }
  pose proof (exec_sequence_ok EXT lim m cur ll ml offset L C ltac:(lia) ltac:(lia) Ho) as He.
  unfold agrees in He. destruct (lz_sequence _ _ _ _ _ _ ll ml offset) as [[h' lits']|e| |] eqn:Elz.
  - apply returns_inv in He as ([m' cur'] & -> & [C' Op' F' H' L']). cbn [map_err mbind res_bind].
    rewrite <- H', <- L' in Elz. split; [|split; [lia|by exists ll, ml, offset]].
    assert (hist_ok (s_hist st')) as Hh'.
    { destruct Of as [[_ ?]| ->]; [done|]. exfalso. unfold lz_sequence in Elz. inv_ok.
      pose proof L as [L1 L2 _ _ L5 _ L7]. pose proof C as [C1 _]. unfold WILDCOPY_OVERLENGTH in *.
      rewrite (zlen_history EXT m lim L (c_op cur)) in * by lia. unfold USIZE_MAX in *.
      change (2 ^ 63) with 9223372036854775808 in *. change (2 ^ 64) with 18446744073709551616 in *.
      pose proof C' as [C1' _]. lia. }
    split; try done; try (change (2 ^ 30) with 1073741824; lia).
    + congruence.
    + by apply (lim_ok_frame EXT m m' lim _ _ L F').
    + apply (frame_trans _ _ _ _ _ _ _ _ _ F F'); lia.
  - rewrite He. cbn. rewrite Rf. destruct (0 <=? unread br'); [|done]. by rewrite Elz.
  - done.
  - done.
Qed.

Lemma seq_loop_ok (l : list Z) : forall br st m cur, running (Z.of_nat (length l) + 1) false br st m cur ->
  ran (unread br) (ref_go (length l) (unread br) st (history EXT m lim (c_op cur)) (literals m lim (c_lit cur)))
    (foldM (fun r _ => seq_step W EXT ll_dt ml_dt of_dt lim false r) (br, st, m, cur) l
     ≫= seq_step W EXT ll_dt ml_dt of_dt lim true).
Proof.
  induction l as [|x l IH]; intros br st m cur Hr.
  - cbn [foldM length ref_loop mbind res_bind]. pose proof (seq_step_ok 1 true br st m cur ltac:(lia) Hr) as H.
    destruct (seq_step _ _ _ _ _ _ true _) as [[[[br' st'] m'] cur']|e| |]; try done.
    + destruct H as (Hr' & Hu & ll & ml & offset & Hs & Hz). split; [done|]. split; [done|].
      rewrite Hs. destruct (0 <=? unread br'); [|done]. cbn [mbind option_bind]. by rewrite Hz.
    + cbn. destruct (ref_sequence _ _ _ _ _ _ _) as [[[[[ll ml] offset] u] st']|]; [|done].
      cbn. by destruct (lz_sequence _ _ _ _ _ _ _ _ _) as [[? ?]| | |].
  - cbn [foldM length ref_loop]. rewrite bind_assoc. cbn [length] in Hr.
    pose proof (seq_step_ok (Z.of_nat (S (length l)) + 1) false br st m cur ltac:(lia) Hr) as H.
    destruct (seq_step _ _ _ _ _ _ false _) as [[[[br' st'] m'] cur']|e| |]; try done.
    + destruct H as (Hr' & Hu & ll & ml & offset & Hs & Hz). cbn [mbind res_bind].
      replace (Z.of_nat (S (length l)) + 1 - 1) with (Z.of_nat (length l) + 1) in Hr' by lia.
      specialize (IH br' st' m' cur' Hr'). unfold ran in *.
      destruct (foldM _ _ _ ≫= _) as [[[[br2 st2] m2] cur2]|e| |]; try done.
      * destruct IH as (Hr2 & Hu2 & Href). split; [done|]. split; [lia|].
        rewrite Hs. destruct (Z.leb_spec 0 (unread br')).
        -- cbn [mbind option_bind]. by rewrite Hz.
        -- destruct (Z.leb_spec 0 (unread br2)); [lia|done].
      * rewrite Hs. destruct (0 <=? unread br'); [|done]. cbn [mbind option_bind]. by rewrite Hz.
    + cbn. destruct (ref_sequence _ _ _ _ _ _ _) as [[[[[ll ml] offset] u] st']|]; [|done].
      cbn. by destruct (lz_sequence _ _ _ _ _ _ _ _ _) as [[? ?]| | |].
Qed.
End run.

(** The initial states, and the reference's. *)
Lemma init_states_ok br ll_log of_log ml_log : stream_ok br -> room br 56 -> - 2 ^ 30 <= unread br ->
  0 <= ll_log <= 9 -> 0 <= of_log <= 9 -> 0 <= ml_log <= 9 ->
  returns (fun '(sl, so, sm, br') => stream_ok br' /\ src br' = src br /\ room br' 57 /\
      unread br - 27 <= unread br' <= unread br /\
      0 <= sl < 2 ^ ll_log /\ 0 <= so < 2 ^ of_log /\ 0 <= sm < 2 ^ ml_log /\
      forall A (k : Z -> Z -> Z -> Z -> option A),
      ('(sl, u) ← rd (stream_val br) (unread br) ll_log;
       '(so, u) ← rd (stream_val br) u of_log;
       '(sm, u) ← rd (stream_val br) u ml_log; k sl so sm u) =
      if 0 <=? unread br' then k sl so sm (unread br') else None)
    (init_states br ll_log of_log ml_log).
Proof.
  intros O R U Hl Ho Hm. change (2 ^ 30) with 1073741824 in U.
  assert (forall br n, stream_ok br -> room br 56 -> 0 <= n <= 9 -> - 2147483648 <= unread br ->
    let '(x, br1) := read_bits br n in reads br 56 n br1 x /\
    returns (fun '(_, br') => stream_ok br' /\ src br' = src br /\ unread br' = unread br - n /\ room br' 57)
      (reload br1)) as Hread.
  { intros b n Ob Rb Hn Ub. pose proof (read_bits_reads b 56 n Ob Rb ltac:(lia) ltac:(lia)
      ltac:(change (2 ^ 31) with 2147483648; lia)) as H.
    destruct (read_bits b n) as [x b1]. pose proof H as [H1 H2 H3 H4 _ _]. split; [done|].
    eapply returns_mono; [apply reload_room; [done|apply (room_le _ _ _ H4); lia]|].
    intros [st b'] (?&?&?&?). split_and!; congruence || done. }
  unfold init_states.
  pose proof (Hread br ll_log O R Hl ltac:(lia)) as H1. destruct (read_bits br ll_log) as [sl b1].
  destruct H1 as [R1 H1]. eapply returns_bind; [exact H1|]. intros [? b2] (O2 & S2 & U2 & M2).
  pose proof (Hread b2 of_log O2 (room_le b2 57 56 M2 ltac:(lia)) Ho ltac:(lia)) as H2.
  destruct (read_bits b2 of_log) as [so b3].
  destruct H2 as [R2 H2]. eapply returns_bind; [exact H2|]. intros [? b4] (O4 & S4 & U4 & M4).
  pose proof (Hread b4 ml_log O4 (room_le b4 57 56 M4 ltac:(lia)) Hm ltac:(lia)) as H3.
  destruct (read_bits b4 ml_log) as [sm b5].
  destruct H3 as [R3 H3]. eapply returns_bind; [exact H3|]. intros [? b6] (O6 & S6 & U6 & M6).
  cbn [returns]. pose proof R1 as [_ _ V1 _ X1 _]. pose proof R2 as [_ _ V2 _ X2 _].
  pose proof R3 as [_ _ V3 _ X3 _].
  do 2 (split; [congruence|]). split; [done|]. split; [lia|]. do 3 (split; [done|]). intros A k.
  pose proof (rd_reads _ _ _ _ _ R1) as E1. pose proof (rd_reads _ _ _ _ _ R2) as E2.
  pose proof (rd_reads _ _ _ _ _ R3) as E3.
  assert (stream_val b2 = stream_val br) as W2 by (unfold stream_val; congruence).
  assert (stream_val b4 = stream_val br) as W4 by (unfold stream_val; congruence).
  rewrite W2, U2, <- V1 in E2. rewrite W4, U4, U2 in E3.
  replace (unread br - ll_log - of_log) with (unread b3) in E3 by lia.
  ref_read E1 (unread b6). ref_read E2 (unread b6). ref_read E3 (unread b6).
  destruct (Z.leb_spec 0 (unread b6)); [f_equal; lia|lia].
Qed.

(** The contract of [Dst], and of [ExtHistory] when [EXT]. *)
Record dst_ok (EXT : bool) (m : Mem) (ext : ExtHistory) (dst : Dst) : Prop := {
  dk_base : 0 <= d_base dst;
  dk_op : 0 <= d_op dst;
  dk_room : d_base dst + d_op dst + MAX_BLOCK_SIZE + WILDCOPY_OVERLENGTH <= zlen (m_out m);
  dk_size : zlen (m_out m) < 2 ^ 63;
  dk_lits : WILDCOPY_OVERLENGTH <= zlen (m_lit m);
  dk_window : 0 <= d_window dst <= USIZE_MAX;
  dk_ext : ext_ok EXT m ext;
  dk_ext_size : ext_len EXT ext < 2 ^ 63;
}.

(** The limits [run_sequences] executes against. *)
Definition block_lim (m : Mem) (ext : ExtHistory) (dst : Dst) : SeqLimits :=
  MkLim (d_base dst + (d_op dst + MAX_BLOCK_SIZE)) (zlen (m_lit m) - WILDCOPY_OVERLENGTH) (d_base dst)
    ext (d_window dst).

Lemma block_lim_ok EXT m ext dst : dst_ok EXT m ext dst -> lim_ok EXT m (block_lim m ext dst).
Proof. intros []. unfold block_lim. split; cbn; try done; lia. Qed.

(** A sequences section ready to run. *)
Record seqs_ok (seqs : SeqInput) : Prop := {
  qk_num : 1 <= q_num seqs < 2 ^ 17;
  qk_bits : bytes (q_bits seqs);
  qk_ll : seq_table_ok ll_kind (q_ll seqs);
  qk_of : seq_table_ok of_kind (q_of seqs);
  qk_ml : seq_table_ok ml_kind (q_ml seqs);
}.

(** The reference's run of the section on the memory's history. *)
Definition ref_sequences (EXT : bool) (seqs : SeqInput) (ext : ExtHistory) (offset_hist : list Z)
    (m : Mem) (dst : Dst) : option (list Z * list Z) :=
  let lim := block_lim m ext dst in
  ref_run (q_bits seqs) (accuracy_log (q_ll seqs)) (accuracy_log (q_ml seqs)) (accuracy_log (q_of seqs))
    (table_cells (q_ll seqs)) (table_cells (q_ml seqs)) (table_cells (q_of seqs))
    (EXT && e_dict ext) (ext_len EXT ext) (d_window dst) (ext_len EXT ext + d_op dst + MAX_BLOCK_SIZE)
    (q_num seqs) offset_hist (history EXT m lim (d_base dst + d_op dst)) (literals m lim 0).

(** What a run of a section is, against the reference's. *)
Definition block_ran (EXT : bool) (seqs : SeqInput) (ext : ExtHistory) (offset_hist : list Z) (m : Mem)
    (dst : Dst) (r : dec (Z * list Z * Mem)) : Prop :=
  match r with
  | Ok (end_, hist, m') =>
      ref_sequences EXT seqs ext offset_hist m dst =
        Some (history EXT m' (block_lim m ext dst) (d_base dst + end_), hist) /\
      hist_ok hist /\ d_op dst <= end_ <= d_op dst + MAX_BLOCK_SIZE /\
      frame m m' (d_base dst + d_op dst) (end_ - d_op dst + 31)
  | Err _ => ref_sequences EXT seqs ext offset_hist m dst = None
  | Fault | Stuck => False
  end.

(** After the last sequence: every bit read, and the last literals. *)
Lemma last_literals_ok EXT m0 m ext dst cur : dst_ok EXT m0 ext dst ->
  let lim := block_lim m0 ext dst in
  lim_ok EXT m lim -> cur_ok lim cur ->
  let rest := l_lit_limit lim - c_lit cur in
  c_op cur + rest <= l_oend_w lim ->
  returns (fun m' => frame m m' (c_op cur) (rest + 31) /\
      history EXT m' lim (c_op cur + rest) =
        history EXT m lim (c_op cur) ++ literals m lim (c_lit cur))
    (copy_nonoverlapping m (c_op cur) (BLit, c_lit cur) rest).
Proof.
  intros [] lim Hok Hcur rest Hle. pose proof Hok as [H1 H2 H3 _ _ _ _]. pose proof Hcur as [Co Cl].
  unfold WILDCOPY_OVERLENGTH in *.
  eapply returns_mono; [apply copy_nonoverlapping_ok; cbn; try lia; by left|].
  intros m' [Hf Hb]. cbn in Hb.
  assert (frame m m' (c_op cur) (rest + 31)) as Hf' by (apply (frame_weaken _ _ _ _ _ _ Hf); lia).
  split; [done|]. rewrite (history_literals EXT lim m m' (c_op cur) (c_lit cur) rest) by (done || lia).
  f_equal. unfold ztake. apply take_ge.
  pose proof (zlen_literals EXT m lim (c_lit cur) Hok Cl) as Hlen. unfold zlen in *. lia.
Qed.

Lemma finish_block_ok EXT m0 ext dst s l1 l2 l3 br st m cur : dst_ok EXT m0 ext dst ->
  let lim := block_lim m0 ext dst in
  let op0 := d_base dst + d_op dst in
  running EXT lim s op0 m0 l1 l2 l3 0 true br st m cur ->
  let h := history EXT m lim (c_op cur) in
  let lits := literals m lim (c_lit cur) in
  let ends := (unread br =? 0) &&
    (zlen h + zlen lits <=? ext_len EXT ext + d_op dst + MAX_BLOCK_SIZE) in
  match finish_block (d_base dst) (d_op dst + MAX_BLOCK_SIZE) (l_lit_limit lim) (br, st, m, cur) with
  | Ok (end_, hist, m') => ends = true /\ h ++ lits = history EXT m' lim (d_base dst + end_) /\
      hist = s_hist st /\ d_op dst <= end_ <= d_op dst + MAX_BLOCK_SIZE /\
      frame m0 m' op0 (end_ - d_op dst + 31)
  | Err _ => ends = false
  | Fault | Stuck => False
  end.
Proof.
  intros Hd lim op0 [O S U R St (h0 & h1 & h2 & Hh & B0 & B1 & B2) L C Op F] h lits ends.
  pose proof Hd as [D1 D2 D3 D4 D5 _ _ _]. pose proof L as [L1 L2 L3 _ _ _ _]. pose proof C as [C1 C2].
  unfold WILDCOPY_OVERLENGTH in *.
  assert (l_prefix lim = d_base dst /\ l_oend_w lim = d_base dst + (d_op dst + MAX_BLOCK_SIZE) /\
    l_ext lim = ext) as (Ep & Eo & Ee) by done.
  assert (zlen h = ext_len EXT ext + c_op cur - d_base dst) as Zh
    by (unfold h; rewrite (zlen_history EXT m lim L) by lia; by rewrite Ep, Ee).
  assert (zlen lits = l_lit_limit lim - c_lit cur) as Zl by by apply (zlen_literals EXT).
  unfold finish_block, ends. rewrite is_finished_room by done.
  destruct (Z.eqb_spec (unread br) 0); [|done]. cbn [negb andb fail_if mbind res_bind].
  rewrite (proj2 (Z.leb_le (c_lit cur) _)) by lia. cbn [rassert mbind res_bind].
  destruct (Z.ltb_spec (d_op dst + MAX_BLOCK_SIZE) (c_op cur - d_base dst + (l_lit_limit lim - c_lit cur)));
    cbn [fail_if mbind res_bind]; [apply Z.leb_gt; lia|].
  replace (d_base dst + (c_op cur - d_base dst)) with (c_op cur) by lia.
  pose proof (last_literals_ok EXT m0 m ext dst cur Hd L C ltac:(fold lim; lia)) as Hlast.
  apply returns_inv in Hlast as (m' & Hcp & Hf & Hhist). fold lim in Hcp, Hf, Hhist. rewrite Hcp, Hh.
  change (idx [h0; h1; h2] 0) with (Ok h0 : dec Z). change (idx [h0; h1; h2] 1) with (Ok h1 : dec Z).
  change (idx [h0; h1; h2] 2) with (Ok h2 : dec Z). cbn [mbind res_bind].
  split; [apply Z.leb_le; lia|]. split.
  { unfold h, lits. rewrite <- Hhist. f_equal. lia. }
  split; [by rewrite !wrap_small by (change (2 ^ 32) with 4294967296 in *; lia)|]. split; [unfold op0 in *; lia|].
  apply (frame_trans _ _ _ _ _ _ _ _ _ F Hf); unfold op0 in *; lia.
Qed.

Lemma run_sequences_ok EXT seqs ext offset_hist m dst : seqs_ok seqs -> dst_ok EXT m ext dst ->
  hist_ok offset_hist ->
  block_ran EXT seqs ext offset_hist m dst (run_sequences W EXT seqs ext offset_hist m dst).
Proof.
  intros [Qn Qb Ql Qo Qm] Hd Hh. pose proof Hd as [D1 D2 D3 D4 D5 _ _ _].
  pose proof (block_lim_ok EXT m ext dst Hd) as Hlim. pose proof Hh as (h0 & h1 & h2 & Eh & _).
  destruct (seq_table_cells _ _ Ql) as [Dl Cl], (seq_table_cells _ _ Qo) as [Do Co],
    (seq_table_cells _ _ Qm) as [Dm Cm].
  pose proof Cl as ([L0 L9] & Ll & _). pose proof Co as ([O0 O8] & Lo & _). pose proof Cm as ([M0 M9] & Lm & _).
  cbn [max_log ll_kind ml_kind of_kind] in L9, O8, M9. unfold LL_MAX_LOG, ML_MAX_LOG, OF_MAX_LOG in *.
  unfold run_sequences, block_ran. rewrite Dl, Do, Dm. cbn [mbind res_bind].
  rewrite Ll, Lo, Lm, !Z.shiftl_1_l, !Z.eqb_refl. cbn [negb orb fail_if mbind res_bind].
  rewrite (proj2 (Z.leb_le _ _)) by exact D5. cbn [rassert mbind res_bind].
  unfold ref_sequences, ref_run. destruct (BitDStream.new (q_bits seqs)) as [br|e| |] eqn:Enew; cbn [mbind res_bind].
  2: { pose proof (new_ok _ Qb) as H. rewrite Enew in H. destruct H as [[_ ->]|[_ H]]; [done|].
       by rewrite H. }
  2,3: pose proof (new_ok _ Qb) as H; by rewrite Enew in H.
  destruct (new_room _ _ Qb Enew) as (Hsrc & Hok & Hun & Hpos & Hroom & last & -> & Hlast).
  cbn [mbind option_bind]. rewrite (proj2 (Z.eqb_neq last 0)) by done.
  pose proof (Z.log2_nonneg (le_val (q_bits seqs))) as Hlog.
  pose proof (init_states_ok br _ _ _ Hok Hroom ltac:(change (2 ^ 30) with 1073741824; lia)
    (conj L0 L9) (conj O0 (Z.le_trans _ 8 9 O8 ltac:(lia))) (conj M0 M9)) as Hinit.
  apply returns_inv in Hinit as ([[[sl so] sm] b1] & -> & O1 & S1 & R1 & U1 & Xl & Xo & Xm & Eref).
  assert (stream_val br = le_val (q_bits seqs)) as Hv by (unfold stream_val; by rewrite Hsrc).
  rewrite Hv, Hun in Eref. rewrite Eref, Eh. cbn [mbind res_bind].
  change (idx [h0; h1; h2] 0) with (Ok h0 : dec Z). change (idx [h0; h1; h2] 1) with (Ok h1 : dec Z).
  change (idx [h0; h1; h2] 2) with (Ok h2 : dec Z). cbn [mbind res_bind].
  fold (block_lim m ext dst). set (lim := block_lim m ext dst) in *.
  set (cur := MkCur (d_base dst + d_op dst) 0). set (st := MkSt sl sm so [h0; h1; h2]).
  pose proof (seq_loop_ok EXT lim (q_bits seqs) (d_base dst + d_op dst) m _ _ _ _ _ _ Cl Cm Co
    (seqZ 1 (q_num seqs - 1)) b1 st m cur) as Hloop.
  change (l_ext lim) with ext in Hloop. change (l_window lim) with (d_window dst) in Hloop.
  change (l_oend_w lim) with (d_base dst + (d_op dst + MAX_BLOCK_SIZE)) in Hloop.
  change (l_prefix lim) with (d_base dst) in Hloop.
  rewrite length_seqZ in Hloop. replace (ext_len EXT ext + (d_base dst + (d_op dst + MAX_BLOCK_SIZE)) - d_base dst)
    with (ext_len EXT ext + d_op dst + MAX_BLOCK_SIZE) in Hloop by lia.
  rewrite <- (bind_assoc (foldM _ _ _)).
  assert (running EXT lim (q_bits seqs) (d_base dst + d_op dst) m (accuracy_log (q_ll seqs))
    (accuracy_log (q_ml seqs)) (accuracy_log (q_of seqs)) (Z.of_nat (Z.to_nat (q_num seqs - 1)) + 1)
    false b1 st m cur) as Hrun.
  { rewrite Eh in Hh. split; try done; try congruence.
    - change (2 ^ 30) with 1073741824. lia.
    - split; cbn; unfold WILDCOPY_OVERLENGTH, MAX_BLOCK_SIZE in *; lia. }
  specialize (Hloop Hrun). unfold ran in Hloop.
  destruct (foldM _ _ _ ≫= _) as [[[[br' st'] m'] cur']|e| |]; cbn [mbind res_bind]; try done.
  - destruct Hloop as (Hrun' & Hle & Href).
    pose proof (finish_block_ok EXT m ext dst _ _ _ _ br' st' m' cur' Hd Hrun') as Hfin.
    cbv zeta in Hfin. fold lim in Hfin.
    change (l_lit_limit lim) with (zlen (m_lit m) - WILDCOPY_OVERLENGTH) in Hfin.
    change (c_op cur) with (d_base dst + d_op dst) in Href. change (c_lit cur) with 0 in Href.
    rewrite Href.
    destruct (finish_block _ _ _ _) as [[[end_ hist] m2]|e| |]; try done.
    + destruct Hfin as (Hends & Hh2 & -> & Hend & Hf2).
      split; [|split; [exact (rn_hist _ _ _ _ _ _ _ _ _ _ _ _ _ _ Hrun')|done]].
      assert (unread br' = 0) as Hz by (bools; lia).
      rewrite (proj2 (Z.leb_le 0 (unread b1))), (proj2 (Z.leb_le 0 (unread br'))) by lia.
      cbn [mbind option_bind]. by rewrite Hends, Hh2.
    + destruct (0 <=? unread b1); [|done]. destruct (0 <=? unread br'); [|done].
      cbn [mbind option_bind]. by rewrite Hfin.
  - cbn in Hloop. rewrite Hloop. by destruct (0 <=? unread b1).
Qed.
End exec.

(** C32: A block's sequences execute as the format means them, in every copy
    variant, with or without a dictionary's history. For all built tables, bit
    streams, literals, offset histories and destinations that meet the [Dst]
    contract, no access leaves its buffer, no [copy_nonoverlapping] overlaps
    and no index panics; the block succeeds exactly when the reference, which
    reads one big number and appends to a list byte by byte, does (all bits
    read, no offset of zero, before the history or past the window, enough
    literals, at most 128 KiB), and then the history in memory and the three
    repeat offsets are the reference's, nothing before the block changed, and
    past its end at most 31 bytes. *)
Theorem sequences_execute W EXT seqs ext offset_hist m dst : In W variants ->
  seqs_ok seqs -> dst_ok EXT m ext dst -> hist_ok offset_hist ->
  match run_sequences W EXT seqs ext offset_hist m dst with
  | Ok (end_, hist, m') =>
      ref_sequences EXT seqs ext offset_hist m dst =
        Some (history EXT m' (block_lim m ext dst) (d_base dst + end_), hist) /\
      hist_ok hist /\ d_op dst <= end_ <= d_op dst + MAX_BLOCK_SIZE /\
      frame m m' (d_base dst + d_op dst) (end_ - d_op dst + 31)
  | Err _ => ref_sequences EXT seqs ext offset_hist m dst = None
  | Fault | Stuck => False
  end.
Proof.
  intros HW Hs Hd Hh.
  assert (WildCopyLaws W) as HL
    by (destruct HW as [<-|[<-|[<-|[<-|[]]]]]; typeclasses eauto).
  exact (run_sequences_ok W EXT seqs ext offset_hist m dst Hs Hd Hh).
Qed.

(** Run-length tables of one code each. *)
Definition rle_table (kind : SeqTableKind) (code : Z) : FSETable :=
  match build_rle (FseTable.new (max_code kind)) code (base kind) (kind_bits kind) with
  | Ok t => t
  | _ => FseTable.new 0
  end.

Lemma rle_table_ok t kind code : zget SEQ_TABLES t = Some kind -> 0 <= code <= max_code kind ->
  seq_table_ok kind (rle_table kind code).
Proof.
  intros Hk Hc. pose proof (build_rle_ok t kind (FseTable.new (max_code kind)) code Hk eq_refl Hc) as H.
  unfold rle_table. apply returns_inv in H as (tb & -> & _ & _ & H). exact H.
Qed.

(** One sequence: five literals, then 13 bytes from 3 back. *)
Lemma sequences_execute_witness : exists end_ m',
  let seqs := MkSeqIn 1 [6] (rle_table ll_kind 5) (rle_table of_kind 2) (rle_table ml_kind 10) in
  let m := MkMem (zrepeat 0 131120) ([97; 98; 99; 100; 101] ++ zrepeat 0 32) [] in
  let dst := MkDst 0 0 1024 in
  run_sequences Avx2ShortOffsets false seqs ext_none [1; 4; 8] m dst = Ok (end_, [3; 1; 4], m') /\
  history false m' (block_lim m ext_none dst) (0 + end_) =
    [97; 98; 99; 100; 101; 99; 100; 101; 99; 100; 101; 99; 100; 101; 99; 100; 101; 99].
Proof.
  cbv zeta.
  set (seqs := MkSeqIn 1 [6] (rle_table ll_kind 5) (rle_table of_kind 2) (rle_table ml_kind 10)).
  set (m := MkMem (zrepeat 0 131120) ([97; 98; 99; 100; 101] ++ zrepeat 0 32) []).
  assert (seqs_ok seqs) as Hs.
  { split; [split; vm_compute; congruence|cbn; solve_bytes| | |].
    - apply (rle_table_ok 0); [reflexivity|vm_compute; split; congruence].
    - apply (rle_table_ok 1); [reflexivity|vm_compute; split; congruence].
    - apply (rle_table_ok 2); [reflexivity|vm_compute; split; congruence]. }
  assert (dst_ok false m ext_none (MkDst 0 0 1024)) as Hd.
  { split; first [vm_compute; congruence | split; vm_compute; congruence | intros E; discriminate E]. }
  assert (hist_ok [1; 4; 8]) as Hh by (do 3 eexists; split; [reflexivity|vm_compute; intuition congruence]).
  pose proof (sequences_execute Avx2ShortOffsets false seqs ext_none [1; 4; 8] m (MkDst 0 0 1024)
    ltac:(cbn; tauto) Hs Hd Hh) as H.
  assert (ref_sequences false seqs ext_none [1; 4; 8] m (MkDst 0 0 1024) =
    Some ([97; 98; 99; 100; 101; 99; 100; 101; 99; 100; 101; 99; 100; 101; 99; 100; 101; 99], [3; 1; 4]))
    as Href by (vm_compute; reflexivity).
  destruct (run_sequences Avx2ShortOffsets false seqs ext_none [1; 4; 8] m (MkDst 0 0 1024))
    as [[[end_ hist] m']|e| |]; [|rewrite Href in H; discriminate H|destruct H..].
  destruct H as [H _]. rewrite Href in H. exists end_, m'. injection H as H1 H2.
  rewrite <- H2. split; [reflexivity|]. exact (eq_sym H1).
Defined.
