(* ===== verification/BlockDecode.v ===== *)
(** * Decoding a block ([src/decode.rs], "Literals section decoder" and "Block decoder")

    The scratch space a frame's blocks share, a compressed block's sections,
    its literals, and [decompress_block]. A block decodes into [out], the
    buffer of [Dst], after the history of [ExtHistory]; [ext] is the content
    of the dictionary that history points to. An error drops the state: the
    caller gives up the frame, and [DecoderScratch::reset] starts the next. *)

From S2P Require Import Prelude Words Constants Errors FseTable HufTable HufStream HufX2 Headers SeqTables Copy SeqExec.

(** ** Scratch space *)

(** [HuffmanScratch]. *)
Record HuffmanScratch := MkHufScratch { hs_table : HuffmanTable }.

(** [DictEntropy] ([src/decode/dict.rs]). *)
Record DictEntropy := MkEntropy {
  de_huf : HuffmanScratch;
  de_fse : FSEScratch;
  de_rep : list Z;
}.

(** [DecoderScratch]. *)
Record DecoderScratch := MkScratch {
  ds_huf : HuffmanScratch;
  ds_fse : FSEScratch;
  offset_hist : list Z;
  literals_buffer : list Z;
  huf_from_dict : bool;
}.

(** [DecoderScratch::new]. *)
Definition scratch_new : DecoderScratch :=
  MkScratch (MkHufScratch huf_new) fse_new [1; 4; 8] [] false.

(** [DecoderScratch::reset]. *)
Definition scratch_reset (s : DecoderScratch) : DecoderScratch :=
  MkScratch (MkHufScratch (huf_reset (hs_table (ds_huf s)))) (fse_reset (ds_fse s)) [1; 4; 8] [] false.

(** [DecoderScratch::load_dict]. *)
Definition load_dict (s : DecoderScratch) (e : DictEntropy) : DecoderScratch :=
  MkScratch (ds_huf s)
    (MkFse (offsets (ds_fse s)) (literal_lengths (ds_fse s)) (match_lengths (ds_fse s))
       [FromDict; FromDict; FromDict])
    (de_rep e) (literals_buffer s) true.

(** [DecoderScratch::huf_table]. *)
Definition huf_table (s : DecoderScratch) (dict : option DictEntropy) : HuffmanTable :=
  match dict with
  | Some d => if huf_from_dict s then hs_table (de_huf d) else hs_table (ds_huf s)
  | None => hs_table (ds_huf s)
  end.

(** ** Literals *)

(** [decompress_literals]: the scratch, the literals after [target] and the
    bytes read. *)
Definition decompress_literals (section : LiteralsSection) (scratch : HuffmanScratch)
    (repeat : option HuffmanTable) (source target : list Z) : dec (HuffmanScratch * list Z * Z) :=
  let four := four_streams section in
  let size := regenerated_size section in
  source ← slice source 0 (lits_content section);
  '(scratch, tb, bytes_read) ←
    match ls_type section with
    | LitCompressed =>
        '(t, n) ← huf_build_decoder (hs_table scratch) source size four;
        Ok (MkHufScratch t, t, n)
    | _ => Ok (scratch, default (hs_table scratch) repeat, 0)
    end;
  _ ← fail_if (max_num_bits tb =? 0) ETreelessUninitialized;
  source ← slice_from source bytes_read;
  out ← huf_decompress (zrepeat 0 size) source four tb;
  Ok (scratch, target ++ out, wrap 32 (bytes_read + zlen source)).

(** [decode_literals]. *)
Definition decode_literals (section : LiteralsSection) (scratch : HuffmanScratch)
    (repeat : option HuffmanTable) (source target : list Z) : dec (HuffmanScratch * list Z * Z) :=
  match ls_type section with
  | LitRaw =>
      bs ← slice source 0 (regenerated_size section);
      Ok (scratch, target ++ bs, regenerated_size section)
  | LitRLE =>
      b ← idx source 0;
      Ok (scratch, target ++ zrepeat b (regenerated_size section), 1)
  | LitCompressed | LitTreeless => decompress_literals section scratch repeat source target
  end.

(** ** The sections of a block *)

(** [BlockParts]. *)
Record BlockParts := MkParts {
  bp_literals : LiteralsSection;
  literals_src : list Z;
  bp_sequences : SequencesHeader;
  sequences_src : list Z;
}.

(** [split_block]. *)
Definition split_block (raw : list Z) (block_size_max : Z) : dec BlockParts :=
  '(section, n) ← parse_literals_section raw;
  _ ← fail_if (block_size_max <? regenerated_size section)
        (ELiteralsSize (regenerated_size section) block_size_max);
  raw ← slice_from raw n;
  let upper := lits_content section in
  _ ← fail_if (zlen raw <? upper) (ESectionHeader upper (zlen raw));
  lits ← slice raw 0 upper;
  raw ← slice_from raw upper;
  '(sequences, n) ← parse_sequences_header raw;
  rest ← slice_from raw n;
  Ok (MkParts section lits sequences rest).

(** [decode_block_literals]: the scratch and the target, which starts
    empty. *)
Definition decode_block_literals (parts : BlockParts) (huf : HuffmanScratch)
    (repeat : option HuffmanTable) : dec (HuffmanScratch * list Z) :=
  '(huf, target, used) ← decode_literals (bp_literals parts) huf repeat (literals_src parts) [];
  _ ← rassert (regenerated_size (bp_literals parts) =? wrap 32 (zlen target));
  _ ← rassert (used =? zlen (literals_src parts));
  Ok (huf, target ++ zrepeat 0 WILDCOPY_OVERLENGTH).

(** Whether a section builds its own Huffman table. *)
Definition is_compressed (ty : LiteralsSectionType) : bool :=
  match ty with LitCompressed => true | _ => false end.

(** [decompress_block]: the block's end, the scratch and the buffer. *)
Definition decompress_block (raw : list Z) (block_size_max : Z) (ws : DecoderScratch)
    (dict : option DictEntropy) (out : list Z) (dst : Dst) (ext_content : list Z) (ext : ExtHistory)
    (simd : Level) : dec (Z * DecoderScratch * list Z) :=
  parts ← split_block raw block_size_max;
  let repeat :=
    match dict with
    | Some d => if huf_from_dict ws then Some (hs_table (de_huf d)) else None
    | None => None
    end in
  '(huf, lits) ← decode_block_literals parts (ds_huf ws) repeat;
  let from_dict := huf_from_dict ws && negb (is_compressed (ls_type (bp_literals parts))) in
  let literals_len := zlen lits - WILDCOPY_OVERLENGTH in
  let section := bp_sequences parts in
  let raw := sequences_src parts in
  let m := MkMem out lits ext_content in
  if negb (num_sequences section =? 0) then
    '(fse, n) ← build_sequence_tables section raw (ds_fse ws);
    '(ll, off, ml) ← tables fse (de_fse <$> dict);
    bits ← slice_from raw n;
    let seqs := MkSeqIn (num_sequences section) bits ll off ml in
    '(end_, hist, m) ←
      (if e_len ext =? 0 then
         execute_with_copies simd off seqs (offset_hist ws) block_size_max m dst
       else
         execute_with_copies simd off (MkExtIn seqs ext) (offset_hist ws) block_size_max m dst);
    Ok (end_, MkScratch huf fse hist lits from_dict, m_out m)
  else
    _ ← fail_if (negb (is_empty raw)) (EExtraBits (zlen raw * 8));
    m ← copy_nonoverlapping m (d_base dst + d_op dst) (BLit, 0) literals_len;
    Ok (d_op dst + literals_len, MkScratch huf (ds_fse ws) (offset_hist ws) lits from_dict, m_out m).

(** ** A block refines its reference

    [ref_block] is what a block means, on lists: its literals by the
    reference decoder of the prefix code, its sequences by [ref_run], all
    appended to the history. [decompress_block] computes the same into the
    middle of a buffer, and keeps the scratch space well formed. *)

From S2P Require Import FseBuild HufWeights HufX2Table HufX2Fast HeaderUnits CopyProofs SeqDecode SeqRun.

(** ** What the scratch space satisfies *)

(** A Huffman table to decode with, or none. *)
Definition huf_scratch_ok (s : HuffmanScratch) : Prop :=
  huf_wf (hs_table s) /\ (max_num_bits (hs_table s) = 0 \/ huf_built (hs_table s)).

(** A dictionary's tables are all there. *)
Record entropy_ok (e : DictEntropy) : Prop := {
  ek_huf : huf_built (hs_table (de_huf e));
  ek_fse : forall t kind, zget SEQ_TABLES t = Some kind -> seq_table_ok kind (own (de_fse e) t);
  ek_rep : hist_ok (de_rep e);
}.

Definition dict_entropy_ok (dict : option DictEntropy) : Prop :=
  forall e, dict = Some e -> entropy_ok e.

(** The scratch of a frame that started from [dict]. *)
Record scratch_ok (dict : option DictEntropy) (s : DecoderScratch) : Prop := {
  sk_huf : huf_scratch_ok (ds_huf s);
  sk_fse : fse_wf (de_fse <$> dict) (ds_fse s);
  sk_hist : hist_ok (offset_hist s);
}.

Lemma init_hist_ok : hist_ok [1; 4; 8].
Proof. do 3 eexists. split; [done|]. change (2 ^ 32) with 4294967296. lia. Qed.

Lemma scratch_new_ok dict : scratch_ok dict scratch_new.
Proof.
  split; [|apply fse_new_wf|apply init_hist_ok]. split; [apply huf_new_wf|by left].
Qed.

(** A new frame's scratch, whatever the last frame left. *)
Lemma scratch_reset_ok dict dict' s : scratch_ok dict s -> scratch_ok dict' (scratch_reset s).
Proof.
  intros [[[H1 H2 H3 H4] _] Hf _]. split; [|by eapply fse_reset_wf|apply init_hist_ok].
  split; [by split|by left].
Qed.

Lemma load_dict_ok s e dict : scratch_ok None s -> entropy_ok e -> dict = Some e ->
  scratch_ok dict (load_dict s e).
Proof.
  intros [Hh [Hs Ho Hd] _] [_ Hfse Hrep] ->. split; [done| |done]. split; [done| |].
  - intros t kind Hk. specialize (Ho t kind Hk).
    destruct (seq_kind t kind Hk) as ([->|[->| ->]] & _); exact Ho.
  - intros t kind _ Hk. exists (de_fse e). split; [done|]. by apply Hfse.
Qed.

(** ** Literals *)

(** What a literals section means. *)
Definition ref_literals (section : LiteralsSection) (scratch : HuffmanScratch)
    (repeat : option HuffmanTable) (source : list Z) : option (HuffmanScratch * list Z) :=
  let n := regenerated_size section in
  match ls_type section with
  | LitRaw => Some (scratch, source)
  | LitRLE => b ← zget source 0; Some (scratch, zrepeat b n)
  | LitCompressed =>
      '(t, used) ← to_option (huf_build_decoder (hs_table scratch) source n (four_streams section));
      l ← huf_section_ref t (zdrop used source) (four_streams section) n;
      Some (MkHufScratch t, l)
  | LitTreeless =>
      let t := default (hs_table scratch) repeat in
      if max_num_bits t =? 0 then None
      else l ← huf_section_ref t source (four_streams section) n; Some (scratch, l)
  end.

(** A section with its source, of at most a block. *)
Record lits_ok (section : LiteralsSection) (source : list Z) : Prop := {
  li_section : literals_section_ok section;
  li_source : zlen source = lits_content section;
  li_bytes : bytes source;
}.

Definition lits_done (section : LiteralsSection) (a : HuffmanScratch * list Z * Z)
    (b : HuffmanScratch * list Z) : Prop :=
  a.1 = b /\ a.2 = lits_content section /\ zlen b.2 = regenerated_size section /\ bytes b.2 /\
  huf_scratch_ok b.1.

Lemma built_bits t : huf_built t -> max_num_bits t <> 0.
Proof. intros [[] _]. lia. Qed.

(** The streams of a section, with a built table. *)
Lemma huf_streams_ok t src four n : huf_built t -> bytes src -> 0 <= n < 2 ^ 20 ->
  refines (fun a b => a = b /\ zlen b = n /\ bytes b) (huf_decompress (zrepeat 0 n) src four t)
    (huf_section_ref t src four n).
Proof.
  change (2 ^ 20) with 1048576. intros Ht Hs Hn.
  pose proof (huf_decompress_ref (zrepeat 0 n) src four t Ht Hs ltac:(by apply Forall_zrepeat)) as H.
  rewrite zlen_zrepeat in H by lia. change (2 ^ 24) with 16777216 in H. specialize (H ltac:(lia)).
  pose proof (huf_section_ref_length t src four n) as Hlen.
  destruct (huf_section_ref t src four n) as [l|].
  - rewrite H. apply refines_ok. split; [done|]. apply Hlen; done || lia || apply Ht.
  - by destruct H as [e ->].
Qed.

Section literals.
Context (section : LiteralsSection) (scratch : HuffmanScratch) (repeat : option HuffmanTable).
Context (Hscratch : huf_scratch_ok scratch) (Hrepeat : forall t, repeat = Some t -> huf_built t).

Lemma wrap_content source : lits_ok section source -> wrap 32 (zlen source) = lits_content section.
Proof.
  intros [[_ H _ _] -> _]. apply wrap_small. change (2 ^ 20) with 1048576 in H.
  change (2 ^ 32) with 4294967296. lia.
Qed.

Lemma compressed_literals_ok source : lits_ok section source -> ls_type section = LitCompressed ->
  refines (lits_done section) (decompress_literals section scratch repeat source [])
    (ref_literals section scratch repeat source).
Proof.
  intros Hli Hty. pose proof (wrap_content source Hli) as Hw.
  destruct Hli as [[Hn Hc _ _] Hl Hb]. unfold decompress_literals, ref_literals. rewrite Hty, <- Hl.
  rewrite slice_prefix by (pose proof (zlen_nonneg source); lia).
  replace (ztake (zlen source) source) with source
    by (unfold ztake, zlen; by rewrite Nat2Z.id, firstn_all). cbn [mbind res_bind].
  rewrite bind_assoc.
  eapply refines_bind; [apply refines_self, huf_build_ok; [apply Hscratch|done|lia]|].
  intros [t used] ? _ _ [<- (Hbt & Hwf & Hu)]. cbn [mbind res_bind].
  rewrite (proj2 (Z.eqb_neq (max_num_bits t) 0)) by by apply built_bits.
  cbn [fail_if mbind res_bind]. rewrite slice_from_ok by lia. cbn [mbind res_bind].
  eapply refines_bind; [apply huf_streams_ok; [done|by apply Forall_drop|done]|].
  intros l ? _ _ (<- & Hll & Hlb). apply refines_ok. unfold lits_done. cbn.
  split; [done|]. split.
  { rewrite <- Hw. rewrite zlen_zdrop by lia. f_equal. lia. }
  split_and!; try done. split; [done|by right].
Qed.

Lemma treeless_literals_ok source : lits_ok section source -> ls_type section = LitTreeless ->
  refines (lits_done section) (decompress_literals section scratch repeat source [])
    (ref_literals section scratch repeat source).
Proof.
  intros Hli Hty. pose proof (wrap_content source Hli) as Hw.
  destruct Hli as [[Hn Hc _ _] Hl Hb]. unfold decompress_literals, ref_literals. rewrite Hty, <- Hl.
  rewrite slice_prefix by (pose proof (zlen_nonneg source); lia).
  replace (ztake (zlen source) source) with source
    by (unfold ztake, zlen; by rewrite Nat2Z.id, firstn_all). cbn [mbind res_bind].
  set (t := default (hs_table scratch) repeat). apply refines_fail_if. intros Hnz. bools.
  assert (huf_built t) as Hbt.
  { unfold t in *. destruct repeat as [u|]; cbn in *; [by apply Hrepeat|].
    destruct Hscratch as [_ [?|?]]; done. }
  pose proof (zlen_nonneg source).
  rewrite slice_from_ok by lia. change (zdrop 0 source) with source. cbn [mbind res_bind].
  eapply refines_bind; [by apply huf_streams_ok|].
  intros l ? _ _ (<- & Hll & Hlb). apply refines_ok. unfold lits_done. cbn.
  split; [done|]. split; [exact Hw|]. by split_and!.
Qed.

Lemma decode_literals_ok source : lits_ok section source ->
  refines (lits_done section) (decode_literals section scratch repeat source [])
    (ref_literals section scratch repeat source).
Proof.
  intros Hli. unfold decode_literals. destruct (ls_type section) eqn:Hty;
    [| |by apply compressed_literals_ok|by apply treeless_literals_ok];
    destruct Hli as [[Hn Hc Hraw Hrle] Hl Hb]; unfold ref_literals; rewrite Hty;
    pose proof (zlen_nonneg source).
  - rewrite <- (Hraw Hty), <- Hl, slice_prefix by lia. cbn [mbind res_bind].
    replace (ztake (zlen source) source) with source
      by (unfold ztake, zlen; by rewrite Nat2Z.id, firstn_all).
    apply refines_ok. unfold lits_done. cbn. specialize (Hraw Hty). split_and!; done || lia.
  - specialize (Hrle Hty). destruct (zget_is_Some source 0) as [b Hz]; [lia|].
    unfold idx. rewrite Hz. cbn. eexists. split; [done|]. unfold lits_done. cbn.
    rewrite zlen_zrepeat by lia. split_and!; try done; try lia.
    apply Forall_zrepeat. by eapply Forall_zget.
Qed.
End literals.

(** ** Sections *)

Record parts_ok (bsm : Z) (p : BlockParts) : Prop := {
  pk_lits : lits_ok (bp_literals p) (literals_src p);
  pk_size : regenerated_size (bp_literals p) <= bsm;
  pk_seqs : sequences_header_ok (bp_sequences p);
  pk_bytes : bytes (sequences_src p);
}.

Lemma split_block_safe raw bsm : bytes raw -> safe (parts_ok bsm) (split_block raw bsm).
Proof.
  intros Hr. unfold split_block. eapply safe_bind; [by apply parse_literals_section_safe|].
  intros [section n] (Hs & Hn & Hle). apply safe_fail_if. intros Hsize. bools.
  pose proof Hs as [_ Hc _ _]. rewrite slice_from_ok by lia. cbn [mbind res_bind].
  apply safe_fail_if. intros Hup. bools. pose proof (zlen_nonneg (zdrop n raw)).
  rewrite slice_prefix by lia. cbn [mbind res_bind]. rewrite slice_from_ok by lia. cbn [mbind res_bind].
  assert (bytes (zdrop n raw)) as Hb by by apply Forall_drop.
  assert (bytes (zdrop (lits_content section) (zdrop n raw))) as Hb2 by by apply Forall_drop.
  eapply safe_bind; [by apply parse_sequences_header_safe|].
  intros [h k] (Hh & Hk & Hkl). rewrite slice_from_ok by lia. cbn [mbind res_bind]. apply safe_ok.
  split; cbn; try done; try lia; [split; cbn; try done|by apply Forall_drop].
  - rewrite zlen_ztake by lia. done.
  - by apply Forall_take.
Qed.

Lemma decode_block_literals_ok bsm p huf repeat : parts_ok bsm p -> huf_scratch_ok huf ->
  (forall t, repeat = Some t -> huf_built t) ->
  refines (fun a b => a = (b.1, b.2 ++ zrepeat 0 WILDCOPY_OVERLENGTH) /\
      zlen b.2 = regenerated_size (bp_literals p) /\ bytes b.2 /\ huf_scratch_ok b.1)
    (decode_block_literals p huf repeat) (ref_literals (bp_literals p) huf repeat (literals_src p)).
Proof.
  intros [Hl _ _ _] Hh Hr. unfold decode_block_literals.
  pose proof (decode_literals_ok (bp_literals p) huf repeat Hh Hr (literals_src p) Hl) as H.
  destruct (decode_literals _ _ _ _ _) as [[[huf' target] used]|e| |]; cbn [mbind res_bind refines] in *; try done.
  destruct H as ([h l] & -> & Hd). destruct Hd as (E & Hu & Hlen & Hb & Hok). cbn in *.
  injection E as -> ->. destruct Hl as [[Hn _ _ _] Hlen' _].
  rewrite wrap_small by (change (2 ^ 20) with 1048576 in *; change (2 ^ 32) with 4294967296; lia).
  rewrite Hlen, Z.eqb_refl. cbn [rassert mbind res_bind]. rewrite Hu, Hlen', Z.eqb_refl. cbn. eauto 10.
Qed.

(** ** Sequences *)

Lemma short_offset_share_ok t : seq_table_ok of_kind t -> returns (fun _ => True) (short_offset_share t).
Proof.
  intros H. destruct (seq_table_cells _ _ H) as [Hd _]. destruct H as [[H0 H8] _ _ _].
  cbn [max_log of_kind] in H8. unfold short_offset_share.
  destruct (accuracy_log t =? 0); [rewrite Hd|]; cbn [mbind res_bind];
    rewrite (proj2 (Z.leb_le _ _)) by done; done.
Qed.

Lemma pick_copies_variant simd short : In (pick_copies simd short) variants.
Proof. destruct simd, short; cbn; tauto. Qed.

#[export] Instance pick_copies_laws simd short : WildCopyLaws (pick_copies simd short).
Proof. destruct simd, short; typeclasses eauto. Qed.

(** Both ways [decompress_block] runs its sequences. *)
Definition execute_block (simd : Level) (off : FSETable) (seqs : SeqInput) (ext : ExtHistory)
    (hist : list Z) (bsm : Z) (m : Mem) (dst : Dst) : dec (Z * list Z * Mem) :=
  if e_len ext =? 0 then execute_with_copies simd off seqs hist bsm m dst
  else execute_with_copies simd off (MkExtIn seqs ext) hist bsm m dst.

(** The external history a block has, [ExtHistory::NONE] when it is empty. *)
Definition has_ext (ext : ExtHistory) : bool := negb (e_len ext =? 0).
Definition used_ext (ext : ExtHistory) : ExtHistory := if has_ext ext then ext else ext_none.

Lemma execute_block_ok simd seqs ext hist bsm m dst :
  seqs_ok seqs -> dst_ok (has_ext ext) m (used_ext ext) dst -> hist_ok hist ->
  refines (fun '(end_, hist', m') '(h', hist2) => hist' = hist2 /\ hist_ok hist' /\
      h' = history (has_ext ext) m' (block_lim m (used_ext ext) dst) (d_base dst + end_) /\
      d_op dst <= end_ <= d_op dst + Z.min bsm MAX_BLOCK_SIZE /\
      frame m m' (d_base dst + d_op dst) (end_ - d_op dst + 31))
    (execute_block simd (q_of seqs) seqs ext hist bsm m dst)
    ('(h', hist2) ← ref_sequences (has_ext ext) seqs (used_ext ext) hist m dst;
     if bsm <? zlen h' - (ext_len (has_ext ext) (used_ext ext) + d_op dst) then None
     else Some (h', hist2)).
Proof.
  intros Hs Hd Hh. pose proof (qk_of _ Hs) as Hof.
  apply short_offset_share_ok, returns_inv in Hof as (share & Hshare & _).
  assert (execute_block simd (q_of seqs) seqs ext hist bsm m dst =
    '(end_, hist, m) ← run_sequences (pick_copies simd (SHORT_OFFSET_SHARE_MIN <=? share))
        (has_ext ext) seqs (used_ext ext) hist m dst;
      _ ← fail_if (bsm <? end_ - d_op dst) (EBlockDecodesTo (end_ - d_op dst) bsm);
      Ok (end_, hist, m)) as ->.
  { unfold execute_block, used_ext, has_ext, execute_with_copies. rewrite Hshare.
    cbn [mbind res_bind]. by destruct (e_len ext =? 0). }
  pose proof (run_sequences_ok (pick_copies simd (SHORT_OFFSET_SHARE_MIN <=? share)) (has_ext ext) seqs
    (used_ext ext) hist m dst Hs Hd Hh) as H. unfold block_ran in H.
  destruct (run_sequences _ _ _ _ _ _ _) as [[[end_ hist'] m']|e| |]; cbn [mbind res_bind]; try done;
    [|by rewrite H].
  destruct H as (-> & Hh' & Hend & Hf). cbn [mbind option_bind].
  pose proof Hd as [D1 D2 D3 D4 D5 D6 D7 D8]. pose proof (fr_len _ _ _ _ Hf) as Hlen.
  rewrite (zlen_history _ m' _ (lim_ok_frame _ _ _ _ _ _ (block_lim_ok _ _ _ _ Hd) Hf)).
  2: { cbn. unfold WILDCOPY_OVERLENGTH in *. lia. }
  cbn [block_lim l_ext l_prefix].
  replace (ext_len (has_ext ext) (used_ext ext) + (d_base dst + end_) - d_base dst -
    (ext_len (has_ext ext) (used_ext ext) + d_op dst)) with (end_ - d_op dst) by lia.
  apply refines_fail_if. intros Hb. bools. apply refines_ok. split_and!; try done; lia.
Qed.

(** ** Blocks *)

(** The destination of a block: room in [out] and, before it, history in
    [out] and at the end of [content]. *)
Record place_ok (out : list Z) (dst : Dst) (content : list Z) (ext : ExtHistory) : Prop := {
  pl_base : 0 <= d_base dst;
  pl_op : 0 <= d_op dst;
  pl_room : d_base dst + d_op dst + MAX_BLOCK_SIZE + WILDCOPY_OVERLENGTH <= zlen out;
  pl_size : zlen out < 2 ^ 63;
  pl_window : 0 <= d_window dst <= USIZE_MAX;
  pl_ext : (e_end ext).1 = BExt /\ 0 <= e_len ext <= (e_end ext).2 /\ (e_end ext).2 <= zlen content;
  pl_ext_size : e_len ext < 2 ^ 63;
}.

(** All of the history before [op]. *)
Definition place_history (out : list Z) (dst : Dst) (content : list Z) (ext : ExtHistory) (op : Z)
    : list Z :=
  ztake (e_len ext) (zdrop ((e_end ext).2 - e_len ext) content) ++
  zdrop (d_base dst) (ztake (d_base dst + op) out).

(** What a block means: the history after it and the scratch. *)
Definition ref_block (raw : list Z) (bsm : Z) (ws : DecoderScratch) (dict : option DictEntropy)
    (ext : ExtHistory) (window : Z) (h : list Z) : option (list Z * DecoderScratch) :=
  parts ← to_option (split_block raw bsm);
  let repeat := if huf_from_dict ws then (fun d => hs_table (de_huf d)) <$> dict else None in
  '(huf, lits) ← ref_literals (bp_literals parts) (ds_huf ws) repeat (literals_src parts);
  let from_dict := huf_from_dict ws && negb (is_compressed (ls_type (bp_literals parts))) in
  let buf := lits ++ zrepeat 0 WILDCOPY_OVERLENGTH in
  let num := num_sequences (bp_sequences parts) in
  let raw := sequences_src parts in
  if num =? 0 then
    if is_empty raw then Some (h ++ lits, MkScratch huf (ds_fse ws) (offset_hist ws) buf from_dict)
    else None
  else
    '(fse, n) ← to_option (build_sequence_tables (bp_sequences parts) raw (ds_fse ws));
    '(ll, off, ml) ← to_option (tables fse (de_fse <$> dict));
    '(h', hist) ← ref_run (zdrop n raw) (accuracy_log ll) (accuracy_log ml) (accuracy_log off)
                    (table_cells ll) (table_cells ml) (table_cells off) (has_ext ext && e_dict ext)
                    (e_len ext) window (zlen h + MAX_BLOCK_SIZE) num (offset_hist ws) h lits;
    if bsm <? zlen h' - zlen h then None
    else Some (h', MkScratch huf fse hist buf from_dict).

Definition block_done (bsm : Z) (dict : option DictEntropy) (out : list Z) (dst : Dst)
    (content : list Z) (ext : ExtHistory) (a : Z * DecoderScratch * list Z)
    (b : list Z * DecoderScratch) : Prop :=
  let '(end_, ws, out') := a in
  ws = b.2 /\ scratch_ok dict ws /\ b.1 = place_history out' dst content ext end_ /\
  d_op dst <= end_ <= d_op dst + Z.min bsm MAX_BLOCK_SIZE /\ zlen out' = zlen out /\
  ztake (d_base dst + d_op dst) out' = ztake (d_base dst + d_op dst) out.

Section block.
Context (out : list Z) (dst : Dst) (content : list Z) (ext : ExtHistory).
Context (Hpl : place_ok out dst content ext).

Lemma zlen_place op : 0 <= op -> d_base dst + op <= zlen out ->
  zlen (place_history out dst content ext op) = e_len ext + op.
Proof.
  destruct Hpl as [H1 H2 _ _ _ (_ & H3 & H4) _]. intros Ho Hl. unfold place_history.
  rewrite zlen_app, zlen_ztake by (rewrite zlen_zdrop; lia).
  rewrite zlen_zdrop by (rewrite zlen_ztake; lia). rewrite zlen_ztake by lia. lia.
Qed.

Lemma ext_len_used : ext_len (has_ext ext) (used_ext ext) = e_len ext.
Proof. unfold ext_len, used_ext, has_ext. destruct (Z.eqb_spec (e_len ext) 0); cbn; lia. Qed.

Lemma history_place m lits op : m_ext m = content ->
  history (has_ext ext) m (block_lim lits (used_ext ext) dst) (d_base dst + op) =
    place_history (m_out m) dst content ext op.
Proof.
  intros Hm. destruct Hpl as [_ _ _ _ _ (He & _) _]. unfold history, place_history, ext_bytes. cbn.
  f_equal. unfold used_ext, has_ext. destruct (Z.eqb_spec (e_len ext) 0) as [->|]; cbn; [done|].
  by rewrite He, <- Hm.
Qed.

Lemma literals_buf m0 lits : m_lit m0 = lits ++ zrepeat 0 WILDCOPY_OVERLENGTH ->
  literals m0 (block_lim m0 (used_ext ext) dst) 0 = lits.
Proof.
  intros Hm. unfold literals. cbn. rewrite Hm, zlen_app, zlen_zrepeat by done.
  change (zdrop 0 ?l) with l. replace (zlen lits + WILDCOPY_OVERLENGTH - WILDCOPY_OVERLENGTH)
    with (zlen lits) by lia. unfold ztake, zlen. by rewrite Nat2Z.id, take_app_length.
Qed.

Lemma place_dst_ok lits : dst_ok (has_ext ext) (MkMem out (lits ++ zrepeat 0 WILDCOPY_OVERLENGTH) content)
  (used_ext ext) dst.
Proof.
  destruct Hpl as [H1 H2 H3 H4 H5 (He & Hl1 & Hl2) H7]. split; cbn; try done.
  - rewrite zlen_app, zlen_zrepeat by done. pose proof (zlen_nonneg lits). lia.
  - unfold ext_ok, used_ext. intros ->. rewrite He. split; [done|]. cbn. lia.
  - by rewrite ext_len_used.
Qed.

(** A frame's bytes before the block. *)
Lemma frame_before m m' k : frame m m' (d_base dst + d_op dst) k -> m_out m = out ->
  ztake (d_base dst + d_op dst) (m_out m') = ztake (d_base dst + d_op dst) out.
Proof.
  intros [Hl _ _ Hout] Hm. destruct Hpl as [H1 H2 H3 _ _ _ _].
  assert (d_base dst + d_op dst <= zlen out) by (unfold MAX_BLOCK_SIZE, WILDCOPY_OVERLENGTH in *; lia).
  apply zlist_eq; [rewrite !zlen_ztake; rewrite ?Hl, ?Hm; lia|]. intros i Hi.
  rewrite zlen_ztake in Hi by (rewrite Hl, Hm; lia).
  rewrite !zget_ztake by lia. rewrite Hout by lia. by rewrite Hm.
Qed.

(** The block without sequences: its literals. *)
Lemma literals_block_ok lits bsm : zlen lits <= Z.min bsm MAX_BLOCK_SIZE ->
  let m := MkMem out (lits ++ zrepeat 0 WILDCOPY_OVERLENGTH) content in
  returns (fun m' => place_history (m_out m') dst content ext (d_op dst + zlen lits) =
      place_history out dst content ext (d_op dst) ++ lits /\ zlen (m_out m') = zlen out /\
      ztake (d_base dst + d_op dst) (m_out m') = ztake (d_base dst + d_op dst) out)
    (copy_nonoverlapping m (d_base dst + d_op dst) (BLit, 0) (zlen lits)).
Proof.
  intros Hb m. pose proof (place_dst_ok lits) as Hd. pose proof (zlen_nonneg lits) as Hnn.
  pose proof (block_lim_ok _ _ _ _ Hd) as Hlim. fold m in Hd, Hlim.
  pose proof Hpl as [H1 H2 H3 _ _ _ _].
  pose proof (last_literals_ok (has_ext ext) m m (used_ext ext) dst (MkCur (d_base dst + d_op dst) 0) Hd Hlim) as H.
  assert (l_lit_limit (block_lim m (used_ext ext) dst) = zlen lits) as Hll.
  { cbn. rewrite zlen_app, zlen_zrepeat by done. lia. }
  rewrite Hll in H. cbn [c_lit c_op] in H. rewrite Z.sub_0_r in H.
  eapply returns_mono; [apply H|].
  - split; rewrite ?Hll; cbn; unfold MAX_BLOCK_SIZE in *; lia.
  - cbn. lia.
  - intros m' [Hf Hh]. split; [|split; [exact (fr_len _ _ _ _ Hf)|by eapply frame_before]].
    rewrite <- Z.add_assoc in Hh. rewrite !history_place in Hh by (done || exact (fr_ext _ _ _ _ Hf)).
    by rewrite Hh, (literals_buf m lits).
Qed.

(** The block's sequences, from tables that are ready. *)
Lemma sequences_block_ok simd num bits ll off ml hist bsm lits :
  seqs_ok (MkSeqIn num bits ll off ml) -> hist_ok hist ->
  let m := MkMem out (lits ++ zrepeat 0 WILDCOPY_OVERLENGTH) content in
  let h := place_history out dst content ext (d_op dst) in
  refines (fun '(end_, hist', m') '(h', hist2) => hist' = hist2 /\ hist_ok hist' /\
      h' = place_history (m_out m') dst content ext end_ /\
      d_op dst <= end_ <= d_op dst + Z.min bsm MAX_BLOCK_SIZE /\ zlen (m_out m') = zlen out /\
      ztake (d_base dst + d_op dst) (m_out m') = ztake (d_base dst + d_op dst) out)
    (execute_block simd off (MkSeqIn num bits ll off ml) ext hist bsm m dst)
    ('(h', hist) ← ref_run bits (accuracy_log ll) (accuracy_log ml) (accuracy_log off)
        (table_cells ll) (table_cells ml) (table_cells off) (has_ext ext && e_dict ext)
        (e_len ext) (d_window dst) (zlen h + MAX_BLOCK_SIZE) num hist h lits;
     if bsm <? zlen h' - zlen h then None else Some (h', hist)).
Proof.
  intros Hs Hh m h. pose proof (place_dst_ok lits) as Hd. fold m in Hd.
  pose proof (execute_block_ok simd _ ext hist bsm m dst Hs Hd Hh) as H. cbn [q_of] in H.
  assert (zlen h = e_len ext + d_op dst) as Zh.
  { destruct Hpl. apply zlen_place; [done|]. unfold MAX_BLOCK_SIZE, WILDCOPY_OVERLENGTH in *; lia. }
  unfold ref_sequences in H. cbn [q_bits q_ll q_ml q_of q_num] in H.
  rewrite ext_len_used, history_place, (literals_buf m lits) in H by done. fold h in H.
  change (m_out m) with out in H. fold h in H. rewrite <- Zh in H.
  replace (has_ext ext && e_dict (used_ext ext)) with (has_ext ext && e_dict ext) in H
    by (unfold used_ext; by destruct (has_ext ext)).
  eapply refines_mono; [exact H|].
  intros [[end_ hist'] m'] [h' hist2] (? & ? & -> & Hend & Hf).
  do 2 (split; [done|]). split; [by rewrite history_place by exact (fr_ext _ _ _ _ Hf)|].
  split; [done|]. split; [exact (fr_len _ _ _ _ Hf)|by eapply frame_before].
Qed.
End block.

(** The literals of a block, then its sequences. *)
Lemma decompress_block_ok raw bsm ws dict out dst content ext simd :
  bytes raw -> bsm <= MAX_BLOCK_SIZE -> scratch_ok dict ws -> dict_entropy_ok dict ->
  place_ok out dst content ext ->
  refines (block_done bsm dict out dst content ext)
    (decompress_block raw bsm ws dict out dst content ext simd)
    (ref_block raw bsm ws dict ext (d_window dst) (place_history out dst content ext (d_op dst))).
Proof.
  intros Hraw Hbsm [Hhuf Hfse Hhist] Hdict Hpl. unfold decompress_block, ref_block.
  eapply refines_bind; [apply refines_self, (split_block_safe raw bsm Hraw)|].
  intros p ? _ _ [<- Hp].
  replace (match dict with Some d => if huf_from_dict ws then Some (hs_table (de_huf d)) else None | None => None end)
    with (if huf_from_dict ws then (fun d => hs_table (de_huf d)) <$> dict else None)
    by (by destruct dict, (huf_from_dict ws)).
  eapply refines_bind; [apply (decode_block_literals_ok bsm p); try done|].
  { intros t Ht. destruct (huf_from_dict ws); [|done]. destruct dict as [d|]; [|done].
    injection Ht as <-. apply (ek_huf d), (Hdict d eq_refl). }
  intros [huf' buf] [huf lits] _ _ (E & Hlen & Hlb & Hok). cbn in E, Hlen, Hlb, Hok. injection E as -> ->.
  destruct Hp as [Hl Hsize [[Hn0 Hn1] Hmodes] Hsb].
  set (from := huf_from_dict ws && _).
  destruct (Z.eqb_spec (num_sequences (bp_sequences p)) 0) as [Hz|Hnz]; cbn [negb].
  - rewrite zlen_app, zlen_zrepeat by done. rewrite Z.add_simpl_r.
    destruct (is_empty (sequences_src p)); [|done]. cbn [negb fail_if mbind res_bind].
    eapply refines_step; [apply (literals_block_ok out dst content ext Hpl lits bsm); lia|].
    intros m' _ (Hh & Hlo & Hpre). apply refines_ok. cbn. pose proof (zlen_nonneg lits).
    split; [done|]. split; [by split|]. split; [by rewrite Hh|]. split; [lia|done].
  - eapply refines_bind; [apply refines_self, (build_sequence_tables_safe (de_fse <$> dict)); done|].
    intros [fse n] ? _ _ [<- (Hfse' & Hn & ll & off & ml & Ht & T0 & T1 & T2)]. rewrite Ht.
    cbn [to_option mbind res_bind option_bind]. rewrite slice_from_ok by lia. cbn [mbind res_bind].
    assert (seqs_ok (MkSeqIn (num_sequences (bp_sequences p)) (zdrop n (sequences_src p)) ll off ml)) as Hsq.
    { split; cbn; [lia|by apply Forall_drop|by apply T0|by apply T1|by apply T2]. }
    pose proof (sequences_block_ok out dst content ext Hpl simd _ _ ll off ml (offset_hist ws) bsm lits
      Hsq Hhist) as H. cbv zeta in H. unfold execute_block in H.
    destruct (ref_run _ _ _ _ _ _ _ _ _ _ _ _ _ _ _) as [[h' hist2]|]; cbn [mbind option_bind] in *.
    + destruct (if e_len ext =? 0 then _ else _) as [[[end_ hist'] m']|e| |]; cbn [mbind res_bind refines] in *;
        try done; destruct (bsm <? _); try done.
      * by destruct H as (? & ? & _).
      * destruct H as ([h2 hist3] & E & <- & Hhist' & Hh & Hend & Hlo & Hpre). injection E as <- <-.
        eexists. split; [done|]. cbn. split; [done|]. split; [by split|]. split; [done|]. done.
    + by destruct (if e_len ext =? 0 then _ else _) as [[[end_ hist'] m']|e| |]; cbn [mbind res_bind refines] in *;
        try done; destruct H as (? & ? & _).
Qed.

(** C4: A compressed block decodes to what the format says. For any bytes,
    any scratch and dictionary tables that earlier blocks can leave, any
    history in the output and before it, and either SIMD level, decoding the
    block never panics and never leaves a buffer. It succeeds exactly when
    the reference does, which parses the sections, reads the literals by
    their prefix code, and runs the sequences byte by byte on one list; then
    the history and the scratch are the reference's, at most
    Block_Maximum_Size bytes came after it, the bytes before the block are as
    they were, and the scratch is again one that blocks can leave. *)
Theorem compressed_block_decodes raw bsm ws dict out dst content ext simd :
  bytes raw -> bsm <= MAX_BLOCK_SIZE -> scratch_ok dict ws -> dict_entropy_ok dict ->
  place_ok out dst content ext ->
  let h := place_history out dst content ext (d_op dst) in
  match decompress_block raw bsm ws dict out dst content ext simd with
  | Ok (end_, ws', out') =>
      ref_block raw bsm ws dict ext (d_window dst) h = Some (place_history out' dst content ext end_, ws') /\
      scratch_ok dict ws' /\ d_op dst <= end_ <= d_op dst + Z.min bsm MAX_BLOCK_SIZE /\
      ztake (d_base dst + d_op dst) out' = ztake (d_base dst + d_op dst) out
  | Err _ => ref_block raw bsm ws dict ext (d_window dst) h = None
  | Fault | Stuck => False
  end.
Proof.
  intros Hr Hb Hs Hd Hp h. pose proof (decompress_block_ok raw bsm ws dict out dst content ext simd Hr Hb Hs Hd Hp) as H.
  fold h in H. destruct (decompress_block _ _ _ _ _ _ _ _ _) as [[[end_ ws'] out']|e| |]; cbn in H; try done.
  destruct H as ([h' ws2] & -> & Hws & Hok & Hh & Hend & _ & Hpre). cbn in Hws, Hh. by subst.
Qed.

(** Five raw literals, then one sequence: all of them and 13 bytes from 3
    back. *)
Lemma compressed_block_decodes_witness : exists end_ ws' out',
  let raw := [0x28; 97; 98; 99; 100; 101; 1; 0x54; 5; 2; 10; 6] in
  let dst := MkDst 0 0 1024 in
  decompress_block raw 1024 scratch_new None (zrepeat 0 131120) dst [] (ext_dict []) LAvx2 =
    Ok (end_, ws', out') /\
  place_history out' dst [] (ext_dict []) end_ =
    [97; 98; 99; 100; 101; 99; 100; 101; 99; 100; 101; 99; 100; 101; 99; 100; 101; 99].
Proof.
  cbv zeta. set (raw := [0x28; 97; 98; 99; 100; 101; 1; 0x54; 5; 2; 10; 6]).
  assert (bytes raw) as Hr by solve_bytes.
  assert (place_ok (zrepeat 0 131120) (MkDst 0 0 1024) [] (ext_dict [])) as Hp
    by (split; first [vm_compute; congruence | split; vm_compute; congruence |
          split; [reflexivity|split; [split|]; vm_compute; congruence]]).
  assert (dict_entropy_ok None) as Hd by (intros e He; discriminate He).
  pose proof (compressed_block_decodes raw 1024 scratch_new None _ (MkDst 0 0 1024) [] (ext_dict []) LAvx2 Hr
    ltac:(vm_compute; congruence) (scratch_new_ok None) Hd Hp) as H. cbv zeta in H.
  assert (fst <$> ref_block raw 1024 scratch_new None (ext_dict []) 1024
      (place_history (zrepeat 0 131120) (MkDst 0 0 1024) [] (ext_dict []) 0) =
    Some [97; 98; 99; 100; 101; 99; 100; 101; 99; 100; 101; 99; 100; 101; 99; 100; 101; 99])
    as Href by (vm_compute; reflexivity).
  cbn [d_window d_op] in H.
  destruct (decompress_block _ _ _ _ _ _ _ _ _) as [[[end_ ws'] out']|e| |];
    [|rewrite H in Href; discriminate Href|destruct H..].
  destruct H as [H _]. rewrite H in Href. injection Href as Href.
  exists end_, ws', out'. split; [reflexivity|exact Href].
Defined.
