(* ===== verification/DecodeDict.v ===== *)
(** * Decoder dictionaries ([src/decode/dict.rs])

    A dictionary is its content and, when it is a formatted one, the entropy
    tables and repeat offsets a frame starts from. *)

From S2P Require Import Prelude Words Constants Errors FseTable FseBuild Headers HeaderUnits SeqTables.
From S2P Require Import HufTable HufWeights HufX2Table SeqDecode BlockDecode.

Definition DICT_MAGIC : Z := 0xEC30A437.

(** [DecodeDict]. *)
Record DecodeDict := MkDict {
  dd_id : Z;
  dd_content : list Z;
  dd_entropy : option DictEntropy;
}.

(** The turn of [load_entropy]'s loop over the three tables. *)
Definition load_table (dict : list Z) (st : FSEScratch * Z) (t : Z) : dec (FSEScratch * Z) :=
  let '(fse, pos) := st in
  source ← slice_from dict pos;
  '(fse, n) ← build_sequence_table MFSECompressed source fse t;
  Ok (fse, pos + n).

(** The turn of its loop over the repeat offsets. *)
Definition load_rep (reps : list Z) (content_len : Z) (rep : list Z) (i : Z) : dec (list Z) :=
  b ← slice reps (4 * i) (4 * i + 4);
  let r := le_val b in
  _ ← fail_if ((r =? 0) || (content_len <? r)) (EDictRep r content_len);
  Ok (rep ++ [r]).

(** [load_entropy]. *)
Definition load_entropy (dict : list Z) : dec (DictEntropy * Z) :=
  _ ← fail_if (zlen dict <=? 8) EDictNoTables;
  let pos := 8 in
  source ← slice_from dict pos;
  '(huf, (huf_len, nb_weights)) ← read_weights huf_new source;
  huf ← weight_stats huf nb_weights;
  huf ← fill huf true;
  let pos := pos + huf_len in
  '(fse, pos) ← foldM (load_table dict) (ds_fse scratch_new, pos) [1; 2; 0];
  reps ← ok_or EDictRepsTruncated (zslice dict pos (pos + 12));
  let pos := pos + 12 in
  let content_len := zlen dict - pos in
  rep ← foldM (load_rep reps content_len) [] [0; 1; 2];
  Ok (MkEntropy (MkHufScratch huf) fse rep, pos).

(** [DecodeDict::new]. *)
Definition dict_new (dict : list Z) : dec DecodeDict :=
  let magic := le_val <$> zslice dict 0 4 in
  if (zlen dict <? 8) || negb (bool_decide (magic = Some DICT_MAGIC)) then Ok (MkDict 0 dict None)
  else
    id ← slice dict 4 8;
    '(entropy, used) ← map_err EDictCorrupted (load_entropy dict);
    content ← slice_from dict used;
    Ok (MkDict (le_val id) content (Some entropy)).

(** ** Soundness *)

(** A parsed dictionary. *)
Record dict_ok (d : DecodeDict) : Prop := {
  dn_id : 0 <= dd_id d < 2 ^ 32;
  dn_content : bytes (dd_content d);
  dn_tables : forall e, dd_entropy d = Some e -> entropy_ok e /\
    Forall (fun r => 1 <= r <= zlen (dd_content d)) (de_rep e);
}.

(** A table described in the dictionary is the scratch's own. *)
Lemma compressed_table_ok s source t kind : fse_wf None s -> zget SEQ_TABLES t = Some kind -> bytes source ->
  safe (fun '(s', n) => fse_wf None s' /\ 0 <= n <= zlen source /\ same_but t s s' /\
      seq_table_ok kind (own s' t)) (build_sequence_table MFSECompressed source s t).
Proof.
  intros Hwf Hk Hb. pose proof (build_sequence_table_safe None s MFSECompressed source t kind Hwf Hk Hb) as H.
  unfold build_sequence_table in *. rewrite (idx_ok _ _ _ Hk) in *. cbn [mbind res_bind] in *.
  pose proof (zget_lt _ _ _ Hk) as Hr. change (zlen SEQ_TABLES) with 3 in Hr.
  pose proof (set_source_ok s t Own (fs_sources _ _ Hwf) Hr) as Hset.
  destruct (set_source s t Own) as [s1|e| |]; cbn [mbind res_bind] in *; try done.
  destruct Hset as (_ & _ & Hsrc).
  destruct (build_decoder _ _ _ _) as [[tb n]|e| |]; cbn [mbind res_bind safe] in *; try done.
  destruct H as (H1 & H2 & H3 & H4). split_and!; try done; try lia.
  destruct H4 as (tb' & Ht & Hok). unfold table in Ht.
  assert (zget (fse_source (set_own s1 t tb)) t = Some Own) as Hown
    by (rewrite set_own_source, Hsrc; by rewrite decide_True).
  rewrite (idx_ok _ _ _ Hown) in Ht. cbn [mbind res_bind] in Ht. by injection Ht as <-.
Qed.

(** The turn of the loop over the tables. *)
Lemma load_table_ok dict s pos t kind : bytes dict -> fse_wf None s -> 0 <= pos <= zlen dict ->
  zget SEQ_TABLES t = Some kind ->
  safe (fun '(s', pos') => fse_wf None s' /\ 0 <= pos' <= zlen dict /\ same_but t s s' /\
      seq_table_ok kind (own s' t)) (load_table dict (s, pos) t).
Proof.
  intros Hb Hwf Hp Hk. unfold load_table. rewrite slice_from_ok by done. cbn [mbind res_bind].
  eapply safe_bind; [by apply compressed_table_ok, Forall_drop|].
  intros [s' n] (H1 & H2 & H3 & H4). rewrite zlen_zdrop in H2 by done. apply safe_ok.
  split; [done|]. split; [lia|done].
Qed.

Lemma load_tables_ok dict s pos : bytes dict -> fse_wf None s -> 0 <= pos <= zlen dict ->
  safe (fun '(s', pos') => 0 <= pos' <= zlen dict /\
      forall t kind, zget SEQ_TABLES t = Some kind -> seq_table_ok kind (own s' t))
    (foldM (load_table dict) (s, pos) [1; 2; 0]).
Proof.
  intros Hb Hwf Hp. cbn [foldM].
  destruct (seq_index 0 ltac:(lia)) as [k0 E0]. destruct (seq_index 1 ltac:(lia)) as [k1 E1].
  destruct (seq_index 2 ltac:(lia)) as [k2 E2].
  eapply safe_bind; [by apply (load_table_ok dict s pos 1 k1)|]. intros [s1 p1] (W1 & P1 & _ & T1).
  eapply safe_bind; [by apply (load_table_ok dict s1 p1 2 k2)|]. intros [s2 p2] (W2 & P2 & S2 & T2).
  eapply safe_bind; [by apply (load_table_ok dict s2 p2 0 k0)|]. intros [s3 p3] (W3 & P3 & S3 & T3).
  apply safe_ok. split; [done|]. intros t kind Hk.
  destruct (S3 1 ltac:(lia) ltac:(lia)) as [O1 _]. destruct (S2 1 ltac:(lia) ltac:(lia)) as [O1' _].
  destruct (S3 2 ltac:(lia) ltac:(lia)) as [O2 _].
  destruct (seq_kind t kind Hk) as ([->|[->| ->]] & _); [|rewrite O1, O1'|rewrite O2]; congruence.
Qed.

(** The turn of the loop over the repeat offsets. *)
Lemma load_rep_ok reps n rep i : bytes reps -> zlen reps = 12 -> 0 <= i < 3 ->
  safe (fun rep' => exists r, rep' = rep ++ [r] /\ 1 <= r <= n /\ r < 2 ^ 32) (load_rep reps n rep i).
Proof.
  intros Hb Hl Hi. unfold load_rep. rewrite slice_ok by lia. cbn [mbind res_bind].
  set (b := ztake _ _). assert (bytes b) as Hbb by by apply Forall_take, Forall_drop.
  assert (zlen b = 4) as Hbl by (unfold b; rewrite zlen_ztake; [lia|]; rewrite zlen_zdrop; lia).
  pose proof (le_val_range b Hbb) as Hr. rewrite Hbl in Hr. change (8 * 4) with 32 in Hr.
  apply safe_fail_if. intros Hf. bools. apply safe_ok. eexists. split; [done|]. lia.
Qed.

Lemma load_reps_ok reps n : bytes reps -> zlen reps = 12 ->
  safe (fun rep => hist_ok rep /\ Forall (fun r => 1 <= r <= n) rep)
    (foldM (load_rep reps n) [] [0; 1; 2]).
Proof.
  intros Hb Hl. cbn [foldM].
  eapply safe_bind; [by apply load_rep_ok|]. intros ? (r0 & -> & R0 & B0).
  eapply safe_bind; [by apply load_rep_ok|]. intros ? (r1 & -> & R1 & B1).
  eapply safe_bind; [by apply load_rep_ok|]. intros ? (r2 & -> & R2 & B2).
  cbn. split; [|by repeat (apply List.Forall_cons; [done|])]. do 3 eexists. split; [done|]. lia.
Qed.

Lemma load_entropy_ok dict : bytes dict ->
  safe (fun '(e, used) => entropy_ok e /\ 8 <= used <= zlen dict /\
      Forall (fun r => 1 <= r <= zlen dict - used) (de_rep e)) (load_entropy dict).
Proof.
  intros Hb. unfold load_entropy. apply safe_fail_if. intros Hlen. bools.
  rewrite slice_from_ok by lia. cbn [mbind res_bind].
  pose proof (huf_tree_ok huf_new (zdrop 8 dict) huf_new_wf (Forall_drop _ _ _ Hb)) as Ht.
  destruct (read_weights _ _) as [[t1 [used n]]|e| |]; cbn [mbind res_bind] in *; try done.
  destruct (weight_stats t1 n) as [t2|e| |]; cbn [mbind res_bind] in *; try done.
  destruct Ht as (Hc & Hwf & Hu & _). rewrite zlen_zdrop in Hu by lia.
  eapply safe_bind; [by apply returns_safe, huf_fill_ok|]. intros t3 [Hbt _].
  eapply safe_bind; [apply (load_tables_ok dict fse_new); [done|apply fse_new_wf|lia]|].
  intros [s pos] (Hp & Htab).
  apply safe_ok_or. intros reps Hreps.
  pose proof (bytes_slice _ _ _ _ Hb Hreps) as Hrb.
  apply zslice_Some in Hreps as (_ & Hle & _ & Hrl).
  eapply safe_bind; [apply load_reps_ok; [done|lia]|]. intros rep [Hh Hr]. apply safe_ok.
  split; [by split|]. split; [lia|done].
Qed.

Lemma dict_new_ok dict : bytes dict -> safe dict_ok (dict_new dict).
Proof.
  intros Hb. unfold dict_new. destruct (Z.ltb_spec (zlen dict) 8); cbn [orb]; [apply safe_ok; by split|].
  destruct (negb _); [apply safe_ok; by split|].
  rewrite slice_ok by lia. cbn [mbind res_bind].
  set (id := ztake _ _). assert (bytes id) as Hbb by by apply Forall_take, Forall_drop.
  assert (zlen id = 4) as Hil by (unfold id; rewrite zlen_ztake; [lia|]; rewrite zlen_zdrop; lia).
  pose proof (le_val_range id Hbb) as Hid. rewrite Hil in Hid.
  pose proof (load_entropy_ok dict Hb) as He.
  destruct (load_entropy dict) as [[e used]|e| |]; cbn [map_err mbind res_bind] in *; try done.
  destruct He as (Hok & Hu & Hr). rewrite slice_from_ok by lia. apply safe_ok.
  split; cbn; [done|by apply Forall_drop|]. intros e' [= <-]. split; [done|].
  by rewrite zlen_zdrop by lia.
Qed.

(** Bytes of a formatted dictionary: 8 at least, the first four the magic
    number. *)
Definition formatted (dict : list Z) : Prop :=
  8 <= zlen dict /\ le_val (ztake 4 dict) = DICT_MAGIC.

(** C13: Parsing a dictionary is safe and sound. On every byte string it
    never panics. Bytes that are not of a formatted dictionary, too short or
    without the magic number, are all content, of Dictionary_ID 0 and without
    tables, and never an error. Bytes of a formatted dictionary are an error
    (corrupted), or give the Dictionary_ID in bytes 4 to 7, as content a suffix
    of the bytes past those, and tables to decode from: a complete Huffman
    table, three built sequence tables, and three repeat offsets, each within
    the content. *)
Theorem dictionary_sound dict : bytes dict ->
  (~ formatted dict -> dict_new dict = Ok (MkDict 0 dict None)) /\
  (formatted dict ->
     match dict_new dict with
     | Ok d => dict_ok d /\ is_Some (dd_entropy d) /\ dd_id d = le_val (ztake 4 (zdrop 4 dict)) /\
         exists used, 8 <= used <= zlen dict /\ dd_content d = zdrop used dict
     | Err e => exists e', e = EDictCorrupted e'
     | Fault | Stuck => False
     end).
Proof.
  intros Hb. unfold formatted. pose proof (zlen_nonneg dict).
  assert (4 <= zlen dict -> zslice dict 0 4 = Some (ztake 4 dict)) as Hm.
  { intros H4. unfold zslice. rewrite (proj2 (Z.leb_le 4 _)) by lia. done. }
  split.
  - intros Hf. unfold dict_new. destruct (Z.ltb_spec (zlen dict) 8); [done|]. rewrite Hm by lia. cbn [fmap option_fmap option_map orb].
    rewrite bool_decide_eq_false_2; [done|]. intros [= Hd]. apply Hf. split; [lia|done].
  - intros [H8 Hd]. pose proof (dict_new_ok dict Hb) as Hok. unfold dict_new in *.
    rewrite (proj2 (Z.ltb_ge (zlen dict) 8)), Hm in * by lia. cbn [fmap option_fmap option_map orb] in *.
    rewrite bool_decide_eq_true_2 in * by by rewrite Hd. cbn [negb] in *.
    rewrite slice_ok in * by lia. cbn [mbind res_bind] in *.
    destruct (load_entropy dict) as [[e' used]|e'| |] eqn:El; cbn [map_err mbind res_bind safe] in *; eauto.
    pose proof (load_entropy_ok dict Hb) as He. rewrite El in He. destruct He as (_ & Hu & _).
    rewrite slice_from_ok in * by lia. cbn [mbind res_bind safe] in *. split; [done|].
    split; [by eexists|]. split; [done|]. by exists used.
Qed.

(** A formatted dictionary of three bytes of content, and eight bytes without
    the magic number. *)
Lemma dictionary_sound_witness : (exists d,
  dict_new ([0x37; 0xA4; 0x30; 0xEC; 7; 0; 0; 0; 132; 0x11; 0x23; 0x40; 0x10; 0x3F; 0x10; 0x3F; 0x10; 0x3F] ++
    [1; 0; 0; 0; 2; 0; 0; 0; 3; 0; 0; 0; 97; 98; 99]) = Ok d /\
  dd_id d = 7 /\ dd_content d = [97; 98; 99] /\ dict_ok d) /\
  dict_new [0x38; 0xA4; 0x30; 0xEC; 7; 0; 0; 0] = Ok (MkDict 0 [0x38; 0xA4; 0x30; 0xEC; 7; 0; 0; 0] None).
Proof.
  split.
  - set (bs := _ ++ _). assert (bytes bs) as Hb by (unfold bs; solve_bytes).
    destruct (dictionary_sound bs Hb) as [_ H]. specialize (H ltac:(split; [by vm_compute|reflexivity])).
    destruct (dict_new bs) as [d|e| |] eqn:E; [|vm_compute in E; discriminate E..].
    exists d. destruct H as [H _].
    assert (dd_id d = 7 /\ dd_content d = [97; 98; 99]) as [H1 H2]
      by (vm_compute in E; injection E as <-; split; reflexivity).
    split; [reflexivity|]. split; [exact H1|]. split; [exact H2|exact H].
  - apply dictionary_sound; [solve_bytes|]. intros [_ H]. discriminate H.
Defined.
