(* ===== verification/Frame.v ===== *)
(** * The frame decoder and the one-shot driver ([src/decode.rs], "Frame decoder")

    [FrameDecoder] takes the input one unit at a time (a frame header, a
    block header, a block's content, a checksum) and decodes each block into
    a [FrameOut]; [decompress_frames] hands it the units of the whole input,
    with [VecOut] as its output. The state after an error is not modelled: an
    error gives up the call. The features are those of a build without
    [parallel]. *)

From S2P Require Import Prelude Words Constants Xxh64 Errors FseTable Headers SeqTables.
From S2P Require Import HufTable Copy SeqExec BlockDecode DecodeDict.

(** ** Frames *)

(** [Frame]. *)
Record Frame := MkFrame {
  fr_window : Z;
  block_size_max : Z;
  fr_content_size : option Z;
  decoded : Z;
  checksum : option Xxh64;
}.

(** [Frame::new]: a [u64] window always fits a 64-bit [usize]. *)
Definition frame_new (header : FrameHeader) : dec Frame :=
  w ← window_size header;
  Ok (MkFrame w (Z.min w MAX_BLOCK_SIZE) (frame_content_size header) 0
        (if content_checksum_flag (descriptor header) then Some Xxh64.new else None)).

(** [Frame::content_size_mismatch]. *)
Definition content_size_mismatch (f : Frame) (fcs : Z) : DecodeError := EContentSize fcs (decoded f).

(** [Frame::block_decoded]. *)
Definition block_decoded (f : Frame) (bs : list Z) : dec Frame :=
  let n := wadd 64 (decoded f) (zlen bs) in
  sum ← match checksum f with
        | Some h => h ← update h bs; Ok (Some h)
        | None => Ok None
        end;
  let f := MkFrame (fr_window f) (block_size_max f) (fr_content_size f) n sum in
  match fr_content_size f with
  | Some fcs => if fcs <? decoded f then Err (content_size_mismatch f fcs) else Ok f
  | None => Ok f
  end.

(** [Frame::fits_one_block]. *)
Definition fits_one_block (f : Frame) : bool :=
  match fr_content_size f with
  | Some fcs => fcs <=? block_size_max f
  | None => false
  end.

(** [Stage]. *)
Inductive Stage :=
| SFrameHeader
| SSkip (left_ : Z)
| SBlock (frame : Frame) (header : option BlockHeader)
| SChecksum (computed : Z).

(** [Event]. *)
Inductive Event := FrameStarted | Continue | FrameEnded.

#[export] Instance Event_eq_dec : EqDecision Event.
Proof. solve_decision. Defined.

(** [FrameOut]. A block's destination is a buffer with its [Dst], and the
    content an [ExtHistory] points into; [commit] is given that buffer with
    the block written. *)
Class FrameOut (O : Type) := {
  out_start : O -> Z -> option Z -> O;
  block_dst : O -> dec (list Z * Dst * list Z * ExtHistory);
  commit : O -> list Z -> Z -> O * list Z;
}.

(** ** The frame decoder *)

(** [FrameDecoder]. *)
Record FrameDecoder := MkDecoder {
  stage : Stage;
  scratch : option DecoderScratch;
  simd : Level;
}.

(** [FrameDecoder::new]. *)
Definition decoder_new (simd : Level) : FrameDecoder := MkDecoder SFrameHeader None simd.

Definition set_stage (d : FrameDecoder) (s : Stage) : FrameDecoder :=
  MkDecoder s (scratch d) (simd d).

(** [FrameDecoder::leave_frame]. *)
Definition leave_frame (d : FrameDecoder) : FrameDecoder * Stage :=
  (set_stage d SFrameHeader, stage d).

(** [FrameDecoder::skipping]. *)
Definition skipping (d : FrameDecoder) : bool :=
  match stage d with SSkip _ => true | _ => false end.

(** [FrameDecoder::frame_start]; its [unreachable!] is [Fault]. *)
Definition frame_start (d : FrameDecoder) : dec (Frame * DecoderScratch) :=
  match stage d, scratch d with
  | SBlock frame _, Some scratch => Ok (frame, scratch)
  | _, _ => Fault
  end.

Definition CHECKSUM_LEN : Z := 4.

(** [FrameDecoder::unit_len]. *)
Definition unit_len (d : FrameDecoder) (head : list Z) : Z :=
  match stage d with
  | SFrameHeader => frame_header_len head
  | SSkip left_ => left_
  | SBlock _ None => BLOCK_HEADER_LEN
  | SBlock _ (Some block) => content_size block
  | SChecksum _ => CHECKSUM_LEN
  end.

(** [FrameDecoder::skip]. *)
Definition skip (d : FrameDecoder) (avail : Z) : FrameDecoder * (Z * bool) :=
  match stage d with
  | SSkip left_ =>
      let n := Z.min left_ avail in
      let left_ := left_ - n in
      if negb (left_ =? 0) then (set_stage d (SSkip left_), (n, false))
      else (set_stage d SFrameHeader, (n, true))
  | _ => (d, (0, false))
  end.

(** [frame_header_error]. *)
Definition frame_header_error (e : FrameDecoderError) : DecodeError := EFrameHeader (msg e).

(** [self.scratch.get_or_insert_with(DecoderScratch::new)]. *)
Definition get_scratch (d : FrameDecoder) : DecoderScratch := default scratch_new (scratch d).

(** The tables a frame starts from. *)
Definition start_scratch (s : DecoderScratch) (dict : option DecodeDict) : DecoderScratch :=
  let s := scratch_reset s in
  match dict ≫= dd_entropy with
  | Some e => load_dict s e
  | None => s
  end.

(** The dictionary test of [FrameDecoder::frame_header]. *)
Definition dict_wrong (id : Z) (dict : option DecodeDict) : dec unit :=
  if id =? 0 then Ok tt
  else match dict with
       | Some d => if id =? dd_id d then Ok tt else Err (EDictMismatch id (dd_id d))
       | None => Err (EDictMissing id)
       end.

Section frame_out.
Context {O : Type} `{FrameOut O}.

(** [FrameDecoder::frame_header]. *)
Definition frame_header (d : FrameDecoder) (unit : list Z) (out : O) (dict : option DecodeDict)
    : dec (FrameDecoder * O * Event) :=
  match parse_frame_header unit with
  | Ok (header, _) =>
      frame ← frame_new header;
      _ ← dict_wrong (dict_id header) dict;
      let s := start_scratch (get_scratch d) dict in
      let out := out_start out (fr_window frame) (fr_content_size frame) in
      Ok (MkDecoder (SBlock frame None) (Some s) (simd d), out, FrameStarted)
  | Err e =>
      match skip_size e with
      | Some size => Ok (set_stage d (SSkip size), out, Continue)
      | None => Err (frame_header_error e)
      end
  | Fault => Fault
  | Stuck => Stuck
  end.

(** [FrameDecoder::blocks_ended]. *)
Definition blocks_ended (d : FrameDecoder) : dec (FrameDecoder * Event) :=
  let '(d, s) := leave_frame d in
  match s with
  | SBlock frame _ =>
      _ ← match fr_content_size frame with
          | Some fcs => fail_if (negb (decoded frame =? fcs)) (content_size_mismatch frame fcs)
          | None => Ok tt
          end;
      match checksum frame with
      | Some h =>
          x ← digest h;
          Ok (set_stage d (SChecksum (wrap 32 x)), Continue)
      | None => Ok (d, FrameEnded)
      end
  | _ => Fault
  end.

(** The arms of [decode_block]: the block's end, the scratch and the buffer
    it is written to. *)
Definition decode_block_into (block : BlockHeader) (content : list Z) (bsm : Z) (ws : DecoderScratch)
    (dict : option DictEntropy) (buf : list Z) (dst : Dst) (ext_content : list Z) (ext : ExtHistory)
    (simd : Level) : dec (Z * DecoderScratch * list Z) :=
  let at_ := d_base dst + d_op dst in
  match block_type block with
  | Raw =>
      buf ← copy_from_slice buf at_ (at_ + zlen content) content;
      Ok (d_op dst + zlen content, ws, buf)
  | RLE =>
      let len := decompressed_size block in
      b ← idx content 0;
      buf ← copy_from_slice buf at_ (at_ + len) (zrepeat b len);
      Ok (d_op dst + len, ws, buf)
  | Compressed => decompress_block content bsm ws dict buf dst ext_content ext simd
  | Reserved => Err EReservedEncountered
  end.

(** [decode_block]. *)
Definition decode_block (block : BlockHeader) (content : list Z) (frame : Frame) (ws : DecoderScratch)
    (dict : option DictEntropy) (out : O) (simd : Level) : dec (Frame * DecoderScratch * O) :=
  '(buf, dst, ext_content, ext) ← block_dst out;
  '(end_, ws, buf) ← decode_block_into block content (block_size_max frame) ws dict buf dst
                       ext_content ext simd;
  let '(out, bs) := commit out buf end_ in
  frame ← block_decoded frame bs;
  Ok (frame, ws, out).

(** [FrameDecoder::process]. *)
Definition process (d : FrameDecoder) (unit : list Z) (out : O) (dict : option DecodeDict)
    : dec (FrameDecoder * O * Event) :=
  match stage d with
  | SFrameHeader => frame_header d unit out dict
  | SSkip _ => Fault
  | SBlock frame None =>
      block ← parse_block_header unit (block_size_max frame);
      Ok (set_stage d (SBlock frame (Some block)), out, Continue)
  | SBlock frame (Some block) =>
      '(frame, ws, out) ← decode_block block unit frame (get_scratch d) (dict ≫= dd_entropy) out (simd d);
      let d := MkDecoder (SBlock frame None) (Some ws) (simd d) in
      if negb (last_block block) then Ok (d, out, Continue)
      else
        '(d, ev) ← blocks_ended d;
        Ok (d, out, ev)
  | SChecksum computed =>
      _ ← rassert (zlen unit =? 4);
      let stored := le_val unit in
      _ ← fail_if (negb (stored =? computed)) (EChecksum stored computed);
      Ok (set_stage d SFrameHeader, out, FrameEnded)
  end.
End frame_out.

(** [FrameDecoder::end_of_input]. *)
Definition end_of_input (d : FrameDecoder) (partial : list Z) : dec unit :=
  match stage d with
  | SFrameHeader =>
      if is_empty partial then Ok tt
      else if zlen partial <? FRAME_HEADER_PREFIX_LEN then Err (ELeftOver (zlen partial))
      else match parse_frame_header partial with
           | Err e => Err (frame_header_error e)
           | Ok _ | Fault => Fault
           | Stuck => Stuck
           end
  | SSkip _ => Err ESkipPastEnd
  | SBlock frame None =>
      match parse_block_header partial (block_size_max frame) with
      | Err e => Err e
      | Ok _ | Fault => Fault
      | Stuck => Stuck
      end
  | SBlock _ (Some _) => Err EBlockContentTruncated
  | SChecksum _ => Err EChecksumTruncated
  end.

(** ** One-shot decoding *)

(** [VecOut]. Of the capacity of the [Vec] behind [output], [v_reserved] is
    what the code has asked for: the greatest length it has reserved room
    for. *)
Record VecOut := MkVecOut {
  v_output : list Z;
  v_prefix : Prefix;
  v_dict : list Z;
  v_reserved : Z;
}.

(** [impl FrameOut for VecOut]. The length of a block's buffer is what
    [block_dst] reserves; [commit], which is given that buffer, notes it. *)
#[export] Instance VecOut_out : FrameOut VecOut := {|
  out_start := fun o window _ =>
    MkVecOut (v_output o) (MkPrefix (zlen (v_output o)) window) (v_dict o) (v_reserved o);
  block_dst := fun o =>
    let '(buf, dst) := prefix_dst (v_prefix o) (v_output o) (MAX_BLOCK_SIZE + WILDCOPY_OVERLENGTH) in
    Ok (buf, dst, v_dict o, ext_dict (v_dict o));
  commit := fun o buf end_ =>
    let start := zlen (v_output o) in
    let output := ztake (p_start (v_prefix o) + end_) buf in
    (MkVecOut output (v_prefix o) (v_dict o) (Z.max (v_reserved o) (zlen buf)), zdrop start output);
|}.

(** [block_bound]. *)
Definition block_bound (block : BlockHeader) (block_size_max : Z) : Z :=
  match block_type block with
  | Compressed => block_size_max
  | _ => decompressed_size block
  end.

(** [u64::saturating_add]. *)
Definition saturating_add64 (a b : Z) : Z := Z.min (a + b) (2 ^ 64 - 1).

(** [blocks_decoded_bound]. *)
Definition blocks_decoded_bound (data : list Z) (block_size_max : Z) : dec Z :=
  loopM (length data + 1) (fun '(rest, bound) =>
    l ← locate_block rest block_size_max;
    match l with
    | Some (block, content) =>
        rest ← slice_from rest (BLOCK_HEADER_LEN + zlen content);
        let bound := saturating_add64 bound (block_bound block block_size_max) in
        Ok (if last_block block then inr bound else inl (rest, bound))
    | None => Ok (inr bound)
    end) (data, 0).

Section driver.
(** [Vec::try_reserve]: whether the allocator has room for [want] bytes past
    a length. *)
Context (try_reserve : Z -> Z -> bool).

(** [reserve_frame]: the length [output] has room for after it, as far as it
    asked. *)
Definition reserve_frame (output : list Z) (frame : Frame) (blocks : list Z) : dec Z :=
  match fr_content_size frame with
  | None => Ok (zlen output)
  | Some fcs =>
      content ← (if fits_one_block frame then Ok fcs
                 else b ← blocks_decoded_bound blocks (block_size_max frame); Ok (Z.min fcs b));
      let want := content + (MAX_BLOCK_SIZE + WILDCOPY_OVERLENGTH) in
      _ ← fail_if (USIZE_MAX <? want) (EReserveTooLarge fcs);
      _ ← fail_if (negb (try_reserve (zlen output) want)) (EReserveFailed want);
      Ok (zlen output + want)
  end.

(** One turn of [decompress_frames]: the decoder, the output and [pos]. *)
Definition frames_turn (data : list Z) (dict : option DecodeDict) (st : FrameDecoder * VecOut * Z)
    : dec (FrameDecoder * VecOut * Z + FrameDecoder * VecOut) :=
  let '(d, out, pos) := st in
  rest ← slice_from data pos;
  let '(d, (skipped, _)) := skip d (zlen rest) in
  let pos := pos + skipped in
  rest ← slice_from data pos;
  let len := unit_len d rest in
  if zlen rest <? len then
    _ ← end_of_input d rest;
    Ok (inr (d, out))
  else
    unit ← slice rest 0 len;
    '(d, out, ev) ← process d unit out dict;
    let pos := pos + len in
    if negb (bool_decide (ev = FrameStarted)) then Ok (inl (d, out, pos))
    else
      '(frame, _) ← frame_start d;
      rest ← slice_from data pos;
      room ← reserve_frame (v_output out) frame rest;
      Ok (inl (d, MkVecOut (v_output out) (v_prefix out) (v_dict out) (Z.max (v_reserved out) room), pos)).

(** [decompress_frames]: the decoder and the output, in the [VecOut] around
    it. *)
Definition decompress_frames (d : FrameDecoder) (data : list Z) (dict : option DecodeDict)
    (output : list Z) : dec (FrameDecoder * VecOut) :=
  let out := MkVecOut output (MkPrefix 0 0) (match dict with Some d => dd_content d | None => [] end) (zlen output) in
  loopM (2 * length data + 2) (frames_turn data dict) (d, out, 0).

Definition COPY_OUT_MAX : Z := 1024.

(** [take_output]: the content, and what stays in the buffer. *)
Definition take_output (buf : list Z) : list Z * list Z :=
  if COPY_OUT_MAX <? zlen buf then (buf, []) else (buf, []).

(** [decompress_with_dict_options]. *)
Definition decompress_with_dict_options (data : list Z) (dict : option DecodeDict) (simd : Level)
    : dec (list Z) :=
  '(_, out) ← decompress_frames (decoder_new simd) data dict [];
  Ok (take_output (v_output out)).1.
End driver.
