(* ===== verification/FrameRef.v ===== *)
(** * What a sequence of frames means

    [ref_frames] decodes concatenated frames on lists: a frame is its header,
    its blocks and its checksum, each block appends to the history, and the
    content is what follows the dictionary's. It says what is required of the
    whole frame (its size, its checksum) once, at its end. The scratch goes
    from frame to frame, as the program's does. The fuel of the two
    recursions is the input's length, and any more gives the same
    ([ref_blocks_fuel], [ref_frames_fuel]). *)

From S2P Require Import Prelude Words Constants Xxh64 Errors FseTable Headers HeaderUnits SeqTables.
From S2P Require Import HufTable Copy SeqExec BlockDecode DecodeDict Frame.

Definition dict_content (dict : option DecodeDict) : list Z :=
  match dict with Some d => dd_content d | None => [] end.

(** One block, after the history [h]. *)
Definition ref_one (dict : option DecodeDict) (window bsm : Z) (b : BlockHeader) (content : list Z)
    (ws : DecoderScratch) (h : list Z) : option (list Z * DecoderScratch) :=
  match block_type b with
  | Raw => Some (h ++ content, ws)
  | RLE => x ← zget content 0; Some (h ++ zrepeat x (decompressed_size b), ws)
  | Compressed => ref_block content bsm ws (dict ≫= dd_entropy) (ext_dict (dict_content dict)) window h
  | Reserved => None
  end.

(** Blocks up to the last one: the history after them, the input left and the
    scratch. *)
Fixpoint ref_blocks (fuel : nat) (dict : option DecodeDict) (window bsm : Z) (ws : DecoderScratch)
    (h data : list Z) : option (list Z * list Z * DecoderScratch) :=
  match fuel with
  | O => None
  | S n =>
      b ← to_option (parse_block_header data bsm);
      content ← zslice data 3 (3 + content_size b);
      '(h, ws) ← ref_one dict window bsm b content ws h;
      let rest := zdrop (3 + content_size b) data in
      if last_block b then Some (h, rest, ws) else ref_blocks n dict window bsm ws h rest
  end.

(** What a frame's end requires of its content: the input after it. *)
Definition ref_finish (fcs : option Z) (sum : bool) (content rest : list Z) : option (list Z) :=
  if match fcs with Some n => negb (zlen content =? n) | None => false end then None
  else if sum then
    s ← zslice rest 0 4;
    if le_val s =? wrap 32 (xxh64 content) then Some (zdrop 4 rest) else None
  else Some rest.

(** A frame of blocks, after its header. *)
Definition ref_content (dict : option DecodeDict) (header : FrameHeader) (ws : DecoderScratch)
    (data : list Z) : option (list Z * list Z * DecoderScratch) :=
  window ← to_option (window_size header);
  _ ← to_option (dict_wrong (dict_id header) dict);
  '(h, rest, ws) ← ref_blocks (S (length data)) dict window (Z.min window MAX_BLOCK_SIZE)
                     (start_scratch ws dict) (dict_content dict) data;
  let content := zdrop (zlen (dict_content dict)) h in
  rest ← ref_finish (frame_content_size header) (content_checksum_flag (descriptor header)) content rest;
  Some (content, rest, ws).

(** The frame at the start of [data], a skippable one included: its content,
    the input after it, and the scratch. *)
Definition ref_frame (dict : option DecodeDict) (ws : DecoderScratch) (data : list Z)
    : option (list Z * list Z * DecoderScratch) :=
  match parse_frame_header data with
  | Ok (header, pos) => ref_content dict header ws (zdrop pos data)
  | Err e =>
      n ← skip_size e;
      if 8 + n <=? zlen data then Some ([], zdrop (8 + n) data, ws) else None
  | _ => None
  end.

(** Frames up to the end of the input, after content [acc]. *)
Fixpoint ref_frames (fuel : nat) (dict : option DecodeDict) (ws : DecoderScratch) (data acc : list Z)
    : option (list Z) :=
  match fuel with
  | O => None
  | S n =>
      if is_empty data then Some acc
      else
        '(content, rest, ws) ← ref_frame dict ws data;
        ref_frames n dict ws rest (acc ++ content)
  end.

(** ** Fuel *)

Lemma length_zdrop {A} n (l : list A) : 0 <= n <= zlen l -> length (zdrop n l) = (length l - Z.to_nat n)%nat.
Proof. intros. unfold zdrop. apply length_drop. Qed.

Lemma parse_block_3 data bsm b : parse_block_header data bsm = Ok b -> 3 <= zlen data.
Proof.
  unfold parse_block_header. destruct (zslice data 0 3) as [s|] eqn:E; [|done].
  apply zslice_Some in E as (_ & ? & _). done.
Qed.

(** A block takes its header and content. *)
Lemma ref_blocks_step n dict window bsm ws h data :
  ref_blocks (S n) dict window bsm ws h data =
    (b ← to_option (parse_block_header data bsm);
     content ← zslice data 3 (3 + content_size b);
     '(h, ws) ← ref_one dict window bsm b content ws h;
     let rest := zdrop (3 + content_size b) data in
     if last_block b then Some (h, rest, ws) else ref_blocks n dict window bsm ws h rest).
Proof. done. Qed.

Lemma ref_blocks_fuel n dict window bsm : forall m ws h data,
  (length data < n)%nat -> (length data < m)%nat ->
  ref_blocks n dict window bsm ws h data = ref_blocks m dict window bsm ws h data.
Proof.
  induction n as [|n IH]; intros [|m] ws h data Hn Hm; try lia. rewrite !ref_blocks_step.
  destruct (parse_block_header data bsm) as [b|e| |] eqn:Hb; cbn [to_option mbind option_bind]; try done.
  apply parse_block_3 in Hb.
  destruct (zslice data 3 _) as [content|] eqn:Hc; cbn [mbind option_bind]; [|done].
  apply zslice_Some in Hc as (Hc1 & Hc2 & _).
  destruct (ref_one _ _ _ _ _ _ _) as [[h' ws']|]; cbn [mbind option_bind]; [|done].
  destruct (last_block b); [done|]. unfold zlen in *.
  apply IH; rewrite length_zdrop by (unfold zlen; lia); lia.
Qed.

(** The blocks leave a suffix, and only add to the history. *)
Lemma ref_blocks_shorter n dict window bsm : forall ws h data h' rest ws',
  ref_blocks n dict window bsm ws h data = Some (h', rest, ws') ->
  3 <= zlen data - zlen rest /\ exists k, 0 <= k <= zlen data /\ rest = zdrop k data.
Proof.
  induction n as [|n IH]; intros ws h data h' rest ws' H; [done|]. rewrite ref_blocks_step in H.
  destruct (parse_block_header data bsm) as [b|e| |] eqn:Hb; cbn [to_option mbind option_bind] in H; try done.
  apply parse_block_3 in Hb.
  destruct (zslice data 3 _) as [content|] eqn:Hc; cbn [mbind option_bind] in H; [|done].
  apply zslice_Some in Hc as (Hc1 & Hc2 & _).
  destruct (ref_one _ _ _ _ _ _ _) as [[h1 ws1]|]; cbn [mbind option_bind] in H; [|done].
  destruct (last_block b).
  - injection H as -> <- ->. rewrite zlen_zdrop by lia. split; [lia|].
    exists (3 + content_size b). split; [lia|done].
  - apply IH in H as (Hl & k & Hk & ->). rewrite zlen_zdrop in Hl, Hk by lia.
    rewrite zlen_zdrop in Hl by (rewrite zlen_zdrop; lia). rewrite !zlen_zdrop by (rewrite ?zlen_zdrop; lia).
    split; [lia|]. exists (3 + content_size b + k). split; [lia|]. unfold zdrop. rewrite drop_drop. f_equal. lia.
Qed.

Lemma ref_finish_rest fcs sum content rest rest' : ref_finish fcs sum content rest = Some rest' ->
  rest' = rest \/ rest' = zdrop 4 rest /\ 4 <= zlen rest.
Proof.
  unfold ref_finish. destruct (match fcs with Some _ => _ | None => _ end); [done|].
  destruct sum; [|intros [= ->]; by left].
  destruct (zslice rest 0 4) as [s|] eqn:Hs; cbn; [|done]. apply zslice_Some in Hs as (_ & Hs & _).
  destruct (le_val s =? _); [|done]. intros [= <-]. by right.
Qed.

(** A frame takes input. *)
Lemma ref_frame_shorter dict ws data content rest ws' : bytes data ->
  ref_frame dict ws data = Some (content, rest, ws') ->
  zlen rest < zlen data /\ bytes rest.
Proof.
  intros Hb H. unfold ref_frame in H. pose proof (parse_frame_header_ok data Hb) as Hv.
  destruct (parse_frame_header data) as [[header pos]|e| |]; cbn [mbind option_bind] in H; try done.
  - destruct Hv as (Hpos & Hle & _). pose proof (frame_header_len_range data Hb).
    unfold ref_content in H.
    destruct (window_size header) as [w|e| |]; cbn [to_option mbind option_bind] in H; try done.
    destruct (dict_wrong _ _) as [[]|e| |]; cbn [to_option mbind option_bind] in H; try done.
    destruct (ref_blocks _ _ _ _ _ _ _) as [[[h r] ws1]|] eqn:Hr; cbn [mbind option_bind] in H; [|done].
    apply ref_blocks_shorter in Hr as (Hs & k & Hk & ->).
    destruct (ref_finish _ _ _ _) as [r'|] eqn:Hf; cbn [mbind option_bind] in H; [|done].
    injection H as _ <- _. apply ref_finish_rest in Hf.
    assert (zlen (zdrop pos data) = zlen data - pos) as L1 by (apply zlen_zdrop; lia).
    assert (zlen (zdrop k (zdrop pos data)) = zlen data - pos - k) as L2 by (rewrite zlen_zdrop; lia).
    assert (bytes (zdrop k (zdrop pos data))) as Hb2 by by do 2 apply Forall_drop.
    destruct Hf as [->|[-> H4]]; [split; [lia|done]|].
    rewrite zlen_zdrop by lia. split; [lia|by apply Forall_drop].
  - destruct (skip_size e) as [n|] eqn:He; cbn [mbind option_bind] in H; [|done].
    destruct (Z.leb_spec (8 + n) (zlen data)); [|done]. injection H as _ <- _.
    destruct (Hv n He) as (_ & _ & Hn). rewrite zlen_zdrop by lia. split; [lia|by apply Forall_drop].
Qed.

Lemma ref_frames_fuel n dict : forall m ws data acc, bytes data ->
  (length data < n)%nat -> (length data < m)%nat ->
  ref_frames n dict ws data acc = ref_frames m dict ws data acc.
Proof.
  induction n as [|n IH]; intros [|m] ws data acc Hb Hn Hm; try lia. cbn [ref_frames].
  destruct (is_empty data); [done|].
  destruct (ref_frame dict ws data) as [[[content rest] ws']|] eqn:Hf; cbn [mbind option_bind]; [|done].
  apply ref_frame_shorter in Hf as [Hs Hr]; [|done]. unfold zlen in Hs. apply IH; [done|lia..].
Qed.
