(* ===== verification/FrameProofs.v ===== *)
(** * The frame decoder refines the reference

    Every turn of [decompress_frames] keeps what the reference says the rest
    of the input decodes to ([remaining]), or ends with the reference's
    verdict. *)

From S2P Require Import Prelude Words Constants Xxh64 Errors FseTable FseBuild Headers HeaderUnits SeqTables.
From S2P Require Import HufTable Copy SeqExec SeqDecode SeqRun BlockDecode DecodeDict Frame FrameRef.

(** ** A block into its place *)

(** Bytes written over part of a buffer. *)
Lemma splice_ok (buf s : list Z) a : 0 <= a -> a + zlen s <= zlen buf ->
  returns (fun buf' => zlen buf' = zlen buf /\ ztake (a + zlen s) buf' = ztake a buf ++ s /\
      ztake a buf' = ztake a buf) (copy_from_slice buf a (a + zlen s) s : dec (list Z)).
Proof.
  intros Ha Hl. pose proof (zlen_nonneg s) as Hs. unfold copy_from_slice, on_slice.
  rewrite slice_ok by lia. cbn [mbind res_bind].
  rewrite zlen_ztake by (rewrite zlen_zdrop; lia). rewrite (proj2 (Z.eqb_eq _ _)) by lia. cbn.
  assert (zlen (ztake a buf) = a) as Hta by (apply zlen_ztake; lia).
  rewrite !zlen_app, Hta, zlen_zdrop by lia. split; [lia|]. split.
  - rewrite app_assoc. unfold ztake at 1. rewrite take_app_le.
    + apply take_ge. rewrite length_app. unfold zlen in *. lia.
    + rewrite length_app. unfold zlen in *. lia.
  - unfold ztake at 1. rewrite take_app_le by (unfold zlen in *; lia). apply take_ge. unfold zlen in *. lia.
Qed.

(** Bytes of the history that a splice adds. *)
Lemma place_splice buf buf' dst content ext s : place_ok buf dst content ext ->
  ztake (d_base dst + d_op dst + zlen s) buf' = ztake (d_base dst + d_op dst) buf ++ s ->
  place_history buf' dst content ext (d_op dst + zlen s) = place_history buf dst content ext (d_op dst) ++ s.
Proof.
  intros [H1 H2 H3 _ _ _ _] H. unfold place_history. rewrite Z.add_assoc, H. rewrite <- app_assoc. f_equal.
  unfold zdrop. rewrite drop_app_le; [done|]. unfold ztake. rewrite length_take.
  unfold zlen, MAX_BLOCK_SIZE, WILDCOPY_OVERLENGTH in *. lia.
Qed.

Lemma splice_block_ok bsm dict buf dst content ext ws s : place_ok buf dst content ext ->
  scratch_ok dict ws -> zlen s <= bsm -> bsm <= MAX_BLOCK_SIZE ->
  let at_ := d_base dst + d_op dst in
  returns (fun buf' => block_done bsm dict buf dst content ext (d_op dst + zlen s, ws, buf')
      (place_history buf dst content ext (d_op dst) ++ s, ws))
    (copy_from_slice buf at_ (at_ + zlen s) s : dec (list Z)).
Proof.
  intros Hpl Hws Hs Hb at_. pose proof Hpl as [H1 H2 H3 _ _ _ _]. pose proof (zlen_nonneg s).
  eapply returns_mono; [apply splice_ok; unfold at_, MAX_BLOCK_SIZE, WILDCOPY_OVERLENGTH in *; lia|].
  intros buf' (Hl & Ht & Hpre). unfold block_done. split; [done|]. split; [done|].
  split; [symmetry; by apply place_splice|]. split; [lia|done].
Qed.

Lemma decode_block_into_ok block content bsm ws dict buf dst ext simd :
  bytes content -> zlen content = content_size block -> block_header_ok bsm block -> 0 <= bsm <= MAX_BLOCK_SIZE ->
  scratch_ok (dict ≫= dd_entropy) ws -> dict_entropy_ok (dict ≫= dd_entropy) ->
  place_ok buf dst (dict_content dict) ext -> ext = ext_dict (dict_content dict) ->
  refines (block_done bsm (dict ≫= dd_entropy) buf dst (dict_content dict) ext)
    (decode_block_into block content bsm ws (dict ≫= dd_entropy) buf dst (dict_content dict) ext simd)
    (ref_one dict (d_window dst) bsm block content ws (place_history buf dst (dict_content dict) ext (d_op dst))).
Proof.
  intros Hb Hl [Ht Hd Hc Hraw Hrle Hcomp] Hbsm Hws Hde Hpl ->. unfold decode_block_into, ref_one.
  destruct (block_type block) eqn:Hty.
  - specialize (Hraw eq_refl). eapply refines_step; [apply (splice_block_ok bsm); try done; lia|].
    intros buf' _ H. by apply refines_ok.
  - specialize (Hrle eq_refl). destruct (zget_is_Some content 0) as [x Hx]; [lia|].
    rewrite (idx_ok _ _ _ Hx), Hx. cbn [mbind res_bind option_bind].
    pose proof (splice_block_ok bsm (dict ≫= dd_entropy) buf dst (dict_content dict)
      (ext_dict (dict_content dict)) ws (zrepeat x (decompressed_size block)) Hpl Hws) as H.
    rewrite zlen_zrepeat in H by lia. cbv zeta in H.
    eapply refines_step; [apply H; lia|]. intros buf' _ Hdone. by apply refines_ok.
  - apply decompress_block_ok; done || lia.
  - done.
Qed.

(** ** The output *)

(** The output inside a frame: [start] of it came before. *)
Record vec_ok (dict : option DecodeDict) (window : Z) (o : VecOut) : Prop := {
  vk_dict : v_dict o = dict_content dict;
  vk_start : 0 <= p_start (v_prefix o) <= zlen (v_output o);
  vk_window : p_window (v_prefix o) = window;
}.

(** What the frame has decoded to, and all of its history. *)
Definition frame_content (o : VecOut) : list Z := zdrop (p_start (v_prefix o)) (v_output o).
Definition frame_history (dict : option DecodeDict) (o : VecOut) : list Z :=
  dict_content dict ++ frame_content o.

Definition vec_room : Z := MAX_BLOCK_SIZE + WILDCOPY_OVERLENGTH.

Lemma ztake_app_all {A} (l k : list A) n : n = zlen l -> ztake n (l ++ k) = l.
Proof. intros ->. unfold ztake, zlen. by rewrite Nat2Z.id, take_app_length. Qed.

Section vec.
Context (dict : option DecodeDict) (window : Z) (o : VecOut).
Context (Hok : vec_ok dict window o) (Hwin : 0 <= window <= USIZE_MAX).
Context (Hsize : zlen (v_output o) + vec_room < 2 ^ 63) (Hdict : zlen (dict_content dict) < 2 ^ 63).

Abbreviation buf0 := (v_output o ++ zrepeat 0 vec_room).
Abbreviation dst0 := (MkDst (p_start (v_prefix o)) (zlen (v_output o) - p_start (v_prefix o)) window).

Lemma vec_block_dst :
  block_dst o = Ok (buf0, dst0, dict_content dict, ext_dict (dict_content dict)).
Proof. destruct Hok as [H1 _ H3]. cbn. by rewrite H1, H3. Qed.

Lemma vec_place : place_ok buf0 dst0 (dict_content dict) (ext_dict (dict_content dict)).
Proof.
  destruct Hok as [H1 [H2 H3] H4]. pose proof (zlen_nonneg (dict_content dict)). split; cbn; try done; try lia.
  - rewrite zlen_app, zlen_zrepeat by done. unfold vec_room. lia.
  - rewrite zlen_app, zlen_zrepeat by done. lia.
Qed.

Lemma vec_history : place_history buf0 dst0 (dict_content dict) (ext_dict (dict_content dict)) (d_op dst0) =
  frame_history dict o.
Proof.
  destruct Hok as [H1 [H2 H3] H4]. unfold place_history, frame_history, frame_content. cbn.
  rewrite Z.sub_diag. change (zdrop 0 ?l) with l. rewrite (ztake_all _ (zlen _)) by lia. f_equal. f_equal.
  apply ztake_app_all. lia.
Qed.

(** What a step from [o] to [o'] reserves: no more than a block's room past
    the output, and enough for what is written. *)
Definition room_kept (o o' : VecOut) : Prop :=
  v_reserved o' <= Z.max (v_reserved o) (zlen (v_output o) + vec_room) /\
  (zlen (v_output o) <= v_reserved o -> zlen (v_output o') <= v_reserved o').

(** [commit] of a block that was written. *)
Lemma vec_commit bsm e end_ ws buf' b : 0 <= bsm ->
  block_done bsm e buf0 dst0 (dict_content dict) (ext_dict (dict_content dict)) (end_, ws, buf') b ->
  let '(o', bs) := commit o buf' end_ in
  vec_ok dict window o' /\ p_start (v_prefix o') = p_start (v_prefix o) /\
  frame_history dict o' = b.1 /\ frame_content o' = frame_content o ++ bs /\
  zlen (v_output o') <= zlen (v_output o) + MAX_BLOCK_SIZE /\
  ztake (p_start (v_prefix o)) (v_output o') = ztake (p_start (v_prefix o)) (v_output o) /\ room_kept o o'.
Proof.
  intros Hb (_ & _ & Hh & Hend & Hl & Hpre). cbn in *. destruct Hok as [H1 [H2 H3] H4].
  rewrite zlen_app, zlen_zrepeat in Hl by done.
  replace (p_start (v_prefix o) + (zlen (v_output o) - p_start (v_prefix o))) with (zlen (v_output o)) in Hpre by lia.
  rewrite (ztake_app_all _ _ _ eq_refl) in Hpre.
  set (n := p_start (v_prefix o) + end_) in *. unfold vec_room, MAX_BLOCK_SIZE, WILDCOPY_OVERLENGTH in *.
  assert (zlen (ztake n buf') = n) as Hn by (apply zlen_ztake; lia).
  assert (ztake n buf' = v_output o ++ zdrop (zlen (v_output o)) (ztake n buf')) as Hsplit.
  { rewrite <- Hpre at 1. replace (ztake (zlen (v_output o)) buf') with (ztake (zlen (v_output o)) (ztake n buf')).
    - unfold ztake, zdrop. by rewrite take_drop.
    - unfold ztake. rewrite take_take. f_equal. lia. }
  split; [split; cbn; done || lia|]. split; [done|]. split.
  { rewrite Hh. unfold place_history, frame_history, frame_content. cbn. rewrite Z.sub_diag.
    change (zdrop 0 ?l) with l. by rewrite (ztake_all _ (zlen _)) by lia. }
  split.
  { unfold frame_content. cbn. rewrite Hsplit at 1. unfold zdrop at 1. rewrite drop_app_le; [done|].
    unfold zlen in *. lia. }
  split; [rewrite Hn; lia|]. split; [|unfold room_kept, vec_room, MAX_BLOCK_SIZE, WILDCOPY_OVERLENGTH; cbn; rewrite Hn; lia].
  rewrite Hsplit. unfold ztake at 1. rewrite take_app_le; [done|]. unfold zlen in *. lia.
Qed.
End vec.

(** ** The frame *)

(** A frame that has decoded to [bs]. *)
Record frame_ok (f : Frame) (bs : list Z) : Prop := {
  fk_window : 0 <= fr_window f <= USIZE_MAX;
  fk_bsm : block_size_max f = Z.min (fr_window f) MAX_BLOCK_SIZE;
  fk_decoded : decoded f = zlen bs;
  fk_sum : forall h, checksum f = Some h -> fed h bs;
}.

Definition has_sum (f : Frame) : bool := match checksum f with Some _ => true | None => false end.

(** What a block does not change. *)
Definition same_frame (f f' : Frame) : Prop :=
  fr_window f' = fr_window f /\ block_size_max f' = block_size_max f /\
  fr_content_size f' = fr_content_size f /\ has_sum f' = has_sum f.

(** A content past the size the header says. *)
Definition past (fcs : option Z) (content : list Z) : bool :=
  match fcs with Some n => n <? zlen content | None => false end.

Lemma block_decoded_ok f bs new : frame_ok f bs -> zlen (bs ++ new) < 2 ^ 63 ->
  refines (fun f' _ => frame_ok f' (bs ++ new) /\ same_frame f f') (block_decoded f new)
    (if past (fr_content_size f) (bs ++ new) then None else Some tt).
Proof.
  intros [H1 H2 H3 H4] Hl. unfold block_decoded. rewrite H3.
  assert (wadd 64 (zlen bs) (zlen new) = zlen (bs ++ new)) as ->.
  { rewrite zlen_app in *. pose proof (zlen_nonneg bs). pose proof (zlen_nonneg new).
    unfold wadd. apply wrap_small. change (2 ^ 63) with 9223372036854775808 in Hl.
    change (2 ^ 64) with 18446744073709551616. lia. }
  assert (exists sum, (match checksum f with Some h => h ← update h new; Ok (Some h) | None => Ok None end
      : dec (option Xxh64)) = Ok sum /\ (forall h, sum = Some h -> fed h (bs ++ new)) /\
    (match sum with Some _ => true | None => false end) = has_sum f) as (sum & -> & Hfed & Hsum).
  { unfold has_sum. destruct (checksum f) as [h|]; [|by exists None].
    destruct (update_fed (E:=DecodeError) h bs new (H4 h eq_refl)
      ltac:(rewrite <- zlen_app; change (2 ^ 63) with 9223372036854775808 in Hl; change (2 ^ 64) with 18446744073709551616; lia)) as (h' & -> & Hf).
    exists (Some h'). split; [done|]. split; [|done]. by intros ? [= <-]. }
  cbn [mbind res_bind fr_content_size decoded]. unfold past.
  destruct (fr_content_size f) as [fcs|] eqn:Hfcs; [destruct (fcs <? _); [done|]|];
    apply refines_ok; (split; [by split|]); by split_and!.
Qed.

Section decode.
Context (dict : option DecodeDict).
Hypothesis Hentropy : dict_entropy_ok (dict ≫= dd_entropy).
Hypothesis Hdict : zlen (dict_content dict) < 2 ^ 63.

Lemma decode_block_ok block content f ws o simd :
  bytes content -> zlen content = content_size block -> block_header_ok (block_size_max f) block ->
  scratch_ok (dict ≫= dd_entropy) ws -> frame_ok f (frame_content o) -> vec_ok dict (fr_window f) o ->
  zlen (v_output o) + vec_room < 2 ^ 63 ->
  refines (fun '(f', ws', o') '(h', ws2) => ws' = ws2 /\ scratch_ok (dict ≫= dd_entropy) ws' /\
      vec_ok dict (fr_window f) o' /\ h' = frame_history dict o' /\ frame_ok f' (frame_content o') /\
      same_frame f f' /\ zlen (v_output o') <= zlen (v_output o) + MAX_BLOCK_SIZE /\
      ztake (p_start (v_prefix o)) (v_output o') = ztake (p_start (v_prefix o)) (v_output o) /\
      p_start (v_prefix o') = p_start (v_prefix o) /\ room_kept o o')
    (decode_block block content f ws (dict ≫= dd_entropy) o simd)
    ('(h', ws') ← ref_one dict (fr_window f) (block_size_max f) block content ws (frame_history dict o);
     if past (fr_content_size f) (zdrop (zlen (dict_content dict)) h') then None else Some (h', ws')).
Proof.
  intros Hb Hl Hbh Hws Hf Hv Hsize. pose proof Hf as [F1 F2 _ _].
  assert (0 <= block_size_max f <= MAX_BLOCK_SIZE) as Hbsm by (unfold MAX_BLOCK_SIZE in *; lia).
  unfold decode_block. rewrite (vec_block_dst dict (fr_window f) o Hv). cbn [mbind res_bind].
  rewrite <- (vec_history dict (fr_window f) o Hv).
  pose proof (vec_place dict (fr_window f) o Hv F1 Hsize Hdict) as Hpl.
  eapply refines_bind; [exact (decode_block_into_ok block content _ ws dict _ _ _ simd Hb Hl Hbh Hbsm Hws
    Hentropy Hpl eq_refl)|].
  intros [[end_ ws'] buf'] [h' ws2] _ _ Hdone. pose proof Hdone as (Ew & Hok & _). cbn in Ew. subst ws2.
  pose proof (vec_commit dict (fr_window f) o Hv _ _ _ _ _ _ (proj1 Hbsm) Hdone) as Hc.
  destruct (commit o buf' end_) as [o' bs]. destruct Hc as (Hv' & Hp & Hh & Hcontent & Hlen & Hpre & Hroom).
  cbn [fst] in Hh. subst h'.
  assert (zdrop (zlen (dict_content dict)) (frame_history dict o') = frame_content o ++ bs) as ->.
  { unfold frame_history, zdrop, zlen. rewrite Nat2Z.id, drop_app_length. done. }
  pose proof (block_decoded_ok f (frame_content o) bs Hf) as Hd.
  assert (zlen (frame_content o ++ bs) < 2 ^ 63) as Hlt.
  { rewrite <- Hcontent. unfold frame_content. destruct Hv' as [_ [? ?] _]. rewrite zlen_zdrop by lia.
    unfold vec_room, WILDCOPY_OVERLENGTH in *. lia. }
  specialize (Hd Hlt). destruct (block_decoded f bs) as [f'|e| |]; cbn [mbind res_bind refines] in *; try done.
  - destruct Hd as ([] & Hpast & Hf' & Hsame).
    destruct (past _ _); [done|]. eexists. split; [done|]. rewrite Hcontent. by split_and!.
  - by destruct (past _ _).
Qed.
End decode.

(** ** What the rest of the input decodes to *)

Definition all_frames (dict : option DecodeDict) (ws : DecoderScratch) (rest acc : list Z) : option (list Z) :=
  ref_frames (S (length rest)) dict ws rest acc.

(** After a frame's blocks: its end, then the next frames. *)
Definition after_blocks (dict : option DecodeDict) (fcs : option Z) (sum : bool) (acc : list Z)
    (r : list Z * list Z * DecoderScratch) : option (list Z) :=
  let '(h, rest, ws) := r in
  let content := zdrop (zlen (dict_content dict)) h in
  rest ← ref_finish fcs sum content rest;
  all_frames dict ws rest (acc ++ content).

(** The content before the current frame. *)
Definition before_frame (o : VecOut) : list Z := ztake (p_start (v_prefix o)) (v_output o).

Definition remaining (dict : option DecodeDict) (d : FrameDecoder) (o : VecOut) (rest : list Z)
    : option (list Z) :=
  let ws := get_scratch d in
  match stage d with
  | SFrameHeader => all_frames dict ws rest (v_output o)
  | SSkip n => if n <=? zlen rest then all_frames dict ws (zdrop n rest) (v_output o) else None
  | SBlock f None =>
      r ← ref_blocks (S (length rest)) dict (fr_window f) (block_size_max f) ws (frame_history dict o) rest;
      after_blocks dict (fr_content_size f) (has_sum f) (before_frame o) r
  | SBlock f (Some b) =>
      content ← zslice rest 0 (content_size b);
      '(h, ws) ← ref_one dict (fr_window f) (block_size_max f) b content ws (frame_history dict o);
      let rest := zdrop (content_size b) rest in
      r ← (if last_block b then Some (h, rest, ws)
           else ref_blocks (S (length rest)) dict (fr_window f) (block_size_max f) ws h rest);
      after_blocks dict (fr_content_size f) (has_sum f) (before_frame o) r
  | SChecksum computed =>
      s ← zslice rest 0 4;
      if le_val s =? computed then all_frames dict ws (zdrop 4 rest) (v_output o) else None
  end.

(** The reference's histories only grow. *)
Lemma lz_sequence_grows dict ext window limit h lits ll ml offset h' lits' :
  lz_sequence dict ext window limit h lits ll ml offset = Ok (h', lits') -> zlen h <= zlen h'.
Proof.
  unfold lz_sequence. intros H. inv_ok. rewrite CopyProofs.zlen_lz_match, zlen_app.
  pose proof (zlen_nonneg (ztake ll lits)). lia.
Qed.

Lemma ref_loop_grows v l1 l2 l3 dict ext window limit n : forall u st h lits u' st' h' lits',
  ref_loop v l1 l2 l3 dict ext window limit n u st h lits = Some (u', st', h', lits') -> zlen h <= zlen h'.
Proof.
  induction n as [|n IH]; intros u st h lits u' st' h' lits'; cbn [ref_loop];
    destruct (ref_sequence _ _ _ _ _ _ _) as [[[[[ll ml] offset] u1] st1]|]; cbn [mbind option_bind]; try done;
    destruct (lz_sequence _ _ _ _ _ _ _ _ _) as [[h1 lits1]|e| |] eqn:E; try done;
    apply lz_sequence_grows in E; intros H.
  - by injection H as _ _ <- _.
  - apply IH in H. lia.
Qed.

Lemma ref_run_grows bs a b c l1 l2 l3 dict ext window limit num hist h lits h' hist' :
  ref_run bs a b c l1 l2 l3 dict ext window limit num hist h lits = Some (h', hist') -> zlen h <= zlen h'.
Proof.
  unfold ref_run. destruct (zget bs _) as [x|]; cbn [mbind option_bind]; [|done].
  destruct (x =? 0); [done|].
  destruct (rd _ _ a) as [[s1 u1]|]; cbn [mbind option_bind]; [|done].
  destruct (rd _ _ c) as [[s2 u2]|]; cbn [mbind option_bind]; [|done].
  destruct (rd _ _ b) as [[s3 u3]|]; cbn [mbind option_bind]; [|done].
  destruct (ref_loop _ _ _ _ _ _ _ _ _ _ _ _ _) as [[[[u st] h1] lits1]|] eqn:E; cbn [mbind option_bind]; [|done].
  apply ref_loop_grows in E. destruct (_ && _); [|done]. intros [= <- _]. rewrite zlen_app.
  pose proof (zlen_nonneg lits1). lia.
Qed.

Lemma ref_one_grows dict window bsm b content ws h h' ws' :
  ref_one dict window bsm b content ws h = Some (h', ws') -> zlen h <= zlen h'.
Proof.
  unfold ref_one. destruct (block_type b); [| | |done].
  - intros [= <- _]. rewrite zlen_app. pose proof (zlen_nonneg content). lia.
  - destruct (zget content 0) as [x|]; cbn [mbind option_bind]; [|done]. intros [= <- _].
    rewrite zlen_app. pose proof (zlen_nonneg (zrepeat x (decompressed_size b))). lia.
  - unfold ref_block. destruct (to_option _) as [p|]; cbn [mbind option_bind]; [|done].
    destruct (ref_literals _ _ _ _) as [[huf lits]|]; cbn [mbind option_bind]; [|done].
    destruct (num_sequences _ =? 0).
    + destruct (is_empty _); [|done]. intros [= <- _]. rewrite zlen_app. pose proof (zlen_nonneg lits). lia.
    + destruct (to_option _) as [[fse n]|]; cbn [mbind option_bind]; [|done].
      destruct (to_option _) as [[[ll off] ml]|]; cbn [mbind option_bind]; [|done].
      destruct (ref_run _ _ _ _ _ _ _ _ _ _ _ _ _ _ _) as [[h1 hist]|] eqn:E; cbn [mbind option_bind]; [|done].
      apply ref_run_grows in E. destruct (bsm <? _); [done|]. by intros [= <- _].
Qed.

Lemma ref_blocks_grows n dict window bsm : forall ws h data h' rest ws',
  ref_blocks n dict window bsm ws h data = Some (h', rest, ws') -> zlen h <= zlen h'.
Proof.
  induction n as [|n IH]; intros ws h data h' rest ws' H; [done|]. rewrite ref_blocks_step in H.
  destruct (to_option _) as [b|]; cbn [mbind option_bind] in H; [|done].
  destruct (zslice _ _ _) as [content|]; cbn [mbind option_bind] in H; [|done].
  destruct (ref_one _ _ _ _ _ _ _) as [[h1 ws1]|] eqn:E; cbn [mbind option_bind] in H; [|done].
  apply ref_one_grows in E. destruct (last_block b); [by injection H as <- _ _|]. apply IH in H. lia.
Qed.

(** A frame past its size ends in an error, at its last block at the latest. *)
Lemma past_after_blocks dict fcs sum acc h rest ws :
  past fcs (zdrop (zlen (dict_content dict)) h) = true -> after_blocks dict fcs sum acc (h, rest, ws) = None.
Proof.
  unfold past, after_blocks, ref_finish. destruct fcs as [n|]; [|done]. intros H. bools.
  by rewrite (proj2 (Z.eqb_neq _ n)) by lia.
Qed.

Lemma past_grows dict fcs h h' : zlen h <= zlen h' ->
  past fcs (zdrop (zlen (dict_content dict)) h) = true -> past fcs (zdrop (zlen (dict_content dict)) h') = true.
Proof.
  unfold past. destruct fcs as [n|]; [|done]. intros Hl H. bools. apply Z.ltb_lt.
  unfold zlen, zdrop in *. rewrite length_drop in *. lia.
Qed.

(** Cutting the guard out of the blocks that follow. *)
Lemma past_blocks dict fcs sum acc n window bsm ws h rest :
  past fcs (zdrop (zlen (dict_content dict)) h) = true ->
  (r ← ref_blocks n dict window bsm ws h rest; after_blocks dict fcs sum acc r) = None.
Proof.
  intros H. destruct (ref_blocks _ _ _ _ _ _ _) as [[[h' r] ws']|] eqn:E; cbn [mbind option_bind]; [|done].
  apply past_after_blocks. apply ref_blocks_grows in E. by eapply past_grows.
Qed.

(** ** The turns *)

Section turns.
Context (dict : option DecodeDict).
Hypothesis Hentropy : dict_entropy_ok (dict ≫= dd_entropy).
Hypothesis Hdict : zlen (dict_content dict) < 2 ^ 63.

(** A decoder with its output, between units. *)
Record state_ok (d : FrameDecoder) (o : VecOut) : Prop := {
  so_dict : v_dict o = dict_content dict;
  so_scratch : match stage d with
    | SBlock _ _ => exists ws, scratch d = Some ws /\ scratch_ok (dict ≫= dd_entropy) ws
    | _ => exists e, scratch_ok e (get_scratch d)
    end;
  so_stage : match stage d with
    | SBlock f h => vec_ok dict (fr_window f) o /\ frame_ok f (frame_content o) /\
        (forall b, h = Some b -> block_header_ok (block_size_max f) b)
    | SSkip n => 0 <= n
    | _ => True
    end;
}.

(** Whether a block's header waits for its content. *)
Definition pending (d : FrameDecoder) : Z :=
  match stage d with SBlock _ (Some _) => 1 | _ => 0 end.

Lemma room_kept_same o o' : v_output o' = v_output o -> v_reserved o' = v_reserved o -> room_kept o o'.
Proof. unfold room_kept. intros -> ->. lia. Qed.

(** What taking a unit keeps, [k] bytes of output later. *)
Definition unit_done (d : FrameDecoder) (o : VecOut) (rest tail : list Z)
    (r : dec (FrameDecoder * VecOut * Event)) : Prop :=
  match r with
  | Ok (d', o', ev) => state_ok d' o' /\ remaining dict d' o' tail = remaining dict d o rest /\
      (zlen (v_output o') + MAX_BLOCK_SIZE * pending d' <= zlen (v_output o) + MAX_BLOCK_SIZE * pending d +
        MAX_BLOCK_SIZE * (zlen rest - zlen tail) /\ room_kept o o') /\
      2 * zlen tail + pending d' < 2 * zlen rest + pending d /\
      (ev = FrameStarted -> exists f ws, stage d' = SBlock f None /\ scratch d' = Some ws)
  | Err _ => remaining dict d o rest = None
  | Fault | Stuck => False
  end.

Lemma split_unit (rest : list Z) n : 0 <= n <= zlen rest ->
  rest = ztake n rest ++ zdrop n rest /\ zlen (ztake n rest) = n /\ zlen (zdrop n rest) = zlen rest - n.
Proof.
  intros. unfold ztake, zdrop at 1. rewrite take_drop. split; [done|].
  split; [by apply zlen_ztake|by apply zlen_zdrop].
Qed.

Lemma all_frames_step ws rest acc : bytes rest -> rest <> [] ->
  all_frames dict ws rest acc =
    ('(content, rest', ws') ← ref_frame dict ws rest; all_frames dict ws' rest' (acc ++ content)).
Proof.
  intros Hb Hne. unfold all_frames at 1. cbn [ref_frames]. destruct rest as [|x l]; [done|].
  set (rest := x :: l) in *. cbn [is_empty]. change (is_empty rest) with false. cbv iota.
  destruct (ref_frame dict ws rest) as [[[content r] ws']|] eqn:Hf; cbn [mbind option_bind]; [|done].
  apply ref_frame_shorter in Hf as [Hl Hr]; [|done]. unfold all_frames, zlen in *.
  apply ref_frames_fuel; [done|lia..].
Qed.

(** The checksum. *)
Lemma checksum_unit_ok d o rest c : bytes rest -> state_ok d o -> stage d = SChecksum c -> 4 <= zlen rest ->
  unit_done d o rest (zdrop 4 rest) (process d (ztake 4 rest) o dict).
Proof.
  intros Hb [Hd Hs _] Hst Hl. rewrite Hst in Hs. destruct (split_unit rest 4) as (_ & Hlen & Hlen2); [lia|].
  unfold process, unit_done, pending, remaining. rewrite Hst, Hlen. cbn [Z.eqb Pos.eqb rassert mbind res_bind].
  rewrite (zslice_ok rest 0 4) by lia. change (zdrop 0 rest) with rest. change (4 - 0) with 4.
  cbn [mbind option_bind].
  destruct (le_val (ztake 4 rest) =? c); cbn [negb fail_if mbind res_bind]; [|done].
  cbn [stage set_stage scratch]. split; [by split|]. split; [done|]. unfold MAX_BLOCK_SIZE in *.
  split; [split; [lia|by apply room_kept_same]|]. split; [lia|]. intros [=].
Qed.

(** A block's header. *)
Lemma block_header_unit_ok d o rest f : bytes rest -> state_ok d o -> stage d = SBlock f None ->
  3 <= zlen rest ->
  unit_done d o rest (zdrop 3 rest) (process d (ztake 3 rest) o dict).
Proof.
  intros Hb [Hd Hs Hf] Hst Hl. rewrite Hst in Hs, Hf. destruct Hs as (ws & Hws & Hwsok).
  destruct Hf as (Hv & Hf & _). pose proof Hf as [F1 F2 _ _].
  destruct (split_unit rest 3) as (Hsplit & Hlen & Hlen2); [lia|].
  assert (0 <= block_size_max f) as Hbsm by (unfold MAX_BLOCK_SIZE in *; lia).
  assert (bytes (ztake 3 rest)) as Hbu by by apply Forall_take.
  unfold process, unit_done, pending, remaining. rewrite Hst. rewrite ref_blocks_step.
  assert (parse_block_header rest (block_size_max f) = parse_block_header (ztake 3 rest) (block_size_max f)) as ->
    by (rewrite Hsplit at 1; apply parse_block_header_prefix; lia).
  pose proof (parse_block_header_safe (ztake 3 rest) (block_size_max f) Hbu Hbsm) as Hp.
  destruct (parse_block_header _ _) as [b|e| |]; cbn [to_option mbind res_bind option_bind] in *; try done.
  destruct Hp as [Hbh _]. cbn [stage set_stage scratch simd]. pose proof Hbh as [_ _ Hc _ _ _].
  split.
  { split; cbn [stage set_stage scratch]; [done|by exists ws|]. split; [done|]. split; [done|].
    by intros ? [= <-]. }
  unfold get_scratch. cbn [scratch set_stage]. rewrite Hws. cbn [default].
  split; [|split; [split; [unfold MAX_BLOCK_SIZE; lia|by apply room_kept_same]|split; [lia|intros [=]]]].
  assert (zslice (zdrop 3 rest) 0 (content_size b) = zslice rest 3 (3 + content_size b)) as ->.
  { unfold zslice. rewrite Hlen2. cbn [Z.leb]. replace (0 <=? content_size b) with true by lia.
    replace (3 <=? 3 + content_size b) with true by lia. cbn [andb].
    destruct (Z.leb_spec (content_size b) (zlen rest - 3)), (Z.leb_spec (3 + content_size b) (zlen rest)); try lia; [|done].
    change (zdrop 0 ?l) with l. do 2 f_equal. lia. }
  rewrite option_bind_assoc.
  destruct (zslice rest 3 _) as [content|] eqn:Hsl; cbn [mbind option_bind compose]; [|done].
  apply zslice_Some in Hsl as (_ & Hle & _).
  destruct (ref_one _ _ _ _ _ _ _) as [[h ws']|]; cbn [mbind option_bind]; [|done].
  assert (zdrop (content_size b) (zdrop 3 rest) = zdrop (3 + content_size b) rest) as ->.
  { unfold zdrop. rewrite drop_drop. f_equal. lia. }
  destruct (last_block b); [done|]. f_equal. apply ref_blocks_fuel; [lia|].
  rewrite length_zdrop by lia. unfold zlen in *. lia.
Qed.

Lemma drop_dict o : zdrop (zlen (dict_content dict)) (frame_history dict o) = frame_content o.
Proof. unfold frame_history, zdrop, zlen. by rewrite Nat2Z.id, drop_app_length. Qed.

(** The end of a frame's blocks. *)
Lemma blocks_ended_ok d o f ws tail : state_ok d o -> stage d = SBlock f None -> scratch d = Some ws ->
  match blocks_ended d with
  | Ok (d', ev) => state_ok d' o /\ pending d' = 0 /\ ev <> FrameStarted /\
      remaining dict d' o tail =
        after_blocks dict (fr_content_size f) (has_sum f) (before_frame o) (frame_history dict o, tail, ws)
  | Err _ => after_blocks dict (fr_content_size f) (has_sum f) (before_frame o) (frame_history dict o, tail, ws) = None
  | Fault | Stuck => False
  end.
Proof.
  intros [Hd Hs Hf] Hst Hws. rewrite Hst in Hs, Hf. destruct Hs as (ws' & Hws' & Hwsok).
  rewrite Hws in Hws'. injection Hws' as <-.
  destruct Hf as (Hv & [F1 F2 F3 F4] & _). unfold blocks_ended, leave_frame, after_blocks. rewrite Hst, drop_dict.
  assert (before_frame o ++ frame_content o = v_output o) as Hout
    by (unfold before_frame, frame_content, ztake, zdrop; by rewrite take_drop).
  assert (forall e s, scratch_ok e ws -> match s with SBlock _ _ => False | SSkip _ => False | _ => True end ->
    state_ok (set_stage d s) o) as Hstate.
  { intros e s He Hnb. split; [done|..]; cbn [set_stage stage]; destruct s; try done;
      exists e; unfold get_scratch; cbn [set_stage scratch]; by rewrite Hws. }
  cbv zeta. unfold ref_finish. rewrite F3.
  replace (match fr_content_size f with Some n => negb (zlen (frame_content o) =? n) | None => false end)
    with (negb (match fr_content_size f with Some n => zlen (frame_content o) =? n | None => true end))
    by by destruct (fr_content_size f).
  set (same := match fr_content_size f with Some n => zlen (frame_content o) =? n | None => true end).
  assert ((match fr_content_size f with
    | Some fcs => fail_if (negb (zlen (frame_content o) =? fcs)) (content_size_mismatch f fcs)
    | None => Ok tt end : dec unit) = if same then Ok tt else
      (match fr_content_size f with Some fcs => Err (content_size_mismatch f fcs) | None => Ok tt end)) as ->
    by (unfold same; destruct (fr_content_size f) as [n|]; [destruct (_ =? n)|]; done).
  unfold same at 1. destruct (fr_content_size f) as [n|] eqn:Hfcs; fold same.
  2: change same with true. 1: destruct same; cbn [mbind res_bind negb]; [|done].
  all: cbn [mbind res_bind negb]; unfold has_sum in *; destruct (checksum f) as [h|] eqn:Hsum.
  1, 3: rewrite (digest_fed (E:=DecodeError) h _ (F4 h eq_refl)); cbn [mbind res_bind];
    split; [by apply (Hstate (dict ≫= dd_entropy))|]; split; [done|]; split; [done|];
    unfold remaining, get_scratch; cbn [stage set_stage scratch]; rewrite Hws; cbn [default];
    destruct (zslice tail 0 4) as [s|]; cbn [mbind option_bind]; [|done];
    destruct (le_val s =? _); cbn [mbind option_bind]; [|done]; by rewrite Hout.
  all: split; [by apply (Hstate (dict ≫= dd_entropy))|]; split; [done|]; split; [done|];
    unfold remaining, get_scratch; cbn [stage set_stage scratch]; rewrite Hws; cbn [default mbind option_bind];
    by rewrite Hout.
Qed.

(** A block's content. *)
Lemma block_unit_ok d o rest f b : bytes rest -> state_ok d o -> stage d = SBlock f (Some b) ->
  zlen (v_output o) + vec_room < 2 ^ 63 -> content_size b <= zlen rest ->
  let n := content_size b in
  unit_done d o rest (zdrop n rest) (process d (ztake n rest) o dict).
Proof.
  intros Hb [Hd Hs Hf] Hst Hsize Hl n. rewrite Hst in Hs, Hf. destruct Hs as (ws & Hws & Hwsok).
  destruct Hf as (Hv & Hf & Hbh). specialize (Hbh b eq_refl). pose proof Hbh as [_ _ Hc _ _ _].
  destruct (split_unit rest n) as (_ & Hlen & Hlen2); [unfold n; lia|].
  unfold process, unit_done, pending, remaining. rewrite Hst.
  unfold get_scratch. rewrite Hws. cbn [default].
  rewrite (zslice_ok rest 0) by (unfold n in *; lia). change (zdrop 0 rest) with rest. rewrite Z.sub_0_r. fold n.
  cbn [mbind option_bind].
  pose proof (decode_block_ok dict Hentropy Hdict b (ztake n rest) f ws o (simd d)
    (Forall_take _ _ _ Hb) Hlen Hbh Hwsok Hf Hv Hsize) as H.
  destruct (decode_block _ _ _ _ _ _ _) as [[[f' ws'] o']|e| |]; cbn [mbind res_bind refines] in *; try done.
  2: { destruct (ref_one _ _ _ _ _ _ _) as [[h1 ws1]|]; cbn [mbind option_bind] in *; [|done].
       destruct (past _ _) eqn:Hpast; [|done]. destruct (last_block b); cbn [mbind option_bind].
       - by apply past_after_blocks.
       - by apply past_blocks. }
  destruct H as ([h2 ws2] & Href & <- & Hok & Hv' & -> & Hf' & (S1 & S2 & S3 & S4) & Hlo & Hpre & Hps & Hroom).
  destruct (ref_one _ _ _ _ _ _ _) as [[h1 ws1]|]; cbn [mbind option_bind] in *; [|done].
  destruct (past _ _) eqn:Hpast; [done|]. injection Href as -> ->.
  assert (state_ok (MkDecoder (SBlock f' None) (Some ws') (simd d)) o') as Hstate.
  { split; cbn [stage scratch]; [by destruct Hv'|by exists ws'|]. rewrite S1. by split_and!. }
  assert (before_frame o' = before_frame o) as Hbefore by (unfold before_frame; by rewrite Hps, Hpre).
  destruct (last_block b); cbn [negb mbind option_bind].
  - pose proof (blocks_ended_ok _ o' f' ws' (zdrop n rest) Hstate eq_refl eq_refl) as He.
    rewrite S3, S4, Hbefore in He.
    destruct (blocks_ended _) as [[d' ev]|e| |]; cbn [mbind res_bind]; try done.
    destruct He as (Hst' & Hp & Hev & Hrem). fold (pending d').
    split; [done|]. split; [done|]. rewrite Hp. unfold MAX_BLOCK_SIZE in *. split; [split; [unfold n in *; lia|done]|].
    split; [unfold n in *; lia|done].
  - split; [done|]. cbn [stage scratch default]. rewrite S1, S2, S3, S4, Hbefore.
    split; [done|]. unfold MAX_BLOCK_SIZE in *. split; [split; [unfold n in *; lia|done]|]. split; [unfold n in *; lia|intros [=]].
Qed.

Lemma window_size_ok h : frame_header_wf h -> safe (fun w => 0 <= w <= USIZE_MAX) (window_size h).
Proof.
  intros [Hd Hw _ Hc]. unfold window_size, USIZE_MAX. change (2 ^ 64 - 1) with 18446744073709551615.
  destruct (single_segment_flag _).
  - apply safe_ok. destruct (frame_content_size h) as [n|]; cbn; [|lia].
    specialize (Hc n eq_refl). change (2 ^ 64) with 18446744073709551616 in Hc. lia.
  - unfold is_byte in Hw. rewrite shiftr_div by lia. change (2 ^ 3) with 8.
    replace (Z.land (window_descriptor h) 0x7) with (window_descriptor h mod 8)
      by (symmetry; apply (land_mod _ 3); lia).
    set (e := window_descriptor h / 8). set (m := window_descriptor h mod 8).
    assert (0 <= e < 32 /\ 0 <= m < 8) as [He Hm] by (unfold e, m; divlia).
    apply safe_fail_if. intros Hlog. bools. change ZSTD_WINDOWLOG_MAX with 31 in Hlog.
    assert (wshl 64 1 (10 + e) = 2 ^ (10 + e)) as ->.
    { rewrite wshl_div by lia. rewrite Z.mul_1_l. apply Z.mod_small.
      split; [pose proof (pow2_pos (10 + e)); lia|apply Z.pow_lt_mono_r; lia]. }
    assert (0 < 2 ^ (10 + e) <= 2 ^ 31) as Hp.
    { split; [apply pow2_pos; lia|apply pow2_le; lia]. }
    change (2 ^ 31) with 2147483648 in Hp. destruct (_ <? _); [done|]. apply safe_ok.
    set (p := 2 ^ (10 + e)) in *. assert (0 <= p / 8 <= 268435456) as Hq by divlia.
    assert (0 <= p / 8 * m <= 268435456 * 7) by nia. lia.
Qed.

Lemma dict_wrong_safe id : safe (fun _ => True) (dict_wrong id dict).
Proof. unfold dict_wrong. destruct (id =? 0); [done|]. destruct dict as [d|]; [|done]. by destruct (id =? dd_id d). Qed.

Lemma start_scratch_ok s e : scratch_ok e s -> scratch_ok (dict ≫= dd_entropy) (start_scratch s dict).
Proof.
  intros Hs. unfold start_scratch. destruct (dict ≫= dd_entropy) as [t|] eqn:He.
  - apply (load_dict_ok _ t); [by apply (scratch_reset_ok e)|by apply Hentropy|done].
  - by apply (scratch_reset_ok e).
Qed.

(** A frame's header. *)
Lemma frame_header_unit_ok d o rest : bytes rest -> state_ok d o -> stage d = SFrameHeader ->
  let n := frame_header_len rest in n <= zlen rest ->
  unit_done d o rest (zdrop n rest) (process d (ztake n rest) o dict).
Proof.
  intros Hb [Hd Hs _] Hst n Hl. rewrite Hst in Hs. destruct Hs as [e Hs].
  pose proof (frame_header_len_range rest Hb) as Hr. fold n in Hr.
  destruct (split_unit rest n) as (Hsplit & Hlen & Hlen2); [lia|].
  assert (bytes (ztake n rest)) as Hbu by by apply Forall_take.
  assert (frame_header_len (ztake n rest) = n) as Hn.
  { unfold n at 2. rewrite Hsplit at 2. symmetry. apply frame_header_len_prefix; [by rewrite <- Hsplit|lia]. }
  assert (parse_frame_header rest = parse_frame_header (ztake n rest)) as Hparse.
  { rewrite Hsplit at 1. apply parse_frame_header_prefix; [by rewrite <- Hsplit|lia]. }
  pose proof (parse_frame_header_ok (ztake n rest) Hbu) as Hv. unfold frame_header_verdict in Hv.
  unfold process, unit_done, pending, remaining. rewrite Hst.
  rewrite all_frames_step by (done || (intros ->; rewrite zlen_nil in *; lia)).
  unfold ref_frame. rewrite Hparse. unfold frame_header.
  destruct (parse_frame_header (ztake n rest)) as [[header pos]|err| |]; try done.
  - destruct Hv as (Hpos & _ & Hwf & _). rewrite Hn in Hpos. subst pos. unfold ref_content, frame_new.
    pose proof (window_size_ok header Hwf) as Hw. pose proof (dict_wrong_safe (dict_id header)) as Hdw.
    destruct (window_size header) as [w|?| |]; cbn [to_option mbind res_bind option_bind safe] in *; try done.
    destruct (dict_wrong (dict_id header) dict) as [[]|?| |]; cbn [to_option mbind res_bind option_bind safe] in *; try done.
    set (f := MkFrame _ _ _ _ _). set (o' := out_start _ _ _).
    assert (frame_content o' = []) as Hfc.
    { unfold frame_content, o', zdrop. cbn. apply drop_ge. unfold zlen. lia. }
    assert (before_frame o' = v_output o) as Hbf by (unfold before_frame, o'; cbn; by apply ztake_all).
    pose proof (zlen_nonneg (v_output o)) as Hnn.
    split.
    { split; cbn [stage scratch]; [done|eexists; split; [done|]; by apply (start_scratch_ok _ e)|].
      split; [split; cbn; done || lia|]. rewrite Hfc. split; [|done]. split; cbn [fr_window block_size_max decoded checksum f];
        try done. intros h. destruct (content_checksum_flag _); [|done]. intros [= <-]. apply fed_new. }
    split.
    { cbn [stage scratch default get_scratch]. unfold frame_history. rewrite Hfc, Hbf, app_nil_r.
      cbn [f fr_window block_size_max fr_content_size].
      assert (has_sum f = content_checksum_flag (descriptor header)) as ->
        by (unfold has_sum, f; cbn; by destruct (content_checksum_flag _)).
      change (default scratch_new (Some ?x)) with x.
      destruct (ref_blocks _ _ _ _ _ _ _) as [[[h r] ws']|]; cbn [mbind option_bind]; [|done].
      unfold after_blocks. destruct (ref_finish _ _ _ _); done. }
    cbn [stage scratch]. unfold MAX_BLOCK_SIZE in *. split; [split; [cbn [o' out_start VecOut_out v_output]; lia|by apply room_kept_same]|].
    split; [lia|]. intros _. by do 2 eexists.
  - destruct (skip_size err) as [k|]; cbn [mbind option_bind]; [|done].
    destruct (Hv k eq_refl) as (H8 & _ & Hk). rewrite Hn in H8.
    change SKIPPABLE_FRAME_HEADER_LEN with 8 in H8.
    split; [split; cbn [set_stage stage]; [done|by exists e|lia]|]. cbn [set_stage stage scratch get_scratch].
    split.
    { rewrite Hlen2, H8. destruct (Z.leb_spec k (zlen rest - 8)), (Z.leb_spec (8 + k) (zlen rest)); try lia; [|done].
      cbn [mbind option_bind]. rewrite app_nil_r. f_equal. unfold zdrop. rewrite drop_drop. f_equal. lia. }
    unfold MAX_BLOCK_SIZE in *. split; [split; [lia|by apply room_kept_same]|]. split; [lia|intros [=]].
Qed.

(** Any unit. *)
Lemma unit_ok d o rest : bytes rest -> state_ok d o -> (forall k, stage d <> SSkip k) ->
  zlen (v_output o) + vec_room < 2 ^ 63 -> unit_len d rest <= zlen rest ->
  let n := unit_len d rest in
  0 <= n /\ unit_done d o rest (zdrop n rest) (process d (ztake n rest) o dict).
Proof.
  intros Hb Hok Hsk Hsize Hl n. unfold n, unit_len in *.
  destruct (stage d) as [|k|f [b|]|c] eqn:Hst.
  - split; [pose proof (frame_header_len_range rest Hb); lia|]. by apply frame_header_unit_ok.
  - by destruct (Hsk k).
  - split; [|by apply (block_unit_ok d o rest f b)].
    pose proof (so_stage _ _ Hok) as H. rewrite Hst in H. destruct H as (_ & _ & H).
    destruct (H b eq_refl) as [_ _ ? _ _ _]. lia.
  - split; [done|]. by apply (block_header_unit_ok d o rest f).
  - split; [done|]. by apply (checksum_unit_ok d o rest c).
Qed.

(** The verdict on input that ends inside a unit. *)
Lemma end_of_input_ok d o rest : bytes rest -> state_ok d o -> (forall k, stage d = SSkip k -> zlen rest < k) ->
  zlen rest < unit_len d rest ->
  match end_of_input d rest with
  | Ok _ => remaining dict d o rest = Some (v_output o) /\ stage d = SFrameHeader /\ rest = []
  | Err _ => remaining dict d o rest = None
  | Fault | Stuck => False
  end.
Proof.
  intros Hb [_ Hs Hf] Hsk Hl. unfold end_of_input, unit_len, remaining in *.
  destruct (stage d) as [|k|f [b|]|c] eqn:Hst.
  - destruct rest as [|x l]; [done|]. set (rest := x :: l) in *. change (is_empty rest) with false. cbv iota.
    pose proof (frame_header_units_core rest Hb) as (_ & _ & Hshort).
    destruct (Hshort Hl) as (e & He & Hse).
    assert (all_frames dict (get_scratch d) rest (v_output o) = None) as Hnone.
    { rewrite all_frames_step by done. unfold ref_frame. by rewrite He, Hse. }
    destruct (zlen rest <? _); [done|]. by rewrite He.
  - specialize (Hsk k eq_refl). by rewrite (proj2 (Z.leb_gt k (zlen rest))) by lia.
  - by rewrite zslice_None by lia.
  - destruct Hf as (_ & [F1 F2 _ _] & _). unfold BLOCK_HEADER_LEN in Hl.
    assert (exists e, parse_block_header rest (block_size_max f) = Err e) as [e He].
    { unfold parse_block_header. rewrite zslice_None by lia. cbn. eauto. }
    rewrite He. rewrite ref_blocks_step, He. done.
  - unfold CHECKSUM_LEN in Hl. by rewrite zslice_None by lia.
Qed.

(** Skipping before a unit. *)
Lemma skip_ok d o rest : state_ok d o -> bytes rest ->
  let '(d', (n, _)) := skip d (zlen rest) in
  0 <= n <= zlen rest /\ state_ok d' o /\ remaining dict d' o (zdrop n rest) = remaining dict d o rest /\
  pending d' = pending d /\ (forall k, stage d' = SSkip k -> zdrop n rest = [] /\ 0 < k) /\
  (forall k, stage d = SSkip k -> pending d = 0).
Proof.
  intros Hok Hb. pose proof Hok as [Hd Hs Hf]. unfold skip. pose proof (zlen_nonneg rest) as Hnn.
  assert (forall k, stage d = SSkip k -> pending d = 0) as Hp by (intros k Hk; unfold pending; by rewrite Hk).
  destruct (stage d) as [|k|f h|c] eqn:Hst.
  1, 3, 4: split; [lia|]; split; [done|]; split; [done|]; split; [done|]; split; [|done];
    intros k Hk; rewrite Hst in Hk; discriminate Hk.
  destruct (Z.eqb_spec (k - Z.min k (zlen rest)) 0) as [Hz|Hz]; cbn [negb].
  - split; [lia|]. split; [split; cbn [set_stage stage]; done|].
    unfold remaining, pending, get_scratch. rewrite Hst. cbn [set_stage stage scratch].
    rewrite (proj2 (Z.leb_le k (zlen rest))) by lia. replace (Z.min k (zlen rest)) with k by lia.
    split; [done|]. split; [done|]. split; [intros ? [=]|done].
  - split; [lia|]. split; [split; cbn [set_stage stage]; done || lia|].
    unfold remaining, pending, get_scratch. rewrite Hst. cbn [set_stage stage scratch].
    replace (Z.min k (zlen rest)) with (zlen rest) by lia.
    rewrite (proj2 (Z.leb_gt k (zlen rest))) by lia.
    assert (zdrop (zlen rest) rest = []) as -> by (unfold zdrop, zlen; rewrite Nat2Z.id; by apply drop_ge).
    rewrite (proj2 (Z.leb_gt _ (zlen []))) by (rewrite zlen_nil; lia).
    split; [done|]. split; [done|]. split; [intros ? [= <-]; split; [done|lia]|done].
Qed.
End turns.

(** ** Room for a frame *)

Lemma locate_block_ok src bsm : bytes src -> 0 <= bsm ->
  returns (fun l => match l with
    | Some (b, content) => block_header_ok bsm b /\ zlen content = content_size b /\
        3 + zlen content <= zlen src
    | None => True
    end) (locate_block src bsm).
Proof.
  intros Hb Hbsm. unfold locate_block. destruct (zslice src 0 BLOCK_HEADER_LEN) as [head|] eqn:Hh; [|done].
  pose proof (bytes_slice _ _ _ _ Hb Hh) as Hhb.
  pose proof (parse_block_header_safe head bsm Hhb Hbsm) as Hp.
  destruct (parse_block_header head bsm) as [b|e| |]; cbn [safe] in Hp; try done.
  destruct Hp as [Hok _]. cbn [returns]. unfold BLOCK_HEADER_LEN in *.
  destruct (zslice src 3 _) as [content|] eqn:Hc; cbn; [|done].
  apply zslice_Some in Hc as (? & ? & _ & ?). split; [done|]. lia.
Qed.

(** At most 128 KiB for each block header. *)
Lemma blocks_decoded_bound_ok data bsm : bytes data -> 0 <= bsm <= MAX_BLOCK_SIZE ->
  returns (fun b => 0 <= b <= MAX_BLOCK_SIZE * zlen data) (blocks_decoded_bound data bsm).
Proof.
  intros Hb Hbsm. unfold blocks_decoded_bound.
  apply (returns_loopM (fun '(rest, bound) => bytes rest /\ zlen rest <= zlen data /\
      0 <= bound <= MAX_BLOCK_SIZE * (zlen data - zlen rest)) (fun '(rest, _) => length rest)).
  - unfold MAX_BLOCK_SIZE in *. split; [done|]. lia.
  - cbn. lia.
  - intros [rest bound] (Hr & Hl & Hbd). cbn [mbind res_bind].
    eapply returns_bind; [apply locate_block_ok; [done|lia]|].
    intros [[b content]|] Hloc; [|cbn; unfold MAX_BLOCK_SIZE in *; pose proof (zlen_nonneg rest); lia].
    destruct Hloc as ([_ Hd Hc _ _ _] & Hcl & Hle). unfold BLOCK_HEADER_LEN.
    pose proof (zlen_nonneg content). rewrite slice_from_ok by lia. cbn [mbind res_bind].
    assert (0 <= block_bound b bsm <= MAX_BLOCK_SIZE) as Hbb
      by (unfold block_bound; destruct (block_type b); lia).
    unfold saturating_add64. change (2 ^ 64 - 1) with 18446744073709551615.
    unfold MAX_BLOCK_SIZE in *.
    destruct (last_block b); cbn [returns]; [lia|]. rewrite zlen_zdrop by lia.
    split; [split; [by apply Forall_drop|lia]|]. unfold zlen in *. rewrite length_zdrop by (unfold zlen; lia). lia.
Qed.

(** The room of a frame: its blocks', and a block's. *)
Definition frame_room (blocks : list Z) : Z := MAX_BLOCK_SIZE * (zlen blocks + 2) + WILDCOPY_OVERLENGTH.

(** A frame asks the allocator once at most, for no more than that. *)
Lemma reserve_frame_ok output f blocks bs : bytes blocks -> zlen blocks < 2 ^ 45 -> frame_ok f bs ->
  (forall alloc, reserve_frame alloc output f blocks = Ok (zlen output)) \/
  exists want, want <= frame_room blocks /\
    forall alloc, reserve_frame alloc output f blocks =
      if alloc (zlen output) want : bool then Ok (zlen output + want) else Err (EReserveFailed want).
Proof.
  intros Hb Hl [F1 F2 _ _]. unfold reserve_frame. destruct (fr_content_size f) as [fcs|] eqn:Hfcs; [|by left].
  pose proof (zlen_nonneg blocks). change (2 ^ 45) with 35184372088832 in Hl.
  assert (returns (fun c => c <= MAX_BLOCK_SIZE * (zlen blocks + 1)) (if fits_one_block f then Ok fcs
    else b ← blocks_decoded_bound blocks (block_size_max f); Ok (Z.min fcs b))) as Hc.
  { unfold fits_one_block. rewrite Hfcs. unfold MAX_BLOCK_SIZE in *.
    destruct (Z.leb_spec fcs (block_size_max f)); [cbn; lia|].
    eapply returns_bind; [apply blocks_decoded_bound_ok; [done|unfold MAX_BLOCK_SIZE; lia]|].
    intros b Hbd. cbn. unfold MAX_BLOCK_SIZE in *. lia. }
  apply returns_inv in Hc as (c & -> & Hc). right. exists (c + (MAX_BLOCK_SIZE + WILDCOPY_OVERLENGTH)).
  split; [unfold frame_room; lia|]. intros alloc. cbn [mbind res_bind].
  rewrite (proj2 (Z.ltb_ge USIZE_MAX _)).
  2: { unfold USIZE_MAX, MAX_BLOCK_SIZE, WILDCOPY_OVERLENGTH in *. change (2 ^ 64 - 1) with 18446744073709551615. lia. }
  cbn [fail_if mbind res_bind]. by destruct (alloc _ _).
Qed.

(** ** The driver *)

Section data.
Context (dict : option DecodeDict) (data : list Z) (start : Z).
Hypothesis Hentropy : dict_entropy_ok (dict ≫= dd_entropy).
Hypothesis Hdict : zlen (dict_content dict) < 2 ^ 63.
Hypothesis Hdata : bytes data.
Hypothesis Hlen : zlen data < 2 ^ 45.
Hypothesis Hstart : 0 <= start <= 2 ^ 61.

(** The room decompression asks for. *)
Definition total_room : Z := start + MAX_BLOCK_SIZE * (zlen data + 2) + WILDCOPY_OVERLENGTH.

(** Between turns, with output in proportion to the input read. *)
Definition turn_inv (st : FrameDecoder * VecOut * Z) : Prop :=
  let '(d, o, pos) := st in
  0 <= pos <= zlen data /\ state_ok dict d o /\
  zlen (v_output o) + MAX_BLOCK_SIZE * pending d <= start + MAX_BLOCK_SIZE * pos /\
  zlen (v_output o) <= v_reserved o <= total_room.

Definition turn_left (st : FrameDecoder * VecOut * Z) : Z :=
  let '(d, o, pos) := st in 2 * (zlen data - pos) + pending d.

Definition turn_remaining (st : FrameDecoder * VecOut * Z) : option (list Z) :=
  let '(d, o, pos) := st in remaining dict d o (zdrop pos data).

(** The end of the input, when the reference's verdict on it is [r]. *)
Definition ended (r : option (list Z)) (d : FrameDecoder) (o : VecOut) : Prop :=
  r = Some (v_output o) /\ stage d = SFrameHeader /\ state_ok dict d o /\
  zlen (v_output o) <= start + MAX_BLOCK_SIZE * zlen data /\ zlen (v_output o) <= v_reserved o <= total_room.

(** What a turn makes of a state. *)
Definition turn_ok (st : FrameDecoder * VecOut * Z) (m : dec (FrameDecoder * VecOut * Z + FrameDecoder * VecOut)) : Prop :=
  match m with
  | Ok (inl st') => turn_inv st' /\ turn_remaining st' = turn_remaining st /\ turn_left st' < turn_left st
  | Ok (inr (d, o)) => ended (turn_remaining st) d o
  | Err _ => turn_remaining st = None
  | Fault | Stuck => False
  end.

Lemma pending_range d : 0 <= pending d <= 1.
Proof. unfold pending. destruct (stage d) as [| |? [|]|]; lia. Qed.

(** The output with more room is in the same state. *)
Lemma roomed_inv d o pos room : turn_inv (d, o, pos) -> room <= total_room ->
  turn_inv (d, MkVecOut (v_output o) (v_prefix o) (v_dict o) (Z.max (v_reserved o) room), pos).
Proof.
  intros (H1 & [H2 H3 H4] & H5 & H6) Hroom. split; [done|]. split.
  { split; [done|done|]. cbn [v_output v_prefix v_dict]. destruct (stage d); try done. destruct H4 as ([? ? ?] & ? & ?). by split_and!. }
  split; [done|]. cbn [v_output v_reserved]. lia.
Qed.

(** A turn asks the allocator for room once at most, within the bound, and
    does not depend on it otherwise. *)
Lemma frames_turn_asks st : turn_inv st -> exists ask m,
  (forall n want, ask = Some (n, want) -> n + want <= total_room) /\ turn_ok st m /\
  forall alloc, frames_turn alloc data dict st =
    match ask with
    | Some (n, want) => if alloc n want : bool then m else Err (EReserveFailed want)
    | None => m
    end.
Proof.
  destruct st as [[d o] pos]. intros (Hpos & Hok & Hout & Hres). unfold frames_turn, turn_ok, turn_remaining, turn_left.
  rewrite slice_from_ok by lia. cbn [mbind res_bind].
  set (rest0 := zdrop pos data). assert (zlen rest0 = zlen data - pos) as Hl0 by (apply zlen_zdrop; lia).
  pose proof (skip_ok dict d o rest0 Hok ltac:(by apply Forall_drop)) as Hskip.
  destruct (skip d (zlen rest0)) as [d1 [n b]]. destruct Hskip as (Hn & Hok1 & Hrem & Hp & Hsk & _).
  rewrite <- Hrem, <- Hp in *. rewrite slice_from_ok by lia. cbn [mbind res_bind].
  assert (zdrop (pos + n) data = zdrop n rest0) as ->.
  { unfold rest0, zdrop. rewrite drop_drop. f_equal. lia. }
  set (rest := zdrop n rest0) in *. assert (zlen rest = zlen data - pos - n) as Hl by (unfold rest; rewrite zlen_zdrop; lia).
  assert (bytes rest) as Hb by by do 2 apply Forall_drop.
  pose proof (pending_range d1) as Hpr.
  destruct (Z.ltb_spec (zlen rest) (unit_len d1 rest)) as [Hlt|Hge].
  - pose proof (end_of_input_ok dict d1 o rest Hb Hok1) as He.
    specialize (He ltac:(intros k Hk; destruct (Hsk k Hk) as [-> ?]; rewrite zlen_nil; lia) Hlt).
    destruct (end_of_input d1 rest) as [[]|e| |]; cbn [mbind res_bind]; try done; exists None; eexists; (split; [done|split; [|done]]); [|done].
    destruct He as (-> & Hs & _). split; [done|]. split; [done|]. split; [done|].
    split; [unfold MAX_BLOCK_SIZE in *; lia|done].
  - assert (zlen (v_output o) + vec_room < 2 ^ 63) as Hroom.
    { unfold vec_room, MAX_BLOCK_SIZE, WILDCOPY_OVERLENGTH in *. change (2 ^ 45) with 35184372088832 in Hlen.
      change (2 ^ 61) with 2305843009213693952 in Hstart. change (2 ^ 63) with 9223372036854775808. lia. }
    pose proof (unit_ok dict Hentropy Hdict d1 o rest Hb Hok1) as Hu.
    assert (forall k, stage d1 <> SSkip k) as Hns.
    { intros k Hk. destruct (Hsk k Hk) as [Hr Hk0]. unfold unit_len in Hge. rewrite Hk, Hr, zlen_nil in Hge. lia. }
    specialize (Hu Hns Hroom Hge). destruct Hu as [Hun Hu]. set (len := unit_len d1 rest) in *.
    rewrite slice_prefix by lia. cbn [mbind res_bind]. unfold unit_done in Hu.
    destruct (process d1 (ztake len rest) o dict) as [[[d2 o2] ev]|e| |]; cbn [mbind res_bind]; try done;
      [|exists None; eexists; split; [done|split; [|done]]; done].
    destruct Hu as (Hok2 & Hrem2 & [Hlo [Hr1 Hr2]] & Hm & Hstarted). pose proof (pending_range d2) as Hpr2.
    assert (zdrop (pos + n + len) data = zdrop len rest) as Hdrop.
    { unfold rest, rest0, zdrop. rewrite !drop_drop. f_equal. lia. }
    assert (turn_inv (d2, o2, pos + n + len) /\
      remaining dict d2 o2 (zdrop (pos + n + len) data) = remaining dict d1 o rest /\
      2 * (zlen data - (pos + n + len)) + pending d2 < 2 * (zlen data - pos) + pending d1) as Hnext.
    { rewrite Hdrop. rewrite zlen_zdrop in Hlo, Hm by lia. specialize (Hr2 (proj1 Hres)).
      unfold total_room, vec_room, MAX_BLOCK_SIZE in *. split; [|split; [done|lia]].
      split; [lia|]. split; [done|]. split; [unfold MAX_BLOCK_SIZE; lia|]. unfold total_room, MAX_BLOCK_SIZE. lia. }
    destruct (bool_decide_reflect (ev = FrameStarted)) as [Hev|Hev]; cbn [negb];
      [|exists None; eexists; split; [done|split; [|done]]; done].
    destruct (Hstarted Hev) as (f & ws & Hsf & Hws). unfold frame_start. rewrite Hsf, Hws. cbn [mbind res_bind].
    destruct Hnext as (Hinv & Hr & Hm2). pose proof Hinv as ((P1 & P2) & Hok3 & Hout3 & Hres3).
    pose proof (so_stage _ _ _ Hok3) as Hst2. rewrite Hsf in Hst2. destruct Hst2 as (_ & Hfok & _).
    rewrite slice_from_ok by lia. cbn [mbind res_bind].
    destruct (reserve_frame_ok (v_output o2) f (zdrop (pos + n + len) data) (frame_content o2)
      (Forall_drop _ _ _ Hdata) ltac:(rewrite zlen_zdrop; lia) Hfok) as [Hno|(want & Hwant & Hask)].
    + exists None. eexists. split; [done|]. split; [|intros alloc; by rewrite Hno]. cbn [mbind res_bind].
      split; [|by split]. apply (roomed_inv d2 o2); [done|]. pose proof (zlen_nonneg (v_output o2)). lia.
    + assert (zlen (v_output o2) + want <= total_room) as Hw.
      { unfold frame_room in Hwant. rewrite zlen_zdrop in Hwant by lia. unfold total_room, MAX_BLOCK_SIZE in *. lia. }
      exists (Some (zlen (v_output o2), want)). eexists. split; [by intros ? ? [= <- <-]|].
      split; [|intros alloc; rewrite Hask; by destruct (alloc _ _)].
      split; [|by split]. by apply (roomed_inv d2 o2).
Qed.

(** Allocators that agree within the bound give the same run. *)
Lemma frames_loop_agree alloc alloc' fuel :
  (forall n want, n + want <= total_room -> alloc n want = alloc' n want) ->
  forall st, turn_inv st -> loopM fuel (frames_turn alloc data dict) st = loopM fuel (frames_turn alloc' data dict) st.
Proof.
  intros Hagree. induction fuel as [|fuel IH]; intros st Hinv; [done|]. cbn [loopM].
  destruct (frames_turn_asks st Hinv) as (ask & m & Hbound & Hm & Hf). rewrite !Hf.
  assert (match ask with Some (n, want) => if alloc n want then m else Err (EReserveFailed want) | None => m end =
    match ask with Some (n, want) => if alloc' n want then m else Err (EReserveFailed want) | None => m end) as ->.
  { destruct ask as [[n want]|]; [|done]. by rewrite (Hagree n want) by by apply Hbound. }
  assert (turn_ok st m -> forall r, r = m \/ (exists e, r = Err e) -> match r with Ok (inl st') => turn_inv st' | _ => True end) as Hnext.
  { intros Hm' r [->|[e ->]]; [|done]. destruct m as [[st'|?]|e| |]; try done. by destruct Hm'. }
  set (r := match ask with Some _ => _ | None => _ end).
  specialize (Hnext Hm r ltac:(unfold r; destruct ask as [[n want]|]; [destruct (alloc' n want)|]; eauto)).
  destruct r as [[st'|?]|e| |]; cbn [mbind res_bind]; [by apply IH|done..].
Qed.

Section driver.
Context (try_reserve : Z -> Z -> bool).

(** An allocation the system refused. *)
Definition reserve_failed (e : DecodeError) : Prop :=
  exists n want, e = EReserveFailed want /\ try_reserve n want = false.

(** The verdict on the input, when the reference's is [r]. *)
Definition verdict (r : option (list Z)) (m : dec (FrameDecoder * VecOut)) : Prop :=
  match m with
  | Ok (d, o) => ended r d o
  | Err e => r = None \/ reserve_failed e
  | Fault | Stuck => False
  end.

Lemma frames_loop_ok fuel : forall st, turn_inv st -> turn_left st < Z.of_nat fuel ->
  verdict (turn_remaining st) (loopM fuel (frames_turn try_reserve data dict) st).
Proof.
  induction fuel as [|fuel IH]; intros st Hinv Hm.
  { destruct st as [[d o] pos]. destruct Hinv as (? & _). cbn in Hm. pose proof (pending_range d). lia. }
  cbn [loopM]. destruct (frames_turn_asks st Hinv) as (ask & m & Hbound & Hok & ->).
  assert (verdict (turn_remaining st) (r ← m; match r with inl st' => loopM fuel (frames_turn try_reserve data dict) st' | inr b => Ok b end)) as Hgo.
  { destruct m as [[st'|[d o]]|e| |]; cbn [mbind res_bind turn_ok] in *; [|done|by left|done..].
    destruct Hok as (Hinv' & <- & Hlt). apply IH; [done|lia]. }
  destruct ask as [[n want]|]; [|exact Hgo]. destruct (try_reserve n want) eqn:Ht; [exact Hgo|].
  cbn. right. eexists _, _. by split.
Qed.
End driver.
End data.
