(* ===== verification/Decompress.v ===== *)
(** * One-shot decompression

    The properties of [decompress_with_dict_options] as a whole: it refines
    the reference on every input, with either SIMD level, its output is
    bounded by the input, and what a frame says of itself holds of its
    content. *)

From S2P Require Import Prelude Words Constants Xxh64 Errors FseTable Headers HeaderUnits SeqTables.
From S2P Require Import HufTable Copy SeqExec SeqDecode BlockDecode DecodeDict Frame.
From S2P Require Import FrameRef FrameProofs FrameWrite.

(** A dictionary to decode with. *)
Definition usable (dict : option DecodeDict) : Prop :=
  forall d, dict = Some d -> dict_ok d /\ zlen (dd_content d) < 2 ^ 63.

Lemma usable_entropy dict : usable dict -> dict_entropy_ok (dict ≫= dd_entropy).
Proof.
  intros H e He. destruct dict as [d|]; [|done]. destruct (H d eq_refl) as [[_ _ Ht] _].
  by apply Ht.
Qed.

Lemma usable_content dict : usable dict -> zlen (dict_content dict) < 2 ^ 63.
Proof. intros H. destruct dict as [d|]; [by apply H|done]. Qed.

(** The state [decompress_frames] starts from. *)
Lemma first_turn d data dict output e : zlen output <= 2 ^ 61 -> usable dict ->
  stage d = SFrameHeader -> scratch_ok e (get_scratch d) ->
  turn_inv dict data (zlen output) (d, MkVecOut output (MkPrefix 0 0) (dict_content dict) (zlen output), 0).
Proof.
  intros Ho Hu Hst Hs. pose proof (zlen_nonneg output). pose proof (zlen_nonneg data). split; [lia|]. split.
  - split; rewrite ?Hst; [done|by exists e|done].
  - unfold pending, total_room, MAX_BLOCK_SIZE, WILDCOPY_OVERLENGTH. rewrite Hst. cbn. lia.
Qed.

Lemma decompress_frames_ok try_reserve d data dict output e :
  usable dict -> bytes data -> zlen data < 2 ^ 45 -> zlen output <= 2 ^ 61 ->
  stage d = SFrameHeader -> scratch_ok e (get_scratch d) ->
  match decompress_frames try_reserve d data dict output with
  | Ok (d', o) => ref_frames (S (length data)) dict (get_scratch d) data output = Some (v_output o) /\
      stage d' = SFrameHeader /\ (exists e', scratch_ok e' (get_scratch d')) /\
      zlen (v_output o) <= zlen output + MAX_BLOCK_SIZE * zlen data /\
      zlen (v_output o) <= v_reserved o <= total_room data (zlen output)
  | Err e => ref_frames (S (length data)) dict (get_scratch d) data output = None \/
      reserve_failed try_reserve e
  | Fault | Stuck => False
  end.
Proof.
  intros Hu Hb Hl Ho Hst Hs. unfold decompress_frames. pose proof (zlen_nonneg output) as Hnn.
  pose proof (first_turn d data dict output e Ho Hu Hst Hs) as Hinv. unfold dict_content in Hinv.
  set (o := MkVecOut _ _ _ _) in *.
  pose proof (frames_loop_ok dict data (zlen output) (usable_entropy dict Hu) (usable_content dict Hu)
    Hb Hl (conj Hnn Ho) try_reserve (2 * length data + 2) (d, o, 0) Hinv) as H.
  unfold turn_left, pending in H. rewrite Hst in H.
  specialize (H ltac:(unfold zlen; lia)). unfold turn_remaining, remaining in H. rewrite Hst in H.
  change (zdrop 0 data) with data in H. unfold verdict in H.
  destruct (loopM _ _ _) as [[d' o']|err| |]; try done.
  destruct H as (Href & Hst' & [_ Hs' _] & Hbd & Hroom). rewrite Hst' in Hs'. split; [exact Href|]. done.
Qed.

(** What [data] decodes to. *)
Definition ref_decompress (dict : option DecodeDict) (data : list Z) : option (list Z) :=
  ref_frames (S (length data)) dict scratch_new data [].

Lemma take_output_content buf : (take_output buf).1 = buf.
Proof. unfold take_output. by destruct (_ <? _). Qed.

Lemma decompress_ok try_reserve data dict simd : usable dict -> bytes data -> zlen data < 2 ^ 45 ->
  match decompress_with_dict_options try_reserve data dict simd with
  | Ok out => ref_decompress dict data = Some out /\ zlen out <= MAX_BLOCK_SIZE * zlen data
  | Err e => ref_decompress dict data = None \/ reserve_failed try_reserve e
  | Fault | Stuck => False
  end.
Proof.
  intros Hu Hb Hl. unfold decompress_with_dict_options.
  pose proof (decompress_frames_ok try_reserve (decoder_new simd) data dict [] None Hu Hb Hl
    ltac:(by vm_compute) eq_refl (scratch_new_ok None)) as H.
  destruct (decompress_frames _ _ _ _ _) as [[d out]|e| |]; cbn [mbind res_bind]; try done.
  rewrite take_output_content. destruct H as (H1 & _ & _ & H2 & _). split; [exact H1|].
  rewrite zlen_nil in H2. lia.
Qed.

(** C2: Decompression is the format's, on every input. For any bytes shorter
    than 2^45, with any parsed dictionary or none, at either SIMD level,
    [decompress_with_dict_options] never panics, never leaves a buffer and
    its loop ends within its fuel. If it returns content, that is what the
    reference decodes, frame by frame on plain lists (headers, literals by
    prefix code, sequences byte by byte, declared sizes, checksums); if it
    returns an error, the reference decodes nothing, unless the system
    refused an allocation. *)
Theorem decompress_correct try_reserve data dict simd :
  usable dict -> bytes data -> zlen data < 2 ^ 45 ->
  match decompress_with_dict_options try_reserve data dict simd with
  | Ok out => ref_decompress dict data = Some out
  | Err e => ref_decompress dict data = None \/
      exists n want, e = EReserveFailed want /\ try_reserve n want = false
  | Fault | Stuck => False
  end.
Proof.
  intros Hu Hb Hl. pose proof (decompress_ok try_reserve data dict simd Hu Hb Hl) as H.
  by destruct (decompress_with_dict_options _ _ _ _); destruct_and?.
Qed.

(** A frame of one compressed block with a checksum, and a skippable frame. *)
Definition sample : list Z :=
  [0x28; 0xB5; 0x2F; 0xFD; 0x24; 18] ++
  [0x65; 0; 0] ++ [0x28; 97; 98; 99; 100; 101; 1; 0x54; 5; 2; 10; 6] ++
  le_bytes 4 (wrap 32 (xxh64 [97; 98; 99; 100; 101; 99; 100; 101; 99; 100; 101; 99; 100; 101; 99; 100; 101; 99])) ++
  [0x51; 0x2A; 0x4D; 0x18; 2; 0; 0; 0; 7; 7].

Lemma sample_bytes : bytes sample.
Proof.
  unfold sample. repeat (apply Forall_app; split); try solve_bytes. apply le_bytes_bytes.
Qed.

Lemma sample_size : zlen sample < 2 ^ 45.
Proof. by vm_compute. Qed.

Lemma no_dict_usable : usable None.
Proof. intros d Hd. discriminate Hd. Qed.

Lemma decompress_correct_witness :
  decompress_with_dict_options (fun _ _ => true) sample None LFallback =
    Ok [97; 98; 99; 100; 101; 99; 100; 101; 99; 100; 101; 99; 100; 101; 99; 100; 101; 99].
Proof.
  pose proof (decompress_correct (fun _ _ => true) sample None LFallback no_dict_usable sample_bytes
    sample_size) as H.
  assert (ref_decompress None sample =
    Some [97; 98; 99; 100; 101; 99; 100; 101; 99; 100; 101; 99; 100; 101; 99; 100; 101; 99]) as Href
    by (vm_compute; reflexivity).
  rewrite Href in H. destruct (decompress_with_dict_options _ _ _ _) as [out|e| |]; [|exfalso..].
  - injection H as <-. reflexivity.
  - destruct H as [H|(n & want & _ & H)]; discriminate H.
  - exact H.
  - exact H.
Defined.

(** Two allocators that answer alike to every request for room up to a length
    of [n] bytes. *)
Definition agree_up_to (n : Z) (alloc alloc' : Z -> Z -> bool) : Prop :=
  forall len want, len + want <= n -> alloc len want = alloc' len want.

(** C12: The output buffer of a decompression is bounded by the input,
    whatever the frames' headers claim. No header makes it ask the allocator for an output
    of more than 128 KiB for each byte of the input, 256 KiB more and the
    slack of the wide copies: two allocators that differ only in their answers
    to larger requests give the same run, on inputs that fail as well. When
    the run returns, its content has at most 128 KiB for each byte of the
    input, and the room reserved for it, the blocks' own included, holds it
    and is within that same bound. *)
Theorem decompress_bounded alloc alloc' data dict simd :
  usable dict -> bytes data -> zlen data < 2 ^ 45 ->
  let room := MAX_BLOCK_SIZE * (zlen data + 2) + WILDCOPY_OVERLENGTH in
  agree_up_to room alloc alloc' ->
  decompress_frames alloc (decoder_new simd) data dict [] = decompress_frames alloc' (decoder_new simd) data dict [] /\
  decompress_with_dict_options alloc data dict simd = decompress_with_dict_options alloc' data dict simd /\
  match decompress_frames alloc (decoder_new simd) data dict [] with
  | Ok (_, o) => decompress_with_dict_options alloc data dict simd = Ok (v_output o) /\
      zlen (v_output o) <= MAX_BLOCK_SIZE * zlen data /\ zlen (v_output o) <= v_reserved o <= room
  | _ => True
  end.
Proof.
  intros Hu Hb Hl room Hagree.
  assert (decompress_frames alloc (decoder_new simd) data dict [] = decompress_frames alloc' (decoder_new simd) data dict []) as Heq.
  { unfold decompress_frames. change (zlen (@nil Z)) with 0.
    apply (frames_loop_agree dict data 0 (usable_entropy dict Hu) (usable_content dict Hu) Hb Hl ltac:(split; by vm_compute)).
    - intros n want Hn. apply Hagree. unfold total_room in Hn. unfold room. lia.
    - apply (first_turn (decoder_new simd) data dict [] None); [by vm_compute|done|done|apply scratch_new_ok]. }
  split; [done|]. unfold decompress_with_dict_options. rewrite <- Heq. split; [done|].
  pose proof (decompress_frames_ok alloc (decoder_new simd) data dict [] None Hu Hb Hl
    ltac:(by vm_compute) eq_refl (scratch_new_ok None)) as H.
  destruct (decompress_frames _ _ _ _ _) as [[d o]|e| |]; cbn [mbind res_bind]; try done.
  destruct H as (_ & _ & _ & H1 & H2). rewrite take_output_content. split; [done|].
  unfold total_room in H2. rewrite zlen_nil in *. unfold room. lia.
Qed.

(** A system that grants less than 100 blocks gives the run one that grants
    everything does. *)
Definition up_to_100_blocks (len want : Z) : bool := len + want <? MAX_BLOCK_SIZE * 100.

Lemma decompress_bounded_witness :
  decompress_with_dict_options up_to_100_blocks sample None LAvx2 =
    decompress_with_dict_options (fun _ _ => true) sample None LAvx2.
Proof.
  assert (agree_up_to (MAX_BLOCK_SIZE * (zlen sample + 2) + WILDCOPY_OVERLENGTH) up_to_100_blocks (fun _ _ => true)) as Ha.
  { intros len want Hn. apply Z.ltb_lt. assert (zlen sample <= 90) by by vm_compute.
    unfold MAX_BLOCK_SIZE, WILDCOPY_OVERLENGTH in *. lia. }
  pose proof (decompress_bounded up_to_100_blocks (fun _ _ => true) sample None LAvx2 no_dict_usable sample_bytes sample_size Ha) as (_ & H & _).
  exact H.
Defined.

(** C7: The SIMD level is no part of the result. Whatever the copies the
    two levels pick for each block, the runs of both return the same content
    or both an error, unless an allocation was refused. *)
Theorem simd_levels_agree try_reserve data dict simd simd' :
  usable dict -> bytes data -> zlen data < 2 ^ 45 ->
  match decompress_with_dict_options try_reserve data dict simd,
        decompress_with_dict_options try_reserve data dict simd' with
  | Ok a, Ok b => a = b
  | Err _, Err _ => True
  | Ok _, Err e | Err e, Ok _ => exists n want, e = EReserveFailed want /\ try_reserve n want = false
  | _, _ => False
  end.
Proof.
  intros Hu Hb Hl. pose proof (decompress_ok try_reserve data dict simd Hu Hb Hl) as H1.
  pose proof (decompress_ok try_reserve data dict simd' Hu Hb Hl) as H2.
  destruct (decompress_with_dict_options try_reserve data dict simd) as [a|e| |];
    destruct (decompress_with_dict_options try_reserve data dict simd') as [b|e'| |]; try done.
  - destruct H1 as [H1 _], H2 as [H2 _]. congruence.
  - destruct H1 as [H1 _], H2 as [H2|H2]; [congruence|exact H2].
  - destruct H1 as [H1|H1], H2 as [H2 _]; [congruence|exact H1].
Qed.

Lemma simd_levels_agree_witness : exists out,
  decompress_with_dict_options (fun _ _ => true) sample None LAvx2 = Ok out /\
  decompress_with_dict_options (fun _ _ => true) sample None LFallback = Ok out.
Proof.
  pose proof (simd_levels_agree (fun _ _ => true) sample None LAvx2 LFallback no_dict_usable sample_bytes
    sample_size) as H.
  pose proof (decompress_ok (fun _ _ => true) sample None LAvx2 no_dict_usable sample_bytes
    sample_size) as H1.
  assert (ref_decompress None sample <> None) as Hne by (vm_compute; discriminate).
  destruct (decompress_with_dict_options _ sample None LAvx2) as [a|e| |];
    [|exfalso; destruct H1 as [H1|(n & want & _ & H1)]; [exact (Hne H1)|discriminate H1]|destruct H1..].
  exists a. split; [reflexivity|].
  destruct (decompress_with_dict_options _ sample None LFallback) as [b|e| |];
    [by rewrite H|exfalso; destruct H as (n & want & _ & H); discriminate H|destruct H..].
Defined.

(** ** What a frame says of itself *)

Lemma ref_frames_acc n dict : forall ws data acc out,
  ref_frames n dict ws data acc = Some out -> exists more, out = acc ++ more.
Proof.
  induction n as [|n IH]; intros ws data acc out; [done|]. cbn [ref_frames].
  destruct (is_empty data); [intros [= <-]; exists []; by rewrite app_nil_r|].
  destruct (ref_frame _ _ _) as [[[content rest] ws']|]; cbn [mbind option_bind]; [|done].
  intros H. apply IH in H as [more ->]. exists (content ++ more). by rewrite app_assoc.
Qed.

(** C5: Content is only returned if the frame's claims hold. When input
    that starts with a frame decodes, the dictionary the frame names is the
    one given, the output starts with that frame's content, the content's
    length is the Frame_Content_Size if the header has one, and if it has a
    checksum, four bytes of the input hold the low 32 bits of the content's
    XXH64. Every other frame is an error. *)
Theorem frame_claims_checked try_reserve data dict simd header pos out :
  usable dict -> bytes data -> zlen data < 2 ^ 45 ->
  parse_frame_header data = Ok (header, pos) ->
  decompress_with_dict_options try_reserve data dict simd = Ok out ->
  (dict_id header = 0 \/ exists d, dict = Some d /\ dd_id d = dict_id header) /\
  exists content more, out = content ++ more /\
    (forall n, frame_content_size header = Some n -> zlen content = n) /\
    (content_checksum_flag (descriptor header) = true -> exists k s,
       pos < k /\ zslice data k (k + 4) = Some s /\ le_val s = wrap 32 (xxh64 content)).
Proof.
  intros Hu Hb Hl Hparse Hok. pose proof (decompress_ok try_reserve data dict simd Hu Hb Hl) as H.
  rewrite Hok in H. destruct H as [H _]. unfold ref_decompress in H. cbn [ref_frames] in H.
  pose proof (parse_frame_header_ok data Hb) as Hv. rewrite Hparse in Hv. destruct Hv as (Hpos & Hle & _).
  pose proof (frame_header_len_range data Hb) as Hr.
  destruct data as [|x data']; [discriminate Hparse|]. set (data := x :: data') in *.
  change (is_empty data) with false in H. cbv iota in H. unfold ref_frame in H. rewrite Hparse in H.
  unfold ref_content in H.
  destruct (window_size header) as [w|?| |]; cbn [to_option mbind option_bind] in H; try done.
  destruct (dict_wrong (dict_id header) dict) as [[]|?| |] eqn:Hdw; cbn [to_option mbind option_bind] in H; try done.
  destruct (ref_blocks _ _ _ _ _ _ _) as [[[h r] ws']|] eqn:Hblocks; cbn [mbind option_bind] in H; [|done].
  apply ref_blocks_shorter in Hblocks as (H3 & k & Hk & ->).
  set (content := zdrop (zlen (dict_content dict)) h) in *.
  destruct (ref_finish _ _ _ _) as [rest|] eqn:Hf; cbn [mbind option_bind] in H; [|done].
  apply ref_frames_acc in H as [more ->]. split.
  { unfold dict_wrong in Hdw. destruct (Z.eqb_spec (dict_id header) 0); [by left|]. right.
    destruct dict as [d|]; [|done]. destruct (Z.eqb_spec (dict_id header) (dd_id d)); [|done]. by exists d. }
  exists content, more. split; [done|]. unfold ref_finish in Hf. split.
  - intros n Hn. rewrite Hn in Hf. destruct (Z.eqb_spec (zlen content) n); done.
  - intros Hc. rewrite Hc in Hf. destruct (match frame_content_size header with Some _ => _ | None => _ end); [done|].
    rewrite zlen_zdrop in Hk, H3 by lia. rewrite zlen_zdrop in H3 by (rewrite zlen_zdrop; lia).
    rewrite zlen_zdrop in H3 by lia.
    destruct (zslice _ 0 4) as [s|] eqn:Hs; cbn [mbind option_bind] in Hf; [|done].
    apply zslice_Some in Hs as (_ & Hs4 & -> & _).
    rewrite zlen_zdrop in Hs4 by (rewrite zlen_zdrop; lia). rewrite zlen_zdrop in Hs4 by lia.
    destruct (Z.eqb_spec (le_val (ztake (4 - 0) (zdrop 0 (zdrop k (zdrop pos data))))) (wrap 32 (xxh64 content)));
      [|done].
    exists (pos + k). eexists. split; [lia|]. split; [apply zslice_ok; lia|].
    replace (pos + k + 4 - (pos + k)) with (4 - 0) by lia.
    replace (zdrop (pos + k) data) with (zdrop 0 (zdrop k (zdrop pos data))); [done|].
    unfold zdrop. rewrite !drop_drop. f_equal. lia.
Qed.

Lemma frame_claims_checked_witness : exists content more,
  [97; 98; 99; 100; 101; 99; 100; 101; 99; 100; 101; 99; 100; 101; 99; 100; 101; 99] = content ++ more /\
  zlen content = 18.
Proof.
  pose proof (decompress_ok (fun _ _ => true) sample None LAvx2 no_dict_usable sample_bytes
    sample_size) as H.
  assert (ref_decompress None sample =
    Some [97; 98; 99; 100; 101; 99; 100; 101; 99; 100; 101; 99; 100; 101; 99; 100; 101; 99]) as Href
    by (vm_compute; reflexivity).
  rewrite Href in H.
  destruct (decompress_with_dict_options _ sample None LAvx2) as [out|e| |] eqn:E;
    [|exfalso; destruct H as [H|(n & want & _ & H)]; discriminate H|destruct H..].
  destruct H as [H _]. injection H as H. subst out.
  assert (parse_frame_header sample = Ok (MkFrameHeader (MkDescriptor 0x24) 0 (Some 18) 0, 6)) as Hp
    by (vm_compute; reflexivity).
  destruct (frame_claims_checked (fun _ _ => true) sample None LAvx2 _ _ _ no_dict_usable sample_bytes
    sample_size Hp E) as (_ & content & more & Hout & Hsize & _).
  exists content, more. split; [exact Hout|]. exact (Hsize 18 eq_refl).
Defined.
