(* ===== verification/FrameEmit.v ===== *)
(** * Frames the encoder emits ([src/compress/block.rs], [src/compress/mod.rs])

    The block-type decision with its run-length test, the frame's epilogue,
    and the round trip of a whole frame through the decoder. How a block's
    payload is coded is left open here ([BlockEncode] codes it and commits what
    it leaves in the coder's state): the round trip holds of every payload
    that the decoder's reference reads as the block. *)

From S2P Require Import Prelude Words Constants Xxh64 Errors FseTable FseBuild Headers HeaderUnits SeqTables.
From S2P Require Import HufTable HufFill Copy SeqExec BlockDecode DecodeDict Frame.
From S2P Require Import FrameRef FrameProofs FrameWrite Decompress.

(** ** The run-length test *)

(** [chunk.as_chunks::<8>().0] of 32 bytes. *)
Definition words8 (chunk : list Z) : list (list Z) :=
  [ztake 8 chunk; ztake 8 (zdrop 8 chunk); ztake 8 (zdrop 16 chunk); ztake 8 (zdrop 24 chunk)].

(** The [fold] over a chunk's words. The byte order of [from_ne_bytes] does
    not matter to it; little-endian here. *)
Definition chunk_diff (splat : Z) (chunk : list Z) : Z :=
  foldl (fun diff word => Z.lor diff (Z.lxor (le_val word) splat)) 0 (words8 chunk).

(** [is_rle]. *)
Definition is_rle (data : list Z) : bool :=
  match zget data 0 with
  | None => false
  | Some first =>
      let splat := le_val (zrepeat first 8) in
      let '(chunks, rest) := chunks32 data in
      forallb (fun chunk => chunk_diff splat chunk =? 0) chunks && forallb (fun b => b =? first) rest
  end.

Lemma lor_zero a b : 0 <= a -> 0 <= b -> Z.lor a b = 0 <-> a = 0 /\ b = 0.
Proof. intros. apply Z.lor_eq_0_iff. Qed.

Lemma word_splat w x : bytes w -> zlen w = 8 -> is_byte x ->
  Z.lxor (le_val w) (le_val (zrepeat x 8)) = 0 <-> Forall (fun b => b = x) w.
Proof.
  intros Hw Hl Hx. rewrite Z.lxor_eq_0_iff. split.
  - intros He. assert (w = zrepeat x 8) as ->.
    { rewrite <- (le_bytes_le_val w Hw), He. unfold zlen in Hl. replace (length w) with 8%nat by lia.
      change 8%nat with (length (zrepeat x 8)). apply le_bytes_le_val. by apply Forall_zrepeat. }
    by apply Forall_zrepeat.
  - intros Hf. f_equal. apply zlist_eq; [rewrite zlen_zrepeat; lia|]. intros i Hi.
    destruct (zget_is_Some w i Hi) as [b Hb]. rewrite Hb, zget_zrepeat by lia. f_equal. by eapply (Forall_zget (fun b => b = x)).
Qed.

Lemma words_split (P : Z -> Prop) s : zlen s = 32 ->
  Forall P s <-> Forall (Forall P) (words8 s).
Proof.
  intros Hl. unfold words8. rewrite !Forall_cons, Forall_nil.
  assert (s = ztake 8 s ++ ztake 8 (zdrop 8 s) ++ ztake 8 (zdrop 16 s) ++ ztake 8 (zdrop 24 s)) as Hs.
  { unfold ztake, zdrop, zlen in *.
    do 32 (destruct s as [|? s]; [cbn in Hl; lia|]). destruct s; [done|cbn [length] in Hl; lia]. }
  rewrite Hs at 1. rewrite !Forall_app. tauto.
Qed.

Lemma chunk_diff_zero s x : bytes s -> zlen s = 32 -> is_byte x ->
  chunk_diff (le_val (zrepeat x 8)) s = 0 <-> Forall (fun b => b = x) s.
Proof.
  intros Hs Hl Hx. rewrite (words_split _ s Hl). unfold chunk_diff, words8. cbn [foldl].
  rewrite !Forall_cons, Forall_nil, !Z.lor_eq_0_iff.
  assert (forall n, 0 <= n <= 24 -> bytes (ztake 8 (zdrop n s)) /\ zlen (ztake 8 (zdrop n s)) = 8) as Hw.
  { intros n Hn. split; [by apply Forall_take, Forall_drop|]. rewrite zlen_ztake; [done|].
    rewrite zlen_zdrop; lia. }
  destruct (Hw 0 ltac:(lia)) as [B0 L0]. destruct (Hw 8 ltac:(lia)) as [B1 L1].
  destruct (Hw 16 ltac:(lia)) as [B2 L2]. destruct (Hw 24 ltac:(lia)) as [B3 L3].
  change (zdrop 0 s) with s in *.
  rewrite (word_splat _ x B0 L0 Hx), (word_splat _ x B1 L1 Hx), (word_splat _ x B2 L2 Hx),
    (word_splat _ x B3 L3 Hx). tauto.
Qed.

Lemma chunks_all x : is_byte x -> forall l, bytes l ->
  (let '(chunks, rest) := chunks32 l in
   forallb (fun chunk => chunk_diff (le_val (zrepeat x 8)) chunk =? 0) chunks &&
   forallb (fun b => b =? x) rest) = true <-> Forall (fun b => b = x) l.
Proof.
  intros Hx. refine (stripe_ind _ _ _).
  - intros l Hl Hb. rewrite chunks32_small by done. cbn [forallb andb].
    rewrite forallb_forall, Forall_forall. split.
    + intros H b Hin. apply Z.eqb_eq, H. by apply list_elem_of_In.
    + intros H b Hin. apply Z.eqb_eq, H. by apply list_elem_of_In.
  - intros s l Hs IH Hb. apply Forall_app in Hb as [Hb1 Hb2]. specialize (IH Hb2).
    rewrite chunks32_stripe by done. destruct (chunks32 l) as [cs rest] eqn:E. cbn [fst snd forallb].
    rewrite Forall_app, <- IH, <- (chunk_diff_zero s x Hb1 Hs Hx). rewrite <- andb_assoc.
    rewrite (andb_true_iff (_ =? 0)), Z.eqb_eq. done.
Qed.

(** The words' comparison is that of every byte with the first. *)
Lemma is_rle_ok data : bytes data -> is_rle data = true <->
  exists first, zget data 0 = Some first /\ data = zrepeat first (zlen data).
Proof.
  intros Hb. unfold is_rle. destruct (zget data 0) as [x|] eqn:Hx; [|split; [done|by intros (? & ? & _)]].
  rewrite (chunks_all x (Forall_zget _ _ _ _ Hb Hx) data Hb). split.
  - intros Hf. exists x. split; [done|]. apply zlist_eq; [by rewrite zlen_zrepeat by apply zlen_nonneg|].
    intros i Hi. destruct (zget_is_Some data i Hi) as [b Hg]. rewrite Hg, zget_zrepeat by lia. f_equal.
    by eapply (Forall_zget (fun b => b = x)).
  - intros (? & [= <-] & He). rewrite He. by apply Forall_zrepeat.
Qed.

(** C29: The encoder's run-length test, which compares 32 bytes a step as
    words against a splat of the first byte, is true exactly of the nonempty
    inputs whose bytes all equal the first. *)
Theorem is_rle_correct data : bytes data ->
  is_rle data = true <-> exists first, zget data 0 = Some first /\ data = zrepeat first (zlen data).
Proof. apply is_rle_ok. Qed.

Lemma is_rle_correct_witness : is_rle (zrepeat 7 70) = true /\ is_rle (zrepeat 7 70 ++ [8]) = false.
Proof.
  assert (bytes (zrepeat 7 70)) as Hb by (apply Forall_zrepeat; done).
  assert (bytes (zrepeat 7 70 ++ [8])) as Hb' by (apply Forall_app; split; [exact Hb|solve_bytes]).
  split; [apply (is_rle_correct (zrepeat 7 70) Hb); exists 7; split; reflexivity|].
  destruct (is_rle (zrepeat 7 70 ++ [8])) eqn:E; [|reflexivity]. exfalso.
  apply (is_rle_correct _ Hb') in E. destruct E as (f & H1 & H2). vm_compute in H1. injection H1 as <-.
  vm_compute in H2. discriminate H2.
Defined.

(** ** The block-type decision *)

Definition RLE_MAX_LENGTH : Z := 25.

(** [BlockKind]. *)
Inductive BlockKind := KRaw | KRle | KCompressed.

(** [entropy_and_emit], from the payload [entropy_code] made, if it did: the
    output and the block's type. [BlockEncode.entropy_and_emit_block] adds what
    it leaves in the coder's state. *)
Definition entropy_and_emit (out data : list Z) (next : option (list Z)) (is_first_block is_last : bool)
    : list Z * BlockKind :=
  let c_size := match next with Some cbuf => zlen cbuf | None => 0 end in
  if negb is_first_block && (c_size <? RLE_MAX_LENGTH) && is_rle data then
    (write_rle_block out (default 0 (zget data 0)) (zlen data) is_last, KRle)
  else match next with
       | None => (write_raw_block out data is_last, KRaw)
       | Some cbuf => (write_compressed_block out cbuf is_last, KCompressed)
       end.

(** [write_epilogue]. *)
Definition write_epilogue (out : list Z) (checksum : option Xxh64) : dec (list Z) :=
  match checksum with
  | Some h => x ← digest h; Ok (out ++ le_bytes 4 (wrap 32 x))
  | None => Ok out
  end.

(** The blocks of a frame, each its bytes and its payload. *)
Fixpoint emit_blocks (out : list Z) (first : bool) (blocks : list (list Z * option (list Z))) : list Z :=
  match blocks with
  | [] => out
  | (data, next) :: blocks =>
      emit_blocks (entropy_and_emit out data next first (is_empty blocks)).1 false blocks
  end.

(** A frame of [compress_frame]: its header, its blocks (one empty raw block
    for empty input), its epilogue. *)
Definition emit_frame (wl : Z) (checksum : bool) (did : Z) (blocks : list (list Z * option (list Z)))
    : dec (list Z) :=
  let content := concat (fst <$> blocks) in
  let out := write_frame_header [] (Some (zlen content)) wl checksum did in
  sum ← (if checksum then h ← update_all Xxh64.new (fst <$> blocks); Ok (Some h) else Ok None);
  write_epilogue (emit_blocks out true blocks) sum.

(** ** The frame round trip *)

Section roundtrip.
Context (dict : option DecodeDict) (window bsm : Z).
Hypothesis Hbsm : 0 <= bsm <= MAX_BLOCK_SIZE.

(** Whether the payload is what gets written. *)
Definition payload (data : list Z) (next : option (list Z)) (first : bool) : option (list Z) :=
  match next with
  | Some c => if negb first && (zlen c <? RLE_MAX_LENGTH) && is_rle data then None else Some c
  | None => None
  end.

(** Blocks within the size, whose payloads decode to them after the blocks
    before, with the scratch those left. *)
Fixpoint blocks_coded (ws : DecoderScratch) (h : list Z) (first : bool)
    (blocks : list (list Z * option (list Z))) : Prop :=
  match blocks with
  | [] => True
  | (data, next) :: blocks =>
      bytes data /\ zlen data <= bsm /\
      match payload data next first with
      | Some c => bytes c /\ zlen c <= bsm /\ exists ws',
          ref_block c bsm ws (dict ≫= dd_entropy) (ext_dict (dict_content dict)) window h = Some (h ++ data, ws') /\
          blocks_coded ws' (h ++ data) false blocks
      | None => blocks_coded ws (h ++ data) false blocks
      end
  end.

(** A located block, as [ref_blocks] takes it. *)
Lemma located data b content : locate_block data bsm = Ok (Some (b, content)) ->
  parse_block_header data bsm = Ok b /\ zslice data 3 (3 + content_size b) = Some content.
Proof.
  unfold locate_block, BLOCK_HEADER_LEN. destruct (zslice data 0 3) as [head|] eqn:Hh; [|done].
  destruct (parse_block_header head bsm) as [b'|e| |] eqn:Hp; try done.
  destruct (zslice data 3 _) as [c|] eqn:Hc; [|done]. intros [= <- <-]. split; [|done].
  apply zslice_Some in Hh as (_ & Hl & -> & Hl3). change (zdrop 0 data) with data in *.
  replace data with (ztake (3 - 0) data ++ zdrop (3 - 0) data) by (unfold ztake, zdrop; by rewrite take_drop).
  by rewrite parse_block_header_prefix by lia.
Qed.

Lemma emit_prefix out data next first last :
  (entropy_and_emit out data next first last).1 = out ++ (entropy_and_emit [] data next first last).1.
Proof. unfold entropy_and_emit. destruct (_ && _); [done|]. by destruct next. Qed.

Lemma emit_blocks_prefix blocks : forall out first,
  emit_blocks out first blocks = out ++ emit_blocks [] first blocks.
Proof.
  induction blocks as [|[data next] blocks IH]; intros out first; cbn [emit_blocks]; [by rewrite app_nil_r|].
  rewrite IH, emit_prefix, <- app_assoc. f_equal. symmetry. apply IH.
Qed.

(** One emitted block, in front of [rest], and what it means. *)
Lemma emit_one_ok data next first last rest ws h :
  bytes data -> zlen data <= bsm ->
  (forall c, payload data next first = Some c -> bytes c /\ zlen c <= bsm) ->
  let out := (entropy_and_emit [] data next first last).1 in
  exists b content, parse_block_header (out ++ rest) bsm = Ok b /\
    zslice (out ++ rest) 3 (3 + content_size b) = Some content /\ last_block b = last /\
    3 + content_size b = zlen out /\
    ref_one dict window bsm b content ws h =
      match payload data next first with
      | Some c => ref_block c bsm ws (dict ≫= dd_entropy) (ext_dict (dict_content dict)) window h
      | None => Some (h ++ data, ws)
      end.
Proof.
  intros Hb Hl Hc out. unfold MAX_BLOCK_SIZE in *. pose proof (zlen_nonneg data) as Hnn.
  assert (bsm < 2 ^ 21) as H21 by (change (2 ^ 21) with 2097152; lia).
  assert (forall code ty n content, block_type_of code = Ok ty -> ty <> Reserved -> 0 <= code < 4 ->
    0 <= n <= bsm -> zlen content = match ty with Raw | Compressed => n | RLE => 1 | Reserved => 0 end ->
    let o := block_header_bytes code n last ++ content in
    let b := MkBlock last ty (match ty with Raw | RLE => n | _ => 0 end) (zlen content) in
    parse_block_header (o ++ rest) bsm = Ok b /\ zslice (o ++ rest) 3 (3 + content_size b) = Some content /\
    3 + content_size b = zlen o) as Hwritten.
  { intros code ty n content Hty Hr Hcode Hn Hlen o b. unfold o. rewrite <- app_assoc.
    destruct (located _ _ _ (locate_written code ty n last content rest bsm Hty Hr Hcode ltac:(lia) ltac:(lia) Hlen)).
    split; [done|]. split; [done|]. rewrite zlen_app, block_header_value by (done || lia). done. }
  unfold entropy_and_emit, payload in *.
  destruct (negb first && (match next with Some cbuf => zlen cbuf | None => 0 end <? RLE_MAX_LENGTH) && is_rle data)
    eqn:Hrle.
  - assert (is_rle data = true) as Hr by (by apply andb_true_iff in Hrle as [_ ?]).
    apply is_rle_ok in Hr as (x & Hx & Hd); [|done]. unfold out, write_rle_block. rewrite Hx. cbn [default fst app].
    destruct (Hwritten BLOCK_TYPE_RLE RLE (zlen data) [x]) as (H1 & H2 & H3); try done.
    do 2 eexists. split; [exact H1|]. split; [exact H2|]. split; [done|]. split; [exact H3|].
    unfold ref_one. cbn [block_type decompressed_size]. change (zget [x] 0) with (Some x). cbn [mbind option_bind].
    rewrite <- Hd. by destruct next; rewrite ?Hrle.
  - destruct next as [c|].
    + rewrite Hrle in *. destruct (Hc c eq_refl) as [Hcb Hcl]. unfold out, write_compressed_block. cbn [fst app].
      pose proof (zlen_nonneg c).
      destruct (Hwritten BLOCK_TYPE_COMPRESSED Compressed (zlen c) c) as (H1 & H2 & H3); try done.
      do 2 eexists. split; [exact H1|]. split; [exact H2|]. split; [done|]. split; [exact H3|]. done.
    + unfold out, write_raw_block. cbn [fst app].
      destruct (Hwritten BLOCK_TYPE_RAW Raw (zlen data) data) as (H1 & H2 & H3); try done.
      do 2 eexists. split; [exact H1|]. split; [exact H2|]. split; [done|]. split; [exact H3|]. done.
Qed.

Lemma emit_blocks_ok blocks : forall n ws h first rest, blocks <> [] ->
  blocks_coded ws h first blocks -> (length (emit_blocks [] first blocks ++ rest) < n)%nat ->
  exists ws', ref_blocks n dict window bsm ws h (emit_blocks [] first blocks ++ rest) =
    Some (h ++ concat (fst <$> blocks), rest, ws').
Proof.
  induction blocks as [|[data next] blocks IH]; intros n ws h first rest Hne Hcoded Hn; [done|].
  destruct n as [|n]; [lia|]. cbn [emit_blocks] in *. rewrite emit_blocks_prefix in Hn |- *.
  rewrite <- app_assoc in Hn |- *. destruct Hcoded as (Hb & Hl & Hpay).
  destruct (emit_one_ok data next first (is_empty blocks) (emit_blocks [] false blocks ++ rest) ws h Hb Hl)
    as (b & content & Hp & Hs & Hlast & Hlen & Hone).
  { intros c Hc. rewrite Hc in Hpay. tauto. }
  set (out := (entropy_and_emit [] data next first (is_empty blocks)).1) in *.
  rewrite ref_blocks_step, Hp. cbn [to_option mbind option_bind]. rewrite Hs. cbn [mbind option_bind].
  rewrite Hone, Hlen, Hlast.
  assert (exists ws1, match payload data next first with
      | Some c => ref_block c bsm ws (dict ≫= dd_entropy) (ext_dict (dict_content dict)) window h
      | None => Some (h ++ data, ws) end = Some (h ++ data, ws1) /\
    blocks_coded ws1 (h ++ data) false blocks) as (ws1 & -> & Hrest).
  { destruct (payload data next first); [|by exists ws]. destruct Hpay as (_ & _ & ws1 & ? & ?). by exists ws1. }
  cbn [mbind option_bind].
  assert (zdrop (zlen out) (out ++ emit_blocks [] false blocks ++ rest) = emit_blocks [] false blocks ++ rest) as ->
    by (unfold zdrop, zlen; by rewrite Nat2Z.id, drop_app_length).
  destruct blocks as [|b2 blocks]; cbn [is_empty].
  - cbn. rewrite app_nil_r. by exists ws1.
  - destruct (IH n ws1 (h ++ data) false rest ltac:(done) Hrest) as [ws' Hr].
    { rewrite length_app in Hn. assert (3 <= zlen out) by (rewrite <- Hlen; apply zslice_Some in Hs; lia).
      unfold zlen in *. lia. }
    exists ws'. rewrite Hr. cbn [fmap list_fmap concat]. by rewrite <- app_assoc.
Qed.
End roundtrip.

(** ** Whole frames *)

Lemma wrap8_byte x : is_byte (wrap 8 x).
Proof. unfold is_byte, wrap. change (2 ^ 8) with 256. divlia. Qed.

Lemma write_frame_header_bytes cs wl ck did : bytes (write_frame_header [] cs wl ck did).
Proof.
  unfold write_frame_header. cbn [app].
  set (single := match cs with Some size => size <=? wshl 64 1 wl | None => false end).
  set (fc := match cs with Some size => _ | None => 0 end).
  set (dc := Z.b2z (0 <? did) + _ + _).
  assert (0 <= fc <= 3) as Hfc
    by (unfold fc; destruct cs as [n|]; [destruct (256 <=? n), (65536 + 256 <=? n), (0xFFFFFFFF <=? n)|]; cbn; lia).
  assert (0 <= dc <= 3) as Hdc
    by (unfold dc; destruct (0 <? did), (256 <=? did), (65536 <=? did); cbn; lia).
  destruct (descriptor_fields dc fc ck single Hdc Hfc) as (_ & _ & _ & _ & _ & Hd).
  apply Forall_app. split; [apply (le_bytes_bytes 4)|]. apply List.Forall_cons; [exact Hd|].
  apply Forall_app. split; [destruct (negb single); [apply List.Forall_cons; [apply wrap8_byte|]|]; apply List.Forall_nil|].
  apply Forall_app. split; repeat case_match; try apply le_bytes_bytes; try apply List.Forall_nil;
    apply List.Forall_cons; try apply wrap8_byte; apply List.Forall_nil.
Qed.

Lemma block_header_bytes_bytes ty n l : bytes (block_header_bytes ty n l).
Proof. unfold block_header_bytes. apply Forall_take, le_bytes_bytes. Qed.

Lemma emit_blocks_bytes dict window bsm blocks : forall ws h first,
  blocks_coded dict window bsm ws h first blocks -> bytes (emit_blocks [] first blocks).
Proof.
  induction blocks as [|[data next] blocks IH]; intros ws h first Hc; cbn [emit_blocks]; [apply List.Forall_nil|].
  rewrite emit_blocks_prefix. destruct Hc as (Hb & Hl & Hpay). apply Forall_app. split.
  - unfold entropy_and_emit, payload in *.
    destruct (negb first && (match next with Some cbuf => zlen cbuf | None => 0 end <? RLE_MAX_LENGTH) && is_rle data)
      eqn:Hrle; [|destruct next as [c|]]; cbn [fst]; unfold write_rle_block, write_compressed_block, write_raw_block;
      cbn [app]; (apply Forall_app; split; [apply block_header_bytes_bytes|]); [..|done].
    + apply List.Forall_cons; [|apply List.Forall_nil]. destruct (zget data 0) eqn:Hz; [by eapply Forall_zget|done].
    + rewrite Hrle in Hpay. tauto.
  - destruct (payload data next first); [destruct Hpay as (_ & _ & ws' & _ & ?)|]; by eapply IH.
Qed.

(** The checksum of a frame's content, fed block by block, and the epilogue. *)
Lemma epilogue_ok (ck : bool) parts : zlen (concat parts) < 2 ^ 64 -> exists sum,
  (if ck then h ← update_all Xxh64.new parts; Ok (Some h) else Ok None : dec (option Xxh64)) = Ok sum /\
  forall out, write_epilogue out sum = Ok (out ++ if ck then le_bytes 4 (wrap 32 (xxh64 (concat parts))) else []).
Proof.
  intros H64. destruct ck.
  - destruct (update_all_fed (E:=DecodeError) Xxh64.new [] parts fed_new H64) as (h & -> & Hf).
    exists (Some h). split; [done|]. intros out. unfold write_epilogue. by rewrite (digest_fed h _ Hf).
  - exists None. split; [done|]. intros out. cbn. by rewrite app_nil_r.
Qed.

(** A frame around a body of blocks that decode to its content. *)
Definition framed (wl : Z) (ck : bool) (did : Z) (content body : list Z) : list Z :=
  (write_frame_header [] (Some (zlen content)) wl ck did ++ body) ++
  if ck then le_bytes 4 (wrap 32 (xxh64 content)) else [].

Section framed.
Context (dict : option DecodeDict) (ws : DecoderScratch) (wl : Z) (ck : bool) (did : Z) (content body : list Z).
Context (Hwl : 10 <= wl <= 31) (Hdid : 0 <= did < 2 ^ 32) (Hd : did = 0 \/ exists d, dict = Some d /\ dd_id d = did).
Context (Hsize : zlen content < 2 ^ 64).
Let window := written_window (Some (zlen content)) wl.
Context (Hbytes : bytes body) (Hbody : forall rest, exists ws',
  ref_blocks (S (length (body ++ rest))) dict window (Z.min window MAX_BLOCK_SIZE) (start_scratch ws dict) (dict_content dict) (body ++ rest) =
    Some (dict_content dict ++ content, rest, ws')).

Lemma framed_bytes : bytes (framed wl ck did content body).
Proof.
  unfold framed. rewrite <- app_assoc. apply Forall_app. split; [apply write_frame_header_bytes|]. apply Forall_app.
  split; [done|]. destruct ck; [apply (le_bytes_bytes 4)|apply List.Forall_nil].
Qed.

Lemma framed_ref rest : exists ws', ref_frame dict ws (framed wl ck did content body ++ rest) = Some (content, rest, ws').
Proof.
  pose proof (zlen_nonneg content) as Hnn. unfold framed. rewrite <- !app_assoc.
  destruct (write_frame_header_ok (Some (zlen content)) wl ck did
    (body ++ (if ck then le_bytes 4 (wrap 32 (xxh64 content)) else []) ++ rest))
    as (hd & Hp & _ & Hfcs & Hid & Hck & Hwin); [by intros n [= <-]|done|done|].
  unfold ref_frame. rewrite Hp. unfold ref_content. rewrite Hwin, Hid. fold window. cbn [to_option mbind option_bind].
  assert (dict_wrong did dict = Ok tt) as ->.
  { unfold dict_wrong. destruct Hd as [->|(d & -> & Hdd)]; [done|]. destruct (did =? 0); [done|].
    by rewrite Hdd, Z.eqb_refl. }
  cbn [to_option mbind option_bind].
  set (tail := (if ck then _ else []) ++ rest).
  replace (zdrop _ (_ ++ body ++ tail)) with (body ++ tail) by (unfold zdrop, zlen; by rewrite Nat2Z.id, drop_app_length).
  destruct (Hbody tail) as [ws' ->]. cbn [mbind option_bind].
  assert (zdrop (zlen (dict_content dict)) (dict_content dict ++ content) = content) as ->
    by (unfold zdrop, zlen; by rewrite Nat2Z.id, drop_app_length).
  exists ws'. unfold ref_finish. rewrite Hfcs, Hck, Z.eqb_refl. cbn [negb]. unfold tail. destruct ck; [|done].
  set (s := le_bytes 4 _). change (zslice (s ++ rest) 0 4) with (zslice (s ++ rest) 0 (zlen s)).
  rewrite zslice_app_l by lia. rewrite zslice_ok by first [split; [lia|by vm_compute] | lia].
  change (zdrop 0 s) with s. rewrite Z.sub_0_r. rewrite (ztake_all s (zlen s)) by lia. cbn [mbind option_bind].
  assert (le_val s = wrap 32 (xxh64 content)) as ->.
  { unfold s. rewrite le_val_le_bytes. apply Z.mod_small. unfold wrap. apply Z.mod_pos_bound. done. }
  rewrite Z.eqb_refl. cbn [mbind option_bind]. done.
Qed.
End framed.

(** Such a frame decompresses to its content. *)
Lemma framed_decompresses dict wl ck did content body simd :
  usable dict -> 10 <= wl <= 31 -> 0 <= did < 2 ^ 32 -> (did = 0 \/ exists d, dict = Some d /\ dd_id d = did) ->
  zlen content < 2 ^ 64 -> bytes body ->
  let window := written_window (Some (zlen content)) wl in
  (forall rest, exists ws', ref_blocks (S (length (body ++ rest))) dict window (Z.min window MAX_BLOCK_SIZE)
      (start_scratch scratch_new dict) (dict_content dict) (body ++ rest) = Some (dict_content dict ++ content, rest, ws')) ->
  let f := framed wl ck did content body in
  zlen f < 2 ^ 45 -> decompress_with_dict_options (fun _ _ => true) f dict simd = Ok content.
Proof.
  intros Hu Hwl Hdid Hd Hsize Hb window Hbody f Hl.
  pose proof (framed_bytes wl ck did content body Hb) as Hbf.
  pose proof (decompress_ok (fun _ _ => true) f dict simd Hu Hbf Hl) as H.
  assert (ref_decompress dict f = Some content) as Hr.
  { destruct (framed_ref dict scratch_new wl ck did content body Hwl Hdid Hd Hsize Hbody []) as [ws' Hr]. rewrite app_nil_r in Hr.
    unfold ref_decompress. cbn [ref_frames]. fold f in Hr. destruct f as [|x f'] eqn:Ef; [by unfold f, framed, write_frame_header in Ef|].
    change (is_empty (x :: f')) with false. cbv iota. rewrite Hr. cbn [mbind option_bind]. done. }
  rewrite Hr in H. destruct (decompress_with_dict_options _ _ _ _) as [out|e| |]; try done.
  - destruct H as [H _]. congruence.
  - by destruct H as [H|(n & want & _ & H)].
Qed.

(** C6: Emitted frames round-trip. For every window log, checksum flag,
    dictionary and sequence of blocks of at most the frame's
    Block_Maximum_Size, each with or without an entropy-coded payload that
    the format reads as that block, the frame the encoder assembles (header,
    each block raw, run-length or compressed by the encoder's decision,
    checksum) decompresses to the blocks' bytes, at either SIMD level. *)
Theorem emitted_frames_roundtrip dict wl ck did blocks simd :
  usable dict -> 10 <= wl <= 31 -> 0 <= did < 2 ^ 32 ->
  (did = 0 \/ exists d, dict = Some d /\ dd_id d = did) ->
  let content := concat (fst <$> blocks) in
  let window := written_window (Some (zlen content)) wl in
  zlen content < 2 ^ 64 -> blocks <> [] ->
  blocks_coded dict window (Z.min window MAX_BLOCK_SIZE) (start_scratch scratch_new dict) (dict_content dict)
    true blocks ->
  exists f, emit_frame wl ck did blocks = Ok f /\
    (zlen f < 2 ^ 45 -> decompress_with_dict_options (fun _ _ => true) f dict simd = Ok content).
Proof.
  intros Hu Hwl Hdid Hd content window Hsize Hne Hcoded.
  destruct (epilogue_ok ck (fst <$> blocks) Hsize) as (sum & Hsum & Hep).
  assert (emit_frame wl ck did blocks = Ok (framed wl ck did content (emit_blocks [] true blocks))) as Hf.
  { unfold emit_frame. rewrite Hsum. cbn [mbind res_bind]. rewrite Hep, emit_blocks_prefix. done. }
  eexists. split; [exact Hf|]. apply framed_decompresses; try done; [by eapply emit_blocks_bytes|]. intros rest.
  assert (0 <= window) as Hw0.
  { unfold window, written_window. destruct (_ <=? _); [apply zlen_nonneg|]. apply Z.pow_nonneg. lia. }
  apply (emit_blocks_ok dict window (Z.min window MAX_BLOCK_SIZE)); [unfold MAX_BLOCK_SIZE; lia|done|done|lia].
Qed.

(** A raw block, a run, and a payload of one sequence. *)
Lemma emitted_frames_roundtrip_witness : exists f,
  emit_frame 17 true 0 [([1; 2; 3], None); (zrepeat 9 40, None);
    ([97; 98; 99; 100; 101; 99; 100; 101; 99; 100; 101; 99; 100; 101; 99; 100; 101; 99],
     Some [0x28; 97; 98; 99; 100; 101; 1; 0x54; 5; 2; 10; 6])] = Ok f /\
  decompress_with_dict_options (fun _ _ => true) f None LAvx2 =
    Ok ([1; 2; 3] ++ zrepeat 9 40 ++ [97; 98; 99; 100; 101; 99; 100; 101; 99; 100; 101; 99; 100; 101; 99; 100; 101; 99]).
Proof.
  set (blocks := [([1; 2; 3], None); (zrepeat 9 40, None); (_, _)]).
  destruct (emitted_frames_roundtrip None 17 true 0 blocks LAvx2) as (f & Hf & Hd).
  - exact no_dict_usable.
  - lia.
  - vm_compute; split; congruence.
  - by left.
  - by vm_compute.
  - intros [=].
  - cbn [blocks blocks_coded]. split; [solve_bytes|]. split; [by vm_compute|].
    change (payload [1; 2; 3] None true) with (None : option (list Z)). cbv iota.
    split; [apply Forall_zrepeat; done|]. split; [by vm_compute|].
    change (payload (zrepeat 9 40) None false) with (None : option (list Z)). cbv iota.
    split; [solve_bytes|]. split; [by vm_compute|].
    set (c := [0x28; 97; 98; 99; 100; 101; 1; 0x54; 5; 2; 10; 6]).
    assert (payload [97; 98; 99; 100; 101; 99; 100; 101; 99; 100; 101; 99; 100; 101; 99; 100; 101; 99] (Some c) false = Some c)
      as -> by (vm_compute; reflexivity).
    split; [unfold c; solve_bytes|]. split; [by vm_compute|].
    match goal with |- exists ws', ref_block ?a ?b ?c ?d ?e ?f ?g = _ /\ _ =>
      destruct (ref_block a b c d e f g) as [[h2 ws2]|] eqn:E end; [|exfalso; vm_compute in E; discriminate E].
    exists ws2. split; [|exact I]. do 2 f_equal. vm_compute in E. injection E as <- _. reflexivity.
  - exists f. split; [exact Hf|]. apply Hd. clear Hd. vm_compute in Hf. injection Hf as <-. by vm_compute.
Defined.
