(* ===== verification/BitCStream.v ===== *)
(** * The bit writers ([src/bitstream.rs])

    [BitCStream], the backward stream the entropy coders write, and
    [BitWriter], the forward one. A stream is the number whose bits were
    added from the lowest up ([pack]); what [BitCStream] closes,
    [BitDStream] reads back from the other end. The debug assertions are
    assertions of the model. *)

From S2P Require Import Prelude Words Constants Errors BitDStream.

(** ** The backward writer *)

(** [BitCStream]. *)
Record BitCStream := MkCStream {
  bc_container : Z;
  bc_pos : Z;
  bc_buf : list Z;
  bc_ptr : Z;
  bc_end : Z;
}.

(** [BitCStream::capacity_for]. *)
Definition capacity_for (bits : Z) : Z := div_ceil bits 8 + 9.

Section cstream.
Context {E : Type}.

(** [BitCStream::new]. *)
Definition cstream_new (buf : list Z) : res E BitCStream :=
  _ ← rassert (8 <? zlen buf);
  Ok (MkCStream 0 0 buf 0 (zlen buf - 8)).

(** [add_bits]. *)
Definition add_bits (bw : BitCStream) (value nb_bits : Z) : res E BitCStream :=
  _ ← rassert (nb_bits <? 32);
  _ ← rassert (nb_bits + bc_pos bw <? 64);
  let v := Z.land value (Z.shiftl 1 nb_bits - 1) in
  Ok (MkCStream (Z.lor (bc_container bw) (wshl 64 v (bc_pos bw))) (bc_pos bw + nb_bits)
        (bc_buf bw) (bc_ptr bw) (bc_end bw)).

(** [add_bits_fast]. *)
Definition add_bits_fast (bw : BitCStream) (value nb_bits : Z) : res E BitCStream :=
  _ ← rassert (Z.shiftr value nb_bits =? 0);
  _ ← rassert (nb_bits + bc_pos bw <? 64);
  Ok (MkCStream (Z.lor (bc_container bw) (wshl 64 value (bc_pos bw))) (bc_pos bw + nb_bits)
        (bc_buf bw) (bc_ptr bw) (bc_end bw)).

(** [flush_bits]; its unchecked store is checked. *)
Definition flush_bits (bw : BitCStream) : res E BitCStream :=
  _ ← rassert (bc_pos bw <? 64);
  let nb_bytes := Z.shiftr (bc_pos bw) 3 in
  _ ← rassert (bc_ptr bw <=? bc_end bw);
  buf ← copy_from_slice (bc_buf bw) (bc_ptr bw) (bc_ptr bw + 8) (le_bytes 8 (bc_container bw));
  Ok (MkCStream (Z.shiftr (bc_container bw) (nb_bytes * 8)) (Z.land (bc_pos bw) 7) buf
        (Z.min (bc_ptr bw + nb_bytes) (bc_end bw)) (bc_end bw)).

(** [close]: the size, and the region it was given. *)
Definition close (bw : BitCStream) : res E (Z * list Z) :=
  bw ← add_bits_fast bw 1 1;
  bw ← flush_bits bw;
  if bc_end bw <=? bc_ptr bw then Ok (0, bc_buf bw)
  else Ok (bc_ptr bw + Z.b2z (0 <? bc_pos bw), bc_buf bw).
End cstream.

(** ** The forward writer *)

(** [BitWriter]. *)
Record BitWriter := MkWriter {
  w_buf : list Z;
  w_pos : Z;
  w_current : Z;
}.

(** [BitWriter::new]. *)
Definition writer_new : BitWriter := MkWriter [] 0 0.

(** [write_bits]; a turn takes a bit or more. *)
Definition write_bits {E} (w : BitWriter) (value nbits : Z) : res E BitWriter :=
  loopM (Z.to_nat nbits + 1) (fun '(w, val, bits) =>
    if 0 <? bits then
      let space := 8 - w_pos w in
      let take := Z.min space bits in
      let mask := Z.shiftl 1 take - 1 in
      let current := Z.lor (w_current w) (wshl 8 (wrap 8 (Z.land val mask)) (w_pos w)) in
      let val := Z.shiftr val take in
      let bits := bits - take in
      let pos := w_pos w + take in
      if pos =? 8 then Ok (inl (MkWriter (w_buf w ++ [current]) 0 0, val, bits))
      else Ok (inl (MkWriter (w_buf w) pos current, val, bits))
    else Ok (inr w)) (w, value, nbits).

(** [finish]. *)
Definition writer_finish (w : BitWriter) : list Z :=
  if 0 <? w_pos w then w_buf w ++ [w_current w] else w_buf w.

(** [len]. *)
Definition writer_len (w : BitWriter) : Z := zlen (w_buf w) * 8 + w_pos w.

(** ** Fields as one number *)

(** The fields [(value, width)], the first one lowest. *)
Fixpoint pack (fs : list (Z * Z)) : Z :=
  match fs with
  | [] => 0
  | (x, n) :: fs => x mod 2 ^ n + 2 ^ n * pack fs
  end.

Definition width (fs : list (Z * Z)) : Z := foldr Z.add 0 (snd <$> fs).

Abbreviation widths_ok := (Forall (fun f : Z * Z => 0 <= f.2)).

Lemma width_cons x n fs : width ((x, n) :: fs) = n + width fs.
Proof. done. Qed.

Lemma width_app fs gs : width (fs ++ gs) = width fs + width gs.
Proof. induction fs as [|[x n] fs IH]; [done|]. cbn [app]. rewrite !width_cons, IH. lia. Qed.

Lemma width_nonneg fs : widths_ok fs -> 0 <= width fs.
Proof. induction 1 as [|[x n] fs H Hs IH]; [done|]. rewrite width_cons. cbn in H. lia. Qed.

Lemma pack_range fs : widths_ok fs -> 0 <= pack fs < 2 ^ width fs.
Proof.
  induction 1 as [|[x n] fs H Hs IH]; [by cbn|]. cbn [pack]. rewrite width_cons. cbn in H.
  pose proof (width_nonneg _ Hs). rewrite pow2_add by lia. pose proof (wrap_range n x H). unfold wrap in *. nia.
Qed.

Lemma pack_app fs gs : widths_ok fs -> pack (fs ++ gs) = pack fs + 2 ^ width fs * pack gs.
Proof.
  induction 1 as [|[x n] fs H Hs IH]; [cbn; lia|]. cbn [pack app]. rewrite width_cons, IH. cbn in H.
  pose proof (width_nonneg _ Hs). rewrite pow2_add by lia. nia.
Qed.

Lemma pack_snoc fs x n : widths_ok fs -> pack (fs ++ [(x, n)]) = pack fs + 2 ^ width fs * (x mod 2 ^ n).
Proof. intros. rewrite pack_app by done. cbn [pack]. lia. Qed.

(** ** The backward writer writes its fields *)

Section cstream_proofs.
Context {E : Type}.

(** [bw] holds the fields [fs] and has dropped none. *)
Record writing (bw : BitCStream) (fs : list (Z * Z)) : Prop := {
  wr_fields : widths_ok fs;
  wr_width : 8 * bc_ptr bw + bc_pos bw = width fs;
  wr_pos : 0 <= bc_pos bw < 64;
  wr_ptr : 0 <= bc_ptr bw < bc_end bw;
  wr_end : bc_end bw + 8 = zlen (bc_buf bw);
  wr_bytes : bytes (bc_buf bw);
  wr_container : 0 <= bc_container bw < 2 ^ bc_pos bw;
  wr_value : le_val (ztake (bc_ptr bw) (bc_buf bw)) + 2 ^ (8 * bc_ptr bw) * bc_container bw = pack fs;
}.

Lemma cstream_new_ok buf : bytes buf -> 8 < zlen buf ->
  returns (fun bw => writing bw [] /\ bc_pos bw = 0 /\ bc_end bw = zlen buf - 8)
    (cstream_new buf : res E BitCStream).
Proof.
  intros Hb Hl. unfold cstream_new. rewrite (proj2 (Z.ltb_lt _ _)) by lia. cbn.
  split; [|done]. split; cbn; try done; try lia.
Qed.

Lemma add_value bw fs x n : writing bw fs -> 0 <= n -> n + bc_pos bw < 64 -> 0 <= x < 2 ^ n ->
  writing (MkCStream (Z.lor (bc_container bw) (wshl 64 x (bc_pos bw))) (bc_pos bw + n)
        (bc_buf bw) (bc_ptr bw) (bc_end bw)) (fs ++ [(x, n)]).
Proof.
  intros [Hf Hw Hp Hq He Hb Hc Hv] Hn Hs Hx.
  assert (x * 2 ^ bc_pos bw < 2 ^ (bc_pos bw + n)) as Hlt.
  { rewrite pow2_add by lia. pose proof (pow2_pos (bc_pos bw)). nia. }
  assert (Z.lor (bc_container bw) (wshl 64 x (bc_pos bw)) = bc_container bw + x * 2 ^ bc_pos bw) as Hor.
  { rewrite wshl_div by lia. rewrite Z.mod_small.
    - apply lor_disjoint_add; lia.
    - pose proof (pow2_le (bc_pos bw + n) 64). pose proof (pow2_pos (bc_pos bw)). nia. }
  split; cbn; try done; try lia.
  - apply Forall_app. split; [done|]. by apply Forall_singleton.
  - rewrite width_app, width_cons. unfold width at 2. cbn. lia.
  - rewrite Hor. rewrite pow2_add by lia. pose proof (pow2_pos (bc_pos bw)). nia.
  - rewrite pack_snoc by done. rewrite Hor, <- Hv, <- Hw, pow2_add, (Z.mod_small x) by lia. ring.
Qed.

(** The same number of another value with these low bits. *)
Lemma writing_mod bw fs x y n : writing bw (fs ++ [(x, n)]) -> x mod 2 ^ n = y mod 2 ^ n ->
  writing bw (fs ++ [(y, n)]).
Proof.
  intros [Hf Hwd Hp Hq He Hb Hc Hv] Hm. pose proof Hf as [Hf1 Hf2]%Forall_app.
  split; try done.
  - apply Forall_app. split; [done|]. by inversion_clear Hf2; apply Forall_singleton.
  - rewrite Hwd. unfold width. by rewrite !fmap_app.
  - rewrite Hv. rewrite !pack_snoc by done. by rewrite Hm.
Qed.

Lemma add_bits_ok bw fs x n : writing bw fs -> 0 <= n < 32 -> n + bc_pos bw < 64 ->
  returns (fun bw' => writing bw' (fs ++ [(x, n)]) /\ bc_pos bw' = bc_pos bw + n /\ bc_end bw' = bc_end bw)
    (add_bits bw x n : res E BitCStream).
Proof.
  intros Hw Hn Hs. unfold add_bits. rewrite !(proj2 (Z.ltb_lt _ _)) by lia. cbn.
  split; [|done]. rewrite Z.shiftl_1_l, land_mod by lia.
  eapply writing_mod; [apply add_value; try done; try lia; apply wrap_range; lia|].
  rewrite Z.mod_mod; [done|]. pose proof (pow2_pos n). lia.
Qed.

Lemma add_bits_fast_ok bw fs x n : writing bw fs -> 0 <= n -> n + bc_pos bw < 64 -> 0 <= x < 2 ^ n ->
  returns (fun bw' => writing bw' (fs ++ [(x, n)]) /\ bc_pos bw' = bc_pos bw + n /\ bc_end bw' = bc_end bw)
    (add_bits_fast bw x n : res E BitCStream).
Proof.
  intros Hw Hn Hs Hx. unfold add_bits_fast. rewrite shiftr_div, Z.div_small by lia.
  rewrite (proj2 (Z.ltb_lt _ _)) by lia. cbn. split; [|done]. by apply add_value.
Qed.

(** A flush stores the container and keeps under eight bits of it. *)
Lemma flush_bits_ok bw fs : writing bw fs -> width fs < 8 * bc_end bw ->
  returns (fun bw' => writing bw' fs /\ bc_pos bw' = width fs mod 8 /\ bc_end bw' = bc_end bw /\
      le_val (ztake (bc_ptr bw' + 1) (bc_buf bw')) = pack fs)
    (flush_bits bw : res E BitCStream).
Proof.
  intros [Hf Hw Hp Hq He Hb Hc Hv] Hr. unfold flush_bits.
  rewrite (proj2 (Z.ltb_lt _ _)), (proj2 (Z.leb_le _ _)) by lia. cbn [rassert mbind res_bind].
  rewrite (shiftr_div (bc_pos bw) 3) by lia. change (2 ^ 3) with 8. set (k := bc_pos bw / 8).
  assert (0 <= k <= 7 /\ 8 * k <= bc_pos bw < 8 * k + 8) as [Hk Hk8] by (unfold k; divlia).
  assert (bc_ptr bw + k < bc_end bw) as Hk2 by lia.
  set (s := le_bytes 8 (bc_container bw)).
  assert (zlen s = 8) as Ls by by unfold zlen, s; rewrite length_le_bytes.
  rewrite copy_from_slice_eq by lia. cbn [mbind res_bind returns bc_pos bc_end].
  set (buf := ztake (bc_ptr bw) (bc_buf bw) ++ s ++ zdrop (bc_ptr bw + 8) (bc_buf bw)).
  assert (bytes s) as Bs by apply le_bytes_bytes.
  assert (Z.land (bc_pos bw) 7 = bc_pos bw - 8 * k) as Hm.
  { change 7 with (2 ^ 3 - 1). rewrite land_mod by lia. change (2 ^ 3) with 8. unfold k. divlia. }
  rewrite Hm, Z.min_l by lia.
  assert (2 ^ bc_pos bw = 2 ^ (8 * k) * 2 ^ (bc_pos bw - 8 * k)) as Hpow.
  { rewrite <- pow2_add by lia. f_equal. lia. }
  pose proof (pow2_pos (8 * k) ltac:(lia)) as Hp8.
  assert (forall j, 0 <= j <= 8 -> le_val (ztake (bc_ptr bw + j) buf) =
    le_val (ztake (bc_ptr bw) (bc_buf bw)) + 2 ^ (8 * bc_ptr bw) * (bc_container bw mod 2 ^ (8 * j))) as Hval.
  { intros j Hj. assert (ztake (bc_ptr bw + j) buf = ztake (bc_ptr bw) (bc_buf bw) ++ ztake j s) as ->.
    { unfold buf. assert (zlen (ztake (bc_ptr bw) (bc_buf bw)) = bc_ptr bw) as Hl by (apply zlen_ztake; lia).
      rewrite <- Hl at 1. rewrite ztake_app_add by lia. by rewrite ztake_app_le by lia. }
    rewrite le_val_app, zlen_ztake by lia. rewrite (proj1 (le_val_take_drop s j Bs ltac:(lia))).
    unfold s. rewrite le_val_le_bytes. change (2 ^ (8 * Z.of_nat 8)) with (2 ^ 64).
    by rewrite (Z.mod_small (bc_container bw) (2 ^ 64)) by (pose proof (pow2_le (bc_pos bw) 64); lia). }
  split; [|split; [rewrite <- Hw; divlia|split; [done|]]].
  - split; cbn [bc_ptr bc_pos bc_end bc_buf bc_container]; try done; try lia.
    + unfold buf. rewrite !zlen_app, Ls, zlen_ztake, zlen_zdrop by lia. lia.
    + unfold buf. apply Forall_app. split; [by apply Forall_take|]. apply Forall_app.
      split; [done|by apply Forall_drop].
    + rewrite shiftr_div by lia. rewrite (Z.mul_comm k 8). split; [apply Z.div_pos; lia|].
      apply Z.div_lt_upper_bound; lia.
    + rewrite Hval by lia. rewrite shiftr_div, (Z.mul_comm k 8), <- Hv by lia.
      rewrite Z.mul_add_distr_l, pow2_add by lia.
      rewrite (Z.div_mod (bc_container bw) (2 ^ (8 * k))) at 3 by lia. ring.
  - cbn [bc_ptr bc_buf]. rewrite <- Z.add_assoc, Hval, <- Hv by lia. f_equal. f_equal.
    apply Z.mod_small. pose proof (pow2_le (bc_pos bw) (8 * (k + 1))). lia.
Qed.

(** The closed stream: the fields below an end mark. *)
Lemma close_ok bw fs : writing bw fs -> bc_pos bw < 63 -> width fs + 1 < 8 * bc_end bw ->
  returns (fun '(size, buf) => size = width fs / 8 + 1 /\ zlen buf = bc_end bw + 8 /\ bytes buf /\
      le_val (ztake size buf) = pack fs + 2 ^ width fs) (close bw : res E (Z * list Z)).
Proof.
  intros Hw Hp Hr. unfold close. eapply returns_bind; [apply (add_bits_fast_ok bw fs 1 1 Hw); cbn; lia|].
  intros bw1 (W1 & P1 & E1). eapply returns_bind.
  { apply (flush_bits_ok bw1 _ W1). rewrite width_app. unfold width at 2. cbn. lia. }
  intros bw2 (W2 & P2 & E2 & Hlast). pose proof W2 as [Hf Hwd Hps Hq He Hb Hc Hv].
  rewrite width_app in P2, Hwd. unfold width at 2 in P2. unfold width at 2 in Hwd. cbn in P2, Hwd.
  rewrite (proj2 (Z.leb_gt _ _)) by lia. cbn [returns].
  rewrite pack_snoc in Hv, Hlast by apply Hw. change (1 mod 2 ^ 1) with 1 in Hv, Hlast.
  assert (0 <= width fs) as Hn by (apply width_nonneg, Hw).
  split; [destruct (Z.ltb_spec 0 (bc_pos bw2)); cbn [Z.b2z]; divlia|]. split; [lia|]. split; [done|].
  rewrite <- (Z.mul_1_r (2 ^ width fs)), <- Hlast. destruct (Z.ltb_spec 0 (bc_pos bw2)) as [|Hz]; [done|].
  cbn [Z.b2z]. rewrite Z.add_0_r, Hlast, <- Hv.
  assert (bc_pos bw2 = 0) as Hz0 by lia. rewrite Hz0 in Hc. change (2 ^ 0) with 1 in Hc.
  replace (bc_container bw2) with 0 by lia. lia.
Qed.
End cstream_proofs.

(** ** Reading a closed stream *)

(** The bits of a field in the stream's number. *)
Lemma bits_pack fs x n gs m : widths_ok fs -> 0 <= n ->
  bits (pack fs + 2 ^ width fs * (x mod 2 ^ n + 2 ^ n * gs) + 2 ^ (width fs + n) * m) (width fs) n = x mod 2 ^ n.
Proof.
  intros Hf Hn. pose proof (width_nonneg _ Hf). pose proof (pack_range _ Hf).
  pose proof (pow2_pos n Hn). unfold bits.
  replace (pack fs + 2 ^ width fs * (x mod 2 ^ n + 2 ^ n * gs) + 2 ^ (width fs + n) * m)
    with (pack fs + (x mod 2 ^ n + (gs + m) * 2 ^ n) * 2 ^ width fs) by (rewrite pow2_add by lia; ring).
  rewrite Z.div_add, Z.div_small, Z.add_0_l, Z_mod_plus_full by lia. apply Z.mod_mod. lia.
Qed.

(** A closed stream's last byte holds its end mark. *)
Lemma marked_stream s p w : bytes s -> zlen s = w / 8 + 1 -> 0 <= w -> 0 <= p < 2 ^ w ->
  le_val s = p + 2 ^ w ->
  Z.log2 (le_val s) = w /\ exists last, zget s (zlen s - 1) = Some last /\ last <> 0.
Proof.
  intros Hb Hl Hw Hp Hv. split.
  - apply Z.log2_unique; [lia|]. rewrite Z.pow_succ_r by lia. lia.
  - destruct (zget_is_Some s (zlen s - 1)) as [last Hlast]; [divlia|].
    exists last. split; [done|]. intros ->.
    assert (s = ztake (zlen s - 1) s ++ [0]) as Hs.
    { apply zlist_eq.
      - rewrite zlen_app, zlen_ztake; [|divlia]. unfold zlen at 3. cbn. lia.
      - intros i Hi. destruct (Z.lt_ge_cases i (zlen s - 1)).
        + rewrite zget_app_l by (rewrite zlen_ztake; divlia). by rewrite zget_ztake by lia.
        + replace i with (zlen s - 1) in * by lia. rewrite zget_app_r by (rewrite zlen_ztake; divlia).
          rewrite zlen_ztake by divlia. by rewrite Z.sub_diag. }
    assert (le_val s < 2 ^ w); [|lia]. rewrite Hs, le_val_app. cbn [le_val].
    pose proof (le_val_range (ztake (zlen s - 1) s) (Forall_take _ _ _ Hb)) as Hr.
    rewrite zlen_ztake in Hr by divlia. pose proof (pow2_le (8 * (zlen s - 1)) w ltac:(divlia)). lia.
Qed.

(** The reads in reverse give the fields in reverse. *)
Lemma take_all_pack fs m : widths_ok fs ->
  take_all (pack fs + 2 ^ width fs * m) (width fs) (reverse (snd <$> fs)) =
  reverse ((fun f => f.1 mod 2 ^ f.2) <$> fs).
Proof.
  revert m. induction fs as [|[x n] fs IH] using rev_ind; intros m Hf; [done|].
  apply Forall_app in Hf as [Hf Hn]. rewrite Forall_singleton in Hn. cbn in Hn.
  rewrite !fmap_app. cbn [fmap list_fmap fst snd]. rewrite !reverse_snoc.
  cbn [take_all]. rewrite width_app, pack_snoc by done.
  replace (width [(x, n)]) with n by (unfold width; cbn; lia).
  replace (width fs + n - n) with (width fs) by lia. f_equal.
  - rewrite <- (bits_pack fs x n 0 m Hf Hn) at 2. do 2 f_equal. lia.
  - rewrite <- (IH (x mod 2 ^ n + 2 ^ n * m) Hf). f_equal.
    pose proof (width_nonneg _ Hf). rewrite pow2_add by lia. lia.
Qed.

(** ** A client: fields added one by one *)

Fixpoint write_fields {E} (bw : BitCStream) (fs : list (Z * Z)) : res E BitCStream :=
  match fs with
  | [] => Ok bw
  | (x, n) :: fs =>
      bw ← add_bits bw x n;
      bw ← flush_bits bw;
      write_fields bw fs
  end.

(** A stream of its own region. *)
Definition write_stream {E} (buf : list Z) (fs : list (Z * Z)) : res E (Z * list Z) :=
  bw ← cstream_new buf;
  bw ← write_fields bw fs;
  close bw.

Lemma write_fields_ok {E} fs bw gs : Forall (fun f : Z * Z => 0 <= f.2 < 32) fs ->
  writing bw gs -> bc_pos bw < 8 -> width gs + width fs < 8 * bc_end bw ->
  returns (fun bw' => writing bw' (gs ++ fs) /\ bc_pos bw' < 8 /\ bc_end bw' = bc_end bw)
    (write_fields bw fs : res E BitCStream).
Proof.
  intros Hfs. revert bw gs. induction Hfs as [|[x n] fs Hn Hfs IH]; intros bw gs Hw Hp Hr; cbn.
  - by rewrite app_nil_r.
  - rewrite width_cons in Hr. cbn in Hn. assert (0 <= width fs).
    { apply width_nonneg. eapply Forall_impl; [exact Hfs|]. intros [? ?]. cbn. lia. }
    eapply returns_bind; [apply (add_bits_ok bw gs x n Hw); lia|]. intros bw1 (W1 & P1 & E1).
    assert (width (gs ++ [(x, n)]) = width gs + n) as Hwd by (rewrite width_app; unfold width at 2; cbn; lia).
    eapply returns_bind; [apply (flush_bits_ok bw1 _ W1); lia|]. intros bw2 (W2 & P2 & E2 & _).
    eapply returns_mono; [apply (IH bw2 _ W2); [|lia]|].
    + rewrite P2. divlia.
    + intros bw3 (W3 & P3 & E3). rewrite <- app_assoc in W3. split; [done|]. lia.
Qed.

Lemma write_stream_ok {E} buf fs : bytes buf -> Forall (fun f : Z * Z => 0 <= f.2 < 32) fs ->
  capacity_for (width fs + 1) <= zlen buf ->
  returns (fun '(size, buf') => size = width fs / 8 + 1 /\ zlen buf' = zlen buf /\ bytes buf' /\
      le_val (ztake size buf') = pack fs + 2 ^ width fs) (write_stream buf fs : res E (Z * list Z)).
Proof.
  intros Hb Hfs Hc. unfold capacity_for, div_ceil in Hc. assert (0 <= width fs).
  { apply width_nonneg. eapply Forall_impl; [exact Hfs|]. intros [? ?]. cbn. lia. }
  unfold write_stream. eapply returns_bind; [apply (cstream_new_ok buf Hb); divlia|].
  intros bw (W & P & Hend). eapply returns_bind.
  { apply (write_fields_ok fs bw [] Hfs W); [lia|]. unfold width at 1. cbn. divlia. }
  intros bw1 (W1 & P1 & E1). cbn [app] in W1.
  eapply returns_mono; [apply (close_ok bw1 fs W1); [lia|divlia]|].
  intros [size buf'] (-> & L & B & V). split_and!; try done. lia.
Qed.

(** C35: What the backward writer closes, the backward reader reads. For any
    fields of up to 31 bits added and flushed one by one into a region of the
    size [capacity_for] asks, no store leaves the region and none is lost:
    the closed stream takes the fields' bits and an end mark rounded up to a
    byte, the decoder's reader opens it, reading the widths in reverse order
    gives each field's low bits, last field first, and the reader is then
    finished. *)
Theorem cstream_roundtrip buf fs :
  bytes buf -> Forall (fun f : Z * Z => 0 <= f.2 < 32) fs -> capacity_for (width fs + 1) <= zlen buf ->
  exists size buf' br br',
    write_stream buf fs = (Ok (size, buf') : res DecodeError (Z * list Z)) /\
    size = width fs / 8 + 1 /\ zlen buf' = zlen buf /\ new (ztake size buf') = Ok br /\
    read_all br (reverse (snd <$> fs)) = Ok (reverse ((fun f => f.1 mod 2 ^ f.2) <$> fs), br') /\
    is_finished br' = true.
Proof.
  intros Hb Hfs Hc.
  destruct (returns_inv _ _ (write_stream_ok (E := DecodeError) buf fs Hb Hfs Hc)) as ([size buf'] & Hw & Hs & Hl & Hb' & Hv).
  assert (widths_ok fs) as Hf by (eapply Forall_impl; [exact Hfs|]; intros [? ?]; cbn; lia).
  pose proof (width_nonneg fs Hf) as Hn. unfold capacity_for, div_ceil in Hc.
  set (s := ztake size buf') in *. assert (bytes s) as Hbs by by apply Forall_take.
  assert (zlen s = width fs / 8 + 1) as Hls by (unfold s; rewrite zlen_ztake; divlia).
  destruct (marked_stream s _ _ Hbs Hls Hn (pack_range fs Hf) Hv) as (Hlog & last & Hlast & Hnz).
  pose proof (new_ok s Hbs) as Hnew. destruct (new s) as [br|e| |] eqn:Enew; try done.
  2: { destruct Hnew as [[_ Hnil]|[_ Hz]]; [|congruence]. rewrite Hnil in Hlast. discriminate. }
  assert (foldr Z.add 0 (reverse (snd <$> fs)) = width fs) as Hsum.
  { unfold width. clear. induction (snd <$> fs) as [|x l IH]; [done|].
    rewrite reverse_cons, foldr_app. cbn [foldr]. rewrite <- IH. generalize (reverse l).
    clear. intros l. induction l as [|y l IH]; cbn; lia. }
  destruct (read_all_new s br (reverse (snd <$> fs)) Hbs Enew) as (br' & Hr & Hfin); [|lia|].
  { apply Forall_reverse, Forall_fmap. eapply Forall_impl; [exact Hfs|]. intros [? ?]. cbn. lia. }
  exists size, buf', br, br'. split_and!; try done; [|apply Hfin; lia].
  rewrite Hr, Hlog, Hv, <- (Z.mul_1_r (2 ^ width fs)), take_all_pack by done. done.
Qed.

Lemma cstream_roundtrip_witness : exists buf' br br',
  write_stream (zrepeat 0 12) [(0x1AB, 8); (5, 3); (700, 10)] = (Ok (3, buf') : res DecodeError _) /\
  new (ztake 3 buf') = Ok br /\ read_all br [10; 3; 8] = Ok ([700; 5; 0xAB], br') /\ is_finished br' = true.
Proof.
  assert (bytes (zrepeat 0 12)) as Hb by (apply Forall_zrepeat; done).
  assert (Forall (fun f : Z * Z => 0 <= f.2 < 32) [(0x1AB, 8); (5, 3); (700, 10)]) as Hf
    by (repeat constructor; cbn; lia).
  destruct (cstream_roundtrip (zrepeat 0 12) [(0x1AB, 8); (5, 3); (700, 10)] Hb Hf)
    as (size & buf' & br & br' & Hw & Hs & _ & Hn & Hr & Hfin); [vm_compute; discriminate|].
  vm_compute in Hs. subst size. exists buf', br, br'. split; [exact Hw|]. split; [exact Hn|].
  split; [exact Hr|exact Hfin].
Defined.

(** ** The forward writer *)

(** [w] holds the fields [fs]: full bytes, then the bits below [w_pos]. *)
Record written (w : BitWriter) (fs : list (Z * Z)) : Prop := {
  wn_fields : widths_ok fs;
  wn_width : writer_len w = width fs;
  wn_pos : 0 <= w_pos w < 8;
  wn_current : 0 <= w_current w < 2 ^ w_pos w;
  wn_bytes : bytes (w_buf w);
  wn_value : le_val (w_buf w) + 2 ^ (8 * zlen (w_buf w)) * w_current w = pack fs;
}.

Lemma writer_new_ok : written writer_new [].
Proof. by split. Qed.

(** One turn adds the lowest bits that fit. *)
Lemma write_turn w fs x n t : written w fs -> 0 < t <= n -> w_pos w + t <= 8 ->
  let current := Z.lor (w_current w) (wshl 8 (wrap 8 (Z.land x (Z.shiftl 1 t - 1))) (w_pos w)) in
  written (if w_pos w + t =? 8 then MkWriter (w_buf w ++ [current]) 0 0
           else MkWriter (w_buf w) (w_pos w + t) current) (fs ++ [(x, t)]).
Proof.
  intros [Hf Hw Hp Hc Hb Hv] Ht Hs current. unfold writer_len in Hw.
  pose proof (zlen_nonneg (w_buf w)) as Hl0. pose proof (wrap_range t x ltac:(lia)) as Hx. unfold wrap in Hx.
  assert (current = w_current w + x mod 2 ^ t * 2 ^ w_pos w) as Hcur.
  { unfold current. rewrite Z.shiftl_1_l, land_mod by lia. pose proof (pow2_le t 8 ltac:(lia)).
    rewrite wrap_small by lia. rewrite wshl_div by lia. rewrite Z.mod_small; [apply lor_disjoint_add; lia|].
    pose proof (pow2_le (w_pos w + t) 8 ltac:(lia)) as H8. rewrite pow2_add in H8 by lia.
    pose proof (pow2_pos (w_pos w)). nia. }
  assert (0 <= current < 2 ^ (w_pos w + t)) as Hcr.
  { rewrite Hcur, pow2_add by lia. pose proof (pow2_pos (w_pos w)). nia. }
  assert (pack (fs ++ [(x, t)]) = le_val (w_buf w) + 2 ^ (8 * zlen (w_buf w)) * current) as Hpack.
  { rewrite pack_snoc, <- Hv, <- Hw, Hcur by done. replace (zlen (w_buf w) * 8) with (8 * zlen (w_buf w)) by lia.
    rewrite pow2_add by lia. ring. }
  assert (width (fs ++ [(x, t)]) = width fs + t) as Hwd by (rewrite width_app; unfold width at 2; cbn; lia).
  assert (widths_ok (fs ++ [(x, t)])) as Hf'.
  { apply Forall_app. split; [done|]. rewrite Forall_singleton. cbn. lia. }
  destruct (Z.eqb_spec (w_pos w + t) 8) as [H8|H8].
  - rewrite H8 in Hcr. split; cbn; try done; try lia.
    + unfold writer_len. cbn. rewrite zlen_app. unfold zlen at 2. cbn. lia.
    + apply Forall_app. split; [done|]. rewrite Forall_singleton. unfold is_byte. lia.
    + rewrite Hpack, le_val_app. cbn [le_val]. lia.
  - split; cbn; try done; try lia. unfold writer_len. cbn. lia.
Qed.

(** Two fields of one value's consecutive bits are one field. *)
Lemma written_join w fs x a b : written w (fs ++ [(x, a); (x / 2 ^ a, b)]) -> 0 <= a -> 0 <= b ->
  written w (fs ++ [(x, a + b)]).
Proof.
  intros [Hf Hw Hp Hc Hb Hv] Ha H0. apply Forall_app in Hf as [Hf _].
  pose proof (pow2_pos a Ha). pose proof (pow2_pos b H0).
  split; try done.
  - apply Forall_app. split; [done|]. rewrite Forall_singleton. cbn. lia.
  - rewrite Hw, !width_app. unfold width. cbn. lia.
  - rewrite Hv, !pack_app by done. cbn [pack]. rewrite !Z.mul_0_r, !Z.add_0_r, pow2_add by lia.
    rewrite (Z.rem_mul_r x) by lia. done.
Qed.

Lemma write_bits_ok {E} w fs x n : written w fs -> 0 <= n -> 0 <= x ->
  returns (fun w' => written w' (fs ++ [(x, n)])) (write_bits w x n : res E BitWriter).
Proof.
  intros Hw Hn Hx. unfold write_bits.
  apply returns_loopM with
    (I := fun '(w, v, bits) => 0 <= bits <= n /\ v = x / 2 ^ (n - bits) /\ written w (fs ++ [(x, n - bits)]))
    (m := fun '(_, _, bits) => Z.to_nat bits).
  - split; [lia|]. rewrite Z.sub_diag. change (2 ^ 0) with 1. rewrite Z.div_1_r. split; [done|].
    destruct Hw as [Hf Hwd Hp Hc Hb Hv]. split; try done.
    + apply Forall_app. split; [done|]. by rewrite Forall_singleton.
    + rewrite Hwd, width_app. unfold width at 3. cbn. lia.
    + rewrite Hv, pack_snoc by done. change (2 ^ 0) with 1. rewrite Z.mod_1_r. lia.
  - lia.
  - intros [[w' v] bits] (Hb & -> & Hw'). destruct (Z.ltb_spec 0 bits) as [H0|H0].
    + set (t := Z.min (8 - w_pos w') bits). pose proof (wn_pos _ _ Hw').
      assert (0 < t <= bits) as Ht by (unfold t; lia).
      pose proof (write_turn w' _ (x / 2 ^ (n - bits)) bits t Hw' Ht ltac:(unfold t; lia)) as Hturn.
      cbv zeta in Hturn. rewrite <- app_assoc in Hturn. cbn [app] in Hturn.
      apply written_join in Hturn; [|lia|lia]. replace (n - bits + t) with (n - (bits - t)) in Hturn by lia.
      assert (Z.shiftr (x / 2 ^ (n - bits)) t = x / 2 ^ (n - (bits - t))) as Hsh.
      { rewrite shiftr_div by lia. replace (n - (bits - t)) with (n - bits + t) by lia.
        rewrite pow2_add by lia. rewrite Z.div_div; [done| |apply pow2_pos; lia].
        pose proof (pow2_pos (n - bits)). lia. }
      destruct (w_pos w' + t =? 8); cbn; rewrite Hsh; split_and!; done || lia.
    + assert (bits = 0) as -> by lia. cbn. by rewrite Z.sub_0_r in Hw'.
Qed.

(** The finished bytes are the fields, padded with zeros. *)
Lemma writer_finish_ok w fs : written w fs ->
  le_val (writer_finish w) = pack fs /\ zlen (writer_finish w) = div_ceil (width fs) 8.
Proof.
  intros [Hf Hw Hp Hc Hb Hv]. unfold writer_finish, writer_len, div_ceil in *.
  destruct (Z.ltb_spec 0 (w_pos w)).
  - rewrite le_val_app, zlen_app. cbn [le_val]. unfold zlen at 3. cbn [length]. split; [lia|divlia].
  - assert (w_pos w = 0) as H0 by lia. rewrite H0 in *. change (2 ^ 0) with 1 in Hc. split; [|divlia].
    rewrite <- Hv. replace (w_current w) with 0 by lia. lia.
Qed.
