(* ===== verification/FseEncode.v ===== *)
(** * FSE compression tables and streams ([src/fse.rs])

    [FseCTable], built from a distribution or for one symbol, its state
    machine [FseCState], and the two coders over [BitCStream]: the sequences'
    three interleaved states ([encode_sequences]) and the Huffman weights' two
    ([compress_using_ctable]). The proofs are in [FseEncodeProofs]. The debug
    assertions are assertions of the model. *)

From S2P Require Import Prelude Words Constants Errors BitCStream.

Definition MAX_SEQ : Z := MAX_ML.
Definition FSE_CTABLE_MAX_LOG : Z := 9.

(** [SymbolTT]: an [i32] and a [u32]. *)
Record SymbolTT := MkTT {
  delta_find_state : Z;
  delta_nb_bits : Z;
}.

Definition tt_default : SymbolTT := MkTT 0 0.

(** [FseCTable]. *)
Record FseCTable := MkCTable {
  ct_log : Z;
  state_table : list Z;
  symbol_tt : list SymbolTT;
  ct_max_symbol : Z;
}.

(** [FseCTable::default]. *)
Definition ctable_default : FseCTable :=
  MkCTable 0 (zrepeat 0 (Z.shiftl 1 FSE_CTABLE_MAX_LOG)) (zrepeat tt_default (MAX_SEQ + 1)) 0.

(** [highest_bit]. *)
Definition highest_bit (v : Z) : Z := if v =? 0 then 0 else 31 - leading_zeros 32 v.

Section build.
Context {E : Type}.

(** Step 1: running totals, and the low-probability symbols from the top. *)
Definition count_symbol (norm : list Z) (st : list Z * Z * list Z) (s : Z) : res E (list Z * Z * list Z) :=
  let '(cumul, high_threshold, table_symbol) := st in
  n ← idx norm s;
  c ← idx cumul s;
  if n =? -1 then
    cumul ← store cumul (s + 1) (wrap 16 (c + 1));
    table_symbol ← store table_symbol high_threshold (wrap 8 s);
    Ok (cumul, wsub 32 high_threshold 1, table_symbol)
  else
    cumul ← store cumul (s + 1) (wrap 16 (c + wrap 16 n));
    Ok (cumul, high_threshold, table_symbol).

(** [while pos > high_threshold { .. }]. *)
Definition skip_over (table_size step mask high_threshold pos : Z) : res E Z :=
  loopM (Z.to_nat table_size + 1) (fun pos =>
    if high_threshold <? pos then Ok (inl (Z.land (pos + step) mask)) else Ok (inr pos)) pos.

(** Step 2, one occurrence of [s]. *)
Definition spread_one (table_size step mask high_threshold s : Z) (st : list Z * Z) (_ : Z)
    : res E (list Z * Z) :=
  let '(table_symbol, pos) := st in
  table_symbol ← store table_symbol pos (wrap 8 s);
  pos ← skip_over table_size step mask high_threshold (Z.land (pos + step) mask);
  Ok (table_symbol, pos).

Definition spread_symbol (norm : list Z) (table_size step mask high_threshold : Z) (st : list Z * Z) (s : Z)
    : res E (list Z * Z) :=
  n ← idx norm s;
  let count := if n <=? 0 then 0 else n in
  foldM (spread_one table_size step mask high_threshold s) st (seqZ 0 count).

(** Step 3, one cell: the next state of its symbol. *)
Definition link_cell (table_size : Z) (table_symbol : list Z) (st : list Z * list Z) (u : Z)
    : res E (list Z * list Z) :=
  let '(states, cumul) := st in
  s ← idx table_symbol u;
  i ← idx cumul s;
  states ← store states i (wrap 16 (table_size + u));
  cumul ← store cumul s (wrap 16 (i + 1));
  Ok (states, cumul).

(** Step 4: the transform of a symbol whose count is [prob]. *)
Definition transform (table_log table_size total prob : Z) : SymbolTT :=
  if prob =? 0 then MkTT 0 (Z.shiftl (table_log + 1) 16 - table_size)
  else if prob =? 1 then MkTT (total - 1) (Z.shiftl table_log 16 - table_size)
  else
    let max_bits_out := table_log - highest_bit (prob - 1) in
    let min_state_plus := Z.shiftl prob max_bits_out in
    MkTT (total - prob) (wsub 32 (Z.shiftl max_bits_out 16) min_state_plus).

(** The count step 4 takes of the [s]-th symbol. *)
Definition prob_of (norm : list Z) (s : Z) : Z :=
  match zget norm s with
  | None => 0
  | Some n => if n =? -1 then 1 else Z.max n 0
  end.

Definition transform_symbol (norm : list Z) (table_log table_size : Z) (st : list SymbolTT * Z) (s : Z)
    : list SymbolTT * Z :=
  let '(tts, total) := st in
  let prob := prob_of norm s in
  (tts ++ [transform table_log table_size total prob], total + prob).

(** [FseCTable::build]. *)
Definition ct_build (t : FseCTable) (norm : list Z) (max_symbol table_log : Z) : res E FseCTable :=
  _ ← rassert ((table_log <=? FSE_CTABLE_MAX_LOG) && (max_symbol <=? MAX_SEQ));
  let table_size := Z.shiftl 1 table_log in
  let table_mask := table_size - 1 in
  let cumul := zrepeat 0 (MAX_SEQ + 2) in
  let table_symbol := zrepeat 0 (Z.shiftl 1 FSE_CTABLE_MAX_LOG) in
  let symbols := seqZ 0 (max_symbol + 1) in
  '(cumul, high_threshold, table_symbol) ←
    foldM (count_symbol norm) (cumul, table_size - 1, table_symbol) symbols;
  cumul ← store cumul (max_symbol + 1) (wrap 16 (table_size + 1));
  let step := Z.shiftr table_size 1 + Z.shiftr table_size 3 + 3 in
  '(table_symbol, pos) ←
    foldM (spread_symbol norm table_size step table_mask high_threshold) (table_symbol, 0) symbols;
  _ ← rassert (pos =? 0);
  '(states, _) ← foldM (link_cell table_size table_symbol) (state_table t, cumul) (seqZ 0 table_size);
  norm ← slice norm 0 (max_symbol + 1);
  let '(tts, _) := foldl (transform_symbol norm table_log table_size) ([], 0) (seqZ 0 (MAX_SEQ + 1)) in
  Ok (MkCTable table_log states tts max_symbol).

(** [FseCTable::build_rle]. *)
Definition ct_build_rle (t : FseCTable) (symbol : Z) : res E FseCTable :=
  states ← store (state_table t) 0 0;
  Ok (MkCTable 0 states (zrepeat tt_default (MAX_SEQ + 1)) symbol).

(** [FseCTable::next_state]; its unchecked lookup is checked. *)
Definition ct_next_state (t : FseCTable) (shifted dfs : Z) : res E Z :=
  let i := wrap 32 (shifted + dfs) in
  _ ← rassert (i <? Z.shiftl 1 (ct_log t));
  idx (state_table t) i.

(** [FseCTable::init_state]. *)
Definition init_state (t : FseCTable) (symbol : Z) : res E Z :=
  stt ← idx (symbol_tt t) symbol;
  let nb_bits := wrap 32 (Z.shiftr (delta_nb_bits stt + Z.shiftl 1 15) 16) in
  let base_val := wsub 32 (wshl 32 nb_bits 16) (delta_nb_bits stt) in
  _ ← rassert (nb_bits <? 32);
  ct_next_state t (Z.shiftr base_val nb_bits) (delta_find_state stt).

(** [FseCState::encode], of a state of the table [t]. *)
Definition fse_encode (t : FseCTable) (value : Z) (bw : BitCStream) (symbol : Z) : res E (Z * BitCStream) :=
  stt ← idx (symbol_tt t) symbol;
  let nb_bits := Z.shiftr (wadd 32 value (delta_nb_bits stt)) 16 in
  bw ← add_bits bw value nb_bits;
  value ← ct_next_state t (Z.shiftr value nb_bits) (delta_find_state stt);
  Ok (value, bw).

(** [FseCState::flush]. *)
Definition fse_flush (t : FseCTable) (value : Z) (bw : BitCStream) : res E BitCStream :=
  bw ← add_bits bw value (ct_log t);
  flush_bits bw.
End build.

(** ** Sequences *)

(** [Seq]. *)
Record Seq := MkSeq {
  lit_len : Z;
  off_base : Z;
  ml_base : Z;
}.

(** [LL_BITS_BY_CODE] and [ML_BITS_BY_CODE]. *)
Definition pad_bits (bits : list Z) : list Z := vresize bits 256 0.

(** The three tables and states of a run. *)
Record SeqTablesC := MkTablesC { tc_ll : FseCTable; tc_of : FseCTable; tc_ml : FseCTable }.

Section sequences.
Context {E : Type}.

(** The body of the loop of [encode_sequences_body], of one sequence and its
    codes; the states are (ml, of, ll). *)
Definition encode_sequence (t : SeqTablesC) (st : Z * Z * Z * BitCStream) (q : Seq * (Z * Z * Z))
    : res E (Z * Z * Z * BitCStream) :=
  let '(ml, of_, ll, bw) := st in
  let '(seq, (ll_c, of_c, ml_c)) := q in
  ll_bits ← idx (pad_bits LL_BITS) ll_c;
  ml_bits ← idx (pad_bits ML_BITS) ml_c;
  '(of_, bw) ← fse_encode (tc_of t) of_ bw of_c;
  '(ml, bw) ← fse_encode (tc_ml t) ml bw ml_c;
  '(ll, bw) ← fse_encode (tc_ll t) ll bw ll_c;
  bw ← (if 64 - 7 - (LL_FSE_LOG + ML_FSE_LOG + OFF_FSE_LOG) <=? of_c + ml_bits + ll_bits
        then flush_bits bw else Ok bw);
  bw ← add_bits bw (lit_len seq) ll_bits;
  bw ← add_bits bw (ml_base seq) ml_bits;
  bw ← (if 56 <? of_c + ml_bits + ll_bits then flush_bits bw else Ok bw);
  bw ← add_bits bw (off_base seq) of_c;
  bw ← flush_bits bw;
  Ok (ml, of_, ll, bw).

(** [encode_sequences_body], of the sequences with their codes (ll, of, ml):
    what is appended to [out]. *)
Definition encode_sequences_body (t : SeqTablesC) (qs : list (Seq * (Z * Z * Z))) (extra_bits : Z)
    : res E (list Z) :=
  let nb_seq := zlen qs in
  let max_bits := extra_bits + nb_seq * (LL_FSE_LOG + OFF_FSE_LOG + ML_FSE_LOG) + 1 in
  bw ← cstream_new (zrepeat 0 (capacity_for max_bits));
  let last := nb_seq - 1 in
  '(seq, (ll_c, of_c, ml_c)) ← idx qs last;
  ml ← init_state (tc_ml t) ml_c;
  of_ ← init_state (tc_of t) of_c;
  ll ← init_state (tc_ll t) ll_c;
  ll_bits ← idx (pad_bits LL_BITS) ll_c;
  bw ← add_bits bw (lit_len seq) ll_bits;
  ml_bits ← idx (pad_bits ML_BITS) ml_c;
  bw ← add_bits bw (ml_base seq) ml_bits;
  bw ← add_bits bw (off_base seq) of_c;
  bw ← flush_bits bw;
  '(ml, of_, ll, bw) ← foldM (encode_sequence t) (ml, of_, ll, bw) (reverse (ztake last qs));
  bw ← fse_flush (tc_ml t) ml bw;
  bw ← fse_flush (tc_of t) of_ bw;
  bw ← fse_flush (tc_ll t) ll bw;
  '(size, buf) ← close bw;
  _ ← rassert (negb (size =? 0));
  Ok (ztake size buf).
End sequences.

(** ** Huffman weights *)

Section weights.
Context {E : Type} (ct : FseCTable).

(** [state.encode(&mut bw, next(&mut ip))]: the source is walked from its
    end, so it is held reversed. *)
Definition encode_next (ip : list Z) (v : Z) (bw : BitCStream) : res E (list Z * Z * BitCStream) :=
  match ip with
  | x :: ip => '(v, bw) ← fse_encode ct v bw x; Ok (ip, v, bw)
  | [] => Fault
  end.

(** The second state's symbol, then the first's. *)
Definition encode_both (st : list Z * Z * Z * BitCStream) : res E (list Z * Z * Z * BitCStream) :=
  let '(ip, s1, s2, bw) := st in
  '(ip, s2, bw) ← encode_next ip s2 bw;
  '(ip, s1, bw) ← encode_next ip s1 bw;
  Ok (ip, s1, s2, bw).

(** The states' first symbols, and a third for an odd count. *)
Definition weights_start (odd : bool) (ip : list Z) (bw : BitCStream) : res E (list Z * Z * Z * BitCStream) :=
  match ip with
  | a :: b :: ip =>
      if odd then
        s1 ← init_state ct a;
        s2 ← init_state ct b;
        '(ip, s1, bw) ← encode_next ip s1 bw;
        bw ← flush_bits bw;
        Ok (ip, s1, s2, bw)
      else
        s2 ← init_state ct a;
        s1 ← init_state ct b;
        Ok (ip, s1, s2, bw)
  | _ => Fault
  end.

(** One turn of the loop, four symbols. *)
Definition weights_turn (st : list Z * Z * Z * BitCStream)
    : res E (list Z * Z * Z * BitCStream + Z * Z * BitCStream) :=
  let '(ip, s1, s2, bw) := st in
  if 0 <? zlen ip then
    st ← encode_both st;
    '(ip, s1, s2, bw) ← encode_both st;
    bw ← flush_bits bw;
    Ok (inl (ip, s1, s2, bw))
  else Ok (inr (s1, s2, bw)).

(** [compress_using_ctable]: what is appended to [out], empty for a source of
    two bytes or fewer. *)
Definition compress_using_ctable (src : list Z) : res E (list Z) :=
  let src_size := zlen src in
  if src_size <=? 2 then Ok []
  else
    bw ← cstream_new (zrepeat 0 (src_size + Z.shiftr src_size 7 + 4 + 8));
    st ← weights_start (negb (Z.land src_size 1 =? 0)) (reverse src) bw;
    let src_size := src_size - 2 in
    st ←
      (if negb (Z.land src_size 2 =? 0) then
         '(ip, s1, s2, bw) ← encode_both st;
         bw ← flush_bits bw;
         Ok (ip, s1, s2, bw)
       else Ok st);
    '(s1, s2, bw) ← loopM (length src) weights_turn st;
    bw ← fse_flush ct s2 bw;
    bw ← fse_flush ct s1 bw;
    '(size, buf) ← close bw;
    Ok (ztake size buf).
End weights.
