(* ===== verification/FseEncodeProofs.v ===== *)
(** * FSE compression tables mirror the decoding tables

    [FseCTable.build] spreads the symbols as the decoder's builder does, and
    its state machine runs the decoder's backwards: coding a symbol emits the
    bits that take the decoder from that symbol's cell to the state before
    ([FseCodec], the interface the streams' proofs use). *)

From S2P Require Import Prelude Words Constants Errors FseTable FseCounts FseBuild.
From S2P Require Import BitCStream FseEncode.

(** ** Spreading as the decoder does *)

(** What step 1 leaves: the running totals of the counts [l] of the symbols
    from [s] on, and the low-probability symbols down from cell [h - 1]. *)
Record counted (s c0 h : Z) (l cumul ts : list Z) (r : list Z * Z * list Z) : Prop := {
  cd_high : r.1.2 = wrap 32 (h - zlen (lows_from s l) - 1);
  cd_len : zlen r.2 = zlen ts;
  cd_at : forall k x, zget (lows_from s l) k = Some x -> zget r.2 (h - 1 - k) = Some x;
  cd_keep : forall i, i < h - zlen (lows_from s l) \/ h <= i -> zget r.2 i = zget ts i;
  cd_cumul_len : zlen r.1.1 = zlen cumul;
  cd_cumul : forall k, 0 <= k <= zlen l -> zget r.1.1 (s + k) = Some (c0 + cell_sum (ztake k l));
  cd_cumul_keep : forall j, j < s -> zget r.1.1 j = zget cumul j;
}.

Lemma ztake_cons {A} (x : A) l k : 0 < k -> ztake k (x :: l) = x :: ztake (k - 1) l.
Proof. intros. unfold ztake. by replace (Z.to_nat k) with (S (Z.to_nat (k - 1))) by lia. Qed.

Lemma cell_sum_cons x l : cell_sum (x :: l) = Z.abs x + cell_sum l.
Proof. done. Qed.

Lemma count_symbols_ok {E} norm l s c0 h cumul ts :
  Forall (fun c => -1 <= c) l -> (forall k, 0 <= k < zlen l -> zget norm (s + k) = zget l k) ->
  0 <= s -> s + zlen l <= 256 -> s + zlen l < zlen cumul -> zget cumul s = Some c0 -> 0 <= c0 ->
  c0 + cell_sum l < 2 ^ 16 -> zlen (lows_from s l) <= h <= zlen ts -> h <= 2 ^ 9 ->
  returns (counted s c0 h l cumul ts)
    (foldM (count_symbol norm) (cumul, wrap 32 (h - 1), ts) (seqZ s (zlen l)) : res E _).
Proof.
  intros Hl. revert s c0 h cumul ts.
  induction Hl as [|n l Hn Hl IH]; intros s c0 h cumul ts Hnorm Hs Hs2 Hc Hc0 Hc1 Hsum Hh H9.
  - change (zlen (@nil Z)) with 0. cbn. split; cbn; try done.
    + change (zlen (lows_from s [])) with 0. f_equal. lia.
    + intros k x []%zget_Some. done.
    + intros k Hk. change (zlen (@nil Z)) with 0 in Hk. replace k with 0 by lia.
      change (ztake 0 (@nil Z)) with (@nil Z). change (cell_sum []) with 0. by rewrite !Z.add_0_r.
  - rewrite zlen_cons in *. pose proof (zlen_nonneg l). rewrite cell_sum_cons in Hsum.
    pose proof (cell_sum_nonneg l). rewrite lows_from_cons in *. rewrite zlen_app in Hh.
    change (2 ^ 9) with 512 in *. change (2 ^ 16) with 65536 in *.
    rewrite seqZ_cons by lia. cbn [foldM].
    replace (Z.pred (zlen l + 1)) with (zlen l) by lia. unfold Z.succ.
    assert (zget norm s = Some n) as Hns.
    { specialize (Hnorm 0 ltac:(lia)). by rewrite Z.add_0_r in Hnorm. }
    assert (forall k, 0 <= k < zlen l -> zget norm (s + 1 + k) = zget l k) as Hnorm'.
    { intros k Hk. specialize (Hnorm (k + 1) ltac:(lia)). rewrite zget_cons in Hnorm.
      destruct (Z.eqb_spec (k + 1) 0), (Z.ltb_spec (k + 1) 0); try lia.
      replace (s + 1 + k) with (s + (k + 1)) by lia. rewrite Hnorm. f_equal. lia. }
    pose proof (zget_lt _ _ _ Hc0) as Hsl. unfold count_symbol at 2.
    rewrite (idx_ok _ _ _ Hns), (idx_ok _ _ _ Hc0). cbn [mbind res_bind].
    pose proof (zlen_nonneg (lows_from (s + 1) l)).
    destruct (n =? -1) eqn:Hne; [apply Z.eqb_eq in Hne; subst n|].
    + change (zlen [s]) with 1 in Hh. rewrite (wrap_small 32 (h - 1)) by lia.
      rewrite !store_ok by lia. cbn [mbind res_bind].
      rewrite (wrap_small 16), (wrap_small 8) by (cbn in *; lia).
      unfold wsub. cbn [Z.abs] in Hsum.
      eapply returns_mono; [apply (IH (s + 1) (c0 + 1)); rewrite ?zlen_zset; try done; try lia|].
      { rewrite zget_zset_eq by lia. done. }
      intros [[cu hi] ts'] [L1 L2 L3 L4 L5 L6 L7]; cbn in *.
      split; cbn; rewrite ?lows_from_cons, ?Z.eqb_refl; cbn [app].
      * rewrite L1, zlen_cons. f_equal. lia.
      * by rewrite L2, zlen_zset.
      * intros k x. rewrite zget_cons. case_bool; [intros [= <-]; subst k|case_bool; [done|]].
        -- rewrite L4 by lia. rewrite zget_zset by lia. by rewrite Z.sub_0_r, Z.eqb_refl.
        -- intros Hk. rewrite <- (L3 _ _ Hk). f_equal. lia.
      * intros i Hi. rewrite zlen_cons in Hi. rewrite L4 by lia. rewrite zget_zset by lia. case_bool; [lia|done].
      * by rewrite L5, zlen_zset.
      * intros k Hk. destruct (Z.eq_dec k 0) as [->|].
        -- change (ztake 0 (-1 :: l)) with (@nil Z). change (cell_sum []) with 0.
           rewrite Z.add_0_r, L7, zget_zset_ne by lia. by rewrite Hc0, Z.add_0_r.
        -- replace (s + k) with (s + 1 + (k - 1)) by lia. rewrite zlen_cons in Hk. rewrite L6 by lia.
           rewrite ztake_cons, cell_sum_cons by lia. f_equal. cbn. lia.
      * intros j Hj. rewrite L7, zget_zset_ne by lia. done.
    + change (zlen (@nil Z)) with 0 in Hh. apply Z.eqb_neq in Hne. rewrite (wrap_small 16 n) by (cbn; lia). rewrite store_ok by lia. cbn [mbind res_bind].
      rewrite (wrap_small 16) by (cbn; lia).
      eapply returns_mono; [apply (IH (s + 1) (c0 + n)); rewrite ?zlen_zset; try done; try lia|].
      { rewrite zget_zset_eq by lia. done. }
      intros [[cu hi] ts'] [L1 L2 L3 L4 L5 L6 L7]; cbn in *. apply Z.eqb_neq in Hne.
      split; cbn; rewrite ?lows_from_cons, ?Hne; cbn [app]; try done.
      * by rewrite L5, zlen_zset.
      * apply Z.eqb_neq in Hne. intros k Hk. destruct (Z.eq_dec k 0) as [->|].
        -- change (ztake 0 (n :: l)) with (@nil Z). change (cell_sum []) with 0.
           rewrite Z.add_0_r, L7, zget_zset_ne by lia. by rewrite Hc0, Z.add_0_r.
        -- replace (s + k) with (s + 1 + (k - 1)) by lia. rewrite zlen_cons in Hk. rewrite L6 by lia.
           rewrite ztake_cons, cell_sum_cons by lia. f_equal. lia.
      * intros j Hj. rewrite L7, zget_zset_ne by lia. done.
Qed.

(** ** The spread, in step with the decoder's *)

Lemma set_base_bases dt i s dt' : set_base dt i s = Ok dt' ->
  forall E, store (bases dt) i s = (Ok (bases dt') : res E (list Z)).
Proof.
  unfold set_base. intros H E. destruct (idx dt i) as [c| | |] eqn:Ec; cbn in H; try done.
  unfold store in *. assert (zlen (bases dt) = zlen dt) as -> by apply zlen_fmap.
  destruct ((0 <=? i) && (i <? zlen dt)); [|done]. injection H as <-.
  unfold bases, zset. by rewrite list_fmap_insert.
Qed.

Section spread.
Context {E : Type} (size step mask ht : Z).

Lemma skip_over_sim p v : skip_high size step mask ht p = Ok v ->
  skip_over size step mask (ht - 1) p = (Ok v : res E Z).
Proof.
  intros H. unfold skip_high in H. unfold skip_over.
  eapply (loopM_sim eq eq) in H as (v' & Hv & <-); [exact Hv|done|].
  intros a b r <- Hr. cbn beta in Hr |- *.
  replace (ht - 1 <? a) with (ht <=? a); [destruct (ht <=? a); injection Hr as <-; by eexists|].
  apply eq_iff_eq_true. rewrite Z.leb_le, Z.ltb_lt. lia.
Qed.

Lemma spread_one_sim s dt p x y dt' p' : 0 <= s < 256 ->
  place_one size step mask ht s (dt, p) x = Ok (dt', p') ->
  spread_one size step mask (ht - 1) s (bases dt, p) y = (Ok (bases dt', p') : res E _).
Proof.
  intros Hs H. unfold place_one in H. unfold spread_one. rewrite wrap_small by (cbn; lia).
  destruct (set_base dt p s) as [dt1| | |] eqn:E1; cbn [mbind res_bind] in H; try done.
  rewrite (set_base_bases _ _ _ _ E1). cbn [mbind res_bind].
  destruct (skip_high _ _ _ _ _) as [p1| | |] eqn:E2; cbn [mbind res_bind] in H; try done.
  rewrite (skip_over_sim _ _ E2). cbn [mbind res_bind]. by injection H as -> ->.
Qed.
End spread.

Lemma spread_symbols_sim {E} norm size step mask ht hi counts dt r :
  (forall k, 0 <= k < zlen counts -> zget norm k = zget counts k) -> zlen counts <= 256 ->
  (0 < ht -> hi = ht - 1) -> (0 < ht \/ Forall (fun c => c <= 0) counts) ->
  foldM (place_symbol size step mask ht) (dt, 0) (enumerate counts) = Ok r ->
  foldM (spread_symbol norm size step mask hi) (bases dt, 0) (seqZ 0 (zlen counts)) =
    (Ok (bases r.1, r.2) : res E _).
Proof.
  intros Hnorm Hlen Hhi Hpos H.
  eapply (foldM_sim (fun a b => b = (bases a.1, a.2))
    (fun '(s, n) s' => s = s' /\ zget norm s = Some n /\ 0 <= s < 256 /\ (0 < ht \/ n <= 0))) in H
    as (v & Hv & ->); [exact Hv|done| |].
  - apply Forall2_same_length_lookup. split.
    { unfold enumerate. rewrite length_imap, length_seqZ. unfold zlen. lia. }
    intros k [s n] s' H1 H2. unfold enumerate in H1. rewrite list_lookup_imap in H1.
    apply fmap_Some in H1 as (n' & Hk & [= -> ->]). apply lookup_seqZ in H2 as [-> Hk2].
    rewrite <- zget_nat in Hk. pose proof (zget_lt _ _ _ Hk). rewrite Hnorm by lia.
    split_and!; try done; try lia. destruct Hpos as [|Hf]; [by left|right].
    by apply (Forall_zget _ _ _ _ Hf Hk).
  - intros [dt1 p1] b [s n] s' [dt2 p2] -> (<- & Hn & Hs & Hp) Hstep. cbn [fst snd].
    unfold spread_symbol. rewrite (idx_ok _ _ _ Hn). cbn [mbind res_bind].
    replace (if n <=? 0 then 0 else n) with (Z.max n 0) by (destruct (Z.leb_spec n 0); lia).
    unfold place_symbol in Hstep. destruct Hp as [Hp|Hp].
    + rewrite (Hhi Hp). eapply (foldM_sim (fun a b => b = (bases a.1, a.2)) (fun _ _ => True)) in Hstep
        as (v & -> & ->); [by eexists|done| |].
      * by apply Forall2_same_length_lookup.
      * intros [dt3 p3] b x y [dt4 p4] -> _ Hone. cbn [fst snd]. eexists. split; [|done].
        by apply (spread_one_sim size step mask ht s dt3 p3 x y).
    + rewrite Z.max_r in * by lia. cbn in Hstep |- *. injection Hstep as <- <-. by eexists.
Qed.

(** ** The states of a symbol *)

(** The first state index of a symbol. *)
Definition start (counts : list Z) (s : Z) : Z := cell_sum (ztake s counts).

(** What [ct_build] makes of a distribution whose spread is [syms]. *)
Record ct_built (log : Z) (counts syms : list Z) (t : FseCTable) : Prop := {
  cb_log : ct_log t = log;
  cb_size : 2 ^ log <= zlen (state_table t);
  cb_states : forall i s, zget syms i = Some s ->
    zget (state_table t) (start counts s + occurrences s (ztake i syms)) = Some (2 ^ log + i);
  cb_tt : forall s c, zget counts s = Some c ->
    zget (symbol_tt t) s = Some (transform log (2 ^ log) (start counts s) (Z.abs c));
}.

Lemma cell_sum_take_le l n m : 0 <= n <= m -> cell_sum (ztake n l) <= cell_sum (ztake m l).
Proof.
  intros. rewrite <- (ztake_ztake l n m) by lia. rewrite <- (take_drop (Z.to_nat n) (ztake m l)) at 2.
  rewrite cell_sum_app. pose proof (cell_sum_nonneg (drop (Z.to_nat n) (ztake m l))). unfold ztake at 1. lia.
Qed.

Lemma start_next counts s c : zget counts s = Some c -> start counts (s + 1) = start counts s + Z.abs c.
Proof.
  intros Hc. pose proof (zget_lt _ _ _ Hc). pose proof Hc as [_ Hl]%zget_Some. unfold start, ztake.
  replace (Z.to_nat (s + 1)) with (S (Z.to_nat s)) by lia. rewrite (take_S_r _ _ _ Hl), cell_sum_app.
  change (cell_sum [c]) with (Z.abs c + 0). lia.
Qed.

Lemma start_le counts s c : zget counts s = Some c -> 0 <= start counts s /\
  start counts s + Z.abs c <= cell_sum counts.
Proof.
  intros Hc. pose proof (zget_lt _ _ _ Hc). rewrite <- (start_next _ _ _ Hc). split; [apply cell_sum_nonneg|].
  unfold start. rewrite <- (ztake_all counts (zlen counts)) at 2 by lia. apply cell_sum_take_le. lia.
Qed.

(** A state index belongs to one symbol. *)
Lemma start_inj counts s c o s' c' o' : zget counts s = Some c -> zget counts s' = Some c' ->
  0 <= o < Z.abs c -> 0 <= o' < Z.abs c' -> start counts s + o = start counts s' + o' -> s = s'.
Proof.
  intros Hc Hc' Ho Ho' He. pose proof (zget_lt _ _ _ Hc). pose proof (zget_lt _ _ _ Hc').
  pose proof (start_next _ _ _ Hc). pose proof (start_next _ _ _ Hc').
  destruct (Z.lt_trichotomy s s') as [|[|]]; [|done|].
  - pose proof (cell_sum_take_le counts (s + 1) s' ltac:(lia)). unfold start in *. lia.
  - pose proof (cell_sum_take_le counts (s' + 1) s ltac:(lia)). unfold start in *. lia.
Qed.

Section link.
Context {E : Type} (log ms : Z) (counts syms : list Z).
Context (Ht : tiles ms log counts) (Hms : ms <= 255) (Hsp : spread_of log counts syms).

Lemma symbol_range i s : zget syms i = Some s ->
  exists c, zget counts s = Some c /\ 0 <= occurrences s (ztake i syms) < Z.abs c.
Proof.
  intros Hi. destruct (counter_range log ms counts syms Ht Hms Hsp i s Hi) as (c & Hc & _ & _ & Hr).
  exists c. split; [done|]. unfold counter in Hr. rewrite Hc in Hr. cbn in Hr.
  pose proof (occurrences_nonneg s (ztake i syms)). lia.
Qed.

(** After [k] cells. *)
Definition linked (len k : Z) (st : list Z * list Z) : Prop :=
  zlen st.1 = len /\
  (forall s, 0 <= s < zlen counts ->
     zget st.2 s = Some (start counts s + occurrences s (ztake k syms))) /\
  (forall i s, i < k -> zget syms i = Some s ->
     zget st.1 (start counts s + occurrences s (ztake i syms)) = Some (2 ^ log + i)).

Lemma link_cell_ok ts len k st : 0 <= k < 2 ^ log -> 2 ^ log <= len -> zget ts k = zget syms k ->
  linked len k st -> returns (linked len (k + 1)) (link_cell (2 ^ log) ts st k : res E _).
Proof.
  destruct st as [states cumul]. intros Hk Hlen Hts (Hl & Hc & Hi). cbn [fst snd] in *.
  destruct Ht as [Hsum _ Hn Hlog]. unfold ACC_LOG_OFFSET, FSE_MAX_TABLE_LOG, LL_MAX_LOG in Hlog.
  pose proof (size_bounds log Hlog). pose proof Hsp as [Hsl _ _].
  destruct (zget_is_Some syms k ltac:(lia)) as [s Hs]. rewrite Hs in Hts.
  destruct (symbol_range k s Hs) as (c & Hcs & Ho). pose proof (zget_lt _ _ _ Hcs).
  pose proof (start_le _ _ _ Hcs). unfold link_cell. rewrite (idx_ok _ _ _ Hts). cbn [mbind res_bind].
  pose proof (Hc s ltac:(lia)) as Hcu. rewrite (idx_ok _ _ _ Hcu). cbn [mbind res_bind].
  set (o := occurrences s (ztake k syms)) in *. rewrite (store_ok states) by lia. cbn [mbind res_bind].
  rewrite store_ok by by eapply zget_lt. cbn [mbind res_bind returns].
  rewrite !wrap_small by (cbn; lia). split_and!; cbn [fst snd].
  - by rewrite zlen_zset.
  - intros x Hx. rewrite zget_zset by by eapply zget_lt. destruct (Z.eqb_spec s x) as [<-|Hne].
    + destruct (occurrences_ztake_lt s syms k Hs) as [-> _]. f_equal. fold o. lia.
    + rewrite (occurrences_ztake_ne x s) by done. by apply Hc.
  - intros i x Hik Hx. rewrite zget_zset by lia.
    destruct (symbol_range i x Hx) as (cx & Hcx & Hox).
    destruct (Z.eq_dec i k) as [->|].
    + assert (x = s) as -> by congruence. by rewrite Z.eqb_refl.
    + destruct (Z.eqb_spec (start counts s + o) (start counts x + occurrences x (ztake i syms))) as [He|];
        [|by apply Hi; [lia|]].
      assert (s = x) as <- by by eapply (start_inj counts s c o x cx).
      assert (i = k); [|done]. apply (occurrence_unique s syms); try done. fold o. lia.
Qed.

Lemma link_cells_ok ts len states cumul : 2 ^ log <= len -> zlen states = len ->
  (forall i, 0 <= i < 2 ^ log -> zget ts i = zget syms i) ->
  (forall s, 0 <= s < zlen counts -> zget cumul s = Some (start counts s)) ->
  returns (linked len (2 ^ log)) (foldM (link_cell (2 ^ log) ts) (states, cumul) (seqZ 0 (2 ^ log)) : res E _).
Proof.
  intros Hlen Hl Hts Hcu. eapply returns_mono.
  - apply (returns_foldM (fun k => linked len (Z.of_nat k))).
    + split_and!; cbn [fst snd]; [done| |].
      * intros s Hs. rewrite Hcu by done. change (occurrences s (ztake (Z.of_nat 0) syms)) with 0.
        by rewrite Z.add_0_r.
      * intros i s Hi Hs. apply zget_lt in Hs. lia.
    + intros k b st Hk Hst. apply lookup_seqZ in Hk as [-> Hk].
      rewrite Z.add_0_l, Nat2Z.inj_succ. unfold Z.succ. apply link_cell_ok; try done; try lia.
      apply Hts. lia.
  - intros st. by rewrite length_seqZ, Z2Nat.id by (pose proof (pow2_pos log); destruct Ht as [_ _ _ Hg];
      unfold ACC_LOG_OFFSET in Hg; lia).
Qed.
End link.

(** ** The transforms *)

Lemma prob_of_start counts s : Forall (fun c => -1 <= c) counts -> 0 <= s ->
  start counts (s + 1) = start counts s + prob_of counts s.
Proof.
  intros Hlow Hs. unfold prob_of. destruct (zget counts s) as [c|] eqn:Hc.
  - rewrite (start_next _ _ _ Hc). pose proof (Forall_zget _ _ _ _ Hlow Hc) as Hl. cbn beta in Hl.
    destruct (Z.eqb_spec c (-1)); lia.
  - assert (zlen counts <= s).
    { destruct (Z_le_gt_dec (zlen counts) s); [done|].
      destruct (zget_is_Some counts s ltac:(lia)). congruence. }
    unfold start. rewrite !ztake_all by lia. lia.
Qed.

Lemma transforms_ok log size counts n : Forall (fun c => -1 <= c) counts -> 0 <= n ->
  let r := foldl (transform_symbol counts log size) ([], 0) (seqZ 0 n) in
  r.2 = start counts n /\ zlen r.1 = n /\
  forall s, 0 <= s < n -> zget r.1 s = Some (transform log size (start counts s) (prob_of counts s)).
Proof.
  intros Hlow Hn. revert n Hn. apply natlike_ind.
  - cbn. split_and!; [done|done|lia].
  - intros n Hn (IH1 & IH2 & IH3). replace (Z.succ n) with (n + 1) by lia.
    rewrite seqZ_app by lia. change (seqZ (0 + n) 1) with [0 + n]. rewrite Z.add_0_l, foldl_snoc.
    destruct (foldl _ _ (seqZ 0 n)) as [tts total]. cbn [fst snd] in *. subst total.
    cbn [transform_symbol fst snd]. split_and!.
    + by rewrite prob_of_start.
    + rewrite zlen_app, zlen_cons. change (zlen (@nil SymbolTT)) with 0. lia.
    + intros s Hs. destruct (Z.eq_dec s n) as [->|].
      * by rewrite zget_app_r, IH2, Z.sub_diag by lia.
      * rewrite zget_app_l by lia. apply IH3. lia.
Qed.

(** ** The builder *)

Lemma tiles_expand log ms counts : tiles ms log counts -> zlen (expand counts) = 2 ^ log - zlen (lows counts).
Proof.
  intros [Hsum Hlow _ _]. pose proof (expand_lows_length 0 counts Hlow) as HX.
  fold (expand counts) (lows counts) in HX. lia.
Qed.

(** Steps 1 and 2: the symbols lie as in the decoder's table. *)
Lemma spread_symbols_ok {E} norm log counts ts hi :
  tiles 255 log counts -> (forall k, 0 <= k < zlen counts -> zget norm k = zget counts k) ->
  zlen ts = 512 -> hi = wrap 32 (2 ^ log - zlen (lows counts) - 1) ->
  (forall k s, zget (lows counts) k = Some s -> zget ts (2 ^ log - 1 - k) = Some s) ->
  returns (fun '(ts', p) => p = 0 /\ zlen ts' = 512 /\ spread_of log counts (ztake (2 ^ log) ts'))
    (foldM (spread_symbol norm (2 ^ log) (spread_step log) (2 ^ log - 1) hi) (ts, 0)
       (seqZ 0 (zlen counts)) : res E _).
Proof.
  intros Ht Hnorm Hts Hhi Hat. pose proof Ht as [Hsum Hlow Hlen Hlog].
  unfold ACC_LOG_OFFSET, FSE_MAX_TABLE_LOG, LL_MAX_LOG in Hlog. pose proof (size_bounds log Hlog).
  pose proof (tiles_expand _ _ _ Ht) as HX. pose proof (zlen_nonneg (expand counts)).
  pose proof (zlen_nonneg (lows counts)).
  set (dt := MkEntry 0 0 0 <$> ts). assert (bases dt = ts) as Hb.
  { unfold bases, dt. rewrite <- list_fmap_compose. apply list_fmap_id. }
  assert (zlen dt = 512) as Hdt by (unfold dt; by rewrite zlen_fmap).
  destruct (returns_inv _ _ (place_symbols_ok log Hlog (2 ^ log - zlen (lows counts)) counts dt
    ltac:(lia) ltac:(lia) HX)) as ([dt' p'] & Heq & Hl & Hpl & ->).
  eapply (spread_symbols_sim (E := E) norm) in Heq; [|exact Hnorm|lia| |].
  - rewrite Hb in Heq, Hpl. erewrite Heq. cbn [returns fst snd]. split; [done|].
    split; [unfold bases; rewrite zlen_fmap; lia|].
    apply (spread_of_lists log counts ts); try done; lia.
  - intros Hp. rewrite Hhi. apply wrap_small. u32lia.
  - destruct (Z_lt_le_dec 0 (2 ^ log - zlen (lows counts))); [by left|right].
    apply Forall_forall. intros c Hc. apply list_elem_of_lookup_1 in Hc as [i Hi].
    destruct (Z_le_gt_dec c 0); [done|]. exfalso.
    assert (0 < zlen (expand counts)); [|lia]. unfold expand, expand_from.
    assert (In (zrepeat (0 + Z.of_nat i) c) (imap (fun k n => zrepeat (0 + Z.of_nat k) n) counts)) as Hin.
    { apply list_elem_of_In, (list_elem_of_lookup_2 _ i). by rewrite list_lookup_imap, Hi. }
    apply in_split in Hin as (l1 & l2 & ->). rewrite concat_app. cbn [concat].
    rewrite !zlen_app, zlen_zrepeat by lia. pose proof (zlen_nonneg (concat l1)).
    pose proof (zlen_nonneg (concat l2)). lia.
Qed.

(** What any successful build has. *)
Definition ct_ready (log : Z) (counts : list Z) (max_symbol : Z) (t : FseCTable) : Prop :=
  (exists syms, spread_of log counts syms /\ ct_built log counts syms t) /\
  zlen (state_table t) = 512 /\ zlen (symbol_tt t) = MAX_SEQ + 1 /\ ct_max_symbol t = max_symbol.

Lemma ct_build_ok {E} t norm max_symbol log :
  let counts := ztake (max_symbol + 1) norm in
  zlen (state_table t) = 512 -> 0 <= max_symbol <= MAX_SEQ -> max_symbol < zlen norm ->
  tiles MAX_SEQ log counts ->
  returns (ct_ready log counts max_symbol) (ct_build t norm max_symbol log : res E FseCTable).
Proof.
  intros counts Hst Hm Hn Ht. assert (tiles 255 log counts) as Ht255 by (apply (tiles_mono _ _ _ _ Ht); done).
  pose proof Ht as [Hsum Hlow Hlen Hlog]. unfold ACC_LOG_OFFSET, FSE_MAX_TABLE_LOG, LL_MAX_LOG in Hlog.
  pose proof (size_bounds log Hlog). assert (zlen counts = max_symbol + 1) as Hcl by (apply zlen_ztake; lia).
  unfold MAX_SEQ, MAX_ML in *.
  assert (forall k, 0 <= k < zlen counts -> zget norm k = zget counts k) as Hnorm.
  { intros k Hk. unfold counts. by rewrite zget_ztake by lia. }
  pose proof (tiles_expand _ _ _ Ht) as HX. pose proof (zlen_nonneg (expand counts)).
  pose proof (zlen_nonneg (lows counts)).
  unfold ct_build, MAX_SEQ, MAX_ML, FSE_CTABLE_MAX_LOG. rewrite !(proj2 (Z.leb_le _ _)) by lia.
  cbn [andb rassert mbind res_bind]. rewrite Z.shiftl_1_l. change (Z.shiftl 1 9) with 512.
  rewrite <- Hcl. eapply returns_bind.
  { rewrite <- (wrap_small 32 (2 ^ log - 1)) at 1 by u32lia.
    apply (count_symbols_ok norm counts 0 0 (2 ^ log) (zrepeat 0 54) (zrepeat 0 512));
      rewrite ?zlen_zrepeat by lia; fold (lows counts); change (2 ^ 16) with 65536; change (2 ^ 9) with 512;
      done || lia. }
  intros [[cumul hi] ts] [L1 L2 L3 L4 L5 L6 L7]; cbn [fst snd] in *. fold (lows counts) in *.
  rewrite zlen_zrepeat in L2, L5 by lia. rewrite store_ok by lia. cbn [mbind res_bind].
  rewrite !shiftr_div by lia. change (2 ^ 1) with 2. change (2 ^ 3) with 8.
  fold (spread_step log). eapply returns_bind.
  { apply (spread_symbols_ok norm log counts ts hi); done. }
  intros [ts2 p] (-> & Hts2 & Hsp). cbn [rassert Z.eqb mbind res_bind]. eapply returns_bind.
  { apply (link_cells_ok log 52 counts _ Ht ltac:(lia) Hsp ts2 512 (state_table t)); try lia.
    - intros i Hi. by rewrite zget_ztake by lia.
    - intros s Hs. rewrite zget_zset_ne by lia. specialize (L6 s ltac:(lia)). by rewrite !Z.add_0_l in L6. }
  intros [states cu] (K1 & K2 & K3). cbn [fst snd] in *.
  unfold slice. rewrite zslice_ok by lia. cbn [unwrap mbind res_bind]. change (zdrop 0 norm) with norm.
  rewrite Z.sub_0_r, Hcl. fold counts.
  pose proof (transforms_ok log (2 ^ log) counts 53 Hlow ltac:(lia)) as HT.
  change (52 + 1) with 53. destruct (foldl _ _ (seqZ 0 53)) as [tts total]. cbn [fst snd] in HT.
  destruct HT as (_ & HT2 & HT3). cbn [returns]. split; [|split_and!; cbn; try done; lia].
  exists (ztake (2 ^ log) ts2). split; [done|]. split; cbn [ct_log state_table symbol_tt]; try done; try lia.
  - intros i s Hi. apply K3; [|done]. apply zget_lt in Hi. rewrite zlen_ztake in Hi; lia.
  - intros s c Hc. pose proof (zget_lt _ _ _ Hc). rewrite HT3 by lia. do 2 f_equal.
    unfold prob_of. rewrite Hc. pose proof (Forall_zget _ _ _ _ Hlow Hc) as Hl. cbn beta in Hl.
    destruct (Z.eqb_spec c (-1)); lia.
Qed.

(** ** The state machines *)

Lemma highest_bit_log2 v : 0 < v < 2 ^ 32 -> highest_bit v = Z.log2 v.
Proof.
  intros Hv. unfold highest_bit. destruct (Z.eqb_spec v 0); [lia|].
  rewrite leading_zeros_log2 by lia. lia.
Qed.

(** The bit count of a count: [p * 2 ^ m] is the least state that emits it. *)
Lemma count_bits log p : 5 <= log <= 9 -> 2 <= p <= 2 ^ log ->
  let m := log - highest_bit (p - 1) in 1 <= m <= log /\ 2 ^ log < p * 2 ^ m <= 2 * 2 ^ log.
Proof.
  intros Hlog Hp. pose proof (size_bounds log Hlog) as Hb. cbv zeta.
  rewrite highest_bit_log2 by u32lia. set (h := Z.log2 (p - 1)).
  pose proof (Z.log2_spec (p - 1) ltac:(lia)) as [Hh1 Hh2]. fold h in Hh1, Hh2.
  pose proof (Z.log2_nonneg (p - 1)) as Hh0. fold h in Hh0. rewrite Z.pow_succ_r in Hh2 by lia.
  assert (h < log) as Hhl by (apply log2_lt_pow2; lia).
  assert (2 ^ log = 2 ^ (log - h) * 2 ^ h) as Hpow.
  { rewrite <- pow2_add by lia. f_equal. lia. }
  pose proof (pow2_pos (log - h) ltac:(lia)). split; [lia|nia].
Qed.

(** The bits a transform emits from the state [x], and the count's range
    they leave. *)
Lemma transform_encodes log st p x : 5 <= log <= 9 -> 1 <= p <= 2 ^ log -> 2 ^ log <= x < 2 * 2 ^ log ->
  let tt := transform log (2 ^ log) st p in
  exists nb, Z.shiftr (wadd 32 x (delta_nb_bits tt)) 16 = nb /\ 0 <= nb <= log /\
    p <= x / 2 ^ nb < 2 * p /\ delta_find_state tt = st - p.
Proof.
  intros Hlog Hp Hx. pose proof (size_bounds log Hlog) as Hb. cbv zeta. unfold transform.
  destruct (Z.eqb_spec p 0); [lia|]. destruct (Z.eqb_spec p 1) as [->|Hp1]; cbn [delta_nb_bits delta_find_state].
  - exists log. rewrite Z.shiftl_mul_pow2, shiftr_div by lia. change (2 ^ 16) with 65536.
    unfold wadd. rewrite wrap_small by u32lia.
    split; [divlia|]. split; [lia|]. split; [|done].
    assert (x / 2 ^ log = 1) as ->; [|lia]. symmetry. apply Zdiv_unique with (x - 2 ^ log); lia.
  - destruct (count_bits log p Hlog ltac:(lia)) as [Hm Hmsp]. set (m := log - highest_bit (p - 1)) in *.
    rewrite !Z.shiftl_mul_pow2, shiftr_div by lia. change (2 ^ 16) with 65536.
    pose proof (pow2_pos m ltac:(lia)).
    unfold wsub, wadd. rewrite (wrap_small 32 (m * 65536 - p * 2 ^ m)) by u32lia.
    rewrite wrap_small by u32lia.
    destruct (Z_le_gt_dec (p * 2 ^ m) x).
    + exists m. split; [symmetry; apply Zdiv_unique with (x - p * 2 ^ m); lia|]. split; [lia|]. split; [|done].
      split; [apply Z.div_le_lower_bound; lia|apply Z.div_lt_upper_bound; nia].
    + exists (m - 1). split; [symmetry; apply Zdiv_unique with (x - p * 2 ^ m + 65536); lia|].
      split; [lia|]. split; [|done].
      assert (2 ^ m = 2 * 2 ^ (m - 1)) as H2 by (rewrite <- Z.pow_succ_r by lia; f_equal; lia).
      pose proof (pow2_pos (m - 1) ltac:(lia)).
      split; [apply Z.div_le_lower_bound; nia|apply Z.div_lt_upper_bound; nia].
Qed.

Lemma transform_inits log st p : 5 <= log <= 9 -> 1 <= p <= 2 ^ log ->
  let tt := transform log (2 ^ log) st p in
  let nb := wrap 32 (Z.shiftr (delta_nb_bits tt + Z.shiftl 1 15) 16) in
  nb < 32 /\ Z.shiftr (wsub 32 (wshl 32 nb 16) (delta_nb_bits tt)) nb = p /\ delta_find_state tt = st - p.
Proof.
  intros Hlog Hp. pose proof (size_bounds log Hlog) as Hb. cbv zeta. unfold transform.
  change (Z.shiftl 1 15) with 32768. rewrite (shiftr_div _ 16) by lia. change (2 ^ 16) with 65536.
  destruct (Z.eqb_spec p 0); [lia|]. destruct (Z.eqb_spec p 1) as [->|Hp1]; cbn [delta_nb_bits delta_find_state].
  - rewrite Z.shiftl_mul_pow2 by lia. change (2 ^ 16) with 65536.
    assert ((log * 65536 - 2 ^ log + 32768) / 65536 = log) as ->.
    { symmetry. apply Zdiv_unique with (32768 - 2 ^ log); lia. }
    rewrite (wrap_small 32 log) by u32lia.
    rewrite wshl_div by lia. change (2 ^ 16) with 65536.
    rewrite Z.mod_small by u32lia. unfold wsub.
    rewrite wrap_small by u32lia. rewrite shiftr_div by lia.
    split; [lia|]. split; [|done]. symmetry. apply Zdiv_unique with 0; lia.
  - destruct (count_bits log p Hlog ltac:(lia)) as [Hm Hmsp]. set (m := log - highest_bit (p - 1)) in *.
    rewrite !Z.shiftl_mul_pow2 by lia. change (2 ^ 16) with 65536.
    assert (wsub 32 (m * 65536) (p * 2 ^ m) = m * 65536 - p * 2 ^ m) as ->.
    { apply wrap_small. u32lia. }
    assert ((m * 65536 - p * 2 ^ m + 32768) / 65536 = m) as ->.
    { symmetry. apply Zdiv_unique with (32768 - p * 2 ^ m); lia. }
    rewrite (wrap_small 32 m) by u32lia.
    rewrite wshl_div by lia. change (2 ^ 16) with 65536.
    rewrite Z.mod_small by u32lia. unfold wsub.
    rewrite wrap_small by u32lia. rewrite shiftr_div by lia.
    split; [lia|]. split; [|done]. symmetry. apply Zdiv_unique with 0; lia.
Qed.

(** ** The codec: an encoder's machine against a decoder's *)

(** The encoder's value for the decoder's state [i]. *)
Definition state_value (log i : Z) : Z := if log =? 0 then 0 else 2 ^ log + i.

(** What a cell says of its symbol. *)
Definition cell_code (cs : codes) (s : Z) (e : FSEEntry) : Prop :=
  match cs with
  | Some (base, bits) => zget base s = Some (base_value e) /\ zget bits s = Some (extra_bits e)
  | None => base_value e = s
  end.

(** Coding a symbol that [covers] holds of takes the machine of [ct] from the
    value of the state [j] to that of a state [i] whose cell is the symbol's,
    and emits the bits that lead from that cell to [j]. *)
Class FseCodec (ct : FseCTable) (cs : codes) (log : Z) (dt : list FSEEntry) (covers : Z -> Prop) : Prop := {
  codec_log : ct_log ct = log /\ 0 <= log <= 9;
  codec_init : forall s, covers s -> exists i e, 0 <= i < 2 ^ log /\ zget dt i = Some e /\ cell_code cs s e /\
    forall E, init_state ct s = (Ok (state_value log i) : res E Z);
  codec_step : forall s j, covers s -> 0 <= j < 2 ^ log -> exists i e,
    0 <= i < 2 ^ log /\ zget dt i = Some e /\ cell_code cs s e /\ 0 <= num_bits e <= log /\
    next_state e + state_value log j mod 2 ^ num_bits e = j /\
    forall E bw, fse_encode ct (state_value log j) bw s =
      (bw ← add_bits bw (state_value log j) (num_bits e); Ok (state_value log i, bw) : res E _);
}.

Lemma state_value_low log j : 0 <= log -> 0 <= j < 2 ^ log -> state_value log j mod 2 ^ log = j.
Proof.
  intros Hlog Hj. unfold state_value. destruct (Z.eqb_spec log 0) as [->|].
  - change (2 ^ 0) with 1 in *. rewrite Z.mod_1_r. lia.
  - rewrite <- (Z.mul_1_l (2 ^ log)) at 1. rewrite Z.add_comm, Z_mod_plus_full. by apply Z.mod_small.
Qed.

(** A spread is determined by its counts. *)
Lemma spread_of_unique log ms counts syms syms' : tiles ms log counts ->
  spread_of log counts syms -> spread_of log counts syms' -> syms = syms'.
Proof.
  intros Ht [L1 W1 T1] [L2 W2 T2]. pose proof Ht as [Hsum Hlow Hlen Hlog].
  unfold ACC_LOG_OFFSET, FSE_MAX_TABLE_LOG, LL_MAX_LOG in Hlog. pose proof (size_bounds log Hlog).
  pose proof (tiles_expand _ _ _ Ht) as HX. pose proof (zlen_nonneg (expand counts)).
  pose proof (zlen_nonneg (lows counts)).
  apply zlist_eq; [lia|]. intros i Hi. rewrite L1 in Hi.
  destruct (Z_lt_le_dec i (2 ^ log - zlen (lows counts))) as [Hlt|Hge].
  - assert (i ∈ walk log (2 ^ log - zlen (lows counts))) as Hin.
    { rewrite walk_permutation by lia. apply elem_of_seqZ. lia. }
    apply list_elem_of_lookup_1 in Hin as [k Hk]. rewrite <- zget_nat in Hk.
    pose proof (zget_lt _ _ _ Hk) as Hkl. rewrite zlen_walk in Hkl by lia.
    destruct (zget_is_Some (expand counts) (Z.of_nat k) ltac:(lia)) as [s Hs].
    by rewrite (W1 _ _ _ Hk Hs), (W2 _ _ _ Hk Hs).
  - destruct (zget_is_Some (lows counts) (2 ^ log - 1 - i) ltac:(lia)) as [s Hs].
    replace i with (2 ^ log - 1 - (2 ^ log - 1 - i)) by lia.
    by rewrite (T1 _ _ Hs), (T2 _ _ Hs).
Qed.

(** The symbols a distribution gives cells. *)
Definition counted_in (counts : list Z) (s : Z) : Prop := exists c, zget counts s = Some c /\ c <> 0.

Section codec.
Context (cs : codes) (log ms : Z) (counts syms : list Z) (ct : FseCTable) (t : FSETable).
Context (Ht : tiles ms log counts) (Hms : ms <= 255).
Context (Hct : ct_built log counts syms ct) (Hdt : built cs log counts t syms).

Local Lemma tiled : 5 <= log <= 9 /\ 32 <= 2 ^ log <= 512.
Proof.
  destruct Ht as [_ _ _ Hlog]. unfold ACC_LOG_OFFSET, FSE_MAX_TABLE_LOG, LL_MAX_LOG in Hlog.
  split; [done|by apply size_bounds].
Qed.

(** The [o]-th state of a symbol, and its cell. *)
Lemma symbol_state s c o : zget counts s = Some c -> 0 <= o < Z.abs c ->
  exists i e, 0 <= i < 2 ^ log /\ zget (cells t) i = Some e /\ cell_ok cs log (Z.abs c + o) s e /\
    (forall shifted, 0 <= shifted -> shifted + (start counts s - Z.abs c) = start counts s + o ->
     forall E, ct_next_state ct shifted (start counts s - Z.abs c) = (Ok (2 ^ log + i) : res E Z)).
Proof.
  intros Hc Ho. destruct tiled as [Hlog Hb]. pose proof Hdt as [_ _ _ _ Hsp Hcell].
  pose proof (spread_occurrences _ _ _ _ s Ht Hsp) as Hocc. rewrite Hc in Hocc. cbn in Hocc.
  destruct (occurrence_exists s syms o ltac:(lia)) as (i & Hi & Hio).
  destruct (Hcell i s Hi) as (e & He & Hok). pose proof (zget_lt _ _ _ Hi) as Hil.
  rewrite (spread_len _ _ _ Hsp) in Hil. exists i, e. split; [done|]. split; [done|].
  unfold counter in Hok. rewrite Hc, Hio in Hok. split; [exact Hok|].
  intros shifted Hs0 Hs E. pose proof (start_le _ _ _ Hc) as [Hst0 Hst]. destruct Ht as [Hsum _ _ _].
  unfold ct_next_state. rewrite Hs, wrap_small by u32lia.
  destruct Hct as [-> Hcl Hcs _]. rewrite Z.shiftl_1_l, (proj2 (Z.ltb_lt _ _)) by lia.
  cbn [rassert mbind res_bind]. apply idx_ok. rewrite <- (Hcs i s Hi). by rewrite Hio.
Qed.

(** The state of a first symbol reads bits, when the symbol does not have the
    whole table. *)
Lemma built_first s c : zget counts s = Some c -> 0 < Z.abs c < 2 ^ log -> exists i e,
  0 <= i < 2 ^ log /\ zget (cells t) i = Some e /\ cell_code cs s e /\ 1 <= num_bits e <= log /\
  forall E, init_state ct s = (Ok (state_value log i) : res E Z).
Proof.
  intros Hc Hnz. destruct tiled as [Hlog Hb].
  destruct (symbol_state s c 0 Hc ltac:(lia)) as (i & e & Hi & He & Hok & Hnext).
  exists i, e. split; [done|]. split; [done|]. split; [apply Hok|]. split.
  - destruct Hok as (Hk1 & _). rewrite Hk1, Z.add_0_r. pose proof (Z.log2_nonneg (Z.abs c)). pose proof (Z.log2_lt_pow2 (Z.abs c) log ltac:(lia)). lia.
  - intros E. unfold init_state. destruct Hct as [Hl _ _ Htt]. rewrite (idx_ok _ _ _ (Htt s c Hc)).
    cbn [mbind res_bind].
    destruct (transform_inits log (start counts s) (Z.abs c) Hlog ltac:(lia)) as (H1 & H2 & H3).
    rewrite (proj2 (Z.ltb_lt _ _)) by exact H1. cbn [rassert mbind res_bind]. rewrite H2, H3.
    unfold state_value. destruct (Z.eqb_spec log 0); [lia|]. apply Hnext; lia.
Qed.

Lemma built_codec : FseCodec ct cs log (ztake (2 ^ log) (cells t)) (counted_in counts).
Proof.
  destruct tiled as [Hlog Hb]. split.
  - split; [apply Hct|lia].
  - intros s (c & Hc & Hnz). pose proof (count_bound log ms counts Ht s c Hc) as Hcb.
    destruct (symbol_state s c 0 Hc ltac:(lia)) as (i & e & Hi & He & Hok & Hnext).
    exists i, e. split; [done|]. split; [by rewrite zget_ztake|]. split; [apply Hok|].
    intros E. unfold init_state. destruct Hct as [Hl _ _ Htt]. rewrite (idx_ok _ _ _ (Htt s c Hc)).
    cbn [mbind res_bind].
    destruct (transform_inits log (start counts s) (Z.abs c) Hlog ltac:(lia)) as (H1 & H2 & H3).
    rewrite (proj2 (Z.ltb_lt _ _)) by exact H1. cbn [rassert mbind res_bind]. rewrite H2, H3.
    unfold state_value. destruct (Z.eqb_spec log 0); [lia|]. apply Hnext; lia.
  - intros s j (c & Hc & Hnz) Hj. pose proof (count_bound log ms counts Ht s c Hc) as Hcb.
    assert (state_value log j = 2 ^ log + j) as Hv by (unfold state_value; destruct (Z.eqb_spec log 0); lia).
    destruct (transform_encodes log (start counts s) (Z.abs c) (2 ^ log + j) Hlog ltac:(lia) ltac:(lia))
      as (nb & Hnb & Hnbr & Hn & Hdfs).
    set (n := (2 ^ log + j) / 2 ^ nb) in *.
    destruct (symbol_state s c (n - Z.abs c) Hc ltac:(lia)) as (i & e & Hi & He & (Hk1 & Hk2 & Hk3) & Hnext).
    replace (Z.abs c + (n - Z.abs c)) with n in * by lia.
    pose proof (pow2_pos nb ltac:(lia)) as Hp.
    assert (Z.log2 n = log - nb) as Hlg.
    { apply Z.log2_unique; [lia|]. assert (2 ^ log = 2 ^ nb * 2 ^ (log - nb)) as Hpow.
      { rewrite <- pow2_add by lia. f_equal. lia. }
      rewrite Z.pow_succ_r by lia. unfold n.
      split; [apply Z.div_le_lower_bound; lia|apply Z.div_lt_upper_bound; lia]. }
    rewrite Hlg in Hk1, Hk2. replace (log - (log - nb)) with nb in * by lia.
    exists i, e. split; [done|]. split; [by rewrite zget_ztake|]. split; [done|]. rewrite Hk1, Hv.
    split; [lia|]. split.
    + rewrite Hk2. pose proof (Z.div_mod (2 ^ log + j) (2 ^ nb) ltac:(lia)) as Hdm. fold n in Hdm. lia.
    + intros E bw. unfold fse_encode. destruct Hct as [Hl _ _ Htt]. rewrite (idx_ok _ _ _ (Htt s c Hc)).
      cbn [mbind res_bind]. rewrite Hnb. destruct (add_bits bw (2 ^ log + j) nb) as [bw'| | |]; cbn; try done.
      rewrite shiftr_div, Hdfs by lia. fold n. rewrite Hnext by lia. cbn.
      unfold state_value. by destruct (Z.eqb_spec log 0); [lia|].
Qed.
End codec.

(** The one-symbol table writes nothing. *)
Lemma rle_codec ct0 symbol ct base bits (t t' : FSETable) :
  ct_build_rle ct0 symbol = (Ok ct : res DecodeError FseCTable) -> 0 <= symbol <= MAX_SEQ ->
  FseTable.build_rle t symbol base bits = Ok t' ->
  FseCodec ct (Some (base, bits)) 0 (ztake 1 (cells t')) (fun s => s = symbol).
Proof.
  intros Hct Hs Hdt. unfold ct_build_rle in Hct. unfold FseTable.build_rle in Hdt.
  destruct (store (state_table ct0) 0 0) as [states| | |] eqn:Est; cbn [mbind res_bind] in Hct; try done.
  injection Hct as <-. inv_ok. apply idx_inv in E, E0. apply store_inv in E1 as [Hcz ->].
  apply store_inv in Est as [Hsz ->]. cbn [cells reset] in *.
  set (e := MkEntry 0 0 a a0) in *. unfold MAX_SEQ, MAX_ML in *.
  assert (zget (ztake 1 (zset (vresize (cells t) FSE_MAX_TABLE_SIZE entry_default) 0 e)) 0 = Some e) as He.
  { rewrite zget_ztake by lia. by apply zget_zset_eq. }
  assert (forall E, ct_next_state (MkCTable 0 (zset (state_table ct0) 0 0) (zrepeat tt_default (52 + 1)) symbol)
    0 0 = (Ok 0 : res E Z)) as Hnext.
  { intros E2. unfold ct_next_state. change (wrap 32 (0 + 0)) with 0. cbn [ct_log state_table rassert mbind res_bind].
    apply idx_ok. apply zget_zset_eq. lia. }
  split.
  - split; [done|lia].
  - intros s ->. exists 0, e. split; [cbn; lia|]. split; [done|]. split; [done|]. intros E2. unfold init_state.
    cbn [symbol_tt]. rewrite (idx_ok _ _ tt_default) by (apply zget_zrepeat; lia). apply Hnext.
  - intros s j -> Hj. change (2 ^ 0) with 1 in Hj. replace j with 0 by lia. exists 0, e.
    split; [cbn; lia|]. split; [done|]. split; [done|]. split; [cbn; lia|]. split; [done|].
    intros E2 bw. unfold fse_encode. cbn [symbol_tt]. rewrite (idx_ok _ _ tt_default) by (apply zget_zrepeat; lia).
    cbn [mbind res_bind]. change (Z.shiftr (wadd 32 (state_value 0 0) (delta_nb_bits tt_default)) 16) with 0.
    change (num_bits e) with 0. change (state_value 0 0) with 0.
    destruct (add_bits bw 0 0) as [bw'| | |]; cbn [mbind res_bind]; try done. rewrite Hnext. done.
Qed.

Lemma ct_ready_codec cs log ms counts m ct t syms : tiles ms log counts -> ms <= 255 ->
  ct_ready log counts m ct -> built cs log counts t syms ->
  FseCodec ct cs log (ztake (2 ^ log) (cells t)) (counted_in counts).
Proof.
  intros Ht Hms ((syms' & Hsp & Hct) & _) Hb.
  rewrite (spread_of_unique log ms counts syms' syms Ht Hsp (built_spread _ _ _ _ _ Hb)) in Hct.
  by apply (built_codec cs log ms counts syms).
Qed.

(** C34: The encoder's FSE table runs the decoder's backwards. For every
    distribution of at most 53 symbols that tiles a table of up to 2^9 cells,
    the compression table builds: its two passes place every symbol and
    return to where they began, with no index out of range. Against the
    decoding table of the same distribution, from the value of any state [j],
    coding any symbol of nonzero count emits as many low bits of the value as
    that symbol's cell [i] reads, moves to the value of [i], and reading
    those bits takes the decoder from [i] back to [j]; a first symbol needs
    no bits. *)
Theorem fse_tables_inverse ct0 norm max_symbol log t cs t' :
  let counts := ztake (max_symbol + 1) norm in
  zlen (state_table ct0) = 512 -> 0 <= max_symbol <= MAX_SEQ -> max_symbol < zlen norm ->
  0 <= FseTable.max_symbol t <= MAX_SEQ -> codes_cover cs (FseTable.max_symbol t + 1) ->
  build_from_probabilities t log counts cs = Ok t' ->
  exists ct, ct_build ct0 norm max_symbol log = (Ok ct : res DecodeError FseCTable) /\
    FseCodec ct cs log (ztake (2 ^ log) (cells t')) (counted_in counts).
Proof.
  intros counts H512 Hm Hn Htm Hcov Hb. unfold MAX_SEQ, MAX_ML in *.
  pose proof (build_from_probabilities_safe t log counts cs ltac:(lia) Hcov) as Hs. rewrite Hb in Hs.
  destruct Hs as (Ht & _ & syms & Hbuilt).
  assert (tiles MAX_SEQ log counts) as Ht'.
  { destruct Ht as [H1 H2 _ H4]. split; try done. unfold MAX_SEQ, MAX_ML, counts. rewrite zlen_ztake; lia. }
  destruct (returns_inv _ _ (ct_build_ok (E := DecodeError) ct0 norm max_symbol log H512 Hm Hn Ht'))
    as (ct & Hct & Hready).
  exists ct. split; [done|]. by apply (ct_ready_codec cs log 255 counts max_symbol ct t' syms).
Qed.

Lemma fse_tables_inverse_witness : exists t' ct,
  build_from_probabilities (FseTable.new 35) 6 LL_DEFAULT_NORM (Some (DEC_LL_BASE, DEC_LL_BITS)) = Ok t' /\
  ct_build ctable_default LL_DEFAULT_NORM 35 6 = (Ok ct : res DecodeError FseCTable) /\
  FseCodec ct (Some (DEC_LL_BASE, DEC_LL_BITS)) 6 (ztake 64 (cells t')) (counted_in LL_DEFAULT_NORM).
Proof.
  assert (zlen (state_table ctable_default) = 512) as H1 by (vm_compute; reflexivity).
  assert (0 <= 35 <= MAX_SEQ) as H2 by (unfold MAX_SEQ, MAX_ML; lia).
  assert (35 < zlen LL_DEFAULT_NORM) as H3 by (vm_compute; reflexivity).
  assert (0 <= FseTable.max_symbol (FseTable.new 35) <= MAX_SEQ) as H4 by (cbn; unfold MAX_SEQ, MAX_ML; lia).
  assert (codes_cover (Some (DEC_LL_BASE, DEC_LL_BITS)) (FseTable.max_symbol (FseTable.new 35) + 1)) as H5
    by (vm_compute; split; congruence).
  destruct (build_from_probabilities (FseTable.new 35) 6 LL_DEFAULT_NORM (Some (DEC_LL_BASE, DEC_LL_BITS)))
    as [t'|e| |] eqn:E; [|vm_compute in E; discriminate E..].
  destruct (fse_tables_inverse ctable_default LL_DEFAULT_NORM 35 6 (FseTable.new 35)
    (Some (DEC_LL_BASE, DEC_LL_BITS)) t' H1 H2 H3 H4 H5 E) as (ct & Hct & Hc).
  exists t', ct. split; [reflexivity|]. split; [exact Hct|exact Hc].
Defined.
