(* ===== verification/SeqStream.v ===== *)
(** * The sequence stream: what the encoder writes, the decoder reads

    [encode_sequences_body] codes a block's sequences from the last to the
    first, each code with its table's state and each remainder as raw bits.
    Against tables that mirror it ([FseCodec]), the reference decoder of
    [SeqDecode] reads the stream as those sequences in order, to the last
    bit; so does the program's [decode_sequence]. *)

From S2P Require Import Prelude Words Constants Errors FseTable FseCounts FseBuild BitDStream.
From S2P Require Import Copy CopyProofs SeqTables SeqExec SeqDecode SeqRun BitCStream FseEncode FseEncodeProofs.

(** ** Reading fields back from a number *)

(** The number [v] ends with the fields [fs]. *)
Definition holds (v : Z) (fs : list (Z * Z)) : Prop := exists m, v = pack fs + 2 ^ width fs * m.

Lemma width_snoc fs x n : width (fs ++ [(x, n)]) = width fs + n.
Proof. rewrite width_app. unfold width at 2. cbn. lia. Qed.

Lemma holds_top v fs x n : widths_ok fs -> 0 <= n -> holds v (fs ++ [(x, n)]) ->
  rd v (width fs + n) n = Some (x mod 2 ^ n, width fs) /\ holds v fs.
Proof.
  intros Hf Hn [m ->]. pose proof (width_nonneg _ Hf). rewrite pack_snoc, width_snoc by done. split.
  - unfold rd. rewrite (proj2 (Z.leb_le _ _)) by lia.
    replace (width fs + n - n) with (width fs) by lia. do 2 f_equal.
    pose proof (bits_pack fs x n 0 m Hf Hn) as Hb. by rewrite Z.mul_0_r, Z.add_0_r in Hb.
  - exists (x mod 2 ^ n + 2 ^ n * m). rewrite pow2_add by lia. ring.
Qed.

(** ** Sequences in a row *)

(** [n + 1] sequences, the last one without a states update. *)
Fixpoint ref_seqs (v : Z) (ll_dt ml_dt of_dt : list FSEEntry) (n : nat) (u : Z) (st : SeqState)
    : option (list (Z * Z * Z) * Z * SeqState) :=
  '(q, u, st) ← ref_sequence v u st ll_dt ml_dt of_dt (match n with O => true | S _ => false end);
  match n with
  | O => Some ([q], u, st)
  | S n => '(qs, u, st) ← ref_seqs v ll_dt ml_dt of_dt n u st; Some (q :: qs, u, st)
  end.

(** What the sequences of a store mean after the offset history [hist]: the
    literal length, match length and offset of each, and the history left. *)
Fixpoint resolve (hist : list Z) (seqs : list Seq) : list (Z * Z * Z) * list Z :=
  match seqs with
  | [] => ([], hist)
  | s :: seqs =>
      let '(o, hist) := repcode hist (off_base s) (lit_len s =? 0) in
      let '(qs, hist) := resolve hist seqs in
      ((lit_len s, ml_base s + ZSTD_MINMATCH, o) :: qs, hist)
  end.

(** ** A sequence with its codes *)

(** Lengths of a block, a 32-bit offset sum, and the codes of all three. *)
Definition coded_seq (q : Seq * (Z * Z * Z)) : Prop :=
  let '(s, (ll_c, of_c, ml_c)) := q in
  0 <= lit_len s < 2 ^ 17 /\ 0 <= ml_base s < 2 ^ 17 /\ 1 <= off_base s < 2 ^ 32 /\
  (ll_code (lit_len s) : res Empty_set Z) = Ok ll_c /\ (ml_code (ml_base s) : res Empty_set Z) = Ok ml_c /\
  of_c = off_code (off_base s).

Abbreviation ll_codes := (Some (DEC_LL_BASE, DEC_LL_BITS)).
Abbreviation ml_codes := (Some (DEC_ML_BASE, DEC_ML_BITS)).
Abbreviation of_codes := (Some (DEC_OF_BASE, DEC_OF_BITS)).

(** The raw bits of a sequence. *)
Definition raw_bits (q : Seq * (Z * Z * Z)) : Z :=
  let '(_, (ll_c, of_c, ml_c)) := q in
  default 0 (zget LL_BITS ll_c) + default 0 (zget ML_BITS ml_c) + of_c.

(** A remainder's bits: as many as the code says, and they complete its base. *)
Lemma code_bits base bits off c v n e : code_decodes base bits off c v = true -> zget bits c = Some n ->
  cell_code (Some (base, bits)) c e -> extra_bits e = n /\ base_value e + v mod 2 ^ n = v + off.
Proof.
  unfold code_decodes, cell_code. intros H Hn [Hb Hx]. rewrite Hn in *. rewrite Hb in H.
  injection Hx as <-. split; [done|]. by apply Z.eqb_eq in H.
Qed.

Lemma bits_below (l : list Z) c b : forallb (fun x => (0 <=? x) && (x <=? b)) l = true -> 0 <= c < zlen l ->
  exists n, zget l c = Some n /\ 0 <= n <= b.
Proof.
  intros Hf Hc. destruct (zget_is_Some l c Hc) as [n Hn]. exists n. split; [done|].
  rewrite forallb_forall in Hf. pose proof Hn as [_ Hl]%zget_Some.
  specialize (Hf n ltac:(apply list_elem_of_In; by eapply list_elem_of_lookup_2)). lia.
Qed.

Lemma pad_bits_get bits c n : zlen bits <= 256 -> zget bits c = Some n -> zget (pad_bits bits) c = Some n.
Proof.
  intros Hl Hn. pose proof (zget_lt _ _ _ Hn). unfold pad_bits, vresize.
  rewrite ztake_all by lia. by rewrite zget_app_l by lia.
Qed.

(** The literal length's code, bits and cells. *)
Lemma ll_coded l c : 0 <= l < 2 ^ 17 -> (ll_code l : res Empty_set Z) = Ok c ->
  exists n, zget LL_BITS c = Some n /\ 0 <= n <= 16 /\ 0 <= c <= MAX_LL /\
  (forall E, idx (pad_bits LL_BITS) c = (Ok n : res E Z)) /\
  forall e, cell_code ll_codes c e -> extra_bits e = n /\ base_value e + l mod 2 ^ n = l.
Proof.
  intros Hl Hc. destruct (ll_code_spec l Hl) as (c' & Hc' & Hr & Hd). rewrite Hc in Hc'. injection Hc' as <-.
  destruct (bits_below LL_BITS c 16 eq_refl) as (n & Hn & Hnr); [unfold MAX_LL in Hr; change (zlen LL_BITS) with 36; lia|].
  exists n. split_and!; try done; try lia.
  - intros E. apply idx_ok, pad_bits_get; done.
  - intros e He. destruct (code_bits _ _ _ _ _ n _ Hd Hn He) as [H1 H2]. split; [done|lia].
Qed.

Lemma ml_coded m c : 0 <= m < 2 ^ 17 -> (ml_code m : res Empty_set Z) = Ok c ->
  exists n, zget ML_BITS c = Some n /\ 0 <= n <= 16 /\ 0 <= c <= MAX_ML /\
  (forall E, idx (pad_bits ML_BITS) c = (Ok n : res E Z)) /\
  forall e, cell_code ml_codes c e -> extra_bits e = n /\ base_value e + m mod 2 ^ n = m + ZSTD_MINMATCH.
Proof.
  intros Hm Hc. destruct (ml_code_spec m Hm) as (c' & Hc' & Hr & Hd). rewrite Hc in Hc'. injection Hc' as <-.
  destruct (bits_below ML_BITS c 16 eq_refl) as (n & Hn & Hnr); [unfold MAX_ML in Hr; change (zlen ML_BITS) with 53; lia|].
  exists n. split_and!; try done; try lia.
  - intros E. apply idx_ok, pad_bits_get; done.
  - intros e He. by destruct (code_bits _ _ _ _ _ n _ Hd Hn He) as [H1 H2].
Qed.

(** The offset's code is its number of raw bits. *)
Lemma of_coded o : 1 <= o < 2 ^ 32 -> 0 <= off_code o <= 31 /\ 2 ^ off_code o + o mod 2 ^ off_code o = o /\
  forall e, cell_code of_codes (off_code o) e -> extra_bits e = off_code o.
Proof.
  intros Ho. pose proof (log2_bounds o 32 ltac:(lia)) as Hl.
  assert (off_code o = Z.log2 o) as He.
  { unfold off_code. rewrite highbit32_log2 by lia. apply wrap_small. cbn. lia. }
  rewrite He. split; [lia|]. split; [rewrite mod_highbit by lia; lia|]. intros e [_ Hx].
  pose proof (forall_below_spec 32 (fun c => match zget DEC_OF_BITS c with Some n => n =? c | None => false end)
    eq_refl (Z.log2 o) ltac:(lia)) as H. cbn beta in H. rewrite Hx in H. by apply Z.eqb_eq in H.
Qed.

(** ** The writer's steps *)

Lemma fse_encode_ok {E} ct cs log dt covers `{!FseCodec ct cs log dt covers} bw fs s j :
  writing bw fs -> bc_pos bw + log < 64 -> covers s -> 0 <= j < 2 ^ log ->
  exists i e, 0 <= i < 2 ^ log /\ zget dt i = Some e /\ cell_code cs s e /\ 0 <= num_bits e <= log /\
    next_state e + state_value log j mod 2 ^ num_bits e = j /\
    returns (fun '(v, bw') => v = state_value log i /\ writing bw' (fs ++ [(state_value log j, num_bits e)]) /\
        bc_pos bw' = bc_pos bw + num_bits e /\ bc_end bw' = bc_end bw)
      (fse_encode ct (state_value log j) bw s : res E _).
Proof.
  intros Hw Hp Hs Hj. destruct codec_log as [_ Hlog].
  destruct (codec_step s j Hs Hj) as (i & e & Hi & He & Hc & Hn & Hnext & Heq).
  exists i, e. do 5 (split; [done|]). rewrite Heq. eapply returns_bind; [apply (add_bits_ok bw fs); done || lia|].
  intros bw' (W & P & B). cbn. done.
Qed.

(** A flush that a test may skip. *)
Lemma flush_if_ok {E} bw fs (b : bool) : writing bw fs -> width fs < 8 * bc_end bw ->
  returns (fun bw' => writing bw' fs /\ (b = true -> bc_pos bw' <= 7) /\ (b = false -> bw' = bw) /\
      bc_end bw' = bc_end bw)
    (if b then flush_bits bw else Ok bw : res E BitCStream).
Proof.
  intros Hw Hr. destruct b; [|by cbn]. eapply returns_mono; [by apply (flush_bits_ok bw fs)|].
  intros bw' (W & P & B & _). split; [done|]. split; [rewrite P; intros; divlia|done].
Qed.

Section stream.
Context (t : SeqTablesC) (ll_log of_log ml_log : Z) (ll_dt of_dt ml_dt : list FSEEntry).
Context (in_ll in_of in_ml : Z -> Prop).
Context `{Cll : !FseCodec (tc_ll t) ll_codes ll_log ll_dt in_ll}.
Context `{Cof : !FseCodec (tc_of t) of_codes of_log of_dt in_of}.
Context `{Cml : !FseCodec (tc_ml t) ml_codes ml_log ml_dt in_ml}.
Context (H8 : of_log <= 8).

(** The tables have the sequence's codes. *)
Definition covered (q : Seq * (Z * Z * Z)) : Prop :=
  let '(_, (ll_c, of_c, ml_c)) := q in in_ll ll_c /\ in_of of_c /\ in_ml ml_c.

Abbreviation seqs_of qs := (fst <$> qs : list Seq).
Abbreviation sum_raw qs := (foldr Z.add 0 (raw_bits <$> qs)).

(** The fields [fs] and the states they leave spell the sequences [qs]. *)
Record spells (fs : list (Z * Z)) (jl jo jm : Z) (qs : list (Seq * (Z * Z * Z))) : Prop := {
  sp_fields : widths_ok fs;
  sp_ll : 0 <= jl < 2 ^ ll_log;
  sp_of : 0 <= jo < 2 ^ of_log;
  sp_ml : 0 <= jm < 2 ^ ml_log;
  sp_width : sum_raw qs <= width fs <= sum_raw qs + 26 * (zlen qs - 1);
  sp_reads : forall v hist, holds v fs -> exists st,
    ref_seqs v ll_dt ml_dt of_dt (pred (length qs)) (width fs) (MkSt jl jm jo hist) =
      Some ((resolve hist (seqs_of qs)).1, 0, st) /\ s_hist st = (resolve hist (seqs_of qs)).2;
}.

(** Reading one sequence's raw bits. *)
Lemma ref_raw v fs s ll_c of_c ml_c il io im el eo em hist last :
  coded_seq (s, (ll_c, of_c, ml_c)) -> widths_ok fs ->
  zget ll_dt il = Some el -> zget of_dt io = Some eo -> zget ml_dt im = Some em ->
  cell_code ll_codes ll_c el -> cell_code of_codes of_c eo -> cell_code ml_codes ml_c em ->
  let gs := fs ++ [(lit_len s, extra_bits el)] ++ [(ml_base s, extra_bits em)] ++ [(off_base s, extra_bits eo)] in
  holds v gs ->
  let '(o, h) := repcode hist (off_base s) (lit_len s =? 0) in
  holds v fs /\
  ref_sequence v (width gs) (MkSt il im io hist) ll_dt ml_dt of_dt last =
    let q := (lit_len s, ml_base s + ZSTD_MINMATCH, o) in
    if last then Some (q, width fs, MkSt il im io h)
    else
      '(a, u) ← rd v (width fs) (num_bits el);
      '(b, u) ← rd v u (num_bits em);
      '(c, u) ← rd v u (num_bits eo);
      Some (q, u, MkSt (next_state el + a) (next_state em + b) (next_state eo + c) h).
Proof.
  intros (Hl & Hm & Ho & Hlc & Hmc & ->) Hf El Eo Em Kl Ko Km gs Hv.
  destruct (ll_coded _ _ Hl Hlc) as (nl & _ & Rl & _ & _ & Dl). destruct (Dl el Kl) as [Xl Bl]. clear Dl.
  destruct (ml_coded _ _ Hm Hmc) as (nm & _ & Rm & _ & _ & Dm). destruct (Dm em Km) as [Xm Bm]. clear Dm.
  destruct (of_coded _ Ho) as (Ro & Bo & Do). pose proof (Do eo Ko) as Xo. clear Do.
  assert (gs = ((fs ++ [(lit_len s, nl)]) ++ [(ml_base s, nm)]) ++ [(off_base s, off_code (off_base s))]) as Hgs
    by (unfold gs; by rewrite Xl, Xm, Xo, !app_assoc).
  clearbody gs. subst gs.
  assert (widths_ok (fs ++ [(lit_len s, nl)])) as F1.
  { apply Forall_app. split; [done|]. apply Forall_singleton. cbn. lia. }
  assert (widths_ok ((fs ++ [(lit_len s, nl)]) ++ [(ml_base s, nm)])) as F2.
  { apply Forall_app. split; [done|]. apply Forall_singleton. cbn. lia. }
  apply holds_top in Hv as [R3 Hv]; [|done|lia]. apply holds_top in Hv as [R2 Hv]; [|done|lia].
  apply holds_top in Hv as [R1 Hv]; [|done|lia].
  destruct (repcode hist (off_base s) (lit_len s =? 0)) as [o h] eqn:Hrep. split; [done|].
  unfold ref_sequence. cbn [s_ll s_ml s_of s_hist]. rewrite El, Em, Eo. cbn [mbind option_bind].
  rewrite Xo, width_snoc, R3. cbn [mbind option_bind]. rewrite Xm, width_snoc, R2. cbn [mbind option_bind].
  rewrite Xl, width_snoc, R1. cbn [mbind option_bind]. rewrite Bl, Bm, Bo, Hrep. done.
Qed.

(** The last sequence's raw bits spell it. *)
Lemma spells_last s ll_c of_c ml_c il io im el eo em :
  coded_seq (s, (ll_c, of_c, ml_c)) ->
  0 <= il < 2 ^ ll_log -> 0 <= io < 2 ^ of_log -> 0 <= im < 2 ^ ml_log ->
  zget ll_dt il = Some el -> zget of_dt io = Some eo -> zget ml_dt im = Some em ->
  cell_code ll_codes ll_c el -> cell_code of_codes of_c eo -> cell_code ml_codes ml_c em ->
  widths_ok [(lit_len s, extra_bits el); (ml_base s, extra_bits em); (off_base s, extra_bits eo)] ->
  extra_bits el + extra_bits em + extra_bits eo = raw_bits (s, (ll_c, of_c, ml_c)) ->
  spells [(lit_len s, extra_bits el); (ml_base s, extra_bits em); (off_base s, extra_bits eo)] il io im
    [(s, (ll_c, of_c, ml_c))].
Proof.
  intros Hq Hil Hio Him El Eo Em Kl Ko Km Hw Hraw. split; try done.
  - unfold width. cbn [fmap list_fmap snd foldr]. change (zlen [(s, (ll_c, of_c, ml_c))]) with 1. lia.
  - intros v hist Hv.
    pose proof (ref_raw v [] s ll_c of_c ml_c il io im el eo em hist true Hq ltac:(constructor) El Eo Em Kl Ko Km Hv)
      as Href. cbn [fmap list_fmap fst length Nat.pred resolve ref_seqs app] in Href |- *.
    destruct (repcode hist (off_base s) (lit_len s =? 0)) as [o h]. destruct Href as [_ ->].
    cbn. by eexists.
Qed.

(** A sequence before others: the states' bits, then its raw bits. *)
Lemma spells_cons fs jl jo jm qs s ll_c of_c ml_c il io im el eo em :
  coded_seq (s, (ll_c, of_c, ml_c)) -> spells fs jl jo jm qs -> qs <> [] ->
  0 <= il < 2 ^ ll_log -> 0 <= io < 2 ^ of_log -> 0 <= im < 2 ^ ml_log ->
  zget ll_dt il = Some el -> zget of_dt io = Some eo -> zget ml_dt im = Some em ->
  cell_code ll_codes ll_c el -> cell_code of_codes of_c eo -> cell_code ml_codes ml_c em ->
  0 <= num_bits el <= ll_log -> 0 <= num_bits eo <= of_log -> 0 <= num_bits em <= ml_log ->
  next_state el + state_value ll_log jl mod 2 ^ num_bits el = jl ->
  next_state eo + state_value of_log jo mod 2 ^ num_bits eo = jo ->
  next_state em + state_value ml_log jm mod 2 ^ num_bits em = jm ->
  let gs := (fs ++ [(state_value of_log jo, num_bits eo)] ++ [(state_value ml_log jm, num_bits em)] ++
    [(state_value ll_log jl, num_bits el)]) ++
    [(lit_len s, extra_bits el)] ++ [(ml_base s, extra_bits em)] ++ [(off_base s, extra_bits eo)] in
  widths_ok gs -> extra_bits el + extra_bits em + extra_bits eo = raw_bits (s, (ll_c, of_c, ml_c)) ->
  spells gs il io im ((s, (ll_c, of_c, ml_c)) :: qs).
Proof.
  intros Hq [Fs _ _ _ Ws Rs] Hne Hil Hio Him El Eo Em Kl Ko Km Nl No Nm Sl So Sm gs Hg Hraw.
  pose proof (codec_log (FseCodec := Cll)) as [_ Bl]. pose proof (codec_log (FseCodec := Cml)) as [_ Bm].
  split; try done.
  - unfold gs. rewrite !width_app. unfold width at 2 3 4 5 6 7. cbn. rewrite zlen_cons.
    unfold raw_bits in Hraw. lia.
  - intros v hist Hv. unfold gs in Hg, Hv.
    apply Forall_app in Hg as [Hg _]. set (fs1 := fs ++ _) in *.
    pose proof (ref_raw v fs1 s ll_c of_c ml_c il io im el eo em hist false Hq Hg El Eo Em Kl Ko Km Hv) as Href.
    fold gs in Href. rewrite fmap_cons. cbn [length Nat.pred resolve fst].
    destruct qs as [|q qs]; [done|]. set (rest := q :: qs) in *. cbn [length] in Rs.
    destruct (repcode hist (off_base s) (lit_len s =? 0)) as [o h]. destruct Href as [Hv1 Hseq].
    unfold fs1 in Hv1, Hseq, Hg. rewrite !app_assoc in Hv1, Hseq, Hg.
    pose proof Hg as [Hg2 _]%Forall_app. pose proof Hg2 as [Hg1 _]%Forall_app.
    apply holds_top in Hv1 as [R3 Hv1]; [|done|lia]. apply holds_top in Hv1 as [R2 Hv1]; [|done|lia].
    apply holds_top in Hv1 as [R1 Hv1]; [|done|lia].
    destruct (Rs v h Hv1) as (st & Hst & Hh).
    unfold rest at 1. cbn [length ref_seqs]. rewrite Hseq, width_snoc, R3. cbn [mbind option_bind].
    rewrite width_snoc, R2. cbn [mbind option_bind]. rewrite width_snoc, R1. cbn [mbind option_bind].
    rewrite Sl, So, Sm. change (pred (length rest)) with (length qs) in Hst. rewrite Hst. cbn [mbind option_bind].
    change (fst <$> rest) with (seqs_of rest) in *.
    destruct (resolve h (seqs_of rest)) as [rs hist']. by eexists.
Qed.

(** ** What the encoder writes *)

(** A writer between sequences. *)
Definition between (bw : BitCStream) (fs : list (Z * Z)) (bound : Z) : Prop :=
  writing bw fs /\ bc_pos bw <= 7 /\ bc_end bw = bound.

(** A sequence's bits, its codes' tables, and its cells. *)
Lemma seq_bits s ll_c of_c ml_c : coded_seq (s, (ll_c, of_c, ml_c)) -> exists nl nm,
  (forall E, idx (pad_bits LL_BITS) ll_c = (Ok nl : res E Z)) /\
  (forall E, idx (pad_bits ML_BITS) ml_c = (Ok nm : res E Z)) /\
  0 <= nl <= 16 /\ 0 <= nm <= 16 /\ 0 <= of_c <= 31 /\ nl + nm + of_c = raw_bits (s, (ll_c, of_c, ml_c)) /\
  (forall e, cell_code ll_codes ll_c e -> extra_bits e = nl) /\
  (forall e, cell_code ml_codes ml_c e -> extra_bits e = nm) /\
  (forall e, cell_code of_codes of_c e -> extra_bits e = of_c).
Proof.
  intros (Hl & Hm & Ho & Hlc & Hmc & ->).
  destruct (ll_coded _ _ Hl Hlc) as (nl & Gl & Rl & _ & Il & Dl).
  destruct (ml_coded _ _ Hm Hmc) as (nm & Gm & Rm & _ & Im & Dm).
  destruct (of_coded _ Ho) as (Ro & _ & Do). exists nl, nm. split_and!; try done; try lia.
  - unfold raw_bits. rewrite Gl, Gm. cbn. lia.
  - intros e He. by apply Dl.
  - intros e He. by apply Dm.
Qed.

(** The raw bits and the flushes among them. *)
Lemma raw_ok {E A} bw fs s nl nm no bound (b1 b2 : bool) (k : BitCStream -> res E A) Q :
  writing bw fs -> bc_end bw = bound ->
  0 <= nl <= 16 -> 0 <= nm <= 16 -> 0 <= no <= 31 -> width fs + nl + nm + no < 8 * bound ->
  (b1 = false -> bc_pos bw + nl + nm + no < 64) -> (b2 = false -> nl + nm + no <= 56) ->
  (forall bw', between bw' (fs ++ [(lit_len s, nl)] ++ [(ml_base s, nm)] ++ [(off_base s, no)]) bound ->
    returns Q (k bw')) ->
  returns Q
    (bw ← (if b1 then flush_bits bw else Ok bw);
     bw ← add_bits bw (lit_len s) nl;
     bw ← add_bits bw (ml_base s) nm;
     bw ← (if b2 then flush_bits bw else Ok bw);
     bw ← add_bits bw (off_base s) no;
     bw ← flush_bits bw; k bw).
Proof.
  intros W Hb Hl Hm Ho Hr H1 H2 Hk. pose proof (wr_pos _ _ W).
  eapply returns_bind; [apply (flush_if_ok bw fs b1 W); lia|].
  intros bw1 (W1 & P1 & Q1 & B1). pose proof (wr_pos _ _ W1).
  assert (bc_pos bw1 + nl + nm < 64 /\ (b2 = false -> bc_pos bw1 + nl + nm + no < 64)) as []
    by (destruct b1; [specialize (P1 eq_refl)|rewrite (Q1 eq_refl) in *; specialize (H1 eq_refl)];
        (split; [lia|intros Hb2; specialize (H2 Hb2); lia])).
  eapply returns_bind; [apply (add_bits_ok bw1 fs _ nl W1); lia|]. intros bw2 (W2 & P2 & B2).
  eapply returns_bind; [apply (add_bits_ok bw2 _ _ nm W2); lia|]. intros bw3 (W3 & P3 & B3).
  eapply returns_bind; [apply (flush_if_ok bw3 _ b2 W3); rewrite !width_snoc; lia|].
  intros bw4 (W4 & P4 & Q4 & B4).
  eapply returns_bind; [apply (add_bits_ok bw4 _ _ no W4); [lia|]|].
  { destruct b2; [specialize (P4 eq_refl)|rewrite (Q4 eq_refl) in *]; lia. }
  intros bw5 (W5 & P5 & B5). rewrite <- !app_assoc in W5.
  eapply returns_bind; [apply (flush_bits_ok bw5 _ W5)|].
  { rewrite !width_app. unfold width at 2 3 4. cbn. lia. }
  intros bw6 (W6 & P6 & B6 & _). apply Hk. split; [done|]. split; [rewrite P6; divlia|lia].
Qed.

(** One turn of the loop: the writer's states are those of the sequence. *)
Lemma encode_sequence_ok {E} bw fs jl jo jm qs q bound :
  between bw fs bound -> spells fs jl jo jm qs -> qs <> [] -> coded_seq q -> covered q ->
  sum_raw (q :: qs) + 26 * zlen qs < 8 * bound ->
  returns (fun '(ml, of_, ll, bw') => exists gs il io im,
      ml = state_value ml_log im /\ of_ = state_value of_log io /\ ll = state_value ll_log il /\
      between bw' gs bound /\ spells gs il io im (q :: qs))
    (encode_sequence t (state_value ml_log jm, state_value of_log jo, state_value ll_log jl, bw) q : res E _).
Proof.
  destruct q as [s [[ll_c of_c] ml_c]]. intros (W & P & B) Hsp Hne Hq (Vl & Vo & Vm) Hroom.
  destruct (seq_bits _ _ _ _ Hq) as (nl & nm & Il & Im & Rl & Rm & Ro & Hraw & Kl & Km & Ko).
  pose proof Hsp as [Hfs Jl Jo Jm Hwd _]. cbn [fmap list_fmap foldr] in Hroom.
  pose proof (codec_log (FseCodec := Cll)) as [_ Bl]. pose proof (codec_log (FseCodec := Cml)) as [_ Bm].
  pose proof (wr_pos _ _ W).
  unfold encode_sequence. rewrite Il, Im. cbn [mbind res_bind].
  destruct (fse_encode_ok (E := E) (tc_of t) of_codes of_log of_dt in_of bw fs of_c jo W ltac:(lia) Vo Jo)
    as (io & eo & Hio & Eo & Co & No & So & Ho).
  eapply returns_bind; [exact Ho|]. intros [vo bw1] (-> & W1 & P1 & B1). pose proof (wr_pos _ _ W1).
  destruct (fse_encode_ok (E := E) (tc_ml t) ml_codes ml_log ml_dt in_ml bw1 _ ml_c jm W1 ltac:(lia) Vm Jm)
    as (im & em & Him & Em & Cm & Nm & Sm & Hm).
  eapply returns_bind; [exact Hm|]. intros [vm bw2] (-> & W2 & P2 & B2). pose proof (wr_pos _ _ W2).
  destruct (fse_encode_ok (E := E) (tc_ll t) ll_codes ll_log ll_dt in_ll bw2 _ ll_c jl W2 ltac:(lia) Vl Jl)
    as (il & el & Hil & El & Cl & Nl & Sl & Hl).
  eapply returns_bind; [exact Hl|]. intros [vl bw3] (-> & W3 & P3 & B3). rewrite <- !app_assoc in W3.
  set (fs3 := fs ++ _) in W3.
  assert (width fs3 = width fs + num_bits eo + num_bits em + num_bits el) as Hw3
    by (unfold fs3; rewrite !width_app; unfold width at 2 3 4; cbn; lia).
  apply (raw_ok bw3 fs3 s nl nm of_c bound); try done; try lia.
  { unfold LL_FSE_LOG, ML_FSE_LOG, OFF_FSE_LOG. intros Hb. apply Z.leb_gt in Hb. lia. }
  intros bw' Hbt. cbn [returns]. exists (fs3 ++ [(lit_len s, nl)] ++ [(ml_base s, nm)] ++ [(off_base s, of_c)]), il, io, im.
  split_and!; try done. pose proof Hbt as (W' & _ & _).
  pose proof (spells_cons fs jl jo jm qs s ll_c of_c ml_c il io im el eo em Hq Hsp Hne Hil Hio Him El Eo Em
    Cl Co Cm Nl No Nm Sl So Sm) as Hcons. cbv zeta in Hcons.
  rewrite (Kl el Cl), (Km em Cm), (Ko eo Co) in Hcons. apply Hcons; [apply W'|lia].
Qed.

Lemma sum_raw_nonneg qs : Forall coded_seq qs -> 0 <= sum_raw qs.
Proof.
  induction 1 as [|[s [[ll_c of_c] ml_c]] qs Hq Hqs IH]; [done|]. cbn [fmap list_fmap foldr].
  destruct (seq_bits _ _ _ _ Hq) as (nl & nm & _ & _ & Rl & Rm & Ro & Hraw & _). lia.
Qed.

(** The loop, from the sequence before the last to the first. *)
Lemma encode_loop_ok {E} qs last bw fs jl jo jm bound :
  between bw fs bound -> spells fs jl jo jm [last] -> Forall coded_seq qs -> Forall covered qs ->
  sum_raw (qs ++ [last]) + 26 * zlen qs < 8 * bound ->
  returns (fun '(ml, of_, ll, bw') => exists gs il io im,
      ml = state_value ml_log im /\ of_ = state_value of_log io /\ ll = state_value ll_log il /\
      between bw' gs bound /\ spells gs il io im (qs ++ [last]))
    (foldM (encode_sequence t) (state_value ml_log jm, state_value of_log jo, state_value ll_log jl, bw)
       (reverse qs) : res E _).
Proof.
  intros Hb Hs Hqs Hc. revert Hc. induction Hqs as [|q qs Hq Hqs IH]; intros Hc Hr.
  - cbn. by exists fs, jl, jo, jm.
  - apply Forall_cons in Hc as [Hcq Hc]. rewrite zlen_cons in Hr. cbn [app fmap list_fmap foldr] in Hr.
    assert (0 <= raw_bits q).
    { pose proof (sum_raw_nonneg [q] ltac:(by constructor)) as H. cbn in H. lia. }
    rewrite reverse_cons, foldM_app. eapply returns_bind; [apply IH; [done|]; lia|].
    intros [[[ml of_] ll] bw'] (gs & il & io & im & -> & -> & -> & Hb' & Hs'). cbn [foldM].
    eapply returns_bind; [apply (encode_sequence_ok bw' gs il io im (qs ++ [last]) q bound); try done|].
    + by destruct qs.
    + cbn [fmap list_fmap foldr]. rewrite zlen_app. change (zlen [last]) with 1. lia.
    + by intros [[[? ?] ?] ?].
Qed.

(** A state's flush. *)
Lemma fse_flush_ok {E} ct cs log dt covers `{!FseCodec ct cs log dt covers} bw fs v bound :
  between bw fs bound -> width fs + log < 8 * bound ->
  returns (fun bw' => between bw' (fs ++ [(v, log)]) bound) (fse_flush ct v bw : res E BitCStream).
Proof.
  intros (W & P & B) Hr. destruct codec_log as [Hl Hlog]. unfold fse_flush. rewrite Hl.
  eapply returns_bind; [apply (add_bits_ok bw fs v log W); lia|]. intros bw1 (W1 & P1 & B1).
  eapply returns_mono; [apply (flush_bits_ok bw1 _ W1); rewrite width_snoc; lia|].
  intros bw2 (W2 & P2 & B2 & _). split; [done|]. split; [rewrite P2; divlia|lia].
Qed.

(** The stream's fields: the sequences', then the first states. *)
Definition stream_fields (fs : list (Z * Z)) (il io im : Z) : list (Z * Z) :=
  ((fs ++ [(state_value ml_log im, ml_log)]) ++ [(state_value of_log io, of_log)]) ++
    [(state_value ll_log il, ll_log)].

Lemma encode_sequences_body_ok {E} qs extra_bits : qs <> [] -> Forall coded_seq qs -> Forall covered qs ->
  sum_raw qs <= extra_bits ->
  returns (fun s => bytes s /\ exists fs il io im, spells fs il io im qs /\
      let gs := stream_fields fs il io im in
      widths_ok gs /\ zlen s = width gs / 8 + 1 /\ le_val s = pack gs + 2 ^ width gs)
    (encode_sequences_body t qs extra_bits : res E (list Z)).
Proof.
  intros Hne Hqs Hc Hex. destruct (exists_last Hne) as (init & last & ->). clear Hne.
  apply Forall_app in Hqs as [Hi Hl], Hc as [Ci Cl']. rewrite Forall_singleton in Hl, Cl'.
  destruct last as [s [[ll_c of_c] ml_c]]. set (last := (s, (ll_c, of_c, ml_c))) in *.
  pose proof (sum_raw_nonneg (init ++ [last])) as Hsum. pose proof (zlen_nonneg init).
  assert (0 <= sum_raw (init ++ [last])) as Hsum0 by (apply Hsum; apply Forall_app; by rewrite Forall_singleton).
  assert (sum_raw (init ++ [last]) = sum_raw init + raw_bits last) as Hsplit.
  { rewrite fmap_app, foldr_app. cbn. generalize (raw_bits <$> init). intros l.
    induction l as [|x l IHl]; cbn; lia. }
  pose proof (sum_raw_nonneg init Hi).
  unfold encode_sequences_body. rewrite zlen_app. change (zlen [last]) with 1. cbv zeta.
  unfold capacity_for, div_ceil, LL_FSE_LOG, OFF_FSE_LOG, ML_FSE_LOG.
  set (cap := (extra_bits + (zlen init + 1) * (9 + 8 + 9) + 1 + 8 - 1) / 8 + 9).
  assert (extra_bits + 26 * (zlen init + 1) + 9 < 8 * (cap - 8) + 8) as Hcap by (unfold cap; divlia).
  eapply returns_bind; [apply (cstream_new_ok (zrepeat 0 cap))|].
  { by apply Forall_zrepeat. }
  { rewrite zlen_zrepeat; lia. }
  intros bw (W & P & B). rewrite zlen_zrepeat in B by lia.
  replace (zlen init + 1 - 1) with (zlen init) by lia.
  rewrite (idx_ok _ _ last) by (by rewrite zget_app_r, Z.sub_diag by lia). cbn [mbind res_bind].
  rewrite ztake_app_le, ztake_all by lia. unfold last. cbn [mbind res_bind]. fold last.
  destruct (seq_bits _ _ _ _ Hl) as (nl & nm & Il & Im & Rl & Rm & Ro & Hraw & Kl & Km & Ko).
  fold last in Hraw. destruct Cl' as (Vl & Vo & Vm).
  destruct (codec_init (FseCodec := Cml) ml_c Vm) as (im & em & Him & Em & Cm & Hm). rewrite Hm. cbn [mbind res_bind].
  destruct (codec_init (FseCodec := Cof) of_c Vo) as (io & eo & Hio & Eo & Co & Ho). rewrite Ho. cbn [mbind res_bind].
  destruct (codec_init (FseCodec := Cll) ll_c Vl) as (il & el & Hil & El & Cl2 & Hll). rewrite Hll. cbn [mbind res_bind].
  rewrite Il, Im. cbn [mbind res_bind].
  eapply returns_bind; [apply (add_bits_ok bw [] _ nl W); lia|]. intros bw1 (W1 & P1 & B1).
  eapply returns_bind; [apply (add_bits_ok bw1 _ _ nm W1); lia|]. intros bw2 (W2 & P2 & B2).
  eapply returns_bind; [apply (add_bits_ok bw2 _ _ of_c W2); lia|]. intros bw3 (W3 & P3 & B3).
  eapply returns_bind; [apply (flush_bits_ok bw3 _ W3); unfold width; cbn; lia|]. intros bw4 (W4 & P4 & B4 & _).
  cbn [app] in W4. assert (between bw4 [(lit_len s, nl); (ml_base s, nm); (off_base s, of_c)] (cap - 8)) as Hb4
    by (split; [done|]; split; [rewrite P4; divlia|lia]).
  assert (spells [(lit_len s, nl); (ml_base s, nm); (off_base s, of_c)] il io im [last]) as Hs4.
  { pose proof (spells_last s ll_c of_c ml_c il io im el eo em Hl Hil Hio Him El Eo Em Cl2 Co Cm) as Hs.
    rewrite (Kl el Cl2), (Km em Cm), (Ko eo Co) in Hs. apply Hs; [apply W4|fold last; lia]. }
  clear P P1 P2 P3 P4 B B1 B2 B3 B4 W W1 W2 W3 W4.
  pose proof (codec_log (FseCodec := Cll)) as [_ Bl]. pose proof (codec_log (FseCodec := Cml)) as [_ Bm].
  pose proof (codec_log (FseCodec := Cof)) as [_ Bo].
  eapply returns_bind; [apply (encode_loop_ok init last bw4 _ il io im (cap - 8) Hb4 Hs4 Hi Ci); lia|].
  clear Hil Hio Him. intros [[[ml of_] ll] bw5] (fs & jl & jo & jm & -> & -> & -> & Hb5 & Hs5).
  pose proof Hs5 as [_ _ _ _ Hw5 _]. rewrite zlen_app in Hw5. change (zlen [last]) with 1 in Hw5.
  eapply returns_bind; [apply (fse_flush_ok _ _ _ _ _ bw5 fs _ _ Hb5); lia|]. intros bw6 Hb6.
  eapply returns_bind; [apply (fse_flush_ok _ _ _ _ _ bw6 _ _ _ Hb6); rewrite !width_snoc; lia|]. intros bw7 Hb7.
  eapply returns_bind; [apply (fse_flush_ok _ _ _ _ _ bw7 _ _ _ Hb7); rewrite !width_snoc; lia|].
  intros bw8 (W8 & P8 & B8). set (gs := stream_fields fs jl jo jm).
  change (_ ++ _) with gs in W8. assert (width gs = width fs + ml_log + of_log + ll_log) as Hwg
    by (unfold gs, stream_fields; rewrite !width_snoc; lia).
  eapply returns_bind; [apply (close_ok bw8 gs W8); lia|]. intros [size buf] (-> & Lb & Bb & Hv).
  pose proof (width_nonneg gs (wr_fields _ _ W8)).
  rewrite (proj2 (Z.eqb_neq _ _)) by divlia. cbn [negb rassert mbind res_bind returns].
  split; [by apply Forall_take|]. exists fs, jl, jo, jm. split; [done|]. cbv zeta. fold gs.
  split; [apply W8|]. split; [rewrite zlen_ztake; divlia|done].
Qed.
End stream.

(** ** The block the sequences mean *)

(** The sequences [qs] executed one after the other. *)
Fixpoint lz_sequences (dict : bool) (ext window limit : Z) (h lits : list Z) (qs : list (Z * Z * Z))
    : option (list Z * list Z) :=
  match qs with
  | [] => Some (h, lits)
  | (ll, ml, o) :: qs =>
      match lz_sequence dict ext window limit h lits ll ml o with
      | Ok (h, lits) => lz_sequences dict ext window limit h lits qs
      | _ => None
      end
  end.

(** A whole block: its sequences, then the literals that are left. *)
Definition lz_block (dict : bool) (ext window limit : Z) (h lits : list Z) (qs : list (Z * Z * Z))
    : option (list Z) :=
  '(h, lits) ← lz_sequences dict ext window limit h lits qs;
  if zlen h + zlen lits <=? limit then Some (h ++ lits) else None.

Lemma ref_loop_seqs v ll_dt ml_dt of_dt dict ext window limit n : forall u st h lits qs u' st',
  ref_seqs v ll_dt ml_dt of_dt n u st = Some (qs, u', st') ->
  ref_loop v ll_dt ml_dt of_dt dict ext window limit n u st h lits =
    '(h, lits) ← lz_sequences dict ext window limit h lits qs; Some (u', st', h, lits).
Proof.
  induction n as [|n IH]; intros u st h lits qs u' st' H; cbn [ref_seqs ref_loop] in *;
    destruct (ref_sequence _ _ _ _ _ _ _) as [[[[[ll ml] o] u1] st1]|]; cbn [mbind option_bind] in *; try done.
  - injection H as <- <- <-. cbn. by destruct (lz_sequence _ _ _ _ _ _ _ _ _) as [[? ?]| | |].
  - destruct (ref_seqs _ _ _ _ n u1 st1) as [[[qs1 u2] st2]|] eqn:E; cbn [mbind option_bind] in *; [|done].
    injection H as <- <- <-. cbn.
    destruct (lz_sequence _ _ _ _ _ _ _ _ _) as [[? ?]| | |]; try done. by apply IH.
Qed.

(** The reference's run of the stream. *)
Lemma ref_run_stream ll_log of_log ml_log ll_dt of_dt ml_dt fs il io im qs s
    dict ext window limit hist h lits :
  spells ll_log of_log ml_log ll_dt of_dt ml_dt fs il io im qs ->
  let gs := stream_fields ll_log of_log ml_log fs il io im in
  0 <= ll_log -> 0 <= of_log -> 0 <= ml_log ->
  bytes s -> widths_ok gs -> zlen s = width gs / 8 + 1 -> le_val s = pack gs + 2 ^ width gs ->
  let '(lz, hist') := resolve hist (fst <$> qs) in
  ref_run s ll_log ml_log of_log ll_dt ml_dt of_dt dict ext window limit (zlen qs) hist h lits =
    out ← lz_block dict ext window limit h lits lz; Some (out, hist').
Proof.
  intros [_ Il Io Im _ Hreads] gs L0 O0 M0 Hb Hg Hl Hv.
  pose proof (width_nonneg gs Hg) as Hw0.
  destruct (marked_stream s _ _ Hb Hl Hw0 (pack_range gs Hg) Hv) as (Hlog & last & Hlast & Hnz).
  assert (holds (le_val s) gs) as Hh by (exists 1; rewrite Hv; lia).
  unfold gs, stream_fields in Hg, Hh. pose proof Hg as [Hg2 _]%Forall_app. pose proof Hg2 as [Hg1 _]%Forall_app.
  pose proof Hg1 as [Hfs _]%Forall_app.
  apply holds_top in Hh as [R3 Hh]; [|done|lia]. apply holds_top in Hh as [R2 Hh]; [|done|lia].
  apply holds_top in Hh as [R1 Hh]; [|done|lia]. rewrite !state_value_low in R1, R2, R3 by lia.
  destruct (Hreads _ hist Hh) as (st & Hst & Hhist).
  destruct (resolve hist (fst <$> qs)) as [lz hist']. cbn [fst snd] in Hst, Hhist.
  unfold ref_run. rewrite Hlast. cbn [mbind option_bind]. rewrite (proj2 (Z.eqb_neq _ _)) by done.
  rewrite Hlog. unfold gs, stream_fields. rewrite width_snoc, R3. cbn [mbind option_bind].
  rewrite width_snoc, R2. cbn [mbind option_bind]. rewrite width_snoc, R1. cbn [mbind option_bind].
  replace (Z.to_nat (zlen qs - 1)) with (pred (length qs)) by (unfold zlen; lia).
  rewrite (ref_loop_seqs _ _ _ _ _ _ _ _ _ _ _ _ _ _ _ _ Hst). unfold lz_block.
  destruct (lz_sequences _ _ _ _ _ _ lz) as [[h' lits']|]; [|done]. cbn [mbind option_bind].
  rewrite Z.eqb_refl, Hhist. cbn [andb]. by destruct (zlen h' + zlen lits' <=? limit).
Qed.

(** An encoder's table and the decoder's. *)
Definition mirrors (kind : SeqTableKind) (cs : codes) (ct : FseCTable) (t : FSETable) (covers : Z -> Prop) : Prop :=
  seq_table_ok kind t /\ FseCodec ct cs (accuracy_log t) (table_cells t) covers.

(** What running a stream of [qs] comes to: the sequences executed, their
    repeat codes resolved. *)
Definition runs_as (W : WildCopy) (EXT : bool) (seqs : SeqInput) (ext : ExtHistory) (offset_hist : list Z)
    (m : Mem) (dst : Dst) (qs : list Seq) : Prop :=
  let '(lz, hist) := resolve offset_hist qs in
  let lim := block_lim m ext dst in
  let block := lz_block (EXT && e_dict ext) (ext_len EXT ext) (d_window dst)
    (ext_len EXT ext + d_op dst + MAX_BLOCK_SIZE) (history EXT m lim (d_base dst + d_op dst))
    (literals m lim 0) lz in
  match run_sequences W EXT seqs ext offset_hist m dst with
  | Ok (end_, hist', m') => block = Some (history EXT m' lim (d_base dst + end_)) /\ hist' = hist
  | Err _ => block = None
  | Fault | Stuck => False
  end.

(** The same of the reference's run. *)
Definition ref_runs_as (seqs : SeqInput) (qs : list Seq) : Prop :=
  forall dict ext window limit hist h lits, let '(lz, hist') := resolve hist qs in
  ref_run (q_bits seqs) (accuracy_log (q_ll seqs)) (accuracy_log (q_ml seqs)) (accuracy_log (q_of seqs))
    (table_cells (q_ll seqs)) (table_cells (q_ml seqs)) (table_cells (q_of seqs)) dict ext window limit (q_num seqs) hist h lits =
    out ← lz_block dict ext window limit h lits lz; Some (out, hist').

Lemma encoded_body_runs t qs extra_bits ll_t of_t ml_t in_ll in_of in_ml :
  1 <= zlen qs < 2 ^ 17 -> Forall coded_seq qs -> Forall (covered in_ll in_of in_ml) qs ->
  foldr Z.add 0 (raw_bits <$> qs) <= extra_bits ->
  mirrors ll_kind ll_codes (tc_ll t) ll_t in_ll -> mirrors of_kind of_codes (tc_of t) of_t in_of ->
  mirrors ml_kind ml_codes (tc_ml t) ml_t in_ml ->
  exists bs, encode_sequences_body t qs extra_bits = (Ok bs : dec (list Z)) /\ bytes bs /\
    foldr Z.add 0 (raw_bits <$> qs) + accuracy_log ll_t + accuracy_log of_t + accuracy_log ml_t < 8 * zlen bs /\
    ref_runs_as (MkSeqIn (zlen qs) bs ll_t of_t ml_t) (fst <$> qs) /\
    forall W EXT ext offset_hist m dst, In W variants -> dst_ok EXT m ext dst -> hist_ok offset_hist ->
      runs_as W EXT (MkSeqIn (zlen qs) bs ll_t of_t ml_t) ext offset_hist m dst (fst <$> qs).
Proof.
  intros Hn Hqs Hc Hex [Tl Cl] [To Co] [Tm Cm].
  assert (accuracy_log of_t <= 8) as H8 by (by destruct To as [[_ ?] _ _ _]).
  assert (qs <> []) as Hne by (intros ->; unfold zlen in Hn; cbn in Hn; lia).
  destruct (returns_inv _ _ (encode_sequences_body_ok (E := DecodeError) t _ _ _ _ _ _ in_ll in_of in_ml H8
    qs extra_bits Hne Hqs Hc Hex)) as (bs & Hbs & Hb & fs & il & io & im & Hsp & Hg & Hl & Hv).
  exists bs. split; [done|]. split; [done|]. split.
  { pose proof (sp_width _ _ _ _ _ _ _ _ _ _ _ Hsp) as [Hlow _]. rewrite Hl. unfold stream_fields.
    rewrite !width_snoc. divlia. }
  assert (forall kind tb, seq_table_ok kind tb -> 0 <= accuracy_log tb) as Hlog by by intros k tb [[? _] _ _ _].
  split.
  { intros d e w l hist h lits. apply (ref_run_stream _ _ _ _ _ _ fs il io im qs bs d e w l hist h lits Hsp (Hlog _ _ Tl) (Hlog _ _ To) (Hlog _ _ Tm) Hb Hg Hl Hv). }
  intros W EXT ext offset_hist m dst HW Hd Hh.
  assert (WildCopyLaws W) as HL by (destruct HW as [<-|[<-|[<-|[<-|[]]]]]; typeclasses eauto).
  set (seqs := MkSeqIn (zlen qs) bs ll_t of_t ml_t).
  pose proof (run_sequences_ok W EXT seqs ext offset_hist m dst ltac:(by split) Hd Hh) as Hrun.
  pose proof (ref_run_stream _ _ _ _ _ _ fs il io im qs bs (EXT && e_dict ext) (ext_len EXT ext) (d_window dst)
    (ext_len EXT ext + d_op dst + MAX_BLOCK_SIZE) offset_hist
    (history EXT m (block_lim m ext dst) (d_base dst + d_op dst)) (literals m (block_lim m ext dst) 0)
    Hsp (Hlog _ _ Tl) (Hlog _ _ To) (Hlog _ _ Tm) Hb Hg Hl Hv) as Href.
  unfold runs_as. destruct (resolve offset_hist (fst <$> qs)) as [lz hist]. cbv zeta.
  unfold block_ran, ref_sequences in Hrun. cbv zeta in Hrun. cbn [q_bits q_ll q_of q_ml q_num seqs] in Hrun.
  rewrite Href in Hrun. set (block := lz_block _ _ _ _ _ _ _) in *.
  destruct (run_sequences _ _ _ _ _ _ _) as [[[end_ hist'] m']|e| |]; try done.
  - destruct Hrun as [Hrun _]. destruct block; [|done]. cbn in Hrun. by injection Hrun as -> ->.
  - by destruct block.
Qed.

(** C33: What the encoder writes for a block's sequences, the decoder
    executes as those sequences. For sequences of at most 128 KiB lengths and
    32-bit offset sums, their codes, and compression tables that have the
    codes and mirror the decoder's tables, [encode_sequences_body] returns a
    stream: nothing leaves its region, no assertion fails and no bit is lost.
    Given that stream in any memory that meets the contracts, in every copy
    variant and with or without a dictionary, [run_sequences] succeeds exactly
    when the sequences, their repeat codes resolved from the decoder's offset
    history, can execute one after the other on the history and the literals
    within the block's limit; the memory then holds what they make, and the
    offset history is the one they leave. *)
Theorem sequences_roundtrip W EXT t qs extra_bits ll_t of_t ml_t in_ll in_of in_ml ext offset_hist m dst :
  In W variants -> 1 <= zlen qs < 2 ^ 17 -> Forall coded_seq qs -> Forall (covered in_ll in_of in_ml) qs ->
  foldr Z.add 0 (raw_bits <$> qs) <= extra_bits ->
  mirrors ll_kind ll_codes (tc_ll t) ll_t in_ll -> mirrors of_kind of_codes (tc_of t) of_t in_of ->
  mirrors ml_kind ml_codes (tc_ml t) ml_t in_ml ->
  dst_ok EXT m ext dst -> hist_ok offset_hist ->
  exists bs, encode_sequences_body t qs extra_bits = (Ok bs : dec (list Z)) /\
  let '(lz, hist) := resolve offset_hist (fst <$> qs) in
  let lim := block_lim m ext dst in
  let block := lz_block (EXT && e_dict ext) (ext_len EXT ext) (d_window dst)
    (ext_len EXT ext + d_op dst + MAX_BLOCK_SIZE) (history EXT m lim (d_base dst + d_op dst))
    (literals m lim 0) lz in
  match run_sequences W EXT (MkSeqIn (zlen qs) bs ll_t of_t ml_t) ext offset_hist m dst with
  | Ok (end_, hist', m') => block = Some (history EXT m' lim (d_base dst + end_)) /\ hist' = hist
  | Err _ => block = None
  | Fault | Stuck => False
  end.
Proof.
  intros HW Hn Hqs Hc Hex Ml Mo Mm Hd Hh.
  destruct (encoded_body_runs t qs extra_bits ll_t of_t ml_t in_ll in_of in_ml Hn Hqs Hc Hex Ml Mo Mm)
    as (bs & Hbs & _ & _ & _ & Hrun).
  exists bs. split; [done|]. by apply (Hrun W EXT ext offset_hist m dst).
Qed.

(** One code's tables, on both sides. *)
Definition rle_ctable (code : Z) : FseCTable :=
  match (ct_build_rle ctable_default code : dec FseCTable) with Ok ct => ct | _ => ctable_default end.

Lemma rle_mirrors t kind code : zget SEQ_TABLES t = Some kind -> 0 <= code <= max_code kind -> max_code kind <= MAX_SEQ ->
  mirrors kind (Some (base kind, kind_bits kind)) (rle_ctable code) (rle_table kind code) (fun s => s = code).
Proof.
  intros Hk Hc Hm. pose proof (rle_table_ok t kind code Hk Hc) as Hok. split; [done|].
  pose proof (build_rle_ok t kind (FseTable.new (max_code kind)) code Hk eq_refl Hc) as H.
  unfold rle_table in *. apply returns_inv in H as (tb & Htb & _). rewrite Htb in *.
  assert (accuracy_log tb = 0 /\ table_cells tb = ztake 1 (cells tb)) as [Hlog Hcells].
  { unfold FseTable.build_rle in Htb. inv_ok. by cbn. }
  rewrite Hlog, Hcells. eapply (rle_codec ctable_default code); [|lia|exact Htb].
  unfold rle_ctable, ct_build_rle. by rewrite store_ok by (unfold ctable_default; cbn; vm_compute; split; congruence).
Qed.

(** Two sequences of one code each: five literals and 13 bytes from 3 back,
    then five literals and 13 bytes from 4 back; one literal is left. *)
Lemma sequences_roundtrip_witness : exists bs end_ m',
  let qs := [(MkSeq 5 6 10, (5, 2, 10)); (MkSeq 5 7 10, (5, 2, 10))] in
  let m := MkMem (zrepeat 0 131120) (seqZ 97 11 ++ zrepeat 0 32) [] in
  let seqs := MkSeqIn 2 bs (rle_table ll_kind 5) (rle_table of_kind 2) (rle_table ml_kind 10) in
  encode_sequences_body (MkTablesC (rle_ctable 5) (rle_ctable 2) (rle_ctable 10)) qs 4 = (Ok bs : dec (list Z)) /\
  run_sequences Avx2ShortOffsets false seqs ext_none [1; 4; 8] m (MkDst 0 0 1024) = Ok (end_, [4; 3; 1], m') /\
  history false m' (block_lim m ext_none (MkDst 0 0 1024)) (0 + end_) =
    [97; 98; 99; 100; 101; 99; 100; 101; 99; 100; 101; 99; 100; 101; 99; 100; 101; 99;
     102; 103; 104; 105; 106; 103; 104; 105; 106; 103; 104; 105; 106; 103; 104; 105; 106; 103; 107].
Proof.
  cbv zeta. set (qs := [(MkSeq 5 6 10, (5, 2, 10)); (MkSeq 5 7 10, (5, 2, 10))]).
  set (m := MkMem (zrepeat 0 131120) (seqZ 97 11 ++ zrepeat 0 32) []).
  assert (Forall coded_seq qs) as Hq by (repeat constructor; cbn; try lia; reflexivity).
  assert (Forall (covered (fun s => s = 5) (fun s => s = 2) (fun s => s = 10)) qs) as Hc by (repeat constructor).
  assert (dst_ok false m ext_none (MkDst 0 0 1024)) as Hd.
  { split; first [vm_compute; congruence | split; vm_compute; congruence | intros E; discriminate E]. }
  assert (hist_ok [1; 4; 8]) as Hh by (do 3 eexists; split; [reflexivity|vm_compute; intuition congruence]).
  destruct (sequences_roundtrip Avx2ShortOffsets false
    (MkTablesC (rle_ctable 5) (rle_ctable 2) (rle_ctable 10)) qs 4 (rle_table ll_kind 5) (rle_table of_kind 2)
    (rle_table ml_kind 10) _ _ _ ext_none [1; 4; 8] m (MkDst 0 0 1024) ltac:(cbn; tauto)
    ltac:(vm_compute; split; congruence) Hq Hc ltac:(vm_compute; discriminate)
    (rle_mirrors 0 ll_kind 5 eq_refl ltac:(vm_compute; split; congruence) ltac:(vm_compute; discriminate))
    (rle_mirrors 1 of_kind 2 eq_refl ltac:(vm_compute; split; congruence) ltac:(vm_compute; discriminate))
    (rle_mirrors 2 ml_kind 10 eq_refl ltac:(vm_compute; split; congruence) ltac:(vm_compute; discriminate)) Hd Hh)
    as (bs & Hbs & Hrun).
  cbv zeta in Hrun. set (r := resolve _ _) in Hrun.
  assert (r = ([(5, 13, 3); (5, 13, 4)], [4; 3; 1])) as Hr by reflexivity. rewrite Hr in Hrun.
  set (block := lz_block _ _ _ _ _ _ _) in Hrun.
  assert (block = Some [97; 98; 99; 100; 101; 99; 100; 101; 99; 100; 101; 99; 100; 101; 99; 100; 101; 99;
     102; 103; 104; 105; 106; 103; 104; 105; 106; 103; 104; 105; 106; 103; 104; 105; 106; 103; 107]) as Hblock
    by (vm_compute; reflexivity).
  exists bs. change (zlen qs) with 2 in Hrun.
  destruct (run_sequences _ _ _ _ _ _ _) as [[[end_ hist] m']|e| |]; [|congruence|destruct Hrun..].
  destruct Hrun as [Hb ->]. rewrite Hblock in Hb. injection Hb as Hb. exists end_, m'.
  split; [exact Hbs|]. split; [reflexivity|exact (eq_sym Hb)].
Defined.
