(* ===== verification/FseNorm.v ===== *)
(** * Normalized counts and their header ([src/fse.rs])

    [normalize_count] scales a histogram to a power of two and
    [write_ncount] describes the result for the decoder; both as the encoder
    runs them, widths and casts included. The proofs are in [FseNormProofs]
    and [NCountProofs]. *)

From S2P Require Import Prelude Words Constants FseEncode.

(** [NormalizeError]. *)
Inductive NormalizeError : Type := ENormalize.

Definition FSE_MIN_TABLELOG : Z := 5.
Definition FSE_MAX_TABLELOG : Z := 12.
Definition FSE_DEFAULT_TABLELOG : Z := 11.

(** ** Table logs *)

(** [min_table_log]. *)
Definition min_table_log (src_size max_symbol : Z) : Z :=
  let min_bits_src := highest_bit (wrap 32 src_size) + 1 in
  let min_bits_symbols := highest_bit (wrap 32 max_symbol) + 2 in
  Z.min min_bits_src min_bits_symbols.

(** [optimal_table_log_internal]. *)
Definition optimal_table_log_internal {E} (max_table_log src_size max_symbol minus : Z) : res E Z :=
  _ ← rassert (1 <? src_size);
  let max_bits_src := wsub 32 (highest_bit (wrap 32 (src_size - 1))) minus in
  let min_bits := min_table_log src_size max_symbol in
  let table_log := if max_table_log =? 0 then FSE_DEFAULT_TABLELOG else max_table_log in
  let table_log := if max_bits_src <? table_log then max_bits_src else table_log in
  let table_log := if table_log <? min_bits then min_bits else table_log in
  Ok (Z.min FSE_MAX_TABLELOG (Z.max FSE_MIN_TABLELOG table_log)).

(** [optimal_table_log]. *)
Definition optimal_table_log {E} (max_table_log src_size max_symbol : Z) : res E Z :=
  optimal_table_log_internal max_table_log src_size max_symbol 2.

(** ** Normalization *)

Definition RTB_TABLE : list Z := [0; 473195; 504333; 520860; 550000; 700000; 750000; 830000].

(** The loop state: the array, what is left to distribute, and the largest
    share's symbol and share. *)
Abbreviation norm_state := (list Z * Z * Z * Z)%type.

(** The share of a count above the threshold. *)
Definition share (scale step v_step count : Z) : res NormalizeError Z :=
  let scaled := wmul 64 count step in
  let proba := signed 16 (wrap 16 (Z.shiftr scaled scale)) in
  if proba <? 8 then
    rtb ← idx RTB_TABLE (wrap 64 proba);
    let rest_to_beat := wmul 64 v_step rtb in
    Ok (proba + Z.b2z (rest_to_beat <? scaled - wshl 64 (wrap 64 proba) scale))
  else Ok proba.

(** The loop's body; [None] once it has returned [Ok(0)]. *)
Definition normalize_symbol (counts : list Z) (total scale step v_step low_prob_count low_threshold : Z)
    (st : option norm_state) (s : Z) : res NormalizeError (option norm_state) :=
  match st with
  | None => Ok None
  | Some (norm, still, largest, largest_p) =>
      count ← idx counts s;
      if count =? total then Ok None
      else if count =? 0 then
        norm ← store norm s 0;
        Ok (Some (norm, still, largest, largest_p))
      else if count <=? low_threshold then
        norm ← store norm s low_prob_count;
        Ok (Some (norm, still - 1, largest, largest_p))
      else
        proba ← share scale step v_step count;
        let '(largest, largest_p) := if largest_p <? proba then (s, proba) else (largest, largest_p) in
        norm ← store norm s proba;
        Ok (Some (norm, still - proba, largest, largest_p))
  end.

Definition NOT_YET_ASSIGNED : Z := -2.

(** [normalize_m2], first loop: the array, the points given away and the
    counts left. *)
Definition m2_low (counts : list Z) (low_threshold low_one low_prob_count : Z) (st : list Z * Z * Z) (s : Z)
    : res NormalizeError (list Z * Z * Z) :=
  let '(norm, distributed, total) := st in
  count ← idx counts s;
  if count =? 0 then
    norm ← store norm s 0; Ok (norm, distributed, total)
  else if count <=? low_threshold then
    norm ← store norm s low_prob_count;
    _ ← rassert (count <=? total);
    Ok (norm, distributed + 1, total - count)
  else if count <=? low_one then
    norm ← store norm s 1;
    _ ← rassert (count <=? total);
    Ok (norm, distributed + 1, total - count)
  else
    norm ← store norm s NOT_YET_ASSIGNED; Ok (norm, distributed, total).

(** Second loop: more symbols of one point. *)
Definition m2_one (counts : list Z) (low_one : Z) (st : list Z * Z * Z) (s : Z)
    : res NormalizeError (list Z * Z * Z) :=
  let '(norm, distributed, total) := st in
  n ← idx norm s;
  count ← idx counts s;
  if (n =? NOT_YET_ASSIGNED) && (count <=? low_one) then
    norm ← store norm s 1;
    _ ← rassert (count <=? total);
    Ok (norm, distributed + 1, total - count)
  else Ok (norm, distributed, total).

(** The symbol of the largest count. *)
Definition max_count (counts : list Z) (st : Z * Z) (s : Z) : res NormalizeError (Z * Z) :=
  let '(max_v, max_c) := st in
  count ← idx counts s;
  Ok (if max_c <? count then (s, count) else (max_v, max_c)).

(** [while to_distribute > 0 { .. }]. *)
Definition m2_round_robin (max_symbol : Z) (norm : list Z) (to_distribute : Z) : res NormalizeError (list Z) :=
  loopM (Z.to_nat ((to_distribute + 1) * (max_symbol + 1)) + 1) (fun '(norm, to_distribute, s) =>
    if 0 <? to_distribute then
      n ← idx norm s;
      if 0 <? n then
        norm ← store norm s (n + 1);
        Ok (inl (norm, to_distribute - 1, (s + 1) mod (max_symbol + 1)))
      else Ok (inl (norm, to_distribute, (s + 1) mod (max_symbol + 1)))
    else Ok (inr norm)) (norm, to_distribute, 0).

(** Last loop: shares of what is left, by running totals. *)
Definition m2_scale (counts : list Z) (v_step_log r_step : Z) (st : list Z * Z) (s : Z)
    : res NormalizeError (list Z * Z) :=
  let '(norm, tmp_total) := st in
  n ← idx norm s;
  if n =? NOT_YET_ASSIGNED then
    count ← idx counts s;
    let end_ := wadd 64 tmp_total (wmul 64 count r_step) in
    let s_start := wrap 32 (Z.shiftr tmp_total v_step_log) in
    let s_end := wrap 32 (Z.shiftr end_ v_step_log) in
    _ ← rassert (s_start <=? s_end);
    let weight := s_end - s_start in
    _ ← fail_if (weight <? 1) ENormalize;
    norm ← store norm s (signed 16 (wrap 16 weight));
    Ok (norm, end_)
  else Ok (norm, tmp_total).

(** [normalize_m2]. *)
Definition normalize_m2 (norm : list Z) (table_log : Z) (counts : list Z) (total max_symbol low_prob_count : Z)
    : res NormalizeError (list Z) :=
  let symbols := seqZ 0 (max_symbol + 1) in
  let low_threshold := wrap 32 (Z.shiftr total table_log) in
  let low_one := wrap 32 (Z.shiftr (total * 3) (table_log + 1)) in
  '(norm, distributed, total) ←
    foldM (m2_low counts low_threshold low_one low_prob_count) (norm, 0, total) symbols;
  _ ← rassert (distributed <=? wshl 32 1 table_log);
  let to_distribute := wshl 32 1 table_log - distributed in
  if to_distribute =? 0 then Ok norm
  else
    '(norm, distributed, total, to_distribute) ←
      (if low_one <? wrap 32 (total / to_distribute) then
         let low_one := wrap 32 (total * 3 / (to_distribute * 2)) in
         '(norm, distributed, total) ← foldM (m2_one counts low_one) (norm, distributed, total) symbols;
         _ ← rassert (distributed <=? wshl 32 1 table_log);
         Ok (norm, distributed, total, wshl 32 1 table_log - distributed)
       else Ok (norm, distributed, total, to_distribute));
    if distributed =? max_symbol + 1 then
      '(max_v, _) ← foldM (max_count counts) (0, 0) symbols;
      n ← idx norm max_v;
      store norm max_v (n + signed 16 (wrap 16 to_distribute))
    else if total =? 0 then m2_round_robin max_symbol norm to_distribute
    else
      let v_step_log := 62 - table_log in
      let mid := wshl 64 1 (v_step_log - 1) - 1 in
      let r_step := wadd 64 (wmul 64 (wshl 64 1 v_step_log) to_distribute) mid / total in
      '(norm, _) ← foldM (m2_scale counts v_step_log r_step) (norm, mid) symbols;
      Ok norm.

(** [normalize_count]: the array with the table log, which is 0 when one
    symbol has every count (the array is then the callers' to forget). *)
Definition normalize_count (norm : list Z) (table_log : Z) (counts : list Z) (total max_symbol : Z)
    (use_low_prob_count : bool) : res NormalizeError (list Z * Z) :=
  let table_log := if table_log =? 0 then FSE_DEFAULT_TABLELOG else table_log in
  _ ← fail_if (negb ((FSE_MIN_TABLELOG <=? table_log) && (table_log <=? FSE_MAX_TABLELOG))
               || (table_log <? min_table_log total max_symbol)) ENormalize;
  let low_prob_count := if use_low_prob_count then -1 else 1 in
  let scale := 62 - table_log in
  _ ← rassert (negb (total =? 0));
  let step := wshl 64 1 62 / total in
  let v_step := wshl 64 1 (scale - 20) in
  let low_threshold := wrap 32 (Z.shiftr total table_log) in
  r ← foldM (normalize_symbol counts total scale step v_step low_prob_count low_threshold)
        (Some (norm, Z.shiftl 1 table_log, 0, 0)) (seqZ 0 (max_symbol + 1));
  match r with
  | None => Ok (norm, 0)
  | Some (norm, still, largest, _) =>
      n ← idx norm largest;
      if Z.shiftr n 1 <=? - still then
        norm ← normalize_m2 norm table_log counts total max_symbol low_prob_count;
        Ok (norm, table_log)
      else
        norm ← store norm largest (n + signed 16 (wrap 16 still));
        Ok (norm, table_log)
  end.

(** ** The header *)

(** Bytes written, and bits pending. *)
Record NcWriter := MkNcw {
  nw_out : list Z;
  nw_stream : Z;
  nw_count : Z;
}.

(** [bit_stream += value << bit_count; bit_count += n]. *)
Definition nw_add (w : NcWriter) (value n : Z) : NcWriter :=
  MkNcw (nw_out w) (wadd 32 (nw_stream w) (wshl 32 value (nw_count w))) (nw_count w + n).

(** Two bytes out. *)
Definition nw_out2 (w : NcWriter) : NcWriter :=
  MkNcw (nw_out w ++ le_bytes 2 (wrap 16 (nw_stream w))) (Z.shiftr (nw_stream w) 16) (nw_count w).

(** [if bit_count > 16 { .. }]. *)
Definition nw_flush (w : NcWriter) : NcWriter :=
  if 16 <? nw_count w then
    let w := nw_out2 w in MkNcw (nw_out w) (nw_stream w) (nw_count w - 16)
  else w.

Section ncount.
Context (norm : list Z) (alphabet_size : Z).
Abbreviation result A := (res NormalizeError A).

(** [while symbol < alphabet_size && norm[symbol] == 0 { symbol += 1 }]. *)
Definition nw_skip_zeros (symbol : Z) : result Z :=
  loopM (Z.to_nat alphabet_size + 1) (fun symbol =>
    if symbol <? alphabet_size then
      n ← idx norm symbol;
      if n =? 0 then Ok (inl (symbol + 1)) else Ok (inr symbol)
    else Ok (inr symbol)) symbol.

(** The zero counts after a zero count: 24 as sixteen ones, 3 as two, and
    the rest in two bits. [None] is the loop's [break]. *)
Definition nw_zeros (w : NcWriter) (symbol : Z) : result (option (NcWriter * Z)) :=
  let start_sym := symbol in
  symbol ← nw_skip_zeros symbol;
  if symbol =? alphabet_size then Ok None
  else
    '(w, start_sym) ← loopM (Z.to_nat alphabet_size + 1) (fun '(w, start_sym) =>
      if start_sym + 24 <=? symbol then
        Ok (inl (nw_out2 (nw_add w 0xFFFF 0), start_sym + 24))
      else Ok (inr (w, start_sym))) (w, start_sym);
    '(w, start_sym) ← loopM (Z.to_nat alphabet_size + 1) (fun '(w, start_sym) =>
      if start_sym + 3 <=? symbol then Ok (inl (nw_add w 3 2, start_sym + 3))
      else Ok (inr (w, start_sym))) (w, start_sym);
    Ok (Some (nw_flush (nw_add w (wrap 32 (symbol - start_sym)) 2), symbol)).

(** [while remaining < threshold { nb_bits -= 1; threshold >>= 1 }]. *)
Definition nw_narrow (remaining nb_bits threshold : Z) : result (Z * Z) :=
  loopM (Z.to_nat nb_bits + 1) (fun '(nb_bits, threshold) =>
    if remaining <? threshold then Ok (inl (nb_bits - 1, Z.shiftr threshold 1))
    else Ok (inr (nb_bits, threshold))) (nb_bits, threshold).

(** One count: (writer, remaining, threshold, nb_bits, previous_is_0). *)
Definition nw_one (w : NcWriter) (remaining threshold nb_bits symbol : Z)
    : result (NcWriter * Z * Z * Z * bool) :=
  count ← idx norm symbol;
  let max := (2 * threshold - 1) - remaining in
  let remaining := remaining - Z.abs count in
  let count := count + 1 in
  let count := if threshold <=? count then count + max else count in
  let w := nw_add w (wrap 32 count) (nb_bits - Z.b2z (count <? max)) in
  let previous_is_0 := count =? 1 in
  _ ← fail_if (remaining <? 1) ENormalize;
  '(nb_bits, threshold) ← nw_narrow remaining nb_bits threshold;
  Ok (nw_flush w, remaining, threshold, nb_bits, previous_is_0).

(** The loop's body: (writer, remaining, threshold, nb_bits, symbol,
    previous_is_0). *)
Definition nw_body (st : NcWriter * Z * Z * Z * Z * bool)
    : result ((NcWriter * Z * Z * Z * Z * bool) + (NcWriter * Z)) :=
  let '(w, remaining, threshold, nb_bits, symbol, previous_is_0) := st in
  if (symbol <? alphabet_size) && (1 <? remaining) then
    r ← (if previous_is_0 then nw_zeros w symbol else Ok (Some (w, symbol)));
    match r with
    | None => Ok (inr (w, remaining))
    | Some (w, symbol) =>
        '(w, remaining, threshold, nb_bits, previous_is_0) ← nw_one w remaining threshold nb_bits symbol;
        Ok (inl (w, remaining, threshold, nb_bits, symbol + 1, previous_is_0))
    end
  else Ok (inr (w, remaining)).
End ncount.

(** [write_ncount]: what is appended to [out], nothing on an error. *)
Definition write_ncount (norm : list Z) (max_symbol table_log : Z) : res NormalizeError (list Z) :=
  _ ← fail_if (negb ((FSE_MIN_TABLELOG <=? table_log) && (table_log <=? FSE_MAX_TABLELOG))) ENormalize;
  let table_size := Z.shiftl 1 table_log in
  let alphabet_size := max_symbol + 1 in
  let w := MkNcw [] (table_log - FSE_MIN_TABLELOG) 4 in
  '(w, remaining) ← loopM (Z.to_nat alphabet_size + 1) (nw_body norm alphabet_size)
    (w, table_size + 1, table_size, table_log + 1, 0, false);
  _ ← fail_if (negb (remaining =? 1)) ENormalize;
  let tail := [wrap 8 (nw_stream w); wrap 8 (Z.shiftr (nw_stream w) 8)] in
  rest ← slice tail 0 ((nw_count w + 7) / 8);
  Ok (nw_out w ++ rest).
