(* ===== verification/FseNormProofs.v ===== *)
(** * Normalization gives every counted symbol a share, and no more

    [normalize_count] fails only on a table log it rejects; the shares it
    returns are nonzero exactly where the counts are and sum to the table. *)

From S2P Require Import Prelude Words Constants FseTable FseCounts FseBuild FseEncode FseEncodeProofs FseNorm.

(** ** Arrays filled from the left *)

(** The first entries of [norm] are [P], the others those of [norm0]. *)
Definition filled (norm0 P norm : list Z) : Prop :=
  zlen P <= zlen norm0 /\ norm = P ++ zdrop (zlen P) norm0.

Lemma filled_nil norm0 : filled norm0 [] norm0.
Proof. split; [apply zlen_nonneg|done]. Qed.

Lemma filled_store {E} norm0 P norm x : filled norm0 P norm -> zlen P < zlen norm0 ->
  exists norm', store norm (zlen P) x = (Ok norm' : res E (list Z)) /\ filled norm0 (P ++ [x]) norm'.
Proof.
  intros [_ ->] Hl. pose proof (zlen_nonneg P).
  rewrite store_ok by (rewrite zlen_app, zlen_zdrop; lia). eexists. split; [done|].
  split; [rewrite zlen_app; change (zlen [x]) with 1; lia|].
  apply zlist_eq.
  - rewrite zlen_zset, !zlen_app, !zlen_zdrop; rewrite ?zlen_app; change (zlen [x]) with 1; lia.
  - intros i Hi. rewrite zlen_zset, zlen_app, zlen_zdrop in Hi by lia.
    rewrite zget_zset by (rewrite zlen_app, zlen_zdrop; lia). destruct (Z.eqb_spec (zlen P) i) as [<-|].
    + rewrite zget_app_l by (rewrite zlen_app; change (zlen [x]) with 1; lia).
      by rewrite zget_app_r, Z.sub_diag by lia.
    + destruct (Z.lt_ge_cases i (zlen P)).
      * rewrite !zget_app_l; rewrite ?zlen_app; change (zlen [x]) with 1; done || lia.
      * rewrite !zget_app_r; rewrite ?zlen_app; change (zlen [x]) with 1; try lia.
        rewrite !zget_zdrop by lia. f_equal. lia.
Qed.

Lemma filled_get norm0 P norm i : filled norm0 P norm -> i < zlen P -> zget norm i = zget P i.
Proof. intros [_ ->] Hi. by rewrite zget_app_l. Qed.

Lemma filled_get_ge norm0 P norm i : filled norm0 P norm -> zlen P <= i -> zget norm i = zget norm0 i.
Proof.
  intros [Hl ->] Hi. pose proof (zlen_nonneg P). rewrite zget_app_r by done. rewrite zget_zdrop by lia.
  f_equal. lia.
Qed.

(** An entry that is already right. *)
Lemma filled_keep norm0 P norm x : filled norm0 P norm -> zget norm0 (zlen P) = Some x -> filled norm0 (P ++ [x]) norm.
Proof.
  intros [Hl ->] Hx. pose proof (zget_lt _ _ _ Hx). apply zget_Some in Hx as [_ Hx].
  split; [rewrite zlen_app; change (zlen [x]) with 1; lia|]. rewrite <- app_assoc. f_equal.
  unfold zdrop. rewrite (drop_S _ _ _ Hx). cbn. do 2 f_equal. rewrite zlen_app. change (zlen [x]) with 1. lia.
Qed.

Lemma filled_trans norm0 P norm1 Q norm2 : filled norm0 P norm1 -> filled norm1 Q norm2 -> zlen P = zlen Q ->
  filled norm0 Q norm2.
Proof.
  intros [Hl ->] [Hq ->] HPQ. pose proof (zlen_nonneg P). split; [lia|]. f_equal. unfold zdrop.
  rewrite drop_app_ge by (unfold zlen in *; lia). rewrite drop_drop. f_equal. unfold zlen in *. lia.
Qed.

(** The filled array starts with its filling. *)
Lemma filled_again norm0 P norm : filled norm0 P norm -> filled norm P norm.
Proof.
  intros [Hl ->]. pose proof (zlen_nonneg (zdrop (zlen P) norm0)). split; [rewrite zlen_app; lia|]. f_equal.
  unfold zdrop, zlen. by rewrite Nat2Z.id, drop_app_length.
Qed.

(** A store below the filled part's end. *)
Lemma filled_zset norm0 P norm i x : filled norm0 P norm -> 0 <= i < zlen P -> filled norm0 (zset P i x) (zset norm i x).
Proof.
  intros [Hl ->] Hi. split; [by rewrite zlen_zset|]. rewrite zlen_zset.
  unfold zset. rewrite insert_app_l; [done|]. unfold zlen in Hi. lia.
Qed.

(** ** Shares *)

(** The cells of one count are those of the counts around it, changed. *)
Lemma cell_sum_update l i y x : zget l i = Some y -> cell_sum (zset l i x) = cell_sum l - Z.abs y + Z.abs x.
Proof.
  intros [Hi Hl]%zget_Some. unfold zset. rewrite <- (take_drop_middle _ _ _ Hl) at 2.
  rewrite insert_take_drop by by eapply lookup_lt_Some.
  rewrite !cell_sum_app, !cell_sum_cons. lia.
Qed.

Lemma cell_sum_ge l i y : zget l i = Some y -> Z.abs y <= cell_sum l.
Proof. intros H. pose proof (cell_sum_update l i y 0 H). pose proof (cell_sum_nonneg (zset l i 0)). lia. Qed.

(** What a normalization of [counts] is. *)
Record normalized (low_prob : Z) (log : Z) (counts norm : list Z) : Prop := {
  nz_sum : cell_sum norm = 2 ^ log;
  nz_each : Forall2 (fun c n => (n = 0 <-> c = 0) /\ (n = low_prob \/ 0 <= n)) counts norm;
}.

(** A histogram that the table log can represent: [total] is the sum, no
    symbol has it all. *)
Record histogram (counts : list Z) (total log : Z) : Prop := {
  hg_counts : Forall (fun c => 0 <= c < total) counts;
  hg_sum : cell_sum counts = total;
  hg_total : 1 <= total < 2 ^ 31;
  hg_len : 1 <= zlen counts <= 256;
  hg_log : 5 <= log <= 12;
  hg_room : total < 2 ^ log \/ 2 * zlen counts <= 2 ^ log;
}.

Lemma min_table_log_room total max_symbol log : 1 <= total < 2 ^ 31 -> 0 <= max_symbol < 2 ^ 31 ->
  min_table_log total max_symbol <= log -> 0 <= log -> total < 2 ^ log \/ 2 * (max_symbol + 1) <= 2 ^ log.
Proof.
  intros Ht Hm Hl H0. change (2 ^ 31) with 2147483648 in *. unfold min_table_log in Hl.
  rewrite !wrap_small in Hl by (change (2 ^ 32) with 4294967296; lia).
  rewrite (highest_bit_log2 total) in Hl by (change (2 ^ 32) with 4294967296; lia).
  destruct (Z.le_ge_cases (Z.log2 total + 1) (highest_bit max_symbol + 2)).
  - left. pose proof (Z.log2_spec total ltac:(lia)) as [_ H1].
    pose proof (pow2_le (Z.succ (Z.log2 total)) log). pose proof (Z.log2_nonneg total). lia.
  - right. rewrite Z.min_r in Hl by lia. destruct (Z.eq_dec max_symbol 0) as [->|].
    + change (highest_bit 0) with 0 in Hl. pose proof (pow2_le 2 log). change (2 ^ 2) with 4 in *. lia.
    + rewrite highest_bit_log2 in Hl by (change (2 ^ 32) with 4294967296; lia).
      pose proof (Z.log2_spec max_symbol ltac:(lia)) as [_ H1]. pose proof (Z.log2_nonneg max_symbol).
      pose proof (pow2_le (Z.log2 max_symbol + 2) log ltac:(lia)).
      replace (Z.log2 max_symbol + 2) with (Z.succ (Z.succ (Z.log2 max_symbol))) in * by lia.
      rewrite (Z.pow_succ_r 2 (Z.succ _)) in * by lia. lia.
Qed.

Section normalize.
Context (counts : list Z) (total log low_prob : Z).
Context (HG : histogram counts total log) (Hlow : low_prob = -1 \/ low_prob = 1).

Abbreviation threshold := (total / 2 ^ log).
Abbreviation size := (2 ^ log).

Local Lemma size_range : 32 <= size <= 4096.
Proof.
  destruct HG as [_ _ _ _ Hl _]. pose proof (pow2_le 5 log ltac:(lia)). pose proof (pow2_le log 12 ltac:(lia)).
  change (2 ^ 5) with 32 in *. change (2 ^ 12) with 4096 in *. lia.
Qed.

Lemma cell_sum_bound l x : Forall (fun c => 0 <= c <= x) l -> 0 <= x -> cell_sum l <= zlen l * x.
Proof.
  induction 1 as [|c l Hc Hl IH]; intros Hx; [done|]. rewrite cell_sum_cons, zlen_cons. specialize (IH Hx). lia.
Qed.

(** Some count is above the threshold. *)
Lemma some_above : ~ Forall (fun c => c <= threshold) counts.
Proof.
  intros Hall. destruct HG as [Hc Hs Ht Hn Hl Hr]. pose proof size_range.
  assert (0 <= threshold) as H0 by (apply Z.div_pos; lia).
  assert (cell_sum counts <= zlen counts * threshold) as Hb.
  { apply cell_sum_bound; [|done]. rewrite Forall_forall in *. intros c Hin.
    specialize (Hc c Hin). specialize (Hall c Hin). cbn in *. lia. }
  pose proof (Z.mul_div_le total size ltac:(lia)). destruct Hr; [|nia].
  rewrite Z.div_small in * by lia. lia.
Qed.

Lemma signed16_small x : 0 <= x < 2 ^ 15 -> signed 16 (wrap 16 x) = x.
Proof.
  intros Hx. change (2 ^ 15) with 32768 in Hx. rewrite wrap_small by (change (2 ^ 16) with 65536; lia).
  unfold signed. change (2 ^ (16 - 1)) with 32768. by rewrite (proj2 (Z.ltb_lt _ _)) by lia.
Qed.

Abbreviation scale := (62 - log).
Abbreviation step := (2 ^ 62 / total).

Lemma share_ok c : threshold < c < total ->
  returns (fun p => 1 <= p <= size) (share scale step (2 ^ (scale - 20)) c).
Proof.
  intros Hc. destruct HG as [_ _ Ht _ Hl _]. pose proof size_range as Hsz. change (2 ^ 31) with 2147483648 in Ht.
  assert (2 ^ 62 = size * 2 ^ scale) as Hpow by (rewrite <- pow2_add by lia; f_equal; lia).
  pose proof (Z.mul_div_le (2 ^ 62) total ltac:(lia)) as Hs1.
  pose proof (Z.mul_succ_div_gt (2 ^ 62) total ltac:(lia)) as Hs2. unfold Z.succ in Hs2.
  assert (total <= step) as Hs3 by (apply Z.div_le_lower_bound; [lia|]; change (2 ^ 62) with 4611686018427387904; nia).
  pose proof (Z.mul_succ_div_gt total size ltac:(lia)) as Hth. unfold Z.succ in Hth.
  assert (total + 1 <= c * size) as Hcs by nia.
  assert (2 ^ scale <= c * step < size * 2 ^ scale) as Hsc.
  { split; [|nia]. apply (Z.mul_le_mono_pos_l _ _ size); [lia|]. rewrite <- Hpow. nia. }
  set (x := c * step) in *. pose proof (pow2_pos scale ltac:(lia)) as Hp2.
  assert (1 <= x / 2 ^ scale <= size - 1) as Hq.
  { split; [apply Z.div_le_lower_bound; lia|]. assert (x / 2 ^ scale < size); [|lia].
    apply Z.div_lt_upper_bound; lia. }
  unfold share, wmul. fold x. rewrite (wrap_small 64 x)
    by (change (2 ^ 64) with (4 * 4611686018427387904); change (2 ^ 62) with 4611686018427387904 in *; lia).
  rewrite shiftr_div by lia. rewrite signed16_small by (change (2 ^ 15) with 32768; lia).
  destruct (Z.ltb_spec (x / 2 ^ scale) 8); [|cbn; lia].
  rewrite (wrap_small 64 (x / 2 ^ scale)) by (change (2 ^ 64) with 18446744073709551616; lia).
  destruct (zget_is_Some RTB_TABLE (x / 2 ^ scale)) as [r Hr]; [change (zlen RTB_TABLE) with 8; lia|].
  rewrite (idx_ok _ _ _ Hr). cbn [mbind res_bind returns].
  destruct (_ <? _); cbn [Z.b2z]; lia.
Qed.

(** ** The first pass *)

(** The share of a count, as the pass gives it. *)
Definition first_share (c : Z) : Z :=
  if c =? 0 then 0 else if c <=? threshold then low_prob
  else match share scale step (2 ^ (scale - 20)) c with Ok p => p | _ => 0 end.

(** What the pass leaves after the counts [cs]. *)
Definition passed (norm0 cs : list Z) (st : option norm_state) : Prop :=
  exists norm still largest largest_p,
    st = Some (norm, still, largest, largest_p) /\ filled norm0 (first_share <$> cs) norm /\
    still = size - cell_sum (first_share <$> cs) /\
    (largest = 0 /\ largest_p = 0 /\ Forall (fun c => c <= threshold) cs \/
     1 <= largest_p /\ zget (first_share <$> cs) largest = Some largest_p).

Lemma normalize_symbol_ok norm0 cs c st : passed norm0 cs st -> zlen counts <= zlen norm0 ->
  ztake (zlen cs) counts = cs -> zget counts (zlen cs) = Some c ->
  returns (passed norm0 (cs ++ [c]))
    (normalize_symbol counts total scale step (2 ^ (scale - 20)) low_prob threshold st (zlen cs)).
Proof.
  intros (norm & still & largest & largest_p & -> & Hf & Hstill & Hlg) Hlen Hcs Hc.
  pose proof (zget_lt _ _ _ Hc) as Hcl. destruct HG as [Hcount _ Ht _ _ _]. pose proof size_range as Hsz.
  pose proof (Forall_zget _ _ _ _ Hcount Hc) as Hct. cbn beta in Hct.
  assert (0 <= threshold) as Hth0 by (apply Z.div_pos; lia).
  assert (zlen (first_share <$> cs) = zlen cs) as Hl by apply zlen_fmap.
  unfold normalize_symbol. rewrite (idx_ok _ _ _ Hc). cbn [mbind res_bind].
  rewrite (proj2 (Z.eqb_neq c total)) by lia.
  assert (forall x, first_share c = x -> c <= threshold -> 
    exists norm', store norm (zlen cs) x = (Ok norm' : res NormalizeError (list Z)) /\
      passed norm0 (cs ++ [c]) (Some (norm', still - Z.abs x, largest, largest_p))) as Hlow_case.
  { intros x Hx Hle. rewrite <- Hl. destruct (filled_store (E := NormalizeError) norm0 _ norm x Hf ltac:(lia))
      as (norm' & -> & Hf'). exists norm'. split; [done|]. exists norm', (still - Z.abs x), largest, largest_p.
    rewrite fmap_app. cbn [fmap list_fmap]. rewrite Hx. split; [done|]. split; [done|].
    rewrite cell_sum_app, cell_sum_cons. change (cell_sum []) with 0. split; [lia|].
    destruct Hlg as [(? & ? & Hall)|[? Hg]]; [left|right].
    - split; [done|]. split; [done|]. apply Forall_app. split; [done|]. by rewrite Forall_singleton.
    - split; [done|]. rewrite zget_app_l; [done|]. by eapply zget_lt. }
  unfold first_share in Hlow_case at 1.
  destruct (Z.eqb_spec c 0) as [->|].
  - destruct (Hlow_case 0 eq_refl ltac:(lia)) as (norm' & -> & Hp). cbn. by rewrite Z.sub_0_r in Hp.
  - destruct (Z.leb_spec c threshold) as [Hle|Hgt].
    + destruct (Hlow_case low_prob eq_refl Hle) as (norm' & -> & Hp). cbn.
      replace (still - 1) with (still - Z.abs low_prob) by (destruct Hlow; lia). done.
    + clear Hlow_case. destruct (returns_inv _ _ (share_ok c ltac:(lia))) as (p & Hp & Hpr).
      rewrite Hp. cbn [mbind res_bind].
      assert (first_share c = p) as Hfs.
      { unfold first_share. rewrite (proj2 (Z.eqb_neq c 0)), (proj2 (Z.leb_gt c threshold)) by lia. by rewrite Hp. }
      destruct (if largest_p <? p then _ else _) as [lg lp] eqn:Elp.
      rewrite <- Hl. destruct (filled_store (E := NormalizeError) norm0 _ norm p Hf ltac:(lia)) as (norm' & -> & Hf').
      cbn. eexists _, _, _, _. split; [done|]. rewrite fmap_app. cbn [fmap list_fmap]. rewrite Hfs.
      split; [done|]. rewrite cell_sum_app, cell_sum_cons. change (cell_sum []) with 0. split; [lia|]. right.
      destruct (Z.ltb_spec largest_p p); injection Elp as <- <-.
      * split; [lia|]. by rewrite zget_app_r, Hl, Z.sub_diag by lia.
      * destruct Hlg as [(? & ? & _)|[? Hg]]; [lia|]. split; [done|]. rewrite zget_app_l; [done|]. by eapply zget_lt.
Qed.

(** A loop over the symbols, by the counts done. *)
Lemma symbols_ok {A} (I : list Z -> A -> Prop) (f : A -> Z -> res NormalizeError A) a :
  I [] a ->
  (forall cs c a, ztake (zlen cs) counts = cs -> zget counts (zlen cs) = Some c -> I cs a ->
     returns (I (cs ++ [c])) (f a (zlen cs))) ->
  returns (I counts) (foldM f a (seqZ 0 (zlen counts))).
Proof.
  intros H0 Hf. eapply returns_mono.
  - apply (returns_foldM (fun k => I (ztake (Z.of_nat k) counts))); [exact H0|].
    intros k b a' Hk Ha. apply lookup_seqZ in Hk as [-> Hk]. rewrite Z.add_0_l.
    destruct (zget_is_Some counts (Z.of_nat k) ltac:(lia)) as [c Hc].
    assert (zlen (ztake (Z.of_nat k) counts) = Z.of_nat k) as Hl by (apply zlen_ztake; lia).
    assert (ztake (Z.of_nat (S k)) counts = ztake (Z.of_nat k) counts ++ [c]) as ->.
    { apply zget_Some in Hc as [_ Hc]. unfold ztake. rewrite !Nat2Z.id in *. by apply take_S_r. }
    rewrite <- Hl at 2. apply Hf; rewrite ?Hl; try done.
  - intros a'. rewrite length_seqZ. rewrite Z2Nat.id by apply zlen_nonneg. by rewrite ztake_all by lia.
Qed.

Lemma first_pass_ok norm0 : zlen counts <= zlen norm0 ->
  returns (passed norm0 counts)
    (foldM (normalize_symbol counts total scale step (2 ^ (scale - 20)) low_prob threshold)
       (Some (norm0, size, 0, 0)) (seqZ 0 (zlen counts))).
Proof.
  intros Hl. apply symbols_ok.
  - exists norm0, size, 0, 0. split; [done|]. split; [apply filled_nil|]. split; [change (cell_sum _) with 0; lia|].
    left. split; [done|]. split; [done|]. constructor.
  - intros cs c st Hcs Hc Hst. by apply normalize_symbol_ok.
Qed.

Lemma first_share_spec c : 0 <= c < total ->
  (first_share c = 0 <-> c = 0) /\ (first_share c = low_prob \/ 0 <= first_share c).
Proof.
  intros Hc. unfold first_share. destruct (Z.eqb_spec c 0); [lia|]. destruct (Z.leb_spec c threshold); [lia|].
  destruct (returns_inv _ _ (share_ok c ltac:(lia))) as (p & -> & Hp). lia.
Qed.

(** The rest goes to the largest share. *)
Lemma first_shares_normalized largest p still :
  zget (first_share <$> counts) largest = Some p -> 1 <= p ->
  still = size - cell_sum (first_share <$> counts) -> - still < p / 2 ->
  normalized low_prob log counts (zset (first_share <$> counts) largest (p + still)).
Proof.
  intros Hg Hp Hst Hlt. destruct HG as [Hcount _ _ _ _ _]. assert (1 <= p + still) as Hps by divlia. split.
  - rewrite (cell_sum_update _ _ _ _ Hg). lia.
  - pose proof (zget_lt _ _ _ Hg). apply Forall2_same_length_lookup. split.
    { unfold zset. by rewrite length_insert, length_fmap. }
    intros i c n Hc Hn. pose proof (Forall_lookup_1 _ _ _ _ Hcount Hc) as Hct. cbn beta in Hct.
    pose proof (first_share_spec c Hct) as Hs.
    rewrite <- zget_nat, zget_zset in Hn by done. destruct (Z.eqb_spec largest (Z.of_nat i)) as [->|].
    + injection Hn as <-. rewrite zget_fmap, zget_nat, Hc in Hg. injection Hg as Hg. lia.
    + rewrite zget_fmap, zget_nat, Hc in Hn. injection Hn as <-. done.
Qed.

(** ** The second pass *)

(** The share of a count when counts to [lo] get one point. *)
Definition low_share (lo c : Z) : Z :=
  if c =? 0 then 0 else if c <=? threshold then low_prob else if c <=? lo then 1 else NOT_YET_ASSIGNED.

(** Whether it is still to be shared out. *)
Definition unassigned (lo c : Z) : bool := low_share lo c =? NOT_YET_ASSIGNED.

(** The points given away, and the counts left. *)
Definition points (lo : Z) (cs : list Z) : Z :=
  cell_sum ((fun c => if (c =? 0) || unassigned lo c then 0 else 1) <$> cs).
Definition left_over (lo : Z) (cs : list Z) : Z :=
  cell_sum ((fun c => if unassigned lo c then c else 0) <$> cs).

Lemma points_snoc lo cs c : points lo (cs ++ [c]) = points lo cs + (if (c =? 0) || unassigned lo c then 0 else 1).
Proof.
  unfold points. rewrite fmap_app, cell_sum_app. cbn [fmap list_fmap]. rewrite cell_sum_cons.
  change (cell_sum []) with 0. destruct (_ || _); lia.
Qed.

Lemma left_over_snoc lo cs c : left_over lo (cs ++ [c]) = left_over lo cs + (if unassigned lo c then Z.abs c else 0).
Proof.
  unfold left_over. rewrite fmap_app, cell_sum_app. cbn [fmap list_fmap]. rewrite cell_sum_cons.
  change (cell_sum []) with 0. destruct (unassigned lo c); lia.
Qed.

Lemma unassigned_spec lo c : unassigned lo c = true <-> c <> 0 /\ threshold < c /\ lo < c.
Proof.
  unfold unassigned, low_share, NOT_YET_ASSIGNED. rewrite Z.eqb_eq.
  destruct (Z.eqb_spec c 0); [split; lia|]. destruct (Z.leb_spec c threshold); [split; lia|].
  destruct (Z.leb_spec c lo); split; lia.
Qed.

(** The state of either loop after the counts [cs]. *)
Definition lowered (norm0 : list Z) (lo : Z) (cs : list Z) (st : list Z * Z * Z) : Prop :=
  let '(norm, distributed, rest) := st in
  filled norm0 (low_share lo <$> cs) norm /\ distributed = points lo cs /\
  rest = total - (cell_sum cs - left_over lo cs).

Lemma prefix_sum cs c : ztake (zlen cs) counts = cs -> zget counts (zlen cs) = Some c ->
  cell_sum cs + c <= total /\ left_over 0 cs <= cell_sum cs.
Proof.
  intros Hcs Hc. destruct HG as [Hcount <- _ _ _ _].
  pose proof (Forall_zget _ _ _ _ Hcount Hc) as Hct. cbn beta in Hct.
  pose proof (start_le _ _ _ Hc) as Hs. unfold start in Hs. rewrite Hcs in Hs. split; [lia|].
  unfold left_over. clear. induction cs as [|x cs IH]; [done|]. rewrite fmap_cons, !cell_sum_cons.
  destruct (unassigned 0 x); lia.
Qed.

Lemma left_over_nonneg lo cs : 0 <= left_over lo cs.
Proof. apply cell_sum_nonneg. Qed.

Lemma m2_low_ok norm0 lo cs c st : zlen counts <= zlen norm0 -> ztake (zlen cs) counts = cs ->
  zget counts (zlen cs) = Some c -> lowered norm0 lo cs st ->
  returns (lowered norm0 lo (cs ++ [c])) (m2_low counts threshold lo low_prob st (zlen cs)).
Proof.
  destruct st as [[norm d] rest]. intros Hlen Hcs Hc (Hf & -> & ->). pose proof (zget_lt _ _ _ Hc) as Hcl.
  pose proof (prefix_sum _ _ Hcs Hc) as [Hpre _]. pose proof (left_over_nonneg lo cs).
  destruct HG as [Hcount _ _ _ _ _]. pose proof (Forall_zget _ _ _ _ Hcount Hc) as Hct. cbn beta in Hct.
  assert (zlen (low_share lo <$> cs) = zlen cs) as Hl by apply zlen_fmap.
  unfold m2_low. rewrite (idx_ok _ _ _ Hc). cbn [mbind res_bind].
  assert (forall x, low_share lo c = x -> exists norm', store norm (zlen cs) x = (Ok norm' : res NormalizeError (list Z)) /\
    filled norm0 (low_share lo <$> cs ++ [c]) norm') as Hst.
  { intros x <-. rewrite <- Hl. rewrite fmap_app. apply filled_store; [done|lia]. }
  unfold lowered. rewrite points_snoc, left_over_snoc, cell_sum_app, cell_sum_cons. change (cell_sum []) with 0.
  assert (forall x, low_share lo c = x -> unassigned lo c = (x =? NOT_YET_ASSIGNED)) as Hun by by intros x <-.
  destruct (Z.eqb_spec c 0) as [->|Hc0]; [|destruct (Z.leb_spec c threshold); [|destruct (Z.leb_spec c lo)]].
  - destruct (Hst 0 eq_refl) as (norm' & -> & Hf'). rewrite (Hun 0 eq_refl). cbn. split; [done|]. lia.
  - assert (low_share lo c = low_prob) as Hls
      by (unfold low_share; by rewrite (proj2 (Z.eqb_neq c 0)), (proj2 (Z.leb_le c threshold)) by lia).
    destruct (Hst _ Hls) as (norm' & -> & Hf'). rewrite (Hun _ Hls). cbn [mbind res_bind].
    rewrite (proj2 (Z.leb_le _ _)) by lia. unfold NOT_YET_ASSIGNED. rewrite (proj2 (Z.eqb_neq low_prob _)) by (destruct Hlow; lia).
    cbn. split; [done|]. lia.
  - assert (low_share lo c = 1) as Hls
      by (unfold low_share; by rewrite (proj2 (Z.eqb_neq c 0)), (proj2 (Z.leb_gt c threshold)), (proj2 (Z.leb_le c lo)) by lia).
    destruct (Hst _ Hls) as (norm' & -> & Hf'). rewrite (Hun _ Hls). cbn [mbind res_bind].
    rewrite (proj2 (Z.leb_le _ _)) by lia. cbn. split; [done|]. lia.
  - assert (low_share lo c = NOT_YET_ASSIGNED) as Hls
      by (unfold low_share; by rewrite (proj2 (Z.eqb_neq c 0)), (proj2 (Z.leb_gt c threshold)), (proj2 (Z.leb_gt c lo)) by lia).
    destruct (Hst _ Hls) as (norm' & -> & Hf'). rewrite (Hun _ Hls). cbn. split; [done|]. lia.
Qed.

(** One count of a sum over the counts. *)
Lemma sum_prefix (f : Z -> Z) cs c : ztake (zlen cs) counts = cs -> zget counts (zlen cs) = Some c ->
  cell_sum (f <$> cs) + Z.abs (f c) <= cell_sum (f <$> counts).
Proof.
  intros Hcs Hc. assert (zget (f <$> counts) (zlen cs) = Some (f c)) as Hf by by rewrite zget_fmap, Hc.
  pose proof (start_le _ _ _ Hf) as [_ H]. unfold start in H. revert H. unfold ztake in *.
  rewrite <- fmap_take. by rewrite Hcs.
Qed.

(** Between the two thresholds, after the counts [cs]. *)
Definition raised (norm0 : list Z) (lo lo' : Z) (cs : list Z) (st : list Z * Z * Z) : Prop :=
  let '(norm, distributed, rest) := st in
  filled norm0 (low_share lo' <$> cs) norm /\ distributed = points lo counts + (points lo' cs - points lo cs) /\
  rest = left_over lo counts + (left_over lo' cs - left_over lo cs).

Lemma m2_one_ok norm0 lo lo' cs c st : filled norm0 (low_share lo <$> counts) norm0 -> lo <= lo' ->
  ztake (zlen cs) counts = cs -> zget counts (zlen cs) = Some c -> raised norm0 lo lo' cs st ->
  returns (raised norm0 lo lo' (cs ++ [c])) (m2_one counts lo' st (zlen cs)).
Proof.
  destruct st as [[norm d] rest]. intros Hn0 Hlo Hcs Hc (Hf & -> & ->). pose proof (zget_lt _ _ _ Hc) as Hcl.
  assert (zlen (low_share lo' <$> cs) = zlen cs) as Hl by apply zlen_fmap.
  assert (zget norm0 (zlen cs) = Some (low_share lo c)) as Hg.
  { rewrite (filled_get _ _ _ _ Hn0) by (rewrite zlen_fmap; lia). by rewrite zget_fmap, Hc. }
  pose proof (zget_lt _ _ _ Hg) as Hgl.
  pose proof (sum_prefix (fun c => if unassigned lo c then c else 0) cs c Hcs Hc) as Hsum. cbn beta in Hsum. fold (left_over lo cs) (left_over lo counts) in Hsum.
  pose proof (left_over_nonneg lo' cs).
  destruct HG as [Hcount _ _ _ _ _]. pose proof (Forall_zget _ _ _ _ Hcount Hc) as Hct. cbn beta in Hct.
  unfold m2_one. rewrite (idx_ok norm _ (low_share lo c)) by (by rewrite (filled_get_ge _ _ _ _ Hf) by lia).
  rewrite (idx_ok _ _ _ Hc). cbn [mbind res_bind]. fold (unassigned lo c).
  unfold raised. rewrite !points_snoc, !left_over_snoc, !fmap_app. cbn [fmap list_fmap].
  destruct (unassigned lo c && (c <=? lo')) eqn:Eb.
  - apply andb_true_iff in Eb as [Eu Ele]. apply Z.leb_le in Ele. pose proof (proj1 (unassigned_spec lo c) Eu) as Hu.
    assert (low_share lo' c = 1 /\ unassigned lo' c = false) as [Hls Hu'].
    { unfold unassigned, low_share.
      by rewrite (proj2 (Z.eqb_neq c 0)), (proj2 (Z.leb_gt c threshold)), (proj2 (Z.leb_le c lo')) by lia. }
    rewrite <- Hl. destruct (filled_store (E := NormalizeError) norm0 _ norm 1 Hf ltac:(lia)) as (norm' & -> & Hf').
    cbn [mbind res_bind]. rewrite Eu in *. rewrite (proj2 (Z.leb_le _ _)) by lia. cbn [rassert mbind res_bind returns].
    rewrite Hls, Hu'. split; [done|]. rewrite !orb_true_r, orb_false_r, (proj2 (Z.eqb_neq c 0)) by lia. lia.
  - assert (low_share lo' c = low_share lo c) as Hls.
    { unfold low_share. destruct (Z.eqb_spec c 0); [done|]. destruct (Z.leb_spec c threshold); [done|].
      destruct (Z.leb_spec c lo), (Z.leb_spec c lo'); try done; try lia.
      assert (unassigned lo c = true) as Hu by (apply unassigned_spec; lia). by rewrite Hu in Eb. }
    assert (unassigned lo' c = unassigned lo c) as -> by (unfold unassigned; by rewrite Hls).
    cbn [returns]. split; [|lia]. rewrite Hls. apply filled_keep; [done|]. by rewrite Hl.
Qed.

(** ** How a second pass ends *)

Lemma points_full lo cs : points lo cs = zlen cs -> Forall (fun c => c <> 0 /\ unassigned lo c = false) cs.
Proof.
  assert (forall l, points lo l <= zlen l) as Hle.
  { intros l. induction l as [|c l IH] using rev_ind; [done|]. rewrite points_snoc, zlen_app.
    change (zlen [c]) with 1. destruct (_ || _); lia. }
  induction cs as [|c cs IH] using rev_ind; [constructor|].
  rewrite points_snoc, zlen_app. change (zlen [c]) with 1. intros H. specialize (Hle cs).
  destruct (_ || _) eqn:E; [lia|]. apply orb_false_iff in E as [Ec Eu]. apply Z.eqb_neq in Ec.
  apply Forall_app. split; [apply IH; lia|]. by rewrite Forall_singleton.
Qed.

Lemma left_over_none lo : left_over lo counts = 0 -> Forall (fun c => unassigned lo c = false) counts.
Proof.
  intros H. apply Forall_forall. intros c Hin. apply list_elem_of_lookup_1 in Hin as [i Hi]. rewrite <- zget_nat in Hi.
  destruct (unassigned lo c) eqn:E; [|done]. apply unassigned_spec in E as Hu.
  pose proof (cell_sum_ge ((fun c => if unassigned lo c then c else 0) <$> counts) (Z.of_nat i) c) as Hg.
  rewrite zget_fmap, Hi in Hg. cbn in Hg. rewrite E in Hg. specialize (Hg eq_refl). unfold left_over in H. lia.
Qed.

(** The cells of assigned shares are the points. *)
Lemma assigned_cells lo cs : Forall (fun c => unassigned lo c = false) cs ->
  cell_sum (low_share lo <$> cs) = points lo cs.
Proof.
  induction 1 as [|c cs Hc Hcs IH]; [done|]. unfold points in *. rewrite !fmap_cons, !cell_sum_cons, IH, Hc, orb_false_r.
  unfold unassigned, low_share in *. destruct (Z.eqb_spec c 0); [done|].
  destruct (c <=? threshold); [destruct Hlow as [-> | ->]; done|]. by destruct (c <=? lo).
Qed.

Lemma low_share_spec lo c : unassigned lo c = false -> (low_share lo c = 0 <-> c = 0) /\ (low_share lo c = low_prob \/ 0 <= low_share lo c).
Proof.
  unfold unassigned, low_share. destruct (Z.eqb_spec c 0); [lia|]. destruct (c <=? threshold); [lia|].
  destruct (c <=? lo); [lia|done].
Qed.

(** Points added to positive shares. *)
Lemma add_points lo P : Forall (fun c => unassigned lo c = false) counts ->
  Forall2 (fun n n' => n' = n \/ 0 < n <= n') (low_share lo <$> counts) P ->
  cell_sum P = 2 ^ log -> normalized low_prob log counts P.
Proof.
  intros Hu HP Hs. split; [done|]. clear Hs. apply Forall2_fmap_l in HP. clear HG.
  induction HP as [|c n cs P Hc HP IH]; [constructor|]. apply Forall_cons in Hu as [Hu1 Hu]. constructor; [|apply IH; exact Hu].
  pose proof (low_share_spec lo c Hu1). unfold compose in Hc. lia.
Qed.

(** The largest count. *)
Lemma max_count_ok : exists v c, foldM (max_count counts) (0, 0) (seqZ 0 (zlen counts)) = Ok (v, c) /\
  zget counts v = Some c /\ threshold < c.
Proof.
  assert (returns (fun '(v, c) => Forall (fun x => x <= c) counts /\ (c = 0 \/ zget counts v = Some c))
    (foldM (max_count counts) (0, 0) (seqZ 0 (zlen counts)))) as H.
  { apply (symbols_ok (fun cs '(v, c) => Forall (fun x => x <= c) cs /\ (c = 0 \/ zget counts v = Some c))).
    - by split; [constructor|left].
    - intros cs x [v c] Hcs Hx [Hall Hv]. unfold max_count. rewrite (idx_ok _ _ _ Hx). cbn [mbind res_bind].
      destruct (Z.ltb_spec c x); cbn [returns]; (split; [apply Forall_app; split; [|rewrite Forall_singleton; lia]|]).
      + eapply Forall_impl; [exact Hall|]. cbn. lia.
      + by right.
      + done.
      + done. }
  apply returns_inv in H as ([v c] & Heq & Hall & Hv). exists v, c. split; [done|].
  assert (threshold < c) as Hc.
  { destruct (Z.lt_ge_cases threshold c); [done|]. exfalso. apply some_above. eapply Forall_impl; [exact Hall|]. cbn. lia. }
  split; [|done]. destruct Hv as [->|]; [|done]. destruct HG as [_ _ Ht _ _ _]. pose proof size_range.
  pose proof (Z.div_pos total (2 ^ log)). lia.
Qed.

(** Points handed out one by one, round the positive shares. *)
Lemma m2_round_robin_ok norm0 P norm td j p : filled norm0 P norm -> 0 <= td -> zget P j = Some p -> 0 < p ->
  returns (fun norm' => exists P', filled norm0 P' norm' /\ Forall2 (fun n n' => n' = n \/ 0 < n <= n') P P' /\
     cell_sum P' = cell_sum P + td) (m2_round_robin (zlen P - 1) norm td).
Proof.
  intros Hf Htd Hj Hp. pose proof (zget_lt _ _ _ Hj) as Hjl. unfold m2_round_robin.
  replace (zlen P - 1 + 1) with (zlen P) by lia. set (n := zlen P) in *.
  apply returns_loopM with
    (I := fun '(norm', td', s) => exists P', filled norm0 P' norm' /\ Forall2 (fun n n' => n' = n \/ 0 < n <= n') P P' /\
       cell_sum P' = cell_sum P + (td - td') /\ 0 <= td' <= td /\ 0 <= s < n)
    (m := fun '(_, td', s) => Z.to_nat (td' * n + (j - s) mod n)).
  - exists P. split; [done|]. split; [|lia]. apply Forall2_same_length_lookup. split; [done|].
    intros i x y Hx Hy. left. congruence.
  - pose proof (Z.mod_pos_bound (j - 0) n ltac:(lia)). lia.
  - intros [[norm' td'] s] (P' & Hf' & HPP & Hsum & Htd' & Hs).
    destruct (Z.ltb_spec 0 td') as [H0|H0].
    2: { cbn. exists P'. split; [done|]. split; [done|]. lia. }
    assert (zlen P' = n) as Hl by (apply Forall2_length in HPP; unfold n, zlen; lia).
    destruct (zget_is_Some P' s ltac:(lia)) as [x Hx].
    rewrite (idx_ok norm' s x) by (rewrite (filled_get _ _ _ _ Hf') by lia; done). cbn [mbind res_bind].
    pose proof (Z.mod_pos_bound (s + 1) n ltac:(lia)). pose proof (Z.mod_pos_bound (j - s) n ltac:(lia)).
    assert ((j - (s + 1) mod n) mod n = (j - s - 1) mod n) as Hnext.
    { rewrite Zminus_mod_idemp_r. f_equal. lia. }
    destruct (Z.ltb_spec 0 x) as [Hx0|Hx0].
    + destruct Hf' as [Hf1 Hf2]. assert (zlen norm0 = zlen norm') as Hl0.
      { rewrite Hf2, zlen_app, zlen_zdrop by (pose proof (zlen_nonneg P'); lia). lia. }
      rewrite store_ok by lia. cbn [mbind res_bind returns]. split.
      * exists (zset P' s (x + 1)). split; [apply filled_zset; [done|lia]|]. split; [|rewrite (cell_sum_update _ _ _ _ Hx); lia].
        apply Forall2_same_length_lookup. split.
        { apply Forall2_length in HPP. unfold zset. rewrite length_insert. done. }
        intros i a b Ha Hb. rewrite <- zget_nat, zget_zset in Hb by lia.
        destruct (Z.eqb_spec s (Z.of_nat i)) as [->|].
        -- injection Hb as <-. rewrite zget_nat in Hx. pose proof (Forall2_lookup_lr _ _ _ _ _ _ HPP Ha Hx). cbn in *. lia.
        -- rewrite zget_nat in Hb. exact (Forall2_lookup_lr _ _ _ _ _ _ HPP Ha Hb).
      * rewrite Hnext. pose proof (Z.mod_pos_bound (j - s - 1) n ltac:(lia)). nia.
    + cbn [returns]. split; [by exists P'|]. rewrite Hnext. destruct (Z.eq_dec s j) as [->|Hne].
      { destruct (Forall2_lookup_l _ _ _ (Z.to_nat j) p HPP (proj2 (proj1 (zget_Some _ _ _) Hj))) as (y & Hy & Hpy).
        apply zget_Some in Hx as [_ Hx]. assert (y = x) by congruence. subst. lia. }
      assert ((j - s) mod n <> 0) as Hnz.
      { intros Hz. apply Z.mod_divide in Hz as [k Hk]; [|lia]. assert (k = 0) by nia. subst. lia. }
      assert ((j - s - 1) mod n = (j - s) mod n - 1) as ->; [|nia].
      rewrite <- (Z.mod_small ((j - s) mod n - 1) n) by lia. by rewrite Zminus_mod_idemp_l.
Qed.

(** ** The running totals *)

(** The last loop after the counts [cs], on the shares of threshold [lo]:
    what it puts out, and the running total. *)
Definition scaled (norm1 : list Z) (lo v r mid : Z) (cs : list Z) (st : list Z * Z) : Prop :=
  exists P, filled norm1 P st.1 /\ st.2 = mid + r * left_over lo cs /\
    Forall2 (fun c n => (n = 0 <-> c = 0) /\ (n = low_prob \/ 0 <= n)) cs P /\
    cell_sum P = points lo cs + st.2 / 2 ^ v.

Lemma m2_scale_ok norm1 lo v r mid td cs c st :
  filled norm1 (low_share lo <$> counts) norm1 -> ztake (zlen cs) counts = cs -> zget counts (zlen cs) = Some c ->
  0 <= lo -> 50 <= v <= 57 -> 0 <= mid < 2 ^ v -> 0 <= r -> 0 <= td <= 4096 -> 2 ^ v * td <= 2 ^ 62 ->
  (mid + r * left_over lo counts) / 2 ^ v = td ->
  (forall c, threshold < c -> lo < c -> 2 ^ v <= c * r) ->
  scaled norm1 lo v r mid cs st ->
  returns (scaled norm1 lo v r mid (cs ++ [c])) (m2_scale counts v r st (zlen cs)).
Proof.
  destruct st as [norm tmp]. intros Hn1 Hcs Hc Hlo Hv Hmid Hr Htd H62 Hend Hbig (P & Hf & Htmp & HP & Hsum).
  cbn [fst snd] in *. pose proof (zget_lt _ _ _ Hc) as Hcl. destruct HG as [Hcount _ _ _ _ _].
  pose proof (Forall_zget _ _ _ _ Hcount Hc) as Hct. cbn beta in Hct.
  assert (zlen P = zlen cs) as HlP by (apply Forall2_length in HP; unfold zlen; lia).
  assert (zget norm1 (zlen cs) = Some (low_share lo c)) as Hg.
  { rewrite (filled_get _ _ _ _ Hn1) by (rewrite zlen_fmap; lia). by rewrite zget_fmap, Hc. }
  pose proof (zget_lt _ _ _ Hg) as Hgl.
  pose proof (sum_prefix (fun c => if unassigned lo c then c else 0) cs c Hcs Hc) as Hpre. cbn beta in Hpre.
  fold (left_over lo cs) (left_over lo counts) in Hpre. pose proof (left_over_nonneg lo cs).
  unfold m2_scale. rewrite (idx_ok norm _ (low_share lo c)) by (by rewrite (filled_get_ge _ _ _ _ Hf) by lia).
  cbn [mbind res_bind]. fold (unassigned lo c).
  pose proof (pow2_pos v ltac:(lia)) as Hpv. pose proof (pow2_le v 57 ltac:(lia)) as Hv57.
  destruct (unassigned lo c) eqn:Eu.
  - pose proof (proj1 (unassigned_spec lo c) Eu) as Hu. rewrite (idx_ok _ _ _ Hc). cbn [mbind res_bind].
    specialize (Hbig c ltac:(lia) ltac:(lia)).
    assert (tmp + c * r <= mid + r * left_over lo counts) as Hle.
    { rewrite Htmp. assert (r * (left_over lo cs + c) <= r * left_over lo counts) by (apply Z.mul_le_mono_nonneg_l; lia). lia. }
    pose proof (Z.mul_succ_div_gt (mid + r * left_over lo counts) (2 ^ v) ltac:(lia)) as Hgt.
    rewrite Hend in Hgt. unfold Z.succ in Hgt.
    assert (0 <= c * r) as Hcr by (apply Z.mul_nonneg_nonneg; lia).
    assert (0 <= r * left_over lo cs) as Hrl by (apply Z.mul_nonneg_nonneg; lia).
    assert (0 <= tmp) as H0 by lia.
    assert (tmp + c * r < 2 ^ 64) as H64.
    { change (2 ^ 57) with 144115188075855872 in *. change (2 ^ 62) with 4611686018427387904 in *.
      change (2 ^ 64) with 18446744073709551616. lia. }
    unfold wmul, wadd. rewrite (wrap_small 64 (c * r)), (wrap_small 64 (tmp + c * r)) by lia.
    rewrite !shiftr_div by lia.
    assert ((tmp + c * r) / 2 ^ v <= td) as Hed by (rewrite <- Hend; apply Z.div_le_mono; lia).
    assert (tmp / 2 ^ v + 1 <= (tmp + c * r) / 2 ^ v) as Hst.
    { rewrite <- Z.div_add by lia. apply Z.div_le_mono; lia. }
    pose proof (Z.div_pos tmp (2 ^ v) ltac:(lia) ltac:(lia)).
    rewrite !(wrap_small 32) by (change (2 ^ 32) with 4294967296; lia).
    rewrite (proj2 (Z.leb_le _ _)) by lia. cbn [rassert mbind res_bind].
    rewrite (proj2 (Z.ltb_ge _ _)) by lia. cbn [fail_if mbind res_bind].
    rewrite signed16_small by (change (2 ^ 15) with 32768; lia). rewrite <- HlP.
    destruct (filled_store (E := NormalizeError) norm1 P norm ((tmp + c * r) / 2 ^ v - tmp / 2 ^ v) Hf ltac:(lia))
      as (norm' & -> & Hf'). cbn [mbind res_bind returns]. eexists. split; [exact Hf'|]. cbn [snd].
    rewrite left_over_snoc, points_snoc, Eu, orb_true_r, cell_sum_app, cell_sum_cons. change (cell_sum []) with 0.
    split; [lia|]. split; [|lia]. apply Forall2_app; [done|]. constructor; [lia|constructor].
  - cbn [returns]. exists (P ++ [low_share lo c]). cbn [fst snd]. split; [apply filled_keep; [done|by rewrite HlP]|].
    rewrite left_over_snoc, points_snoc, Eu, orb_false_r, cell_sum_app, cell_sum_cons. change (cell_sum []) with 0.
    split; [lia|]. split.
    + apply Forall2_app; [done|]. constructor; [by apply low_share_spec|constructor].
    + pose proof (assigned_cells lo [c] ltac:(by rewrite Forall_singleton)) as Ha. cbn [fmap list_fmap] in Ha.
      rewrite cell_sum_cons in Ha. change (cell_sum []) with 0 in Ha. change [c] with ([] ++ [c]) in Ha.
      rewrite points_snoc, Eu, orb_false_r in Ha. change (points lo []) with 0 in Ha. lia.
Qed.

(** ** The second pass as a whole *)

Lemma points_bound lo : 0 <= points lo counts < size.
Proof.
  pose proof size_range. split; [apply cell_sum_nonneg|].
  assert (points lo counts <= zlen counts /\ points lo counts <= cell_sum counts) as [H1 H2].
  { destruct HG as [Hcount _ _ _ _ _]. clear HG. unfold points. induction Hcount as [|c cs Hc Hcs IH]; [done|].
    rewrite fmap_cons, !cell_sum_cons, zlen_cons.
    destruct (Z.eqb_spec c 0); cbn [orb]; [lia|]. destruct (unassigned lo c); lia. }
  destruct HG as [_ Hs _ _ _ [Hr|Hr]]; lia.
Qed.

(** A step that shares [rest] in [td] parts gives a part to every count at
    least [rest / td]. *)
Lemma scale_step v td rest : 50 <= v -> 1 <= rest < 2 ^ 31 -> 0 <= td ->
  let mid := 2 ^ (v - 1) - 1 in
  let r := (2 ^ v * td + mid) / rest in
  (mid + r * rest) / 2 ^ v = td /\ forall c, 0 <= c -> rest <= c * td -> 2 ^ v <= c * r.
Proof.
  intros Hv Hrest Htd mid r. pose proof (pow2_le 49 (v - 1) ltac:(lia)) as H49.
  change (2 ^ 49) with 562949953421312 in H49. change (2 ^ 31) with 2147483648 in Hrest.
  assert (2 ^ v = 2 * 2 ^ (v - 1)) as Hv2 by (rewrite <- Z.pow_succ_r by lia; f_equal; lia).
  pose proof (Z.mul_div_le (2 ^ v * td + mid) rest ltac:(lia)) as H1. fold r in H1.
  pose proof (Z.mul_succ_div_gt (2 ^ v * td + mid) rest ltac:(lia)) as H2. fold r in H2. unfold Z.succ in H2.
  split.
  - symmetry. apply Zdiv_unique with (mid + r * rest - 2 ^ v * td); unfold mid in *; nia.
  - intros c Hc Hct. apply (Z.mul_le_mono_pos_r _ _ rest); [lia|].
    assert (2 ^ v * rest <= 2 ^ v * (c * td)) as H3 by (apply Z.mul_le_mono_nonneg_l; lia).
    assert (c * (2 ^ v * td) <= c * (r * rest)) as H4 by (apply Z.mul_le_mono_nonneg_l; unfold mid in *; lia).
    nia.
Qed.

(** The three ways to hand out what is left. *)
Lemma m2_finish norm0 norm1 lo : filled norm0 (low_share lo <$> counts) norm1 -> 0 <= lo ->
  (forall c, threshold < c -> lo < c -> left_over lo counts <= c * (size - points lo counts)) ->
  let td := size - points lo counts in
  let rest := left_over lo counts in
  returns (fun norm' => exists P, filled norm0 P norm' /\ normalized low_prob log counts P)
    (if points lo counts =? zlen counts - 1 + 1 then
       '(max_v, _) ← foldM (max_count counts) (0, 0) (seqZ 0 (zlen counts));
       n ← idx norm1 max_v;
       store norm1 max_v (n + signed 16 (wrap 16 td))
     else if rest =? 0 then m2_round_robin (zlen counts - 1) norm1 td
     else
       let v_step_log := 62 - log in
       let mid := wshl 64 1 (v_step_log - 1) - 1 in
       let r_step := wadd 64 (wmul 64 (wshl 64 1 v_step_log) td) mid / rest in
       '(norm, _) ← foldM (m2_scale counts v_step_log r_step) (norm1, mid) (seqZ 0 (zlen counts));
       Ok norm).
Proof.
  intros Hf Hlo Hbig td rest. pose proof (points_bound lo) as Hd. pose proof size_range as Hsz.
  assert (1 <= td <= 4096) as Htd by (unfold td; lia).
  assert (zlen (low_share lo <$> counts) = zlen counts) as Hlen by apply zlen_fmap.
  destruct max_count_ok as (mv & mc & Hmax & Hmv & Hmc).
  assert (0 <= threshold) as Hth0 by (destruct HG as [_ _ Ht _ _ _]; apply Z.div_pos; lia).
  assert (Forall (fun c => unassigned lo c = false) counts -> zget (low_share lo <$> counts) mv = Some 1) as Hone.
  { intros Hu. rewrite zget_fmap, Hmv. cbn. f_equal. pose proof (Forall_zget _ _ _ _ Hu Hmv) as Hm. cbn beta in Hm.
    unfold unassigned, low_share in *. rewrite (proj2 (Z.eqb_neq mc 0)), (proj2 (Z.leb_gt mc threshold)) in * by lia.
    by destruct (mc <=? lo). }
  replace (zlen counts - 1 + 1) with (zlen counts) by lia.
  destruct (Z.eqb_spec (points lo counts) (zlen counts)) as [Hfull|Hfull].
  - apply points_full in Hfull as Hall. assert (Forall (fun c => unassigned lo c = false) counts) as Hu
      by (eapply Forall_impl; [exact Hall|]; by intros c [_ ?]).
    specialize (Hone Hu). pose proof (zget_lt _ _ _ Hone) as Hml. rewrite Hmax. cbn [mbind res_bind].
    rewrite (idx_ok norm1 mv 1) by (rewrite (filled_get _ _ _ _ Hf) by lia; done). cbn [mbind res_bind].
    rewrite signed16_small by (change (2 ^ 15) with 32768; lia).
    pose proof Hf as [Hf1 Hf2]. rewrite store_ok.
    2: { rewrite Hf2, zlen_app. pose proof (zlen_nonneg (zdrop (zlen (low_share lo <$> counts)) norm0)). lia. }
    cbn [returns]. exists (zset (low_share lo <$> counts) mv (1 + td)). split; [by apply filled_zset|].
    apply (add_points lo); [done| |].
    + apply Forall2_same_length_lookup. split; [unfold zset; by rewrite length_insert|].
      intros i x y Hx Hy. rewrite <- zget_nat, zget_zset in Hy by lia.
      destruct (Z.eqb_spec mv (Z.of_nat i)) as [->|]; [|rewrite zget_nat in Hy; left; congruence].
      rewrite zget_nat in Hone. assert (x = 1) by congruence. injection Hy as <-. right. lia.
    + rewrite (cell_sum_update _ _ _ _ Hone), assigned_cells by done. unfold td. lia.
  - destruct (Z.eqb_spec rest 0) as [Hz|Hz].
    + pose proof (left_over_none lo Hz) as Hu. specialize (Hone Hu).
      eapply returns_mono.
      { rewrite <- Hlen. apply (m2_round_robin_ok norm0 _ norm1 td mv 1 Hf ltac:(lia) Hone ltac:(lia)). }
      intros norm' (P & Hf' & HP & Hsum). exists P. split; [done|]. apply (add_points lo); [done..|].
      rewrite Hsum, assigned_cells by done. unfold td. lia.
    + pose proof (left_over_nonneg lo counts) as Hrest0. fold rest in Hrest0.
      destruct HG as [Hcount Hs Ht Hn Hl Hr]. cbv zeta.
      assert (rest <= total) as Hrest.
      { rewrite <- Hs. unfold rest, left_over. clear. induction counts as [|x cs IH]; [done|].
        rewrite fmap_cons, !cell_sum_cons. destruct (unassigned lo x); lia. }
      pose proof (pow2_le (62 - log) 57 ltac:(lia)). pose proof (pow2_pos (62 - log - 1) ltac:(lia)).
      assert (2 ^ (62 - log) = 2 * 2 ^ (62 - log - 1)) as Hv2 by (rewrite <- Z.pow_succ_r by lia; f_equal; lia).
      assert (2 ^ 62 = size * 2 ^ (62 - log)) as Hpow by (rewrite <- pow2_add by lia; f_equal; lia).
      change (2 ^ 57) with 144115188075855872 in *. change (2 ^ 62) with 4611686018427387904 in *.
      assert (2 ^ (62 - log) * td <= 4611686018427387904) as H62 by (unfold td; nia).
      unfold wadd, wmul. rewrite !wshl_div, !Z.mul_1_l by lia.
      rewrite !(Z.mod_small (2 ^ _) (2 ^ 64)) by (change (2 ^ 64) with 18446744073709551616; lia).
      rewrite (wrap_small 64 (_ * td)) by (change (2 ^ 64) with 18446744073709551616; nia).
      rewrite (wrap_small 64) by (change (2 ^ 64) with 18446744073709551616; nia).
      destruct (scale_step (62 - log) td rest ltac:(lia) ltac:(lia) ltac:(lia)) as [Hend Hc].
      cbv zeta in Hend, Hc. set (mid := 2 ^ (62 - log - 1) - 1) in *. set (r := (2 ^ (62 - log) * td + mid) / rest) in *.
      assert (0 <= r) as Hr0 by (apply Z.div_pos; lia).
      eapply returns_bind.
      { apply (symbols_ok (scaled norm1 lo (62 - log) r mid)).
        - exists []. cbn [fst snd]. split; [apply filled_nil|]. change (left_over lo []) with 0. split; [lia|].
          split; [constructor|]. change (points lo []) with 0. change (cell_sum []) with 0.
          rewrite Z.div_small by lia. done.
        - intros cs c st Hcs Hcc Hst. apply (m2_scale_ok norm1 lo (62 - log) r mid td); try done; try lia.
          + by apply (filled_again norm0).
          + intros x Hx1 Hx2. apply Hc; [lia|]. by apply Hbig. }
      intros [norm' tmp] (P & Hf' & Htmp & HP & Hsum). cbn [fst snd returns] in *. exists P.
      assert (zlen P = zlen counts) as HlP by (apply Forall2_length in HP; unfold zlen; lia).
      split; [by apply (filled_trans norm0 _ norm1 P norm' Hf Hf'); lia|]. split; [|done].
      rewrite Hsum, Htmp. fold rest. rewrite Hend. unfold td. lia.
Qed.

(** Counts above the second threshold are worth a part: the first pass gave
    too much to the small ones, so more than a third of the table is gone. *)
Lemma raised_worth lo lo' c : lo = total * 3 / 2 ^ (log + 1) ->
  let td := size - points lo counts in
  lo < left_over lo counts / td -> lo' = left_over lo counts * 3 / (td * 2) ->
  threshold < c -> lo' < c ->
  left_over lo' counts <= c * (size - points lo' counts).
Proof.
  intros Hlo td Hcond Hlo' Hc1 Hc2. pose proof (points_bound lo) as Hp. pose proof size_range as Hsz.
  pose proof (points_bound lo') as Hp'. destruct HG as [Hcount Hs Ht Hn Hl Hr].
  set (T := left_over lo counts) in *. assert (0 <= T) as HT0 by apply left_over_nonneg.
  assert (1 <= td) as Htd by (unfold td; lia).
  assert (2 ^ (log + 1) = 2 * size) as Hp1 by (rewrite pow2_add by lia; change (2 ^ 1) with 2; lia).
  rewrite Hp1 in Hlo.
  assert (left_over lo' counts <= T /\ T <= total) as [HT' HTt].
  { rewrite <- Hs. unfold T, left_over. assert (lo <= lo') as Hle.
    { rewrite Hlo'. apply Z.le_trans with (T / td); [lia|]. apply Z.div_le_lower_bound; [lia|].
      pose proof (Z.mul_div_le T td ltac:(lia)). nia. }
    clear - Hle Hcount Hlow. induction counts as [|x cs IH]; [done|]. apply Forall_cons in Hcount as [Hx Hcount].
    specialize (IH Hcount). rewrite !fmap_cons, !cell_sum_cons.
    destruct (unassigned lo' x) eqn:E1, (unassigned lo x) eqn:E2; try lia.
    apply unassigned_spec in E1. exfalso. assert (unassigned lo x = true) by (apply unassigned_spec; lia). congruence. }
  assert (lo + 1 <= T / td) as Hq by lia.
  assert (2 * size * (lo + 1) > total * 3) as Hlo2.
  { rewrite Hlo. pose proof (Z.mul_succ_div_gt (total * 3) (2 * size) ltac:(lia)). lia. }
  assert (td * (lo + 1) <= T) as Hq2.
  { pose proof (Z.mul_div_le T td ltac:(lia)). nia. }
  assert (3 * td < 2 * size) as Htds by nia.
  assert (3 * T < 2 * td * c) as Hct.
  { rewrite Hlo' in Hc2. pose proof (Z.mul_succ_div_gt (T * 3) (td * 2) ltac:(lia)). nia. }
  assert (size <= 2 * (size - points lo' counts)) as Hhalf; [|nia].
  destruct Hr as [Hr|Hr].
  - exfalso. assert (points lo counts + T <= total) as Hpt.
    { rewrite <- Hs. unfold points, T, left_over. clear - Hcount. induction Hcount as [|x cs Hx Hcs IH]; [done|].
      rewrite !fmap_cons, !cell_sum_cons. destruct (Z.eqb_spec x 0); cbn [orb]; destruct (unassigned lo x); lia. }
    assert (T < td) by (unfold td; lia). rewrite Z.div_small in Hcond by lia.
    assert (0 <= lo) by (rewrite Hlo; apply Z.div_pos; lia). lia.
  - assert (points lo' counts <= zlen counts); [|lia]. unfold points. clear.
    induction counts as [|x cs IH]; [done|]. rewrite fmap_cons, cell_sum_cons, zlen_cons. destruct (_ || _); lia.
Qed.

(** The second pass succeeds. *)
Lemma normalize_m2_ok norm0 : zlen counts <= zlen norm0 ->
  returns (fun norm' => exists P, filled norm0 P norm' /\ normalized low_prob log counts P)
    (normalize_m2 norm0 log counts total (zlen counts - 1) low_prob).
Proof.
  intros Hlen. pose proof size_range as Hsz. pose proof HG as [Hcount Hs Ht Hn Hl Hr].
  change (2 ^ 31) with 2147483648 in Ht.
  assert (2 ^ (log + 1) = 2 * size) as Hp1 by (rewrite pow2_add by lia; change (2 ^ 1) with 2; lia).
  unfold normalize_m2. replace (zlen counts - 1 + 1) with (zlen counts) by lia.
  rewrite !shiftr_div by lia.
  pose proof (Z.div_le_upper_bound total size total ltac:(lia) ltac:(nia)) as Hthu.
  pose proof (Z.div_pos total size ltac:(lia) ltac:(lia)) as Hth0.
  set (lo := total * 3 / 2 ^ (log + 1)). assert (0 <= lo < 4294967296) as Hlo.
  { unfold lo. rewrite Hp1. split; [apply Z.div_pos; lia|apply Z.div_lt_upper_bound; lia]. }
  rewrite (wrap_small 32 threshold), (wrap_small 32 lo) by (change (2 ^ 32) with 4294967296; lia).
  eapply returns_bind.
  { apply (symbols_ok (lowered norm0 lo)).
    - split; [apply filled_nil|]. change (points lo []) with 0. change (cell_sum []) with 0. change (left_over lo []) with 0. lia.
    - intros cs c st Hcs Hc Hst. by apply m2_low_ok. }
  intros [[norm1 d] rest] (Hf & -> & ->). rewrite Hs. replace (total - (total - left_over lo counts)) with (left_over lo counts) by lia.
  pose proof (points_bound lo) as Hp.
  rewrite !(wshl_div 32), !Z.mul_1_l by lia. rewrite !(Z.mod_small size) by (change (2 ^ 32) with 4294967296; lia).
  rewrite (proj2 (Z.leb_le _ _)) by lia. cbn [rassert mbind res_bind].
  set (td := size - points lo counts). rewrite (proj2 (Z.eqb_neq td 0)) by (unfold td; lia).
  pose proof (left_over_nonneg lo counts) as HT0. set (T := left_over lo counts) in *.
  assert (T <= total) as HTt.
  { rewrite <- Hs. unfold T, left_over. clear. induction counts as [|x cs IH]; [done|].
    rewrite fmap_cons, !cell_sum_cons. destruct (unassigned lo x); lia. }
  assert (1 <= td <= 4096) as Htd by (unfold td; lia).
  pose proof (Z.div_le_upper_bound T td T ltac:(lia) ltac:(nia)) as HTd.
  pose proof (Z.div_pos T td ltac:(lia) ltac:(lia)) as HTd0.
  rewrite (wrap_small 32 (T / td)) by (change (2 ^ 32) with 4294967296; lia).
  destruct (Z.ltb_spec lo (T / td)) as [Hcond|Hcond].
  - set (lo' := T * 3 / (td * 2)). assert (lo <= lo' < 4294967296) as Hlo'.
    { unfold lo'. split; [|apply Z.div_lt_upper_bound; nia]. apply Z.le_trans with (T / td); [lia|].
      apply Z.div_le_lower_bound; [lia|]. pose proof (Z.mul_div_le T td ltac:(lia)). nia. }
    rewrite (wrap_small 32 lo') by (change (2 ^ 32) with 4294967296; lia).
    rewrite bind_assoc. eapply returns_bind.
    { apply (symbols_ok (raised norm1 lo lo')).
      - split; [apply filled_nil|]. change (points _ []) with 0. change (left_over _ []) with 0. unfold T. lia.
      - intros cs c st Hcs Hc Hst. apply m2_one_ok; try done; [|lia]. by apply (filled_again norm0). }
    intros [[norm2 d] rest] (Hf2 & -> & ->). pose proof (points_bound lo') as Hp'.
    replace (points lo counts + _) with (points lo' counts) by lia.
    replace (left_over lo counts + _) with (left_over lo' counts) by lia.
    rewrite (proj2 (Z.leb_le _ _)) by lia. cbn [rassert mbind res_bind].
    pose proof (m2_finish norm0 norm2 lo') as Hfin. cbv zeta in Hfin.
    replace (zlen counts - 1 + 1) with (zlen counts) in Hfin by lia.
    apply Hfin; [|lia|].
    + apply (filled_trans norm0 _ norm1 _ norm2 Hf Hf2). by rewrite !zlen_fmap.
    + intros c Hc1 Hc2. by apply (raised_worth lo lo').
  - cbn [mbind res_bind]. pose proof (m2_finish norm0 norm1 lo) as Hfin. cbv zeta in Hfin.
    replace (zlen counts - 1 + 1) with (zlen counts) in Hfin by lia.
    apply Hfin; [done|lia|]. intros c Hc1 Hc2. fold td T.
    pose proof (Z.mul_succ_div_gt T td ltac:(lia)). nia.
Qed.

(** Both passes. *)
Lemma normalize_ok norm0 : zlen counts <= zlen norm0 ->
  returns (fun '(norm', log') => log' = log /\ exists P, filled norm0 P norm' /\ normalized low_prob log counts P)
    (r ← foldM (normalize_symbol counts total scale step (2 ^ (scale - 20)) low_prob threshold)
           (Some (norm0, size, 0, 0)) (seqZ 0 (zlen counts));
     match r with
     | None => Ok (norm0, 0)
     | Some (norm, still, largest, _) =>
         n ← idx norm largest;
         if Z.shiftr n 1 <=? - still then
           norm ← normalize_m2 norm log counts total (zlen counts - 1) low_prob;
           Ok (norm, log)
         else
           norm ← store norm largest (n + signed 16 (wrap 16 still));
           Ok (norm, log)
     end).
Proof.
  intros Hlen. pose proof size_range as Hsz. pose proof HG as [Hcount Hs Ht Hn Hl Hr].
  assert (0 <= threshold) as Hth0 by (apply Z.div_pos; lia).
  eapply returns_bind; [by apply first_pass_ok|].
  intros st (norm & still & largest & p & -> & Hf & Hstill & Hlg).
  destruct Hlg as [(_ & _ & Hall)|[Hp Hg]]; [by destruct some_above|].
  pose proof (zget_lt _ _ _ Hg) as Hgl.
  assert (zlen norm = zlen norm0) as Hln.
  { destruct Hf as [Hf1 Hf2]. rewrite Hf2, zlen_app, zlen_zdrop; [lia|]. pose proof (zlen_nonneg (first_share <$> counts)). lia. }
  rewrite (idx_ok norm largest p) by (rewrite (filled_get _ _ _ _ Hf) by lia; done). cbn [mbind res_bind].
  rewrite shiftr_div by lia. change (2 ^ 1) with 2.
  destruct (Z.leb_spec (p / 2) (- still)) as [Hle|Hlt].
  - eapply returns_bind; [apply normalize_m2_ok; lia|]. intros norm' (P & Hf' & HP). cbn [returns].
    split; [done|]. exists P. split; [|done]. apply (filled_trans norm0 _ norm P norm' Hf Hf').
    rewrite zlen_fmap. destruct HP as [_ HP]. apply Forall2_length in HP. unfold zlen. lia.
  - pose proof (first_shares_normalized largest p still Hg Hp Hstill ltac:(lia)) as HP.
    pose proof (cell_sum_nonneg (first_share <$> counts)) as Hs0.
    assert (signed 16 (wrap 16 still) = still) as ->.
    { unfold signed. change (2 ^ (16 - 1)) with 32768. destruct (Z.lt_ge_cases still 0).
      - assert (p <= size) as Hps.
        { rewrite zget_fmap in Hg. apply fmap_Some in Hg as (c & Hc & ->).
          pose proof (Forall_zget _ _ _ _ Hcount Hc) as Hct. cbn beta in Hct. unfold first_share in *.
          destruct (c =? 0); [lia|]. destruct (Z.leb_spec c threshold); [lia|].
          destruct (returns_inv _ _ (share_ok c ltac:(lia))) as (q & -> & Hq). lia. }
        assert (wrap 16 still = still + 65536) as ->.
        { symmetry. unfold wrap. change (2 ^ 16) with 65536. apply Zmod_unique with (-1); [|lia].
          assert (- still < p / 2) by lia. divlia. }
        assert (- still < p / 2) by lia. rewrite (proj2 (Z.ltb_ge _ _)) by divlia. lia.
      - rewrite wrap_small by (change (2 ^ 16) with 65536; lia). by rewrite (proj2 (Z.ltb_lt _ _)) by lia. }
    rewrite store_ok by (rewrite zlen_fmap in Hgl; lia). cbn [mbind res_bind returns]. split; [done|].
    exists (zset (first_share <$> counts) largest (p + still)). split; [by apply filled_zset|done].
Qed.
End normalize.

(** ** The whole function *)

Lemma in_seqZ n s : In s (seqZ 0 n) -> 0 <= s < n.
Proof. intros H. apply list_elem_of_In, elem_of_seqZ in H. lia. Qed.

(** Only the counts of the alphabet matter. *)
Lemma normalize_m2_counts norm log all total ms low :
  normalize_m2 norm log all total ms low = normalize_m2 norm log (ztake (ms + 1) all) total ms low.
Proof.
  unfold normalize_m2.
  assert (forall A (f : list Z -> A -> Z -> res NormalizeError A) a,
    (forall a s, 0 <= s < ms + 1 -> f all a s = f (ztake (ms + 1) all) a s) ->
    foldM (f all) a (seqZ 0 (ms + 1)) = foldM (f (ztake (ms + 1) all)) a (seqZ 0 (ms + 1))) as Hext.
  { intros A f a Hf. apply foldM_ext. intros a' s Hs. by apply Hf, in_seqZ. }
  rewrite (Hext _ (fun c => m2_low c _ _ _)) by (intros [[? ?] ?] s Hs; unfold m2_low; by rewrite idx_ztake).
  destruct (foldM (m2_low _ _ _ _) _ _) as [[[n1 d1] t1]| | |]; cbn [mbind res_bind]; try done.
  destruct (rassert _); cbn [mbind res_bind]; try done. destruct (_ =? 0); [done|].
  rewrite (Hext _ (fun c => m2_one c _)) by (intros [[? ?] ?] s Hs; unfold m2_one; by rewrite idx_ztake).
  destruct (if _ <? _ then _ else _) as [[[[n2 d2] t2] td]| | |]; cbn [mbind res_bind]; try done.
  rewrite (Hext _ (fun c => max_count c)) by (intros [? ?] s Hs; unfold max_count; by rewrite idx_ztake).
  rewrite (Hext _ (fun c => m2_scale c _ _)) by (intros [? ?] s Hs; unfold m2_scale; by rewrite idx_ztake).
  done.
Qed.

Lemma normalize_count_counts norm log all total ms b :
  normalize_count norm log all total ms b = normalize_count norm log (ztake (ms + 1) all) total ms b.
Proof.
  unfold normalize_count. destruct (fail_if _ _); cbn [mbind res_bind]; try done.
  destruct (rassert _); cbn [mbind res_bind]; try done.
  match goal with |- context [normalize_symbol all ?a ?b ?c ?d ?e ?f] =>
    rewrite (foldM_ext (normalize_symbol all a b c d e f) (normalize_symbol (ztake (ms + 1) all) a b c d e f)) end.
  2: { intros [[[[? ?] ?] ?]|] s Hs%in_seqZ; [|done]. unfold normalize_symbol. by rewrite idx_ztake by lia. }
  destruct (foldM (normalize_symbol _ _ _ _ _ _ _) _ _) as [[[[[n1 st] lg] lp]|]| | |]; cbn [mbind res_bind]; try done.
  destruct (idx n1 lg) as [n| | |]; cbn [mbind res_bind]; try done. destruct (_ <=? _); [|done].
  by rewrite (normalize_m2_counts n1 _ all).
Qed.

(** One symbol has every count. *)
Lemma normalize_rle counts total scale step v_step low threshold norm0 still :
  Forall (fun c => 0 <= c) counts -> cell_sum counts = total -> 1 <= total -> In total counts ->
  zlen counts <= zlen norm0 ->
  foldM (normalize_symbol counts total scale step v_step low threshold)
    (Some (norm0, still, 0, 0)) (seqZ 0 (zlen counts)) = Ok None.
Proof.
  intros Hc Hs Ht Hin Hlen.
  assert (returns (fun st => match st with
    | None => True
    | Some (norm, _, _, _) => zlen norm = zlen norm0 /\ ~ In total counts
    end) (foldM (normalize_symbol counts total scale step v_step low threshold)
    (Some (norm0, still, 0, 0)) (seqZ 0 (zlen counts)))) as H.
  { apply (symbols_ok counts (fun cs st => match st with
      | None => True
      | Some (norm, _, _, _) => zlen norm = zlen norm0 /\ ~ In total cs
      end)).
    - split; [done|by intros []].
    - intros cs c [[[[norm st] lg] lp]|] Hcs Hcc Hst; [|done]. destruct Hst as [Hl Hn].
      pose proof (zget_lt _ _ _ Hcc) as Hcl. unfold normalize_symbol. rewrite (idx_ok _ _ _ Hcc). cbn [mbind res_bind].
      destruct (Z.eqb_spec c total) as [|Hne]; [done|].
      assert (c = 0) as ->.
      { pose proof (Forall_zget _ _ _ _ Hc Hcc) as Hc0. cbn beta in Hc0.
        apply list_elem_of_In, list_elem_of_lookup_1 in Hin as [i Hi]. rewrite <- zget_nat in Hi.
        pose proof (cell_sum_update counts (Z.of_nat i) total 0 Hi) as Hu.
        assert (zget (zset counts (Z.of_nat i) 0) (zlen cs) = Some c) as Hg.
        { rewrite zget_zset_ne; [done|lia|]. intros Hi2. rewrite Hi2 in Hi. congruence. }
        pose proof (cell_sum_ge _ _ _ Hg). lia. }
      cbn [Z.eqb]. rewrite store_ok by lia. cbn. split; [by rewrite zlen_zset|].
      rewrite in_app_iff. cbn. intros [|[|[]]]; [done|lia]. }
  apply returns_inv in H as ([[[[norm st] lg] lp]|] & -> & Hst); [|done]. by destruct Hst.
Qed.

(** The distribution of the alphabet, and what is past it. *)
Definition normalized_array (low_prob log : Z) (norm0 counts norm : list Z) : Prop :=
  exists P, filled norm0 P norm /\ normalized low_prob log counts P.

Lemma normalize_count_ok norm0 table_log all total ms (b : bool) :
  let counts := ztake (ms + 1) all in
  let log := if table_log =? 0 then FSE_DEFAULT_TABLELOG else table_log in
  0 <= ms <= 255 -> ms < zlen all -> ms < zlen norm0 -> Forall (fun c => 0 <= c) counts ->
  cell_sum counts = total -> 1 <= total < 2 ^ 31 ->
  match normalize_count norm0 table_log all total ms b with
  | Ok (norm, log') => 5 <= log <= 12 /\ min_table_log total ms <= log /\
      (log' = 0 /\ In total counts \/
       log' = log /\ ~ In total counts /\ normalized_array (if b then -1 else 1) log norm0 counts norm)
  | Err _ => log < 5 \/ 12 < log \/ log < min_table_log total ms
  | Fault | Stuck => False
  end.
Proof.
  intros counts log Hms Hall Hnorm Hc Hs Ht. rewrite normalize_count_counts. fold counts.
  assert (zlen counts = ms + 1) as Hl by (apply zlen_ztake; lia).
  unfold normalize_count. fold log. unfold FSE_MIN_TABLELOG, FSE_MAX_TABLELOG.
  destruct (Z.leb_spec 5 log); cbn [andb negb orb fail_if mbind res_bind]; [|lia].
  destruct (Z.leb_spec log 12); cbn [andb negb orb fail_if mbind res_bind]; [|lia].
  destruct (Z.ltb_spec log (min_table_log total ms)) as [|Hmin]; cbn [fail_if mbind res_bind]; [lia|].
  rewrite (proj2 (Z.eqb_neq total 0)) by lia. cbn [negb rassert mbind res_bind].
  pose proof (pow2_pos log ltac:(lia)) as Hp. pose proof (pow2_le (62 - log - 20) 62 ltac:(lia)) as Hp2.
  pose proof (pow2_pos (62 - log - 20) ltac:(lia)) as Hp3. change (2 ^ 31) with 2147483648 in Ht.
  rewrite !wshl_div, !Z.mul_1_l by lia. rewrite Z.shiftl_1_l, shiftr_div by lia.
  change (2 ^ 62 mod 2 ^ 64) with (2 ^ 62). rewrite (Z.mod_small (2 ^ (62 - log - 20)))
    by (change (2 ^ 62) with 4611686018427387904 in Hp2; change (2 ^ 64) with 18446744073709551616; lia).
  rewrite wrap_small.
  2: { split; [apply Z.div_pos; lia|]. apply Z.div_lt_upper_bound; [lia|]. change (2 ^ 32) with 4294967296. nia. }
  rewrite <- Hl. destruct (in_dec Z.eq_dec total counts) as [Hin|Hin].
  - rewrite normalize_rle by (done || lia). cbn. split; [done|]. split; [done|]. by left.
  - assert (histogram counts total log) as HG.
    { split; try done; try lia.
      - apply Forall_forall. intros c Hci. pose proof (proj1 (Forall_forall _ _) Hc c Hci) as Hc0. cbn in Hc0.
        split; [done|]. apply list_elem_of_lookup_1 in Hci as [i Hi]. rewrite <- zget_nat in Hi.
        pose proof (cell_sum_ge _ _ _ Hi). assert (c <> total); [|lia]. intros ->. apply Hin.
        apply list_elem_of_In, (list_elem_of_lookup_2 _ i). by rewrite <- zget_nat.
      - destruct (min_table_log_room total ms log) as [|]; [|lia| |lia|by left|right; lia];
          change (2 ^ 31) with 2147483648; lia. }
    assert ((if b then -1 else 1) = -1 \/ (if b then -1 else 1) = 1) as Hlow by (destruct b; tauto).
    pose proof (normalize_ok counts total log _ HG Hlow norm0 ltac:(lia)) as Hok.
    replace (zlen counts - 1) with ms in Hok by lia.
    apply returns_inv in Hok as ([norm' log'] & -> & -> & P & Hf & HP).
    split; [done|]. split; [done|]. right. split; [done|]. split; [done|]. by exists P.
Qed.

(** C36: Normalization shares out the whole table. For a histogram of at most
    256 symbols and fewer than 2^31 counts, [normalize_count] terminates
    without a panic or a cast that loses bits, and fails exactly on a table
    log outside 5 to 12 or too small for the alphabet and the total; the
    second normalization, when the first gave out too much, never fails.
    Otherwise it returns 0 when one symbol has every count, and else the table
    log with shares whose absolute values sum to the table's size, zero
    exactly for the symbols that do not occur, and negative only as the
    low-probability mark the caller allowed; what lies past the alphabet is
    untouched. *)
Theorem normalize_count_sound norm0 table_log all total ms (b : bool) :
  let counts := ztake (ms + 1) all in
  let log := if table_log =? 0 then FSE_DEFAULT_TABLELOG else table_log in
  0 <= ms <= 255 -> ms < zlen all -> ms < zlen norm0 -> Forall (fun c => 0 <= c) counts ->
  cell_sum counts = total -> 1 <= total < 2 ^ 31 ->
  if (log <? 5) || (12 <? log) || (log <? min_table_log total ms) then
    normalize_count norm0 table_log all total ms b = Err ENormalize
  else if existsb (Z.eqb total) counts then
    exists norm, normalize_count norm0 table_log all total ms b = Ok (norm, 0)
  else exists P,
    normalize_count norm0 table_log all total ms b = Ok (P ++ zdrop (ms + 1) norm0, log) /\
    cell_sum P = 2 ^ log /\
    Forall2 (fun c n => (n = 0 <-> c = 0) /\ (0 <= n \/ b = true /\ n = -1)) counts P.
Proof.
  intros counts log Hms Hall Hnorm Hc Hs Ht.
  pose proof (normalize_count_ok norm0 table_log all total ms b Hms Hall Hnorm Hc Hs Ht) as H.
  fold counts log in H.
  assert (existsb (Z.eqb total) counts = true <-> In total counts) as Hex.
  { rewrite existsb_exists. split; [by intros (x & Hx & ->%Z.eqb_eq)|]. intros Hin. exists total. by rewrite Z.eqb_refl. }
  destruct (normalize_count _ _ _ _ _ _) as [[norm log']|[]| |]; try done.
  - destruct H as (Hl & Hm & H). rewrite !(proj2 (Z.ltb_ge _ _)) by lia. cbn [orb].
    destruct H as [[-> Hin]|(-> & Hin & P & [HP ->] & [H1 H2])].
    + rewrite (proj2 Hex Hin). by exists norm.
    + destruct (existsb _ _); [by destruct Hin; apply Hex|].
      assert (zlen P = ms + 1) as HPl.
      { apply Forall2_length in H2. unfold counts in H2. rewrite <- (zlen_ztake all (ms + 1)) by lia. unfold zlen. by rewrite H2. }
      exists P. rewrite HPl. split; [done|]. split; [done|]. eapply Forall2_impl; [exact H2|].
      intros c n [H3 H4]. split; [done|]. destruct b; [lia|left; lia].
  - assert ((log <? 5) || (12 <? log) || (log <? min_table_log total ms) = true) as ->; [|done].
    rewrite !orb_true_iff, !Z.ltb_lt. lia.
Qed.

(** A histogram whose first shares, rounded up, take 40 cells of 32. *)
Lemma normalize_count_sound_witness : exists P,
  normalize_count (zrepeat 0 18) 5 (310 :: zrepeat 46 15) 1000 15 true = Ok (P ++ [0; 0], 5) /\ cell_sum P = 32 /\
  Forall2 (fun c n => (n = 0 <-> c = 0) /\ (0 <= n \/ true = true /\ n = -1)) (310 :: zrepeat 46 15) P.
Proof.
  assert (Forall (fun c => 0 <= c) (ztake (15 + 1) (310 :: zrepeat 46 15))) as Hc.
  { change (ztake (15 + 1) (310 :: zrepeat 46 15)) with (310 :: zrepeat 46 15). constructor; [lia|].
    by apply Forall_zrepeat. }
  pose proof (normalize_count_sound (zrepeat 0 18) 5 (310 :: zrepeat 46 15) 1000 15 true
    ltac:(lia) ltac:(vm_compute; reflexivity) ltac:(vm_compute; reflexivity) Hc ltac:(vm_compute; reflexivity)
    ltac:(vm_compute; split; congruence)) as H.
  change (exists P, normalize_count (zrepeat 0 18) 5 (310 :: zrepeat 46 15) 1000 15 true =
    Ok (P ++ zdrop (15 + 1) (zrepeat 0 18), 5) /\ cell_sum P = 2 ^ 5 /\
    Forall2 (fun c n => (n = 0 <-> c = 0) /\ (0 <= n \/ true = true /\ n = -1)) (310 :: zrepeat 46 15) P) in H.
  exact H.
Defined.
