(* ===== verification/NCountProofs.v ===== *)
(** * The normalized-count header round-trips

    [write_ncount] writes the fields [coded] says of a distribution;
    [read_ncount_body], given those fields, reads the distribution back. *)

From S2P Require Import Prelude Words Constants Errors FseTable FseCounts FseBuild.
From S2P Require Import BitCStream FseEncode FseEncodeProofs FseNorm FseNormProofs.

(** ** The fields *)

(** A count, when [remaining - 1] cells are left: shorter when small. *)
Definition count_field (remaining c : Z) : Z * Z :=
  let threshold := 2 ^ Z.log2 remaining in
  let max := (2 * threshold - 1) - remaining in
  let x := c + 1 in
  let x := if threshold <=? x then x + max else x in
  (x, Z.log2 remaining + 1 - Z.b2z (x <? max)).

(** [z] more zero counts: two ones for each three of them, then the rest. *)
Definition run_field (z : Z) : Z * Z :=
  (2 ^ (2 * (z / 3)) - 1 + 2 ^ (2 * (z / 3)) * (z mod 3), 2 * (z / 3) + 2).

(** The fields [fs] describe the counts of [norm] from symbol [s] on, when
    they have [remaining - 1] cells and the count before may have been 0. *)
Inductive coded (norm : list Z) : Z -> Z -> bool -> list (Z * Z) -> Prop :=
| coded_end prev0 : coded norm (zlen norm) 1 prev0 []
| coded_count s remaining c fs : zget norm s = Some c -> 2 <= remaining -> Z.abs c < remaining -> -1 <= c ->
    coded norm (s + 1) (remaining - Z.abs c) (c =? 0) fs ->
    coded norm s remaining false (count_field remaining c :: fs)
| coded_run s z remaining c fs : 0 <= z -> 0 <= s -> (forall i, s <= i < s + z -> zget norm i = Some 0) ->
    zget norm (s + z) = Some c -> c <> 0 -> 2 <= remaining -> Z.abs c < remaining -> -1 <= c ->
    coded norm (s + z + 1) (remaining - Z.abs c) false fs ->
    coded norm s remaining true (run_field z :: count_field remaining c :: fs).

Lemma log2_range r : 1 <= r -> 2 ^ Z.log2 r <= r < 2 * 2 ^ Z.log2 r /\ 0 <= Z.log2 r.
Proof.
  intros Hr. pose proof (Z.log2_spec r ltac:(lia)) as H. pose proof (Z.log2_nonneg r).
  rewrite Z.pow_succ_r in H by lia. lia.
Qed.

Lemma count_field_range r c : 2 <= r -> -1 <= c -> Z.abs c < r ->
  0 <= (count_field r c).1 < 2 ^ (count_field r c).2 /\ Z.log2 r <= (count_field r c).2 <= Z.log2 r + 1.
Proof.
  intros Hr Hc Ha. pose proof (log2_range r ltac:(lia)) as [Hl H0]. unfold count_field. cbn [fst snd].
  set (t := 2 ^ Z.log2 r) in *. set (max := 2 * t - 1 - r).
  assert (2 ^ (Z.log2 r + 1) = 2 * t) as Ht by (unfold t; rewrite <- Z.pow_succ_r by lia; f_equal; lia).
  destruct (Z.leb_spec t (c + 1)).
  - rewrite (proj2 (Z.ltb_ge _ _)) by (unfold max; lia). cbn [Z.b2z]. rewrite Z.sub_0_r, Ht. unfold max. lia.
  - destruct (Z.ltb_spec (c + 1) max); cbn [Z.b2z].
    + replace (Z.log2 r + 1 - 1) with (Z.log2 r) by lia. fold t. unfold max in *. lia.
    + rewrite Z.sub_0_r, Ht. lia.
Qed.

Lemma run_field_range z : 0 <= z -> 0 <= (run_field z).1 < 2 ^ (run_field z).2 /\ 2 <= (run_field z).2.
Proof.
  intros Hz. unfold run_field. cbn [fst snd]. pose proof (Z.div_pos z 3 Hz ltac:(lia)) as Hk.
  pose proof (Z.mod_pos_bound z 3 ltac:(lia)) as Hm. set (k := z / 3) in *.
  pose proof (pow2_pos (2 * k) ltac:(lia)) as Hp. rewrite pow2_add by lia. change (2 ^ 2) with 4. nia.
Qed.

Lemma coded_width norm s r prev0 fs : coded norm s r prev0 fs -> 0 <= width fs /\ (2 <= r -> 1 <= width fs).
Proof.
  induction 1 as [|s r c fs Hg Hr Ha Hc Hfs [IH _]|s z r c fs Hz Hs Hzeros Hg Hne Hr Ha Hc Hfs [IH _]].
  - split; [done|lia].
  - destruct (count_field_range r c Hr Hc Ha) as [_ Hk]. destruct (count_field r c). rewrite width_cons.
    pose proof (Z.log2_le_mono 2 r Hr) as H1. change (Z.log2 2) with 1 in H1. cbn [snd] in Hk. lia.
  - destruct (count_field_range r c Hr Hc Ha) as [_ Hk], (run_field_range z Hz) as [_ Hz2]. destruct (count_field r c), (run_field z).
    rewrite !width_cons. pose proof (Z.log2_nonneg r). cbn [snd] in Hk, Hz2. lia.
Qed.

Lemma coded_last norm s prev0 fs : coded norm s 1 prev0 fs -> s = zlen norm /\ fs = [].
Proof. inversion 1; [done|lia|lia]. Qed.

Lemma coded_more norm s r prev0 fs : coded norm s r prev0 fs -> 2 <= r -> s < zlen norm.
Proof.
  inversion 1 as [|s' r' c fs' Hg|s' z r' c fs' Hz Hs Hzeros Hg]; subst; intros Hr2; [lia| |];
    pose proof (zget_lt _ _ _ Hg); lia.
Qed.

(** ** The writer

    It is given the distribution [norm], or a longer array. *)

(** [w] has written the number [v] of [n] bits. *)
Record holding (w : NcWriter) (v n : Z) : Prop := {
  hd_bytes : bytes (nw_out w);
  hd_count : 0 <= nw_count w;
  hd_width : 8 * zlen (nw_out w) + nw_count w = n;
  hd_stream : 0 <= nw_stream w < 2 ^ nw_count w;
  hd_value : le_val (nw_out w) + 2 ^ (8 * zlen (nw_out w)) * nw_stream w = v;
}.

Lemma nw_add_ok w v n x k : holding w v n -> 0 <= k -> nw_count w + k <= 32 -> 0 <= x < 2 ^ k ->
  holding (nw_add w x k) (v + 2 ^ n * x) (n + k) /\ nw_count (nw_add w x k) = nw_count w + k.
Proof.
  intros [Hb Hc Hw Hs Hv] Hk H32 Hx. split; [|done]. pose proof (pow2_pos (nw_count w) Hc).
  assert (x * 2 ^ nw_count w + nw_stream w < 2 ^ (nw_count w + k)) as Hlt by (rewrite pow2_add by lia; nia).
  pose proof (pow2_le (nw_count w + k) 32 ltac:(lia)) as H2.
  assert (nw_stream (nw_add w x k) = nw_stream w + x * 2 ^ nw_count w) as Hst.
  { unfold nw_add, wadd. cbn [nw_stream]. rewrite wshl_div by lia. rewrite (Z.mod_small (x * _)) by nia.
    apply wrap_small. nia. }
  split; rewrite ?Hst; cbn [nw_out nw_count nw_add]; try done; try lia.
  rewrite <- Hv, <- Hw, pow2_add by (pose proof (zlen_nonneg (nw_out w)); lia). ring.
Qed.

Lemma nw_out2_ok w v n : holding w v n -> 16 <= nw_count w <= 32 ->
  holding (MkNcw (nw_out (nw_out2 w)) (nw_stream (nw_out2 w)) (nw_count w - 16)) v n.
Proof.
  intros [Hb Hc Hw Hs Hv] H16. pose proof (zlen_nonneg (nw_out w)). unfold nw_out2. cbn [nw_out nw_stream].
  assert (zlen (le_bytes 2 (wrap 16 (nw_stream w))) = 2) as Hl by by unfold zlen; rewrite length_le_bytes.
  split; cbn [nw_out nw_stream nw_count].
  - apply Forall_app. split; [done|apply le_bytes_bytes].
  - lia.
  - rewrite zlen_app, Hl. lia.
  - rewrite shiftr_div by lia. split; [apply Z.div_pos; lia|]. apply Z.div_lt_upper_bound; [lia|].
    rewrite <- pow2_add by lia. replace (16 + (nw_count w - 16)) with (nw_count w) by lia. lia.
  - rewrite le_val_app, le_val_le_bytes, zlen_app, Hl, shiftr_div by lia. unfold wrap.
    change (2 ^ (8 * Z.of_nat 2)) with (2 ^ 16). rewrite Z.mod_mod by lia. rewrite <- Hv.
    replace (8 * (zlen (nw_out w) + 2)) with (8 * zlen (nw_out w) + 16) by lia. rewrite pow2_add by lia.
    rewrite (Z.div_mod (nw_stream w) (2 ^ 16)) at 3 by lia. ring.
Qed.

Lemma nw_flush_ok w v n : holding w v n -> nw_count w <= 32 -> holding (nw_flush w) v n /\ nw_count (nw_flush w) <= 16.
Proof.
  intros Hw H32. unfold nw_flush. destruct (Z.ltb_spec 16 (nw_count w)); [|by split; [|lia]].
  split; [exact (nw_out2_ok w v n Hw ltac:(lia))|cbn; lia].
Qed.

Section writer.
Context (full norm : list Z) (Hfull : forall i, i < zlen norm -> zget full i = zget norm i).
Abbreviation alphabet := (zlen norm).

Lemma full_idx {E} i c : zget norm i = Some c -> idx full i = (Ok c : res E Z).
Proof. intros Hc. apply idx_ok. rewrite Hfull; [done|]. by eapply zget_lt. Qed.

(** The zero counts from [s] on, up to a count that is not. *)
Lemma nw_skip_zeros_ok s z c : 0 <= z -> 0 <= s -> (forall i, s <= i < s + z -> zget norm i = Some 0) ->
  zget norm (s + z) = Some c -> c <> 0 ->
  nw_skip_zeros full alphabet s = Ok (s + z).
Proof.
  intros Hz Hs Hzeros Hc Hnz. pose proof (zget_lt _ _ _ Hc). unfold nw_skip_zeros.
  assert (returns (fun r => r = s + z) (loopM (Z.to_nat alphabet + 1) (fun symbol =>
    if symbol <? alphabet then
      n ← idx full symbol; if n =? 0 then Ok (inl (symbol + 1)) else Ok (inr symbol)
    else Ok (inr symbol)) s : res NormalizeError Z)) as Hret.
  { apply returns_loopM with (I := fun i => s <= i <= s + z) (m := fun i => Z.to_nat (s + z - i)); [lia|lia|].
    intros i Hi. rewrite (proj2 (Z.ltb_lt _ _)) by lia. destruct (Z.eq_dec i (s + z)) as [->|].
    - rewrite (full_idx _ _ Hc). cbn [mbind res_bind]. by rewrite (proj2 (Z.eqb_neq c 0)).
    - rewrite (full_idx _ _ (Hzeros i ltac:(lia))). cbn. lia. }
  by apply returns_inv in Hret as (r & -> & ->).
Qed.

(** Ones, then more ones, are ones. *)
Lemma run_add k m : 0 <= k -> 0 <= m -> 2 ^ k - 1 + 2 ^ k * (2 ^ m - 1) = 2 ^ (k + m) - 1.
Proof. intros. rewrite pow2_add by lia. lia. Qed.

(** The zero run's three loops write its field. *)
Lemma nw_zeros_ok w v n s z c : holding w v n -> nw_count w <= 16 -> 0 <= z -> 0 <= s ->
  (forall i, s <= i < s + z -> zget norm i = Some 0) -> zget norm (s + z) = Some c -> c <> 0 ->
  exists w', nw_zeros full alphabet w s = Ok (Some (w', s + z)) /\
    holding w' (v + 2 ^ n * (run_field z).1) (n + (run_field z).2) /\ nw_count w' <= 16.
Proof.
  intros Hw Hcount Hz Hs Hzeros Hc Hnz. pose proof (zget_lt _ _ _ Hc) as Hcl. unfold nw_zeros.
  rewrite (nw_skip_zeros_ok s z c) by done. cbn [mbind res_bind]. rewrite (proj2 (Z.eqb_neq _ _)) by lia.
  pose proof (hd_count _ _ _ Hw) as Hc0.
  assert (0 <= n) as Hn by (pose proof (hd_width _ _ _ Hw); pose proof (zlen_nonneg (nw_out w)); lia).
  match goal with |- context [loopM ?k ?f (w, s)] =>
    assert (returns (fun '(w1, s1) => exists k1, s1 = s + 24 * k1 /\ 0 <= k1 /\ s + z < s1 + 24 /\ s1 <= s + z /\
      holding w1 (v + 2 ^ n * (2 ^ (16 * k1) - 1)) (n + 16 * k1) /\ nw_count w1 = nw_count w) (loopM k f (w, s))) as Hl1 end.
  { apply returns_loopM with
      (I := fun '(w1, s1) => exists k1, s1 = s + 24 * k1 /\ 0 <= k1 /\ s1 <= s + z /\
         holding w1 (v + 2 ^ n * (2 ^ (16 * k1) - 1)) (n + 16 * k1) /\ nw_count w1 = nw_count w)
      (m := fun '(_, s1) => Z.to_nat (s + z - s1)).
    - exists 0. split; [lia|]. split; [lia|]. split; [lia|]. split; [|done].
      change (2 ^ (16 * 0)) with 1. by rewrite Z.sub_diag, Z.mul_0_r, !Z.add_0_r.
    - lia.
    - intros [w1 s1] (k1 & -> & Hk & Hle & Hw1 & Hcw). destruct (Z.leb_spec (s + 24 * k1 + 24) (s + z)); cbn [returns].
      + split; [|lia]. exists (k1 + 1). split; [lia|]. split; [lia|]. split; [lia|].
        destruct (nw_add_ok w1 _ _ 0xFFFF 16 Hw1 ltac:(lia) ltac:(lia) ltac:(by vm_compute)) as [Ha Hac].
        pose proof (nw_out2_ok _ _ _ Ha ltac:(lia)) as Ho. rewrite Hac in Ho.
        replace (MkNcw _ _ _) with (nw_out2 (nw_add w1 0xFFFF 0)) in Ho by (unfold nw_out2; cbn; f_equal; lia).
        split; [|cbn; lia]. replace (n + 16 * (k1 + 1)) with (n + 16 * k1 + 16) by lia.
        replace (2 ^ n * (2 ^ (16 * (k1 + 1)) - 1)) with (2 ^ n * (2 ^ (16 * k1) - 1) + 2 ^ (n + 16 * k1) * 65535).
        * rewrite Z.add_assoc. exact Ho.
        * replace (16 * (k1 + 1)) with (16 * k1 + 16) by lia. rewrite !pow2_add by lia. change (2 ^ 16) with 65536. ring.
      + exists k1. split_and!; try done; lia. }
  apply returns_inv in Hl1 as ([w1 s1] & -> & k1 & -> & Hk1 & Hlt & Hle & Hw1 & Hcw1). cbn [mbind res_bind].
  match goal with |- context [loopM ?k ?f (w1, ?a)] =>
    assert (returns (fun '(w2, s2) => exists k2, s2 = s + 24 * k1 + 3 * k2 /\ 0 <= k2 <= 7 /\ s + z < s2 + 3 /\ s2 <= s + z /\
      holding w2 (v + 2 ^ n * (2 ^ (16 * k1 + 2 * k2) - 1)) (n + (16 * k1 + 2 * k2)) /\ nw_count w2 = nw_count w + 2 * k2)
      (loopM k f (w1, a))) as Hl2 end.
  { apply returns_loopM with
      (I := fun '(w2, s2) => exists k2, s2 = s + 24 * k1 + 3 * k2 /\ 0 <= k2 /\ s2 <= s + z /\
         holding w2 (v + 2 ^ n * (2 ^ (16 * k1 + 2 * k2) - 1)) (n + (16 * k1 + 2 * k2)) /\ nw_count w2 = nw_count w + 2 * k2)
      (m := fun '(_, s2) => Z.to_nat (s + z - s2)).
    - exists 0. rewrite !Z.mul_0_r, !Z.add_0_r. split_and!; try done; lia.
    - lia.
    - intros [w2 s2] (k2 & -> & Hk & Hle2 & Hw2 & Hcw). destruct (Z.leb_spec (s + 24 * k1 + 3 * k2 + 3) (s + z)); cbn [returns].
      + split; [|lia]. exists (k2 + 1). split; [lia|]. split; [lia|]. split; [lia|].
        destruct (nw_add_ok w2 _ _ 3 2 Hw2 ltac:(lia) ltac:(lia) ltac:(by vm_compute)) as [Ha Hac].
        split; [|lia]. replace (n + (16 * k1 + 2 * (k2 + 1))) with (n + (16 * k1 + 2 * k2) + 2) by lia.
        replace (2 ^ n * (2 ^ (16 * k1 + 2 * (k2 + 1)) - 1)) with
          (2 ^ n * (2 ^ (16 * k1 + 2 * k2) - 1) + 2 ^ (n + (16 * k1 + 2 * k2)) * 3).
        * by rewrite Z.add_assoc.
        * replace (16 * k1 + 2 * (k2 + 1)) with (16 * k1 + 2 * k2 + 2) by lia. rewrite !pow2_add by lia.
          change (2 ^ 2) with 4. ring.
      + exists k2. split_and!; try done; lia. }
  apply returns_inv in Hl2 as ([w2 s2] & -> & k2 & -> & Hk2 & Hlt2 & Hle2 & Hw2 & Hcw2). cbn [mbind res_bind].
  assert (z / 3 = 8 * k1 + k2 /\ z mod 3 = s + z - (s + 24 * k1 + 3 * k2)) as [Hq Hr] by divlia.
  rewrite wrap_small by (change (2 ^ 32) with 4294967296; lia). rewrite <- Hr.
  destruct (nw_add_ok w2 _ _ (z mod 3) 2 Hw2 ltac:(lia) ltac:(lia) ltac:(change (2 ^ 2) with 4; divlia)) as [Ha Hac].
  destruct (nw_flush_ok _ _ _ Ha ltac:(lia)) as [Hfl Hfc].
  eexists. split; [done|]. split; [|done]. unfold run_field. cbn [fst snd]. rewrite Hq.
  replace (2 * (8 * k1 + k2)) with (16 * k1 + 2 * k2) by lia.
  rewrite Z.add_assoc. replace (2 ^ n * (2 ^ (16 * k1 + 2 * k2) - 1 + 2 ^ (16 * k1 + 2 * k2) * (z mod 3))) with
    (2 ^ n * (2 ^ (16 * k1 + 2 * k2) - 1) + 2 ^ (n + (16 * k1 + 2 * k2)) * (z mod 3)) by (rewrite (pow2_add n) by lia; ring).
  by rewrite Z.add_assoc.
Qed.

(** The threshold follows what remains. *)
Lemma nw_narrow_ok r nb : 1 <= r < 2 ^ nb -> 1 <= nb ->
  nw_narrow r nb (2 ^ (nb - 1)) = Ok (Z.log2 r + 1, 2 ^ Z.log2 r).
Proof.
  intros Hr Hnb. assert (returns (fun '(b, t) => t = 2 ^ (b - 1) /\ 2 ^ (b - 1) <= r < 2 ^ b /\ 1 <= b)
    (nw_narrow r nb (2 ^ (nb - 1)))) as H.
  { unfold nw_narrow. apply returns_loopM with
      (I := fun '(b, t) => t = 2 ^ (b - 1) /\ r < 2 ^ b /\ 1 <= b) (m := fun '(b, _) => Z.to_nat b).
    - lia.
    - lia.
    - intros [b t] (-> & Hb & H1). destruct (Z.ltb_spec r (2 ^ (b - 1))); cbn [returns]; [|lia].
      assert (b <> 1) by (intros ->; change (2 ^ (1 - 1)) with 1 in *; lia).
      split; [|lia]. rewrite shiftr_div by lia. split; [|lia].
      replace (2 ^ (b - 1)) with (2 ^ (b - 1 - 1) * 2 ^ 1) by (rewrite <- pow2_add by lia; f_equal; lia).
      apply Z.div_mul. lia. }
  apply returns_inv in H as ([b t] & -> & -> & Hb & H1).
  assert (Z.log2 r = b - 1) as -> by (apply Z.log2_unique; [lia|]; replace (Z.succ (b - 1)) with b by lia; done).
  do 2 f_equal. lia.
Qed.

(** One count, written as its field. *)
Lemma nw_one_ok w v n r s c : holding w v n -> nw_count w <= 16 -> 0 <= n -> 2 <= r < 2 ^ 13 ->
  Z.abs c < r -> -1 <= c -> zget norm s = Some c ->
  exists w', nw_one full w r (2 ^ Z.log2 r) (Z.log2 r + 1) s =
      Ok (w', r - Z.abs c, 2 ^ Z.log2 (r - Z.abs c), Z.log2 (r - Z.abs c) + 1, c =? 0) /\
    holding w' (v + 2 ^ n * (count_field r c).1) (n + (count_field r c).2) /\ nw_count w' <= 16.
Proof.
  intros Hw Hcount Hn Hr Hc Hc1 Hg. unfold nw_one. rewrite (full_idx _ _ Hg). cbn [mbind res_bind].
  pose proof (log2_range r ltac:(lia)) as [Hl Hl0]. pose proof (log2_lt_pow2 r 13 ltac:(lia) ltac:(lia) ltac:(lia)) as H13.
  destruct (count_field_range r c ltac:(lia) Hc1 Hc) as [Hx Hk]. unfold count_field in Hx, Hk |- *. cbn [fst snd] in *.
  set (t := 2 ^ Z.log2 r) in *. set (max := 2 * t - 1 - r) in *. set (x := if t <=? c + 1 then _ else _) in *.
  set (k := Z.log2 r + 1 - Z.b2z (x <? max)) in *. clearbody k.
  pose proof (pow2_le k 13 ltac:(lia)) as Hp13. change (2 ^ 13) with 8192 in *.
  rewrite (wrap_small 32 x) by (change (2 ^ 32) with 4294967296; lia).
  destruct (nw_add_ok w v n x k Hw ltac:(lia) ltac:(lia) Hx) as [Ha Hac].
  destruct (nw_flush_ok _ _ _ Ha ltac:(lia)) as [Hfl Hfc].
  rewrite (proj2 (Z.ltb_ge _ _)) by lia. cbn [fail_if mbind res_bind].
  assert (nw_narrow (r - Z.abs c) (Z.log2 r + 1) t = Ok (Z.log2 (r - Z.abs c) + 1, 2 ^ Z.log2 (r - Z.abs c))) as ->.
  { unfold t. replace (Z.log2 r) with (Z.log2 r + 1 - 1) at 2 by lia.
    apply nw_narrow_ok; [rewrite pow2_add by lia; fold t; lia|lia]. }
  cbn [mbind res_bind].
  assert ((x =? 1) = (c =? 0)) as ->.
  { assert (2 <= t) as H2.
    { unfold t. assert (Z.log2 r <> 0) as Hne by (intros He; unfold t in Hl; rewrite He in Hl; cbn in Hl; lia).
      apply (pow2_le 1). lia. }
    apply eq_iff_eq_true. rewrite !Z.eqb_eq. unfold x. destruct (Z.leb_spec t (c + 1)); [|lia]. unfold max. lia. }
  eexists. by split.
Qed.

Lemma cell_sum_zdrop l s c : zget l s = Some c -> cell_sum (zdrop s l) = Z.abs c + cell_sum (zdrop (s + 1) l).
Proof.
  intros [Hs Hl]%zget_Some. unfold zdrop. rewrite (drop_S _ _ _ Hl), cell_sum_cons. do 2 f_equal.
  f_equal. lia.
Qed.

Lemma zeros_then s l : 0 <= s < alphabet -> zget norm (alphabet - 1) = Some l -> l <> 0 ->
  exists z c, 0 <= z /\ (forall i, s <= i < s + z -> zget norm i = Some 0) /\ zget norm (s + z) = Some c /\ c <> 0 /\
    cell_sum (zdrop s norm) = cell_sum (zdrop (s + z) norm).
Proof.
  intros Hs Hl Hnz. remember (Z.to_nat (alphabet - s)) as m eqn:Hm. revert s Hs Hm.
  induction m as [|m IH]; intros s Hs Hm; [lia|]. destruct (zget_is_Some norm s Hs) as [c Hc].
  destruct (Z.eq_dec c 0) as [->|Hne].
  - assert (s <> alphabet - 1) by (intros ->; congruence).
    destruct (IH (s + 1) ltac:(lia) ltac:(lia)) as (z & c & Hz & Hzeros & Hg & Hcn & Hsum).
    exists (z + 1), c. split; [lia|]. replace (s + (z + 1)) with (s + 1 + z) by lia. split; [|split; [done|split; [done|]]].
    + intros i Hi. destruct (Z.eq_dec i s) as [->|]; [done|]. apply Hzeros. lia.
    + rewrite (cell_sum_zdrop _ _ _ Hc). lia.
  - exists 0, c. rewrite Z.add_0_r. split; [lia|]. split; [intros i Hi; lia|done].
Qed.

Lemma nw_loop_ok l : Forall (fun c => -1 <= c) norm -> zget norm (alphabet - 1) = Some l -> l <> 0 ->
  forall fuel s r prev0 w v n, (Z.to_nat (alphabet - s) < fuel)%nat -> 0 <= s <= alphabet -> 1 <= r < 2 ^ 13 ->
  cell_sum (zdrop s norm) = r - 1 -> holding w v n -> nw_count w <= 16 ->
  exists fs w', coded norm s r prev0 fs /\ Forall (fun f : Z * Z => 0 <= f.1 < 2 ^ f.2 /\ 0 <= f.2) fs /\
    loopM fuel (nw_body full alphabet) (w, r, 2 ^ Z.log2 r, Z.log2 r + 1, s, prev0) = Ok (w', 1) /\
    holding w' (v + 2 ^ n * pack fs) (n + width fs) /\ nw_count w' <= 16.
Proof.
  intros Hlow Hl Hnz. induction fuel as [|fuel IH]; intros s r prev0 w v n Hfuel Hs Hr Hsum Hw Hcount; [lia|].
  pose proof (hd_width _ _ _ Hw) as Hwd. pose proof (hd_count _ _ _ Hw) as Hc0. pose proof (zlen_nonneg (nw_out w)).
  cbn [loopM nw_body]. destruct (Z.ltb_spec s alphabet) as [Hlt|Hge].
  2: { assert (s = alphabet) as -> by lia. assert (r = 1) as ->.
       { unfold zdrop in Hsum. rewrite drop_ge in Hsum by (unfold zlen; lia). change (cell_sum []) with 0 in Hsum. lia. }
       cbn. exists [], w. split; [constructor|]. split; [constructor|]. split; [done|].
       unfold width. cbn. by rewrite Z.mul_0_r, !Z.add_0_r. }
  destruct (zeros_then s l ltac:(lia) Hl Hnz) as (z & c & Hz & Hzeros & Hg & Hcn & Hdrop).
  pose proof (cell_sum_zdrop _ _ _ Hg) as Hcs. pose proof (cell_sum_nonneg (zdrop (s + z + 1) norm)) as Hnn.
  assert (2 <= r) as H2 by lia. rewrite (proj2 (Z.ltb_lt 1 r)) by lia. cbn [andb].
  pose proof (zget_lt _ _ _ Hg) as Hgl.
  destruct prev0.
  - destruct (nw_zeros_ok w v n s z c Hw Hcount Hz ltac:(lia) Hzeros Hg Hcn) as (w1 & -> & Hw1 & Hc1).
    cbn [mbind res_bind]. pose proof (Forall_zget _ _ _ _ Hlow Hg) as Hcl. cbn beta in Hcl.
    destruct (run_field_range z Hz) as [Hrf1 Hrf2].
    destruct (nw_one_ok w1 _ _ r (s + z) c Hw1 Hc1 ltac:(lia) ltac:(lia) ltac:(lia) Hcl Hg) as (w2 & -> & Hw2 & Hc2).
    cbn [mbind res_bind]. rewrite (proj2 (Z.eqb_neq c 0)) in * by done.
    destruct (count_field_range r c H2 Hcl ltac:(lia)) as [Hcf1 Hcf2]. pose proof (Z.log2_nonneg r).
    destruct (IH (s + z + 1) (r - Z.abs c) false w2 _ _ ltac:(lia) ltac:(lia) ltac:(lia) ltac:(lia) Hw2 Hc2)
      as (fs & w' & Hcoded & Hfs & Hloop & Hw' & Hc').
    exists (run_field z :: count_field r c :: fs), w'. split; [apply (coded_run norm s z r c); done || lia|].
    split; [constructor; [lia|]; constructor; [lia|done]|]. split; [exact Hloop|]. split; [|done].
    destruct (run_field z) as [x1 k1], (count_field r c) as [x2 k2]. cbn [fst snd pack] in *. rewrite !width_cons.
    rewrite (Z.mod_small x1), (Z.mod_small x2) by lia.
    replace (n + (k1 + (k2 + width fs))) with (n + k1 + k2 + width fs) by lia.
    replace (v + 2 ^ n * (x1 + 2 ^ k1 * (x2 + 2 ^ k2 * pack fs))) with
      (v + 2 ^ n * x1 + 2 ^ (n + k1) * x2 + 2 ^ (n + k1 + k2) * pack fs); [done|].
    rewrite !pow2_add by lia. ring.
  - clear Hdrop Hcs Hzeros Hg Hgl Hcn Hz z c Hnn.
    destruct (zget_is_Some norm s ltac:(lia)) as [c Hg]. pose proof (cell_sum_zdrop _ _ _ Hg) as Hcs.
    pose proof (cell_sum_nonneg (zdrop (s + 1) norm)) as Hnn. pose proof (Forall_zget _ _ _ _ Hlow Hg) as Hcl. cbn beta in Hcl.
    cbn [mbind res_bind].
    destruct (nw_one_ok w _ _ r s c Hw Hcount ltac:(lia) ltac:(lia) ltac:(lia) Hcl Hg) as (w2 & -> & Hw2 & Hc2).
    cbn [mbind res_bind].
    destruct (count_field_range r c H2 Hcl ltac:(lia)) as [Hcf1 Hcf2]. pose proof (Z.log2_nonneg r).
    destruct (IH (s + 1) (r - Z.abs c) (c =? 0) w2 _ _ ltac:(lia) ltac:(lia) ltac:(lia) ltac:(lia) Hw2 Hc2)
      as (fs & w' & Hcoded & Hfs & Hloop & Hw' & Hc').
    exists (count_field r c :: fs), w'. split; [apply (coded_count norm s r c); done || lia|].
    split; [constructor; [lia|done]|]. split; [exact Hloop|]. split; [|done].
    destruct (count_field r c) as [x2 k2]. cbn [fst snd pack] in *. rewrite !width_cons.
    rewrite (Z.mod_small x2) by lia. replace (n + (k2 + width fs)) with (n + k2 + width fs) by lia.
    replace (v + 2 ^ n * (x2 + 2 ^ k2 * pack fs)) with (v + 2 ^ n * x2 + 2 ^ (n + k2) * pack fs); [done|].
    rewrite !pow2_add by lia. ring.
Qed.

(** The header's bytes. *)
Lemma write_ncount_ok log l : 5 <= log <= 12 -> Forall (fun c => -1 <= c) norm -> cell_sum norm = 2 ^ log ->
  zget norm (alphabet - 1) = Some l -> l <> 0 ->
  exists fs bs, coded norm 0 (2 ^ log + 1) false fs /\ write_ncount full (alphabet - 1) log = Ok bs /\ bytes bs /\
    let gs := (log - 5, 4) :: fs in
    Forall (fun f : Z * Z => 0 <= f.1 < 2 ^ f.2 /\ 0 <= f.2) gs /\ zlen bs = div_ceil (width gs) 8 /\ le_val bs = pack gs.
Proof.
  intros Hlog Hlow Hsum Hl Hnz. pose proof (zget_lt _ _ _ Hl) as Hn.
  pose proof (pow2_le 5 log ltac:(lia)) as H5. pose proof (pow2_le log 12 ltac:(lia)) as H12.
  change (2 ^ 5) with 32 in *. change (2 ^ 12) with 4096 in *.
  assert (holding (MkNcw [] (log - 5) 4) (log - 5) 4) as Hw0.
  { split; cbn -[zlen]; change (zlen (@nil Z)) with 0; try done; try lia. }
  assert (Z.log2 (2 ^ log + 1) = log) as Hlg.
  { apply Z.log2_unique; [lia|]. rewrite Z.pow_succ_r by lia. lia. }
  destruct (nw_loop_ok l Hlow Hl Hnz (Z.to_nat alphabet + 1) 0 (2 ^ log + 1) false _ _ _ ltac:(lia) ltac:(lia)
    ltac:(change (2 ^ 13) with 8192; lia) ltac:(change (zdrop 0 norm) with norm; lia) Hw0 ltac:(cbn; lia))
    as (fs & w & Hcoded & Hfs & Hloop & [Hb Hc Hwd Hs Hv] & H16).
  rewrite Hlg in Hloop. unfold write_ncount, FSE_MIN_TABLELOG, FSE_MAX_TABLELOG.
  rewrite (proj2 (Z.leb_le 5 log)), (proj2 (Z.leb_le log 12)) by lia. cbn [andb negb fail_if mbind res_bind].
  rewrite Z.shiftl_1_l. replace (alphabet - 1 + 1) with alphabet by lia. rewrite Hloop. cbn [mbind res_bind].
  change (1 =? 1) with true. cbn [negb fail_if mbind res_bind].
  set (k := (nw_count w + 7) / 8). assert (0 <= k <= 2 /\ nw_count w <= 8 * k < nw_count w + 8) as [Hk Hk8] by (unfold k; divlia).
  set (tail := [_; _]). rewrite slice_prefix by (change (zlen tail) with 2; lia). cbn [mbind res_bind].
  assert (bytes tail) as Hbt.
  { unfold tail. constructor; [apply wrap_range; lia|]. constructor; [apply wrap_range; lia|constructor]. }
  eexists fs, _. split; [done|]. split; [done|].
  assert (zlen (ztake k tail) = k) as Hlk by (apply zlen_ztake; change (zlen tail) with 2; lia).
  split; [apply Forall_app; split; [done|by apply Forall_take]|]. cbv zeta.
  split; [constructor; [cbn; lia|done]|]. rewrite width_cons. unfold div_ceil. split.
  - rewrite zlen_app, Hlk. divlia.
  - cbn [pack]. rewrite (Z.mod_small (log - 5)) by (change (2 ^ 4) with 16; lia). rewrite <- Hv, le_val_app. f_equal. f_equal.
    rewrite (proj1 (le_val_take_drop tail k Hbt ltac:(change (zlen tail) with 2; lia))).
    pose proof (pow2_le (nw_count w) (8 * k) ltac:(lia)) as Hpk. pose proof (pow2_le (nw_count w) 16 ltac:(lia)) as Hp16.
    change (2 ^ 16) with 65536 in Hp16.
    assert (le_val tail = nw_stream w) as ->; [|apply Z.mod_small; lia].
    unfold tail. cbn [le_val]. unfold wrap. rewrite shiftr_div by lia. change (2 ^ 8) with 256. divlia.
Qed.
End writer.

(** ** The reader *)

Section reader.
Context (src : list Z) (Hb : bytes src) (H8 : 8 <= zlen src).
Abbreviation iend := (zlen src).
Abbreviation V := (le_val src).

(** A window shows the stream from the position on. *)
Lemma window_bits ip bc : 0 <= ip <= iend - 4 -> 0 <= bc <= 31 ->
  window src ip bc = Ok (bits V (8 * ip + bc) (32 - bc)).
Proof.
  intros Hip Hbc. unfold window, read32. rewrite !bind_assoc.
  destruct (zslice src ip (ip + 4)) as [s|] eqn:Es; [|by rewrite zslice_ok in Es by lia].
  unfold slice. rewrite Es. cbn [unwrap mbind res_bind].
  rewrite (proj2 (Z.leb_le 0 bc)), (proj2 (Z.ltb_lt bc 32)) by lia. cbn [andb rassert mbind res_bind].
  f_equal. rewrite (le_val_slice src ip (ip + 4) s Hb Es). rewrite shiftr_div by lia.
  replace (8 * (ip + 4 - ip)) with 32 by lia. unfold bits.
  replace 32 with (bc + (32 - bc)) at 1 by lia.
  rewrite (pow2_add bc (32 - bc)), (pow2_add (8 * ip) bc) by lia. rewrite <- Z.div_div by (try apply pow2_pos; try lia; pose proof (pow2_pos (8 * ip)); lia).
  pose proof (pow2_pos bc ltac:(lia)). pose proof (pow2_pos (32 - bc) ltac:(lia)).
  rewrite Z.rem_mul_r by lia. rewrite (Z.mul_comm (2 ^ bc) (_ mod _)), Z.div_add by lia. by rewrite Z.div_small by (apply Z.mod_pos_bound; lia).
Qed.

(** Where a reader stands: at bit [p]. *)
Record at_bit (ip bc p : Z) : Prop := {
  ab_ip : 0 <= ip <= iend - 4;
  ab_count : 0 <= bc <= 31;
  ab_aligned : bc <= 7 \/ ip = iend - 4;
  ab_pos : 8 * ip + bc = p;
}.

Lemma advance_at ip bc p : 0 <= ip <= iend - 4 -> 0 <= bc < 64 -> (ip + 7 <= iend -> bc <= 31) ->
  8 * ip + bc = p -> p < 8 * iend ->
  let '(ip', bc') := advance iend ip bc in at_bit ip' bc' p.
Proof.
  intros Hip Hbc Hal Hp Hend. unfold advance. rewrite !shiftr_div by lia. change (2 ^ 3) with 8. rewrite land7.
  destruct ((ip + 7 <=? iend) || (ip + bc / 8 + 4 <=? iend)) eqn:E.
  - apply orb_true_iff in E. rewrite !Z.leb_le in E. split; divlia.
  - apply orb_false_iff in E as [E1 E2]. apply Z.leb_gt in E1, E2. rewrite land31.
    unfold wsub. rewrite (wrap_small 32 (8 * _)) by (change (2 ^ 32) with 4294967296; lia).
    assert (8 * (iend - 4 - ip) <= bc) by divlia.
    rewrite wrap_small by (change (2 ^ 32) with 4294967296; lia). rewrite Z.mod_small by lia. split; lia.
Qed.

(** Enough bits are in sight. *)
Lemma in_sight ip bc p n : at_bit ip bc p -> 0 <= n <= 25 -> p + n <= 8 * iend -> n <= 32 - bc.
Proof. intros [H1 H2 H3 H4] Hn Hp. lia. Qed.

End reader.

(** The trailing ones of a window are the trailing zeros of its complement. *)
Lemma complement_ones bs j m : 0 <= j <= 31 -> 0 <= m -> bs = 2 ^ j - 1 + 2 ^ j * m -> bs < 2 ^ 32 ->
  let y := Z.lor (2 ^ (32 - j) - 1 - m) (2 ^ (31 - j)) in
  Z.lor (wnot 32 bs) 0x80000000 = 2 ^ j * y /\ 0 < y.
Proof.
  intros Hj Hm Hbs H32 y. pose proof (pow2_pos j ltac:(lia)) as Hp.
  assert (2 ^ 32 = 2 ^ j * 2 ^ (32 - j)) as H1 by (rewrite <- pow2_add by lia; f_equal; lia).
  assert (2 ^ 31 = 2 ^ j * 2 ^ (31 - j)) as H2 by (rewrite <- pow2_add by lia; f_equal; lia).
  assert (0 <= 2 ^ (32 - j) - 1 - m) as Hq by nia. pose proof (pow2_pos (31 - j) ltac:(lia)) as Hp31.
  split.
  - unfold y, wnot. change 0x80000000 with (2 ^ 31).
    replace (2 ^ 32 - 1 - bs) with (2 ^ j * (2 ^ (32 - j) - 1 - m)) by (rewrite H1, Hbs; ring).
    rewrite H2, !(Z.mul_comm (2 ^ j)), <- !Z.shiftl_mul_pow2, Z.shiftl_lor by lia. done.
  - assert (0 <= y) by (apply Z.lor_nonneg; lia). assert (y <> 0); [|lia].
    unfold y. rewrite Z.lor_eq_0_iff. lia.
Qed.

Lemma trailing_zeros_ge x j y : 0 <= j -> x = 2 ^ j * y -> 0 < y -> j <= trailing_zeros 32 x.
Proof.
  intros Hj Hx Hy. pose proof (pow2_pos j Hj). destruct (trailing_zeros_spec 32 x ltac:(nia)) as (r & Hr & Ht & Hx2).
  set (t := trailing_zeros 32 x) in *. destruct (Z.le_gt_cases j t); [done|]. exfalso.
  assert (2 * r + 1 = 2 ^ (j - t) * y) as Ho.
  { apply (Z.mul_reg_l _ _ (2 ^ t)); [pose proof (pow2_pos t Ht); lia|]. rewrite Z.mul_assoc, <- pow2_add by lia.
    replace (t + (j - t)) with j by lia. lia. }
  replace (j - t) with (1 + (j - t - 1)) in Ho by lia. rewrite pow2_add in Ho by lia. change (2 ^ 1) with 2 in Ho. lia.
Qed.

Lemma nc_repeats_many bs m : 0 <= m -> bs = 2 ^ 24 - 1 + 2 ^ 24 * m -> bs < 2 ^ 32 -> 12 <= nc_repeats bs.
Proof.
  intros Hm Hbs H32. destruct (complement_ones bs 24 m ltac:(lia) Hm Hbs H32) as [Hx Hy].
  unfold nc_repeats. rewrite shiftr_div by lia. pose proof (trailing_zeros_ge _ 24 _ ltac:(lia) Hx Hy).
  change (2 ^ 1) with 2. divlia.
Qed.

(** [k] pairs of ones, then another pair. *)
Lemma nc_repeats_exact bs k r m : 0 <= k <= 15 -> 0 <= r < 3 -> 0 <= m ->
  bs = 2 ^ (2 * k) - 1 + 2 ^ (2 * k) * (r + 4 * m) -> bs < 2 ^ 32 -> nc_repeats bs = k.
Proof.
  intros Hk Hr Hm Hbs H32.
  destruct (complement_ones bs (2 * k) (r + 4 * m) ltac:(lia) ltac:(lia) Hbs H32) as [Hx Hy].
  unfold nc_repeats. rewrite shiftr_div by lia. pose proof (trailing_zeros_ge _ (2 * k) _ ltac:(lia) Hx Hy) as Hge.
  set (x := Z.lor (wnot 32 bs) 2147483648) in *.
  set (y := Z.lor (2 ^ (32 - 2 * k) - 1 - (r + 4 * m)) (2 ^ (31 - 2 * k))) in *.
  pose proof (pow2_pos (2 * k) ltac:(lia)) as Hp.
  destruct (trailing_zeros_spec 32 x ltac:(nia)) as (j & Hj & _ & Hx2). set (t := trailing_zeros 32 x) in *.
  assert (t < 2 * k + 2); [|change (2 ^ 1) with 2; divlia]. destruct (Z.lt_ge_cases t (2 * k + 2)); [done|]. exfalso.
  assert (y = 4 * (2 ^ (t - 2 * k - 2) * (2 * j + 1))) as Hy4.
  { apply (Z.mul_reg_l _ _ (2 ^ (2 * k))); [lia|]. rewrite <- Hx, Hx2.
    replace t with (2 * k + (2 + (t - 2 * k - 2))) at 1 by lia. rewrite !pow2_add by lia. change (2 ^ 2) with 4. ring. }
  set (q := 2 ^ (32 - 2 * k) - 1 - (r + 4 * m)) in *.
  assert (2 ^ (32 - 2 * k) = 4 * 2 ^ (30 - 2 * k)) as H4.
  { change 4 with (2 ^ 2). rewrite <- pow2_add by lia. f_equal. lia. }
  assert (q mod 4 = 3 - r) as Hq.
  { symmetry. apply Zmod_unique with (2 ^ (30 - 2 * k) - 1 - m); [lia|]. unfold q. rewrite H4. ring. }
  assert (exists i, 0 <= i < 2 /\ Z.testbit q i = true) as (i & Hi & Hqi).
  { destruct (Z.eq_dec (q mod 2) 1) as [H1|H1].
    - exists 0. split; [lia|]. rewrite Z.bit0_odd, Zodd_mod. by rewrite H1.
    - exists 1. split; [lia|]. rewrite Z.testbit_true by lia. change (2 ^ 1) with 2. divlia. }
  assert (Z.testbit y i = true) as Hyi by (unfold y; by rewrite Z.lor_spec, Hqi).
  rewrite Hy4 in Hyi. change 4 with (2 ^ 2) in Hyi. rewrite Z.mul_comm, Z.mul_pow2_bits_low in Hyi by lia. done.
Qed.

(** [k] pairs of ones at bit [p], then the pair [r]. *)
Definition ones_at (v p k r : Z) : Prop := bits v p (2 * k + 2) = 2 ^ (2 * k) - 1 + 2 ^ (2 * k) * r.

Lemma ones_at_drop v p k r j : ones_at v p k r -> 0 <= p -> 0 <= j <= k -> 0 <= r ->
  bits v p (2 * j) = 2 ^ (2 * j) - 1 /\ ones_at v (p + 2 * j) (k - j) r.
Proof.
  unfold ones_at. intros H Hp Hj Hr. replace (2 * k + 2) with (2 * j + (2 * (k - j) + 2)) in H by lia.
  rewrite bits_split in H by lia. replace (2 ^ (2 * k)) with (2 ^ (2 * j) * 2 ^ (2 * (k - j))) in H
    by (rewrite <- pow2_add by lia; f_equal; lia).
  pose proof (bits_range v p (2 * j) ltac:(lia)) as H1. pose proof (pow2_pos (2 * j) ltac:(lia)) as H2.
  pose proof (bits_range v (p + 2 * j) (2 * (k - j) + 2) ltac:(lia)) as H3. pose proof (pow2_pos (2 * (k - j)) ltac:(lia)) as H4.
  set (A := 2 ^ (2 * j)) in *. set (B := 2 ^ (2 * (k - j))) in *.
  assert (bits v (p + 2 * j) (2 * (k - j) + 2) = B - 1 + B * r) as Hhi.
  { apply (Z.div_mod_unique A _ _ (bits v p (2 * j)) (A - 1)); [left; lia|left; lia|]. lia. }
  split; [|done]. rewrite Hhi in H. lia.
Qed.

Lemma bits_longer v p a b : 0 <= p -> 0 <= a <= b -> exists m, 0 <= m /\ bits v p b = bits v p a + 2 ^ a * m.
Proof.
  intros Hp Hab. exists (bits v (p + a) (b - a)). split; [apply bits_range; lia|].
  rewrite <- bits_split by lia. f_equal. lia.
Qed.

Lemma bits_low v p a b : 0 <= p -> 0 <= a <= b -> bits v p b mod 2 ^ a = bits v p a.
Proof.
  intros Hp Hab. transitivity (bits (bits v p b) 0 a); [unfold bits at 2; by rewrite Z.div_1_r|].
  rewrite bits_bits by lia. by rewrite Z.add_0_r.
Qed.

Section zeros.
Context (src : list Z) (Hb : bytes src) (H8 : 8 <= zlen src).
Abbreviation iend := (zlen src).
Abbreviation V := (le_val src).

(** The repeat codes a window shows are those of the stream. *)
Lemma repeats_at ip bc p k r : at_bit src ip bc p -> 0 <= k -> 0 <= r < 3 -> ones_at V p k r ->
  p + 2 * k + 2 <= 8 * iend ->
  (k < 12 -> nc_repeats (bits V p (32 - bc)) = k) /\
  (12 <= k -> 12 <= nc_repeats (bits V p (32 - bc))).
Proof.
  intros Ha Hk Hr Ho Hp. pose proof Ha as [A1 A2 A3 A4].
  pose proof (bits_range V p (32 - bc) ltac:(lia)) as Hrange. pose proof (pow2_le (32 - bc) 32 ltac:(lia)) as H32.
  split; intros Hk12.
  - pose proof (in_sight src ip bc p (2 * k + 2) Ha ltac:(lia) ltac:(lia)) as Hs.
    destruct (bits_longer V p (2 * k + 2) (32 - bc) ltac:(lia) ltac:(lia)) as (m & Hm & Heq).
    rewrite Ho in Heq. apply (nc_repeats_exact _ k r m); try lia.
    rewrite Heq, pow2_add by lia. change (2 ^ 2) with 4. ring.
  - pose proof (in_sight src ip bc p 24 Ha ltac:(lia) ltac:(lia)) as Hs.
    destruct (bits_longer V p 24 (32 - bc) ltac:(lia) ltac:(lia)) as (m & Hm & Heq).
    destruct (ones_at_drop V p k r 12 Ho ltac:(lia) ltac:(lia) ltac:(lia)) as [H24 _].
    change (2 * 12) with 24 in H24. rewrite H24 in Heq. apply (nc_repeats_many _ m); lia.
Qed.

Lemma skip_repeats_at ip bc p k r ch : at_bit src ip bc p -> 0 <= k -> 0 <= r < 3 -> ones_at V p k r ->
  p + 2 * k + 2 <= 8 * iend ->
  exists ip' bc' k', skip_repeats src ip bc (bits V p (32 - bc)) ch =
      Ok (ip', bc', bits V (p + 2 * (k - k')) (32 - bc'), ch + 3 * (k - k'), k') /\
    at_bit src ip' bc' (p + 2 * (k - k')) /\ 0 <= k' < 12 /\ k' <= k.
Proof.
  intros Ha Hk Hr Ho Hp. unfold skip_repeats.
  match goal with |- context [loopM ?n ?f ?s] =>
    assert (returns (fun '(ip', bc', bs', ch', k') =>
      at_bit src ip' bc' (p + 2 * (k - k')) /\ bs' = bits V (p + 2 * (k - k')) (32 - bc') /\
      ch' = ch + 3 * (k - k') /\ 0 <= k' < 12 /\ k' <= k) (loopM n f s)) as Hl end.
  { apply returns_loopM with
      (I := fun '(ip', bc', bs', ch', reps) => exists k', reps = nc_repeats bs' /\
         at_bit src ip' bc' (p + 2 * (k - k')) /\ bs' = bits V (p + 2 * (k - k')) (32 - bc') /\
         ch' = ch + 3 * (k - k') /\ 0 <= k' <= k)
      (m := fun '(_, _, _, ch', _) => Z.to_nat ((ch + 3 * k - ch') / 36)).
    - exists k. rewrite !Z.sub_diag, !Z.mul_0_r, !Z.add_0_r. split_and!; done || lia.
    - pose proof (ab_ip _ _ _ _ Ha). pose proof (ab_count _ _ _ _ Ha). pose proof (ab_pos _ _ _ _ Ha).
      replace (ch + 3 * k - ch) with (3 * k) by lia. unfold zlen in *.
      assert (3 * k / 36 <= Z.of_nat (length src)) by divlia. lia.
    - intros [[[[ip' bc'] bs'] ch'] reps] (k' & -> & Ha' & -> & -> & Hk').
      destruct (ones_at_drop V p k r (k - k') Ho ltac:(pose proof (ab_pos _ _ _ _ Ha); pose proof (ab_ip _ _ _ _ Ha); pose proof (ab_count _ _ _ _ Ha); lia)
        ltac:(lia) ltac:(lia)) as [_ Ho']. replace (k - (k - k')) with k' in Ho' by lia.
      destruct (repeats_at ip' bc' _ k' r Ha' ltac:(lia) Hr Ho' ltac:(lia)) as [Hlo Hhi].
      destruct (Z.lt_ge_cases k' 12) as [Hlt|Hge].
      + rewrite Hlo by done. rewrite (proj2 (Z.leb_gt _ _)) by lia. cbn [returns]. split_and!; done || lia.
      + rewrite (proj2 (Z.leb_le _ _)) by (apply Hhi; lia). destruct Ha' as [A1 A2 A3 A4].
        assert (exists ip2 bc2, (if ip' + 7 <=? iend then (ip' + 3, bc')
          else (iend - 4, Z.land (wrap 32 (bc' - 8 * (iend - 7 - ip'))) 31)) = (ip2, bc2) /\
          at_bit src ip2 bc2 (p + 2 * (k - (k' - 12)))) as (ip2 & bc2 & -> & Ha2).
        { destruct (Z.leb_spec (ip' + 7) iend); eexists _, _; (split; [done|]).
          - split; lia.
          - rewrite wrap_small by (change (2 ^ 32) with 4294967296; lia). rewrite land31, Z.mod_small by lia. split; lia. }
        rewrite window_bits; [|done|apply Ha2|apply Ha2]. cbn [mbind res_bind returns].
        rewrite (ab_pos _ _ _ _ Ha2). split.
        * exists (k' - 12). split; [done|]. split; [done|]. split; [done|]. lia.
        * replace (ch + 3 * k - (ch + 3 * (k - k'))) with (3 * k') by lia.
          replace (ch + 3 * k - (ch + 3 * (k - k') + 3 * 12)) with (3 * k' - 36) by lia. divlia. }
  apply returns_inv in Hl as ([[[[ip' bc'] bs'] ch'] k'] & -> & Ha' & -> & -> & Hk'). exists ip', bc', k'. split_and!; done || lia.
Qed.
End zeros.

(** ** The header, read *)

(** The fields [fs] stand at bit [p]. *)
Fixpoint fields_at (v p : Z) (fs : list (Z * Z)) : Prop :=
  match fs with
  | [] => True
  | (x, n) :: fs => bits v p n = x /\ 0 <= n /\ fields_at v (p + n) fs
  end.

Lemma fields_at_pack v fs : Forall (fun f : Z * Z => 0 <= f.1 < 2 ^ f.2 /\ 0 <= f.2) fs ->
  forall p, 0 <= p -> bits v p (width fs) = pack fs -> fields_at v p fs.
Proof.
  induction 1 as [|[x n] fs [Hx Hn] Hfs IH]; intros p Hp Hv; [done|]. cbn [fst snd] in *. rewrite width_cons in Hv.
  cbn [pack] in Hv. rewrite (Z.mod_small x) in Hv by lia.
  assert (0 <= width fs) as Hw.
  { apply width_nonneg. eapply Forall_impl; [exact Hfs|]. intros [? ?]. cbn. lia. }
  rewrite bits_split in Hv by lia. pose proof (bits_range v p n Hn) as Hr. pose proof (pow2_pos n Hn).
  assert (bits v p n = x /\ bits v (p + n) (width fs) = pack fs) as [H1 H2].
  { assert (bits v (p + n) (width fs) = pack fs) as He; [|split; [rewrite He in Hv; lia|done]].
    apply (Z.div_mod_unique (2 ^ n) _ _ (bits v p n) x); [left; lia|left; lia|]. lia. }
  cbn [fields_at]. split; [done|]. split; [done|]. apply IH; [lia|done].
Qed.

Section read.
Context (src norm : list Z) (max_sv1 : Z).
Context (Hb : bytes src) (H8 : 8 <= zlen src) (Hfit : zlen norm <= max_sv1).
Abbreviation iend := (zlen src).
Abbreviation V := (le_val src).

(** The reader at bit [p], before the count of symbol [s]. *)
Record reading (st : nc_state) (s r : Z) (prev0 : bool) (p : Z) : Prop := {
  rg_at : at_bit src (nc_ip st) (nc_count st) p;
  rg_stream : nc_stream st = bits V p (32 - nc_count st);
  rg_bits : nc_bits st = Z.log2 r + 1;
  rg_remaining : nc_remaining st = r;
  rg_threshold : nc_threshold st = 2 ^ Z.log2 r;
  rg_charnum : nc_charnum st = s;
  rg_previous0 : nc_previous0 st = prev0;
  rg_counts : filled (zrepeat 0 max_sv1) (ztake s norm) (nc_counts st);
  rg_symbol : 0 <= s < zlen norm;
}.

(** After the last count. *)
Record all_read (st : nc_state) (p : Z) : Prop := {
  rd_pos : 8 * nc_ip st + nc_count st = p;
  rd_ip : 0 <= nc_ip st <= iend - 4;
  rd_count : 0 <= nc_count st <= 32;
  rd_remaining : nc_remaining st = 1;
  rd_charnum : nc_charnum st = zlen norm;
  rd_counts : filled (zrepeat 0 max_sv1) norm (nc_counts st);
}.

Lemma nc_zeros_at st s r p z : reading st s r true p -> 0 <= z -> s + z < zlen norm ->
  (forall i, s <= i < s + z -> zget norm i = Some 0) ->
  bits V p (run_field z).2 = (run_field z).1 -> p + (run_field z).2 < 8 * iend ->
  exists st', nc_zeros src max_sv1 st = Ok (inl st') /\ reading st' (s + z) r true (p + (run_field z).2).
Proof.
  intros [Ha Hst Hbits Hrem Hthr Hch Hprev Hcounts Hs] Hz Hsz Hzeros Hf Hp. unfold run_field in *. cbn [fst snd] in *.
  pose proof (Z.div_pos z 3 Hz ltac:(lia)) as Hk. pose proof (Z.mod_pos_bound z 3 ltac:(lia)) as Hm.
  set (k := z / 3) in *. set (m := z mod 3) in *. assert (z = 3 * k + m) as Hzk by (unfold k, m; divlia).
  destruct (skip_repeats_at src Hb H8 (nc_ip st) (nc_count st) p k m (nc_charnum st) Ha Hk Hm Hf ltac:(lia))
    as (ip & bc & k' & Hskip & Ha' & Hk' & Hle).
  unfold nc_zeros. rewrite Hst, Hskip. cbn [mbind res_bind]. pose proof Ha' as [A1 A2 A3 A4].
  pose proof Ha as [B1 B2 _ B4].
  destruct (ones_at_drop V p k m (k - k') Hf ltac:(lia) ltac:(lia) ltac:(lia)) as [_ Ho].
  replace (k - (k - k')) with k' in Ho by lia.
  pose proof (in_sight src ip bc _ (2 * k' + 2) Ha' ltac:(lia) ltac:(lia)) as Hsight.
  assert (Z.land (Z.shiftr (bits V (p + 2 * (k - k')) (32 - bc)) (2 * k')) 3 = m) as ->.
  { change 3 with (2 ^ 2 - 1). rewrite land_mod, shiftr_div by lia.
    change ((?x / 2 ^ ?a) mod 2 ^ ?n) with (bits x a n). rewrite bits_bits by lia.
    destruct (ones_at_drop V (p + 2 * (k - k')) k' m k' Ho ltac:(lia) ltac:(lia) ltac:(lia)) as [_ Ho2].
    unfold ones_at in Ho2. rewrite Z.sub_diag in Ho2. change (2 * 0) with 0 in Ho2. change (2 ^ 0) with 1 in Ho2.
    change (0 + 2) with 2 in Ho2. rewrite Ho2. lia. }
  rewrite Hch. rewrite (proj2 (Z.leb_gt _ _)) by lia.
  pose proof (advance_at src H8 ip (bc + 2 * k' + 2) (p + (2 * k + 2)) ltac:(lia) ltac:(lia) ltac:(lia) ltac:(lia) Hp) as Hadv.
  destruct (advance _ _ _) as [ip2 bc2]. rewrite window_bits; [|done|apply Hadv|apply Hadv].
  cbn [mbind res_bind]. rewrite (ab_pos _ _ _ _ Hadv). eexists. split; [done|].
  split; cbn; try done; try lia.
  assert (forall n : nat, Z.of_nat n <= z -> filled (zrepeat 0 max_sv1) (ztake (s + Z.of_nat n) norm) (nc_counts st)) as Hfill.
  { induction n as [|n IH]; intros Hn; [by rewrite Z.add_0_r|].
    assert (zget norm (s + Z.of_nat n) = Some 0) as Hg by (apply Hzeros; lia).
    replace (s + Z.of_nat (S n)) with (s + Z.of_nat n + 1) by lia. pose proof Hg as [_ Hl]%zget_Some.
    assert (ztake (s + Z.of_nat n + 1) norm = ztake (s + Z.of_nat n) norm ++ [0]) as ->.
    { unfold ztake. replace (Z.to_nat (s + Z.of_nat n + 1)) with (S (Z.to_nat (s + Z.of_nat n))) by lia. by apply take_S_r. }
    apply filled_keep; [apply IH; lia|]. rewrite zlen_ztake by lia. apply zget_zrepeat. lia. }
  specialize (Hfill (Z.to_nat z) ltac:(lia)). by rewrite Z2Nat.id in Hfill by lia.
Qed.

(** The count's field gives the count and its width. *)
Lemma nc_decode_count_at st s r prev0 p c : reading st s r prev0 p -> 2 <= r -> Z.log2 r <= 9 ->
  Z.abs c < r -> -1 <= c -> bits V p (count_field r c).2 = (count_field r c).1 -> p + (count_field r c).2 <= 8 * iend ->
  nc_decode_count st = (c, nc_count st + (count_field r c).2).
Proof.
  intros [Ha Hst Hbits Hrem Hthr _ _ _ _] Hr H9 Hc Hc1 Hf Hp. pose proof (log2_range r ltac:(lia)) as [Hl Hl0].
  destruct (count_field_range r c Hr Hc1 Hc) as [Hx Hk]. pose proof (in_sight src _ _ _ (count_field r c).2 Ha ltac:(lia) Hp) as Hsight.
  unfold nc_decode_count. rewrite Hbits, Hrem, Hthr, Hst. unfold count_field in Hx, Hk, Hf, Hsight |- *. cbn [fst snd] in *.
  pose proof Ha as [A1 A2 _ A4].
  assert (2 * 2 ^ Z.log2 r = 2 ^ (Z.log2 r + 1)) as H2 by (rewrite <- Z.pow_succ_r by lia; f_equal; lia).
  set (t := 2 ^ Z.log2 r) in *. set (max := 2 * t - 1 - r) in *. set (x := if t <=? c + 1 then _ else _) in *.
  assert (Z.land (bits V p (32 - nc_count st)) (t - 1) = bits V p (Z.log2 r)) as ->.
  { unfold t. rewrite land_mod by lia. apply bits_low; lia. }
  assert (t <= c + 1 /\ x = c + 1 + max \/ c + 1 < t /\ x = c + 1) as Hxd by (unfold x; destruct (Z.leb_spec t (c + 1)); lia).
  clearbody x.
  destruct (Z.ltb_spec x max) as [Hlt|Hge]; cbn [Z.b2z] in *.
  - replace (Z.log2 r + 1 - 1) with (Z.log2 r) in * by lia. rewrite Hf. rewrite (proj2 (Z.ltb_lt _ _)) by done.
    f_equal; lia.
  - rewrite Z.sub_0_r in *. rewrite H2, land_mod by lia. rewrite (bits_low V p (Z.log2 r + 1)) by lia.
    assert (bits V p (Z.log2 r) = x mod t) as ->.
    { rewrite <- Hf. unfold t. symmetry. apply bits_low; lia. }
    rewrite Hf. assert (x mod t = if t <=? x then x - t else x) as ->.
    { destruct (Z.leb_spec t x); [|apply Z.mod_small; lia]. symmetry. apply Zmod_unique with 1; lia. }
    rewrite (proj2 (Z.ltb_ge _ _)) by (destruct (Z.leb_spec t x); lia).
    destruct (Z.leb_spec t x); f_equal; lia.
Qed.

Lemma nc_one_at st s r prev0 p c : reading st s r prev0 p -> 2 <= r -> Z.log2 r <= 9 ->
  Z.abs c < r -> -1 <= c -> zget norm s = Some c ->
  bits V p (count_field r c).2 = (count_field r c).1 -> p + (count_field r c).2 <= 8 * iend ->
  exists st', if r - Z.abs c =? 1
    then s + 1 = zlen norm -> nc_one src max_sv1 st = Ok (inr st') /\ all_read st' (p + (count_field r c).2)
    else s + 1 < zlen norm -> p + (count_field r c).2 < 8 * iend -> nc_one src max_sv1 st = Ok (inl st') /\
      reading st' (s + 1) (r - Z.abs c) (c =? 0) (p + (count_field r c).2).
Proof.
  intros Hrd Hr H9 Hc Hc1 Hg Hf Hp. pose proof (nc_decode_count_at _ _ _ _ _ _ Hrd Hr H9 Hc Hc1 Hf Hp) as Hdec.
  destruct (count_field_range r c Hr Hc1 Hc) as [_ Hk]. pose proof (log2_range r ltac:(lia)) as [Hl Hl0].
  destruct Hrd as [Ha Hst Hbits Hrem Hthr Hch Hprev Hcounts Hs]. set (n := (count_field r c).2) in *. clearbody n.
  pose proof Ha as [A1 A2 A3 A4].
  assert (zlen (ztake s norm) = s) as Hls by (apply zlen_ztake; lia).
  destruct (filled_store (E := DecodeError) _ _ _ c Hcounts) as (counts' & Hstore & Hf'); [rewrite zlen_zrepeat; lia|].
  rewrite Hls in Hstore. pose proof Hg as [_ Hgl]%zget_Some.
  assert (ztake s norm ++ [c] = ztake (s + 1) norm) as Htake.
  { unfold ztake. replace (Z.to_nat (s + 1)) with (S (Z.to_nat s)) by lia. by rewrite (take_S_r _ _ _ Hgl). }
  rewrite Htake in Hf'. unfold nc_one. rewrite Hdec, Hch, Hstore, Hrem. cbn [mbind res_bind].
  assert ((if 0 <=? c then r - c else r + c) = r - Z.abs c) as -> by (destruct (Z.leb_spec 0 c); lia).
  rewrite Hthr, Hbits. pose proof (log2_range (r - Z.abs c) ltac:(lia)) as [Hl' Hl0'].
  destruct (Z.eqb_spec (r - Z.abs c) 1) as [H1|Hn1].
  - eexists. intros Hend. rewrite H1.
    assert (1 < 2 ^ Z.log2 r) as Ht by lia. rewrite (proj2 (Z.ltb_lt _ _)) by done. cbn [Z.leb Z.compare Pos.compare].
    change (1 <=? 1) with true. split; [done|]. split; cbn; try done; try lia.
    rewrite Hend in Hf'. unfold ztake in Hf'. by rewrite take_ge in Hf' by (unfold zlen; lia).
  - pose proof (advance_at src H8 (nc_ip st) (nc_count st + n) (p + n) A1 ltac:(lia) ltac:(lia) ltac:(lia)) as Hadv.
    destruct (advance iend (nc_ip st) (nc_count st + n)) as [ip2 bc2] eqn:Ead.
    eexists. intros Hend Hlt. specialize (Hadv Hlt). rewrite (proj2 (Z.leb_gt max_sv1 (s + 1))) by lia.
    rewrite window_bits; [|done|apply Hadv|apply Hadv]. cbn [mbind res_bind]. rewrite (ab_pos _ _ _ _ Hadv).
    rewrite (proj2 (Z.leb_gt (r - Z.abs c) 1)) by lia.
    rewrite highest_bit_set_spec by (split; [lia|]; apply Z.log2_lt_cancel; change (Z.log2 (2 ^ 32)) with 32; pose proof (Z.log2_le_mono (r - Z.abs c) r ltac:(lia)); lia).
    cbn [mbind res_bind]. rewrite Z.shiftl_1_l. replace (Z.log2 (r - Z.abs c) + 1 - 1) with (Z.log2 (r - Z.abs c)) by lia.
    split; [|instantiate (1 := MkNc _ _ _ _ _ _ _ _ _); split; cbn; try done; try lia].
    destruct (Z.ltb_spec (r - Z.abs c) (2 ^ Z.log2 r)) as [Hlow|Hhigh]; [done|].
    assert (Z.log2 (r - Z.abs c) = Z.log2 r) as ->; [|done]. apply Z.log2_unique; [lia|]. rewrite Z.pow_succ_r by lia. lia.
Qed.

Lemma nc_one_loop st s r prev0 p c fs k : reading st s r prev0 p -> 2 <= r -> Z.log2 r <= 9 ->
  Z.abs c < r -> -1 <= c -> zget norm s = Some c -> coded norm (s + 1) (r - Z.abs c) (c =? 0) fs ->
  bits V p (count_field r c).2 = (count_field r c).1 -> p + (count_field r c).2 + width fs <= 8 * iend ->
  (forall st', reading st' (s + 1) (r - Z.abs c) (c =? 0) (p + (count_field r c).2) -> 2 <= r - Z.abs c ->
     exists st'', loopM k (nc_body src max_sv1) st' = Ok st'' /\ all_read st'' (p + (count_field r c).2 + width fs)) ->
  exists st'', match nc_one src max_sv1 st with
               | Ok (inl st') => loopM k (nc_body src max_sv1) st'
               | Ok (inr st') => Ok st' | Err e => Err e | Fault => Fault | Stuck => Stuck end = Ok st'' /\
    all_read st'' (p + (count_field r c).2 + width fs).
Proof.
  intros Hrd Hr H9 Hc Hc1 Hg Hcoded Hf Hp Hloop. destruct (coded_width _ _ _ _ _ Hcoded) as [Hw Hw1].
  destruct (nc_one_at _ _ _ _ _ _ Hrd Hr H9 Hc Hc1 Hg Hf ltac:(lia)) as [st1 Hone].
  destruct (Z.eqb_spec (r - Z.abs c) 1) as [H1|Hn1].
  - rewrite H1 in Hcoded. apply coded_last in Hcoded as [Hs ->]. destruct (Hone Hs) as [-> Hall].
    exists st1. unfold width. cbn. by rewrite Z.add_0_r.
  - pose proof (coded_more _ _ _ _ _ Hcoded ltac:(lia)) as Hs. destruct (Hone Hs ltac:(lia)) as [-> Hrd'].
    by apply Hloop; [|lia].
Qed.

Lemma nc_body_eq st : nc_body src max_sv1 st =
  (r ← (if nc_previous0 st then nc_zeros src max_sv1 st else Ok (inl st));
   match r with inr st => Ok (inr st) | inl st => nc_one src max_sv1 st end).
Proof. done. Qed.

Lemma nc_loop_at s r prev0 fs : coded norm s r prev0 fs -> forall st p fuel, reading st s r prev0 p -> 2 <= r ->
  Z.log2 r <= 9 -> fields_at V p fs -> p + width fs <= 8 * iend -> (Z.to_nat (zlen norm - s) < fuel)%nat ->
  exists st', loopM fuel (nc_body src max_sv1) st = Ok st' /\ all_read st' (p + width fs).
Proof.
  induction 1 as [|s r c fs Hg Hr Ha Hc Hfs IH|s z r c fs Hz Hs Hzeros Hg Hne Hr Ha Hc Hfs IH];
    intros st p fuel Hrd H2 H9 Hf Hp Hfuel; [lia| |]; (destruct fuel as [|fuel]; [lia|]).
  - cbn [loopM]. rewrite (nc_body_eq st), (rg_previous0 _ _ _ _ _ Hrd). cbn [mbind res_bind].
    pose proof (zget_lt _ _ _ Hg) as Hgl. pose proof (Z.log2_le_mono (r - Z.abs c) r ltac:(lia)).
    pose proof (nc_one_loop st s r false p c fs fuel Hrd Hr H9 Ha Hc Hg Hfs) as Hone.
    destruct (count_field r c) as [x n]. rewrite width_cons in *. cbn [fields_at fst snd] in *.
    rewrite Z.add_assoc in *. destruct Hf as (Hx & Hn & Hf). apply Hone; [done|done|].
    intros st' Hrd' Hr'. apply IH; done || lia.
  - cbn [loopM]. rewrite (nc_body_eq st), (rg_previous0 _ _ _ _ _ Hrd).
    pose proof (zget_lt _ _ _ Hg) as Hgl. pose proof (Z.log2_le_mono (r - Z.abs c) r ltac:(lia)).
    destruct (coded_width _ _ _ _ _ Hfs) as [Hw _]. destruct (count_field_range r c Hr Hc Ha) as [_ Hk].
    pose proof (Z.log2_le_mono 2 r Hr) as H1. change (Z.log2 2) with 1 in H1.
    pose proof (nc_zeros_at st s r p z Hrd Hz ltac:(lia) Hzeros) as Hzero.
    pose proof (fun st1 Hrd1 => nc_one_loop st1 (s + z) r true (p + (run_field z).2) c fs fuel Hrd1 Hr H9 Ha Hc Hg) as Hone.
    rewrite (proj2 (Z.eqb_neq c 0)) in Hone by done.
    destruct (run_field z) as [xz nz], (count_field r c) as [x n]. rewrite !width_cons in *. cbn [fields_at fst snd] in *.
    rewrite !Z.add_assoc in *. destruct Hf as (Hxz & Hnz & Hx & Hn & Hf).
    destruct (Hzero Hxz ltac:(lia)) as (st1 & -> & Hrd1). cbn [mbind res_bind].
    apply (Hone st1 Hrd1); [done|done|done|]. intros st' Hrd' Hr'. apply IH; done || lia.
Qed.
End read.

(** The parser's result: the table with its distribution. *)
Definition described (t : FSETable) (log : Z) (norm : list Z) : FSETable :=
  MkTable (max_symbol t) (cells t) (size t) log norm (symbol_next t) (spread t).

Lemma read_ncount_body_at t src norm log max_log fs : bytes src -> 8 <= zlen src ->
  zlen norm <= max_symbol t + 1 -> 5 <= log <= max_log -> max_log <= 9 -> coded norm 0 (2 ^ log + 1) false fs ->
  fields_at (le_val src) 0 ((log - 5, 4) :: fs) -> width ((log - 5, 4) :: fs) <= 8 * zlen src ->
  read_ncount_body t src max_log = Ok (described t log norm, div_ceil (width ((log - 5, 4) :: fs)) 8).
Proof.
  intros Hb H8 Hfit Hlog Hmax Hcoded Hf Hw. rewrite width_cons in *. destruct Hf as (Hx & _ & Hf).
  pose proof (pow2_le 5 log ltac:(lia)) as H5. pose proof (pow2_le log 9 ltac:(lia)) as H9.
  change (2 ^ 5) with 32 in *. change (2 ^ 9) with 512 in *.
  assert (Z.log2 (2 ^ log + 1) = log) as Hlg by (apply Z.log2_unique; [lia|]; rewrite Z.pow_succ_r by lia; lia).
  pose proof (coded_more _ _ _ _ _ Hcoded ltac:(lia)) as Hn.
  assert (read32 src 0 = (Ok (bits (le_val src) 0 32) : dec Z)) as Hr32.
  { pose proof (window_bits src Hb 0 0 ltac:(lia) ltac:(lia)) as Hwin. unfold window in Hwin.
    destruct (read32 src 0) as [w|e| |] eqn:E; cbn in Hwin; try done.
  }
  unfold read_ncount_body. rewrite (proj2 (Z.leb_le _ _)) by lia. cbn [rassert mbind res_bind]. rewrite Hr32. cbn [mbind res_bind].
  assert (Z.land (bits (le_val src) 0 32) 15 = log - 5) as ->.
  { change 15 with (2 ^ 4 - 1). by rewrite land_mod, bits_low, Hx by lia. }
  unfold ACC_LOG_OFFSET. replace (log - 5 + 5) with log by lia. rewrite (proj2 (Z.ltb_ge max_log log)) by lia.
  cbn [fail_if mbind res_bind]. rewrite !Z.shiftl_1_l, (wrap_small 8 log) by (change (2 ^ 8) with 256; lia).
  match goal with |- context [loopM _ _ ?s0] => set (st := s0) end.
  assert (reading src norm (max_symbol t + 1) st 0 (2 ^ log + 1) false 4) as Hrd.
  { split; cbn; rewrite ?Hlg; try done; try lia; [split; lia| |apply filled_nil].
    { rewrite shiftr_div by lia. change (bits (le_val src) 4 (32 - 4)) with (bits (le_val src) (0 + 4) 28).
      rewrite <- (bits_bits (le_val src) 0 32 4 28) by lia. unfold bits at 2.
      rewrite Z.mod_small; [done|]. pose proof (bits_range (le_val src) 0 32 ltac:(lia)) as Hr.
      change (2 ^ 32) with 4294967296 in Hr. change (2 ^ 4) with 16. change (2 ^ 28) with 268435456. divlia. } }
  destruct (nc_loop_at src norm (max_symbol t + 1) Hb H8 Hfit 0 _ _ _ Hcoded st 4 (Z.to_nat (max_symbol t + 1) + 1) Hrd
    ltac:(lia) ltac:(lia) Hf ltac:(lia) ltac:(lia)) as (st' & -> & [Hpos Hip Hct Hrem Hch Hcounts]).
  cbn [mbind res_bind]. rewrite Hrem, Hch. change (1 =? 1) with true. cbn [negb fail_if mbind res_bind].
  rewrite (proj2 (Z.ltb_ge (max_symbol t + 1) (zlen norm))), (proj2 (Z.ltb_ge 32 (nc_count st'))) by lia. cbn [fail_if mbind res_bind].
  unfold described, div_ceil. do 3 f_equal.
  - destruct Hcounts as [_ ->]. unfold ztake, zlen. by rewrite Nat2Z.id, take_app_length.
  - rewrite shiftr_div by lia. rewrite <- Hpos. change (2 ^ 3) with 8. divlia.
Qed.

Lemma ncount_roundtrip_core t full norm log max_log l rest : (forall i, i < zlen norm -> zget full i = zget norm i) ->
  Forall (fun c => -1 <= c) norm -> cell_sum norm = 2 ^ log -> zget norm (zlen norm - 1) = Some l -> l <> 0 ->
  5 <= log <= max_log -> max_log <= FSE_MAX_TABLE_LOG -> zlen norm <= max_symbol t + 1 -> bytes rest ->
  exists bs, write_ncount full (zlen norm - 1) log = Ok bs /\
    bytes bs /\ read_probabilities t (bs ++ rest) max_log = Ok (described t log norm, zlen bs).
Proof.
  unfold FSE_MAX_TABLE_LOG, LL_MAX_LOG. intros Hfull Hlow Hsum Hl Hnz Hlog Hmax Hfit Hrest.
  destruct (write_ncount_ok full norm Hfull log l ltac:(lia) Hlow Hsum Hl Hnz) as (fs & bs & Hcoded & Hwrite & Hbs & Hgs & Hlen & Hval).
  exists bs. split; [done|]. split; [done|]. set (gs := (log - 5, 4) :: fs) in *.
  assert (0 <= width gs) as Hw0 by (unfold gs; rewrite width_cons; pose proof (proj1 (coded_width _ _ _ _ _ Hcoded)); lia).
  assert (width gs <= 8 * zlen bs) as Hw by (rewrite Hlen; unfold div_ceil; divlia).
  assert (forall more, bytes more -> fields_at (le_val (bs ++ more)) 0 gs) as Hfields.
  { intros more Hmore. apply fields_at_pack; [done|lia|]. rewrite le_val_app, Hval. unfold bits. rewrite Z.div_1_r.
    replace (8 * zlen bs) with (width gs + (8 * zlen bs - width gs)) by lia. rewrite pow2_add by lia.
    rewrite <- Z.mul_assoc, (Z.mul_comm (2 ^ width gs)), Z.mod_add by (pose proof (pow2_pos (width gs)); lia).
    apply Z.mod_small. pose proof (le_val_range bs Hbs) as Hr. rewrite Hval in Hr. split; [lia|].
    apply pack_range. eapply Forall_impl; [exact Hgs|]. intros [? ?]. cbn. lia. }
  unfold read_probabilities. pose proof (zlen_nonneg rest). destruct (Z.ltb_spec (zlen (bs ++ rest)) 8) as [Hshort|Hlong].
  - assert (zlen ((bs ++ rest) ++ zrepeat 0 (8 - zlen (bs ++ rest))) = 8) as H8 by (rewrite (zlen_app (bs ++ rest)), zlen_zrepeat by lia; lia).
    assert (bytes (rest ++ zrepeat 0 (8 - zlen (bs ++ rest)))) as Hmore by (apply Forall_app; split; [done|by apply Forall_zrepeat]).
    rewrite (read_ncount_body_at t _ norm log max_log fs).
    + cbn [mbind res_bind]. fold gs. rewrite <- Hlen. rewrite (proj2 (Z.ltb_ge _ _)) by (rewrite zlen_app; lia). done.
    + rewrite <- app_assoc. by apply Forall_app.
    + lia.
    + done.
    + done.
    + done.
    + done.
    + rewrite <- app_assoc. by apply Hfields.
    + fold gs. rewrite H8. rewrite zlen_app in Hshort. lia.
  - rewrite (read_ncount_body_at t _ norm log max_log fs); try done.
    + fold gs. by rewrite Hlen.
    + by apply Forall_app.
    + by apply Hfields.
    + fold gs. rewrite zlen_app in *. lia.
Qed.

(** C37: The normalized-count header round-trips. For a distribution over an
    alphabet the decoder knows, whose absolute counts sum to [2 ^ log] and
    whose last symbol occurs, the encoder's [write_ncount] succeeds, and the
    decoder's [read_probabilities] on its bytes, whatever follows them, gives
    the table that accuracy log and exactly that distribution, and consumes
    exactly those bytes: runs of zero counts with their repeat codes, the
    short codes of small counts and the padding of inputs below eight bytes
    included. *)
Theorem ncount_roundtrip t full norm log max_log l rest :
  (forall i, i < zlen norm -> zget full i = zget norm i) ->
  Forall (fun c => -1 <= c) norm -> cell_sum norm = 2 ^ log ->
  zget norm (zlen norm - 1) = Some l -> l <> 0 -> 5 <= log <= max_log -> max_log <= FSE_MAX_TABLE_LOG ->
  zlen norm <= max_symbol t + 1 -> bytes rest ->
  exists bs, write_ncount full (zlen norm - 1) log = Ok bs /\
    bytes bs /\ read_probabilities t (bs ++ rest) max_log = Ok (described t log norm, zlen bs).
Proof. apply ncount_roundtrip_core. Qed.

(** A run of 30 zero counts, a low-probability mark, and one byte more. *)
Lemma ncount_roundtrip_witness : exists bs,
  write_ncount ([9; 20] ++ zrepeat 0 30 ++ [2; -1] ++ [7]) 33 5 = Ok bs /\ zlen bs = 5 /\
  read_probabilities (FseTable.new 35) (bs ++ [5]) 9 =
    Ok (described (FseTable.new 35) 5 ([9; 20] ++ zrepeat 0 30 ++ [2; -1]), 5).
Proof.
  pose (norm := [9; 20] ++ zrepeat 0 30 ++ [2; -1]).
  assert (forall i, i < zlen norm -> zget (norm ++ [7]) i = zget norm i) as Hfull.
  { intros i Hi. by apply zget_app_l. }
  assert (Forall (fun c => -1 <= c) norm) as Hlow by (repeat constructor; lia).
  destruct (ncount_roundtrip (FseTable.new 35) (norm ++ [7]) norm 5 9 (-1) [5] Hfull Hlow ltac:(by vm_compute)
    ltac:(by vm_compute) ltac:(lia) ltac:(lia) ltac:(by vm_compute) ltac:(by vm_compute)
    ltac:(constructor; [unfold is_byte; lia|constructor])) as (bs & Hw & _ & Hr).
  exists bs. unfold norm in Hw. rewrite <- !app_assoc in Hw. change (zlen _ - 1) with 33 in Hw. split; [exact Hw|].
  assert (zlen bs = 5) as Hlen by (vm_compute in Hw; injection Hw as <-; reflexivity).
  split; [done|]. rewrite Hlen in Hr. exact Hr.
Defined.
