(* ===== verification/Entropy.v ===== *)
(** * The entropy tables held across blocks ([src/compress/entropy.rs])

    Each table has two slots: the one the decoder holds, and a spare one a
    coder builds the next table in. What a block does to a table is a [Next],
    applied when the block is written. The slots refine a machine of one
    table at most ([held_step]): nothing a coder leaves in the spare is seen
    before its commit. *)

From S2P Require Import Prelude Words FseEncode.

(** ** Data *)

Inductive Repeat := RNone | RCheck | RValid.

#[export] Instance repeat_eq_dec : EqDecision Repeat.
Proof. solve_decision. Defined.

(** [Held]: there is a table exactly when one may be referenced. *)
Inductive Held (T : Type) := HNone | HCheck (t : T) | HValid (t : T).
Arguments HNone {T}.
Arguments HCheck {T} t.
Arguments HValid {T} t.

(** [Held::table]. *)
Definition held_table {T} (h : Held T) : option T :=
  match h with HNone => None | HCheck t | HValid t => Some t end.

(** [Held::repeat]. *)
Definition held_repeat {T} (h : Held T) : Repeat :=
  match h with HNone => RNone | HCheck _ => RCheck | HValid _ => RValid end.

(** [TableRef]: the spare is read here, and written by [put_spare]. *)
Record TableRef (T : Type) := MkRef { tr_held : Held T; tr_spare : T }.
Arguments MkRef {T} tr_held tr_spare.
Arguments tr_held {T} _.
Arguments tr_spare {T} _.

Inductive Next := NKeep | NNone | NNew.

#[export] Instance next_eq_dec : EqDecision Next.
Proof. solve_decision. Defined.

(** [Slots]: an array of two. *)
Record Slots (T : Type) := MkSlots { slots : list T; cur : Z; slot_mode : Repeat }.
Arguments MkSlots {T} slots cur slot_mode.
Arguments slots {T} _.
Arguments cur {T} _.
Arguments slot_mode {T} _.

(** ** Operations *)

Section slots.
Context {E T : Type}.
Implicit Type s : Slots T.

(** [Slots::default], of the table's default. *)
Definition slots_default (d : T) : Slots T := MkSlots [d; d] 0 RNone.

(** [Slots::holding]. *)
Definition slots_holding (d table : T) (mode : Repeat) : res E (Slots T) :=
  _ ← rassert (bool_decide (mode <> RNone));
  Ok (MkSlots [table; d] 0 mode).

(** A table with its mode. *)
Definition held_as (mode : Repeat) (table : T) : Held T :=
  match mode with RNone => HNone | RCheck => HCheck table | RValid => HValid table end.

(** [Slots::held]. *)
Definition slots_held s : res E (Held T) :=
  table ← idx (slots s) (cur s);
  Ok (held_as (slot_mode s) table).

(** [Slots::split]. *)
Definition slots_split s : res E (TableRef T) :=
  first ← idx (slots s) 0;
  second ← idx (slots s) 1;
  let '(table, spare) := if cur s =? 0 then (first, second) else (second, first) in
  Ok (MkRef (held_as (slot_mode s) table) spare).

(** What a write through the [spare] of [split] leaves. *)
Definition put_spare s (table : T) : res E (Slots T) :=
  l ← store (slots s) (if cur s =? 0 then 1 else 0) table;
  Ok (MkSlots l (cur s) (slot_mode s)).

(** [Slots::commit]. *)
Definition slots_commit s (next : Next) : Slots T :=
  match next with
  | NKeep => s
  | NNone => MkSlots (slots s) (cur s) RNone
  | NNew => MkSlots (slots s) (Z.lxor (cur s) 1) RCheck
  end.

(** [Slots::demote_valid]. *)
Definition slots_demote_valid s : Slots T :=
  if bool_decide (slot_mode s = RValid) then MkSlots (slots s) (cur s) RCheck else s.

(** [Slots::clear]. *)
Definition slots_clear s : Slots T := MkSlots (slots s) (cur s) RNone.

(** [Slots::load]. *)
Definition slots_load s (from : Slots T) : res E (Slots T) :=
  if bool_decide (slot_mode from <> RNone) then
    t ← idx (slots from) (cur from);
    l ← store (slots s) (cur s) t;
    Ok (MkSlots l (cur s) (slot_mode from))
  else Ok (MkSlots (slots s) (cur s) (slot_mode from)).
End slots.

(** [FseSlots], [FseHeld], [FseTables] and [FseNext]. *)
Record FseSlots := MkFseSlots { fs_ll : Slots FseCTable; fs_of : Slots FseCTable; fs_ml : Slots FseCTable }.
Record FseHeld := MkFseHeld { fh_ll : Held FseCTable; fh_of : Held FseCTable; fh_ml : Held FseCTable }.
Record FseTables := MkFseTables { ft_ll : TableRef FseCTable; ft_of : TableRef FseCTable; ft_ml : TableRef FseCTable }.
Record FseNext := MkFseNext { fn_ll : Next; fn_of : Next; fn_ml : Next }.

(** [FseNext::KEEP]. *)
Definition KEEP : FseNext := MkFseNext NKeep NKeep NKeep.

Section fse_slots.
Context {E : Type}.

(** [FseSlots::held]. *)
Definition fse_held (s : FseSlots) : res E FseHeld :=
  ll ← slots_held (fs_ll s); of_ ← slots_held (fs_of s); ml ← slots_held (fs_ml s);
  Ok (MkFseHeld ll of_ ml).

(** [FseSlots::split]. *)
Definition fse_split (s : FseSlots) : res E FseTables :=
  ll ← slots_split (fs_ll s); of_ ← slots_split (fs_of s); ml ← slots_split (fs_ml s);
  Ok (MkFseTables ll of_ ml).

(** The three spares, written. *)
Definition fse_put (s : FseSlots) (ll of_ ml : FseCTable) : res E FseSlots :=
  ll ← put_spare (fs_ll s) ll; of_ ← put_spare (fs_of s) of_; ml ← put_spare (fs_ml s) ml;
  Ok (MkFseSlots ll of_ ml).
End fse_slots.

(** [FseSlots::commit]. *)
Definition fse_commit (s : FseSlots) (next : FseNext) : FseSlots :=
  MkFseSlots (slots_commit (fs_ll s) (fn_ll next)) (slots_commit (fs_of s) (fn_of next))
    (slots_commit (fs_ml s) (fn_ml next)).

(** ** Proofs *)

(** The slots' type: an array of two, and the index of one of them. *)
Record slots_wf {T} (s : Slots T) : Prop := {
  sw_len : zlen (slots s) = 2;
  sw_cur : cur s = 0 \/ cur s = 1;
}.

(** What well-formed slots show: the table held, and the spare. *)
Definition shows {T} (s : Slots T) (h : Held T) (spare : T) : Prop :=
  slots_wf s /\ exists t, zget (slots s) (cur s) = Some t /\ zget (slots s) (1 - cur s) = Some spare /\
    h = held_as (slot_mode s) t.

(** The machine the slots refine: a table at most, and the spare. *)
Inductive slot_op (T : Type) := OpPut (t : T) | OpCommit (n : Next) | OpDemote | OpClear | OpLoad (from : Slots T).
Arguments OpPut {T} t.
Arguments OpCommit {T} n.
Arguments OpDemote {T}.
Arguments OpClear {T}.
Arguments OpLoad {T} from.

Definition slot_run {E T} (s : Slots T) (op : slot_op T) : res E (Slots T) :=
  match op with
  | OpPut t => put_spare s t
  | OpCommit n => Ok (slots_commit s n)
  | OpDemote => Ok (slots_demote_valid s)
  | OpClear => Ok (slots_clear s)
  | OpLoad from => slots_load s from
  end.

(** A [New] table is the spare; what the spare then holds is not fixed. *)
Inductive held_step {T} : Held T -> T -> slot_op T -> Held T -> T -> Prop :=
| held_put h spare t : held_step h spare (OpPut t) h t
| held_keep h spare : held_step h spare (OpCommit NKeep) h spare
| held_none h spare : held_step h spare (OpCommit NNone) HNone spare
| held_new h spare spare' : held_step h spare (OpCommit NNew) (HCheck spare) spare'
| held_demote t spare : held_step (HValid t) spare OpDemote (HCheck t) spare
| held_demoted h spare : held_repeat h <> RValid -> held_step h spare OpDemote h spare
| held_clear h spare : held_step h spare OpClear HNone spare
| held_load h spare from h' spare' : shows from h' spare' -> held_step h spare (OpLoad from) h' spare.

Lemma held_as_repeat {T} mode (t : T) : held_repeat (held_as mode t) = mode.
Proof. by destruct mode. Qed.

Lemma shows_ok {E T} (s : Slots T) h spare : shows s h spare ->
  slots_held s = (Ok h : res E _) /\ slots_split s = (Ok (MkRef h spare) : res E _).
Proof.
  intros ([Hl Hc] & t & Ht & Hsp & ->). unfold slots_held, slots_split. rewrite (idx_ok _ _ _ Ht). split; [done|].
  destruct Hc as [Hc|Hc]; rewrite Hc in *; cbn in Hsp.
  - by rewrite (idx_ok _ _ _ Ht), (idx_ok _ _ _ Hsp).
  - by rewrite (idx_ok _ _ _ Ht), (idx_ok _ _ _ Hsp).
Qed.

Lemma shows_default {T} (d : T) : shows (slots_default d) HNone d.
Proof. split; [split; [done|by left]|]. by exists d. Qed.

Lemma shows_wf {T} (s : Slots T) : slots_wf s -> exists h spare, shows s h spare.
Proof.
  intros Hw. pose proof Hw as [Hl Hc]. destruct (zget_is_Some (slots s) (cur s) ltac:(lia)) as [t Ht].
  destruct (zget_is_Some (slots s) (1 - cur s) ltac:(lia)) as [spare Hsp].
  exists (held_as (slot_mode s) t), spare. split; [done|]. by exists t.
Qed.

(** Every operation is a step. *)
Lemma slot_run_ok {E T} (s : Slots T) h spare op : shows s h spare ->
  (forall from, op = OpLoad from -> slots_wf from) ->
  returns (fun s' => exists h' spare', shows s' h' spare' /\ held_step h spare op h' spare') (slot_run s op : res E _).
Proof.
  intros (Hw & t & Ht & Hsp & ->) Hload. pose proof Hw as [Hl Hc].
  destruct op as [x|[]| | |from]; cbn [slot_run slots_commit slots_demote_valid slots_clear].
  - unfold put_spare. replace (if cur s =? 0 then 1 else 0) with (1 - cur s) by (destruct Hc as [->| ->]; done).
    rewrite store_ok by lia. cbn [mbind res_bind returns]. exists (held_as (slot_mode s) t), x. split; [|constructor].
    split; [split; cbn; rewrite ?zlen_zset; done|]. exists t. cbn [slots cur slot_mode].
    rewrite zget_zset_ne, zget_zset_eq by lia. done.
  - exists (held_as (slot_mode s) t), spare. split; [|constructor]. split; [done|]. by exists t.
  - exists HNone, spare. split; [|constructor]. split; [by split|]. by exists t.
  - exists (HCheck spare), t. split; [|constructor].
    assert (Z.lxor (cur s) 1 = 1 - cur s) as Hx by (destruct Hc as [->| ->]; done).
    split; [split; cbn; rewrite ?Hx; [done|lia]|]. exists spare. cbn [slots cur slot_mode]. rewrite Hx.
    replace (1 - (1 - cur s)) with (cur s) by lia. done.
  - unfold slots_demote_valid. destruct (decide (slot_mode s = RValid)) as [Hv|Hv].
    + rewrite bool_decide_eq_true_2, Hv by done. exists (HCheck t), spare. split; [|constructor].
      split; [by split|]. by exists t.
    + rewrite bool_decide_eq_false_2 by done. exists (held_as (slot_mode s) t), spare.
      split; [|constructor; by rewrite held_as_repeat]. split; [done|]. by exists t.
  - exists HNone, spare. split; [|constructor]. split; [by split|]. by exists t.
  - specialize (Hload from eq_refl). destruct (shows_wf from Hload) as (h' & spare' & Hs'). pose proof Hs' as (_ & t' & Ht' & _ & Hh').
    unfold slots_load. destruct (decide (slot_mode from = RNone)) as [Hn|Hn].
    + rewrite bool_decide_eq_false_2 by tauto. cbn [returns]. exists h', spare. split; [|by econstructor].
      split; [by split|]. exists t. rewrite Hh', Hn. done.
    + rewrite bool_decide_eq_true_2 by done. rewrite (idx_ok _ _ _ Ht'). cbn [mbind res_bind]. rewrite store_ok by lia. cbn [mbind res_bind returns].
      exists h', spare. split; [|by econstructor]. split; [split; cbn; rewrite ?zlen_zset; done|]. exists t'. cbn [slots cur slot_mode].
      rewrite zget_zset_eq, zget_zset_ne by lia. done.
Qed.

(** What is held once the block is committed. *)
Definition next_held {T} (h : Held T) (spare : T) (next : Next) : Held T :=
  match next with NKeep => h | NNone => HNone | NNew => HCheck spare end.

(** What is held after [demote_valid]. *)
Definition demoted {T} (h : Held T) : Held T := match h with HValid t => HCheck t | _ => h end.

(** Slots whose tables all satisfy [P]: what a coder finds, and what its put
    and the block's end leave. *)
Lemma slots_written {E T} (P : T -> Prop) (s : Slots T) : slots_wf s -> Forall P (slots s) -> exists h spare,
  slots_held s = (Ok h : res E _) /\ slots_split s = (Ok (MkRef h spare) : res E _) /\ P spare /\
  forall spare', P spare' -> exists s', put_spare s spare' = (Ok s' : res E _) /\
    forall next, slots_wf (slots_commit s' next) /\ Forall P (slots (slots_commit s' next)) /\
      slots_held (slots_commit s' next) = (Ok (next_held h spare' next) : res E _).
Proof.
  intros Hw HP. destruct (shows_wf s Hw) as (h & spare & Hs). pose proof (shows_ok (E := E) _ _ _ Hs) as [Hh Hsp].
  exists h, spare. split; [done|]. split; [done|]. pose proof Hs as ([Hl Hc] & tb & Ht & Hspare & Heq).
  split; [by apply (Forall_zget _ _ _ _ HP Hspare)|]. intros spare' HP'.
  destruct (returns_inv _ _ (slot_run_ok (E := E) s h spare (OpPut spare') Hs ltac:(done))) as (s' & Hput & h1 & sp1 & Hs1 & Hst1).
  cbn [slot_run] in Hput. exists s'. split; [done|]. intros next.
  assert (h1 = h /\ sp1 = spare') as [-> ->] by by inversion Hst1.
  destruct (returns_inv _ _ (slot_run_ok (E := E) s' h spare' (OpCommit next) Hs1 ltac:(done))) as (s2 & Hcommit & h2 & sp2 & Hs2 & Hst2).
  injection Hcommit as <-. split; [apply Hs2|]. split.
  { assert (slots (slots_commit s' next) = slots s') as -> by by destruct next.
    unfold put_spare in Hput. destruct (store (slots s) _ spare') as [l| | |] eqn:Est; [|done..]. cbn [mbind res_bind] in Hput.
    injection Hput as <-. apply store_inv in Est as [_ ->]. by apply Forall_insert. }
  pose proof (proj1 (shows_ok (E := E) _ _ _ Hs2)) as ->. by inversion Hst2; subst.
Qed.

Lemma slots_demoted {E T} (s : Slots T) h : slots_wf s -> slots_held s = (Ok h : res E _) ->
  slots_wf (slots_demote_valid s) /\ slots (slots_demote_valid s) = slots s /\
  slots_held (slots_demote_valid s) = (Ok (demoted h) : res E _).
Proof.
  intros [Hl Hc] Hh. unfold slots_demote_valid, slots_held in *. destruct (bool_decide_reflect (slot_mode s = RValid)) as [Hm|Hm]; cbn [slots cur slot_mode].
  - split; [by split|]. split; [done|]. destruct (idx _ _); cbn [mbind res_bind] in *; [|done..]. rewrite Hm in Hh. by injection Hh as <-.
  - split; [by split|]. split; [done|]. rewrite Hh. destruct (idx _ _); cbn [mbind res_bind] in *; [|done..]. injection Hh as <-. by destruct (slot_mode s).
Qed.

(** Any run of operations is a run of the machine. *)
Inductive held_steps {T} : Held T -> T -> list (slot_op T) -> Held T -> T -> Prop :=
| steps_nil h spare : held_steps h spare [] h spare
| steps_cons h spare op h1 spare1 ops h2 spare2 :
    held_step h spare op h1 spare1 -> held_steps h1 spare1 ops h2 spare2 -> held_steps h spare (op :: ops) h2 spare2.

Lemma slots_refine_core {E T} ops : forall (s : Slots T) h spare, shows s h spare ->
  Forall (fun op => forall from, op = OpLoad from -> slots_wf from) ops ->
  returns (fun s' => exists h' spare', shows s' h' spare' /\ held_steps h spare ops h' spare') (foldM slot_run s ops : res E _).
Proof.
  induction ops as [|op ops IH]; intros s h spare Hs Hops; cbn [foldM].
  - exists h, spare. split; [done|constructor].
  - apply Forall_cons in Hops as [Hop Hops].
    eapply returns_bind; [by apply (slot_run_ok s h spare op)|]. intros s1 (h1 & sp1 & Hs1 & Hst).
    eapply returns_mono; [by apply (IH s1 h1 sp1)|]. intros s2 (h2 & sp2 & Hs2 & Hsts).
    exists h2, sp2. split; [done|]. by econstructor.
Qed.

(** C38: The double-buffered slots keep their type and refine one table. From
    any well-formed slots, every sequence of writes to the spare, commits,
    demotions, clears and loads of well-formed slots runs without an index
    out of range and leaves well-formed slots, whose [held] and [split] show
    the table and the spare of the machine: what a coder writes to the spare
    is held only after a commit of [New], in [Check] mode; a block that is
    not committed changes nothing held. *)
Theorem slots_refine {T} (s : Slots T) (ops : list (slot_op T)) :
  slots_wf s -> Forall (fun op => forall from, op = OpLoad from -> slots_wf from) ops ->
  exists h spare s' h' spare', shows s h spare /\ foldM slot_run s ops = (Ok s' : res Empty_set _) /\
    held_steps h spare ops h' spare' /\ slots_wf s' /\
    slots_held s' = (Ok h' : res Empty_set _) /\ slots_split s' = (Ok (MkRef h' spare') : res Empty_set _).
Proof.
  intros Hw Hops. destruct (shows_wf s Hw) as (h & spare & Hs).
  destruct (returns_inv _ _ (slots_refine_core (E := Empty_set) ops s h spare Hs Hops)) as (s' & Hrun & h' & spare' & Hs' & Hst).
  exists h, spare, s', h', spare'. destruct (shows_ok (E := Empty_set) s' h' spare' Hs') as [H1 H2].
  split; [done|]. split; [done|]. split; [done|]. split; [apply Hs'|done].
Qed.

(** A dictionary's table, a block that builds another and is dropped, then
    one that is committed. *)
Lemma slots_refine_witness : exists s',
  foldM slot_run (MkSlots [1; 0] 0 RValid) [OpPut 2; OpCommit NKeep; OpPut 3; OpCommit NNew; OpDemote] =
    (Ok s' : res Empty_set _) /\ slots_held s' = (Ok (HCheck 3) : res Empty_set _).
Proof.
  assert (slots_wf (MkSlots [1; 0] 0 RValid)) as Hw by (split; [done|by left]).
  destruct (slots_refine (MkSlots [1; 0] 0 RValid) [OpPut 2; OpCommit NKeep; OpPut 3; OpCommit NNew; OpDemote] Hw
    ltac:(repeat constructor; congruence)) as (h & spare & s' & h' & spare' & _ & Hrun & _ & _ & Hheld & _).
  exists s'. split; [exact Hrun|]. vm_compute in Hrun. injection Hrun as <-. reflexivity.
Defined.
