(* ===== verification/Histogram.v ===== *)
(** * Histograms ([src/huf.rs], [hist_count])

    How often each byte occurs: counted one byte at a time in short inputs,
    four interleaved histograms over words in long ones. Both are the number
    of occurrences. *)

From S2P Require Import Prelude Words.

(** ** Definitions *)

(** [as_chunks]: the whole chunks of [n], and the rest. *)
Definition as_chunks {A} (n : Z) (l : list A) : list (list A) * list A :=
  ((fun i => ztake n (zdrop (n * i) l)) <$> seqZ 0 (zlen l / n), zdrop (n * (zlen l / n)) l).

Definition HIST_SIMPLE_MAX : Z := 1500.

Section hist.
Context {E : Type}.

(** [counts[b as usize] += 1]. *)
Definition bump (counts : list Z) (b : Z) : res E (list Z) :=
  c ← idx counts b;
  store counts b (wadd 32 c 1).

(** The four histograms. *)
Definition quad : Type := list Z * list Z * list Z * list Z.

(** One word of a stripe. *)
Definition hist_word (cs : quad) (word : list Z) : res E quad :=
  let '(c1, c2, c3, c4) := cs in
  let c := le_val word in
  c1 ← bump c1 (Z.land c 0xFF);
  c2 ← bump c2 (Z.land (Z.shiftr c 8) 0xFF);
  c3 ← bump c3 (Z.land (Z.shiftr c 16) 0xFF);
  c4 ← bump c4 (Z.shiftr c 24);
  Ok (c1, c2, c3, c4).

Definition hist_stripe (cs : quad) (stripe : list Z) : res E quad :=
  foldM hist_word cs (fst (as_chunks 4 stripe)).

(** [counts[s] = c1[s] + c2[s] + c3[s] + c4[s]]. *)
Definition hist_merge (cs : quad) (counts : list Z) (s : Z) : res E (list Z) :=
  let '(c1, c2, c3, c4) := cs in
  a ← idx c1 s; b ← idx c2 s; c ← idx c3 s; d ← idx c4 s;
  store counts s (wadd 32 (wadd 32 (wadd 32 a b) c) d).

(** [hist_count_parallel]. *)
Definition hist_count_parallel (counts src : list Z) : res E (list Z) :=
  let zeros := zrepeat 0 256 in
  let '(stripes, rest) := as_chunks 16 src in
  '(c1, c2, c3, c4) ← foldM hist_stripe (zeros, zeros, zeros, zeros) stripes;
  c1 ← foldM bump c1 rest;
  foldM (hist_merge (c1, c2, c3, c4)) counts (seqZ 0 256).

(** [while counts[max_symbol] == 0 { max_symbol -= 1 }]. *)
Definition last_symbol (counts : list Z) (max_symbol : Z) : res E Z :=
  loopM (Z.to_nat max_symbol + 1) (fun m =>
    c ← idx counts m;
    if c =? 0 then (_ ← rassert (0 <? m); Ok (inl (m - 1))) else Ok (inr m)) max_symbol.

(** [hist_count]: the counts, the largest, and the last symbol. *)
Definition hist_count (counts src : list Z) (max_symbol_value : Z) : res E (list Z * Z * Z) :=
  _ ← rassert (forallb (fun b => b <=? max_symbol_value) src);
  counts ← (if zlen src <? HIST_SIMPLE_MAX then foldM bump (zrepeat 0 256) src
            else hist_count_parallel counts src);
  max_symbol ← last_symbol counts max_symbol_value;
  top ← slice counts 0 (max_symbol + 1);
  Ok (counts, foldl Z.max 0 top, max_symbol).
End hist.

(** ** The reference *)

Fixpoint occurs (s : Z) (l : list Z) : Z :=
  match l with
  | [] => 0
  | b :: l => Z.b2z (b =? s) + occurs s l
  end.

(** [c] counts [l]. *)
Definition counts_of (c l : list Z) : Prop := zlen c = 256 /\ forall s, 0 <= s < 256 -> zget c s = Some (occurs s l).

Lemma occurs_app s l1 l2 : occurs s (l1 ++ l2) = occurs s l1 + occurs s l2.
Proof. induction l1 as [|b l1 IH]; cbn [occurs app]; lia. Qed.

Lemma occurs_range s l : 0 <= occurs s l <= zlen l.
Proof.
  induction l as [|b l IH]; [by cbn|]. rewrite zlen_cons. cbn [occurs]. destruct (b =? s); cbn [Z.b2z]; lia.
Qed.

Lemma occurs_pos s l : In s l <-> 0 < occurs s l.
Proof.
  induction l as [|b l IH]; cbn [occurs In]; [lia|]. pose proof (occurs_range s l).
  destruct (Z.eqb_spec b s) as [->|Hne]; cbn [Z.b2z].
  - split; [lia|by left].
  - rewrite Z.add_0_l, <- IH. intuition congruence.
Qed.

(** ** Proofs *)

Lemma concat_chunks {A} (n : Z) (l : list A) k : 0 < n -> (Z.of_nat k * n <= zlen l) ->
  concat ((fun i => ztake n (zdrop (n * i) l)) <$> seqZ 0 (Z.of_nat k)) = ztake (n * Z.of_nat k) l.
Proof.
  intros Hn. induction k as [|k IH]; intros Hk.
  - change (Z.of_nat 0) with 0. rewrite Z.mul_0_r. done.
  - replace (Z.of_nat (S k)) with (Z.of_nat k + 1) by lia. rewrite seqZ_app, fmap_app, concat_app, IH by lia.
    rewrite seqZ_cons by lia. rewrite seqZ_nil by lia. cbn [fmap list_fmap concat]. rewrite app_nil_r, Z.add_0_l.
    unfold ztake, zdrop. rewrite Z.mul_add_distr_l, Z.mul_1_r, Z2Nat.inj_add by lia. rewrite <- take_take_drop. done.
Qed.

Lemma as_chunks_app {A} (n : Z) (l : list A) : 0 < n -> concat (fst (as_chunks n l)) ++ snd (as_chunks n l) = l.
Proof.
  intros Hn. unfold as_chunks. cbn [fst snd]. pose proof (zlen_nonneg l). pose proof (Z.div_pos (zlen l) n ltac:(lia) Hn).
  pose proof (Z.mul_div_le (zlen l) n Hn).
  rewrite <- (Z2Nat.id (zlen l / n)) by lia. rewrite concat_chunks by lia.
  unfold ztake, zdrop. apply take_drop.
Qed.

Lemma as_chunks_len {A} (n : Z) (l c : list A) : 0 < n -> In c (fst (as_chunks n l)) -> zlen c = n.
Proof.
  intros Hn (i & <- & Hi%list_elem_of_In)%in_map_iff. apply elem_of_seqZ in Hi. pose proof (Z.mul_div_le (zlen l) n Hn).
  assert (n * i + n <= zlen l) by nia. rewrite zlen_ztake; [done|]. rewrite zlen_zdrop; lia.
Qed.

Lemma as_chunks_forall {A} (P : A -> Prop) n l : 0 < n -> Forall P l ->
  Forall (Forall P) (fst (as_chunks n l)) /\ Forall P (snd (as_chunks n l)).
Proof.
  intros Hn Hl. rewrite <- (as_chunks_app n l Hn) in Hl. apply Forall_app in Hl as [H1 H2]. split; [|done].
  by apply Forall_concat.
Qed.

(** A fold that consumes its input chunk by chunk, [B] elements at most. *)
Lemma returns_foldM_concat {E S A} (R : S -> list A -> Prop) (B : Z) (f : S -> list A -> res E S) cs :
  (forall st pre c, In c cs -> zlen (pre ++ c) <= B -> R st pre -> returns (fun st' => R st' (pre ++ c)) (f st c)) ->
  forall st pre, zlen (pre ++ concat cs) <= B -> R st pre -> returns (fun st' => R st' (pre ++ concat cs)) (foldM f st cs).
Proof.
  induction cs as [|c cs IH]; intros Hf st pre Hb Hr; cbn [foldM concat] in *; [by rewrite app_nil_r|].
  rewrite app_assoc in *. eapply returns_bind; [apply (Hf st pre c); [by left| |done]|].
  { rewrite zlen_app in Hb. pose proof (zlen_nonneg (concat cs)). lia. }
  intros st' Hr'. apply IH; [|done|done]. intros st2 pre2 c2 Hin. apply Hf. by right.
Qed.

Section proofs.
Context {E : Type}.

Lemma bump_ok c l b : counts_of c l -> 0 <= b < 256 -> zlen l + 1 < 2 ^ 32 ->
  returns (fun c' => counts_of c' (l ++ [b])) (bump c b : res E _).
Proof.
  intros [Hl Hc] Hb Hlen. unfold bump. rewrite (idx_ok _ _ _ (Hc b Hb)). cbn [mbind res_bind].
  rewrite store_ok by lia. cbn [returns]. split; [by rewrite zlen_zset|]. intros s Hs. rewrite occurs_app. cbn [occurs].
  pose proof (occurs_range b l). unfold wadd. rewrite wrap_small by lia.
  destruct (Z.eqb_spec b s) as [->|Hne]; cbn [Z.b2z].
  - rewrite zget_zset_eq by lia. apply (f_equal Some). lia.
  - rewrite zget_zset_ne, Hc by lia. apply (f_equal Some). lia.
Qed.

Lemma counts_of_nil : counts_of (zrepeat 0 256) [].
Proof. split; [done|]. intros s Hs. by apply zget_zrepeat. Qed.

Lemma bumps_ok src : forall c l, counts_of c l -> bytes src -> zlen l + zlen src < 2 ^ 32 ->
  returns (fun c' => counts_of c' (l ++ src)) (foldM bump c src : res E _).
Proof.
  induction src as [|b src IH]; intros c l Hc Hb Hlen; cbn [foldM]; [by rewrite app_nil_r|].
  apply Forall_cons in Hb as [Hb Hs]. rewrite zlen_cons in Hlen. pose proof (zlen_nonneg src).
  eapply returns_bind; [apply (bump_ok c l b Hc Hb); lia|]. intros c' Hc'.
  replace (l ++ b :: src) with ((l ++ [b]) ++ src) by by rewrite <- app_assoc.
  apply IH; [done|done|]. rewrite zlen_app. change (zlen [b]) with 1. lia.
Qed.

(** The four histograms together count [l]. *)
Definition quad_of (cs : quad) (l : list Z) : Prop :=
  let '(c1, c2, c3, c4) := cs in exists l1 l2 l3 l4,
    counts_of c1 l1 /\ counts_of c2 l2 /\ counts_of c3 l3 /\ counts_of c4 l4 /\
    (forall s, occurs s l = occurs s l1 + occurs s l2 + occurs s l3 + occurs s l4) /\
    zlen l1 + zlen l2 + zlen l3 + zlen l4 = zlen l.

Lemma hist_word_ok cs l word : quad_of cs l -> bytes word -> zlen word = 4 -> zlen l + 4 < 2 ^ 32 ->
  returns (fun cs' => quad_of cs' (l ++ word)) (hist_word cs word : res E _).
Proof.
  destruct cs as [[[c1 c2] c3] c4]. intros (l1 & l2 & l3 & l4 & H1 & H2 & H3 & H4 & Hsum & Hlen) Hb Hw Hl.
  assert (exists a b c d, word = [a; b; c; d]) as (a & b & c & d & ->).
  { unfold zlen in Hw. destruct word as [|a [|b [|c [|d [|]]]]]; cbn [length] in Hw; try lia. by eexists _, _, _, _. }
  repeat (apply Forall_cons in Hb as [?Hb Hb]). unfold is_byte in *. unfold hist_word.
  pose proof (zlen_nonneg l1). pose proof (zlen_nonneg l2). pose proof (zlen_nonneg l3). pose proof (zlen_nonneg l4).
  set (v := le_val [a; b; c; d]). assert (v = a + 256 * (b + 256 * (c + 256 * d))) as Hv by (unfold v; cbn; lia).
  assert (Z.land v 255 = a /\ Z.land (Z.shiftr v 8) 255 = b /\ Z.land (Z.shiftr v 16) 255 = c /\ Z.shiftr v 24 = d) as (-> & -> & -> & ->).
  { change 255 with (2 ^ 8 - 1). rewrite !land_mod by lia. rewrite !shiftr_div by lia.
    change (2 ^ 8) with 256. change (2 ^ 16) with 65536. change (2 ^ 24) with 16777216. rewrite Hv. split_and!; divlia. }
  eapply returns_bind; [apply (bump_ok c1 l1 a H1); lia|]. intros c1' H1'.
  eapply returns_bind; [apply (bump_ok c2 l2 b H2); lia|]. intros c2' H2'.
  eapply returns_bind; [apply (bump_ok c3 l3 c H3); lia|]. intros c3' H3'.
  eapply returns_bind; [apply (bump_ok c4 l4 d H4); lia|]. intros c4' H4'. cbn [returns].
  exists (l1 ++ [a]), (l2 ++ [b]), (l3 ++ [c]), (l4 ++ [d]). do 4 (split; [done|]). split.
  - intros s. rewrite !occurs_app, Hsum. cbn [occurs]. lia.
  - rewrite !zlen_app. change (zlen [a; b; c; d]) with 4.
    change (zlen [a]) with 1. change (zlen [b]) with 1. change (zlen [c]) with 1. change (zlen [d]) with 1. lia.
Qed.

Lemma quad_of_nil : quad_of (zrepeat 0 256, zrepeat 0 256, zrepeat 0 256, zrepeat 0 256) [].
Proof. exists [], [], [], []. split_and!; try apply counts_of_nil; done. Qed.

(** The words of a stripe, and the stripes. *)
Lemma hist_stripe_ok q l c : quad_of q l -> bytes c -> zlen c = 16 -> zlen (l ++ c) < 2 ^ 32 ->
  returns (fun q' => quad_of q' (l ++ c)) (hist_stripe q c : res E _).
Proof.
  intros Hq Hb Hc Hlen. unfold hist_stripe.
  assert (concat (fst (as_chunks 4 c)) = c) as Hcc.
  { pose proof (as_chunks_app 4 c ltac:(lia)) as Happ. assert (snd (as_chunks 4 c) = []) as Hsnd; [|by rewrite Hsnd, app_nil_r in Happ].
    unfold as_chunks. cbn [snd]. rewrite Hc. unfold zdrop. apply drop_ge.
    change (Z.to_nat (4 * (16 / 4))) with 16%nat. unfold zlen in Hc. lia. }
  destruct (as_chunks_forall is_byte 4 c ltac:(lia) Hb) as [Hf _]. rewrite Forall_forall in Hf.
  pose proof (returns_foldM_concat quad_of (2 ^ 32 - 1) (hist_word (E := E)) (fst (as_chunks 4 c))) as Hfold.
  rewrite Hcc in Hfold. apply Hfold; [|lia|done]. intros st pre w Hw Hl Hr. pose proof (as_chunks_len 4 c w ltac:(lia) Hw) as Hwl. rewrite zlen_app, Hwl in Hl.
  apply (hist_word_ok st pre w Hr); [apply Hf; by apply list_elem_of_In|done|change (2 ^ 32) with 4294967296 in *; lia].
Qed.

Lemma hist_parallel_ok counts src : bytes src -> zlen src < 2 ^ 32 -> zlen counts = 256 ->
  returns (fun c => counts_of c src) (hist_count_parallel counts src : res E _).
Proof.
  intros Hb Hlen Hl. unfold hist_count_parallel. pose proof (as_chunks_app 16 src ltac:(lia)) as Happ.
  destruct (as_chunks_forall is_byte 16 src ltac:(lia) Hb) as [Hf Hr]. pose proof (fun c => as_chunks_len 16 src c ltac:(lia)) as H16.
  destruct (as_chunks 16 src) as [stripes rest]. cbn [fst snd] in *. rewrite Forall_forall in Hf.
  pose proof (f_equal zlen Happ) as Hlz. rewrite zlen_app in Hlz. pose proof (zlen_nonneg rest).
  eapply returns_bind.
  { apply (returns_foldM_concat quad_of (2 ^ 32 - 1) hist_stripe stripes) with (pre := []); [|cbn [app]; lia|apply quad_of_nil].
    intros st pre c Hc Hle Hq. apply hist_stripe_ok; [done|apply Hf; by apply list_elem_of_In|by apply H16|lia]. }
  intros [[[c1 c2] c3] c4] (l1 & l2 & l3 & l4 & H1 & H2 & H3 & H4 & Hsum & Hl4). cbn [app] in *.
  pose proof (zlen_nonneg l2). pose proof (zlen_nonneg l3). pose proof (zlen_nonneg l4).
  eapply returns_bind; [apply (bumps_ok rest c1 l1 H1 Hr); lia|]. intros c1' H1'.
  eapply returns_mono; [apply returns_foldM with (I := fun k c => zlen c = 256 /\
    forall s, 0 <= s < Z.of_nat k -> zget c s = Some (occurs s src))|].
  - split; [done|]. intros s Hs. lia.
  - intros k s c Hs [Hcl Hc]. rewrite <- zget_nat in Hs. pose proof (zget_lt _ _ _ Hs) as Hk. change (zlen (seqZ 0 256)) with 256 in Hk.
    rewrite seqZ_zget in Hs by lia. injection Hs as <-. rewrite Z.add_0_l. set (s := Z.of_nat k) in *.
    unfold hist_merge. rewrite (idx_ok _ _ _ (proj2 H1' s ltac:(lia))), (idx_ok _ _ _ (proj2 H2 s ltac:(lia))),
      (idx_ok _ _ _ (proj2 H3 s ltac:(lia))), (idx_ok _ _ _ (proj2 H4 s ltac:(lia))). cbn [mbind res_bind].
    rewrite store_ok by lia. cbn [returns]. split; [by rewrite zlen_zset|]. intros s' Hs'.
    destruct (Z.eq_dec s' s) as [->|Hne]; [|rewrite zget_zset_ne by lia; apply Hc; lia].
    rewrite zget_zset_eq by lia. rewrite occurs_app. unfold wadd.
    pose proof (occurs_range s l1). pose proof (occurs_range s l2). pose proof (occurs_range s l3).
    pose proof (occurs_range s l4). pose proof (occurs_range s rest).
    set (n1 := occurs s l1 + occurs s rest). set (n2 := occurs s l2). set (n3 := occurs s l3). set (n4 := occurs s l4).
    rewrite (wrap_small 32 (n1 + n2)), (wrap_small 32 (n1 + n2 + n3)), (wrap_small 32 (n1 + n2 + n3 + n4)) by lia.
    apply (f_equal Some). rewrite <- Happ, occurs_app, Hsum. lia.
  - intros c [Hcl Hc]. split; [done|]. intros s Hs. apply Hc. rewrite length_seqZ. lia.
Qed.

(** The last symbol that occurs. *)
Lemma hist_last_symbol_ok counts src m : counts_of counts src -> src <> [] -> Forall (fun b => 0 <= b <= m) src -> m < 256 ->
  returns (fun ms => 0 <= ms <= m /\ In ms src /\ Forall (fun b => 0 <= b <= ms) src) (last_symbol counts m : res E Z).
Proof.
  intros [Hl Hc] Hne Hm Hm256. destruct src as [|b0 src0]; [done|]. set (src := b0 :: src0) in *.
  pose proof Hm as Hm0. apply Forall_cons in Hm0 as [Hb0 _].
  unfold last_symbol. apply returns_loopM with (I := fun k => 0 <= k <= m /\ Forall (fun b => 0 <= b <= k) src) (m := fun k => Z.to_nat k).
  - split; [lia|done].
  - lia.
  - intros k [Hk Hf]. rewrite (idx_ok _ _ _ (Hc k ltac:(lia))). cbn [mbind res_bind].
    pose proof (occurs_pos k src) as Hpos. pose proof (occurs_range k src).
    destruct (Z.eqb_spec (occurs k src) 0) as [H0|H0].
    + assert (Forall (fun b => 0 <= b <= k - 1) src) as Hf'.
      { apply Forall_forall. intros b Hb. rewrite Forall_forall in Hf. specialize (Hf b Hb). cbn beta in Hf.
        assert (b <> k); [|lia]. intros ->. apply list_elem_of_In in Hb. apply Hpos in Hb. lia. }
      pose proof (proj1 (proj1 (Forall_cons _ _ _) Hf')) as Hb0'. cbn beta in Hb0'.
      rewrite (proj2 (Z.ltb_lt _ _)) by lia. cbn. split; [|lia]. split; [lia|done].
    + cbn. split; [done|]. split; [apply Hpos; lia|done].
Qed.

Lemma hist_count_ok counts src m : bytes src -> src <> [] -> zlen src < 2 ^ 32 -> zlen counts = 256 -> m < 256 ->
  Forall (fun b => b <= m) src ->
  returns (fun '(c, largest, ms) => counts_of c src /\ 0 <= ms <= m /\ In ms src /\ Forall (fun b => b <= ms) src /\
      largest = foldl Z.max 0 (ztake (ms + 1) c)) (hist_count counts src m : res E _).
Proof.
  intros Hb Hne Hlen Hl Hm Hmax. unfold hist_count. rewrite (proj2 (forallb_forall _ _)).
  2: { intros b Hin. rewrite Forall_forall in Hmax. apply Z.leb_le, Hmax. by apply list_elem_of_In. }
  cbn [rassert mbind res_bind].
  eapply returns_bind with (P := fun c => counts_of c src).
  { destruct (zlen src <? HIST_SIMPLE_MAX); [|by apply hist_parallel_ok].
    apply (bumps_ok src (zrepeat 0 256) [] counts_of_nil Hb). change (zlen (@nil Z)) with 0. lia. }
  intros c Hc. assert (Forall (fun b => 0 <= b <= m) src) as Hf.
  { apply Forall_forall. intros b Hin. rewrite Forall_forall in Hb, Hmax. specialize (Hb b Hin). specialize (Hmax b Hin).
    unfold is_byte in Hb. cbn beta in *. lia. }
  eapply returns_bind; [by apply (hist_last_symbol_ok c src m)|]. intros ms (Hms & Hin & Hle).
  pose proof (proj1 Hc) as Hcl. rewrite slice_prefix by lia. cbn [mbind res_bind returns].
  split; [done|]. split; [done|]. split; [done|]. split; [|done].
  eapply Forall_impl; [exact Hle|]. cbn. lia.
Qed.
End proofs.

(** The largest of the counts, when none is past the last symbol. *)
Lemma foldl_max_spec l a : a <= foldl Z.max a l /\ Forall (fun x => x <= foldl Z.max a l) l /\
  (foldl Z.max a l = a \/ In (foldl Z.max a l) l).
Proof.
  revert a. induction l as [|x l IH]; intros a; cbn [foldl].
  - split; [lia|]. split; [constructor|by left].
  - destruct (IH (Z.max a x)) as (H1 & H2 & H3). split; [lia|]. split; [constructor; [lia|done]|].
    destruct H3 as [H3|H3]; [|right; by right]. rewrite H3. destruct (Z.max_spec a x) as [[_ ->]|[_ ->]]; [right; by left|by left].
Qed.

Lemma largest_count c src ms : counts_of c src -> src <> [] -> 0 <= ms < 256 -> In ms src -> bytes src ->
  Forall (fun b => b <= ms) src ->
  let largest := foldl Z.max 0 (ztake (ms + 1) c) in
  (forall s, occurs s src <= largest) /\ exists s, 0 <= s <= ms /\ occurs s src = largest.
Proof.
  intros [Hl Hc] Hne Hms Hin Hb Hle largest. destruct (foldl_max_spec (ztake (ms + 1) c) 0) as (H0 & Hall & Hor).
  fold largest in H0, Hall, Hor.
  assert (forall s, 0 <= s <= ms -> occurs s src <= largest) as Hsmall.
  { intros s Hs. apply (Forall_zget _ _ s _ Hall). rewrite zget_ztake by lia. apply Hc. lia. }
  split.
  - intros s. destruct (Z.eq_dec (occurs s src) 0); [lia|]. pose proof (occurs_range s src).
    apply Hsmall. assert (In s src) as Hs by (apply occurs_pos; lia). rewrite Forall_forall in Hle, Hb.
    apply list_elem_of_In in Hs. specialize (Hle s Hs). specialize (Hb s Hs). unfold is_byte in Hb. cbn beta in Hle. lia.
  - destruct Hor as [Hz|Hz].
    + exists ms. split; [lia|]. apply occurs_pos in Hin. specialize (Hsmall ms ltac:(lia)). lia.
    + apply list_elem_of_In, list_elem_of_lookup_1 in Hz as [i Hi]. rewrite <- zget_nat in Hi.
      pose proof (zget_lt _ _ _ Hi) as Hil. rewrite zlen_ztake in Hil by lia. rewrite zget_ztake in Hi by lia.
      rewrite Hc in Hi by lia. injection Hi as Hi. exists (Z.of_nat i). split; [lia|done].
Qed.

Lemma hist_count_full {E} counts src m : bytes src -> src <> [] -> zlen src < 2 ^ 32 -> zlen counts = 256 -> m < 256 ->
  Forall (fun b => b <= m) src ->
  exists c largest ms, hist_count counts src m = (Ok (c, largest, ms) : res E _) /\ counts_of c src /\
    0 <= ms <= m /\ In ms src /\ Forall (fun b => b <= ms) src /\
    (forall s, occurs s src <= largest) /\ exists s, 0 <= s <= ms /\ occurs s src = largest.
Proof.
  intros Hb Hne Hlen Hl Hm Hmax. destruct (returns_inv _ _ (hist_count_ok (E := E) counts src m Hb Hne Hlen Hl Hm Hmax))
    as ([[c largest] ms] & Hrun & Hc & Hms & Hin & Hle & ->).
  eexists c, _, ms. split; [exact Hrun|]. split; [done|]. split; [done|]. split; [done|]. split; [done|].
  apply largest_count; done || lia.
Qed.

(** C39: The histogram is exact, whichever way it is taken. For any nonempty
    input of fewer than 2^32 bytes, none above [m], and whatever [counts]
    held, [hist_count] indexes nothing out of range and its search for the
    last symbol ends; [counts] then holds the number of occurrences of every
    byte, from one histogram in short inputs and from the four interleaved
    ones in long inputs alike; it returns the largest byte that occurs, and
    the largest count, which some byte reaches. *)
Theorem hist_count_correct counts src m :
  bytes src -> src <> [] -> zlen src < 2 ^ 32 -> zlen counts = 256 -> m < 256 -> Forall (fun b => b <= m) src ->
  exists c largest ms, hist_count counts src m = (Ok (c, largest, ms) : res Empty_set _) /\
    (zlen c = 256 /\ forall s, 0 <= s < 256 -> zget c s = Some (occurs s src)) /\
    0 <= ms <= m /\ In ms src /\ Forall (fun b => b <= ms) src /\
    (forall s, occurs s src <= largest) /\ exists s, 0 <= s <= ms /\ occurs s src = largest.
Proof. apply hist_count_full. Qed.

(** 1603 bytes: the interleaved histograms and a rest of three. *)
Lemma hist_count_correct_witness : exists c,
  hist_count (zrepeat 5 256) (zrepeat 7 1600 ++ [3; 9; 3]) 52 = (Ok (c, 1600, 9) : res Empty_set _) /\
  zget c 3 = Some 2 /\ zget c 7 = Some 1600.
Proof.
  assert (bytes (zrepeat 7 1600 ++ [3; 9; 3])) as Hb.
  { apply Forall_app. split; [by apply Forall_zrepeat|]. repeat constructor; unfold is_byte; lia. }
  assert (Forall (fun b => b <= 52) (zrepeat 7 1600 ++ [3; 9; 3])) as Hle.
  { apply Forall_app. split; [by apply Forall_zrepeat|]. repeat constructor; lia. }
  destruct (hist_count_correct (zrepeat 5 256) (zrepeat 7 1600 ++ [3; 9; 3]) 52 Hb ltac:(by destruct (zrepeat 7 1600))
    ltac:(by vm_compute) eq_refl ltac:(lia) Hle) as (c & largest & ms & Hrun & [_ Hc] & _).
  assert (largest = 1600 /\ ms = 9) as [-> ->] by (vm_compute in Hrun; injection Hrun as _ <- <-; done).
  exists c. split; [exact Hrun|]. split; rewrite Hc by lia; vm_compute; reflexivity.
Defined.
