(* ===== verification/Params.v ===== *)
(** * Compression parameters ([src/compress/params.rs])

    The table of levels, the choice of a row by the sizes of the input and the
    dictionary, and the adjustment to them. Shifts carry the check of their
    amount; the debug assertions are assertions of the model. *)

From S2P Require Import Prelude Words Constants.

(** ** Strategies *)

(** [Strategy], in order. *)
Inductive Strategy := Fast | DFast | Greedy | Lazy | Lazy2 | BtLazy2 | BtOpt | BtUltra | BtUltra2.

#[export] Instance strategy_eq_dec : EqDecision Strategy.
Proof. solve_decision. Defined.

(** [strategy as usize]. *)
Definition strategy_id (s : Strategy) : Z :=
  match s with
  | Fast => 1 | DFast => 2 | Greedy => 3 | Lazy => 4 | Lazy2 => 5 | BtLazy2 => 6
  | BtOpt => 7 | BtUltra => 8 | BtUltra2 => 9
  end.

(** [Strategy::bt_scale]. *)
Definition bt_scale (s : Strategy) : Z :=
  match s with
  | Fast | DFast | Greedy | Lazy | Lazy2 => 0
  | BtLazy2 | BtOpt | BtUltra | BtUltra2 => 1
  end.

(** [Strategy::is_opt]. *)
Definition is_opt (s : Strategy) : bool :=
  match s with
  | Fast | DFast | Greedy | Lazy | Lazy2 | BtLazy2 => false
  | BtOpt | BtUltra | BtUltra2 => true
  end.

Inductive ParamSwitch := PsAuto | PsEnable | PsDisable.

Inductive CParamMode := NoAttachDict | AttachDict | CreateCDict.

#[export] Instance cparam_mode_eq_dec : EqDecision CParamMode.
Proof. solve_decision. Defined.

Record CParams := MkCParams {
  window_log : Z;
  chain_log : Z;
  hash_log : Z;
  search_log : Z;
  min_match : Z;
  target_length : Z;
  strategy : Strategy;
}.

Definition ZSTD_MAX_CLEVEL : Z := 22.
Definition ZSTD_CLEVEL_DEFAULT : Z := 3.
Definition ZSTD_WINDOWLOG_ABSOLUTEMIN : Z := 10.
Definition ZSTD_TARGETLENGTH_MAX : Z := Z.shiftl 1 17.
Definition ZSTD_ROW_HASH_TAG_BITS : Z := 8.
Definition ZSTD_HASHLOG3_MAX : Z := 17.

(** [SHORT_CACHE_TAG_BITS] of [src/compress/common.rs]. *)
Definition SHORT_CACHE_TAG_BITS : Z := 8.

(** The strategy column of the table. *)
Module Strat.
Inductive Strat := Fast | DFast | Greedy | Lazy | Lazy2 | BtLazy2 | BtOpt | BtUltra | BtUltra2.
End Strat.

(** [Strat::ported]. *)
Definition ported (s : Strat.Strat) : Strategy :=
  match s with
  | Strat.Fast => Fast
  | Strat.DFast => DFast
  | Strat.Greedy => Greedy
  | Strat.Lazy => Lazy
  | Strat.Lazy2 => Lazy2
  | Strat.BtLazy2 => BtLazy2
  | Strat.BtOpt => BtOpt
  | Strat.BtUltra => BtUltra
  | Strat.BtUltra2 => BtUltra2
  end.

Definition Row : Type := Z * Z * Z * Z * Z * Z * Strat.Strat.

Definition DEFAULT_CPARAMETERS : list (list Row) := [
    [ (19, 12, 13, 1, 6, 1, Strat.Fast);
      (19, 13, 14, 1, 7, 0, Strat.Fast);
      (20, 15, 16, 1, 6, 0, Strat.Fast);
      (21, 16, 17, 1, 5, 0, Strat.DFast);
      (21, 18, 18, 1, 5, 0, Strat.DFast);
      (21, 18, 19, 3, 5, 2, Strat.Greedy);
      (21, 18, 19, 3, 5, 4, Strat.Lazy);
      (21, 19, 20, 4, 5, 8, Strat.Lazy);
      (21, 19, 20, 4, 5, 16, Strat.Lazy2);
      (22, 20, 21, 4, 5, 16, Strat.Lazy2);
      (22, 21, 22, 5, 5, 16, Strat.Lazy2);
      (22, 21, 22, 6, 5, 16, Strat.Lazy2);
      (22, 22, 23, 6, 5, 32, Strat.Lazy2);
      (22, 22, 22, 4, 5, 32, Strat.BtLazy2);
      (22, 22, 23, 5, 5, 32, Strat.BtLazy2);
      (22, 23, 23, 6, 5, 32, Strat.BtLazy2);
      (22, 22, 22, 5, 5, 48, Strat.BtOpt);
      (23, 23, 22, 5, 4, 64, Strat.BtOpt);
      (23, 23, 22, 6, 3, 64, Strat.BtUltra);
      (23, 24, 22, 7, 3, 256, Strat.BtUltra2);
      (25, 25, 23, 7, 3, 256, Strat.BtUltra2);
      (26, 26, 24, 7, 3, 512, Strat.BtUltra2);
      (27, 27, 25, 9, 3, 999, Strat.BtUltra2) ];
    [ (18, 12, 13, 1, 5, 1, Strat.Fast);
      (18, 13, 14, 1, 6, 0, Strat.Fast);
      (18, 14, 14, 1, 5, 0, Strat.DFast);
      (18, 16, 16, 1, 4, 0, Strat.DFast);
      (18, 16, 17, 3, 5, 2, Strat.Greedy);
      (18, 17, 18, 5, 5, 2, Strat.Greedy);
      (18, 18, 19, 3, 5, 4, Strat.Lazy);
      (18, 18, 19, 4, 4, 4, Strat.Lazy);
      (18, 18, 19, 4, 4, 8, Strat.Lazy2);
      (18, 18, 19, 5, 4, 8, Strat.Lazy2);
      (18, 18, 19, 6, 4, 8, Strat.Lazy2);
      (18, 18, 19, 5, 4, 12, Strat.BtLazy2);
      (18, 19, 19, 7, 4, 12, Strat.BtLazy2);
      (18, 18, 19, 4, 4, 16, Strat.BtOpt);
      (18, 18, 19, 4, 3, 32, Strat.BtOpt);
      (18, 18, 19, 6, 3, 128, Strat.BtOpt);
      (18, 19, 19, 6, 3, 128, Strat.BtUltra);
      (18, 19, 19, 8, 3, 256, Strat.BtUltra);
      (18, 19, 19, 6, 3, 128, Strat.BtUltra2);
      (18, 19, 19, 8, 3, 256, Strat.BtUltra2);
      (18, 19, 19, 10, 3, 512, Strat.BtUltra2);
      (18, 19, 19, 12, 3, 512, Strat.BtUltra2);
      (18, 19, 19, 13, 3, 999, Strat.BtUltra2) ];
    [ (17, 12, 12, 1, 5, 1, Strat.Fast);
      (17, 12, 13, 1, 6, 0, Strat.Fast);
      (17, 13, 15, 1, 5, 0, Strat.Fast);
      (17, 15, 16, 2, 5, 0, Strat.DFast);
      (17, 17, 17, 2, 4, 0, Strat.DFast);
      (17, 16, 17, 3, 4, 2, Strat.Greedy);
      (17, 16, 17, 3, 4, 4, Strat.Lazy);
      (17, 16, 17, 3, 4, 8, Strat.Lazy2);
      (17, 16, 17, 4, 4, 8, Strat.Lazy2);
      (17, 16, 17, 5, 4, 8, Strat.Lazy2);
      (17, 16, 17, 6, 4, 8, Strat.Lazy2);
      (17, 17, 17, 5, 4, 8, Strat.BtLazy2);
      (17, 18, 17, 7, 4, 12, Strat.BtLazy2);
      (17, 18, 17, 3, 4, 12, Strat.BtOpt);
      (17, 18, 17, 4, 3, 32, Strat.BtOpt);
      (17, 18, 17, 6, 3, 256, Strat.BtOpt);
      (17, 18, 17, 6, 3, 128, Strat.BtUltra);
      (17, 18, 17, 8, 3, 256, Strat.BtUltra);
      (17, 18, 17, 10, 3, 512, Strat.BtUltra);
      (17, 18, 17, 5, 3, 256, Strat.BtUltra2);
      (17, 18, 17, 7, 3, 512, Strat.BtUltra2);
      (17, 18, 17, 9, 3, 512, Strat.BtUltra2);
      (17, 18, 17, 11, 3, 999, Strat.BtUltra2) ];
    [ (14, 12, 13, 1, 5, 1, Strat.Fast);
      (14, 14, 15, 1, 5, 0, Strat.Fast);
      (14, 14, 15, 1, 4, 0, Strat.Fast);
      (14, 14, 15, 2, 4, 0, Strat.DFast);
      (14, 14, 14, 4, 4, 2, Strat.Greedy);
      (14, 14, 14, 3, 4, 4, Strat.Lazy);
      (14, 14, 14, 4, 4, 8, Strat.Lazy2);
      (14, 14, 14, 6, 4, 8, Strat.Lazy2);
      (14, 14, 14, 8, 4, 8, Strat.Lazy2);
      (14, 15, 14, 5, 4, 8, Strat.BtLazy2);
      (14, 15, 14, 9, 4, 8, Strat.BtLazy2);
      (14, 15, 14, 3, 4, 12, Strat.BtOpt);
      (14, 15, 14, 4, 3, 24, Strat.BtOpt);
      (14, 15, 14, 5, 3, 32, Strat.BtUltra);
      (14, 15, 15, 6, 3, 64, Strat.BtUltra);
      (14, 15, 15, 7, 3, 256, Strat.BtUltra);
      (14, 15, 15, 5, 3, 48, Strat.BtUltra2);
      (14, 15, 15, 6, 3, 128, Strat.BtUltra2);
      (14, 15, 15, 7, 3, 256, Strat.BtUltra2);
      (14, 15, 15, 8, 3, 256, Strat.BtUltra2);
      (14, 15, 15, 8, 3, 512, Strat.BtUltra2);
      (14, 15, 15, 9, 3, 512, Strat.BtUltra2);
      (14, 15, 15, 10, 3, 999, Strat.BtUltra2) ] ].

(** ** Choice and adjustment *)

Definition with_window_log (cp : CParams) (w : Z) : CParams :=
  MkCParams w (chain_log cp) (hash_log cp) (search_log cp) (min_match cp) (target_length cp) (strategy cp).
Definition with_chain_log (cp : CParams) (c : Z) : CParams :=
  MkCParams (window_log cp) c (hash_log cp) (search_log cp) (min_match cp) (target_length cp) (strategy cp).
Definition with_hash_log (cp : CParams) (h : Z) : CParams :=
  MkCParams (window_log cp) (chain_log cp) h (search_log cp) (min_match cp) (target_length cp) (strategy cp).
Definition with_target_length (cp : CParams) (l : Z) : CParams :=
  MkCParams (window_log cp) (chain_log cp) (hash_log cp) (search_log cp) (min_match cp) l (strategy cp).

(** [a.saturating_add(b)] of two [u64]. *)
Definition saturating_add64 (a b : Z) : Z := Z.min (a + b) (2 ^ 64 - 1).

Section params.
Context {E : Type}.

(** [highbit32] of this file. *)
Definition params_highbit32 (v : Z) : res E Z :=
  _ ← rassert (negb (v =? 0));
  Ok (31 - leading_zeros 32 v).

(** [dict_and_window_log]. *)
Definition dict_and_window_log (window_log src_size dict_size : Z) : res E Z :=
  let max_window_size := wshl 64 1 ZSTD_WINDOWLOG_MAX in
  if dict_size =? 0 then Ok window_log
  else
    _ ← rassert (window_log <? 64);
    let window_size := wshl 64 1 window_log in
    let dict_and_window_size := wadd 64 dict_size window_size in
    if saturating_add64 dict_size src_size <=? window_size then Ok window_log
    else if max_window_size <=? dict_and_window_size then Ok ZSTD_WINDOWLOG_MAX
    else
      h ← params_highbit32 (wsub 32 (wrap 32 dict_and_window_size) 1);
      Ok (h + 1).

(** [CParams::cdict_indices_are_tagged]. *)
Definition cdict_indices_are_tagged (cp : CParams) : bool :=
  match strategy cp with Fast | DFast => true | _ => false end.

(** [CParams::row_match_finder_supported]. *)
Definition row_match_finder_supported (cp : CParams) : bool :=
  match strategy cp with
  | Greedy | Lazy | Lazy2 => true
  | Fast | DFast | BtLazy2 | BtOpt | BtUltra | BtUltra2 => false
  end.

(** [CParams::hash_log3]. *)
Definition hash_log3 (cp : CParams) : Z :=
  if is_opt (strategy cp) && (min_match cp =? 3) then Z.min ZSTD_HASHLOG3_MAX (window_log cp) else 0.

(** [CParams::min_gain]. *)
Definition min_gain (src_size : Z) (strategy : Strategy) : Z :=
  let min_log := if strategy_id BtUltra <=? strategy_id strategy then strategy_id strategy - 1 else 6 in
  Z.shiftr src_size min_log + 2.

(** [MIN_SRC_SIZE] of [CParams::adjust_with]. *)
Definition MIN_SRC_SIZE : Z := 513.

(** The sizes [CParams::adjust_with] counts. *)
Definition counted_sizes (src_size : option Z) (dict_size : Z) (mode : CParamMode) : option Z * Z :=
  match mode with
  | NoAttachDict => (src_size, dict_size)
  | CreateCDict =>
      (if negb (dict_size =? 0) then match src_size with None => Some MIN_SRC_SIZE | Some _ => src_size end else src_size,
       dict_size)
  | AttachDict => (src_size, 0)
  end.

(** Its window log for a known input that is small. *)
Definition shrink_window (cp : CParams) (src_size : option Z) (dict_size : Z) : res E CParams :=
  let max_window_resize := wshl 64 1 (ZSTD_WINDOWLOG_MAX - 1) in
  match src_size with
  | Some src =>
      if (src <=? max_window_resize) && (dict_size <=? max_window_resize) then
        let t_size := wrap 32 (wadd 64 src dict_size) in
        let hash_size_min := wshl 32 1 ZSTD_HASHLOG_MIN in
        src_log ← (if t_size <? hash_size_min then Ok ZSTD_HASHLOG_MIN
                   else h ← params_highbit32 (wsub 32 t_size 1); Ok (h + 1));
        Ok (if src_log <? window_log cp then with_window_log cp src_log else cp)
      else Ok cp
  | None => Ok cp
  end.

(** Its hash and chain logs for a known input. *)
Definition shrink_tables (cp : CParams) (src_size : option Z) (dict_size : Z) : res E CParams :=
  match src_size with
  | Some src =>
      dwl ← dict_and_window_log (window_log cp) src dict_size;
      let cycle_log := wsub 32 (chain_log cp) (bt_scale (strategy cp)) in
      let cp := if dwl + 1 <? hash_log cp then with_hash_log cp (dwl + 1) else cp in
      Ok (if dwl <? cycle_log then with_chain_log cp (wsub 32 (chain_log cp) (cycle_log - dwl)) else cp)
  | None => Ok cp
  end.

(** [CParams::adjust_with]. *)
Definition adjust_with (cp : CParams) (src_size : option Z) (dict_size : Z) (mode : CParamMode) : res E CParams :=
  let '(src_size, dict_size) := counted_sizes src_size dict_size mode in
  cp ← shrink_window cp src_size dict_size;
  cp ← shrink_tables cp src_size dict_size;
  let cp := if window_log cp <? ZSTD_WINDOWLOG_ABSOLUTEMIN then with_window_log cp ZSTD_WINDOWLOG_ABSOLUTEMIN else cp in
  let cp :=
    if bool_decide (mode = CreateCDict) && cdict_indices_are_tagged cp then
      let max_short_cache_hash_log := 32 - SHORT_CACHE_TAG_BITS in
      let cp := with_hash_log cp (Z.min (hash_log cp) max_short_cache_hash_log) in
      with_chain_log cp (Z.min (chain_log cp) max_short_cache_hash_log)
    else cp in
  Ok (if row_match_finder_supported cp then
        let row_log := Z.max 4 (Z.min (search_log cp) 6) in
        let max_row_hash_log := 32 - ZSTD_ROW_HASH_TAG_BITS in
        let max_hash_log := max_row_hash_log + row_log in
        if max_hash_log <? hash_log cp then with_hash_log cp max_hash_log else cp
      else cp).

(** [CParams::adjust]. *)
Definition adjust (cp : CParams) (src_size : Z) : res E CParams :=
  adjust_with cp (Some src_size) 0 NoAttachDict.

(** [CParams::for_level_with]. *)
Definition for_level_with (level : Z) (src_size : option Z) (dict_size : Z) (mode : CParamMode) : res E CParams :=
  let row_dict := match mode with AttachDict => 0 | NoAttachDict | CreateCDict => dict_size end in
  let r_size :=
    match src_size with
    | Some size => saturating_add64 size row_dict
    | None => if row_dict =? 0 then 2 ^ 64 - 1 else wadd 64 row_dict 499
    end in
  let table_id := Z.b2z (r_size <=? Z.shiftl 256 10) + Z.b2z (r_size <=? Z.shiftl 128 10) + Z.b2z (r_size <=? Z.shiftl 16 10) in
  let row := if level =? 0 then ZSTD_CLEVEL_DEFAULT else if level <? 0 then 0 else Z.min level ZSTD_MAX_CLEVEL in
  rows ← idx DEFAULT_CPARAMETERS table_id;
  '(w, c, h, s, l, tl, strat) ← idx rows row;
  let cp := MkCParams w c h s l tl (ported strat) in
  let cp :=
    if level <? 0 then
      let clamped := Z.max level (- ZSTD_TARGETLENGTH_MAX) in
      with_target_length cp (- clamped)
    else cp in
  adjust_with cp src_size dict_size mode.

(** [CParams::for_level]. *)
Definition for_level (level src_size : Z) : res E CParams :=
  for_level_with level (Some src_size) 0 NoAttachDict.
End params.

(** ** Every level's parameters are usable *)

(** The bounds of [ZSTD_cParam_getBounds] the code asks of its parameters. *)
Record params_ok (cp : CParams) : Prop := {
  po_window : ZSTD_WINDOWLOG_ABSOLUTEMIN <= window_log cp <= ZSTD_WINDOWLOG_MAX;
  po_chain : 6 <= chain_log cp <= 30;
  po_hash : ZSTD_HASHLOG_MIN <= hash_log cp <= 30;
  po_search : 1 <= search_log cp <= 30;
  po_match : 3 <= min_match cp <= 7;
  po_target : 0 <= target_length cp <= ZSTD_TARGETLENGTH_MAX;
}.

(** A row's, before the window is raised to its minimum. *)
Record row_ok (cp : CParams) : Prop := {
  ro_window : 6 <= window_log cp <= 27;
  ro_chain : 6 <= chain_log cp <= 30;
  ro_hash : 6 <= hash_log cp <= 30;
  ro_search : 1 <= search_log cp <= 30;
  ro_match : 3 <= min_match cp <= 7;
  ro_target : 0 <= target_length cp <= 2 ^ 17;
}.

Lemma bt_scale_range s : 0 <= bt_scale s <= 1.
Proof. destruct s; cbn; lia. Qed.

Lemma params_highbit32_ok {E} v : 1 <= v -> (params_highbit32 v : res E Z) = Ok (Z.log2 v).
Proof.
  intros. unfold params_highbit32. rewrite (proj2 (Z.eqb_neq v 0)) by lia. cbn [negb rassert mbind res_bind].
  rewrite leading_zeros_log2 by lia. f_equal. lia.
Qed.

Section adjust.
Context {E : Type}.

(** The window of the dictionary and the input is no smaller than the input's. *)
Lemma dict_and_window_log_ok w src dict : 6 <= w <= 27 -> 0 <= src -> 0 <= dict < 2 ^ 63 ->
  returns (fun l => w <= l <= 31) (dict_and_window_log w src dict : res E Z).
Proof.
  intros Hw Hs Hd. change (2 ^ 63) with 9223372036854775808 in Hd. unfold dict_and_window_log. destruct (Z.eqb_spec dict 0); [cbn; lia|].
  rewrite (proj2 (Z.ltb_lt w 64)) by lia. cbn [rassert mbind res_bind].
  change (wshl 64 1 ZSTD_WINDOWLOG_MAX) with 2147483648.
  assert (2 ^ 6 <= 2 ^ w <= 2 ^ 27) as Hp by (split; apply Z.pow_le_mono_r; lia).
  change (2 ^ 6) with 64 in Hp. change (2 ^ 27) with 134217728 in Hp.
  unfold wshl. rewrite Z.shiftl_mul_pow2, Z.mul_1_l by lia. rewrite wrap_small by (change (2 ^ 64) with 18446744073709551616; lia).
  unfold wadd. rewrite (wrap_small 64) by (change (2 ^ 64) with 18446744073709551616; lia).
  unfold saturating_add64. destruct (Z.leb_spec (Z.min (dict + src) (2 ^ 64 - 1)) (2 ^ w)); [cbn; lia|].
  destruct (Z.leb_spec 2147483648 (dict + 2 ^ w)); [cbn; unfold ZSTD_WINDOWLOG_MAX; lia|].
  rewrite (wrap_small 32) by (change (2 ^ 32) with 4294967296; lia). unfold wsub. rewrite wrap_small by (change (2 ^ 32) with 4294967296; lia).
  rewrite params_highbit32_ok by lia. cbn [mbind res_bind returns].
  assert (w <= Z.log2 (dict + 2 ^ w - 1)) by (apply Z.log2_le_pow2; lia).
  assert (Z.log2 (dict + 2 ^ w - 1) < 31) by (apply Z.log2_lt_pow2; change (2 ^ 31) with 2147483648; lia). lia.
Qed.

(** A known input's window holds the input and the dictionary, or is the row's. *)
Lemma shrink_window_ok cp src dict : row_ok cp -> (forall s, src = Some s -> 0 <= s) -> 0 <= dict ->
  returns (fun cp' => row_ok cp' /\ window_log cp' <= window_log cp /\ strategy cp' = strategy cp /\
      forall s, src = Some s -> window_log cp' = window_log cp \/ s + dict <= 2 ^ window_log cp')
    (shrink_window cp src dict : res E CParams).
Proof.
  intros Hr Hs Hd. unfold shrink_window. destruct src as [s|]; [|cbn; split_and!; try done; lia]. specialize (Hs s eq_refl).
  change (wshl 64 1 (ZSTD_WINDOWLOG_MAX - 1)) with 1073741824. change (wshl 32 1 ZSTD_HASHLOG_MIN) with 64. change ZSTD_HASHLOG_MIN with 6.
  destruct ((s <=? 1073741824) && _) eqn:Hsm; [|cbn; split_and!; try done; by intros; left].
  apply andb_true_iff in Hsm as [H1%Z.leb_le H2%Z.leb_le]. unfold wadd.
  rewrite (wrap_small 64), wrap_small by (change (2 ^ 64) with 18446744073709551616; change (2 ^ 32) with 4294967296; lia).
  eapply returns_bind with (P := fun l => 6 <= l <= 31 /\ s + dict <= 2 ^ l).
  { destruct (Z.ltb_spec (s + dict) 64); [cbn; change (2 ^ 6) with 64; lia|]. unfold wsub.
    rewrite wrap_small by (change (2 ^ 32) with 4294967296; lia). rewrite params_highbit32_ok by lia. cbn [mbind res_bind returns].
    pose proof (Z.log2_spec (s + dict - 1) ltac:(lia)) as Hsp.
    assert (6 <= Z.log2 (s + dict)) by (apply Z.log2_le_pow2; change (2 ^ 6) with 64; lia).
    assert (Z.log2 (s + dict - 1) < 31) by (apply Z.log2_lt_pow2; change (2 ^ 31) with 2147483648; lia).
    assert (5 <= Z.log2 (s + dict - 1)) by (apply Z.log2_le_pow2; change (2 ^ 5) with 32; lia). rewrite Z.add_1_r. lia. }
  intros l [Hl Hc]. destruct Hr. destruct (Z.ltb_spec l (window_log cp)); cbn [returns window_log strategy with_window_log].
  - split_and!; [constructor; cbn; lia|lia|done|]. intros ? [= <-]. by right.
  - split_and!; [by constructor|lia|done|by intros; left].
Qed.

Lemma shrink_tables_ok cp src dict : row_ok cp -> (forall s, src = Some s -> 0 <= s) -> 0 <= dict < 2 ^ 63 ->
  returns (fun cp' => row_ok cp' /\ window_log cp' = window_log cp /\ strategy cp' = strategy cp) (shrink_tables cp src dict : res E CParams).
Proof.
  intros Hr Hs Hd. unfold shrink_tables. destruct src as [s|]; [|by cbn]. pose proof Hr as []. pose proof (bt_scale_range (strategy cp)).
  eapply returns_bind; [apply dict_and_window_log_ok; [lia|by apply Hs|done]|]. intros l Hl. cbn beta in Hl. unfold wsub.
  rewrite (wrap_small 32 (chain_log cp - _)) by (change (2 ^ 32) with 4294967296; lia).
  destruct (Z.ltb_spec (l + 1) (hash_log cp)), (Z.ltb_spec l (chain_log cp - bt_scale (strategy cp))); cbn [returns with_hash_log with_chain_log window_log chain_log hash_log strategy];
    rewrite ?(wrap_small 32) by (change (2 ^ 32) with 4294967296; lia); (split_and!; [constructor; cbn; lia|done|done]).
Qed.

(** The window limit, the limits of tagged and row tables. *)
Lemma adjust_with_ok cp src dict mode : row_ok cp -> (forall s, src = Some s -> 0 <= s) -> 0 <= dict < 2 ^ 63 ->
  returns (fun cp' => params_ok cp' /\ strategy cp' = strategy cp /\
      (forall s, src = Some s -> mode = NoAttachDict -> window_log cp <= window_log cp' \/ s + dict <= 2 ^ window_log cp') /\
      (mode = CreateCDict -> cdict_indices_are_tagged cp' = true -> hash_log cp' + SHORT_CACHE_TAG_BITS <= 32 /\ chain_log cp' + SHORT_CACHE_TAG_BITS <= 32) /\
      (row_match_finder_supported cp' = true -> hash_log cp' + ZSTD_ROW_HASH_TAG_BITS <= 32 + Z.max 4 (Z.min (search_log cp') 6)))
    (adjust_with cp src dict mode : res E CParams).
Proof.
  intros Hr Hs Hd. unfold adjust_with. destruct (counted_sizes src dict mode) as [src' dict'] eqn:Hc.
  assert ((forall s, src' = Some s -> 0 <= s) /\ 0 <= dict' < 2 ^ 63 /\ (mode = NoAttachDict -> src' = src /\ dict' = dict)) as (Hs' & Hd' & Hno).
  { destruct mode; cbn in Hc; injection Hc as <- <-; (split; [|split; [try done; change (2 ^ 63) with 9223372036854775808; lia|done]]).
    - done.
    - done.
    - intros s. destruct (negb (dict =? 0)), src; try done; try (by apply Hs); by intros [= <-]. }
  eapply returns_bind; [apply shrink_window_ok; [done|done|lia]|]. intros cp1 (Hr1 & _ & Hst1 & Hcov).
  eapply returns_bind; [by apply shrink_tables_ok|]. intros cp2 (Hr2 & Hw2 & Hst2).
  assert (forall s, src = Some s -> mode = NoAttachDict -> window_log cp <= window_log cp2 \/ s + dict <= 2 ^ window_log cp2) as Hcov2.
  { intros s Hss Hm. destruct (Hno Hm) as [-> ->]. rewrite Hw2. destruct (Hcov s Hss) as [->|]; [left; lia|by right]. }
  clear Hcov Hno Hc. rewrite <- Hst1, <- Hst2. destruct Hr2. clear Hr1 Hst1 Hst2 Hw2 Hr.
  change ZSTD_WINDOWLOG_ABSOLUTEMIN with 10. cbv zeta.
  set (cp3 := if window_log cp2 <? 10 then _ else _).
  assert (params_ok cp3 /\ strategy cp3 = strategy cp2 /\ window_log cp2 <= window_log cp3) as (Hp3 & Hst3 & Hw3).
  { unfold cp3. destruct (Z.ltb_spec (window_log cp2) 10); (split_and!; [constructor; cbn; unfold ZSTD_WINDOWLOG_ABSOLUTEMIN, ZSTD_WINDOWLOG_MAX, ZSTD_HASHLOG_MIN, ZSTD_TARGETLENGTH_MAX; try change (Z.shiftl 1 17) with 131072; try change (2 ^ 17) with 131072 in *; lia|done|cbn; lia]). }
  assert (forall s, src = Some s -> mode = NoAttachDict -> window_log cp <= window_log cp3 \/ s + dict <= 2 ^ window_log cp3) as Hcov3.
  { intros s Hss Hm. destruct (Hcov2 s Hss Hm) as [|Hx]; [left; lia|right]. etransitivity; [exact Hx|]. by apply Z.pow_le_mono_r. }
  clearbody cp3. clear Hcov2 Hw3. rewrite <- Hst3. destruct Hp3. cbn [returns].
  destruct (bool_decide_reflect (mode = CreateCDict)) as [Hcd|Hcd].
  all: destruct cp3 as [w c h s m t st]; unfold SHORT_CACHE_TAG_BITS, ZSTD_ROW_HASH_TAG_BITS in *; cbn [hash_log chain_log search_log window_log min_match target_length strategy] in *.
  all: destruct st; cbn [andb cdict_indices_are_tagged row_match_finder_supported strategy with_hash_log with_chain_log hash_log chain_log search_log] in *.
  all: try destruct (Z.ltb_spec (32 - 8 + Z.max 4 (Z.min s 6)) h).
  all: cbn [hash_log chain_log search_log window_log min_match target_length strategy with_hash_log with_chain_log cdict_indices_are_tagged row_match_finder_supported].
  all: unfold ZSTD_HASHLOG_MIN in *.
  all: split; [constructor; cbn [hash_log chain_log search_log window_log min_match target_length with_hash_log with_chain_log]; unfold ZSTD_HASHLOG_MIN; lia|split; [done|split; [done|split]]].
  all: intros; first [done|lia].
Qed.

End adjust.

(** ** The rows *)

(** The size up to which a table's rows keep the whole input in the window. *)
Definition table_window (table_id : Z) : Z := default 0 (zget [10; 18; 17; 14] table_id).

Definition row_fits (table_id : Z) (r : Row) : bool :=
  let '(w, c, h, s, l, tl, _) := r in
  (table_window table_id <=? w) && (w <=? 27) && (6 <=? c) && (c <=? 30) && (6 <=? h) && (h <=? 30) &&
  (1 <=? s) && (s <=? 30) && (3 <=? l) && (l <=? 7) && (0 <=? tl) && (tl <=? 2 ^ 17).

Lemma rows_fit : Forall (fun t => exists rows, zget DEFAULT_CPARAMETERS t = Some rows /\ zlen rows = 23 /\ forallb (row_fits t) rows = true) [0; 1; 2; 3].
Proof. repeat constructor; by eexists. Qed.

(** Four tables of rows 0 to 22, each within the bounds. *)
Lemma rows_ok table_id row : 0 <= table_id < 4 -> 0 <= row < 23 ->
  exists rows r, zget DEFAULT_CPARAMETERS table_id = Some rows /\ zget rows row = Some r /\ row_fits table_id r = true.
Proof.
  intros Ht Hr. assert (zget [0; 1; 2; 3] table_id = Some table_id) as Hid by (assert (table_id = 0 \/ table_id = 1 \/ table_id = 2 \/ table_id = 3) as [->|[->|[->| ->]]] by lia; done).
  destruct (Forall_zget _ _ _ _ rows_fit Hid) as (rows & Hrows & Hl & Hall).
  destruct (zget_is_Some rows row ltac:(lia)) as [r Hrow]. exists rows, r. split_and!; [done|done|].
  rewrite forallb_forall in Hall. apply Hall, list_elem_of_In, list_elem_of_lookup. exists (Z.to_nat row). by apply zget_Some.
Qed.

(** Up to level 3, the rows are of the strategies with one candidate a
    hash. *)
Definition row_is_hashed (r : Row) : bool :=
  let '(_, _, _, _, _, _, strat) := r in match ported strat with Fast | DFast => true | _ => false end.

Lemma low_rows : Forall (fun t => forall rows, zget DEFAULT_CPARAMETERS t = Some rows -> forallb row_is_hashed (ztake 4 rows) = true) [0; 1; 2; 3].
Proof. repeat constructor; by intros rows [= <-]. Qed.

Lemma low_row_hashed t row rows r : 0 <= t < 4 -> 0 <= row <= 3 -> zget DEFAULT_CPARAMETERS t = Some rows -> zget rows row = Some r -> row_is_hashed r = true.
Proof.
  intros Ht Hrow Hrows Hr. assert (zget [0; 1; 2; 3] t = Some t) as Hid by (assert (t = 0 \/ t = 1 \/ t = 2 \/ t = 3) as [->|[->|[->| ->]]] by lia; done).
  pose proof (Forall_zget _ _ _ _ low_rows Hid rows Hrows) as Hall. rewrite forallb_forall in Hall. apply Hall, list_elem_of_In, list_elem_of_lookup.
  exists (Z.to_nat row). apply zget_Some. by rewrite zget_ztake by lia.
Qed.

(** What every choice of parameters guarantees: bounded tables, the limits of
    tagged and of row tables, and a window that holds an input of at most
    256 KiB and its dictionary. *)
Definition params_chosen (src : option Z) (dict : Z) (mode : CParamMode) (cp : CParams) : Prop :=
  params_ok cp /\
  (forall s, src = Some s -> mode = NoAttachDict -> s + dict <= 2 ^ 18 -> s + dict <= 2 ^ window_log cp) /\
  (mode = CreateCDict -> cdict_indices_are_tagged cp = true -> hash_log cp + SHORT_CACHE_TAG_BITS <= 32 /\ chain_log cp + SHORT_CACHE_TAG_BITS <= 32) /\
  (row_match_finder_supported cp = true -> hash_log cp + ZSTD_ROW_HASH_TAG_BITS <= 32 + Z.max 4 (Z.min (search_log cp) 6)).

(** The table of a size, and the window its rows have. *)
Lemma table_of_size r : let t := Z.b2z (r <=? 262144) + Z.b2z (r <=? 131072) + Z.b2z (r <=? 16384) in
  0 <= t < 4 /\ (10 <= table_window t) /\ (r <= 2 ^ 18 -> r <= 2 ^ table_window t).
Proof.
  cbv zeta. change (2 ^ 18) with 262144. destruct (Z.leb_spec r 262144), (Z.leb_spec r 131072), (Z.leb_spec r 16384); try lia; cbn [Z.b2z].
  - change (table_window (1 + 1 + 1)) with 14. change (2 ^ 14) with 16384. lia.
  - change (table_window (1 + 1 + 0)) with 17. change (2 ^ 17) with 131072. lia.
  - change (table_window (1 + 0 + 0)) with 18. change (2 ^ 18) with 262144. lia.
  - change (table_window (0 + 0 + 0)) with 10. lia.
Qed.

Lemma for_level_with_chosen {E} level src dict mode : - 2 ^ 31 <= level < 2 ^ 31 ->
  (forall s, src = Some s -> 0 <= s < 2 ^ 64) -> 0 <= dict < 2 ^ 63 ->
  returns (fun cp => params_chosen src dict mode cp /\ (level <= 3 -> cdict_indices_are_tagged cp = true)) (for_level_with level src dict mode : res E CParams).
Proof.
  intros Hlv Hs Hd. unfold for_level_with. set (row_dict := match mode with AttachDict => 0 | _ => dict end). set (r_size := match src with Some _ => _ | None => _ end).
  change (Z.shiftl 256 10) with 262144. change (Z.shiftl 128 10) with 131072. change (Z.shiftl 16 10) with 16384.
  pose proof (table_of_size r_size) as (Ht & Hw & Hcov). cbv zeta in *. set (t := _ + _ + _) in *.
  set (row := if level =? 0 then _ else _). assert (0 <= row < 23) as Hrow.
  { unfold row, ZSTD_CLEVEL_DEFAULT, ZSTD_MAX_CLEVEL. destruct (Z.eqb_spec level 0), (Z.ltb_spec level 0); lia. }
  destruct (rows_ok t row Ht Hrow) as (rows & r & Hrows & Hr & Hfit).
  rewrite (idx_ok _ _ _ Hrows). cbn [mbind res_bind]. rewrite (idx_ok _ _ _ Hr). cbn [mbind res_bind].
  destruct r as [[[[[[w c] h] s] l] tl] st]. unfold row_fits in Hfit. change (2 ^ 17) with 131072 in Hfit.
  set (cp := if level <? 0 then _ else _).
  assert (row_ok cp /\ window_log cp = w) as [Hcp Hwl].
  { unfold cp. change ZSTD_TARGETLENGTH_MAX with 131072. destruct (Z.ltb_spec level 0);
      (split; [constructor; cbn [with_target_length window_log chain_log hash_log search_log min_match target_length]; try change (2 ^ 17) with 131072; lia|done]). }
  pose proof (adjust_with_ok (E := E) cp src dict mode Hcp (fun n Hn => proj1 (Hs n Hn)) Hd) as Ha.
  eapply returns_mono; [exact Ha|]. intros cp' (Hp & Hstr & Hcv & Htag & Hrw). split.
  2: { intros H3. assert (row <= 3) as Hr3 by (unfold row; change ZSTD_CLEVEL_DEFAULT with 3; destruct (level =? 0), (Z.ltb_spec level 0); unfold ZSTD_MAX_CLEVEL; lia).
       pose proof (low_row_hashed t row rows _ Ht ltac:(lia) Hrows Hr) as Hlow. unfold row_is_hashed in Hlow. unfold cdict_indices_are_tagged. rewrite Hstr.
       assert (strategy cp = ported st) as -> by (unfold cp; by destruct (level <? 0)). exact Hlow. }
  split; [done|]. split; [|done].
  intros n Hn Hm Hle. subst src. destruct (Hcv n eq_refl Hm) as [Hge|]; [|done]. subst mode.
  specialize (Hs n eq_refl). unfold row_dict, r_size, saturating_add64 in Hcov.
  assert (n + dict <= 2 ^ table_window t) as Hx.
  { etransitivity; [|apply Hcov]; change (2 ^ 18) with 262144 in *; change (2 ^ 64) with 18446744073709551616 in *; lia. }
  etransitivity; [exact Hx|]. apply Z.pow_le_mono_r; lia.
Qed.

Lemma for_level_with_ok {E} level src dict mode : - 2 ^ 31 <= level < 2 ^ 31 ->
  (forall s, src = Some s -> 0 <= s < 2 ^ 64) -> 0 <= dict < 2 ^ 63 ->
  returns (params_chosen src dict mode) (for_level_with level src dict mode : res E CParams).
Proof. intros Hl Hs Hd. eapply returns_mono; [by apply for_level_with_chosen|]. by intros cp [? _]. Qed.


