(* ===== verification/SeqEncode.v ===== *)
(** * The sequences section ([src/fse.rs])

    How each of a section's three tables is transmitted
    ([select_encoding_type]), its description and the table to encode with
    ([build_ctable]), and the whole section ([encode_sequences_section_with])
    with its size bound. The proofs are in [SeqEncodeProofs]. The debug
    assertions are assertions of the model. *)

From S2P Require Import Prelude Words Constants Errors BitCStream FseEncode FseNorm Entropy Histogram FrameWrite Params.

(** ** Data *)

Inductive SymbolEncodingType := SBasic | SRle | SCompressed | SRepeat.

#[export] Instance encoding_type_eq_dec : EqDecision SymbolEncodingType.
Proof. solve_decision. Defined.

(** [ty as u8]. *)
Definition encoding_id (ty : SymbolEncodingType) : Z :=
  match ty with SBasic => 0 | SRle => 1 | SCompressed => 2 | SRepeat => 3 end.

Definition DEFAULT_MAX_OFF : Z := 28.
Definition FSE_NCOUNTBOUND : Z := 512.

Definition K_INVERSE_PROBABILITY_LOG256 : list Z := [
    0; 2048; 1792; 1642; 1536; 1453; 1386; 1329; 1280; 1236; 1197; 1162; 1130; 1100; 1073; 1047;
    1024; 1001; 980; 960; 941; 923; 906; 889; 874; 859; 844; 830; 817; 804; 791; 779; 768; 756;
    745; 734; 724; 714; 704; 694; 685; 676; 667; 658; 650; 642; 633; 626; 618; 610; 603; 595; 588;
    581; 574; 567; 561; 554; 548; 542; 535; 529; 523; 517; 512; 506; 500; 495; 489; 484; 478; 473;
    468; 463; 458; 453; 448; 443; 438; 434; 429; 424; 420; 415; 411; 407; 402; 398; 394; 390; 386;
    382; 377; 373; 370; 366; 362; 358; 354; 350; 347; 343; 339; 336; 332; 329; 325; 322; 318; 315;
    311; 308; 305; 302; 298; 295; 292; 289; 286; 282; 279; 276; 273; 270; 267; 264; 261; 258; 256;
    253; 250; 247; 244; 241; 239; 236; 233; 230; 228; 225; 222; 220; 217; 215; 212; 209; 207; 204;
    202; 199; 197; 194; 192; 190; 187; 185; 182; 180; 178; 175; 173; 171; 168; 166; 164; 162; 159;
    157; 155; 153; 151; 149; 146; 144; 142; 140; 138; 136; 134; 132; 130; 128; 126; 123; 121; 119;
    117; 115; 114; 112; 110; 108; 106; 104; 102; 100; 98; 96; 94; 93; 91; 89; 87; 85; 83; 82; 80;
    78; 76; 74; 73; 71; 69; 67; 66; 64; 62; 61; 59; 57; 55; 54; 52; 50; 49; 47; 46; 44; 42; 41; 39;
    37; 36; 34; 33; 31; 30; 28; 26; 25; 23; 22; 20; 19; 17; 16; 14; 13; 11; 10; 8; 7; 5; 4; 2; 1
].

(** ** Costs *)

(** [use_low_prob_count]. *)
Definition use_low_prob_count (nb_seq : Z) : bool := 2048 <=? nb_seq.

Section cost.
Context {E : Type}.

(** [.ok()]. *)
Definition ok_opt {E' A} (m : res E' A) : res E (option A) :=
  match m with Ok a => Ok (Some a) | Err _ => Ok None | Fault => Fault | Stuck => Stuck end.

(** [ncount_cost]; the header it measures is thrown away. *)
Definition ncount_cost (counts : list Z) (max nb_seq fse_log : Z) : res E (option Z) :=
  table_log ← optimal_table_log fse_log nb_seq max;
  r ← ok_opt (normalize_count (zrepeat 0 (MAX_SEQ + 1)) table_log counts nb_seq max (use_low_prob_count nb_seq));
  match r with
  | None => Ok None
  | Some (norm, log) =>
      if log =? 0 then Ok None
      else
        header ← ok_opt (write_ncount norm max table_log);
        Ok (option_map zlen header)
  end.

(** [entropy_cost]. *)
Definition entropy_cost (counts : list Z) (max total : Z) : res E Z :=
  _ ← rassert (0 <? total);
  counts ← slice counts 0 (max + 1);
  cost ← foldM (fun cost count =>
    let norm := 256 * count / total in
    let norm := if negb (count =? 0) && (norm =? 0) then 1 else norm in
    _ ← rassert (count <? total);
    k ← idx K_INVERSE_PROBABILITY_LOG256 norm;
    Ok (wadd 64 cost (wmul 64 count k))) 0 counts;
  Ok (Z.shiftr cost 8).

(** [cross_entropy_cost]. *)
Definition cross_entropy_cost (norm : list Z) (accuracy_log : Z) (counts : list Z) (max : Z) : res E Z :=
  _ ← rassert (accuracy_log <=? 8);
  let shift := 8 - accuracy_log in
  cost ← foldM (fun cost s =>
    n ← idx norm s;
    let norm_acc := if negb (n =? -1) then wrap 32 n else 1 in
    let norm256 := wshl 32 norm_acc shift in
    _ ← rassert ((0 <? norm256) && (norm256 <? 256));
    count ← idx counts s;
    k ← idx K_INVERSE_PROBABILITY_LOG256 norm256;
    Ok (wadd 64 cost (wmul 64 count k))) 0 (seqZ 0 (max + 1));
  Ok (Z.shiftr cost 8).

(** [fse_bit_cost]. *)
Definition fse_bit_cost (tt : SymbolTT) (table_log accuracy_log : Z) : res E Z :=
  let min_nb_bits := Z.shiftr (delta_nb_bits tt) 16 in
  let threshold := wshl 32 (min_nb_bits + 1) 16 in
  _ ← rassert ((table_log <? 16) && (accuracy_log <? 31 - table_log));
  let table_size := Z.shiftl 1 table_log in
  let delta_from_threshold := wsub 32 threshold (wadd 32 (delta_nb_bits tt) table_size) in
  let normalized := Z.shiftr (wshl 32 delta_from_threshold accuracy_log) table_log in
  let bit_multiplier := Z.shiftl 1 accuracy_log in
  _ ← rassert (wadd 32 (delta_nb_bits tt) table_size <=? threshold);
  _ ← rassert (normalized <=? bit_multiplier);
  Ok (wsub 32 (wmul 32 (min_nb_bits + 1) bit_multiplier) normalized).

Definition K_ACCURACY_LOG : Z := 8.

(** [FseCTable::bit_cost]. *)
Definition bit_cost (t : FseCTable) (counts : list Z) (max : Z) : res E (option Z) :=
  if ct_max_symbol t <? max then Ok None
  else
    let bad_cost := Z.shiftl (ct_log t + 1) K_ACCURACY_LOG in
    cost ← foldM (fun cost s =>
      match cost with
      | None => Ok None
      | Some cost =>
          tt ← idx (symbol_tt t) s;
          bit_cost ← fse_bit_cost tt (ct_log t) K_ACCURACY_LOG;
          count ← idx counts s;
          if count =? 0 then Ok (Some cost)
          else if bad_cost <=? bit_cost then Ok None
          else Ok (Some (wadd 64 cost (wmul 64 count bit_cost)))
      end) (Some 0) (seqZ 0 (max + 1));
    Ok (option_map (fun c => Z.shiftr c K_ACCURACY_LOG) cost).

(** ** One table *)

(** [u64::MAX]. *)
Definition U64_MAX : Z := 2 ^ 64 - 1.

(** [select_encoding_type]: the type, and the mode left in [repeat_mode]. *)
Definition select_encoding_type (repeat_mode : Repeat) (counts : list Z) (max most_frequent nb_seq fse_log : Z)
    (prev_ctable : option FseCTable) (default_norm : list Z) (default_norm_log : Z) (is_default_allowed : bool)
    (strategy : Strategy) : res E (SymbolEncodingType * Repeat) :=
  if most_frequent =? nb_seq then
    if is_default_allowed && (nb_seq <=? 2) then Ok (SBasic, RNone) else Ok (SRle, RNone)
  else if strategy_id strategy <? strategy_id Lazy then
    if is_default_allowed then
      let mult := 10 - strategy_id strategy in
      let dynamic_fse_nb_seq_min := Z.shiftr (Z.shiftl 1 default_norm_log * mult) 3 in
      _ ← rassert ((5 <=? default_norm_log) && (default_norm_log <=? 6));
      _ ← rassert ((7 <=? mult) && (mult <=? 9));
      if bool_decide (repeat_mode = RValid) && (nb_seq <? 1000) then Ok (SRepeat, repeat_mode)
      else if (nb_seq <? dynamic_fse_nb_seq_min)
           || (most_frequent <? Z.shiftr nb_seq (default_norm_log - 1)) then Ok (SBasic, RNone)
      else Ok (SCompressed, RCheck)
    else Ok (SCompressed, RCheck)
  else
    basic_cost ← (if is_default_allowed then
                    c ← cross_entropy_cost default_norm default_norm_log counts max; Ok (Some c)
                  else Ok None);
    repeat_cost ← match repeat_mode, prev_ctable with
                  | RNone, _ | _, None => Ok None
                  | _, Some table => bit_cost table counts max
                  end;
    ncount ← ncount_cost counts max nb_seq fse_log;
    compressed_cost ← match ncount with
                      | None => Ok None
                      | Some ncount => e ← entropy_cost counts max nb_seq; Ok (Some (wadd 64 (wshl 64 ncount 3) e))
                      end;
    let repeat_or_max := default U64_MAX repeat_cost in
    let compressed_or_max := default U64_MAX compressed_cost in
    if match basic_cost with
       | Some basic => (basic <=? repeat_or_max) && (basic <=? compressed_or_max)
       | None => false
       end then Ok (SBasic, RNone)
    else if match repeat_cost with Some repeat => repeat <=? compressed_or_max | None => false end
    then Ok (SRepeat, repeat_mode)
    else Ok (SCompressed, RCheck).

(** [build_ctable]: the description, the spare slot after, and the table to
    encode with. *)
Definition build_ctable (fse_log : Z) (ty : SymbolEncodingType) (counts : list Z) (max : Z) (codes : list Z)
    (nb_seq : Z) (default_norm : list Z) (default_norm_log default_max : Z) (table : TableRef FseCTable)
    : res E (option (list Z * FseCTable * FseCTable)) :=
  let spare := tr_spare table in
  match ty with
  | SRle =>
      code ← idx codes 0;
      spare ← ct_build_rle spare (wrap 8 max);
      Ok (Some ([code], spare, spare))
  | SRepeat =>
      Ok (match held_table (tr_held table) with Some t => Some ([], spare, t) | None => None end)
  | SBasic =>
      spare ← ct_build spare default_norm default_max default_norm_log;
      Ok (Some ([], spare, spare))
  | SCompressed =>
      table_log ← optimal_table_log fse_log nb_seq max;
      last ← idx codes (nb_seq - 1);
      count ← idx counts last;
      '(counts, nb_seq_1) ← (if 1 <? count then counts ← store counts last (count - 1); Ok (counts, nb_seq - 1)
                             else Ok (counts, nb_seq));
      _ ← rassert (1 <? nb_seq_1);
      r ← ok_opt (normalize_count (zrepeat 0 (MAX_SEQ + 1)) table_log counts nb_seq_1 max
                    (use_low_prob_count nb_seq_1));
      match r with
      | None => Ok None
      | Some (norm, log) =>
          if log =? 0 then Ok None
          else
            top ← slice norm 0 (max + 1);
            header ← ok_opt (write_ncount top max table_log);
            match header with
            | None => Ok None
            | Some header =>
                spare ← ct_build spare norm max table_log;
                Ok (Some (header, spare, spare))
            end
      end
  end.

(** [build_seq_table]: the description, the spare slot after, the table to
    encode with, what the block does to the table, and the type. *)
Definition build_seq_table (codes counts : list Z) (max most_frequent fse_log : Z) (table : TableRef FseCTable)
    (default_norm : list Z) (default_norm_log default_max : Z) (strategy : Strategy)
    : res E (option (list Z * FseCTable * FseCTable * Next * SymbolEncodingType)) :=
  let nb_seq := zlen codes in
  let is_default_allowed := max <=? default_max in
  '(ty, repeat_mode) ← select_encoding_type (held_repeat (tr_held table)) counts max most_frequent nb_seq fse_log
    (held_table (tr_held table)) default_norm default_norm_log is_default_allowed strategy;
  _ ← rassert (bool_decide (ty = SCompressed \/ ty = SRepeat) || bool_decide (repeat_mode = RNone));
  let next := match ty with SRepeat => NKeep | SCompressed => NNew | SBasic | SRle => NNone end in
  _ ← rassert (bool_decide (next <> NNew) || bool_decide (repeat_mode = RCheck));
  r ← build_ctable fse_log ty counts max codes nb_seq default_norm default_norm_log default_max table;
  Ok (match r with
      | Some (header, spare, t) => Some (header, spare, t, next, ty)
      | None => None
      end).

(** ** The section *)

(** [ncount_write_bound]. *)
Definition ncount_write_bound (max_symbol table_log : Z) : Z :=
  if max_symbol =? 0 then FSE_NCOUNTBOUND
  else ((max_symbol + 1) * table_log + 4 + 2) / 8 + 1 + 2.

(** One sequence's part of the bound: the largest codes and the raw bits. *)
Definition bound_seq (st : Z * Z * Z * Z) (seq : Seq) : res E (Z * Z * Z * Z) :=
  let '(ll_max, of_max, ml_max, extra_bits) := st in
  ll ← ll_code (lit_len seq);
  let of_ := off_code (off_base seq) in
  ml ← ml_code (ml_base seq);
  a ← idx LL_BITS ll;
  b ← idx ML_BITS ml;
  Ok (Z.max ll_max ll, Z.max of_max of_, Z.max ml_max ml, extra_bits + (a + b + of_)).

(** [sequences_section_bound]. *)
Definition sequences_section_bound (seqs : list Seq) : res E Z :=
  let nb_seq := zlen seqs in
  let header := 1 + Z.b2z (128 <=? nb_seq) + Z.b2z (LONGNBSEQ <=? nb_seq) in
  if nb_seq =? 0 then Ok header
  else
    '(ll_max, of_max, ml_max, extra_bits) ← foldM bound_seq (0, 0, 0, 0) seqs;
    let descriptions := ncount_write_bound ll_max LL_FSE_LOG + ncount_write_bound of_max OFF_FSE_LOG
                        + ncount_write_bound ml_max ML_FSE_LOG in
    let state_bits := nb_seq * (LL_FSE_LOG + OFF_FSE_LOG + ML_FSE_LOG) in
    let bitstream := div_ceil (extra_bits + state_bits + 1) 8 in
    let bound := header + 1 + descriptions + bitstream in
    if (2 <=? nb_seq) && (extra_bits <=? 2) then Ok (Z.max bound (ZSTD_BLOCKSIZE_MAX + 1)) else Ok bound.

(** [seq_to_codes]: the three arrays. *)
Definition seq_to_codes (sequences : list Seq) : res E (list Z * list Z * list Z) :=
  foldM (fun '(ll, of_, ml) seq =>
    l ← ll_code (lit_len seq);
    m ← ml_code (ml_base seq);
    Ok (ll ++ [l], of_ ++ [off_code (off_base seq)], ml ++ [m])) ([], [], []) sequences.

(** The [raw_bits] closure: the bits [bits] gives each counted code. *)
Definition raw_total (counts : list Z) (bits : Z -> res E Z) : res E Z :=
  foldM (fun total '(c, n) => b ← bits c; Ok (total + n * b)) 0 (enumerate counts).

(** [encode_sequences_section_with]: what is appended to [out] and what the
    section does to the tables, if there is a section, and the spare slots
    (ll, of, ml) after. *)
Definition encode_sequences_section_with (sequences : list Seq) (tables : FseTables) (strategy : Strategy)
    : res E (option (list Z * FseNext) * (FseCTable * FseCTable * FseCTable)) :=
  let nb_seq := zlen sequences in
  let header := sequence_count_header nb_seq in
  let '(ll_old, of_old, ml_old) := (tr_spare (ft_ll tables), tr_spare (ft_of tables), tr_spare (ft_ml tables)) in
  if nb_seq =? 0 then Ok (Some (header, KEEP), (ll_old, of_old, ml_old))
  else
    '(ll_codes, of_codes, ml_codes) ← seq_to_codes sequences;
    let zeros := zrepeat 0 256 in
    '(ll_counts, ll_most, ll_max) ← hist_count zeros ll_codes MAX_LL;
    '(of_counts, of_most, of_max) ← hist_count zeros of_codes MAX_OFF;
    '(ml_counts, ml_most, ml_max) ← hist_count zeros ml_codes MAX_ML;
    ll_top ← slice ll_counts 0 (ll_max + 1);
    ll_extra ← raw_total ll_top (idx LL_BITS);
    ml_top ← slice ml_counts 0 (ml_max + 1);
    ml_extra ← raw_total ml_top (idx ML_BITS);
    of_top ← slice of_counts 0 (of_max + 1);
    of_extra ← raw_total of_top Ok;
    let extra_bits := ll_extra + ml_extra + of_extra in
    ll ← build_seq_table ll_codes ll_counts ll_max ll_most LL_FSE_LOG (ft_ll tables)
           LL_DEFAULT_NORM LL_DEFAULT_NORM_LOG MAX_LL strategy;
    match ll with
    | None => Ok (None, (ll_old, of_old, ml_old))
    | Some (ll_desc, ll_spare, ll_table, ll_next, ll_type) =>
    of_ ← build_seq_table of_codes of_counts of_max of_most OFF_FSE_LOG (ft_of tables)
            OF_DEFAULT_NORM OF_DEFAULT_NORM_LOG DEFAULT_MAX_OFF strategy;
    match of_ with
    | None => Ok (None, (ll_spare, of_old, ml_old))
    | Some (of_desc, of_spare, of_table, of_next, of_type) =>
    ml ← build_seq_table ml_codes ml_counts ml_max ml_most ML_FSE_LOG (ft_ml tables)
           ML_DEFAULT_NORM ML_DEFAULT_NORM_LOG MAX_ML strategy;
    match ml with
    | None => Ok (None, (ll_spare, of_spare, ml_old))
    | Some (ml_desc, ml_spare, ml_table, ml_next, ml_type) =>
        let last ty desc size := if bool_decide (ty = SCompressed) then zlen desc else size in
        let last_count_size := last ml_type ml_desc (last of_type of_desc (last ll_type ll_desc 0)) in
        let modes := Z.lor (Z.lor (wshl 8 (encoding_id ll_type) 6) (wshl 8 (encoding_id of_type) 4))
                       (wshl 8 (encoding_id ml_type) 2) in
        bitstream ← encode_sequences_body (MkTablesC ll_table of_table ml_table)
                      (zip sequences (zip (zip ll_codes of_codes) ml_codes)) extra_bits;
        if negb (last_count_size =? 0) && (last_count_size + zlen bitstream <? 4) then
          _ ← rassert (last_count_size + zlen bitstream =? 3);
          Ok (None, (ll_spare, of_spare, ml_spare))
        else
          Ok (Some (header ++ [modes] ++ ll_desc ++ of_desc ++ ml_desc ++ bitstream,
                MkFseNext ll_next of_next ml_next), (ll_spare, of_spare, ml_spare))
    end end end.
End cost.
