(* ===== verification/SeqCost.v ===== *)
(** * Costs and the choice of a table's type ([src/fse.rs])

    The costs of [SeqEncode] are finite and in range, and a table is chosen
    to be repeated only when it has every code of the block ([select_ok]). *)

From S2P Require Import Prelude Words Constants Errors FseTable FseCounts FseBuild.
From S2P Require Import BitCStream FseEncode FseEncodeProofs FseNorm FseNormProofs NCountProofs.
From S2P Require Import Entropy Histogram Params SeqEncode.

(** ** What a table gives for a symbol *)

Lemma transform_cost {E} log total p : 5 <= log <= 9 -> 0 <= p <= 2 ^ log ->
  exists b, fse_bit_cost (transform log (2 ^ log) total p) log K_ACCURACY_LOG = (Ok b : res E Z) /\
    0 <= b <= (log + 1) * 256 /\ (b < (log + 1) * 256 -> p <> 0).
Proof.
  intros Hlog Hp. pose proof (size_bounds log Hlog) as Hs.
  assert (forall tt n d, delta_nb_bits tt = (n + 1) * 65536 - 2 ^ log - d -> 0 <= n <= log -> 0 <= d <= 2 ^ log -> 
    fse_bit_cost tt log K_ACCURACY_LOG = (Ok ((n + 1) * 256 - d * 256 / 2 ^ log) : res E Z)) as Hcost.
  { intros tt n d Hd Hn Hd0. unfold fse_bit_cost, K_ACCURACY_LOG. rewrite Hd, !shiftr_div, (Z.shiftl_1_l log) by lia.
    change (2 ^ 16) with 65536. change (Z.shiftl 1 8) with 256.
    assert (((n + 1) * 65536 - 2 ^ log - d) / 65536 = n) as -> by divlia.
    rewrite !(wshl_div 32) by lia. change (2 ^ 16) with 65536. change (2 ^ 8) with 256. change (2 ^ 32) with 4294967296.
    rewrite (Z.mod_small ((n + 1) * 65536)) by lia. unfold wadd, wsub, wmul.
    rewrite (proj2 (Z.ltb_lt log 16)), (proj2 (Z.ltb_lt 8 (31 - log))) by lia. cbn [andb rassert mbind res_bind].
    rewrite (wrap_small 32 (_ - _ - d + _)) by (change (2 ^ 32) with 4294967296; lia).
    rewrite (wrap_small 32 ((n + 1) * 65536 - _)) by (change (2 ^ 32) with 4294967296; lia).
    replace ((n + 1) * 65536 - ((n + 1) * 65536 - 2 ^ log - d + 2 ^ log)) with d by lia.
    rewrite (Z.mod_small (d * 256)) by lia. rewrite (proj2 (Z.leb_le (_ + _) _)) by lia. cbn [rassert mbind res_bind].
    assert (0 <= d * 256 / 2 ^ log <= 256) as Hq.
    { split; [apply Z.div_pos; lia|]. apply Z.div_le_upper_bound; lia. }
    rewrite (proj2 (Z.leb_le _ 256)) by lia. cbn [rassert mbind res_bind].
    rewrite (wrap_small 32 ((n + 1) * 256)) by (change (2 ^ 32) with 4294967296; lia).
    rewrite wrap_small by (change (2 ^ 32) with 4294967296; lia). done. }
  unfold transform. destruct (Z.eqb_spec p 0) as [->|H0]; [|destruct (Z.eqb_spec p 1) as [->|H1]].
  - exists ((log + 1) * 256). rewrite (Hcost _ log 0); cbn [delta_nb_bits]; rewrite ?Z.shiftl_mul_pow2 by lia; [|change (2 ^ 16) with 65536; lia..].
    rewrite Z.mul_0_l, Z.div_0_l by lia. split; [f_equal; lia|]. lia.
  - exists (log * 256). rewrite (Hcost _ (log - 1) 0); cbn [delta_nb_bits]; rewrite ?Z.shiftl_mul_pow2 by lia; [|change (2 ^ 16) with 65536; lia..].
    rewrite Z.mul_0_l, Z.div_0_l by lia. split; [f_equal; lia|]. lia.
  - destruct (count_bits log p Hlog ltac:(lia)) as [Hm Hpm]. set (m := log - highest_bit (p - 1)) in *.
    set (d := p * 2 ^ m - 2 ^ log).
    assert (0 <= d <= 2 ^ log) as Hd by lia.
    assert (0 <= d * 256 / 2 ^ log <= 256) as Hq.
    { split; [apply Z.div_pos; lia|]. apply Z.div_le_upper_bound; lia. }
    exists (m * 256 - d * 256 / 2 ^ log). split; [|lia].
    rewrite (Hcost _ (m - 1) d); cbn [delta_nb_bits]; [f_equal; lia| |lia|done].
    rewrite !Z.shiftl_mul_pow2 by lia. change (2 ^ 16) with 65536. unfold wsub, d.
    rewrite wrap_small; [lia|]. change (2 ^ 32) with 4294967296. unfold d in Hd. lia.
Qed.

(** A table whose costs show the codes it has. *)
Record priced (ct : FseCTable) (covers : Z -> Prop) : Prop := {
  pc_log : 5 <= ct_log ct <= 9;
  pc_max : 0 <= ct_max_symbol ct <= MAX_SEQ;
  pc_cost : forall s, 0 <= s <= ct_max_symbol ct -> exists tt b, zget (symbol_tt ct) s = Some tt /\
    (forall E, fse_bit_cost tt (ct_log ct) K_ACCURACY_LOG = (Ok b : res E Z)) /\
    0 <= b /\ (b < (ct_log ct + 1) * 256 -> covers s);
}.

Lemma ct_ready_priced log ms counts m ct : tiles ms log counts -> ct_ready log counts m ct -> zlen counts = m + 1 ->
  0 <= m <= MAX_SEQ -> priced ct (counted_in counts).
Proof.
  intros Ht ((syms & Hsp & [Hl _ _ Htt]) & _ & _ & Hm) Hlen Hr.
  pose proof Ht as [Hsum Hlow _ Hlog]. unfold ACC_LOG_OFFSET, FSE_MAX_TABLE_LOG, LL_MAX_LOG in Hlog.
  split; [lia|lia|]. rewrite Hl, Hm. intros s Hs. destruct (zget_is_Some counts s ltac:(lia)) as [c Hc].
  pose proof (count_bound log ms counts Ht s c Hc) as Hb.
  destruct (transform_cost (E := Empty_set) log (start counts s) (Z.abs c) Hlog ltac:(lia)) as (b & Hcost & Hb0 & Hpos).
  exists (transform log (2 ^ log) (start counts s) (Z.abs c)), b. split; [by apply Htt|]. split; [|split; [lia|]].
  - intros E. destruct (transform_cost (E := E) log (start counts s) (Z.abs c) Hlog ltac:(lia)) as (b' & Hcost' & _).
    rewrite Hcost'. f_equal. clear -Hcost Hcost'. unfold fse_bit_cost in *.
    repeat (match goal with H : context [rassert ?x] |- _ => destruct x; cbn [rassert mbind res_bind] in * end);
      try discriminate. congruence.
  - intros Hlt. exists c. split; [done|]. specialize (Hpos Hlt). lia.
Qed.

(** ** A block's codes of one kind *)

(** [counts] is the histogram of [codes], up to [ms]. *)
Record tally (codes counts : list Z) (ms : Z) : Prop := {
  tl_counts : counts_of counts codes;
  tl_bytes : bytes codes;
  tl_some : codes <> [];
  tl_len : zlen codes < 2 ^ 17;
  tl_max : 0 <= ms <= MAX_SEQ;
  tl_last : In ms codes;
  tl_top : Forall (fun b => b <= ms) codes;
}.

Lemma occurs_sum n l : 0 <= n -> Forall (fun b => 0 <= b < n) l -> cell_sum ((fun s => occurs s l) <$> seqZ 0 n) = zlen l.
Proof.
  intros Hn. induction 1 as [|b l Hb Hl IH].
  - apply cell_sum_zeros. intros i Hi. rewrite zlen_fmap, zlen_seqZ in Hi by lia. by rewrite zget_fmap, seqZ_zget.
  - rewrite zlen_cons, <- IH. clear IH Hl.
    replace (seqZ 0 n) with (seqZ 0 b ++ b :: seqZ (b + 1) (n - (b + 1))).
    2: { replace n with (b + (n - b)) at 2 by lia. rewrite (seqZ_app 0 b (n - b)), (seqZ_cons (0 + b) (n - b)) by lia.
         do 3 f_equal; lia. }
    rewrite !fmap_app, !fmap_cons, !cell_sum_app, !cell_sum_cons. cbn [occurs]. rewrite Z.eqb_refl. cbn [Z.b2z].
    pose proof (occurs_range b l).
    assert (forall a k, (forall s, a <= s < a + k -> s <> b) ->
      (fun s => Z.b2z (b =? s) + occurs s l) <$> seqZ a k = (fun s => occurs s l) <$> seqZ a k) as Hsame.
    { intros a k Hk. apply list_fmap_ext. intros i s Hi. apply lookup_seqZ in Hi as [-> Hi].
      rewrite (proj2 (Z.eqb_neq _ _)) by (intros He; symmetry in He; revert He; apply Hk; lia). done. }
    rewrite !Hsame by (intros; lia). lia.
Qed.

Lemma tally_prefix codes counts ms : tally codes counts ms ->
  ztake (ms + 1) counts = (fun s => occurs s codes) <$> seqZ 0 (ms + 1).
Proof.
  intros [[Hl Hc] _ _ _ Hm _ _]. unfold MAX_SEQ, MAX_ML in Hm. apply zlist_eq.
  - rewrite zlen_fmap, zlen_seqZ, zlen_ztake; lia.
  - intros i Hi. rewrite zlen_ztake in Hi by lia. rewrite zget_ztake, zget_fmap, seqZ_zget, Hc by lia. done.
Qed.

Lemma tally_sum codes counts ms : tally codes counts ms -> cell_sum (ztake (ms + 1) counts) = zlen codes.
Proof.
  intros Ht. rewrite (tally_prefix _ _ _ Ht). destruct Ht as [_ Hb _ _ Hm _ Htop]. apply occurs_sum; [lia|].
  apply Forall_forall. intros b Hin. rewrite Forall_forall in Hb, Htop. specialize (Hb b Hin). specialize (Htop b Hin).
  unfold is_byte in Hb. cbn beta in *. lia.
Qed.

Lemma tally_nonneg codes counts ms : tally codes counts ms -> Forall (fun c => 0 <= c) (ztake (ms + 1) counts).
Proof.
  intros Ht. rewrite (tally_prefix _ _ _ Ht). apply Forall_fmap, Forall_forall. intros s _. apply occurs_range.
Qed.

Lemma tally_in codes counts ms s : tally codes counts ms -> In s codes <-> exists c, zget counts s = Some c /\ c <> 0 /\ 0 <= s <= ms.
Proof.
  intros [[Hl Hc] Hb _ _ Hm _ Htop]. unfold MAX_SEQ, MAX_ML in Hm. split.
  - intros Hin. rewrite Forall_forall in Hb, Htop. pose proof Hin as Hin'%list_elem_of_In.
    specialize (Hb s Hin'). specialize (Htop s Hin'). unfold is_byte in Hb. cbn beta in Htop.
    exists (occurs s codes). apply occurs_pos in Hin. split; [apply Hc; lia|]. lia.
  - intros (c & Hg & Hne & Hs). rewrite Hc in Hg by lia. injection Hg as <-. pose proof (occurs_range s codes).
    apply occurs_pos. lia.
Qed.

Lemma bit_cost_ok {E} ct covers codes counts ms : priced ct covers -> tally codes counts ms ->
  returns (fun o => o <> None -> ms <= ct_max_symbol ct /\ forall s, In s codes -> covers s) (bit_cost ct counts ms : res E _).
Proof.
  intros [Hlog Hmax Hcost] Ht. pose proof Ht as [[Hl Hc] _ _ _ Hm _ _]. unfold MAX_SEQ, MAX_ML in *.
  unfold bit_cost. destruct (Z.ltb_spec (ct_max_symbol ct) ms) as [|Hle]; [done|].
  eapply returns_bind; [apply returns_foldM with (I := fun k o => o <> None ->
    forall s c, 0 <= s < Z.of_nat k -> zget counts s = Some c -> c <> 0 -> covers s)|].
  - intros _ s c Hs. lia.
  - intros k s o Hk Ho. apply lookup_seqZ in Hk as [-> Hk]. rewrite Z.add_0_l. destruct o as [cost|]; [|by cbn].
    specialize (Ho ltac:(done)). destruct (Hcost (Z.of_nat k) ltac:(lia)) as (tt & b & Htt & Hb & Hb0 & Hcov).
    rewrite (idx_ok _ _ _ Htt). cbn [mbind res_bind]. rewrite Hb. cbn [mbind res_bind].
    rewrite (idx_ok _ _ _ (Hc (Z.of_nat k) ltac:(lia))). cbn [mbind res_bind].
    rewrite Z.shiftl_mul_pow2 by (unfold K_ACCURACY_LOG; lia). change (2 ^ K_ACCURACY_LOG) with 256.
    assert (forall s c, 0 <= s < Z.of_nat (S k) -> zget counts s = Some c -> c <> 0 ->
      covers s \/ s = Z.of_nat k /\ c = occurs (Z.of_nat k) codes) as Hstep.
    { intros s c Hs Hg Hne. destruct (Z.eq_dec s (Z.of_nat k)) as [->|]; [|left; apply (Ho s c); [lia|exact Hg|exact Hne]].
      right. split; [done|]. rewrite Hc in Hg by lia. congruence. }
    destruct (Z.eqb_spec (occurs (Z.of_nat k) codes) 0) as [H0|H0]; [|destruct (Z.leb_spec ((ct_log ct + 1) * 256) b) as [|Hlt]]; cbn [returns].
    + intros _ s c Hs Hg Hne. destruct (Hstep s c Hs Hg Hne) as [|[_ ->]]; done.
    + done.
    + intros _ s c Hs Hg Hne. destruct (Hstep s c Hs Hg Hne) as [|[-> _]]; [done|]. by apply Hcov.
  - intros o Ho. rewrite length_seqZ in Ho. destruct o as [cost|]; [|by cbn]. cbn [option_map returns]. intros _. split; [done|].
    intros s Hs. apply (tally_in _ _ _ s Ht) in Hs as (c & Hg & Hne & Hr). apply (Ho ltac:(done) s c); done || lia.
Qed.

(** ** The other costs *)

Lemma min_table_log_small n ms : 1 <= n < 2 ^ 31 -> 0 <= ms <= MAX_SEQ -> 0 <= min_table_log n ms <= 7.
Proof.
  intros Hn Hm. unfold MAX_SEQ, MAX_ML, min_table_log in *. change (2 ^ 31) with 2147483648 in Hn.
  rewrite !wrap_small by (change (2 ^ 32) with 4294967296; lia).
  rewrite (highest_bit_log2 n) by (change (2 ^ 32) with 4294967296; lia). pose proof (Z.log2_nonneg n).
  pose proof (forall_below_spec 53 (fun m => (0 <=? highest_bit m) && (highest_bit m <=? 5)) eq_refl ms ltac:(lia)) as H5.
  cbn beta in H5. lia.
Qed.

Lemma min_table_log_mono n n' ms : 1 <= n <= n' -> n' < 2 ^ 31 -> 0 <= ms <= MAX_SEQ -> min_table_log n ms <= min_table_log n' ms.
Proof.
  intros Hn Hn' Hm. unfold min_table_log. change (2 ^ 31) with 2147483648 in Hn'.
  rewrite !wrap_small by (change (2 ^ 32) with 4294967296; unfold MAX_SEQ, MAX_ML in Hm; lia).
  rewrite (highest_bit_log2 n), (highest_bit_log2 n') by (change (2 ^ 32) with 4294967296; lia). pose proof (Z.log2_le_mono n n' ltac:(lia)). lia.
Qed.

Lemma optimal_table_log_ok {E} fse_log n ms : 7 <= fse_log <= 9 -> 2 <= n < 2 ^ 31 -> 0 <= ms <= MAX_SEQ ->
  returns (fun log => 5 <= log <= fse_log /\ min_table_log n ms <= log) (optimal_table_log fse_log n ms : res E Z).
Proof.
  intros Hf Hn Hm. pose proof (min_table_log_small n ms ltac:(lia) Hm). unfold optimal_table_log, optimal_table_log_internal.
  rewrite (proj2 (Z.ltb_lt 1 n)) by lia. cbn [rassert mbind res_bind returns]. rewrite (proj2 (Z.eqb_neq fse_log 0)) by lia.
  set (src := wsub _ _ _). unfold FSE_MAX_TABLELOG, FSE_MIN_TABLELOG.
  destruct (Z.ltb_spec src fse_log);
    [destruct (Z.ltb_spec src (min_table_log n ms))|destruct (Z.ltb_spec fse_log (min_table_log n ms))]; lia.
Qed.

Lemma normalized_last lp counts P ms c : Forall2 (fun c n => (n = 0 <-> c = 0) /\ (n = lp \/ 0 <= n)) counts P ->
  zget counts ms = Some c -> c <> 0 -> exists n, zget P ms = Some n /\ n <> 0.
Proof.
  intros H2 Hc Hne. apply zget_Some in Hc as [H0 Hc]. destruct (Forall2_lookup_l _ _ _ _ _ H2 Hc) as (n & Hn & Hz & _).
  exists n. split; [apply zget_Some; split; [done|exact Hn]|tauto].
Qed.

(** A distribution for the codes: the normalization of their histogram,
    perhaps less one of them, into a zeroed array. *)
Lemma normalize_codes_in size counts ms total log l (b : bool) : 0 <= ms <= MAX_SEQ -> ms < zlen counts -> ms < size ->
  Forall (fun c => 0 <= c) (ztake (ms + 1) counts) -> cell_sum (ztake (ms + 1) counts) = total -> 1 <= total < 2 ^ 31 ->
  5 <= log <= 9 -> min_table_log total ms <= log -> ~ In total (ztake (ms + 1) counts) ->
  zget counts ms = Some l -> l <> 0 ->
  exists P l', normalize_count (zrepeat 0 size) log counts total ms b = Ok (P ++ zrepeat 0 (size - (ms + 1)), log) /\
    tiles MAX_SEQ log P /\ zlen P = ms + 1 /\ zget P ms = Some l' /\ l' <> 0 /\
    Forall2 (fun c n => n = 0 <-> c = 0) (ztake (ms + 1) counts) P.
Proof.
  intros Hm Hl Hsize Hc Hs Ht Hlog Hmin Hin Hlast Hne. unfold MAX_SEQ, MAX_ML in *.
  pose proof (normalize_count_ok (zrepeat 0 size) log counts total ms b ltac:(lia) Hl ltac:(rewrite zlen_zrepeat; lia) Hc Hs Ht) as H.
  rewrite (proj2 (Z.eqb_neq log 0)) in H by lia. destruct (normalize_count _ _ _ _ _ _) as [[norm log']|e| |]; [|lia|done..].
  destruct H as (_ & _ & [[_ Hbad]|(-> & _ & P & [HP ->] & [Hsum H2])]); [done|].
  assert (zlen P = ms + 1) as HPl.
  { pose proof (Forall2_length _ _ _ H2) as Hlen. rewrite <- (zlen_ztake counts (ms + 1)) by lia. unfold zlen. by rewrite Hlen. }
  destruct (normalized_last _ _ P ms l H2 ltac:(rewrite zget_ztake by lia; exact Hlast) Hne) as (l' & Hl' & Hne').
  exists P, l'. split.
  { do 3 f_equal. rewrite HPl. unfold zdrop, zrepeat. rewrite drop_replicate. f_equal. lia. }
  split; [|split; [done|split; [done|split; [done|]]]].
  - split; [done| |unfold ACC_LOG_OFFSET, FSE_MAX_TABLE_LOG, LL_MAX_LOG; lia..].
    apply Forall_forall. intros n Hn. apply list_elem_of_lookup_1 in Hn as [i Hi].
    destruct (Forall2_lookup_r _ _ _ _ _ H2 Hi) as (c & _ & _ & Hor). destruct b; lia.
  - eapply Forall2_impl; [exact H2|]. by intros c n [? _].
Qed.

Lemma normalize_codes counts ms total log l (b : bool) : 0 <= ms <= MAX_SEQ -> ms < zlen counts ->
  Forall (fun c => 0 <= c) (ztake (ms + 1) counts) -> cell_sum (ztake (ms + 1) counts) = total -> 1 <= total < 2 ^ 31 ->
  5 <= log <= 9 -> min_table_log total ms <= log -> ~ In total (ztake (ms + 1) counts) ->
  zget counts ms = Some l -> l <> 0 ->
  exists P l', normalize_count (zrepeat 0 (MAX_SEQ + 1)) log counts total ms b = Ok (P ++ zrepeat 0 (MAX_SEQ - ms), log) /\
    tiles MAX_SEQ log P /\ zlen P = ms + 1 /\ zget P ms = Some l' /\ l' <> 0 /\
    Forall2 (fun c n => n = 0 <-> c = 0) (ztake (ms + 1) counts) P.
Proof.
  intros. replace (MAX_SEQ - ms) with (MAX_SEQ + 1 - (ms + 1)) by lia. apply (normalize_codes_in _ _ _ _ _ l); done || lia.
Qed.

Lemma zget_app_prefix {A} (P Q : list A) i : i < zlen P -> zget (P ++ Q) i = zget P i.
Proof. apply zget_app_l. Qed.

(** The shared description of such a distribution. *)
Lemma write_codes P rest log l : tiles MAX_SEQ log P -> zget P (zlen P - 1) = Some l -> l <> 0 ->
  exists bs, write_ncount (P ++ rest) (zlen P - 1) log = Ok bs /\ bytes bs /\ 2 <= zlen bs.
Proof.
  intros [Hsum Hlow _ Hlog] Hl Hne. unfold ACC_LOG_OFFSET, FSE_MAX_TABLE_LOG, LL_MAX_LOG in Hlog.
  destruct (write_ncount_ok (P ++ rest) P (fun i Hi => zget_app_l P rest i Hi) log l ltac:(lia) Hlow Hsum Hl Hne)
    as (fs & bs & Hcoded & Hw & Hb & _ & Hlen & _).
  exists bs. split; [done|]. split; [done|]. pose proof (pow2_le 5 log ltac:(lia)) as H5. change (2 ^ 5) with 32 in H5.
  assert (5 <= width fs) as Hwd.
  { inversion Hcoded as [|s r c fs' Hg Hr Ha Hc Hfs|]; subst; [lia|].
    destruct (count_field_range (2 ^ log + 1) c ltac:(lia) Hc Ha) as [_ Hk].
    pose proof (proj1 (coded_width _ _ _ _ _ Hfs)). destruct (count_field _ c). rewrite width_cons. cbn [snd] in Hk.
    pose proof (Z.log2_le_mono 32 (2 ^ log + 1) ltac:(lia)) as Hlg. change (Z.log2 32) with 5 in Hlg. lia. }
  rewrite Hlen, width_cons. unfold div_ceil. divlia.
Qed.

Lemma ncount_cost_ok {E} codes counts ms fse_log : tally codes counts ms -> 7 <= fse_log <= 9 -> 2 <= zlen codes ->
  returns (fun _ => True) (ncount_cost counts ms (zlen codes) fse_log : res E _).
Proof.
  intros Ht Hf Hn. pose proof Ht as [[Hl Hc] _ _ Hlen Hm Hlast _]. change (2 ^ 17) with 131072 in Hlen.
  pose proof (proj1 (tally_in _ _ _ ms Ht) Hlast) as (c & Hg & Hne & _). pose proof (tally_sum _ _ _ Ht) as Hsum.
  pose proof (tally_nonneg _ _ _ Ht) as Hnn. unfold ncount_cost.
  eapply returns_bind; [apply (optimal_table_log_ok fse_log (zlen codes) ms Hf); [change (2 ^ 31) with 2147483648; lia|done]|].
  intros log [Hlog Hmin].
  pose proof (normalize_count_ok (zrepeat 0 (MAX_SEQ + 1)) log counts (zlen codes) ms (use_low_prob_count (zlen codes))
    ltac:(unfold MAX_SEQ, MAX_ML in *; lia) ltac:(unfold MAX_SEQ, MAX_ML in *; lia)
    ltac:(unfold MAX_SEQ, MAX_ML in *; rewrite zlen_zrepeat; lia) Hnn Hsum ltac:(change (2 ^ 31) with 2147483648; lia)) as H.
  rewrite (proj2 (Z.eqb_neq log 0)) in H by lia.
  destruct (in_dec Z.eq_dec (zlen codes) (ztake (ms + 1) counts)) as [Hin|Hin].
  - destruct (normalize_count _ _ _ _ _ _) as [[norm log']|e| |]; cbn [ok_opt mbind res_bind]; [|done|done|done].
    destruct H as (_ & _ & [[-> _]|(_ & Hno & _)]); done.
  - destruct (normalize_codes counts ms (zlen codes) log c (use_low_prob_count (zlen codes)) Hm ltac:(unfold MAX_SEQ, MAX_ML in *; lia)
      Hnn Hsum ltac:(change (2 ^ 31) with 2147483648; lia) ltac:(lia) Hmin Hin Hg Hne) as (P & l' & Hnorm & Htl & HPl & Hl' & Hne' & _).
    rewrite Hnorm. cbn [ok_opt mbind res_bind]. rewrite (proj2 (Z.eqb_neq log 0)) by lia.
    destruct (write_codes P (zrepeat 0 (MAX_SEQ - ms)) log l' Htl ltac:(by replace (zlen P - 1) with ms by lia) Hne') as (bs & Hw & _).
    replace (zlen P - 1) with ms in Hw by lia. rewrite Hw. by cbn.
Qed.

Lemma entropy_cost_ok {E} counts ms total : 0 <= ms < zlen counts -> 0 < total ->
  Forall (fun c => 0 <= c < total) (ztake (ms + 1) counts) ->
  returns (fun _ => True) (entropy_cost counts ms total : res E Z).
Proof.
  intros Hm Ht Hc. unfold entropy_cost. rewrite (proj2 (Z.ltb_lt 0 total)) by done. cbn [rassert mbind res_bind].
  rewrite slice_prefix by lia. cbn [mbind res_bind]. eapply returns_bind; [|by intros c _].
  apply returns_foldM with (I := fun _ _ => True); [done|]. intros k c cost Hk _.
  pose proof (proj1 (Forall_lookup _ _) Hc k c Hk) as Hr. cbn beta in Hr.
  rewrite (proj2 (Z.ltb_lt c total)) by lia. cbn [rassert mbind res_bind].
  assert (0 <= 256 * c / total < 256) as Hq by (split; [apply Z.div_pos; lia|apply Z.div_lt_upper_bound; lia]).
  destruct (zget_is_Some K_INVERSE_PROBABILITY_LOG256 (if negb (c =? 0) && (256 * c / total =? 0) then 1 else 256 * c / total)) as [x Hx].
  { change (zlen K_INVERSE_PROBABILITY_LOG256) with 256. destruct (negb _ && _); lia. }
  by rewrite (idx_ok _ _ _ Hx).
Qed.

(** A default distribution that covers the codes. *)
Definition coverable (norm : list Z) (log max : Z) : bool :=
  (1 <=? log) && (log <=? 8) && (max <? zlen norm) &&
  forallb (fun n => (n =? -1) || ((1 <=? n) && (n <? 2 ^ log))) (ztake (max + 1) norm).

Lemma cross_entropy_cost_ok {E} norm log counts max : coverable norm log max = true -> 0 <= max < zlen counts ->
  returns (fun _ => True) (cross_entropy_cost norm log counts max : res E Z).
Proof.
  unfold coverable. rewrite !andb_true_iff, forallb_forall. intros [[[H0%Z.leb_le H8%Z.leb_le] Hl%Z.ltb_lt] Hn] Hm. unfold cross_entropy_cost. rewrite (proj2 (Z.leb_le log 8)) by done. cbn [rassert mbind res_bind].
  eapply returns_bind; [|by intros c _]. apply returns_foldM with (I := fun _ _ => True); [done|].
  intros k s cost Hk _. apply lookup_seqZ in Hk as [-> Hk]. rewrite Z.add_0_l. set (s := Z.of_nat k) in *.
  destruct (zget_is_Some norm s ltac:(lia)) as [n Hns]. rewrite (idx_ok _ _ _ Hns). cbn [mbind res_bind].
  assert (n = -1 \/ 1 <= n < 2 ^ log) as Hr.
  { specialize (Hn n). rewrite orb_true_iff, andb_true_iff, Z.eqb_eq, Z.leb_le, Z.ltb_lt in Hn. apply Hn.
    apply list_elem_of_In, (list_elem_of_lookup_2 _ k). rewrite <- zget_nat. fold s. rewrite zget_ztake by lia. done. }
  assert (1 <= (if negb (n =? -1) then wrap 32 n else 1) < 2 ^ log \/ (if negb (n =? -1) then wrap 32 n else 1) = 1) as Hacc.
  { destruct Hr as [->|Hr]; [by right|]. rewrite (proj2 (Z.eqb_neq n (-1))) by lia. cbn [negb].
    pose proof (pow2_le log 32 ltac:(lia)). rewrite wrap_small by lia. by left. }
  set (a := if negb _ then _ else _) in *. clearbody a. rewrite wshl_div by lia.
  assert (2 ^ log * 2 ^ (8 - log) = 256) as H256 by (rewrite <- pow2_add by lia; replace (log + (8 - log)) with 8 by lia; done).
  pose proof (pow2_pos (8 - log) ltac:(lia)) as Hp. pose proof (pow2_pos log ltac:(lia)) as Hpl.
  pose proof (pow2_le 1 log ltac:(lia)) as H2. change (2 ^ 1) with 2 in H2.
  assert (1 <= a * 2 ^ (8 - log) < 256) as Ha by nia.
  rewrite Z.mod_small by (change (2 ^ 32) with 4294967296; lia).
  rewrite (proj2 (Z.ltb_lt 0 _)), (proj2 (Z.ltb_lt _ 256)) by lia. cbn [andb rassert mbind res_bind].
  destruct (zget_is_Some counts s ltac:(lia)) as [c Hc]. rewrite (idx_ok _ _ _ Hc). cbn [mbind res_bind].
  destruct (zget_is_Some K_INVERSE_PROBABILITY_LOG256 (a * 2 ^ (8 - log))) as [x Hx]; [change (zlen _) with 256; lia|].
  by rewrite (idx_ok _ _ _ Hx).
Qed.

(** ** The choice *)

(** A held table is priced, and a [Valid] one has every code of the block. *)
Definition held_ok (covers : Z -> Prop) (h : Held FseCTable) (codes : list Z) : Prop :=
  match h with
  | HNone => True
  | HCheck ct => priced ct covers
  | HValid ct => priced ct covers /\ forall s, In s codes -> covers s
  end.

(** What a type promises: a default only where it is allowed, one code for a
    run length, a held table that has the codes, two codes for a new one. *)
Definition choice_ok (covers : Z -> Prop) (h : Held FseCTable) (codes : list Z) (most : Z) (allowed : bool)
    (r : SymbolEncodingType * Repeat) : Prop :=
  let '(ty, mode) := r in
  match ty with
  | SBasic => mode = RNone /\ allowed = true
  | SRle => mode = RNone /\ most = zlen codes
  | SCompressed => mode = RCheck /\ most <> zlen codes
  | SRepeat => exists ct, held_table h = Some ct /\ forall s, In s codes -> covers s
  end.

Lemma select_ok {E} covers h codes counts ms most fse_log norm norm_log max strategy :
  held_ok covers h codes -> tally codes counts ms -> (forall s, occurs s codes <= most) ->
  (exists s, 0 <= s <= ms /\ occurs s codes = most) -> 7 <= fse_log <= 9 ->
  5 <= norm_log <= 6 -> (ms <= max -> coverable norm norm_log ms = true) ->
  returns (choice_ok covers h codes most (ms <=? max))
    (select_encoding_type (held_repeat h) counts ms most (zlen codes) fse_log (held_table h) norm norm_log
       (ms <=? max) strategy : res E _).
Proof.
  intros Hh Ht Hle (s0 & Hs0 & Hmost) Hf Hnl Hcov. pose proof Ht as [[Hl Hc] _ Hsome Hlen Hm Hlast _].
  unfold MAX_SEQ, MAX_ML in Hm. unfold select_encoding_type.
  destruct (Z.eqb_spec most (zlen codes)) as [He|Hne]; [by destruct ((ms <=? max) && (zlen codes <=? 2)) eqn:Ea;
    cbn; [apply andb_true_iff in Ea as [-> _]|]|].
  pose proof (occurs_range s0 codes) as Hr. assert (most < zlen codes) as Hlt by lia.
  assert (2 <= zlen codes) as H2.
  { apply occurs_pos in Hlast. specialize (Hle ms). lia. }
  assert (Hvalid : held_repeat h = RValid -> exists ct, held_table h = Some ct /\ forall s, In s codes -> covers s).
  { destruct h as [|ct|ct]; cbn; try done. intros _. destruct Hh as [_ Hh]. by exists ct. }
  destruct (strategy_id strategy <? strategy_id Lazy) eqn:Es; [destruct (Z.leb_spec ms max) as [Hd|Hd]|].
  - rewrite (proj2 (Z.leb_le 5 _)), (proj2 (Z.leb_le _ 6)) by lia. cbn [andb rassert mbind res_bind].
    assert ((7 <=? 10 - strategy_id strategy) && (10 - strategy_id strategy <=? 9) = true) as -> by (by destruct strategy).
    cbn [rassert mbind res_bind]. destruct (bool_decide (held_repeat h = RValid)) eqn:Ev; cbn [andb].
    + apply bool_decide_eq_true in Ev. destruct (zlen codes <? 1000); [by apply Hvalid|]. by destruct (_ || _).
    + by destruct (_ || _).
  - done.
  - clear Es. eapply returns_bind with (P := fun c => c <> None -> ms <= max).
    { destruct (Z.leb_spec ms max); [|by cbn]. eapply returns_bind; [apply cross_entropy_cost_ok; [by apply Hcov|lia]|]. by cbn. }
    intros basic Hbasic. eapply returns_bind with (P := fun c => c <> None -> exists ct, held_table h = Some ct /\ forall s, In s codes -> covers s).
    { assert (forall ct, priced ct covers -> held_table h = Some ct -> returns (fun c => c <> None ->
        exists ct, held_table h = Some ct /\ forall s, In s codes -> covers s) (bit_cost ct counts ms : res E _)) as Hb.
      { intros ct Hp Hct. eapply returns_mono; [by apply (bit_cost_ok ct covers codes)|]. intros c Hcc Hnn. exists ct.
        split; [done|]. by apply Hcc. }
      destruct h as [|ct|ct]; cbn [held_repeat held_table]; [by cbn|apply Hb; done|apply Hb; [apply Hh|done]]. }
    intros repeat Hrep. eapply returns_bind; [by apply (ncount_cost_ok codes)|]. intros ncount _.
    eapply returns_bind with (P := fun _ => True).
    { destruct ncount as [n|]; [|done]. eapply returns_bind; [apply entropy_cost_ok; [lia|lia|]|by cbn].
      rewrite (tally_prefix _ _ _ Ht). apply Forall_fmap, Forall_forall. intros s _. cbn.
      pose proof (occurs_range s codes). specialize (Hle s). lia. }
    intros compressed _.
    destruct basic as [b|].
    + destruct ((b <=? default U64_MAX repeat) && (b <=? default U64_MAX compressed)).
      { cbn. split; [done|]. apply Z.leb_le. by apply Hbasic. }
      destruct repeat as [r|]; [|done]. destruct (r <=? default U64_MAX compressed); [|done]. by apply Hrep.
    + destruct repeat as [r|]; [|done]. destruct (r <=? default U64_MAX compressed); [|done]. by apply Hrep.
Qed.
