(* ===== verification/SeqEncodeProofs.v ===== *)
(** * The sequences section: what the encoder writes, the decoder reads

    One table at a time ([table_ok]): whichever type is chosen, the encoder's
    table and the one the decoder is left with mirror each other, and so do
    the tables both hold for the next block ([synced]). *)

From S2P Require Import Prelude Words Constants Errors FseTable FseCounts FseBuild Headers HeaderUnits FrameWrite.
From S2P Require Import BitCStream FseEncode FseEncodeProofs FseNorm FseNormProofs NCountProofs.
From S2P Require Import Copy SeqTables SeqExec SeqDecode SeqRun SeqStream Entropy Histogram Params SeqEncode SeqCost.

(** ** A kind of table on both sides *)

Abbreviation codes_of kind := (Some (base kind, kind_bits kind)).

(** The encoder's constants for the kind of table [t]. *)
Record enc_kind (t : Z) (kind : SeqTableKind) (fse_log : Z) (norm : list Z) (norm_log max : Z) : Prop := {
  ek_kind : zget SEQ_TABLES t = Some kind;
  ek_log : fse_log = max_log kind /\ 7 <= fse_log <= 9;
  ek_norm : norm = default_distribution kind;
  ek_norm_log : norm_log = default_log kind /\ 5 <= norm_log <= 6;
  ek_max : zlen norm = max + 1 /\ 0 <= max <= MAX_SEQ;
  ek_codes : max_code kind <= MAX_SEQ;
  ek_coverable : forall ms, 0 <= ms <= max -> coverable norm norm_log ms = true;
}.

Lemma coverable_below norm log max ms : coverable norm log max = true -> 0 <= ms <= max -> coverable norm log ms = true.
Proof.
  unfold coverable. rewrite !andb_true_iff. intros [[[H0 H8] Hl%Z.ltb_lt] Hn] Hm.
  split; [split; [done|apply Z.ltb_lt; lia]|]. rewrite <- (ztake_ztake norm (ms + 1) (max + 1)) by lia.
  unfold ztake at 1. rewrite <- (take_drop (Z.to_nat (ms + 1)) (ztake (max + 1) norm)), forallb_app in Hn.
  by apply andb_true_iff in Hn as [Hn _].
Qed.

Ltac solve_kind := split; [done|split; [done|lia]|done|split; [done|lia]|split; [done|unfold MAX_SEQ, MAX_ML; cbn; lia]
  |vm_compute; congruence|intros ms Hms; eapply coverable_below; [|exact Hms]; by vm_compute].

Lemma ll_enc_kind : enc_kind 0 ll_kind LL_FSE_LOG LL_DEFAULT_NORM LL_DEFAULT_NORM_LOG MAX_LL.
Proof. unfold LL_FSE_LOG, LL_DEFAULT_NORM_LOG, MAX_LL. solve_kind. Qed.

Lemma of_enc_kind : enc_kind 1 of_kind OFF_FSE_LOG OF_DEFAULT_NORM OF_DEFAULT_NORM_LOG DEFAULT_MAX_OFF.
Proof. unfold OFF_FSE_LOG, OF_DEFAULT_NORM_LOG, DEFAULT_MAX_OFF. solve_kind. Qed.

Lemma ml_enc_kind : enc_kind 2 ml_kind ML_FSE_LOG ML_DEFAULT_NORM ML_DEFAULT_NORM_LOG MAX_ML.
Proof. unfold ML_FSE_LOG, ML_DEFAULT_NORM_LOG, MAX_ML. solve_kind. Qed.

(** ** A distribution's two tables *)

Lemma built_mirrors t kind ms log counts m ct tb syms : zget SEQ_TABLES t = Some kind -> tiles ms log counts -> ms <= 255 ->
  log <= max_log kind -> ct_ready log counts m ct -> built (codes_of kind) log counts tb syms ->
  mirrors kind (codes_of kind) ct tb (counted_in counts).
Proof.
  intros Hk Ht Hms Hlog Hct Hb. split; [by eapply built_seq_table|]. unfold table_cells.
  rewrite (built_size _ _ _ _ _ Hb), (built_log _ _ _ _ _ Hb). by eapply ct_ready_codec.
Qed.

(** The decoder's table of a description. *)
Lemma build_decoder_described t tb P Q rest log max_log cs l : tiles MAX_SEQ log P -> log <= max_log ->
  max_log <= FSE_MAX_TABLE_LOG -> zlen P <= max_symbol tb + 1 -> max_symbol tb <= MAX_SEQ ->
  codes_cover cs (zlen P) -> zget P (zlen P - 1) = Some l -> l <> 0 -> 2 <= zlen (filter (fun c => c <> 0) P) -> bytes rest ->
  write_ncount (P ++ Q) (zlen P - 1) log = Ok t ->
  returns (fun '(tb', n) => n = zlen t /\ max_symbol tb' = max_symbol tb /\ exists syms, built cs log P tb' syms)
    (build_decoder tb (t ++ rest) max_log cs).
Proof.
  intros Ht Hlog Hml Hlen Hmax Hcov Hl Hne H2 Hrest Hw. pose proof Ht as [Hsum Hlow _ Hlg].
  destruct (ncount_roundtrip_core (FseTable.reset tb) (P ++ Q) P log max_log l rest (fun i Hi => zget_app_l P Q i Hi) Hlow Hsum Hl Hne ltac:(unfold ACC_LOG_OFFSET in Hlg; lia)
    Hml Hlen Hrest) as (bs & Hbs & Hb & Hread). rewrite Hw in Hbs. injection Hbs as <-.
  unfold build_decoder. rewrite Hread. cbn [mbind res_bind described symbol_probabilities].
  rewrite (proj2 (Z.ltb_ge _ 2)) by lia. cbn [fail_if mbind res_bind].
  pose proof (build_decoding_table_built (described (FseTable.reset tb) log P) cs) as Hbuilt. cbn [described accuracy_log symbol_probabilities] in Hbuilt.
  eapply returns_bind; [apply Hbuilt; [|done]|].
  - apply (tiles_mono MAX_SEQ); [done|by vm_compute].
  - intros tb' [Hm Hs]. cbn. done.
Qed.

(** The predefined table, and the encoder's. *)
Lemma basic_mirrors t kind fse_log norm norm_log max spare : enc_kind t kind fse_log norm norm_log max ->
  zlen (state_table spare) = 512 ->
  exists ct tb, ct_build spare norm max norm_log = (Ok ct : dec _) /\ zlen (state_table ct) = 512 /\
    predefined_table t = Ok tb /\ mirrors kind (codes_of kind) ct tb (counted_in norm).
Proof.
  intros [Hk [Hlog Hlr] Hnorm [Hnl Hnr] [Hlen Hmax] Hcodes Hcov] H512.
  destruct (predefined_ok t kind Hk) as (tb & Htb & Hok). unfold predefined_table in Htb. rewrite (idx_ok _ _ _ Hk) in Htb.
  cbn [mbind res_bind] in Htb. rewrite <- Hnorm, <- Hnl in Htb.
  destruct (seq_kind t kind Hk) as (_ & Hcr & Hml & Hml0 & Hcv).
  pose proof (build_from_probabilities_safe (FseTable.new (max_code kind)) norm_log norm (codes_of kind) Hcr Hcv) as Hs.
  destruct (build_from_probabilities _ _ _ _) as [tb'| | |] eqn:Ebuild; try done. injection Htb as ->.
  destruct Hs as (Ht & _ & syms & Hb).
  assert (ztake (max + 1) norm = norm) as Htake by (rewrite <- Hlen; unfold ztake, zlen; apply take_ge; lia).
  assert (tiles MAX_SEQ norm_log norm) as Ht'.
  { destruct Ht as [H1 H2 _ H4]. split; [done|done|lia|done]. }
  pose proof (ct_build_ok (E := DecodeError) spare norm max norm_log H512 Hmax ltac:(lia) ltac:(by rewrite Htake)) as Hbuild.
  rewrite Htake in Hbuild. destruct (returns_inv _ _ Hbuild) as (ct & Hct & Hready).
  exists ct, tb. split; [done|]. split; [apply Hready|]. split.
  - unfold predefined_table. rewrite (idx_ok _ _ _ Hk). cbn [mbind res_bind]. by rewrite <- Hnorm, <- Hnl, Ebuild.
  - apply (built_mirrors t kind 255 norm_log norm max ct tb syms Hk Ht ltac:(lia)); [lia|done|done].
Qed.

(** ** The codes of a new table *)

Lemma nonzero_some (l : list Z) i x : zget l i = Some x -> x <> 0 -> 1 <= zlen (filter (fun c => c <> 0) l).
Proof.
  intros [H0 Hi]%zget_Some Hne. assert (x ∈ filter (fun c => c <> 0) l) as Hin.
  { apply list_elem_of_filter. split; [done|]. by eapply list_elem_of_lookup_2. }
  destruct (filter _ l); [by apply not_elem_of_nil in Hin|]. rewrite zlen_cons. pose proof (zlen_nonneg l0). lia.
Qed.

Lemma nonzero_two (l : list Z) i j x y : zget l i = Some x -> zget l j = Some y -> i < j -> x <> 0 -> y <> 0 ->
  2 <= zlen (filter (fun c => c <> 0) l).
Proof.
  intros Hi Hj Hij Hx Hy. pose proof (zget_lt _ _ _ Hi). pose proof (zget_lt _ _ _ Hj).
  rewrite <- (take_drop (Z.to_nat j) l), filter_app, zlen_app. fold (ztake j l). fold (zdrop j l).
  assert (zget (ztake j l) i = Some x) as Hi' by (rewrite zget_ztake by lia; done).
  assert (zget (zdrop j l) 0 = Some y) as Hj' by (rewrite zget_zdrop by lia; by rewrite Z.add_0_r).
  pose proof (nonzero_some _ _ _ Hi' Hx). pose proof (nonzero_some _ _ _ Hj' Hy). lia.
Qed.

Lemma occurs_all s l : (forall b, In b l -> b = s) -> occurs s l = zlen l.
Proof.
  induction l as [|b l IH]; intros H; [done|]. cbn [occurs]. rewrite zlen_cons, IH by (intros; apply H; by right).
  rewrite (H b) by by left. rewrite Z.eqb_refl. cbn. lia.
Qed.

(** A code other than [ms]. *)
Lemma other_code codes ms : In ms codes -> occurs ms codes <> zlen codes -> exists s, In s codes /\ s <> ms.
Proof.
  intros Hin Hne. destruct (Exists_dec (fun b => b <> ms) codes) as [He|He].
  - apply Exists_exists in He as (s & Hs & Hsm). exists s. split; [by apply list_elem_of_In|done].
  - destruct Hne. apply occurs_all. intros b Hb. destruct (Z.eq_dec b ms); [done|]. destruct He. apply Exists_exists.
    exists b. split; [by apply list_elem_of_In|done].
Qed.

(** The histogram to normalize: the last code's count less one, if that
    leaves some. *)
Record reduced (codes counts counts' : list Z) (ms total : Z) : Prop := {
  rd_len : zlen counts' = 256;
  rd_nonneg : Forall (fun c => 0 <= c) (ztake (ms + 1) counts');
  rd_sum : cell_sum (ztake (ms + 1) counts') = total;
  rd_total : 1 < total <= zlen codes;
  rd_same : forall s, 0 <= s <= ms -> exists c', zget counts' s = Some c' /\ (c' = 0 <-> ~ In s codes);
  rd_other : ~ In total (ztake (ms + 1) counts');
}.

Lemma not_all (l : list Z) total i j x y : Forall (fun c => 0 <= c) l -> cell_sum l = total -> zget l i = Some x -> zget l j = Some y ->
  i <> j -> x <> 0 -> y <> 0 -> 1 < total /\ ~ In total l.
Proof.
  intros Hn Hs Hi Hj Hij Hx Hy. pose proof (Forall_zget _ _ _ _ Hn Hi) as H0. pose proof (Forall_zget _ _ _ _ Hn Hj) as H1.
  cbn beta in *.
  assert (forall k z, zget l k = Some z -> forall k' z', zget l k' = Some z' -> k' <> k -> Z.abs z' <= total - Z.abs z) as Htwo.
  { intros k z Hk k' z' Hk' Hne. pose proof (cell_sum_update l k z 0 Hk) as Hu. rewrite Hs in Hu.
    pose proof (zget_lt _ _ _ Hk). pose proof (zget_lt _ _ _ Hk').
    assert (zget (zset l k 0) k' = Some z') as Hz by (rewrite zget_zset_ne by lia; done).
    pose proof (cell_sum_ge _ _ _ Hz). lia. }
  split; [pose proof (Htwo i x Hi j y Hj ltac:(congruence)); lia|]. intros Hin.
  apply list_elem_of_In, list_elem_of_lookup_1 in Hin as [k Hk]. rewrite <- zget_nat in Hk.
  destruct (Z.eq_dec (Z.of_nat k) i) as [He|He].
  - pose proof (Htwo _ _ Hk j y Hj ltac:(lia)). pose proof (Forall_zget _ _ _ _ Hn Hk). cbn beta in *. lia.
  - pose proof (Htwo _ _ Hk i x Hi ltac:(lia)). pose proof (Forall_zget _ _ _ _ Hn Hk). cbn beta in *. lia.
Qed.

Lemma reduce_ok {E} codes counts ms last c : tally codes counts ms -> occurs ms codes <> zlen codes ->
  zget codes (zlen codes - 1) = Some last -> zget counts last = Some c ->
  returns (fun '(counts', total) => reduced codes counts counts' ms total)
    (if 1 <? c then counts ← store counts last (c - 1); Ok (counts, zlen codes - 1) else Ok (counts, zlen codes) : res E _).
Proof.
  intros Ht Hne Hlast Hc. pose proof Ht as [[Hl Hcs] _ _ Hlen Hm Hin Htop]. unfold MAX_SEQ, MAX_ML in Hm.
  destruct (other_code codes ms Hin Hne) as (s & Hs & Hsm).
  assert (forall k, In k codes -> exists n, zget counts k = Some n /\ n <> 0 /\ 0 <= k <= ms) as Hget.
  { intros k Hk. by apply (tally_in _ _ _ k Ht). }
  assert (In last codes) as Hla by (apply zget_Some in Hlast as [_ Hlast]; apply list_elem_of_In; by eapply list_elem_of_lookup_2).
  destruct (Hget last Hla) as (n & Hn & Hn0 & Hlr). assert (n = c) as -> by congruence. clear Hn.
  pose proof (tally_nonneg _ _ _ Ht) as Hnn. pose proof (tally_sum _ _ _ Ht) as Hsum.
  assert (0 <= c) as Hc0 by (apply (Forall_zget _ _ last _ Hnn); rewrite zget_ztake by lia; done).
  assert (forall counts' total, zlen counts' = 256 -> Forall (fun c => 0 <= c) (ztake (ms + 1) counts') ->
    cell_sum (ztake (ms + 1) counts') = total -> total <= zlen codes ->
    (forall s, 0 <= s <= ms -> exists c', zget counts' s = Some c' /\ (c' = 0 <-> ~ In s codes)) ->
    reduced codes counts counts' ms total) as Hmk.
  { intros counts' total Hl' Hnn' Hs' Ht' Hsame.
    destruct (Hget ms Hin) as (_ & _ & _ & Hmr). destruct (Hget s Hs) as (_ & _ & _ & Hsr).
    destruct (Hsame ms ltac:(lia)) as (a & Ha & Ha0). destruct (Hsame s ltac:(lia)) as (b & Hb & Hb0).
    destruct (not_all (ztake (ms + 1) counts') total ms s a b Hnn' Hs') as [H1 H2]; try (rewrite zget_ztake by lia); try done; try tauto. }
  assert (forall k, 0 <= k <= ms -> exists n, zget counts k = Some n /\ (n = 0 <-> ~ In k codes)) as Hsame.
  { intros k Hk. exists (occurs k codes). split; [apply Hcs; lia|]. rewrite (occurs_pos k codes). pose proof (occurs_range k codes). lia. }
  destruct (Z.ltb_spec 1 c) as [H1|H1]; cbn [returns]; [|by apply Hmk].
  rewrite store_ok by lia. cbn [mbind res_bind returns].
  assert (ztake (ms + 1) (zset counts last (c - 1)) = zset (ztake (ms + 1) counts) last (c - 1)) as Htk.
  { unfold ztake, zset. apply take_insert_lt. lia. }
  assert (zget (ztake (ms + 1) counts) last = Some c) as Hcg by (rewrite zget_ztake by lia; done).
  apply Hmk; rewrite ?Htk.
  - by rewrite zlen_zset.
  - apply Forall_insert; [done|lia].
  - rewrite (cell_sum_update _ _ _ _ Hcg), Hsum. lia.
  - lia.
  - intros k Hk. destruct (Z.eq_dec k last) as [->|Hkl].
    + rewrite zget_zset_eq by lia. exists (c - 1). split; [done|]. split; [lia|tauto].
    + rewrite zget_zset_ne by lia. by apply Hsame.
Qed.

(** ** Each type of table *)

Lemma new_table_ok t kind fse_log norm norm_log max codes counts ms h spare : enc_kind t kind fse_log norm norm_log max ->
  tally codes counts ms -> ms <= max_code kind -> occurs ms codes <> zlen codes -> zlen (state_table spare) = 512 ->
  returns (fun r => exists desc ct P, r = Some (desc, ct, ct) /\ zlen (state_table ct) = 512 /\ bytes desc /\ 2 <= zlen desc /\
      priced ct (counted_in P) /\ (forall c, In c codes -> counted_in P c) /\
      forall tb rest, max_symbol tb = max_code kind -> bytes rest ->
        returns (fun '(tb', n) => n = zlen desc /\ max_symbol tb' = max_symbol tb /\
            mirrors kind (codes_of kind) ct tb' (counted_in P)) (build_decoder tb (desc ++ rest) (max_log kind) (codes_of kind)))
    (build_ctable fse_log SCompressed counts ms codes (zlen codes) norm norm_log max (MkRef h spare) : dec _).
Proof.
  intros [Hk [Hlog Hlr] _ _ _ Hcodes _] Ht Hms Hne H512. pose proof Ht as [[Hl Hcs] Hby Hsome Hlen Hm Hin Htop].
  destruct (seq_kind t kind Hk) as (_ & Hcr & Hml & Hml0 & Hcv). change (2 ^ 17) with 131072 in Hlen.
  assert (1 <= zlen codes) as H1.
  { destruct codes; [done|]. rewrite zlen_cons. pose proof (zlen_nonneg codes). lia. }
  assert (2 <= zlen codes) as H2.
  { destruct (Z.eq_dec (zlen codes) 1) as [He|]; [|lia]. pose proof (occurs_range ms codes). apply occurs_pos in Hin. lia. }
  unfold build_ctable. cbn [tr_spare].
  eapply returns_bind; [apply (optimal_table_log_ok fse_log (zlen codes) ms Hlr); [change (2 ^ 31) with 2147483648; lia|done]|].
  intros log [Hlg Hmin]. destruct (zget_is_Some codes (zlen codes - 1) ltac:(lia)) as [last Hlast].
  rewrite (idx_ok _ _ _ Hlast). cbn [mbind res_bind].
  assert (In last codes) as Hla by (apply zget_Some in Hlast as [_ Hlast]; apply list_elem_of_In; by eapply list_elem_of_lookup_2).
  destruct (proj1 (tally_in _ _ _ last Ht) Hla) as (c & Hc & _). rewrite (idx_ok _ _ _ Hc). cbn [mbind res_bind].
  eapply returns_bind; [by apply (reduce_ok codes counts ms last c)|]. intros [counts' total] [Rl Rn Rs Rt Rsame Rno].
  rewrite (proj2 (Z.ltb_lt 1 total)) by lia. cbn [rassert mbind res_bind]. unfold MAX_SEQ, MAX_ML in Hm, Hcodes.
  destruct (Rsame ms ltac:(lia)) as (l & Hlm & Hl0). assert (l <> 0) as Hlne by tauto.
  pose proof (min_table_log_mono total (zlen codes) ms ltac:(lia) ltac:(change (2 ^ 31) with 2147483648; lia) ltac:(unfold MAX_SEQ, MAX_ML; lia)) as Hmono.
  destruct (normalize_codes counts' ms total log l (use_low_prob_count total) ltac:(unfold MAX_SEQ, MAX_ML; lia) ltac:(lia) Rn Rs
    ltac:(change (2 ^ 31) with 2147483648; lia) ltac:(lia) ltac:(lia) Rno Hlm Hlne) as (P & l' & -> & Htl & HPl & Hl' & Hne' & H2P).
  cbn [ok_opt mbind res_bind]. rewrite (proj2 (Z.eqb_neq log 0)) by lia.
  pose proof (zlen_nonneg (zrepeat 0 (MAX_SEQ - ms))). rewrite slice_prefix by (rewrite zlen_app; lia). cbn [mbind res_bind].
  assert (ztake (ms + 1) (P ++ zrepeat 0 (MAX_SEQ - ms)) = P) as HtP by (rewrite ztake_app_le by lia; apply ztake_all; lia).
  rewrite HtP. replace ms with (zlen P - 1) in Hl' at 1 by lia.
  destruct (write_codes P [] log l' Htl Hl' Hne') as (desc & Hw & Hb & Hd2). rewrite app_nil_r in Hw.
  replace (zlen P - 1) with ms in Hw by lia. rewrite Hw. cbn [ok_opt mbind res_bind].
  eapply returns_bind.
  { apply (ct_build_ok spare (P ++ zrepeat 0 (MAX_SEQ - ms)) ms log H512); [unfold MAX_SEQ, MAX_ML; lia|rewrite zlen_app; lia|by rewrite HtP]. }
  rewrite HtP. intros ct Hready. cbn [returns]. exists desc, ct, P.
  assert (forall s, In s codes -> counted_in P s) as Hcount.
  { intros s Hs. destruct (proj1 (tally_in _ _ _ s Ht) Hs) as (_ & _ & _ & Hsr). destruct (Rsame s Hsr) as (c' & Hc' & Hz).
    assert (zget (ztake (ms + 1) counts') s = Some c') as Hc2 by (rewrite zget_ztake by lia; done).
    apply zget_Some in Hc2 as [Hs0 Hc2]. destruct (Forall2_lookup_l _ _ _ _ _ H2P Hc2) as (n & Hn & Hnz).
    exists n. split; [by apply zget_Some|]. tauto. }
  split; [done|]. split; [apply Hready|]. split; [done|]. split; [done|]. split.
  { apply (ct_ready_priced log MAX_SEQ P ms ct Htl Hready HPl). unfold MAX_SEQ, MAX_ML. lia. }
  split; [done|]. intros tb rest Hmt Hrest.
  destruct (other_code codes ms Hin Hne) as (s & Hs & Hsm). destruct (Hcount s Hs) as (n & Hn & Hn0).
  destruct (Hcount ms Hin) as (n2 & Hn2 & Hn20). pose proof (zget_lt _ _ _ Hn).
  eapply returns_mono.
  { apply (build_decoder_described desc tb P [] rest log (max_log kind) (codes_of kind) l' Htl); try done; try (unfold MAX_SEQ, MAX_ML; lia).
    - by eapply codes_cover_mono; [exact Hcv|lia].
    - destruct (Z.lt_trichotomy s ms) as [Hlt|[|Hgt]]; [|done|lia]. by apply (nonzero_two P s ms n n2).
    - rewrite app_nil_r. by replace (zlen P - 1) with ms by lia. }
  intros [tb' k] (-> & Hmx & syms & Hbt). split; [done|]. split; [done|].
  apply (built_mirrors t kind MAX_SEQ log P ms ct tb' syms Hk Htl); [unfold MAX_SEQ, MAX_ML; lia|lia|done|done].
Qed.

(** ** One table of a section *)

(** The decoder decodes with a table that mirrors [ct], and may repeat it. *)
Definition decodes_as (dict : option FSEScratch) (s : FSEScratch) (t : Z) (kind : SeqTableKind) (ct : FseCTable)
    (covers : Z -> Prop) : Prop :=
  exists tb, table s t dict = Ok tb /\ repeatable s t = Ok true /\ mirrors kind (codes_of kind) ct tb covers.

(** The table the encoder holds is the decoder's. *)
Definition synced (dict : option FSEScratch) (s : FSEScratch) (t : Z) (kind : SeqTableKind) (covers : Z -> Prop)
    (h : Held FseCTable) : Prop :=
  match held_table h with None => True | Some ct => priced ct covers /\ decodes_as dict s t kind ct covers end.

(** A [Valid] table has the codes [V]. *)
Definition valid_for (covers : Z -> Prop) (h : Held FseCTable) (V : Z -> Prop) : Prop :=
  match h with HValid _ => forall c, V c -> covers c | _ => True end.

(** What links the table held on the two sides. *)
Definition linked (dict : option FSEScratch) (s : FSEScratch) (t : Z) (kind : SeqTableKind) (V : Z -> Prop)
    (h : Held FseCTable) : Prop := exists covers, synced dict s t kind covers h /\ valid_for covers h V.

Definition mode_of (ty : SymbolEncodingType) : ModeType :=
  match ty with SBasic => MPredefined | SRle => MRLE | SCompressed => MFSECompressed | SRepeat => MRepeat end.

(** What the decoder makes of a description. *)
Definition read_as (dict : option FSEScratch) (s : FSEScratch) (t : Z) (kind : SeqTableKind) (V : Z -> Prop)
    (codes desc rest : list Z) (ct : FseCTable) (ty : SymbolEncodingType) (held : Held FseCTable) : Prop :=
  exists s', build_sequence_table (mode_of ty) (desc ++ rest) s t = Ok (s', zlen desc) /\
    fse_wf dict s' /\ same_but t s s' /\
    (exists tb covers, table s' t dict = Ok tb /\ mirrors kind (codes_of kind) ct tb covers /\ forall c, In c codes -> covers c) /\
    linked dict s' t kind V held.

Lemma read_as_intro dict s t kind V codes desc rest ct ty held s' : fse_wf dict s -> zget SEQ_TABLES t = Some kind ->
  bytes (desc ++ rest) -> build_sequence_table (mode_of ty) (desc ++ rest) s t = Ok (s', zlen desc) ->
  (exists tb covers, table s' t dict = Ok tb /\ mirrors kind (codes_of kind) ct tb covers /\ forall c, In c codes -> covers c) ->
  linked dict s' t kind V held -> read_as dict s t kind V codes desc rest ct ty held.
Proof.
  intros Hwf Hk Hb Hbuild Ht Hs. exists s'. split; [done|].
  pose proof (build_sequence_table_safe dict s (mode_of ty) (desc ++ rest) t kind Hwf Hk Hb) as Hsafe.
  rewrite Hbuild in Hsafe. destruct Hsafe as (Hwf' & _ & Hsame & _). done.
Qed.

Lemma repeatable_own s t kind : zget (fse_source s) t = Some Own -> seq_table_ok kind (own s t) -> repeatable s t = Ok true.
Proof.
  intros Hs Hok. unfold repeatable. rewrite (idx_ok _ _ _ Hs). cbn [mbind res_bind].
  destruct (seq_table_cells kind _ Hok) as [-> _]. cbn [mbind res_bind]. destruct Hok as [[Hl _] Hsz Hcap _].
  pose proof (pow2_pos (accuracy_log (own s t)) Hl). unfold table_cells.
  assert (zlen (ztake (size (own s t)) (cells (own s t))) <> 0) as Hne by (rewrite zlen_ztake; lia).
  destruct (ztake _ _); [by destruct Hne|done].
Qed.

Lemma read_basic dict s t kind V fse_log norm norm_log max codes counts ms ct tb rest : enc_kind t kind fse_log norm norm_log max ->
  fse_wf dict s -> tally codes counts ms -> ms <= max -> bytes rest ->
  predefined_table t = Ok tb -> mirrors kind (codes_of kind) ct tb (counted_in norm) ->
  read_as dict s t kind V codes [] rest ct SBasic HNone.
Proof.
  intros [Hk _ _ _ [Hlen Hmax] _ Hcov] Hwf Ht Hms Hb Hpre Hm. pose proof Hwf as [Hl _ _].
  pose proof (zget_lt _ _ _ Hk) as Htr. change (zlen SEQ_TABLES) with 3 in Htr.
  destruct (returns_inv _ _ (set_source_ok s t Predefined Hl Htr)) as (s' & Hset & Hown & Hl' & Hsrc).
  apply (read_as_intro dict s t kind V codes [] rest ct SBasic HNone s' Hwf Hk Hb).
  - unfold build_sequence_table. rewrite (idx_ok _ _ _ Hk). cbn [mbind res_bind mode_of]. by rewrite Hset.
  - exists tb, (counted_in norm). split; [|split; [done|]].
    + unfold table. rewrite (idx_ok _ t Predefined) by (rewrite Hsrc; by rewrite decide_True). done.
    + intros c Hc. destruct (proj1 (tally_in _ _ _ c Ht) Hc) as (_ & _ & _ & Hr).
      destruct (zget_is_Some norm c ltac:(lia)) as [n Hn]. exists n. split; [done|].
      specialize (Hcov max ltac:(lia)). unfold coverable in Hcov. rewrite !andb_true_iff, forallb_forall in Hcov.
      destruct Hcov as [_ Hcov]. specialize (Hcov n). rewrite orb_true_iff, andb_true_iff, Z.eqb_eq, Z.leb_le, Z.ltb_lt in Hcov.
      assert (n = -1 \/ 1 <= n < 2 ^ norm_log); [|lia]. apply Hcov.
      assert (zget (ztake (max + 1) norm) c = Some n) as Hg by (rewrite zget_ztake by lia; done).
      apply zget_Some in Hg as [_ Hg]. apply list_elem_of_In. by eapply list_elem_of_lookup_2.
  - by exists (fun _ => True).
Qed.

Lemma read_own dict s t kind V codes desc rest ct ty held tb covers : fse_wf dict s -> zget SEQ_TABLES t = Some kind ->
  bytes (desc ++ rest) -> (forall s1, (forall u, own s1 u = own s u) -> set_source s t Own = Ok s1 ->
    build_sequence_table (mode_of ty) (desc ++ rest) s t = Ok (set_own s1 t tb, zlen desc)) ->
  mirrors kind (codes_of kind) ct tb covers -> (forall c, In c codes -> covers c) ->
  (held = HNone \/ held = HCheck ct /\ priced ct covers) ->
  read_as dict s t kind V codes desc rest ct ty held.
Proof.
  intros Hwf Hk Hb Hbuild Hm Hcov Hheld. pose proof Hwf as [Hl _ _].
  pose proof (zget_lt _ _ _ Hk) as Htr. change (zlen SEQ_TABLES) with 3 in Htr.
  destruct (returns_inv _ _ (set_source_ok s t Own Hl Htr)) as (s1 & Hset & Hown & Hl' & Hsrc).
  destruct (seq_kind t kind Hk) as (Ht3 & _).
  assert (own (set_own s1 t tb) t = tb) as Hot by (rewrite own_set_own by done; by rewrite Z.eqb_refl).
  assert (zget (fse_source (set_own s1 t tb)) t = Some Own) as Hst by (rewrite set_own_source, Hsrc; by rewrite decide_True).
  assert (table (set_own s1 t tb) t dict = Ok tb) as Htab by (unfold table; rewrite (idx_ok _ _ _ Hst); cbn; by rewrite Hot).
  apply (read_as_intro dict s t kind V codes desc rest ct ty held (set_own s1 t tb) Hwf Hk Hb).
  - by apply Hbuild.
  - by exists tb, covers.
  - exists covers. destruct Hheld as [->|[-> Hp]]; [done|]. split; [|done]. split; [done|]. exists tb. split; [done|]. split; [|done].
    apply (repeatable_own _ t kind Hst). rewrite Hot. apply Hm.
Qed.

Lemma read_repeat dict s t kind V codes rest ct covers held : fse_wf dict s -> zget SEQ_TABLES t = Some kind -> bytes rest ->
  linked dict s t kind V held -> synced dict s t kind covers held -> held_table held = Some ct -> (forall c, In c codes -> covers c) ->
  read_as dict s t kind V codes [] rest ct SRepeat held.
Proof.
  intros Hwf Hk Hb Hlk Hs Hct Hcov. pose proof Hs as Hs'. unfold synced in Hs'. rewrite Hct in Hs'.
  destruct Hs' as (_ & tb & Htab & Hrep & Hm).
  apply (read_as_intro dict s t kind V codes [] rest ct SRepeat held s Hwf Hk Hb).
  - unfold build_sequence_table. rewrite (idx_ok _ _ _ Hk). cbn [mbind res_bind mode_of]. by rewrite Hrep.
  - by exists tb, covers.
  - done.
Qed.

(** One code only: its run-length table, on both sides. *)
Lemma built_rle {E} t kind tb ct0 code : zget SEQ_TABLES t = Some kind -> max_symbol tb = max_code kind ->
  0 <= code <= max_code kind -> max_code kind <= MAX_SEQ -> zlen (state_table ct0) = 512 ->
  exists ct tb', (ct_build_rle ct0 code : res E FseCTable) = Ok ct /\ zlen (state_table ct) = 512 /\
    FseTable.build_rle tb code (base kind) (kind_bits kind) = Ok tb' /\ mirrors kind (codes_of kind) ct tb' (fun s => s = code).
Proof.
  intros Hk Hmt Hc Hm H512.
  destruct (returns_inv _ _ (build_rle_ok t kind tb code Hk Hmt Hc)) as (tb' & Htb & _ & _ & Hok).
  assert (forall E', (ct_build_rle ct0 code : res E' FseCTable) =
    Ok (MkCTable 0 (zset (state_table ct0) 0 0) (zrepeat tt_default (MAX_SEQ + 1)) code)) as Hct.
  { intros E'. unfold ct_build_rle. by rewrite store_ok by lia. }
  eexists _, tb'. split; [apply Hct|]. split; [cbn; by rewrite zlen_zset|]. split; [done|]. split; [done|].
  assert (accuracy_log tb' = 0 /\ table_cells tb' = ztake 1 (cells tb')) as [-> ->].
  { unfold FseTable.build_rle in Htb. inv_ok. by cbn. }
  by apply (rle_codec ct0 code _ _ _ tb tb' (Hct _)); [lia|].
Qed.

Lemma occurs_all_inv s l : occurs s l = zlen l -> forall b, In b l -> b = s.
Proof.
  induction l as [|b l IH]; intros H c; [done|]. cbn [occurs] in H. rewrite zlen_cons in H. pose proof (occurs_range s l).
  destruct (Z.eqb_spec b s) as [->|]; cbn [Z.b2z] in H; [|lia]. intros [<-|Hin]; [done|]. apply IH; [lia|done].
Qed.

Lemma synced_held_ok dict s t kind V covers h codes : synced dict s t kind covers h -> valid_for covers h V ->
  (forall c, In c codes -> V c) -> held_ok covers h codes.
Proof. unfold synced. destruct h as [|ct|ct]; cbn; [done|by intros [? _]|intros [? _] ? ?; split; [done|by auto]]. Qed.

(** What pricing the codes with the chosen table relies on. *)
Definition costed (ty : SymbolEncodingType) (ct : FseCTable) (ms max : Z) : Prop :=
  match ty with SBasic => ms <= max | SRle => True | SCompressed | SRepeat => exists covers, priced ct covers end.

(** The table transmitted: it builds, its description is read, and the tables
    of both sides are again the same, now and for the next block. *)
Lemma table_ok dict s t kind V fse_log norm norm_log max codes counts ms most h spare strategy :
  enc_kind t kind fse_log norm norm_log max -> fse_wf dict s -> tally codes counts ms -> ms <= max_code kind ->
  (forall x, occurs x codes <= most) -> (exists x, 0 <= x <= ms /\ occurs x codes = most) -> zlen (state_table spare) = 512 ->
  linked dict s t kind V h -> (forall c, In c codes -> V c) ->
  returns (fun r => exists desc spare' ct next ty, r = Some (desc, spare', ct, next, ty) /\
      zlen (state_table spare') = 512 /\ bytes desc /\ (ty = SCompressed -> 2 <= zlen desc /\ 5 <= ct_log ct /\ 2 <= zlen codes) /\ costed ty ct ms max /\
      forall rest, bytes rest -> read_as dict s t kind V codes desc rest ct ty (next_held h spare' next))
    (build_seq_table codes counts ms most fse_log (MkRef h spare) norm norm_log max strategy : dec _).
Proof.
  intros Hek Hwf Ht Hms Hle Hmost H512 Hlk HV. pose proof Hlk as (covers & Hsync & Hvalid). pose proof Hek as [Hk [_ Hlr] _ [_ Hnr] _ Hcodes Hcov].
  unfold build_seq_table. cbn [tr_held]. pose proof Ht as [_ Hby Hsome _ Hm Hin _].
  eapply returns_bind; [apply (select_ok covers); try done|].
  { by apply (synced_held_ok dict s t kind V). }
  { intros Hd. by apply Hcov; lia. }
  intros [ty mode] Hch. cbn [choice_ok] in Hch.
  assert (bool_decide (ty = SCompressed \/ ty = SRepeat) || bool_decide (mode = RNone) = true) as ->.
  { apply orb_true_iff. destruct ty; [right|right|left|left]; apply bool_decide_eq_true; tauto || by destruct Hch. }
  cbn [rassert mbind res_bind].
  set (next := match ty with SRepeat => NKeep | SCompressed => NNew | _ => NNone end).
  assert (bool_decide (next <> NNew) || bool_decide (mode = RCheck) = true) as ->.
  { apply orb_true_iff. unfold next. destruct ty; [left|left|right|left]; apply bool_decide_eq_true; done || by destruct Hch. }
  cbn [rassert mbind res_bind]. destruct ty; unfold next; clear next.
  - destruct Hch as [_ Hallowed%Z.leb_le]. unfold build_ctable. cbn [tr_spare].
    destruct (basic_mirrors _ _ _ _ _ _ spare Hek H512) as (ct & tb & -> & H512' & Hpre & Hmir). cbn [mbind res_bind returns].
    exists [], ct, ct, NNone, SBasic. split; [done|]. split; [done|]. split; [constructor|]. split; [done|]. split; [done|].
    intros rest Hrest. cbn [next_held]. by eapply read_basic.
  - destruct Hch as [_ ->]. destruct Hmost as (x & _ & Hx). pose proof (occurs_all_inv _ _ Hx) as Hall.
    assert (ms = x) as -> by by apply Hall. unfold build_ctable. cbn [tr_spare].
    destruct codes as [|c codes]; [done|]. assert (c = x) as -> by (apply Hall; by left).
    rewrite (idx_ok (x :: codes) 0 x) by done. cbn [mbind res_bind]. unfold MAX_SEQ, MAX_ML in Hm.
    rewrite wrap_small by (change (2 ^ 8) with 256; lia).
    destruct (built_rle (E := DecodeError) t kind (own s t) spare x Hk) as (ct & tb & -> & H512' & Htb & Hmir); try done; [|lia|].
    { by apply (fs_own dict s Hwf t kind Hk). }
    cbn [mbind res_bind returns]. exists [x], ct, ct, NNone, SRle. split; [done|]. split; [done|].
    apply Forall_cons in Hby as [Hb _]. split; [by apply Forall_singleton|]. split; [done|]. split; [done|].
    intros rest Hrest. cbn [next_held]. eapply (read_own dict s t kind V (x :: codes) [x] rest ct SRle HNone tb); try done.
    + by apply Forall_cons.
    + intros s1 Hown Hset. unfold build_sequence_table, mode_of. rewrite (idx_ok _ _ _ Hk). cbn [mbind res_bind app].
      change (zget (x :: rest) 0) with (Some x). cbn [ok_or mbind res_bind].
      rewrite (proj2 (Z.ltb_ge (max_code kind) x)) by lia. cbn [fail_if mbind res_bind]. rewrite Hset. cbn [mbind res_bind].
      by rewrite Hown, Htb.
    + by left.
  - destruct Hch as [_ Hne]. destruct Hmost as (x & Hxr & Hx).
    eapply returns_bind; [apply (new_table_ok _ _ _ _ _ _ _ _ _ h spare Hek Ht Hms)|].
    { pose proof (occurs_range ms codes). intros He. apply Hne. pose proof (Hle ms). pose proof (occurs_range x codes). lia. }
    { done. }
    intros r (desc & ct & P & -> & H512' & Hb & H2 & Hp & Hin' & Hread). cbn [returns].
    exists desc, ct, ct, NNew, SCompressed. split; [done|]. split; [done|]. split; [done|]. split.
    { intros _. split; [done|]. split; [apply Hp|]. pose proof (Hle ms). pose proof (occurs_range x codes). apply occurs_pos in Hin. lia. }
    split; [by eexists|]. intros rest Hrest. cbn [next_held].
    destruct (returns_inv _ _ (Hread (own s t) rest ltac:(by apply (fs_own dict s Hwf t kind Hk)) Hrest)) as ([tb n] & Htb & -> & _ & Hmir).
    eapply (read_own dict s t kind V codes desc rest ct SCompressed _ tb); try done.
    + by apply Forall_app.
    + intros s1 Hown Hset. unfold build_sequence_table, mode_of. rewrite (idx_ok _ _ _ Hk). cbn [mbind res_bind].
      rewrite Hset. cbn [mbind res_bind]. by rewrite Hown, Htb.
    + by right.
  - destruct Hch as (ct & Hct & Hcc). unfold build_ctable. cbn [tr_held tr_spare]. rewrite Hct. cbn [mbind res_bind returns].
    exists [], spare, ct, NKeep, SRepeat. split; [done|]. split; [done|]. split; [constructor|]. split; [done|].
    split; [exists covers; unfold synced in Hsync; rewrite Hct in Hsync; apply Hsync|].
    intros rest Hrest. cbn [next_held]. by apply (read_repeat dict s t kind V codes rest ct covers).
Qed.

(** The encoder does not look at the decoder: one result serves every state
    of it that is linked. *)
Lemma table_ok_any dict s t kind V fse_log norm norm_log max codes counts ms most h spare strategy :
  enc_kind t kind fse_log norm norm_log max -> fse_wf dict s -> tally codes counts ms -> ms <= max_code kind ->
  (forall x, occurs x codes <= most) -> (exists x, 0 <= x <= ms /\ occurs x codes = most) -> zlen (state_table spare) = 512 ->
  linked dict s t kind V h -> (forall c, In c codes -> V c) ->
  returns (fun r => exists desc spare' ct next ty, r = Some (desc, spare', ct, next, ty) /\
      zlen (state_table spare') = 512 /\ bytes desc /\ (ty = SCompressed -> 2 <= zlen desc /\ 5 <= ct_log ct /\ 2 <= zlen codes) /\ costed ty ct ms max /\
      forall s1 rest, fse_wf dict s1 -> linked dict s1 t kind V h -> bytes rest ->
        read_as dict s1 t kind V codes desc rest ct ty (next_held h spare' next))
    (build_seq_table codes counts ms most fse_log (MkRef h spare) norm norm_log max strategy : dec _).
Proof.
  intros Hek Hwf Ht Hms Hle Hmost H512 Hlk HV.
  pose proof (fun s Hwf Hlk => table_ok dict s t kind V fse_log norm norm_log max codes counts ms most h spare strategy
    Hek Hwf Ht Hms Hle Hmost H512 Hlk HV) as H.
  destruct (returns_inv _ _ (H s Hwf Hlk)) as (r & Hr & desc & spare' & ct & next & ty & -> & Hs & Hb & Hc & Hco & _).
  rewrite Hr in *. cbn [returns] in *. exists desc, spare', ct, next, ty. do 3 (split; [done|]). split; [exact Hc|]. split; [exact Hco|].
  intros s1 rest Hwf1 Hlk1 Hrest. destruct (H s1 Hwf1 Hlk1) as (? & ? & ? & ? & ? & Heq & _ & _ & _ & _ & Hread).
  simplify_eq. by apply Hread.
Qed.
