(* ===== verification/SeqSection.v ===== *)
(** * The whole sequences section: round trip and size

    The section [encode_sequences_section_with] writes is read by the
    decoder, tables and stream, as the sequences it was given, and leaves the
    tables of both sides linked for the next block
    ([sequences_section_roundtrip]). *)

From S2P Require Import Prelude Words Constants Errors FseTable FseCounts FseBuild Headers HeaderUnits FrameWrite.
From S2P Require Import BitCStream FseEncode FseEncodeProofs FseNorm FseNormProofs NCountProofs.
From S2P Require Import Copy CopyProofs SeqTables SeqExec SeqDecode SeqRun SeqStream.
From S2P Require Import Entropy Histogram Params SeqEncode SeqCost SeqEncodeProofs.

(** ** Sums *)

Abbreviation zsum := (foldr Z.add 0).

Lemma zsum_add {A} (f g : A -> Z) l : zsum ((fun x => f x + g x) <$> l) = zsum (f <$> l) + zsum (g <$> l).
Proof. induction l as [|x l IH]; [done|]. rewrite !fmap_cons. cbn [foldr]. lia. Qed.

Lemma zsum_one c (b : Z -> Z) n : forall a, a <= c < a + Z.of_nat n ->
  zsum ((fun s => Z.b2z (c =? s) * b s) <$> seqZ a (Z.of_nat n)) = b c.
Proof.
  assert (forall a k, (forall s, a <= s < a + k -> s <> c) -> zsum ((fun s => Z.b2z (c =? s) * b s) <$> seqZ a k) = 0) as Hno.
  { intros a k Hk. assert (forall s, s ∈ seqZ a k -> s <> c) as Hin.
    { intros s [i Hi]%list_elem_of_lookup_1. apply lookup_seqZ in Hi as [-> Hi]. apply Hk. lia. }
    induction (seqZ a k) as [|s l IH]; [done|]. rewrite fmap_cons. cbn [foldr].
    rewrite IH by (intros; apply Hin; by right). rewrite (proj2 (Z.eqb_neq c s)) by (intros <-; by apply (Hin c); [left|]). done. }
  induction n as [|n IH]; intros a Ha; [lia|]. rewrite seqZ_cons by lia. rewrite fmap_cons. cbn [foldr].
  replace (Z.pred (Z.of_nat (S n))) with (Z.of_nat n) by lia. unfold Z.succ. destruct (Z.eqb_spec c a) as [->|Hne]; cbn [Z.b2z].
  - rewrite Hno by lia. lia.
  - rewrite IH by lia. lia.
Qed.

(** A histogram's weighted sum is the sum over what it counts. *)
Lemma zsum_occurs (b : Z -> Z) n l : Forall (fun c => 0 <= c < n) l ->
  zsum ((fun s => occurs s l * b s) <$> seqZ 0 n) = zsum (b <$> l).
Proof.
  induction 1 as [|c l Hc Hl IH].
  - cbn [occurs fmap list_fmap foldr]. induction (seqZ 0 n) as [|s k IHk]; [done|]. rewrite fmap_cons. cbn [foldr]. lia.
  - rewrite fmap_cons. cbn [foldr occurs]. rewrite <- IH.
    rewrite (list_fmap_ext _ (fun s => Z.b2z (c =? s) * b s + occurs s l * b s)) by (intros; lia).
    rewrite zsum_add. f_equal. replace n with (Z.of_nat (Z.to_nat n)) by lia. apply zsum_one. lia.
Qed.

Lemma enumerate_seqZ {A} (f : Z -> A) n : enumerate (f <$> seqZ 0 n) = (fun s => (s, f s)) <$> seqZ 0 n.
Proof.
  unfold enumerate. rewrite imap_fmap. apply list_eq. intros i. rewrite list_lookup_imap, list_lookup_fmap.
  destruct (seqZ 0 n !! i) as [s|] eqn:Hi; [|done]. apply lookup_seqZ in Hi as [-> _]. cbn. by rewrite Z.add_0_l.
Qed.

Lemma raw_total_ok {E} codes counts ms (bits : Z -> res E Z) b : tally codes counts ms ->
  (forall s, 0 <= s <= ms -> bits s = Ok (b s)) -> raw_total (ztake (ms + 1) counts) bits = Ok (zsum (b <$> codes)).
Proof.
  intros Ht Hb. pose proof Ht as [_ Hby _ _ Hm _ Htop]. rewrite (tally_prefix _ _ _ Ht). unfold raw_total. rewrite enumerate_seqZ.
  rewrite <- (zsum_occurs b (ms + 1)).
  2: { apply Forall_forall. intros x Hx. rewrite Forall_forall in Hby, Htop. specialize (Hby x Hx). specialize (Htop x Hx).
       unfold is_byte in Hby. cbn beta in *. lia. }
  assert (Forall (fun s => 0 <= s <= ms) (seqZ 0 (ms + 1))) as Hs.
  { apply Forall_forall. intros s [i Hi]%list_elem_of_lookup_1. apply lookup_seqZ in Hi. lia. }
  assert (forall t l, Forall (fun s => 0 <= s <= ms) l ->
    foldM (fun total '(c, n) => x ← bits c; Ok (total + n * x)) t ((fun s => (s, occurs s codes)) <$> l) =
      Ok (t + zsum ((fun s => occurs s codes * b s) <$> l))) as Hf.
  { intros t l Hl. revert t. induction Hl as [|s l Hs' Hl IH]; intros t; cbn; [by rewrite Z.add_0_r|].
    rewrite Hb by done. cbn [mbind res_bind]. rewrite IH. f_equal. lia. }
  rewrite Hf by done. by rewrite Z.add_0_l.
Qed.

(** ** The codes *)

(** A sequence of a block: lengths of at most 128 KiB, a 32-bit sum. *)
Definition seq_ok (s : Seq) : Prop :=
  0 <= lit_len s < 2 ^ 17 /\ 0 <= ml_base s < 2 ^ 17 /\ 1 <= off_base s < 2 ^ 32.

Definition code_or_0 (m : res Empty_set Z) : Z := match m with Ok c => c | _ => 0 end.

Definition ll_of (s : Seq) : Z := code_or_0 (ll_code (lit_len s)).
Definition of_of (s : Seq) : Z := off_code (off_base s).
Definition ml_of (s : Seq) : Z := code_or_0 (ml_code (ml_base s)).

Lemma ll_code_any {E} l : 0 <= l < 2 ^ 17 -> (ll_code l : res E Z) = Ok (code_or_0 (ll_code l)).
Proof.
  intros Hl. destruct (ll_code_spec l Hl) as (c & Hc & _). rewrite Hc. cbn [code_or_0]. unfold ll_code in *.
  destruct (l <=? 63); [|congruence]. apply idx_inv in Hc. by apply idx_ok.
Qed.

Lemma ml_code_any {E} m : 0 <= m < 2 ^ 17 -> (ml_code m : res E Z) = Ok (code_or_0 (ml_code m)).
Proof.
  intros Hm. destruct (ml_code_spec m Hm) as (c & Hc & _). rewrite Hc. cbn [code_or_0]. unfold ml_code in *.
  destruct (m <=? 127); [|congruence]. apply idx_inv in Hc. by apply idx_ok.
Qed.

Lemma code_ranges s : seq_ok s -> 0 <= ll_of s <= MAX_LL /\ 0 <= of_of s <= MAX_OFF /\ 0 <= ml_of s <= MAX_ML.
Proof.
  intros (Hl & Hm & Ho). unfold ll_of, ml_of, of_of.
  destruct (ll_code_spec _ Hl) as (cl & -> & Hcl & _). destruct (ml_code_spec _ Hm) as (cm & -> & Hcm & _).
  destruct (of_coded _ Ho) as (Hof & _). unfold MAX_OFF. cbn [code_or_0]. done.
Qed.

Lemma seq_to_codes_ok {E} seqs : Forall seq_ok seqs ->
  seq_to_codes seqs = (Ok (ll_of <$> seqs, of_of <$> seqs, ml_of <$> seqs) : res E _).
Proof.
  intros Hs. unfold seq_to_codes.
  assert (forall a b c, foldM (fun '(ll, of_, ml) seq => l ← ll_code (lit_len seq); m ← ml_code (ml_base seq);
      Ok (ll ++ [l], of_ ++ [off_code (off_base seq)], ml ++ [m])) (a, b, c) seqs =
    (Ok (a ++ (ll_of <$> seqs), b ++ (of_of <$> seqs), c ++ (ml_of <$> seqs)) : res E _)) as H; [|by apply H].
  induction Hs as [|s seqs (Hl & Hm & _) Hs IH]; intros a b c; cbn [foldM]; [by rewrite !app_nil_r|].
  rewrite ll_code_any, ml_code_any by done. cbn [mbind res_bind]. rewrite IH, !fmap_cons, <- !app_assoc. done.
Qed.

(** A sequence with its codes. *)
Definition with_codes (s : Seq) : Seq * (Z * Z * Z) := (s, (ll_of s, of_of s, ml_of s)).

Lemma zip_codes seqs : zip seqs (zip (zip (ll_of <$> seqs) (of_of <$> seqs)) (ml_of <$> seqs)) = with_codes <$> seqs.
Proof. induction seqs as [|s seqs IH]; [done|]. rewrite !fmap_cons. cbn [zip_with]. by rewrite IH. Qed.

Lemma with_codes_coded s : seq_ok s -> coded_seq (with_codes s).
Proof.
  intros (Hl & Hm & Ho). do 3 (split; [done|]). unfold ll_of, ml_of. by rewrite <- ll_code_any, <- ml_code_any.
Qed.

(** The raw bits of a section. *)
Definition section_raw_bits (seqs : list Seq) : Z := zsum (raw_bits <$> (with_codes <$> seqs)).

Lemma section_raw_split seqs : section_raw_bits seqs =
  zsum ((fun c => default 0 (zget LL_BITS c)) <$> (ll_of <$> seqs)) +
  zsum ((fun c => default 0 (zget ML_BITS c)) <$> (ml_of <$> seqs)) + zsum ((fun c => c) <$> (of_of <$> seqs)).
Proof.
  unfold section_raw_bits. induction seqs as [|s seqs IH]; [done|]. rewrite !fmap_cons. cbn [foldr]. rewrite IH.
  unfold with_codes at 1. cbn [raw_bits]. lia.
Qed.

(** The histogram of one kind of code. *)
Lemma hist_codes {E} (f : Seq -> Z) M seqs : Forall (fun s => 0 <= f s <= M) seqs -> M <= MAX_SEQ -> seqs <> [] ->
  zlen seqs < 2 ^ 17 ->
  exists counts most ms, hist_count (zrepeat 0 256) (f <$> seqs) M = (Ok (counts, most, ms) : res E _) /\
    tally (f <$> seqs) counts ms /\ 0 <= ms <= M /\ (forall x, occurs x (f <$> seqs) <= most) /\
    exists x, 0 <= x <= ms /\ occurs x (f <$> seqs) = most.
Proof.
  intros Hf HM Hne Hlen. unfold MAX_SEQ, MAX_ML in HM. change (2 ^ 17) with 131072 in Hlen.
  assert (Forall (fun b => 0 <= b <= M) (f <$> seqs)) as Hb by by apply Forall_fmap.
  destruct (hist_count_full (E := E) (zrepeat 0 256) (f <$> seqs) M) as (c & most & ms & Hrun & Hc & Hms & Hin & Hle & Hmost).
  - eapply Forall_impl; [exact Hb|]. intros x Hx. unfold is_byte. cbn beta in Hx. lia.
  - by destruct seqs.
  - rewrite zlen_fmap. change (2 ^ 32) with 4294967296. lia.
  - done.
  - lia.
  - eapply Forall_impl; [exact Hb|]. by intros x [_ ?].
  - exists c, most, ms. split; [done|]. split; [|done]. split; try done.
    + eapply Forall_impl; [exact Hb|]. intros x Hx. unfold is_byte. cbn beta in Hx. lia.
    + by destruct seqs.
    + rewrite zlen_fmap. change (2 ^ 17) with 131072. lia.
    + unfold MAX_SEQ, MAX_ML. lia.
Qed.

(** The modes byte. *)
Lemma modes_written a b c :
  let m := Z.lor (Z.lor (wshl 8 (encoding_id a) 6) (wshl 8 (encoding_id b) 4)) (wshl 8 (encoding_id c) 2) in
  is_byte m /\ new_modes m = Ok (MkModes m) /\ all_modes (MkModes m) = Ok [mode_of a; mode_of b; mode_of c].
Proof. destruct a, b, c; (split; [by split|done]). Qed.

(** The section's header. *)
Lemma section_header_written nb a b c rest : 0 < nb < 0x7F00 + 0x10000 ->
  let m := Z.lor (Z.lor (wshl 8 (encoding_id a) 6) (wshl 8 (encoding_id b) 4)) (wshl 8 (encoding_id c) 2) in
  parse_sequences_header (sequence_count_header nb ++ [m] ++ rest) =
    Ok (MkSeqHeader nb (MkModes m), zlen (sequence_count_header nb) + 1).
Proof.
  intros Hn m. destruct (modes_written a b c) as (Hm & Hnew & _). fold m in Hm, Hnew.
  unfold parse_sequences_header. rewrite sequence_count_written by lia. cbn [mbind res_bind].
  rewrite (proj2 (Z.eqb_neq nb 0)) by lia. cbn [negb Z.b2z].
  assert (zget (sequence_count_header nb ++ [m] ++ rest) (zlen (sequence_count_header nb)) = Some m) as ->.
  { rewrite zget_app_r, Z.sub_diag by lia. done. }
  cbn [ok_or mbind res_bind]. by rewrite Hnew.
Qed.

(** ** The three tables *)

Lemma linked_same dict s s' t kind V h : own s' t = own s t -> zget (fse_source s') t = zget (fse_source s) t ->
  linked dict s t kind V h -> linked dict s' t kind V h.
Proof.
  intros Ho Hs (covers & Hsync & Hv). exists covers. split; [|done]. unfold synced in *. destruct (held_table h); [|done].
  destruct Hsync as (Hp & tb & Htb & Hrep & Hm). split; [done|]. exists tb.
  unfold table, repeatable, idx in *. by rewrite Ho, Hs.
Qed.

(** One turn of [build_sequence_tables]. *)
Lemma read_turn dict s t kind V codes pre desc rest ct ty held (source := pre ++ desc ++ rest) :
  read_as dict s t kind V codes desc rest ct ty held -> exists s',
  (rest ← slice_from source (zlen pre); '(scratch, n) ← build_sequence_table (mode_of ty) rest s t;
     Ok (scratch, zlen pre + n)) = Ok (s', zlen (pre ++ desc)) /\
    fse_wf dict s' /\ same_but t s s' /\
    (exists tb covers, table s' t dict = Ok tb /\ mirrors kind (codes_of kind) ct tb covers /\ forall c, In c codes -> covers c) /\
    linked dict s' t kind V held.
Proof.
  intros (s' & Hb & Hwf & Hsame & Htb & Hlk). exists s'. split; [|done]. pose proof (zlen_nonneg pre). pose proof (zlen_nonneg (desc ++ rest)).
  unfold source. rewrite slice_from_ok by (rewrite zlen_app; lia). cbn [mbind res_bind].
  assert (zdrop (zlen pre) (pre ++ desc ++ rest) = desc ++ rest) as ->.
  { unfold zdrop, zlen. rewrite Nat2Z.id. apply drop_app_length. }
  rewrite Hb. cbn [mbind res_bind]. by rewrite zlen_app.
Qed.

(** A table and the next ones leave each other alone. *)
Lemma table_same dict s s' t : own s' t = own s t -> zget (fse_source s') t = zget (fse_source s) t ->
  table s' t dict = table s t dict.
Proof. intros Ho Hs. unfold table, idx. by rewrite Ho, Hs. Qed.

(** What a held table's codes are, for the three kinds. *)
Record SeqValid := MkValid { vd_ll : Z -> Prop; vd_of : Z -> Prop; vd_ml : Z -> Prop }.

(** The tables held on both sides, linked. *)
Record tables_linked (dict : option FSEScratch) (s : FSEScratch) (V : SeqValid) (ll of_ ml : Held FseCTable) : Prop := {
  tk_wf : fse_wf dict s;
  tk_ll : linked dict s 0 ll_kind (vd_ll V) ll;
  tk_of : linked dict s 1 of_kind (vd_of V) of_;
  tk_ml : linked dict s 2 ml_kind (vd_ml V) ml;
}.

(** The decoder's side of a section of sequences: its header and tables are
    read, and the stream runs as the sequences; [s'] is left. *)
Definition section_reads (dict : option FSEScratch) (s : FSEScratch) (out : list Z) (seqs : list Seq) (s' : FSEScratch) : Prop :=
  exists h n, parse_sequences_header out = Ok (h, n) /\ num_sequences h = zlen seqs /\
    match seqs with
    | [] => n = zlen out /\ s' = s
    | _ :: _ => exists k ll_t of_t ml_t, build_sequence_tables h (zdrop n out) s = Ok (s', k) /\
        tables s' dict = Ok (ll_t, of_t, ml_t) /\
        ref_runs_as (MkSeqIn (zlen seqs) (zdrop (n + k) out) ll_t of_t ml_t) seqs /\
        forall W EXT ext offset_hist m dst, In W variants -> dst_ok EXT m ext dst -> hist_ok offset_hist ->
          runs_as W EXT (MkSeqIn (zlen seqs) (zdrop (n + k) out) ll_t of_t ml_t) ext offset_hist m dst seqs
    end.

(** The three descriptions, one after the other. *)
Lemma tables_read dict s V hl ho hm seqs desc_l desc_o desc_m bs cl co cm tl to_ tm nl no nm :
  tables_linked dict s V hl ho hm -> bytes desc_l -> bytes desc_o -> bytes desc_m -> bytes bs ->
  (forall s1 rest, fse_wf dict s1 -> linked dict s1 0 ll_kind (vd_ll V) hl -> bytes rest ->
    read_as dict s1 0 ll_kind (vd_ll V) (ll_of <$> seqs) desc_l rest cl tl nl) ->
  (forall s1 rest, fse_wf dict s1 -> linked dict s1 1 of_kind (vd_of V) ho -> bytes rest ->
    read_as dict s1 1 of_kind (vd_of V) (of_of <$> seqs) desc_o rest co to_ no) ->
  (forall s1 rest, fse_wf dict s1 -> linked dict s1 2 ml_kind (vd_ml V) hm -> bytes rest ->
    read_as dict s1 2 ml_kind (vd_ml V) (ml_of <$> seqs) desc_m rest cm tm nm) ->
  let m := Z.lor (Z.lor (wshl 8 (encoding_id tl) 6) (wshl 8 (encoding_id to_) 4)) (wshl 8 (encoding_id tm) 2) in
  exists s' ll_t of_t ml_t in_ll in_of in_ml,
    build_sequence_tables (MkSeqHeader (zlen seqs) (MkModes m)) (desc_l ++ desc_o ++ desc_m ++ bs) s =
      Ok (s', zlen (desc_l ++ desc_o ++ desc_m)) /\
    tables s' dict = Ok (ll_t, of_t, ml_t) /\ tables_linked dict s' V nl no nm /\
    mirrors ll_kind ll_codes cl ll_t in_ll /\ mirrors of_kind of_codes co of_t in_of /\ mirrors ml_kind ml_codes cm ml_t in_ml /\
    Forall (covered in_ll in_of in_ml) (with_codes <$> seqs).
Proof.
  intros [Hwf Kl Ko Km] Bl Bo Bm Bs Rl Ro Rm m. destruct (modes_written tl to_ tm) as (_ & _ & Hall). fold m in Hall.
  unfold build_sequence_tables. cbn [modes]. rewrite Hall. cbn [mbind res_bind].
  change (enumerate [_; _; _]) with [(0, mode_of tl); (1, mode_of to_); (2, mode_of tm)]. cbn [foldM].
  assert (bytes (desc_m ++ bs)) as Bmb by by apply Forall_app.
  assert (bytes (desc_o ++ desc_m ++ bs)) as Bob by by apply Forall_app.
  destruct (read_turn _ _ _ _ _ _ [] desc_l (desc_o ++ desc_m ++ bs) _ _ _
    (Rl s _ Hwf Kl Bob)) as (s1 & E1 & Hwf1 & S1 & (tbl & il & Tl & Ml & Cl) & Kl1).
  change (zlen []) with 0 in E1. cbn [app] in E1. rewrite E1. cbn [mbind res_bind].
  destruct (S1 1 ltac:(lia) ltac:(lia)) as [So1 Ss1]. destruct (S1 2 ltac:(lia) ltac:(lia)) as [So2 Ss2].
  pose proof (linked_same dict s s1 1 _ _ _ So1 Ss1 Ko) as Ko1. pose proof (linked_same dict s s1 2 _ _ _ So2 Ss2 Km) as Km1.
  destruct (read_turn _ _ _ _ _ _ desc_l desc_o (desc_m ++ bs) _ _ _
    (Ro s1 _ Hwf1 Ko1 Bmb)) as (s2 & E2 & Hwf2 & S2 & (tbo & io & To & Mo & Co) & Ko2).
  rewrite E2. cbn [mbind res_bind].
  destruct (S2 0 ltac:(lia) ltac:(lia)) as [So3 Ss3]. destruct (S2 2 ltac:(lia) ltac:(lia)) as [So4 Ss4].
  pose proof (linked_same dict s1 s2 0 _ _ _ So3 Ss3 Kl1) as Kl2. pose proof (linked_same dict s1 s2 2 _ _ _ So4 Ss4 Km1) as Km2.
  destruct (read_turn _ _ _ _ _ _ (desc_l ++ desc_o) desc_m bs _ _ _ (Rm s2 _ Hwf2 Km2 Bs))
    as (s3 & E3 & Hwf3 & S3 & (tbm & im & Tm & Mm & Cm) & Km3).
  rewrite <- !app_assoc in E3. rewrite E3. cbn [mbind res_bind].
  destruct (S3 0 ltac:(lia) ltac:(lia)) as [So5 Ss5]. destruct (S3 1 ltac:(lia) ltac:(lia)) as [So6 Ss6].
  exists s3, tbl, tbo, tbm, il, io, im. split; [done|]. split.
  { unfold tables. rewrite (table_same dict s2 s3 0 So5 Ss5), (table_same dict s1 s2 0 So3 Ss3), Tl. cbn [mbind res_bind].
    rewrite (table_same dict s2 s3 1 So6 Ss6), To. cbn [mbind res_bind]. by rewrite Tm. }
  split; [split; [done| | |done]; by eapply linked_same|]. split; [done|]. split; [done|]. split; [done|].
  apply Forall_fmap, Forall_forall. intros q Hq%list_elem_of_In. cbn. split; [|split].
  - apply Cl. by apply (in_map ll_of).
  - apply Co. by apply (in_map of_of).
  - apply Cm. by apply (in_map ml_of).
Qed.

(** ** The encoder's side *)

(** The codes of the sequences are among a [Valid] table's. *)
Definition seq_valid (V : SeqValid) (s : Seq) : Prop := vd_ll V (ll_of s) /\ vd_of V (of_of s) /\ vd_ml V (ml_of s).

(** What one kind of code comes to: its histogram, raw bits and table. *)
Lemma kind_encoded dict s t kind fse_log norm norm_log max (f : Seq -> Z) V h spare strategy seqs (bits : Z -> dec Z) b :
  enc_kind t kind fse_log norm norm_log max -> fse_wf dict s -> linked dict s t kind V h -> zlen (state_table spare) = 512 ->
  Forall (fun s => 0 <= f s <= max_code kind) seqs -> Forall (fun s => V (f s)) seqs -> seqs <> [] -> zlen seqs < 2 ^ 17 ->
  (forall c, 0 <= c <= max_code kind -> bits c = Ok (b c)) ->
  exists counts most ms, hist_count (zrepeat 0 256) (f <$> seqs) (max_code kind) = (Ok (counts, most, ms) : dec _) /\
    slice counts 0 (ms + 1) = (Ok (ztake (ms + 1) counts) : dec _) /\
    raw_total (ztake (ms + 1) counts) bits = Ok (zsum (b <$> (f <$> seqs))) /\ tally (f <$> seqs) counts ms /\
    returns (fun r => exists desc spare' ct next ty, r = Some (desc, spare', ct, next, ty) /\
        zlen (state_table spare') = 512 /\ bytes desc /\ (ty = SCompressed -> 2 <= zlen desc /\ 5 <= ct_log ct /\ 2 <= zlen seqs) /\ costed ty ct ms max /\
        forall s1 rest, fse_wf dict s1 -> linked dict s1 t kind V h -> bytes rest ->
          read_as dict s1 t kind V (f <$> seqs) desc rest ct ty (next_held h spare' next))
      (build_seq_table (f <$> seqs) counts ms most fse_log (MkRef h spare) norm norm_log max strategy : dec _).
Proof.
  intros Hek Hwf Hlk H512 Hf HV Hne Hlen Hbits. pose proof (ek_codes _ _ _ _ _ _ Hek) as Hmc.
  destruct (hist_codes (E := DecodeError) f (max_code kind) seqs Hf Hmc Hne Hlen) as (counts & most & ms & Hrun & Ht & Hms & Hle & Hmost).
  exists counts, most, ms. split; [done|]. pose proof Ht as [[Hl _] _ _ _ _ _ _]. unfold MAX_SEQ, MAX_ML in Hmc.
  split; [by rewrite slice_prefix by lia|]. split; [apply (raw_total_ok _ _ _ _ _ Ht); intros; apply Hbits; lia|]. split; [done|].
  rewrite <- (zlen_fmap f seqs). apply (table_ok_any dict s t kind V); try done; [lia|].
  intros c Hc. apply in_map_iff in Hc as (q & <- & Hq). rewrite Forall_forall in HV. apply HV. by apply list_elem_of_In.
Qed.

Lemma bits_default (l : list Z) n c : zlen l = n -> 0 <= c < n -> (idx l c : dec Z) = Ok (default 0 (zget l c)).
Proof. intros Hl Hc. destruct (zget_is_Some l c ltac:(lia)) as [x Hx]. rewrite Hx. by apply idx_ok. Qed.

(** What an encoded section is. *)
Definition section_written (dict : option FSEScratch) (s : FSEScratch) (V : SeqValid) (hl ho hm : Held FseCTable) (seqs : list Seq)
    (r : option (list Z * FseNext) * (FseCTable * FseCTable * FseCTable)) : Prop :=
  let '(o, (ll, of_, ml)) := r in
  zlen (state_table ll) = 512 /\ zlen (state_table of_) = 512 /\ zlen (state_table ml) = 512 /\
  match o with
  | None => 2 <= zlen seqs /\ section_raw_bits seqs <= 2
  | Some (out, next) => bytes out /\
      exists s', section_reads dict s out seqs s' /\
        tables_linked dict s' V (next_held hl ll (fn_ll next)) (next_held ho of_ (fn_of next)) (next_held hm ml (fn_ml next))
  end.

Lemma empty_section_written dict s V hl ho hm ll of_ ml : tables_linked dict s V hl ho hm ->
  zlen (state_table ll) = 512 -> zlen (state_table of_) = 512 -> zlen (state_table ml) = 512 ->
  section_written dict s V hl ho hm [] (Some (sequence_count_header 0, KEEP), (ll, of_, ml)).
Proof.
  intros Hk Hl Ho Hm. do 3 (split; [done|]). split; [by apply Forall_singleton|]. exists s. split; [|done].
  by exists (MkSeqHeader 0 (MkModes 0)), 1.
Qed.

Lemma mirrors_log kind cs ct tb covers : mirrors kind cs ct tb covers -> ct_log ct = accuracy_log tb /\ 0 <= accuracy_log tb.
Proof. intros [[[? _] _ _ _] Hc]. split; [by destruct (codec_log (FseCodec := Hc))|done]. Qed.

(** The stream of an ancient decoder's bug: too small to matter. *)
Lemma last_count_small (tl to_ tm : SymbolEncodingType) (dl do_ dm : list Z) nl no nm raw nb bs :
  (tl = SCompressed -> 2 <= zlen dl /\ 5 <= nl /\ 2 <= nb) -> (to_ = SCompressed -> 2 <= zlen do_ /\ 5 <= no /\ 2 <= nb) ->
  (tm = SCompressed -> 2 <= zlen dm /\ 5 <= nm /\ 2 <= nb) -> 0 <= nl -> 0 <= no -> 0 <= nm -> 0 <= raw -> raw + nl + no + nm < 8 * bs ->
  let last ty (desc : list Z) size := if bool_decide (ty = SCompressed) then zlen desc else size in
  let n := last tm dm (last to_ do_ (last tl dl 0)) in
  negb (n =? 0) && (n + bs <? 4) = true -> n + bs = 3 /\ 2 <= nb /\ raw <= 2.
Proof.
  intros Hl Ho Hm Nl No Nm Hr Hbs last n [Hn%negb_true_iff Hlt]%andb_true_iff. unfold n, last in *. clear n last.
  apply Z.eqb_neq in Hn. apply Z.ltb_lt in Hlt.
  destruct (bool_decide_reflect (tm = SCompressed)) as [Hc|_]; [specialize (Hm Hc); lia|].
  destruct (bool_decide_reflect (to_ = SCompressed)) as [Hc|_]; [specialize (Ho Hc); lia|].
  destruct (bool_decide_reflect (tl = SCompressed)) as [Hc|_]; [specialize (Hl Hc); lia|]. done.
Qed.

Lemma sequence_count_bytes nb : 0 <= nb < 0x7F00 + 0x10000 -> bytes (sequence_count_header nb).
Proof.
  intros Hn. unfold sequence_count_header, LONGNBSEQ.
  destruct (Z.ltb_spec nb 128); [|destruct (Z.ltb_spec nb 0x7F00)].
  - apply Forall_singleton; unfold is_byte, wrap; change (2 ^ 8) with 256; divlia.
  - apply Forall_cons. split; [|apply Forall_singleton; unfold is_byte, wrap; change (2 ^ 8) with 256; divlia].
    rewrite shiftr_div by lia. change (2 ^ 8) with 256.
    rewrite wrap_small by (change (2 ^ 8) with 256; divlia). unfold is_byte. divlia.
  - apply Forall_cons. split; [done|]. apply le_bytes_bytes.
Qed.

Lemma zdrop_app_add {A} (l1 l2 : list A) n : 0 <= n -> zdrop (zlen l1 + n) (l1 ++ l2) = zdrop n l2.
Proof.
  intros Hn. unfold zdrop, zlen. rewrite Z2Nat.inj_add, Nat2Z.id by lia. by rewrite drop_app_add.
Qed.

(** Header, descriptions and stream, read one after the other. *)
Lemma section_put_together dict s s' seqs tl to_ tm desc bs ll_t of_t ml_t :
  let m := Z.lor (Z.lor (wshl 8 (encoding_id tl) 6) (wshl 8 (encoding_id to_) 4)) (wshl 8 (encoding_id tm) 2) in
  seqs <> [] -> zlen seqs < 0x7F00 + 0x10000 ->
  build_sequence_tables (MkSeqHeader (zlen seqs) (MkModes m)) (desc ++ bs) s = Ok (s', zlen desc) ->
  tables s' dict = Ok (ll_t, of_t, ml_t) -> ref_runs_as (MkSeqIn (zlen seqs) bs ll_t of_t ml_t) seqs ->
  (forall W EXT ext offset_hist m dst, In W variants -> dst_ok EXT m ext dst -> hist_ok offset_hist ->
    runs_as W EXT (MkSeqIn (zlen seqs) bs ll_t of_t ml_t) ext offset_hist m dst seqs) ->
  section_reads dict s (sequence_count_header (zlen seqs) ++ [m] ++ desc ++ bs) seqs s'.
Proof.
  intros m Hne Hlen Hbuild Htab Href Hrun. destruct seqs as [|q seqs0]; [done|]. set (seqs := q :: seqs0) in *.
  assert (0 < zlen seqs) by (unfold seqs; rewrite zlen_cons; pose proof (zlen_nonneg seqs0); lia).
  set (hd := sequence_count_header (zlen seqs)). pose proof (zlen_nonneg hd). pose proof (zlen_nonneg desc).
  exists (MkSeqHeader (zlen seqs) (MkModes m)), (zlen hd + 1).
  split; [by apply section_header_written; lia|]. split; [done|]. cbn [seqs].
  exists (zlen desc), ll_t, of_t, ml_t. rewrite <- Z.add_assoc, !zdrop_app_add by lia.
  change ([m] ++ desc ++ bs) with (m :: (desc ++ bs)).
  assert (forall k, 0 <= k -> zdrop (1 + k) (m :: (desc ++ bs)) = zdrop k (desc ++ bs)) as Hd.
  { intros k Hk. apply (zdrop_app_add [m] (desc ++ bs) k Hk). }
  rewrite (Hd (zlen desc)) by lia. pose proof (Hd 0 ltac:(lia)) as Hd1. change (1 + 0) with 1 in Hd1.
  pose proof (zdrop_app_add desc bs 0 ltac:(lia)) as Hd2. rewrite Z.add_0_r in Hd2. change (zdrop 0 ?l) with l in Hd1, Hd2.
  rewrite Hd1, Hd2. split; [exact Hbuild|]. split; [exact Htab|]. split; [exact Href|exact Hrun].
Qed.

(** What the encoder writes once the three tables are there. *)
Lemma section_finished dict s V hl ho hm seqs dl do_ dm cl co cm tl to_ tm sl so sm nl no nm raw :
  tables_linked dict s V hl ho hm -> Forall seq_ok seqs -> seqs <> [] -> zlen seqs < 0x7F00 + 0x10000 ->
  raw = section_raw_bits seqs ->
  zlen (state_table sl) = 512 -> zlen (state_table so) = 512 -> zlen (state_table sm) = 512 -> bytes dl -> bytes do_ -> bytes dm ->
  (tl = SCompressed -> 2 <= zlen dl /\ 5 <= ct_log cl /\ 2 <= zlen seqs) ->
  (to_ = SCompressed -> 2 <= zlen do_ /\ 5 <= ct_log co /\ 2 <= zlen seqs) ->
  (tm = SCompressed -> 2 <= zlen dm /\ 5 <= ct_log cm /\ 2 <= zlen seqs) ->
  (forall s1 rest, fse_wf dict s1 -> linked dict s1 0 ll_kind (vd_ll V) hl -> bytes rest ->
    read_as dict s1 0 ll_kind (vd_ll V) (ll_of <$> seqs) dl rest cl tl (next_held hl sl nl)) ->
  (forall s1 rest, fse_wf dict s1 -> linked dict s1 1 of_kind (vd_of V) ho -> bytes rest ->
    read_as dict s1 1 of_kind (vd_of V) (of_of <$> seqs) do_ rest co to_ (next_held ho so no)) ->
  (forall s1 rest, fse_wf dict s1 -> linked dict s1 2 ml_kind (vd_ml V) hm -> bytes rest ->
    read_as dict s1 2 ml_kind (vd_ml V) (ml_of <$> seqs) dm rest cm tm (next_held hm sm nm)) ->
  let last ty (desc : list Z) size := if bool_decide (ty = SCompressed) then zlen desc else size in
  let n := last tm dm (last to_ do_ (last tl dl 0)) in
  let modes := Z.lor (Z.lor (wshl 8 (encoding_id tl) 6) (wshl 8 (encoding_id to_) 4)) (wshl 8 (encoding_id tm) 2) in
  returns (section_written dict s V hl ho hm seqs)
    (bitstream ← encode_sequences_body (MkTablesC cl co cm) (with_codes <$> seqs) raw;
     if negb (n =? 0) && (n + zlen bitstream <? 4) then _ ← rassert (n + zlen bitstream =? 3); Ok (None, (sl, so, sm))
     else Ok (Some (sequence_count_header (zlen seqs) ++ [modes] ++ dl ++ do_ ++ dm ++ bitstream,
                MkFseNext nl no nm), (sl, so, sm)) : dec _).
Proof.
  intros Hk Hok Hne Hlen -> Sl So Sm Bl Bo Bm Cl Co Cm Readl Reado Readm last n modes.
  pose proof (fun bs Hbs => tables_read dict s V hl ho hm seqs dl do_ dm bs cl co cm tl to_ tm _ _ _ Hk Bl Bo Bm Hbs Readl Reado Readm) as Hread.
  cbv zeta in Hread. fold modes in Hread. pose proof (zlen_nonneg seqs).
  assert (0 < zlen seqs) by (destruct seqs; [done|]; rewrite zlen_cons; pose proof (zlen_nonneg seqs); lia).
  assert (Forall coded_seq (with_codes <$> seqs)) as Hcoded.
  { apply Forall_fmap. eapply Forall_impl; [exact Hok|]. apply with_codes_coded. }
  pose proof (fun tb tbo tbm il io im Ml Mo Mm Hcov => encoded_body_runs (MkTablesC cl co cm) (with_codes <$> seqs) (section_raw_bits seqs)
    tb tbo tbm il io im ltac:(rewrite zlen_fmap; change (2 ^ 17) with 131072; lia) Hcoded Hcov (Z.le_refl _) Ml Mo Mm) as Hbody.
  destruct (Hread [] ltac:(constructor)) as (s0 & tb0 & tbo0 & tbm0 & il0 & io0 & im0 & _ & _ & _ & Ml0 & Mo0 & Mm0 & Hcov0).
  destruct (Hbody _ _ _ _ _ _ Ml0 Mo0 Mm0 Hcov0) as (bs & Hbs & Bbs & Hlow & _ & _). rewrite Hbs. cbn [mbind res_bind].
  fold (section_raw_bits seqs) in Hlow.
  pose proof (mirrors_log _ _ _ _ _ Ml0) as [Lgl Ngl]. pose proof (mirrors_log _ _ _ _ _ Mo0) as [Lgo Ngo].
  pose proof (mirrors_log _ _ _ _ _ Mm0) as [Lgm Ngm]. cbn [tc_ll tc_of tc_ml] in Lgl, Lgo, Lgm.
  assert (0 <= section_raw_bits seqs) as Hraw by by apply sum_raw_nonneg.
  pose proof (last_count_small tl to_ tm dl do_ dm _ _ _ _ _ (zlen bs) Cl Co Cm ltac:(lia) ltac:(lia) ltac:(lia) Hraw ltac:(lia)) as Hsmall.
  destruct (negb (n =? 0) && (n + zlen bs <? 4)) eqn:En.
  { destruct (Hsmall En) as (Hn3 & H2 & Hr2). rewrite (proj2 (Z.eqb_eq (n + zlen bs) 3) Hn3). by do 3 (split; [done|]). }
  clear Hsmall En n last. cbn [returns section_written fn_ll fn_of fn_ml]. do 3 (split; [done|]).
  destruct (Hread bs Bbs) as (s' & tb & tbo & tbm & il & io & im & Hbuild & Htab & Hlk & Ml & Mo & Mm & Hcov).
  destruct (modes_written tl to_ tm) as (Hmb & _). fold modes in Hmb. split.
  { apply Forall_app. split; [by apply sequence_count_bytes; lia|]. apply Forall_cons. split; [done|].
    apply Forall_app. split; [done|]. apply Forall_app. split; [done|]. by apply Forall_app. }
  exists s'. split; [|done].
  replace (dl ++ do_ ++ dm ++ bs) with ((dl ++ do_ ++ dm) ++ bs) in * by by rewrite <- !app_assoc.
  destruct (Hbody _ _ _ _ _ _ Ml Mo Mm Hcov) as (bs' & Hbs' & _ & _ & Href & Hrun). rewrite Hbs in Hbs'. injection Hbs' as <-.
  rewrite zlen_fmap in Hrun, Href. replace (fst <$> (with_codes <$> seqs)) with seqs in Hrun, Href;
    [by apply (section_put_together dict s s' seqs tl to_ tm (dl ++ do_ ++ dm) bs tb tbo tbm Hne Hlen Hbuild Htab Href)|].
  rewrite <- list_fmap_compose. symmetry. apply list_fmap_id.
Qed.

Lemma section_encoded dict s V hl ho hm spl spo spm strategy seqs : tables_linked dict s V hl ho hm ->
  zlen (state_table spl) = 512 -> zlen (state_table spo) = 512 -> zlen (state_table spm) = 512 ->
  zlen seqs < 0x7F00 + 0x10000 -> Forall seq_ok seqs -> Forall (seq_valid V) seqs ->
  returns (section_written dict s V hl ho hm seqs)
    (encode_sequences_section_with seqs (MkFseTables (MkRef hl spl) (MkRef ho spo) (MkRef hm spm)) strategy : dec _).
Proof.
  intros Hk Hl5 Ho5 Hm5 Hlen Hok HV. unfold encode_sequences_section_with. cbn [ft_ll ft_of ft_ml tr_spare].
  destruct (Z.eqb_spec (zlen seqs) 0) as [H0|H0].
  { destruct seqs; [by apply empty_section_written|]. rewrite zlen_cons in H0. pose proof (zlen_nonneg seqs). lia. }
  assert (seqs <> []) as Hne by (by intros ->). pose proof (zlen_nonneg seqs).
  assert (zlen seqs < 2 ^ 17) as H17 by (change (2 ^ 17) with 131072; lia).
  rewrite seq_to_codes_ok by done. cbn [mbind res_bind]. pose proof Hk as [Hwf Kl Ko Km].
  assert (Forall (fun s => 0 <= ll_of s <= MAX_LL) seqs /\ Forall (fun s => 0 <= of_of s <= MAX_OFF) seqs /\
    Forall (fun s => 0 <= ml_of s <= MAX_ML) seqs) as (Rl & Ro & Rm).
  { split_and!; eapply Forall_impl; try exact Hok; intros q Hq; by apply code_ranges. }
  assert (Forall (fun s => vd_ll V (ll_of s)) seqs /\ Forall (fun s => vd_of V (of_of s)) seqs /\
    Forall (fun s => vd_ml V (ml_of s)) seqs) as (Vl & Vo & Vm).
  { split_and!; eapply Forall_impl; try exact HV; intros q Hq; apply Hq. }
  destruct (kind_encoded dict s 0 ll_kind _ _ _ _ ll_of (vd_ll V) hl spl strategy seqs (idx LL_BITS)
    (fun c => default 0 (zget LL_BITS c)) ll_enc_kind Hwf Kl Hl5 Rl Vl Hne H17) as (cl & mol & msl & Hhl & Hsl & Hrl & _ & Htl).
  { intros c Hc. apply (bits_default LL_BITS 36 c eq_refl). change (max_code ll_kind) with 35 in Hc. lia. }
  destruct (kind_encoded dict s 1 of_kind _ _ _ _ of_of (vd_of V) ho spo strategy seqs Ok
    (fun c => c) of_enc_kind Hwf Ko Ho5 Ro Vo Hne H17) as (co & moo & mso & Hho & Hso & Hro & _ & Hto); [done|].
  destruct (kind_encoded dict s 2 ml_kind _ _ _ _ ml_of (vd_ml V) hm spm strategy seqs (idx ML_BITS)
    (fun c => default 0 (zget ML_BITS c)) ml_enc_kind Hwf Km Hm5 Rm Vm Hne H17) as (cm & mom & msm & Hhm & Hsm & Hrm & _ & Htm).
  { intros c Hc. apply (bits_default ML_BITS 53 c eq_refl). change (max_code ml_kind) with 52 in Hc. lia. }
  change (max_code ll_kind) with MAX_LL in Hhl. change (max_code of_kind) with MAX_OFF in Hho. change (max_code ml_kind) with MAX_ML in Hhm.
  rewrite Hhl. cbn [mbind res_bind]. rewrite Hho. cbn [mbind res_bind]. rewrite Hhm. cbn [mbind res_bind].
  rewrite Hsl. cbn [mbind res_bind]. rewrite Hrl. cbn [mbind res_bind]. rewrite Hsm. cbn [mbind res_bind]. rewrite Hrm. cbn [mbind res_bind].
  rewrite Hso. cbn [mbind res_bind]. rewrite Hro. cbn [mbind res_bind].
  eapply returns_bind; [exact Htl|]. intros _ (dl & sl & ctl & nl & tl & -> & Sl & Bl & Cl & _ & Readl).
  eapply returns_bind; [exact Hto|]. intros _ (do_ & so & cto & no & to_ & -> & So & Bo & Co & _ & Reado).
  eapply returns_bind; [exact Htm|]. intros _ (dm & sm & ctm & nm & tm & -> & Sm & Bm & Cm & _ & Readm).
  rewrite zip_codes. apply section_finished; try done.
  rewrite section_raw_split. done.
Qed.

(** ** Block after block *)

(** A slot pair of the encoder, linked to table [t] of the decoder. *)
Definition slot_linked (dict : option FSEScratch) (s : FSEScratch) (t : Z) (kind : SeqTableKind) (V : Z -> Prop)
    (sl : Slots FseCTable) : Prop :=
  slots_wf sl /\ Forall (fun ct => zlen (state_table ct) = 512) (slots sl) /\
  exists h, slots_held sl = (Ok h : dec _) /\ linked dict s t kind V h.

Record slots_linked (dict : option FSEScratch) (s : FSEScratch) (V : SeqValid) (st : FseSlots) : Prop := {
  sk_wf : fse_wf dict s;
  sk_ll : slot_linked dict s 0 ll_kind (vd_ll V) (fs_ll st);
  sk_of : slot_linked dict s 1 of_kind (vd_of V) (fs_of st);
  sk_ml : slot_linked dict s 2 ml_kind (vd_ml V) (fs_ml st);
}.

(** The slots a block leaves, its table put, and committed as it decides. *)
Lemma slot_step dict s t kind V sl : slot_linked dict s t kind V sl -> exists h spare,
  slots_split sl = (Ok (MkRef h spare) : dec _) /\ zlen (state_table spare) = 512 /\ linked dict s t kind V h /\
  forall spare', zlen (state_table spare') = 512 -> exists sl', put_spare sl spare' = (Ok sl' : dec _) /\
    forall s' next, linked dict s' t kind V (next_held h spare' next) -> slot_linked dict s' t kind V (slots_commit sl' next).
Proof.
  intros (Hw & H512 & h & Hh & Hlk). destruct (slots_written (E := DecodeError) (fun ct => zlen (state_table ct) = 512) sl Hw H512) as (h' & spare & Hh' & Hs & H5 & Hput).
  rewrite Hh in Hh'. injection Hh' as <-. exists h, spare. split; [done|]. split; [done|]. split; [done|].
  intros spare' Hsp. destruct (Hput spare' Hsp) as (sl' & Hp & Hc). exists sl'. split; [done|].
  intros s' next Hlk'. destruct (Hc next) as (Hw' & H5' & Hheld). split; [done|]. split; [done|]. by exists (next_held h spare' next).
Qed.

(** A block's section, its tables put in the spare slots: linked again,
    whether the block commits them or is dropped. *)
Lemma section_step dict s V st strategy seqs :
  slots_linked dict s V st -> zlen seqs < 0x7F00 + 0x10000 -> Forall seq_ok seqs -> Forall (seq_valid V) seqs ->
  exists tables o ll of_ ml st', fse_split st = (Ok tables : dec _) /\
  encode_sequences_section_with seqs tables strategy = (Ok (o, (ll, of_, ml)) : dec _) /\
  fse_put st ll of_ ml = (Ok st' : dec _) /\ slots_linked dict s V st' /\
  match o with
  | None => 2 <= zlen seqs /\ section_raw_bits seqs <= 2
  | Some (out, next) => bytes out /\ exists s', section_reads dict s out seqs s' /\ slots_linked dict s' V (fse_commit st' next)
  end.
Proof.
  intros [Hwf Hl Ho Hm] Hlen Hok HV.
  destruct (slot_step _ _ _ _ _ _ Hl) as (hl & spl & Sl & Ll & Kl & Pl).
  destruct (slot_step _ _ _ _ _ _ Ho) as (ho & spo & So & Lo & Ko & Po).
  destruct (slot_step _ _ _ _ _ _ Hm) as (hm & spm & Sm & Lm & Km & Pm).
  destruct (returns_inv _ _ (section_encoded dict s V hl ho hm spl spo spm strategy seqs
    (Build_tables_linked _ _ _ _ _ _ Hwf Kl Ko Km) Ll Lo Lm Hlen Hok HV)) as ([o [[ll of_] ml]] & Hr & L1 & L2 & L3 & Hsec).
  destruct (Pl ll L1) as (sl1 & El & Fl). destruct (Po of_ L2) as (so1 & Eo & Fo). destruct (Pm ml L3) as (sm1 & Em & Fm).
  exists (MkFseTables (MkRef hl spl) (MkRef ho spo) (MkRef hm spm)), o, ll, of_, ml, (MkFseSlots sl1 so1 sm1).
  split; [unfold fse_split; rewrite Sl; cbn [mbind res_bind]; rewrite So; cbn [mbind res_bind]; by rewrite Sm|].
  split; [done|]. split; [unfold fse_put; rewrite El; cbn [mbind res_bind]; rewrite Eo; cbn [mbind res_bind]; by rewrite Em|].
  split; [split; [done|by apply (Fl s NKeep)|by apply (Fo s NKeep)|by apply (Fm s NKeep)]|].
  destruct o as [[out next]|]; [|done]. destruct Hsec as (Hb & s' & Hread & [Hwf' K1 K2 K3]). split; [done|].
  exists s'. split; [done|]. split; [done|by apply Fl|by apply Fo|by apply Fm].
Qed.

(** C8: The sequences section round-trips, block after block. For any
    sequences of a block (lengths of at most 128 KiB, 32-bit offset sums,
    within the format's count), any strategy, and any table slots that are
    linked to the decoder's tables (each held table mirrors the decoder's, and
    a [Valid] one has the block's codes), [encode_sequences_section_with]
    succeeds: no index, no assertion. It gives no section only when there are
    two sequences at least with two raw bits at most in all; the slots, its
    spares written, are then still linked. Otherwise the
    decoder parses the section's header to the same count, builds its tables
    from the descriptions, and the stream runs as the sequences in every copy
    variant and memory that meets the contracts; and once the block's tables
    are put and committed, the slots are linked to the decoder's again. *)
Theorem sequences_section_roundtrip dict s V st strategy seqs :
  slots_linked dict s V st -> zlen seqs < 0x7F00 + 0x10000 -> Forall seq_ok seqs -> Forall (seq_valid V) seqs ->
  exists tables o ll of_ ml st', fse_split st = (Ok tables : dec _) /\
  encode_sequences_section_with seqs tables strategy = (Ok (o, (ll, of_, ml)) : dec _) /\
  fse_put st ll of_ ml = (Ok st' : dec _) /\ slots_linked dict s V st' /\
  match o with
  | None => 2 <= zlen seqs /\ section_raw_bits seqs <= 2
  | Some (out, next) => bytes out /\ exists s', section_reads dict s out seqs s' /\ slots_linked dict s' V (fse_commit st' next)
  end.
Proof. apply section_step. Qed.

(** Fresh slots: nothing held. *)
Lemma fresh_linked V : slots_linked None fse_new V (MkFseSlots (slots_default ctable_default)
  (slots_default ctable_default) (slots_default ctable_default)).
Proof.
  assert (forall t kind W, slot_linked None fse_new t kind W (slots_default ctable_default)) as H.
  { intros t kind W. split; [split; [done|by left]|]. split; [by repeat constructor|]. exists HNone. split; [done|].
    by exists (fun _ => True). }
  split; try apply H. apply fse_new_wf.
Qed.

(** Ten sequences, three new tables. *)
Lemma sequences_section_roundtrip_witness : exists tables spares s' st',
  let qs := [MkSeq 5 6 10; MkSeq 9 7 12; MkSeq 5 6 10; MkSeq 5 6 10] ++ replicate 6 (MkSeq 5 100 10) in
  let out := [10; 168; 16; 174; 231; 1; 16; 122; 225; 7; 16; 126; 122; 28; 36; 137; 76; 34; 67; 146; 182; 241; 133; 23] in
  let d := slots_default ctable_default in
  fse_split (MkFseSlots d d d) = (Ok tables : dec _) /\
  encode_sequences_section_with qs tables Lazy2 = (Ok (Some (out, MkFseNext NNew NNew NNew), spares) : dec _) /\
  section_reads None fse_new out qs s' /\
  slots_linked None s' (MkValid (fun _ => True) (fun _ => True) (fun _ => True)) (fse_commit st' (MkFseNext NNew NNew NNew)).
Proof.
  cbv zeta. set (qs := [MkSeq 5 6 10; MkSeq 9 7 12; MkSeq 5 6 10; MkSeq 5 6 10] ++ replicate 6 (MkSeq 5 100 10)).
  set (V := MkValid (fun _ => True) (fun _ => True) (fun _ => True)).
  assert (Forall seq_ok qs) as Hok by (repeat constructor; cbn; lia).
  assert (Forall (seq_valid V) qs) as HV by (repeat constructor).
  destruct (sequences_section_roundtrip None fse_new V _ Lazy2 qs (fresh_linked V) ltac:(vm_compute; reflexivity) Hok HV)
    as (tables & o & ll & of_ & ml & st' & Hsplit & Hr & _ & _ & H).
  set (d := slots_default ctable_default) in *.
  assert (fse_split (MkFseSlots d d d) = (Ok (MkFseTables (MkRef HNone ctable_default) (MkRef HNone ctable_default)
    (MkRef HNone ctable_default)) : dec _)) as Hs by (vm_compute; reflexivity).
  rewrite Hs in Hsplit. injection Hsplit as <-.
  destruct o as [[out next]|]; [|vm_compute in Hr; discriminate Hr].
  destruct H as (_ & s' & Hread & Hlk).
  assert (out = [10; 168; 16; 174; 231; 1; 16; 122; 225; 7; 16; 126; 122; 28; 36; 137; 76; 34; 67; 146; 182; 241; 133; 23] /\
    next = MkFseNext NNew NNew NNew) as [-> ->] by (vm_compute in Hr; injection Hr as <- <-; split; reflexivity).
  eexists _, (ll, of_, ml), s', st'. split; [exact Hs|]. split; [exact Hr|]. split; [exact Hread|exact Hlk].
Defined.
