(* ===== verification/HufCStream.v ===== *)
(** * The Huffman literals encoder ([src/huf.rs])

    A built table ([HufTable]) and the streams coded with it: [HufCStream],
    whose two containers fill from the top and whose fast adds leave noise
    below the live bits, and the one- and four-stream coders. The proofs are
    in [HufRoundTrip]. The debug assertions are assertions of the model. *)

From S2P Require Import Prelude Words Constants.

(** ** Tables *)

(** [HUF_TABLELOG_MAX] of the encoder; the decoder has its own. *)
Definition HUF_CTABLELOG_MAX : Z := 12.
Definition HUF_TABLELOG_DEFAULT : Z := 11.
Definition HUF_SYMBOLVALUE_MAX : Z := 255.

(** [HufTable]: of an element the low 8 bits are the code's length, and the
    top bits its value. *)
Record HufTable := MkHufTable {
  elts : list Z;
  he_log : Z;   (* table_log *)
  he_max : Z;   (* max_symbol *)
}.

(** [HufTable::default()]. *)
Definition huf_table_default : HufTable := MkHufTable (zrepeat 0 256) 0 0.

(** ** The stream *)

Record HufCStream := MkHufCStream {
  hc_bits0 : Z;
  hc_bits1 : Z;
  hc_pos0 : Z;
  hc_pos1 : Z;
  hc_buf : list Z;
  hc_ptr : Z;
}.

(** [HUF_tightCompressBound]. *)
Definition tight_compress_bound (src_size table_log : Z) : Z := Z.shiftr (src_size * table_log) 3 + 8.

Section cstream.
Context {E : Type}.

(** [HufTable::nb_bits]. *)
Definition huf_nb_bits (t : HufTable) (symbol : Z) : res E Z :=
  e ← idx (elts t) symbol;
  Ok (Z.land e 0xFF).

(** [HufTable::value]. *)
Definition huf_value (t : HufTable) (symbol : Z) : res E Z :=
  nb ← huf_nb_bits t symbol;
  if nb =? 0 then Ok 0
  else
    e ← idx (elts t) symbol;
    Ok (wrap 32 (Z.shiftr e (64 - nb))).

(** [add_bits] on one container: its bits and position after. *)
Definition huf_add (fast : bool) (bits pos elt : Z) : res E (Z * Z) :=
  _ ← rassert (Z.land elt 0xFF <? 64);
  Ok (Z.lor (Z.shiftr bits (Z.land elt 0xFF)) (if fast then elt else Z.land elt (wnot 64 0xFF)),
      wadd 64 pos (if fast then elt else Z.land elt 0xFF)).

(** [HufCStream::add_bits], [second] for [idx] 1. *)
Definition huf_add_bits (fast second : bool) (s : HufCStream) (elt : Z) : res E HufCStream :=
  if second then
    '(bits, pos) ← huf_add fast (hc_bits1 s) (hc_pos1 s) elt;
    Ok (MkHufCStream (hc_bits0 s) bits (hc_pos0 s) pos (hc_buf s) (hc_ptr s))
  else
    '(bits, pos) ← huf_add fast (hc_bits0 s) (hc_pos0 s) elt;
    Ok (MkHufCStream bits (hc_bits1 s) pos (hc_pos1 s) (hc_buf s) (hc_ptr s)).

(** [HufCStream::zero_index1]. *)
Definition zero_index1 (s : HufCStream) : HufCStream :=
  MkHufCStream (hc_bits0 s) 0 (hc_pos0 s) 0 (hc_buf s) (hc_ptr s).

(** [HufCStream::merge_index1]. *)
Definition merge_index1 (s : HufCStream) : res E HufCStream :=
  _ ← rassert (Z.land (hc_pos1 s) 0xFF <? 64);
  Ok (MkHufCStream (Z.lor (Z.shiftr (hc_bits0 s) (Z.land (hc_pos1 s) 0xFF)) (hc_bits1 s)) (hc_bits1 s)
        (wadd 64 (hc_pos0 s) (hc_pos1 s)) (hc_pos1 s) (hc_buf s) (hc_ptr s)).

(** [HufCStream::flush_bits]; its unchecked store is checked. *)
Definition huf_flush_bits (s : HufCStream) : res E HufCStream :=
  let nb_bits := Z.land (hc_pos0 s) 0xFF in
  _ ← rassert ((0 <? nb_bits) && (nb_bits <=? 64));
  let nb_bytes := Z.shiftr nb_bits 3 in
  let word := Z.shiftr (hc_bits0 s) (64 - nb_bits) in
  _ ← rassert (hc_ptr s + 8 <=? zlen (hc_buf s));
  buf ← copy_from_slice (hc_buf s) (hc_ptr s) (hc_ptr s + 8) (le_bytes 8 word);
  Ok (MkHufCStream (hc_bits0 s) (hc_bits1 s) (Z.land (hc_pos0 s) 7) (hc_pos1 s) buf (hc_ptr s + nb_bytes)).

(** [END_MARK] of [HufCStream::close]. *)
Definition END_MARK : Z := Z.lor (Z.shiftl 1 63) 1.

(** [HufCStream::close]: the size, and the buffer. *)
Definition huf_close (s : HufCStream) : res E (Z * list Z) :=
  s ← huf_add_bits false false s END_MARK;
  s ← huf_flush_bits s;
  Ok (hc_ptr s + Z.b2z (0 <? Z.land (hc_pos0 s) 0xFF), hc_buf s).

(** One symbol. *)
Definition huf_symbol (fast second : bool) (ct : list Z) (s : HufCStream) (sym : Z) : res E HufCStream :=
  elt ← idx ct sym;
  huf_add_bits fast second s elt.

(** [encode_group], from the last symbol of the group to the first. *)
Definition encode_group (k : Z) (last_fast : bool) (s : HufCStream) (group ct : list Z) (second : bool)
    : res E HufCStream :=
  s ← foldM (fun s u => sym ← idx group (k - u); huf_symbol true second ct s sym) s (seqZ 1 (k - 1));
  sym ← idx group 0;
  huf_symbol last_fast second ct s sym.

(** One pair of groups of [compress_1x_loop]. *)
Definition encode_pair (k : Z) (last_fast : bool) (ct : list Z) (s : HufCStream) (pair : list Z) : res E HufCStream :=
  lo ← slice pair 0 k;
  hi ← slice_from pair k;
  s ← encode_group k last_fast s hi ct false;
  s ← huf_flush_bits s;
  let s := zero_index1 s in
  s ← encode_group k last_fast s lo ct true;
  s ← merge_index1 s;
  huf_flush_bits s.

(** [ip[..n].rchunks_exact(m)]. *)
Definition rchunks_exact (m n : Z) (ip : list Z) : list (list Z) :=
  (fun i => ztake m (zdrop (n - (i + 1) * m) ip)) <$> seqZ 0 (n / m).

(** [compress_1x_loop]. *)
Definition compress_1x_loop (k : Z) (last_fast : bool) (s : HufCStream) (ip ct : list Z) : res E HufCStream :=
  let n := zlen ip in
  let rem := n mod k in
  '(s, n) ←
    (if 0 <? rem then
       tail ← slice_from ip (n - rem);
       s ← foldM (huf_symbol false false ct) s (reverse tail);
       s ← huf_flush_bits s;
       Ok (s, n - rem)
     else Ok (s, n));
  '(s, n) ←
    (if negb (n mod (2 * k) =? 0) then
       group ← slice ip (n - k) n;
       s ← encode_group k last_fast s group ct false;
       s ← huf_flush_bits s;
       Ok (s, n - k)
     else Ok (s, n));
  foldM (encode_pair k last_fast ct) s (rchunks_exact (2 * k) n ip).

(** The group size and the last add of [compress_1x_using_ctable]'s switch. *)
Definition huf_unroll (table_log : Z) : Z * bool :=
  if table_log =? 11 then (5, false)
  else if table_log =? 10 then (5, true)
  else if table_log =? 9 then (6, false)
  else if table_log =? 8 then (7, false)
  else if table_log =? 7 then (8, false)
  else (9, true).

(** [compress_1x_using_ctable]: what is appended to [out]. *)
Definition compress_1x_using_ctable (src : list Z) (table : HufTable) : res E (list Z) :=
  let table_log := he_log table in
  let buf := zrepeat 0 (tight_compress_bound (zlen src) table_log) in
  let '(k, last_fast) := huf_unroll table_log in
  s ← compress_1x_loop k last_fast (MkHufCStream 0 0 0 0 buf 0) src (elts table);
  '(size, buf) ← huf_close s;
  slice buf 0 size.

(** One stream of [compress_4x_using_ctable]: [None] for a size the jump
    table does not hold. *)
Definition compress_4x_stream (src : list Z) (segment_size : Z) (table : HufTable)
    (acc : option (list Z * list Z * Z)) (i : Z) : res E (option (list Z * list Z * Z)) :=
  match acc with
  | None => Ok None
  | Some (jump, streams, ip) =>
      let end_ := if i <? 3 then ip + segment_size else zlen src in
      part ← slice src ip end_;
      s ← compress_1x_using_ctable part table;
      let c_size := zlen s in
      if (c_size =? 0) || (65535 <? c_size) then Ok None
      else
        jump ← (if i <? 3 then copy_from_slice jump (2 * i) (2 * i + 2) (le_bytes 2 (wrap 16 c_size)) else Ok jump);
        Ok (Some (jump, streams ++ s, end_))
  end.

(** [compress_4x_using_ctable]: what is appended to [out], empty for its 0. *)
Definition compress_4x_using_ctable (src : list Z) (table : HufTable) : res E (list Z) :=
  let src_size := zlen src in
  let segment_size := div_ceil src_size 4 in
  if src_size <? 12 then Ok []
  else
    r ← foldM (compress_4x_stream src segment_size table) (Some (zrepeat 0 6, [], 0)) (seqZ 0 4);
    Ok (match r with Some (jump, streams, _) => jump ++ streams | None => [] end).
End cstream.
