(* ===== verification/HufRoundTrip.v ===== *)
(** * Huffman streams round-trip

    Every add of [HufCStream] writes its code above what the container holds,
    the noise of the fast ones staying below it, so that a stream is the
    number of its codes ([pack]), the last symbol lowest. The decoder, which
    reads from the top, gets the symbols back in order. *)

From S2P Require Import Prelude Words Constants Errors FseBuild BitDStream HufTable HufWeights HufFill HufStream.
From S2P Require Import HufDecode HufFast HeaderUnits BitCStream SeqStream HufCStream.

(** ** One container *)

(** The container [c] at position [pos] holds the [p]-bit number [P] at its
    top, and below it noise that leaves [64 - R] bits free under the codes. *)
Record holding (R c pos p P : Z) : Prop := {
  hd_range : 0 <= c < 2 ^ 64;
  hd_pos : pos mod 256 = p;
  hd_bits : 0 <= p <= R;
  hd_room : R <= 64;
  hd_value : c / 2 ^ (64 - p) = P;
  hd_noise : c mod 2 ^ (64 - p) < 2 ^ (R - p);
}.

(** An element: a code of [nb] bits. *)
Definition elt_of (v nb : Z) : Z := v * 2 ^ (64 - nb) + nb.

Lemma elt_low v nb : 1 <= nb <= 11 -> 0 <= v < 2 ^ nb ->
  Z.land (elt_of v nb) 0xFF = nb /\ Z.land (elt_of v nb) (wnot 64 0xFF) = v * 2 ^ (64 - nb) /\ elt_of v nb mod 256 = nb.
Proof.
  intros Hn Hv. unfold elt_of.
  assert (2 ^ (64 - nb) = 256 * 2 ^ (56 - nb)) as Hp by (change 256 with (2 ^ 8); rewrite <- pow2_add by lia; f_equal; lia).
  assert ((v * 2 ^ (64 - nb) + nb) mod 256 = nb) as Hm.
  { rewrite Hp. replace (v * (256 * 2 ^ (56 - nb)) + nb) with (nb + v * 2 ^ (56 - nb) * 256) by ring.
    rewrite Z_mod_plus_full. apply Z.mod_small. lia. }
  assert (v * 2 ^ (64 - nb) + nb < 2 ^ 64) as Hlt.
  { assert (2 ^ 64 = 2 ^ nb * 2 ^ (64 - nb)) as -> by (rewrite <- pow2_add by lia; f_equal; lia).
    pose proof (pow2_le 6 (64 - nb) ltac:(lia)) as H6. change (2 ^ 6) with 64 in H6. nia. }
  split; [change 0xFF with (2 ^ 8 - 1); by rewrite land_mod by lia|]. split; [|done].
  change (wnot 64 0xFF) with ((2 ^ 56 - 1) * 2 ^ 8). set (e := v * 2 ^ (64 - nb) + nb) in *.
  assert (0 <= e) as He0 by (unfold e; pose proof (pow2_pos (64 - nb) ltac:(lia)); nia).
  assert (v * 2 ^ (64 - nb) = e / 256 * 2 ^ 8) as ->.
  { pose proof (Z.div_mod e 256 ltac:(lia)) as Hd. rewrite Hm in Hd. change (2 ^ 8) with 256. unfold e in Hd at 1. lia. }
  apply Z.bits_inj'. intros i Hi. rewrite Z.land_spec. destruct (Z.ltb_spec i 8) as [H8|H8].
  - rewrite !Z.mul_pow2_bits_low by lia. by rewrite andb_false_r.
  - rewrite !Z.mul_pow2_bits by lia. change 256 with (2 ^ 8). rewrite Z.div_pow2_bits by lia.
    replace (i - 8 + 8) with i by lia. change (2 ^ 56 - 1) with (Z.ones 56).
    destruct (Z.ltb_spec (i - 8) 56).
    + rewrite Z.ones_spec_low by lia. by rewrite andb_true_r.
    + rewrite Z.ones_spec_high by lia. rewrite andb_false_r. symmetry.
      rewrite <- (Z.mod_small e (2 ^ 64)) by lia. by apply Z.mod_pow2_bits_high; lia.
Qed.

Lemma lor_part a b c k : 0 <= k -> 0 <= b < 2 ^ k -> 0 <= c < 2 ^ k -> Z.lor b (a * 2 ^ k + c) = a * 2 ^ k + Z.lor b c.
Proof.
  intros Hk Hb Hc. pose proof (lor_bounds b c k Hk Hb Hc).
  rewrite (Z.add_comm (a * 2 ^ k) c), <- (lor_disjoint_add c a k Hk Hc), Z.lor_assoc.
  rewrite (lor_disjoint_add (Z.lor b c) a k) by lia. lia.
Qed.

Lemma huf_add_ok {E} R (fast : bool) c pos p P v nb : holding R c pos p P -> 1 <= nb <= 11 -> 0 <= v < 2 ^ nb -> p + nb <= R ->
  (fast = true -> nb < 2 ^ (R - (p + nb))) ->
  returns (fun '(c', pos') => holding R c' pos' (p + nb) (P + 2 ^ p * v)) (huf_add fast c pos (elt_of v nb) : res E _).
Proof.
  intros [Hc Hpos Hp HR HP Hg] Hn Hv Hroom Hfast. destruct (elt_low v nb Hn Hv) as (Hl & Hh & Hm).
  unfold huf_add. rewrite Hl, Hh. rewrite (proj2 (Z.ltb_lt nb 64)) by lia. cbn [rassert mbind res_bind returns].
  rewrite shiftr_div by lia. set (g := c mod 2 ^ (64 - p)) in *. set (low := if fast then nb else 0).
  assert ((if fast then elt_of v nb else v * 2 ^ (64 - nb)) = v * 2 ^ (64 - nb) + low) as ->.
  { unfold low, elt_of. destruct fast; lia. }
  set (m := 64 - (p + nb)). pose proof (pow2_pos nb ltac:(lia)) as Pn. pose proof (pow2_pos m ltac:(lia)) as Pm.
  assert (c = P * 2 ^ m * 2 ^ nb + g) as Hcd.
  { rewrite <- Z.mul_assoc, <- pow2_add by lia. replace (m + nb) with (64 - p) by lia. rewrite <- HP.
    pose proof (Z.div_mod c (2 ^ (64 - p)) ltac:(pose proof (pow2_pos (64 - p)); lia)). unfold g. lia. }
  assert (0 <= g) as Hg0 by (apply Z.mod_pos_bound, pow2_pos; lia).
  assert (c / 2 ^ nb = P * 2 ^ m + g / 2 ^ nb) as ->.
  { rewrite Hcd at 1. rewrite Z.div_add_l by lia. done. }
  assert (2 ^ (R - p) = 2 ^ (R - (p + nb)) * 2 ^ nb) as HRp by (rewrite <- pow2_add by lia; f_equal; lia).
  pose proof (pow2_pos (R - (p + nb)) ltac:(lia)) as PR. pose proof (pow2_le (R - (p + nb)) m ltac:(lia)) as HRm.
  assert (0 <= g / 2 ^ nb < 2 ^ (R - (p + nb))) as Hgn.
  { split; [apply Z.div_pos; lia|]. apply Z.div_lt_upper_bound; lia. }
  assert (0 <= low < 2 ^ (R - (p + nb))) as Hlow by (unfold low; destruct fast; [specialize (Hfast eq_refl)|]; lia).
  assert (0 <= P < 2 ^ p) as HPr.
  { rewrite <- HP. split; [apply Z.div_pos; [lia|apply pow2_pos; lia]|]. apply Z.div_lt_upper_bound; [apply pow2_pos; lia|].
    rewrite <- pow2_add by lia. replace (64 - p + p) with 64 by lia. lia. }
  assert (2 ^ (64 - nb) = 2 ^ p * 2 ^ m) as H64 by (rewrite <- pow2_add by lia; f_equal; lia).
  pose proof (lor_bounds (g / 2 ^ nb) low (R - (p + nb)) ltac:(lia) Hgn Hlow) as Hgl. set (gl := Z.lor (g / 2 ^ nb) low) in *.
  assert (Z.lor (P * 2 ^ m + g / 2 ^ nb) (v * 2 ^ (64 - nb) + low) = (P + 2 ^ p * v) * 2 ^ m + gl) as ->.
  { rewrite lor_part; [|lia|rewrite H64; nia|rewrite H64; nia].
    rewrite (Z.lor_comm _ low), lor_part by lia. rewrite (Z.lor_comm low). fold gl. rewrite H64. ring. }
  assert (0 <= P + 2 ^ p * v < 2 ^ (p + nb)) as HPv by (rewrite pow2_add by lia; nia).
  assert (2 ^ 64 = 2 ^ (p + nb) * 2 ^ m) as H642 by (rewrite <- pow2_add by lia; f_equal; lia).
  split; fold m; try lia.
  - nia.
  - assert (256 = 2 ^ 8) as H256 by done.
    assert ((if fast then elt_of v nb else nb) mod 256 = nb) as Hel by (destruct fast; [done|apply Z.mod_small; lia]).
    unfold wadd, wrap. change (2 ^ 64) with (256 * 2 ^ 56). rewrite Z.rem_mul_r by lia.
    rewrite (Z.mul_comm 256), Z_mod_plus_full, Z.mod_mod, Zplus_mod, Hel, Hpos by lia. apply Z.mod_small. lia.
  - rewrite Z.div_add_l, (Z.div_small gl) by lia. lia.
  - rewrite (Z.add_comm _ gl), Z_mod_plus_full, Z.mod_small by lia. lia.
Qed.

(** ** Symbols *)

(** A container and its position. *)
Definition side (second : bool) (s : HufCStream) : Z * Z :=
  if second then (hc_bits1 s, hc_pos1 s) else (hc_bits0 s, hc_pos0 s).

(** What an add leaves alone. *)
Definition same_rest (second : bool) (s s' : HufCStream) : Prop :=
  side (negb second) s' = side (negb second) s /\ hc_buf s' = hc_buf s /\ hc_ptr s' = hc_ptr s.

(** The elements of the symbols [covers] are codes of at most [L] bits. *)
Definition elts_ok (ct : list Z) (L : Z) (covers : Z -> Prop) : Prop :=
  forall s, covers s -> exists v nb, zget ct s = Some (elt_of v nb) /\ 1 <= nb <= L /\ 0 <= v < 2 ^ nb.

(** A symbol's code: its value and its length. *)
Definition code_of (ct : list Z) (s : Z) : Z * Z :=
  let e := default 0 (zget ct s) in (e / 2 ^ (64 - e mod 256), e mod 256).

Lemma code_of_elt ct s v nb : zget ct s = Some (elt_of v nb) -> 1 <= nb <= 11 -> 0 <= v < 2 ^ nb -> code_of ct s = (v, nb).
Proof.
  intros Hs Hn Hv. unfold code_of. rewrite Hs. change (default 0 (Some (elt_of v nb))) with (elt_of v nb).
  destruct (elt_low v nb Hn Hv) as (_ & _ & Hm). cbv zeta. rewrite Hm. unfold elt_of. f_equal.
  pose proof (pow2_le 6 (64 - nb) ltac:(lia)) as H6. change (2 ^ 6) with 64 in H6.
  rewrite Z.div_add_l, Z.div_small by lia. lia.
Qed.

Section symbols.
Context (ct : list Z) (L : Z) (covers : Z -> Prop) (HL : 1 <= L <= 11) (Hct : elts_ok ct L covers).

Abbreviation codes := (fmap (code_of ct)).

Lemma codes_width syms : Forall covers syms -> widths_ok (codes syms) /\ zlen syms <= width (codes syms) <= zlen syms * L.
Proof.
  induction 1 as [|s syms Hs Hsyms [IH1 IH2]]; [done|]. rewrite fmap_cons, zlen_cons.
  destruct (Hct s Hs) as (v & nb & He & Hn & Hv). rewrite (code_of_elt ct s v nb He) by lia. rewrite width_cons.
  split; [|lia]. apply Forall_cons. cbn. split; [lia|done].
Qed.

Lemma huf_symbols_ok {E} R (fast second : bool) syms : Forall covers syms -> forall s p P,
  holding R (side second s).1 (side second s).2 p P -> p + zlen syms * L <= R ->
  (fast = true -> L < 2 ^ (R - (p + zlen syms * L))) ->
  returns (fun s' => holding R (side second s').1 (side second s').2 (p + width (codes syms)) (P + 2 ^ p * pack (codes syms)) /\
      same_rest second s s') (foldM (huf_symbol fast second ct) s syms : res E _).
Proof.
  induction 1 as [|x syms Hx Hs IH]; intros s p P Hh Hr Hf; cbn [foldM].
  - cbn [fmap list_fmap pack]. change (width []) with 0. rewrite Z.mul_0_r, !Z.add_0_r. done.
  - rewrite zlen_cons in Hr, Hf. pose proof (zlen_nonneg syms). pose proof (hd_bits _ _ _ _ _ Hh).
    destruct (Hct x Hx) as (v & nb & He & Hn & Hv). rewrite fmap_cons, (code_of_elt ct x v nb He) by lia.
    unfold huf_symbol at 2. rewrite (idx_ok _ _ _ He). cbn [mbind res_bind].
    assert (fast = true -> nb < 2 ^ (R - (p + nb))) as Hfn.
    { intros Hft. specialize (Hf Hft). pose proof (pow2_le (R - (p + (zlen syms + 1) * L)) (R - (p + nb)) ltac:(nia)). lia. }
    assert (returns (fun s' => holding R (side second s').1 (side second s').2 (p + nb) (P + 2 ^ p * v) /\ same_rest second s s')
      (huf_add_bits fast second s (elt_of v nb) : res E _)) as Hadd.
    { pose proof (huf_add_ok (E := E) R fast _ _ p P v nb Hh ltac:(lia) Hv ltac:(nia) Hfn) as Ha.
      unfold huf_add_bits. destruct second; cbn [side fst snd] in Ha;
        (eapply returns_bind; [exact Ha|]); intros [bits pos] Hb; by cbn. }
    eapply returns_bind; [exact Hadd|]. intros s1 [H1 S1].
    eapply returns_mono; [apply (IH s1 (p + nb) _ H1); [nia|]|].
    { intros Hft. specialize (Hf Hft). pose proof (pow2_le (R - (p + (zlen syms + 1) * L)) (R - (p + nb + zlen syms * L)) ltac:(nia)). lia. }
    intros s2 [H2 S2]. cbn [pack]. rewrite width_cons. split.
    + rewrite (Z.mod_small v) by lia. replace (p + (nb + width (codes syms))) with (p + nb + width (codes syms)) by lia.
      replace (P + 2 ^ p * (v + 2 ^ nb * pack (codes syms))) with (P + 2 ^ p * v + 2 ^ (p + nb) * pack (codes syms))
        by (rewrite pow2_add by lia; ring). done.
    + destruct S1 as (A1 & B1 & C1), S2 as (A2 & B2 & C2). split; [by rewrite A2, A1|]. split; [by rewrite B2, B1|by rewrite C2, C1].
Qed.

(** A loop that walks a group's indices down from its end. *)
Lemma foldM_down {E A B} (f : A -> B -> res E A) (l : list B) s :
  foldM (fun s u => x ← idx l (zlen l - u); f s x) s (seqZ 1 (zlen l)) = foldM f s (reverse l).
Proof.
  revert s. induction l as [|b l IH] using rev_ind; intros s; [done|].
  rewrite reverse_snoc. rewrite zlen_app. change (zlen [b]) with 1. rewrite seqZ_cons by (pose proof (zlen_nonneg l); lia).
  cbn [foldM]. rewrite (idx_ok (l ++ [b]) _ b) by (rewrite zget_app_r by lia; by replace (zlen l + 1 - 1 - zlen l) with 0 by lia).
  cbn [mbind res_bind]. destruct (f s b) as [s1| | |]; cbn [mbind res_bind]; try done. rewrite <- IH.
  replace (Z.pred (zlen l + 1)) with (zlen l) by lia.
  assert (seqZ (Z.succ 1) (zlen l) = (fun u => u + 1) <$> seqZ 1 (zlen l)) as ->.
  { apply zlist_eq; [rewrite zlen_fmap, !zlen_seqZ by (apply zlen_nonneg); done|]. intros i Hi.
    rewrite zlen_seqZ in Hi by apply zlen_nonneg. rewrite zget_fmap, !seqZ_zget by lia. cbn. f_equal. lia. }
  clear IH. revert s1. assert (Forall (fun u => 1 <= u <= zlen l) (seqZ 1 (zlen l))) as Hu.
  { apply Forall_forall. intros u [i Hi]%list_elem_of_lookup_1. apply lookup_seqZ in Hi. lia. }
  induction Hu as [|u us Hu Hus IHu]; intros s1; [done|]. rewrite fmap_cons. cbn [foldM].
  destruct (zget_is_Some l (zlen l - u) ltac:(lia)) as [x Hx]. rewrite (idx_ok l _ x Hx).
  rewrite (idx_ok (l ++ [b]) _ x) by (rewrite zget_app_l by lia; by replace (zlen l + 1 - (u + 1)) with (zlen l - u) by lia).
  cbn [mbind res_bind]. destruct (f s1 x); cbn [mbind res_bind]; [apply IHu|done..].
Qed.

Lemma encode_group_ok {E} R k (last_fast second : bool) s group p P : zlen group = k -> 1 <= k -> Forall covers group ->
  holding R (side second s).1 (side second s).2 p P -> p + k * L <= R -> L < 2 ^ (R - (p + (k - 1) * L)) ->
  (last_fast = true -> L < 2 ^ (R - (p + k * L))) ->
  returns (fun s' => holding R (side second s').1 (side second s').2 (p + width (codes (reverse group)))
        (P + 2 ^ p * pack (codes (reverse group))) /\ same_rest second s s')
    (encode_group k last_fast s group ct second : res E _).
Proof.
  intros Hk Hk1 Hc Hh Hr Hf Hl. destruct group as [|x group]; [change (zlen []) with 0 in Hk; lia|].
  apply Forall_cons in Hc as [Hx Hc]. rewrite zlen_cons in Hk. unfold encode_group.
  assert (foldM (fun s u => sym ← idx (x :: group) (k - u); huf_symbol true second ct s sym) s (seqZ 1 (k - 1)) =
    (foldM (huf_symbol true second ct) s (reverse group) : res E _)) as ->.
  { rewrite <- foldM_down. replace (k - 1) with (zlen group) by lia. apply foldM_ext. intros s0 u Hu%list_elem_of_In.
    apply list_elem_of_lookup_1 in Hu as [i Hi]. apply lookup_seqZ in Hi as [-> Hi].
    destruct (zget_is_Some group (zlen group - (1 + Z.of_nat i)) ltac:(lia)) as [y Hy]. rewrite (idx_ok group _ y Hy).
    rewrite (idx_ok (x :: group) _ y); [done|].
    rewrite zget_cons, (proj2 (Z.eqb_neq (k - (1 + Z.of_nat i)) 0)), (proj2 (Z.ltb_ge (k - (1 + Z.of_nat i)) 0)) by lia. by replace (k - (1 + Z.of_nat i) - 1) with (zlen group - (1 + Z.of_nat i)) by lia. }
  assert (Forall covers (reverse group)) as Hcr by by apply Forall_reverse.
  assert (zlen (reverse group) = k - 1) as Hlr by (unfold zlen in *; rewrite length_reverse; lia).
  eapply returns_bind; [apply (huf_symbols_ok R true second (reverse group) Hcr s p P Hh); rewrite Hlr; [nia|done]|].
  intros s1 [H1 S1]. rewrite (idx_ok _ 0 x) by done. cbn [mbind res_bind]. destruct (codes_width _ Hcr) as [_ Hw]. rewrite Hlr in Hw.
  pose proof (huf_symbols_ok (E := E) R last_fast second [x] ltac:(by apply Forall_singleton) s1 _ _ H1) as Hone.
  change (zlen [x]) with 1 in Hone. specialize (Hone ltac:(nia)). cbn [foldM] in Hone.
  assert (returns (fun s' => holding R (side second s').1 (side second s').2 (p + width (codes (reverse group)) + width (codes [x]))
      (P + 2 ^ p * pack (codes (reverse group)) + 2 ^ (p + width (codes (reverse group))) * pack (codes [x])) /\
      same_rest second s1 s') (huf_symbol last_fast second ct s1 x : res E _)) as Hone'.
  { destruct (huf_symbol last_fast second ct s1 x); cbn [mbind res_bind] in Hone; apply Hone; intros Hlf; specialize (Hl Hlf);
      (eapply Z.lt_le_trans; [exact Hl|]; apply pow2_le; nia). }
  eapply returns_mono; [exact Hone'|]. intros s2 [H2 S2]. rewrite reverse_cons, fmap_app, width_app.
  pose proof (hd_bits _ _ _ _ _ Hh). split.
  - rewrite pack_app by by apply codes_width. rewrite Z.mul_add_distr_l, !Z.add_assoc, Z.mul_assoc, <- pow2_add by lia.
    by rewrite Z.add_assoc in H2 || exact H2.
  - destruct S1 as (A1 & B1 & C1), S2 as (A2 & B2 & C2). split; [by rewrite A2, A1|]. split; [by rewrite B2, B1|by rewrite C2, C1].
Qed.
End symbols.

(** ** The writer *)

(** [s], over a region of [len] bytes, holds the fields [fs], the last [p]
    bits of them in its container. *)
Record hwriting (len : Z) (s : HufCStream) (fs : list (Z * Z)) (p : Z) : Prop := {
  hw_fields : widths_ok fs;
  hw_width : 8 * hc_ptr s + p = width fs;
  hw_ptr : 0 <= hc_ptr s;
  hw_len : zlen (hc_buf s) = len;
  hw_bytes : bytes (hc_buf s);
  hw_value : exists P, holding 64 (hc_bits0 s) (hc_pos0 s) p P /\
    le_val (ztake (hc_ptr s) (hc_buf s)) + 2 ^ (8 * hc_ptr s) * P = pack fs;
}.

Lemma hwriting_grow len s s' fs gs p P : hwriting len s fs p -> holding 64 (hc_bits0 s) (hc_pos0 s) p P -> widths_ok gs ->
  holding 64 (hc_bits0 s') (hc_pos0 s') (p + width gs) (P + 2 ^ p * pack gs) -> hc_buf s' = hc_buf s -> hc_ptr s' = hc_ptr s ->
  hwriting len s' (fs ++ gs) (p + width gs).
Proof.
  intros [Hf Hw Hp Hl Hb (Q & HQ & Hv)] HP Hg Hh Eb Ep.
  assert (Q = P) as -> by (destruct HP, HQ; congruence). split.
  - by apply Forall_app.
  - rewrite Ep, width_app. lia.
  - by rewrite Ep.
  - by rewrite Eb.
  - by rewrite Eb.
  - exists (P + 2 ^ p * pack gs). split; [done|]. pose proof (hd_bits _ _ _ _ _ HP).
    rewrite Eb, Ep, pack_app by done. rewrite <- Hw, pow2_add, <- Hv by lia. ring.
Qed.

Lemma huf_flush_ok {E} len s fs p : hwriting len s fs p -> 0 < p -> hc_ptr s + 8 <= len ->
  returns (fun s' => hwriting len s' fs (p mod 8) /\ side true s' = side true s /\
      hc_ptr s' + Z.b2z (0 <? p mod 8) <= len /\
      le_val (ztake (hc_ptr s' + Z.b2z (0 <? p mod 8)) (hc_buf s')) = pack fs) (huf_flush_bits s : res E _).
Proof.
  intros [Hf Hw Hp Hl Hb (P & [Hc Hpos Hr _ HP _] & Hv)] Hp0 Hroom. unfold huf_flush_bits.
  assert (Z.land (hc_pos0 s) 0xFF = p) as -> by (change 0xFF with (2 ^ 8 - 1); by rewrite land_mod by lia).
  rewrite (proj2 (Z.ltb_lt 0 p)), (proj2 (Z.leb_le p 64)), (proj2 (Z.leb_le (hc_ptr s + 8) (zlen (hc_buf s)))) by lia. cbn [andb rassert mbind res_bind].
  rewrite !shiftr_div, HP by lia. change (2 ^ 3) with 8. set (k := p / 8). set (w := le_bytes 8 P).
  assert (zlen w = 8) as Lw by by unfold zlen, w; rewrite length_le_bytes.
  assert (0 <= P < 2 ^ p) as HPr.
  { rewrite <- HP. split; [apply Z.div_pos; [lia|apply pow2_pos; lia]|]. apply Z.div_lt_upper_bound; [apply pow2_pos; lia|].
    rewrite <- pow2_add by lia. replace (64 - p + p) with 64 by lia. lia. }
  rewrite copy_from_slice_eq by lia. cbn [mbind res_bind returns hc_ptr hc_buf].
  set (buf := ztake (hc_ptr s) (hc_buf s) ++ w ++ zdrop (hc_ptr s + 8) (hc_buf s)).
  assert (bytes w) as Bw by apply le_bytes_bytes.
  assert (forall j, 0 <= j <= 8 -> le_val (ztake (hc_ptr s + j) buf) =
    le_val (ztake (hc_ptr s) (hc_buf s)) + 2 ^ (8 * hc_ptr s) * (P mod 2 ^ (8 * j))) as Hval.
  { intros j Hj. assert (ztake (hc_ptr s + j) buf = ztake (hc_ptr s) (hc_buf s) ++ ztake j w) as ->.
    { unfold buf. assert (zlen (ztake (hc_ptr s) (hc_buf s)) = hc_ptr s) as Hlt by (apply zlen_ztake; lia).
      rewrite <- Hlt at 1. rewrite ztake_app_add by lia. by rewrite ztake_app_le by lia. }
    rewrite le_val_app, zlen_ztake by lia. rewrite (proj1 (le_val_take_drop w j Bw ltac:(lia))).
    unfold w. rewrite le_val_le_bytes. change (2 ^ (8 * Z.of_nat 8)) with (2 ^ 64).
    by rewrite (Z.mod_small P (2 ^ 64)) by (pose proof (pow2_le p 64); lia). }
  assert (0 <= k <= 8 /\ p = 8 * k + p mod 8 /\ 0 <= p mod 8 < 8) as (Hk & Hk8 & Hm) by (unfold k; divlia).
  pose proof (pow2_pos (8 * k) ltac:(lia)) as Pk.
  split; [|split; [done|split; [destruct (Z.ltb_spec 0 (p mod 8)); cbn [Z.b2z]; lia|]]].
  - split; cbn [hc_ptr hc_buf hc_bits0 hc_pos0]; try done; try lia.
    + unfold buf. rewrite !zlen_app, Lw, zlen_ztake, zlen_zdrop by lia. lia.
    + unfold buf. apply Forall_app. split; [by apply Forall_take|]. apply Forall_app. split; [done|by apply Forall_drop].
    + exists (P / 2 ^ (8 * k)). split.
      * split; try lia.
        { change 7 with (2 ^ 3 - 1). rewrite land_mod by lia. change (2 ^ 3) with 8. rewrite (Z.mod_small (_ mod 8)) by divlia.
          rewrite <- Hpos. divlia. }
        { replace (64 - p mod 8) with ((64 - p) + 8 * k) by lia. rewrite pow2_add by lia.
          rewrite <- Z.div_div by (pose proof (pow2_pos (64 - p)); lia). by rewrite HP. }
        { apply Z.mod_pos_bound, pow2_pos. lia. }
      * rewrite Hval, <- Hv by lia. rewrite Z.mul_add_distr_l, pow2_add by lia.
        rewrite (Z.div_mod P (2 ^ (8 * k))) at 3 by lia. ring.
  - rewrite <- Z.add_assoc, Hval by (destruct (Z.ltb_spec 0 (p mod 8)); cbn [Z.b2z]; lia). rewrite <- Hv. f_equal. f_equal.
    apply Z.mod_small. destruct (Z.ltb_spec 0 (p mod 8)); cbn [Z.b2z].
    + pose proof (pow2_le p (8 * (k + 1)) ltac:(lia)). lia.
    + pose proof (pow2_le p (8 * (k + 0)) ltac:(lia)). lia.
Qed.

(** The second container's codes above the first's. *)
Lemma merge_ok {E} s p p1 P P1 : holding 64 (hc_bits0 s) (hc_pos0 s) p P -> p <= 7 -> holding 57 (hc_bits1 s) (hc_pos1 s) p1 P1 ->
  returns (fun s' => holding 64 (hc_bits0 s') (hc_pos0 s') (p + p1) (P + 2 ^ p * P1) /\ hc_buf s' = hc_buf s /\ hc_ptr s' = hc_ptr s)
    (merge_index1 s : res E _).
Proof.
  intros [Hc Hpos Hp _ HP _] H7 [Hc1 Hpos1 Hp1 _ HP1 Hg1]. unfold merge_index1.
  assert (Z.land (hc_pos1 s) 0xFF = p1) as -> by (change 0xFF with (2 ^ 8 - 1); by rewrite land_mod by lia).
  rewrite (proj2 (Z.ltb_lt p1 64)) by lia. cbn [rassert mbind res_bind returns hc_buf hc_ptr hc_bits0 hc_pos0].
  split; [|done]. rewrite shiftr_div by lia. set (m := 64 - (p + p1)).
  set (c := hc_bits0 s) in *. set (c1 := hc_bits1 s) in *. set (g1 := c1 mod 2 ^ (64 - p1)) in *.
  pose proof (pow2_pos p1 ltac:(lia)) as P1p. pose proof (pow2_pos m ltac:(lia)) as Pm. pose proof (pow2_pos p ltac:(lia)) as Pp.
  assert (2 ^ (64 - p1) = 2 ^ p * 2 ^ m) as H1 by (rewrite <- pow2_add by lia; f_equal; lia).
  assert (2 ^ (64 - p) = 2 ^ m * 2 ^ p1) as H0 by (rewrite <- pow2_add by lia; f_equal; lia).
  assert (2 ^ 64 = 2 ^ (p + p1) * 2 ^ m) as H64 by (rewrite <- pow2_add by lia; f_equal; lia).
  pose proof (pow2_le (57 - p1) m ltac:(lia)) as Hgm.
  assert (0 <= g1) as Hg0 by (apply Z.mod_pos_bound, pow2_pos; lia).
  assert (c1 = P1 * 2 ^ (64 - p1) + g1) as E1.
  { rewrite <- HP1, Z.mul_comm. apply Z.div_mod. lia. }
  set (g := c mod 2 ^ (64 - p)). assert (0 <= g < 2 ^ (64 - p)) as Hg by (apply Z.mod_pos_bound, pow2_pos; lia).
  assert (c = P * 2 ^ m * 2 ^ p1 + g) as E0.
  { rewrite <- Z.mul_assoc, <- H0, <- HP, Z.mul_comm. apply Z.div_mod. lia. }
  assert (c / 2 ^ p1 = P * 2 ^ m + g / 2 ^ p1) as ->.
  { rewrite E0 at 1. by rewrite Z.div_add_l by lia. }
  assert (0 <= g / 2 ^ p1 < 2 ^ m) as Hgd by (split; [apply Z.div_pos; lia|apply Z.div_lt_upper_bound; lia]).
  assert (0 <= P < 2 ^ p /\ 0 <= P1 < 2 ^ p1) as [HPr HP1r].
  { rewrite <- HP, <- HP1. split; (split; [apply Z.div_pos; [lia|apply pow2_pos; lia]|]; apply Z.div_lt_upper_bound; [apply pow2_pos; lia|]);
      rewrite <- pow2_add by lia; replace (64 - p + p) with 64 by lia; replace (64 - p1 + p1) with 64 by lia; lia. }
  pose proof (lor_bounds (g / 2 ^ p1) g1 m ltac:(lia) Hgd ltac:(lia)) as Hgl. set (gl := Z.lor (g / 2 ^ p1) g1) in *.
  assert (Z.lor (P * 2 ^ m + g / 2 ^ p1) c1 = (P + 2 ^ p * P1) * 2 ^ m + gl) as ->.
  { rewrite E1. rewrite lor_part; [|lia|rewrite H1; nia|rewrite H1; nia].
    rewrite (Z.lor_comm _ g1), lor_part by lia. rewrite (Z.lor_comm g1). fold gl. rewrite H1. ring. }
  assert (0 <= P + 2 ^ p * P1 < 2 ^ (p + p1)) as HPP by (rewrite pow2_add by lia; nia).
  split; fold m; try lia.
  - nia.
  - unfold wadd, wrap. change (2 ^ 64) with (256 * 2 ^ 56). rewrite Z.rem_mul_r by lia.
    rewrite (Z.mul_comm 256), Z_mod_plus_full, Z.mod_mod, Zplus_mod, Hpos, Hpos1 by lia. apply Z.mod_small. lia.
  - rewrite Z.div_add_l, (Z.div_small gl) by lia. lia.
  - rewrite (Z.add_comm _ gl), Z_mod_plus_full, Z.mod_small by lia. lia.
Qed.

(** ** A stream *)

(** A group size that keeps the noise of codes of [L] bits below them. *)
Record unroll_ok (k : Z) (last_fast : bool) (L : Z) : Prop := {
  un_k : 1 <= k;
  un_room : k * L <= 57;
  un_fast : L < 2 ^ (57 - (k - 1) * L);
  un_last : last_fast = true -> L < 2 ^ (57 - k * L);
}.

Lemma huf_unroll_ok L : 1 <= L <= 11 -> let '(k, last_fast) := huf_unroll L in unroll_ok k last_fast L.
Proof.
  intros HL. assert (L = 1 \/ L = 2 \/ L = 3 \/ L = 4 \/ L = 5 \/ L = 6 \/ L = 7 \/ L = 8 \/ L = 9 \/ L = 10 \/ L = 11) as Hc by lia.
  repeat destruct Hc as [->|Hc]; [..|subst L]; cbn; split; done || (intros; done).
Qed.

Section stream.
Context (ct : list Z) (L : Z) (covers : Z -> Prop) (HL : 1 <= L <= 11) (Hct : elts_ok ct L covers).
Context (k : Z) (last_fast : bool) (Hk : unroll_ok k last_fast L).

Abbreviation codes := (fmap (code_of ct)).

(** The writer between groups: the symbols of [done_] are written, the last
    first. *)
Definition between_groups (len : Z) (s : HufCStream) (done_ : list Z) : Prop :=
  exists p, 0 <= p <= 7 /\ hwriting len s (codes (reverse done_)) p.

Lemma between_ptr len s dn : Forall covers dn -> between_groups len s dn -> 8 * hc_ptr s <= zlen dn * L.
Proof.
  intros Hd (p & Hp & [_ Hw _ _ _ _]). destruct (codes_width ct L covers HL Hct (reverse dn)) as [_ H]; [by apply Forall_reverse|].
  unfold zlen in *. rewrite length_reverse in H. lia.
Qed.

(** A run of symbols, then a flush. *)
Lemma symbols_flush_ok {E} len s dn new (m : res E HufCStream) : Forall covers dn -> Forall covers new -> new <> [] ->
  zlen new * L <= 57 -> (zlen dn + zlen new) * L / 8 + 8 <= len -> between_groups len s dn ->
  (forall p P, 0 <= p <= 7 -> holding 64 (hc_bits0 s) (hc_pos0 s) p P ->
    returns (fun s' => holding 64 (hc_bits0 s') (hc_pos0 s') (p + width (codes (reverse new))) (P + 2 ^ p * pack (codes (reverse new))) /\
      hc_buf s' = hc_buf s /\ hc_ptr s' = hc_ptr s) m) ->
  returns (fun s' => between_groups len s' (new ++ dn)) (s' ← m; huf_flush_bits s').
Proof.
  intros Hd Hn Hne Hroom Hlen (p & Hp & Hw) Hm. pose proof (between_ptr len s dn Hd (ex_intro _ p (conj Hp Hw))) as Hptr.
  destruct (hw_value _ _ _ _ Hw) as (P & HP & _).
  eapply returns_bind; [by apply (Hm p P)|]. intros s1 (H1 & B1 & C1).
  destruct (codes_width ct L covers HL Hct (reverse new) ltac:(by apply Forall_reverse)) as [Fw Hwd].
  assert (zlen (reverse new) = zlen new) as Hrl by (unfold zlen; by rewrite length_reverse).
  pose proof (hwriting_grow len s s1 _ _ p P Hw HP Fw H1 B1 C1) as Hw1.
  assert (1 <= zlen new) by (destruct new; [done|]; rewrite zlen_cons; pose proof (zlen_nonneg new); lia).
  eapply returns_mono; [apply (huf_flush_ok len s1 _ _ Hw1)|].
  - lia.
  - rewrite C1. pose proof (zlen_nonneg dn). assert (8 * hc_ptr s <= (zlen dn + zlen new) * L) by nia. divlia.
  - intros s2 (Hw2 & _). exists ((p + width (codes (reverse new))) mod 8). split; [divlia|].
    rewrite reverse_app, fmap_app. done.
Qed.

(** The symbols that join the length to whole groups. *)
Lemma join_k_ok {E} len s tail : Forall covers tail -> tail <> [] -> zlen tail < k -> zlen tail * L / 8 + 8 <= len ->
  between_groups len s [] ->
  returns (fun s' => between_groups len s' tail)
    (s' ← foldM (huf_symbol false false ct) s (reverse tail); huf_flush_bits s' : res E _).
Proof.
  intros Ht Hne Hlt Hlen Hb. destruct Hk as [Hk1 Hkr _ _]. assert (zlen tail * L <= 57) as Hr by (pose proof (zlen_nonneg tail); nia).
  pose proof (symbols_flush_ok (E := E) len s [] tail) as Hs. rewrite app_nil_r in Hs. apply Hs; try done.
  - intros p P Hp HP. clear Hs.
    pose proof (huf_symbols_ok (E := E) ct L covers HL Hct 64 false false (reverse tail) ltac:(by apply Forall_reverse) s p P HP) as H.
    cbn [side fst snd] in H. eapply returns_mono; [apply H; [|done]; unfold zlen in *; rewrite length_reverse; lia|].
    by intros s' [? (_ & ? & ?)].
Qed.

(** A group of the first container. *)
Lemma group_flush_ok {E} len s dn group : Forall covers dn -> Forall covers group -> zlen group = k ->
  (zlen dn + k) * L / 8 + 8 <= len -> between_groups len s dn ->
  returns (fun s' => between_groups len s' (group ++ dn))
    (s' ← encode_group k last_fast s group ct false; huf_flush_bits s' : res E _).
Proof.
  intros Hd Hg Hl Hlen Hb. destruct Hk as [Hk1 Hkr Hkf Hkl].
  apply (symbols_flush_ok len s dn group); try done; try (rewrite Hl; done).
  - intros ->. change (zlen []) with 0 in Hl. lia.
  - intros p P Hp HP.
    pose proof (encode_group_ok (E := E) ct L covers HL Hct 64 k last_fast false s group p P Hl Hk1 Hg HP) as H.
    cbn [side fst snd] in H. eapply returns_mono; [apply H; [lia| |]|by intros s' [? (_ & ? & ?)]].
    + eapply Z.lt_le_trans; [exact Hkf|]. apply pow2_le. lia.
    + intros Hlf. eapply Z.lt_le_trans; [exact (Hkl Hlf)|]. apply pow2_le. lia.
Qed.

(** A pair of groups, one in each container. *)
Lemma encode_pair_ok {E} len s dn pair : Forall covers dn -> Forall covers pair -> zlen pair = 2 * k ->
  (zlen dn + 2 * k) * L / 8 + 8 <= len -> between_groups len s dn ->
  returns (fun s' => between_groups len s' (pair ++ dn)) (encode_pair k last_fast ct s pair : res E _).
Proof.
  intros Hd Hp Hl Hlen Hb. pose proof Hk as [Hk1 Hkr Hkf Hkl]. unfold encode_pair.
  rewrite slice_prefix by lia. cbn [mbind res_bind]. rewrite slice_from_ok by lia. cbn [mbind res_bind].
  set (lo := ztake k pair). set (hi := zdrop k pair).
  assert (pair = lo ++ hi) as Hpair by (symmetry; apply take_drop).
  assert (zlen lo = k /\ zlen hi = k) as [Llo Lhi] by (unfold lo, hi; rewrite zlen_ztake, zlen_zdrop by lia; lia).
  rewrite Hpair in Hp. apply Forall_app in Hp as [Clo Chi].
  assert (zlen (hi ++ dn) = k + zlen dn) as Lhd by (rewrite zlen_app; lia).
  rewrite <- bind_assoc. eapply returns_bind.
  { apply (group_flush_ok len s dn hi Hd Chi Lhi); [|done]. pose proof (zlen_nonneg dn).
    assert ((zlen dn + k) * L / 8 <= (zlen dn + 2 * k) * L / 8) by (apply Z.div_le_mono; nia). lia. }
  intros s1 Hb1. assert (Forall covers (hi ++ dn)) as Hhd by by apply Forall_app.
  rewrite <- bind_assoc, Hpair, <- app_assoc. apply (symbols_flush_ok len s1 (hi ++ dn) lo); try done.
  - intros ->. change (zlen []) with 0 in Llo. lia.
  - by rewrite Llo.
  - rewrite Lhd, Llo. replace (k + zlen dn + k) with (zlen dn + 2 * k) by lia. done.
  - intros p P Hp' HP. set (s2 := zero_index1 s1).
    assert (holding 57 (side true s2).1 (side true s2).2 0 0) as H0 by (by split; cbn).
    eapply returns_bind; [apply (encode_group_ok ct L covers HL Hct 57 k last_fast true s2 lo 0 0 Llo Hk1 Clo H0)|]; try lia.
    { by rewrite Z.add_0_l. }
    { by rewrite Z.add_0_l. }
    intros s3 [H3 (A3 & B3 & C3)]. cbn [side negb fst snd] in H3, A3. rewrite Z.add_0_l in H3. replace (0 + 2 ^ 0 * _) with (pack (codes (reverse lo))) in H3 by lia.
    injection A3 as A3 A4. assert (holding 64 (hc_bits0 s3) (hc_pos0 s3) p P) as HP3 by (by rewrite A3, A4).
    eapply returns_mono; [apply (merge_ok s3 p _ P _ HP3 ltac:(lia) H3)|]. intros s4 (H4 & B4 & C4).
    split; [done|]. by rewrite B4, C4.
Qed.

Lemma zdrop_step {A} (l : list A) a b : 0 <= a -> a <= b -> b <= zlen l -> ztake (b - a) (zdrop a l) ++ zdrop b l = zdrop a l.
Proof.
  intros. rewrite <- (take_drop (Z.to_nat (b - a)) (zdrop a l)) at 2. fold (ztake (b - a) (zdrop a l)). f_equal.
  unfold zdrop. rewrite drop_drop. f_equal. lia.
Qed.

(** The whole loop. *)
Lemma compress_1x_loop_ok {E} len s ip : Forall covers ip -> len = zlen ip * L / 8 + 8 -> between_groups len s [] ->
  returns (fun s' => between_groups len s' ip) (compress_1x_loop k last_fast s ip ct : res E _).
Proof.
  intros Hc Hlen Hb. pose proof Hk as [Hk1 _ _ _]. unfold compress_1x_loop. set (n := zlen ip) in *. pose proof (zlen_nonneg ip) as Hn.
  assert (forall a, Forall covers (zdrop a ip)) as Hcd by (intros; by apply Forall_drop).
  assert (forall a b, 0 <= a <= b -> a * L / 8 <= b * L / 8) as Hmono by (intros; apply Z.div_le_mono; nia).
  eapply returns_bind with (P := fun '(s1, n1) => n1 = n - n mod k /\ between_groups len s1 (zdrop n1 ip)).
  { destruct (Z.ltb_spec 0 (n mod k)) as [Hr|Hr].
    - pose proof (Z.mod_pos_bound n k ltac:(lia)) as Hm. pose proof (Z.mod_le n k ltac:(lia) ltac:(lia)).
      rewrite slice_from_ok by lia. cbn [mbind res_bind]. set (tail := zdrop (n - n mod k) ip).
      assert (zlen tail = n mod k) as Ht by (unfold tail; rewrite zlen_zdrop by lia; lia).
      rewrite <- bind_assoc. eapply returns_bind; [apply (join_k_ok len s tail); try done; try lia|by intros s1 Hs1].
      + apply Hcd.
      + intros He. rewrite He in Ht. change (zlen []) with 0 in Ht. lia.
      + rewrite Ht, Hlen. specialize (Hmono (n mod k) n ltac:(lia)). lia.
    - pose proof (Z.mod_pos_bound n k ltac:(lia)). cbn [returns]. split; [lia|].
      assert (zdrop n ip = []) as ->; [|done]. unfold zdrop, n, zlen. apply drop_ge. lia. }
  intros [s1 n1] [Hn1 Hb1].
  assert (0 <= n1 <= n) as Hr1 by (pose proof (Z.mod_pos_bound n k ltac:(lia)); pose proof (Z.mod_le n k ltac:(lia) ltac:(lia)); lia).
  assert (n1 = n / k * k) as Hd1 by (pose proof (Z.div_mod n k ltac:(lia)); lia).
  eapply returns_bind with (P := fun '(s2, n2) => 0 <= n2 <= n /\ n2 mod (2 * k) = 0 /\ between_groups len s2 (zdrop n2 ip)).
  { destruct (Z.eqb_spec (n1 mod (2 * k)) 0) as [H0|H0]; cbn [negb]; [by cbn|].
    assert (n1 mod (2 * k) = k) as Hmk.
    { rewrite Hd1 in H0 |- *. rewrite (Z.mul_comm (n / k) k), (Z.mul_comm 2 k) in H0 |- *.
      rewrite Z.mul_mod_distr_l in H0 |- * by lia. pose proof (Z.mod_pos_bound (n / k) 2 ltac:(lia)).
      assert ((n / k) mod 2 = 0 \/ (n / k) mod 2 = 1) as [Hz|Hz] by lia; rewrite Hz in *; lia. }
    pose proof (Z.div_mod n1 (2 * k) ltac:(lia)) as Hdm. rewrite Hmk in Hdm.
    assert (0 <= n1 / (2 * k)) by (apply Z.div_pos; lia).
    rewrite slice_ok by nia. cbn [mbind res_bind]. replace (n1 - (n1 - k)) with k by lia.
    rewrite <- bind_assoc. eapply returns_bind.
    { apply (group_flush_ok len s1 (zdrop n1 ip) (ztake k (zdrop (n1 - k) ip))); try done.
      - by apply Forall_take.
      - rewrite zlen_ztake; [done|]. rewrite zlen_zdrop by nia. lia.
      - rewrite zlen_zdrop by lia. fold n. rewrite Hlen. specialize (Hmono (n - n1 + k) n ltac:(nia)). lia. }
    intros s2 Hb2. cbn [returns]. split; [nia|]. split.
    - rewrite Hdm. replace (2 * k * (n1 / (2 * k)) + k - k) with (n1 / (2 * k) * (2 * k)) by lia. by apply Z.mod_mul; lia.
    - pose proof (zdrop_step ip (n1 - k) n1 ltac:(nia) ltac:(lia) ltac:(lia)) as Hz. replace (n1 - (n1 - k)) with k in Hz by lia.
      by rewrite Hz in Hb2. }
  intros [s2 n2] (Hr2 & Hd2 & Hb2). unfold rchunks_exact.
  assert (n2 = 2 * k * (n2 / (2 * k))) as Hdm by (pose proof (Z.div_mod n2 (2 * k) ltac:(lia)); lia).
  set (q := n2 / (2 * k)) in *. assert (0 <= q) by (apply Z.div_pos; lia).
  eapply returns_mono; [apply returns_foldM with (I := fun i s' => between_groups len s' (zdrop (n2 - 2 * k * Z.of_nat i) ip))|].
  - by replace (n2 - 2 * k * Z.of_nat 0) with n2 by lia.
  - intros i pair s' Hi HI. rewrite list_lookup_fmap in Hi.
    destruct (seqZ 0 q !! i) as [j|] eqn:Hj; [|done]. cbn in Hi. injection Hi as <-. apply lookup_seqZ in Hj as [-> Hj].
    rewrite Z.add_0_l. set (a := n2 - (Z.of_nat i + 1) * (2 * k)). assert (0 <= a) by (unfold a; nia).
    replace (n2 - 2 * k * Z.of_nat i) with (a + 2 * k) in HI by (unfold a; lia).
    replace (n2 - 2 * k * Z.of_nat (S i)) with a by (unfold a; lia).
    assert (a + 2 * k <= n) by (unfold a; nia).
    pose proof (zdrop_step ip a (a + 2 * k) ltac:(lia) ltac:(lia) ltac:(lia)) as Hz. replace (a + 2 * k - a) with (2 * k) in Hz by lia.
    eapply returns_mono; [apply (encode_pair_ok len s' (zdrop (a + 2 * k) ip) (ztake (2 * k) (zdrop a ip))); try done|
      intros s3 H3; by rewrite Hz in H3].
    + by apply Forall_take.
    + apply zlen_ztake. rewrite zlen_zdrop by lia. lia.
    + rewrite zlen_zdrop by lia. fold n. rewrite Hlen. specialize (Hmono (n - (a + 2 * k) + 2 * k) n ltac:(lia)). lia.
  - intros s' HI. rewrite length_fmap, length_seqZ in HI. replace (n2 - 2 * k * Z.of_nat (Z.to_nat q)) with 0 in HI by lia. exact HI.
Qed.
End stream.

(** The stream of [src]: its codes from the last symbol to the first, under
    an end mark. *)
Definition huf_stream (ct src out : list Z) : Prop :=
  let fs := code_of ct <$> reverse src in
  bytes out /\ zlen out = width fs / 8 + 1 /\ le_val out = pack fs + 2 ^ width fs.

Lemma compress_1x_ok {E} table covers src : 1 <= he_log table <= 11 -> elts_ok (elts table) (he_log table) covers ->
  Forall covers src -> returns (huf_stream (elts table) src) (compress_1x_using_ctable src table : res E _).
Proof.
  intros HL Hct Hc. unfold compress_1x_using_ctable. set (L := he_log table) in *. set (ct := elts table) in *.
  pose proof (huf_unroll_ok L HL) as Hk. destruct (huf_unroll L) as [k last_fast].
  pose proof (zlen_nonneg src). set (len := tight_compress_bound (zlen src) L).
  assert (len = zlen src * L / 8 + 8) as Hlen by (unfold len, tight_compress_bound; by rewrite shiftr_div by lia).
  assert (8 <= len) as Hl8 by (rewrite Hlen; pose proof (Z.div_pos (zlen src * L) 8 ltac:(nia) ltac:(lia)); lia).
  set (s0 := MkHufCStream _ _ _ _ _ _).
  assert (between_groups ct len s0 []) as Hb0.
  { exists 0. split; [lia|]. split; try done.
    - cbn. by rewrite zlen_zrepeat by lia.
    - by apply Forall_zrepeat.
    - exists 0. split; [|done]. split; done || lia. }
  eapply returns_bind; [by apply (compress_1x_loop_ok ct L covers HL Hct k last_fast Hk len s0 src)|].
  intros s (p & Hp & Hw). pose proof (between_ptr ct L covers HL Hct len s src Hc (ex_intro _ p (conj Hp Hw))) as Hptr.
  destruct (hw_value _ _ _ _ Hw) as (P & HP & _). set (fs := code_of ct <$> reverse src) in *.
  assert (returns (fun '(size, buf) => size = width fs / 8 + 1 /\ size <= zlen buf /\ bytes buf /\
    le_val (ztake size buf) = pack fs + 2 ^ width fs) (huf_close s : res E _)) as Hclose.
  { unfold huf_close, huf_add_bits. change END_MARK with (elt_of 1 1).
    eapply returns_bind with (P := fun s1 => hwriting len s1 (fs ++ [(1, 1)]) (p + 1) /\ hc_ptr s1 = hc_ptr s).
    { pose proof (huf_add_ok (E := E) 64 false _ _ p P 1 1 HP ltac:(lia) ltac:(done) ltac:(lia) ltac:(done)) as Ha.
      eapply returns_bind; [exact Ha|]. intros [b q] H1. cbn [returns]. split; [|done].
      apply (hwriting_grow len s _ fs [(1, 1)] p P Hw HP); done || by apply Forall_singleton. }
    intros s1 [Hw1 C1]. eapply returns_bind; [apply (huf_flush_ok len s1 _ _ Hw1); [lia|]|].
    { rewrite C1, Hlen. divlia. }
    intros s2 (Hw2 & _ & Hfit & Hval). cbn [returns].
    pose proof Hw2 as [Hf2 Hwd _ Hl2 Hb2 (Q & HQ & _)]. pose proof (hd_pos _ _ _ _ _ HQ) as Hq.
    assert (Z.land (hc_pos0 s2) 0xFF = (p + 1) mod 8) as -> by (change 0xFF with (2 ^ 8 - 1); by rewrite land_mod by lia).
    rewrite width_app in Hwd. unfold width at 2 in Hwd. cbn in Hwd.
    split; [destruct (Z.ltb_spec 0 ((p + 1) mod 8)); cbn [Z.b2z]; divlia|]. split; [by rewrite Hl2|]. split; [done|].
    rewrite Hval, pack_snoc by apply Hw. by rewrite Z.mul_1_r. }
  eapply returns_bind; [exact Hclose|]. intros [size buf] (Hs & Hle & Hb & Hv).
  assert (0 <= width fs) by (apply width_nonneg, Hw).
  rewrite slice_prefix by (rewrite Hs in *; divlia). cbn [returns]. split; [by apply Forall_take|]. split; [|done].
  rewrite zlen_ztake; [done|]. rewrite Hs in *. divlia.
Qed.

(** ** Huffman literals round-trip

    The decoder's table read back what the encoder's table wrote, when one
    mirrors the other: every symbol's code is the prefix of exactly the cells
    that decode to it. The streams of [compress_1x_using_ctable], and the jump
    table and four streams of [compress_4x_using_ctable], then decode to the
    literals. *)

From S2P Require Import HufX2Fast.

(** The encoder's elements [ct] mirror the decoder's cells [dt]: a symbol's
    code of [nb] bits heads the indices of the cells that give it. *)
Definition mirrors (ct : list Z) (L : Z) (dt : list HuffmanEntry) (covers : Z -> Prop) : Prop :=
  forall s, covers s -> exists v nb, zget ct s = Some (elt_of v nb) /\ 1 <= nb <= L /\ 0 <= v < 2 ^ nb /\
    forall i, 0 <= i < 2 ^ HUF_FAST_TABLE_LOG -> i / 2 ^ (HUF_FAST_TABLE_LOG - nb) = v -> zget dt i = Some (MkHuf s nb).

Lemma mirrors_elts ct L dt covers : mirrors ct L dt covers -> elts_ok ct L covers.
Proof. intros H s Hs. destruct (H s Hs) as (v & nb & He & Hn & Hv & _). by exists v, nb. Qed.

Lemma peek_high v u n k : 0 <= n <= k -> n <= u -> peek v u k / 2 ^ (k - n) = bits v (u - n) n.
Proof.
  intros Hn Hu. apply Z.bits_inj'. intros i Hi.
  rewrite Z.div_pow2_bits, testbit_peek, testbit_bits by lia.
  destruct (Z.ltb_spec i n), (Z.ltb_spec (i + (k - n)) k); try lia. cbn. f_equal. lia.
Qed.

Lemma bits_field lo w v n hi : 0 <= lo < 2 ^ w -> 0 <= w -> 0 <= v < 2 ^ n -> 0 <= n ->
  bits (lo + 2 ^ w * (v + 2 ^ n * hi)) w n = v.
Proof.
  intros Hlo Hw Hv Hn. unfold bits. rewrite (Z.mul_comm (2 ^ w)), Z.div_add, Z.div_small, Z.add_0_l by lia.
  rewrite (Z.mul_comm (2 ^ n)), Z_mod_plus_full. by apply Z.mod_small.
Qed.

Section decode.
Context (ct : list Z) (L : Z) (dt : list HuffmanEntry) (covers : Z -> Prop).
Context (HL : 1 <= L <= 11) (Hm : mirrors ct L dt covers).

Abbreviation codes := (fmap (code_of ct)).

Let Hct : elts_ok ct L covers := mirrors_elts _ _ _ _ Hm.

Lemma codes_ok l : Forall covers l -> widths_ok (codes (reverse l)) /\ 0 <= width (codes (reverse l)).
Proof.
  intros Hl. destruct (codes_width ct L covers HL Hct (reverse l)) as [Hw Hr]; [by apply Forall_reverse|].
  split; [done|]. pose proof (zlen_nonneg (reverse l)). lia.
Qed.

Lemma decode_ref_codes a : forall b, Forall covers (a ++ b) -> let fs := codes (reverse (a ++ b)) in
  decode_ref dt (pack fs + 2 ^ width fs) (width fs) (length a) = Some (a, width (codes (reverse b))).
Proof.
  induction a as [|s a IH] using rev_ind; intros b Hc fs; [done|].
  unfold fs. rewrite <- app_assoc in Hc |- *. cbn [app] in Hc |- *. specialize (IH (s :: b) Hc). cbn zeta in IH.
  apply Forall_app in Hc as [Ha Hsb]. pose proof (proj1 (Forall_cons _ _ _) Hsb) as [Hs Hb].
  destruct (Hm s Hs) as (v & nb & He & Hn & Hv & Hcells).
  assert (codes (reverse (s :: b)) = codes (reverse b) ++ [(v, nb)]) as Hsplit.
  { rewrite reverse_cons, fmap_app. cbn [fmap list_fmap]. by rewrite (code_of_elt ct s v nb He) by lia. }
  assert (width (codes (reverse (s :: b))) = width (codes (reverse b)) + nb) as Hwd.
  { rewrite Hsplit, width_app. unfold width at 2. cbn. lia. }
  rewrite length_app, Nat.add_1_r. cbn [decode_ref]. rewrite IH, Hwd.
  destruct (codes_ok b Hb) as [Fb Wb]. destruct (codes_ok a Ha) as [Fa Wa].
  rewrite (proj2 (Z.ltb_lt 0 _)) by lia.
  rewrite (Hcells (peek _ _ _)).
  - cbn [HufTable.nb HufTable.symbol]. rewrite (proj2 (Z.leb_le nb _)) by lia. do 2 f_equal. lia.
  - by apply peek_range.
  - unfold HUF_FAST_TABLE_LOG, HUF_TABLELOG_MAX. rewrite peek_high by lia.
    replace (width (codes (reverse b)) + nb - nb) with (width (codes (reverse b))) by lia.
    rewrite reverse_app, fmap_app, Hsplit, <- app_assoc.
    set (gs := codes (reverse b)) in *. set (hs := codes (reverse a)) in *.
    rewrite pack_app by done. cbn [pack app]. rewrite width_app, width_cons, (Z.mod_small v) by done.
    rewrite !pow2_add by lia. replace (pack gs + _ + _) with (pack gs + 2 ^ width gs * (v + 2 ^ nb * (pack hs + 2 ^ width hs))) by ring.
    apply bits_field; try lia. by apply pack_range.
Qed.

(** A stream of the encoder is one the decoder reads back. *)
Lemma huf_stream_ref src out : Forall covers src -> huf_stream ct src out -> huf_ref dt out (length src) = Some src.
Proof.
  intros Hc (Hb & Hl & Hv). destruct (codes_ok src Hc) as [Fs Ws]. set (fs := codes (reverse src)) in *.
  destruct (marked_stream out _ _ Hb Hl Ws (pack_range fs Fs) Hv) as (Hlog & last & Hlast & Hnz).
  unfold huf_ref. rewrite Hlast, (proj2 (Z.eqb_neq last 0)), Hlog, Hv by done.
  pose proof (decode_ref_codes src []) as Hd. rewrite app_nil_r in Hd. cbn zeta in Hd. fold fs in Hd. rewrite (Hd Hc).
  change (width (codes (reverse []))) with 0. done.
Qed.
End decode.

(** ** Four streams *)

(** The part of the literals in stream [i]. *)
Definition quarter (src : list Z) (i : Z) : list Z :=
  ztake (div_ceil (zlen src) 4) (zdrop (i * div_ceil (zlen src) 4) src).

Lemma quarters src : 12 <= zlen src ->
  let seg := div_ceil (zlen src) 4 in
  0 < seg /\ 3 * seg <= zlen src <= 4 * seg /\ (forall i, 0 <= i < 3 -> zlen (quarter src i) = seg) /\
  zlen (quarter src 3) = zlen src - 3 * seg /\
  quarter src 0 ++ quarter src 1 ++ quarter src 2 ++ quarter src 3 = src.
Proof.
  intros Hn seg. assert (0 < seg /\ 3 * seg <= zlen src <= 4 * seg) as (H0 & H3 & H4) by (unfold seg, div_ceil; divlia).
  assert (quarter src 3 = zdrop (3 * seg) src) as Hq3.
  { unfold quarter. fold seg. apply ztake_all. rewrite zlen_zdrop; lia. }
  split; [done|]. split; [lia|]. split; [|split].
  - intros i Hi. unfold quarter. fold seg. rewrite zlen_ztake; [done|]. rewrite zlen_zdrop by nia. nia.
  - rewrite Hq3, zlen_zdrop; lia.
  - rewrite Hq3. unfold quarter. fold seg.
    assert (forall i, 0 <= i < 3 -> ztake seg (zdrop (i * seg) src) ++ zdrop ((i + 1) * seg) src = zdrop (i * seg) src) as Hstep.
    { intros i Hi. pose proof (zdrop_step src (i * seg) ((i + 1) * seg) ltac:(nia) ltac:(nia) ltac:(nia)) as Hz.
      by replace ((i + 1) * seg - i * seg) with seg in Hz by ring. }
    pose proof (Hstep 2 ltac:(lia)) as H2. change (2 + 1) with 3 in H2. rewrite H2.
    pose proof (Hstep 1 ltac:(lia)) as H1. change (1 + 1) with 2 in H1. rewrite H1.
    by apply (Hstep 0).
Qed.

(** The section of [src]: the sizes of the first three streams, and the four. *)
Definition huf_section (ct src out : list Z) : Prop :=
  exists s0 s1 s2 s3, out = le_bytes 2 (zlen s0) ++ le_bytes 2 (zlen s1) ++ le_bytes 2 (zlen s2) ++ s0 ++ s1 ++ s2 ++ s3 /\
    12 <= zlen src /\ Forall (fun s => 1 <= zlen s <= 65535) [s0; s1; s2; s3] /\
    huf_stream ct (quarter src 0) s0 /\ huf_stream ct (quarter src 1) s1 /\
    huf_stream ct (quarter src 2) s2 /\ huf_stream ct (quarter src 3) s3.

Section encode4.
Context {E : Type} (table : HufTable) (covers : Z -> Prop) (src : list Z).
Context (HL : 1 <= he_log table <= 11) (Hct : elts_ok (elts table) (he_log table) covers).
Context (Hc : Forall covers src) (Hn : 12 <= zlen src <= 2 ^ 17).

Abbreviation seg := (div_ceil (zlen src) 4).

Lemma compress_4x_stream_ok jump streams i : 0 <= i < 4 -> zlen jump = 6 ->
  returns (fun r => exists s, huf_stream (elts table) (quarter src i) s /\ 1 <= zlen s <= 65535 /\
      r = Some (if i <? 3 then ztake (2 * i) jump ++ le_bytes 2 (zlen s) ++ zdrop (2 * i + 2) jump else jump,
                streams ++ s, if i <? 3 then (i + 1) * seg else zlen src))
    (compress_4x_stream src seg table (Some (jump, streams, i * seg)) i : res E _).
Proof.
  intros Hi Hj. destruct (quarters src ltac:(lia)) as (H0 & H34 & Hq & Hq3 & _).
  assert (zlen (quarter src i) <= seg) as Hql.
  { destruct (Z.eq_dec i 3) as [->|]; [lia|]. rewrite Hq; lia. }
  assert ((if i <? 3 then i * seg + seg else zlen src) = (if i <? 3 then (i + 1) * seg else zlen src)) as He
    by (destruct (Z.ltb_spec i 3); lia).
  cbn [compress_4x_stream]. rewrite He.
  assert (slice src (i * seg) (if i <? 3 then (i + 1) * seg else zlen src) = (Ok (quarter src i) : res E _)) as ->.
  { rewrite slice_ok by (destruct (Z.ltb_spec i 3); nia). unfold quarter. f_equal. destruct (Z.ltb_spec i 3).
    - f_equal. ring.
    - replace i with 3 by lia. rewrite !ztake_all; [done|..]; rewrite zlen_zdrop; lia. }
  cbn [mbind res_bind]. assert (Forall covers (quarter src i)) as Hcq by (apply Forall_take, Forall_drop, Hc).
  eapply returns_bind; [by apply (compress_1x_ok table covers (quarter src i))|]. intros s Hs.
  assert (1 <= zlen s <= 65535) as Hls.
  { destruct Hs as (_ & Hl & _).
    destruct (codes_width (elts table) (he_log table) covers HL Hct (reverse (quarter src i)) ltac:(by apply Forall_reverse)) as [_ Hw].
    assert (zlen (reverse (quarter src i)) = zlen (quarter src i)) as Hrl by (unfold zlen; by rewrite length_reverse).
    change (2 ^ 17) with 131072 in Hn. pose proof (zlen_nonneg (quarter src i)).
    assert (seg <= 32768) by (unfold div_ceil; divlia).
    assert (0 <= width (code_of (elts table) <$> reverse (quarter src i)) <= 32768 * 11) by nia. rewrite Hl. divlia. }
  rewrite (proj2 (Z.eqb_neq (zlen s) 0)), (proj2 (Z.ltb_ge 65535 (zlen s))) by lia. cbn [orb].
  assert (wrap 16 (zlen s) = zlen s) as -> by (apply Z.mod_small; change (2 ^ 16) with 65536; lia).
  destruct (Z.ltb_spec i 3).
  - rewrite copy_from_slice_eq; [by exists s|lia|lia|]. replace (zlen (le_bytes 2 (zlen s))) with 2 by done. lia.
  - by exists s.
Qed.

Lemma compress_4x_ok : returns (huf_section (elts table) src) (compress_4x_using_ctable src table : res E _).
Proof.
  unfold compress_4x_using_ctable. rewrite (proj2 (Z.ltb_ge (zlen src) 12)) by lia.
  change (seqZ 0 4) with [0; 1; 2; 3]. cbn [foldM].
  assert (forall s : list Z, exists a b, le_bytes 2 (zlen s) = [a; b]) as Hle by (intros; cbn; by eexists _, _).
  pose proof (compress_4x_stream_ok (zrepeat 0 6) [] 0 ltac:(lia) ltac:(done)) as H0. rewrite Z.mul_0_l in H0.
  rewrite bind_assoc. eapply returns_bind; [exact H0|]. intros r0 (s0 & S0 & L0 & ->). destruct (Hle s0) as (a0 & b0 & E0). rewrite E0.
  rewrite bind_assoc. eapply returns_bind; [by apply (compress_4x_stream_ok _ _ 1)|]. intros r1 (s1 & S1 & L1 & ->). destruct (Hle s1) as (a1 & b1 & E1). rewrite E1.
  rewrite bind_assoc. eapply returns_bind; [by apply (compress_4x_stream_ok _ _ 2)|]. intros r2 (s2 & S2 & L2 & ->). destruct (Hle s2) as (a2 & b2 & E2). rewrite E2.
  rewrite bind_assoc. eapply returns_bind; [by apply (compress_4x_stream_ok _ _ 3)|]. intros r3 (s3 & S3 & L3 & ->).
  cbn [mbind res_bind returns]. exists s0, s1, s2, s3. rewrite E0, E1, E2. split_and!; try done; [|lia|by repeat apply Forall_cons_2].
  cbn. by rewrite <- !app_assoc.
Qed.
End encode4.

(** The decoder's view of a section: its streams, and where they lie. *)
Lemma split_section s0 s1 s2 s3 n : Forall (fun s : list Z => 1 <= zlen s <= 65535) [s0; s1; s2; s3] ->
  3 * div_ceil n 4 <= n ->
  let out := le_bytes 2 (zlen s0) ++ le_bytes 2 (zlen s1) ++ le_bytes 2 (zlen s2) ++ s0 ++ s1 ++ s2 ++ s3 in
  let i1 := 6 + zlen s0 in let i2 := i1 + zlen s1 in let i3 := i2 + zlen s2 in
  split out n = Ok (MkStreams [6; i1; i2; i3] [i1; i2; i3; i3 + zlen s3] (div_ceil n 4)).
Proof.
  intros Hl Hn out i1 i2 i3. rewrite !Forall_cons in Hl. destruct Hl as (L0 & L1 & L2 & L3 & _).
  assert (forall s : list Z, 1 <= zlen s <= 65535 ->
    exists a b, le_bytes 2 (zlen s) = [a; b] /\ le_val [a; b] = zlen s) as Hle.
  { intros s Hs. eexists _, _. split; [done|]. change (le_val (le_bytes 2 (zlen s)) = zlen s).
    rewrite le_val_le_bytes. apply Z.mod_small. change (2 ^ (8 * Z.of_nat 2)) with 65536. lia. }
  destruct (Hle s0 L0) as (a0 & b0 & E0 & V0). destruct (Hle s1 L1) as (a1 & b1 & E1 & V1).
  destruct (Hle s2 L2) as (a2 & b2 & E2 & V2).
  assert (zlen out = i3 + zlen s3) as Hlen.
  { unfold out. rewrite E0, E1, E2, !zlen_app. change (zlen [a0; b0]) with 2. change (zlen [a1; b1]) with 2.
    change (zlen [a2; b2]) with 2. lia. }
  unfold split. rewrite Hlen. rewrite (proj2 (Z.ltb_ge (i3 + zlen s3) 10)) by lia.
  unfold out at 1 2 3 4 5 6. rewrite E0, E1, E2. cbn [app].
  rewrite (idx_ok _ 0 a0), (idx_ok _ 1 b0), (idx_ok _ 2 a1), (idx_ok _ 3 b1), (idx_ok _ 4 a2), (idx_ok _ 5 b2) by done.
  cbn [fail_if mbind res_bind]. rewrite V0, V1, V2.
  rewrite (proj2 (Z.ltb_ge (i3 + zlen s3) _)), (proj2 (Z.ltb_ge n _)) by lia. cbn [fail_if mbind res_bind].
  do 2 f_equal; unfold i3, i2, i1; repeat f_equal; lia.
Qed.

Lemma zdrop_zlen_app {A} (l1 l2 : list A) n : n = zlen l1 -> zdrop n (l1 ++ l2) = l2.
Proof. intros ->. unfold zdrop, zlen. by rewrite Nat2Z.id, drop_app_length. Qed.

Lemma ztake_zlen_app {A} (l1 l2 : list A) n : n = zlen l1 -> ztake n (l1 ++ l2) = l1.
Proof. intros ->. unfold ztake, zlen. by rewrite Nat2Z.id, take_app_length. Qed.

(** The section is one the decoder reads back. *)
Lemma huf_section_decodes ct L dt covers src out : 1 <= L <= 11 -> mirrors ct L dt covers -> Forall covers src ->
  huf_section ct src out -> huf4_ref dt out (zlen src) = Some src.
Proof.
  intros HL Hm Hc (s0 & s1 & s2 & s3 & -> & Hn & Hl & S0 & S1 & S2 & S3).
  destruct (quarters src Hn) as (G0 & G34 & Hq & Hq3 & Hsrc). set (seg := div_ceil (zlen src) 4) in *.
  unfold huf4_ref. rewrite split_section by (done || lia). fold seg.
  set (hd := le_bytes 2 (zlen s0) ++ le_bytes 2 (zlen s1) ++ le_bytes 2 (zlen s2)).
  assert (zlen hd = 6) as Hhd by done.
  set (h := MkStreams _ _ _). set (out := le_bytes 2 (zlen s0) ++ _).
  assert (out = hd ++ s0 ++ s1 ++ s2 ++ s3) as Hout by done.
  assert (forall i s pre post, start_of h i = zlen pre -> end_of h i = zlen pre + zlen s -> out = pre ++ s ++ post ->
    stream_of out h i = s) as Hstream.
  { intros i s pre post Hs He Ho. unfold stream_of. rewrite Hs, He, Ho, zdrop_zlen_app by done. apply ztake_zlen_app. lia. }
  assert (forall i s, 0 <= i < 4 -> stream_of out h i = s -> zlen (quarter src i) = part_len h (zlen src) i ->
    huf_stream ct (quarter src i) s -> part_ref dt out h (zlen src) i = Some (quarter src i)) as Hpart.
  { intros i s Hi <- Hp Hs. unfold part_ref. rewrite <- Hp. replace (Z.to_nat (zlen (quarter src i))) with (length (quarter src i)) by (unfold zlen; lia).
    apply (huf_stream_ref ct L dt covers HL Hm); [apply Forall_take, Forall_drop, Hc|done]. }
  assert (forall i, 0 <= i < 4 -> zlen (quarter src i) = part_len h (zlen src) i) as Hplen.
  { intros i Hi. unfold part_len, segment_end. change (segment h) with seg.
    destruct (four_cases i Hi) as [->|[->|[->| ->]]]; rewrite ?Hq3, ?Hq by lia; lia. }
  pose proof (Hstream 0 s0 hd (s1 ++ s2 ++ s3) ltac:(by rewrite Hhd) ltac:(by rewrite Hhd) Hout) as T0.
  assert (forall i s pre post, out = pre ++ s ++ post -> start_of h i = zlen pre -> end_of h i = start_of h i + zlen s ->
    stream_of out h i = s) as Hstream'.
  { intros i s pre post Ho Hs He. apply (Hstream i s pre post); [done| |done]. by rewrite He, Hs. }
  pose proof (Hstream' 1 s1 (hd ++ s0) (s2 ++ s3) ltac:(by rewrite Hout, <- !app_assoc)
    ltac:(rewrite zlen_app, Hhd; done) ltac:(done)) as T1.
  pose proof (Hstream' 2 s2 (hd ++ s0 ++ s1) s3 ltac:(by rewrite Hout, <- !app_assoc)
    ltac:(rewrite !zlen_app, Hhd; change (start_of h 2) with (6 + zlen s0 + zlen s1); lia) ltac:(done)) as T2.
  pose proof (Hstream' 3 s3 (hd ++ s0 ++ s1 ++ s2) [] ltac:(by rewrite Hout, <- !app_assoc, app_nil_r)
    ltac:(rewrite !zlen_app, Hhd; change (start_of h 3) with (6 + zlen s0 + zlen s1 + zlen s2); lia) ltac:(done)) as T3.
  unfold parts_ref.
  rewrite (Hpart 0 s0 ltac:(lia) T0 (Hplen 0 ltac:(lia)) S0), (Hpart 1 s1 ltac:(lia) T1 (Hplen 1 ltac:(lia)) S1),
    (Hpart 2 s2 ltac:(lia) T2 (Hplen 2 ltac:(lia)) S2), (Hpart 3 s3 ltac:(lia) T3 (Hplen 3 ltac:(lia)) S3).
  cbn [mbind option_bind]. by rewrite Hsrc.
Qed.
