(* ===== verification/HufCTable.v ===== *)
(** * Huffman tables of the encoder ([src/huf.rs], [HUF_buildCTable_wksp])

    From the counts of the symbols to a table of canonical codes: the sort of
    the symbols by count, the tree of merges, the limit on its depth and the
    codes. The node table is a list of 512 elements, the source's [huffNode[i]]
    at [i + 1] behind the barrier. Shifts carry the check of their amount. *)

From S2P Require Import Prelude Words HufCStream.

(** ** Nodes *)

Record NodeElt := MkNode {
  n_count : Z;
  n_parent : Z;
  n_byte : Z;
  n_bits : Z;   (* nb_bits *)
}.

Definition node_default : NodeElt := MkNode 0 0 0 0.

Definition with_count (n : NodeElt) (c : Z) : NodeElt := MkNode c (n_parent n) (n_byte n) (n_bits n).
Definition with_parent (n : NodeElt) (p : Z) : NodeElt := MkNode (n_count n) p (n_byte n) (n_bits n).
Definition with_bits (n : NodeElt) (b : Z) : NodeElt := MkNode (n_count n) (n_parent n) (n_byte n) b.

Definition HUFF_NODE_TABLE_SIZE : Z := 2 * (HUF_SYMBOLVALUE_MAX + 1).
Definition STARTNODE : Z := HUF_SYMBOLVALUE_MAX + 1.
Definition RANK_POSITION_TABLE_SIZE : Z := 192.
Definition RANK_POSITION_LOG_BUCKETS_BEGIN : Z := RANK_POSITION_TABLE_SIZE - 1 - 32 - 1.
Definition RANK_POSITION_DISTINCT_COUNT_CUTOFF : Z := RANK_POSITION_LOG_BUCKETS_BEGIN + 7.

(** An [i32] result. *)
Definition i32 (x : Z) : Z := signed 32 (wrap 32 x).

Section ctable.
Context {E : Type}.

Definition highbit32 (v : Z) : res E Z :=
  _ ← rassert (negb (v =? 0));
  Ok (31 - leading_zeros 32 v).

(** [1 << k] of an [i32]. *)
Definition shl_one (k : Z) : res E Z :=
  _ ← rassert ((0 <=? k) && (k <? 32));
  Ok (i32 (Z.shiftl 1 k)).

(** ** Sorting *)

(** [huf_get_index]. *)
Definition huf_get_index (count : Z) : res E Z :=
  if count <? RANK_POSITION_DISTINCT_COUNT_CUTOFF then Ok count
  else
    h ← highbit32 count;
    Ok (h + RANK_POSITION_LOG_BUCKETS_BEGIN).

(** One turn of the inner loop of [huf_insertion_sort]. *)
Definition insertion_shift (key : NodeElt) (st : list NodeElt * Z)
    : res E (list NodeElt * Z + list NodeElt * Z) :=
  let '(nodes, j) := st in
  if 0 <=? j then
    n ← idx nodes j;
    if n_count n <? n_count key then
      nodes ← store nodes (j + 1) n;
      Ok (inl (nodes, j - 1))
    else Ok (inr (nodes, j))
  else Ok (inr (nodes, j)).

Definition insertion_step (nodes : list NodeElt) (i : Z) : res E (list NodeElt) :=
  key ← idx nodes i;
  '(nodes, j) ← loopM (length nodes + 1) (insertion_shift key) (nodes, i - 1);
  store nodes (j + 1) key.

(** [huf_insertion_sort]. *)
Definition huf_insertion_sort (nodes : list NodeElt) : res E (list NodeElt) :=
  foldM insertion_step nodes (seqZ 1 (zlen nodes - 1)).

(** [arr.swap(i, j)]. *)
Definition swap_nodes (arr : list NodeElt) (i j : Z) : res E (list NodeElt) :=
  a ← idx arr i;
  b ← idx arr j;
  arr ← store arr i b;
  store arr j a.

Definition partition_step (pivot : Z) (st : list NodeElt * Z) (j : Z) : res E (list NodeElt * Z) :=
  let '(arr, i) := st in
  n ← idx arr j;
  if pivot <? n_count n then
    arr ← swap_nodes arr (i + 1) j;
    Ok (arr, i + 1)
  else Ok (arr, i).

(** [huf_quick_sort_partition]: the array, and the pivot's place. *)
Definition huf_quick_sort_partition (arr : list NodeElt) (low high : Z) : res E (list NodeElt * Z) :=
  p ← idx arr high;
  '(arr, i) ← foldM (partition_step (n_count p)) (arr, low - 1) (seqZ low (high - low));
  arr ← swap_nodes arr (i + 1) high;
  Ok (arr, i + 1).

(** One turn of the loop of [huf_simple_quick_sort], [rec] its calls. *)
Definition quick_sort_turn (rec : list NodeElt -> Z -> Z -> res E (list NodeElt)) (st : list NodeElt * Z * Z)
    : res E (list NodeElt * Z * Z + list NodeElt) :=
  let '(arr, low, high) := st in
  if low <? high then
    '(arr, i) ← huf_quick_sort_partition arr low high;
    if i - low <? high - i then
      arr ← rec arr low (i - 1);
      Ok (inl (arr, i + 1, high))
    else
      arr ← rec arr (i + 1) high;
      Ok (inl (arr, low, i - 1))
  else Ok (inr arr).

Definition K_INSERTION_SORT_THRESHOLD : Z := 8.

(** [huf_simple_quick_sort]; [depth] bounds the recursion. *)
Fixpoint huf_simple_quick_sort (depth : nat) (arr : list NodeElt) (low high : Z) : res E (list NodeElt) :=
  match depth with
  | O => Stuck
  | S depth =>
      if high - low <? K_INSERTION_SORT_THRESHOLD then
        if low <? high then on_slice arr low (high + 1) huf_insertion_sort else Ok arr
      else loopM (length arr + 1) (quick_sort_turn (huf_simple_quick_sort depth)) (arr, low, high)
  end.

(** The loops of [huf_sort]: the sizes of the ranks, ... *)
Definition rank_count (rp : list (Z * Z)) (c : Z) : res E (list (Z * Z)) :=
  i ← huf_get_index c;
  r ← idx rp i;
  store rp i (wadd 16 r.1 1, r.2).

(** ... their starts, ... *)
Definition rank_start (rp : list (Z * Z)) (n : Z) : res E (list (Z * Z)) :=
  a ← idx rp (n - 1);
  b ← idx rp n;
  let base := wadd 16 a.1 b.1 in
  store rp (n - 1) (base, base).

(** ... the symbols, each put in its rank, ... *)
Definition rank_put (st : list NodeElt * list (Z * Z)) (nc : Z * Z) : res E (list NodeElt * list (Z * Z)) :=
  let '(nodes, rp) := st in
  let '(n, c) := nc in
  i ← huf_get_index c;
  r ← idx rp (i + 1);
  rp ← store rp (i + 1) (r.1, wadd 16 r.2 1);
  old ← idx nodes (r.2 + 1);
  nodes ← store nodes (r.2 + 1) (MkNode c (n_parent old) (wrap 8 n) (n_bits old));
  Ok (nodes, rp).

(** ... and the sort of each rank of several counts. *)
Definition rank_sort (nodes : list NodeElt) (rp : Z * Z) : res E (list NodeElt) :=
  let bucket_size := wsub 16 rp.2 rp.1 in
  let start := rp.1 in
  if 1 <? bucket_size then
    on_slice nodes (start + 1) (start + bucket_size + 1) (fun bucket =>
      huf_simple_quick_sort (length bucket + 1) bucket 0 (bucket_size - 1))
  else Ok nodes.

(** [huf_sort]. *)
Definition huf_sort (nodes : list NodeElt) (count : list Z) (max_symbol : Z) : res E (list NodeElt) :=
  let max_symbol1 := max_symbol + 1 in
  cs ← slice count 0 max_symbol1;
  rp ← foldM rank_count (zrepeat (0, 0) RANK_POSITION_TABLE_SIZE) cs;
  rp ← foldM rank_start rp (reverse (seqZ 1 (RANK_POSITION_TABLE_SIZE - 1)));
  '(nodes, rp) ← foldM rank_put (nodes, rp) (enumerate cs);
  foldM rank_sort nodes (zdrop RANK_POSITION_DISTINCT_COUNT_CUTOFF (ztake (RANK_POSITION_TABLE_SIZE - 1) rp)).

(** ** The tree *)

(** [hn!(i)]. *)
Definition hn (nodes : list NodeElt) (i : Z) : res E NodeElt := idx nodes (i + 1).

(** An update of [hn!(i)]. *)
Definition hn_upd (nodes : list NodeElt) (i : Z) (f : NodeElt -> NodeElt) : res E (list NodeElt) :=
  n ← hn nodes i;
  store nodes (i + 1) (f n).

(** [while hn!(n).count == 0 { n -= 1 }]. *)
Definition skip_null (nodes : list NodeElt) (max_symbol : Z) : res E Z :=
  loopM (length nodes + 1) (fun i =>
    n ← hn nodes i;
    Ok (if n_count n =? 0 then inl (i - 1) else inr i)) max_symbol.

(** [n1], [n2]: the smaller of the two queues' heads becomes a child of
    [node_nb]; its count, and the queues after. *)
Definition take_smaller (node_nb : Z) (st : list NodeElt * Z * Z) : res E (Z * (list NodeElt * Z * Z)) :=
  let '(nodes, low_s, low_n) := st in
  s ← hn nodes low_s;
  n ← hn nodes low_n;
  if n_count s <? n_count n then
    nodes ← hn_upd nodes low_s (fun x => with_parent x (wrap 16 node_nb));
    x ← hn nodes (low_s - 1 + 1);
    Ok (n_count x, (nodes, low_s - 1, low_n))
  else
    nodes ← hn_upd nodes low_n (fun x => with_parent x (wrap 16 node_nb));
    x ← hn nodes (low_n + 1 - 1);
    Ok (n_count x, (nodes, low_s, low_n + 1)).

(** One turn of the loop of merges. *)
Definition merge_turn (node_root : Z) (st : list NodeElt * Z * Z * Z)
    : res E (list NodeElt * Z * Z * Z + list NodeElt) :=
  let '(nodes, low_s, low_n, node_nb) := st in
  if node_nb <=? node_root then
    '(c1, st) ← take_smaller node_nb (nodes, low_s, low_n);
    '(c2, st) ← take_smaller node_nb st;
    let '(nodes, low_s, low_n) := st in
    nodes ← hn_upd nodes node_nb (fun x => with_count x (wadd 32 c1 c2));
    Ok (inl (nodes, low_s, low_n, node_nb + 1))
  else Ok (inr nodes).

(** A node's depth, from its parent's. *)
Definition depth_step (nodes : list NodeElt) (n : Z) : res E (list NodeElt) :=
  x ← hn nodes n;
  p ← hn nodes (n_parent x);
  hn_upd nodes n (fun x => with_bits x (wadd 8 (n_bits p) 1)).

(** [huf_build_tree]: the nodes, and [non_null_rank]. *)
Definition huf_build_tree (nodes : list NodeElt) (max_symbol : Z) : res E (list NodeElt * Z) :=
  non_null_rank ← skip_null nodes max_symbol;
  let low_s := non_null_rank in
  let node_nb := STARTNODE in
  let node_root := node_nb + low_s - 1 in
  let low_n := node_nb in
  a ← hn nodes low_s;
  b ← hn nodes (low_s - 1);
  nodes ← hn_upd nodes node_nb (fun x => with_count x (wadd 32 (n_count a) (n_count b)));
  nodes ← hn_upd nodes low_s (fun x => with_parent x (wrap 16 node_nb));
  nodes ← hn_upd nodes (low_s - 1) (fun x => with_parent x (wrap 16 node_nb));
  let node_nb := node_nb + 1 in
  let low_s := low_s - 2 in
  nodes ← foldM (fun nodes i => n ← idx nodes i; store nodes i (with_count n (2 ^ 30))) nodes
    (seqZ (node_nb + 1) (Z.min (node_root + 2) (zlen nodes) - (node_nb + 1)));
  nodes ← hn_upd nodes (-1) (fun x => with_count x (2 ^ 31));
  nodes ← loopM (length nodes + 1) (merge_turn node_root) (nodes, low_s, low_n, node_nb);
  nodes ← hn_upd nodes node_root (fun x => with_bits x 0);
  nodes ← foldM depth_step nodes (reverse (seqZ STARTNODE (node_root - STARTNODE)));
  nodes ← foldM depth_step nodes (seqZ 0 (non_null_rank + 1));
  Ok (nodes, non_null_rank).

(** ** The limit on the depth *)

Definition NO_SYMBOL : Z := 0xF0F0F0F0.

(** The loop that cuts the codes of more than [target] bits. *)
Definition cut_turn (target largest base_cost : Z) (st : list NodeElt * Z * Z)
    : res E (list NodeElt * Z * Z + list NodeElt * Z * Z) :=
  let '(nodes, total_cost, n) := st in
  x ← hn nodes n;
  if target <? n_bits x then
    c ← shl_one (largest - n_bits x);
    nodes ← hn_upd nodes n (fun x => with_bits x (wrap 8 target));
    Ok (inl (nodes, i32 (total_cost + i32 (base_cost - c)), n - 1))
  else Ok (inr (nodes, total_cost, n)).

(** [while hn!(n).nb_bits == target { n -= 1 }]. *)
Definition skip_target (target : Z) (nodes : list NodeElt) (n : Z) : res E Z :=
  loopM (length nodes + 1) (fun n =>
    x ← hn nodes n;
    Ok (if n_bits x =? target then inl (n - 1) else inr n)) n.

(** [rank_last]: the last node of each length below [target]. *)
Definition rank_last_step (target : Z) (nodes : list NodeElt) (st : list Z * Z) (pos : Z) : res E (list Z * Z) :=
  let '(rank_last, current) := st in
  x ← hn nodes pos;
  if current <=? n_bits x then Ok (rank_last, current)
  else
    let current := n_bits x in
    rank_last ← store rank_last (target - current) pos;
    Ok (rank_last, current).

(** The search down from [highbit32(total_cost) + 1] for the rank to
    lengthen. *)
Definition seek_rank (nodes : list NodeElt) (rank_last : list Z) (nb : Z) : res E (Z + Z) :=
  if 1 <? nb then
    high_pos ← idx rank_last nb;
    low_pos ← idx rank_last (nb - 1);
    if high_pos =? NO_SYMBOL then Ok (inl (nb - 1))
    else if low_pos =? NO_SYMBOL then Ok (inr nb)
    else
      high ← hn nodes high_pos;
      low ← hn nodes low_pos;
      if n_count high <=? wmul 32 2 (n_count low) then Ok (inr nb) else Ok (inl (nb - 1))
  else Ok (inr nb).

(** ... and up to a rank that is not empty. *)
Definition seek_up (rank_last : list Z) (nb : Z) : res E (Z + Z) :=
  if nb <=? HUF_CTABLELOG_MAX then
    p ← idx rank_last nb;
    Ok (if p =? NO_SYMBOL then inl (nb + 1) else inr nb)
  else Ok (inr nb).

(** One turn of the loop that repays the cost. *)
Definition repay_turn (target : Z) (st : list NodeElt * list Z * Z)
    : res E (list NodeElt * list Z * Z + list NodeElt * list Z * Z) :=
  let '(nodes, rank_last, total_cost) := st in
  if 0 <? total_cost then
    h ← highbit32 (wrap 32 total_cost);
    nb ← loopM 33 (seek_rank nodes rank_last) (h + 1);
    p ← idx rank_last nb;
    _ ← rassert (negb (p =? NO_SYMBOL) || (nb =? 1));
    nb ← loopM 14 (seek_up rank_last) nb;
    i ← idx rank_last nb;
    _ ← rassert (negb (i =? NO_SYMBOL));
    c ← shl_one (nb - 1);
    let total_cost := i32 (total_cost - c) in
    nodes ← hn_upd nodes i (fun x => with_bits x (wadd 8 (n_bits x) 1));
    below ← idx rank_last (nb - 1);
    rank_last ← (if below =? NO_SYMBOL then store rank_last (nb - 1) i else Ok rank_last);
    rank_last ←
      (if i =? 0 then store rank_last nb NO_SYMBOL
       else
         prev ← hn nodes (i - 1);
         store rank_last nb (if n_bits prev =? wsub 32 target nb then i - 1 else NO_SYMBOL));
    Ok (inl (nodes, rank_last, total_cost))
  else Ok (inr (nodes, rank_last, total_cost)).

(** One turn of the loop that takes an overshoot back. *)
Definition overshoot_turn (target : Z) (st : list NodeElt * list Z * Z * Z)
    : res E (list NodeElt * list Z * Z * Z + list NodeElt) :=
  let '(nodes, rank_last, total_cost, n) := st in
  if total_cost <? 0 then
    r1 ← idx rank_last 1;
    if r1 =? NO_SYMBOL then
      n ← skip_target target nodes n;
      nodes ← hn_upd nodes (n + 1) (fun x => with_bits x (wsub 8 (n_bits x) 1));
      _ ← rassert (0 <=? n);
      rank_last ← store rank_last 1 (wrap 32 (n + 1));
      Ok (inl (nodes, rank_last, i32 (total_cost + 1), n))
    else
      nodes ← hn_upd nodes (r1 + 1) (fun x => with_bits x (wsub 8 (n_bits x) 1));
      rank_last ← store rank_last 1 (wadd 32 r1 1);
      Ok (inl (nodes, rank_last, i32 (total_cost + 1), n))
  else Ok (inr nodes).

(** [huf_set_max_height]: the nodes, and the depth. *)
Definition huf_set_max_height (nodes : list NodeElt) (last_non_null target : Z) : res E (list NodeElt * Z) :=
  x ← hn nodes last_non_null;
  let largest := n_bits x in
  if largest <=? target then Ok (nodes, largest)
  else
    base_cost ← shl_one (largest - target);
    '(nodes, total_cost, n) ← loopM (length nodes + 1) (cut_turn target largest base_cost) (nodes, 0, last_non_null);
    x ← hn nodes n;
    _ ← rassert (n_bits x <=? target);
    n ← skip_target target nodes n;
    _ ← rassert (Z.land (wrap 32 total_cost) (wsub 32 (wrap 32 base_cost) 1) =? 0);
    let total_cost := Z.shiftr total_cost (largest - target) in
    _ ← rassert (0 <? total_cost);
    '(rank_last, _) ← foldM (rank_last_step target nodes) (zrepeat NO_SYMBOL (HUF_CTABLELOG_MAX + 2), target)
      (reverse (seqZ 0 (n + 1)));
    '(nodes, rank_last, total_cost) ← loopM (Z.to_nat total_cost + 1) (repay_turn target) (nodes, rank_last, total_cost);
    nodes ← loopM (Z.to_nat (- total_cost) + 1) (overshoot_turn target) (nodes, rank_last, total_cost, n);
    Ok (nodes, target).

(** ** The codes *)

(** The loops of [huf_build_ctable_from_tree]: how many codes of each length
    there are, ... *)
Definition count_rank (nb_per_rank : list Z) (node : NodeElt) : res E (list Z) :=
  c ← idx nb_per_rank (n_bits node);
  store nb_per_rank (n_bits node) (wadd 16 c 1).

(** ... where each length's values start, the longest first, ... *)
Definition start_rank (nb_per_rank : list Z) (st : list Z * Z) (n : Z) : res E (list Z * Z) :=
  let '(val_per_rank, min) := st in
  val_per_rank ← store val_per_rank n min;
  c ← idx nb_per_rank n;
  Ok (val_per_rank, Z.shiftr (wadd 16 min c) 1).

(** ... each symbol's length, ... *)
Definition put_length (elts : list Z) (node : NodeElt) : res E (list Z) := store elts (n_byte node) (n_bits node).

(** ... and each symbol's value. *)
Definition put_value (st : list Z * list Z) (s : Z) : res E (list Z * list Z) :=
  let '(elts, val_per_rank) := st in
  elt ← idx elts s;
  let nb_bits := Z.land elt 0xFF in
  value ← idx val_per_rank nb_bits;
  val_per_rank ← store val_per_rank nb_bits (wadd 16 value 1);
  if 0 <? nb_bits then
    _ ← rassert (nb_bits <? 64);
    _ ← rassert (Z.shiftr value nb_bits =? 0);
    elts ← store elts s (Z.lor elt (wshl 64 value (64 - nb_bits)));
    Ok (elts, val_per_rank)
  else Ok (elts, val_per_rank).

(** [huf_build_ctable_from_tree]. *)
Definition huf_build_ctable_from_tree (table : HufTable) (nodes : list NodeElt) (non_null_rank max_symbol max_nb_bits : Z)
    : res E HufTable :=
  huff_node ← slice_from nodes 1;
  let alphabet_size := max_symbol + 1 in
  live ← slice huff_node 0 (non_null_rank + 1);
  nb_per_rank ← foldM count_rank (zrepeat 0 (HUF_CTABLELOG_MAX + 1)) live;
  '(val_per_rank, _) ← foldM (start_rank nb_per_rank) (zrepeat 0 (HUF_CTABLELOG_MAX + 1), 0)
    (reverse (seqZ 1 max_nb_bits));
  symbols ← slice huff_node 0 alphabet_size;
  elts ← foldM put_length (elts table) symbols;
  kept ← slice elts 0 alphabet_size;
  let elts := kept ++ zrepeat 0 (zlen elts - alphabet_size) in
  '(elts, _) ← foldM put_value (elts, val_per_rank) (seqZ 0 alphabet_size);
  Ok (MkHufTable elts (wrap 8 max_nb_bits) (wrap 8 max_symbol)).

(** [build_ctable]: [None] for the depth that cannot be limited. *)
Definition huf_build_ctable (table : HufTable) (count : list Z) (max_symbol max_nb_bits : Z) : res E (option HufTable) :=
  let max_nb_bits := if max_nb_bits =? 0 then HUF_TABLELOG_DEFAULT else max_nb_bits in
  _ ← rassert (max_symbol <=? HUF_SYMBOLVALUE_MAX);
  let nodes := zrepeat node_default HUFF_NODE_TABLE_SIZE in
  nodes ← huf_sort nodes count max_symbol;
  '(nodes, non_null_rank) ← huf_build_tree nodes max_symbol;
  '(nodes, max_nb_bits) ← huf_set_max_height nodes non_null_rank max_nb_bits;
  if HUF_CTABLELOG_MAX <? max_nb_bits then Ok None
  else
    table ← huf_build_ctable_from_tree table nodes non_null_rank max_symbol max_nb_bits;
    Ok (Some table).

(** ** Costs *)

(** [estimate_compressed_size]. *)
Definition estimate_compressed_size (table : HufTable) (count : list Z) (max_symbol : Z) : res E Z :=
  cs ← slice count 0 (max_symbol + 1);
  nb_bits ← foldM (fun acc '(s, c) => nb ← huf_nb_bits table s; Ok (acc + nb * c)) 0 (enumerate cs);
  Ok (Z.shiftr nb_bits 3).

(** [validate_ctable]. *)
Definition validate_ctable (table : HufTable) (count : list Z) (max_symbol : Z) : res E bool :=
  if he_max table <? max_symbol then Ok false
  else
    cs ← slice count 0 (max_symbol + 1);
    bad ← foldM (fun bad '(s, c) => nb ← huf_nb_bits table s; Ok (bad || (negb (c =? 0) && (nb =? 0)))) false (enumerate cs);
    Ok (negb bad).
End ctable.

(** The comment next to the source's constant says 166. *)
Example distinct_cutoff : RANK_POSITION_DISTINCT_COUNT_CUTOFF = 165.
Proof. done. Qed.
