(* ===== verification/HufCanon.v ===== *)
(** * The encoder's codes are the decoder's

    [huf_build_ctable_from_tree] gives each symbol the canonical code of its
    length: the values of a length start where those of the longer ones end.
    When the lengths are a complete code's, the decoder's table of the same
    weights gives the symbols back ([mirrors]). *)

From S2P Require Import Prelude Words Constants Errors FseCounts FseBuild HufTable HufWeights HufFill HufX2Table.
From S2P Require Import BitCStream HufCStream HufRoundTrip HufCTable.

(** ** The lengths of a complete code *)

(** The weights the tree's description holds. *)
Definition weights_of (L : Z) (lens : list Z) : list Z := (fun n => if n =? 0 then 0 else L + 1 - n) <$> lens.

Record huf_lens (L : Z) (lens : list Z) : Prop := {
  hl_log : 1 <= L <= 12;
  hl_len : 1 <= zlen lens <= 256;
  hl_range : Forall (fun n => 0 <= n <= L) lens;
  hl_kraft : kraft (weights_of L lens) = 2 ^ L;
  hl_full : L ∈ lens;
}.

(** The cells of the weights up to [k]. *)
Definition cells_upto (ws : list Z) (k : Z) : Z := rank_sum (fun w => occurrences w ws) (seqZ 1 k).

(** The value of the [s]-th symbol, of length [n]. *)
Definition canon_value (L : Z) (lens : list Z) (s n : Z) : Z :=
  cells_upto (weights_of L lens) (L - n) / 2 ^ (L - n) + occurrences n (ztake s lens).

(** The elements of the table. *)
Definition canon_elts (L : Z) (lens elts : list Z) : Prop :=
  zlen elts = 256 /\ forall s, 0 <= s < 256 ->
    zget elts s = Some (let n := default 0 (zget lens s) in if n =? 0 then 0 else elt_of (canon_value L lens s n) n).

Lemma occurrences_weights L n l : 1 <= n <= L -> Forall (fun n => 0 <= n <= L) l ->
  occurrences (L + 1 - n) (weights_of L l) = occurrences n l.
Proof.
  intros Hn. induction 1 as [|x l Hx Hl IH]; [done|]. unfold weights_of in *. rewrite fmap_cons, !occurrences_cons, IH.
  f_equal. destruct (Z.eqb_spec x 0), (Z.eqb_spec x n), (Z.eqb_spec 0 (L + 1 - n)), (Z.eqb_spec (L + 1 - x) (L + 1 - n)); lia.
Qed.

Lemma zlen_weights_of L lens : zlen (weights_of L lens) = zlen lens.
Proof. apply zlen_fmap. Qed.

Lemma weights_of_ztake L lens k : ztake k (weights_of L lens) = weights_of L (ztake k lens).
Proof. unfold ztake, weights_of. by rewrite fmap_take. Qed.

Section lens.
Context (L : Z) (lens : list Z) (Hl : huf_lens L lens).

Abbreviation ws := (weights_of L lens).
Abbreviation F := (cells_upto ws).

Let HL : 1 <= L <= 12 := hl_log _ _ Hl.

Lemma weights_range : Forall (fun w => 0 <= w <= L) ws.
Proof.
  unfold weights_of. apply Forall_fmap. eapply Forall_impl; [apply (hl_range _ _ Hl)|]. cbn. intros n Hn.
  destruct (Z.eqb_spec n 0); lia.
Qed.

Lemma cells_S k : 0 <= k -> F (k + 1) = F k + occurrences (k + 1) ws * 2 ^ k.
Proof.
  intros Hk. unfold cells_upto. rewrite seqZ_app, rank_sum_app by lia. f_equal.
  change (seqZ (1 + k) 1) with [1 + k]. unfold rank_sum. cbn [foldr]. rewrite cell_share_pow by lia.
  replace (1 + k - 1) with k by lia. rewrite (Z.add_comm 1 k). lia.
Qed.

Lemma cells_all : F L = 2 ^ L.
Proof.
  rewrite <- (hl_kraft _ _ Hl). apply rank_sum_kraft_list; [apply NoDup_seqZ|rewrite elem_of_seqZ; lia|].
  eapply Forall_impl; [apply weights_range|]. cbn. intros w Hw. rewrite elem_of_seqZ. lia.
Qed.

Lemma cells_range k : 0 <= k <= L -> 0 <= F k <= 2 ^ L.
Proof.
  intros Hk. split; [apply rank_sum_nonneg|]. rewrite <- cells_all. unfold cells_upto.
  replace (seqZ 1 L) with (seqZ 1 k ++ seqZ (1 + k) (L - k)) by (rewrite <- seqZ_app by lia; f_equal; lia).
  rewrite rank_sum_app. pose proof (rank_sum_nonneg ws (seqZ (1 + k) (L - k))). lia.
Qed.

Lemma cells_divide k : 0 <= k <= L -> (2 ^ k | F k).
Proof.
  intros Hk. assert (forall j, 0 <= j <= L - k -> (2 ^ k | F (L - j))) as H.
  { intros j Hj. rewrite <- (Z2Nat.id j) in * by lia. induction (Z.to_nat j) as [|n IH].
    - rewrite Z.sub_0_r, cells_all. by apply pow2_divide.
    - specialize (IH ltac:(lia)). pose proof (cells_S (L - Z.of_nat (S n)) ltac:(lia)) as HS.
      replace (L - Z.of_nat (S n) + 1) with (L - Z.of_nat n) in HS by lia. rewrite HS in IH.
      apply (Z.divide_add_cancel_r _ (occurrences (L - Z.of_nat n) ws * 2 ^ (L - Z.of_nat (S n)))).
      + apply Z.divide_mul_r, pow2_divide. lia.
      + by rewrite Z.add_comm. }
  specialize (H (L - k) ltac:(lia)). by replace (L - (L - k)) with k in H by lia.
Qed.

(** The first value of the length [L - k]. *)
Abbreviation base k := (F k / 2 ^ k).

Lemma base_exact k : 0 <= k <= L -> F k = base k * 2 ^ k.
Proof.
  intros Hk. destruct (cells_divide k Hk) as [q Hq]. rewrite Hq, Z.div_mul; [done|]. pose proof (pow2_pos k ltac:(lia)). lia.
Qed.

Lemma base_S k : 0 <= k < L -> 2 * base (k + 1) = base k + occurrences (k + 1) ws.
Proof.
  intros Hk. pose proof (base_exact k ltac:(lia)) as H0. pose proof (base_exact (k + 1) ltac:(lia)) as H1.
  set (b1 := F (k + 1) / 2 ^ (k + 1)) in *. set (b0 := F k / 2 ^ k) in *.
  rewrite cells_S, H0, Z.pow_add_r in H1 by lia. change (2 ^ 1) with 2 in H1. pose proof (pow2_pos k ltac:(lia)). nia.
Qed.

(** The values of a length fit in it. *)
Lemma base_fits k : 0 <= k < L -> 0 <= base k /\ base k + occurrences (k + 1) ws <= 2 ^ (L - k).
Proof.
  intros Hk. pose proof (pow2_pos k ltac:(lia)). split; [apply Z.div_pos; [apply cells_range|]; lia|].
  pose proof (cells_range (k + 1) ltac:(lia)) as Hr. pose proof (base_exact k ltac:(lia)) as H0.
  set (b0 := F k / 2 ^ k) in *. rewrite cells_S, H0, <- Z.mul_add_distr_r in Hr by lia.
  replace (2 ^ L) with (2 ^ (L - k) * 2 ^ k) in Hr by (rewrite <- pow2_add by lia; f_equal; lia). nia.
Qed.

Lemma canon_value_range s n : zget lens s = Some n -> n <> 0 -> 1 <= n <= L /\ 0 <= canon_value L lens s n < 2 ^ n.
Proof.
  intros Hs Hn. pose proof (Forall_zget _ _ _ _ (hl_range _ _ Hl) Hs) as Hr. cbn in Hr. split; [lia|].
  unfold canon_value. destruct (base_fits (L - n) ltac:(lia)) as [H0 H1]. replace (L - (L - n)) with n in H1 by lia.
  destruct (occurrences_ztake_lt _ _ _ Hs) as [_ Ho].
  replace (L - n + 1) with (L + 1 - n) in H1 by lia. rewrite occurrences_weights in H1 by (apply hl_range, Hl || lia).
  pose proof (occurrences_nonneg n (ztake s lens)). lia.
Qed.

(** ** The decoder's table *)

(** The decoder's table of the same weights mirrors the codes. *)
Lemma canon_mirrors t elts : complete t -> max_num_bits t = L -> code_weights t = ws -> canon_elts L lens elts ->
  mirrors elts L (x1_table t) (fun s => exists n, zget lens s = Some n /\ n <> 0).
Proof.
  intros Hc HLt Hws [Hlen Helts] s (n & Hs & Hn). pose proof (zget_lt _ _ _ Hs) as Hsr. pose proof (hl_len _ _ Hl).
  destruct (canon_value_range s n Hs Hn) as [Hr Hv]. exists (canon_value L lens s n), n.
  split; [rewrite Helts, Hs by lia; change (default 0 (Some n)) with n; cbv zeta; by rewrite (proj2 (Z.eqb_neq n 0))|]. split; [done|]. split; [done|].
  pose proof (cc_log t Hc) as Hlog. rewrite HLt in Hlog. change HUF_TABLELOG_MAX with 11 in Hlog.
  change HUF_FAST_TABLE_LOG with 11. intros i Hi Hiv. set (w := L + 1 - n). assert (1 <= w <= L) as Hw by (unfold w; lia).
  assert (x1_len t w = 2 ^ (11 - n)) as Hlw by (unfold x1_len; rewrite HLt; f_equal; unfold w; lia).
  assert (x1_start t w = base (w - 1) * x1_len t w) as Hsw.
  { unfold x1_start. rewrite zlen_table_upto by (unfold HUF_FAST_TABLE_LOG, HUF_TABLELOG_MAX; lia). rewrite Hws, HLt.
    change (rank_sum _ _) with (F (w - 1)). rewrite (base_exact (w - 1)) at 1 by lia. unfold x1_len, HUF_FAST_TABLE_LOG, HUF_TABLELOG_MAX.
    rewrite HLt, pow2_add by lia. ring. }
  set (o := occurrences n (ztake s lens)).
  assert (canon_value L lens s n = base (w - 1) + o) as Hcv by (unfold canon_value, o; by replace (L - n) with (w - 1) by (unfold w; lia)).
  pose proof (pow2_pos (11 - n) ltac:(lia)) as Hp. rewrite Hcv in Hiv.
  pose proof (Z.div_mod i (2 ^ (11 - n)) ltac:(lia)) as Hdm. pose proof (Z.mod_pos_bound i (2 ^ (11 - n)) Hp) as Hmb.
  rewrite Hiv in Hdm. set (x := o * x1_len t w + i mod 2 ^ (11 - n)).
  assert (i = x1_start t w + x) as Hix by (rewrite Hsw; unfold x; rewrite Hlw; lia).
  rewrite Hix. clear Hix.
  destruct (occurrences_ztake_lt _ _ _ Hs) as [_ Ho]. fold o in Ho. assert (0 <= o) by apply occurrences_nonneg.
  assert (occurrences w ws = occurrences n lens) as Hoc by (apply occurrences_weights; [lia|apply Hl]).
  rewrite x1_at, HLt.
  - assert (x / x1_len t w = o) as ->.
    { unfold x. rewrite Hlw, Z.div_add_l, Z.div_small by lia. lia. }
    rewrite Hws. assert (zget (symbols_of ws w) o = Some s) as ->.
    { rewrite <- zlen_weights_of with (L := L) in Hsr. assert (zget ws s = Some w) as Hsw'.
      { unfold weights_of. rewrite zget_fmap, Hs. cbn. by rewrite (proj2 (Z.eqb_neq n 0)). }
      assert (seqZ 0 (zlen ws) = seqZ 0 s ++ [s] ++ seqZ (s + 1) (zlen ws - s - 1)) as Hsplit.
      { change [s] with (seqZ s 1). rewrite <- (seqZ_app s 1 (zlen ws - s - 1)) by lia.
        pose proof (seqZ_app 0 s (1 + (zlen ws - s - 1)) ltac:(lia) ltac:(lia)) as Hs2. rewrite Z.add_0_l in Hs2.
        rewrite <- Hs2. f_equal. lia. }
      unfold symbols_of. rewrite Hsplit, filter_app. change (filter _ (seqZ 0 s)) with (symbols_upto ws w s).
      rewrite filter_app, (filter_cons_True _ s) by done.
      assert (zlen (symbols_upto ws w s) = o) as Hz.
      { rewrite zlen_symbols_upto, weights_of_ztake by lia. unfold w. apply occurrences_weights; [lia|]. apply Forall_take, Hl. }
      rewrite zget_app_r, Hz, Z.sub_diag by lia. done. }
    cbn. do 2 f_equal. unfold w. lia.
  - done.
  - lia.
  - rewrite Hws, Hoc. unfold x. rewrite Hlw. nia.
Qed.
End lens.

(** ** The builder *)

(** The nodes hold the lengths: one node for each symbol, the coded ones
    first. *)
Record nodes_hold (nodes : list NodeElt) (rank ms : Z) (lens : list Z) : Prop := {
  nh_len : zlen nodes = 512;
  nh_symbols : zlen lens = ms + 1;
  nh_rank : 0 <= rank <= ms;
  nh_perm : (fun x => (n_byte x, n_bits x)) <$> ztake (ms + 1) (zdrop 1 nodes) ≡ₚ enumerate lens;
  nh_dead : Forall (fun x => n_bits x = 0) (zdrop (rank + 1) (ztake (ms + 1) (zdrop 1 nodes)));
}.

Section builder.
Context {E : Type} (L : Z) (lens : list Z) (Hl : huf_lens L lens).
Context (nodes : list NodeElt) (rank ms : Z) (Hn : nodes_hold nodes rank ms lens).

Abbreviation ws := (weights_of L lens).
Abbreviation base k := (cells_upto ws k / 2 ^ k).
Abbreviation symbols := (ztake (ms + 1) (zdrop 1 nodes)).
Abbreviation live := (ztake (rank + 1) (zdrop 1 nodes)).

Let HL : 1 <= L <= 12 := hl_log _ _ Hl.
Let Hms : 0 <= ms < 256.
Proof. pose proof (hl_len _ _ Hl). pose proof (nh_symbols _ _ _ _ Hn). pose proof (nh_rank _ _ _ _ Hn). lia. Qed.

Lemma symbol_length x : x ∈ symbols -> zget lens (n_byte x) = Some (n_bits x).
Proof.
  intros Hx. apply elem_of_enumerate. rewrite <- (nh_perm _ _ _ _ Hn). apply list_elem_of_fmap. by exists x.
Qed.

Lemma symbol_exists s n : zget lens s = Some n -> exists x, x ∈ symbols /\ n_byte x = s /\ n_bits x = n.
Proof.
  intros Hs. apply elem_of_enumerate in Hs. rewrite <- (nh_perm _ _ _ _ Hn) in Hs.
  apply list_elem_of_fmap in Hs as (x & [= -> ->] & Hx). by exists x.
Qed.

Lemma live_symbols : exists dead, symbols = live ++ dead /\ Forall (fun x => n_bits x = 0) dead.
Proof.
  exists (zdrop (rank + 1) symbols). split; [|apply Hn]. pose proof (nh_rank _ _ _ _ Hn).
  rewrite <- (take_drop (Z.to_nat (rank + 1)) symbols) at 1. fold (ztake (rank + 1) symbols). f_equal.
  unfold ztake. rewrite take_take. f_equal. lia.
Qed.

Lemma occurrences_live n : 1 <= n <= L -> occurrences n (n_bits <$> live) = occurrences n lens.
Proof.
  intros Hr. destruct live_symbols as (dead & Hs & Hd).
  rewrite <- (enumerate_snd lens). rewrite <- (occurrences_perm n _ _ (fmap_Permutation snd _ _ (nh_perm _ _ _ _ Hn))).
  rewrite <- list_fmap_compose, Hs, fmap_app, occurrences_app.
  assert (occurrences n ((snd ∘ (fun x => (n_byte x, n_bits x))) <$> dead) = 0) as ->; [|change (_ <$> live) with (n_bits <$> live) at 2; lia].
  clear Hs. induction Hd as [|x dead Hx Hd IH]; [done|]. rewrite fmap_cons, occurrences_cons, IH. cbn. rewrite Hx.
  destruct (Z.eqb_spec 0 n); lia.
Qed.

Lemma live_range x : x ∈ live -> 0 <= n_bits x <= L.
Proof.
  intros Hx. destruct live_symbols as (dead & Hs & _). assert (x ∈ symbols) as Hxs by (rewrite Hs; apply elem_of_app; by left).
  apply symbol_length in Hxs. exact (Forall_zget _ _ _ _ (hl_range _ _ Hl) Hxs).
Qed.

Lemma count_ranks_ok : returns (fun c => zlen c = 13 /\ forall n, 1 <= n <= L -> zget c n = Some (occurrences n lens))
  (foldM count_rank (zrepeat 0 (HUF_CTABLELOG_MAX + 1)) live : res E _).
Proof.
  eapply returns_mono; [apply (returns_foldM (fun k c => zlen c = 13 /\
    forall n, 0 <= n <= 12 -> zget c n = Some (occurrences n (n_bits <$> take k live))))|].
  - split; [done|]. intros n Hr. rewrite zget_zrepeat by (unfold HUF_CTABLELOG_MAX; lia). done.
  - intros k x c Hk [Hc Hg]. pose proof (live_range x (list_elem_of_lookup_2 _ _ _ Hk)) as Hr. unfold count_rank.
    rewrite (idx_ok _ _ _ (Hg (n_bits x) ltac:(lia))). cbn [mbind res_bind]. rewrite store_ok by lia. cbn [returns].
    split; [by rewrite zlen_zset|]. intros n Hnr. rewrite zget_zset by lia.
    rewrite (take_S_r _ _ _ Hk), fmap_app, occurrences_app. cbn [fmap list_fmap]. rewrite occurrences_cons.
    change (occurrences n []) with 0. destruct (Z.eqb_spec (n_bits x) n) as [->|]; [|rewrite Hg by lia; f_equal; lia].
    f_equal. rewrite Z.add_0_r. apply Z.mod_small. pose proof (occurrences_nonneg n (n_bits <$> take k live)).
    pose proof (occurrences_le n (n_bits <$> take k live)) as Ho. rewrite zlen_fmap in Ho.
    pose proof (nh_len _ _ _ _ Hn). unfold zlen, ztake, zdrop in *. rewrite !length_take, length_drop in Ho. change (2 ^ 16) with 65536. lia.
  - intros c [Hc Hg]. split; [done|]. intros n Hr. rewrite Hg by lia. rewrite take_ge by lia. f_equal. by apply occurrences_live.
Qed.

Lemma start_ranks_ok c : zlen c = 13 -> (forall n, 1 <= n <= L -> zget c n = Some (occurrences n lens)) ->
  returns (fun '(v, _) => zlen v = 13 /\ (forall n, 1 <= n <= L -> zget v n = Some (base (L - n))) /\ zget v 0 = Some 0)
    (foldM (start_rank c) (zrepeat 0 (HUF_CTABLELOG_MAX + 1), 0) (reverse (seqZ 1 L)) : res E _).
Proof.
  intros Hc Hg. eapply returns_mono; [apply (returns_for_down (fun m '(v, mn) => zlen v = 13 /\ mn = base (L + 1 - m) /\
    (forall n, m <= n <= L -> zget v n = Some (base (L - n))) /\ zget v 0 = Some 0)); [lia| |]|].
  - split; [done|]. replace (L + 1 - (1 + L)) with 0 by lia. split; [done|]. split; [lia|done].
  - intros m [v mn] Hm (Hv & Hmn & Hgv & H0). unfold start_rank. rewrite store_ok by lia. cbn [mbind res_bind].
    rewrite (idx_ok _ _ _ (Hg m ltac:(lia))). cbn [mbind res_bind returns]. split; [by rewrite zlen_zset|].
    replace (L + 1 - (m + 1)) with (L - m) in Hmn by lia. split; [|split].
    + destruct (base_fits L lens Hl (L - m) ltac:(lia)) as [B0 B1]. pose proof (base_S L lens Hl (L - m) ltac:(lia)) as B2.
      replace (L - m + 1) with (L + 1 - m) in B1, B2 by lia. rewrite occurrences_weights in B1, B2 by (apply Hl || lia).
      pose proof (occurrences_nonneg m lens). pose proof (pow2_le (L - (L - m)) 12 ltac:(lia)) as Hp. change (2 ^ 12) with 4096 in Hp.
      unfold wadd, wrap. rewrite Z.mod_small by (change (2 ^ 16) with 65536; lia). rewrite shiftr_div by lia. change (2 ^ 1) with 2.
      rewrite Hmn, <- B2, Z.mul_comm. by apply Z.div_mul.
    + intros n Hr. rewrite zget_zset by lia. destruct (Z.eqb_spec m n) as [->|]; [by rewrite Hmn|]. apply Hgv. lia.
    + rewrite zget_zset_ne by lia. done.
  - intros [v mn] (Hv & _ & Hgv & H0). done.
Qed.

Lemma put_lengths_ok elts : zlen elts = 256 ->
  returns (fun l => zlen l = 256 /\ forall s, 0 <= s <= ms -> zget l s = zget lens s) (foldM put_length elts symbols : res E _).
Proof.
  intros He. eapply returns_mono; [apply (returns_foldM (fun k l => zlen l = 256 /\
    forall x, x ∈ take k symbols -> zget l (n_byte x) = Some (n_bits x)))|].
  - split; [done|]. intros x Hx. by apply not_elem_of_nil in Hx.
  - intros k x l Hk [Hlen Hg]. pose proof (symbol_length x (list_elem_of_lookup_2 _ _ _ Hk)) as Hx.
    pose proof (zget_lt _ _ _ Hx) as Hr. pose proof (nh_symbols _ _ _ _ Hn). unfold put_length. rewrite store_ok by lia.
    cbn [returns]. split; [by rewrite zlen_zset|]. intros y Hy. rewrite (take_S_r _ _ _ Hk) in Hy.
    rewrite zget_zset by lia. destruct (Z.eqb_spec (n_byte x) (n_byte y)) as [Heq|Hne].
    + assert (y ∈ symbols) as Hys.
      { apply elem_of_app in Hy as [Hy|Hy]; [by eapply elem_of_take in Hy as (i & Hi & _); apply list_elem_of_lookup_2 in Hi|].
        apply list_elem_of_singleton in Hy as ->. by apply list_elem_of_lookup_2 in Hk. }
      apply symbol_length in Hys. rewrite <- Heq, Hx in Hys. by injection Hys as ->.
    + apply Hg. apply elem_of_app in Hy as [Hy|Hy]; [done|]. by apply list_elem_of_singleton in Hy as ->.
  - intros l [Hlen Hg]. rewrite take_ge in Hg by lia. split; [done|]. intros s Hs. pose proof (nh_symbols _ _ _ _ Hn).
    destruct (zget_is_Some lens s ltac:(lia)) as [n Hsn]. destruct (symbol_exists s n Hsn) as (x & Hx & <- & <-).
    by rewrite Hg, Hsn.
Qed.

(** The element of the [j]-th symbol. *)
Abbreviation final j := (let n := default 0 (zget lens j) in if n =? 0 then 0 else elt_of (canon_value L lens j n) n).

(** The values of the symbols below [s] are in. *)
Definition valued (s : Z) (st : list Z * list Z) : Prop :=
  zlen st.1 = 256 /\ zlen st.2 = 13 /\
  (forall j, 0 <= j < 256 -> zget st.1 j = Some (if j <? s then final j else default 0 (zget lens j))) /\
  forall n, 1 <= n <= L -> zget st.2 n = Some (base (L - n) + occurrences n (ztake s lens)).

Lemma put_value_ok s st : 0 <= s < 0 + (ms + 1) -> valued s st -> returns (valued (s + 1)) (put_value st s : res E _).
Proof.
  intros Hs. destruct st as [elts val]. intros (Le & Lv & He & Hv). cbn [fst snd] in *. unfold put_value.
  pose proof (nh_symbols _ _ _ _ Hn) as Hsy. destruct (zget_is_Some lens s ltac:(lia)) as [n Hsn].
  pose proof (Forall_zget _ _ _ _ (hl_range _ _ Hl) Hsn) as Hr. cbn in Hr.
  pose proof (He s ltac:(lia)) as Hes. rewrite (proj2 (Z.ltb_ge s s)), Hsn in Hes by lia. change (default 0 (Some n)) with n in Hes.
  rewrite (idx_ok _ _ _ Hes). cbn [mbind res_bind]. assert (Z.land n 0xFF = n) as ->.
  { change 0xFF with (2 ^ 8 - 1). rewrite land_mod by lia. apply Z.mod_small. lia. }
  destruct (zget_is_Some val n ltac:(lia)) as [v Hvn]. rewrite (idx_ok _ _ _ Hvn). cbn [mbind res_bind].
  rewrite (store_ok val) by lia. cbn [mbind res_bind].
  assert (forall j, 0 <= j < 256 -> j <> s -> zget elts j = Some (if j <? s + 1 then final j else default 0 (zget lens j))) as Hother.
  { intros j Hj Hne. rewrite He by done. destruct (Z.ltb_spec j s), (Z.ltb_spec j (s + 1)); done || lia. }
  destruct (Z.ltb_spec 0 n) as [Hn0|Hn0].
  - destruct (canon_value_range L lens Hl s n Hsn ltac:(lia)) as [_ Hcv].
    assert (v = canon_value L lens s n) as Hveq by (rewrite Hv in Hvn by lia; by injection Hvn as <-).
    rewrite (proj2 (Z.ltb_lt n 64)) by lia. cbn [rassert mbind res_bind].
    rewrite shiftr_div, Z.div_small by lia. cbn [Z.eqb rassert mbind res_bind]. rewrite store_ok by lia. cbn [mbind res_bind returns]. unfold valued.
    split_and!; cbn [fst snd]; [by rewrite zlen_zset|by rewrite zlen_zset| |].
    + intros j Hj. rewrite zget_zset by lia. destruct (Z.eqb_spec s j) as [->|]; [|apply Hother; lia].
      rewrite (proj2 (Z.ltb_lt j (j + 1))), Hsn by lia. change (default 0 (Some n)) with n. cbv zeta.
      rewrite (proj2 (Z.eqb_neq n 0)) by lia. f_equal. unfold wshl, wrap, elt_of. rewrite Z.shiftl_mul_pow2 by lia. rewrite <- Hveq in *.
      assert (2 ^ 64 = 2 ^ n * 2 ^ (64 - n)) as H64 by (rewrite <- pow2_add by lia; f_equal; lia).
      pose proof (pow2_le 6 (64 - n) ltac:(lia)) as H6. change (2 ^ 6) with 64 in H6.
      rewrite Z.mod_small by (rewrite H64; nia). rewrite lor_disjoint_add by lia. lia.
    + intros m Hm. rewrite zget_zset by lia. destruct (Z.eqb_spec n m) as [->|Hne].
      * destruct (occurrences_ztake_lt _ _ _ Hsn) as [Ho _]. rewrite Ho, Hveq. f_equal. unfold canon_value.
        pose proof (pow2_le m 12 ltac:(lia)) as Hp. change (2 ^ 12) with 4096 in Hp. unfold canon_value in Hcv.
        unfold wadd, wrap. rewrite Z.mod_small by (change (2 ^ 16) with 65536; lia). lia.
      * rewrite (occurrences_ztake_ne _ n) by done. by apply Hv.
  - assert (n = 0) as -> by lia. cbn [returns]. unfold valued. split_and!; cbn [fst snd]; [done|by rewrite zlen_zset| |].
    + intros j Hj. destruct (Z.eq_dec j s) as [->|]; [|apply Hother; lia].
      rewrite (proj2 (Z.ltb_lt s (s + 1))), Hsn by lia. done.
    + intros m Hm. rewrite zget_zset_ne by lia. rewrite (occurrences_ztake_ne _ 0) by (done || lia). by apply Hv.
Qed.

Lemma build_from_tree_ok table : zlen (elts table) = 256 ->
  returns (fun t => he_log t = L /\ he_max t = ms /\ canon_elts L lens (elts t))
    (huf_build_ctable_from_tree table nodes rank ms L : res E HufTable).
Proof.
  intros He. unfold huf_build_ctable_from_tree. pose proof (nh_len _ _ _ _ Hn) as Hlen. pose proof (nh_rank _ _ _ _ Hn) as Hr.
  pose proof (nh_symbols _ _ _ _ Hn) as Hsy.
  assert (zlen (zdrop 1 nodes) = 511) as Hd by (rewrite zlen_zdrop; lia).
  rewrite slice_from_ok by lia. cbn [mbind res_bind]. rewrite (slice_prefix _ (rank + 1)) by lia. cbn [mbind res_bind].
  eapply returns_bind; [apply count_ranks_ok|]. intros c [Hc Hg].
  eapply returns_bind; [by apply (start_ranks_ok c)|]. intros [v mn] (Hv & Hgv & Hv0).
  rewrite slice_prefix by lia. cbn [mbind res_bind].
  eapply returns_bind; [by apply put_lengths_ok|]. intros l [Hl1 Hl2].
  rewrite slice_prefix by lia. cbn [mbind res_bind].
  eapply returns_bind; [apply (returns_for_up valued); [lia| |apply put_value_ok]|].
  - assert (zlen (ztake (ms + 1) l) = ms + 1) as Hz by (apply zlen_ztake; lia).
    split_and!; cbn [fst snd]; [rewrite zlen_app, zlen_zrepeat; lia|done| |].
    + intros j Hj. rewrite (proj2 (Z.ltb_ge j 0)) by lia. destruct (Z.lt_ge_cases j (ms + 1)).
      * rewrite zget_app_l, zget_ztake, Hl2 by lia. destruct (zget_is_Some lens j ltac:(lia)) as [n ->]. done.
      * rewrite zget_app_r, zget_zrepeat by lia. rewrite (zget_None lens) by lia. done.
    + intros n Hnr. rewrite Hgv by lia. change (ztake 0 lens) with (@nil Z). change (occurrences n []) with 0. f_equal. lia.
  - intros [el vv] (Le & _ & Hel & _). cbn [fst snd returns he_log he_max HufCStream.elts] in *.
    split; [apply Z.mod_small; change (2 ^ 8) with 256; lia|]. split; [apply Z.mod_small; change (2 ^ 8) with 256; lia|].
    split; [done|]. intros s Hs. rewrite Hel by done. destruct (Z.ltb_spec s (0 + (ms + 1))); [done|].
    rewrite (zget_None lens) by lia. done.
Qed.
End builder.
