(* ===== verification/HufSort.v ===== *)
(** * The sort of the symbols ([src/huf.rs], [huf_sort])

    The buckets of [huf_sort] lie in order of their counts, those of several
    counts sorted by the in-place quick sort, with an insertion sort for the
    short ranges: the nodes end as the symbols by descending count. *)

From S2P Require Import Prelude Words HufCStream HufCTable.

(** ** Rearranging a range of an array *)

(** The count at [i]. *)
Definition cnt (l : list NodeElt) (i : Z) : Z := n_count (default node_default (zget l i)).

(** [l'] permutes the range [lo, hi] of [l]. *)
Record rearranged (lo hi : Z) (l l' : list NodeElt) : Prop := {
  ra_perm : l' ≡ₚ l;
  ra_out : forall i, i < lo \/ hi < i -> zget l' i = zget l i;
}.

Lemma ra_len lo hi l l' : rearranged lo hi l l' -> zlen l' = zlen l.
Proof. intros [H _]. unfold zlen. by rewrite H. Qed.

Lemma ra_refl lo hi l : rearranged lo hi l l.
Proof. by split. Qed.

Lemma ra_trans lo hi l1 l2 l3 : rearranged lo hi l1 l2 -> rearranged lo hi l2 l3 -> rearranged lo hi l1 l3.
Proof. intros [P1 O1] [P2 O2]. split; [by rewrite P2|]. intros i Hi. by rewrite O2, O1. Qed.

Lemma ra_widen lo hi lo' hi' l l' : rearranged lo hi l l' -> lo' <= lo -> hi <= hi' -> rearranged lo' hi' l l'.
Proof. intros [P O] Hl Hh. split; [done|]. intros i Hi. apply O. lia. Qed.

Lemma split3 {A} (l : list A) a b : 0 <= a -> a <= b -> b <= zlen l ->
  l = ztake a l ++ ztake (b - a) (zdrop a l) ++ zdrop b l.
Proof.
  intros. rewrite <- (take_drop (Z.to_nat a) l) at 1. fold (ztake a l) (zdrop a l). f_equal.
  rewrite <- (take_drop (Z.to_nat (b - a)) (zdrop a l)) at 1. fold (ztake (b - a) (zdrop a l)). f_equal.
  unfold zdrop. rewrite drop_drop. f_equal. lia.
Qed.

(** The range's elements stay in the range. *)
Lemma ra_inside lo hi l l' : rearranged lo hi l l' -> 0 <= lo -> hi < zlen l ->
  forall i, lo <= i <= hi -> exists j, lo <= j <= hi /\ zget l' i = zget l j.
Proof.
  intros Hra Hlo Hhi i Hi. pose proof (ra_len _ _ _ _ Hra) as Hlen. destruct Hra as [Hp Ho].
  assert (ztake (hi + 1 - lo) (zdrop lo l') ≡ₚ ztake (hi + 1 - lo) (zdrop lo l)) as Hm.
  { pose proof Hp as Hp'. rewrite (split3 l lo (hi + 1)), (split3 l' lo (hi + 1)) in Hp' by lia.
    assert (ztake lo l' = ztake lo l) as E1.
    { apply zlist_eq; [rewrite !zlen_ztake; lia|]. intros k Hk. rewrite zlen_ztake in Hk by lia. rewrite !zget_ztake by lia. apply Ho. lia. }
    assert (zdrop (hi + 1) l' = zdrop (hi + 1) l) as E2.
    { apply zlist_eq; [rewrite !zlen_zdrop; lia|]. intros k Hk. rewrite zlen_zdrop in Hk by lia. rewrite !zget_zdrop by lia. apply Ho. lia. }
    rewrite E1, E2 in Hp'. apply Permutation_app_inv_l, Permutation_app_inv_r in Hp'. done. }
  destruct (zget_is_Some l' i ltac:(lia)) as [x Hx].
  assert (x ∈ ztake (hi + 1 - lo) (zdrop lo l)) as Hin.
  { rewrite <- Hm. apply list_elem_of_lookup. exists (Z.to_nat (i - lo)). rewrite <- zget_nat, Z2Nat.id by lia.
    rewrite zget_ztake, zget_zdrop by lia. by replace (lo + (i - lo)) with i by lia. }
  apply list_elem_of_lookup in Hin as [k Hk]. rewrite <- zget_nat in Hk. pose proof (zget_lt _ _ _ Hk) as Hkr.
  rewrite zlen_ztake in Hkr by (rewrite zlen_zdrop; lia). rewrite zget_ztake, zget_zdrop in Hk by lia.
  exists (lo + Z.of_nat k). split; [lia|]. by rewrite Hx, Hk.
Qed.

Lemma swap_perm {A} (l : list A) i j x y : i <> j -> zget l i = Some x -> zget l j = Some y ->
  zset (zset l i y) j x ≡ₚ l.
Proof.
  assert (forall i j x y, i < j -> zget l i = Some x -> zget l j = Some y -> zset (zset l i y) j x ≡ₚ l) as H.
  { clear i j x y. intros i j x y Hij Hi Hj. pose proof (zget_lt _ _ _ Hi). pose proof (zget_lt _ _ _ Hj).
    assert (l = ztake i l ++ [x] ++ ztake (j - i - 1) (zdrop (i + 1) l) ++ [y] ++ zdrop (j + 1) l) as Hsplit.
    { rewrite (split3 l i (i + 1)) at 1 by lia. f_equal. replace (i + 1 - i) with 1 by lia. f_equal.
      - apply zlist_eq; [rewrite zlen_ztake; [done|rewrite zlen_zdrop; lia]|]. intros k Hk.
        rewrite zlen_ztake in Hk by (rewrite zlen_zdrop; lia). replace k with 0 by lia. rewrite zget_ztake, zget_zdrop by lia.
        by rewrite Z.add_0_r.
      - rewrite (split3 (zdrop (i + 1) l) (j - i - 1) (j - i)) at 1 by (rewrite ?zlen_zdrop; lia). f_equal. f_equal.
        + apply zlist_eq; [rewrite zlen_ztake; [cbn; unfold zlen; cbn; lia|rewrite !zlen_zdrop; rewrite ?zlen_zdrop; lia]|]. intros k Hk.
          rewrite zlen_ztake in Hk by (rewrite !zlen_zdrop; rewrite ?zlen_zdrop; lia). replace k with 0 by lia.
          rewrite zget_ztake, !zget_zdrop by lia. replace (i + 1 + (j - i - 1 + 0)) with j by lia. done.
        + unfold zdrop. rewrite drop_drop. f_equal. lia. }
    set (a := ztake i l) in *. set (b := ztake (j - i - 1) (zdrop (i + 1) l)) in *. set (c := zdrop (j + 1) l) in *.
    assert (zlen a = i) as La by (unfold a; rewrite zlen_ztake; lia).
    assert (zlen b = j - i - 1) as Lb by (unfold b; rewrite zlen_ztake; [lia|rewrite zlen_zdrop; lia]).
    assert (zset (zset l i y) j x = a ++ [y] ++ b ++ [x] ++ c) as ->.
    { rewrite Hsplit. unfold zset. replace (Z.to_nat i) with (length a + 0)%nat by (unfold zlen in La; lia).
      rewrite insert_app_r. cbn [insert list_insert app].
      replace (Z.to_nat j) with (length a + S (length b + 0))%nat by (unfold zlen in *; lia).
      rewrite insert_app_r. cbn [insert list_insert app]. f_equal. f_equal.
      change (<[(length b + 0)%nat := x]> (b ++ y :: c) = b ++ x :: c). by rewrite insert_app_r. }
    rewrite Hsplit. solve_Permutation. }
  intros Hne Hi Hj. destruct (Z.lt_total i j) as [Hlt|[->|Hgt]]; [by apply H|done|].
  rewrite <- (H j i y x Hgt Hj Hi) at 2. unfold zset. rewrite list_insert_insert_ne; [done|].
  pose proof (zget_lt _ _ _ Hi). pose proof (zget_lt _ _ _ Hj). lia.
Qed.

Section sort.
Context {E : Type}.

Lemma swap_ok arr i j lo hi : 0 <= lo -> lo <= i <= hi -> lo <= j <= hi -> hi < zlen arr ->
  returns (fun arr' => rearranged lo hi arr arr' /\ zget arr' i = zget arr j /\ zget arr' j = zget arr i /\
    forall k, k <> i -> k <> j -> zget arr' k = zget arr k) (swap_nodes arr i j : res E _).
Proof.
  intros Hlo Hi Hj Hhi. unfold swap_nodes. destruct (zget_is_Some arr i ltac:(lia)) as [x Hx].
  destruct (zget_is_Some arr j ltac:(lia)) as [y Hy]. rewrite (idx_ok _ _ _ Hx), (idx_ok _ _ _ Hy). cbn [mbind res_bind].
  rewrite (store_ok arr) by lia. cbn [mbind res_bind]. rewrite store_ok by (rewrite zlen_zset; lia). cbn [returns].
  assert (forall k, zget (zset (zset arr i y) j x) k = if j =? k then Some x else if i =? k then Some y else zget arr k) as Hg.
  { intros k. rewrite !zget_zset by (rewrite ?zlen_zset; lia). done. }
  split; [split|].
  - destruct (Z.eq_dec i j) as [->|Hne]; [|by apply swap_perm]. rewrite Hx in Hy. injection Hy as ->.
    assert (zset (zset arr j y) j y = arr) as ->; [|done].
    apply zlist_eq; [by rewrite !zlen_zset|]. intros k Hk. rewrite Hg. destruct (Z.eqb_spec j k) as [->|]; done.
  - intros k Hk. rewrite Hg. destruct (Z.eqb_spec j k), (Z.eqb_spec i k); lia || done.
  - rewrite !Hg, !Z.eqb_refl, Hx, Hy. split; [|split; [done|]].
    + destruct (Z.eqb_spec j i) as [->|]; [congruence|done].
    + intros k Hki Hkj. rewrite Hg, (proj2 (Z.eqb_neq j k)), (proj2 (Z.eqb_neq i k)) by congruence. done.
Qed.

(** ** The insertion sort *)

Definition sorted_range (lo hi : Z) (l : list NodeElt) : Prop :=
  forall i j, lo <= i -> i < j -> j <= hi -> cnt l j <= cnt l i.

Lemma cnt_zset l i j x : 0 <= i < zlen l -> cnt (zset l i x) j = if i =? j then n_count x else cnt l j.
Proof. intros Hi. unfold cnt. rewrite zget_zset by lia. by destruct (Z.eqb_spec i j). Qed.

Lemma cnt_same l l' i : zget l' i = zget l i -> cnt l' i = cnt l i.
Proof. unfold cnt. by intros ->. Qed.

(** The key belongs at [j + 1] at most, among the [i] first. *)
Definition inserting (nodes : list NodeElt) (key : NodeElt) (i : Z) (st : list NodeElt * Z) : Prop :=
  let '(l, j) := st in
  let c := zset l (j + 1) key in
  -1 <= j <= i - 1 /\ zlen l = zlen nodes /\ rearranged 0 i nodes c /\
  (forall a b, 0 <= a -> a < b -> b <= i -> a <> j + 1 -> b <> j + 1 -> cnt c b <= cnt c a) /\
  (forall b, j + 1 < b -> b <= i -> cnt c b < n_count key).

Lemma insertion_shift_ok nodes key i st : 1 <= i < zlen nodes -> inserting nodes key i st ->
  returns (fun r => match r with
    | inl st' => inserting nodes key i st' /\ (Z.to_nat (st'.2 + 1) < Z.to_nat (st.2 + 1))%nat
    | inr st' => inserting nodes key i st' /\ (0 <= st'.2 -> n_count key <= cnt st'.1 st'.2)
    end) (insertion_shift key st : res E _).
Proof.
  intros Hi. destruct st as [l j]. intros Hins. pose proof Hins as (Hj & Hlen & Hra & Hord & Hbig). cbn [insertion_shift fst snd].
  destruct (Z.leb_spec 0 j); [|cbn [returns fst snd]; split; [done|lia]].
  destruct (zget_is_Some l j ltac:(lia)) as [x Hx]. rewrite (idx_ok _ _ _ Hx). cbn [mbind res_bind].
  destruct (Z.ltb_spec (n_count x) (n_count key)) as [Hlt|Hge].
  2: { cbn [returns fst snd]. split; [done|]. intros _. unfold cnt. rewrite Hx. exact Hge. }
  rewrite store_ok by lia. cbn [mbind res_bind returns snd]. split; [|lia].
  unfold inserting. set (c := zset l (j + 1) key) in *. replace (j - 1 + 1) with j by lia.
  assert (zlen c = zlen nodes) as Lc by (unfold c; by rewrite zlen_zset).
  assert (zget c j = Some x) as Hcj by (unfold c; by rewrite zget_zset_ne by lia).
  assert (zget c (j + 1) = Some key) as Hcj1 by (unfold c; rewrite zget_zset_eq by lia; done).
  assert (zset (zset l (j + 1) x) j key = zset (zset c j key) (j + 1) x) as ->.
  { apply zlist_eq; [unfold c; by rewrite !zlen_zset|]. intros k Hk. rewrite !zlen_zset in Hk.
    unfold c. rewrite !zget_zset by (rewrite ?zlen_zset; lia). destruct (Z.eqb_spec j k), (Z.eqb_spec (j + 1) k); lia || done. }
  set (c2 := zset (zset c j key) (j + 1) x).
  assert (forall k, cnt c2 k = if j + 1 =? k then n_count x else if j =? k then n_count key else cnt c k) as Hc2.
  { intros k. unfold c2. rewrite !cnt_zset by (rewrite ?zlen_zset; lia). done. }
  split; [lia|]. split; [by rewrite zlen_zset|]. split; [|split].
  - apply (ra_trans _ _ _ c); [done|]. split; [by apply swap_perm; [lia| |]|].
    intros k Hk. unfold c2. rewrite !zget_zset_ne by lia. done.
  - intros a b Ha Hab Hb Hna Hnb. rewrite !Hc2.
    assert (cnt c j = n_count x) as Hxj by (unfold cnt; by rewrite Hcj).
    destruct (Z.eqb_spec (j + 1) b), (Z.eqb_spec j b), (Z.eqb_spec (j + 1) a), (Z.eqb_spec j a); try lia.
    + rewrite <- Hxj. apply Hord; lia.
    + rewrite <- Hxj. apply Hord; lia.
    + apply Hord; lia.
  - intros b Hb1 Hb2. rewrite Hc2. destruct (Z.eqb_spec (j + 1) b); [done|]. rewrite (proj2 (Z.eqb_neq j b)) by lia. apply Hbig; lia.
Qed.

Lemma insertion_step_ok nodes i : 1 <= i < zlen nodes -> sorted_range 0 (i - 1) nodes ->
  returns (fun l => rearranged 0 i nodes l /\ sorted_range 0 i l) (insertion_step nodes i : res E _).
Proof.
  intros Hi Hs. unfold insertion_step. destruct (zget_is_Some nodes i ltac:(lia)) as [key Hkey].
  rewrite (idx_ok _ _ _ Hkey). cbn [mbind res_bind].
  eapply returns_bind; [apply returns_loopM with (I := inserting nodes key i) (m := fun st => Z.to_nat (st.2 + 1))
    (Q := fun st' => inserting nodes key i st' /\ (0 <= st'.2 -> n_count key <= cnt st'.1 st'.2))|].
  - unfold inserting. replace (i - 1 + 1) with i by lia.
    assert (zset nodes i key = nodes) as ->.
    { apply zlist_eq; [apply zlen_zset|]. intros k Hk. rewrite zget_zset by lia. by destruct (Z.eqb_spec i k) as [->|]. }
    split; [lia|]. split; [done|]. split; [apply ra_refl|]. split; [|lia]. intros a b Ha Hab Hb _ Hnb. apply Hs; lia.
  - cbn [snd]. unfold zlen in Hi. lia.
  - intros st Hst. by apply insertion_shift_ok.
  - intros [l j] [(Hj & Hlen & Hra & Hord & Hbig) Hstop]. cbn [fst snd] in *. rewrite store_ok by lia. cbn [returns].
    split; [done|]. set (c := zset l (j + 1) key) in *.
    assert (cnt c (j + 1) = n_count key) as Hk by (unfold c; rewrite cnt_zset, Z.eqb_refl by lia; done).
    intros a b Ha Hab Hb. destruct (Z.eq_dec a (j + 1)) as [->|Hna].
    + rewrite Hk. specialize (Hbig b ltac:(lia) Hb). lia.
    + destruct (Z.eq_dec b (j + 1)) as [->|Hnb]; [|by apply Hord]. rewrite Hk.
      specialize (Hstop ltac:(lia)). assert (cnt c j = cnt l j) as Hcj.
      { unfold c. rewrite cnt_zset, (proj2 (Z.eqb_neq (j + 1) j)) by lia. done. }
      destruct (Z.eq_dec a j) as [->|]; [lia|]. specialize (Hord a j Ha ltac:(lia) ltac:(lia) Hna ltac:(lia)). lia.
Qed.

Lemma insertion_sort_ok nodes : returns (fun l => l ≡ₚ nodes /\ sorted_range 0 (zlen nodes - 1) l)
  (huf_insertion_sort nodes : res E _).
Proof.
  unfold huf_insertion_sort. pose proof (zlen_nonneg nodes). destruct (Z.eq_dec (zlen nodes) 0) as [Hz|].
  { rewrite Hz. cbn [seqZ foldM]. cbn. split; [done|]. intros i j. lia. }
  eapply returns_mono; [apply (returns_for_up (fun i l => l ≡ₚ nodes /\ sorted_range 0 (i - 1) l)); [lia| |]|].
  - split; [done|]. intros i j. lia.
  - intros i l Hi [Hp Hs]. assert (zlen l = zlen nodes) as Hl by (unfold zlen; by rewrite Hp).
    eapply returns_mono; [apply (insertion_step_ok l i); [lia|done]|]. intros l' [[Hp' _] Hs'].
    replace (i + 1 - 1) with i by lia. split; [by rewrite Hp'|done].
  - intros l [Hp Hs]. split; [done|]. by replace (1 + (zlen nodes - 1) - 1) with (zlen nodes - 1) in Hs by lia.
Qed.

(** ** The quick sort *)

Lemma partition_ok arr lo hi : 0 <= lo -> lo < hi -> hi < zlen arr ->
  returns (fun '(l, i) => rearranged lo hi arr l /\ lo <= i <= hi /\
      (forall j, lo <= j < i -> cnt l i < cnt l j) /\ (forall j, i < j <= hi -> cnt l j <= cnt l i))
    (huf_quick_sort_partition arr lo hi : res E _).
Proof.
  intros Hlo Hlt Hhi. unfold huf_quick_sort_partition. destruct (zget_is_Some arr hi ltac:(lia)) as [p Hp].
  rewrite (idx_ok _ _ _ Hp). cbn [mbind res_bind]. set (pv := n_count p).
  eapply returns_bind; [apply (returns_for_up (fun k '(l, i) => rearranged lo hi arr l /\ lo - 1 <= i < k /\ zget l hi = Some p /\
    (forall j, lo <= j <= i -> pv < cnt l j) /\ (forall j, i < j < k -> cnt l j <= pv))); [lia| |]|].
  - split_and!; try lia; [apply ra_refl|done].
  - intros k [l i] Hk (Hra & Hi & Hh & H1 & H2). pose proof (ra_len _ _ _ _ Hra) as Hl. unfold partition_step.
    destruct (zget_is_Some l k ltac:(lia)) as [x Hx]. rewrite (idx_ok _ _ _ Hx). cbn [mbind res_bind].
    assert (cnt l k = n_count x) as Hck by (unfold cnt; by rewrite Hx).
    destruct (Z.ltb_spec pv (n_count x)) as [Hgt|Hle].
    + eapply returns_bind; [apply (swap_ok l (i + 1) k lo hi); lia|]. intros l' (Hr & Ha & Hb & Ho). cbn [returns].
      split; [by apply (ra_trans _ _ _ l)|]. split; [lia|]. split; [rewrite Ho by lia; done|]. split.
      * intros j Hj. destruct (Z.eq_dec j (i + 1)) as [->|]; [|].
        -- unfold cnt. rewrite Ha. change (pv < cnt l k). lia.
        -- rewrite (cnt_same l l' j) by (apply Ho; lia). apply H1. lia.
      * intros j Hj. destruct (Z.eq_dec j k) as [->|].
        -- unfold cnt. rewrite Hb. change (cnt l (i + 1) <= pv). apply H2. lia.
        -- rewrite (cnt_same l l' j) by (apply Ho; lia). apply H2. lia.
    + cbn [returns]. split; [done|]. split; [lia|]. split; [done|]. split; [done|]. intros j Hj.
      destruct (Z.eq_dec j k) as [->|]; [lia|]. apply H2. lia.
  - intros [l i] (Hra & Hi & Hh & H1 & H2). replace (lo + (hi - lo)) with hi in * by lia. pose proof (ra_len _ _ _ _ Hra) as Hl.
    eapply returns_bind; [apply (swap_ok l (i + 1) hi lo hi); lia|]. intros l' (Hr & Ha & Hb & Ho). cbn [returns].
    assert (cnt l' (i + 1) = pv) as Hc by (unfold cnt; by rewrite Ha, Hh).
    split; [by apply (ra_trans _ _ _ l)|]. split; [lia|]. rewrite Hc. split.
    + intros j Hj. rewrite (cnt_same l l' j) by (apply Ho; lia). apply H1. lia.
    + intros j Hj. destruct (Z.eq_dec j hi) as [->|].
      * unfold cnt. rewrite Hb. change (cnt l (i + 1) <= pv). apply H2. lia.
      * rewrite (cnt_same l l' j) by (apply Ho; lia). apply H2. lia.
Qed.

(** The pairs of the range [low, high] that do not lie in [lo, hi] are in
    order. *)
Definition settled (low high lo hi : Z) (l : list NodeElt) : Prop :=
  forall i j, low <= i -> i < j -> j <= high -> ~ (lo <= i /\ j <= hi) -> cnt l j <= cnt l i.

Lemma settled_keep low high lo hi l l' : rearranged lo hi l l' -> low <= lo -> hi <= high -> 0 <= lo -> hi < zlen l ->
  settled low high lo hi l -> settled low high lo hi l'.
Proof.
  intros Hra Hl Hh H0 Hlen Hs i j Hi Hij Hj Hn.
  assert (forall k, low <= k <= high -> exists k', low <= k' <= high /\ zget l' k = zget l k' /\
    (lo <= k <= hi -> lo <= k' <= hi) /\ (~ (lo <= k <= hi) -> k' = k)) as Hk.
  { intros k Hk. destruct (decide (lo <= k <= hi)) as [Hin|Hout].
    - destruct (ra_inside _ _ _ _ Hra H0 Hlen k Hin) as (k' & Hk' & Heq). exists k'. split; [lia|]. done.
    - exists k. split; [done|]. split; [|done]. apply (ra_out _ _ _ _ Hra). lia. }
  destruct (Hk i ltac:(lia)) as (i' & Hi' & Ei & Ii & Oi). destruct (Hk j ltac:(lia)) as (j' & Hj' & Ej & Ij & Oj).
  unfold cnt. rewrite Ei, Ej. change (cnt l j' <= cnt l i').
  destruct (decide (lo <= i <= hi)) as [Hin|Hout]; [specialize (Ii Hin)|specialize (Oi Hout)];
    (destruct (decide (lo <= j <= hi)) as [Hjn|Hjo]; [specialize (Ij Hjn)|specialize (Oj Hjo)]); try lia; apply Hs; lia.
Qed.

(** A range cut at [i], the counts above [i]'s on its left. *)
Definition parted (lo hi i : Z) (l : list NodeElt) : Prop :=
  lo <= i <= hi /\ (forall j, lo <= j < i -> cnt l i < cnt l j) /\ (forall j, i < j <= hi -> cnt l j <= cnt l i).

Lemma settled_left low high lo hi i l l' : parted lo hi i l -> 0 <= lo -> hi < zlen l -> rearranged lo (i - 1) l l' ->
  sorted_range lo (i - 1) l' -> settled low high lo hi l' -> settled low high (i + 1) hi l'.
Proof.
  intros (Hi & Hbig & Hsml) Hlo Hhi R S Hs a b Ha Hab Hb Hn. destruct (decide (lo <= a /\ b <= hi)) as [Hin|Hout]; [|by apply Hs].
  assert (forall j, i <= j -> cnt l' j = cnt l j) as Hsame by (intros j Hj; apply cnt_same, R; lia).
  assert (forall j, lo <= j < i -> cnt l i < cnt l' j) as Hbig2.
  { intros j Hj. destruct (ra_inside _ _ _ _ R ltac:(lia) ltac:(lia) j ltac:(lia)) as (j' & Hj' & E2).
    unfold cnt at 2. rewrite E2. apply Hbig. lia. }
  destruct (Z.lt_ge_cases b i); [apply S; lia|]. rewrite (Hsame b) by lia.
  destruct (Z.eq_dec b i) as [->|]; [specialize (Hbig2 a ltac:(lia)); lia|].
  specialize (Hsml b ltac:(lia)). destruct (Z.eq_dec a i) as [->|]; [rewrite Hsame by lia; lia|].
  specialize (Hbig2 a ltac:(lia)). lia.
Qed.

Lemma settled_right low high lo hi i l l' : parted lo hi i l -> 0 <= lo -> hi < zlen l -> rearranged (i + 1) hi l l' ->
  sorted_range (i + 1) hi l' -> settled low high lo hi l' -> settled low high lo (i - 1) l'.
Proof.
  intros (Hi & Hbig & Hsml) Hlo Hhi R S Hs a b Ha Hab Hb Hn. destruct (decide (lo <= a /\ b <= hi)) as [Hin|Hout]; [|by apply Hs].
  assert (forall j, j <= i -> cnt l' j = cnt l j) as Hsame by (intros j Hj; apply cnt_same, R; lia).
  assert (forall j, i < j <= hi -> cnt l' j <= cnt l i) as Hsml2.
  { intros j Hj. destruct (ra_inside _ _ _ _ R ltac:(lia) ltac:(lia) j ltac:(lia)) as (j' & Hj' & E2).
    unfold cnt at 1. rewrite E2. apply Hsml. lia. }
  destruct (Z.lt_ge_cases i a); [apply S; lia|]. rewrite (Hsame a) by lia.
  destruct (Z.eq_dec b i) as [->|]; [rewrite Hsame by lia; specialize (Hbig a ltac:(lia)); lia|].
  specialize (Hsml2 b ltac:(lia)). destruct (Z.eq_dec a i) as [->|]; [done|].
  specialize (Hbig a ltac:(lia)). lia.
Qed.

(** The state of the loop: the range [lo, hi] is left to sort. *)
Definition quick_inv (arr : list NodeElt) (low high : Z) (st : list NodeElt * Z * Z) : Prop :=
  let '(l, lo, hi) := st in
  rearranged low high arr l /\ low <= lo /\ hi <= high /\ lo <= high + 1 /\ low - 1 <= hi /\ settled low high lo hi l.

Lemma quick_turn_ok rec arr low high st : 0 <= low -> high < zlen arr -> quick_inv arr low high st ->
  (forall l lo hi, zlen l = zlen arr -> low <= lo -> hi <= high -> hi - lo < high - low ->
    returns (fun l' => rearranged lo hi l l' /\ sorted_range lo hi l') (rec l lo hi)) ->
  returns (fun r => match r with
    | inl st' => quick_inv arr low high st' /\ (Z.to_nat (st'.2 - st'.1.2 + 1) < Z.to_nat (st.2 - st.1.2 + 1))%nat
    | inr l => rearranged low high arr l /\ sorted_range low high l
    end) (quick_sort_turn rec st : res E _).
Proof.
  intros Hlow Hhigh. destruct st as [[l lo] hi]. intros (Hra & Hlo & Hhi & Hlo1 & Hhi1 & Hs) Hrec. pose proof (ra_len _ _ _ _ Hra) as Hl.
  unfold quick_sort_turn. destruct (Z.ltb_spec lo hi) as [Hlt|Hge].
  2: { cbn [returns]. split; [done|]. intros i j Hi Hij Hj. apply Hs; lia. }
  eapply returns_bind; [apply (partition_ok l lo hi); lia|]. intros [l1 i] (R1 & Hpt). pose proof (proj1 Hpt) as Hi.
  pose proof (ra_len _ _ _ _ R1) as Hl1.
  assert (settled low high lo hi l1) as Hs1 by (apply (settled_keep _ _ _ _ l); done || lia).
  assert (forall lo' hi' l2, lo <= lo' -> hi' <= hi -> rearranged lo' hi' l1 l2 ->
    settled low high lo hi l2 /\ rearranged low high arr l2) as Hkeep.
  { intros lo' hi' l2 Hlo' Hhi' R2.
    split; [apply (settled_keep _ _ _ _ l1); [eapply ra_widen; [exact R2|lia|lia]|lia|lia|lia|lia|done]|].
    apply (ra_trans _ _ _ l1); [apply (ra_trans _ _ _ l); [done|]|]; eapply ra_widen; [exact R1|lia|lia|exact R2|lia|lia]. }
  destruct (Z.ltb_spec (i - lo) (hi - i)).
  - eapply returns_bind; [apply (Hrec l1 lo (i - 1)); lia|]. intros l2 [R2 S2]. cbn [returns fst snd].
    destruct (Hkeep lo (i - 1) l2 ltac:(lia) ltac:(lia) R2) as [Hs2 Ra2]. split; [|lia]. split_and!; try done; try lia.
    apply (settled_left low high lo hi i l1); done || lia.
  - eapply returns_bind; [apply (Hrec l1 (i + 1) hi); lia|]. intros l2 [R2 S2]. cbn [returns fst snd].
    destruct (Hkeep (i + 1) hi l2 ltac:(lia) ltac:(lia) R2) as [Hs2 Ra2]. split; [|lia]. split_and!; try done; try lia.
    apply (settled_right low high lo hi i l1); done || lia.
Qed.

(** The short ranges. *)
Lemma insertion_slice_ok arr low high : 0 <= low -> low < high -> high < zlen arr ->
  returns (fun l => rearranged low high arr l /\ sorted_range low high l) (on_slice arr low (high + 1) huf_insertion_sort : res E _).
Proof.
  intros Hlow Hlt Hhigh. eapply returns_mono; [eapply returns_on_slice; [lia|lia|lia|apply insertion_sort_ok]|].
  set (m := ztake (high + 1 - low) (zdrop low arr)). intros l (s & [Hp Hs] & ->).
  assert (zlen m = high + 1 - low) as Lm by (unfold m; rewrite zlen_ztake; [done|rewrite zlen_zdrop; lia]).
  assert (zlen s = zlen m) as Ls by (unfold zlen; by rewrite Hp).
  assert (zlen (ztake low arr) = low) as Lt by (apply zlen_ztake; lia).
  split; [split|].
  - rewrite Hp. unfold m. by rewrite <- (split3 arr low (high + 1)) by lia.
  - intros i Hi. rewrite (split3 arr low (high + 1)) at 3 by lia. fold m. destruct Hi as [Hi|Hi].
    + by rewrite !zget_app_l by lia.
    + rewrite !(zget_app_r (ztake low arr)) by lia. by rewrite !zget_app_r, Ls by lia.
  - intros i j Hi Hij Hj. unfold cnt. rewrite !(zget_app_r (ztake low arr)), !zget_app_l, Lt by lia. apply Hs; lia.
Qed.

Lemma quick_sort_ok depth : forall arr low high, 0 <= low -> high < zlen arr -> (Z.to_nat (high - low + 1) < depth)%nat ->
  returns (fun l => rearranged low high arr l /\ sorted_range low high l) (huf_simple_quick_sort depth arr low high : res E _).
Proof.
  induction depth as [|depth IH]; intros arr low high Hlow Hhigh Hd; [lia|]. cbn [huf_simple_quick_sort].
  destruct (Z.ltb_spec (high - low) K_INSERTION_SORT_THRESHOLD) as [Hsmall|Hbig].
  - destruct (Z.ltb_spec low high) as [Hlt|Hge]; [by apply insertion_slice_ok|].
    cbn [returns]. split; [apply ra_refl|]. intros i j. lia.
  - unfold K_INSERTION_SORT_THRESHOLD in Hbig. eapply returns_mono; [apply returns_loopM with
      (I := quick_inv arr low high) (m := fun st => Z.to_nat (st.2 - st.1.2 + 1))
      (Q := fun l => rearranged low high arr l /\ sorted_range low high l)|]; [| | |done].
    + split_and!; try lia; [apply ra_refl|]. intros i j. lia.
    + cbn [fst snd]. unfold zlen in Hhigh. lia.
    + intros st Hst. apply quick_turn_ok; [done|done|done|]. intros l lo hi Hl Hlo Hhi Hlt. apply IH; lia.
Qed.
End sort.
