(* ===== verification/HufBuckets.v ===== *)
(** * The buckets of [huf_sort] ([src/huf.rs])

    The symbols are laid out by the rank of their counts, the highest rank
    first, each in its place; the ranks of several counts are then sorted. *)

From stdpp Require Import sorting.
From S2P Require Import Prelude Words HufCStream HufCTable HufSort.

(** ** Ranks *)

Definition rank_of (c : Z) : Z := if c <? 165 then c else Z.log2 c + 158.

Lemma log2_u32 c : 165 <= c < 2 ^ 32 -> 7 <= Z.log2 c <= 31.
Proof.
  intros Hc. pose proof (Z.log2_le_mono 165 c ltac:(lia)) as H. change (Z.log2 165) with 7 in H.
  pose proof (Z.log2_lt_pow2 c 32 ltac:(lia)). lia.
Qed.

Lemma rank_range c : 0 <= c < 2 ^ 32 -> 0 <= rank_of c < 190.
Proof. intros Hc. unfold rank_of. destruct (Z.ltb_spec c 165); [lia|]. pose proof (log2_u32 c). lia. Qed.

Lemma rank_lt c c' : 0 <= c -> rank_of c < rank_of c' -> c < c'.
Proof.
  intros Hc Hr. destruct (Z.lt_ge_cases c c') as [|Hge]; [done|exfalso]. unfold rank_of in Hr.
  destruct (Z.ltb_spec c 165), (Z.ltb_spec c' 165); try lia.
  - pose proof (Z.log2_le_mono 165 c ltac:(lia)) as H1. change (Z.log2 165) with 7 in H1. lia.
  - pose proof (Z.log2_le_mono c' c ltac:(lia)). lia.
Qed.

Lemma rank_exact c : rank_of c < 165 -> rank_of c = c.
Proof.
  unfold rank_of. destruct (Z.ltb_spec c 165); [done|].
  pose proof (Z.log2_le_mono 165 c ltac:(lia)) as H1. change (Z.log2 165) with 7 in H1. lia.
Qed.

Lemma get_index_ok {E} c : 0 <= c < 2 ^ 32 -> huf_get_index c = (Ok (rank_of c) : res E Z).
Proof.
  intros Hc. unfold huf_get_index, rank_of. change RANK_POSITION_DISTINCT_COUNT_CUTOFF with 165. change RANK_POSITION_LOG_BUCKETS_BEGIN with 158.
  destruct (Z.ltb_spec c 165); [done|]. unfold highbit32, leading_zeros.
  rewrite (proj2 (Z.eqb_neq c 0)), (proj2 (Z.leb_gt c 0)) by lia. cbn [negb rassert mbind res_bind]. f_equal. lia.
Qed.

(** ** Blocks *)

(** The blocks [f] of the ranks [a, a + n), the highest first. *)
Definition blocks {A} (f : Z -> list A) (a n : Z) : list A := concat (f <$> reverse (seqZ a n)).

Lemma blocks_split {A} (f : Z -> list A) a n i : a <= i < a + n ->
  blocks f a n = blocks f (i + 1) (a + n - i - 1) ++ f i ++ blocks f a (i - a).
Proof.
  intros Hi. unfold blocks. assert (seqZ a n = seqZ a (i - a) ++ i :: seqZ (i + 1) (a + n - i - 1)) as ->.
  { replace (i :: seqZ (i + 1) (a + n - i - 1)) with (seqZ i (1 + (a + n - i - 1))) by (rewrite seqZ_app by lia; done).
    pose proof (seqZ_app a (i - a) (1 + (a + n - i - 1)) ltac:(lia) ltac:(lia)) as H.
    replace (a + (i - a)) with i in H by lia. rewrite <- H. f_equal. lia. }
  rewrite reverse_app, reverse_cons, !fmap_app, !concat_app. cbn [fmap list_fmap concat]. by rewrite app_nil_r, <- app_assoc.
Qed.

Lemma blocks_ext {A} (f g : Z -> list A) a n : (forall j, a <= j < a + n -> f j = g j) -> blocks f a n = blocks g a n.
Proof.
  intros H. unfold blocks. f_equal. apply list_fmap_ext. intros k j Hk. apply H.
  apply list_elem_of_lookup_2 in Hk. rewrite elem_of_reverse, elem_of_seqZ in Hk. lia.
Qed.

Lemma zlen_blocks_ext {A B} (f : Z -> list A) (g : Z -> list B) a n : 0 <= n ->
  (forall j, a <= j < a + n -> zlen (f j) = zlen (g j)) -> zlen (blocks f a n) = zlen (blocks g a n).
Proof.
  intros Hn H. rewrite <- (Z2Nat.id n) in * by lia. induction (Z.to_nat n) as [|m IH]; [done|].
  rewrite !(blocks_split _ a (Z.of_nat (S m)) (a + Z.of_nat m)) by lia.
  replace (a + Z.of_nat (S m) - (a + Z.of_nat m) - 1) with 0 by lia. replace (a + Z.of_nat m - a) with (Z.of_nat m) by lia.
  rewrite !zlen_app, H by lia. rewrite IH; [done|lia|]. intros j Hj. apply H. lia.
Qed.

Lemma blocks_perm {A} (f g : Z -> list A) a n : 0 <= n -> (forall j, a <= j < a + n -> f j ≡ₚ g j) -> blocks f a n ≡ₚ blocks g a n.
Proof.
  intros Hn H. rewrite <- (Z2Nat.id n) in * by lia. induction (Z.to_nat n) as [|m IH]; [done|].
  rewrite !(blocks_split _ a (Z.of_nat (S m)) (a + Z.of_nat m)) by lia.
  replace (a + Z.of_nat (S m) - (a + Z.of_nat m) - 1) with 0 by lia. replace (a + Z.of_nat m - a) with (Z.of_nat m) by lia.
  rewrite H by lia. rewrite IH; [done|lia|]. intros j Hj. apply H. lia.
Qed.

Lemma elem_of_blocks {A} (f : Z -> list A) a n x : x ∈ blocks f a n -> exists j, a <= j < a + n /\ x ∈ f j.
Proof.
  unfold blocks. rewrite list_elem_of_In, in_concat. intros (l & Hl & Hx). apply list_elem_of_In, list_elem_of_fmap in Hl as (j & -> & Hj).
  rewrite elem_of_reverse, elem_of_seqZ in Hj. exists j. split; [lia|]. by apply list_elem_of_In.
Qed.

Lemma blocks_cons {A} (f g : Z -> list A) a n i x : a <= i < a + n -> g i = x :: f i -> (forall j, j <> i -> g j = f j) ->
  blocks g a n ≡ₚ x :: blocks f a n.
Proof.
  intros Hi Hgi Hg. rewrite (blocks_split g a n i), (blocks_split f a n i), Hgi by lia.
  rewrite (blocks_ext g f (i + 1)), (blocks_ext g f a (i - a)) by (intros; apply Hg; lia).
  cbn [app]. solve_Permutation.
Qed.

(** Sorted blocks in order make a sorted list. *)
Lemma blocks_sorted {A} (R : relation A) (f : Z -> list A) a n : 0 <= n ->
  (forall j, a <= j < a + n -> StronglySorted R (f j)) ->
  (forall i j x y, a <= i -> i < j -> j < a + n -> x ∈ f j -> y ∈ f i -> R x y) -> StronglySorted R (blocks f a n).
Proof.
  intros Hn Hs Hr. rewrite <- (Z2Nat.id n) in * by lia. induction (Z.to_nat n) as [|m IH]; [constructor|].
  rewrite (blocks_split _ a (Z.of_nat (S m)) (a + Z.of_nat m)) by lia.
  replace (a + Z.of_nat (S m) - (a + Z.of_nat m) - 1) with 0 by lia. replace (a + Z.of_nat m - a) with (Z.of_nat m) by lia.
  change (blocks f (a + Z.of_nat m + 1) 0) with (@nil A). rewrite app_nil_l. apply StronglySorted_app. split_and!.
  - intros x y Hx Hy. destruct (elem_of_blocks _ _ _ _ Hy) as (i & Hi & Hyi). apply (Hr i (a + Z.of_nat m)); done || lia.
  - apply Hs. lia.
  - apply IH; [lia|intros; apply Hs; lia|]. intros i j x y Hi Hij Hj. apply Hr; lia.
Qed.

(** ** The loops *)

(** A symbol's node, and the symbols of a rank among [l]. *)
Definition node_of (nc : Z * Z) : NodeElt := MkNode nc.2 0 nc.1 0.
Definition ranked (l : list (Z * Z)) (i : Z) : list NodeElt := node_of <$> filter (fun nc => rank_of nc.2 = i) l.

Lemma ranked_snoc l nc i : ranked (l ++ [nc]) i = ranked l i ++ (if rank_of nc.2 =? i then [node_of nc] else []).
Proof.
  unfold ranked. rewrite filter_app, fmap_app. f_equal. rewrite filter_cons, filter_nil.
  destruct (decide (rank_of nc.2 = i)) as [Hd|Hd], (Z.eqb_spec (rank_of nc.2) i); done.
Qed.

Lemma ranked_app l1 l2 i : ranked (l1 ++ l2) i = ranked l1 i ++ ranked l2 i.
Proof. unfold ranked. by rewrite filter_app, fmap_app. Qed.

Section sort.
Context {E : Type} (cs : list Z) (Hcs : Forall (fun c => 0 <= c < 2 ^ 32) cs) (Hlen : zlen cs <= 256).

Abbreviation all := (enumerate cs).
Abbreviation size i := (zlen (ranked all i)).
(** The symbols of the ranks from [n]. *)
Abbreviation above n := (zlen (blocks (ranked all) n (191 - n))).

Lemma all_lookup k n c : all !! k = Some (n, c) -> n = Z.of_nat k /\ cs !! k = Some c /\ 0 <= c < 2 ^ 32 /\ 0 <= n < 256.
Proof.
  unfold enumerate. rewrite list_lookup_imap. destruct (cs !! k) as [x|] eqn:Hx; [|done]. cbn. intros [= <- <-].
  split; [done|]. split; [done|]. split; [exact (Forall_lookup_1 _ _ _ _ Hcs Hx)|].
  apply lookup_lt_Some in Hx. unfold zlen in Hlen. lia.
Qed.

Lemma blocks_all : blocks (ranked all) 0 191 ≡ₚ node_of <$> all.
Proof.
  assert (Forall (fun nc => 0 <= rank_of nc.2 < 190) all) as Hr.
  { apply Forall_lookup. intros k [n c] Hk. apply all_lookup in Hk. apply rank_range. tauto. }
  induction Hr as [|nc l Hnc Hl IH]; [done|].
  rewrite (blocks_cons (ranked l) (ranked (nc :: l)) 0 191 (rank_of nc.2) (node_of nc)).
  - by rewrite IH.
  - lia.
  - unfold ranked. by rewrite filter_cons_True.
  - intros j Hj. unfold ranked. by rewrite filter_cons_False.
Qed.

Lemma above_all : above 0 = zlen cs.
Proof.
  change (191 - 0) with 191. unfold zlen. f_equal. rewrite blocks_all, length_fmap. unfold enumerate. by rewrite length_imap.
Qed.

Lemma above_S n : 0 <= n <= 190 -> above n = above (n + 1) + size n.
Proof.
  intros Hn. rewrite (blocks_split _ n (191 - n) n), !zlen_app by lia. replace (n - n) with 0 by lia.
  replace (n + (191 - n) - n - 1) with (191 - (n + 1)) by lia. change (blocks (ranked all) n 0) with (@nil NodeElt).
  rewrite (zlen_nil (A := NodeElt)). lia.
Qed.

Lemma above_range n : 0 <= n <= 191 -> 0 <= above n <= 256.
Proof.
  intros Hn. split; [apply zlen_nonneg|]. assert (forall k, 0 <= k <= n -> above (n - k) >= above n) as H.
  { intros k Hk. rewrite <- (Z2Nat.id k) in * by lia. induction (Z.to_nat k) as [|m IH]; [rewrite Z.sub_0_r; lia|].
    specialize (IH ltac:(lia)). rewrite above_S by lia. replace (n - Z.of_nat (S m) + 1) with (n - Z.of_nat m) by lia.
    pose proof (zlen_nonneg (ranked all (n - Z.of_nat (S m)))). lia. }
  specialize (H n ltac:(lia)). replace (n - n) with 0 in H by lia. rewrite above_all in H. lia.
Qed.

Lemma bucket_size_range i : 0 <= size i <= 256.
Proof.
  split; [apply zlen_nonneg|]. unfold ranked. rewrite zlen_fmap.
  pose proof (length_filter (fun nc : Z * Z => rank_of nc.2 = i) all) as H. unfold enumerate in H at 2. rewrite length_imap in H.
  unfold zlen in *. lia.
Qed.

Lemma size_top : size 191 = 0.
Proof.
  unfold ranked. rewrite filter_false; [done|]. intros [n c] Hx Hr. apply list_elem_of_lookup in Hx as [k Hk].
  apply all_lookup in Hk as (_ & _ & Hc & _). pose proof (rank_range c Hc). cbn in Hr. lia.
Qed.

Lemma ranked_take_le k i : zlen (ranked (take k all) i) <= size i.
Proof. rewrite <- (take_drop k all) at 2. rewrite ranked_app, zlen_app. pose proof (zlen_nonneg (ranked (drop k all) i)). lia. Qed.

Lemma rank_counts_ok : returns (fun rp => zlen rp = 192 /\ forall i, 0 <= i <= 191 -> zget rp i = Some (size i, 0))
  (foldM rank_count (zrepeat (0, 0) RANK_POSITION_TABLE_SIZE) cs : res E _).
Proof.
  eapply returns_mono; [apply (returns_foldM (fun k rp => zlen rp = 192 /\
    forall i, 0 <= i <= 191 -> zget rp i = Some (zlen (ranked (take k all) i), 0)))|].
  - split; [done|]. intros i Hi. rewrite zget_zrepeat by (change RANK_POSITION_TABLE_SIZE with 192; lia). done.
  - intros k c rp Hk [Lr Hr]. assert (all !! k = Some (Z.of_nat k, c)) as Hak by (unfold enumerate; rewrite list_lookup_imap, Hk; done).
    pose proof (all_lookup _ _ _ Hak) as (_ & _ & Hc & _). pose proof (rank_range c Hc) as Hrc.
    unfold rank_count. rewrite get_index_ok by done. cbn [mbind res_bind]. rewrite (idx_ok _ _ _ (Hr (rank_of c) ltac:(lia))). cbn [mbind res_bind fst snd].
    rewrite store_ok by lia. cbn [returns]. split; [by rewrite zlen_zset|]. intros i Hi. rewrite zget_zset by lia.
    rewrite (take_S_r _ _ _ Hak), ranked_snoc. cbn [snd]. destruct (Z.eqb_spec (rank_of c) i) as [->|]; [|by rewrite app_nil_r, Hr].
    rewrite zlen_app. change (zlen [node_of (Z.of_nat k, c)]) with 1. do 2 f_equal.
    apply Z.mod_small. pose proof (ranked_take_le k i). pose proof (bucket_size_range i). pose proof (zlen_nonneg (ranked (take k all) i)).
    change (2 ^ 16) with 65536. lia.
  - intros rp [Lr Hr]. split; [done|]. intros i Hi. rewrite Hr by done. rewrite take_ge; [done|].
    unfold enumerate. by rewrite length_imap.
Qed.

Lemma rank_starts_ok rp : zlen rp = 192 -> (forall i, 0 <= i <= 191 -> zget rp i = Some (size i, 0)) ->
  returns (fun rp' => zlen rp' = 192 /\ forall n, 0 <= n <= 191 -> zget rp' n = Some (above n, above n))
    (foldM rank_start rp (reverse (seqZ 1 (RANK_POSITION_TABLE_SIZE - 1))) : res E _).
Proof.
  intros Lr Hr. change (RANK_POSITION_TABLE_SIZE - 1) with 191.
  eapply returns_mono; [apply (returns_for_down (fun m rp' => zlen rp' = 192 /\
    (forall n, m - 1 <= n <= 191 -> 0 <= n -> zget rp' n = Some (above n, above n)) /\
    (forall n, 0 <= n < m - 1 -> zget rp' n = Some (size n, 0)))); [lia| |]|].
  - split; [done|]. split; [|intros n Hn; apply Hr; lia]. intros n Hn _. replace n with 191 by lia. rewrite Hr, size_top by lia. done.
  - intros m rp' Hm (L & Ha & Hs). unfold rank_start.
    rewrite (idx_ok _ _ _ (Hs (m - 1) ltac:(lia))). cbn [mbind res_bind]. rewrite (idx_ok _ _ _ (Ha m ltac:(lia) ltac:(lia))). cbn [mbind res_bind fst snd].
    rewrite store_ok by lia. cbn [returns].
    assert (wadd 16 (size (m - 1)) (above m) = above (m - 1)) as ->.
    { pose proof (above_S (m - 1) ltac:(lia)) as HS. replace (m - 1 + 1) with m in HS by lia.
      pose proof (above_range (m - 1) ltac:(lia)). unfold wadd, wrap. rewrite Z.mod_small; [lia|]. change (2 ^ 16) with 65536. lia. }
    split; [by rewrite zlen_zset|]. split.
    + intros n Hn Hn0. rewrite zget_zset by lia. destruct (Z.eqb_spec (m - 1) n) as [->|]; [done|]. apply Ha; lia.
    + intros n Hn. rewrite zget_zset_ne by lia. apply Hs. lia.
  - intros rp' (L & Ha & _). split; [done|]. intros n Hn. apply Ha; lia.
Qed.

(** The node table whose symbols' part is the blocks [f]. *)
Definition laid (f : Z -> list NodeElt) : list NodeElt :=
  node_default :: blocks f 0 191 ++ zrepeat node_default (511 - zlen cs).

(** Blocks of the sizes of the ranks. *)
Definition sized (f : Z -> list NodeElt) : Prop := forall i, 0 <= i < 191 -> zlen (f i) = size i.

Lemma sized_blocks f : sized f -> zlen (blocks f 0 191) = zlen cs /\ forall i, 0 <= i <= 191 -> zlen (blocks f i (191 - i)) = above i.
Proof.
  intros Hf. assert (forall i, 0 <= i <= 191 -> zlen (blocks f i (191 - i)) = above i) as H.
  { intros i Hi. apply zlen_blocks_ext; [lia|]. intros j Hj. apply Hf. lia. }
  split; [|done]. pose proof (H 0 ltac:(lia)) as H0. rewrite above_all in H0. exact H0.
Qed.

Lemma laid_split f i : 0 <= i < 191 -> laid f =
  (node_default :: blocks f (i + 1) (190 - i)) ++ f i ++ blocks f 0 i ++ zrepeat node_default (511 - zlen cs).
Proof.
  intros Hi. unfold laid. rewrite (blocks_split f 0 191 i) by lia.
  replace (0 + 191 - i - 1) with (190 - i) by lia. rewrite Z.sub_0_r. cbn [app]. by rewrite <- !app_assoc.
Qed.

(** A block replaced. *)
Definition with_block (f : Z -> list NodeElt) (i : Z) (b : list NodeElt) (j : Z) : list NodeElt := if j =? i then b else f j.

Lemma laid_with f i b : 0 <= i < 191 -> laid (with_block f i b) =
  (node_default :: blocks f (i + 1) (190 - i)) ++ b ++ blocks f 0 i ++ zrepeat node_default (511 - zlen cs).
Proof.
  intros Hi. rewrite (laid_split _ i) by done. unfold with_block. rewrite Z.eqb_refl.
  rewrite (blocks_ext _ f (i + 1)), (blocks_ext _ f 0); [done|..]; intros j Hj; by rewrite (proj2 (Z.eqb_neq j i)) by lia.
Qed.

Lemma laid_front f i : sized f -> 0 <= i < 191 -> zlen (node_default :: blocks f (i + 1) (190 - i)) = above (i + 1) + 1.
Proof.
  intros Hf Hi. rewrite zlen_cons. destruct (sized_blocks f Hf) as [_ H]. specialize (H (i + 1) ltac:(lia)).
  replace (191 - (i + 1)) with (190 - i) in H |- * by lia. lia.
Qed.

Lemma zlen_laid f : sized f -> zlen (laid f) = 512.
Proof.
  intros Hf. destruct (sized_blocks f Hf) as [H _]. unfold laid. rewrite zlen_cons, zlen_app, zlen_zrepeat by lia. lia.
Qed.

(** The blocks after [k] symbols. *)
Definition filled (k : nat) (i : Z) : list NodeElt :=
  ranked (take k all) i ++ zrepeat node_default (size i - zlen (ranked (take k all) i)).

Lemma filled_sized k : sized (filled k).
Proof.
  intros i Hi. unfold filled. pose proof (ranked_take_le k i). pose proof (zlen_nonneg (ranked (take k all) i)).
  rewrite zlen_app, zlen_zrepeat by lia. lia.
Qed.

Lemma zset_middle {A} (l1 l2 : list A) d x i : i = zlen l1 -> zset (l1 ++ d :: l2) i x = l1 ++ x :: l2.
Proof.
  intros ->. unfold zset, zlen. rewrite Nat2Z.id. rewrite <- (Nat.add_0_r (length l1)). by rewrite insert_app_r.
Qed.

Lemma rank_put_ok k nc nodes rp : all !! k = Some nc -> nodes = laid (filled k) -> zlen rp = 192 ->
  (forall i, 0 <= i <= 190 -> zget rp (i + 1) = Some (above (i + 1), above (i + 1) + zlen (ranked (take k all) i))) ->
  returns (fun '(nodes, rp) => nodes = laid (filled (S k)) /\ zlen rp = 192 /\
    forall i, 0 <= i <= 190 -> zget rp (i + 1) = Some (above (i + 1), above (i + 1) + zlen (ranked (take (S k) all) i)))
    (rank_put (nodes, rp) nc : res E _).
Proof.
  intros Hk -> Lr Hr. destruct nc as [n c]. pose proof (all_lookup _ _ _ Hk) as (-> & _ & Hc & Hn).
  pose proof (rank_range c Hc) as Hrc. set (i := rank_of c) in *. unfold rank_put. rewrite get_index_ok by done. fold i. cbn [mbind res_bind].
  rewrite (idx_ok _ _ _ (Hr i ltac:(lia))). cbn [mbind res_bind fst snd]. rewrite store_ok by lia. cbn [mbind res_bind].
  assert (forall j, ranked (take (S k) all) j = ranked (take k all) j ++ (if i =? j then [node_of (Z.of_nat k, c)] else [])) as Hsnoc.
  { intros j. by rewrite (take_S_r _ _ _ Hk), ranked_snoc. }
  set (p := zlen (ranked (take k all) i)) in *.
  assert (p + 1 <= size i) as Hp.
  { pose proof (ranked_take_le (S k) i) as H. rewrite Hsnoc, Z.eqb_refl, zlen_app in H. change (zlen [_]) with 1 in H. exact H. }
  pose proof (above_S i ltac:(lia)). pose proof (above_range i ltac:(lia)). pose proof (above_range (i + 1) ltac:(lia)).
  assert (0 <= p) by apply zlen_nonneg.
  assert (filled k i = ranked (take k all) i ++ node_default :: zrepeat node_default (size i - p - 1)) as Hfi.
  { unfold filled. fold p. f_equal. replace (size i - p) with (Z.succ (size i - p - 1)) at 1 by lia.
    unfold zrepeat. rewrite Z2Nat.inj_succ by lia. done. }
  set (front := node_default :: blocks (filled k) (i + 1) (190 - i)).
  assert (zlen front = above (i + 1) + 1) as Hfront by (apply laid_front; [apply filled_sized|lia]).
  assert (laid (filled k) = (front ++ ranked (take k all) i) ++ node_default ::
    (zrepeat node_default (size i - p - 1) ++ blocks (filled k) 0 i ++ zrepeat node_default (511 - zlen cs))) as Hlaid.
  { rewrite (laid_split _ i) by lia. rewrite Hfi. unfold front. rewrite <- !app_assoc. done. }
  assert (zlen (front ++ ranked (take k all) i) = above (i + 1) + p + 1) as Hpos by (rewrite zlen_app; unfold p; lia).
  rewrite (idx_ok _ _ node_default) by (rewrite Hlaid, zget_app_r by lia; rewrite Hpos, Z.sub_diag; done). cbn [mbind res_bind node_default n_parent n_bits].
  rewrite store_ok by (rewrite (zlen_laid _ (filled_sized k)); lia). cbn [mbind res_bind returns].
  assert (MkNode c 0 (wrap 8 (Z.of_nat k)) 0 = node_of (Z.of_nat k, c)) as -> by (unfold node_of; cbn; f_equal; apply Z.mod_small; change (2 ^ 8) with 256; lia).
  split; [|split; [by rewrite zlen_zset|]].
  - rewrite Hlaid, zset_middle by lia.
    assert (laid (filled (S k)) = laid (with_block (filled k) i (ranked (take k all) i ++ node_of (Z.of_nat k, c) :: zrepeat node_default (size i - p - 1)))) as ->.
    { unfold laid. do 2 f_equal. apply blocks_ext. intros j Hj. unfold with_block, filled. rewrite Hsnoc. rewrite (Z.eqb_sym j i).
      destruct (Z.eqb_spec i j) as [<-|]; [|by rewrite app_nil_r]. fold p. rewrite zlen_app. change (zlen [_]) with 1. fold p.
      rewrite <- app_assoc. cbn [app]. do 3 f_equal. lia. }
    rewrite laid_with by lia. fold front. by rewrite <- !app_assoc.
  - intros j Hj. rewrite zget_zset by lia. rewrite Hsnoc. destruct (Z.eqb_spec (i + 1) (j + 1)) as [Heq|Hne].
    + replace j with i in * by lia. rewrite Z.eqb_refl, zlen_app. change (zlen [_]) with 1. fold p. do 2 f_equal.
      unfold wadd, wrap. rewrite Z.mod_small; [lia|]. change (2 ^ 16) with 65536. lia.
    + rewrite (proj2 (Z.eqb_neq i j)), app_nil_r by lia. by apply Hr.
Qed.

Definition desc (x y : NodeElt) : Prop := n_count y <= n_count x.

Lemma sorted_range_desc l : sorted_range 0 (zlen l - 1) l -> StronglySorted desc l.
Proof.
  induction l as [|x l IH]; intros H; constructor.
  - apply IH. intros i j Hi Hij Hj. specialize (H (i + 1) (j + 1) ltac:(lia) ltac:(lia)). rewrite zlen_cons in H.
    specialize (H ltac:(lia)). unfold cnt in *. by rewrite !zget_cons_S in H by lia.
  - apply Forall_lookup. intros k y Hk. pose proof Hk as Hz. rewrite <- zget_nat in Hz. pose proof (zget_lt _ _ _ Hz).
    specialize (H 0 (Z.of_nat k + 1) ltac:(lia) ltac:(lia)). rewrite zlen_cons in H. specialize (H ltac:(lia)).
    unfold cnt in H. rewrite zget_cons_S, Hz in H by lia. exact H.
Qed.

(** The blocks of the ranks below [i] are sorted. *)
Definition sorting_to (i : Z) (f : Z -> list NodeElt) : Prop :=
  (forall j, 0 <= j < 191 -> f j ≡ₚ ranked all j) /\ (forall j, 164 <= j < i -> StronglySorted desc (f j)) /\
  (forall j, j < 164 \/ i <= j -> f j = ranked all j).

Lemma sorting_sized i f : sorting_to i f -> sized f.
Proof. intros (Hp & _) j Hj. unfold zlen. by rewrite (Hp j Hj). Qed.

Lemma rank_sort_ok i f : 164 <= i < 190 -> sorting_to i f ->
  returns (fun nodes => exists f', nodes = laid f' /\ sorting_to (i + 1) f')
    (rank_sort (laid f) (above (i + 1), above (i + 1) + size i) : res E _).
Proof.
  intros Hi Hf. pose proof (sorting_sized i f Hf) as Hsz. destruct Hf as (Hp & Hs & Ho). unfold rank_sort. cbn [fst snd].
  pose proof (above_S i ltac:(lia)). pose proof (above_range i ltac:(lia)). pose proof (above_range (i + 1) ltac:(lia)).
  pose proof (bucket_size_range i) as Hsi.
  assert (wsub 16 (above (i + 1) + size i) (above (i + 1)) = size i) as ->.
  { unfold wsub, wrap. rewrite Z.mod_small; [lia|]. change (2 ^ 16) with 65536. lia. }
  destruct (Z.ltb_spec 1 (size i)) as [Hbig|Hsmall].
  - set (front := node_default :: blocks f (i + 1) (190 - i)).
    assert (zlen front = above (i + 1) + 1) as Hfront by (apply laid_front; [done|lia]).
    pose proof (zlen_laid f Hsz) as Hl.
    assert (ztake (above (i + 1) + 1) (laid f) = front /\ zdrop (above (i + 1) + 1) (laid f) = f i ++ blocks f 0 i ++ zrepeat node_default (511 - zlen cs)) as [Ht Hd].
    { rewrite (laid_split f i) by lia. fold front. rewrite <- Hfront. unfold ztake, zdrop, zlen. rewrite Nat2Z.id, take_app_length, drop_app_length. done. }
    assert (ztake (size i) (f i ++ blocks f 0 i ++ zrepeat node_default (511 - zlen cs)) = f i) as Hfi.
    { rewrite <- (Hsz i) by lia. unfold ztake, zlen. by rewrite Nat2Z.id, take_app_length. }
    eapply returns_mono; [eapply (returns_on_slice (fun s => s ≡ₚ f i /\ sorted_range 0 (zlen s - 1) s)); [lia|lia|lia|]|].
    + replace (above (i + 1) + size i + 1 - (above (i + 1) + 1)) with (size i) by lia. rewrite Hd, Hfi.
      pose proof (Hsz i ltac:(lia)) as Hzi.
      eapply returns_mono; [apply (quick_sort_ok (length (f i) + 1) (f i) 0 (size i - 1)); [lia|lia|]|].
      * unfold zlen in Hzi |- *. lia.
      * intros s [Hra Hso]. pose proof (ra_len _ _ _ _ Hra) as Hls. split; [apply Hra|]. by rewrite Hls, Hzi.
    + intros nodes (s & [Hps Hss] & ->). exists (with_block f i s). rewrite laid_with, Ht by lia. fold front. split.
      * f_equal. f_equal. replace (above (i + 1) + size i + 1) with (above (i + 1) + 1 + size i) by lia.
        rewrite (laid_split f i) by lia. fold front. rewrite app_assoc. symmetry.
        unfold zdrop. rewrite <- (drop_app_length (front ++ f i) (blocks f 0 i ++ zrepeat node_default (511 - zlen cs))) at 1. f_equal.
        pose proof (zlen_app front (f i)) as Hza. rewrite Hsz in Hza by lia. unfold zlen in Hza, Hfront |- *. lia.
      * split; [|split]; intros j Hj; unfold with_block; destruct (Z.eqb_spec j i) as [->|]; try lia.
        -- rewrite Hps. by apply Hp.
        -- by apply Hp.
        -- by apply sorted_range_desc.
        -- apply Hs. lia.
        -- apply Ho. lia.
  - cbn [returns]. exists f. split; [done|]. split; [done|]. split; [|intros j Hj; apply Ho; lia]. intros j Hj.
    destruct (Z.eq_dec j i) as [->|]; [|apply Hs; lia]. apply sorted_range_desc. rewrite Hsz by lia. intros a b. lia.
Qed.

Lemma rank_sorts_ok rp : zlen rp = 192 ->
  (forall i, 0 <= i <= 190 -> zget rp (i + 1) = Some (above (i + 1), above (i + 1) + size i)) ->
  returns (fun nodes => exists f, nodes = laid f /\ sorting_to 190 f)
    (foldM rank_sort (laid (ranked all)) (zdrop RANK_POSITION_DISTINCT_COUNT_CUTOFF (ztake (RANK_POSITION_TABLE_SIZE - 1) rp)) : res E _).
Proof.
  intros Lr Hr. change RANK_POSITION_DISTINCT_COUNT_CUTOFF with 165. change (RANK_POSITION_TABLE_SIZE - 1) with 191.
  set (l := zdrop 165 (ztake 191 rp)).
  assert (zlen l = 26) as Ll by (unfold l; rewrite zlen_zdrop, zlen_ztake; rewrite ?zlen_ztake; lia).
  eapply returns_mono; [apply (returns_foldM (fun k nodes => exists f, nodes = laid f /\ sorting_to (164 + Z.of_nat k) f))|].
  - exists (ranked all). split; [done|]. split; [done|]. split; [lia|done].
  - intros k r nodes Hk (f & -> & Hf). rewrite <- zget_nat in Hk. pose proof (zget_lt _ _ _ Hk) as Hkr.
    unfold l in Hk. rewrite zget_zdrop, zget_ztake in Hk by lia.
    pose proof (Hr (164 + Z.of_nat k) ltac:(lia)) as Hri. replace (164 + Z.of_nat k + 1) with (165 + Z.of_nat k) in Hri by lia.
    rewrite Hk in Hri. injection Hri as ->. pose proof (rank_sort_ok (164 + Z.of_nat k) f ltac:(lia) Hf) as Hs.
    replace (164 + Z.of_nat k + 1) with (165 + Z.of_nat k) in Hs by lia.
    by replace (164 + Z.of_nat (S k)) with (165 + Z.of_nat k) by lia.
  - intros nodes (f & -> & Hf). exists f. split; [done|]. assert (length l = 26%nat) as Hll by (unfold zlen in Ll; lia). by rewrite Hll in Hf.
Qed.

(** The sorted blocks in order. *)
Lemma sorting_done f : sorting_to 190 f -> blocks f 0 191 ≡ₚ node_of <$> all /\ StronglySorted desc (blocks f 0 191).
Proof.
  intros (Hp & Hs & Ho). split; [rewrite <- blocks_all; by apply blocks_perm|].
  assert (forall j x, 0 <= j < 191 -> x ∈ f j -> rank_of (n_count x) = j /\ 0 <= n_count x < 2 ^ 32) as Hin.
  { intros j x Hj Hx. rewrite (Hp j Hj) in Hx. unfold ranked in Hx. apply list_elem_of_fmap in Hx as ([n c] & -> & Hx).
    apply list_elem_of_filter in Hx as [Hr Hx]. apply list_elem_of_lookup in Hx as [k Hk].
    apply all_lookup in Hk as (_ & _ & Hc & _). done. }
  apply blocks_sorted; [lia| |].
  - intros j Hj. destruct (Z.lt_ge_cases j 164) as [Hlow|Hhigh].
    + assert (forall x, x ∈ f j -> n_count x = j) as Heq.
      { intros x Hx. destruct (Hin j x ltac:(lia) Hx) as [Hr _]. rewrite <- Hr. symmetry. apply rank_exact. lia. }
      clear -Heq. induction (f j) as [|x l IH]; constructor.
      * apply IH. intros y Hy. apply Heq. by right.
      * apply Forall_forall. intros y Hy. unfold desc. rewrite (Heq x), (Heq y); [done|by right|by left].
    + destruct (Z.eq_dec j 190) as [->|]; [|apply Hs; lia]. rewrite (Ho 190) by lia.
      assert (ranked all 190 = []) as ->; [|constructor]. unfold ranked. rewrite filter_false; [done|].
      intros [n c] Hx Hr. apply list_elem_of_lookup in Hx as [k Hk]. apply all_lookup in Hk as (_ & _ & Hc & _).
      pose proof (rank_range c Hc). cbn in Hr. lia.
  - intros i j x y Hi Hij Hj Hx Hy. destruct (Hin j x ltac:(lia) Hx) as [Rx Cx]. destruct (Hin i y ltac:(lia) Hy) as [Ry Cy].
    unfold desc. pose proof (rank_lt (n_count y) (n_count x) ltac:(lia) ltac:(lia)). lia.
Qed.
End sort.

(** The sorted table: the barrier, the symbols by descending count, and
    nodes to come. *)
Definition sorted_nodes (cs : list Z) (nodes : list NodeElt) : Prop :=
  exists body, nodes = node_default :: body ++ zrepeat node_default (511 - zlen cs) /\
    body ≡ₚ node_of <$> enumerate cs /\ StronglySorted desc body.

Lemma huf_sort_ok {E} count ms : 0 <= ms < 256 -> ms < zlen count -> Forall (fun c => 0 <= c < 2 ^ 32) count ->
  returns (sorted_nodes (ztake (ms + 1) count)) (huf_sort (zrepeat node_default HUFF_NODE_TABLE_SIZE) count ms : res E _).
Proof.
  intros Hms Hlc Hc. unfold huf_sort. rewrite slice_prefix by lia. cbn [mbind res_bind]. set (cs := ztake (ms + 1) count).
  assert (Forall (fun c => 0 <= c < 2 ^ 32) cs) as Hcs by by apply Forall_take.
  assert (zlen cs = ms + 1) as Hl by (apply zlen_ztake; lia). assert (zlen cs <= 256) as Hl2 by lia.
  eapply returns_bind; [by apply rank_counts_ok|]. intros rp [Lr Hr].
  eapply returns_bind; [by apply (rank_starts_ok cs)|]. intros rp1 [L1 H1].
  eapply returns_bind; [apply (returns_foldM (fun k '(nodes, rp) => nodes = laid cs (filled cs k) /\ zlen rp = 192 /\
    forall i, 0 <= i <= 190 -> zget rp (i + 1) = Some (zlen (blocks (ranked (enumerate cs)) (i + 1) (191 - (i + 1))),
      zlen (blocks (ranked (enumerate cs)) (i + 1) (191 - (i + 1))) + zlen (ranked (take k (enumerate cs)) i))))|].
  - split; [|split; [done|]].
    + unfold laid. assert (forall i, filled cs 0 i = zrepeat node_default (zlen (ranked (enumerate cs) i))) as H0.
      { intros i. unfold filled. change (ranked (take 0 _) i) with (@nil NodeElt). by rewrite app_nil_l, (zlen_nil (A := NodeElt)), Z.sub_0_r. }
      destruct (sized_blocks cs Hcs Hl2 (filled cs 0) (filled_sized cs 0)) as [Hz _].
      assert (forall l : list NodeElt, Forall (fun x => x = node_default) l -> l = zrepeat node_default (zlen l)) as Hrep.
      { intros l Hlf. unfold zrepeat, zlen. rewrite Nat2Z.id. clear -Hlf. induction Hlf as [|x l -> Hlf IH]; [done|]. cbn. by f_equal. }
      rewrite (Hrep (blocks (filled cs 0) 0 191)), Hz.
      * unfold zrepeat. rewrite <- replicate_add. change (node_default :: replicate ?n node_default) with (replicate (S n) node_default).
        f_equal. change HUFF_NODE_TABLE_SIZE with 512. lia.
      * apply Forall_forall. intros x Hx. apply elem_of_blocks in Hx as (j & _ & Hx). rewrite H0 in Hx.
        unfold zrepeat in Hx. apply elem_of_replicate_inv in Hx. done.
    + intros i Hi. change (ranked (take 0 _) i) with (@nil NodeElt). rewrite (zlen_nil (A := NodeElt)), Z.add_0_r. apply H1. lia.
  - intros k nc [nodes rp2] Hk (Hn & L2 & H2). by apply (rank_put_ok cs Hcs Hl2 k nc).
  - intros [nodes rp2] (-> & L2 & H2).
    assert (laid cs (filled cs (length (enumerate cs))) = laid cs (ranked (enumerate cs))) as ->.
    { unfold laid. do 2 f_equal. apply blocks_ext. intros j Hj. unfold filled. rewrite take_ge by lia.
      rewrite Z.sub_diag. by rewrite app_nil_r. }
    eapply returns_mono; [apply (rank_sorts_ok cs Hcs Hl2 rp2 L2)|].
    + intros i Hi. rewrite H2 by lia. by rewrite take_ge by lia.
    + intros nodes2 (f & -> & Hf). exists (blocks f 0 191). split; [done|]. by apply sorting_done.
Qed.
