(* ===== verification/HufTree.v ===== *)
(** * The tree of merges ([src/huf.rs], [huf_build_tree])

    Nodes leave the two queues in order of their counts ([ext]), two to a
    merge, so that each merged node has two children, whose counts it sums.
    The depths then make a complete code, deeper for the rarer symbols, and a
    deep leaf needs a large total, as the Fibonacci numbers grow. *)

From stdpp Require Import sorting.
From S2P Require Import Prelude Words HufCStream HufCTable HufSort HufBuckets.

(** ** Sums over a list of ids *)

Definition sumz (f : Z -> Z) (l : list Z) : Z := foldr (fun i a => f i + a) 0 l.

Lemma sumz_cons f i l : sumz f (i :: l) = f i + sumz f l.
Proof. done. Qed.

Lemma sumz_app f l1 l2 : sumz f (l1 ++ l2) = sumz f l1 + sumz f l2.
Proof. induction l1 as [|i l1 IH]; [done|]. cbn [app]. rewrite !sumz_cons, IH. lia. Qed.

Lemma sumz_perm f l1 l2 : l1 ≡ₚ l2 -> sumz f l1 = sumz f l2.
Proof. induction 1; rewrite ?sumz_cons; lia. Qed.

Lemma sumz_ext f g l : (forall i, i ∈ l -> f i = g i) -> sumz f l = sumz g l.
Proof.
  induction l as [|i l IH]; intros H; [done|]. rewrite !sumz_cons, H, IH; [done|intros; apply H; by right|by left].
Qed.

Lemma sumz_range f a n : 0 <= n -> sumz f (seqZ a (n + 1)) = sumz f (seqZ a n) + f (a + n).
Proof. intros Hn. rewrite seqZ_app, sumz_app by lia. change (seqZ (a + n) 1) with [a + n]. cbn. lia. Qed.

Lemma sumz_range_head f a n : 0 < n -> sumz f (seqZ a n) = f a + sumz f (seqZ (a + 1) (n - 1)).
Proof. intros Hn. rewrite seqZ_cons by lia. rewrite sumz_cons. unfold Z.succ. by replace (Z.pred n) with (n - 1) by lia. Qed.

Lemma sumz_nonneg f l : (forall i, i ∈ l -> 0 <= f i) -> 0 <= sumz f l.
Proof.
  induction l as [|i l IH]; intros H; [done|]. rewrite sumz_cons. pose proof (H i ltac:(by left)).
  specialize (IH ltac:(intros; apply H; by right)). lia.
Qed.

Lemma sumz_member f l i : (forall j, j ∈ l -> 0 <= f j) -> i ∈ l -> f i <= sumz f l.
Proof.
  intros H Hi. apply elem_of_Permutation in Hi as [l' Hl]. rewrite (sumz_perm _ _ _ Hl), sumz_cons.
  pose proof (sumz_nonneg f l'). assert (0 <= sumz f l') by (apply sumz_nonneg; intros; apply H; rewrite Hl; by right). lia.
Qed.

(** ** The nodes by their ids *)

Definition nd (nodes : list NodeElt) (i : Z) : NodeElt := default node_default (zget nodes (i + 1)).

Section nodes.
Context {E : Type}.

Lemma hn_ok nodes i : -1 <= i < zlen nodes - 1 -> hn nodes i = (Ok (nd nodes i) : res E NodeElt).
Proof.
  intros Hi. unfold hn, nd. destruct (zget_is_Some nodes (i + 1) ltac:(lia)) as [x Hx]. by rewrite (idx_ok _ _ _ Hx), Hx.
Qed.

Lemma nd_zset nodes i j x : -1 <= i < zlen nodes - 1 -> nd (zset nodes (i + 1) x) j = if i =? j then x else nd nodes j.
Proof.
  intros Hi. unfold nd. rewrite zget_zset by lia. destruct (Z.eqb_spec (i + 1) (j + 1)), (Z.eqb_spec i j); done || lia.
Qed.

Lemma hn_upd_ok nodes i f : -1 <= i < zlen nodes - 1 ->
  hn_upd nodes i f = (Ok (zset nodes (i + 1) (f (nd nodes i))) : res E (list NodeElt)).
Proof. intros Hi. unfold hn_upd. rewrite hn_ok by done. cbn [mbind res_bind]. by rewrite store_ok by lia. Qed.
End nodes.

(** ** The queues *)

(** The leaves [0 .. top], whose counts are those of [c], have been merged
    into the nodes below [k]: [ext] lists the nodes taken, in order, and the
    leaves up to [low_s] and the nodes from [low_n] are left. *)
Record grown (top total : Z) (c p : Z -> Z) (ext : list Z) (low_s low_n k : Z) : Prop := {
  gr_low_s : -1 <= low_s <= top;
  gr_low_n : 256 <= low_n <= k;
  gr_k : 256 < k <= 256 + top;
  gr_perm : ext ≡ₚ seqZ (low_s + 1) (top - low_s) ++ seqZ 256 (low_n - 256);
  gr_par : forall j e, zget ext j = Some e -> p e = 256 + j / 2 /\ e < 256 + j / 2;
  gr_pair : forall m, 0 <= m < k - 256 -> exists x y,
    zget ext (2 * m) = Some x /\ zget ext (2 * m + 1) = Some y /\ c (256 + m) = c x + c y;
  gr_mono : forall i j x y, i <= j -> zget ext i = Some x -> zget ext j = Some y -> c x <= c y;
  gr_rest : forall x, x ∈ ext -> (forall i, 0 <= i <= low_s -> c x <= c i) /\ (forall i, low_n <= i < k -> c x <= c i);
  gr_sum : sumz c (seqZ 0 (low_s + 1)) + sumz c (seqZ low_n (k - low_n)) + sumz c (zdrop (2 * (k - 256)) ext) = total;
  gr_pos : (forall i, 0 <= i <= top -> 0 < c i) /\ (forall i, 256 <= i < k -> 0 < c i);
  gr_leaves : forall i j, 0 <= i -> i <= j -> j <= top -> c j <= c i;
  gr_order : forall i j x y, i < j -> zget ext i = Some x -> zget ext j = Some y ->
    (x < 256 -> y < 256 -> y < x) /\ (256 <= x -> 256 <= y -> x < y);
}.

Section grown.
Context (top total : Z) (Htop : 1 <= top <= 255).

Lemma grown_len c p ext low_s low_n k : grown top total c p ext low_s low_n k -> zlen ext = (top - low_s) + (low_n - 256).
Proof.
  intros [H1 H2 _ Hp _ _ _ _ _ _ _ _]. unfold zlen. rewrite Hp, length_app, !length_seqZ. lia.
Qed.

Lemma grown_taken c p ext low_s low_n k e : grown top total c p ext low_s low_n k ->
  e ∈ ext <-> (low_s < e <= top) \/ (256 <= e < low_n).
Proof. intros [H1 H2 _ Hp _ _ _ _ _ _ _ _]. rewrite Hp, elem_of_app, !elem_of_seqZ. lia. Qed.

(** The merged nodes' counts grow. *)
Lemma grown_merged c p ext low_s low_n k i j : grown top total c p ext low_s low_n k ->
  256 <= i -> i <= j -> j < k -> c i <= c j.
Proof.
  intros G Hi Hij Hj. destruct (gr_pair _ _ _ _ _ _ _ _ G (i - 256) ltac:(lia)) as (x & y & Hx & Hy & Hc).
  destruct (gr_pair _ _ _ _ _ _ _ _ G (j - 256) ltac:(lia)) as (x' & y' & Hx' & Hy' & Hc').
  replace (256 + (i - 256)) with i in Hc by lia. replace (256 + (j - 256)) with j in Hc' by lia.
  pose proof (gr_mono _ _ _ _ _ _ _ _ G (2 * (i - 256)) (2 * (j - 256)) x x' ltac:(lia) Hx Hx').
  pose proof (gr_mono _ _ _ _ _ _ _ _ G (2 * (i - 256) + 1) (2 * (j - 256) + 1) y y' ltac:(lia) Hy Hy'). lia.
Qed.

Lemma grown_ext c p c' p' ext low_s low_n k : (forall i, i < k -> c' i = c i) -> (forall i, p' i = p i) ->
  grown top total c p ext low_s low_n k -> grown top total c' p' ext low_s low_n k.
Proof.
  intros Hc Hp G. pose proof (fun e => grown_taken _ _ _ _ _ _ e G) as Ht.
  assert (forall e, e ∈ ext -> e < k) as Hlt.
  { intros e He. apply Ht in He. destruct G. lia. }
  assert (forall j e, zget ext j = Some e -> e < k) as Hlt2.
  { intros j e He%zget_Some. apply Hlt. destruct He as [_ He]. by apply list_elem_of_lookup_2 in He. }
  destruct G as [H1 H2 H3 H4 H5 H6 H7 H8 H9 H10 H11 H12]. split; try done.
  - intros j e He. rewrite Hp. by apply H5.
  - intros m Hm. destruct (H6 m Hm) as (x & y & Hx & Hy & Hs). exists x, y. rewrite !Hc by (eauto || lia). done.
  - intros i j x y Hij Hx Hy. rewrite !Hc by eauto. by apply (H7 i j).
  - intros x Hx. destruct (H8 x Hx) as [A B]. split; intros i Hi; rewrite !Hc by (eauto || lia); [by apply A|by apply B].
  - rewrite <- H9. f_equal; [f_equal|]; apply sumz_ext; intros i Hi; apply Hc.
    + apply elem_of_seqZ in Hi. lia.
    + apply elem_of_seqZ in Hi. lia.
    + apply Hlt. unfold zdrop in Hi. apply list_elem_of_lookup in Hi as [m Hm]. rewrite lookup_drop in Hm. by apply list_elem_of_lookup_2 in Hm.
  - destruct H10 as [A B]. split; intros i Hi; rewrite Hc by lia; [by apply A|by apply B].
  - intros i j Hi Hij Hj. rewrite !Hc by lia. by apply H11.
Qed.

(** Taking the smaller head. *)
Lemma grown_take c p p' ext low_s low_n k e low_s' low_n' :
  grown top total c p ext low_s low_n k -> zlen ext / 2 = k - 256 ->
  (e = low_s /\ 0 <= low_s /\ (low_n < k -> c low_s <= c low_n) /\ low_s' = low_s - 1 /\ low_n' = low_n) \/
  (e = low_n /\ low_n < k /\ (0 <= low_s -> c low_n <= c low_s) /\ low_s' = low_s /\ low_n' = low_n + 1) ->
  (forall i, p' i = if i =? e then k else p i) ->
  grown top total c p' (ext ++ [e]) low_s' low_n' k.
Proof.
  intros G Hk He Hp'. pose proof (grown_len _ _ _ _ _ _ G) as Hlen. pose proof (fun x => grown_taken _ _ _ _ _ _ x G) as Ht.
  pose proof (fun i j => grown_merged _ _ _ _ _ _ i j G) as Hgm.
  destruct G as [H1 H2 H3 H4 H5 H6 H7 H8 H9 H10 H11 H12].
  assert (e ∉ ext) as Hnot by (rewrite Ht; lia).
  assert (forall j x, zget ext j = Some x -> x ∈ ext) as Hin.
  { intros j x [_ Hx]%zget_Some. by apply list_elem_of_lookup_2 in Hx. }
  assert (forall j x, zget (ext ++ [e]) j = Some x -> (zget ext j = Some x /\ j < zlen ext) \/ (j = zlen ext /\ x = e)) as Hsnoc.
  { intros j x Hx. pose proof (zget_lt _ _ _ Hx) as Hr. rewrite zlen_app in Hr. change (zlen [e]) with 1 in Hr.
    destruct (Z.lt_ge_cases j (zlen ext)); [left; by rewrite zget_app_l in Hx|right].
    assert (j = zlen ext) as -> by lia. rewrite zget_app_r, Z.sub_diag in Hx by lia. by injection Hx as <-. }
  assert (forall x, x ∈ ext -> c x <= c e) as Hmin.
  { intros x Hx. destruct (H8 x Hx) as [A B]. destruct He as [(-> & ? & _)|(-> & ? & _)]; [apply A|apply B]; lia. }
  split; try done; try lia.
  - destruct He as [(-> & ? & _ & -> & ->)|(-> & ? & _ & -> & ->)]; rewrite H4.
    + replace (low_s - 1 + 1) with low_s by lia. replace (top - (low_s - 1)) with (1 + (top - low_s)) by lia.
      rewrite (seqZ_app low_s) by lia. change (seqZ low_s 1) with [low_s]. cbn [app]. solve_Permutation.
    + replace (low_n + 1 - 256) with (low_n - 256 + 1) by lia. rewrite (seqZ_app 256 (low_n - 256) 1) by lia.
      replace (256 + (low_n - 256)) with low_n by lia. change (seqZ low_n 1) with [low_n]. by rewrite app_assoc.
  - intros j x Hx. rewrite Hp'. destruct (Hsnoc j x Hx) as [[Hx' _]|[-> ->]].
    + destruct (Z.eqb_spec x e) as [->|]; [by apply Hin in Hx'|]. by apply H5.
    + rewrite Z.eqb_refl. lia.
  - intros m Hm. destruct (H6 m Hm) as (x & y & Hx & Hy & Hs). exists x, y.
    rewrite !zget_app_l by (eapply zget_lt; eassumption). done.
  - intros i j x y Hij Hx Hy. destruct (Hsnoc i x Hx) as [[Hx' _]|[-> ->]], (Hsnoc j y Hy) as [[Hy' ?]|[-> ->]]; try lia.
    + by apply (H7 i j).
    + by apply Hmin, (Hin i).
  - intros x [Hx|Hx%list_elem_of_singleton]%elem_of_app.
    + destruct (H8 x Hx) as [A B]. split; intros i Hi; [apply A|apply B]; lia.
    + subst x. destruct He as [(-> & ? & Hc & -> & ->)|(-> & ? & Hc & -> & ->)]; split; intros i Hi.
      * apply H11; lia.
      * specialize (Hc ltac:(lia)). specialize (Hgm low_n i ltac:(lia) ltac:(lia) ltac:(lia)). lia.
      * specialize (Hc ltac:(lia)). specialize (H11 i low_s ltac:(lia) ltac:(lia) ltac:(lia)). lia.
      * apply Hgm; lia.
  - rewrite <- H9. assert (2 * (k - 256) <= zlen ext) as Hd by (pose proof (Z.mul_div_le (zlen ext) 2); lia).
    assert (zdrop (2 * (k - 256)) (ext ++ [e]) = zdrop (2 * (k - 256)) ext ++ [e]) as ->.
    { unfold zdrop. rewrite drop_app_le; [done|]. unfold zlen in Hd. lia. }
    rewrite sumz_app. cbn [sumz foldr]. destruct He as [(-> & ? & _ & -> & ->)|(-> & ? & _ & -> & ->)].
    + replace (low_s - 1 + 1) with low_s by lia. rewrite (sumz_range c 0 low_s) by lia. rewrite Z.add_0_l. lia.
    + rewrite (sumz_range_head c low_n (k - low_n)) by lia. replace (k - (low_n + 1)) with (k - low_n - 1) by lia. lia.
  - intros i j x y Hij Hx Hy. destruct (Hsnoc i x Hx) as [[Hx' ?]|[-> ->]], (Hsnoc j y Hy) as [[Hy' ?]|[-> ->]]; try lia.
    + by apply (H12 i j).
    + apply Hin, Ht in Hx'. lia.
Qed.

(** The merged node is added. *)
Lemma grown_add c c' p ext low_s low_n k x y : grown top total c p ext low_s low_n k -> k < 256 + top ->
  zlen ext = 2 * (k - 256) + 2 -> zget ext (2 * (k - 256)) = Some x -> zget ext (2 * (k - 256) + 1) = Some y ->
  c' k = c x + c y -> (forall i, i < k -> c' i = c i) -> grown top total c' p ext low_s low_n (k + 1).
Proof.
  intros G Hk Hlen Hx Hy Hck Hc'. apply (grown_ext _ p c' p) in G; [|done|done].
  assert (forall j e, zget ext j = Some e -> e ∈ ext) as Hin.
  { intros j e [_ He]%zget_Some. by apply list_elem_of_lookup_2 in He. }
  pose proof (fun e => grown_taken _ _ _ _ _ _ e G) as Ht.
  destruct G as [H1 H2 H3 H4 H5 H6 H7 H8 H9 H10 H11 H12].
  assert (forall e, e ∈ ext -> e < k /\ 0 < c' e) as Hpos.
  { intros e He. apply Ht in He. destruct H10 as [A B]. split; [lia|]. destruct He; [apply A|apply B]; lia. }
  destruct (Hpos x (Hin _ _ Hx)) as [Lx Px]. destruct (Hpos y (Hin _ _ Hy)) as [Ly Py].
  rewrite <- !Hc' in Hck by lia.
  split; try done; try lia.
  - intros m Hm. destruct (Z.eq_dec m (k - 256)) as [->|]; [|apply H6; lia]. exists x, y.
    split; [done|]. split; [done|]. by replace (256 + (k - 256)) with k by lia.
  - intros e He. destruct (H8 e He) as [A B]. split; [done|]. intros i Hi.
    destruct (Z.eq_dec i k) as [->|]; [|apply B; lia]. rewrite Hck.
    apply list_elem_of_lookup in He as [j Hj]. rewrite <- zget_nat in Hj. pose proof (zget_lt _ _ _ Hj).
    pose proof (H7 (Z.of_nat j) (2 * (k - 256) + 1) e y ltac:(lia) Hj Hy). lia.
  - rewrite <- H9. assert (zdrop (2 * (k - 256)) ext = [x; y]) as ->.
    { apply zlist_eq; [rewrite zlen_zdrop by lia; cbn; unfold zlen in *; cbn; lia|]. intros i Hi. rewrite zlen_zdrop in Hi by lia.
      rewrite zget_zdrop by lia. assert (i = 0 \/ i = 1) as [->| ->] by lia; [by rewrite Z.add_0_r|done]. }
    assert (zdrop (2 * (k + 1 - 256)) ext = []) as -> by (unfold zdrop, zlen in *; apply drop_ge; lia).
    replace (k + 1 - low_n) with (k - low_n + 1) by lia. rewrite (sumz_range c' low_n (k - low_n)) by lia. replace (low_n + (k - low_n)) with k by lia.
    cbn [sumz foldr]. lia.
  - split; [apply H10|]. intros i Hi. destruct (Z.eq_dec i k) as [->|]; [lia|]. apply H10. lia.
Qed.

(** The first merge. *)
Lemma grown_start c p : (forall i j, 0 <= i -> i <= j -> j <= top -> c j <= c i) -> (forall i, 0 <= i <= top -> 0 < c i) ->
  c 256 = c top + c (top - 1) -> p top = 256 -> p (top - 1) = 256 -> sumz c (seqZ 0 (top + 1)) = total ->
  grown top total c p [top; top - 1] (top - 2) 256 257.
Proof.
  intros Hl Hp Hc P1 P2 Hs.
  assert (forall j e, zget [top; top - 1] j = Some e -> (j = 0 /\ e = top) \/ (j = 1 /\ e = top - 1)) as Hg.
  { intros j e He. pose proof (zget_lt _ _ _ He) as Hr. change (zlen [top; top - 1]) with 2 in Hr.
    assert (j = 0 \/ j = 1) as [->| ->] by lia; [left|right]; injection He as <-; done. }
  split; try lia.
  - replace (top - 2 + 1) with (top - 1) by lia. replace (top - (top - 2)) with (1 + 1) by lia.
    change (seqZ 256 (256 - 256)) with (@nil Z). rewrite app_nil_r. rewrite (seqZ_app (top - 1) 1 1) by lia.
    change (seqZ (top - 1) 1) with [top - 1]. replace (top - 1 + 1) with top by lia. change (seqZ top 1) with [top]. apply perm_swap.
  - intros j e He. destruct (Hg j e He) as [[-> ->]|[-> ->]]; [rewrite P1|rewrite P2]; change (0 / 2) with 0; change (1 / 2) with 0; lia.
  - intros m Hm. assert (m = 0) as -> by lia. by exists top, (top - 1).
  - intros i j x y Hij Hx Hy. destruct (Hg i x Hx) as [[-> ->]|[-> ->]], (Hg j y Hy) as [[-> ->]|[-> ->]]; try lia. apply Hl; lia.
  - intros x Hx. pose proof (Hp top ltac:(lia)). pose proof (Hp (top - 1) ltac:(lia)). split; intros i Hi.
    + apply elem_of_cons in Hx as [->|Hx%list_elem_of_singleton]; [|subst x]; apply Hl; lia.
    + replace i with 256 by lia. apply elem_of_cons in Hx as [->|Hx%list_elem_of_singleton]; [|subst x]; lia.
  - replace (257 - 256) with 1 by lia. change (seqZ 256 1) with [256]. change (zdrop (2 * 1) [top; top - 1]) with (@nil Z).
    cbn [sumz foldr]. rewrite Hc, <- Hs. replace (top - 2 + 1) with (top - 1) by lia.
    pose proof (sumz_range c 0 top ltac:(lia)) as S1. pose proof (sumz_range c 0 (top - 1) ltac:(lia)) as S2.
    replace (top - 1 + 1) with top in S2 by lia. rewrite !Z.add_0_l in S1, S2. lia.
  - split; [done|]. intros i Hi. replace i with 256 by lia. rewrite Hc. pose proof (Hp top ltac:(lia)). pose proof (Hp (top - 1) ltac:(lia)). lia.
  - done.
  - intros i j x y Hij Hx Hy. destruct (Hg i x Hx) as [[-> ->]|[-> ->]], (Hg j y Hy) as [[-> ->]|[-> ->]]; lia.
Qed.

(** No count exceeds the total. *)
Lemma grown_left c p ext low_s low_n k : grown top total c p ext low_s low_n k ->
  (forall i, 0 <= i <= low_s -> c i <= total) /\ (forall i, low_n <= i < k -> c i <= total) /\
  (forall x y, zget ext (2 * (k - 256)) = Some x -> zget ext (2 * (k - 256) + 1) = Some y -> c x + c y <= total).
Proof.
  intros G. pose proof (fun e => grown_taken _ _ _ _ _ _ e G) as Ht. destruct G as [H1 H2 H3 H4 H5 H6 H7 H8 H9 H10 H11 H12].
  destruct H10 as [A B].
  assert (forall e, e ∈ zdrop (2 * (k - 256)) ext -> 0 <= c e) as Hd.
  { intros e He. assert (e ∈ ext) as Hx by (rewrite <- (take_drop (Z.to_nat (2 * (k - 256))) ext); apply elem_of_app; by right).
    apply Ht in Hx. destruct Hx as [Hx|Hx]; [specialize (A e ltac:(lia))|specialize (B e ltac:(lia))]; lia. }
  assert (forall e, e ∈ seqZ 0 (low_s + 1) -> 0 <= c e) as Hs.
  { intros e He%elem_of_seqZ. specialize (A e ltac:(lia)). lia. }
  assert (forall e, e ∈ seqZ low_n (k - low_n) -> 0 <= c e) as Hn.
  { intros e He%elem_of_seqZ. specialize (B e ltac:(lia)). lia. }
  pose proof (sumz_nonneg _ _ Hd). pose proof (sumz_nonneg _ _ Hs). pose proof (sumz_nonneg _ _ Hn).
  split_and!.
  - intros i Hi. pose proof (sumz_member c (seqZ 0 (low_s + 1)) i Hs ltac:(apply elem_of_seqZ; lia)). lia.
  - intros i Hi. pose proof (sumz_member c (seqZ low_n (k - low_n)) i Hn ltac:(apply elem_of_seqZ; lia)). lia.
  - intros x y Hx Hy. pose proof (zget_lt _ _ _ Hy) as Hr.
    assert (zdrop (2 * (k - 256)) ext = x :: y :: zdrop (2 * (k - 256) + 2) ext) as Hxy.
    { apply zget_Some in Hx as [_ Hx]. apply zget_Some in Hy as [_ Hy]. unfold zdrop.
      rewrite (drop_S _ _ _ Hx). replace (S (Z.to_nat (2 * (k - 256)))) with (Z.to_nat (2 * (k - 256) + 1)) by lia.
      rewrite (drop_S _ _ _ Hy). do 3 f_equal. lia. }
    rewrite Hxy in *. rewrite !sumz_cons in *. assert (0 <= sumz c (zdrop (2 * (k - 256) + 2) ext)); [|lia].
    apply sumz_nonneg. intros e He. apply Hd. by do 2 right.
Qed.
End grown.

(** ** The merges *)

Abbreviation count_at nodes := (fun i => n_count (nd nodes i)).
Abbreviation parent_at nodes := (fun i => n_parent (nd nodes i)).

(** The table in the loop of merges, [nodes0] the sorted one. *)
Record merging (top total : Z) (nodes0 nodes : list NodeElt) (ext : list Z) (low_s low_n k : Z) : Prop := {
  mg_len : zlen nodes = 512;
  mg_grown : grown top total (count_at nodes) (parent_at nodes) ext low_s low_n k;
  mg_later : forall i, k <= i <= 255 + top -> n_count (nd nodes i) = 2 ^ 30;
  mg_barrier : n_count (nd nodes (-1)) = 2 ^ 31;
  mg_kept : forall i, n_byte (nd nodes i) = n_byte (nd nodes0 i) /\ n_bits (nd nodes i) = n_bits (nd nodes0 i);
}.

Section merges.
Context {E : Type} (top total : Z) (Htop : 1 <= top <= 255) (Htotal : total < 2 ^ 30) (nodes0 : list NodeElt).

(** An update of a parent. *)
Lemma merging_take nodes ext low_s low_n k e low_s' low_n' : merging top total nodes0 nodes ext low_s low_n k ->
  zlen ext / 2 = k - 256 -> k <= 255 + top ->
  (e = low_s /\ 0 <= low_s /\ (low_n < k -> n_count (nd nodes low_s) <= n_count (nd nodes low_n)) /\ low_s' = low_s - 1 /\ low_n' = low_n) \/
  (e = low_n /\ low_n < k /\ (0 <= low_s -> n_count (nd nodes low_n) <= n_count (nd nodes low_s)) /\ low_s' = low_s /\ low_n' = low_n + 1) ->
  let nodes' := zset nodes (e + 1) (with_parent (nd nodes e) (wrap 16 k)) in
  merging top total nodes0 nodes' (ext ++ [e]) low_s' low_n' k /\ forall i, n_count (nd nodes' i) = n_count (nd nodes i).
Proof.
  intros [Hl G Hlat Hbar Hkeep] Hk Hk2 He nodes'. pose proof G as [H1 H2 H3 _ _ _ _ _ _ _ _ _].
  assert (-1 <= e < zlen nodes - 1) as Her by (destruct He as [(-> & ? & _)|(-> & ? & _)]; lia).
  assert (forall i, nd nodes' i = if e =? i then with_parent (nd nodes e) (wrap 16 k) else nd nodes i) as Hnd
    by (intros i; by apply nd_zset).
  assert (forall i, n_count (nd nodes' i) = n_count (nd nodes i)) as Hc.
  { intros i. rewrite Hnd. by destruct (Z.eqb_spec e i) as [->|]. }
  split; [split|done].
  - unfold nodes'. by rewrite zlen_zset.
  - assert (grown top total (count_at nodes) (parent_at nodes') (ext ++ [e]) low_s' low_n' k) as G'.
    { apply (grown_take top total Htop _ (parent_at nodes) _ ext low_s low_n); [done|done|done|].
      intros i. rewrite Hnd, (Z.eqb_sym i e). destruct (Z.eqb_spec e i) as [->|]; [|done]. cbn.
      apply Z.mod_small. change (2 ^ 16) with 65536. lia. }
    apply (grown_ext top total Htop (count_at nodes) (parent_at nodes')); [|done|exact G']. intros i _. apply Hc.
  - intros i Hi. rewrite Hc. by apply Hlat.
  - by rewrite Hc.
  - intros i. rewrite Hnd. destruct (Z.eqb_spec e i) as [->|]; apply Hkeep.
Qed.

Lemma take_smaller_ok nodes ext low_s low_n k : merging top total nodes0 nodes ext low_s low_n k ->
  zlen ext / 2 = k - 256 -> k <= 255 + top -> 0 <= low_s \/ low_n < k ->
  returns (fun '(c, (nodes', low_s', low_n')) => exists e, merging top total nodes0 nodes' (ext ++ [e]) low_s' low_n' k /\
      c = n_count (nd nodes e) /\ forall i, n_count (nd nodes' i) = n_count (nd nodes i)) (take_smaller k (nodes, low_s, low_n) : res E _).
Proof.
  intros M Hk Hk2 Hrem. pose proof M as [Hl G Hlat Hbar _]. pose proof G as [H1 H2 H3 _ _ _ _ _ _ _ _ _].
  destruct (grown_left top total _ _ _ _ _ _ G) as (Ls & Ln & _). unfold take_smaller.
  rewrite !hn_ok by lia. cbn [mbind res_bind].
  destruct (Z.ltb_spec (n_count (nd nodes low_s)) (n_count (nd nodes low_n))) as [Hlt|Hge].
  - assert (0 <= low_s) as Hs.
    { destruct (Z.eq_dec low_s (-1)) as [->|]; [|lia]. rewrite Hbar in Hlt. specialize (Ln low_n ltac:(lia)). lia. }
    rewrite hn_upd_ok by lia. cbn [mbind res_bind]. replace (low_s - 1 + 1) with low_s by lia.
    destruct (merging_take nodes ext low_s low_n k low_s (low_s - 1) low_n M Hk Hk2 ltac:(left; split_and!; lia)) as [M' Hc].
    rewrite hn_ok by (rewrite zlen_zset; lia). cbn [mbind res_bind returns]. exists low_s. by rewrite Hc.
  - assert (low_n < k) as Hn.
    { destruct (Z.eq_dec low_n k) as [->|]; [|lia]. rewrite Hlat in Hge by lia. specialize (Ls low_s ltac:(lia)). lia. }
    rewrite hn_upd_ok by lia. cbn [mbind res_bind]. replace (low_n + 1 - 1) with low_n by lia.
    destruct (merging_take nodes ext low_s low_n k low_n low_s (low_n + 1) M Hk Hk2 ltac:(right; split_and!; lia)) as [M' Hc].
    rewrite hn_ok by (rewrite zlen_zset; lia). cbn [mbind res_bind returns]. exists low_n. by rewrite Hc.
Qed.

(** The count of a merged node. *)
Lemma merging_add nodes ext low_s low_n k x y : merging top total nodes0 nodes ext low_s low_n k -> k < 256 + top ->
  zlen ext = 2 * (k - 256) + 2 -> zget ext (2 * (k - 256)) = Some x -> zget ext (2 * (k - 256) + 1) = Some y ->
  merging top total nodes0 (zset nodes (k + 1) (with_count (nd nodes k) (wadd 32 (n_count (nd nodes x)) (n_count (nd nodes y)))))
    ext low_s low_n (k + 1).
Proof.
  intros [Hl G Hlat Hbar Hkeep] Hk Hlen Hx Hy. pose proof G as [H1 H2 H3 _ _ _ _ _ _ _ _ _].
  destruct (grown_left top total _ _ _ _ _ _ G) as (_ & _ & Hxy). specialize (Hxy x y Hx Hy). cbn in Hxy.
  assert (forall e, e ∈ ext -> 0 < n_count (nd nodes e)) as Hpos.
  { intros e He. apply (grown_taken top total _ _ _ _ _ _ e G) in He. destruct (gr_pos _ _ _ _ _ _ _ _ G) as [A B].
    destruct He; [apply A|apply B]; lia. }
  pose proof (Hpos x ltac:(apply zget_Some in Hx as [_ Hx]; by apply list_elem_of_lookup_2 in Hx)).
  pose proof (Hpos y ltac:(apply zget_Some in Hy as [_ Hy]; by apply list_elem_of_lookup_2 in Hy)).
  change (2 ^ 30) with 1073741824 in *.
  assert (wadd 32 (n_count (nd nodes x)) (n_count (nd nodes y)) = n_count (nd nodes x) + n_count (nd nodes y)) as ->
    by (apply Z.mod_small; change (2 ^ 32) with 4294967296; lia).
  set (nodes' := zset _ _ _).
  assert (forall i, nd nodes' i = if k =? i then with_count (nd nodes k) (n_count (nd nodes x) + n_count (nd nodes y)) else nd nodes i) as Hnd
    by (intros i; apply nd_zset; lia).
  split.
  - unfold nodes'. by rewrite zlen_zset.
  - assert (grown top total (count_at nodes) (parent_at nodes') ext low_s low_n k) as G'.
    { apply (grown_ext top total Htop (count_at nodes) (parent_at nodes)); [done| |done]. intros i. rewrite Hnd. by destruct (Z.eqb_spec k i) as [->|]. }
    apply (grown_add top total Htop (count_at nodes) _ _ ext low_s low_n k x y G'); try done.
    + by rewrite Hnd, Z.eqb_refl.
    + intros i Hi. by rewrite Hnd, (proj2 (Z.eqb_neq k i)) by lia.
  - intros i Hi. rewrite Hnd, (proj2 (Z.eqb_neq k i)) by lia. apply Hlat. lia.
  - by rewrite Hnd, (proj2 (Z.eqb_neq k (-1))) by lia.
  - intros i. rewrite Hnd. destruct (Z.eqb_spec k i) as [->|]; apply Hkeep.
Qed.

(** Between merges. *)
Definition merged (st : list NodeElt * Z * Z * Z) : Prop :=
  let '(nodes, low_s, low_n, k) := st in
  low_n < k /\ exists ext, merging top total nodes0 nodes ext low_s low_n k /\ zlen ext = 2 * (k - 256).

Lemma merge_turn_ok st : merged st ->
  returns (fun r => match r with
    | inl st' => merged st' /\ (Z.to_nat (256 + top - st'.2) < Z.to_nat (256 + top - st.2))%nat
    | inr nodes => exists ext, merging top total nodes0 nodes ext (-1) (255 + top) (256 + top) /\ zlen ext = 2 * top
    end) (merge_turn (256 + top - 1) st : res E _).
Proof.
  destruct st as [[[nodes low_s] low_n] k]. intros (Hn & ext & M & Hlen). unfold merge_turn.
  pose proof (mg_grown _ _ _ _ _ _ _ _ M) as G. pose proof (grown_len _ _ _ _ _ _ _ _ G) as Hgl. pose proof G as [H1 H2 H3 _ _ _ _ _ _ _ _ _].
  destruct (Z.leb_spec k (256 + top - 1)) as [Hle|Hgt].
  - eapply returns_bind; [apply (take_smaller_ok nodes ext low_s low_n k M); [rewrite Hlen, Z.mul_comm, Z.div_mul by lia; done|lia|lia]|].
    intros [c1 [[nodes1 ls1] ln1]] (x & M1 & -> & C1). pose proof (mg_grown _ _ _ _ _ _ _ _ M1) as G1.
    pose proof (grown_len _ _ _ _ _ _ _ _ G1) as Hg1. pose proof G1 as [A1 A2 _ _ _ _ _ _ _ _ _ _].
    assert (zlen (ext ++ [x]) = 2 * (k - 256) + 1) as L1 by (rewrite zlen_app, Hlen; done).
    eapply returns_bind; [apply (take_smaller_ok nodes1 (ext ++ [x]) ls1 ln1 k M1); [rewrite L1; divlia|lia|lia]|].
    intros [c2 [[nodes2 ls2] ln2]] (y & M2 & -> & C2). pose proof M2 as [L2 G2 Hlat Hbar Hkeep].
    pose proof (grown_len _ _ _ _ _ _ _ _ G2) as Hg2. pose proof G2 as [B1 B2 B3 _ _ _ _ _ _ _ _ _].
    assert (zlen ((ext ++ [x]) ++ [y]) = 2 * (k - 256) + 2) as L3 by (rewrite zlen_app, L1; change (zlen [y]) with 1; lia).
    assert (zget ((ext ++ [x]) ++ [y]) (2 * (k - 256)) = Some x) as Gx.
    { rewrite zget_app_l, zget_app_r, Hlen, Z.sub_diag by lia. done. }
    assert (zget ((ext ++ [x]) ++ [y]) (2 * (k - 256) + 1) = Some y) as Gy by (rewrite zget_app_r, L1, Z.sub_diag by lia; done).
    rewrite hn_upd_ok by lia. cbn [mbind res_bind returns snd]. split; [|lia].
    split; [lia|]. exists ((ext ++ [x]) ++ [y]). split; [|lia].
    rewrite <- (C1 x), <- (C2 x), <- (C2 y). by apply merging_add; try done; lia.
  - assert (k = 256 + top) as -> by lia. assert (low_s = -1 /\ low_n = 255 + top) as [-> ->] by lia.
    cbn [returns]. exists ext. split; [done|lia].
Qed.
End merges.

(** ** The depths *)

Abbreviation bits_at nodes := (fun i => n_bits (nd nodes i)).

(** The finished tree: the leaves are [0 .. top], the root is [255 + top]. *)
Record tree (top total : Z) (nodes0 nodes : list NodeElt) (ext : list Z) : Prop := {
  tr_len : zlen nodes = 512;
  tr_grown : grown top total (count_at nodes) (parent_at nodes) ext (-1) (255 + top) (256 + top);
  tr_ext : zlen ext = 2 * top;
  tr_root : n_bits (nd nodes (255 + top)) = 0;
  tr_bits : forall e, e ∈ ext -> n_bits (nd nodes e) = n_bits (nd nodes (n_parent (nd nodes e))) + 1;
  tr_range : forall e, e ∈ ext -> 1 <= n_bits (nd nodes e) <= 255;
  tr_other : forall i, (top < i < 256 \/ i < 0) -> n_bits (nd nodes i) = n_bits (nd nodes0 i);
  tr_byte : forall i, n_byte (nd nodes i) = n_byte (nd nodes0 i);
}.

Section depths.
Context {E : Type} (top total : Z) (Htop : 1 <= top <= 255).

Abbreviation root := (255 + top).

Lemma parent_range c p ext e : grown top total c p ext (-1) root (256 + top) -> zlen ext = 2 * top -> e ∈ ext ->
  256 <= p e <= root /\ e < p e.
Proof.
  intros G Hl [j Hj]%list_elem_of_lookup. rewrite <- zget_nat in Hj. pose proof (zget_lt _ _ _ Hj).
  destruct (gr_par _ _ _ _ _ _ _ _ G _ _ Hj) as [-> Hlt]. divlia.
Qed.

(** The table in the loops of depths: the nodes of [done_] have theirs. *)
Record deepening (nodes1 nodes : list NodeElt) (done_ : Z -> Prop) : Prop := {
  dp_len : zlen nodes = 512;
  dp_kept : forall i, n_count (nd nodes i) = n_count (nd nodes1 i) /\ n_parent (nd nodes i) = n_parent (nd nodes1 i) /\
    n_byte (nd nodes i) = n_byte (nd nodes1 i);
  dp_root : n_bits (nd nodes root) = 0;
  dp_done : forall e, done_ e -> n_bits (nd nodes e) = n_bits (nd nodes (n_parent (nd nodes1 e))) + 1 /\
    1 <= n_bits (nd nodes e) <= root - Z.max e 255;
  dp_other : forall i, (top < i < 256 \/ i < 0) -> n_bits (nd nodes i) = n_bits (nd nodes1 i);
}.

Lemma depth_step_ok nodes1 nodes (done_ : Z -> Prop) n : deepening nodes1 nodes done_ ->
  0 <= n <= top \/ 256 <= n < root -> (n_parent (nd nodes1 n) = root \/ done_ (n_parent (nd nodes1 n))) ->
  256 <= n_parent (nd nodes1 n) <= root -> n < n_parent (nd nodes1 n) -> ~ done_ n ->
  (forall e, done_ e -> n_parent (nd nodes1 e) <> n) ->
  returns (fun nodes' => deepening nodes1 nodes' (fun e => e = n \/ done_ e)) (depth_step nodes n : res E _).
Proof.
  intros [H1 H2 H3 H4 H5] Hn Hp Hpr Hlt Hnd Hch. set (p := n_parent (nd nodes1 n)) in *. unfold depth_step.
  rewrite hn_ok by lia. cbn [mbind res_bind]. destruct (H2 n) as (_ & -> & _). fold p. rewrite hn_ok by lia. cbn [mbind res_bind].
  rewrite hn_upd_ok by lia. cbn [returns].
  assert (0 <= n_bits (nd nodes p) <= root - p) as Hb.
  { destruct Hp as [->|Hp]; [lia|]. destruct (H4 p Hp) as [_ Hr]. lia. }
  assert (wadd 8 (n_bits (nd nodes p)) 1 = n_bits (nd nodes p) + 1) as -> by (apply Z.mod_small; change (2 ^ 8) with 256; lia).
  set (nodes' := zset _ _ _).
  assert (forall i, nd nodes' i = if n =? i then with_bits (nd nodes n) (n_bits (nd nodes p) + 1) else nd nodes i) as Hg
    by (intros i; apply nd_zset; lia).
  assert (forall i, i <> n -> nd nodes' i = nd nodes i) as Hne by (intros i Hi; by rewrite Hg, (proj2 (Z.eqb_neq n i)) by lia).
  split.
  - unfold nodes'. by rewrite zlen_zset.
  - intros i. rewrite Hg. destruct (Z.eqb_spec n i) as [->|]; [|apply H2]. cbn. apply H2.
  - rewrite Hne by lia. done.
  - intros e [->|He].
    + fold p. rewrite (Hne p) by lia. rewrite Hg, Z.eqb_refl. cbn [n_bits with_bits]. lia.
    + assert (e <> n) by (intros ->; done). rewrite !Hne by (try done; by apply Hch). by apply H4.
  - intros i Hi. rewrite Hne by lia. by apply H5.
Qed.

Lemma depths_ok nodes0 nodes ext : merging top total nodes0 nodes ext (-1) root (256 + top) -> zlen ext = 2 * top ->
  returns (fun nodes' => tree top total nodes0 nodes' ext)
    (nodes ← hn_upd nodes root (fun x => with_bits x 0);
     nodes ← foldM depth_step nodes (reverse (seqZ STARTNODE (root - STARTNODE)));
     foldM depth_step nodes (seqZ 0 (top + 1)) : res E _).
Proof.
  intros [Hl G _ _ Hkeep] He. pose proof (fun e => grown_taken top total _ _ _ _ _ _ e G) as Ht.
  pose proof (fun e => parent_range _ _ _ e G He) as Hpar. cbn in Hpar.
  rewrite hn_upd_ok by lia. cbn [mbind res_bind]. set (nodes1 := zset _ _ _). change STARTNODE with 256.
  assert (forall i, nd nodes1 i = if root =? i then with_bits (nd nodes root) 0 else nd nodes i) as Hg by (intros i; apply nd_zset; lia).
  assert (forall i, n_count (nd nodes1 i) = n_count (nd nodes i) /\ n_parent (nd nodes1 i) = n_parent (nd nodes i) /\
    n_byte (nd nodes1 i) = n_byte (nd nodes i)) as Hk1 by (intros i; rewrite Hg; by destruct (Z.eqb_spec root i) as [<-|]).
  assert (forall e, e ∈ ext -> 256 <= n_parent (nd nodes1 e) <= root /\ e < n_parent (nd nodes1 e)) as Hpar1.
  { intros e Hin. destruct (Hk1 e) as (_ & -> & _). by apply Hpar. }
  eapply returns_bind; [apply (returns_for_down (fun m nodes' => deepening nodes1 nodes' (fun e => m <= e < root))); [lia| |]|].
  - split; [unfold nodes1; by rewrite zlen_zset|done|by rewrite Hg, Z.eqb_refl|lia|done].
  - intros m nodes' Hm D. destruct (Hpar1 m ltac:(apply Ht; lia)) as [P1 P2].
    eapply returns_mono; [apply (depth_step_ok nodes1 nodes' (fun e => m + 1 <= e < root) m D); try lia|].
    + intros e Hee. destruct (Hpar1 e ltac:(apply Ht; lia)). lia.
    + intros nodes2 [D1 D2 D3 D4 D5]. split; try done. intros e Hee. apply D4. lia.
  - intros nodes2 D. eapply returns_mono; [apply (returns_for_up (fun m nodes' => deepening nodes1 nodes' (fun e => 256 <= e < root \/ 0 <= e < m)));
      [lia| |]|].
    + destruct D as [D1 D2 D3 D4 D5]. split; try done. intros e Hee. apply D4. lia.
    + intros m nodes' Hm D'. destruct (Hpar1 m ltac:(apply Ht; lia)) as [P1 P2].
      eapply returns_mono; [apply (depth_step_ok nodes1 nodes' (fun e => 256 <= e < root \/ 0 <= e < m) m D'); try lia|].
      * intros e Hee. destruct (Hpar1 e ltac:(apply Ht; lia)). lia.
      * intros nodes3 [D1 D2 D3 D4 D5]. split; try done. intros e Hee. apply D4. lia.
    + intros nodes' [D1 D2 D3 D4 D5]. rewrite Z.add_0_l in D4.
      assert (forall i, n_count (nd nodes' i) = n_count (nd nodes i) /\ n_parent (nd nodes' i) = n_parent (nd nodes i) /\
        n_byte (nd nodes' i) = n_byte (nd nodes i)) as Hk2.
      { intros i. destruct (D2 i) as (-> & -> & ->). apply Hk1. }
      split; try done.
      * apply (grown_ext top total Htop (count_at nodes) (parent_at nodes)); [intros i _; apply Hk2|intros i; apply Hk2|done].
      * intros e Hin. destruct (D4 e ltac:(apply Ht in Hin; lia)) as [-> _]. by destruct (D2 e) as (_ & -> & _).
      * intros e Hin. destruct (D4 e ltac:(apply Ht in Hin; lia)) as [_ Hr]. lia.
      * intros i Hi. rewrite D5, Hg by done. rewrite (proj2 (Z.eqb_neq root i)) by lia. apply Hkeep.
      * intros i. destruct (Hk2 i) as (_ & _ & ->). apply Hkeep.
Qed.
End depths.

(** ** The codes of the tree ([src/huf.rs], [huf_build_tree])

    The depths of a finished tree make a complete code ([tree_kraft]) whose
    lengths grow along the leaves ([tree_order]), and are at most 24 for a
    block's counts ([tree_shallow]): a node outweighs its grandchild's two
    generations. *)

Section tree.
Context (top total : Z) (Htop : 1 <= top <= 255) (nodes0 nodes : list NodeElt) (ext : list Z).
Context (T : tree top total nodes0 nodes ext).

Abbreviation root := (255 + top).
Abbreviation b i := (n_bits (nd nodes i)).
Abbreviation p i := (n_parent (nd nodes i)).
Abbreviation c i := (n_count (nd nodes i)).

Let G := tr_grown _ _ _ _ _ T.

Lemma tree_taken e : e ∈ ext <-> 0 <= e <= top \/ 256 <= e < root.
Proof. rewrite (grown_taken _ _ _ _ _ _ _ _ e G). lia. Qed.

Lemma tree_at j e : zget ext j = Some e -> e ∈ ext /\ p e = 256 + j / 2 /\ e < 256 + j / 2 /\ 0 <= j < 2 * top.
Proof.
  intros Hj. pose proof (zget_lt _ _ _ Hj) as Hr. rewrite (tr_ext _ _ _ _ _ T) in Hr.
  destruct (gr_par _ _ _ _ _ _ _ _ G _ _ Hj) as [Hp Hlt]. split; [|split; [done|lia]].
  apply zget_Some in Hj as [_ Hj]. by apply list_elem_of_lookup_2 in Hj.
Qed.

Lemma tree_index e : e ∈ ext -> exists j, zget ext j = Some e.
Proof. intros [j Hj]%list_elem_of_lookup. exists (Z.of_nat j). by rewrite zget_nat. Qed.

Lemma tree_parent e : e ∈ ext -> 256 <= p e <= root /\ e < p e.
Proof. intros [j Hj]%tree_index. destruct (tree_at j e Hj) as (_ & -> & ? & ?). divlia. Qed.

Lemma tree_bits e : e ∈ ext -> b e = b (p e) + 1.
Proof. apply T. Qed.

Lemma bits_nonneg e : e = root \/ e ∈ ext -> 0 <= b e.
Proof. intros [->|He]; [by rewrite (tr_root _ _ _ _ _ T)|]. pose proof (tr_range _ _ _ _ _ T e He). lia. Qed.

(** ** A complete code *)

Lemma pairs_sum D m : 0 <= m <= top -> (forall i, i = root \/ i ∈ ext -> b i <= D) ->
  sumz (fun i => 2 ^ (D - b i)) (ztake (2 * m) ext) = sumz (fun i => 2 ^ (D - b i)) (seqZ 256 m).
Proof.
  intros Hm HD. rewrite <- (Z2Nat.id m) in * by lia. induction (Z.to_nat m) as [|n IH]; [done|].
  specialize (IH ltac:(lia)). destruct (gr_pair _ _ _ _ _ _ _ _ G (Z.of_nat n) ltac:(lia)) as (x & y & Hx & Hy & _).
  replace (Z.of_nat (S n)) with (Z.of_nat n + 1) by lia. rewrite sumz_range, <- IH by lia.
  assert (ztake (2 * (Z.of_nat n + 1)) ext = ztake (2 * Z.of_nat n) ext ++ [x; y]) as ->.
  { pose proof (proj2 (proj1 (zget_Some _ _ _) Hx)) as Hx'. pose proof (proj2 (proj1 (zget_Some _ _ _) Hy)) as Hy'.
    unfold ztake. replace (Z.to_nat (2 * (Z.of_nat n + 1))) with (S (S (Z.to_nat (2 * Z.of_nat n)))) by lia.
    replace (Z.to_nat (2 * Z.of_nat n + 1)) with (S (Z.to_nat (2 * Z.of_nat n))) in Hy' by lia.
    rewrite (take_S_r _ _ _ Hy'), (take_S_r _ _ _ Hx'), <- app_assoc. done. }
  rewrite sumz_app. cbn [sumz foldr]. f_equal.
  destruct (tree_at _ _ Hx) as (Ix & Px & _). destruct (tree_at _ _ Hy) as (Iy & Py & _).
  replace (256 + (2 * Z.of_nat n) / 2) with (256 + Z.of_nat n) in Px by divlia.
  replace (256 + (2 * Z.of_nat n + 1) / 2) with (256 + Z.of_nat n) in Py by divlia.
  rewrite (tree_bits x Ix), (tree_bits y Iy), Px, Py. pose proof (HD x ltac:(by right)) as Hxd. rewrite (tree_bits x Ix), Px in Hxd.
  replace (D - b (256 + Z.of_nat n)) with (D - (b (256 + Z.of_nat n) + 1) + 1) by lia.
  rewrite pow2_add by lia. lia.
Qed.

Lemma depth_below D : (forall i, 0 <= i <= top -> b i <= D) -> forall i, i = root \/ i ∈ ext -> b i <= D.
Proof.
  intros HD. assert (forall n : nat, forall i, i < Z.of_nat n -> i = root \/ i ∈ ext -> b i <= D) as H.
  { induction n as [|n IH]; intros i Hi Hin; [destruct Hin as [->|Hin]; [lia|apply tree_taken in Hin; lia]|].
    destruct (decide (0 <= i <= top)) as [|Hn]; [by apply HD|].
    assert (256 <= i <= root) as Hr by (destruct Hin as [->|Hin]; [lia|apply tree_taken in Hin; lia]).
    destruct (gr_pair _ _ _ _ _ _ _ _ G (i - 256) ltac:(lia)) as (x & _ & Hx & _).
    destruct (tree_at _ _ Hx) as (Ix & Px & Lx & _). replace (256 + 2 * (i - 256) / 2) with i in * by divlia.
    specialize (IH x ltac:(lia) ltac:(by right)). rewrite (tree_bits x Ix), Px in IH. lia. }
  intros i. apply (H (Z.to_nat (i + 1))). lia.
Qed.

Lemma tree_kraft D : (forall i, 0 <= i <= top -> b i <= D) -> sumz (fun i => 2 ^ (D - b i)) (seqZ 0 (top + 1)) = 2 ^ D.
Proof.
  intros HD. pose proof (pairs_sum D top ltac:(lia) (depth_below D HD)) as Hs.
  rewrite ztake_all in Hs by (rewrite (tr_ext _ _ _ _ _ T); lia).
  pose proof (gr_perm _ _ _ _ _ _ _ _ G) as Hp. change (-1 + 1) with 0 in Hp.
  replace (top - -1) with (top + 1) in Hp by lia. replace (root - 256) with (top - 1) in Hp by lia.
  rewrite (sumz_perm _ _ _ Hp), sumz_app in Hs.
  pose proof (sumz_range (fun i => 2 ^ (D - b i)) 256 (top - 1) ltac:(lia)) as Hr.
  replace (top - 1 + 1) with top in Hr by lia. replace (256 + (top - 1)) with root in Hr by lia.
  rewrite Hr, (tr_root _ _ _ _ _ T), Z.sub_0_r in Hs. lia.
Qed.

(** ** The lengths in order *)

Lemma merged_order : forall i j, 256 <= i -> i <= j -> j <= root -> b j <= b i.
Proof.
  assert (forall n : nat, forall i j, root - j < Z.of_nat n -> 256 <= i -> i <= j -> j <= root -> b j <= b i) as H.
  { induction n as [|n IH]; intros i j Hn Hi Hij Hj; [lia|]. destruct (Z.eq_dec i j) as [->|]; [done|].
    assert (i ∈ ext) as Ii by (apply tree_taken; lia).
    destruct (Z.eq_dec j root) as [->|Hjr]; [rewrite (tr_root _ _ _ _ _ T); apply bits_nonneg; by right|].
    assert (j ∈ ext) as Ij by (apply tree_taken; lia).
    destruct (tree_index i Ii) as [ki Hki], (tree_index j Ij) as [kj Hkj].
    destruct (tree_at _ _ Hki) as (_ & Pi & Li & Ri). destruct (tree_at _ _ Hkj) as (_ & Pj & Lj & Rj).
    assert (ki < kj) as Hk.
    { destruct (Z.lt_total ki kj) as [|[Heq|Hgt]]; [done|congruence|].
      destruct (gr_order _ _ _ _ _ _ _ _ G _ _ _ _ Hgt Hkj Hki) as [_ Hc]. specialize (Hc ltac:(lia) ltac:(lia)). lia. }
    rewrite (tree_bits i Ii), (tree_bits j Ij), Pi, Pj. assert (ki / 2 <= kj / 2) by (apply Z.div_le_mono; lia).
    specialize (IH (256 + ki / 2) (256 + kj / 2) ltac:(lia) ltac:(divlia) ltac:(lia) ltac:(divlia)). lia. }
  intros i j. apply (H (Z.to_nat (root - j + 1))). lia.
Qed.

Lemma tree_order i j : 0 <= i -> i <= j -> j <= top -> b i <= b j.
Proof.
  intros Hi Hij Hj. destruct (Z.eq_dec i j) as [->|]; [done|].
  assert (i ∈ ext) as Ii by (apply tree_taken; lia). assert (j ∈ ext) as Ij by (apply tree_taken; lia).
  destruct (tree_index i Ii) as [ki Hki], (tree_index j Ij) as [kj Hkj].
  destruct (tree_at _ _ Hki) as (_ & Pi & _ & Ri). destruct (tree_at _ _ Hkj) as (_ & Pj & _ & Rj).
  assert (kj < ki) as Hk.
  { destruct (Z.lt_total kj ki) as [|[Heq|Hgt]]; [done|congruence|].
    destruct (gr_order _ _ _ _ _ _ _ _ G _ _ _ _ Hgt Hki Hkj) as [Hc _]. specialize (Hc ltac:(lia) ltac:(lia)). lia. }
  rewrite (tree_bits i Ii), (tree_bits j Ij), Pi, Pj. assert (kj / 2 <= ki / 2) by (apply Z.div_le_mono; lia).
  pose proof (merged_order (256 + kj / 2) (256 + ki / 2) ltac:(divlia) ltac:(lia) ltac:(divlia)). lia.
Qed.

(** ** Deep leaves need large totals *)

Fixpoint fibs (n : nat) : Z * Z :=
  match n with
  | O => (1, 2)
  | S n => let '(x, y) := fibs n in (y, x + y)
  end.

(** A node's parent outweighs it by its sibling, at least a child's count. *)
Lemma parent_count e : e ∈ ext -> c e + 1 <= c (p e) /\ forall z, z ∈ ext -> p z = e -> c e + c z <= c (p e).
Proof.
  intros Ie. destruct (tree_index e Ie) as [j Hj]. destruct (tree_at _ _ Hj) as (_ & Pe & Le & Rj).
  destruct (gr_pair _ _ _ _ _ _ _ _ G (j / 2) ltac:(divlia)) as (x & y & Hx & Hy & Hc).
  cbv beta in Hc. rewrite Pe, Hc.
  assert (forall z, z ∈ ext -> 0 < c z) as Hpos.
  { intros z Hz. apply tree_taken in Hz. destruct (gr_pos _ _ _ _ _ _ _ _ G) as [A B]. destruct Hz; [apply A|apply B]; lia. }
  pose proof (Hpos x (proj1 (tree_at _ _ Hx))). pose proof (Hpos y (proj1 (tree_at _ _ Hy))).
  assert (e = x \/ e = y) as Hexy.
  { assert (j = 2 * (j / 2) \/ j = 2 * (j / 2) + 1) as [Hjj|Hjj] by divlia; rewrite Hjj in Hj; [left|right]; congruence. }
  split; [destruct Hexy as [->| ->]; lia|]. intros z Iz Pz. destruct (tree_index z Iz) as [jz Hjz].
  destruct (tree_at _ _ Hjz) as (_ & Pz' & _ & Rz). rewrite Pz in Pz'.
  assert (jz < 2 * (j / 2)) by (destruct (Z.lt_ge_cases jz (2 * (j / 2))); [done|]; assert (j / 2 <= jz / 2) by divlia; lia).
  pose proof (gr_mono _ _ _ _ _ _ _ _ G jz (2 * (j / 2)) z x ltac:(lia) Hjz Hx).
  pose proof (gr_mono _ _ _ _ _ _ _ _ G jz (2 * (j / 2) + 1) z y ltac:(lia) Hjz Hy). cbv beta in *.
  destruct Hexy as [->| ->]; lia.
Qed.

Lemma fib_chain n : forall x, 0 <= x <= top -> Z.of_nat n < b x ->
  exists y, y ∈ ext /\ b y = b x - Z.of_nat n /\ (fibs n).1 <= c y /\ (fibs n).2 <= c (p y).
Proof.
  induction n as [|n IH]; intros x Hx Hb.
  - assert (x ∈ ext) as Ix by (apply tree_taken; lia). exists x. split; [done|]. split; [lia|]. cbn [fibs fst snd].
    pose proof (proj1 (gr_pos _ _ _ _ _ _ _ _ G) x Hx) as Hp. cbv beta in Hp. destruct (parent_count x Ix) as [Hs _]. lia.
  - destruct (IH x Hx ltac:(lia)) as (y & Iy & By & Fy & Fp). destruct (tree_parent y Iy) as [Hr Hlt].
    assert (b (p y) = b x - Z.of_nat (S n)) as Hbp by (pose proof (tree_bits y Iy); lia).
    assert (p y ∈ ext) as Ip.
    { apply tree_taken. destruct (Z.eq_dec (p y) root) as [Heq|]; [|lia]. rewrite Heq, (tr_root _ _ _ _ _ T) in Hbp. lia. }
    exists (p y). split; [done|]. split; [done|]. cbn [fibs]. destruct (fibs n) as [f1 f2]. cbn [fst snd] in *.
    destruct (parent_count (p y) Ip) as [_ Hz]. specialize (Hz y Iy eq_refl). lia.
Qed.

Lemma root_count : c root = total.
Proof.
  pose proof (gr_sum _ _ _ _ _ _ _ _ G) as Hs. change (seqZ 0 (-1 + 1)) with (@nil Z) in Hs.
  replace (256 + top - root) with 1 in Hs by lia. change (seqZ root 1) with [root] in Hs.
  replace (2 * (256 + top - 256)) with (zlen ext) in Hs by (rewrite (tr_ext _ _ _ _ _ T); lia).
  assert (zdrop (zlen ext) ext = []) as Hd by (unfold zdrop, zlen; apply drop_ge; lia). rewrite Hd in Hs.
  cbn [sumz foldr] in Hs. lia.
Qed.

Lemma tree_shallow i : total <= 2 ^ 17 -> 0 <= i <= top -> 1 <= b i <= 24.
Proof.
  intros Ht Hi. assert (i ∈ ext) as Ii by (apply tree_taken; lia). pose proof (tr_range _ _ _ _ _ T i Ii) as Hr.
  split; [lia|]. destruct (Z.le_gt_cases (b i) 24) as [|Hgt]; [done|exfalso].
  destruct (fib_chain 24 i Hi ltac:(lia)) as (y & Iy & By & _ & Fp).
  destruct (tree_parent y Iy) as [Py _].
  assert (c (p y) <= total) as Hle.
  { rewrite <- root_count. pose proof (grown_merged _ _ _ _ _ _ _ _ (p y) root G ltac:(lia) ltac:(lia) ltac:(lia)) as Hm. exact Hm. }
  change (2 ^ 17) with 131072 in Ht. change ((fibs 24).2) with 196418 in Fp. lia.
Qed.
End tree.

(** ** The whole of [huf_build_tree] *)

(** How many symbols there are. *)
Definition nonzero (cs : list Z) : Z := zlen (filter (fun c => c <> 0) cs).

Section build.
Context {E : Type} (cs : list Z) (nodes : list NodeElt) (Hs : sorted_nodes cs nodes).
Context (Hcs : Forall (fun c => 0 <= c < 2 ^ 32) cs) (Hlen : 1 <= zlen cs <= 256).
Context (Htotal : sumz (fun c => c) cs < 2 ^ 30) (Htwo : 2 <= nonzero cs).

Lemma sorted_len : zlen nodes = 512.
Proof.
  destruct Hs as (body & -> & Hp & _). assert (zlen body = zlen cs) as Hb.
  { unfold zlen. rewrite Hp, length_fmap. unfold enumerate. by rewrite length_imap. }
  rewrite zlen_cons, zlen_app, zlen_zrepeat by lia. lia.
Qed.

(** The symbols' nodes. *)
Lemma sorted_body : exists body, zlen body = zlen cs /\ (forall i, 0 <= i < zlen cs -> zget body i = Some (nd nodes i)) /\
  (forall i, zlen cs <= i < 511 \/ i = -1 -> nd nodes i = node_default) /\ body ≡ₚ node_of <$> enumerate cs /\ StronglySorted desc body.
Proof.
  destruct Hs as (body & -> & Hp & Hso). exists body. assert (zlen body = zlen cs) as Hb.
  { unfold zlen. rewrite Hp, length_fmap. unfold enumerate. by rewrite length_imap. }
  split; [done|]. split; [|split; [|done]].
  - intros i Hi. unfold nd. rewrite zget_cons_S, zget_app_l by lia. destruct (zget_is_Some body i ltac:(lia)) as [x ->]. done.
  - intros i [Hi| ->]; [|done]. unfold nd. rewrite zget_cons_S, zget_app_r, zget_zrepeat by lia. done.
Qed.

Lemma sorted_counts i j : 0 <= i -> i <= j -> j < zlen cs -> 0 <= n_count (nd nodes j) <= n_count (nd nodes i).
Proof.
  intros Hi Hij Hj. destruct sorted_body as (body & Hb & Hg & _ & Hp & Hso).
  pose proof (Hg i ltac:(lia)) as Gi. pose proof (Hg j ltac:(lia)) as Gj. split.
  - assert (nd nodes j ∈ node_of <$> enumerate cs) as Hin.
    { rewrite <- Hp. apply zget_Some in Gj as [_ Gj]. by apply list_elem_of_lookup_2 in Gj. }
    apply list_elem_of_fmap in Hin as ([n c] & -> & Hin). apply elem_of_enumerate in Hin.
    pose proof (Forall_zget _ _ _ _ Hcs Hin) as Hc. cbn in *. lia.
  - destruct (Z.eq_dec i j) as [->|]; [done|]. rewrite <- (take_drop (Z.to_nat j) body) in Hso.
    apply StronglySorted_app in Hso as (Hso & _ & _). apply Hso.
    + apply list_elem_of_lookup. exists (Z.to_nat i). rewrite lookup_take_lt by lia. by apply zget_Some in Gi as [_ Gi].
    + apply list_elem_of_lookup. exists 0%nat. rewrite lookup_drop, Nat.add_0_r. by apply zget_Some in Gj as [_ Gj].
Qed.

Abbreviation ms := (zlen cs - 1).
Abbreviation cnt0 i := (n_count (nd nodes i)).

Lemma nonzero_body body : body ≡ₚ node_of <$> enumerate cs -> nonzero cs = zlen (filter (fun x => n_count x <> 0) body).
Proof.
  intros Hp. unfold nonzero. rewrite <- (enumerate_snd cs) at 1. unfold zlen. rewrite Hp. f_equal. clear.
  induction (enumerate cs) as [|[n c] l IH]; [done|]. rewrite !fmap_cons, !filter_cons. cbn [snd node_of n_count].
  destruct (decide (c <> 0)); cbn [length]; by rewrite IH.
Qed.

(** The nodes past the [k]-th are not symbols, so that [k] are at least as
    many. *)
Lemma nonzero_upto k : 0 <= k <= zlen cs -> (forall j, k <= j <= ms -> cnt0 j = 0) -> nonzero cs <= k.
Proof.
  intros Hk Hz. destruct sorted_body as (body & Hb & Hg & _ & Hp & _). rewrite (nonzero_body body Hp).
  assert (filter (fun x => n_count x <> 0) body = filter (fun x => n_count x <> 0) (ztake k body)) as ->.
  { rewrite <- (take_drop (Z.to_nat k) body) at 1. fold (ztake k body) (zdrop k body). rewrite filter_app.
    rewrite (filter_false _ (zdrop k body)), app_nil_r; [done|]. intros x Hx. apply list_elem_of_lookup in Hx as [m Hm].
    rewrite <- zget_nat in Hm. pose proof (zget_lt _ _ _ Hm) as Hr. rewrite zlen_zdrop in Hr by lia.
    rewrite zget_zdrop, Hg in Hm by lia. injection Hm as <-. rewrite Hz by lia. lia. }
  pose proof (length_filter (fun x => n_count x <> 0) (ztake k body)) as Hf. unfold zlen, ztake in *. rewrite length_take in Hf. lia.
Qed.

(** The nodes before the [k]-th are symbols, so that [k] are at most as
    many. *)
Lemma nonzero_from k : 0 <= k <= zlen cs -> (forall j, 0 <= j < k -> cnt0 j <> 0) -> k <= nonzero cs.
Proof.
  intros Hk Hz. destruct sorted_body as (body & Hb & Hg & _ & Hp & _). rewrite (nonzero_body body Hp).
  rewrite <- (take_drop (Z.to_nat k) body). fold (ztake k body) (zdrop k body). rewrite filter_app, zlen_app.
  rewrite (filter_true _ (ztake k body)), zlen_ztake by (lia || (intros x Hx; apply list_elem_of_lookup in Hx as [m Hm];
    rewrite <- zget_nat in Hm; pose proof (zget_lt _ _ _ Hm) as Hr; rewrite zlen_ztake in Hr by lia;
    rewrite zget_ztake, Hg in Hm by lia; injection Hm as <-; apply Hz; lia)).
  pose proof (zlen_nonneg (filter (fun x => n_count x <> 0) (zdrop k body))). lia.
Qed.

Lemma skip_null_ok : returns (fun r => 1 <= r <= ms /\ cnt0 r <> 0 /\ forall j, r < j <= ms -> cnt0 j = 0)
  (skip_null nodes ms : res E Z).
Proof.
  unfold skip_null. pose proof sorted_len as Hl. eapply returns_mono; [apply returns_loopM with
    (I := fun i => -1 <= i <= ms /\ forall j, i < j <= ms -> cnt0 j = 0) (m := fun i => Z.to_nat (i + 1))
    (Q := fun r => 0 <= r <= ms /\ cnt0 r <> 0 /\ forall j, r < j <= ms -> cnt0 j = 0)|].
  - split; [lia|]. intros j. lia.
  - unfold zlen in *. lia.
  - intros i [Hi Hz]. assert (0 <= i) as Hi0.
    { destruct (Z.eq_dec i (-1)) as [->|]; [|lia]. pose proof (nonzero_upto 0 ltac:(lia) ltac:(intros; apply Hz; lia)). lia. }
    rewrite hn_ok by lia. cbn [mbind res_bind returns]. destruct (Z.eqb_spec (cnt0 i) 0) as [H0|H0].
    + split; [|lia]. split; [lia|]. intros j Hj. destruct (Z.eq_dec j i) as [->|]; [done|]. apply Hz. lia.
    + split; [lia|]. done.
  - intros r (Hr & Hc & Hz). split; [|done]. destruct (Z.eq_dec r 0) as [->|]; [|lia].
    pose proof (nonzero_upto 1 ltac:(lia) ltac:(intros; apply Hz; lia)). lia.
Qed.

Section rank.
Context (r : Z) (Hr : 1 <= r <= ms) (Hr0 : cnt0 r <> 0) (Hrz : forall j, r < j <= ms -> cnt0 j = 0).

Abbreviation total := (sumz (fun c => c) cs).

Lemma leaves_total : sumz (fun i => cnt0 i) (seqZ 0 (r + 1)) = total.
Proof.
  destruct sorted_body as (body & Hb & Hg & _ & Hp & _).
  assert (sumz (fun i => cnt0 i) (seqZ 0 (zlen cs)) = total) as Hall.
  { assert ((fun i => nd nodes i) <$> seqZ 0 (zlen cs) = body) as Hbody.
    { apply zlist_eq; [rewrite zlen_fmap, zlen_seqZ; lia|]. intros i Hi. rewrite zlen_fmap, zlen_seqZ in Hi by lia.
      rewrite zget_fmap, seqZ_zget, Hg by lia. done. }
    assert (forall l, sumz (fun i => cnt0 i) l = sumz (fun x => x) (n_count <$> ((fun i => nd nodes i) <$> l))) as Hmap.
    { induction l as [|x l IH]; [done|]. rewrite !fmap_cons, !sumz_cons, IH. done. }
    rewrite Hmap, Hbody. rewrite (sumz_perm _ _ (n_count <$> (node_of <$> enumerate cs))) by (by rewrite Hp).
    f_equal. rewrite <- (enumerate_snd cs) at 2. rewrite <- list_fmap_compose. done. }
  rewrite <- Hall. replace (zlen cs) with (r + 1 + (zlen cs - (r + 1))) by lia. rewrite (seqZ_app 0 (r + 1)), sumz_app by lia.
  rewrite Z.add_0_l. assert (sumz (fun i => cnt0 i) (seqZ (r + 1) (zlen cs - (r + 1))) = 0) as ->; [|lia].
  rewrite (sumz_ext _ (fun _ => 0)); [|intros i Hi%elem_of_seqZ; apply Hrz; lia].
  induction (seqZ (r + 1) (zlen cs - (r + 1))) as [|x l IH]; [done|]. by rewrite sumz_cons, IH.
Qed.

Lemma leaf_pos i : 0 <= i <= r -> 0 < cnt0 i <= total.
Proof.
  intros Hi. pose proof (sorted_counts i r ltac:(lia) ltac:(lia) ltac:(lia)) as Hc. pose proof (sorted_counts r r ltac:(lia) ltac:(lia) ltac:(lia)).
  split; [lia|]. rewrite <- leaves_total. apply (sumz_member (fun i => cnt0 i)); [|apply elem_of_seqZ; lia].
  intros j Hj%elem_of_seqZ. pose proof (sorted_counts j r ltac:(lia) ltac:(lia) ltac:(lia)). lia.
Qed.

(** The table as the loop of merges starts. *)
Lemma start_ok : returns (fun nodes' => merged r total nodes (nodes', r - 2, 256, 257))
  (a ← hn nodes r;
   b ← hn nodes (r - 1);
   nodes ← hn_upd nodes STARTNODE (fun x => with_count x (wadd 32 (n_count a) (n_count b)));
   nodes ← hn_upd nodes r (fun x => with_parent x (wrap 16 STARTNODE));
   nodes ← hn_upd nodes (r - 1) (fun x => with_parent x (wrap 16 STARTNODE));
   nodes ← foldM (fun nodes i => n ← idx nodes i; store nodes i (with_count n (2 ^ 30))) nodes
     (seqZ (STARTNODE + 1 + 1) (Z.min (STARTNODE + r - 1 + 2) (zlen nodes) - (STARTNODE + 1 + 1)));
   hn_upd nodes (-1) (fun x => with_count x (2 ^ 31)) : res E _).
Proof.
  pose proof sorted_len as Hl. change STARTNODE with 256. rewrite !hn_ok by lia. cbn [mbind res_bind].
  pose proof (leaf_pos r ltac:(lia)) as Pr. pose proof (leaf_pos (r - 1) ltac:(lia)) as Pr1.
  assert (wadd 32 (cnt0 r) (cnt0 (r - 1)) = cnt0 r + cnt0 (r - 1)) as ->.
  { apply Z.mod_small. change (2 ^ 30) with 1073741824 in Htotal. change (2 ^ 32) with 4294967296. lia. }
  assert (forall i, (i = r \/ i = r - 1) -> 0 <= i < 256) as Hids by lia.
  rewrite hn_upd_ok by lia. cbn [mbind res_bind]. set (n1 := zset nodes _ _).
  assert (forall i, nd n1 i = if 256 =? i then with_count (nd nodes 256) (cnt0 r + cnt0 (r - 1)) else nd nodes i) as G1 by (intros; apply nd_zset; lia).
  assert (zlen n1 = 512) as L1 by (unfold n1; by rewrite zlen_zset). clearbody n1.
  rewrite hn_upd_ok by lia. cbn [mbind res_bind]. set (n2 := zset n1 _ _).
  assert (forall i, nd n2 i = if r =? i then with_parent (nd n1 r) (wrap 16 256) else nd n1 i) as G2 by (intros; apply nd_zset; lia).
  assert (zlen n2 = 512) as L2 by (unfold n2; by rewrite zlen_zset). clearbody n2.
  rewrite hn_upd_ok by lia. cbn [mbind res_bind]. set (n3 := zset n2 _ _).
  assert (forall i, nd n3 i = if r - 1 =? i then with_parent (nd n2 (r - 1)) (wrap 16 256) else nd n2 i) as G3 by (intros; apply nd_zset; lia).
  assert (zlen n3 = 512) as L3 by (unfold n3; by rewrite zlen_zset). clearbody n3.
  rewrite L3. change (256 + 1 + 1) with 258.
  eapply returns_bind with (P := fun n4 => zlen n4 = 512 /\
    forall i, nd n4 i = if (257 <=? i) && (i <? 256 + r) then with_count (nd n3 i) (2 ^ 30) else nd n3 i).
  { replace (Z.min (256 + r - 1 + 2) 512 - 258) with (r - 1) by lia.
    eapply returns_mono; [apply (returns_for_up (fun m n4 => zlen n4 = 512 /\
      forall i, nd n4 i = if (257 <=? i) && (i <? m - 1) then with_count (nd n3 i) (2 ^ 30) else nd n3 i)); [lia| |]|].
    - split; [done|]. intros i. destruct (Z.leb_spec 257 i), (Z.ltb_spec i (258 - 1)); try done. lia.
    - intros m n4 Hm [L4 G4]. change (idx n4 m) with (idx n4 m : res E NodeElt).
      assert (idx n4 m = (Ok (nd n4 (m - 1)) : res E _)) as ->.
      { pose proof (hn_ok (E := E) n4 (m - 1) ltac:(lia)) as H. unfold hn in H. by replace (m - 1 + 1) with m in H by lia. }
      cbn [mbind res_bind]. rewrite store_ok by lia. cbn [returns]. split; [by rewrite zlen_zset|]. intros i.
      replace m with (m - 1 + 1) at 1 by lia. rewrite nd_zset by lia. rewrite (G4 (m - 1)), (G4 i).
      destruct (Z.eqb_spec (m - 1) i) as [<-|Hne].
      + rewrite (proj2 (Z.ltb_ge (m - 1) (m - 1))), (proj2 (Z.leb_le 257 (m - 1))), (proj2 (Z.ltb_lt (m - 1) (m + 1 - 1))) by lia. done.
      + destruct (Z.ltb_spec i (m - 1)), (Z.ltb_spec i (m + 1 - 1)); done || lia.
    - intros n4 [L4 G4]. split; [done|]. intros i. rewrite G4. by replace (258 + (r - 1) - 1) with (256 + r) by lia. }
  intros n4 [L4 G4]. rewrite hn_upd_ok by lia. cbn [returns]. set (n5 := zset n4 _ _).
  assert (forall i, nd n5 i = if -1 =? i then with_count (nd n4 (-1)) (2 ^ 31) else nd n4 i) as G5 by (intros; apply nd_zset; lia).
  assert (zlen n5 = 512) as L5 by (unfold n5; by rewrite zlen_zset). clearbody n5.
  split; [lia|]. exists [r; r - 1]. split; [|done].
  assert (forall i, n_count (nd n5 i) = if i =? -1 then 2 ^ 31 else if i =? 256 then cnt0 r + cnt0 (r - 1)
    else if (257 <=? i) && (i <? 256 + r) then 2 ^ 30 else cnt0 i) as Hc.
  { intros i. rewrite G5, (Z.eqb_sym i (-1)), (Z.eqb_sym i 256). destruct (Z.eqb_spec (-1) i) as [<-|]; [done|]. rewrite G4.
    assert (n_count (nd n3 i) = n_count (nd n1 i)) as H31.
    { rewrite G3. destruct (Z.eqb_spec (r - 1) i) as [<-|]; cbn [n_count with_parent]; rewrite G2.
      - by rewrite (proj2 (Z.eqb_neq r (r - 1))) by lia.
      - by destruct (Z.eqb_spec r i) as [<-|]. }
    assert (n_count (nd n1 i) = if 256 =? i then cnt0 r + cnt0 (r - 1) else cnt0 i) as H1 by (rewrite G1; by destruct (256 =? i)).
    destruct ((257 <=? i) && (i <? 256 + r)) eqn:Hb; cbn [n_count with_count]; [|by rewrite H31, H1].
    bools. by rewrite (proj2 (Z.eqb_neq 256 i)) by lia. }
  assert (forall i, n_byte (nd n5 i) = n_byte (nd nodes i) /\ n_bits (nd n5 i) = n_bits (nd nodes i)) as Hk.
  { assert (forall i, n_byte (nd n3 i) = n_byte (nd nodes i) /\ n_bits (nd n3 i) = n_bits (nd nodes i)) as H3.
    { assert (forall i, n_byte (nd n1 i) = n_byte (nd nodes i) /\ n_bits (nd n1 i) = n_bits (nd nodes i)) as H1
        by (intros i; rewrite G1; by destruct (Z.eqb_spec 256 i) as [<-|]).
      assert (forall i, n_byte (nd n2 i) = n_byte (nd nodes i) /\ n_bits (nd n2 i) = n_bits (nd nodes i)) as H2
        by (intros i; rewrite G2; destruct (Z.eqb_spec r i) as [<-|]; apply H1).
      intros i. rewrite G3. destruct (Z.eqb_spec (r - 1) i) as [<-|]; apply H2. }
    intros i. rewrite G5. destruct (Z.eqb_spec (-1) i) as [<-|]; [cbn [n_byte n_bits with_count]|]; rewrite G4;
      (destruct (_ && _); apply H3). }
  assert (forall i, (i = r \/ i = r - 1) -> n_parent (nd n5 i) = 256) as Hp.
  { intros i Hi. specialize (Hids i Hi). rewrite G5, (proj2 (Z.eqb_neq (-1) i)), G4, (proj2 (Z.leb_gt 257 i)) by lia. cbn [andb]. rewrite G3.
    destruct (Z.eqb_spec (r - 1) i) as [<-|]; [done|]. rewrite G2, (proj2 (Z.eqb_eq r i)) by lia. done. }
  assert (forall i, 0 <= i <= r -> n_count (nd n5 i) = cnt0 i) as Hleaf.
  { intros i Hi. rewrite Hc, (proj2 (Z.eqb_neq i (-1))), (proj2 (Z.eqb_neq i 256)), (proj2 (Z.leb_gt 257 i)) by lia. done. }
  split; [done| | | |done].
  - apply (grown_start r total ltac:(lia)).
    + intros i j Hi Hij Hj. rewrite !Hleaf by lia. apply sorted_counts; lia.
    + intros i Hi. rewrite Hleaf by done. apply leaf_pos; lia.
    + rewrite (Hleaf r), (Hleaf (r - 1)) by lia. by rewrite Hc.
    + apply Hp. by left.
    + apply Hp. by right.
    + rewrite (sumz_ext _ (fun i => cnt0 i)); [apply leaves_total|]. intros i Hi%elem_of_seqZ. apply Hleaf. lia.
  - intros i Hi. rewrite Hc, (proj2 (Z.eqb_neq i (-1))), (proj2 (Z.eqb_neq i 256)), (proj2 (Z.leb_le 257 i)), (proj2 (Z.ltb_lt i (256 + r))) by lia. done.
  - by rewrite Hc.
Qed.
End rank.

(** The tree of the counts: its leaves are the symbols. *)
Lemma huf_build_tree_ok : returns (fun '(nodes', r) => (exists ext, tree r (sumz (fun c => c) cs) nodes nodes' ext) /\
    1 <= r <= ms /\ forall i, 0 <= i <= ms -> 0 < cnt0 i <-> i <= r) (huf_build_tree nodes ms : res E _).
Proof.
  unfold huf_build_tree. eapply returns_bind; [apply skip_null_ok|]. intros r (Hr & Hr0 & Hrz).
  destruct (returns_inv _ _ (start_ok r Hr Hr0 Hrz)) as (nodes1 & Heq & Hm).
  match type of Heq with ?m = _ => assert (forall (B : Type) (k : list NodeElt -> res E B), m ≫= k = k nodes1) as Hk
    by (intros B k; by rewrite Heq) end. clear Heq.
  pose (k := fun nodes => nodes ← loopM (length nodes + 1) (merge_turn (STARTNODE + r - 1)) (nodes, r - 2, STARTNODE, STARTNODE + 1);
    nodes ← hn_upd nodes (STARTNODE + r - 1) (fun x => with_bits x 0);
    nodes ← foldM depth_step nodes (reverse (seqZ STARTNODE (STARTNODE + r - 1 - STARTNODE)));
    nodes ← foldM depth_step nodes (seqZ 0 (r + 1));
    Ok (nodes, r) : res E _).
  match goal with |- returns ?Q ?m => assert (m = k nodes1) as -> end.
  { rewrite <- (Hk _ k). unfold k. clear.
    repeat (match goal with |- ?m ≫= _ = _ => destruct m as [?| | |]; cbn [mbind res_bind]; [|done..] end). done. }
  unfold k. clear k Hk.
  change STARTNODE with 256. replace (256 + r - 1) with (255 + r) by lia.
  pose proof Hm as (_ & ext0 & M0 & _). pose proof (mg_len _ _ _ _ _ _ _ _ M0) as Hl1.
  eapply returns_bind; [apply returns_loopM with (I := merged r (sumz (fun c => c) cs) nodes) (m := fun st => Z.to_nat (256 + r - st.2))
    (Q := fun nodes' => exists ext, merging r (sumz (fun c => c) cs) nodes nodes' ext (-1) (255 + r) (256 + r) /\ zlen ext = 2 * r)|].
  - done.
  - cbn [snd]. unfold zlen in Hl1. lia.
  - intros st Hst. pose proof (merge_turn_ok (E := E) r (sumz (fun c => c) cs) ltac:(lia) Htotal nodes st Hst) as Hturn.
    by replace (256 + r - 1) with (255 + r) in Hturn by lia.
  - intros nodes2 (ext & M & He).
    pose proof (depths_ok (E := E) r (sumz (fun c => c) cs) ltac:(lia) nodes nodes2 ext M He) as Hd. change STARTNODE with 256 in Hd.
    destruct (returns_inv _ _ Hd) as (nodes3 & Heq & HT).
    match goal with |- returns ?Q ?m => assert (m = (nodes ← (Ok nodes3 : res E _); Ok (nodes, r))) as -> end.
    { rewrite <- Heq. clear. repeat (match goal with |- ?m ≫= _ = _ => destruct m as [?| | |]; cbn [mbind res_bind]; [|done..] end). done. }
    cbn [mbind res_bind returns]. split; [by exists ext|]. split; [done|]. intros i Hi.
    destruct (Z.le_gt_cases i r) as [Hle|Hgt].
    + split; [done|]. intros _. destruct (leaf_pos r Hr Hr0 Hrz i); [lia|done].
    + rewrite Hrz by lia. lia.
Qed.
End build.
