(* ===== verification/HufHeight.v ===== *)
(** * The limit on the codes' lengths ([src/huf.rs], [huf_set_max_height])

    Codes that are too long are cut to the target, which overfills the code
    ([cost]); longer codes for other symbols repay it, the last repayment
    perhaps too much, and then codes of the target's length are shortened by
    one. The sum of the codes' shares is exact all along, and there are
    enough of them for the way back. *)

From S2P Require Import Prelude Words HufCStream HufCTable HufSort HufTree.

(** ** Sums *)

Lemma sumz_upd f f' l i : NoDup l -> i ∈ l -> (forall j, j <> i -> f' j = f j) -> sumz f' l = sumz f l - f i + f' i.
Proof.
  intros Hn Hi Hf. apply elem_of_Permutation in Hi as [l' Hl]. rewrite !(sumz_perm _ _ _ Hl), !sumz_cons.
  rewrite (sumz_ext f' f l'); [lia|]. intros j Hj. apply Hf. intros ->. rewrite Hl in Hn. by apply NoDup_cons in Hn as [Hn _].
Qed.

Lemma sumz_le f g l : (forall i, i ∈ l -> f i <= g i) -> sumz f l <= sumz g l.
Proof.
  induction l as [|i l IH]; intros H; [done|]. rewrite !sumz_cons. pose proof (H i ltac:(by left)).
  specialize (IH ltac:(intros; apply H; by right)). lia.
Qed.

Lemma sumz_const (k : Z) l : sumz (fun _ => k) l = k * zlen l.
Proof. induction l as [|i l IH]; [by rewrite (zlen_nil (A := Z)); cbn; lia|]. rewrite sumz_cons, IH, zlen_cons. lia. Qed.

Lemma sumz_minus f g l : sumz (fun i => f i - g i) l = sumz f l - sumz g l.
Proof. induction l as [|i l IH]; [done|]. rewrite !sumz_cons, IH. lia. Qed.

Lemma sumz_scale k f l : sumz (fun i => k * f i) l = k * sumz f l.
Proof. induction l as [|i l IH]; [by cbn; lia|]. rewrite !sumz_cons, IH. lia. Qed.

Lemma sumz_divide k f l : (forall i, i ∈ l -> (k | f i)) -> (k | sumz f l).
Proof.
  induction l as [|i l IH]; intros H; [apply Z.divide_0_r|]. rewrite sumz_cons.
  apply Z.divide_add_r; [apply H; by left|apply IH; intros; apply H; by right].
Qed.

Lemma i32_id x : - 2 ^ 31 <= x < 2 ^ 31 -> i32 x = x.
Proof.
  change (2 ^ 31) with 2147483648. intros Hx. unfold i32, signed, wrap. change (2 ^ (32 - 1)) with 2147483648. change (2 ^ 32) with 4294967296.
  destruct (Z.lt_ge_cases x 0) as [Hneg|Hpos].
  - assert (x mod 4294967296 = x + 4294967296) as -> by (symmetry; apply (Z.mod_unique x 4294967296 (-1)); lia).
    destruct (Z.ltb_spec (x + 4294967296) 2147483648); lia.
  - rewrite Z.mod_small by lia. by destruct (Z.ltb_spec x 2147483648); [|lia].
Qed.

Lemma shl_one_ok {E} k : 0 <= k < 31 -> shl_one k = (Ok (2 ^ k) : res E Z).
Proof.
  intros Hk. unfold shl_one. rewrite (proj2 (Z.leb_le 0 k)), (proj2 (Z.ltb_lt k 32)) by lia. cbn [andb rassert mbind res_bind].
  rewrite Z.shiftl_mul_pow2, Z.mul_1_l by lia. rewrite i32_id; [done|].
  pose proof (pow2_pos k ltac:(lia)). pose proof (Z.pow_lt_mono_r 2 k 31 ltac:(lia) ltac:(lia) ltac:(lia)). lia.
Qed.

(** ** The lengths *)

Section height.
Context {E : Type} (top T : Z) (Htop : 1 <= top <= 255) (HT : 1 <= T <= 12) (Hfit : top + 1 <= 2 ^ T).

Abbreviation ids := (seqZ 0 (top + 1)).
Abbreviation share b := (fun i => 2 ^ (T - b i)).
Abbreviation full b := (fun i => if b i =? T then 1 else 0).

(** Lengths within the target, in order, whose shares exceed the whole by
    [c]. *)
Record limited (b : Z -> Z) (c : Z) : Prop := {
  lm_range : forall i, 0 <= i <= top -> 1 <= b i <= T;
  lm_order : forall i j, 0 <= i -> i <= j -> j <= top -> b i <= b j;
  lm_sum : sumz (share b) ids = 2 ^ T + c;
}.

Lemma ids_elem i : i ∈ ids <-> 0 <= i <= top.
Proof. rewrite elem_of_seqZ. lia. Qed.

Lemma zlen_ids : zlen ids = top + 1.
Proof. apply zlen_seqZ. lia. Qed.

Lemma full_range b : 0 <= sumz (full b) ids <= top + 1.
Proof.
  split; [apply sumz_nonneg; intros i _; cbn; by destruct (b i =? T)|].
  pose proof (sumz_le (full b) (fun _ => 1) ids) as H. rewrite sumz_const, zlen_ids in H. specialize (H ltac:(intros i _; cbn; destruct (b i =? T); lia)). lia.
Qed.

Lemma full_exists b : 0 < sumz (full b) ids -> exists i, 0 <= i <= top /\ b i = T.
Proof.
  intros H. destruct (decide (Forall (fun i => b i <> T) ids)) as [Hf|Hf].
  - rewrite (sumz_ext _ (fun _ => 0)) in H; [rewrite sumz_const in H; lia|]. intros i Hi. rewrite Forall_forall in Hf.
    by rewrite (proj2 (Z.eqb_neq (b i) T)) by (by apply Hf).
  - apply not_Forall_Exists in Hf; [|apply _]. apply Exists_exists in Hf as (i & Hi & Hb). exists i. rewrite <- ids_elem. split; [done|].
    by destruct (Z.eq_dec (b i) T).
Qed.

(** A cost needs a code below the target. *)
Lemma limited_short b c : limited b c -> 0 < c -> exists i, 0 <= i <= top /\ b i < T.
Proof.
  intros [Hr _ Hs] Hc. destruct (decide (Forall (fun i => b i = T) ids)) as [Hf|Hf].
  - exfalso. rewrite (sumz_ext _ (fun _ => 1)) in Hs; [rewrite sumz_const, zlen_ids in Hs; lia|]. intros i Hi. rewrite Forall_forall in Hf.
    rewrite (Hf i Hi), Z.sub_diag. done.
  - apply not_Forall_Exists in Hf; [|apply _]. apply Exists_exists in Hf as (i & Hi & Hb). apply ids_elem in Hi. exists i.
    specialize (Hr i Hi). split; [done|]. cbn in Hb. lia.
Qed.

(** The codes of the target's length are a suffix. *)
Lemma limited_suffix b c i : limited b c -> 0 <= i <= top -> b i < T -> (forall j, i < j <= top -> b j = T) ->
  sumz (full b) ids = top - i.
Proof.
  intros [Hr Ho _] Hi Hb Hj. replace (top + 1) with (i + 1 + (top - i)) by lia. rewrite seqZ_app, sumz_app by lia.
  rewrite (sumz_ext _ (fun _ => 0) (seqZ 0 (i + 1))).
  - rewrite (sumz_ext _ (fun _ => 1) (seqZ (0 + (i + 1)) _)).
    + rewrite !sumz_const, !zlen_seqZ by lia. lia.
    + intros j Hjr%elem_of_seqZ. by rewrite (Hj j), Z.eqb_refl by lia.
  - intros j Hjr%elem_of_seqZ. specialize (Ho j i ltac:(lia) ltac:(lia) ltac:(lia)). by rewrite (proj2 (Z.eqb_neq (b j) T)) by lia.
Qed.

(** One code longer by one. *)
Lemma limited_longer b b' c i : limited b c -> 0 <= i <= top -> b i < T -> (forall j, i < j <= top -> b i < b j) ->
  b' i = b i + 1 -> (forall j, j <> i -> b' j = b j) -> limited b' (c - 2 ^ (T - b i - 1)) /\
  sumz (full b) ids <= sumz (full b') ids.
Proof.
  intros [Hr Ho Hs] Hi Hb Hlast Hbi Hbj. pose proof (Hr i Hi) as Hri. split; [split|].
  - intros j Hj. destruct (Z.eq_dec j i) as [->|]; [lia|]. rewrite Hbj by done. by apply Hr.
  - intros j k Hj Hjk Hk. destruct (Z.eq_dec j i) as [->|Hji], (Z.eq_dec k i) as [->|Hki]; [done|..]; rewrite ?Hbi, ?Hbj by done.
    + specialize (Hlast k ltac:(lia)). lia.
    + specialize (Ho j i ltac:(lia) ltac:(lia) ltac:(lia)). lia.
    + by apply Ho.
  - rewrite (sumz_upd (share b) _ _ i); [|apply NoDup_seqZ|by apply ids_elem|intros j Hj; by rewrite Hbj].
    cbn beta. rewrite Hs, Hbi. replace (T - b i) with (T - b i - 1 + 1) at 1 by lia. rewrite pow2_add by lia.
    replace (T - (b i + 1)) with (T - b i - 1) by lia. lia.
  - rewrite (sumz_upd (full b) (full b') _ i); [|apply NoDup_seqZ|by apply ids_elem|intros j Hj; cbn; by rewrite Hbj].
    cbn beta. rewrite (proj2 (Z.eqb_neq (b i) T)) by lia. destruct (b' i =? T); lia.
Qed.

(** A code of the target's length shorter by one. *)
Lemma limited_shorter b b' c i : limited b c -> 0 <= i <= top -> b i = T -> 2 <= T -> (forall j, 0 <= j < i -> b j < T) ->
  b' i = T - 1 -> (forall j, j <> i -> b' j = b j) -> limited b' (c + 1) /\
  sumz (full b') ids = sumz (full b) ids - 1.
Proof.
  intros [Hr Ho Hs] Hi Hb HT2 Hlow Hbi Hbj. split; [split|].
  - intros j Hj. destruct (Z.eq_dec j i) as [->|]; [lia|]. rewrite Hbj by done. by apply Hr.
  - intros j k Hj Hjk Hk. destruct (Z.eq_dec j i) as [->|Hji], (Z.eq_dec k i) as [->|Hki]; [done|..]; rewrite ?Hbi, ?Hbj by done.
    + specialize (Ho i k ltac:(lia) ltac:(lia) ltac:(lia)). lia.
    + specialize (Hlow j ltac:(lia)). lia.
    + by apply Ho.
  - rewrite (sumz_upd (share b) _ _ i); [|apply NoDup_seqZ|by apply ids_elem|intros j Hj; by rewrite Hbj].
    cbn beta. rewrite Hs, Hbi, Hb, Z.sub_diag. replace (T - (T - 1)) with 1 by lia. change (2 ^ 0) with 1. change (2 ^ 1) with 2. lia.
  - rewrite (sumz_upd (full b) (full b') _ i); [|apply NoDup_seqZ|by apply ids_elem|intros j Hj; cbn; by rewrite Hbj].
    cbn beta. rewrite Hb, Hbi, Z.eqb_refl, (proj2 (Z.eqb_neq (T - 1) T)) by lia. lia.
Qed.

(** When no code is within [r] of the target but the target's own, their
    number is the cost up to a multiple of [2 ^ r], so that one repayment is
    always less than they can take back. *)
Lemma limited_enough b c r : limited b c -> 0 < c < sumz (full b) ids -> 1 <= r <= T ->
  (forall i, 0 <= i <= top -> b i < T -> r <= T - b i) -> 2 ^ (r - 1) - c < sumz (full b) ids.
Proof.
  intros [Hr Ho Hs] Hc Hrr Hgap. assert ((2 ^ r | sumz (fun i => 2 ^ (T - b i) - (if b i =? T then 1 else 0)) ids)) as Hd.
  { apply sumz_divide. intros i Hi%ids_elem. destruct (Z.eqb_spec (b i) T) as [->|Hne].
    - rewrite Z.sub_diag. apply Z.divide_0_r.
    - rewrite Z.sub_0_r. specialize (Hr i Hi). specialize (Hgap i Hi ltac:(lia)).
      exists (2 ^ (T - b i - r)). rewrite <- pow2_add by lia. f_equal. lia. }
  rewrite sumz_minus, Hs in Hd. destruct Hd as [q Hq].
  assert (2 ^ T = 2 ^ (T - r) * 2 ^ r) as HTr by (rewrite <- pow2_add by lia; f_equal; lia).
  assert (2 ^ r = 2 * 2 ^ (r - 1)) as Hrp by (change 2 with (2 ^ 1) at 2; rewrite <- pow2_add by lia; f_equal; lia).
  pose proof (pow2_pos (r - 1) ltac:(lia)). set (M := sumz (full b) ids) in *.
  assert (M - c = (2 ^ (T - r) - q) * 2 ^ r) as Hm by lia.
  assert (0 < 2 ^ (T - r) - q) by nia. nia.
Qed.

(** ** The table *)

(** [nodes'] differs from [nodes] in the lengths of the symbols at most. *)
Record relength (nodes nodes' : list NodeElt) : Prop := {
  rl_len : zlen nodes' = zlen nodes;
  rl_byte : forall i, n_byte (nd nodes' i) = n_byte (nd nodes i);
  rl_bits : forall i, ~ (0 <= i <= top) -> n_bits (nd nodes' i) = n_bits (nd nodes i);
}.

Lemma relength_refl nodes : relength nodes nodes.
Proof. done. Qed.

Lemma relength_trans n1 n2 n3 : relength n1 n2 -> relength n2 n3 -> relength n1 n3.
Proof. intros [A1 B1 C1] [A2 B2 C2]. split; [by rewrite A2|intros i; by rewrite B2|intros i Hi; by rewrite C2, C1]. Qed.

(** A length set. *)
Lemma set_bits_ok nodes i f v : zlen nodes = 512 -> 0 <= i <= top -> f (nd nodes i) = with_bits (nd nodes i) v ->
  exists nodes', hn_upd nodes i f = (Ok nodes' : res E _) /\ relength nodes nodes' /\ zlen nodes' = 512 /\
    n_bits (nd nodes' i) = v /\ forall j, j <> i -> nd nodes' j = nd nodes j.
Proof.
  intros Hl Hi Hf. exists (zset nodes (i + 1) (with_bits (nd nodes i) v)). rewrite hn_upd_ok, Hf by lia.
  assert (forall j, nd (zset nodes (i + 1) (with_bits (nd nodes i) v)) j = if i =? j then with_bits (nd nodes i) v else nd nodes j) as Hg
    by (intros j; apply nd_zset; lia).
  split; [done|]. split; [split|split; [by rewrite zlen_zset|split]].
  - by rewrite zlen_zset.
  - intros j. rewrite Hg. by destruct (Z.eqb_spec i j) as [->|].
  - intros j Hj. rewrite Hg, (proj2 (Z.eqb_neq i j)) by lia. done.
  - by rewrite Hg, Z.eqb_refl.
  - intros j Hj. by rewrite Hg, (proj2 (Z.eqb_neq i j)) by lia.
Qed.

Abbreviation bits_at nodes := (fun i => n_bits (nd nodes i)).

Lemma skip_target_ok nodes n : zlen nodes = 512 -> -1 <= n <= top -> n_bits (nd nodes (-1)) = 0 ->
  returns (fun r => -1 <= r <= n /\ n_bits (nd nodes r) <> T /\ forall j, r < j <= n -> n_bits (nd nodes j) = T)
    (skip_target T nodes n : res E Z).
Proof.
  intros Hl Hn H0. unfold skip_target. apply returns_loopM with
    (I := fun r => -1 <= r <= n /\ forall j, r < j <= n -> n_bits (nd nodes j) = T) (m := fun r => Z.to_nat (r + 1)).
  - split; [lia|]. intros j. lia.
  - unfold zlen in Hl. lia.
  - intros r [Hr Hj]. rewrite hn_ok by lia. cbn [mbind res_bind returns]. destruct (Z.eqb_spec (n_bits (nd nodes r)) T) as [He|He]; [|done].
    assert (r <> -1) by (intros ->; lia). split; [|lia]. split; [lia|]. intros j Hjr. destruct (Z.eq_dec j r) as [->|]; [done|]. apply Hj. lia.
Qed.

(** ** The cut *)

Section cut.
Context (nodes : list NodeElt) (Hl : zlen nodes = 512) (largest : Z).
Context (Hlarge : n_bits (nd nodes top) = largest) (HTL : T < largest <= 24) (H0 : n_bits (nd nodes (-1)) = 0).
Context (Hbits : forall i, 0 <= i <= top -> 1 <= n_bits (nd nodes i)).
Context (Hord : forall i j, 0 <= i -> i <= j -> j <= top -> n_bits (nd nodes i) <= n_bits (nd nodes j)).
Context (Hkraft : sumz (fun i => 2 ^ (largest - n_bits (nd nodes i))) ids = 2 ^ largest).

Abbreviation b0 i := (n_bits (nd nodes i)).
Abbreviation base := (2 ^ (largest - T)).
Abbreviation excess := (fun i => base - 2 ^ (largest - b0 i)).

Lemma bits_le_largest i : 0 <= i <= top -> b0 i <= largest.
Proof. intros Hi. rewrite <- Hlarge. apply Hord; lia. Qed.

(** The codes after [n] are cut. *)
Definition cut_at (st : list NodeElt * Z * Z) : Prop :=
  let '(nodes', cost, n) := st in
  relength nodes nodes' /\ -1 <= n <= top /\ (forall i, n < i <= top -> T < b0 i) /\
  (forall i, n_bits (nd nodes' i) = if (n <? i) && (i <=? top) then T else b0 i) /\
  cost = sumz excess (seqZ (n + 1) (top - n)).

Lemma excess_bound a n : 0 <= a -> 0 <= n -> a + n <= top + 1 -> (forall i, a <= i < a + n -> T < b0 i) ->
  0 <= sumz excess (seqZ a n) <= base * n /\ (0 < n -> 0 < sumz excess (seqZ a n) < base * n).
Proof.
  intros Ha Hn Hr Hb. assert (forall i, i ∈ seqZ a n -> 1 <= excess i <= base - 1) as Hi.
  { intros i Hi%elem_of_seqZ. pose proof (bits_le_largest i ltac:(lia)) as Hle. specialize (Hb i Hi). cbn beta.
    pose proof (Z.pow_lt_mono_r 2 (largest - b0 i) (largest - T) ltac:(lia) ltac:(lia) ltac:(lia)).
    pose proof (pow2_pos (largest - b0 i) ltac:(lia)). lia. }
  pose proof (sumz_le excess (fun _ => base - 1) (seqZ a n) ltac:(intros i Hie; apply (Hi i Hie))) as H1.
  pose proof (sumz_le (fun _ => 1) excess (seqZ a n) ltac:(intros i Hie; apply (Hi i Hie))) as H2.
  rewrite !sumz_const, zlen_seqZ in H1, H2 by lia. pose proof (pow2_pos (largest - T) ltac:(lia)). nia.
Qed.

Lemma base_bound : base * (top + 1) <= 2 ^ 24.
Proof.
  pose proof (pow2_pos (largest - T) ltac:(lia)). assert (base * (top + 1) <= base * 2 ^ T) by nia.
  rewrite <- pow2_add in H1 by lia. replace (largest - T + T) with largest in H1 by lia. pose proof (pow2_le largest 24 ltac:(lia)). lia.
Qed.

Lemma cut_turn_ok st : cut_at st ->
  returns (fun r => match r with
    | inl st' => cut_at st' /\ (Z.to_nat (st'.2 + 1) < Z.to_nat (st.2 + 1))%nat
    | inr st' => cut_at st' /\ n_bits (nd nodes st'.2) <= T
    end) (cut_turn T largest base st : res E _).
Proof.
  destruct st as [[nodes' cost] n]. intros (Hre & Hn & Hcut & Hb & Hcost). unfold cut_turn. pose proof (rl_len _ _ Hre) as Hl'.
  rewrite hn_ok by lia. cbn [mbind res_bind]. rewrite (Hb n), Z.ltb_irrefl. cbn [andb].
  destruct (Z.ltb_spec T (b0 n)) as [Hlt|Hge].
  2: { cbn [returns snd]. done. }
  assert (0 <= n) as Hn0 by (destruct (Z.eq_dec n (-1)) as [->|]; lia). pose proof (bits_le_largest n ltac:(lia)).
  rewrite shl_one_ok by lia. cbn [mbind res_bind].
  assert (wrap 8 T = T) as -> by (apply Z.mod_small; change (2 ^ 8) with 256; lia).
  destruct (set_bits_ok nodes' n (fun x => with_bits x T) T) as (nodes2 & -> & Hre2 & Hl2 & Hbn & Hbo); [lia|lia|done|].
  cbn [mbind res_bind returns snd]. split; [|lia].
  assert (seqZ n (top - (n - 1)) = n :: seqZ (n + 1) (top - n)) as Hseq.
  { rewrite seqZ_cons by lia. unfold Z.succ. f_equal. f_equal. lia. }
  assert (sumz excess (seqZ n (top - (n - 1))) = base - 2 ^ (largest - b0 n) + cost) as Hsum by (rewrite Hseq, sumz_cons, Hcost; done).
  assert (forall i, n - 1 < i <= top -> T < b0 i) as Hcut2 by (intros i Hi; destruct (Z.eq_dec i n) as [->|]; [done|apply Hcut; lia]).
  split_and!; [by apply (relength_trans _ nodes')|lia|lia|done| |].
  - intros i. destruct (Z.eq_dec i n) as [->|Hne].
    + by rewrite Hbn, (proj2 (Z.ltb_lt (n - 1) n)), (proj2 (Z.leb_le n top)) by lia.
    + rewrite Hbo, Hb by done. by destruct (Z.ltb_spec n i), (Z.ltb_spec (n - 1) i); try lia.
  - replace (n - 1 + 1) with n by lia. rewrite Hsum.
    pose proof (excess_bound n (top - (n - 1)) ltac:(lia) ltac:(lia) ltac:(lia) ltac:(intros; apply Hcut2; lia)) as [Hr _]. rewrite Hsum in Hr.
    pose proof base_bound. pose proof (pow2_pos (largest - T) ltac:(lia)). pose proof (pow2_pos (largest - b0 n) ltac:(lia)).
    pose proof (excess_bound (n + 1) (top - n) ltac:(lia) ltac:(lia) ltac:(lia) ltac:(intros; apply Hcut; lia)) as [Hr2 _]. rewrite <- Hcost in Hr2.
    change (2 ^ 24) with 16777216 in *. assert (base * (top - (n - 1)) <= base * (top + 1)) by nia.
    rewrite (i32_id (base - _)) by (change (2 ^ 31) with 2147483648; nia). rewrite i32_id by (change (2 ^ 31) with 2147483648; lia). lia.
Qed.

(** What the cut leaves: the cost in codes of the target's length, fewer than
    there are. *)
Lemma cut_done nodes' cost n : cut_at (nodes', cost, n) -> b0 n <= T ->
  exists c, cost = base * c /\ limited (bits_at nodes') c /\ 0 < c < sumz (full (bits_at nodes')) ids /\ 0 <= n /\ cost <= 2 ^ 24.
Proof.
  intros (Hre & Hn & Hcut & Hb & Hcost) Hbn.
  assert (n < top) as Hnt by (destruct (Z.eq_dec n top) as [->|]; lia).
  assert (forall i, 0 <= i <= top -> n_bits (nd nodes' i) = Z.min (b0 i) T) as Hmin.
  { intros i Hi. rewrite Hb. destruct (Z.ltb_spec n i); cbn [andb].
    - rewrite (proj2 (Z.leb_le i top)) by lia. specialize (Hcut i ltac:(lia)). lia.
    - pose proof (Hord i n ltac:(lia) ltac:(lia) ltac:(lia)). lia. }
  destruct (excess_bound (n + 1) (top - n) ltac:(lia) ltac:(lia) ltac:(lia) ltac:(intros; apply Hcut; lia)) as [Hr Hr'].
  specialize (Hr' ltac:(lia)). rewrite <- Hcost in Hr, Hr'.
  pose proof (pow2_pos (largest - T) ltac:(lia)) as Hbase. pose proof base_bound as Hbb.
  assert (2 ^ largest = base * 2 ^ T) as HLT by (rewrite <- pow2_add by lia; f_equal; lia).
  assert (sumz (fun i => 2 ^ (largest - n_bits (nd nodes' i))) ids = 2 ^ largest + cost) as Hsum.
  { rewrite <- Hkraft, Hcost. replace (top + 1) with (n + 1 + (top - n)) by lia. rewrite !(seqZ_app 0 (n + 1)), !sumz_app by lia. rewrite Z.add_0_l.
    assert (forall i, i ∈ seqZ (n + 1) (top - n) -> 2 ^ (largest - n_bits (nd nodes' i)) = 2 ^ (largest - b0 i) + excess i) as Hx.
    { intros i Hi%elem_of_seqZ. specialize (Hcut i ltac:(lia)). rewrite Hmin by lia. replace (Z.min (b0 i) T) with T by lia. lia. }
    rewrite (sumz_ext _ _ _ Hx). rewrite (sumz_ext (fun i => 2 ^ (largest - n_bits (nd nodes' i))) (fun i => 2 ^ (largest - b0 i)) (seqZ 0 (n + 1))).
    - pose proof (sumz_minus (fun i => 2 ^ (largest - b0 i) + excess i) excess (seqZ (n + 1) (top - n))) as Hm.
      rewrite (sumz_ext _ (fun i => 2 ^ (largest - b0 i))) in Hm by (intros; cbn beta; lia). lia.
    - intros i Hi%elem_of_seqZ. rewrite Hb. rewrite (proj2 (Z.ltb_ge n i)) by lia. done. }
  assert (sumz (share (bits_at nodes')) ids * base = 2 ^ largest + cost) as Hscale.
  { rewrite <- Hsum, (Z.mul_comm _ base), <- sumz_scale. apply sumz_ext. intros i Hi%ids_elem. cbn beta. specialize (Hbits i Hi). rewrite Hmin by done.
    rewrite <- pow2_add by lia. f_equal. lia. }
  remember (sumz (share (bits_at nodes')) ids - 2 ^ T) as c eqn:Hc.
  assert (cost = base * c) as Hcc by (rewrite Hc; rewrite Z.mul_sub_distr_l, (Z.mul_comm base (sumz _ _)), Hscale, HLT; lia).
  assert (0 < c) as Hc0 by (apply (Z.mul_pos_cancel_l base c); lia).
  assert (c < top - n) as Hc1 by (apply (Z.mul_lt_mono_pos_l base c (top - n)); lia).
  exists c. split; [done|]. split; [split|].
  - intros i Hi. specialize (Hbits i Hi). rewrite Hmin by done. lia.
  - intros i j Hi Hij Hj. pose proof (Hord i j Hi Hij Hj). rewrite !Hmin by lia. lia.
  - rewrite Hc. cbn beta. lia.
  - assert (top - n <= sumz (full (bits_at nodes')) ids) as Hfull.
    { replace (top + 1) with (n + 1 + (top - n)) by lia. rewrite (seqZ_app 0 (n + 1)), sumz_app by lia. rewrite Z.add_0_l.
      rewrite (sumz_ext _ (fun _ => 1) (seqZ (n + 1) _)).
      - rewrite sumz_const, zlen_seqZ by lia. pose proof (sumz_nonneg (full (bits_at nodes')) (seqZ 0 (n + 1)) ltac:(intros i _; cbn; by destruct (_ =? T))). lia.
      - intros i Hi%elem_of_seqZ. cbn beta. specialize (Hcut i ltac:(lia)). rewrite Hmin by lia. by rewrite (proj2 (Z.eqb_eq _ T)) by lia. }
    cbn beta in *. split; [lia|]. split.
    + destruct (Z.eq_dec n (-1)) as [->|]; [exfalso|lia].
      assert (sumz (share (bits_at nodes')) ids = top + 1) as Hall; [|cbn beta in *; lia].
      rewrite (sumz_ext _ (fun _ => 1)); [rewrite sumz_const, zlen_ids; lia|]. intros i Hi%ids_elem. cbn beta. specialize (Hcut i ltac:(lia)).
      rewrite Hmin by lia. replace (T - Z.min (b0 i) T) with 0 by lia. done.
    + assert (base * (top - n) <= base * (top + 1)) by (apply Z.mul_le_mono_nonneg_l; lia). lia.
Qed.
End cut.
End height.
