(* ===== verification/HufRepay.v ===== *)
(** * Repayment of the cut ([src/huf.rs], [huf_set_max_height])

    [rank_last] names the last symbol of each length below the target. A
    repayment lengthens one of them, an overshoot shortens codes of the
    target's length; both keep the table of ranks true to the lengths. *)

From S2P Require Import Prelude Words HufCStream HufCTable HufSort HufTree HufHeight.

Lemma highbit32_ok {E} c : 0 < c < 2 ^ 32 -> highbit32 c = (Ok (Z.log2 c) : res E Z).
Proof.
  intros Hc. unfold highbit32. rewrite (proj2 (Z.eqb_neq c 0)) by lia. cbn [negb rassert mbind res_bind].
  rewrite leading_zeros_log2 by lia. f_equal. lia.
Qed.

Section repay.
Context {E : Type} (top T : Z) (Htop : 1 <= top <= 255) (HT : 1 <= T <= 12) (Hfit : top + 1 <= 2 ^ T).

Abbreviation ids := (seqZ 0 (top + 1)).
Abbreviation full b := (fun i => if b i =? T then 1 else 0).
Abbreviation bits_at nodes := (fun i => n_bits (nd nodes i)).

(** ** The table of ranks *)

(** [v] is the last of the symbols from [lo] on whose length is [r] below the
    target. *)
Definition last_of (b : Z -> Z) (lo r v : Z) : Prop :=
  v = NO_SYMBOL /\ (forall i, lo <= i <= top -> b i <> T - r) \/
  lo <= v <= top /\ b v = T - r /\ forall j, v < j <= top -> b j <> T - r.

Record ranks (b : Z -> Z) (lo : Z) (rl : list Z) : Prop := {
  rk_len : zlen rl = 14;
  rk_at : forall r, 1 <= r <= 13 -> exists v, zget rl r = Some v /\ last_of b lo r v;
}.

Lemma last_of_no b lo r v : 0 <= lo -> last_of b lo r v -> (v =? NO_SYMBOL) = true -> forall i, lo <= i <= top -> b i <> T - r.
Proof. intros Hlo [[_ H]|[H _]] Hv%Z.eqb_eq; [done|]. unfold NO_SYMBOL in Hv. lia. Qed.

Lemma last_of_some b lo r v : 0 <= lo -> last_of b lo r v -> (v =? NO_SYMBOL) = false ->
  lo <= v <= top /\ b v = T - r /\ forall j, v < j <= top -> b j <> T - r.
Proof. intros Hlo [[H _]|H] Hv%Z.eqb_neq; done. Qed.

(** The scan that fills the table. *)
Lemma rank_last_ok nodes n : zlen nodes = 512 -> -1 <= n <= top -> (forall i, 0 <= i <= n -> 1 <= n_bits (nd nodes i) <= T) ->
  (forall i j, 0 <= i -> i <= j -> j <= n -> n_bits (nd nodes i) <= n_bits (nd nodes j)) ->
  (forall i, n < i <= top -> n_bits (nd nodes i) = T) ->
  returns (fun st => ranks (bits_at nodes) 0 st.1)
    (foldM (rank_last_step T nodes) (zrepeat NO_SYMBOL (HUF_CTABLELOG_MAX + 2), T) (reverse (seqZ 0 (n + 1))) : res E _).
Proof.
  intros Hl Hn Hr Ho Hfull. eapply returns_mono; [apply (returns_for_down (fun lo st => ranks (bits_at nodes) lo st.1 /\ st.2 <= T /\
    (forall i, lo <= i <= n -> st.2 <= n_bits (nd nodes i)) /\ (st.2 < T -> lo <= n /\ n_bits (nd nodes lo) = st.2)) _ _ 0 (n + 1))|].
  - lia.
  - cbn [fst snd]. split_and!; [split|lia|intros i; lia|lia].
    + change (HUF_CTABLELOG_MAX + 2) with 14. by apply zlen_zrepeat.
    + intros r Hrr. exists NO_SYMBOL. split; [apply zget_zrepeat; change (HUF_CTABLELOG_MAX + 2) with 14; lia|]. left. split; [done|].
      intros i Hi. rewrite Hfull; lia.
  - intros i [rl cur] Hi ([Hrl Hat] & Hcur & Hmin & Hlo). cbn [fst snd] in *. unfold rank_last_step. rewrite hn_ok by lia. cbn [mbind res_bind].
    pose proof (Hr i ltac:(lia)) as Hri. destruct (Z.leb_spec cur (n_bits (nd nodes i))) as [Hle|Hlt].
    + cbn [returns fst snd]. split_and!; [split; [done|]|done| |].
      * intros r Hrr. destruct (Hat r Hrr) as (v & Hv & Hlv). exists v. split; [done|]. destruct Hlv as [[-> Hno]|(Hv1 & Hv2 & Hv3)].
        -- left. split; [done|]. intros j Hj. destruct (Z.eq_dec j i) as [->|]; [|apply Hno; lia]. destruct (Z.lt_ge_cases cur T) as [Hc|Hc]; [|lia].
           destruct (Hlo Hc) as [Hn1 Hb1]. specialize (Hno (i + 1) ltac:(lia)). specialize (Ho i (i + 1) ltac:(lia) ltac:(lia) ltac:(lia)). lia.
        -- right. split_and!; [lia|lia|done|done].
      * intros j Hj. destruct (Z.eq_dec j i) as [->|]; [done|apply Hmin; lia].
      * intros Hc. destruct (Hlo Hc) as [Hn1 Hb1]. specialize (Ho i (i + 1) ltac:(lia) ltac:(lia) ltac:(lia)). lia.
    + rewrite store_ok by lia. cbn [mbind res_bind returns fst snd]. split_and!; [split|lia| |lia].
      * by rewrite zlen_zset.
      * intros r Hrr. rewrite zget_zset by lia. destruct (Z.eqb_spec (T - n_bits (nd nodes i)) r) as [<-|Hne].
        -- exists i. split; [done|]. right. split_and!; [lia|lia|lia|]. intros j Hj. destruct (Z.le_gt_cases j n) as [Hjn|Hjn].
           ++ specialize (Hmin j ltac:(lia)). lia.
           ++ rewrite (Hfull j) by lia. lia.
        -- destruct (Hat r Hrr) as (v & Hv & Hlv). exists v. split; [done|]. destruct Hlv as [[-> Hno]|(Hv1 & Hv2 & Hv3)].
           ++ left. split; [done|]. intros j Hj. destruct (Z.eq_dec j i) as [->|]; [lia|apply Hno; lia].
           ++ right. split_and!; [lia|lia|done|done].
      * intros j Hj. destruct (Z.eq_dec j i) as [->|]; [lia|]. specialize (Hmin j ltac:(lia)). lia.
  - intros st [H _]. done.
Qed.

(** ** The choice of the rank *)

Lemma seek_rank_ok nodes b rl c : zlen nodes = 512 -> ranks b 0 rl -> 0 < c < 256 ->
  returns (fun r => 1 <= r <= Z.log2 c + 1 /\ (1 < r -> exists v, zget rl r = Some v /\ (v =? NO_SYMBOL) = false))
    (loopM 33 (seek_rank nodes rl) (Z.log2 c + 1) : res E Z).
Proof.
  intros Hl [Hrl Hat] Hc. pose proof (Z.log2_nonneg c). pose proof (Z.log2_lt_pow2 c 8 ltac:(lia)) as Hlog. change (2 ^ 8) with 256 in Hlog.
  apply returns_loopM with (I := fun r => 1 <= r <= Z.log2 c + 1) (m := Z.to_nat); [lia|lia|].
  intros r Hr. unfold seek_rank. destruct (Z.ltb_spec 1 r) as [H1|H1]; [|cbn [returns]; split; lia].
  destruct (Hat r ltac:(lia)) as (v & Hv & Hlv). destruct (Hat (r - 1) ltac:(lia)) as (w & Hw & Hlw).
  rewrite (idx_ok _ _ _ Hv), (idx_ok _ _ _ Hw). cbn [mbind res_bind]. destruct (v =? NO_SYMBOL) eqn:Hvn; [cbn [returns]; lia|].
  assert (returns (fun r' => 1 <= r' <= Z.log2 c + 1 /\ (1 < r' -> exists v0, zget rl r' = Some v0 /\ (v0 =? NO_SYMBOL) = false)) (Ok r : res E Z))
    as Hdone by (cbn [returns]; split; [lia|eauto]).
  destruct (w =? NO_SYMBOL) eqn:Hwn; [done|].
  destruct (last_of_some b 0 _ _ ltac:(lia) Hlv Hvn) as (Hv1 & _ & _). destruct (last_of_some b 0 _ _ ltac:(lia) Hlw Hwn) as (Hw1 & _ & _).
  rewrite !hn_ok by lia. cbn [mbind res_bind]. destruct (_ <=? _); cbn [returns]; [done|lia].
Qed.

Lemma seek_up_ok b rl r0 r1 : ranks b 0 rl -> 1 <= r0 <= r1 -> r1 <= 12 -> (exists v, zget rl r1 = Some v /\ (v =? NO_SYMBOL) = false) ->
  returns (fun r => r0 <= r <= r1 /\ (exists v, zget rl r = Some v /\ (v =? NO_SYMBOL) = false) /\
      forall s, r0 <= s < r -> zget rl s = Some NO_SYMBOL)
    (loopM 14 (seek_up rl) r0 : res E Z).
Proof.
  intros [Hrl Hat] H0 H1 (v1 & Hv1 & Hn1).
  apply returns_loopM with (I := fun r => r0 <= r <= r1 /\ forall s, r0 <= s < r -> zget rl s = Some NO_SYMBOL) (m := fun r => Z.to_nat (13 - r)); [split; [lia|intros s; lia]|lia|].
  intros r [Hr Hs]. unfold seek_up. change HUF_CTABLELOG_MAX with 12. rewrite (proj2 (Z.leb_le r 12)) by lia.
  destruct (Hat r ltac:(lia)) as (v & Hv & _). rewrite (idx_ok _ _ _ Hv). cbn [mbind res_bind returns].
  destruct (v =? NO_SYMBOL) eqn:Hvn; [|split_and!; [lia|lia|eauto|done]]. apply Z.eqb_eq in Hvn as ->.
  assert (r <> r1) by (intros ->; rewrite Hv in Hv1; by injection Hv1 as <-). split; [|lia]. split; [lia|].
  intros s Hsr. destruct (Z.eq_dec s r) as [->|]; [done|apply Hs; lia].
Qed.
(** The table after the last symbol [i] of the rank [r] is lengthened. *)
Lemma ranks_longer b b' rl i r w : ranks b 0 rl -> 1 <= r <= 13 -> 0 <= i <= top -> b i = T - r -> (forall j, i < j <= top -> b i < b j) ->
  (forall j, 0 <= j < i -> b j <= b i) -> (forall j k, 0 <= j -> j <= k -> k < i -> b j <= b k) ->
  b' i = b i + 1 -> (forall j, j <> i -> b' j = b j) -> last_of b' 0 r w ->
  forall below, zget rl (r - 1) = Some below ->
  ranks b' 0 (zset (if below =? NO_SYMBOL then zset rl (r - 1) i else rl) r w).
Proof.
  intros [Hrl Hat] Hr Hi Hb Hgt Hle Hord Hbi Hbj Hw below Hbelow.
  assert (zlen (if below =? NO_SYMBOL then zset rl (r - 1) i else rl) = 14) as Hl' by (destruct (below =? NO_SYMBOL); by rewrite ?zlen_zset).
  split; [by rewrite zlen_zset|]. intros s Hs. rewrite zget_zset by lia. destruct (Z.eqb_spec r s) as [<-|Hrs]; [by exists w|].
  destruct (Hat s Hs) as (v & Hv & Hlv). destruct (Z.eq_dec s (r - 1)) as [->|Hs1].
  - rewrite Hbelow in Hv. injection Hv as ->. destruct (v =? NO_SYMBOL) eqn:Hvn.
    + exists i. rewrite zget_zset_eq by lia. split; [done|]. right. split_and!; [lia|lia|lia|]. intros j Hj. rewrite Hbj by lia.
      apply (last_of_no b 0 _ v); [lia|done|done|lia].
    + exists v. split; [done|]. destruct (last_of_some b 0 _ _ ltac:(lia) Hlv Hvn) as (Hv1 & Hv2 & Hv3).
      right. assert (v <> i) by (intros ->; lia). split_and!; [lia|lia|rewrite Hbj by done; lia|].
      intros j Hj. assert (i < v) by (destruct (Z.lt_ge_cases v i); [specialize (Hle v ltac:(lia)); lia|lia]). rewrite Hbj by lia. by apply Hv3.
  - exists v. split; [destruct (below =? NO_SYMBOL); [rewrite zget_zset_ne by lia|]; done|].
    assert (forall j, 0 <= j <= top -> b' j <> T - s <-> b j <> T - s) as Hiff.
    { intros j Hj. destruct (Z.eq_dec j i) as [->|]; [lia|by rewrite Hbj]. }
    destruct Hlv as [[-> Hno]|(Hv1 & Hv2 & Hv3)].
    + left. split; [done|]. intros j Hj. apply Hiff; [done|]. by apply Hno.
    + right. assert (v <> i) by (intros ->; lia). split_and!; [lia|lia|by rewrite Hbj|]. intros j Hj. apply Hiff; [lia|]. by apply Hv3.
Qed.

(** ** A repayment *)

(** A cost smaller than the number of the codes of the target's length, or
    none left but what they can take back. *)
Definition payable (b : Z -> Z) (c : Z) : Prop :=
  0 < c < sumz (full b) ids \/
  c <= 0 /\ - c < sumz (full b) ids /\ (c < 0 -> exists i, 0 <= i <= top /\ b i < T).

Definition repaying (nodes0 : list NodeElt) (n : Z) (st : list NodeElt * list Z * Z) : Prop :=
  let '(nodes, rl, c) := st in
  relength top nodes0 nodes /\ limited top T (bits_at nodes) c /\ ranks (bits_at nodes) 0 rl /\
  (forall i, n < i <= top -> n_bits (nd nodes i) = T) /\ payable (bits_at nodes) c.

(** The cost after a repayment at the rank [r], the lowest that is not empty
    when it is above the cost. *)
Lemma payable_longer b b' c r i : limited top T b c -> 0 < c < sumz (full b) ids -> 1 <= r < T -> 0 <= i <= top -> b i = T - r -> b' i = b i + 1 ->
  sumz (full b) ids <= sumz (full b') ids ->
  (r <= Z.log2 c + 1 \/ forall j, 0 <= j <= top -> b j < T -> r <= T - b j) ->
  payable b' (c - 2 ^ (r - 1)).
Proof.
  intros Hlim Hc Hr Hi Hb Hb' Hfull Hcase. pose proof (pow2_pos (r - 1) ltac:(lia)).
  assert (2 ^ (r - 1) - c < sumz (full b) ids) as Hback.
  { destruct Hcase as [Hlow|Hlow]; [|apply (limited_enough top T) with (c := c); [done..|lia|done]].
    pose proof (Z.log2_spec c ltac:(lia)). pose proof (pow2_le (r - 1) (Z.log2 c) ltac:(lia)). lia. }
  destruct (Z.lt_ge_cases 0 (c - 2 ^ (r - 1))) as [Hpos|Hneg]; [left; lia|right]. split_and!; [lia|lia|]. intros Hlt.
  exists i. split; [done|]. destruct (Z.eq_dec r 1) as [->|]; [change (2 ^ (1 - 1)) with 1 in Hlt; lia|lia].
Qed.

(** The rank found: none below it when it is not at most the cost's. *)
Lemma seek_ok nodes b rl c : zlen nodes = 512 -> ranks b 0 rl -> limited top T b c -> 0 < c < 256 ->
  returns (fun r => 1 <= r < T /\ (exists i, zget rl r = Some i /\ (i =? NO_SYMBOL) = false) /\
      (r <= Z.log2 c + 1 \/ forall j, 0 <= j <= top -> b j < T -> r <= T - b j))
    (nb ← loopM 33 (seek_rank nodes rl) (Z.log2 c + 1);
     p ← idx rl nb;
     _ ← rassert (negb (p =? NO_SYMBOL) || (nb =? 1));
     loopM 14 (seek_up rl) nb : res E Z).
Proof.
  intros Hl Hrk Hlim Hc. pose proof Hrk as [Hrl Hat]. pose proof (lm_range _ _ _ _ Hlim) as Hrange.
  eapply returns_bind; [exact (seek_rank_ok nodes b rl c Hl Hrk Hc)|]. intros r0 (Hr0 & Hr0').
  assert (forall r v, 1 <= r <= 13 -> zget rl r = Some v -> (v =? NO_SYMBOL) = false -> r < T) as Hin.
  { intros r v Hr Hv Hvn. destruct (Hat r Hr) as (v' & Hv' & Hlv). rewrite Hv in Hv'. injection Hv' as <-.
    destruct (last_of_some b 0 r v ltac:(lia) Hlv Hvn) as (Hi & Hb & _). specialize (Hrange v Hi). lia. }
  pose proof (Z.log2_lt_pow2 c 8 ltac:(lia)) as Hlog. change (2 ^ 8) with 256 in Hlog.
  assert (exists r1 v1, r0 <= r1 < T /\ zget rl r1 = Some v1 /\ (v1 =? NO_SYMBOL) = false) as (r1 & v1 & Hr1 & Hv1 & Hn1).
  { destruct (Z.eq_dec r0 1) as [->|Hne].
    - destruct (limited_short top T Htop HT Hfit b c Hlim ltac:(lia)) as (i & Hi & Hb). specialize (Hrange i Hi).
      destruct (Hat (T - b i) ltac:(lia)) as (v & Hv & Hlv). exists (T - b i), v. split; [lia|]. split; [done|].
      destruct (v =? NO_SYMBOL) eqn:Hvn; [|done]. exfalso. apply (last_of_no b 0 _ v ltac:(lia) Hlv Hvn i); lia.
    - destruct (Hr0' ltac:(lia)) as (v & Hv & Hvn). exists r0, v. split; [|done]. specialize (Hin r0 v ltac:(lia) Hv Hvn). lia. }
  destruct (Hat r0 ltac:(lia)) as (v0 & Hv0 & Hlv0). rewrite (idx_ok _ _ _ Hv0). cbn [mbind res_bind].
  assert (negb (v0 =? NO_SYMBOL) || (r0 =? 1) = true) as ->.
  { destruct (Z.eqb_spec r0 1) as [|Hne]; [by rewrite orb_true_r|]. destruct (Hr0' ltac:(lia)) as (v & Hv & Hvn).
    rewrite Hv in Hv0. injection Hv0 as <-. by rewrite Hvn. }
  cbn [rassert mbind res_bind]. eapply returns_mono; [apply (seek_up_ok b rl r0 r1 Hrk); [lia|lia|eauto]|].
  intros r (Hr & Hv & Hs). split; [lia|]. split; [done|]. destruct (Z.eq_dec r r0) as [->|Hne]; [left; lia|right].
  assert (r0 = 1) as ->.
  { destruct (Z.eq_dec r0 1); [done|]. destruct (Hr0' ltac:(lia)) as (w & Hw & Hwn). rewrite (Hs r0) in Hw by lia. injection Hw as <-. done. }
  intros j Hj Hbj. destruct (Z.lt_ge_cases (T - b j) r) as [Hlt|]; [|lia]. exfalso. pose proof (Hs (T - b j) ltac:(lia)) as Hno.
  destruct (Hat (T - b j) ltac:(lia)) as (w & Hw & Hlw). rewrite Hno in Hw. injection Hw as <-.
  apply (last_of_no b 0 _ NO_SYMBOL ltac:(lia) Hlw eq_refl j); lia.
Qed.

Lemma repay_turn_ok nodes0 n st : zlen nodes0 = 512 -> repaying nodes0 n st ->
  returns (fun r => match r with
    | inl st' => repaying nodes0 n st' /\ (Z.to_nat st'.2 < Z.to_nat st.2)%nat
    | inr st' => st' = st /\ st.2 <= 0
    end) (repay_turn T st : res E _).
Proof.
  destruct st as [[nodes rl] c]. intros Hl0 (Hre & Hlim & Hrk & Hn & Hpay). unfold repay_turn. pose proof (rl_len _ _ _ Hre) as Hl.
  destruct (Z.ltb_spec 0 c) as [Hc|Hc]; [|cbn [returns snd]; done].
  destruct Hpay as [Hpay|]; [|lia]. pose proof (full_range top T Htop (bits_at nodes)) as Hfr. pose proof Hrk as [Hrl Hat].
  assert (wrap 32 c = c) as -> by (apply Z.mod_small; change (2 ^ 32) with 4294967296; lia).
  rewrite (highbit32_ok c) by (change (2 ^ 32) with 4294967296; lia). cbn [mbind res_bind].
  destruct (returns_inv _ _ (seek_ok nodes _ rl c ltac:(lia) Hrk Hlim ltac:(lia))) as (r & Hseek & Hr & (i & Hi & Hin) & Hcase).
  assert (forall {B} (f : Z -> res E B), (nb ← loopM 33 (seek_rank nodes rl) (Z.log2 c + 1); p ← idx rl nb;
     _ ← rassert (negb (p =? NO_SYMBOL) || (nb =? 1)); nb ← loopM 14 (seek_up rl) nb; f nb) = f r) as Hs.
  { intros B f. revert Hseek. repeat (match goal with |- ?m ≫= _ = _ -> _ => destruct m as [?| | |]; cbn [mbind res_bind]; [|done..] end).
    destruct (loopM 14 _ _); cbn [mbind res_bind]; [|done..]. by intros [= ->]. }
  rewrite Hs. clear Hs. rewrite (idx_ok _ _ _ Hi). cbn [mbind res_bind]. rewrite Hin. cbn [negb rassert mbind res_bind].
  destruct (Hat r ltac:(lia)) as (i' & Hi' & Hlast). rewrite Hi in Hi'. injection Hi' as <-.
  destruct (last_of_some (bits_at nodes) 0 _ _ ltac:(lia) Hlast Hin) as (Hir & Hbi & Hgt).
  rewrite shl_one_ok by lia. cbn [mbind res_bind].
  pose proof (lm_order _ _ _ _ Hlim) as Ho. pose proof (lm_range _ _ _ _ Hlim i Hir) as Hbr. pose proof (pow2_pos (r - 1) ltac:(lia)) as Hp1. pose proof (pow2_le (r - 1) 12 ltac:(lia)) as Hp2. change (2 ^ 12) with 4096 in Hp2.
  rewrite (i32_id (c - _)) by (change (2 ^ 31) with 2147483648; lia).
  assert (forall j, i < j <= top -> n_bits (nd nodes i) < n_bits (nd nodes j)) as Hstrict.
  { intros j Hj. specialize (Ho i j ltac:(lia) ltac:(lia) ltac:(lia)). specialize (Hgt j Hj). cbn beta in *. lia. }
  assert (wadd 8 (n_bits (nd nodes i)) 1 = n_bits (nd nodes i) + 1) as Hw8 by (apply Z.mod_small; change (2 ^ 8) with 256; lia).
  destruct (set_bits_ok (E := E) top T Htop HT nodes i (fun x => with_bits x (wadd 8 (n_bits x) 1)) (n_bits (nd nodes i) + 1) ltac:(lia) ltac:(lia) ltac:(cbn beta; by rewrite Hw8))
    as (nodes' & -> & Hre' & Hl' & Hbi' & Hbj').
  cbn [mbind res_bind].
  assert (exists below, zget rl (r - 1) = Some below) as [below Hbelow] by (apply zget_is_Some; lia).
  rewrite (idx_ok _ _ _ Hbelow). cbn [mbind res_bind].
  assert ((if below =? NO_SYMBOL then store rl (r - 1) i else Ok rl) = (Ok (if below =? NO_SYMBOL then zset rl (r - 1) i else rl) : res E _)) as ->
    by (destruct (below =? NO_SYMBOL); [apply store_ok; lia|done]).
  cbn [mbind res_bind]. set (rl2 := if below =? NO_SYMBOL then zset rl (r - 1) i else rl).
  assert (zlen rl2 = 14) as Hl2 by (unfold rl2; destruct (below =? NO_SYMBOL); by rewrite ?zlen_zset).
  set (w := if i =? 0 then NO_SYMBOL else if n_bits (nd nodes' (i - 1)) =? T - r then i - 1 else NO_SYMBOL).
  assert ((if i =? 0 then store rl2 r NO_SYMBOL else prev ← hn nodes' (i - 1); store rl2 r (if n_bits prev =? wsub 32 T r then i - 1 else NO_SYMBOL))
    = (Ok (zset rl2 r w) : res E _)) as ->.
  { unfold w. destruct (i =? 0); [apply store_ok; lia|]. rewrite hn_ok by lia. cbn [mbind res_bind].
    assert (wsub 32 T r = T - r) as -> by (apply Z.mod_small; change (2 ^ 32) with 4294967296; lia). apply store_ok; lia. }
  cbn [mbind res_bind returns snd].
  assert (forall j, j <> i -> n_bits (nd nodes' j) = n_bits (nd nodes j)) as Hb' by (intros j Hj; by rewrite Hbj').
  destruct (limited_longer top T HT (bits_at nodes) (bits_at nodes') c i Hlim Hir) as [Hlim' Hfull]; [cbn; lia|done|done|done|].
  replace (T - n_bits (nd nodes i) - 1) with (r - 1) in Hlim' by (cbn beta in *; lia).
  split; [|lia]. split_and!; [by apply (relength_trans top _ nodes)|done| | |].
  - apply (ranks_longer (bits_at nodes) _ rl i r w); try done; try lia.
    + intros j Hj. apply Ho; lia.
    + intros j k Hj Hjk Hk. apply Ho; lia.
    + unfold w. destruct (Z.eqb_spec i 0) as [->|Hi0].
      * left. split; [done|]. intros j Hj. destruct (Z.eq_dec j 0) as [->|]; [cbn beta in *; lia|]. rewrite Hb' by done. specialize (Hgt j ltac:(lia)). done.
      * assert (forall j, i <= j <= top -> n_bits (nd nodes' j) <> T - r) as Hup.
        { intros j Hj. destruct (Z.eq_dec j i) as [->|]; [cbn beta in *; lia|]. rewrite Hb' by done. apply Hgt. lia. }
        destruct (Z.eqb_spec (n_bits (nd nodes' (i - 1))) (T - r)) as [Heq|Hne].
        -- right. split_and!; [lia|lia|done|]. intros j Hj. apply Hup. lia.
        -- left. split; [done|]. intros j Hj. destruct (Z.lt_ge_cases j i) as [Hlt|]; [|apply Hup; lia].
           rewrite Hb' in * by lia. pose proof (Ho j (i - 1) ltac:(lia) ltac:(lia) ltac:(lia)). pose proof (Ho (i - 1) i ltac:(lia) ltac:(lia) ltac:(lia)). cbn beta in *. lia.
  - intros j Hj. assert (j <> i) by (intros ->; specialize (Hn i Hj); cbn beta in *; lia). rewrite Hb' by done. by apply Hn.
  - by apply (payable_longer (bits_at nodes) _ c r i).
Qed.

Lemma repay_ok nodes0 n nodes rl c : zlen nodes0 = 512 -> repaying nodes0 n (nodes, rl, c) -> 0 < c ->
  returns (fun st => repaying nodes0 n st /\ st.2 <= 0) (loopM (Z.to_nat c + 1) (repay_turn T) (nodes, rl, c) : res E _).
Proof.
  intros Hl0 Hst Hc. apply returns_loopM with (I := repaying nodes0 n) (m := fun st => Z.to_nat st.2); [done|cbn; lia|].
  intros st Hs. eapply returns_mono; [apply (repay_turn_ok nodes0 n st Hl0 Hs)|]. intros [st'|st'] H; [done|]. by destruct H as [-> H].
Qed.

(** ** An overshoot *)

Definition overshooting (nodes0 : list NodeElt) (st : list NodeElt * list Z * Z * Z) : Prop :=
  let '(nodes, rl, c, n) := st in
  relength top nodes0 nodes /\ limited top T (bits_at nodes) c /\ c <= 0 /\ - c < sumz (full (bits_at nodes)) ids /\
  zlen rl = 14 /\ exists v, zget rl 1 = Some v /\ last_of (bits_at nodes) 0 1 v /\
    (v = NO_SYMBOL -> -1 <= n <= top /\ (forall i, n < i <= top -> n_bits (nd nodes i) = T) /\
      (c < 0 -> exists i, 0 <= i <= top /\ n_bits (nd nodes i) < T)).

(** The shorter code is the last of its length. *)
Lemma overshoot_shorter nodes0 nodes rl c n n' v : zlen nodes0 = 512 -> relength top nodes0 nodes -> limited top T (bits_at nodes) c ->
  c < 0 -> - c < sumz (full (bits_at nodes)) ids -> zlen rl = 14 -> 0 <= v <= top -> n_bits (nd nodes v) < T ->
  (forall i, v < i <= top -> n_bits (nd nodes i) = T) -> n' = v + 1 ->
  exists nodes', hn_upd nodes (v + 1) (fun x => with_bits x (wsub 8 (n_bits x) 1)) = (Ok nodes' : res E _) /\
    overshooting nodes0 (nodes', zset rl 1 n', c + 1, n).
Proof.
  intros Hl0 Hre Hlim Hc Hfull Hrl Hv Hbv Hup ->. pose proof (rl_len _ _ _ Hre) as Hl.
  assert (0 < sumz (full (bits_at nodes)) ids) as Hpos by (cbn beta in *; lia).
  destruct (full_exists top T (bits_at nodes) Hpos) as (i & Hi & Hbi).
  pose proof (lm_range _ _ _ _ Hlim) as Hr. pose proof (lm_order _ _ _ _ Hlim) as Ho.
  assert (v < i) as Hvi by (destruct (Z.lt_ge_cases v i); [done|specialize (Ho i v ltac:(lia) ltac:(lia) ltac:(lia)); cbn beta in *; lia]).
  pose proof (Hup (v + 1) ltac:(lia)) as Hb1. pose proof (Hr v Hv) as Hbr. cbn beta in Hbr.
  assert (wsub 8 (n_bits (nd nodes (v + 1))) 1 = T - 1) as Hw8 by (rewrite Hb1; apply Z.mod_small; change (2 ^ 8) with 256; lia).
  destruct (set_bits_ok (E := E) top T Htop HT nodes (v + 1) (fun x => with_bits x (wsub 8 (n_bits x) 1)) (T - 1) ltac:(lia) ltac:(lia) ltac:(cbn beta; by rewrite Hw8))
    as (nodes' & -> & Hre' & Hl' & Hbi' & Hbj'). exists nodes'. split; [done|].
  assert (forall j, j <> v + 1 -> n_bits (nd nodes' j) = n_bits (nd nodes j)) as Hb' by (intros j Hj; by rewrite Hbj').
  destruct (limited_shorter top T HT (bits_at nodes) (bits_at nodes') c (v + 1) Hlim ltac:(lia) Hb1 ltac:(lia)) as [Hlim' Hfull']; [|done|done|].
  { intros j Hj. specialize (Ho j v ltac:(lia) ltac:(lia) ltac:(lia)). cbn beta in *. lia. }
  split_and!; [by apply (relength_trans top _ nodes)|done|lia|rewrite Hfull'; cbn beta in *; lia|by rewrite zlen_zset|].
  exists (v + 1). rewrite zget_zset_eq by lia. split; [done|]. split; [|unfold NO_SYMBOL; lia]. right. split_and!; [lia|lia|lia|].
  intros j Hj. rewrite Hb', Hup by lia. lia.
Qed.

Lemma overshoot_turn_ok nodes0 st : zlen nodes0 = 512 -> n_bits (nd nodes0 (-1)) = 0 -> overshooting nodes0 st ->
  returns (fun r => match r with
    | inl st' => overshooting nodes0 st' /\ (Z.to_nat (- st'.1.2) < Z.to_nat (- st.1.2))%nat
    | inr nodes => relength top nodes0 nodes /\ limited top T (bits_at nodes) 0 /\ 0 < sumz (full (bits_at nodes)) ids
    end) (overshoot_turn T st : res E _).
Proof.
  destruct st as [[[nodes rl] c] n]. intros Hl0 H0 (Hre & Hlim & Hc & Hfull & Hrl & v & Hv & Hlv & Hno). unfold overshoot_turn.
  pose proof (rl_len _ _ _ Hre) as Hl. pose proof (full_range top T Htop (bits_at nodes)) as Hfr.
  destruct (Z.ltb_spec c 0) as [Hneg|Hpos]; [|cbn [returns]; replace c with 0 in * by lia; done].
  rewrite (idx_ok _ _ _ Hv). cbn [mbind res_bind]. rewrite (i32_id (c + 1)) by (change (2 ^ 31) with 2147483648; lia).
  pose proof (lm_range _ _ _ _ Hlim) as Hr. pose proof (lm_order _ _ _ _ Hlim) as Ho. destruct (v =? NO_SYMBOL) eqn:Hvn.
  - apply Z.eqb_eq in Hvn as ->. destruct (Hno eq_refl) as (Hn & Hup & Hex). destruct (Hex Hneg) as (i & Hi & Hbi).
    assert (n_bits (nd nodes (-1)) = 0) as H0' by (rewrite (rl_bits _ _ _ Hre) by lia; done).
    eapply returns_bind; [exact (skip_target_ok top T Htop HT nodes n ltac:(lia) Hn H0')|]. intros m (Hm & Hbm & Hmn).
    assert (forall j, m < j <= top -> n_bits (nd nodes j) = T) as Hall
      by (intros j Hj; destruct (Z.le_gt_cases j n); [apply Hmn; lia|apply Hup; lia]).
    assert (i <= m) as Him by (destruct (Z.le_gt_cases i m); [done|specialize (Hall i ltac:(lia)); lia]).
    pose proof (Hr m ltac:(lia)) as Hrm. cbn beta in Hrm.
    destruct (overshoot_shorter nodes0 nodes rl c m (wrap 32 (m + 1)) m Hl0 Hre Hlim ltac:(lia) Hfull Hrl ltac:(lia) ltac:(lia) Hall) as (nodes' & -> & Hst).
    { apply Z.mod_small. change (2 ^ 32) with 4294967296. lia. }
    cbn [mbind res_bind]. rewrite (proj2 (Z.leb_le 0 m)) by lia. cbn [rassert mbind res_bind]. rewrite store_ok by lia. cbn [mbind res_bind returns fst snd].
    split; [done|lia].
  - destruct (last_of_some (bits_at nodes) 0 _ _ ltac:(lia) Hlv Hvn) as (Hvr & Hbv & Hgt). cbn beta in Hbv.
    assert (forall j, v < j <= top -> n_bits (nd nodes j) = T) as Hall.
    { intros j Hj. specialize (Hgt j Hj). specialize (Ho v j ltac:(lia) ltac:(lia) ltac:(lia)). specialize (Hr j ltac:(lia)). cbn beta in *. lia. }
    destruct (overshoot_shorter nodes0 nodes rl c n (wadd 32 v 1) v Hl0 Hre Hlim ltac:(lia) Hfull Hrl Hvr ltac:(lia) Hall) as (nodes' & -> & Hst).
    { apply Z.mod_small. change (2 ^ 32) with 4294967296. lia. }
    cbn [mbind res_bind]. rewrite store_ok by lia. cbn [mbind res_bind returns fst snd]. split; [done|lia].
Qed.

Lemma overshoot_ok nodes0 nodes rl c n : zlen nodes0 = 512 -> n_bits (nd nodes0 (-1)) = 0 -> overshooting nodes0 (nodes, rl, c, n) ->
  returns (fun nodes => relength top nodes0 nodes /\ limited top T (bits_at nodes) 0 /\ 0 < sumz (full (bits_at nodes)) ids)
    (loopM (Z.to_nat (- c) + 1) (overshoot_turn T) (nodes, rl, c, n) : res E _).
Proof.
  intros Hl0 H0 Hst. apply returns_loopM with (I := overshooting nodes0) (m := fun st => Z.to_nat (- st.1.2)); [done|cbn; lia|].
  intros st Hs. apply (overshoot_turn_ok nodes0 st Hl0 H0 Hs).
Qed.
End repay.

(** ** The limit *)

(** The lengths after: of a complete code, none above the target. *)
Record limits (top T : Z) (nodes : list NodeElt) (r : list NodeElt * Z) : Prop := {
  li_depth : r.2 = Z.min T (n_bits (nd nodes top));
  li_relength : relength top nodes r.1;
  li_limited : limited top r.2 (fun i => n_bits (nd r.1 i)) 0;
  li_full : exists i, 0 <= i <= top /\ n_bits (nd r.1 i) = r.2;
}.

(** The base cost, a power of two, divides the cost. *)
Lemma wsub_base largest T : 0 <= largest - T < 24 -> wsub 32 (wrap 32 (2 ^ (largest - T))) 1 = 2 ^ (largest - T) - 1.
Proof.
  intros H. pose proof (pow2_pos (largest - T) ltac:(lia)). pose proof (pow2_le (largest - T) 24 ltac:(lia)) as Hle. change (2 ^ 24) with 16777216 in Hle.
  unfold wsub, wrap. change (2 ^ 32) with 4294967296. by rewrite !Z.mod_small by (rewrite ?Z.mod_small; lia).
Qed.

Lemma land_base k c : 0 <= k < 24 -> 0 <= 2 ^ k * c <= 2 ^ 24 -> Z.land (wrap 32 (2 ^ k * c)) (2 ^ k - 1) = 0.
Proof.
  change (2 ^ 24) with 16777216. intros Hk Hc. unfold wrap. change (2 ^ 32) with 4294967296. rewrite Z.mod_small by lia.
  pose proof (pow2_pos k ltac:(lia)). replace (2 ^ k - 1) with (Z.ones k) by (rewrite Z.ones_equiv; lia).
  rewrite Z.land_ones by lia. rewrite Z.mul_comm. by apply Z.mod_mul; lia.
Qed.

Lemma shiftr_base k c : 0 <= k -> Z.shiftr (2 ^ k * c) k = c.
Proof. intros Hk. pose proof (pow2_pos k Hk). rewrite Z.shiftr_div_pow2, Z.mul_comm, Z.div_mul by lia. done. Qed.

Lemma set_max_height_cut_ok {E} top T nodes largest : 1 <= top <= 255 -> 1 <= T <= 12 -> top + 1 <= 2 ^ T -> zlen nodes = 512 ->
  n_bits (nd nodes top) = largest -> T < largest <= 24 -> n_bits (nd nodes (-1)) = 0 ->
  (forall i, 0 <= i <= top -> 1 <= n_bits (nd nodes i)) ->
  (forall i j, 0 <= i -> i <= j -> j <= top -> n_bits (nd nodes i) <= n_bits (nd nodes j)) ->
  sumz (fun i => 2 ^ (largest - n_bits (nd nodes i))) (seqZ 0 (top + 1)) = 2 ^ largest ->
  returns (fun r => r.2 = T /\ relength top nodes r.1 /\ limited top T (fun i => n_bits (nd r.1 i)) 0 /\
    exists i, 0 <= i <= top /\ n_bits (nd r.1 i) = T) (huf_set_max_height nodes top T : res E _).
Proof.
  intros Htop HT Hfit Hl Hlarge HTL H0 Hbits Hord Hkraft. unfold huf_set_max_height. rewrite hn_ok by lia. cbn [mbind res_bind].
  rewrite Hlarge. destruct (Z.leb_spec largest T) as [|_]; [lia|]. rewrite shl_one_ok by lia. cbn [mbind res_bind].
  set (base := 2 ^ (largest - T)). pose proof (pow2_pos (largest - T) ltac:(lia)) as Hbase. fold base in Hbase.
  eapply returns_bind.
  { apply returns_loopM with (I := cut_at top T nodes largest) (m := fun st => Z.to_nat (st.2 + 1))
      (Q := fun st => cut_at top T nodes largest st /\ n_bits (nd nodes st.2) <= T).
    - split_and!; [apply relength_refl|lia|lia|lia| |].
      + intros i. destruct (Z.ltb_spec top i), (Z.leb_spec i top); done || lia.
      + rewrite Z.sub_diag. done.
    - cbn. unfold zlen in Hl. lia.
    - intros st Hst. exact (cut_turn_ok top T Htop HT Hfit nodes Hl largest Hlarge HTL H0 Hord st Hst). }
  intros [[nodes1 cost] n] [Hcut Hbn]. cbn [snd] in Hbn.
  destruct (cut_done top T Htop HT Hfit nodes largest Hlarge HTL Hbits Hord Hkraft nodes1 cost n Hcut Hbn) as (c & Hcost & Hlim & Hc & Hn & Hcb).
  pose proof Hcut as (Hre1 & Hn1 & Hcut1 & Hb1 & _). pose proof (rl_len _ _ _ Hre1) as Hl1.
  rewrite (hn_ok nodes1 n) by lia. cbn [mbind res_bind].
  rewrite (Hb1 n), Z.ltb_irrefl. cbn [andb]. rewrite (proj2 (Z.leb_le _ T) Hbn). cbn [rassert mbind res_bind].
  assert (n_bits (nd nodes1 (-1)) = 0) as H01 by (by rewrite (rl_bits _ _ _ Hre1) by lia).
  eapply returns_bind; [exact (skip_target_ok top T Htop HT nodes1 n ltac:(lia) ltac:(lia) H01)|]. intros m (Hm & Hbm & Hmn).
  unfold base in *. rewrite (wsub_base largest T), Hcost, land_base, shiftr_base by lia. cbn [rassert mbind res_bind].
  rewrite Z.eqb_refl. cbn [rassert mbind res_bind]. rewrite (proj2 (Z.ltb_lt 0 c)) by lia. cbn [rassert mbind res_bind].
  assert (forall i, m < i <= top -> n_bits (nd nodes1 i) = T) as Hup.
  { intros i Hi. destruct (Z.le_gt_cases i n); [apply Hmn; lia|]. rewrite Hb1, (proj2 (Z.ltb_lt n i)), (proj2 (Z.leb_le i top)) by lia. done. }
  pose proof (lm_range _ _ _ _ Hlim) as Hr. pose proof (lm_order _ _ _ _ Hlim) as Ho. cbn beta in Hr, Ho.
  eapply returns_bind; [apply (rank_last_ok top T Htop HT nodes1 m); [lia|lia|intros; apply Hr; lia|intros; apply Ho; lia|done]|].
  intros [rl cur] Hrk. cbn [fst] in Hrk.
  eapply returns_bind; [apply (repay_ok top T Htop HT Hfit nodes m nodes1 rl c Hl); [|lia]; split_and!; [done|done|done|done|by left]|].
  intros [[nodes2 rl2] c2] [(Hre2 & Hlim2 & Hrk2 & Hup2 & Hpay2) Hc2]. cbn [snd] in Hc2.
  eapply returns_bind; [apply (overshoot_ok top T Htop HT nodes nodes2 rl2 c2 m Hl H0)|].
  - destruct Hpay2 as [|(_ & Hfull2 & Hex2)]; [lia|]. destruct (rk_at _ _ _ _ _ Hrk2 1 ltac:(lia)) as (v & Hv & Hlv).
    split_and!; [done|done|lia|done|by destruct Hrk2|]. exists v. split; [done|]. split; [done|]. intros _. split; [lia|]. done.
  - intros nodes3 (Hre3 & Hlim3 & Hf3). cbn [returns fst snd]. split_and!; try done. by apply (full_exists top T) in Hf3.
Qed.

(** [huf_set_max_height]. *)
Lemma set_max_height_ok {E} top T nodes : 1 <= top <= 255 -> 1 <= T <= 12 -> top + 1 <= 2 ^ T -> zlen nodes = 512 ->
  n_bits (nd nodes top) <= 24 -> n_bits (nd nodes (-1)) = 0 ->
  (forall i, 0 <= i <= top -> 1 <= n_bits (nd nodes i)) ->
  (forall i j, 0 <= i -> i <= j -> j <= top -> n_bits (nd nodes i) <= n_bits (nd nodes j)) ->
  sumz (fun i => 2 ^ (n_bits (nd nodes top) - n_bits (nd nodes i))) (seqZ 0 (top + 1)) = 2 ^ n_bits (nd nodes top) ->
  returns (limits top T nodes) (huf_set_max_height nodes top T : res E _).
Proof.
  intros Htop HT Hfit Hl HL H0 Hbits Hord Hkraft. destruct (Z.le_gt_cases (n_bits (nd nodes top)) T) as [Hle|Hgt].
  - unfold huf_set_max_height. rewrite hn_ok by lia. cbn [mbind res_bind]. rewrite (proj2 (Z.leb_le _ T) Hle). cbn [returns].
    split; cbn [fst snd]; [lia|apply relength_refl| |exists top; split; [lia|done]]. split; [|done|by rewrite Z.add_0_r].
    intros i Hi. split; [by apply Hbits|apply Hord; lia].
  - eapply returns_mono; [apply (set_max_height_cut_ok top T nodes (n_bits (nd nodes top))); done || lia|].
    intros r (Hd & Hre & Hlim & Hex). split; [lia|done|by rewrite Hd|by rewrite Hd].
Qed.
