(* ===== verification/HufBuild.v ===== *)
(** * The table of a count ([src/huf.rs], [build_ctable])

    The sort, the tree, the limit and the codes together: the table's codes
    are canonical, of a complete code within the limit, for exactly the
    symbols that occur, the more frequent ones no longer. *)

From S2P Require Import Prelude Words HufWeights HufCStream HufCTable HufCanon HufSort HufBuckets.
From S2P Require Import HufTree HufHeight HufRepay.

(** ** Tables by symbol *)

Lemma enumerate_of_keys {A} (ps : list (Z * A)) (l : list A) : fst <$> ps = seqZ 0 (zlen ps) -> l = snd <$> ps -> ps = enumerate l.
Proof.
  intros Hk ->. apply list_eq. intros k. unfold enumerate. rewrite list_lookup_imap, list_lookup_fmap.
  destruct (ps !! k) as [[s x]|] eqn:He; [|done]. cbn. assert ((fst <$> ps) !! k = Some s) as Hs by (by rewrite list_lookup_fmap, He).
  rewrite Hk in Hs. apply lookup_seqZ in Hs as [-> _]. done.
Qed.

(** Pairs whose keys are all the symbols are a table by symbol. *)
Lemma keyed_enumerate {A} (ps : list (Z * A)) n : 0 <= n -> fst <$> ps ≡ₚ seqZ 0 n -> exists l, ps ≡ₚ enumerate l /\ zlen l = n.
Proof.
  intros Hn Hp. assert (zlen ps = n) as Hl.
  { transitivity (zlen (fst <$> ps)); [by rewrite zlen_fmap|]. unfold zlen. rewrite Hp. rewrite length_seqZ. lia. }
  symmetry in Hp. destruct (Permutation_map_inv _ _ Hp) as (qs & Hq & Hpq).
  exists (snd <$> qs). assert (zlen qs = n) as Hlq by (unfold zlen in *; rewrite <- Hpq; done).
  split; [|by rewrite zlen_fmap]. rewrite <- (enumerate_of_keys qs); [done| |done]. change (map fst qs) with (fst <$> qs) in Hq. by rewrite Hlq, <- Hq.
Qed.

Lemma enumerate_fst {A} (l : list A) : fst <$> enumerate l = seqZ 0 (zlen l).
Proof.
  apply list_eq. intros k. unfold enumerate. rewrite list_lookup_fmap, list_lookup_imap. destruct (l !! k) as [x|] eqn:Hk.
  - cbn. symmetry. apply lookup_seqZ. apply lookup_lt_Some in Hk. unfold zlen. lia.
  - cbn. symmetry. apply lookup_seqZ_ge. apply lookup_ge_None in Hk. unfold zlen. lia.
Qed.

Lemma sumz_split f n k : 0 <= k <= n -> (forall i, k <= i < n -> f i = 0) -> sumz f (seqZ 0 n) = sumz f (seqZ 0 k).
Proof.
  intros Hk Hz. replace n with (k + (n - k)) by lia. rewrite seqZ_app, sumz_app by lia.
  rewrite (sumz_ext f (fun _ => 0) (seqZ (0 + k) _)); [rewrite sumz_const; lia|]. intros i Hi%elem_of_seqZ. apply Hz. lia.
Qed.

(** The shares of the lengths as a sum over their places. *)
Lemma kraft_sum L (b : Z -> Z) lens (l : list Z) : 1 <= L -> lens ≡ₚ b <$> l -> (forall i, i ∈ l -> 0 <= b i <= L) ->
  kraft (weights_of L lens) = sumz (fun i => if b i =? 0 then 0 else 2 ^ (L - b i)) l.
Proof.
  intros HL Hp Hb. assert (forall l1 l2, l1 ≡ₚ l2 -> kraft l1 = kraft l2) as Hk.
  { unfold kraft. induction 1; cbn [foldr]; lia. }
  rewrite (Hk _ (weights_of L (b <$> l))) by (unfold weights_of; by rewrite Hp). clear Hp Hk.
  induction l as [|i l IH]; [done|]. rewrite sumz_cons, <- IH by (intros; apply Hb; by right).
  specialize (Hb i ltac:(by left)). unfold weights_of, kraft. rewrite !fmap_cons. cbn [foldr]. f_equal.
  destruct (Z.eqb_spec (b i) 0); [apply cell_share_0|]. rewrite cell_share_pow by lia. f_equal. lia.
Qed.

(** ** The lengths of a count *)

(** What the lengths of a table promise of a count: a code for exactly the
    symbols that occur, never longer for a symbol that occurs more. *)
Record coded_for (cs lens : list Z) : Prop := {
  cf_len : zlen lens = zlen cs;
  cf_some : forall s c n, zget cs s = Some c -> zget lens s = Some n -> n <> 0 <-> 0 < c;
  cf_order : forall s s' c c' n n', zget cs s = Some c -> zget cs s' = Some c' -> zget lens s = Some n -> zget lens s' = Some n' ->
    0 < c -> c < c' -> n' <= n;
}.

Section lengths.
Context (cs : list Z) (nodes : list NodeElt) (Hs : sorted_nodes cs nodes).
Context (Hcs : Forall (fun c => 0 <= c < 2 ^ 32) cs) (Hlen : 1 <= zlen cs <= 256).
Context (r total : Z) (Hr : 1 <= r <= zlen cs - 1) (ext : list Z) (nodes1 : list NodeElt) (Htree : tree r total nodes nodes1 ext).
Context (Hcount : forall i, 0 <= i <= zlen cs - 1 -> 0 < n_count (nd nodes i) <-> i <= r).
Context (T L : Z) (nodes2 : list NodeElt) (Hlim : limits r T nodes1 (nodes2, L)) (HL : 1 <= L <= 12).

Abbreviation b i := (n_bits (nd nodes2 i)).
Abbreviation ids := (seqZ 0 (zlen cs)).

Lemma lengths_byte i : n_byte (nd nodes2 i) = n_byte (nd nodes i).
Proof. pose proof (li_relength _ _ _ _ Hlim) as Hre. cbn [fst] in Hre. rewrite (rl_byte _ _ _ Hre i). apply (tr_byte _ _ _ _ _ Htree). Qed.

Lemma lengths_dead i : r < i < zlen cs -> b i = 0.
Proof.
  intros Hi. pose proof (li_relength _ _ _ _ Hlim) as Hre. cbn [fst] in Hre. rewrite (rl_bits _ _ _ Hre i) by lia.
  rewrite (tr_other _ _ _ _ _ Htree) by lia. destruct (sorted_body cs nodes Hs Hlen) as (body & Hb & Hg & _ & Hp & _).
  assert (nd nodes i ∈ node_of <$> enumerate cs) as Hin.
  { rewrite <- Hp. apply list_elem_of_lookup. exists (Z.to_nat i). apply zget_Some. apply Hg. lia. }
  by apply list_elem_of_fmap in Hin as ([n c] & -> & _).
Qed.

Lemma lengths_range i : 0 <= i < zlen cs -> 0 <= b i <= L /\ (b i <> 0 <-> i <= r).
Proof.
  intros Hi. destruct (Z.le_gt_cases i r) as [Hle|Hgt].
  - pose proof (lm_range _ _ _ _ (li_limited _ _ _ _ Hlim) i ltac:(lia)) as Hb. cbn in Hb. lia.
  - rewrite lengths_dead by lia. lia.
Qed.

(** The symbols with their counts and lengths, in the order of the table. *)
Lemma lengths_symbol i : 0 <= i < zlen cs -> zget cs (n_byte (nd nodes2 i)) = Some (n_count (nd nodes i)).
Proof.
  intros Hi. rewrite lengths_byte. destruct (sorted_body cs nodes Hs Hlen) as (body & Hb & Hg & _ & Hp & _).
  assert (nd nodes i ∈ node_of <$> enumerate cs) as Hin.
  { rewrite <- Hp. apply list_elem_of_lookup. exists (Z.to_nat i). apply zget_Some. apply Hg. lia. }
  apply list_elem_of_fmap in Hin as ([n c] & -> & Hin). by apply elem_of_enumerate in Hin.
Qed.

Lemma lengths_pairs : exists lens, (fun i => (n_byte (nd nodes2 i), b i)) <$> ids ≡ₚ enumerate lens /\ zlen lens = zlen cs.
Proof.
  apply keyed_enumerate; [lia|]. destruct (sorted_body cs nodes Hs Hlen) as (body & Hb & Hg & _ & Hp & _).
  transitivity (n_byte <$> body).
  - rewrite <- list_fmap_compose. match goal with |- ?x ≡ₚ ?y => assert (x = y) as ->; [|done] end.
    apply zlist_eq; [rewrite !zlen_fmap, zlen_seqZ; lia|]. intros i Hi. rewrite zlen_fmap, zlen_seqZ in Hi by lia.
    rewrite !zget_fmap, seqZ_zget, Hg by lia. cbn. by rewrite lengths_byte.
  - rewrite Hp, <- (enumerate_fst cs), <- list_fmap_compose. done.
Qed.

Lemma zdrop_nodes n : zlen nodes2 = 512 -> 0 <= n <= 511 -> ztake n (zdrop 1 nodes2) = (fun i => nd nodes2 i) <$> seqZ 0 n.
Proof.
  intros Hl Hn. assert (zlen (zdrop 1 nodes2) = 511) as Hd by (rewrite zlen_zdrop; lia).
  apply zlist_eq; [rewrite zlen_fmap, zlen_seqZ, zlen_ztake by lia; lia|]. intros i Hi. rewrite zlen_ztake in Hi by lia. rewrite zget_ztake, zget_zdrop, zget_fmap, seqZ_zget by lia.
  cbn. unfold nd. rewrite (Z.add_comm 1). destruct (zget_is_Some nodes2 (i + 1) ltac:(lia)) as [x Hx]. rewrite Z.add_0_l, Hx. done.
Qed.

(** The table of nodes holds the lengths of a complete code for the count. *)
Lemma lengths_ok : exists lens, nodes_hold nodes2 r (zlen cs - 1) lens /\ huf_lens L lens /\ coded_for cs lens.
Proof.
  destruct lengths_pairs as (lens & Hp & Hll). exists lens.
  assert (zlen nodes2 = 512) as Hl2 by (pose proof (rl_len _ _ _ (li_relength _ _ _ _ Hlim)) as H2; cbn in H2; rewrite (tr_len _ _ _ _ _ Htree) in H2; lia).
  assert (forall s n, zget lens s = Some n -> exists i, 0 <= i < zlen cs /\ n_byte (nd nodes2 i) = s /\ b i = n) as Hat.
  { intros s n Hn. apply elem_of_enumerate in Hn. rewrite <- Hp in Hn. apply list_elem_of_fmap in Hn as (i & [= -> ->] & Hi%elem_of_seqZ). exists i. split; [lia|done]. }
  assert (lens ≡ₚ (fun i => b i) <$> ids) as Hlens by (rewrite <- (enumerate_snd lens), <- Hp, <- list_fmap_compose; done).
  split; [|split].
  - split; [done|lia|lia| |].
    + rewrite zdrop_nodes by lia. rewrite <- list_fmap_compose. by replace (zlen cs - 1 + 1) with (zlen cs) by lia.
    + rewrite zdrop_nodes by lia. apply Forall_forall. intros x Hx. apply list_elem_of_lookup in Hx as [k Hk]. rewrite <- zget_nat in Hk.
      pose proof (zget_lt _ _ _ Hk) as Hkr. rewrite zlen_zdrop, zlen_fmap, zlen_seqZ in Hkr by (rewrite ?zlen_fmap, ?zlen_seqZ by lia; lia).
      rewrite zget_zdrop, zget_fmap, seqZ_zget in Hk by lia. injection Hk as <-. apply lengths_dead. lia.
  - split; [lia|lia| | |].
    + rewrite Hlens. apply Forall_fmap, Forall_forall. intros i Hi%elem_of_seqZ. apply lengths_range. lia.
    + rewrite (kraft_sum L (fun i => b i) lens ids) by (lia || done || (intros i Hi%elem_of_seqZ; apply lengths_range; lia)).
      rewrite (sumz_split _ (zlen cs) (r + 1)) by (lia || (intros i Hi; rewrite lengths_dead by lia; done)).
      pose proof (lm_sum _ _ _ _ (li_limited _ _ _ _ Hlim)) as Hsum. cbn [fst snd] in Hsum. rewrite Z.add_0_r in Hsum. rewrite <- Hsum.
      apply sumz_ext. intros i Hi%elem_of_seqZ. rewrite (proj2 (Z.eqb_neq (b i) 0)) by (apply lengths_range; lia). done.
    + destruct (li_full _ _ _ _ Hlim) as (i & Hi & Hbi). cbn [fst snd] in Hbi. rewrite Hlens, <- Hbi. apply list_elem_of_fmap. exists i. split; [done|].
      apply elem_of_seqZ. lia.
  - split; [done| |].
    + intros s c n Hc Hn. destruct (Hat s n Hn) as (i & Hi & <- & <-). rewrite lengths_symbol in Hc by lia. injection Hc as <-.
      rewrite Hcount by lia. apply lengths_range. lia.
    + intros s s' c c' n n' Hc Hc' Hn Hn' H0 Hlt. destruct (Hat s n Hn) as (i & Hi & <- & <-). destruct (Hat s' n' Hn') as (j & Hj & <- & <-).
      rewrite lengths_symbol in Hc, Hc' by lia. injection Hc as <-. injection Hc' as <-. apply Hcount in H0; [|lia].
      assert (j < i) as Hji.
      { destruct (Z.lt_ge_cases j i) as [|Hij]; [done|]. pose proof (sorted_counts cs nodes Hs Hcs Hlen i j ltac:(lia) Hij ltac:(lia)). lia. }
      pose proof (lm_order _ _ _ _ (li_limited _ _ _ _ Hlim) j i ltac:(lia) ltac:(lia) ltac:(lia)) as Ho. exact Ho.
Qed.
End lengths.

(** ** [build_ctable] *)

(** A table of canonical codes for a count. *)
Definition table_for (cs : list Z) (ms limit : Z) (t : HufTable) : Prop :=
  exists lens, he_log t <= limit /\ he_max t = ms /\ huf_lens (he_log t) lens /\ canon_elts (he_log t) lens (elts t) /\ coded_for cs lens.

Lemma build_ctable_ok {E} table count ms limit : zlen (elts table) = 256 -> 0 <= ms <= 255 -> ms < zlen count ->
  Forall (fun c => 0 <= c < 2 ^ 32) count -> sumz (fun c => c) (ztake (ms + 1) count) <= 2 ^ 17 ->
  1 <= limit <= 12 -> 2 <= nonzero (ztake (ms + 1) count) <= 2 ^ limit ->
  returns (fun o => exists t, o = Some t /\ table_for (ztake (ms + 1) count) ms limit t)
    (huf_build_ctable table count ms limit : res E _).
Proof.
  intros He Hms Hlc Hc Htotal Hlimit Hnz. unfold huf_build_ctable. rewrite (proj2 (Z.eqb_neq limit 0)) by lia.
  change HUF_SYMBOLVALUE_MAX with 255. rewrite (proj2 (Z.leb_le ms 255)) by lia. cbn [rassert mbind res_bind].
  eapply returns_bind; [apply huf_sort_ok; [lia|done|done]|]. set (cs := ztake (ms + 1) count) in *. intros nodes Hs.
  assert (zlen cs = ms + 1) as Hl by (apply zlen_ztake; lia). assert (Forall (fun c => 0 <= c < 2 ^ 32) cs) as Hcs by by apply Forall_take.
  assert (2 ^ 17 < 2 ^ 30) as Hp by done.
  pose proof (huf_build_tree_ok (E := E) cs nodes Hs Hcs ltac:(lia) ltac:(lia) ltac:(lia)) as Htree. replace (zlen cs - 1) with ms in Htree by lia.
  eapply returns_bind; [exact Htree|]. intros [nodes1 r] ([ext Ht] & Hr & Hcount). clear Htree.
  assert (r + 1 <= nonzero cs) as Hrn by (apply (nonzero_from cs nodes Hs ltac:(lia)); [lia|intros j Hj; assert (0 < n_count (nd nodes j)) by (apply Hcount; lia); lia]).
  pose proof (fun i => tree_shallow r _ nodes nodes1 ext Ht i Htotal) as Hsh. pose proof (tree_order r _ ltac:(lia) nodes nodes1 ext Ht) as Ho.
  destruct (sorted_body cs nodes Hs ltac:(lia)) as (_ & _ & _ & Hdef & _).
  eapply returns_bind; [apply (set_max_height_ok r limit nodes1); try lia|].
  - exact (tr_len _ _ _ _ _ Ht).
  - apply Hsh. lia.
  - rewrite (tr_other _ _ _ _ _ Ht) by lia. by rewrite Hdef by lia.
  - intros i Hi. apply Hsh. lia.
  - done.
  - apply (tree_kraft r (sumz (fun c => c) cs) ltac:(lia) nodes nodes1 ext Ht). intros i Hi. apply Ho; lia.
  - intros [nodes2 L] Hlim. pose proof (li_depth _ _ _ _ Hlim) as HL. cbn [snd] in HL. pose proof (Hsh r ltac:(lia)) as Hbr.
    change HUF_CTABLELOG_MAX with 12. rewrite (proj2 (Z.ltb_ge 12 L)) by lia.
    destruct (lengths_ok cs nodes Hs Hcs ltac:(lia) r _ ltac:(lia) ext nodes1 Ht) with (T := limit) (L := L) (nodes2 := nodes2) as (lens & Hh & Hlens & Hcoded); [|done|lia|].
    { intros i Hi. apply Hcount. lia. }
    replace (zlen cs - 1) with ms in Hh by lia.
    eapply returns_bind; [apply (build_from_tree_ok L lens Hlens nodes2 r ms Hh table He)|].
    intros t (Ht1 & Ht2 & Ht3). cbn [returns]. exists t. split; [done|]. exists lens. rewrite Ht1. split_and!; [lia|done|done|done|done].
Qed.

(** C40: building a Huffman table for a block's counts (at most 2^17 symbols,
    two of them present, few enough for the limit) always succeeds: the sort,
    the tree and the length limit return a table no deeper than the limit,
    whose lengths form a complete prefix code of exactly the symbols that
    occur, a more frequent symbol's code is never longer than a rarer one's,
    and the code words are the canonical ones the decoder rebuilds from the
    lengths alone. *)
Theorem build_ctable_correct {E} table count ms limit : zlen (elts table) = 256 -> 0 <= ms <= 255 -> ms < zlen count ->
  Forall (fun c => 0 <= c < 2 ^ 32) count -> sumz (fun c => c) (ztake (ms + 1) count) <= 2 ^ 17 ->
  1 <= limit <= 12 -> 2 <= nonzero (ztake (ms + 1) count) <= 2 ^ limit ->
  exists t lens, (huf_build_ctable table count ms limit : res E _) = Ok (Some t) /\ he_log t <= limit /\ he_max t = ms /\
    huf_lens (he_log t) lens /\ canon_elts (he_log t) lens (elts t) /\ coded_for (ztake (ms + 1) count) lens.
Proof.
  intros. destruct (returns_inv _ _ (build_ctable_ok (E := E) table count ms limit ltac:(done) ltac:(done) ltac:(done) ltac:(done) ltac:(done) ltac:(done) ltac:(done)))
    as (o & Ho & t & -> & lens & Ht). by exists t, lens.
Qed.

Definition skewed_counts : list Z := [1; 2; 0; 5; 13; 40; 120; 400].

Lemma build_ctable_correct_witness : exists t lens,
  (huf_build_ctable huf_table_default skewed_counts 7 4 : res unit _) = Ok (Some t) /\ he_log t <= 4 /\ he_max t = 7 /\
  huf_lens (he_log t) lens /\ canon_elts (he_log t) lens (elts t) /\ coded_for (ztake (7 + 1) skewed_counts) lens.
Proof.
  apply build_ctable_correct; try done. repeat (constructor; [lia|]). constructor.
Defined.
