(* ===== verification/HufLiterals.v ===== *)
(** * The literals section ([src/huf.rs], [ZSTD_compressLiterals])

    The description of a Huffman tree ([write_ctable]), the choice of its
    depth, and the literals section: raw, one byte repeated, or Huffman
    streams with a new tree or the one the decoder holds. What a function
    appends to [out] is its result; an error's output is thrown away by every
    caller. *)

From S2P Require Import Prelude Words Constants FrameWrite FseEncode FseNorm Entropy Histogram Params SeqEncode.
From S2P Require Import HufCStream HufCTable.

Definition MAX_FSE_TABLELOG_FOR_HUFF_HEADER : Z := 6.

Section literals.
Context {E : Type}.

(** ** The tree's description *)

(** [count[w as usize] += 1; max_symbol = max_symbol.max(w as usize)]. *)
Definition count_weight (st : list Z * Z) (w : Z) : res E (list Z * Z) :=
  let '(count, max_symbol) := st in
  c ← idx count w;
  count ← store count w (wadd 32 c 1);
  Ok (count, Z.max max_symbol w).

(** [compress_weights]: the size it returns, and what it appends. *)
Definition compress_weights (weights : list Z) : res E (option (Z * list Z)) :=
  let wt_size := zlen weights in
  if wt_size <=? 1 then Ok (Some (0, []))
  else
    '(count, max_symbol) ← foldM count_weight (zrepeat 0 (HUF_CTABLELOG_MAX + 1), 0) weights;
    used ← slice count 0 (max_symbol + 1);
    let max_count := foldr Z.max 0 used in
    if max_count =? wt_size then Ok (Some (1, []))
    else if max_count =? 1 then Ok (Some (0, []))
    else
      table_log ← optimal_table_log MAX_FSE_TABLELOG_FOR_HUFF_HEADER wt_size max_symbol;
      r ← ok_opt (normalize_count (zrepeat 0 (HUF_CTABLELOG_MAX + 1)) table_log count wt_size max_symbol false);
      match r with
      | None => Ok None
      | Some (norm, _) =>
          header ← ok_opt (write_ncount norm max_symbol table_log);
          match header with
          | None => Ok None
          | Some header =>
              ct ← ct_build ctable_default norm max_symbol table_log;
              body ← compress_using_ctable ct weights;
              if zlen body =? 0 then Ok (Some (0, []))
              else Ok (Some (zlen header + zlen body, header ++ body))
          end
      end.

(** The weight of a code length. *)
Definition huff_weight (table : HufTable) (huff_log n : Z) : res E Z :=
  nb ← huf_nb_bits table n;
  Ok (if nb =? 0 then 0 else wrap 8 (wsub 32 (wadd 32 huff_log 1) nb)).

(** The raw weights, two to a byte. *)
Definition pack_weights (weights : list Z) (max_symbol : Z) : res E (list Z) :=
  foldM (fun out i =>
    let n := 2 * i in
    a ← idx weights n;
    b ← idx weights (n + 1);
    Ok (out ++ [wadd 8 (wshl 8 a 4) b])) [] (seqZ 0 (div_ceil max_symbol 2)).

(** [write_ctable]: the description, of the size it returns. *)
Definition write_ctable (table : HufTable) (max_symbol huff_log : Z) : res E (option (list Z)) :=
  _ ← rassert (he_max table =? max_symbol);
  _ ← rassert (he_log table =? huff_log);
  if HUF_SYMBOLVALUE_MAX <? max_symbol then Ok None
  else
    weights ← foldM (fun ws n => w ← huff_weight table huff_log n; store ws n w)
      (zrepeat 0 (HUF_SYMBOLVALUE_MAX + 1)) (seqZ 0 max_symbol);
    used ← slice weights 0 max_symbol;
    r ← compress_weights used;
    match r with
    | None => Ok None
    | Some (h_size, body) =>
        if (1 <? h_size) && (h_size <? max_symbol / 2) then Ok (Some (wrap 8 h_size :: body))
        else if 256 - 128 <? max_symbol then Ok None
        else
          weights ← store weights max_symbol 0;
          packed ← pack_weights weights max_symbol;
          Ok (Some (wrap 8 (128 + (max_symbol - 1)) :: packed))
    end.

(** ** Streams after a description *)

(** [compress_ctable_internal]: everything from [ostart], the [header] that
    is there included, or nothing for its 0. *)
Definition compress_ctable_internal (header src : list Z) (single_stream : bool) (table : HufTable) : res E (list Z) :=
  c ← (if single_stream then compress_1x_using_ctable src table else compress_4x_using_ctable src table);
  let out := header ++ c in
  Ok (if (zlen c =? 0) || (wsub 64 (zlen src) 1 <=? zlen out) then [] else out).

Definition SUSPECT_INCOMPRESSIBLE_SAMPLE_SIZE : Z := 4096.
Definition SUSPECT_INCOMPRESSIBLE_SAMPLE_RATIO : Z := 10.

Record HufFlags := MkHufFlags {
  prefer_repeat : bool;
  optimal_depth : bool;
  suspect_uncompressible : bool;
}.

(** One depth probed: the table, the smallest size and its depth, and the
    next depth; or the depth chosen. *)
Definition probe_depth (max_table_log min_table_log max_symbol : Z) (count : list Z) (st : HufTable * Z * Z * Z)
    : res E (HufTable * Z * Z * Z + Z) :=
  let '(table, opt_size, opt_log, guess) := st in
  if max_table_log <? guess then Ok (inr opt_log)
  else
    r ← huf_build_ctable table count max_symbol guess;
    match r with
    | None => Ok (inl (table, opt_size, opt_log, guess + 1))
    | Some table =>
        let max_bits := he_log table in
        if (max_bits <? guess) && (min_table_log <? guess) then Ok (inr opt_log)
        else
          h ← write_ctable table max_symbol max_bits;
          match h with
          | None => Ok (inl (table, opt_size, opt_log, guess + 1))
          | Some h =>
              size ← estimate_compressed_size table count max_symbol;
              let new_size := size + zlen h in
              if opt_size + 1 <? new_size then Ok (inr opt_log)
              else if new_size <? opt_size then Ok (inl (table, new_size, guess, guess + 1))
              else Ok (inl (table, opt_size, opt_log, guess + 1))
          end
    end.

(** [optimal_table_log] of this file. *)
Definition huf_optimal_table_log (max_table_log src_size max_symbol : Z) (count : list Z) (optimal_depth : bool) : res E Z :=
  _ ← rassert (1 <? src_size);
  if negb optimal_depth then optimal_table_log_internal max_table_log src_size max_symbol 1
  else
    used ← slice count 0 (max_symbol + 1);
    let cardinality := zlen (filter (fun c => c <> 0) used) in
    h ← highbit32 (wrap 32 cardinality);
    let min_table_log := h + 1 in
    opt_log ← loopM (Z.to_nat max_table_log + 2) (probe_depth max_table_log min_table_log max_symbol count)
      (huf_table_default, 2 ^ 64 - 2, max_table_log, min_table_log);
    _ ← rassert (opt_log <=? HUF_CTABLELOG_MAX);
    Ok opt_log.

(** The samples of a suspect input: not worth it. *)
Definition suspect_samples (src : list Z) : res E bool :=
  first ← slice src 0 SUSPECT_INCOMPRESSIBLE_SAMPLE_SIZE;
  '(count, largest_begin, _) ← hist_count (zrepeat 0 256) first HUF_SYMBOLVALUE_MAX;
  last ← slice_from src (zlen src - SUSPECT_INCOMPRESSIBLE_SAMPLE_SIZE);
  '(_, largest_end, _) ← hist_count count last HUF_SYMBOLVALUE_MAX;
  Ok (largest_begin + largest_end <=? Z.shiftr (2 * SUSPECT_INCOMPRESSIBLE_SAMPLE_SIZE) 7 + 4).

(** What [compress_internal] returns and leaves: the size with what it
    appends, the spare table, and the table's use. *)
Definition huf_result : Type := option (Z * list Z) * HufTable * Repeat.

(** The end of [compress_internal]: streams of the table [t]. *)
Definition streams_with (header src : list Z) (single_stream : bool) (t spare : HufTable) (repeat : Repeat) : res E huf_result :=
  out ← compress_ctable_internal header src single_stream t;
  Ok (Some (zlen out, out), spare, repeat).

(** Its second half: a new table is built, and the old one compared. *)
Definition compress_new (src : list Z) (single_stream : bool) (old : option HufTable) (spare : HufTable)
    (repeat : Repeat) (flags : HufFlags) (count : list Z) (max_symbol_value : Z) : res E huf_result :=
  let src_size := zlen src in
  huff_log ← huf_optimal_table_log HUF_TABLELOG_DEFAULT src_size max_symbol_value count (optimal_depth flags);
  r ← huf_build_ctable spare count max_symbol_value huff_log;
  match r with
  | None => Ok (None, spare, repeat)
  | Some spare =>
      h ← write_ctable spare max_symbol_value (he_log spare);
      match h with
      | None => Ok (None, spare, repeat)
      | Some header =>
          let h_size := zlen header in
          let fresh :=
            if src_size <=? h_size + 12 then Ok (Some (0, []), spare, repeat)
            else streams_with header src single_stream spare spare RNone in
          if bool_decide (repeat <> RNone) then
            match old with
            | None => Ok (None, spare, repeat)
            | Some old =>
                old_size ← estimate_compressed_size old count max_symbol_value;
                new_size ← estimate_compressed_size spare count max_symbol_value;
                if (old_size <=? h_size + new_size) || (src_size <=? h_size + 12) then
                  streams_with [] src single_stream old spare repeat
                else fresh
            end
          else fresh
      end
  end.

(** [compress_internal]. *)
Definition compress_internal (src : list Z) (single_stream : bool) (old : option HufTable) (spare : HufTable)
    (repeat : Repeat) (flags : HufFlags) : res E huf_result :=
  let src_size := zlen src in
  if src_size =? 0 then Ok (Some (0, []), spare, repeat)
  else if ZSTD_BLOCKSIZE_MAX <? src_size then Ok (None, spare, repeat)
  else if prefer_repeat flags && bool_decide (repeat = RValid) then
    match old with
    | None => Ok (None, spare, repeat)
    | Some old => streams_with [] src single_stream old spare repeat
    end
  else
    skip ← (if suspect_uncompressible flags
               && (SUSPECT_INCOMPRESSIBLE_SAMPLE_SIZE * SUSPECT_INCOMPRESSIBLE_SAMPLE_RATIO <=? src_size)
            then suspect_samples src else Ok false);
    if skip : bool then Ok (Some (0, []), spare, repeat)
    else
      '(count, largest, max_symbol_value) ← hist_count (zrepeat 0 256) src HUF_SYMBOLVALUE_MAX;
      if largest =? src_size then Ok (Some (1, []), spare, repeat)
      else if largest <=? Z.shiftr src_size 7 + 4 then Ok (Some (0, []), spare, repeat)
      else
        valid ← (match old with
                 | Some t => if bool_decide (repeat = RCheck) then validate_ctable t count max_symbol_value else Ok true
                 | None => Ok false
                 end);
        let repeat := if bool_decide (repeat = RCheck) && negb valid then RNone else repeat in
        if prefer_repeat flags && bool_decide (repeat <> RNone) then
          match old with
          | None => Ok (None, spare, repeat)
          | Some old => streams_with [] src single_stream old spare repeat
          end
        else compress_new src single_stream old spare repeat flags count max_symbol_value.
End literals.

(** ** Sections *)

(** [min_literals_to_compress]. *)
Definition min_literals_to_compress (strategy : Strategy) (repeat : Repeat) : Z :=
  let shift := Z.min (9 - strategy_id strategy) 3 in
  if bool_decide (repeat = RValid) then 6 else Z.shiftl 8 shift.

Definition HUF_OPTIMAL_DEPTH_THRESHOLD : Strategy := BtUltra.
Definition SUSPECT_UNCOMPRESSIBLE_LITERAL_RATIO : Z := 20.

(** [literals_compression_is_disabled]. *)
Definition literals_compression_is_disabled (cparams : CParams) : bool :=
  bool_decide (strategy cparams = Fast) && (0 <? target_length cparams).

(** [literals_section_bound]. *)
Definition literals_section_bound (lit_len : Z) : Z :=
  lit_len + (1 + Z.b2z (31 <? lit_len) + Z.b2z (4095 <? lit_len)).

Definition COMPRESS_LITERALS_SIZE_MIN : Z := 63.

Section section.
Context {E : Type}.

(** [estimate_literals_section]. *)
Definition estimate_literals_section (literals : list Z) (prev : Held HufTable) (cparams : CParams) : res E (option Z) :=
  let src_size := zlen literals in
  if literals_compression_is_disabled cparams then Ok (Some src_size)
  else
    let min_lit_size := if bool_decide (held_repeat prev = RValid) then 6 else COMPRESS_LITERALS_SIZE_MIN in
    if src_size <=? min_lit_size then Ok (Some src_size)
    else
      '(count, largest, max_symbol) ← hist_count (zrepeat 0 256) literals HUF_SYMBOLVALUE_MAX;
      if largest =? src_size then Ok (Some 1)
      else if largest <=? Z.shiftr src_size 7 + 4 then Ok (Some src_size)
      else
        valid ← (match held_table prev with
                 | Some t => if bool_decide (held_repeat prev = RCheck) then validate_ctable t count max_symbol else Ok true
                 | None => Ok false
                 end);
        let repeat := if bool_decide (held_repeat prev = RCheck) && negb valid then RNone else held_repeat prev in
        huff_log ← huf_optimal_table_log HUF_TABLELOG_DEFAULT src_size max_symbol count
          (strategy_id HUF_OPTIMAL_DEPTH_THRESHOLD <=? strategy_id (strategy cparams));
        r ← huf_build_ctable huf_table_default count max_symbol huff_log;
        match r with
        | None => Ok None
        | Some table =>
            new_c_size ← estimate_compressed_size table count max_symbol;
            h ← write_ctable table max_symbol (he_log table);
            let h_size := match h with Some h => zlen h | None => 2 ^ 64 - 1 end in
            let header := 3 + Z.b2z (1024 <=? src_size) + Z.b2z (16384 <=? src_size) in
            let jump_table := if src_size <? 256 then 0 else 6 in
            let fresh :=
              if src_size <=? wadd 64 new_c_size h_size then Ok (Some src_size)
              else if h_size =? 2 ^ 64 - 1 then Ok None
              else Ok (Some (new_c_size + h_size + jump_table + header)) in
            if bool_decide (repeat <> RNone) then
              match held_table prev with
              | None => Ok None
              | Some t =>
                  old_c_size ← estimate_compressed_size t count max_symbol;
                  if (old_c_size <? src_size)
                     && ((old_c_size <=? wadd 64 h_size new_c_size) || (src_size <=? wadd 64 h_size 12))
                  then Ok (Some (old_c_size + jump_table + header))
                  else fresh
              end
            else fresh
        end.

(** [compress_literals_with]: what is appended, the spare table, and what the
    section does to the table. *)
Definition compress_literals_with (literals : list Z) (nb_seq : Z) (huf : TableRef HufTable) (cparams : CParams)
    : res E (list Z * HufTable * Next) :=
  let held := tr_held huf in
  let spare := tr_spare huf in
  let strategy := strategy cparams in
  let src_size := zlen literals in
  let lh_size := literals_lh_size src_size in
  if literals_compression_is_disabled cparams then Ok (encode_literals_raw [] literals, spare, NKeep)
  else if src_size <? min_literals_to_compress strategy (held_repeat held) then
    Ok (encode_literals_raw [] literals, spare, NKeep)
  else
    let flags := MkHufFlags ((strategy_id strategy <? strategy_id Lazy) && (src_size <=? 1024))
      (strategy_id HUF_OPTIMAL_DEPTH_THRESHOLD <=? strategy_id strategy)
      ((nb_seq =? 0) || (SUSPECT_UNCOMPRESSIBLE_LITERAL_RATIO <=? src_size / nb_seq)) in
    let single_stream := (src_size <? 256) || (bool_decide (held_repeat held = RValid) && (lh_size =? 3)) in
    '(c, spare, repeat) ← compress_internal literals single_stream (held_table held) spare (held_repeat held) flags;
    let h_type := if bool_decide (repeat <> RNone) then LIT_TYPE_TREELESS else LIT_TYPE_COMPRESSED in
    let gain := wsub 64 src_size (min_gain src_size strategy) in
    match c with
    | Some (c_lit_size, out) =>
        if negb (c_lit_size =? 0) && (c_lit_size <? gain) then
          first ← idx literals 0;
          if (c_lit_size =? 1) && ((8 <=? src_size) || forallb (fun b => b =? first) literals) then
            Ok (encode_literals_rle [] first src_size, spare, NKeep)
          else
            _ ← rassert (zlen out =? c_lit_size);
            let next := if h_type =? LIT_TYPE_COMPRESSED then NNew else NKeep in
            Ok (compressed_literals_header h_type single_stream src_size c_lit_size ++ out, spare, next)
        else Ok (encode_literals_raw [] literals, spare, NKeep)
    | None => Ok (encode_literals_raw [] literals, spare, NKeep)
    end.
End section.
