(* ===== verification/WeightStream.v ===== *)
(** * The weights' stream: what the encoder writes, the decoder reads

    [compress_using_ctable] codes the weights of a tree description from the
    last to the first with two states that take turns; the first weights need
    no bits. Against the table that mirrors its own, [fse_decompress_weights]
    reads them back: it finds the end of the stream exactly when one weight is
    left in the other state, because the state of a first weight always reads
    a bit. *)

From S2P Require Import Prelude Words Constants Errors FseTable FseCounts FseBuild BitDStream HufTable.
From S2P Require Import HufWeights SeqDecode SeqRun BitCStream FseEncode FseEncodeProofs SeqStream.

(** ** The weights of a stream *)

(** With [u] bits of [v] left, the states [ja] and [jb], the former's turn,
    read the weights. *)
Inductive wreads (dt : list FSEEntry) (v : Z) : Z -> Z -> Z -> list Z -> Prop :=
  | wreads_last ja jb a b ea eb :
      zget dt ja = Some ea -> base_value ea = a -> 1 <= num_bits ea ->
      zget dt jb = Some eb -> base_value eb = b ->
      wreads dt v 0 ja jb [a; b]
  | wreads_more u ja jb a ws ea :
      zget dt ja = Some ea -> base_value ea = a -> 0 <= num_bits ea <= u ->
      wreads dt v (u - num_bits ea) jb (next_state ea + bits v (u - num_bits ea) (num_bits ea)) ws ->
      wreads dt v u ja jb (a :: ws).

(** A compression table that mirrors the cells [dt], and its first states. *)
Record weight_codec (ct : FseCTable) (log : Z) (dt : list FSEEntry) (covers : Z -> Prop) : Prop := {
  wc_log : 1 <= log <= 6;
  wc_codec : FseCodec ct None log dt covers;
  wc_first : forall s, covers s -> exists i e, 0 <= i < 2 ^ log /\ zget dt i = Some e /\ base_value e = s /\
    1 <= num_bits e <= log /\ forall E, init_state ct s = (Ok (state_value log i) : res E Z);
}.

Section stream.
Context (ct : FseCTable) (log : Z) (dt : list FSEEntry) (covers : Z -> Prop) (Hwc : weight_codec ct log dt covers).

Local Instance Hcodec : FseCodec ct None log dt covers := wc_codec _ _ _ _ Hwc.

(** ** What the encoder writes *)

(** The fields [fs] and the states they leave spell the weights [ws]. *)
Record wspells (fs : list (Z * Z)) (ja jb : Z) (ws : list Z) : Prop := {
  wp_fields : widths_ok fs;
  wp_a : 0 <= ja < 2 ^ log;
  wp_b : 0 <= jb < 2 ^ log;
  wp_width : width fs <= 6 * (zlen ws - 2);
  wp_reads : forall v, holds v fs -> wreads dt v (width fs) ja jb ws;
}.

Lemma wspells_start {E} a b : covers a -> covers b -> exists ja jb, wspells [] ja jb [a; b] /\
  init_state ct a = (Ok (state_value log ja) : res E Z) /\ init_state ct b = (Ok (state_value log jb) : res E Z).
Proof.
  intros Ha Hb. destruct (wc_first _ _ _ _ Hwc a Ha) as (ja & ea & Hja & Ea & Ba & Na & Ia).
  destruct (wc_first _ _ _ _ Hwc b Hb) as (jb & eb & Hjb & Eb & Bb & Nb & Ib). exists ja, jb.
  split; [|by split]. split; try done. intros v _. by apply (wreads_last _ _ _ _ _ _ ea eb); [..|lia| |].
Qed.

(** One symbol, of the state that does not have the turn. *)
Lemma encode_next_ok {E} bw fs ja jb x ip ws : writing bw fs -> bc_pos bw <= 55 -> wspells fs ja jb ws -> covers x ->
  returns (fun '(ip', v, bw') => exists i fs', ip' = ip /\ v = state_value log i /\ writing bw' fs' /\ wspells fs' i ja (x :: ws) /\
      bc_pos bw' <= bc_pos bw + 6 /\ bc_end bw' = bc_end bw)
    (encode_next ct (x :: ip) (state_value log jb) bw : res E _).
Proof.
  intros Hw Hp [Hf Ha Hb Hwd Hr] Hx. pose proof (wc_log _ _ _ _ Hwc) as Hlog. cbn [encode_next].
  destruct (fse_encode_ok (E := E) ct None log dt covers bw fs x jb Hw ltac:(lia) Hx Hb) as (i & e & Hi & He & Hc & Hn & Hnext & Hret).
  eapply returns_bind; [exact Hret|]. intros [v bw'] (-> & W & P & B). cbn [returns]. eexists i, _.
  split_and!; [done|done|exact W| |lia|done]. split; try done.
  - apply W.
  - rewrite width_snoc, zlen_cons. lia.
  - intros u Hu. pose proof (holds_top u fs _ _ Hf (proj1 Hn) Hu) as [Hrd Hu']. rewrite width_snoc.
    apply (wreads_more _ _ _ _ _ _ _ e); [done|done|pose proof (width_nonneg _ Hf); lia|].
    unfold rd in Hrd. rewrite (proj2 (Z.leb_le _ _)) in Hrd by (pose proof (width_nonneg _ Hf); lia).
    injection Hrd as Hbits. replace (width fs + num_bits e - num_bits e) with (width fs) in * by lia.
    rewrite Hbits, Hnext. by apply Hr.
Qed.

(** A writer between turns, the states' values, and what is left. *)
Definition wcoding (bound m : Z) (ip ws : list Z) (st : list Z * Z * Z * BitCStream) : Prop :=
  let '(ip', s1, s2, bw) := st in ip' = ip /\ exists fs j1 j2, s1 = state_value log j1 /\ s2 = state_value log j2 /\
    writing bw fs /\ wspells fs j1 j2 ws /\ bc_pos bw <= m /\ bc_end bw = bound.

Lemma encode_both_ok {E} bound m x y ip ws st : wcoding bound m (x :: y :: ip) ws st -> m <= 40 -> covers x -> covers y ->
  returns (wcoding bound (m + 12) ip (y :: x :: ws)) (encode_both ct st : res E _).
Proof.
  destruct st as [[[ip0 s1] s2] bw]. intros (-> & fs & j1 & j2 & -> & -> & W & S & P & B) Hm Hx Hy. unfold encode_both.
  eapply returns_bind; [by apply (encode_next_ok bw fs j1 j2 x (y :: ip) ws); [|lia|..]|].
  intros [[ip1 v1] bw1] (i1 & fs1 & -> & -> & W1 & S1 & P1 & B1).
  eapply returns_bind; [by apply (encode_next_ok bw1 fs1 i1 j1 y ip (x :: ws)); [|lia|..]|].
  intros [[ip2 v2] bw2] (i2 & fs2 & -> & -> & W2 & S2 & P2 & B2). cbn [returns]. split; [done|].
  exists fs2, i2, i1. split_and!; done || lia.
Qed.

Lemma wcoding_flush {E A} bound m ip ws ip0 s1 s2 bw (k : BitCStream -> res E A) Q : wcoding bound m ip ws (ip0, s1, s2, bw) ->
  6 * zlen ws < 8 * bound + 12 -> (forall bw', wcoding bound 7 ip ws (ip0, s1, s2, bw') -> returns Q (k bw')) ->
  returns Q (bw ← flush_bits bw; k bw).
Proof.
  intros (-> & fs & j1 & j2 & -> & -> & W & S & P & B) Hroom Hk. pose proof (wp_width _ _ _ _ S) as Hw.
  eapply returns_bind; [apply (flush_bits_ok bw fs W); lia|]. intros bw' (W' & P' & B' & _). apply Hk.
  split; [done|]. exists fs, j1, j2. split_and!; try done; [rewrite P'; divlia|lia].
Qed.

(** The walk over the reversed source: [ip] is left, [ws] is coded. *)
Definition walked (src : list Z) (bound m : Z) (st : list Z * Z * Z * BitCStream) : Prop :=
  exists ip ws, src = reverse ip ++ ws /\ wcoding bound m ip ws st.

Lemma reverse_split (src ip ws : list Z) x : src = reverse (x :: ip) ++ ws -> src = reverse ip ++ x :: ws.
Proof. intros ->. by rewrite reverse_cons, <- app_assoc. Qed.

Lemma walked_both {E} src bound m st : Forall covers src -> walked src bound m st -> m <= 40 ->
  2 <= zlen (st.1.1.1) -> returns (fun st' => walked src bound (m + 12) st' /\ zlen st'.1.1.1 = zlen st.1.1.1 - 2) (encode_both ct st : res E _).
Proof.
  intros Hc (ip & ws & Hsrc & Hco) Hm Hl. destruct st as [[[ip0 s1] s2] bw]. pose proof Hco as (-> & _). cbn [fst] in *.
  destruct ip as [|x [|y ip]]; [change (zlen (@nil Z)) with 0 in Hl; lia|change (zlen [x]) with 1 in Hl; lia|].
  apply reverse_split in Hsrc. apply reverse_split in Hsrc.
  assert (covers y /\ covers x) as [Hy Hx].
  { rewrite Hsrc in Hc. apply Forall_app in Hc as [_ Hc]. rewrite !Forall_cons in Hc. tauto. }
  eapply returns_mono; [by apply (encode_both_ok bound m x y ip ws)|]. intros st' Hst'. split; [by exists ip, (y :: x :: ws)|].
  destruct st' as [[[ip' ?] ?] ?]. destruct Hst' as (-> & _). cbn [fst]. rewrite !zlen_cons. lia.
Qed.

Lemma walked_flush {E A} src bound m ip s1 s2 bw (k : BitCStream -> res E A) Q : walked src bound m (ip, s1, s2, bw) ->
  6 * zlen src < 8 * bound -> (forall bw', walked src bound 7 (ip, s1, s2, bw') -> returns Q (k bw')) ->
  returns Q (bw ← flush_bits bw; k bw).
Proof.
  intros (ip0 & ws & Hsrc & Hco) Hroom Hk. assert (zlen ws <= zlen src) as Hl by (rewrite Hsrc, zlen_app; pose proof (zlen_nonneg (reverse ip0)); lia).
  apply (wcoding_flush bound m ip0 ws ip s1 s2 bw k Q Hco); [lia|]. intros bw' Hco'. apply Hk. by exists ip0, ws.
Qed.

Lemma weights_start_ok {E} src bound bw : Forall covers src -> 3 <= zlen src -> 6 * zlen src < 8 * bound ->
  writing bw [] -> bc_pos bw <= 7 -> bc_end bw = bound ->
  returns (fun st => walked src bound 7 st /\ zlen st.1.1.1 = if negb (Z.land (zlen src) 1 =? 0) then zlen src - 3 else zlen src - 2)
    (weights_start ct (negb (Z.land (zlen src) 1 =? 0)) (reverse src) bw : res E _).
Proof.
  intros Hc Hl Hroom Hw Hp Hb. assert (src = reverse (reverse src) ++ []) as Hsrc by (by rewrite reverse_involutive, app_nil_r).
  assert (zlen (reverse src) = zlen src) as Hlr by (unfold zlen; by rewrite length_reverse).
  destruct (reverse src) as [|a [|b [|x ip]]] eqn:Hr.
  1-3: unfold zlen in Hlr, Hl; cbn [length] in Hlr; lia.
  apply reverse_split in Hsrc. apply reverse_split in Hsrc. pose proof Hsrc as Hsrc2. apply reverse_split in Hsrc2.
  assert (covers x /\ covers b /\ covers a) as (Hx & Hcb & Ha).
  { rewrite Hsrc2 in Hc. apply Forall_app in Hc as [_ Hc]. rewrite !Forall_cons in Hc. tauto. }
  destruct (wspells_start (E := E) b a Hcb Ha) as (jb & ja & S & Ib & Ia). rewrite !zlen_cons in Hlr.
  unfold weights_start. destruct (negb _) eqn:Hodd.
  - rewrite Ia, Ib. cbn [mbind res_bind].
    eapply returns_bind; [by apply (encode_next_ok bw [] jb ja x ip [b; a]); [|lia|..]|].
    intros [[ip1 v1] bw1] (i1 & fs1 & -> & -> & W1 & S1 & P1 & B1).
    apply (walked_flush src bound 13 ip (state_value log i1) (state_value log jb) bw1); [|done|].
    + exists ip, [x; b; a]. split; [done|]. split; [done|]. exists fs1, i1, jb. split_and!; done || lia.
    + intros bw' Hwk. cbn [returns fst]. split; [done|lia].
  - rewrite Ia, Ib. cbn [mbind res_bind returns fst]. split; [|rewrite zlen_cons; lia].
    exists (x :: ip), [b; a]. split; [done|]. split; [done|]. exists [], jb, ja. split_and!; done || lia.
Qed.

Lemma land_two x : 0 <= x -> Z.land x 2 = if x mod 4 <? 2 then 0 else 2.
Proof.
  intros Hx. replace 2 with (Z.land 3 2) at 1 by done. rewrite Z.land_assoc. change 3 with (2 ^ 2 - 1). rewrite land_mod by lia. change (2 ^ 2) with 4.
  pose proof (Z.mod_pos_bound x 4 ltac:(lia)). assert (x mod 4 = 0 \/ x mod 4 = 1 \/ x mod 4 = 2 \/ x mod 4 = 3) as [-> | [-> | [-> | ->]]] by lia; done.
Qed.

(** The stream of the weights: the first two states above the fields. *)
Definition weight_stream (ws out : list Z) : Prop :=
  exists fs ja jb, wspells fs ja jb ws /\ let gs := (fs ++ [(state_value log jb, log)]) ++ [(state_value log ja, log)] in
    bytes out /\ widths_ok gs /\ zlen out = width gs / 8 + 1 /\ le_val out = pack gs + 2 ^ width gs.

Lemma weights_turns_ok {E} src bound st : Forall covers src -> 6 * zlen src < 8 * bound -> walked src bound 7 st -> zlen st.1.1.1 mod 4 = 0 -> 3 <= zlen src ->
  returns (fun '(s1, s2, bw) => walked src bound 7 ([], s1, s2, bw)) (loopM (length src) (weights_turn ct) st : res E _).
Proof.
  intros Hc Hroom Hst Hmod H3. apply returns_loopM with (I := fun st => walked src bound 7 st /\ zlen st.1.1.1 mod 4 = 0) (m := fun st => Z.to_nat (zlen st.1.1.1 / 4)); [done| |].
  - destruct Hst as (ip & ws & Hsrc & Hco). destruct st as [[[ip0 ?] ?] ?]. destruct Hco as (-> & _). cbn [fst].
    assert (zlen src = zlen ip + zlen ws) as Hl by (rewrite Hsrc, zlen_app; unfold zlen; by rewrite length_reverse). pose proof (zlen_nonneg ws). pose proof (zlen_nonneg ip).
    unfold zlen in *. divlia.
  - intros [[[ip s1] s2] bw] [Hw Hm]. cbn [fst] in Hm. unfold weights_turn. destruct (Z.ltb_spec 0 (zlen ip)) as [Hpos|Hz].
    + eapply returns_bind; [apply (walked_both src bound 7 _ Hc Hw); cbn [fst]; [lia|divlia]|]. intros st1 [Hw1 Hl1]. cbn [fst] in Hl1.
      eapply returns_bind; [apply (walked_both src bound 19 _ Hc Hw1); [lia|rewrite Hl1; divlia]|]. intros [[[ip2 s12] s22] bw2] [Hw2 Hl2]. cbn [fst] in Hl2.
      apply (walked_flush src bound 31 _ _ _ _ _ _ Hw2 Hroom). intros bw' Hw'. cbn [returns fst]. split; [split; [done|]|]; divlia.
    + cbn [returns]. destruct ip; [done|]. rewrite zlen_cons in Hz. pose proof (zlen_nonneg ip). lia.
Qed.

Lemma compress_weights_stream {E} src : Forall covers src -> 3 <= zlen src -> returns (weight_stream src) (compress_using_ctable ct src : res E _).
Proof.
  intros Hc Hl. pose proof (wc_log _ _ _ _ Hwc) as Hlog. unfold compress_using_ctable. rewrite (proj2 (Z.leb_gt _ 2)) by lia.
  assert (0 <= Z.shiftr (zlen src) 7) as Hsh by (apply Z.shiftr_nonneg; lia). set (cap := zlen src + Z.shiftr (zlen src) 7 + 4 + 8).
  eapply returns_bind; [apply (cstream_new_ok (zrepeat 0 cap)); [by apply Forall_zrepeat|rewrite zlen_zrepeat; lia]|].
  intros bw (W & P & B). rewrite zlen_zrepeat in B by lia.
  assert (6 * zlen src < 8 * (cap - 8)) as Hroom by lia.
  eapply returns_bind; [apply (weights_start_ok src (cap - 8) bw Hc Hl Hroom W); lia|]. intros st [Hst Hip].
  eapply returns_bind with (fun st => walked src (cap - 8) 7 st /\ zlen st.1.1.1 mod 4 = 0).
  { rewrite land_two by lia. change 1 with (2 ^ 1 - 1) in Hip. rewrite land_mod in Hip by lia. change (2 ^ 1) with 2 in Hip.
    destruct (Z.ltb_spec ((zlen src - 2) mod 4) 2) as [H|H]; cbn [negb Z.eqb].
    - cbn [returns]. split; [done|]. rewrite Hip. destruct (Z.eqb_spec (zlen src mod 2) 0); cbn [negb]; divlia.
    - assert (2 <= zlen st.1.1.1) as H2 by (rewrite Hip; destruct (Z.eqb_spec (zlen src mod 2) 0); cbn [negb]; divlia).
      eapply returns_bind; [by apply (walked_both src (cap - 8) 7 st Hc Hst)|]. intros [[[ip1 s1] s2] bw1] [Hw1 Hl1]. cbn [fst] in Hl1.
      apply (walked_flush src (cap - 8) 19 _ _ _ _ _ _ Hw1 Hroom). intros bw' Hw'. cbn [returns fst]. split; [done|].
      rewrite Hl1, Hip. destruct (Z.eqb_spec (zlen src mod 2) 0); cbn [negb]; divlia. }
  intros st1 [Hst1 Hm1]. eapply returns_bind; [by apply (weights_turns_ok src (cap - 8))|].
  intros [[s1 s2] bw1] (ip & ws & Hsrc & <- & fs & ja & jb & -> & -> & W1 & S1 & P1 & B1). rewrite reverse_nil in Hsrc. cbn [app] in Hsrc. subst ws.
  pose proof (wp_width _ _ _ _ S1) as Hwd.
  eapply returns_bind; [apply (fse_flush_ok ct None log dt covers bw1 fs _ (cap - 8)); [by split|lia]|]. intros bw2 Hb2.
  eapply returns_bind; [apply (fse_flush_ok ct None log dt covers bw2 _ _ (cap - 8) Hb2); rewrite width_snoc; lia|]. intros bw3 (W3 & P3 & B3).
  set (gs := (fs ++ _) ++ _) in *. assert (width gs = width fs + log + log) as Hwg by (unfold gs; by rewrite !width_snoc).
  eapply returns_bind; [apply (close_ok bw3 gs W3); lia|]. intros [size buf] (-> & Lb & Bb & Hv). cbn [returns].
  pose proof (width_nonneg gs (wr_fields _ _ W3)).
  exists fs, ja, jb. split; [done|]. fold gs. cbv zeta. split; [by apply Forall_take|]. split; [apply W3|]. split; [rewrite zlen_ztake; divlia|done].
Qed.
End stream.

(** ** What the decoder reads *)

Section reading.
Context (log : Z) (dt : list FSEEntry) (Hdt : weights_table log dt) (s : list Z) (Hs : bytes s).

Lemma wreads_length v u ja jb l : wreads dt v u ja jb l -> 2 <= zlen l.
Proof. induction 1; rewrite ?zlen_cons in *; [change (zlen (@nil Z)) with 0; lia|lia]. Qed.

Lemma wreads_inv v u ja jb l : wreads dt v u ja jb l ->
  (exists a b ea eb, l = [a; b] /\ u = 0 /\ zget dt ja = Some ea /\ base_value ea = a /\ 1 <= num_bits ea /\ zget dt jb = Some eb /\ base_value eb = b) \/
  (exists a l' e, l = a :: l' /\ zget dt ja = Some e /\ base_value e = a /\ 0 <= num_bits e <= u /\ 2 <= zlen l' /\
    wreads dt v (u - num_bits e) jb (next_state e + bits v (u - num_bits e) (num_bits e)) l').
Proof.
  destruct 1 as [ja jb a b ea eb|u ja jb a l e ? ? ? Hr]; [left; by exists a, b, ea, eb|right].
  exists a, l, e. split_and!; try done; try lia. by apply wreads_length in Hr.
Qed.

(** A weight of a state whose bits are there. *)
Lemma decode_weight_more j e br : zget dt j = Some e -> stream_ok br -> bits_consumed br <= 64 ->
  (bits_consumed br <= 31 \/ ptr br = 0) -> num_bits e <= unread br ->
  exists br', decode_weight dt j br = Ok (base_value e, next_state e + bits (stream_val br) (unread br - num_bits e) (num_bits e), br') /\
    stream_ok br' /\ src br' = src br /\ ptr br' = ptr br /\ unread br' = unread br - num_bits e /\ bits_consumed br' = bits_consumed br + num_bits e.
Proof.
  intros He Hok H64 Hn Hu. destruct Hdt as [Hlog Hl Hc]. destruct (Hc _ _ He) as (Hnb & _ & _ & Hbv).
  destruct (skip_bits_ok br (num_bits e) Hok ltac:(lia) ltac:(lia)) as (Hok' & Hun & Hb').
  exists (skip_bits br (num_bits e)). split_and!; try done. unfold decode_weight. rewrite (idx_ok _ _ _ He). cbn [mbind res_bind]. unfold read_bits.
  rewrite wrap_small by (cbn; lia). do 3 f_equal.
  assert (look_bits_any br (num_bits e) = peek (stream_val br) (unread br) (num_bits e)) as ->.
  { destruct (Z.eq_dec (num_bits e) 0) as [H0|H0].
    - rewrite H0, peek_0. pose proof (look_bits_any_range br 0 ltac:(lia)) as Hr. change (2 ^ 0) with 1 in Hr. lia.
    - apply look_bits_any_peek; [done|lia|]. unfold loaded, unread in *. pose proof (ok_ptr _ Hok). split; [destruct Hn; lia|]. destruct Hn; [left; lia|by right]. }
  f_equal. apply peek_bits. lia.
Qed.

(** A weight whose bits are past the stream's start. *)
Lemma decode_weight_past j e br : zget dt j = Some e -> stream_ok br -> bits_consumed br <= 128 ->
  exists x br', decode_weight dt j br = Ok (base_value e, x, br') /\ stream_ok br' /\ bits_consumed br' = bits_consumed br + num_bits e.
Proof.
  intros He Hok H128. destruct Hdt as [Hlog Hl Hc]. destruct (Hc _ _ He) as (Hnb & _ & _ & Hbv).
  destruct (skip_bits_ok br (num_bits e) Hok ltac:(lia) ltac:(lia)) as (Hok' & Hun & Hb').
  eexists _, (skip_bits br (num_bits e)). split; [|by split]. unfold decode_weight. rewrite (idx_ok _ _ _ He). cbn [mbind res_bind]. unfold read_bits.
  by rewrite wrap_small by (cbn; lia).
Qed.

Context (ws : list Z) (len : Z) (Hlen : zlen ws <= len).

(** [k] weights are read; [turn] says whose the next one is. *)
Record wgot (m k : Z) (turn : bool) (st : weights_state) : Prop := {
  wg_ok : stream_ok (ws_br st);
  wg_src : src (ws_br st) = s;
  wg_bits : bits_consumed (ws_br st) <= 64;
  wg_near : bits_consumed (ws_br st) <= m \/ ptr (ws_br st) = 0;
  wg_len : zlen (ws_out st) = len;
  wg_k : 0 <= k <= zlen ws - 2;
  wg_done : ztake k (ws_out st) = ztake k ws;
  wg_reads : wreads dt (le_val s) (unread (ws_br st)) (if turn then ws_state2 st else ws_state1 st)
    (if turn then ws_state1 st else ws_state2 st) (zdrop k ws);
}.

Lemma store_prefix out k a : zlen out = len -> 0 <= k < zlen ws -> zget ws k = Some a -> ztake k out = ztake k ws ->
  exists out', store out k a = (Ok out' : dec (list Z)) /\ zlen out' = len /\ ztake (k + 1) out' = ztake (k + 1) ws.
Proof.
  intros Hl Hk Ha Ht. exists (zset out k a). split; [apply store_ok; lia|]. split; [by rewrite zlen_zset|].
  rewrite (ztake_S ws k a Ha), (ztake_S _ k a) by (apply zget_zset_eq; lia). by rewrite ztake_zset_ge, Ht by lia.
Qed.

(** The next weight: the one [turn] names, of either state. *)
Definition weight_of (turn : bool) (at_ : Z) (st : weights_state) : dec weights_state :=
  if turn then weight2 dt at_ st else weight1 dt at_ st.

Lemma zdrop_head k a l : zdrop k ws = a :: l -> 0 <= k -> zget ws k = Some a /\ l = zdrop (k + 1) ws.
Proof.
  intros Hd Hk. assert (zget (zdrop k ws) 0 = Some a) as Hg by (by rewrite Hd). rewrite zget_zdrop, Z.add_0_r in Hg by lia.
  split; [done|]. unfold zdrop in *. replace (Z.to_nat (k + 1)) with (S (Z.to_nat k)) by lia.
  apply zget_Some in Hg as [_ Hg]. rewrite (drop_S _ _ _ Hg) in Hd. by injection Hd.
Qed.

Lemma weight_of_more m k turn st : wgot m k turn st -> m <= 31 -> 2 < zlen ws - k ->
  exists st' n, weight_of turn k st = Ok st' /\ wgot (m + 6) (k + 1) (negb turn) st' /\ ws_op st' = ws_op st /\
    0 <= n <= 6 /\ unread (ws_br st') = unread (ws_br st) - n.
Proof.
  intros [Hok Hsrc Hb Hn Hl Hk Hd Hr] Hm Hmore. apply wreads_inv in Hr as [(a & b & _ & _ & Hz & _)|(a & l & e & Hz & He & Hbase & Hnb & _ & Hrest)].
  { assert (zlen (zdrop k ws) = 2) as H2 by (by rewrite Hz). rewrite zlen_zdrop in H2 by lia. lia. }
  destruct (zdrop_head k a l Hz ltac:(lia)) as [Ha ->].
  destruct (decode_weight_more _ e (ws_br st) He Hok Hb ltac:(destruct Hn; [left; lia|by right]) ltac:(lia)) as (br' & Hdec & Hok' & Hsrc' & Hp' & Hu' & Hb').
  destruct (store_prefix (ws_out st) k a Hl ltac:(lia) Ha Hd) as (out' & Hst & Hl' & Hd').
  pose proof (wt_cell _ _ Hdt _ _ He) as (Hn6 & _). pose proof (wt_log _ _ Hdt).
  assert (bits_consumed br' <= 64) as H64.
  { rewrite Hb'. unfold unread in Hnb. destruct Hn as [|H0]; [lia|]. rewrite H0 in Hnb. lia. }
  unfold stream_val in Hdec. rewrite Hsrc in Hdec.
  unfold weight_of, weight1, weight2. destruct turn; rewrite Hdec; cbn [mbind res_bind]; rewrite Hbase, Hst; cbn [mbind res_bind];
    eexists _, (num_bits e); (split; [done|]); (split; [|split; [done|split; [lia|done]]]); split; cbn [ws_br ws_out ws_state1 ws_state2 negb]; try done; try lia;
    try congruence; try (rewrite Hp'; destruct Hn; [left; lia|by right]); by rewrite Hu'.
Qed.

(** The last two weights: the first one's bits are past the start. *)
Lemma weight_of_last m k turn st : wgot m k turn st -> zlen ws - k = 2 ->
  exists st', weight_of turn k st = Ok st' /\ ws_op st' = ws_op st /\ stream_ok (ws_br st') /\ 64 < bits_consumed (ws_br st') <= 70 /\
    zlen (ws_out st') = len /\ ztake (k + 1) (ws_out st') = ztake (k + 1) ws /\
    exists st'', weight_of (negb turn) (k + 1) st' = Ok st'' /\ ws_op st'' = ws_op st /\ zlen (ws_out st'') = len /\
      ztake (zlen ws) (ws_out st'') = ws.
Proof.
  intros [Hok Hsrc Hb Hn Hl Hk Hd Hr] Hlast. apply wreads_inv in Hr as [(a & b & ea & eb & Hz & Hu & Ea & Ba & Na & Eb & Bb)|(a & l & e & Hz & _ & _ & _ & H2l & _)].
  2: { assert (zlen (zdrop k ws) = zlen l + 1) as H2 by (rewrite Hz; apply zlen_cons). rewrite zlen_zdrop in H2 by lia. lia. }
  destruct (zdrop_head k a [b] Hz ltac:(lia)) as [Ha Hz2]. symmetry in Hz2. destruct (zdrop_head (k + 1) b [] Hz2 ltac:(lia)) as [Hb2 _].
  assert (ptr (ws_br st) = 0 /\ bits_consumed (ws_br st) = 64) as [Hp0 Hb64] by (unfold unread in Hu; pose proof (ok_ptr _ Hok); lia).
  pose proof (wt_cell _ _ Hdt _ _ Ea) as (Hna & _). pose proof (wt_log _ _ Hdt).
  destruct (decode_weight_past _ ea (ws_br st) Ea Hok ltac:(lia)) as (x & br1 & Hd1 & Hok1 & Hb1).
  destruct (store_prefix (ws_out st) k a Hl ltac:(lia) Ha Hd) as (out1 & Hs1 & Hl1 & Ht1).
  destruct (decode_weight_past _ eb br1 Eb Hok1 ltac:(lia)) as (y & br2 & Hd2 & Hok2 & Hb22).
  destruct (store_prefix out1 (k + 1) b Hl1 ltac:(lia) Hb2 Ht1) as (out2 & Hs2 & Hl2 & Ht2).
  assert (ztake (zlen ws) out2 = ws) as Hall by (replace (zlen ws) with (k + 1 + 1) by lia; rewrite Ht2; apply ztake_all; lia).
  unfold weight_of, weight1, weight2. destruct turn; rewrite Hd1; cbn [mbind res_bind]; rewrite Ba, Hs1; cbn [mbind res_bind];
    (eexists; split; [done|]); cbn [ws_br ws_out ws_op ws_state1 ws_state2 negb]; (split_and!; [done|done|lia|lia|done|done|]);
    rewrite Hd2; cbn [mbind res_bind]; rewrite Bb, Hs2; cbn [mbind res_bind]; by eexists.
Qed.

Lemma wgot_advance m k turn st n : wgot m k turn st -> wgot m k turn (ws_advance n st).
Proof. by intros [? ? ? ? ? ? ? ?]. Qed.

Lemma wgot_more m k turn st : wgot m k turn st -> 0 < unread (ws_br st) -> 2 < zlen ws - k.
Proof.
  intros [_ _ _ _ _ Hk _ Hr] Hu. apply wreads_inv in Hr as [(a & b & ea & eb & _ & H0 & _)|(a & l & e & Hz & _ & _ & _ & H2 & _)]; [lia|].
  assert (zlen (zdrop k ws) = zlen l + 1) as H3 by (rewrite Hz; apply zlen_cons). rewrite zlen_zdrop in H3 by lia. lia.
Qed.

Lemma wgot_reload m k turn st : wgot m k turn st ->
  returns (fun '(status, st') => status <> Overflow /\ wgot 7 k turn st' /\ ws_op st' = ws_op st /\
      (status = Unfinished -> 57 <= unread (ws_br st'))) (ws_reload st).
Proof.
  intros [Hok Hsrc Hb Hn Hl Hk Hd Hr]. unfold ws_reload. eapply returns_bind; [by apply reload_ok|].
  intros [status br] (Hov & _ & [Hok' Hsrc' Hu Hunf Hend Hcomp]). cbn [returns ws_br ws_op].
  assert (status <> Overflow) as Hno by (intros ->; pose proof (proj1 Hov eq_refl); lia).
  assert (bits_consumed br <= 64 /\ (bits_consumed br <= 7 \/ ptr br = 0)) as [H64 H7].
  { destruct status; [specialize (Hunf eq_refl)|specialize (Hend eq_refl)|specialize (Hcomp eq_refl)|done]; split; try lia. }
  split; [done|]. split; [split; cbn [ws_br ws_out ws_state1 ws_state2]; try done; [by rewrite Hsrc'|by rewrite Hu]|]. split; [done|].
  intros ->. specialize (Hunf eq_refl). unfold unread. pose proof (ok_ptr _ Hok'). lia.
Qed.

Lemma weights_four_reads st : wgot 31 (ws_op st) false st ->
  returns (fun r => match r with
    | inl st' => wgot 31 (ws_op st') false st' /\ ws_op st < ws_op st'
    | inr st' => wgot 7 (ws_op st') false st'
    end) (weights_four dt len st).
Proof.
  intros Hst. unfold weights_four. eapply returns_bind; [by apply (wgot_reload 31)|].
  intros [status st1] (_ & H1 & Ho & Hu). rewrite <- Ho in *. destruct (decide (status = Unfinished)) as [Hun|]; [|done].
  specialize (Hu Hun). destruct (Z.ltb_spec (ws_op st1) (len - 3)); [|done]. set (k := ws_op st1) in *.
  destruct (weight_of_more 7 k false st1 H1 ltac:(lia) (wgot_more _ _ _ _ H1 ltac:(lia))) as (st2 & n2 & E2 & H2 & O2 & N2 & U2).
  destruct (weight_of_more _ (k + 1) _ st2 H2 ltac:(lia) (wgot_more _ _ _ _ H2 ltac:(lia))) as (st3 & n3 & E3 & H3 & O3 & N3 & U3).
  destruct (weight_of_more _ (k + 1 + 1) _ st3 H3 ltac:(lia) (wgot_more _ _ _ _ H3 ltac:(lia))) as (st4 & n4 & E4 & H4 & O4 & N4 & U4).
  destruct (weight_of_more _ (k + 1 + 1 + 1) _ st4 H4 ltac:(lia) (wgot_more _ _ _ _ H4 ltac:(lia))) as (st5 & n5 & E5 & H5 & O5 & N5 & U5).
  cbn [weight_of negb] in E2, E3, E4, E5. replace (k + 1 + 1 + 1) with (k + 3) in * by lia. replace (k + 1 + 1) with (k + 2) in * by lia.
  rewrite E2. cbn [mbind res_bind]. rewrite E3. cbn [mbind res_bind]. rewrite E4. cbn [mbind res_bind]. rewrite E5. cbn [mbind res_bind returns].
  unfold ws_advance at 1 3. cbn [ws_op]. replace (ws_op st5) with k by (unfold k; congruence). split; [|lia]. replace (k + 4) with (k + 3 + 1) by lia. apply wgot_advance. exact H5.
Qed.

(** All the weights are read. *)
Definition wfinal (st : weights_state) : Prop :=
  ws_op st = zlen ws /\ zlen (ws_out st) = len /\ ztake (zlen ws) (ws_out st) = ws.

(** A reload past the start says so. *)
Lemma ws_reload_past st : stream_ok (ws_br st) -> 64 < bits_consumed (ws_br st) -> ws_reload st = Ok (Overflow, st).
Proof.
  intros Hok Hb. unfold ws_reload. destruct (returns_inv _ _ (reload_ok (ws_br st) Hok)) as ([status br] & -> & Hov & Hsame & _).
  pose proof (proj2 Hov Hb) as ->. rewrite (Hsame eq_refl). cbn. by destruct st.
Qed.

Lemma weights_one_reads st : wgot 7 (ws_op st) false st ->
  returns (fun r => match r with
    | inl st' => wgot 7 (ws_op st') false st' /\ ws_op st < ws_op st'
    | inr st' => wfinal st'
    end) (weights_one dt len st).
Proof.
  intros Hst. unfold weights_one. set (k := ws_op st) in *. pose proof (wg_k _ _ _ _ Hst) as Hk.
  rewrite (proj2 (Z.ltb_ge (len - 2) k)) by lia. cbn [fail_if mbind res_bind].
  destruct (Z.eq_dec (zlen ws - k) 2) as [H2|H2].
  { destruct (weight_of_last 7 k false st Hst H2) as (st1 & E1 & O1 & K1 & B1 & L1 & T1 & st2 & E2 & O2 & L2 & T2).
    cbn [weight_of negb] in E1, E2. rewrite E1. cbn [mbind res_bind].
    rewrite (ws_reload_past (ws_advance 1 st1)) by (done || (cbn; lia)). cbn [mbind res_bind]. rewrite decide_True by done.
    change (ws_op (ws_advance 1 st1)) with (ws_op st1 + 1). rewrite O1. fold k.
    assert (weight2 dt (k + 1) (ws_advance 1 st1) = (st ← weight2 dt (k + 1) st1; Ok (ws_advance 1 st))) as ->.
    { unfold weight2. cbn [ws_advance ws_br ws_state2 ws_state1 ws_out ws_op]. destruct (decode_weight _ _ _) as [[[? ?] ?]| | |]; cbn [mbind res_bind]; try done.
      by destruct (store _ _ _). }
    rewrite E2. cbn [mbind res_bind returns]. split; [cbn; rewrite O2; fold k; lia|]. by split. }
  destruct (weight_of_more 7 k false st Hst ltac:(lia) ltac:(lia)) as (st1 & n1 & E1 & G1 & O1 & _). cbn [weight_of negb] in E1, G1.
  rewrite E1. cbn [mbind res_bind]. eapply returns_bind; [exact (wgot_reload _ _ _ _ (wgot_advance _ _ _ _ 1 G1))|].
  intros [status st2] (Hno & G2 & O2 & _). rewrite decide_False by done. cbn [ws_advance ws_op] in O2. rewrite O1 in O2. fold k in O2. rewrite O2.
  pose proof (wg_k _ _ _ _ G2) as Hk2. rewrite (proj2 (Z.ltb_ge (len - 2) (k + 1))) by lia. cbn [fail_if mbind res_bind].
  destruct (Z.eq_dec (zlen ws - (k + 1)) 2) as [H3|H3].
  - destruct (weight_of_last 7 (k + 1) true st2 G2 H3) as (st3 & E3 & O3 & K3 & B3 & L3 & T3 & st4 & E4 & O4 & L4 & T4).
    cbn [weight_of negb] in E3, E4. rewrite E3. cbn [mbind res_bind].
    rewrite (ws_reload_past (ws_advance 1 st3)) by (done || (cbn; lia)). cbn [mbind res_bind]. rewrite decide_True by done.
    change (ws_op (ws_advance 1 st3)) with (ws_op st3 + 1). rewrite O3, O2.
    assert (weight1 dt (k + 1 + 1) (ws_advance 1 st3) = (st ← weight1 dt (k + 1 + 1) st3; Ok (ws_advance 1 st))) as ->.
    { unfold weight1. cbn [ws_advance ws_br ws_state2 ws_state1 ws_out ws_op]. destruct (decode_weight _ _ _) as [[[? ?] ?]| | |]; cbn [mbind res_bind]; try done.
      by destruct (store _ _ _). }
    rewrite E4. cbn [mbind res_bind returns]. split; [cbn; rewrite O4, O2; lia|]. by split.
  - destruct (weight_of_more 7 (k + 1) true st2 G2 ltac:(lia) ltac:(lia)) as (st3 & n3 & E3 & G3 & O3 & _). cbn [weight_of negb] in E3, G3.
    rewrite E3. cbn [mbind res_bind]. eapply returns_bind; [exact (wgot_reload _ _ _ _ (wgot_advance _ _ _ _ 1 G3))|].
    intros [status2 st4] (Hno2 & G4 & O4 & _). rewrite decide_False by done. cbn [returns]. cbn [ws_advance ws_op] in O4. rewrite O3, O2 in O4. rewrite O4. split; [done|lia].
Qed.

(** [fse_decompress_weights] on the stream of [ws]. *)
Lemma weights_loops_reads st : wgot 31 (ws_op st) false st ->
  returns wfinal (st ← loopM (Z.to_nat len + 1) (weights_four dt len) st; loopM (Z.to_nat len + 1) (weights_one dt len) st).
Proof.
  intros Hst. assert (forall m k t st, wgot m k t st -> 0 <= k <= len) as Hrange by (intros m k t st0 H; pose proof (wg_k _ _ _ _ H); lia).
  eapply returns_bind with (fun st => wgot 7 (ws_op st) false st).
  - apply returns_loopM with (I := fun st => wgot 31 (ws_op st) false st) (m := fun st => Z.to_nat (len - ws_op st)); [done|specialize (Hrange _ _ _ _ Hst); lia|].
    intros st1 H1. eapply returns_mono; [by apply weights_four_reads|]. intros [st2|st2]; [|done]. intros [H2 Hlt]. split; [done|]. specialize (Hrange _ _ _ _ H2). lia.
  - intros st1 H1. apply returns_loopM with (I := fun st => wgot 7 (ws_op st) false st) (m := fun st => Z.to_nat (len - ws_op st)); [done|specialize (Hrange _ _ _ _ H1); lia|].
    intros st2 H2. eapply returns_mono; [by apply weights_one_reads|]. intros [st3|st3]; [|done]. intros [H3 Hlt]. split; [done|]. specialize (Hrange _ _ _ _ H3). lia.
Qed.
End reading.

(** The weights' decoder reads back the weights' stream. *)
Lemma weight_stream_decodes table s out ws ct covers : let log := accuracy_log table in let dt := ztake (size table) (cells table) in
  weights_table log dt -> size table = 2 ^ log -> size table <= zlen (cells table) -> weight_codec ct log dt covers ->
  weight_stream log dt ws s -> zlen ws <= zlen out ->
  exists out', fse_decompress_weights table s out = Ok (out', zlen ws) /\ zlen out' = zlen out /\ ztake (zlen ws) out' = ws.
Proof.
  intros log dt Hdt Hsz Hcap Hwc (fs & ja & jb & Hsp & Hs & Hg & Hl & Hv) Hlen. set (gs := (fs ++ _) ++ _) in *.
  pose proof (wt_log _ _ Hdt) as Hlog. pose proof Hsp as [Hfs Ha Hb Hwd Hr]. pose proof (width_nonneg _ Hfs) as Hw0.
  assert (width gs = width fs + log + log) as Hwg by (unfold gs; by rewrite !width_snoc).
  destruct (marked_stream s _ _ Hs Hl ltac:(lia) (pack_range gs Hg) Hv) as (Hlg & last & Hlast & Hnz).
  unfold fse_decompress_weights, FseTable.decode. rewrite slice_prefix by (pose proof (pow2_pos log ltac:(lia)); lia). cbn [mbind res_bind]. fold dt log.
  pose proof (new_ok s Hs) as Hnew. destruct (BitDStream.new s) as [br|e| |] eqn:Enew; [|exfalso|done|done].
  2: { destruct Hnew as [[_ ->]|[_ Hz]]; [rewrite (zlen_nil (A := Z)) in Hl; pose proof (width_nonneg _ Hg); divlia|congruence]. }
  destruct Hnew as (Hsrc & Hok & Hun & Hbc & _). cbn [mbind res_bind]. rewrite Hlg in Hun.
  assert (loaded br 56) as Hld by (destruct (new_loaded s br Hs Enew); [done|lia]).
  assert (holds (le_val s) gs) as Hh by (exists 1; lia).
  assert (widths_ok (fs ++ [(state_value log jb, log)])) as F1 by (apply Forall_app; split; [done|apply Forall_singleton; cbn; lia]).
  destruct (holds_top _ _ (state_value log ja) log F1 ltac:(lia) Hh) as [R1 Hh1]. destruct (holds_top _ _ (state_value log jb) log Hfs ltac:(lia) Hh1) as [R2 Hh2].
  assert (forall br u x, stream_ok br -> src br = s -> unread br = u + log -> loaded br 56 -> bits_consumed br <= 64 ->
    rd (le_val s) (u + log) log = Some (x, u) -> 0 <= u -> exists br1, read_bits br log = (x, br1) /\ stream_ok br1 /\ src br1 = s /\ unread br1 = u /\ bits_consumed br1 <= 64) as Hread.
  { intros br0 u x Hok0 Hs0 Hu0 Hl0 Hc0 Hrd Hu. unfold read_bits.
    rewrite look_bits_any_peek by (done || lia || (unfold loaded in *; lia)). destruct (skip_bits_ok br0 log Hok0 ltac:(lia) ltac:(lia)) as (Hok' & Hun' & Hb').
    exists (skip_bits br0 log). unfold stream_val. rewrite Hs0, Hu0, peek_bits by lia. unfold rd in Hrd. rewrite (proj2 (Z.leb_le _ _)) in Hrd by lia. injection Hrd as ->.
    split_and!; try done; try lia. rewrite Hb'. unfold unread, loaded in *. pose proof (ok_ptr _ Hok0). destruct Hl0 as [_ [|Hp0]]; [lia|]. rewrite Hp0 in Hu0. lia. }
  assert (forall br u, stream_ok br -> src br = s -> unread br = u -> bits_consumed br <= 64 -> exists st br1, reload br = Ok (st, br1) /\ st <> Overflow /\
    stream_ok br1 /\ src br1 = s /\ unread br1 = u /\ bits_consumed br1 <= 64 /\ (bits_consumed br1 <= 7 \/ ptr br1 = 0) /\ (0 < u -> loaded br1 56)) as Hreload.
  { intros br0 u Hok0 Hs0 Hu0 Hc0. destruct (returns_inv _ _ (reload_ok br0 Hok0)) as ([st br1] & Heq & Hov & _ & [Hok1 Hs1 Hu1 Hunf Hend Hcomp]).
    exists st, br1. assert (st <> Overflow) as Hno by (intros ->; pose proof (proj1 Hov eq_refl); lia).
    assert (bits_consumed br1 <= 64 /\ (bits_consumed br1 <= 7 \/ ptr br1 = 0)) as [H64 H7]
      by (destruct st; [specialize (Hunf eq_refl)|specialize (Hend eq_refl)|specialize (Hcomp eq_refl)|done]; split; lia).
    split_and!; try done; try congruence. intros Hpos. unfold loaded. unfold unread in *. destruct H7 as [H7|Hp0]; [lia|]. rewrite Hp0 in *. lia. }
  rewrite width_snoc in R1. rewrite state_value_low in R1, R2 by lia.
  destruct (Hread br (width fs + log) ja Hok Hsrc ltac:(lia) Hld Hbc R1 ltac:(lia)) as (br1 & -> & Hok1 & Hsrc1 & Hun1 & Hbc1).
  destruct (Hreload br1 _ Hok1 Hsrc1 Hun1 Hbc1) as (st2 & br2 & -> & _ & Hok2 & Hsrc2 & Hun2 & Hbc2 & _ & Hld2). cbn [mbind res_bind].
  destruct (Hread br2 (width fs) jb Hok2 Hsrc2 Hun2 (Hld2 ltac:(lia)) Hbc2 R2 ltac:(lia)) as (br3 & -> & Hok3 & Hsrc3 & Hun3 & Hbc3).
  destruct (Hreload br3 _ Hok3 Hsrc3 Hun3 Hbc3) as (st4 & br4 & -> & _ & Hok4 & Hsrc4 & Hun4 & Hbc4 & _). cbn [mbind res_bind].
  destruct (Hreload br4 _ Hok4 Hsrc4 Hun4 Hbc4) as (st5 & br5 & -> & Hno & Hok5 & Hsrc5 & Hun5 & Hbc5 & Hnear & _). cbn [mbind res_bind].
  rewrite decide_False by done.
  assert (length out = Z.to_nat (zlen out)) as -> by (unfold zlen; lia).
  pose proof (wreads_length dt _ _ _ _ _ (Hr _ Hh2)) as H2.
  destruct (returns_inv _ _ (weights_loops_reads log dt Hdt s ws (zlen out) Hlen (MkWS ja jb br5 out 0) ltac:(
    split; cbn [ws_br ws_out ws_state1 ws_state2 ws_op]; try done; [destruct Hnear; [left; lia|by right]|lia|rewrite Hun5; by apply Hr]))) as (st & Heq & Hop & Hlo & Ht).
  revert Heq. destruct (loopM _ _ _) as [st0| | |]; cbn [mbind res_bind]; [|done..]. intros ->. cbn [mbind res_bind].
  exists (ws_out st). rewrite Hop. done.
Qed.
