(* ===== verification/HufDescription.v ===== *)
(** * A tree's description, read back ([src/huf.rs], [src/decode.rs])

    What [write_ctable] appends for a table of [build_ctable], raw or
    FSE-compressed, the decoder's [read_weights] and [weight_stats] take back
    to the same weights. *)

From S2P Require Import Prelude Words Constants Errors FseTable FseCounts FseBuild HufTable HufWeights HufFill HufX2Table.
From S2P Require Import BitCStream FseEncode FseEncodeProofs FseNorm FseNormProofs NCountProofs.
From S2P Require Import Histogram SeqEncode SeqCost SeqEncodeProofs.
From S2P Require Import HufCStream HufRoundTrip HufCTable HufCanon HufLiterals WeightStream.

(** ** The weights of a complete code *)

Lemma kraft_odd l : Forall (fun w => 0 <= w) l -> Z.odd (kraft l) = Z.odd (occurrences 1 l).
Proof.
  induction 1 as [|w l Hw _ IH]; [done|]. rewrite occurrences_cons. unfold kraft. cbn [foldr]. fold (kraft l).
  rewrite !Z.odd_add, IH. f_equal. destruct (Z.eqb_spec w 1) as [->|]; [done|].
  destruct (Z.eq_dec w 0) as [->|]; [done|]. rewrite cell_share_pow by lia.
  replace (w - 1) with (Z.succ (w - 2)) by lia. rewrite Z.pow_succ_r by lia. by rewrite Z.odd_mul.
Qed.

(** No weight over 11. *)
Lemma no_high_weight ws : Forall (fun w => 0 <= w <= 11) ws -> zlen ws <= 255 ->
  existsb (fun w => negb (lanes_get (foldl lanes_bump lanes_default ws) w =? 0)) (seqZ (HUF_TABLELOG_MAX + 1) (16 - (HUF_TABLELOG_MAX + 1))) = false.
Proof.
  intros Hws Hlen. apply not_true_is_false. intros (w & Hin & Hw)%existsb_exists. apply list_elem_of_In, elem_of_seqZ in Hin.
  unfold HUF_TABLELOG_MAX in Hin. rewrite lanes_get_count in Hw; [|eapply Forall_impl; [exact Hws|]; intros; cbn in *; lia|lia..].
  bools. assert (occurrences w ws = 0) as H0; [|lia]. unfold occurrences. assert (filter (fun x => x = w) ws = []) as ->; [|done].
  destruct (filter _ ws) as [|x l] eqn:Hf; [done|]. assert (x ∈ filter (fun x => x = w) ws) as Hx by (rewrite Hf; by left).
  apply list_elem_of_filter in Hx as [-> Hx]. rewrite Forall_forall in Hws. specialize (Hws _ Hx). cbn in Hws. lia.
Qed.

(** The weights but the last determine it. *)
Lemma weight_stats_last t n L last :
  zlen (weights t) = 256 -> 1 <= n <= 255 -> 1 <= L <= 11 -> 1 <= last <= L ->
  let ws := ztake n (weights t) in
  Forall (fun w => 0 <= w <= 11) ws -> kraft (ws ++ [last]) = 2 ^ L -> 0 < occurrences 1 (ws ++ [last]) ->
  exists t', weight_stats t n = Ok t' /\ nb_symbols t' = n + 1 /\ weights t' = zset (weights t) n last /\ max_num_bits t' = L.
Proof.
  intros Hlen Hn HL Hlast ws Hw11 Hk H1.
  assert (Z.odd (occurrences 1 (ws ++ [last])) = false) as Hodd.
  { rewrite <- kraft_odd, Hk. replace L with (Z.succ (L - 1)) by lia. rewrite Z.pow_succ_r by lia. by rewrite Z.odd_mul.
    apply Forall_app. split; [eapply Forall_impl; [exact Hw11|]; intros; cbn in *; lia|]. constructor; [lia|constructor]. }
  assert (kraft ws = 2 ^ L - 2 ^ (last - 1)) as Htot.
  { rewrite kraft_app in Hk. unfold kraft at 2 in Hk. cbn [foldr] in Hk. rewrite cell_share_pow in Hk by lia. lia. }
  pose proof (pow2_le (last - 1) (L - 1) ltac:(lia)) as Hle. pose proof (pow2_pos (last - 1) ltac:(lia)) as Hp0.
  assert (2 ^ L = 2 * 2 ^ (L - 1)) as H2L by (rewrite <- Z.pow_succ_r by lia; f_equal; lia).
  pose proof (pow2_le L 11 ltac:(lia)) as H11. change (2 ^ 11) with 2048 in H11.
  assert (Z.log2 (kraft ws) = L - 1) as Hlog.
  { apply Z.log2_unique; [lia|]. unfold Z.succ. replace (L - 1 + 1) with L by lia. lia. }
  assert (zlen ws = n) as Hwl by (apply zlen_ztake; lia).
  assert (forall w, 0 <= w < 16 -> lanes_get (foldl lanes_bump lanes_default ws) w = occurrences w ws) as Hget.
  { intros. apply lanes_get_count; [eapply Forall_impl; [exact Hw11|]; intros; cbn in *; lia|lia|lia]. }
  unfold weight_stats. rewrite slice_prefix by lia. cbn [mbind res_bind]. fold ws. rewrite no_high_weight by (done || lia). cbn [mbind res_bind].
  set (counts := foldl lanes_bump lanes_default ws) in *. clearbody counts. pose proof (rank_sum_kraft ws Hw11) as Hrs.
  assert (rank_sum (lanes_get counts) (seqZ 0 12) = kraft ws) as Hrs'.
  { rewrite <- Hrs. apply rank_sum_ext. intros w Hw%elem_of_seqZ. apply Hget. lia. }
  assert (lanes_get counts <$> seqZ 0 12 = (fun w => occurrences w ws) <$> seqZ 0 12) as Hrk.
  { apply list_fmap_ext. intros i w Hi. apply lookup_seqZ in Hi. apply Hget. lia. }
  unfold count_ranks. change (HUF_TABLELOG_MAX + 1) with 12.
  rewrite count_ranks_fold; [|..].
  2: { intros w Hw%elem_of_seqZ. split; [lia|]. rewrite Hget by lia. apply occurrences_nonneg. }
  2: lia.
  2: { rewrite Hrs'. change (2 ^ 32) with 4294967296. lia. }
  rewrite app_nil_l, Hrk, Hrs', Z.add_0_l. cbn [mbind res_bind]. rewrite (proj2 (Z.eqb_neq _ 0)) by lia. cbn [fail_if mbind res_bind].
  rewrite highest_bit_set_spec by (change (2 ^ 32) with 4294967296; lia). cbn [mbind res_bind]. rewrite Hlog.
  replace (L - 1 + 1) with L by lia. change HUF_TABLELOG_MAX with 11. rewrite (proj2 (Z.ltb_ge 11 L)) by lia. cbn [fail_if mbind res_bind].
  rewrite Z.shiftl_1_l. unfold wsub. rewrite (wrap_small 32 (2 ^ L - kraft ws)) by (change (2 ^ 32) with 4294967296; lia).
  replace (2 ^ L - kraft ws) with (2 ^ (last - 1)) by lia. unfold is_power_of_two. rewrite Z.log2_pow2 by lia.
  rewrite (proj2 (Z.ltb_lt 0 _)), Z.eqb_refl by lia. cbn [negb andb fail_if mbind res_bind].
  rewrite highest_bit_set_spec by (change (2 ^ 32) with 4294967296; lia). cbn [mbind res_bind]. rewrite Z.log2_pow2 by lia.
  replace (last - 1 + 1) with last by lia. rewrite (wrap_small 8 last) by (cbn; lia). rewrite store_ok by lia. cbn [mbind res_bind].
  rewrite (idx_ok _ _ (occurrences last ws)) by (rewrite zget_fmap, seqZ_zget by lia; cbn; by rewrite Z.add_0_l).
  cbn [mbind res_bind]. rewrite store_ok by (rewrite zlen_fmap, zlen_seqZ; lia). cbn [mbind res_bind].
  rewrite zset_fmap_rank by lia.
  rewrite (idx_ok _ 1 (occurrences 1 (ws ++ [last]))) by (rewrite zget_fmap, seqZ_zget by lia; done).
  cbn [mbind res_bind].
  assert (2 <= occurrences 1 (ws ++ [last])) as H2 by (destruct (Z.eq_dec (occurrences 1 (ws ++ [last])) 1) as [He|]; [by rewrite He in Hodd|lia]).
  rewrite (proj2 (Z.ltb_ge _ 2)) by lia. rewrite (land_mod _ 1) by lia.
  assert (occurrences 1 (ws ++ [last]) mod 2 = 0) as Hm by (rewrite Zmod_odd, Hodd; done). change (2 ^ 1) with 2. rewrite Hm. cbn [Z.eqb negb orb fail_if mbind res_bind].
  eexists. split; [done|]. cbn. rewrite wrap_small by (cbn; lia). done.
Qed.

Lemma weight_stats_complete t n L last :
  zlen (weights t) = 256 -> bytes (weights t) -> 1 <= n <= 255 -> 1 <= L <= 11 -> 1 <= last <= L ->
  let ws := ztake n (weights t) in
  Forall (fun w => 0 <= w <= 11) ws -> kraft (ws ++ [last]) = 2 ^ L -> 0 < occurrences 1 (ws ++ [last]) ->
  exists t', weight_stats t n = Ok t' /\ complete t' /\ code_weights t' = ws ++ [last] /\ max_num_bits t' = L /\ same_tables t t'.
Proof.
  intros Hlen Hb Hn HL Hlast ws Hw11 Hk H1.
  destruct (weight_stats_last t n L last Hlen Hn HL Hlast Hw11 Hk H1) as (t' & Ht & Hnb & Hws & Hm).
  pose proof (weight_stats_ok t n Hlen Hb Hn ltac:(eapply Forall_impl; [exact Hw11|]; intros; cbn in *; lia)) as Hsafe.
  rewrite Ht in Hsafe. destruct Hsafe as (Hc & _ & _ & Hst). exists t'. split_and!; [done..| |done|done].
  unfold code_weights. rewrite Hnb, Hws, (ztake_S _ n last) by (apply zget_zset_eq; lia). by rewrite ztake_zset_ge by lia.
Qed.

(** ** Counting the weights *)

(** The counts of the weights and the largest. *)
Record weight_tally (ws count : list Z) (m : Z) : Prop := {
  wy_len : zlen count = 13;
  wy_count : forall w, 0 <= w <= 12 -> zget count w = Some (occurs w ws);
  wy_max : 0 <= m <= 12;
  wy_top : forall w, w ∈ ws -> w <= m;
  wy_last : m = 0 \/ m ∈ ws;
}.

Lemma count_weights_ok {E} ws : Forall (fun w => 0 <= w <= 12) ws -> zlen ws < 2 ^ 32 ->
  returns (fun '(count, m) => weight_tally ws count m) (foldM count_weight (zrepeat 0 (HUF_CTABLELOG_MAX + 1), 0) ws : res E _).
Proof.
  intros Hws Hlen. change (2 ^ 32) with 4294967296 in Hlen.
  assert (returns (fun '(count, m) => weight_tally (take (length ws) ws) count m)
    (foldM count_weight (zrepeat 0 (HUF_CTABLELOG_MAX + 1), 0) ws : res E _)) as H; [|by rewrite firstn_all in H].
  apply returns_foldM with (I := fun k '(count, m) => weight_tally (take k ws) count m).
  - split; [done| |lia|by intros w ?%elem_of_nil|by left]. intros w Hw. unfold HUF_CTABLELOG_MAX. rewrite zget_zrepeat by lia. done.
  - intros k w [count m] Hk [Hl Hc Hm Ht Hla]. pose proof (proj1 (Forall_lookup _ _) Hws k w Hk) as Hw. cbn beta in Hw.
    unfold count_weight. rewrite (idx_ok _ _ _ (Hc w Hw)). cbn [mbind res_bind]. rewrite store_ok by lia. cbn [mbind res_bind returns].
    rewrite (take_S_r _ _ _ Hk). pose proof (occurs_range w (take k ws)) as Hr.
    assert (zlen (take k ws) < zlen ws) as Htl by (apply lookup_lt_Some in Hk; unfold zlen; rewrite length_take; lia).
    split.
    + by rewrite zlen_zset.
    + intros x Hx. rewrite zget_zset, Hc, occurs_app by lia. cbn [occurs]. unfold wadd. rewrite wrap_small by (change (2 ^ 32) with 4294967296; lia).
      destruct (Z.eqb_spec w x) as [->|]; cbn [Z.b2z]; f_equal; lia.
    + lia.
    + intros x [Hx| ->%list_elem_of_singleton]%elem_of_app; [specialize (Ht x Hx)|]; lia.
    + destruct (Z.max_spec m w) as [[_ ->]|[_ ->]]; [right; apply elem_of_app; right; by left|].
      destruct Hla as [?|?]; [by left|right; apply elem_of_app; by left].
Qed.

Lemma tally_used ws count m : Forall (fun w => 0 <= w <= 12) ws -> weight_tally ws count m ->
  ztake (m + 1) count = (fun s => occurs s ws) <$> seqZ 0 (m + 1) /\ cell_sum (ztake (m + 1) count) = zlen ws.
Proof.
  intros Hws [Hl Hc Hm Ht _]. assert (ztake (m + 1) count = (fun s => occurs s ws) <$> seqZ 0 (m + 1)) as He.
  { apply zlist_eq; [rewrite zlen_fmap, zlen_seqZ, zlen_ztake; lia|]. intros i Hi. rewrite zlen_ztake in Hi by lia.
    by rewrite zget_ztake, zget_fmap, seqZ_zget, Hc by lia. }
  split; [done|]. rewrite He. apply occurs_sum; [lia|]. apply Forall_forall. intros w Hw. specialize (Ht w Hw).
  rewrite Forall_forall in Hws. specialize (Hws w Hw). cbn in *. lia.
Qed.

Lemma foldr_max_in l : Forall (fun c => 0 <= c) l -> l <> [] -> In (foldr Z.max 0 l) l.
Proof.
  induction 1 as [|c l Hc Hl IH]; [done|]. intros _. cbn [foldr]. destruct l as [|d l]; [left; cbn; lia|].
  destruct (Z.max_spec c (foldr Z.max 0 (d :: l))) as [[_ ->]|[_ ->]]; [right; by apply IH|by left].
Qed.

Lemma foldr_max_ge l c : In c l -> c <= foldr Z.max 0 l.
Proof. induction l as [|d l IH]; [done|]. intros [->|Hin]; cbn [foldr]; [lia|]. specialize (IH Hin). lia. Qed.

(** ** The FSE form *)

Lemma weight_log_ok {E} n m : 2 <= n < 2 ^ 31 -> 0 <= m <= 12 ->
  returns (fun log => 5 <= log <= 6 /\ min_table_log n m <= log) (optimal_table_log MAX_FSE_TABLELOG_FOR_HUFF_HEADER n m : res E Z).
Proof.
  intros Hn Hm. assert (0 <= min_table_log n m <= 5) as Hmin.
  { change (2 ^ 31) with 2147483648 in Hn. unfold min_table_log. rewrite !wrap_small by (change (2 ^ 32) with 4294967296; lia).
    rewrite (highest_bit_log2 n) by (change (2 ^ 32) with 4294967296; lia). pose proof (Z.log2_nonneg n).
    pose proof (forall_below_spec 13 (fun m => (0 <=? highest_bit m) && (highest_bit m <=? 3)) eq_refl m ltac:(lia)) as H5. cbn beta in H5. lia. }
  unfold optimal_table_log, optimal_table_log_internal.
  rewrite (proj2 (Z.ltb_lt 1 n)) by lia. cbn [rassert mbind res_bind returns]. change (MAX_FSE_TABLELOG_FOR_HUFF_HEADER =? 0) with false. cbv iota.
  set (src := wsub _ _ _). unfold FSE_MAX_TABLELOG, FSE_MIN_TABLELOG, MAX_FSE_TABLELOG_FOR_HUFF_HEADER.
  destruct (Z.ltb_spec src 6); [destruct (Z.ltb_spec src (min_table_log n m))|destruct (Z.ltb_spec 6 (min_table_log n m))]; lia.
Qed.

Lemma cell_sum_two l i j x y : zget l i = Some x -> zget l j = Some y -> i <> j -> Z.abs x + Z.abs y <= cell_sum l.
Proof.
  intros Hx Hy Hij. pose proof (cell_sum_update l i x 0 Hx) as Hu. pose proof (zget_lt _ _ _ Hx). change (Z.abs 0) with 0 in Hu.
  assert (zget (zset l i 0) j = Some y) as Hy'.
  { rewrite zget_zset by lia. by rewrite (proj2 (Z.eqb_neq i j)). }
  pose proof (cell_sum_ge _ _ _ Hy'). lia.
Qed.

(** Two tables of one distribution of weights. *)
Lemma described_codec log P m ct tb syms : tiles MAX_SEQ log P -> log <= 6 -> zlen P <= 12 ->
  (exists i j x y, zget P i = Some x /\ zget P j = Some y /\ i <> j /\ x <> 0 /\ y <> 0) ->
  ct_ready log P m ct -> built None log P tb syms ->
  weights_table log (ztake (2 ^ log) (cells tb)) /\ weight_codec ct log (ztake (2 ^ log) (cells tb)) (counted_in P).
Proof.
  intros Ht Hlog Hl (i & j & x & y & Hi & Hj & Hij & Hx & Hy) Hct Hb. pose proof Ht as [Hsum Hlow _ Hal].
  unfold ACC_LOG_OFFSET in Hal. split.
  - apply (built_weights_table log P tb syms Hlog); [split; [done|done|unfold HUF_TABLELOG_MAX; lia|done]|done].
  - split; [lia|apply (ct_ready_codec None log MAX_SEQ P m ct tb syms Ht ltac:(done) Hct Hb)|].
    intros s (c & Hc & Hne). destruct Hct as ((syms' & Hsp & Hbt) & _).
    rewrite (spread_of_unique log MAX_SEQ P syms' syms Ht Hsp (built_spread _ _ _ _ _ Hb)) in Hbt.
    assert (Z.abs c < 2 ^ log) as Hcl.
    { rewrite <- Hsum. destruct (Z.eq_dec s i) as [->|]; [pose proof (cell_sum_two P i j c y Hc Hj Hij)|pose proof (cell_sum_two P s i c x Hc Hi ltac:(done))]; lia. }
    destruct (built_first None log MAX_SEQ P syms ct tb Ht Hbt Hb s c Hc ltac:(lia)) as (k & e & Hk & He & Hcc & Hn & Hinit).
    exists k, e. split; [done|]. split; [by rewrite zget_ztake by lia|]. split; [exact Hcc|]. done.
Qed.

(** What the decoder reads of a description in the FSE form. *)
Definition weights_spelled (ws out : list Z) : Prop := forall tb buf, max_symbol tb = HUF_TABLELOG_MAX -> zlen ws <= zlen buf ->
  exists tb' n buf', build_decoder tb out 6 None = Ok (tb', n) /\ 0 <= n <= zlen out /\
    fse_decompress_weights tb' (zdrop n out) buf = Ok (buf', zlen ws) /\ zlen buf' = zlen buf /\ ztake (zlen ws) buf' = ws.

Lemma compress_weights_ok {E} ws : Forall (fun w => 0 <= w <= 11) ws -> zlen ws <= 255 ->
  returns (fun o => exists h out, o = Some (h, out) /\ (1 < h -> zlen out = h /\ bytes out /\ weights_spelled ws out))
    (compress_weights ws : res E _).
Proof.
  intros Hws Hlen. unfold compress_weights. destruct (Z.leb_spec (zlen ws) 1) as [|H2]; [exists 0, []; split; [done|lia]|].
  assert (Forall (fun w => 0 <= w <= 12) ws) as Hws12 by (eapply Forall_impl; [exact Hws|]; intros; cbn in *; lia).
  eapply returns_bind; [apply (count_weights_ok ws Hws12); change (2 ^ 32) with 4294967296; lia|].
  intros [count m] Hy. pose proof Hy as [Hl Hc Hm Htop Hla]. rewrite slice_prefix by lia. cbn [mbind res_bind].
  destruct (tally_used ws count m Hws12 Hy) as [Hused Hsum].
  set (used := ztake (m + 1) count) in *. assert (Forall (fun c => 0 <= c) used) as Hnn.
  { rewrite Hused. apply Forall_fmap, Forall_forall. intros s _. apply occurs_range. }
  destruct (Z.eqb_spec (foldr Z.max 0 used) (zlen ws)) as [|Hmax]; [exists 1, []; split; [done|lia]|].
  destruct (foldr Z.max 0 used =? 1); [exists 0, []; split; [done|lia]|].
  assert (m ∈ ws) as Hmw.
  { destruct Hla as [->|]; [|done]. destruct ws as [|w ws]; [done|]. specialize (Htop w ltac:(by left)).
    pose proof (Forall_inv Hws). replace 0 with w by (cbn in *; lia). by left. }
  assert (m <= 11) as Hm11 by (rewrite Forall_forall in Hws; specialize (Hws m Hmw); cbn in Hws; lia).
  assert (0 < occurs m ws) as Hom by (apply occurs_pos, list_elem_of_In; done).
  assert (forall s, 0 <= s <= m -> zget used s = Some (occurs s ws)) as Hg by (intros s Hs; unfold used; rewrite zget_ztake by lia; apply Hc; lia).
  assert (~ In (zlen ws) used) as Hno.
  { intros Hin. pose proof (foldr_max_ge _ _ Hin) as Hge. apply Hmax. apply Z.le_antisymm; [|done].
    assert (In (foldr Z.max 0 used) used) as Hf by (apply foldr_max_in; [done|by intros He; rewrite He in Hin]).
    rewrite Hused in Hf at 2. apply in_map_iff in Hf as (s & <- & _). apply occurs_range. }
  assert (occurs m ws <> zlen ws) as Hne.
  { intros He. apply Hno. rewrite <- He. apply list_elem_of_In. specialize (Hg m ltac:(lia)). apply zget_Some in Hg as [_ Hg]. by eapply list_elem_of_lookup_2. }
  assert (In m ws) as Hin by by apply list_elem_of_In.
  destruct (other_code ws m Hin Hne) as (s & Hs & Hsm). pose proof (proj1 (occurs_pos _ _) Hs) as Hos.
  assert (0 <= s <= m) as Hsr.
  { apply list_elem_of_In in Hs. specialize (Htop s Hs). rewrite Forall_forall in Hws. specialize (Hws s Hs). cbn in Hws. lia. }
  eapply returns_bind; [apply (weight_log_ok (zlen ws) m); [change (2 ^ 31) with 2147483648; lia|done]|]. intros log [Hlog Hmin].
  destruct (normalize_codes_in (HUF_CTABLELOG_MAX + 1) count m (zlen ws) log (occurs m ws) false) as (P & l' & -> & Htl & HPl & Hl' & Hne' & H2P);
    try (fold used; done || (unfold MAX_SEQ, MAX_ML, HUF_CTABLELOG_MAX in *; lia)).
  { apply Hc. lia. }
  fold used in H2P. cbn [ok_opt mbind res_bind]. set (Q := zrepeat 0 (HUF_CTABLELOG_MAX + 1 - (m + 1))).
  destruct (write_codes P Q log l' Htl ltac:(by replace (zlen P - 1) with m by lia) Hne') as (header & Hw & Hhb & Hh2).
  replace (zlen P - 1) with m in Hw by lia. rewrite Hw. cbn [ok_opt mbind res_bind].
  pose proof (zlen_nonneg Q) as HQ. assert (ztake (m + 1) (P ++ Q) = P) as HtP by (rewrite ztake_app_le by lia; apply ztake_all; lia).
  assert (zlen (state_table ctable_default) = 512) as H512 by done.
  assert (0 <= m <= MAX_SEQ) as Hms by (unfold MAX_SEQ, MAX_ML; lia).
  eapply returns_bind.
  { apply (ct_build_ok ctable_default (P ++ Q) m log H512 Hms); [rewrite zlen_app; lia|by rewrite HtP]. }
  rewrite HtP. intros ct Hready.
  assert (forall w, In w ws -> exists x, zget P w = Some x /\ x <> 0) as Hcounted.
  { intros w Hw'. pose proof (proj1 (occurs_pos _ _) Hw') as Ho. apply list_elem_of_In in Hw'. specialize (Htop w Hw').
    rewrite Forall_forall in Hws. specialize (Hws w Hw'). cbn in Hws. pose proof (Hg w ltac:(lia)) as Hgw. apply zget_Some in Hgw as [Hw0 Hgw].
    destruct (Forall2_lookup_l _ _ _ _ _ H2P Hgw) as (x & Hx & Hz). exists x. split; [by apply zget_Some|]. lia. }
  destruct (Hcounted s Hs) as (x & Hx & Hx0). destruct (Hcounted m Hin) as (y & Hy' & Hy0).
  assert (2 <= zlen (filter (fun c => c <> 0) P)) as Hf2 by (apply (nonzero_two P s m x y); done || lia).
  assert (forall tb rest, max_symbol tb = HUF_TABLELOG_MAX -> bytes rest ->
    exists tb' syms, build_decoder tb (header ++ rest) 6 None = Ok (tb', zlen header) /\ built None log P tb' syms) as Hdec.
  { intros tb rest Hmt Hrest. destruct (returns_inv _ _ (build_decoder_described header tb P Q rest log 6 None l' Htl ltac:(lia) ltac:(done)
      ltac:(rewrite Hmt; unfold HUF_TABLELOG_MAX; lia) ltac:(by rewrite Hmt) ltac:(done) ltac:(by replace (zlen P - 1) with m by lia) Hne' Hf2 Hrest
      ltac:(by replace (zlen P - 1) with m by lia))) as ([tb' n] & He & -> & _ & syms & Hb). by exists tb', syms. }
  assert (forall tb' syms, built None log P tb' syms -> weights_table log (ztake (2 ^ log) (cells tb')) /\
    weight_codec ct log (ztake (2 ^ log) (cells tb')) (counted_in P)) as Hcodec.
  { intros tb' syms Hb. apply (described_codec log P m ct tb' syms Htl ltac:(lia) ltac:(lia)); [|done..]. by exists s, m, x, y. }
  assert (Forall (counted_in P) ws) as Hcov by (apply Forall_forall; intros w Hw'; apply Hcounted; by apply list_elem_of_In).
  eapply returns_bind.
  { instantiate (1 := fun body => zlen body = 0 \/ forall tb' syms, built None log P tb' syms ->
      weight_stream log (ztake (2 ^ log) (cells tb')) ws body).
    destruct (Z.leb_spec (zlen ws) 2) as [H3|H3].
    - unfold compress_using_ctable. rewrite (proj2 (Z.leb_le _ _)) by lia. by left.
    - destruct (Hdec (FseTable.new HUF_TABLELOG_MAX) [] eq_refl ltac:(constructor)) as (tb & syms & _ & Hb).
      destruct (returns_inv _ _ (compress_weights_stream (E := E) ct log _ _ (proj2 (Hcodec tb syms Hb)) ws Hcov ltac:(lia))) as (body & Heq & _).
      rewrite Heq. cbn [returns]. right. intros tb' syms' Hb'.
      pose proof (compress_weights_stream (E := E) ct log _ _ (proj2 (Hcodec tb' syms' Hb')) ws Hcov ltac:(lia)) as Hr. by rewrite Heq in Hr. }
  intros body Hbody. destruct (Z.eqb_spec (zlen body) 0) as [|Hb0]; [exists 0, []; split; [done|lia]|].
  destruct Hbody as [|Hbody]; [done|]. eexists _, _. split; [done|]. intros _.
  assert (bytes body) as Hbb.
  { destruct (Hdec (FseTable.new HUF_TABLELOG_MAX) [] eq_refl ltac:(constructor)) as (tb & syms & _ & Hb).
    destruct (Hbody tb syms Hb) as (fs & ja & jb & _ & Hbytes & _). done. }
  split; [by rewrite zlen_app|]. split; [by apply Forall_app|].
  intros tb buf Hmt Hbuf. destruct (Hdec tb body Hmt Hbb) as (tb' & syms & Hbd & Hb). destruct (Hcodec tb' syms Hb) as [Hwt Hwc].
  pose proof (built_size _ _ _ _ _ Hb) as Hsz. pose proof (built_log _ _ _ _ _ Hb) as Hal. pose proof (built_cap _ _ _ _ _ Hb) as Hcap.
  destruct (weight_stream_decodes tb' body buf ws ct (counted_in P)) as (buf' & Hd & Hbl & Hbt); rewrite ?Hal, ?Hsz; try done.
  { by apply (Hbody tb' syms). }
  exists tb', (zlen header), buf'. split; [done|]. pose proof (zlen_nonneg header). pose proof (zlen_nonneg body). split; [rewrite zlen_app; lia|].
  assert (zdrop (zlen header) (header ++ body) = body) as -> by (unfold zdrop, zlen; by rewrite Nat2Z.id, drop_app_length). done.
Qed.

(** ** The raw form *)

Lemma zget_unpack W packed i : 0 <= i < 2 * zlen packed -> 2 * zlen packed <= zlen W ->
  zget (unpack_weights W packed) i = (fun b => if Z.even i then Z.shiftr b 4 else Z.land b 15) <$> zget packed (i / 2).
Proof.
  revert W i. induction packed as [|b packed IH]; intros W i Hi Hl; [change (zlen (@nil Z)) with 0 in *; lia|].
  rewrite zlen_cons in *. pose proof (zlen_nonneg packed). destruct W as [|w1 [|w2 W]]; [change (zlen (@nil Z)) with 0 in Hl; lia|
    rewrite zlen_cons in Hl; change (zlen (@nil Z)) with 0 in Hl; lia|]. rewrite !zlen_cons in Hl. cbn [unpack_weights].
  destruct (Z.eq_dec i 0) as [->|]; [done|]. destruct (Z.eq_dec i 1) as [->|]; [done|].
  replace i with (i - 2 + 1 + 1) by lia. rewrite !zget_cons_S by lia. rewrite IH by lia.
  replace (i - 2 + 1 + 1) with (i - 2 + 1 * 2) by lia. rewrite Z.div_add by lia. rewrite zget_cons_S by divlia.
  replace (i - 2 + 1 * 2) with (i - 2 + 2 * 1) by lia. by rewrite Z.even_add_mul_2.
Qed.

Lemma zlen_unpack W packed : 2 * zlen packed <= zlen W -> zlen (unpack_weights W packed) = zlen W.
Proof.
  revert W. induction packed as [|b packed IH]; intros W Hl; [by destruct W as [|? []]|].
  rewrite zlen_cons in Hl. pose proof (zlen_nonneg packed). destruct W as [|w1 [|w2 W]]; [done..|].
  rewrite !zlen_cons in Hl. cbn [unpack_weights]. rewrite !zlen_cons, IH; lia.
Qed.

(** Two weights to a byte. *)
Lemma pack_weights_ok {E} weights ms : zlen weights = 256 -> Forall (fun w => 0 <= w < 16) weights -> 1 <= ms <= 254 ->
  returns (fun packed => zlen packed = div_ceil ms 2 /\ bytes packed /\
      forall i b, zget packed i = Some b -> zget weights (2 * i) = Some (Z.shiftr b 4) /\ zget weights (2 * i + 1) = Some (Z.land b 15))
    (pack_weights weights ms : res E _).
Proof.
  intros Hl Hw Hm. unfold pack_weights. assert (0 <= 2 * div_ceil ms 2 <= 255) as Hd by (unfold div_ceil; divlia).
  eapply returns_mono; [apply (returns_foldM (fun k packed => zlen packed = Z.of_nat k /\ bytes packed /\
      forall i b, zget packed i = Some b -> zget weights (2 * i) = Some (Z.shiftr b 4) /\ zget weights (2 * i + 1) = Some (Z.land b 15)))|].
  - split_and!; [done|constructor|]. intros i b Hg%zget_lt. change (zlen (@nil Z)) with 0 in Hg. lia.
  - intros k i packed Hk (Hp & Hb & Hg). apply lookup_seqZ in Hk as [-> Hk]. rewrite Z.add_0_l.
    destruct (zget_is_Some weights (2 * Z.of_nat k) ltac:(lia)) as [a Ha]. destruct (zget_is_Some weights (2 * Z.of_nat k + 1) ltac:(lia)) as [c Hc].
    pose proof (Forall_zget _ _ _ _ Hw Ha) as Har. pose proof (Forall_zget _ _ _ _ Hw Hc) as Hcr. cbn beta in Har, Hcr.
    rewrite (idx_ok _ _ _ Ha). cbn [mbind res_bind]. rewrite (idx_ok _ _ _ Hc). cbn [mbind res_bind returns].
    assert (wadd 8 (wshl 8 a 4) c = 16 * a + c) as ->.
    { rewrite wshl_div by lia. change (2 ^ 4) with 16. change (2 ^ 8) with 256. rewrite Z.mod_small by lia. unfold wadd. rewrite wrap_small by (change (2 ^ 8) with 256; lia). lia. }
    split_and!; [rewrite zlen_app, Hp; change (zlen [16 * a + c]) with 1; lia|apply Forall_app; split; [done|constructor; [unfold is_byte; lia|constructor]]|].
    intros i b Hi. destruct (Z.eq_dec i (Z.of_nat k)) as [->|Hne].
    + rewrite zget_app_r in Hi by lia. rewrite Hp, Z.sub_diag in Hi. injection Hi as <-. rewrite shiftr_div by lia. change (2 ^ 4) with 16.
      rewrite (land_mod _ 4) by lia. change (2 ^ 4) with 16. rewrite Ha, Hc. split; f_equal; divlia.
    + apply Hg. pose proof (zget_lt _ _ _ Hi) as Hr. rewrite zlen_app in Hr. change (zlen [16 * a + c]) with 1 in Hr. by rewrite zget_app_l in Hi by lia.
  - intros packed (Hp & Hb & Hg). rewrite length_seqZ in Hp. split; [lia|]. done.
Qed.

(** ** Both forms *)

(** What [read_weights] makes of a description, whatever follows. *)
Definition tree_described (d ws : list Z) : Prop := forall t rest, huf_wf t -> bytes rest ->
  exists t', read_weights t (d ++ rest) = Ok (t', (zlen d, zlen ws)) /\ ztake (zlen ws) (weights t') = ws.

Lemma zslice_after (x : Z) (l rest : list Z) : zslice ((x :: l) ++ rest) 1 (1 + zlen l) = Some l.
Proof.
  pose proof (zlen_nonneg l). pose proof (zlen_nonneg rest). rewrite zslice_ok; [|lia|rewrite zlen_app, zlen_cons; lia].
  change (zdrop 1 ((x :: l) ++ rest)) with (l ++ rest). replace (1 + zlen l - 1) with (zlen l) by lia.
  rewrite ztake_app_le, ztake_all by lia. done.
Qed.

Lemma fse_described ws out : zlen ws <= 255 -> bytes out -> zlen out < 128 -> weights_spelled ws out ->
  tree_described (zlen out :: out) ws.
Proof.
  intros Hws Hb Hl Hsp t rest [Hw _ _ Hf] Hrest. pose proof (zlen_nonneg out). pose proof (zlen_nonneg rest). unfold read_weights.
  change (zget ((zlen out :: out) ++ rest) 0) with (Some (zlen out)). cbn [ok_or mbind res_bind].
  rewrite (proj2 (Z.leb_gt 128 _)) by lia. rewrite zslice_after.
  cbn [ok_or mbind res_bind]. destruct (Hsp (fse_table t) (ztake 255 (weights t)) Hf ltac:(rewrite zlen_ztake; lia))
    as (tb & n & buf & -> & Hn & Hd & Hbl & Hbt). cbn [mbind res_bind]. rewrite slice_from_ok by lia. cbn [mbind res_bind].
  rewrite slice_prefix by lia. cbn [mbind res_bind]. rewrite Hd. cbn [mbind res_bind]. rewrite zlen_cons.
  eexists. split; [f_equal; f_equal; f_equal; lia|]. cbn [with_weights weights].
  rewrite zlen_ztake in Hbl by lia. by rewrite ztake_app_le by lia.
Qed.

Lemma raw_described weights ws packed : 1 <= zlen ws <= 128 -> zlen weights = 256 -> ztake (zlen ws) weights = ws ->
  zlen packed = div_ceil (zlen ws) 2 ->
  (forall i b, zget packed i = Some b -> zget weights (2 * i) = Some (Z.shiftr b 4) /\ zget weights (2 * i + 1) = Some (Z.land b 15)) ->
  tree_described (127 + zlen ws :: packed) ws.
Proof.
  intros Hws Hl Htake Hp Hg t rest [Hw _ _ Hf] Hrest. pose proof (zlen_nonneg rest). unfold read_weights.
  assert (zlen ws <= 2 * zlen packed <= 256) as Hd by (rewrite Hp; unfold div_ceil; divlia).
  change (zget ((127 + zlen ws :: packed) ++ rest) 0) with (Some (127 + zlen ws)). cbn [ok_or mbind res_bind].
  rewrite (proj2 (Z.leb_le 128 _)) by lia. replace (127 + zlen ws - 127) with (zlen ws) by lia. rewrite <- Hp.
  rewrite zslice_after. cbn [ok_or mbind res_bind]. rewrite zlen_cons. eexists. split; [f_equal; f_equal; f_equal; lia|]. cbn [with_weights HufTable.weights].
  apply zlist_eq.
  { rewrite zlen_ztake; rewrite ?zlen_unpack; lia. }
  intros i Hi. rewrite zlen_ztake in Hi by (rewrite zlen_unpack; lia). rewrite zget_ztake, zget_unpack by (lia || divlia).
  destruct (zget_is_Some packed (i / 2) ltac:(divlia)) as [b Hb]. rewrite Hb. cbn [fmap option_fmap option_map].
  destruct (Hg _ _ Hb) as [H0 H1]. assert (zget ws i = zget weights i) as -> by (rewrite <- Htake at 1; by rewrite zget_ztake by lia).
  rewrite (Z.div_mod i 2) at 2 by lia. rewrite Zmod_even. destruct (Z.even i); [rewrite Z.add_0_r|]; done.
Qed.

(** ** [write_ctable] *)

Lemma huff_weight_ok {E} L lens t n : huf_lens L lens -> L <= 11 -> he_log t = L -> canon_elts L lens (elts t) -> 0 <= n < zlen lens ->
  huff_weight t L n = (Ok (default 0 (zget (weights_of L lens) n)) : res E Z).
Proof.
  intros Hl H11 Ht [Hle He] Hn. pose proof (hl_log _ _ Hl) as HL. pose proof (hl_len _ _ Hl) as Hll. unfold huff_weight, huf_nb_bits.
  rewrite (idx_ok _ _ _ (He n ltac:(lia))). cbn [mbind res_bind]. destruct (zget_is_Some _ _ Hn) as [b Hb].
  unfold weights_of. rewrite zget_fmap, Hb. cbn [fmap option_fmap option_map]. cbv zeta.
  change (default 0 (Some b)) with b. change (default 0 (Some (if b =? 0 then 0 else L + 1 - b))) with (if b =? 0 then 0 else L + 1 - b).
  destruct (Z.eqb_spec b 0) as [->|Hb0]; [done|].
  destruct (canon_value_range L lens Hl n b Hb Hb0) as [Hbr Hv]. destruct (elt_low (canon_value L lens n b) b ltac:(lia) Hv) as (-> & _).
  rewrite (proj2 (Z.eqb_neq b 0)) by done. unfold wadd, wsub. rewrite (wrap_small 32 (L + 1)) by (change (2 ^ 32) with 4294967296; lia).
  rewrite (wrap_small 32) by (change (2 ^ 32) with 4294967296; lia). rewrite wrap_small by (change (2 ^ 8) with 256; lia). done.
Qed.

Lemma write_ctable_ok {E} L lens t ms : huf_lens L lens -> L <= 11 -> he_log t = L -> he_max t = ms -> zlen lens = ms + 1 -> 1 <= ms ->
  canon_elts L lens (elts t) ->
  returns (fun o => match o with
    | Some d => bytes d /\ zlen d <= 128 /\ tree_described d (weights_of L (ztake ms lens))
    | None => 128 < ms
    end) (write_ctable t ms L : res E _).
Proof.
  intros Hl H11 Ht Hm Hll Hms Hcan. pose proof (hl_len _ _ Hl) as Hlr. pose proof (hl_log _ _ Hl) as HL. unfold write_ctable. rewrite Ht, Hm, !Z.eqb_refl. cbn [rassert mbind res_bind].
  change HUF_SYMBOLVALUE_MAX with 255. rewrite (proj2 (Z.ltb_ge 255 ms)) by lia. set (ws := weights_of L (ztake ms lens)).
  assert (zlen ws = ms) as Hwl by (unfold ws; rewrite zlen_weights_of, zlen_ztake; lia).
  assert (Forall (fun w => 0 <= w <= 11) ws) as Hw11.
  { unfold ws. rewrite <- weights_of_ztake. apply Forall_take. eapply Forall_impl; [apply (weights_range L lens Hl)|]. intros; cbn in *; lia. }
  eapply returns_bind.
  { apply (returns_for_up (fun i weights => zlen weights = 256 /\ Forall (fun w => 0 <= w < 16) weights /\ ztake i weights = ztake i ws)); [lia| |].
    - split_and!; [done|apply Forall_zrepeat; lia|done].
    - intros i weights Hi (H1 & H2 & H3). rewrite (huff_weight_ok L lens t i Hl H11 Ht Hcan) by lia. cbn [mbind res_bind].
      destruct (zget_is_Some ws i ltac:(lia)) as [w Hw]. pose proof (Forall_zget _ _ _ _ Hw11 Hw) as Hwr. cbn beta in Hwr.
      assert (zget (weights_of L lens) i = Some w) as ->.
      { unfold ws in Hw. rewrite <- weights_of_ztake in Hw. by rewrite zget_ztake in Hw by lia. }
      change (default 0 (Some w)) with w. rewrite store_ok by lia. cbn [returns]. split_and!; [by rewrite zlen_zset|apply Forall_zset; [done|lia]|].
      rewrite (ztake_S _ i w) by (apply zget_zset_eq; lia). rewrite (ztake_S _ i w) by done. rewrite ztake_zset_ge by lia. by rewrite H3. }
  intros weights (H1 & H2 & H3). rewrite Z.add_0_l in H3. rewrite (ztake_all ws ms) in H3 by lia. rewrite slice_prefix by lia. cbn [mbind res_bind]. rewrite H3.
  eapply returns_bind; [apply (compress_weights_ok ws Hw11); lia|]. intros o (h & out & -> & Hout).
  destruct ((1 <? h) && (h <? ms / 2)) eqn:Hh.
  - bools. destruct Hout as (Ho & Hb & Hsp); [done|]. assert (ms / 2 <= 127) as Hm2 by divlia. cbn [returns]. rewrite wrap_small by (change (2 ^ 8) with 256; lia). rewrite <- Ho in *.
    split_and!; [constructor; [unfold is_byte; lia|done]|rewrite zlen_cons; lia|apply fse_described; [lia|done|lia|done]].
  - clear Hout Hh. change (256 - 128) with 128. destruct (Z.ltb_spec 128 ms); [done|].
    rewrite store_ok by lia. cbn [mbind res_bind].
    eapply returns_bind; [apply (pack_weights_ok (zset weights ms 0) ms); [by rewrite zlen_zset|apply Forall_zset; [done|lia]|lia]|].
    intros packed (Hp & Hb & Hg). cbn [returns]. rewrite wrap_small by (change (2 ^ 8) with 256; lia).
    assert (zlen packed <= 64) as Hp64 by (rewrite Hp; unfold div_ceil; divlia).
    split_and!; [constructor; [unfold is_byte; lia|done]|rewrite zlen_cons; lia|]. replace (128 + (ms - 1)) with (127 + zlen ws) by lia.
    apply (raw_described (zset weights ms 0)); [lia|by rewrite zlen_zset|rewrite ztake_zset_ge by lia; by rewrite Hwl|by rewrite Hwl|done].
Qed.

(** ** The tree *)

(** The tree a description gives back, with any code of the last symbol. *)
Lemma read_tree_described L lens d t rest last : huf_lens L lens -> L <= 11 -> tree_described d (weights_of L (ztake (zlen lens - 1) lens)) ->
  2 <= zlen lens -> zget lens (zlen lens - 1) = Some last -> last <> 0 -> huf_wf t -> bytes d -> bytes rest ->
  exists t', read_tree t (d ++ rest) = Ok (t', zlen d) /\ complete t' /\ huf_wf t' /\ code_weights t' = weights_of L lens /\ max_num_bits t' = L.
Proof.
  intros Hl H11 Hd Hll Hlast Hne Hwf Hb Hrest. pose proof (hl_len _ _ Hl) as Hlr. set (ms := zlen lens - 1) in *. set (ws := weights_of L (ztake ms lens)) in *.
  assert (zlen ws = ms) as Hwl by (unfold ws; rewrite zlen_weights_of, zlen_ztake; lia).
  destruct (Hd t rest Hwf Hrest) as (t1 & Hr & Hw1). pose proof (read_weights_ok t (d ++ rest) Hwf ltac:(by apply Forall_app)) as Hs.
  rewrite Hr in Hs. destruct Hs as ([Hwlen Hwb Hws Hwf1] & _ & _ & _ & _ & _). rewrite Hwl in *.
  pose proof (Forall_zget _ _ _ _ (hl_range _ _ Hl) Hlast) as Hlr'. cbn beta in Hlr'.
  assert (weights_of L lens = ws ++ [L + 1 - last]) as Hsplit.
  { replace lens with (ztake ms lens ++ [last]) at 1.
    - unfold ws, weights_of. rewrite fmap_app. cbn. by rewrite (proj2 (Z.eqb_neq last 0)).
    - rewrite <- ztake_S by done. apply ztake_all. unfold ms. lia. }
  destruct (weight_stats_complete t1 ms L (L + 1 - last) Hwlen Hwb ltac:(unfold ms; lia) ltac:(pose proof (hl_log _ _ Hl); lia) ltac:(lia)) as (t2 & Ht2 & Hc & Hcw & Hmx & Hsame).
  - rewrite Hw1. unfold ws. rewrite <- weights_of_ztake. apply Forall_take. eapply Forall_impl; [apply (weights_range L lens Hl)|]. intros; cbn in *; lia.
  - rewrite Hw1, <- Hsplit. apply hl_kraft, Hl.
  - rewrite Hw1, <- Hsplit. pose proof (hl_log _ _ Hl). replace 1 with (L + 1 - L) by lia. rewrite occurrences_weights by (apply hl_range, Hl || lia).
    pose proof (hl_full _ _ Hl) as Hf. apply list_elem_of_lookup_1 in Hf as [i Hi].
    assert (L ∈ filter (fun x => x = L) lens) as Hin by (apply list_elem_of_filter; split; [done|by eapply list_elem_of_lookup_2]).
    unfold occurrences. destruct (filter _ lens); [by apply not_elem_of_nil in Hin|]. rewrite zlen_cons. pose proof (zlen_nonneg l). lia.
  - exists t2. unfold read_tree. rewrite Hr. cbn [mbind res_bind]. rewrite Ht2. cbn [mbind res_bind]. split; [done|]. split; [done|].
    rewrite Hw1 in Hcw. split; [|by rewrite Hcw, Hsplit]. destruct Hsame as (_ & _ & _ & Hso & Hfs). destruct Hc. split; try done; congruence.
Qed.
