(* ===== verification/HufSection.v ===== *)
(** * The literals section, written and read back ([src/huf.rs])

    Every section [compress_literals_with] writes is within its bound and
    decodes to the literals, whichever its type, and leaves both sides with
    the same Huffman table. *)

From S2P Require Import Prelude Words Constants Errors FseTable FseCounts FseBuild HufTable HufWeights HufFill HufDecode HufFast HufX2Table.
From S2P Require Import HufX2 HufX2Fast Headers FrameWrite BlockDecode BitCStream FseEncode FseEncodeProofs FseNorm FseNormProofs Entropy Histogram Params SeqCost SeqEncodeProofs.
From S2P Require Import HufCStream HufRoundTrip HufCTable HufCanon HufTree HufRepay HufBuild HufLiterals HufDescription.

(** ** The histogram of the literals *)

Lemma sumz_cell_sum l : Forall (fun c => 0 <= c) l -> sumz (fun c => c) l = cell_sum l.
Proof. induction 1 as [|c l Hc _ IH]; [done|]. rewrite sumz_cons, cell_sum_cons. lia. Qed.

Lemma nonzero_le_sum l : Forall (fun c => 0 <= c) l -> nonzero l <= cell_sum l.
Proof.
  induction 1 as [|c l Hc _ IH]; [done|]. rewrite cell_sum_cons. unfold nonzero in *. rewrite filter_cons.
  destruct (decide (c <> 0)); rewrite ?zlen_cons; lia.
Qed.

Lemma nonzero_le_len l : nonzero l <= zlen l.
Proof. unfold nonzero, zlen. pose proof (length_filter (fun c => c <> 0) l). lia. Qed.

(** What [hist_count] says of the literals. *)
Record histogram_of (src c : list Z) (ms : Z) : Prop := {
  hg_counts : counts_of c src;
  hg_bytes : bytes src;
  hg_len : 1 <= zlen src <= 2 ^ 17;
  hg_max : 0 <= ms <= 255;
  hg_last : In ms src;
  hg_top : Forall (fun b => b <= ms) src;
}.

Section histogram.
Context (src c : list Z) (ms : Z) (Hh : histogram_of src c ms).

Lemma hist_prefix : ztake (ms + 1) c = (fun s => occurs s src) <$> seqZ 0 (ms + 1).
Proof.
  destruct Hh as [[Hl Hc] _ _ Hm _ _]. apply zlist_eq; [rewrite zlen_fmap, zlen_seqZ, zlen_ztake; lia|].
  intros i Hi. rewrite zlen_ztake in Hi by lia. by rewrite zget_ztake, zget_fmap, seqZ_zget, Hc by lia.
Qed.

Lemma hist_nonneg : Forall (fun c => 0 <= c) (ztake (ms + 1) c).
Proof. rewrite hist_prefix. apply Forall_fmap, Forall_forall. intros s _. apply occurs_range. Qed.

Lemma hist_sum : sumz (fun c => c) (ztake (ms + 1) c) = zlen src.
Proof.
  rewrite sumz_cell_sum by apply hist_nonneg. rewrite hist_prefix. destruct Hh as [_ Hb _ Hm _ Htop]. apply occurs_sum; [lia|].
  apply Forall_forall. intros b Hin. rewrite Forall_forall in Hb, Htop. specialize (Hb b Hin). specialize (Htop b Hin).
  unfold is_byte in Hb. cbn beta in *. lia.
Qed.

Lemma hist_range : Forall (fun x => 0 <= x < 2 ^ 32) c.
Proof.
  destruct Hh as [[Hl Hc] _ Hlen _ _ _]. change (2 ^ 17) with 131072 in Hlen. change (2 ^ 32) with 4294967296.
  apply Forall_lookup. intros i x Hi. pose proof (lookup_lt_Some _ _ _ Hi). rewrite <- zget_nat, Hc in Hi by (unfold zlen in Hl; lia).
  injection Hi as <-. pose proof (occurs_range (Z.of_nat i) src). lia.
Qed.

Lemma hist_get s : 0 <= s <= ms -> zget (ztake (ms + 1) c) s = Some (occurs s src).
Proof. intros Hs. destruct Hh as [[Hl Hc] _ _ Hm _ _]. rewrite zget_ztake by lia. apply Hc. lia. Qed.

Lemma hist_in s : s ∈ src -> 0 <= s <= ms /\ 0 < occurs s src.
Proof.
  intros Hs. destruct Hh as [_ Hb _ _ _ Htop]. rewrite Forall_forall in Hb, Htop. specialize (Hb s Hs). specialize (Htop s Hs).
  unfold is_byte in Hb. split; [lia|]. apply occurs_pos. by apply list_elem_of_In.
Qed.

Lemma hist_nonzero : nonzero (ztake (ms + 1) c) <= zlen src /\ nonzero (ztake (ms + 1) c) <= ms + 1.
Proof.
  split.
  - rewrite <- hist_sum, sumz_cell_sum by apply hist_nonneg. apply nonzero_le_sum, hist_nonneg.
  - destruct Hh as [[Hl _] _ _ Hm _ _]. rewrite <- (zlen_ztake c (ms + 1)) at 2 by lia. apply nonzero_le_len.
Qed.

Lemma hist_two : occurs ms src <> zlen src -> 2 <= nonzero (ztake (ms + 1) c) /\ 1 <= ms.
Proof.
  intros Hne. destruct Hh as [_ _ _ Hm Hin _]. destruct (other_code src ms Hin Hne) as (s & Hs & Hsm).
  destruct (hist_in s) as [Hsr Hos]; [by apply list_elem_of_In|]. destruct (hist_in ms) as [_ Hom]; [by apply list_elem_of_In|].
  split; [|lia]. apply (nonzero_two _ s ms (occurs s src) (occurs ms src)); [by apply hist_get|apply hist_get; lia|lia..].
Qed.
End histogram.

(** ** A table of the encoder, and the decoder's *)

(** A table the encoder may hold: canonical codes of at most 11 bits. *)
Record coder (e : HufTable) (lens : list Z) : Prop := {
  cd_lens : huf_lens (he_log e) lens;
  cd_log : he_log e <= 11;
  cd_len : zlen lens = he_max e + 1;
  cd_elts : canon_elts (he_log e) lens (elts e);
}.

(** The symbol has a code. *)
Definition has_code (lens : list Z) (s : Z) : Prop := exists n, zget lens s = Some n /\ n <> 0.

(** The decoder's table is that of the same lengths. *)
Record twin (e : HufTable) (lens : list Z) (t : HuffmanTable) : Prop := {
  tw_coder : coder e lens;
  tw_built : huf_built t;
  tw_wf : huf_wf t;
  tw_weights : code_weights t = weights_of (he_log e) lens;
  tw_bits : max_num_bits t = he_log e;
}.

Lemma twin_mirrors e lens t : twin e lens t -> mirrors (elts e) (he_log e) (x1_table t) (has_code lens).
Proof. intros [[Hl _ _ He] [Hc _] _ Hw Hb]. by apply canon_mirrors. Qed.

Section coder.
Context (e : HufTable) (lens : list Z) (Hcd : coder e lens).

Lemma coder_log : 1 <= he_log e <= 11.
Proof. destruct Hcd as [Hl H11 _ _]. pose proof (hl_log _ _ Hl). lia. Qed.

Lemma coder_elts_ok : elts_ok (elts e) (he_log e) (has_code lens).
Proof.
  intros s (n & Hs & Hn). destruct Hcd as [Hl H11 Hlen [He Hget]]. pose proof (zget_lt _ _ _ Hs) as Hr. pose proof (hl_len _ _ Hl).
  destruct (canon_value_range _ lens Hl s n Hs Hn) as [Hnr Hv]. eexists _, n. split; [|split; [exact Hnr|exact Hv]].
  rewrite Hget, Hs by lia. cbv zeta. change (default 0 (Some n)) with n. by rewrite (proj2 (Z.eqb_neq n 0)).
Qed.

Lemma coder_bits {E} s : 0 <= s < 256 -> huf_nb_bits e s = (Ok (default 0 (zget lens s)) : res E Z).
Proof.
  intros Hs. destruct Hcd as [Hl H11 Hlen [He Hget]]. unfold huf_nb_bits. rewrite (idx_ok _ _ _ (Hget s Hs)). cbn [mbind res_bind]. cbv zeta.
  destruct (zget lens s) as [n|] eqn:Hn; [|done]. change (default 0 (Some n)) with n. destruct (Z.eqb_spec n 0) as [->|Hn0]; [done|].
  destruct (canon_value_range _ lens Hl s n Hn Hn0) as [Hnr Hv]. by destruct (elt_low (canon_value (he_log e) lens s n) n ltac:(lia) Hv) as (-> & _).
Qed.

Lemma coder_cost {E} count ms : 0 <= ms <= 255 -> ms < zlen count ->
  returns (fun _ => True) (estimate_compressed_size e count ms : res E Z).
Proof.
  intros Hm Hl. unfold estimate_compressed_size. rewrite slice_prefix by lia. cbn [mbind res_bind].
  eapply returns_bind; [|by intros n _]. apply returns_foldM with (I := fun _ _ => True); [done|]. intros k [s x] acc Hk _.
  assert (0 <= s < 256) as Hs.
  { apply list_elem_of_lookup_2, elem_of_enumerate, zget_lt in Hk. rewrite zlen_ztake in Hk by lia. lia. }
  by rewrite (coder_bits s Hs).
Qed.

(** A table that passes has a code for every byte of the input. *)
Lemma validate_ok {E} src c ms : histogram_of src c ms ->
  returns (fun b => b = true -> Forall (has_code lens) src) (validate_ctable e c ms : res E bool).
Proof.
  intros Hh. pose proof Hh as [[Hl Hc] _ _ Hm _ _]. unfold validate_ctable. destruct (Z.ltb_spec (he_max e) ms); [by cbn|].
  rewrite slice_prefix by lia. cbn [mbind res_bind]. set (cs := ztake (ms + 1) c).
  eapply returns_bind with (P := fun bad => bad = false -> forall s, s ∈ src -> has_code lens s).
  - eapply returns_mono.
    + apply (returns_foldM (fun k bad => bad = false -> forall s x, (s, x) ∈ take k (enumerate cs) -> x <> 0 -> has_code lens s)).
      * intros _ s x Hx. by apply not_elem_of_nil in Hx.
      * intros k [s x] bad Hk IH. assert (0 <= s < 256) as Hs.
        { apply list_elem_of_lookup_2, elem_of_enumerate, zget_lt in Hk. unfold cs in Hk. rewrite zlen_ztake in Hk by lia. lia. }
        rewrite (coder_bits s Hs). cbn [mbind res_bind returns]. intros [Hbad Hz]%orb_false_iff s' x' Hin Hx'.
        rewrite (take_S_r _ _ _ Hk) in Hin. apply elem_of_app in Hin as [Hin| [= -> ->]%list_elem_of_singleton]; [by apply (IH Hbad s' x')|].
        unfold has_code. destruct (zget lens s) as [n|].
        -- change (default 0 (Some n)) with n in Hz. rewrite (proj2 (Z.eqb_neq x 0)) in Hz by done. exists n. split; [done|]. cbn in Hz. by apply Z.eqb_neq.
        -- rewrite (proj2 (Z.eqb_neq x 0)) in Hz by done. done.
    + intros bad Hbad -> s Hs. specialize (Hbad eq_refl). rewrite firstn_all in Hbad. destruct (hist_in src c ms Hh s Hs) as [Hsr Ho].
      apply (Hbad s (occurs s src)); [|lia]. apply elem_of_enumerate. by apply (hist_get src c ms Hh).
  - intros bad Hbad. cbn [returns]. intros Hb. apply Forall_forall, Hbad. by destruct bad.
Qed.
End coder.

(** ** The streams *)

(** Streams that decode to the literals, with any twin of the table. *)
Record streams_of (e : HufTable) (lens src : list Z) (single : bool) (c : list Z) : Prop := {
  sm_bytes : bytes c;
  sm_some : 1 <= zlen c;
  sm_long : 8 <= zlen src -> 2 <= zlen c;
  sm_decodes : forall t, twin e lens t -> huf_section_ref t c (negb single) (zlen src) = Some src;
}.

Section streams.
Context (e : HufTable) (lens : list Z) (Hcd : coder e lens) (src : list Z) (Hc : Forall (has_code lens) src).
Context (Hn : 1 <= zlen src <= 2 ^ 17).

Lemma one_stream_of out : huf_stream (elts e) src out -> streams_of e lens src true out.
Proof.
  intros Hs. pose proof Hs as (Hb & Hl & _). pose proof (coder_log _ _ Hcd) as HL.
  destruct (codes_width (elts e) (he_log e) (has_code lens) HL (coder_elts_ok _ _ Hcd) (reverse src)) as [_ Hw]; [by apply Forall_reverse|].
  assert (zlen (reverse src) = zlen src) as Hrl by (unfold zlen; by rewrite length_reverse). rewrite Hrl in Hw.
  set (w := width _) in *. clearbody w.
  split; [done|divlia|intros; divlia|]. intros t Ht. unfold huf_section_ref. cbn [negb].
  replace (Z.to_nat (zlen src)) with (length src) by (unfold zlen; lia).
  by apply (huf_stream_ref (elts e) (he_log e) _ (has_code lens) HL (twin_mirrors _ _ _ Ht)).
Qed.

Lemma four_streams_of out : huf_section (elts e) src out -> streams_of e lens src false out.
Proof.
  intros Hs. pose proof Hs as (s0 & s1 & s2 & s3 & -> & H12 & Hl & (B0 & _) & (B1 & _) & (B2 & _) & (B3 & _)).
  rewrite !Forall_cons in Hl. destruct Hl as (L0 & L1 & L2 & L3 & _).
  assert (forall s : list Z, zlen (le_bytes 2 (zlen s)) = 2) as Hle by done.
  split.
  - repeat apply Forall_app_2; try done; apply le_bytes_bytes.
  - rewrite !zlen_app, !Hle. lia.
  - rewrite !zlen_app, !Hle. lia.
  - intros t Ht. unfold huf_section_ref. cbn [negb].
    apply (huf_section_decodes (elts e) (he_log e) _ (has_code lens)); [by apply (coder_log _ lens)|by apply twin_mirrors|done|done].
Qed.

Lemma compress_streams_ok {E} (single : bool) : (single = false -> 12 <= zlen src) ->
  returns (streams_of e lens src single) (if single then compress_1x_using_ctable src e else compress_4x_using_ctable src e : res E _).
Proof.
  intros H12. destruct single.
  - eapply returns_mono; [apply (compress_1x_ok e (has_code lens) src (coder_log _ _ Hcd) (coder_elts_ok _ _ Hcd) Hc)|]. apply one_stream_of.
  - eapply returns_mono; [apply (compress_4x_ok e (has_code lens) src (coder_log _ _ Hcd) (coder_elts_ok _ _ Hcd) Hc); specialize (H12 eq_refl); lia|].
    apply four_streams_of.
Qed.

(** After a description, or none. *)
Lemma compress_ctable_internal_ok {E} header (single : bool) : (single = false -> 12 <= zlen src) ->
  returns (fun out => out = [] \/ exists c, out = header ++ c /\ streams_of e lens src single c /\ zlen out < zlen src - 1)
    (compress_ctable_internal header src single e : res E _).
Proof.
  intros H12. unfold compress_ctable_internal. eapply returns_bind; [by apply compress_streams_ok|]. intros c Hs. cbn [returns].
  unfold wsub. rewrite wrap_small by (change (2 ^ 17) with 131072 in Hn; change (2 ^ 64) with 18446744073709551616; lia).
  destruct (zlen c =? 0); [by left|]. destruct (Z.leb_spec (zlen src - 1) (zlen (header ++ c))); [by left|]. cbn [orb]. right. by exists c.
Qed.
End streams.

(** ** A new table *)

(** A table built for the literals. *)
Record fresh (e : HufTable) (lens src : list Z) (ms : Z) : Prop := {
  fr_coder : coder e lens;
  fr_max : he_max e = ms;
  fr_codes : Forall (has_code lens) src;
}.

Section fresh.
Context {E : Type} (src c : list Z) (ms : Z) (Hh : histogram_of src c ms) (Htwo : occurs ms src <> zlen src).

Abbreviation cs := (ztake (ms + 1) c).

Lemma build_fresh spare limit : zlen (elts spare) = 256 -> 1 <= limit <= 11 -> nonzero cs <= 2 ^ limit ->
  returns (fun o => exists e lens, o = Some e /\ fresh e lens src ms) (huf_build_ctable spare c ms limit : res E _).
Proof.
  intros He Hlim Hnz. pose proof Hh as [[Hl Hc] Hb Hlen Hm Hin Htop]. destruct (hist_two _ _ _ Hh Htwo) as [H2 Hm1].
  eapply returns_mono; [apply (build_ctable_ok spare c ms limit He ltac:(lia) ltac:(lia) (hist_range _ _ _ Hh) ltac:(rewrite (hist_sum _ _ _ Hh); lia) ltac:(lia) ltac:(lia))|].
  intros o (e & -> & lens & HL & Hmx & Hlens & Hcan & [Hcl Hcs _]). exists e, lens. split; [done|].
  rewrite zlen_ztake in Hcl by lia. split; [split; [done|lia|lia|done]|done|].
  apply Forall_forall. intros s Hs. destruct (hist_in _ _ _ Hh s Hs) as [Hsr Ho]. destruct (zget_is_Some lens s ltac:(lia)) as [n Hn].
  exists n. split; [done|]. apply (Hcs s (occurs s src) n); [by apply (hist_get src c ms Hh)|done|done].
Qed.

(** The description of such a table, and the tree read back from it. *)
Lemma write_fresh e lens : fresh e lens src ms ->
  returns (fun o => match o with
    | Some d => bytes d /\ 1 <= zlen d <= 128 /\ forall t rest, huf_wf t -> bytes rest ->
        exists t', read_tree t (d ++ rest) = Ok (t', zlen d) /\ complete t' /\ huf_wf t' /\ code_weights t' = weights_of (he_log e) lens /\ max_num_bits t' = he_log e
    | None => 128 < ms
    end) (write_ctable e ms (he_log e) : res E _).
Proof.
  intros [[Hl H11 Hlen Hcan] Hmx Hcodes]. destruct (hist_two _ _ _ Hh Htwo) as [H2 Hm1]. pose proof Hh as [_ _ _ Hm Hin _].
  eapply returns_mono; [apply (write_ctable_ok (he_log e) lens e ms Hl H11 eq_refl Hmx ltac:(lia) Hm1 Hcan)|].
  intros [d|]; [|done]. intros (Hb & Hd & Hdesc). split; [done|]. split.
  { destruct (Hdesc huf_new [] huf_new_wf ltac:(constructor)) as (t' & Hr & _). destruct d; [done|]. rewrite zlen_cons in *. pose proof (zlen_nonneg d). lia. }
  intros t rest Hwf Hrest. rewrite Forall_forall in Hcodes. destruct (Hcodes ms ltac:(by apply list_elem_of_In)) as (last & Hlast & Hne).
  replace ms with (zlen lens - 1) in Hlast, Hdesc by lia.
  by apply (read_tree_described (he_log e) lens d t rest last Hl H11 Hdesc ltac:(lia) Hlast Hne Hwf Hb Hrest).
Qed.

(** ** The depth *)

Lemma nonzero_depth h : nonzero cs <= h -> 1 <= h < 2 ^ 32 -> nonzero cs <= 2 ^ (highest_bit h + 1).
Proof.
  intros Hn Hr. rewrite highest_bit_log2 by lia. pose proof (Z.log2_spec h ltac:(lia)) as [_ H2]. unfold Z.succ in H2. lia.
Qed.

Lemma cheap_depth : 6 <= zlen src ->
  returns (fun log => 1 <= log <= 11 /\ nonzero cs <= 2 ^ log) (optimal_table_log_internal HUF_TABLELOG_DEFAULT (zlen src) ms 1 : res E Z).
Proof.
  intros H6. pose proof Hh as [_ _ Hlen Hm _ _]. change (2 ^ 17) with 131072 in Hlen. destruct (hist_two _ _ _ Hh Htwo) as [H2 Hm1].
  destruct (hist_nonzero _ _ _ Hh) as [Hz1 Hz2]. unfold optimal_table_log_internal. rewrite (proj2 (Z.ltb_lt 1 _)) by lia. cbn [rassert mbind res_bind returns].
  change (HUF_TABLELOG_DEFAULT =? 0) with false. cbv iota. unfold HUF_TABLELOG_DEFAULT, FSE_MAX_TABLELOG, FSE_MIN_TABLELOG.
  assert (nonzero cs <= 2 ^ min_table_log (zlen src) ms /\ 0 <= min_table_log (zlen src) ms <= 9) as [Hmin Hmr].
  { unfold min_table_log. rewrite !wrap_small by (change (2 ^ 32) with 4294967296; lia). change (2 ^ 32) with 4294967296 in *.
    pose proof (nonzero_depth (zlen src) Hz1 ltac:(change (2 ^ 32) with 4294967296; lia)) as D1.
    assert (nonzero cs <= 2 ^ (highest_bit ms + 2)) as D2.
    { rewrite highest_bit_log2 by (change (2 ^ 32) with 4294967296; lia). pose proof (Z.log2_spec ms ltac:(lia)) as [_ Hlg]. unfold Z.succ in Hlg.
      replace (Z.log2 ms + 2) with (Z.succ (Z.log2 ms + 1)) by lia. pose proof (Z.log2_nonneg ms). rewrite Z.pow_succ_r by lia. lia. }
    rewrite !highest_bit_log2 in * by (change (2 ^ 32) with 4294967296; lia).
    pose proof (Z.log2_nonneg ms). pose proof (Z.log2_nonneg (zlen src)). pose proof (Z.log2_le_mono ms 255 ltac:(lia)) as Hl8. change (Z.log2 255) with 7 in Hl8.
    split; [|lia]. destruct (Z.min_spec (Z.log2 (zlen src) + 1) (Z.log2 ms + 2)) as [[_ ->]|[_ ->]]; done. }
  set (b := wsub _ _ _). clearbody b. set (m := min_table_log _ _) in *. clearbody m.
  set (l := Z.min 12 _). assert (m <= l <= 11) as Hlr.
  { unfold l. destruct (Z.ltb_spec b 11); [destruct (Z.ltb_spec b m)|destruct (Z.ltb_spec 11 m)]; lia. }
  assert (5 <= l) by (unfold l; lia). split; [lia|]. pose proof (pow2_le m l ltac:(lia)). lia.
Qed.

(** A turn of the search: the next depth, or the one to build with. *)
Lemma probe_depth_ok table opt_size opt_log guess min : zlen (elts table) = 256 -> 1 <= min <= guess -> guess <= 12 ->
  1 <= opt_log <= 11 -> nonzero cs <= 2 ^ opt_log -> nonzero cs <= 2 ^ min ->
  returns (fun r => match r with
    | inl (table', _, opt_log', guess') => zlen (elts table') = 256 /\ guess' = guess + 1 /\ guess <= 11 /\
        1 <= opt_log' <= 11 /\ nonzero cs <= 2 ^ opt_log'
    | inr l => 1 <= l <= 11 /\ nonzero cs <= 2 ^ l
    end) (probe_depth HUF_TABLELOG_DEFAULT min ms c (table, opt_size, opt_log, guess) : res E _).
Proof.
  intros He Hmin Hg Ho Hno Hnm. unfold probe_depth, HUF_TABLELOG_DEFAULT. destruct (Z.ltb_spec 11 guess); [done|].
  pose proof (pow2_le min guess ltac:(lia)) as Hp. pose proof Hh as [[Hl _] _ _ Hm _ _].
  eapply returns_bind; [apply (build_fresh table guess He); lia|]. intros o (e & lens & -> & Hf).
  assert (zlen (elts e) = 256) as Hel by apply (cd_elts _ _ (fr_coder _ _ _ _ Hf)).
  destruct (_ && _); [done|]. eapply returns_bind; [by apply (write_fresh e lens)|]. intros [d|] _; [|by cbn].
  eapply returns_bind; [apply (coder_cost e lens (fr_coder _ _ _ _ Hf)); lia|]. intros size _.
  destruct (_ <? _); [done|]. destruct (_ <? opt_size); cbn [returns]; [|done]. split_and!; done || lia.
Qed.

Lemma depth_ok (optimal : bool) : 6 <= zlen src ->
  returns (fun log => 1 <= log <= 11 /\ nonzero cs <= 2 ^ log) (huf_optimal_table_log HUF_TABLELOG_DEFAULT (zlen src) ms c optimal : res E Z).
Proof.
  intros H6. unfold huf_optimal_table_log. rewrite (proj2 (Z.ltb_lt 1 _)) by lia. cbn [rassert mbind res_bind].
  destruct optimal; cbn [negb]; [|by apply cheap_depth]. pose proof Hh as [[Hl _] _ _ Hm _ _].
  destruct (hist_nonzero _ _ _ Hh) as [_ Hz]. destruct (hist_two _ _ _ Hh Htwo) as [H2 Hm1].
  rewrite slice_prefix by lia. cbn [mbind res_bind]. fold (nonzero cs). set (n := nonzero cs) in *.
  rewrite wrap_small by (change (2 ^ 32) with 4294967296; lia). rewrite highbit32_ok by (change (2 ^ 32) with 4294967296; lia). cbn [mbind res_bind].
  pose proof (Z.log2_spec n ltac:(lia)) as [_ Hlg]. unfold Z.succ in Hlg. pose proof (Z.log2_nonneg n).
  pose proof (Z.log2_le_mono n 256 ltac:(lia)) as H8. change (Z.log2 256) with 8 in H8.
  set (min := Z.log2 n + 1) in *.
  eapply returns_bind.
  - apply (returns_loopM (fun '(table, _, opt_log, guess) => zlen (elts table) = 256 /\ min <= guess <= 12 /\ 1 <= opt_log <= 11 /\ n <= 2 ^ opt_log)
      (fun '(_, _, _, guess) => Z.to_nat (12 - guess)) (fun log => 1 <= log <= 11 /\ n <= 2 ^ log)).
    + unfold HUF_TABLELOG_DEFAULT. split_and!; try done; lia.
    + unfold HUF_TABLELOG_DEFAULT. lia.
    + intros [[[table osz] ol] guess] (Ht & Hg & Hol & Hn). eapply returns_mono; [apply (probe_depth_ok table osz ol guess min Ht); lia || (fold n; lia)|].
      intros [[[[table' osz'] ol'] guess']|l]; [|done]. intros (Ht' & -> & Hg' & Ho & Hno). split; [split_and!; done || lia|lia].
  - intros l [Hlr Hln]. rewrite (proj2 (Z.leb_le l _)) by (unfold HUF_CTABLELOG_MAX; lia). by cbn.
Qed.
End fresh.

(** ** The choice of a table ([compress_internal]) *)

Section internal.
Context (old : option HufTable) (lens0 : list Z) (Hold : forall e, old = Some e -> coder e lens0).
Context (src : list Z) (Hb : bytes src) (Hn : 6 <= zlen src <= 2 ^ 17) (single : bool) (H12 : single = false -> 12 <= zlen src).

(** What is appended, by the use of the table it ends with. *)
Definition appended (spare : HufTable) (repeat : Repeat) (out : list Z) : Prop :=
  match repeat with
  | RNone => exists d c lens, out = d ++ c /\ coder spare lens /\ streams_of spare lens src single c /\ bytes d /\
      1 <= zlen d <= 128 /\ forall t rest, huf_wf t -> bytes rest -> exists t', read_tree t (d ++ rest) = Ok (t', zlen d) /\
        complete t' /\ huf_wf t' /\ code_weights t' = weights_of (he_log spare) lens /\ max_num_bits t' = he_log spare
  | _ => exists e, old = Some e /\ streams_of e lens0 src single out
  end.

Definition internal_done (r : huf_result) : Prop :=
  let '(o, spare, repeat) := r in
  zlen (elts spare) = 256 /\
  match o with
  | None => True
  | Some (n, out) => n = 0 \/ (n = 1 /\ exists b, src = zrepeat b (zlen src)) \/ (n = zlen out /\ n < zlen src - 1 /\ appended spare repeat out)
  end.

(** Streams of the table held. *)
Lemma old_streams {E} e spare repeat : old = Some e -> Forall (has_code lens0) src -> repeat <> RNone -> zlen (elts spare) = 256 ->
  returns internal_done (streams_with [] src single e spare repeat : res E _).
Proof.
  intros He Hc Hr Hs. unfold streams_with.
  eapply returns_bind; [apply (compress_ctable_internal_ok e lens0 (Hold e He) src Hc ltac:(lia) [] single H12)|].
  intros out Hout. cbn [returns internal_done]. split; [done|]. destruct Hout as [->|(c & -> & Hsm & Hl)]; [by left|]. right. right.
  cbn [app] in *. split; [done|]. split; [lia|]. unfold appended. destruct repeat; [done|by exists e..].
Qed.

Lemma repeated_byte s : occurs s src = zlen src -> exists b, src = zrepeat b (zlen src).
Proof.
  intros Ho. exists s. pose proof (occurs_all_inv _ _ Ho) as H. clear - H. induction src as [|b l IH]; [done|].
  rewrite zlen_cons. unfold zrepeat in *. pose proof (zlen_nonneg l). replace (Z.to_nat (zlen l + 1)) with (S (Z.to_nat (zlen l))) by lia. cbn [replicate].
  rewrite (H b) by by left. f_equal. apply IH. intros x Hx. apply H. by right.
Qed.

Lemma suspect_ok {E} : SUSPECT_INCOMPRESSIBLE_SAMPLE_SIZE <= zlen src -> returns (fun _ => True) (suspect_samples src : res E bool).
Proof.
  intros Hl. assert (0 < SUSPECT_INCOMPRESSIBLE_SAMPLE_SIZE) as Hk by done. unfold suspect_samples. revert Hl Hk. generalize SUSPECT_INCOMPRESSIBLE_SAMPLE_SIZE as k.
  intros k Hl Hk. assert (zlen src < 2 ^ 32) as H32 by (change (2 ^ 17) with 131072 in Hn; change (2 ^ 32) with 4294967296; lia).
  assert (forall l, bytes l -> Forall (fun b => b <= 255) l) as H255.
  { intros l Hbl. eapply Forall_impl; [exact Hbl|]. unfold is_byte. intros; cbn in *; lia. }
  assert (forall counts l, bytes l -> zlen l = k -> zlen counts = 256 ->
    returns (fun '(c, _, _) => zlen c = 256) (hist_count counts l HUF_SYMBOLVALUE_MAX : res E _)) as Hhist.
  { intros counts l Hbl Hll Hcl. eapply returns_mono.
    - apply (hist_count_ok counts l 255 Hbl); [|lia|done|lia|by apply H255]. intros ->. change (zlen []) with 0 in Hll. lia.
    - intros [[c l1] m1] ([Hc _] & _). exact Hc. }
  rewrite slice_prefix by lia. cbn [mbind res_bind].
  eapply returns_bind; [apply Hhist; [by apply Forall_take|apply zlen_ztake; lia|done]|]. intros [[c l1] m1] Hc.
  rewrite slice_from_ok by lia. cbn [mbind res_bind].
  eapply returns_bind; [apply Hhist; [by apply Forall_drop|rewrite zlen_zdrop; lia|done]|]. by intros [[c2 l2] m2] _.
Qed.

Section new_table.
Context (c : list Z) (ms : Z) (Hh : histogram_of src c ms) (Htwo : occurs ms src <> zlen src).

Lemma compress_new_ok {E} spare repeat flags : zlen (elts spare) = 256 -> (repeat <> RNone -> Forall (has_code lens0) src) ->
  returns internal_done (compress_new src single old spare repeat flags c ms : res E _).
Proof.
  intros He Hr. pose proof Hh as [[Hl _] _ _ Hm _ _]. unfold compress_new.
  eapply returns_bind; [by apply (depth_ok src c ms Hh Htwo); lia|]. intros log [Hlog Hnz].
  eapply returns_bind; [by apply (build_fresh src c ms Hh Htwo spare log He)|]. intros o (e & lens & -> & Hf).
  pose proof Hf as [Hcd Hmx Hcodes]. assert (zlen (elts e) = 256) as Hel by apply (cd_elts _ _ Hcd).
  eapply returns_bind; [by apply (write_fresh src c ms Hh Htwo e lens)|]. intros [d|]; [|intros _; by cbn].
  intros (Hbd & Hd & Hread).
  assert (returns internal_done ((if zlen src <=? zlen d + 12 then Ok (Some (0, []), e, repeat)
      else streams_with d src single e e RNone) : res E _)) as Hfresh.
  { destruct (_ <=? _); [cbn; split; [done|by left]|]. unfold streams_with.
    eapply returns_bind; [apply (compress_ctable_internal_ok e lens Hcd src Hcodes ltac:(lia) d single H12)|].
    intros out Hout. cbn [returns internal_done]. split; [done|]. destruct Hout as [->|(s & -> & Hsm & Hls)]; [by left|]. right. right.
    split; [done|]. split; [lia|]. by exists d, s, lens. }
  destruct (bool_decide_reflect (repeat <> RNone)) as [Hrn|]; [|exact Hfresh].
  case_eq old; [intros e0 Ho|intros _; by cbn].
  eapply returns_bind; [apply (coder_cost e0 lens0 (Hold e0 Ho)); lia|]. intros s0 _.
  eapply returns_bind; [apply (coder_cost e lens Hcd); lia|]. intros s1 _.
  destruct (_ || _); [|exact Hfresh]. by apply (old_streams e0 e repeat Ho (Hr Hrn) Hrn).
Qed.
End new_table.

Lemma compress_internal_ok {E} spare repeat flags : zlen (elts spare) = 256 -> (repeat = RValid -> Forall (has_code lens0) src) ->
  returns internal_done (compress_internal src single old spare repeat flags : res E _).
Proof.
  intros He Hv. change (2 ^ 17) with 131072 in Hn. unfold compress_internal. rewrite (proj2 (Z.eqb_neq (zlen src) 0)) by lia.
  destruct (Z.ltb_spec ZSTD_BLOCKSIZE_MAX (zlen src)); [by split|].
  destruct (prefer_repeat flags && bool_decide (repeat = RValid)) eqn:Hpv.
  { apply andb_true_iff in Hpv as [_ Hrv%bool_decide_eq_true]. case_eq old; [intros e Ho|intros _; by split].
    by apply (old_streams e spare repeat Ho (Hv Hrv) ltac:(by rewrite Hrv)). }
  eapply returns_bind with (P := fun _ => True).
  { clear Hpv. destruct (suspect_uncompressible flags && _) eqn:Hsus; [|exact I]. apply suspect_ok. apply andb_true_iff in Hsus as [_ Hs%Z.leb_le].
    unfold SUSPECT_INCOMPRESSIBLE_SAMPLE_SIZE, SUSPECT_INCOMPRESSIBLE_SAMPLE_RATIO in *. lia. }
  intros [] _; [cbn; split; [done|by left]|].
  assert (Forall (fun b => b <= HUF_SYMBOLVALUE_MAX) src) as H255.
  { eapply Forall_impl; [exact Hb|]. unfold is_byte, HUF_SYMBOLVALUE_MAX. intros; cbn in *; lia. }
  assert (src <> []) as Hne by (intros He0; rewrite He0 in Hn; change (zlen []) with 0 in Hn; lia).
  destruct (hist_count_full (E := E) (zrepeat 0 256) src HUF_SYMBOLVALUE_MAX Hb Hne ltac:(change (2 ^ 32) with 4294967296; lia) eq_refl ltac:(done) H255)
    as (c & largest & ms & -> & Hc & Hms & Hin & Hle & Hlg & s & Hs & Hos). unfold HUF_SYMBOLVALUE_MAX in Hms.
  cbn [mbind res_bind]. destruct (Z.eqb_spec largest (zlen src)) as [Hall|Hmix].
  { cbn. split; [done|]. right. left. split; [done|]. apply (repeated_byte s). lia. }
  destruct (_ <=? _); [cbn; split; [done|by left]|].
  assert (histogram_of src c ms) as Hh by (split; try done; change (2 ^ 17) with 131072; lia).
  assert (occurs ms src <> zlen src) as Htwo.
  { intros Ho. pose proof (Hlg ms) as Hm1. pose proof (occurs_range s src). lia. }
  eapply returns_bind with (P := fun valid => valid = true -> repeat <> RNone -> Forall (has_code lens0) src).
  { case_eq old; [intros e Ho|by cbn]. destruct (bool_decide_reflect (repeat = RCheck)) as [->|Hnc].
    - eapply returns_mono; [by apply (validate_ok e lens0 (Hold e Ho) src c ms)|]. intros b H1 H2 _. by apply H1.
    - cbn. intros _ Hr. apply Hv. by destruct repeat. }
  intros valid Hvalid. set (repeat' := if bool_decide (repeat = RCheck) && negb valid then RNone else repeat).
  assert (repeat' <> RNone -> Forall (has_code lens0) src) as Hr'.
  { unfold repeat'. intros Hr. destruct (bool_decide_reflect (repeat = RCheck)) as [->|Hnc]; cbn [andb] in Hr.
    - destruct valid; [by apply Hvalid|done].
    - apply Hv. by destruct repeat. }
  destruct (prefer_repeat flags && bool_decide (repeat' <> RNone)) eqn:Hpr.
  { apply andb_true_iff in Hpr as [_ Hrn%bool_decide_eq_true]. case_eq old; [intros e Ho|intros _; by split].
    by apply (old_streams e spare repeat' Ho (Hr' Hrn) Hrn). }
  by apply compress_new_ok.
Qed.
End internal.

(** ** Read back *)

(** [build_decoder] on a description. *)
Lemma build_described t d c n four (P : HuffmanTable -> Prop) : huf_wf t -> bytes c -> bytes d -> zlen d <= 128 -> 0 <= n ->
  (forall t rest, huf_wf t -> bytes rest -> exists t', read_tree t (d ++ rest) = Ok (t', zlen d) /\ complete t' /\ huf_wf t' /\ P t') ->
  exists t' t1, huf_build_decoder t (d ++ c) n four = Ok (t', zlen d) /\ huf_built t' /\ huf_wf t' /\ P t1 /\
    code_weights t' = code_weights t1 /\ max_num_bits t' = max_num_bits t1.
Proof.
  intros [Hw Hb Hso Hf] Hc Hd Hdl Hn Hread. unfold huf_build_decoder. set (t0 := MkHT _ _ _ _ _ _ _ _ _).
  destruct (Hread t0 c ltac:(by split) Hc) as (t1 & Ht1 & Hcmp & Hwf1 & HP). unfold read_tree in Ht1.
  destruct (read_weights t0 (d ++ c)) as [[tr [used k]]|e| |]; cbn [mbind res_bind] in Ht1 |- *; try done.
  destruct (weight_stats tr k) as [t2|e| |]; cbn [mbind res_bind] in Ht1 |- *; try done. injection Ht1 as -> ->.
  assert (returns (fun _ => True) (if four then huf_select_x2 n (zlen (d ++ c)) else Ok false)) as Hsel.
  { destruct four; [apply huf_select_x2_ok; [done|apply zlen_nonneg]|done]. }
  destruct (returns_inv _ _ Hsel) as (x2 & -> & _). cbn [mbind res_bind].
  destruct (returns_inv _ _ (huf_fill_keeps t1 x2 Hcmp Hwf1)) as (t3 & -> & [Hbt Hwf3] & Hcw & Hmx). cbn [mbind res_bind].
  exists t3, t1. rewrite wrap_small by (pose proof (zlen_nonneg d); change (2 ^ 32) with 4294967296; lia). done.
Qed.

Section read.
Context (src : list Z) (Hb : bytes src) (Hn : 6 <= zlen src <= 2 ^ 17) (single : bool).
Context (scratch : HuffmanScratch) (repeat : option HuffmanTable) (Hscratch : huf_wf (hs_table scratch)).

Lemma streams_decompress e lens t c : twin e lens t -> streams_of e lens src single c ->
  huf_decompress (zrepeat 0 (zlen src)) c (negb single) t = Ok src.
Proof.
  intros Ht [Hcb _ _ Hd]. pose proof (huf_decompress_ref (zrepeat 0 (zlen src)) c (negb single) t (tw_built _ _ _ Ht) Hcb
    ltac:(by apply Forall_zrepeat)) as H. rewrite zlen_zrepeat in H by lia. rewrite (Hd t Ht) in H. apply H.
  change (2 ^ 17) with 131072 in Hn. change (2 ^ 24) with 16777216. lia.
Qed.

(** A section with its own tree. *)
Lemma new_section_decodes spare out : appended None [] src single spare RNone out -> zlen out < zlen src ->
  exists t' lens, decode_literals (MkLits (zlen src) (zlen out) LitCompressed (negb single)) scratch repeat out [] =
    Ok (MkHufScratch t', src, zlen out) /\ twin spare lens t'.
Proof.
  intros (d & c & lens & -> & Hcd & Hsm & Hd & Hdl & Hread) Hlen. pose proof Hsm as [Hcb Hc1 _ _].
  change (2 ^ 17) with 131072 in Hn. pose proof (zlen_nonneg c).
  destruct (build_described (hs_table scratch) d c (zlen src) (negb single) _ Hscratch Hcb Hd ltac:(lia) ltac:(lia) Hread)
    as (t' & t1 & Hbuild & Hbt & Hwf & [Hw1 Hm1] & Hcw & Hmx).
  assert (twin spare lens t') as Ht by (split; try done; congruence).
  exists t', lens. split; [|done]. unfold decode_literals, decompress_literals. cbn [ls_type four_streams regenerated_size lits_content].
  rewrite zlen_app in Hlen. rewrite slice_prefix, ztake_all by (rewrite ?zlen_app; lia). cbn [mbind res_bind]. rewrite Hbuild. cbn [mbind res_bind].
  pose proof (coder_log _ _ Hcd) as HL. rewrite Hmx, Hm1, (proj2 (Z.eqb_neq _ 0)) by lia. cbn [fail_if mbind res_bind].
  rewrite slice_from_ok by (rewrite zlen_app; lia). cbn [mbind res_bind]. rewrite zdrop_zlen_app by done.
  rewrite (streams_decompress spare lens t' c Ht Hsm). cbn [mbind res_bind app].
  rewrite zlen_app, wrap_small by (change (2 ^ 32) with 4294967296; lia). done.
Qed.

(** A section of the tree held. *)
Lemma old_section_decodes e lens out : twin e lens (default (hs_table scratch) repeat) -> streams_of e lens src single out -> zlen out < zlen src ->
  decode_literals (MkLits (zlen src) (zlen out) LitTreeless (negb single)) scratch repeat out [] = Ok (scratch, src, zlen out).
Proof.
  intros Ht Hsm Hlen. pose proof Hsm as [Hcb Hc1 _ _]. change (2 ^ 17) with 131072 in Hn.
  unfold decode_literals, decompress_literals. cbn [ls_type four_streams regenerated_size lits_content].
  rewrite slice_prefix, ztake_all by lia. cbn [mbind res_bind].
  pose proof (coder_log _ _ (tw_coder _ _ _ Ht)) as HL. rewrite (tw_bits _ _ _ Ht), (proj2 (Z.eqb_neq _ 0)) by lia. cbn [fail_if mbind res_bind].
  rewrite slice_from_ok by lia. change (zdrop 0 out) with out. cbn [mbind res_bind].
  rewrite (streams_decompress e lens _ out Ht Hsm). cbn [mbind res_bind app].
  rewrite wrap_small by (change (2 ^ 32) with 4294967296; lia). done.
Qed.
End read.

(** ** The section *)

(** What the decoder makes of a section, whatever follows it: the literals,
    and the table that goes with the encoder's. *)
Definition lits_reads (scratch : HuffmanScratch) (repeat : option HuffmanTable) (literals out : list Z) (spare : HufTable) (next : Next) : Prop :=
  exists sec n scratch', (forall rest, parse_literals_section (out ++ rest) = Ok (sec, n)) /\
    regenerated_size sec = zlen literals /\ 0 <= n /\ 0 <= lits_content sec /\ zlen out = n + lits_content sec /\
    decode_literals sec scratch repeat (zdrop n out) [] = Ok (scratch', literals, lits_content sec) /\
    match next with
    | NNew => ls_type sec = LitCompressed /\ exists lens, twin spare lens (hs_table scratch')
    | NKeep => ls_type sec <> LitCompressed /\ scratch' = scratch
    | NNone => False
    end.

Section section.
Context (literals : list Z) (Hb : bytes literals) (Hn : zlen literals <= 2 ^ 17).
Context (held : Held HufTable) (lens0 : list Z) (scratch : HuffmanScratch) (repeat : option HuffmanTable) (Hscratch : huf_wf (hs_table scratch)).
Context (Hheld : forall e, held_table held = Some e -> twin e lens0 (default (hs_table scratch) repeat)).
Context (Hfull : held_repeat held = RValid -> Forall (has_code lens0) literals).

Definition literals_written (r : list Z * HufTable * Next) : Prop :=
  let '(out, spare, next) := r in
  bytes out /\ zlen out <= literals_section_bound (zlen literals) /\ zlen (elts spare) = 256 /\ lits_reads scratch repeat literals out spare next.

Lemma bound_eq : literals_section_bound (zlen literals) = zlen literals + (1 + Z.b2z (31 <? zlen literals) + Z.b2z (4095 <? zlen literals)).
Proof. done. Qed.

Lemma raw_written spare : zlen (elts spare) = 256 -> literals_written (encode_literals_raw [] literals, spare, NKeep).
Proof.
  intros He. pose proof (zlen_nonneg literals). change (2 ^ 17) with 131072 in Hn. unfold literals_written, encode_literals_raw. cbn [app].
  pose proof (zlen_plain_header LIT_TYPE_RAW (zlen literals)) as Hpl. split_and!.
  - apply Forall_app. split; [apply bytes_plain_header; [by left|done]|done].
  - rewrite zlen_app, Hpl, bound_eq. lia.
  - done.
  - exists (MkLits (zlen literals) (zlen literals) LitRaw false), (zlen (plain_literals_header LIT_TYPE_RAW (zlen literals))), scratch.
    split; [intros rest; rewrite <- app_assoc; apply (plain_header_parse LIT_TYPE_RAW); [by left|change (2 ^ 20) with 1048576; lia]|].
    split; [done|]. split; [apply zlen_nonneg|]. split; [done|]. split; [by rewrite zlen_app|]. split; [|done].
    rewrite zdrop_zlen_app by done. unfold decode_literals. cbn [ls_type regenerated_size lits_content].
    rewrite slice_prefix, ztake_all by lia. done.
Qed.

Lemma rle_written spare b : 6 <= zlen literals -> literals = zrepeat b (zlen literals) -> zlen (elts spare) = 256 ->
  literals_written (encode_literals_rle [] b (zlen literals), spare, NKeep).
Proof.
  intros H6 Hrep He. change (2 ^ 17) with 131072 in Hn. unfold literals_written, encode_literals_rle. cbn [app].
  pose proof (zlen_plain_header LIT_TYPE_RLE (zlen literals)) as Hpl.
  assert (is_byte b) as Hbb.
  { rewrite Hrep in Hb. assert (zget (zrepeat b (zlen literals)) 0 = Some b) as Hg by (apply zget_zrepeat; lia). exact (Forall_zget _ _ _ _ Hb Hg). }
  split_and!.
  - apply Forall_app. split; [apply bytes_plain_header; [by right|lia]|]. by constructor.
  - rewrite zlen_app, Hpl, bound_eq. change (zlen [b]) with 1. lia.
  - done.
  - exists (MkLits (zlen literals) 1 LitRLE false), (zlen (plain_literals_header LIT_TYPE_RLE (zlen literals))), scratch.
    split; [intros rest; rewrite <- app_assoc; apply (plain_header_parse LIT_TYPE_RLE); [by right|change (2 ^ 20) with 1048576; lia]|].
    split; [done|]. split; [apply zlen_nonneg|]. split; [done|]. split; [by rewrite zlen_app|]. split; [|done].
    rewrite zdrop_zlen_app by done. unfold decode_literals. cbn [ls_type regenerated_size lits_content].
    change (idx [b] 0) with (Ok b : dec Z). cbn [mbind res_bind app]. by rewrite <- Hrep.
Qed.

(** A Huffman section, smaller than the literals by the least gain. *)
Lemma huffman_written spare single out rep : 6 <= zlen literals -> (single = true -> zlen literals < 1024) -> zlen out <= zlen literals - 3 ->
  zlen (elts spare) = 256 -> appended (held_table held) lens0 literals single spare rep out ->
  literals_written (compressed_literals_header (if bool_decide (rep <> RNone) then LIT_TYPE_TREELESS else LIT_TYPE_COMPRESSED) single (zlen literals) (zlen out) ++ out,
    spare, if (if bool_decide (rep <> RNone) then LIT_TYPE_TREELESS else LIT_TYPE_COMPRESSED) =? LIT_TYPE_COMPRESSED then NNew else NKeep).
Proof.
  intros H6 Hs Hlen He Happ. change (2 ^ 17) with 131072 in Hn. set (ty := if bool_decide _ then _ else _).
  assert (ty = LIT_TYPE_COMPRESSED \/ ty = LIT_TYPE_TREELESS) as Hty by (unfold ty; destruct (bool_decide _); [by right|by left]).
  pose proof (zlen_nonneg out). pose proof (zlen_compressed_header ty single (zlen literals) (zlen out)) as Hhl.
  assert (3 <= literals_lh_size (zlen literals) <= 3 + (Z.b2z (31 <? zlen literals) + Z.b2z (4095 <? zlen literals))) as Hlh.
  { unfold literals_lh_size. destruct (Z.leb_spec 1024 (zlen literals)), (Z.leb_spec 16384 (zlen literals)), (Z.ltb_spec 31 (zlen literals)), (Z.ltb_spec 4095 (zlen literals)); cbn; lia. }
  assert (bytes out) as Hob.
  { destruct rep; cbn [appended] in Happ; [destruct Happ as (d & c & lens & -> & _ & Hsm & Hd & _); apply Forall_app; split; [done|apply Hsm]| |];
      destruct Happ as (e & _ & Hsm); apply Hsm. }
  unfold literals_written. split_and!.
  - apply Forall_app. split; [apply bytes_compressed_header|done].
  - rewrite zlen_app, Hhl, bound_eq. lia.
  - done.
  - assert (forall rest, parse_literals_section ((compressed_literals_header ty single (zlen literals) (zlen out) ++ out) ++ rest) =
      Ok (MkLits (zlen literals) (zlen out) (literals_type_of ty) (negb single), literals_lh_size (zlen literals))) as Hparse.
    { intros rest. rewrite <- app_assoc. apply compressed_header_parse; [change (2 ^ 18) with 262144; lia|lia|done|done]. }
    assert (zdrop (literals_lh_size (zlen literals)) (compressed_literals_header ty single (zlen literals) (zlen out) ++ out) = out) as Hdrop by by apply zdrop_zlen_app.
    destruct (bool_decide_reflect (rep <> RNone)) as [Hr|Hr].
    + assert (exists e, held_table held = Some e /\ streams_of e lens0 literals single out) as (e & Hhe & Hsm) by (destruct rep; done).
      exists (MkLits (zlen literals) (zlen out) LitTreeless (negb single)), (literals_lh_size (zlen literals)), scratch. cbn [regenerated_size lits_content ls_type].
      split; [exact Hparse|]. split; [done|]. split; [lia|]. split; [done|]. split; [rewrite zlen_app; lia|]. split; [|done].
      rewrite Hdrop. by apply (old_section_decodes literals ltac:(change (2 ^ 17) with 131072; lia) single scratch repeat e lens0 out (Hheld e Hhe) Hsm ltac:(lia)).
    + assert (rep = RNone) as -> by (by destruct rep; [|destruct Hr..]).
      destruct (new_section_decodes literals ltac:(change (2 ^ 17) with 131072; lia) single scratch repeat Hscratch spare out Happ ltac:(lia)) as (t' & lens & Hdec & Htw).
      exists (MkLits (zlen literals) (zlen out) LitCompressed (negb single)), (literals_lh_size (zlen literals)), (MkHufScratch t'). cbn [regenerated_size lits_content ls_type].
      split; [exact Hparse|]. split; [done|]. split; [lia|]. split; [done|]. split; [rewrite zlen_app; lia|]. split; [by rewrite Hdrop|].
      split; [done|]. by exists lens.
Qed.

Lemma min_literals_ge strategy rep : 6 <= min_literals_to_compress strategy rep.
Proof. unfold min_literals_to_compress. destruct (bool_decide _); [done|]. by destruct strategy. Qed.

Lemma min_gain_range n strategy : 2 <= n -> 2 <= min_gain n strategy <= n.
Proof.
  intros H2. unfold min_gain. assert (forall k, 6 <= k -> 0 <= Z.shiftr n k <= n / 64) as Hk.
  { intros k Hk. rewrite shiftr_div by lia. pose proof (pow2_pos k ltac:(lia)). pose proof (pow2_le 6 k ltac:(lia)) as H64. change (2 ^ 6) with 64 in H64.
    split; [apply Z.div_pos; lia|]. apply Z.div_le_compat_l; lia. }
  destruct (strategy_id BtUltra <=? strategy_id strategy) eqn:Hs.
  - pose proof (Hk (strategy_id strategy - 1)) as H. assert (6 <= strategy_id strategy - 1) as Hi by (by destruct strategy). specialize (H Hi). divlia.
  - pose proof (Hk 6 ltac:(lia)). divlia.
Qed.

Lemma all_first first : zget literals 0 = Some first -> forallb (fun b => b =? first) literals = true -> literals = zrepeat first (zlen literals).
Proof.
  intros Hf Hall. assert (occurs first literals = zlen literals) as Ho.
  { apply occurs_all. intros b Hin. rewrite forallb_forall in Hall. by apply Z.eqb_eq, Hall. }
  destruct (repeated_byte literals first Ho) as (b & Hrep). rewrite Hrep in Hf at 1. apply zget_lt in Hf as Hr.
  rewrite zlen_zrepeat in Hr by apply zlen_nonneg. rewrite zget_zrepeat in Hf by lia. by injection Hf as <-.
Qed.

Lemma compress_literals_ok {E} nb_seq spare cparams : zlen (elts spare) = 256 ->
  returns literals_written (compress_literals_with literals nb_seq (MkRef held spare) cparams : res E _).
Proof.
  intros He. change (2 ^ 17) with 131072 in Hn. unfold compress_literals_with. cbn [tr_held tr_spare].
  destruct (literals_compression_is_disabled cparams); [by apply raw_written|].
  destruct (Z.ltb_spec (zlen literals) (min_literals_to_compress (strategy cparams) (held_repeat held))) as [|H6]; [by apply raw_written|].
  pose proof (min_literals_ge (strategy cparams) (held_repeat held)) as Hge. assert (6 <= zlen literals <= 2 ^ 17) as Hr by (change (2 ^ 17) with 131072; lia).
  set (flags := MkHufFlags _ _ _). set (single := (zlen literals <? 256) || _).
  assert (single = false -> 12 <= zlen literals) as H12 by (unfold single; intros [Hs _]%orb_false_iff; apply Z.ltb_ge in Hs; lia).
  assert (single = true -> zlen literals < 1024) as Hsg.
  { unfold single, literals_lh_size. destruct (Z.ltb_spec (zlen literals) 256), (Z.leb_spec 1024 (zlen literals)), (16384 <=? zlen literals); try lia; by rewrite andb_false_r. }
  clearbody flags single. eapply returns_bind.
  { apply (compress_internal_ok (held_table held) lens0 (fun e Hh => tw_coder _ _ _ (Hheld e Hh)) literals Hb Hr single H12 spare _ flags He Hfull). }
  intros [[o spare'] rep] [He' Ho]. destruct o as [[c out]|]; [|by apply raw_written].
  destruct (min_gain_range (zlen literals) (strategy cparams) ltac:(lia)) as [Hg2 Hgn].
  unfold wsub. rewrite (wrap_small 64) by (change (2 ^ 64) with 18446744073709551616; lia).
  destruct (negb (c =? 0) && _) eqn:Hc; [|by apply raw_written]. apply andb_true_iff in Hc as [Hc0%negb_true_iff Hcg%Z.ltb_lt]. apply Z.eqb_neq in Hc0.
  destruct (zget_is_Some literals 0 ltac:(lia)) as [first Hf]. rewrite (idx_ok _ _ _ Hf). cbn [mbind res_bind].
  destruct Ho as [?|[(-> & b & Hrep)|(-> & Hcl & Happ)]]; [done| |].
  - assert (b = first) as -> by (rewrite Hrep, zget_zrepeat in Hf by lia; by injection Hf).
    assert (forallb (fun b => b =? first) literals = true) as Hall.
    { rewrite Hrep. apply forallb_forall. intros x Hx. apply list_elem_of_In in Hx. unfold zrepeat in Hx. apply elem_of_replicate in Hx as [-> _]. lia. }
    rewrite Hall, orb_true_r. cbn [Z.eqb andb Pos.eqb returns]. apply rle_written; [lia|exact Hrep|done].
  - destruct ((zlen out =? 1) && _) eqn:Hone.
    + apply andb_true_iff in Hone as [H1%Z.eqb_eq H8]. destruct (Z.leb_spec 8 (zlen literals)) as [Hl8|]; cbn [orb] in H8.
      * exfalso. destruct rep; cbn [appended] in Happ; [destruct Happ as (d & s & lens & -> & _ & Hsm & _ & Hd & _)| |]; [|destruct Happ as (e & _ & Hsm)..];
          pose proof (sm_long _ _ _ _ _ Hsm Hl8) as H2; rewrite ?zlen_app in *; lia.
      * cbn [returns]. apply rle_written; [lia|by apply all_first|done].
    + rewrite Z.eqb_refl. cbn [rassert mbind res_bind returns]. apply huffman_written; done || lia.
Qed.
End section.

(** C9: the literals of any block (at most 2^17 bytes) become a section the
    decoder reads back, whatever follows it: [compress_literals_with] always
    returns, its section keeps to the bound the block writer relies on, and
    whether it chose raw bytes, one repeated byte, streams of a new tree or
    streams of the tree held, [decode_literals] returns exactly the literals
    and is left with the table that goes with the encoder's. *)
Theorem literals_section_roundtrip {E} literals nb_seq held spare cparams lens0 scratch repeat :
  bytes literals -> zlen literals <= 2 ^ 17 -> huf_wf (hs_table scratch) -> zlen (elts spare) = 256 ->
  (forall e, held_table held = Some e -> twin e lens0 (default (hs_table scratch) repeat)) ->
  (held_repeat held = RValid -> Forall (has_code lens0) literals) ->
  exists out spare' next, (compress_literals_with literals nb_seq (MkRef held spare) cparams : res E _) = Ok (out, spare', next) /\
    bytes out /\ zlen out <= literals_section_bound (zlen literals) /\ zlen (elts spare') = 256 /\
    exists sec n scratch', (forall rest, parse_literals_section (out ++ rest) = Ok (sec, n)) /\
      regenerated_size sec = zlen literals /\ zlen out = n + lits_content sec /\
      decode_literals sec scratch repeat (zdrop n out) [] = Ok (scratch', literals, lits_content sec) /\
      match next with
      | NNew => exists lens, twin spare' lens (hs_table scratch')
      | _ => scratch' = scratch
      end.
Proof.
  intros Hb Hn Hs He Hheld Hfull. pose proof (compress_literals_ok (E := E) literals Hb Hn held lens0 scratch repeat Hs Hheld Hfull nb_seq spare cparams He) as H.
  destruct (returns_inv _ _ H) as ([[out spare'] next] & -> & Hob & Hbd & He' & sec & n & s' & Hp & Hr & _ & _ & Hl & Hd & Hx).
  exists out, spare', next. repeat (split; [done|]). exists sec, n, s'. repeat (split; [done|]). by destruct next; try destruct Hx.
Qed.

Definition skewed_literals : list Z := flat_map (fun i => [97; 97; 97; 98; 97 + (i * i) mod 7; 32]) (seqZ 0 60).

Definition level_3_params : CParams := MkCParams 21 16 17 1 5 0 DFast.

Lemma literals_section_roundtrip_witness :
  exists out spare' next, (compress_literals_with skewed_literals 10 (MkRef HNone huf_table_default) level_3_params : res unit _) = Ok (out, spare', next) /\
    bytes out /\ zlen out <= literals_section_bound (zlen skewed_literals) /\ zlen (elts spare') = 256 /\
    exists sec n scratch', (forall rest, parse_literals_section (out ++ rest) = Ok (sec, n)) /\
      regenerated_size sec = zlen skewed_literals /\ zlen out = n + lits_content sec /\
      decode_literals sec (MkHufScratch huf_new) None (zdrop n out) [] = Ok (scratch', skewed_literals, lits_content sec) /\
      match next with
      | NNew => exists lens, twin spare' lens (hs_table scratch')
      | _ => scratch' = MkHufScratch huf_new
      end.
Proof.
  apply (literals_section_roundtrip skewed_literals 10 HNone huf_table_default level_3_params [] (MkHufScratch huf_new) None); try done.
  - by apply bytes_check; vm_compute.
  - apply huf_new_wf.
Defined.
