(* ===== verification/Split.v ===== *)
(** * Split blocks ([src/compress/split.rs], [src/compress/seqstore.rs])

    The store of a block's sequences, the partitions a split cuts it into, and
    the two offset histories of a split block: [resolve_off_codes] rewrites
    the repeat codes that mean another offset to the decoder than to the match
    finder. The repeat offsets are lists of three, as the decoder's. *)

From S2P Require Import Prelude Words Constants Errors SeqExec FseEncode SeqDecode SeqStream Params SeqSection.

(** [SeqStore]. *)
Record SeqStore := MkStore { ss_lits : list Z; ss_seqs : list Seq }.

(** [Seq::match_len]. *)
Definition match_len (s : Seq) : Z := wadd 32 (ml_base s) ZSTD_MINMATCH.

(** [block_splitter_enabled]. *)
Definition block_splitter_enabled (mode : ParamSwitch) (cparams : CParams) : bool :=
  match mode with
  | PsEnable => true
  | PsDisable => false
  | PsAuto => (strategy_id BtOpt <=? strategy_id (strategy cparams)) && (17 <=? window_log cparams)
  end.

(** [Partition]; a range is its two ends. *)
Record Partition := MkPart { pt_seqs : Z * Z; pt_lits : Z * Z; pt_src_len : Z }.

(** One step of [partitions], to the sequence [seq_end]. *)
Definition next_partition (store : SeqStore) (block_len seq_end : Z) (st : Z * Z * Z) : dec (Partition * (Z * Z * Z)) :=
  let '(seq_start, lit_start, src_total) := st in
  seqs ← slice (ss_seqs store) seq_start seq_end;
  let lit_len := foldr Z.add 0 (lit_len <$> seqs) in
  let match_len := foldr Z.add 0 (match_len <$> seqs) in
  let last := seq_end =? zlen (ss_seqs store) in
  let part := MkPart (seq_start, seq_end) (lit_start, if last then zlen (ss_lits store) else lit_start + lit_len)
                (if last then wsub 64 block_len src_total else lit_len + match_len) in
  Ok (part, (seq_end, lit_start + lit_len, src_total + (lit_len + match_len))).

(** [partitions]. *)
Definition partitions (store : SeqStore) (splits : list Z) (block_len : Z) : dec (list Partition) :=
  '(parts, _) ← foldM (fun '(parts, st) seq_end =>
      '(part, st) ← next_partition store block_len seq_end st; Ok (parts ++ [part], st))
    ([], (0, 0, 0)) (splits ++ [zlen (ss_seqs store)]);
  Ok parts.

(** [resolve_repcode_to_raw_offset]. *)
Definition resolve_repcode_to_raw_offset (rep : list Z) (off_base : Z) (ll0 : bool) : dec Z :=
  r ← offbase_to_repcode off_base;
  let adjusted := r - 1 + Z.b2z ll0 in
  if adjusted =? ZSTD_REP_NUM then r0 ← idx rep 0; Ok (wsub 32 r0 1) else idx rep adjusted.

(** One sequence of [resolve_off_codes]. *)
Definition resolve_off_code (d_rep c_rep : list Z) (seq : Seq) : dec (list Z * list Z * Seq) :=
  let ll0 := lit_len seq =? 0 in
  let off_base := off_base seq in
  seq ← (if offbase_is_repcode off_base then
           d_raw ← resolve_repcode_to_raw_offset d_rep off_base ll0;
           c_raw ← resolve_repcode_to_raw_offset c_rep off_base ll0;
           if negb (d_raw =? c_raw) then
             _ ← rassert (0 <? c_raw);
             Ok (MkSeq (lit_len seq) (offset_to_offbase c_raw) (ml_base seq))
           else Ok seq
         else Ok seq);
  d_rep ← update_rep d_rep (FseEncode.off_base seq) ll0;
  c_rep ← update_rep c_rep off_base ll0;
  Ok (d_rep, c_rep, seq).

(** [resolve_off_codes]. *)
Fixpoint resolve_off_codes (d_rep c_rep : list Z) (seqs : list Seq) : dec (list Z * list Z * list Seq) :=
  match seqs with
  | [] => Ok (d_rep, c_rep, [])
  | seq :: seqs =>
      '(d_rep, c_rep, seq) ← resolve_off_code d_rep c_rep seq;
      '(d_rep, c_rep, seqs) ← resolve_off_codes d_rep c_rep seqs;
      Ok (d_rep, c_rep, seq :: seqs)
  end.

(** ** The rewritten sequences mean the same *)

Lemma raw_offset_ok h b ll0 : hist_ok h -> 1 <= b <= 3 -> exists r,
  resolve_repcode_to_raw_offset h b ll0 = Ok r /\ 0 <= r < 2 ^ 32 /\ (repcode h b ll0).1 = if r =? 0 then USIZE_MAX else r.
Proof.
  intros (h0 & h1 & h2 & -> & B0 & B1 & B2) Hb. change (2 ^ 32) with 4294967296 in *.
  unfold resolve_repcode_to_raw_offset, offbase_to_repcode, offbase_is_repcode, ZSTD_REP_NUM, repcode.
  rewrite (proj2 (Z.leb_le 1 b)), (proj2 (Z.leb_le b 3)), (proj2 (Z.ltb_ge 3 b)) by lia. cbn [andb rassert mbind res_bind].
  assert (exists k, b + Z.b2z ll0 = k /\ (k = 1 \/ k = 2 \/ k = 3 \/ k = 4)) as (k & Ek & Hk) by (eexists; split; [done|destruct ll0; cbn; lia]).
  replace (b - 1 + Z.b2z ll0) with (b + Z.b2z ll0 - 1) by lia. rewrite Ek.
  destruct Hk as [-> |[-> |[-> | ->]]]; cbn.
  - exists h0. rewrite (proj2 (Z.eqb_neq h0 0)) by lia. split_and!; done || lia.
  - exists h1. rewrite (proj2 (Z.eqb_neq h1 0)) by lia. split_and!; done || lia.
  - exists h2. rewrite (proj2 (Z.eqb_neq h2 0)) by lia. split_and!; done || lia.
  - exists (h0 - 1). change (idx [h0; h1; h2] 0) with (Ok h0 : dec Z). cbn [mbind res_bind]. unfold wsub.
    rewrite wrap_small by (change (2 ^ 32) with 4294967296; lia). split; [done|]. split; [lia|].
    destruct (Z.eqb_spec h0 1), (Z.eqb_spec (h0 - 1) 0); lia || done.
Qed.

(** An offset the decoder can be given as an offset. *)
Definition plain_offset (o : Z) : Prop := 1 <= o < 2 ^ 32 - 3.

Lemma resolve_off_code_ok d c seq : hist_ok d -> hist_ok c -> seq_ok seq ->
  let ll0 := lit_len seq =? 0 in let o := (repcode c (off_base seq) ll0).1 in plain_offset o ->
  exists d' seq', resolve_off_code d c seq = Ok (d', (repcode c (off_base seq) ll0).2, seq') /\
    (seq' = seq \/ 3 < off_base seq') /\ lit_len seq' = lit_len seq /\ ml_base seq' = ml_base seq /\ seq_ok seq' /\
    repcode d (off_base seq') ll0 = (o, d') /\ hist_ok d' /\ hist_ok (repcode c (off_base seq) ll0).2.
Proof.
  intros Hd Hc Hok ll0 o Ho. pose proof Hok as (H1 & H2 & H3). unfold plain_offset in Ho. change (2 ^ 32) with 4294967296 in *.
  assert (o <> USIZE_MAX) as Hmax by (unfold USIZE_MAX; lia).
  assert (exists seq', (if offbase_is_repcode (off_base seq) then
           d_raw ← resolve_repcode_to_raw_offset d (off_base seq) ll0; c_raw ← resolve_repcode_to_raw_offset c (off_base seq) ll0;
           if negb (d_raw =? c_raw) then _ ← rassert (0 <? c_raw); Ok (MkSeq (lit_len seq) (offset_to_offbase c_raw) (ml_base seq)) else Ok seq
         else Ok seq : dec Seq) = Ok seq' /\ (seq' = seq \/ 3 < off_base seq') /\ lit_len seq' = lit_len seq /\ ml_base seq' = ml_base seq /\ seq_ok seq' /\
      (repcode d (off_base seq') ll0).1 = o) as (seq' & Hs & Hsame & Hl & Hm & Hok' & Hrd).
  { unfold offbase_is_repcode, ZSTD_REP_NUM. destruct (Z.leb_spec 1 (off_base seq)); [|lia].
    destruct (Z.leb_spec (off_base seq) 3) as [Hle|Hgt]; cbn [andb].
    - destruct (raw_offset_ok d (off_base seq) ll0 Hd ltac:(lia)) as (rd & -> & Hrd & Ed).
      destruct (raw_offset_ok c (off_base seq) ll0 Hc ltac:(lia)) as (rc & -> & Hrc & Ec). cbn [mbind res_bind]. fold o in Ec.
      destruct (Z.eqb_spec rc 0) as [->|Hnz]; [congruence|]. destruct (Z.eqb_spec rd rc) as [->|Hne]; cbn [negb].
      + exists seq. split; [done|]. split; [by left|]. split_and!; try done. rewrite Ed. by destruct (Z.eqb_spec rc 0).
      + rewrite (proj2 (Z.ltb_lt 0 rc)) by lia. cbn [rassert mbind res_bind]. eexists. split; [done|]. cbn [lit_len ml_base off_base].
        unfold offset_to_offbase, ZSTD_REP_NUM. split; [right; lia|]. split_and!; try done.
        * split; [done|]. split; [done|]. cbn. change (2 ^ 32) with 4294967296. lia.
        * unfold repcode. destruct Hd as (h0 & h1 & h2 & -> & _). rewrite (proj2 (Z.ltb_lt 3 (rc + 3))) by lia. cbn. lia.
    - exists seq. split; [done|]. split; [by left|]. split_and!; try done. unfold o, repcode. destruct Hd as (h0 & h1 & h2 & -> & _), Hc as (c0 & c1 & c2 & -> & _).
      by rewrite (proj2 (Z.ltb_lt 3 (off_base seq))) by lia. }
  unfold resolve_off_code. fold ll0. rewrite Hs. cbn [mbind res_bind].
  pose proof Hok' as (_ & _ & H3').
  destruct (update_rep_repcode d (off_base seq') ll0 Hd ltac:(lia) ltac:(intros Hn; pose proof (repcode_none d _ _ Hn Hd); congruence)) as [-> _].
  destruct (update_rep_repcode c (off_base seq) ll0 Hc ltac:(lia) ltac:(intros Hn; by pose proof (repcode_none c _ _ Hn Hc))) as [-> _]. cbn [mbind res_bind].
  pose proof (repcode_ok d (off_base seq') ll0 Hd H3') as Hd'. pose proof (repcode_ok c (off_base seq) ll0 Hc H3) as Hc'. fold o in Hc'.
  unfold o in *. clear o. destruct (repcode d (off_base seq') ll0) as [od d'] eqn:Er, (repcode c (off_base seq) ll0) as [oc c']. cbn [fst snd] in *. subst od.
  exists d', seq'. split; [done|]. split; [done|]. split; [done|]. split; [done|]. split; [done|]. split; [done|].
  destruct Hd' as [[_ Hd']|]; [|done]. by destruct Hc' as [[_ Hc']|].
Qed.

(** A partition's sequences after the finder's history and the rewritten ones
    after the decoder's: the same lengths and offsets. *)
Lemma resolve_off_codes_ok seqs : forall d c, hist_ok d -> hist_ok c -> Forall seq_ok seqs ->
  Forall (fun '(_, _, o) => plain_offset o) (resolve c seqs).1 ->
  exists d' seqs', resolve_off_codes d c seqs = Ok (d', (resolve c seqs).2, seqs') /\ zlen seqs' = zlen seqs /\
    Forall2 (fun q q' => (q' = q \/ 3 < off_base q') /\ lit_len q' = lit_len q) seqs seqs' /\ Forall seq_ok seqs' /\ resolve d seqs' = ((resolve c seqs).1, d') /\ hist_ok d' /\ hist_ok (resolve c seqs).2.
Proof.
  induction seqs as [|seq seqs IH]; intros d c Hd Hc Hok Ho; cbn [resolve_off_codes resolve] in *.
  { exists d, []. by split_and!. }
  apply Forall_cons in Hok as [Hs Hok]. pose proof (resolve_off_code_ok d c seq Hd Hc Hs) as Hone. cbv zeta in Hone.
  destruct (repcode c (off_base seq) (lit_len seq =? 0)) as [o c1] eqn:Ec. cbn [fst snd] in Hone.
  destruct (resolve c1 seqs) as [lz c2] eqn:Ers. cbn [fst snd] in Ho. apply Forall_cons in Ho as [Ho1 Ho].
  destruct (Hone Ho1) as (d1 & seq' & -> & Hsame & Hl & Hm & Hok' & Hr & Hd1 & Hc1). cbn [mbind res_bind].
  destruct (IH d1 c1 Hd1 Hc1 Hok) as (d2 & seqs' & He & Hlen & Hsames & Hoks & Hres & Hd2 & Hc2); [by rewrite Ers|].
  rewrite Ers in He, Hres, Hc2. cbn [fst snd] in He, Hres, Hc2. rewrite He. cbn [mbind res_bind fst snd].
  exists d2, (seq' :: seqs'). split; [done|]. split; [rewrite !zlen_cons; lia|]. split; [by constructor|]. split; [by constructor|].
  cbn [resolve]. rewrite Hl, Hm, Hr, Hres. done.
Qed.
