(* ===== verification/BlockEncode.v ===== *)
(** * One block ([src/compress/block.rs], [src/compress/entropy.rs])

    The state a job keeps across its blocks (the repeat offsets and the
    entropy tables the decoder holds), the entropy stage of a block, its
    block-type decision with the state's commit, and the blocks a split
    writes. What the match finder stored is given. The entropy stage's result
    carries the spare tables it wrote; its buffer is what the candidate comes
    with. *)

From S2P Require Import Prelude Words Constants Errors FseEncode Entropy Params SeqDecode SeqEncode.
From S2P Require Import HufCStream HufCTable HufLiterals FrameWrite FrameEmit Split.

Definition MIN_CBLOCK_SIZE : Z := 2.
Definition ZSTD_BLOCKHEADERSIZE : Z := 3.

(** [REP_START_VALUE]. *)
Definition REP_START_VALUE : list Z := [1; 4; 8].

(** ** The tables *)

(** [EntropyTables]. *)
Record EntropyTables := MkEntropy { et_huf : Slots HufTable; et_fse : FseSlots }.

(** [EntropyTables::default]. *)
Definition entropy_default : EntropyTables :=
  let d := slots_default ctable_default in MkEntropy (slots_default huf_table_default) (MkFseSlots d d d).

(** [EntropyTables::clear]. *)
Definition entropy_clear (e : EntropyTables) : EntropyTables :=
  MkEntropy (slots_clear (et_huf e))
    (MkFseSlots (slots_clear (fs_ll (et_fse e))) (slots_clear (fs_of (et_fse e))) (slots_clear (fs_ml (et_fse e)))).

(** [EntropyTables::load]. *)
Definition entropy_load (e from : EntropyTables) : dec EntropyTables :=
  huf ← slots_load (et_huf e) (et_huf from);
  ll ← slots_load (fs_ll (et_fse e)) (fs_ll (et_fse from));
  of_ ← slots_load (fs_of (et_fse e)) (fs_of (et_fse from));
  ml ← slots_load (fs_ml (et_fse e)) (fs_ml (et_fse from));
  Ok (MkEntropy huf (MkFseSlots ll of_ ml)).

(** ** The state *)

(** [BlockState]. *)
Record BlockState := MkState { bs_rep : list Z; bs_entropy : EntropyTables }.

(** [BlockState::default]. *)
Definition state_default : BlockState := MkState REP_START_VALUE entropy_default.

(** [Candidate]. *)
Record Candidate := MkCandidate { cd_rep : list Z; cd_huf : Next; cd_fse : FseNext }.

(** [BlockState::reset]. *)
Definition state_reset (st : BlockState) : BlockState := MkState REP_START_VALUE (entropy_clear (bs_entropy st)).

(** [BlockState::load]. *)
Definition state_load (st from : BlockState) : dec BlockState :=
  e ← entropy_load (bs_entropy st) (bs_entropy from);
  Ok (MkState (bs_rep from) e).

(** [BlockState::invalidate_rep_codes]. *)
Definition invalidate_rep_codes (st : BlockState) : BlockState := MkState (zrepeat 0 3) (bs_entropy st).

(** [BlockState::coder_tables]. *)
Definition coder_tables (st : BlockState) : dec (TableRef HufTable * FseTables) :=
  huf ← slots_split (et_huf (bs_entropy st));
  fse ← fse_split (et_fse (bs_entropy st));
  Ok (huf, fse).

(** The spare tables of [coder_tables], written. *)
Definition put_tables (st : BlockState) (huf : HufTable) (ll of_ ml : FseCTable) : dec BlockState :=
  h ← put_spare (et_huf (bs_entropy st)) huf;
  f ← fse_put (et_fse (bs_entropy st)) ll of_ ml;
  Ok (MkState (bs_rep st) (MkEntropy h f)).

(** [BlockState::end_block]. *)
Definition end_block (st : BlockState) (next : option Candidate) : BlockState :=
  let st :=
    match next with
    | Some c => MkState (cd_rep c) (MkEntropy (slots_commit (et_huf (bs_entropy st)) (cd_huf c))
                                      (fse_commit (et_fse (bs_entropy st)) (cd_fse c)))
    | None => st
    end in
  let f := et_fse (bs_entropy st) in
  MkState (bs_rep st) (MkEntropy (et_huf (bs_entropy st))
    (MkFseSlots (fs_ll f) (slots_demote_valid (fs_of f)) (fs_ml f))).

(** ** The entropy stage *)

(** [attempts_compression]. *)
Definition attempts_compression (block_len : Z) : bool := MIN_CBLOCK_SIZE + ZSTD_BLOCKHEADERSIZE + 1 <? block_len.

(** [Sections]. *)
Record Sections := MkSections { sc_lits : list Z; sc_seqs : list Seq; sc_rep : list Z }.

(** [Sections::whole]. *)
Definition sections_whole (store : SeqStore) (rep : list Z) : Sections := MkSections (ss_lits store) (ss_seqs store) rep.

(** [entropy_code]: the candidate with [cbuf], and the spare tables. *)
Definition entropy_code (sections : Sections) (block_len : Z) (tables : TableRef HufTable * FseTables) (cparams : CParams)
    : dec (option (Candidate * list Z) * (HufTable * (FseCTable * FseCTable * FseCTable))) :=
  let '(huf_tables, fse_tables) := tables in
  '(lits, huf_spare, huf) ← compress_literals_with (sc_lits sections) (zlen (sc_seqs sections)) huf_tables cparams;
  '(section, fse_spares) ← encode_sequences_section_with (sc_seqs sections) fse_tables (strategy cparams);
  match section with
  | None => Ok (None, (huf_spare, fse_spares))
  | Some (seqs, fse) =>
      let cbuf := lits ++ seqs in
      let max_c_size := wsub 64 block_len (min_gain block_len (strategy cparams)) in
      if max_c_size <=? zlen cbuf then Ok (None, (huf_spare, fse_spares))
      else
        _ ← rassert (zlen cbuf <? ZSTD_BLOCKSIZE_MAX);
        Ok (Some (MkCandidate (sc_rep sections) huf fse, cbuf), (huf_spare, fse_spares))
  end.

(** [entropy_and_emit], with the state: the output, the state and the
    block's type. *)
Definition entropy_and_emit_block (src : list Z) (block : Z * Z) (sections : Sections) (cparams : CParams)
    (is_first_block is_last : bool) (state : BlockState) (out : list Z) : dec (list Z * BlockState * BlockKind) :=
  _ ← rassert (block.2 - block.1 <=? ZSTD_BLOCKSIZE_MAX);
  let block_len := block.2 - block.1 in
  data ← slice src block.1 block.2;
  tables ← coder_tables state;
  '(next, (huf, (ll, of_, ml))) ← entropy_code sections block_len tables cparams;
  state ← put_tables state huf ll of_ ml;
  let c_size := match next with Some (_, cbuf) => zlen cbuf | None => 0 end in
  if negb is_first_block && (c_size <? RLE_MAX_LENGTH) && is_rle data then
    first ← idx data 0;
    Ok (write_rle_block out first (zlen data) is_last, end_block state None, KRle)
  else match next with
       | None => Ok (write_raw_block out data is_last, end_block state None, KRaw)
       | Some (c, cbuf) => Ok (write_compressed_block out cbuf is_last, end_block state (Some c), KCompressed)
       end.

(** ** A block, split or not *)

(** What the loop of [emit_block] keeps. *)
Record SplitLoop := MkLoop {
  lp_seqs : list Seq;
  lp_d_rep : list Z;
  lp_c_rep : list Z;
  lp_start : Z;
  lp_all : bool;
  lp_state : BlockState;
  lp_out : list Z;
}.

(** One partition. *)
Definition emit_part (src lits : list Z) (cparams : CParams) (is_first_block is_last : bool) (lp : SplitLoop)
    (part : Partition) (last_part : bool) : dec SplitLoop :=
  let '(a, b) := pt_seqs part in
  seqs ← slice (lp_seqs lp) a b;
  '(d_rep, c_rep, seqs) ← resolve_off_codes (lp_d_rep lp) (lp_c_rep lp) seqs;
  let store := ztake a (lp_seqs lp) ++ seqs ++ zdrop b (lp_seqs lp) in
  lits ← slice lits (pt_lits part).1 (pt_lits part).2;
  '(out, state, kind) ← entropy_and_emit_block src (lp_start lp, lp_start lp + pt_src_len part) (MkSections lits seqs d_rep)
    cparams is_first_block (is_last && last_part) (lp_state lp) (lp_out lp);
  let '(d_rep, all) :=
    match kind with KCompressed => (d_rep, lp_all lp) | KRaw | KRle => (lp_d_rep lp, false) end in
  Ok (MkLoop store d_rep c_rep (lp_start lp + pt_src_len part) all state out).

Fixpoint emit_parts (src lits : list Z) (cparams : CParams) (is_first_block is_last : bool) (lp : SplitLoop)
    (parts : list Partition) : dec SplitLoop :=
  match parts with
  | [] => Ok lp
  | part :: parts =>
      lp ← emit_part src lits cparams is_first_block is_last lp part (is_empty parts);
      emit_parts src lits cparams is_first_block is_last lp parts
  end.

(** [emit_block]: the output, the state, and whether every block written is
    COMPRESSED. *)
Definition emit_block (src : list Z) (block : Z * Z) (built : option (SeqStore * list Z)) (parts : option (list Partition))
    (cparams : CParams) (is_first_block is_last : bool) (state : BlockState) (out : list Z)
    : dec (list Z * BlockState * bool) :=
  match built with
  | None =>
      data ← slice src block.1 block.2;
      Ok (write_raw_block out data is_last, end_block state None, false)
  | Some (store, rep) =>
      match parts with
      | None | Some [] =>
          '(out, state, kind) ← entropy_and_emit_block src block (sections_whole store rep) cparams is_first_block is_last state out;
          Ok (out, state, match kind with KCompressed => true | _ => false end)
      | Some parts =>
          let lp := MkLoop (ss_seqs store) (bs_rep state) (bs_rep state) block.1 true state out in
          lp ← emit_parts src (ss_lits store) cparams is_first_block is_last lp parts;
          _ ← rassert (lp_start lp =? block.2);
          _ ← rassert (bool_decide (bs_rep (lp_state lp) = lp_d_rep lp));
          Ok (lp_out lp, lp_state lp, lp_all lp)
      end
  end.

(** ** Proofs before the entropy stage *)

(** [proven_compressed]. *)
Definition proven_compressed (src : list Z) (block : Z * Z) (lits : list Z) (seqs : list Seq) (strategy : Strategy) : dec bool :=
  let block_len := block.2 - block.1 in
  data ← slice src block.1 block.2;
  if is_rle data then Ok false
  else
    bound ← sequences_section_bound seqs;
    Ok (literals_section_bound (zlen lits) + bound <? wsub 64 block_len (min_gain block_len strategy)).

(** The partitions of [proven_rep_after], from [start]. *)
Fixpoint proven_parts (src : list Z) (start : Z) (store : SeqStore) (parts : list Partition) (strategy : Strategy) : dec bool :=
  match parts with
  | [] => Ok true
  | part :: parts =>
      lits ← slice (ss_lits store) (pt_lits part).1 (pt_lits part).2;
      seqs ← slice (ss_seqs store) (pt_seqs part).1 (pt_seqs part).2;
      ok ← proven_compressed src (start, start + pt_src_len part) lits seqs strategy;
      if ok : bool then proven_parts src (start + pt_src_len part) store parts strategy else Ok false
  end.

(** [proven_rep_after]. *)
Definition proven_rep_after (src : list Z) (block : Z * Z) (store : SeqStore) (rep : list Z) (parts : option (list Partition))
    (prev_rep : list Z) (strategy : Strategy) : dec (option (list Z)) :=
  match parts with
  | None | Some [] =>
      ok ← proven_compressed src block (ss_lits store) (ss_seqs store) strategy;
      Ok (if ok : bool then Some rep else None)
  | Some parts =>
      ok ← proven_parts src block.1 store parts strategy;
      if ok : bool then
        rep ← foldM (fun rep seq => update_rep rep (off_base seq) (lit_len seq =? 0)) prev_rep (ss_seqs store);
        Ok (Some rep)
      else Ok None
  end.

(** [compressed_gain_bound]. *)
Definition compressed_gain_bound (block_len : Z) (parts : option (list Partition)) (strategy : Strategy) : Z :=
  let gain len := min_gain len strategy + 1 - ZSTD_BLOCKHEADERSIZE in
  match parts with
  | None | Some [] => gain block_len
  | Some parts => foldr Z.add 0 (gain <$> (pt_src_len <$> parts))
  end.
