(* ===== verification/BlockRound.v ===== *)
(** * Encoded blocks decode ([src/compress/block.rs], [src/decode.rs])

    The entropy stage of a block, its decision and its commit against the
    decoder's reference: whatever the match finder stored, as long as it
    executes to the block, the blocks written decode to it, and the state the
    encoder is left with is the decoder's. *)

From S2P Require Import Prelude Words Constants Errors FseTable FseBuild Headers HeaderUnits SeqTables.
From S2P Require Import HufTable HufFill HufX2Table Copy CopyProofs SeqExec SeqDecode SeqRun BlockDecode DecodeDict Frame.
From S2P Require Import FrameRef FrameProofs FrameWrite FrameEmit.
From S2P Require Import FseEncode SeqStream Entropy Params SeqEncode SeqEncodeProofs SeqSection.
From S2P Require Import HufCStream HufCTable HufRoundTrip HufLiterals HufSection Split BlockEncode.

Lemma zdrop_front {A} (l1 l2 : list A) n : 0 <= n <= zlen l1 -> zdrop n (l1 ++ l2) = zdrop n l1 ++ l2.
Proof. intros. unfold zdrop, zlen in *. apply drop_app_le. lia. Qed.

Lemma slice_to_end {E A} (l : list A) a : 0 <= a <= zlen l -> slice l a (zlen l) = (Ok (zdrop a l) : res E _).
Proof. apply slice_from_ok. Qed.

(** ** What sequences make of a block *)

Lemma lz_sequence_length dict ext window limit h lits ll ml o h' lits' :
  lz_sequence dict ext window limit h lits ll ml o = Ok (h', lits') -> 0 <= ll -> 0 <= ml ->
  zlen h' = zlen h + ll + ml /\ zlen lits' = zlen lits - ll.
Proof.
  unfold lz_sequence. intros H Hl Hm. inv_ok. rewrite zlen_lz_match, zlen_app.
  bools. rewrite zlen_ztake, zlen_zdrop by lia. lia.
Qed.

(** Lengths add up: every sequence takes three bytes of the block. *)
Lemma lz_sequences_length dict ext window limit qs : forall h lits h' lits',
  lz_sequences dict ext window limit h lits qs = Some (h', lits') -> Forall (fun '(ll, ml, _) => 0 <= ll /\ 3 <= ml) qs ->
  zlen h + (zlen lits - zlen lits') + 3 * zlen qs <= zlen h' /\ zlen lits' <= zlen lits.
Proof.
  induction qs as [|[[ll ml] o] qs IH]; intros h lits h' lits' H Hq; cbn [lz_sequences] in H.
  { injection H as <- <-. change (zlen []) with 0. lia. }
  apply Forall_cons in Hq as [[Hl Hm] Hq]. destruct (lz_sequence _ _ _ _ _ _ _ _ _) as [[h1 l1]|e| |] eqn:Hs; try done.
  apply lz_sequence_length in Hs as [H1 H2]; [|lia|lia]. specialize (IH h1 l1 h' lits' H Hq). rewrite zlen_cons. lia.
Qed.

Lemma resolved_lengths seqs : forall hist, Forall seq_ok seqs -> Forall (fun '(ll, ml, _) => 0 <= ll /\ 3 <= ml) (resolve hist seqs).1.
Proof.
  induction seqs as [|q seqs IH]; intros hist Hok; cbn [resolve]; [by constructor|]. apply Forall_cons in Hok as [(H1 & H2 & H3) Hok].
  destruct (repcode _ _ _) as [o hist1]. specialize (IH hist1 Hok). destruct (resolve hist1 seqs) as [lz hist2]. cbn [fst] in *.
  constructor; [|done]. unfold ZSTD_MINMATCH. lia.
Qed.

Lemma zlen_resolve seqs : forall hist, zlen (resolve hist seqs).1 = zlen seqs.
Proof.
  induction seqs as [|q seqs IH]; intros hist; cbn [resolve]; [done|]. destruct (repcode _ _ _) as [o hist1]. specialize (IH hist1).
  destruct (resolve hist1 seqs) as [lz hist2]. cbn [fst] in *. rewrite !zlen_cons. lia.
Qed.

(** ** What links the encoder to the decoder *)

Section block.
Context (dict : option DecodeDict) (V : SeqValid) (deep : bool).
Let entropy := dict ≫= dd_entropy.

(** The dictionary's Huffman table, while the scratch points at it. *)
Definition repeat_of (ws : DecoderScratch) : option HuffmanTable :=
  if huf_from_dict ws then (fun d => hs_table (de_huf d)) <$> entropy else None.

(** The Huffman slots and the decoder's table. *)
Definition huf_linked (ws : DecoderScratch) (s : Slots HufTable) : Prop :=
  slots_wf s /\ Forall (fun t => zlen (elts t) = 256) (slots s) /\
  exists h lens, slots_held s = (Ok h : dec _) /\
    (forall e, held_table h = Some e -> twin e lens (default (hs_table (ds_huf ws)) (repeat_of ws))) /\
    (held_repeat h = RValid -> forall b, is_byte b -> has_code lens b).

(** What the encoder remembers of the decoder's repeat offsets: the first
    two, and the third with a finder that is [deep]; a finder that is not
    stores no code that means the third. *)
Definition rep_linked (r h : list Z) : Prop :=
  hist_ok r /\ hist_ok h /\ ztake 2 r = ztake 2 h /\ (deep = true -> r = h).

Definition code_kept (q : Seq) : Prop := 3 < off_base q \/ deep = true \/ off_base q + Z.b2z (lit_len q =? 0) <= 2.

Lemma rep_linked_refl h : hist_ok h -> rep_linked h h.
Proof. by intros. Qed.

Lemma rep_linked_trans a b c : rep_linked a b -> rep_linked b c -> rep_linked a c.
Proof. intros (H1 & H2 & H3 & H4) (_ & H5 & H6 & H7). split_and!; [done|done|congruence|]. intros Hd. by rewrite H4, H7. Qed.

Lemma rep_linked_sym a b : rep_linked a b -> rep_linked b a.
Proof. intros (H1 & H2 & H3 & H4). split_and!; [done..|]. intros Hd. by rewrite H4. Qed.

Lemma repcode_linked r h q : rep_linked r h -> code_kept q -> seq_ok q -> let ll0 := lit_len q =? 0 in
  plain_offset (repcode r (off_base q) ll0).1 ->
  (repcode h (off_base q) ll0).1 = (repcode r (off_base q) ll0).1 /\ rep_linked (repcode r (off_base q) ll0).2 (repcode h (off_base q) ll0).2.
Proof.
  intros (Hr & Hh & H2 & Hd) Hq (_ & _ & Ho) ll0 Hp. unfold plain_offset in Hp.
  assert ((repcode h (off_base q) ll0).1 = (repcode r (off_base q) ll0).1 /\ ztake 2 (repcode r (off_base q) ll0).2 = ztake 2 (repcode h (off_base q) ll0).2 /\
    (deep = true -> (repcode r (off_base q) ll0).2 = (repcode h (off_base q) ll0).2)) as (E1 & E2 & E3).
  { destruct Hr as (r0 & r1 & r2 & -> & _), Hh as (h0 & h1 & h2 & -> & _). cbn in H2. injection H2 as -> ->.
    destruct Hq as [Hq|[Hq|Hq]].
    - unfold repcode. rewrite (proj2 (Z.ltb_lt 3 _)) by done. cbn. split_and!; done.
    - by injection (Hd Hq) as ->.
    - fold ll0 in Hq. unfold repcode. rewrite (proj2 (Z.ltb_ge 3 _)) by (destruct ll0; cbn in *; lia).
      destruct (Z.eqb_spec (off_base q + Z.b2z ll0) 1) as [|H1]; [split_and!; try done; intros Hdp; by injection (Hd Hdp) as ->|].
      rewrite (proj2 (Z.eqb_eq _ 2)) by (destruct ll0; cbn in *; lia). split_and!; try done. intros Hdp. by injection (Hd Hdp) as ->. }
  split; [done|]. pose proof (repcode_ok r (off_base q) ll0 Hr Ho) as Kr. pose proof (repcode_ok h (off_base q) ll0 Hh Ho) as Kh.
  destruct (repcode r (off_base q) ll0) as [o r'], (repcode h (off_base q) ll0) as [o' h']. cbn [fst snd] in *. subst o'. unfold offset_ok in Kr, Kh.
  destruct Kr as [[_ Kr]|Kr]; [|unfold USIZE_MAX in Kr; change (2 ^ 32) with 4294967296 in Hp; lia].
  destruct Kh as [[_ Kh]|Kh]; [|unfold USIZE_MAX in Kh; change (2 ^ 32) with 4294967296 in Hp; lia]. split_and!; done.
Qed.

(** Sequences mean the same to both, and leave them linked. *)
Lemma resolve_linked seqs : forall r h, rep_linked r h -> Forall code_kept seqs -> Forall seq_ok seqs -> Forall (fun '(_, _, o) => plain_offset o) (resolve r seqs).1 ->
  (resolve h seqs).1 = (resolve r seqs).1 /\ rep_linked (resolve r seqs).2 (resolve h seqs).2.
Proof.
  induction seqs as [|q seqs IH]; intros r h Hl Hq Hok Hp; cbn [resolve] in *; [done|].
  apply Forall_cons in Hq as [Hq1 Hq], Hok as [Hok1 Hok]. pose proof (repcode_linked r h q Hl Hq1 Hok1) as Hone. cbv zeta in Hone.
  destruct (repcode r _ _) as [o r'], (repcode h _ _) as [o' h']. cbn [fst snd] in Hone. specialize (IH r' h').
  destruct (resolve r' seqs) as [lz r2], (resolve h' seqs) as [lz' h2]. cbn [fst snd] in *. apply Forall_cons in Hp as [Hp1 Hp].
  destruct (Hone Hp1) as [-> Hl']. destruct (IH Hl' Hq Hok Hp) as [-> ?]. done.
Qed.

Record block_linked (ws : DecoderScratch) (st : BlockState) : Prop := {
  bl_scratch : scratch_ok entropy ws;
  bl_fse : slots_linked (de_fse <$> entropy) (ds_fse ws) V (et_fse (bs_entropy st));
  bl_huf : huf_linked ws (et_huf (bs_entropy st));
  bl_rep : rep_linked (bs_rep st) (offset_hist ws);
}.

Context (window bsm : Z) (Hbsm : 0 <= bsm <= MAX_BLOCK_SIZE).
Let ext := ext_dict (dict_content dict).

(** A stored block: its sequences and literals execute to [data] after the
    history [h], from the repeat offsets [rep]; [rep'] are those after it. *)
Record stored (h data lits : list Z) (seqs : list Seq) (rep rep' : list Z) : Prop := {
  st_data : bytes data /\ 2 <= zlen data <= bsm;
  st_lits : bytes lits;
  st_seqs : Forall seq_ok seqs;
  st_codes : Forall code_kept seqs;
  st_plain : Forall (fun '(_, _, o) => plain_offset o) (resolve rep seqs).1;
  st_rep : rep_linked rep' (resolve rep seqs).2;
  st_runs : lz_block (has_ext ext && e_dict ext) (e_len ext) window (zlen h + MAX_BLOCK_SIZE) h lits (resolve rep seqs).1 = Some (h ++ data);
}.

Lemma stored_sizes h data lits seqs rep rep' : stored h data lits seqs rep rep' ->
  zlen lits <= zlen data /\ 3 * zlen seqs <= zlen data.
Proof.
  intros [Hd _ Hok _ _ _ Hr]. unfold lz_block in Hr. destruct (lz_sequences _ _ _ _ _ _ _) as [[h' l']|] eqn:Hs; [|done].
  cbn [mbind option_bind] in Hr. destruct (_ <=? _); [|done]. injection Hr as Hr. apply (f_equal zlen) in Hr. rewrite !zlen_app in Hr.
  apply lz_sequences_length in Hs as [H1 H2]; [|by apply resolved_lengths]. rewrite zlen_resolve in H1. pose proof (zlen_nonneg l').
  pose proof (zlen_nonneg seqs). lia.
Qed.

Lemma stored_hist h data lits seqs rep rep' : stored h data lits seqs rep rep' -> hist_ok rep'.
Proof. intros [_ _ _ _ _ (? & _) _]. done. Qed.

(** ** A block's sections, read one after the other *)

Context (Hentropy : dict_entropy_ok entropy).

Lemma repeat_built ws t : repeat_of ws = Some t -> huf_built t.
Proof.
  unfold repeat_of. destruct (huf_from_dict ws); [|done]. intros Ht. apply fmap_Some in Ht as (d & Hd & ->). by apply (ek_huf d), Hentropy.
Qed.

(** The literals section in front of another. *)
Lemma literals_split ws lits out_l out_s spare next : huf_scratch_ok (ds_huf ws) -> bytes out_l -> bytes out_s -> zlen lits <= bsm ->
  lits_reads (ds_huf ws) (repeat_of ws) lits out_l spare next ->
  forall hd k, parse_sequences_header out_s = Ok (hd, k) -> 0 <= k <= zlen out_s ->
  exists sec n huf', split_block (out_l ++ out_s) bsm = Ok (MkParts sec (zdrop n out_l) hd (zdrop k out_s)) /\
    ref_literals sec (ds_huf ws) (repeat_of ws) (zdrop n out_l) = Some (huf', lits) /\ huf_scratch_ok huf' /\
    match next with
    | NNew => ls_type sec = LitCompressed /\ exists lens, twin spare lens (hs_table huf')
    | NKeep => ls_type sec <> LitCompressed /\ huf' = ds_huf ws
    | NNone => False
    end.
Proof.
  intros Hws Hbl Hbs Hlen (sec & n & huf' & Hp & Hr & Hn & Hc & Hl & Hdec & Hnext) hd k Hh Hk. exists sec, n, huf'.
  pose proof (zlen_nonneg out_s).
  assert (zdrop n (out_l ++ out_s) = zdrop n out_l ++ out_s) as Hdrop by (apply zdrop_front; lia).
  assert (zlen (zdrop n out_l) = lits_content sec) as Hsl by (rewrite zlen_zdrop by lia; lia).
  split.
  { unfold split_block. rewrite Hp. cbn [mbind res_bind]. rewrite Hr, (proj2 (Z.ltb_ge bsm (zlen lits))) by lia. cbn [fail_if mbind res_bind].
    rewrite slice_from_ok by (rewrite zlen_app; lia). cbn [mbind res_bind]. rewrite Hdrop, zlen_app, Hsl.
    rewrite (proj2 (Z.ltb_ge _ _)) by lia. cbn [fail_if mbind res_bind].
    rewrite slice_prefix by (rewrite zlen_app; lia). cbn [mbind res_bind]. rewrite ztake_app_le, ztake_all by lia.
    rewrite slice_from_ok by (rewrite zlen_app; lia). cbn [mbind res_bind]. rewrite <- Hsl, zdrop_zlen_app by done. rewrite Hh. cbn [mbind res_bind].
    by rewrite slice_from_ok by lia. }
  assert (lits_ok sec (zdrop n out_l)) as Hli.
  { split; [|done|by apply Forall_drop]. pose proof (parse_literals_section_safe (out_l ++ []) ltac:(by rewrite app_nil_r)) as Hs.
    rewrite (Hp []) in Hs. by destruct Hs as [? _]. }
  pose proof (decode_literals_ok sec (ds_huf ws) (repeat_of ws) Hws (repeat_built ws) (zdrop n out_l) Hli) as Hok.
  rewrite Hdec in Hok. destruct (ref_literals _ _ _ _) as [[huf2 l2]|]; [|by destruct Hok as (? & ? & _)]. destruct Hok as ([h3 l3] & E & Hd). injection E as -> ->.
  destruct Hd as (Ed & _ & _ & _ & Hsc). cbn [fst snd] in *. injection Ed as <- <-. done.
Qed.

(** What a coded block means. *)
Lemma coded_block ws st h data lits seqs rep' out_l out_s spare next s' :
  block_linked ws st -> stored h data lits seqs (bs_rep st) rep' -> bytes out_l -> bytes out_s ->
  lits_reads (ds_huf ws) (repeat_of ws) lits out_l spare next ->
  section_reads (de_fse <$> entropy) (ds_fse ws) out_s seqs s' ->
  exists huf' buf hist, let from := huf_from_dict ws && bool_decide (next <> NNew) in
    ref_block (out_l ++ out_s) bsm ws entropy ext window h = Some (h ++ data, MkScratch huf' s' hist buf from) /\ huf_scratch_ok huf' /\ rep_linked rep' hist /\
    match next with NNew => exists lens, twin spare lens (hs_table huf') | NKeep => huf' = ds_huf ws | NNone => False end.
Proof.
  intros [Hsc Hfse Hhuf Hrep] Hst Hbl Hbs Hlr (hd & k & Hph & Hnum & Hseqs).
  pose proof (stored_sizes _ _ _ _ _ _ Hst) as [Hz1 Hz2]. destruct Hst as [[Hdb Hdl] Hlb Hok Hcodes Hplain Hrep' Hruns].
  destruct (resolve_linked seqs _ _ Hrep Hcodes Hok Hplain) as [Hlz Hrl'].
  assert (sequences_header_ok hd /\ 0 <= k <= zlen out_s) as [Hhd Hk].
  { pose proof (parse_sequences_header_safe out_s Hbs) as Hs. rewrite Hph in Hs. destruct Hs as (? & H1 & H2). split; [done|lia]. }
  destruct (literals_split ws lits out_l out_s spare next ltac:(apply Hsc) Hbl Hbs ltac:(lia) Hlr hd k Hph Hk)
    as (sec & n & huf' & Hsp & Hrl & Hsc' & Hnext).
  assert (negb (is_compressed (ls_type sec)) = bool_decide (next <> NNew)) as Hfrom.
  { destruct next; [|done|]; destruct Hnext as [Hty _]; [by destruct (ls_type sec)|by rewrite Hty]. }
  exists huf', (lits ++ zrepeat 0 Constants.WILDCOPY_OVERLENGTH), (resolve (offset_hist ws) seqs).2. cbv zeta. split.
  2: { split; [done|]. split; [by eapply rep_linked_trans|]. destruct next; [by destruct Hnext|done|by destruct Hnext]. }
  unfold ref_block. rewrite Hsp. cbn [to_option mbind option_bind bp_literals literals_src bp_sequences sequences_src].
  fold (repeat_of ws). rewrite Hrl. cbn [mbind option_bind]. rewrite Hnum, Hfrom. rewrite <- Hlz in Hruns.
  destruct seqs as [|q seqs].
  - destruct Hseqs as [-> ->]. cbn [resolve fst snd] in *. change (zlen [] =? 0) with true. cbv iota.
    replace (zdrop (zlen out_s) out_s) with (@nil Z) by (unfold zdrop, zlen; by rewrite Nat2Z.id, drop_all). cbn [is_empty]. unfold lz_block in Hruns. cbn [lz_sequences mbind option_bind] in Hruns.
    destruct (_ <=? _); [|done]. injection Hruns as Hruns. by rewrite Hruns.
  - rewrite (proj2 (Z.eqb_neq (zlen (q :: seqs)) 0)) by (rewrite zlen_cons; pose proof (zlen_nonneg seqs); lia).
    set (qs := q :: seqs) in *. clearbody qs. destruct Hseqs as (j & ll_t & of_t & ml_t & Hbuild & Htab & Href & _).
    rewrite Hbuild. cbn [to_option mbind option_bind]. rewrite Htab. cbn [to_option mbind option_bind].
    specialize (Href (has_ext ext && e_dict ext) (e_len ext) window (zlen h + MAX_BLOCK_SIZE) (offset_hist ws) h lits).
    destruct (resolve (offset_hist ws) qs) as [lz hist]. cbn [fst snd q_bits q_ll q_of q_ml q_num] in *.
    assert (zdrop j (zdrop k out_s) = zdrop (k + j) out_s) as Hzd.
    { pose proof (build_sequence_tables_safe (de_fse <$> entropy) (ds_fse ws) hd (zdrop k out_s) ltac:(apply Hsc) Hhd ltac:(by apply Forall_drop)) as Hs.
      rewrite Hbuild in Hs. destruct Hs as (_ & Hj & _). unfold zdrop. rewrite drop_drop. f_equal. lia. }
    rewrite Hzd, Href, Hruns. cbn [mbind option_bind]. rewrite zlen_app, (proj2 (Z.ltb_ge _ _)) by lia. done.
Qed.
(** ** The entropy stage *)

(** What a literals section did, on the decoder's side. *)
Definition huf_moved (ws ws' : DecoderScratch) (spare : HufTable) (next : Next) : Prop :=
  match next with
  | NNew => repeat_of ws' = None /\ exists lens, twin spare lens (hs_table (ds_huf ws'))
  | NKeep => ds_huf ws' = ds_huf ws /\ repeat_of ws' = repeat_of ws
  | NNone => False
  end.

Lemma huf_step ws s : huf_linked ws s -> exists h lens spare, slots_split s = (Ok (MkRef h spare) : dec _) /\ zlen (elts spare) = 256 /\
  (forall e, held_table h = Some e -> twin e lens (default (hs_table (ds_huf ws)) (repeat_of ws))) /\
  (held_repeat h = RValid -> forall b, is_byte b -> has_code lens b) /\
  forall spare', zlen (elts spare') = 256 -> exists s', put_spare s spare' = (Ok s' : dec _) /\
    forall ws' next, huf_moved ws ws' spare' next -> huf_linked ws' (slots_commit s' next).
Proof.
  intros (Hw & H256 & h & lens & Hh & Htwin & Hvalid).
  destruct (slots_written (E := DecodeError) (fun t => zlen (elts t) = 256) s Hw H256) as (h' & spare & Hh' & Hs & Hsp & Hput).
  rewrite Hh in Hh'. injection Hh' as <-. exists h, lens, spare. do 4 (split; [done|]). intros spare' Hsp'.
  destruct (Hput spare' Hsp') as (s' & Hp & Hc). exists s'. split; [done|]. intros ws' next Hm.
  destruct (Hc next) as (Hw' & H256' & Hheld). split; [done|]. split; [done|].
  destruct next; cbn [huf_moved next_held] in *; [|done|].
  - destruct Hm as [H1 H2]. exists h, lens. rewrite H1, H2. done.
  - destruct Hm as (H1 & lens' & H2). exists (HCheck spare'), lens'. rewrite H1. split; [done|]. split; [by intros e [= <-]|done].
Qed.

(** The demotion at a block's end keeps the link. *)
Lemma fse_demoted fd s t kind W sl : slot_linked fd s t kind W sl -> slot_linked fd s t kind W (slots_demote_valid sl).
Proof.
  intros (Hw & H512 & h & Hh & covers & Hsy & Hv). destruct (slots_demoted sl h Hw Hh) as (Hw' & Hsl & Hh').
  split; [done|]. split; [by rewrite Hsl|]. exists (demoted h). split; [done|]. exists covers. by destruct h.
Qed.

Lemma end_linked ws st next : block_linked ws (end_block st next) <->
  let st := match next with Some c => MkState (cd_rep c) (MkEntropy (slots_commit (et_huf (bs_entropy st)) (cd_huf c)) (fse_commit (et_fse (bs_entropy st)) (cd_fse c))) | None => st end in
  block_linked ws (end_block st None).
Proof. by destruct next. Qed.

Lemma ended_linked ws st : block_linked ws st -> block_linked ws (end_block st None).
Proof.
  intros [Hsc [Hwf H1 H2 H3] Hh Hr]. split; [done| |done|done]. split; [done|done|by apply fse_demoted|done].
Qed.

(** The entropy stage of a stored block: it always returns, its tables go in
    the spare slots, and a candidate's payload decodes to the block and leaves
    the decoder what the commit leaves the encoder. *)
Lemma entropy_code_ok ws st h data lits seqs rep' cparams :
  block_linked ws st -> stored h data lits seqs (bs_rep st) rep' -> Forall (seq_valid V) seqs ->
  exists tables r huf ll of_ ml st', coder_tables st = Ok tables /\
    entropy_code (MkSections lits seqs rep') (zlen data) tables cparams = Ok (r, (huf, (ll, of_, ml))) /\
    put_tables st huf ll of_ ml = Ok st' /\ block_linked ws (end_block st' None) /\ bs_rep st' = bs_rep st /\
    match r with
    | None => True
    | Some (c, cbuf) => bytes cbuf /\ zlen cbuf <= zlen data /\ cd_rep c = rep' /\ exists ws',
        ref_block cbuf bsm ws entropy ext window h = Some (h ++ data, ws') /\ block_linked ws' (end_block st' (Some c))
    end.
Proof.
  intros Hlk Hst HV. pose proof Hlk as [Hsc Hfse Hhuf Hrep]. pose proof (stored_sizes _ _ _ _ _ _ Hst) as [Hz1 Hz2].
  pose proof (stored_hist _ _ _ _ _ _ Hst) as Hhist.
  pose proof Hst as [[Hdb Hdl] Hlb Hok _ _ _ _]. change MAX_BLOCK_SIZE with 131072 in Hbsm.
  destruct (huf_step ws _ Hhuf) as (h0 & lens & spare & Hsplit & Hsp & Htwin & Hvalid & Hput).
  destruct (returns_inv _ _ (compress_literals_ok (E := DecodeError) lits Hlb ltac:(change (2 ^ 17) with 131072; lia) h0 lens (ds_huf ws) (repeat_of ws)
    ltac:(apply Hsc) Htwin ltac:(intros Hv; eapply Forall_impl; [exact Hlb|]; intros b Hb; by apply Hvalid) (zlen seqs) spare cparams Hsp))
    as ([[out_l spare'] nextl] & Hlits & Hbl & _ & Hsp' & Hlr).
  destruct (section_step _ _ V _ (strategy cparams) seqs Hfse ltac:(lia) Hok HV) as (tabs & o & ll & of_ & ml & fst' & Hfs & Hsec & Hfp & Hflk & Ho).
  destruct (Hput spare' Hsp') as (hs' & Hhp & Hhm).
  assert (block_linked ws (MkState (bs_rep st) (MkEntropy hs' fst'))) as Hlk'.
  { split; [done|done| |done]. by apply (Hhm ws NKeep). }
  exists (MkRef h0 spare, tabs). unfold entropy_code. cbn [sc_lits sc_seqs sc_rep]. rewrite Hlits. cbn [mbind res_bind]. rewrite Hsec. cbn [mbind res_bind].
  assert (coder_tables st = Ok (MkRef h0 spare, tabs)) as Hct by (unfold coder_tables; rewrite Hsplit; cbn [mbind res_bind]; by rewrite Hfs).
  assert (put_tables st spare' ll of_ ml = Ok (MkState (bs_rep st) (MkEntropy hs' fst'))) as Hpt by (unfold put_tables; rewrite Hhp; cbn [mbind res_bind]; by rewrite Hfp).
  assert (forall n, exists r huf ll0 of0 ml0 st', coder_tables st = Ok (MkRef h0 spare, tabs) /\
    (Ok (n, (spare', (ll, of_, ml))) : dec (option (Candidate * list Z) * _)) = Ok (r, (huf, (ll0, of0, ml0))) /\
    put_tables st huf ll0 of0 ml0 = Ok st' /\ block_linked ws (end_block st' None) /\ bs_rep st' = bs_rep st /\ (n = None -> r = None)) as Hnone.
  { intros n. exists n, spare', ll, of_, ml, (MkState (bs_rep st) (MkEntropy hs' fst')). do 3 (split; [done|]). split; [by apply ended_linked|done]. }
  destruct o as [[out_s nexts]|].
  2: { destruct (Hnone None) as (r & ? & ? & ? & ? & st' & H1 & H2 & H3 & H4 & H5 & H6). exists r. do 5 eexists. do 5 (split; [done|]). by rewrite H6. }
  destruct Ho as (Hbs & s' & Hread & Hfc).
  destruct (min_gain_range (zlen data) (strategy cparams) ltac:(lia)) as [Hg2 Hgn]. unfold wsub.
  destruct (Z.leb_spec (wrap 64 (zlen data - min_gain (zlen data) (strategy cparams))) (zlen (out_l ++ out_s))) as [_|Hsmall].
  { destruct (Hnone None) as (r & ? & ? & ? & ? & st' & H1 & H2 & H3 & H4 & H5 & H6). exists r. do 5 eexists. do 5 (split; [done|]). by rewrite H6. }
  rewrite wrap_small in Hsmall by (change (2 ^ 64) with 18446744073709551616; lia).
  rewrite (proj2 (Z.ltb_lt _ _)) by (change ZSTD_BLOCKSIZE_MAX with 131072; lia). cbn [rassert mbind res_bind].
  eexists _, spare', ll, of_, ml, _. do 3 (split; [done|]). split; [by apply ended_linked|]. split; [done|].
  split; [by apply Forall_app|]. split; [lia|]. split; [done|].
  destruct (coded_block ws st h data lits seqs rep' out_l out_s spare' nextl s' Hlk Hst Hbl Hbs Hlr Hread) as (huf' & buf & hist & Hrb & Hhs & Hrl & Hnx). cbv zeta in Hrb.
  eexists. split; [exact Hrb|]. apply end_linked, ended_linked. cbn [cd_rep cd_huf cd_fse et_huf et_fse bs_entropy].
  split; cbn [bs_rep bs_entropy et_fse et_huf offset_hist ds_fse].
  - split; cbn [ds_huf ds_fse offset_hist]; [done|apply Hfc|by destruct Hrl as (_ & ? & _)].
  - done.
  - apply Hhm. unfold huf_moved, repeat_of. cbn [ds_huf huf_from_dict]. destruct nextl; [|done|].
    + subst huf'. by rewrite bool_decide_eq_true_2, andb_true_r.
    + rewrite bool_decide_eq_false_2, andb_false_r by (intros H; by apply H). done.
  - done.
Qed.
(** ** The blocks written *)

(** [out] is blocks that decode to [data] after [h], and leave [ws']; they end
    the frame when [last]. Each takes at most its header more than its data. *)
Definition emits (ws : DecoderScratch) (h out data : list Z) (ws' : DecoderScratch) (last : bool) : Prop :=
  bytes out /\ zlen out <= 4 * zlen data + 3 * Z.b2z last /\ exists k, 3 * Z.of_nat k <= zlen out /\ forall n rest,
    ref_blocks (k + n) dict window bsm ws h (out ++ rest) =
      if last then Some (h ++ data, rest, ws') else ref_blocks n dict window bsm ws' (h ++ data) rest.

Lemma emits_app ws h out1 data1 ws1 out2 data2 ws2 last : emits ws h out1 data1 ws1 false -> emits ws1 (h ++ data1) out2 data2 ws2 last ->
  emits ws h (out1 ++ out2) (data1 ++ data2) ws2 last.
Proof.
  intros (B1 & S1 & k1 & L1 & H1) (B2 & S2 & k2 & L2 & H2). split; [by apply Forall_app|]. split; [rewrite !zlen_app; cbn [Z.b2z] in S1; lia|]. exists (k1 + k2)%nat. split; [rewrite zlen_app; lia|].
  intros n rest. rewrite <- app_assoc, <- Nat.add_assoc, H1, H2, <- app_assoc. done.
Qed.

Lemma emits_nil ws h : emits ws h [] [] ws false.
Proof. split; [done|]. split; [done|]. exists O. split; [done|]. intros n rest. by rewrite app_nil_r. Qed.

(** The blocks of a whole frame. *)
Lemma emits_frame ws h out data ws' rest : emits ws h out data ws' true ->
  ref_blocks (S (length (out ++ rest))) dict window bsm ws h (out ++ rest) = Some (h ++ data, rest, ws').
Proof.
  intros (_ & _ & k & Hk & H). rewrite <- (H (S (length (out ++ rest))) rest). apply ref_blocks_fuel; lia.
Qed.

(** One block by the encoder's decision. *)
Lemma emits_one ws h data next first last ws1 : bytes data -> zlen data <= bsm -> 0 < zlen data \/ last = true ->
  (forall c, next = Some c -> bytes c /\ zlen c <= zlen data /\ ref_block c bsm ws entropy ext window h = Some (h ++ data, ws1)) ->
  let r := FrameEmit.entropy_and_emit [] data next first last in
  emits ws h r.1 data (match r.2 with KCompressed => ws1 | _ => ws end) last.
Proof.
  intros Hb Hl Hne Hnext r.
  assert (forall c, payload data next first = Some c -> next = Some c) as Hpay.
  { intros c Hc. destruct next as [c'|]; [|done]. cbn [payload] in Hc. destruct (_ && _); [done|congruence]. }
  pose proof (fun rest => emit_one_ok dict window bsm Hbsm data next first last rest ws h Hb Hl ltac:(intros c Hc; destruct (Hnext c (Hpay c Hc)) as (? & ? & _); split; [done|lia])) as Hone.
  cbv zeta in Hone. fold r in Hone. split.
  { unfold r, FrameEmit.entropy_and_emit. destruct (_ && is_rle data) eqn:Hrle; [|destruct next as [c|]]; cbn [fst];
      unfold write_rle_block, write_compressed_block, write_raw_block; cbn [app]; (apply Forall_app; split; [apply block_header_bytes_bytes|]); [..|done].
    - apply List.Forall_cons; [|apply List.Forall_nil]. destruct (zget data 0) eqn:Hz; [by eapply Forall_zget|done].
    - by apply Hnext. }
  split.
  { assert (3 <= 3 * zlen data + 3 * Z.b2z last) by (pose proof (zlen_nonneg data); destruct Hne as [Hne| ->]; cbn [Z.b2z]; [destruct last; cbn [Z.b2z]|]; lia).
    assert (forall ty n, zlen (block_header_bytes ty n last) = 3) as Hh by (intros; unfold block_header_bytes; by rewrite zlen_ztake).
    unfold r, FrameEmit.entropy_and_emit. destruct (_ && is_rle data) eqn:Hrle; [|destruct next as [c|]]; cbn [fst];
      unfold write_rle_block, write_compressed_block, write_raw_block; cbn [app]; rewrite zlen_app, Hh; [|destruct (Hnext c eq_refl) as (_ & ? & _); lia|lia].
    change (zlen [_]) with 1. destruct data; [by rewrite !andb_false_r in Hrle|]. rewrite zlen_cons in *. pose proof (zlen_nonneg data). lia. }
  exists 1%nat. destruct (Hone []) as (b0 & c0 & _ & Hs0 & _ & Hlen0 & _). apply zslice_Some in Hs0. split; [lia|].
  intros n rest. change (1 + n)%nat with (S n). rewrite ref_blocks_step.
  destruct (Hone rest) as (b & content & Hp & Hs & Hlast & Hlen & Href). rewrite Hp. cbn [to_option mbind option_bind]. rewrite Hs. cbn [mbind option_bind].
  rewrite Href, Hlen, Hlast, zdrop_zlen_app by done.
  assert (match payload data next first with Some c => ref_block c bsm ws (dict ≫= dd_entropy) (ext_dict (dict_content dict)) window h | None => Some (h ++ data, ws) end =
    Some (h ++ data, match r.2 with KCompressed => ws1 | _ => ws end)) as ->; [|done].
  unfold r, FrameEmit.entropy_and_emit, payload. destruct next as [c|].
  - destruct (_ && is_rle data); [done|]. cbn [snd]. by apply Hnext.
  - by destruct (_ && is_rle data).
Qed.

(** A block not split: always written, decodes, and the states stay linked. *)
Lemma entropy_and_emit_block_ok src a b ws st h data lits seqs rep' cparams first last out :
  slice src a b = (Ok data : dec _) -> block_linked ws st -> stored h data lits seqs (bs_rep st) rep' -> Forall (seq_valid V) seqs ->
  exists out1 st' kind ws', entropy_and_emit_block src (a, b) (MkSections lits seqs rep') cparams first last st out = Ok (out ++ out1, st', kind) /\
    emits ws h out1 data ws' last /\ block_linked ws' st' /\ bs_rep st' = match kind with KCompressed => rep' | _ => bs_rep st end.
Proof.
  intros Hsl Hlk Hst HV. destruct (entropy_code_ok ws st h data lits seqs rep' cparams Hlk Hst HV)
    as (tables & r & huf & ll & of_ & ml & st' & Hct & Hec & Hpt & Hlk' & Hrep & Hr).
  pose proof Hst as [[Hdb Hdl] _ _ _ _ _ _]. change MAX_BLOCK_SIZE with 131072 in Hbsm.
  assert (b - a = zlen data) as Hlen.
  { unfold slice in Hsl. destruct (zslice src a b) eqn:Hz; [|done]. injection Hsl as ->. apply zslice_Some in Hz. lia. }
  pose proof (emits_one ws h data (snd <$> r) first last) as Hem. unfold entropy_and_emit_block. cbn [fst snd]. rewrite Hlen.
  rewrite (proj2 (Z.leb_le _ _)) by (change ZSTD_BLOCKSIZE_MAX with 131072; lia). cbn [rassert mbind res_bind]. rewrite Hsl. cbn [mbind res_bind].
  rewrite Hct. cbn [mbind res_bind]. rewrite Hec. cbn [mbind res_bind]. rewrite Hpt. cbn [mbind res_bind].
  destruct (zget_is_Some data 0 ltac:(lia)) as [x Hx]. rewrite (idx_ok _ _ _ Hx).
  unfold FrameEmit.entropy_and_emit in Hem. rewrite Hx in Hem. cbn [default] in Hem.
  assert (match r with Some (_, cbuf) => zlen cbuf | None => 0 end = match snd <$> r with Some cbuf => zlen cbuf | None => 0 end) as -> by by destruct r as [[]|].
  destruct r as [[c cbuf]|]; cbn [fmap option_fmap option_map snd] in *.
  - destruct Hr as (Hcb & Hcl & Hcr & ws1 & Href & Hlk1).
    specialize (Hem ws1 Hdb ltac:(lia) ltac:(left; lia) ltac:(intros c' [= <-]; done)).
    destruct (_ && is_rle data); cbn [mbind res_bind fst snd] in *.
    + eexists _, _, _, ws. split; [done|]. split; [exact Hem|]. split; [exact Hlk'|exact Hrep].
    + eexists _, _, _, ws1. split; [done|]. split; [exact Hem|]. split; [exact Hlk1|exact Hcr].
  - specialize (Hem ws Hdb ltac:(lia) ltac:(left; lia) ltac:(done)).
    destruct (_ && is_rle data); cbn [mbind res_bind fst snd] in *.
    + eexists _, _, _, ws. split; [done|]. split; [exact Hem|]. split; [exact Hlk'|exact Hrep].
    + eexists _, _, _, ws. split; [done|]. split; [exact Hem|]. split; [exact Hlk'|exact Hrep].
Qed.
Lemma linked_hist {ws st} : block_linked ws st -> hist_ok (bs_rep st).
Proof. intros [_ _ _ (? & _)]. done. Qed.

(** ** Split blocks *)

Section split.
Context (src lits : list Z) (seqs : list Seq) (HV : forall q, seq_ok q -> seq_valid V q).

(** Partitions of a store, each of which executes to its part of the block,
    its repeat codes those of the finder's history. *)
Inductive parts_stored : Z -> Z -> list Z -> list Z -> list Partition -> list Z -> Prop :=
| ps_nil from start h c : parts_stored from start h c [] []
| ps_cons from to start h c part parts data data' l qs :
    pt_seqs part = (from, to) -> pt_src_len part = zlen data -> slice src start (start + zlen data) = (Ok data : dec _) ->
    slice lits (pt_lits part).1 (pt_lits part).2 = (Ok l : dec _) -> slice seqs from to = (Ok qs : dec _) ->
    stored h data l qs c (resolve c qs).2 -> parts_stored to (start + zlen data) (h ++ data) (resolve c qs).2 parts data' ->
    parts_stored from start h c (part :: parts) (data ++ data').

(** The loop's state between two partitions, the store rewritten up to [from]. *)
Record loop_ok (ws : DecoderScratch) (from start : Z) (c : list Z) (lp : SplitLoop) : Prop := {
  lo_linked : block_linked ws (lp_state lp);
  lo_rep : bs_rep (lp_state lp) = lp_d_rep lp;
  lo_c : lp_c_rep lp = c /\ hist_ok c;
  lo_start : lp_start lp = start;
  lo_seqs : 0 <= from <= zlen seqs /\ zlen (lp_seqs lp) = zlen seqs /\ zdrop from (lp_seqs lp) = zdrop from seqs;
}.

Lemma slice_suffix (l l' : list Seq) from to : 0 <= from -> zlen l = zlen l' -> zdrop from l = zdrop from l' ->
  (slice l from to : dec _) = slice l' from to.
Proof.
  intros Hf Hl Hd. unfold slice, zslice. by rewrite Hl, Hd.
Qed.

Lemma rewritten_suffix (l qs' : list Seq) from to : 0 <= from <= to -> to <= zlen l -> zlen qs' = to - from ->
  zlen (ztake from l ++ qs' ++ zdrop to l) = zlen l /\ zdrop to (ztake from l ++ qs' ++ zdrop to l) = zdrop to l.
Proof.
  intros Hf Ht Hq. rewrite !zlen_app, zlen_ztake, zlen_zdrop by lia. split; [lia|].
  rewrite app_assoc. apply zdrop_zlen_app. rewrite zlen_app, zlen_ztake by lia. lia.
Qed.

Lemma emit_part_ok ws from to start h c part data l qs cparams first last last_part lp :
  loop_ok ws from start c lp -> pt_seqs part = (from, to) -> pt_src_len part = zlen data -> slice src start (start + zlen data) = (Ok data : dec _) ->
  slice lits (pt_lits part).1 (pt_lits part).2 = (Ok l : dec _) -> slice seqs from to = (Ok qs : dec _) -> stored h data l qs c (resolve c qs).2 ->
  exists lp' out1 ws', emit_part src lits cparams first last lp part last_part = Ok lp' /\ lp_out lp' = lp_out lp ++ out1 /\
    emits ws h out1 data ws' (last && last_part) /\ loop_ok ws' to (start + zlen data) (resolve c qs).2 lp'.
Proof.
  intros [Hlk Hr [<- Hc] <- (Hf & Hln & Hdr)] Hps Hlen Hdata Hl Hqs Hst. unfold emit_part. rewrite Hps, Hlen.
  rewrite (slice_suffix _ seqs) by (done || lia). rewrite Hqs. cbn [mbind res_bind].
  assert (0 <= from <= to /\ to <= zlen seqs /\ zlen qs = to - from) as (H1 & H2 & H3).
  { unfold slice in Hqs. destruct (zslice seqs from to) eqn:Hz; [|done]. injection Hqs as ->. apply zslice_Some in Hz. lia. }
  pose proof (linked_hist Hlk) as Hd. rewrite Hr in Hd.
  pose proof Hst as [Hb Hlb Hok Hcodes Hplain _ Hruns].
  destruct (resolve_off_codes_ok qs (lp_d_rep lp) (lp_c_rep lp) Hd Hc Hok Hplain) as (d' & qs' & -> & Hzq & Hsame & Hok' & Hres & Hd' & Hc').
  cbn [mbind res_bind]. rewrite Hl. cbn [mbind res_bind].
  assert (Forall code_kept qs') as Hcodes'.
  { clear -Hcodes Hsame. induction Hsame as [|q q' qs qs' [[->|Hq] Hl] _ IH]; [done|..]; apply Forall_cons in Hcodes as [? ?]; (constructor; [|by apply IH]); [done|by left]. }
  assert (stored h data l qs' (bs_rep (lp_state lp)) d') as Hst' by (rewrite Hr; split; [done|done|done|done|by rewrite Hres|rewrite Hres; by apply rep_linked_refl|by rewrite Hres]).
  destruct (entropy_and_emit_block_ok src (lp_start lp) (lp_start lp + zlen data) ws (lp_state lp) h data l qs' d' cparams first (last && last_part) (lp_out lp)
    Hdata Hlk Hst' ltac:(eapply Forall_impl; [exact Hok'|exact HV])) as (out1 & st' & kind & ws' & -> & Hem & Hlk' & Hrep').
  cbn [mbind res_bind].
  destruct (rewritten_suffix (lp_seqs lp) qs' from to H1 ltac:(lia) ltac:(lia)) as [Hw1 Hw2].
  assert (zdrop to (lp_seqs lp) = zdrop to seqs) as Hto.
  { replace to with (from + (to - from)) by lia. unfold zdrop in *. rewrite Z2Nat.inj_add, <- !drop_drop by lia. by rewrite Hdr. }
  assert (exists all dr, (match kind with KCompressed => (d', lp_all lp) | KRaw | KRle => (lp_d_rep lp, false) end) = (dr, all) /\ bs_rep st' = dr) as (all & dr & -> & Hdr')
    by (destruct kind; do 2 eexists; (split; [done|]); rewrite Hrep'; done).
  eexists _, out1, ws'. split; [done|]. cbn [lp_out]. split; [done|]. split; [exact Hem|].
  split; cbn [lp_state lp_d_rep lp_c_rep lp_start lp_seqs]; try done. split; [lia|]. split; [lia|]. by rewrite Hw2.
Qed.

Lemma emit_parts_ok parts : forall ws from start h c data cparams first last lp,
  parts_stored from start h c parts data -> loop_ok ws from start c lp -> parts <> [] ->
  exists lp' out1 ws' to c', emit_parts src lits cparams first last lp parts = Ok lp' /\ lp_out lp' = lp_out lp ++ out1 /\
    emits ws h out1 data ws' last /\ loop_ok ws' to (start + zlen data) c' lp'.
Proof.
  induction parts as [|part parts IH]; intros ws from start h c data cparams first last lp Hp Hlo Hne; [done|].
  inversion Hp as [|? to ? ? ? ? ? d data' l qs Hps Hlen Hd Hl Hqs Hst Hrest]; subst. cbn [emit_parts].
  destruct (emit_part_ok ws from to start h c part d l qs cparams first last (is_empty parts) lp Hlo Hps Hlen Hd Hl Hqs Hst)
    as (lp1 & out1 & ws1 & -> & Ho1 & He1 & Hlo1). cbn [mbind res_bind].
  destruct parts as [|p2 parts].
  - inversion Hrest; subst. cbn [emit_parts is_empty] in *. rewrite andb_true_r in He1. exists lp1, out1, ws1, to, (resolve c qs).2.
    rewrite app_nil_r. done.
  - cbn [is_empty] in He1. rewrite andb_false_r in He1.
    destruct (IH ws1 to (start + zlen d) (h ++ d) (resolve c qs).2 data' cparams first last lp1 Hrest Hlo1 ltac:(done))
      as (lp2 & out2 & ws2 & to2 & c2 & He & Ho2 & He2 & Hlo2).
    exists lp2, (out1 ++ out2), ws2, to2, c2. split; [exact He|]. rewrite Ho2, Ho1, app_assoc. split; [done|].
    split; [by apply (emits_app ws h out1 d ws1)|]. by rewrite zlen_app, Z.add_assoc.
Qed.
End split.
(** What the match finder gives for the block [src[a..b]]. *)
Definition block_built (src : list Z) (a b : Z) (h data rep : list Z) (built : option (SeqStore * list Z)) (parts : option (list Partition)) : Prop :=
  slice src a b = (Ok data : dec _) /\ bytes data /\ 0 < zlen data <= bsm /\
  match built with
  | None => True
  | Some (store, rep') =>
      match parts with
      | None | Some [] => stored h data (ss_lits store) (ss_seqs store) rep rep' /\ Forall (seq_valid V) (ss_seqs store)
      | Some parts => parts_stored src (ss_lits store) (ss_seqs store) 0 a h rep parts data /\ forall q, seq_ok q -> seq_valid V q
      end
  end.

(** [emit_block] on it. *)
Lemma emit_block_ok src a b ws st h data built parts cparams first last out :
  block_linked ws st -> block_built src a b h data (bs_rep st) built parts ->
  exists out1 st' all ws', emit_block src (a, b) built parts cparams first last st out = Ok (out ++ out1, st', all) /\
    emits ws h out1 data ws' last /\ block_linked ws' st'.
Proof.
  intros Hlk (Hsl & Hb & Hl & Hbt). unfold emit_block. cbn [fst snd].
  assert (b = a + zlen data) as Hlen.
  { unfold slice in Hsl. destruct (zslice src a b) eqn:Hz; [|done]. injection Hsl as ->. apply zslice_Some in Hz. lia. }
  destruct built as [[store rep']|].
  2: { rewrite Hsl. cbn [mbind res_bind]. exists (write_raw_block [] data last), (end_block st None), false, ws. split; [done|].
       split; [|by apply ended_linked]. apply (emits_one ws h data None true last ws); [done|lia|left; lia|done]. }
  destruct parts as [[|part parts]|].
  1, 3: (destruct Hbt as [Hst HV]; destruct (entropy_and_emit_block_ok src a b ws st h data _ _ rep' cparams first last out Hsl Hlk Hst HV)
      as (out1 & st' & kind & ws' & He & Hem & Hlk' & _); unfold sections_whole; rewrite He; cbn [mbind res_bind]; by eexists out1, st', _, ws').
  destruct Hbt as [Hps HV].
  destruct (emit_parts_ok src (ss_lits store) (ss_seqs store) HV (part :: parts) ws 0 a h (bs_rep st) data cparams first last
    (MkLoop (ss_seqs store) (bs_rep st) (bs_rep st) a true st out) Hps) as (lp & out1 & ws' & to & c' & -> & Ho & Hem & Hlo); [|done|].
  { split; cbn; try done. split; [done|by apply (linked_hist Hlk)]. split; [|done]. pose proof (zlen_nonneg (ss_seqs store)). lia. }
  cbn [mbind res_bind]. destruct Hlo as [Hlk' Hr _ Hs _]. rewrite Hs, Hlen, Z.eqb_refl, bool_decide_eq_true_2 by done.
  cbn [rassert mbind res_bind]. rewrite Ho. by eexists out1, _, _, ws'.
Qed.

(** ** The partitions of a stored block *)

Lemma lz_match_extends offset n : forall l, exists d, lz_match l offset n = l ++ d.
Proof.
  induction n as [|n IH]; intros l; cbn [lz_match]; [exists []; by rewrite app_nil_r|].
  destruct (IH (l ++ [default 0 (zget l (zlen l - offset))])) as [d ->]. rewrite <- app_assoc. by eexists.
Qed.

(** Sequences take their literals from the front, whatever follows them, and
    only extend the history. *)
Lemma lz_sequences_front d e limit qs : forall h lits h' l', Forall (fun '(ll, ml, _) => 0 <= ll /\ 3 <= ml) qs ->
  lz_sequences d e window limit h lits qs = Some (h', l') ->
  exists l0 x, lits = l0 ++ l' /\ h' = h ++ x /\ zlen l0 = foldr Z.add 0 ((fun q => q.1.1) <$> qs) /\
    zlen x = foldr Z.add 0 ((fun q => q.1.1 + q.1.2) <$> qs) /\
    forall l2 limit', zlen h' <= limit' -> lz_sequences d e window limit' h (l0 ++ l2) qs = Some (h', l2).
Proof.
  induction qs as [|[[ll ml] o] qs IH]; intros h lits h' l' Hq Hs; cbn [lz_sequences] in Hs.
  { injection Hs as <- <-. exists [], []. rewrite app_nil_r. done. }
  apply Forall_cons in Hq as [[Hl Hm] Hq]. destruct (lz_sequence _ _ _ _ _ _ _ _ _) as [[h1 l1]| | |] eqn:H1; try done.
  destruct (IH h1 l1 h' l' Hq Hs) as (l0 & x & -> & -> & Hz1 & Hz2 & Hrun). clear IH.
  pose proof (lz_sequence_length _ _ _ _ _ _ _ _ _ _ _ H1 Hl ltac:(lia)) as [Hlen1 Hlen2]. unfold lz_sequence in H1. inv_ok. bools.
  destruct (lz_match_extends o (Z.to_nat ml) (h ++ ztake ll lits)) as [m Hm1].
  exists (ztake ll lits ++ l0), (ztake ll lits ++ m ++ x).
  assert (lits = ztake ll lits ++ l0 ++ l') as Hlits.
  { unfold ztake, zdrop in *. rewrite <- (take_drop (Z.to_nat ll) lits) at 1. f_equal. congruence. }
  split; [rewrite <- app_assoc; exact Hlits|]. rewrite Hm1, <- !app_assoc. split; [done|].
  rewrite !zlen_app, Hz1, Hz2, zlen_ztake by lia. cbn [fmap list_fmap foldr fst snd]. rewrite Hm1, !zlen_app, zlen_ztake in Hlen1 by lia.
  split; [done|]. split; [lia|].
  intros l2 limit' Hlim. cbn [lz_sequences]. unfold lz_sequence. pose proof (zlen_nonneg x). pose proof (zlen_nonneg (l0 ++ l2)).
  rewrite (proj2 (andb_false_iff _ _) E0). cbn [fail_if mbind res_bind].
  assert (zlen (ztake ll lits) = ll) as Htl by (apply zlen_ztake; lia).
  pose proof (zlen_nonneg l0). pose proof (zlen_nonneg l2). rewrite <- app_assoc. replace (zlen (ztake ll lits ++ l0 ++ l2)) with (ll + (zlen l0 + zlen l2)) by (rewrite !zlen_app; lia).
  rewrite (proj2 (Z.ltb_ge (ll + _) ll)), (proj2 (Z.ltb_ge limit' _)), (proj2 (Z.eqb_neq o 0)), (proj2 (Z.ltb_ge _ o)) by lia.
  cbn [fail_if mbind res_bind]. rewrite ztake_zlen_app, zdrop_zlen_app by lia. rewrite Hrun; [by rewrite Hm1, <- !app_assoc|].
  rewrite Hm1, !zlen_app, Htl. lia.
Qed.
Lemma lz_sequences_app d e limit q1 q2 : forall h lits, lz_sequences d e window limit h lits (q1 ++ q2) =
  '(h1, l1) ← lz_sequences d e window limit h lits q1; lz_sequences d e window limit h1 l1 q2.
Proof.
  induction q1 as [|[[ll ml] o] q1 IH]; intros h lits; cbn [app lz_sequences]; [done|].
  destruct (lz_sequence _ _ _ _ _ _ _ _ _) as [[h1 l1]| | |]; [apply IH|done..].
Qed.

Lemma resolve_app q1 q2 : forall c, resolve c (q1 ++ q2) =
  let '(lz1, c1) := resolve c q1 in let '(lz2, c2) := resolve c1 q2 in (lz1 ++ lz2, c2).
Proof.
  induction q1 as [|q q1 IH]; intros c; cbn [app resolve]; [by destruct (resolve c q2)|].
  destruct (repcode _ _ _) as [o c1]. rewrite IH. destruct (resolve c1 q1) as [lz1 c2]. by destruct (resolve c2 q2).
Qed.

(** The lengths [next_partition] adds up. *)
Lemma resolved_sums seqs : forall c, Forall seq_ok seqs ->
  foldr Z.add 0 ((fun q => q.1.1) <$> (resolve c seqs).1) = foldr Z.add 0 (lit_len <$> seqs) /\
  foldr Z.add 0 ((fun q => q.1.1 + q.1.2) <$> (resolve c seqs).1) = foldr Z.add 0 (lit_len <$> seqs) + foldr Z.add 0 (match_len <$> seqs).
Proof.
  induction seqs as [|q seqs IH]; intros c Hok; cbn [resolve]; [done|]. apply Forall_cons in Hok as [(H1 & H2 & H3) Hok].
  destruct (repcode _ _ _) as [o c1]. specialize (IH c1 Hok). destruct (resolve c1 seqs) as [lz c2]. cbn [fst snd fmap list_fmap foldr] in *.
  assert (match_len q = ml_base q + 3) as ->.
  { unfold match_len, ZSTD_MINMATCH, wadd. apply wrap_small. change (2 ^ 17) with 131072 in H2. change (2 ^ 32) with 4294967296. lia. }
  unfold ZSTD_MINMATCH. lia.
Qed.

Lemma lz_block_limit d e limit limit' h lits qs data : Forall (fun '(ll, ml, _) => 0 <= ll /\ 3 <= ml) qs ->
  lz_block d e window limit h lits qs = Some (h ++ data) -> zlen h + zlen data <= limit' ->
  lz_block d e window limit' h lits qs = Some (h ++ data).
Proof.
  intros Hq H Hl. unfold lz_block in *. destruct (lz_sequences _ _ _ _ _ _ _) as [[h' l']|] eqn:Hs; [|done]. cbn [mbind option_bind] in H.
  destruct (_ <=? _); [|done]. injection H as H. assert (zlen h' + zlen l' = zlen h + zlen data) as Hz by (rewrite <- !zlen_app; by f_equal).
  pose proof (zlen_nonneg l'). destruct (lz_sequences_front d e limit qs h lits h' l' Hq Hs) as (l0 & x & -> & _ & _ & _ & Hrun).
  rewrite Hrun by lia. cbn [mbind option_bind]. rewrite (proj2 (Z.leb_le _ _)) by lia. by rewrite H.
Qed.

(** Ascending ends of nonempty ranges of sequences, before the last. *)
Fixpoint ends_ok (from : Z) (splits : list Z) (nb : Z) : Prop :=
  match splits with
  | [] => from < nb
  | s :: splits => from < s < nb /\ ends_ok s splits nb
  end.

Section partitions.
Context (src lits : list Z) (seqs : list Seq) (block_len : Z) (Hlits : bytes lits) (Hok : Forall seq_ok seqs) (Hcodes : Forall code_kept seqs) (Hblock : 0 <= block_len <= bsm).

Lemma slice_split (s : list Z) start x y : slice s start (start + zlen (x ++ y)) = (Ok (x ++ y) : dec _) ->
  slice s start (start + zlen x) = (Ok x : dec _) /\ slice s (start + zlen x) (start + zlen x + zlen y) = (Ok y : dec _).
Proof.
  intros Hsl. unfold slice in Hsl. destruct (zslice s start _) eqn:Hz; [|done]. injection Hsl as ->. apply zslice_Some in Hz as (Hz1 & Hz2 & Hz3 & _).
  rewrite zlen_app in *. pose proof (zlen_nonneg x). pose proof (zlen_nonneg y). rewrite !slice_ok by lia.
  replace (start + (zlen x + zlen y) - start) with (zlen x + zlen y) in Hz3 by lia.
  replace (start + zlen x - start) with (zlen x) by lia. replace (start + zlen x + zlen y - (start + zlen x)) with (zlen y) by lia.
  assert (zdrop start s = x ++ y ++ zdrop (zlen x + zlen y) (zdrop start s)) as Hd.
  { rewrite app_assoc, Hz3 at 1. unfold ztake, zdrop. by rewrite take_drop. }
  assert (zdrop (start + zlen x) s = zdrop (zlen x) (zdrop start s)) as -> by (unfold zdrop; rewrite drop_drop; f_equal; lia).
  rewrite Hd, zdrop_zlen_app by done. split; f_equal; by apply ztake_zlen_app.
Qed.

(** What is left of the block from a sequence on. *)
Record left_stored (from lstart total start : Z) (h c data : list Z) : Prop := {
  lf_from : 0 <= from /\ 0 <= lstart <= zlen lits;
  lf_hist : hist_ok c;
  lf_data : bytes data /\ total + zlen data = block_len /\ 0 <= total /\ slice src start (start + zlen data) = (Ok data : dec _);
  lf_plain : Forall (fun '(_, _, o) => plain_offset o) (resolve c (zdrop from seqs)).1;
  lf_runs : exists limit, lz_block (has_ext ext && e_dict ext) (e_len ext) window limit h (zdrop lstart lits) (resolve c (zdrop from seqs)).1 = Some (h ++ data);
}.

Lemma some_data d e limit h l qs data : Forall (fun '(ll, ml, _) => 0 <= ll /\ 3 <= ml) qs -> qs <> [] ->
  lz_block d e window limit h l qs = Some (h ++ data) -> 2 <= zlen data.
Proof.
  intros Hq Hne H. unfold lz_block in H. destruct (lz_sequences _ _ _ _ _ _ _) as [[h' l']|] eqn:Hs; [|done]. cbn [mbind option_bind] in H.
  destruct (_ <=? _); [|done]. injection H as H. apply (f_equal zlen) in H. rewrite !zlen_app in H.
  apply lz_sequences_length in Hs; [|done]. destruct qs; [done|]. rewrite zlen_cons in Hs. pose proof (zlen_nonneg qs). pose proof (zlen_nonneg l'). lia.
Qed.

Lemma resolved_hist qs c : hist_ok c -> Forall seq_ok qs -> Forall (fun '(_, _, o) => plain_offset o) (resolve c qs).1 -> hist_ok (resolve c qs).2.
Proof. intros Hc Hq Hp. by destruct (resolve_off_codes_ok qs c c Hc Hc Hq Hp) as (d' & s' & _ & _ & _ & _ & _ & _ & ?). Qed.

Lemma zdrop_seqs_ok from : Forall seq_ok (zdrop from seqs).
Proof. by apply Forall_drop. Qed.

(** The last partition takes everything left. *)
Lemma last_partition from lstart total start h c data : left_stored from lstart total start h c data -> from < zlen seqs ->
  exists part st', next_partition (MkStore lits seqs) block_len (zlen seqs) (from, lstart, total) = Ok (part, st') /\
    parts_stored src lits seqs from start h c [part] data.
Proof.
  intros [[Hf Hls] Hc (Hb & Ht & Ht0 & Hsl) Hp [limit Hr]] Hlt. unfold next_partition. cbn [ss_seqs ss_lits].
  change MAX_BLOCK_SIZE with 131072 in Hbsm. pose proof (zlen_nonneg data).
  rewrite slice_to_end by lia. cbn [mbind res_bind]. rewrite Z.eqb_refl. eexists _, _. split; [done|].
  rewrite <- (app_nil_r data). econstructor; cbn [pt_seqs pt_src_len pt_lits fst snd].
  - done.
  - unfold wsub. rewrite wrap_small by (change (2 ^ 64) with 18446744073709551616; lia). lia.
  - exact Hsl.
  - apply slice_to_end. lia.
  - apply slice_to_end. lia.
  - assert (Forall (fun '(ll, ml, _) => 0 <= ll /\ 3 <= ml) (resolve c (zdrop from seqs)).1) as Hq by apply resolved_lengths, zdrop_seqs_ok.
    assert ((resolve c (zdrop from seqs)).1 <> []) as Hne.
    { intros He. apply (f_equal zlen) in He. rewrite zlen_resolve, zlen_zdrop in He by lia. change (zlen []) with 0 in He. lia. }
    split; [split; [done|split; [by apply (some_data _ _ _ _ _ _ _ Hq Hne Hr)|lia]]|by apply Forall_drop|apply zdrop_seqs_ok|by apply Forall_drop|done|apply rep_linked_refl; apply resolved_hist; [done|apply zdrop_seqs_ok|done]|].
    apply (lz_block_limit _ _ limit); [done|done|unfold MAX_BLOCK_SIZE; lia].
  - constructor.
Qed.
(** A partition to the sequence [to], and what it leaves. *)
Lemma next_partition_ok from to lstart total start h c data : left_stored from lstart total start h c data -> from < to < zlen seqs ->
  exists part data1 data2 lstart', next_partition (MkStore lits seqs) block_len to (from, lstart, total) = Ok (part, (to, lstart', total + zlen data1)) /\
    data = data1 ++ data2 /\ exists l qs, pt_seqs part = (from, to) /\ pt_src_len part = zlen data1 /\
    slice src start (start + zlen data1) = (Ok data1 : dec _) /\ slice lits (pt_lits part).1 (pt_lits part).2 = (Ok l : dec _) /\
    slice seqs from to = (Ok qs : dec _) /\ stored h data1 l qs c (resolve c qs).2 /\
    left_stored to lstart' (total + zlen data1) (start + zlen data1) (h ++ data1) (resolve c qs).2 data2.
Proof.
  intros [[Hf Hls] Hc (Hb & Ht & Ht0 & Hsl) Hp [limit Hr]] Hto. unfold next_partition. cbn [ss_seqs ss_lits].
  change MAX_BLOCK_SIZE with 131072 in Hbsm. pose proof (zlen_nonneg data).
  rewrite slice_ok by lia. cbn [mbind res_bind]. set (qs := ztake (to - from) (zdrop from seqs)).
  assert (zdrop from seqs = qs ++ zdrop to seqs) as Hsplit.
  { unfold qs, ztake, zdrop. replace (Z.to_nat to) with (Z.to_nat from + Z.to_nat (to - from))%nat by lia. by rewrite <- drop_drop, take_drop. }
  assert (zlen qs = to - from) as Hzq by (unfold qs; rewrite zlen_ztake; [done|rewrite zlen_zdrop; lia]).
  assert (Forall seq_ok qs) as Hokq by (apply Forall_take, zdrop_seqs_ok).
  pose proof (resolved_hist qs c Hc Hokq) as Hc1.
  rewrite Hsplit, resolve_app in Hp, Hr. pose proof (resolved_lengths qs c Hokq) as Hq. pose proof (resolved_sums qs c Hokq) as [Hs1 Hs2].
  pose proof (zlen_resolve qs c) as Hzr. destruct (resolve c qs) as [lz1 c1] eqn:Erq. cbn [fst snd] in Hq, Hs1, Hs2, Hzr, Hc1.
  pose proof (resolved_lengths _ c1 (zdrop_seqs_ok to)) as Hq2. destruct (resolve c1 (zdrop to seqs)) as [lz2 c2] eqn:Er2. cbn [fst snd] in Hp, Hr, Hq2.
  apply Forall_app in Hp as [Hp1 Hp2]. specialize (Hc1 Hp1). unfold lz_block in Hr. rewrite lz_sequences_app in Hr.
  destruct (lz_sequences _ _ _ _ h _ lz1) as [[h1 l1]|] eqn:Hr1; [|done]. cbn [mbind option_bind] in Hr.
  destruct (lz_sequences_front _ _ _ lz1 h _ h1 l1 Hq Hr1) as (l0 & x & Hl0 & -> & Hz0 & Hzx & Hrun).
  destruct (lz_sequences _ _ _ _ (h ++ x) l1 lz2) as [[h2 l2]|] eqn:Hr2; [|done]. cbn [mbind option_bind] in Hr.
  destruct (zlen h2 + zlen l2 <=? limit) eqn:Hlim; [|done]. injection Hr as Hr.
  destruct (lz_sequences_front _ _ _ lz2 _ l1 h2 l2 Hq2 Hr2) as (l3 & x2 & -> & -> & _ & _ & _).
  assert (data = x ++ x2 ++ l2) as -> by (rewrite <- !app_assoc in Hr; by apply app_inv_head in Hr). clear Hr.
  rewrite !zlen_app in *. pose proof (zlen_nonneg x). pose proof (zlen_nonneg x2). pose proof (zlen_nonneg l2). pose proof (zlen_nonneg l0). pose proof (zlen_nonneg l3).
  assert (zlen l0 <= zlen lits - lstart) as Hlfit.
  { apply (f_equal zlen) in Hl0. rewrite zlen_zdrop, !zlen_app in Hl0 by lia. lia. }
  rewrite (proj2 (Z.eqb_neq to (zlen seqs))) by lia. rewrite <- Hs1, <- Hz0.
  assert (zlen l0 + foldr Z.add 0 (match_len <$> qs) = zlen x) as -> by (rewrite Hzx, Hs2, <- Hs1, Hz0; done).
  eexists _, x, (x2 ++ l2), _. split; [done|]. split; [done|]. exists l0, qs. cbn [pt_seqs pt_src_len pt_lits fst snd].
  split; [done|]. split; [done|].
  destruct (slice_split src start x (x2 ++ l2) ltac:(by rewrite !zlen_app)) as [Hx1 Hx2].
  split; [exact Hx1|].
  assert (slice lits lstart (lstart + zlen l0) = (Ok l0 : dec _)) as Hsl0.
  { rewrite slice_ok by lia. rewrite Hl0. f_equal. apply ztake_zlen_app. lia. }
  split; [exact Hsl0|]. split; [done|]. apply Forall_app in Hb as [Hbx Hb2].
  assert (Forall is_byte l0) as Hbl0.
  { pose proof (Forall_drop _ (Z.to_nat lstart) _ Hlits) as Hbl. fold (zdrop lstart lits) in Hbl. rewrite Hl0 in Hbl. by apply Forall_app in Hbl as [? _]. }
  assert (lz_block (has_ext ext && e_dict ext) (e_len ext) window (zlen h + MAX_BLOCK_SIZE) h l0 lz1 = Some (h ++ x)) as Hblk.
  { unfold lz_block. pose proof (Hrun [] (zlen h + MAX_BLOCK_SIZE)) as Hrn. rewrite app_nil_r in Hrn. change MAX_BLOCK_SIZE with 131072 in *.
    rewrite Hrn by (rewrite ?zlen_app; lia). cbn [mbind option_bind]. change (zlen []) with 0. rewrite zlen_app, (proj2 (Z.leb_le _ _)) by lia. by rewrite app_nil_r. }
  split.
  - assert (lz1 <> []) as Hne by (intros ->; change (zlen []) with 0 in Hzr; lia).
    assert (Forall code_kept qs) as Hcq by (apply Forall_take, Forall_drop, Hcodes).
    split; rewrite ?Erq; cbn [fst snd]; try done; [split; [done|split; [by apply (some_data _ _ _ _ _ _ _ Hq Hne Hblk)|lia]]].
  - rewrite ?zlen_app in Hx2. rewrite Erq. cbn [snd]. split; rewrite ?Er2; cbn [fst snd]; [lia|done| |done|].
    + split; [done|]. rewrite ?zlen_app. split; [lia|]. split; [lia|exact Hx2].
    + exists limit. assert (zdrop (lstart + zlen l0) lits = l3 ++ l2) as ->.
      { transitivity (zdrop (zlen l0) (zdrop lstart lits)); [unfold zdrop; rewrite drop_drop; f_equal; lia|]. rewrite Hl0. by apply zdrop_zlen_app. }
      unfold lz_block. rewrite Hr2. cbn [mbind option_bind]. rewrite zlen_app, zlen_app, (proj2 (Z.leb_le _ _)) by (rewrite ?zlen_app in Hlim; lia). by rewrite <- !app_assoc.
Qed.
Lemma partitions_from splits : forall from lstart total start h c data acc,
  left_stored from lstart total start h c data -> ends_ok from splits (zlen seqs) ->
  exists parts st', foldM (fun '(parts, st) seq_end => '(part, st) ← next_partition (MkStore lits seqs) block_len seq_end st; Ok (parts ++ [part], st))
      (acc, (from, lstart, total)) (splits ++ [zlen seqs]) = (Ok (acc ++ parts, st') : dec _) /\
    parts_stored src lits seqs from start h c parts data /\ parts <> [].
Proof.
  induction splits as [|s splits IH]; intros from lstart total start h c data acc Hl He; cbn [app foldM ends_ok] in *.
  - destruct (last_partition from lstart total start h c data Hl He) as (part & st' & -> & Hp). cbn [mbind res_bind]. by exists [part], st'.
  - destruct He as [Hs He]. destruct (next_partition_ok from s lstart total start h c data Hl Hs)
      as (part & d1 & d2 & lstart' & -> & -> & l & qs & Hps & Hlen & Hd & Hsl & Hqs & Hst & Hl'). cbn [mbind res_bind].
    destruct (IH s lstart' _ _ _ _ d2 (acc ++ [part]) Hl' He) as (parts & st' & -> & Hp & _).
    exists (part :: parts), st'. rewrite <- app_assoc. split; [done|]. split; [by eapply ps_cons|done].
Qed.
End partitions.

(** However the splitter cuts a stored block, its partitions are stored. *)
Lemma partitions_stored src a h data lits seqs rep rep' splits : hist_ok rep -> stored h data lits seqs rep rep' ->
  slice src a (a + zlen data) = (Ok data : dec _) -> ends_ok 0 splits (zlen seqs) ->
  exists parts, partitions (MkStore lits seqs) splits (zlen data) = Ok parts /\ parts_stored src lits seqs 0 a h rep parts data /\ parts <> [].
Proof.
  intros Hh [[Hb Hd] Hlb Hok Hcodes Hp _ Hr] Hsl He. unfold partitions. cbn [ss_seqs].
  destruct (partitions_from src lits seqs (zlen data) Hlb Hok Hcodes ltac:(lia) splits 0 0 0 a h rep data []) as (parts & st' & -> & Hps & Hne); [|done|].
  - pose proof (zlen_nonneg lits). split; [lia|done| |done|by exists (zlen h + MAX_BLOCK_SIZE)]. split; [done|]. split; [lia|]. by split.
  - cbn [mbind res_bind app]. by exists parts.
Qed.
End block.
