(* ===== verification/Presplit.v ===== *)
(** * Block ends before match finding ([src/compress/presplit.rs])

    Fingerprints of byte statistics, their distance, and the two ways a full
    block is cut. A [PreSplitter]'s workspace is passed along, and allocated
    by its first use. The counts of a fingerprint stay far below the widths of
    its arithmetic, which is written out where it can wrap. *)

From S2P Require Import Prelude Words Params.

Definition THRESHOLD_PENALTY_RATE : Z := 16.
Definition THRESHOLD_BASE : Z := THRESHOLD_PENALTY_RATE - 2.
Definition THRESHOLD_PENALTY : Z := 3.
Definition PRESPLIT_HASHLOG_MAX : Z := 10.
Definition KNUTH : Z := 0x9e3779b9.
Definition CHUNK_SIZE : Z := Z.shiftl 8 10.
Definition SEGMENT_SIZE : Z := 512.
Definition SPLIT_BLOCK_SIZE : Z := Z.shiftl 128 10.

(** [Fingerprint]. *)
Record Fingerprint := MkFingerprint { fp_events : list Z; nb_events : Z }.

(** [Fingerprint::default]. *)
Definition fingerprint_default : Fingerprint := MkFingerprint (zrepeat 0 (Z.shiftl 1 PRESPLIT_HASHLOG_MAX)) 0.

Section presplit.
Context {E : Type}.

(** [hash2]. *)
Definition hash2 (HASH_LOG : Z) (src : list Z) (n : Z) : res E Z :=
  if HASH_LOG =? 8 then idx src n
  else
    a ← idx src n;
    b ← idx src (n + 1);
    Ok (Z.shiftr (wmul 32 (le_val [a; b]) KNUTH) (32 - HASH_LOG)).

(** [events[..k].fill(0)]. *)
Definition clear_events (events : list Z) (k : Z) : res E (list Z) :=
  old ← slice events 0 k;
  Ok (zrepeat 0 k ++ zdrop k events).

(** [events[i] += 1]. *)
Definition count_event (events : list Z) (i : Z) : res E (list Z) :=
  c ← idx events i;
  store events i (wadd 32 c 1).

(** [Fingerprint::record]. *)
Definition fp_record (RATE HASH_LOG : Z) (fp : Fingerprint) (src : list Z) : res E Fingerprint :=
  events ← clear_events (fp_events fp) (Z.shiftl 1 HASH_LOG);
  let limit := zlen src - 1 in
  events ← foldM (fun events k => i ← hash2 HASH_LOG src (k * RATE); count_event events i)
    events (seqZ 0 (div_ceil limit RATE));
  Ok (MkFingerprint events (limit / RATE)).

(** [Fingerprint::record_bytes]. *)
Definition record_bytes (fp : Fingerprint) (src : list Z) : res E Fingerprint :=
  events ← clear_events (fp_events fp) 256;
  events ← foldM count_event events src;
  Ok (MkFingerprint events (zlen src)).

(** [Fingerprint::merge]. *)
Definition fp_merge (fp other : Fingerprint) (hash_log : Z) : res E Fingerprint :=
  a ← slice (fp_events fp) 0 (Z.shiftl 1 hash_log);
  b ← slice (fp_events other) 0 (Z.shiftl 1 hash_log);
  Ok (MkFingerprint (zip_with (wadd 32) a b ++ zdrop (Z.shiftl 1 hash_log) (fp_events fp)) (wadd 64 (nb_events fp) (nb_events other))).

(** [Fingerprint::distance]. *)
Definition fp_distance (fp other : Fingerprint) (hash_log : Z) : res E Z :=
  a ← slice (fp_events fp) 0 (Z.shiftl 1 hash_log);
  b ← slice (fp_events other) 0 (Z.shiftl 1 hash_log);
  Ok (foldr (wadd 64) 0 (zip_with (fun a b => Z.abs (a * nb_events other - b * nb_events fp)) a b)).

(** [Fingerprint::differs]. *)
Definition fp_differs (fp new : Fingerprint) (penalty hash_log : Z) : res E bool :=
  _ ← rassert ((0 <? nb_events fp) && (0 <? nb_events new));
  let p50 := wmul 64 (nb_events fp) (nb_events new) in
  let threshold := wmul 64 p50 (THRESHOLD_BASE + penalty) / THRESHOLD_PENALTY_RATE in
  d ← fp_distance fp new hash_log;
  Ok (threshold <=? d).
End presplit.

(** [SPLIT_LEVELS]. *)
Definition SPLIT_LEVELS : list Z := [0; 0; 1; 2; 2; 3; 3; 4; 4; 4].

(** [split_level]. *)
Definition split_level (block_splitter_level : Z) (strategy : Strategy) : option Z :=
  if block_splitter_level =? 0 then zget SPLIT_LEVELS (strategy_id strategy)
  else if block_splitter_level =? 1 then None
  else Some (block_splitter_level - 2).

(** [Stats]. *)
Record Stats := MkStats { sp_past : Fingerprint; sp_new : Fingerprint; sp_middle : Fingerprint }.

(** [Stats::new_boxed]: zeroes. *)
Definition stats_new : Stats := MkStats fingerprint_default fingerprint_default fingerprint_default.

Section cuts.
Context {E : Type}.

(** The loop of [Stats::by_chunks] at [pos]: on, or the size. *)
Definition chunk_step (RATE HASH_LOG : Z) (block : list Z) (st : Stats * Z * Z) : res E (Stats * Z * Z + Z * Stats) :=
  let '(stats, penalty, pos) := st in
  if pos <=? zlen block - CHUNK_SIZE then
    chunk ← slice block pos (pos + CHUNK_SIZE);
    new ← fp_record RATE HASH_LOG (sp_new stats) chunk;
    stop ← fp_differs (sp_past stats) new penalty HASH_LOG;
    if stop : bool then Ok (inr (pos, MkStats (sp_past stats) new (sp_middle stats)))
    else
      past ← fp_merge (sp_past stats) new HASH_LOG;
      Ok (inl (MkStats past new (sp_middle stats), Z.max (penalty - 1) 0, pos + CHUNK_SIZE))
  else Ok (inr (zlen block, stats)).

(** [Stats::by_chunks]. *)
Definition by_chunks (RATE HASH_LOG : Z) (stats : Stats) (block : list Z) : res E (Z * Stats) :=
  chunk ← slice block 0 CHUNK_SIZE;
  past ← fp_record RATE HASH_LOG (sp_past stats) chunk;
  loopM (Z.to_nat (zlen block / CHUNK_SIZE) + 1) (chunk_step RATE HASH_LOG block)
    (MkStats past (sp_new stats) (sp_middle stats), THRESHOLD_PENALTY, CHUNK_SIZE).

(** [Stats::by_borders]. *)
Definition by_borders (stats : Stats) (block : list Z) : res E (Z * Stats) :=
  let len := zlen block in
  head ← slice block 0 SEGMENT_SIZE;
  past ← record_bytes (sp_past stats) head;
  tail ← slice_from block (len - SEGMENT_SIZE);
  new ← record_bytes (sp_new stats) tail;
  far ← fp_differs past new 0 8;
  if negb far then Ok (len, MkStats past new (sp_middle stats))
  else
    let mid := len / 2 - SEGMENT_SIZE / 2 in
    segment ← slice block mid (mid + SEGMENT_SIZE);
    middle ← record_bytes (sp_middle stats) segment;
    from_begin ← fp_distance past middle 8;
    from_end ← fp_distance new middle 8;
    let min_distance := SEGMENT_SIZE * SEGMENT_SIZE / 3 in
    let size := if Z.abs (from_begin - from_end) <? min_distance then Z.shiftl 64 10
                else if from_end <? from_begin then Z.shiftl 32 10 else Z.shiftl 96 10 in
    Ok (size, MkStats past new middle).

(** [PreSplitter::split_block]. *)
Definition split_block_at (stats : option Stats) (block : list Z) (level : Z) : res E (Z * Stats) :=
  _ ← rassert (zlen block =? SPLIT_BLOCK_SIZE);
  let stats := default stats_new stats in
  if level =? 0 then by_borders stats block
  else if level =? 1 then by_chunks 43 8 stats block
  else if level =? 2 then by_chunks 11 9 stats block
  else if level =? 3 then by_chunks 5 10 stats block
  else if level =? 4 then by_chunks 1 10 stats block
  else Fault.
End cuts.

(** ** The size cut *)

Definition fp_ok (fp : Fingerprint) : Prop := zlen (fp_events fp) = 1024.

Record stats_ok (st : Stats) : Prop := {
  so_past : fp_ok (sp_past st);
  so_new : fp_ok (sp_new st);
  so_middle : fp_ok (sp_middle st);
}.

Lemma stats_new_ok : stats_ok stats_new.
Proof. done. Qed.

Section proofs.
Context {E : Type}.

Lemma clear_events_ok events k : zlen events = 1024 -> 0 <= k <= 1024 ->
  returns (fun l => zlen l = 1024) (clear_events events k : res E _).
Proof.
  intros He Hk. unfold clear_events. rewrite slice_prefix by lia. cbn [mbind res_bind returns].
  rewrite zlen_app, zlen_zrepeat, zlen_zdrop by lia. lia.
Qed.

Lemma count_event_ok events i : zlen events = 1024 -> 0 <= i < 1024 ->
  returns (fun l => zlen l = 1024) (count_event events i : res E _).
Proof.
  intros He Hi. unfold count_event. destruct (zget_is_Some events i ltac:(lia)) as [c Hc]. rewrite (idx_ok _ _ _ Hc). cbn [mbind res_bind].
  rewrite store_ok by lia. cbn [returns]. by rewrite zlen_zset.
Qed.

Lemma hash2_ok hl src n : 8 <= hl <= 10 -> bytes src -> 0 <= n -> n + 1 < zlen src ->
  returns (fun i => 0 <= i < 1024) (hash2 hl src n : res E Z).
Proof.
  intros Hh Hb Hn Hl. unfold hash2. destruct (zget_is_Some src n ltac:(lia)) as [a Ha], (zget_is_Some src (n + 1) ltac:(lia)) as [b Hbx].
  rewrite (idx_ok _ _ _ Ha), (idx_ok _ _ _ Hbx). pose proof (Forall_zget _ _ _ _ Hb Ha) as Hab. unfold is_byte in Hab.
  destruct (Z.eqb_spec hl 8); [cbn; lia|]. cbn [mbind res_bind returns]. unfold wmul.
  pose proof (wrap_range 32 (le_val [a; b] * KNUTH) ltac:(lia)) as Hw. rewrite shiftr_div by lia.
  assert (2 ^ 32 = 2 ^ (32 - hl) * 2 ^ hl) as Hp by (rewrite <- Z.pow_add_r by lia; f_equal; lia).
  assert (2 ^ hl <= 2 ^ 10) as H10 by (apply Z.pow_le_mono_r; lia). change (2 ^ 10) with 1024 in H10.
  assert (0 < 2 ^ (32 - hl)) by (apply Z.pow_pos_nonneg; lia). split; [apply Z.div_pos; lia|].
  enough (wrap 32 (le_val [a; b] * KNUTH) / 2 ^ (32 - hl) < 2 ^ hl) by lia. apply Z.div_lt_upper_bound; [lia|]. rewrite <- Hp. lia.
Qed.

Lemma record_ok rate hl fp src : 1 <= rate -> 8 <= hl <= 10 -> fp_ok fp -> bytes src -> rate < zlen src ->
  returns (fun fp' => fp_ok fp' /\ nb_events fp' = (zlen src - 1) / rate) (fp_record rate hl fp src : res E _).
Proof.
  intros Hr Hh Hf Hb Hl. unfold fp_record.
  assert (0 <= Z.shiftl 1 hl <= 1024) as Hs.
  { rewrite Z.shiftl_mul_pow2, Z.mul_1_l by lia. split; [lia|]. change 1024 with (2 ^ 10). apply Z.pow_le_mono_r; lia. }
  eapply returns_bind; [by apply clear_events_ok|]. intros events He. cbn beta in He.
  eapply returns_bind with (P := fun l => zlen l = 1024); [|by intros l Hll].
  apply (returns_foldM (fun _ l => zlen l = 1024)); [done|]. intros j k l Hk Hll.
  apply lookup_seqZ in Hk as [-> Hk]. unfold div_ceil in Hk.
  assert (Z.of_nat j * rate < zlen src - 1) as Hj.
  { assert (Z.of_nat j + 1 <= (zlen src - 1 + rate - 1) / rate) as Hd by lia.
    apply (Z.mul_le_mono_nonneg_r _ _ rate) in Hd; [|lia]. pose proof (Z.mul_div_le (zlen src - 1 + rate - 1) rate ltac:(lia)). lia. }
  eapply returns_bind; [apply hash2_ok; [done|done|lia|lia]|]. intros i Hi. by apply count_event_ok.
Qed.

Lemma record_bytes_ok fp src : fp_ok fp -> bytes src ->
  returns (fun fp' => fp_ok fp' /\ nb_events fp' = zlen src) (record_bytes fp src : res E _).
Proof.
  intros Hf Hb. unfold record_bytes. eapply returns_bind; [apply clear_events_ok; [done|lia]|]. intros events He. cbn beta in He.
  eapply returns_bind with (P := fun l => zlen l = 1024); [|by intros l Hl].
  apply (returns_foldM (fun _ l => zlen l = 1024)); [done|]. intros j b l Hk Hl.
  apply count_event_ok; [done|]. pose proof (Forall_lookup_1 _ _ _ _ Hb Hk) as Hbb. unfold is_byte in Hbb. lia.
Qed.

Lemma distance_ok a b hl : 8 <= hl <= 10 -> fp_ok a -> fp_ok b -> exists d, (fp_distance a b hl : res E Z) = Ok d.
Proof.
  intros Hh Ha Hb. unfold fp_distance, fp_ok in *.
  assert (0 <= Z.shiftl 1 hl <= 1024) as Hs.
  { rewrite Z.shiftl_mul_pow2, Z.mul_1_l by lia. split; [lia|]. change 1024 with (2 ^ 10). apply Z.pow_le_mono_r; lia. }
  rewrite !slice_prefix by lia. cbn [mbind res_bind]. by eexists.
Qed.

Lemma differs_ok a b p hl : 8 <= hl <= 10 -> fp_ok a -> fp_ok b -> 0 < nb_events a -> 0 < nb_events b ->
  exists d, (fp_differs a b p hl : res E bool) = Ok d.
Proof.
  intros Hh Ha Hb Na Nb. unfold fp_differs. rewrite (proj2 (Z.ltb_lt 0 _) Na), (proj2 (Z.ltb_lt 0 _) Nb). cbn [andb rassert mbind res_bind].
  destruct (distance_ok a b hl Hh Ha Hb) as [d ->]. cbn [mbind res_bind]. by eexists.
Qed.

Lemma fp_merge_ok a b hl : 8 <= hl <= 10 -> fp_ok a -> fp_ok b ->
  returns (fun fp => fp_ok fp /\ nb_events fp = wadd 64 (nb_events a) (nb_events b)) (fp_merge a b hl : res E _).
Proof.
  intros Hh Ha Hb. unfold fp_merge, fp_ok in *.
  assert (0 <= Z.shiftl 1 hl <= 1024) as Hs.
  { rewrite Z.shiftl_mul_pow2, Z.mul_1_l by lia. split; [lia|]. change 1024 with (2 ^ 10). apply Z.pow_le_mono_r; lia. }
  rewrite !slice_prefix by lia. cbn [mbind res_bind returns fp_events nb_events]. split; [|done].
  rewrite zlen_app, zlen_zdrop by lia. unfold zlen at 1. rewrite length_zip_with.
  assert (length (ztake (Z.shiftl 1 hl) (fp_events a)) = Z.to_nat (Z.shiftl 1 hl)) as -> by (rewrite <- (Nat2Z.id (length _)); f_equal; apply zlen_ztake; lia).
  assert (length (ztake (Z.shiftl 1 hl) (fp_events b)) = Z.to_nat (Z.shiftl 1 hl)) as -> by (rewrite <- (Nat2Z.id (length _)); f_equal; apply zlen_ztake; lia).
  lia.
Qed.

(** What a cut gives: a size within the block. *)
Definition cut_ok (block : list Z) (r : Z * Stats) : Prop := 0 < r.1 <= zlen block /\ stats_ok r.2.

Lemma by_chunks_ok rate hl stats block : 1 <= rate <= 43 -> 8 <= hl <= 10 -> stats_ok stats -> bytes block -> zlen block = SPLIT_BLOCK_SIZE ->
  returns (cut_ok block) (by_chunks rate hl stats block : res E _).
Proof.
  intros Hr Hh [Hp Hn Hm] Hb Hl. unfold by_chunks. change SPLIT_BLOCK_SIZE with 131072 in Hl. change CHUNK_SIZE with 8192.
  rewrite slice_prefix by lia. cbn [mbind res_bind].
  eapply returns_bind; [apply record_ok; [lia|done|done|by apply Forall_take|rewrite zlen_ztake; lia]|].
  intros past [Hpast Hnb]. rewrite zlen_ztake in Hnb by lia.
  assert (1 <= (8192 - 1) / rate <= 8191) as Hdiv.
  { split; [apply Z.div_le_lower_bound; lia|apply Z.div_le_upper_bound; nia]. }
  apply (returns_loopM (fun '(st, penalty, pos) => stats_ok st /\ 1 <= nb_events (sp_past st) <= pos /\ 8192 <= pos <= zlen block /\ (8192 | pos))
    (fun '(_, _, pos) => Z.to_nat ((zlen block - pos) / 8192))).
  - cbn [sp_past]. split; [by split|]. split; [lia|]. split; [lia|]. by exists 1.
  - rewrite Hl. vm_compute. lia.
  - intros [[st penalty] pos] ([Sp Sn Sm] & Hnbp & Hpos & [k Hk]). unfold chunk_step. change CHUNK_SIZE with 8192.
    destruct (Z.leb_spec pos (zlen block - 8192)) as [Hle|]; [|cbn; split; [cbn; lia|by split]].
    rewrite slice_ok by lia. cbn [mbind res_bind].
    eapply returns_bind; [apply record_ok; [lia|done|done|by apply Forall_take, Forall_drop|rewrite zlen_ztake by (rewrite ?zlen_zdrop; lia); lia]|].
    intros new [Hnew Hnn]. rewrite zlen_ztake in Hnn by (rewrite ?zlen_zdrop; lia). replace (pos + 8192 - pos) with 8192 in Hnn by lia.
    destruct (differs_ok (sp_past st) new penalty hl Hh Sp Hnew ltac:(lia) ltac:(lia)) as [stop ->]. cbn [mbind res_bind].
    destruct stop; [cbn; split; [cbn; lia|by split]|].
    eapply returns_bind; [by apply fp_merge_ok|]. intros past' [Hp' Hn']. cbn [returns sp_past]. unfold wadd in Hn'.
    rewrite wrap_small in Hn' by (change (2 ^ 64) with 18446744073709551616; lia).
    split; [split; [by split|split; [lia|split; [lia|exists (k + 1); lia]]]|]. rewrite Hl in *. divlia.
Qed.

Lemma by_borders_ok stats block : stats_ok stats -> bytes block -> zlen block = SPLIT_BLOCK_SIZE ->
  returns (cut_ok block) (by_borders stats block : res E _).
Proof.
  intros [Hp Hn Hm] Hb Hl. unfold by_borders. change SPLIT_BLOCK_SIZE with 131072 in Hl. change SEGMENT_SIZE with 512. rewrite Hl.
  rewrite slice_prefix by lia. cbn [mbind res_bind].
  eapply returns_bind; [apply record_bytes_ok; [done|by apply Forall_take]|]. intros past [Hpast Np]. rewrite zlen_ztake in Np by lia.
  rewrite slice_from_ok by lia. cbn [mbind res_bind].
  eapply returns_bind; [apply record_bytes_ok; [done|by apply Forall_drop]|]. intros new [Hnew Nn]. rewrite zlen_zdrop in Nn by lia.
  destruct (differs_ok past new 0 8 ltac:(lia) Hpast Hnew ltac:(lia) ltac:(lia)) as [far ->]. cbn [mbind res_bind].
  destruct far; cbn [negb]; [|cbn [returns]; split; [cbn [fst]; lia|by split]].
  change (131072 / 2 - 512 / 2) with 65280. rewrite slice_ok by lia. cbn [mbind res_bind].
  eapply returns_bind; [apply record_bytes_ok; [done|by apply Forall_take, Forall_drop]|]. intros middle [Hmid _].
  destruct (distance_ok past middle 8 ltac:(lia) Hpast Hmid) as [d1 ->]. cbn [mbind res_bind].
  destruct (distance_ok new middle 8 ltac:(lia) Hnew Hmid) as [d2 ->]. cbn [mbind res_bind returns].
  split; [|by split]. cbn [fst]. change (Z.shiftl 64 10) with 65536. change (Z.shiftl 32 10) with 32768. change (Z.shiftl 96 10) with 98304.
  destruct (_ <? _); [lia|]. destruct (_ <? _); lia.
Qed.

Lemma split_block_ok stats block level : (forall st, stats = Some st -> stats_ok st) -> bytes block -> zlen block = SPLIT_BLOCK_SIZE -> 0 <= level <= 4 ->
  returns (cut_ok block) (split_block_at stats block level : res E _).
Proof.
  intros Hs Hb Hl Hv. unfold split_block_at. rewrite Hl, Z.eqb_refl. cbn [rassert mbind res_bind].
  assert (stats_ok (default stats_new stats)) as Hst by (destruct stats; [by apply Hs|apply stats_new_ok]).
  assert (level = 0 \/ level = 1 \/ level = 2 \/ level = 3 \/ level = 4) as [->|[->|[->|[->| ->]]]] by lia; cbn [Z.eqb Pos.eqb];
    first [by apply by_borders_ok|apply by_chunks_ok; done || lia].
Qed.
End proofs.
