(* ===== verification/Splitter.v ===== *)
(** * Splitting after the sequences ([src/compress/split.rs], [src/fse.rs])

    The size estimated for a range of a block's sequences, and the recursive
    cut of the block in halves while the estimates pay for it. The table the
    estimator builds in is passed along; its byte buffers leave nothing. Then
    the proofs that the splitter returns. *)

From S2P Require Import Prelude Words Constants Errors FrameWrite SeqDecode FseEncode Entropy Histogram Params.
From S2P Require Import SeqEncode HufCStream HufCTable HufLiterals Split BlockEncode.

Definition MIN_SEQUENCES_BLOCK_SPLITTING : Z := 300.
Definition ZSTD_MAX_NB_BLOCK_SPLITS : Z := 196.

(** ** Estimates *)

(** [Stream] of [estimate_sequences_section]. *)
Record EstStream := MkEst {
  es_codes : list Z;
  es_fse_log : Z;
  es_prev : Held FseCTable;
  es_default_norm : list Z;
  es_default_norm_log : Z;
  es_default_max : Z;
  es_max_code : Z;
  es_extra : option (list Z);
}.

(** One stream of its loop: the bytes, the descriptions' size and the table
    after it; nothing when [build_seq_table] fails. *)
Definition estimate_stream (strategy : Strategy) (nb_seq : Z) (st : Z * Z * FseCTable) (s : EstStream)
    : dec (option (Z * Z) * FseCTable) :=
  let '(bytes, descriptions, spare) := st in
  '(counts, most, max) ← hist_count (zrepeat 0 256) (es_codes s) (es_max_code s);
  r ← build_seq_table (es_codes s) counts max most (es_fse_log s) (MkRef (es_prev s) spare)
        (es_default_norm s) (es_default_norm_log s) (es_default_max s) strategy;
  match r with
  | None => Ok (None, spare)
  | Some (desc, spare, table, _, ty) =>
      symbol_bits ← (match ty with
                     | SBasic => c ← cross_entropy_cost (es_default_norm s) (es_default_norm_log s) counts max; Ok (Some c)
                     | SRle => Ok (Some 0)
                     | SCompressed | SRepeat => bit_cost table counts max
                     end);
      let descriptions := descriptions + zlen desc in
      match symbol_bits with
      | None => Ok (Some (bytes + nb_seq * 10, descriptions), spare)
      | Some symbol_bits =>
          used ← slice counts 0 (max + 1);
          extra_bits ← raw_total used (match es_extra s with Some bits => idx bits | None => Ok end);
          Ok (Some (bytes + Z.shiftr (symbol_bits + extra_bits) 3, descriptions), spare)
      end
  end.

Fixpoint estimate_streams (strategy : Strategy) (nb_seq : Z) (st : Z * Z * FseCTable) (streams : list EstStream)
    : dec (option (Z * Z) * FseCTable) :=
  match streams with
  | [] => let '(bytes, descriptions, spare) := st in Ok (Some (bytes, descriptions), spare)
  | s :: streams =>
      '(r, spare) ← estimate_stream strategy nb_seq st s;
      match r with
      | None => Ok (None, spare)
      | Some (bytes, descriptions) => estimate_streams strategy nb_seq (bytes, descriptions, spare) streams
      end
  end.

(** [estimate_sequences_section]. *)
Definition estimate_sequences_section (sequences : list Seq) (prev : FseHeld) (cparams : CParams) (table : FseCTable)
    : dec (option Z * FseCTable) :=
  let nb_seq := zlen sequences in
  let header := 1 + 1 + Z.b2z (128 <=? nb_seq) + Z.b2z (LONGNBSEQ <=? nb_seq) in
  if nb_seq =? 0 then Ok (Some header, table)
  else
    '(ll_codes, of_codes, ml_codes) ← seq_to_codes sequences;
    '(r, table) ← estimate_streams (strategy cparams) nb_seq (0, 0, table)
      [MkEst ll_codes LL_FSE_LOG (fh_ll prev) LL_DEFAULT_NORM LL_DEFAULT_NORM_LOG MAX_LL MAX_LL (Some LL_BITS);
       MkEst of_codes OFF_FSE_LOG (fh_of prev) OF_DEFAULT_NORM OF_DEFAULT_NORM_LOG DEFAULT_MAX_OFF MAX_OFF None;
       MkEst ml_codes ML_FSE_LOG (fh_ml prev) ML_DEFAULT_NORM ML_DEFAULT_NORM_LOG MAX_ML MAX_ML (Some ML_BITS)];
    match r with
    | None => Ok (None, table)
    | Some (bytes, descriptions) => Ok (Some (bytes + descriptions + header), table)
    end.

(** ** Cuts *)

(** [BlockSplitter::estimate], of the literals' starts [lit_start]. *)
Definition estimate (store : SeqStore) (prev : EntropyTables) (cparams : CParams) (lit_start : list Z) (chunk : Z * Z)
    (table : FseCTable) : dec (option Z * FseCTable) :=
  lits_end ← (if chunk.2 =? zlen (ss_seqs store) then Ok (zlen (ss_lits store)) else idx lit_start chunk.2);
  lits_start ← idx lit_start chunk.1;
  lits ← slice (ss_lits store) lits_start lits_end;
  huf ← slots_held (et_huf prev);
  literals ← estimate_literals_section lits huf cparams;
  match literals with
  | None => Ok (None, table)
  | Some literals =>
      seqs ← slice (ss_seqs store) chunk.1 chunk.2;
      fse ← fse_held (et_fse prev);
      '(sequences, table) ← estimate_sequences_section seqs fse cparams table;
      Ok (option_map (fun sequences => literals + sequences + ZSTD_BLOCKHEADERSIZE) sequences, table)
  end.

(** [BlockSplitter::derive_helper], of [est] a range's estimate. *)
Fixpoint derive_helper (fuel : nat) (est : Z * Z -> FseCTable -> dec (option Z * FseCTable)) (chunk : Z * Z) (whole : option Z)
    (st : list Z * FseCTable) : dec (list Z * FseCTable) :=
  match fuel with
  | O => Stuck
  | S fuel =>
      let '(splits, table) := st in
      if (chunk.2 - chunk.1 <? MIN_SEQUENCES_BLOCK_SPLITTING) || (ZSTD_MAX_NB_BLOCK_SPLITS <=? zlen splits) then Ok st
      else
        let mid := (chunk.1 + chunk.2) / 2 in
        '(whole, table) ← (match whole with Some _ => Ok (whole, table) | None => est chunk table end);
        '(first, table) ← est (chunk.1, mid) table;
        '(second, table) ← est (mid, chunk.2) table;
        match whole, first, second with
        | Some whole, Some first, Some second =>
            if first + second <? whole then
              '(splits, table) ← derive_helper fuel est (chunk.1, mid) (Some first) (splits, table);
              derive_helper fuel est (mid, chunk.2) (Some second) (splits ++ [wrap 32 mid], table)
            else Ok (splits, table)
        | _, _, _ => Ok (splits, table)
        end
  end.

(** The literals before each sequence. *)
Definition lit_starts (seqs : list Seq) : list Z :=
  (foldl (fun '(starts, total) seq => (starts ++ [wadd 32 total (lit_len seq)], wadd 32 total (lit_len seq))) ([0], 0) seqs).1.

(** [BlockSplitter::derive]: the partitions, and the table it built in. *)
Definition derive (store : SeqStore) (prev : EntropyTables) (cparams : CParams) (block_len : Z) (table : FseCTable)
    : dec (list Partition * FseCTable) :=
  let nb_seq := zlen (ss_seqs store) in
  '(splits, table) ← (if MIN_SEQUENCES_BLOCK_SPLITTING <=? nb_seq then
                        derive_helper (Z.to_nat nb_seq) (estimate store prev cparams (lit_starts (ss_seqs store))) (0, nb_seq) None ([], table)
                      else Ok ([], table));
  if is_empty splits then Ok ([], table)
  else
    parts ← partitions store splits block_len;
    Ok (parts, table).

(** ** The splitter always returns, and cuts where sequences start

    Estimates of any range of a stored block return, against the tables held;
    the recursion ends, and its splits are ascending sequence indices inside
    the block: the partitions are of nonempty ranges of sequences. *)

From S2P Require Import FseTable FseBuild SeqTables BlockDecode DecodeDict SeqStream SeqCost SeqEncodeProofs SeqSection.
From S2P Require Import HufHeight HufSection BlockRound.

(** ** The literals' estimate *)

Lemma estimate_literals_ok {E} literals held lens cparams : bytes literals -> zlen literals <= 2 ^ 17 ->
  (forall e, held_table held = Some e -> coder e lens) ->
  returns (fun _ => True) (estimate_literals_section literals held cparams : res E _).
Proof.
  intros Hb Hn Hheld. change (2 ^ 17) with 131072 in Hn. unfold estimate_literals_section. destruct (literals_compression_is_disabled cparams); [done|].
  set (least := if bool_decide _ then _ else _). assert (6 <= least) by (unfold least, COMPRESS_LITERALS_SIZE_MIN; destruct (bool_decide _); lia). clearbody least.
  destruct (Z.leb_spec (zlen literals) least) as [|H6]; [done|].
  assert (Forall (fun b => b <= HUF_SYMBOLVALUE_MAX) literals) as H255.
  { eapply Forall_impl; [exact Hb|]. unfold is_byte, HUF_SYMBOLVALUE_MAX. intros; cbn in *; lia. }
  assert (literals <> []) as Hne by (intros He0; rewrite He0 in H6; change (zlen []) with 0 in H6; lia).
  destruct (hist_count_full (E := E) (zrepeat 0 256) literals HUF_SYMBOLVALUE_MAX Hb Hne ltac:(change (2 ^ 32) with 4294967296; lia) eq_refl ltac:(done) H255)
    as (c & largest & ms & -> & Hc & Hms & Hin & Hle & Hlg & s & Hs & Hos). unfold HUF_SYMBOLVALUE_MAX in Hms.
  cbn [mbind res_bind]. destruct (Z.eqb_spec largest (zlen literals)) as [|Hmix]; [done|]. destruct (_ <=? _); [done|].
  assert (histogram_of literals c ms) as Hh by (split; try done; change (2 ^ 17) with 131072; lia).
  assert (occurs ms literals <> zlen literals) as Htwo by (intros Ho; pose proof (Hlg ms) as Hm1; pose proof (occurs_range s literals); lia).
  eapply returns_bind with (P := fun _ => True).
  { destruct (held_table held) as [t|] eqn:Ht; [|done]. destruct (bool_decide _); [|done].
    eapply returns_mono; [by apply (validate_ok t lens (Hheld t eq_refl) literals c ms)|done]. }
  intros valid _. set (repeat := if _ && negb valid then _ else _). clearbody repeat.
  pose proof Hh as [[Hl _] _ _ Hm _ _].
  eapply returns_bind; [by apply (depth_ok literals c ms Hh Htwo); lia|]. intros log [Hlog Hnz].
  eapply returns_bind; [by apply (build_fresh literals c ms Hh Htwo huf_table_default log eq_refl)|]. intros o (e & lens' & -> & Hf).
  pose proof Hf as [Hcd _ _].
  eapply returns_bind; [apply (coder_cost e lens' Hcd); lia|]. intros s1 _.
  eapply returns_bind; [by apply (write_fresh literals c ms Hh Htwo e lens')|]. intros h _.
  assert (forall a b, returns (fun _ => True) ((if (zlen literals <=? wadd 64 s1 a) then Ok (Some (zlen literals)) else if a =? 2 ^ 64 - 1 then Ok None else Ok (Some b)) : res E _)) as Hfr
    by (intros a b; destruct (_ <=? _); [done|]; by destruct (_ =? _)).
  destruct (bool_decide _); [|apply Hfr]. destruct (held_table held) as [t|] eqn:Ht; [|done].
  eapply returns_bind; [apply (coder_cost t lens (Hheld t eq_refl)); lia|]. intros s0 _. destruct (_ && _); [done|apply Hfr].
Qed.

(** ** The sequences' estimate *)

Lemma estimate_stream_ok dict s t kind fse_log norm norm_log max (f : Seq -> Z) V h seqs extra b strategy bytes desc spare :
  enc_kind t kind fse_log norm norm_log max -> fse_wf dict s -> linked dict s t kind V h -> zlen (state_table spare) = 512 ->
  Forall (fun s => 0 <= f s <= max_code kind) seqs -> Forall (fun s => V (f s)) seqs -> seqs <> [] -> zlen seqs < 2 ^ 17 ->
  (forall c, 0 <= c <= max_code kind -> (match extra with Some bits => idx bits | None => Ok end : Z -> dec Z) c = Ok (b c)) ->
  returns (fun '(_, spare) => zlen (state_table spare) = 512)
    (estimate_stream strategy (zlen seqs) (bytes, desc, spare) (MkEst (f <$> seqs) fse_log h norm norm_log max (max_code kind) extra)).
Proof.
  intros Hek Hwf Hlk H512 Hf HV Hne Hlen Hbits. unfold estimate_stream. cbn [es_codes es_max_code es_fse_log es_prev es_default_norm es_default_norm_log es_default_max es_extra].
  destruct (kind_encoded dict s t kind fse_log norm norm_log max f V h spare strategy seqs _ b Hek Hwf Hlk H512 Hf HV Hne Hlen Hbits)
    as (counts & most & ms & -> & Hsl & Hrt & Ht & Hb). cbn [mbind res_bind].
  eapply returns_bind; [exact Hb|]. intros _ (d & spare' & ct & next & ty & -> & Hsp & _ & _ & Hco & _).
  pose proof Ht as [[Hlc _] _ _ _ Hm _ _].
  eapply returns_bind with (P := fun _ => True).
  { destruct ty; cbn [costed] in Hco; [|done| |].
    - eapply returns_bind; [apply cross_entropy_cost_ok|by cbn].
      + apply (ek_coverable _ _ _ _ _ _ Hek). lia.
      + unfold MAX_SEQ, MAX_ML in Hm. lia.
    - destruct Hco as [covers Hp]. eapply returns_mono; [by apply (bit_cost_ok ct covers (f <$> seqs))|done].
    - destruct Hco as [covers Hp]. eapply returns_mono; [by apply (bit_cost_ok ct covers (f <$> seqs))|done]. }
  intros [bits|] _; [|done]. rewrite Hsl. cbn [mbind res_bind]. rewrite Hrt. done.
Qed.

(** The estimator's table, before and after. *)
Definition table_ok (t : FseCTable) : Prop := zlen (state_table t) = 512.

Lemma estimate_sequences_ok dict s V prev seqs cparams table : tables_linked dict s V (fh_ll prev) (fh_of prev) (fh_ml prev) -> table_ok table ->
  zlen seqs < 2 ^ 17 -> Forall seq_ok seqs -> Forall (seq_valid V) seqs ->
  returns (fun '(_, table) => table_ok table) (estimate_sequences_section seqs prev cparams table).
Proof.
  intros [Hwf Kl Ko Km] H512 H17 Hok HV. unfold estimate_sequences_section. destruct (Z.eqb_spec (zlen seqs) 0) as [|H0]; [done|].
  assert (seqs <> []) as Hne by (by intros ->). rewrite seq_to_codes_ok by done. cbn [mbind res_bind].
  assert (Forall (fun s => 0 <= ll_of s <= MAX_LL) seqs /\ Forall (fun s => 0 <= of_of s <= MAX_OFF) seqs /\
    Forall (fun s => 0 <= ml_of s <= MAX_ML) seqs) as (Rl & Ro & Rm).
  { split_and!; eapply Forall_impl; try exact Hok; intros q Hq; by apply code_ranges. }
  assert (Forall (fun s => vd_ll V (ll_of s)) seqs /\ Forall (fun s => vd_of V (of_of s)) seqs /\
    Forall (fun s => vd_ml V (ml_of s)) seqs) as (Vl & Vo & Vm).
  { split_and!; eapply Forall_impl; try exact HV; intros q Hq; apply Hq. }
  eapply returns_bind with (P := fun '(_, table) => table_ok table); [|intros [[[]|] t] Ht; done]. cbn [estimate_streams].
  eapply returns_bind.
  { apply (estimate_stream_ok dict s 0 ll_kind _ _ _ _ ll_of (vd_ll V) _ seqs (Some LL_BITS) (fun c => default 0 (zget LL_BITS c)) _ 0 0 table ll_enc_kind Hwf Kl H512 Rl Vl Hne H17).
    intros c Hc. apply (bits_default LL_BITS 36 c eq_refl). change (max_code ll_kind) with 35 in Hc. lia. }
  intros [[[b1 d1]|] t1] H1; [|done]. eapply returns_bind.
  { by apply (estimate_stream_ok dict s 1 of_kind _ _ _ _ of_of (vd_of V) _ seqs None (fun c => c) _ b1 d1 t1 of_enc_kind Hwf Ko H1 Ro Vo Hne H17). }
  intros [[[b2 d2]|] t2] H2; [|done]. eapply returns_bind.
  { apply (estimate_stream_ok dict s 2 ml_kind _ _ _ _ ml_of (vd_ml V) _ seqs (Some ML_BITS) (fun c => default 0 (zget ML_BITS c)) _ b2 d2 t2 ml_enc_kind Hwf Km H2 Rm Vm Hne H17).
    intros c Hc. apply (bits_default ML_BITS 53 c eq_refl). change (max_code ml_kind) with 52 in Hc. lia. }
  by intros [[[b3 d3]|] t3] H3.
Qed.

(** ** The literals before each sequence *)

Definition zsums (l : list Z) : Z := foldr Z.add 0 l.

Lemma zsums_app l1 l2 : zsums (l1 ++ l2) = zsums l1 + zsums l2.
Proof. unfold zsums. induction l1 as [|x l1 IH]; cbn [app foldr]; [done|]. rewrite IH. lia. Qed.

Lemma zsums_nonneg l : Forall (fun x => 0 <= x) l -> 0 <= zsums l.
Proof. unfold zsums. induction 1; cbn [foldr]; lia. Qed.

Lemma lit_lens_nonneg seqs : Forall seq_ok seqs -> Forall (fun x => 0 <= x) (lit_len <$> seqs).
Proof. intros H. apply Forall_fmap. eapply Forall_impl; [exact H|]. intros q (Hq & _). cbn. lia. Qed.

Lemma lit_starts_ok seqs : Forall seq_ok seqs -> zsums (lit_len <$> seqs) < 2 ^ 32 ->
  forall i, 0 <= i <= zlen seqs -> zget (lit_starts seqs) i = Some (zsums (lit_len <$> ztake i seqs)).
Proof.
  intros Hok Hs.
  pose (f := fun '(starts, total) (seq : Seq) => (starts ++ [wadd 32 total (lit_len seq)], wadd 32 total (lit_len seq))).
  enough (foldl f ([0], 0) seqs = (lit_starts seqs, zsums (lit_len <$> seqs)) /\ zlen (lit_starts seqs) = zlen seqs + 1 /\
    (forall i, 0 <= i <= zlen seqs -> zget (lit_starts seqs) i = Some (zsums (lit_len <$> ztake i seqs)))) by tauto.
  revert Hok Hs. induction seqs as [|q seqs IH] using rev_ind; intros Hok Hs.
  { split; [done|]. split; [done|]. intros i Hi. change (zlen (@nil Seq)) with 0 in Hi. replace i with 0 by lia. done. }
  apply Forall_app in Hok as [Hok1 Hq]. apply Forall_cons in Hq as [(Hq & _) _]. pose proof (zsums_nonneg _ (lit_lens_nonneg _ Hok1)) as Hnn.
  rewrite fmap_app, zsums_app in Hs |- *. cbn [fmap list_fmap zsums foldr] in Hs |- *. destruct IH as (Hf & Hl & Hg); [done|lia|].
  assert (lit_starts (seqs ++ [q]) = lit_starts seqs ++ [zsums (lit_len <$> seqs) + lit_len q]) as He.
  { unfold lit_starts at 1. fold f. rewrite foldl_app, Hf. cbn [foldl fst f]. unfold wadd. rewrite wrap_small by lia. done. }
  split; [|split].
  - rewrite foldl_app, Hf. cbn [foldl f]. rewrite He. unfold wadd. rewrite wrap_small by lia. f_equal. lia.
  - rewrite He, !zlen_app, Hl. done.
  - intros i Hi. rewrite zlen_app in Hi. change (zlen [q]) with 1 in Hi. rewrite He. destruct (Z.eq_dec i (zlen seqs + 1)) as [->|Hne].
    + rewrite ztake_all by (rewrite zlen_app; change (zlen [q]) with 1; lia). rewrite fmap_app, zsums_app. cbn [fmap list_fmap zsums foldr].
      rewrite zget_app_r by lia. rewrite Hl, Z.sub_diag. change (zget [?x] 0) with (Some x). cbn. f_equal. lia.
    + rewrite zget_app_l by lia. rewrite ztake_app_le by lia. apply Hg. lia.
Qed.

(** ** The cuts *)

Lemma ends_ok_mono m : forall x y y', ends_ok x m y -> y <= y' -> ends_ok x m y'.
Proof.
  induction m as [|s m IH]; intros x y y' H Hy; cbn [ends_ok] in *; [lia|]. destruct H as [H1 H2]. split; [lia|]. by eapply IH.
Qed.

Lemma ends_ok_lt m : forall x y, ends_ok x m y -> x < y.
Proof. induction m as [|s m IH]; intros x y; cbn [ends_ok]; [done|]. intros [? H]. specialize (IH _ _ H). lia. Qed.

Lemma ends_ok_join m1 : forall x mid m2 y, ends_ok x m1 mid -> ends_ok mid m2 y -> ends_ok x (m1 ++ mid :: m2) y.
Proof.
  induction m1 as [|s m1 IH]; intros x mid m2 y H1 H2; pose proof (ends_ok_lt _ _ _ H2); cbn [app ends_ok] in *; [split; [lia|done]|].
  destruct H1 as [Hs H1]. split; [lia|]. by apply IH.
Qed.

Section derive.
Context (est : Z * Z -> FseCTable -> dec (option Z * FseCTable)) (nb : Z) (Hnb : nb < 2 ^ 17).
Context (Hest : forall x y table, 0 <= x <= y -> y <= nb -> table_ok table -> returns (fun '(_, table) => table_ok table) (est (x, y) table)).

(** The recursion ends: a chunk that is cut has two smaller halves. *)
Lemma derive_helper_ok fuel : forall x y whole splits table, 0 <= x < y -> y <= nb -> y - x <= Z.of_nat fuel -> table_ok table ->
  returns (fun '(splits', table') => table_ok table' /\ exists more, splits' = splits ++ more /\ ends_ok x more y)
    (derive_helper fuel est (x, y) whole (splits, table)).
Proof.
  induction fuel as [|fuel IH]; intros x y whole splits table Hx Hy Hf Ht; [lia|]. cbn [derive_helper fst snd].
  assert (forall table, table_ok table -> table_ok table /\ exists more, splits = splits ++ more /\ ends_ok x more y) as Hstop
    by (intros t Ht'; split; [done|]; exists []; rewrite app_nil_r; cbn; split; [done|lia]).
  unfold MIN_SEQUENCES_BLOCK_SPLITTING. destruct (Z.ltb_spec (y - x) 300) as [|H300]; [by apply Hstop|]. cbn [orb]. destruct (_ <=? zlen splits); [by apply Hstop|].
  set (mid := (x + y) / 2). assert (x < mid < y /\ y - mid <= Z.of_nat fuel /\ mid - x <= Z.of_nat fuel) as Hmid by (unfold mid; divlia). clearbody mid.
  eapply returns_bind with (P := fun '(_, table) => table_ok table); [destruct whole; [done|apply Hest; lia || done]|]. intros [w t1] H1.
  eapply returns_bind; [apply (Hest x mid t1); (lia || done)|]. intros [f t2] H2.
  eapply returns_bind; [apply (Hest mid y t2); lia || done|]. intros [g t3] H3.
  destruct w as [w|]; [|by apply Hstop]. destruct f as [f|]; [|by apply Hstop]. destruct g as [g|]; [|by apply Hstop]. destruct (_ <? w); [|by apply Hstop].
  eapply returns_bind; [apply (IH x mid (Some f) splits t3); lia || done|]. intros [sp t4] (H4 & m1 & -> & E1).
  unfold wrap. rewrite Z.mod_small by (change (2 ^ 17) with 131072 in Hnb; change (2 ^ 32) with 4294967296; lia).
  eapply returns_mono; [apply (IH mid y (Some g)); lia || done|]. intros [sp t5] (H5 & m2 & -> & E2). split; [done|].
  exists (m1 ++ mid :: m2). rewrite <- !app_assoc. split; [done|]. by apply ends_ok_join.
Qed.
End derive.

Section block.
Context (dict : option DecodeDict) (V : SeqValid) (deep : bool) (window bsm : Z) (Hbsm : 0 <= bsm <= MAX_BLOCK_SIZE).
Context (HV : forall q, seq_ok q -> seq_valid V q).

(** Every chunk of a stored block has an estimate. *)
Lemma estimate_ok ws st h data lits seqs rep rep' cparams x y table :
  block_linked dict V deep ws st -> stored dict deep window bsm h data lits seqs rep rep' -> 0 <= x <= y -> y <= zlen seqs -> table_ok table ->
  returns (fun '(_, table) => table_ok table) (estimate (MkStore lits seqs) (bs_entropy st) cparams (lit_starts seqs) (x, y) table).
Proof.
  intros [_ [Hwf Hl Ho Hm] (_ & _ & h0 & lens & Hh & Htwin & _) _] Hst Hx Hy Ht. pose proof (stored_sizes _ _ _ _ _ _ _ _ _ _ Hst) as [Hz1 Hz2].
  destruct Hst as [[_ Hd] Hlb Hok _ _ _ Hr]. change MAX_BLOCK_SIZE with 131072 in Hbsm.
  assert (zsums (lit_len <$> seqs) <= zlen lits) as Hsum.
  { unfold lz_block in Hr. destruct (lz_sequences _ _ _ _ _ _ _) as [[h1 l1]|] eqn:Hs; [|done].
    destruct (lz_sequences_front _ _ _ _ _ _ _ _ _ (resolved_lengths seqs rep Hok) Hs) as (l0 & z & -> & _ & Hz0 & _).
    destruct (resolved_sums seqs rep Hok) as [Hs1 _]. unfold zsums. rewrite <- Hs1, <- Hz0, zlen_app. pose proof (zlen_nonneg l1). lia. }
  pose proof (lit_starts_ok seqs Hok ltac:(change (2 ^ 32) with 4294967296; lia)) as Hst.
  assert (zsums (lit_len <$> seqs) = zsums (lit_len <$> ztake x seqs) + (zsums (lit_len <$> ztake (y - x) (zdrop x seqs)) + zsums (lit_len <$> zdrop y seqs)) /\
    zsums (lit_len <$> ztake y seqs) = zsums (lit_len <$> ztake x seqs) + zsums (lit_len <$> ztake (y - x) (zdrop x seqs))) as [E1 E2].
  { rewrite <- !zsums_app, <- !fmap_app. assert (ztake y seqs = ztake x seqs ++ ztake (y - x) (zdrop x seqs)) as Hty.
    { unfold ztake, zdrop. replace (Z.to_nat y) with (Z.to_nat x + Z.to_nat (y - x))%nat by lia. by rewrite take_take_drop. }
    rewrite <- Hty. split; [|done]. rewrite app_assoc, <- Hty. unfold ztake, zdrop. by rewrite take_drop. }
  assert (forall l, Forall seq_ok l -> 0 <= zsums (lit_len <$> l)) as Hnn by (intros l Hlk; by apply zsums_nonneg, lit_lens_nonneg).
  pose proof (Hnn (ztake x seqs) ltac:(by apply Forall_take)) as N1. pose proof (Hnn (ztake (y - x) (zdrop x seqs)) ltac:(by apply Forall_take, Forall_drop)) as N2.
  pose proof (Hnn (zdrop y seqs) ltac:(by apply Forall_drop)) as N3. unfold estimate. cbn [fst snd ss_seqs ss_lits].
  eapply returns_bind with (P := fun e => zsums (lit_len <$> ztake x seqs) <= e <= zlen lits).
  { destruct (Z.eqb_spec y (zlen seqs)) as [|]; [cbn; lia|]. rewrite (idx_ok _ _ _ (Hst y ltac:(lia))). cbn. lia. }
  intros e He. rewrite (idx_ok _ _ _ (Hst x ltac:(lia))). cbn [mbind res_bind]. rewrite (slice_ok lits) by lia. cbn [mbind res_bind].
  rewrite Hh. cbn [mbind res_bind]. set (part := ztake _ (zdrop _ lits)). assert (zlen part <= zlen lits) as Hpl by (unfold part; rewrite zlen_ztake by (rewrite zlen_zdrop; lia); lia).
  eapply returns_bind; [apply (estimate_literals_ok part h0 lens cparams); [by apply Forall_take, Forall_drop|change (2 ^ 17) with 131072; lia|]|].
  { intros t0 Ht0. by apply Htwin. }
  intros [lits_size|] _; [|done]. rewrite (slice_ok seqs) by lia. cbn [mbind res_bind].
  destruct Hl as (_ & _ & hl & Ehl & Kl), Ho as (_ & _ & ho & Eho & Ko), Hm as (_ & _ & hm & Ehm & Km). unfold fse_held. rewrite Ehl. cbn [mbind res_bind]. rewrite Eho. cbn [mbind res_bind]. rewrite Ehm. cbn [mbind res_bind].
  apply returns_bind with (P := fun '(_, table) => table_ok table); [|by intros [r t] Hrt].
  assert (Forall seq_ok (ztake (y - x) (zdrop x seqs))) as Hok' by (by apply Forall_take, Forall_drop).
  apply (estimate_sequences_ok (de_fse <$> (dict ≫= dd_entropy)) (ds_fse ws) V); [by split|done| |done|].
  - rewrite zlen_ztake by (rewrite zlen_zdrop; lia). change (2 ^ 17) with 131072. lia.
  - eapply Forall_impl; [exact Hok'|exact HV].
Qed.

(** The splitter on a stored block: whole, or partitions that are stored. *)
Lemma derive_ok ws st src a h data lits seqs rep' cparams table :
  block_linked dict V deep ws st -> stored dict deep window bsm h data lits seqs (bs_rep st) rep' -> slice src a (a + zlen data) = (Ok data : dec _) -> table_ok table ->
  returns (fun '(parts, table) => table_ok table /\ (parts = [] \/ parts_stored dict deep window bsm src lits seqs 0 a h (bs_rep st) parts data))
    (derive (MkStore lits seqs) (bs_entropy st) cparams (zlen data) table).
Proof.
  intros Hlk Hst Hsl Ht. pose proof (stored_sizes _ _ _ _ _ _ _ _ _ _ Hst) as [_ Hz]. pose proof Hst as [[_ Hd] _ _ _ _ _ _]. change MAX_BLOCK_SIZE with 131072 in Hbsm.
  unfold derive. cbn [ss_seqs]. set (nb := zlen seqs) in *. pose proof (zlen_nonneg seqs).
  eapply returns_bind with (P := fun '(splits, table) => table_ok table /\ (splits = [] \/ ends_ok 0 splits nb)).
  - destruct (Z.leb_spec MIN_SEQUENCES_BLOCK_SPLITTING nb) as [Hmin|]; [|by split; [|left]]. unfold MIN_SEQUENCES_BLOCK_SPLITTING in Hmin.
    eapply returns_mono.
    { apply (derive_helper_ok _ nb); [change (2 ^ 17) with 131072; lia| |lia|lia|lia|done].
      intros x y t Hx Hy Ht'. by apply (estimate_ok ws st h data lits seqs (bs_rep st) rep'). }
    intros [splits t] (Ht' & more & -> & He). split; [done|]. by right.
  - intros [splits t] [Ht' Hs]. destruct splits as [|s splits]; cbn [is_empty]; [by split; [|left]|]. destruct Hs as [Hs|Hs]; [done|].
    destruct (partitions_stored dict deep window bsm ltac:(change MAX_BLOCK_SIZE with 131072; lia) src a h data lits seqs (bs_rep st) rep' (s :: splits) (linked_hist _ _ _ Hlk) Hst Hsl Hs) as (parts & -> & Hp & _).
    cbn [mbind res_bind]. split; [done|]. by right.
Qed.
End block.
