(* ===== verification/Window.v ===== *)
(** * The match finders' window ([src/compress/matchstate.rs])

    The map between positions of the input and the indices of the finders'
    tables, and its overflow correction. Positions and indices are [usize];
    the base is a position that may lie before the input, hence wraps. *)

From S2P Require Import Prelude Words Constants Errors.

(** [WINDOW_START_INDEX], [INDEX_OVERFLOW_MARGIN] and [CURRENT_MAX]. *)
Definition WINDOW_START_INDEX : Z := 2.
Definition INDEX_OVERFLOW_MARGIN : Z := Z.shiftl 16 20.
Definition CURRENT_MAX : Z := if MEM_32BITS then Z.shiftl 2000 20 else Z.shiftl 3500 20.

(** [HASH_READ_SIZE]. *)
Definition HASH_READ_SIZE : Z := 8.

(** [Window]. *)
Record Window := MkWindow {
  w_base : Z;
  w_low : Z;
  w_dict_limit : Z;
  w_next_src : Z;
  w_loaded_dict_end : Z;
  w_corrections : Z;
  w_frequently : bool;
}.

(** [Window::index] and [Window::pos]. *)
Definition w_index (w : Window) (pos : Z) : Z := wsub 64 pos (w_base w).
Definition w_pos (w : Window) (idx : Z) : Z := wadd 64 idx (w_base w).

(** [Window::new]. *)
Definition window_new (origin : Z) (correct_frequently : bool) : Window :=
  MkWindow (wsub 64 origin WINDOW_START_INDEX) WINDOW_START_INDEX WINDOW_START_INDEX origin 0 0 correct_frequently.

(** [Window::continue_at]. *)
Definition continue_at (w : Window) (origin : Z) : Window :=
  let end_ := w_index w (w_next_src w) in
  MkWindow (wsub 64 origin end_) end_ end_ origin 0 (w_corrections w) (w_frequently w).

(** [Window::load_dict]. *)
Definition window_load_dict (w : Window) : Window :=
  let loaded := w_index w (w_next_src w) in
  let low := if loaded - w_low w <? HASH_READ_SIZE then loaded else w_low w in
  MkWindow (w_base w) low loaded (w_next_src w) loaded (w_corrections w) (w_frequently w).

(** [Window::extend_to]. *)
Definition extend_to (w : Window) (end_ : Z) : Window :=
  MkWindow (w_base w) (w_low w) (w_dict_limit w) end_ (w_loaded_dict_end w) (w_corrections w) (w_frequently w).

Section window.
Context {E : Type}.

(** [Window::enter_dict]. *)
Definition window_enter_dict (w : Window) (content : Z * Z) : res E Window :=
  _ ← rassert ((w_next_src w =? content.1) && (w_index w content.1 =? WINDOW_START_INDEX));
  Ok (window_load_dict (extend_to w content.2)).

(** [Window::attach_dict]. *)
Definition window_attach_dict (w : Window) (dict_end : Z) : res E Window :=
  _ ← rassert ((w_index w (w_next_src w) =? w_dict_limit w) && (w_low w =? w_dict_limit w));
  let w :=
    if w_dict_limit w <? dict_end then
      MkWindow (wsub 64 (w_next_src w) dict_end) dict_end dict_end (w_next_src w) (w_loaded_dict_end w) (w_corrections w) (w_frequently w)
    else w in
  Ok (MkWindow (w_base w) (w_low w) (w_dict_limit w) (w_next_src w) (w_dict_limit w) (w_corrections w) (w_frequently w)).
End window.

(** [Window::loaded_dict_end] and [Window::has_ext_dict]. *)
Definition loaded_dict_end (w : Window) : option Z := if negb (w_loaded_dict_end w =? 0) then Some (w_loaded_dict_end w) else None.
Definition has_ext_dict (w : Window) : bool := w_low w <? w_dict_limit w.

(** [Window::check_dict_validity]. *)
Definition check_dict_validity (w : Window) (block_end max_dist : Z) : Window :=
  if w_loaded_dict_end w + max_dist <? w_index w block_end then
    MkWindow (w_base w) (w_low w) (w_dict_limit w) (w_next_src w) 0 (w_corrections w) (w_frequently w)
  else w.

(** [Window::rebase]. *)
Definition window_rebase {E} (w : Window) (shift : Z) : res E Window :=
  _ ← rassert (shift <=? w_next_src w);
  let low := Z.max (w_low w) (w_index w shift) in
  Ok (MkWindow (wsub 64 (w_base w) shift) low (Z.max (w_dict_limit w) low) (w_next_src w - shift) (w_loaded_dict_end w) (w_corrections w) (w_frequently w)).

(** [Window::too_close_to_max]. *)
Definition too_close_to_max (w : Window) : bool := CURRENT_MAX - INDEX_OVERFLOW_MARGIN <? w_index w (w_next_src w).

(** [Window::can_overflow_correct]. *)
Definition can_overflow_correct (w : Window) (cycle_log max_dist src : Z) : bool :=
  let cycle_size := wshl 32 1 cycle_log in
  let curr := wrap 32 (w_index w src) in
  let min_index := wadd 32 (wadd 32 cycle_size (Z.max max_dist cycle_size)) WINDOW_START_INDEX in
  let adjustment := wadd 32 (w_corrections w) 1 in
  let adjusted_index := Z.max (wmul 32 min_index adjustment) min_index in
  (adjusted_index <? curr) && (wadd 32 max_dist (wrap 32 (w_loaded_dict_end w)) <? curr).

(** [Window::need_overflow_correction]. *)
Definition need_overflow_correction (w : Window) (cycle_log max_dist src src_end : Z) : bool :=
  (w_frequently w && can_overflow_correct w cycle_log max_dist src) || (CURRENT_MAX <? w_index w src_end).

(** [is_power_of_two]. *)
Definition is_power_of_two (n : Z) : bool := (0 <? n) && (2 ^ Z.log2 n =? n).

(** [Window::correct_overflow]: the window and the correction. *)
Definition correct_overflow {E} (w : Window) (cycle_log max_dist src : Z) : res E (Window * Z) :=
  let cycle_size := wshl 32 1 cycle_log in
  let cycle_mask := wsub 32 cycle_size 1 in
  let curr := wrap 32 (w_index w src) in
  let current_cycle := Z.land curr cycle_mask in
  let current_cycle_correction := if current_cycle <? WINDOW_START_INDEX then Z.max cycle_size WINDOW_START_INDEX else 0 in
  let new_current := wadd 32 (wadd 32 current_cycle current_cycle_correction) (Z.max max_dist cycle_size) in
  _ ← rassert (w_index w src <? 2 ^ 32);
  _ ← rassert (is_power_of_two max_dist);
  _ ← rassert (Z.land curr cycle_mask =? Z.land new_current cycle_mask);
  _ ← rassert (new_current <? curr);
  let correction := curr - new_current in
  _ ← rassert (w_frequently w || (2 ^ 28 <? correction));
  let base := wadd 64 (w_base w) correction in
  let low := if w_low w <? correction + WINDOW_START_INDEX then WINDOW_START_INDEX else w_low w - correction in
  let dict_limit := if w_dict_limit w <? correction + WINDOW_START_INDEX then WINDOW_START_INDEX else w_dict_limit w - correction in
  _ ← rassert (WINDOW_START_INDEX <=? wsub 32 new_current max_dist);
  _ ← rassert (low <=? new_current);
  Ok (MkWindow base low dict_limit (w_next_src w) 0 (wadd 32 (w_corrections w) 1) (w_frequently w), correction).

(** [Window::enforce_max_dist]. *)
Definition enforce_max_dist (w : Window) (block_end max_dist : Z) : Window :=
  let block_end_idx := w_index w block_end in
  if max_dist + w_loaded_dict_end w <? block_end_idx then
    let low := Z.max (w_low w) (block_end_idx - max_dist) in
    MkWindow (w_base w) low (Z.max (w_dict_limit w) low) (w_next_src w) 0 (w_corrections w) (w_frequently w)
  else w.

(** [Window::lowest_match_index]. *)
Definition lowest_match_index (w : Window) (cur window_size : Z) : Z :=
  if negb (w_loaded_dict_end w =? 0) then w_low w else Z.max (w_low w) (Z.max 0 (cur + 1 - window_size)).

(** [Window::skip]. *)
Definition window_skip {E} (w : Window) (len : Z) : res E Window :=
  _ ← rassert (negb (has_ext_dict w));
  let low := w_low w + len in
  Ok (MkWindow (wsub 64 (w_base w) len) low low (w_next_src w) (w_loaded_dict_end w) (w_corrections w) (w_frequently w)).

(** ** A window without a dictionary *)

(** The window at position [p] of an input: index [q + d] for every position
    [q] from the lowest on, below the most a block may end at. *)
Record window_at (w : Window) (p d : Z) : Prop := {
  wa_base : w_base w = wrap 64 (- d);
  wa_shift : - 2 ^ 63 <= d <= 2 ^ 32;
  wa_low : WINDOW_START_INDEX <= w_low w <= p + d /\ 0 <= w_low w - d;
  wa_max : p + d <= CURRENT_MAX;
  wa_next : w_next_src w = p /\ 0 <= p < 2 ^ 63;
  wa_dict : w_dict_limit w = w_low w /\ w_loaded_dict_end w = 0;
}.

Lemma wrap_sub_wrap w x y : wrap w (x - wrap w y) = wrap w (x - y).
Proof. unfold wrap. by rewrite Zminus_mod_idemp_r. Qed.

Lemma wrap_add_wrap w x y : wrap w (x + wrap w y) = wrap w (x + y).
Proof. unfold wrap. by rewrite Zplus_mod_idemp_r. Qed.

Lemma window_at_index w p d q : window_at w p d -> 0 <= q + d < 2 ^ 64 -> w_index w q = q + d.
Proof. intros [Hb _ _ _ _ _] Hq. unfold w_index, wsub. rewrite Hb, wrap_sub_wrap, wrap_small by lia. lia. Qed.

Lemma window_at_pos w p d i : window_at w p d -> 0 <= i - d < 2 ^ 64 -> w_pos w i = i - d.
Proof. intros [Hb _ _ _ _ _] Hq. unfold w_pos, wadd. rewrite Hb, wrap_add_wrap, wrap_small by lia. lia. Qed.

Lemma window_new_at origin freq : 0 <= origin < 2 ^ 63 -> window_at (window_new origin freq) origin (WINDOW_START_INDEX - origin).
Proof.
  unfold WINDOW_START_INDEX. intros Ho. split; cbn [window_new w_base w_low w_dict_limit w_next_src w_loaded_dict_end].
  - unfold wsub, WINDOW_START_INDEX. f_equal. lia.
  - change (2 ^ 32) with 4294967296. lia.
  - unfold WINDOW_START_INDEX. lia.
  - change CURRENT_MAX with 3670016000. lia.
  - done.
  - done.
Qed.

(** The next input starts where the last one ended. *)
Lemma continue_at_at w p d origin : window_at w p d -> 0 <= origin < 2 ^ 63 -> window_at (continue_at w origin) origin (p + d - origin).
Proof.
  intros Hw Ho. pose proof Hw as [Hb Hs [Hl _] Hm [Hn Hp] _]. change CURRENT_MAX with 3670016000 in Hm. unfold WINDOW_START_INDEX in Hl.
  assert (w_index w (w_next_src w) = p + d) as Hi by (rewrite Hn; apply (window_at_index w p d); [done|change (2 ^ 64) with 18446744073709551616; lia]).
  unfold continue_at. rewrite Hi. split; cbn [w_base w_low w_dict_limit w_next_src w_loaded_dict_end].
  - unfold wsub. f_equal. lia.
  - change (2 ^ 32) with 4294967296. change (2 ^ 63) with 9223372036854775808 in *. lia.
  - unfold WINDOW_START_INDEX. lia.
  - change CURRENT_MAX with 3670016000. lia.
  - done.
  - done.
Qed.

(** ** A block enters *)

(** The window once it covers the block from [a] to [b], before the
    correction. *)
Record window_over (w : Window) (a b d : Z) : Prop := {
  wo_base : w_base w = wrap 64 (- d);
  wo_shift : - 2 ^ 63 <= d <= 2 ^ 32;
  wo_low : WINDOW_START_INDEX <= w_low w <= a + d /\ 0 <= w_low w - d;
  wo_max : a + d <= CURRENT_MAX;
  wo_next : w_next_src w = b /\ 0 <= a < b /\ b < 2 ^ 63;
  wo_dict : w_dict_limit w = w_low w /\ w_loaded_dict_end w = 0;
}.

Lemma extend_over w a b d : window_at w a d -> a < b < 2 ^ 63 -> window_over (extend_to w b) a b d.
Proof. intros [H1 H2 H3 H4 H5 H6] Hb. split; cbn; try done. lia. Qed.

Lemma window_over_index w a b d q : window_over w a b d -> 0 <= q + d < 2 ^ 64 -> w_index w q = q + d.
Proof. intros [Hb _ _ _ _ _] Hq. unfold w_index, wsub. rewrite Hb, wrap_sub_wrap, wrap_small by lia. lia. Qed.

(** The current index after a correction, of the cycle [c] and the distance
    [m]. *)
Definition corrected (curr c m : Z) : Z := curr mod c + (if curr mod c <? 2 then c else 0) + Z.max m c.

Lemma corrected_bounds curr cl wl : 0 <= curr -> 5 <= cl <= 30 -> 10 <= wl <= 31 -> let n := corrected curr (2 ^ cl) (2 ^ wl) in
  2 ^ wl + 2 <= n <= 2 ^ cl + 1 + Z.max (2 ^ wl) (2 ^ cl) /\ n mod 2 ^ cl = curr mod 2 ^ cl /\ n <= 3221225473.
Proof.
  intros Hc Hcl Hwl n. assert (32 <= 2 ^ cl <= 1073741824) as H1.
  { split; [change 32 with (2 ^ 5)|change 1073741824 with (2 ^ 30)]; apply Z.pow_le_mono_r; lia. }
  assert (2 ^ wl <= 2147483648) as H2 by (change 2147483648 with (2 ^ 31); apply Z.pow_le_mono_r; lia).
  pose proof (Z.mod_pos_bound curr (2 ^ cl) ltac:(lia)) as Hm. unfold n, corrected. split; [|split].
  - destruct (Z.ltb_spec (curr mod 2 ^ cl) 2); lia.
  - assert (exists k, Z.max (2 ^ wl) (2 ^ cl) = k * 2 ^ cl) as [k ->].
    { destruct (Z.le_ge_cases wl cl) as [Hle|Hge].
      - exists 1. pose proof (Z.pow_le_mono_r 2 wl cl ltac:(lia) ltac:(lia)). lia.
      - exists (2 ^ (wl - cl)). rewrite <- Z.pow_add_r by lia. replace (wl - cl + cl) with wl by lia.
        pose proof (Z.pow_le_mono_r 2 cl wl ltac:(lia) ltac:(lia)). lia. }
    rewrite Z.mod_add by lia. destruct (curr mod 2 ^ cl <? 2).
    + rewrite <- Z.add_mod_idemp_r, Z.mod_same, Z.add_0_r by lia. apply Z.mod_mod. lia.
    + rewrite Z.add_0_r. apply Z.mod_mod. lia.
  - destruct (Z.ltb_spec (curr mod 2 ^ cl) 2); lia.
Qed.

Lemma power_of_two k : 0 <= k -> is_power_of_two (2 ^ k) = true.
Proof.
  intros Hk. unfold is_power_of_two. rewrite Z.log2_pow2, Z.eqb_refl, andb_true_r by done. apply Z.ltb_lt. apply Z.pow_pos_nonneg; lia.
Qed.

(** When a correction is needed it succeeds, and the same positions have
    lower indices. *)
Lemma correct_overflow_ok {E} w a b d cl wl : window_over w a b d -> b - a <= 2 ^ 17 -> 5 <= cl <= 30 -> 10 <= wl <= 31 ->
  need_overflow_correction w cl (2 ^ wl) a b = true ->
  returns (fun '(w', c) => exists d', window_over w' a b d' /\ b + d' <= CURRENT_MAX /\ 0 <= c <= CURRENT_MAX) (correct_overflow w cl (2 ^ wl) a : res E _).
Proof.
  intros Hw Hb Hcl Hwl Hneed. pose proof Hw as [Hbase Hs [Hl Hl0] Hm [Hn Hab] [Hd Hld]]. change (2 ^ 17) with 131072 in Hb. change CURRENT_MAX with 3670016000 in Hm.
  change (2 ^ 63) with 9223372036854775808 in *. change (2 ^ 32) with 4294967296 in Hs. change WINDOW_START_INDEX with 2 in Hl.
  pose proof (window_over_index w a b d a Hw ltac:(change (2 ^ 64) with 18446744073709551616; lia)) as Hia.
  pose proof (window_over_index w a b d b Hw ltac:(change (2 ^ 64) with 18446744073709551616; lia)) as Hib.
  assert (32 <= 2 ^ cl <= 1073741824) as Hc.
  { split; [change 32 with (2 ^ 5)|change 1073741824 with (2 ^ 30)]; apply Z.pow_le_mono_r; lia. }
  assert (1024 <= 2 ^ wl <= 2147483648) as Hmd.
  { split; [change 1024 with (2 ^ 10)|change 2147483648 with (2 ^ 31)]; apply Z.pow_le_mono_r; lia. }
  assert (wshl 32 1 cl = 2 ^ cl) as Hsh by (unfold wshl; rewrite Z.shiftl_mul_pow2, Z.mul_1_l by lia; apply wrap_small; change (2 ^ 32) with 4294967296; lia).
  destruct (corrected_bounds (a + d) cl wl ltac:(lia) Hcl Hwl) as (Hn1 & Hn2 & Hn3). cbv zeta in *. set (n := corrected (a + d) (2 ^ cl) (2 ^ wl)) in *.
  assert (n < a + d /\ (w_frequently w || (2 ^ 28 <? a + d - n)) = true) as [Hlt Hloose].
  { change (2 ^ 28) with 268435456. unfold need_overflow_correction in Hneed. rewrite Hib in Hneed. apply orb_true_iff in Hneed as [Hf|Hover].
    - apply andb_true_iff in Hf as [-> Hcan]. unfold can_overflow_correct in Hcan. rewrite Hia, Hsh in Hcan. unfold wadd, WINDOW_START_INDEX in Hcan.
      rewrite (wrap_small 32 (a + d)), (wrap_small 32 (2 ^ cl + _)), (wrap_small 32 (_ + 2)) in Hcan by (change (2 ^ 32) with 4294967296; rewrite ?wrap_small by (change (2 ^ 32) with 4294967296; lia); lia).
      apply andb_true_iff in Hcan as [Hcan _]. apply Z.ltb_lt in Hcan. split; [lia|done].
    - apply Z.ltb_lt in Hover. change CURRENT_MAX with 3670016000 in Hover. split; [lia|]. apply orb_true_iff. right. apply Z.ltb_lt. lia. }
  assert (Z.max (2 ^ cl) 2 = 2 ^ cl) as Hmax by lia.
  pose proof (Z.mod_pos_bound (a + d) (2 ^ cl) ltac:(lia)) as Hcyc. unfold correct_overflow. rewrite Hia, Hsh. rewrite (wrap_small 32 (a + d)) by (change (2 ^ 32) with 4294967296; lia).
  assert (forall x, 0 <= x -> Z.land x (wsub 32 (2 ^ cl) 1) = x mod 2 ^ cl) as Hland.
  { intros x Hx. unfold wsub. rewrite wrap_small by (change (2 ^ 32) with 4294967296; lia). replace (2 ^ cl - 1) with (Z.ones cl) by (rewrite Z.ones_equiv; lia). apply Z.land_ones. lia. }
  rewrite !(Hland (a + d)) by lia. change WINDOW_START_INDEX with 2. rewrite Hmax.
  assert (wadd 32 (wadd 32 ((a + d) mod 2 ^ cl) (if (a + d) mod 2 ^ cl <? 2 then 2 ^ cl else 0)) (Z.max (2 ^ wl) (2 ^ cl)) = n) as ->.
  { unfold wadd. rewrite (wrap_small 32 (_ mod _ + _)) by (change (2 ^ 32) with 4294967296; destruct (_ <? 2); lia). apply wrap_small. change (2 ^ 32) with 4294967296. fold n. lia. }
  cbv zeta. rewrite (proj2 (Z.ltb_lt (a + d) (2 ^ 32))) by (change (2 ^ 32) with 4294967296; lia). cbn [rassert mbind res_bind].
  rewrite power_of_two by lia. cbn [rassert mbind res_bind]. rewrite Hland, Hn2, Z.eqb_refl by lia. cbn [rassert mbind res_bind].
  rewrite (proj2 (Z.ltb_lt n (a + d))) by lia. cbn [rassert mbind res_bind]. rewrite Hloose. cbn [rassert mbind res_bind].
  unfold wsub. rewrite (wrap_small 32 (n - 2 ^ wl)) by (change (2 ^ 32) with 4294967296; lia). rewrite (proj2 (Z.leb_le 2 (n - 2 ^ wl))) by lia. cbn [rassert mbind res_bind].
  set (low := if w_low w <? a + d - n + 2 then 2 else w_low w - (a + d - n)). assert (2 <= low <= n /\ 0 <= low - (n - a)) as Hlow by (unfold low; destruct (Z.ltb_spec (w_low w) (a + d - n + 2)); lia).
  rewrite (proj2 (Z.leb_le low n)) by lia. cbn [rassert mbind res_bind returns].
  exists (n - a). split; [|change CURRENT_MAX with 3670016000; change (2 ^ 32) with 4294967296; lia].
  split; cbn [w_base w_low w_dict_limit w_next_src w_loaded_dict_end]; change CURRENT_MAX with 3670016000; change (2 ^ 32) with 4294967296; change (2 ^ 63) with 9223372036854775808; change WINDOW_START_INDEX with 2.
  - rewrite Hbase. unfold wadd. rewrite Z.add_comm, wrap_add_wrap. f_equal. lia.
  - lia.
  - lia.
  - lia.
  - done.
  - rewrite Hd. done.
Qed.

(** The window a block is searched in. *)
Definition window_entered (w : Window) (a b d : Z) : Prop := window_at w b d /\ w_low w <= a + d /\ 0 <= a < b.

(** What [enter_block] makes of it. *)
Lemma enforce_ok w a b d wl : window_over w a b d -> b + d <= CURRENT_MAX -> 10 <= wl <= 31 ->
  window_entered (enforce_max_dist (check_dict_validity w b (2 ^ wl)) a (2 ^ wl)) a b d.
Proof.
  intros Hw Hb Hwl. pose proof Hw as [Hbase Hs [Hl Hl0] Hm [Hn Hab] [Hd Hld]]. change CURRENT_MAX with 3670016000 in *.
  change WINDOW_START_INDEX with 2 in *. pose proof (Z.pow_pos_nonneg 2 wl ltac:(lia) ltac:(lia)) as Hp.
  assert (exists w1, check_dict_validity w b (2 ^ wl) = w1 /\ window_over w1 a b d) as (w1 & -> & Hw1).
  { eexists. split; [done|]. unfold check_dict_validity. destruct (_ <? _); [|done]. split; cbn; try done. }
  pose proof (window_over_index w1 a b d a Hw1 ltac:(change (2 ^ 64) with 18446744073709551616; lia)) as Hia.
  clear Hbase Hl Hl0 Hn Hd Hld Hm Hw. destruct Hw1 as [Hbase _ [Hl Hl0] Hm [Hn _] [Hd Hld]]. change WINDOW_START_INDEX with 2 in *.
  unfold enforce_max_dist. rewrite Hia, Hld. destruct (Z.ltb_spec (2 ^ wl + 0) (a + d)).
  - split; [|cbn; lia]. split; cbn [w_base w_low w_dict_limit w_next_src w_loaded_dict_end]; change WINDOW_START_INDEX with 2; change CURRENT_MAX with 3670016000;
      [done|done|lia|lia|split; [done|lia]|]. split; [rewrite Hd; lia|done].
  - split; [|lia]. split; change WINDOW_START_INDEX with 2; change CURRENT_MAX with 3670016000; [done|done|lia|lia|split; [done|lia]|done].
Qed.

(** The least index a match may have keeps it inside the window. *)
Lemma lowest_ok w a b d wl cur : window_entered w a b d -> a + d <= cur < b + d -> 10 <= wl <= 31 -> b - a <= 2 ^ wl ->
  let l := lowest_match_index w cur (2 ^ wl) in w_low w <= l <= a + d /\ cur - l < 2 ^ wl /\ l = Z.max (w_low w) (cur + 1 - 2 ^ wl).
Proof.
  intros [[_ _ [Hl _] _ _ [_ Hld]] [Hla Hab]] Hc Hwl Hb. unfold lowest_match_index. rewrite Hld. cbn [negb Z.eqb].
  change WINDOW_START_INDEX with 2 in Hl. pose proof (Z.pow_pos_nonneg 2 wl ltac:(lia) ltac:(lia)). cbv zeta. lia.
Qed.
