(* ===== verification/MatchCommon.v ===== *)
(** * What the block compressors share ([src/compress/common.rs])

    The input as the finders address it, its unchecked reads, the tables'
    accesses, the hash and the match length count, each read and access with
    the bounds its safety comment asks for: out of them it is a fault. *)

From S2P Require Import Prelude Words Constants Errors.

Definition K_SEARCH_STRENGTH : Z := 8.

(** [Src]: the bytes it reads, the first at index [sr_lo]. *)
Record Src := MkSrc { sr_bytes : list Z; sr_lo : Z }.

(** [Src::end]. *)
Definition sr_end (s : Src) : Z := sr_lo s + zlen (sr_bytes s).

Section src.
Context {E : Type}.

(** [Src::new]. *)
Definition src_new (data : list Z) (from lo : Z) : res E Src :=
  bs ← slice_from data from;
  Ok (MkSrc bs lo).

(** [Src::slice]. *)
Definition src_slice (s : Src) (a b : Z) : res E (list Z) := slice (sr_bytes s) (a - sr_lo s) (b - sr_lo s).

(** [byte], [read16], [read32] and [read64]. *)
Definition src_byte (s : Src) (pos : Z) : res E Z := idx (sr_bytes s) (pos - sr_lo s).

Definition src_read (n : Z) (s : Src) (pos : Z) : res E Z :=
  bs ← slice (sr_bytes s) (pos - sr_lo s) (pos - sr_lo s + n);
  Ok (le_val bs).

Definition read16 : Src -> Z -> res E Z := src_read 2.
Definition read32 : Src -> Z -> res E Z := src_read 4.
Definition read64 : Src -> Z -> res E Z := src_read 8.

(** [tget] and [tset]. *)
Definition tget (table : list Z) (h : Z) : res E Z := idx table h.
Definition tset (table : list Z) (h v : Z) : res E (list Z) := store table h (wrap 32 v).
End src.

(** [Src::rebased]. *)
Definition src_rebased (s : Src) (shift : Z) : Src := MkSrc (sr_bytes s) (sr_lo s + shift).

(** [tags_match]. *)
Definition tags_match (packed1 packed2 : Z) : bool := Z.land (Z.lxor packed1 packed2) 255 =? 0.

(** [candidate_valid]. *)
Definition candidate_valid {E} (idx low cur : Z) : res E bool :=
  _ ← rassert (low <=? cur);
  Ok (wsub 64 idx low <? cur - low).

(** [index_overlap_check]. *)
Definition index_overlap_check (prefix_lowest rep_index : Z) : bool :=
  3 <=? wsub 32 (wsub 32 (wrap 32 prefix_lowest) 1) rep_index.

Definition PRIME4 : Z := 2654435761.
Definition PRIME5 : Z := 889523592379.
Definition PRIME6 : Z := 227718039650203.
Definition PRIME7 : Z := 58295818150454627.
Definition PRIME8 : Z := 0xCF1BBCDCB7A56463.

Section hash.
Context {E : Type}.

(** [hash_ptr]. *)
Definition hash_ptr (MLS : Z) (src : Src) (pos hbits : Z) : res E Z :=
  _ ← rassert ((1 <=? hbits) && (hbits <=? 32));
  if MLS =? 5 then v ← read64 src pos; Ok (Z.shiftr (wmul 64 (wshl 64 v (64 - 40)) PRIME5) (64 - hbits))
  else if MLS =? 6 then v ← read64 src pos; Ok (Z.shiftr (wmul 64 (wshl 64 v (64 - 48)) PRIME6) (64 - hbits))
  else if MLS =? 7 then v ← read64 src pos; Ok (Z.shiftr (wmul 64 (wshl 64 v (64 - 56)) PRIME7) (64 - hbits))
  else if MLS =? 8 then v ← read64 src pos; Ok (Z.shiftr (wmul 64 v PRIME8) (64 - hbits))
  else v ← read32 src pos; Ok (Z.shiftr (wmul 32 v PRIME4) (32 - hbits)).

(** ** The match length count *)

(** [diff.trailing_zeros() >> 3] of a difference that is not zero. *)
Definition trailing_bytes (diff : Z) : Z := Z.shiftr (trailing_zeros 64 diff) 3.

(** The steps of 4, 2 and 1 bytes both [count]s end with. *)
Definition count_tail (src : Src) (start a b limit : Z) : res E Z :=
  '(a, b) ← (if a + 4 <=? limit then
               x ← read32 src b; y ← read32 src a;
               Ok (if x =? y then (a + 4, b + 4) else (a, b))
             else Ok (a, b));
  '(a, b) ← (if a + 2 <=? limit then
               x ← read16 src b; y ← read16 src a;
               Ok (if x =? y then (a + 2, b + 2) else (a, b))
             else Ok (a, b));
  a ← (if a <? limit then
         x ← src_byte src b; y ← src_byte src a;
         Ok (if x =? y then a + 1 else a)
       else Ok a);
  Ok (a - start).

(** The loop of 8 bytes: on, to the tail, or the length. *)
Definition count_step8 (src : Src) (start limit : Z) (st : Z * Z) : res E (Z * Z + (Z * Z + Z)) :=
  let '(a, b) := st in
  if a + 8 <=? limit then
    x ← read64 src b; y ← read64 src a;
    let diff := Z.lxor x y in
    if diff =? 0 then Ok (inl (a + 8, b + 8)) else Ok (inr (inr (a + trailing_bytes diff - start)))
  else Ok (inr (inl (a, b))).

(** The loop of 32 bytes of [count_avx2]: the mask of equal bytes. *)
Definition movemask (va vb : list Z) : Z :=
  foldr (fun '(x, y) m => Z.b2z (x =? y) + 2 * m) 0 (zip va vb).

Definition count_step32 (src : Src) (start limit : Z) (st : Z * Z) : res E (Z * Z + (Z * Z + Z)) :=
  let '(a, b) := st in
  if a + 32 <=? limit then
    va ← src_slice src a (a + 32); vb ← src_slice src b (b + 32);
    let eq := movemask va vb in
    if eq =? 2 ^ 32 - 1 then Ok (inl (a + 32, b + 32)) else Ok (inr (inr (a + trailing_zeros 32 (Z.lxor eq (2 ^ 32 - 1)) - start)))
  else Ok (inr (inl (a, b))).

(** [count], and with [avx2] [count_avx2]. *)
Definition count (avx2 : bool) (src : Src) (a b limit : Z) : res E Z :=
  _ ← rassert ((sr_lo src <=? b) && (b <? a) && (a <=? limit) && (limit <=? sr_end src));
  let start := a in
  let fuel := S (Z.to_nat (limit - a)) in
  if a + 8 <=? limit then
    x ← read64 src b; y ← read64 src a;
    let diff := Z.lxor x y in
    if negb (diff =? 0) then Ok (trailing_bytes diff)
    else
      r ← (if avx2 then loopM fuel (count_step32 src start limit) (a + 8, b + 8) else Ok (inl (a + 8, b + 8)));
      match r with
      | inr n => Ok n
      | inl ab =>
          r ← loopM fuel (count_step8 src start limit) ab;
          match r with
          | inr n => Ok n
          | inl (a, b) => count_tail src start a b limit
          end
      end
  else count_tail src start a b limit.
End hash.

(** ** The common prefix *)

Fixpoint common (x y : list Z) : Z :=
  match x, y with
  | a :: x, b :: y => if a =? b then 1 + common x y else 0
  | _, _ => 0
  end.

Lemma common_range x : forall y, 0 <= common x y <= Z.min (zlen x) (zlen y).
Proof.
  induction x as [|a x IH]; intros [|b y]; cbn [common]; rewrite ?zlen_cons; change (zlen (@nil Z)) with 0; try pose proof (zlen_nonneg x); try pose proof (zlen_nonneg y); try lia.
  specialize (IH y). destruct (a =? b); lia.
Qed.

Lemma common_same x : forall x2 y2, common (x ++ x2) (x ++ y2) = zlen x + common x2 y2.
Proof. induction x as [|a x IH]; intros x2 y2; cbn [app common]; [done|]. rewrite Z.eqb_refl, IH, zlen_cons. lia. Qed.

Lemma common_differ x : forall y x2 y2, zlen x = zlen y -> x <> y -> common (x ++ x2) (y ++ y2) = common x y.
Proof.
  induction x as [|a x IH]; intros [|b y] x2 y2 Hl Hne; rewrite ?zlen_cons in Hl; change (zlen (@nil Z)) with 0 in Hl; try pose proof (zlen_nonneg x); try pose proof (zlen_nonneg y); try lia; [done|].
  cbn [app common]. destruct (Z.eqb_spec a b) as [->|]; [|done]. rewrite IH; [done|lia|congruence].
Qed.

Lemma common_agree x : forall y i, 0 <= i < common x y -> zget x i = zget y i.
Proof.
  induction x as [|a x IH]; intros [|b y] i Hi; cbn [common] in Hi; try lia. destruct (Z.eqb_spec a b) as [->|]; [|lia].
  destruct (Z.eq_dec i 0) as [->|]; [done|]. replace i with (i - 1 + 1) by lia. rewrite !zget_cons_S by lia. apply IH. lia.
Qed.

(** ** The first differing byte from the difference of two words *)

Lemma tz_double w x : 0 < x -> trailing_zeros w (2 * x) = 1 + trailing_zeros w x.
Proof. intros. destruct x as [|p|p]; try lia. change (2 * Z.pos p) with (Z.pos p~0). unfold trailing_zeros. cbn [ctz_pos]. lia. Qed.

Lemma tz_odd w x : 0 <= x -> trailing_zeros w (1 + 2 * x) = 0.
Proof. intros. destruct x as [|p|p]; try lia; done. Qed.

Lemma tz_pow w k x : 0 <= k -> 0 < x -> trailing_zeros w (2 ^ k * x) = k + trailing_zeros w x.
Proof.
  intros Hk Hx. revert k Hk. refine (natlike_ind _ _ _).
  - by rewrite Z.pow_0_r, Z.mul_1_l.
  - intros k Hk IH. rewrite Z.pow_succ_r by lia. pose proof (Z.pow_pos_nonneg 2 k ltac:(lia) Hk).
    replace (2 * 2 ^ k * x) with (2 * (2 ^ k * x)) by lia. rewrite tz_double by (apply Z.mul_pos_pos; lia). lia.
Qed.

(** The lowest set bit is in the low byte when that is not zero. *)
Lemma tz_low w e d : 0 < e < 256 -> 0 <= d -> trailing_zeros w (e + 256 * d) = trailing_zeros w e /\ 0 <= trailing_zeros w e < 8.
Proof.
  intros He Hd. pose proof (trailing_zeros_lt w e 8 He) as Ht. split; [|done]. destruct (trailing_zeros_spec w e ltac:(lia)) as (k & Hk & _ & Hek).
  set (t := trailing_zeros w e) in *. assert (256 = 2 ^ t * (2 * 2 ^ (7 - t))) as E8.
  { rewrite <- Z.pow_succ_r, <- Z.pow_add_r by lia. by replace (t + Z.succ (7 - t)) with 8 by lia. }
  rewrite Hek, E8. replace (2 ^ t * (2 * k + 1) + 2 ^ t * (2 * 2 ^ (7 - t)) * d) with (2 ^ t * (1 + 2 * (k + 2 ^ (7 - t) * d))) by lia.
  pose proof (Z.pow_pos_nonneg 2 (7 - t) ltac:(lia) ltac:(lia)). rewrite tz_pow by nia. rewrite tz_odd by nia. lia.
Qed.

Lemma lxor_bytes a b x y : is_byte a -> is_byte b -> 0 <= x -> 0 <= y ->
  Z.lxor (a + 256 * x) (b + 256 * y) = Z.lxor a b + 256 * Z.lxor x y.
Proof.
  unfold is_byte. intros Ha Hb Hx Hy. assert (0 <= Z.lxor a b < 2 ^ 8) as Hab.
  { split; [by apply Z.lxor_nonneg; lia|]. destruct (Z.eq_dec (Z.lxor a b) 0) as [->|]; [lia|]. apply Z.log2_lt_pow2; [pose proof (Z.lxor_nonneg a b); lia|].
    eapply Z.le_lt_trans; [by apply Z.log2_lxor; lia|]. apply Z.max_lub_lt; (destruct (Z.eq_dec a 0), (Z.eq_dec b 0); subst; try (cbn; lia); apply Z.log2_lt_pow2; lia). }
  assert (forall c z, 0 <= c < 2 ^ 8 -> c + 256 * z = Z.lor c (z * 2 ^ 8)) as Hlor by (intros c z Hc; rewrite lor_disjoint_add by lia; lia).
  rewrite !Hlor by (change (2 ^ 8) with 256 in *; lia). apply Z.bits_inj'. intros n Hn. rewrite Z.lxor_spec, !Z.lor_spec, Z.lxor_spec.
  destruct (Z_lt_ge_dec n 8) as [H8|H8].
  - rewrite !Z.mul_pow2_bits_low by lia. by rewrite !orb_false_r.
  - rewrite !Z.mul_pow2_bits by lia. assert (forall c, 0 <= c < 2 ^ 8 -> Z.testbit c n = false) as Hz.
    { intros c Hc. destruct (Z.eq_dec c 0) as [->|]; [apply Z.bits_0|]. apply Z.bits_above_log2; [lia|]. assert (Z.log2 c < 8) by (apply Z.log2_lt_pow2; lia). lia. }
    rewrite !Hz by (change (2 ^ 8) with 256; lia). cbn [orb]. by rewrite Z.lxor_spec.
Qed.

Lemma trailing_common x : forall y, bytes x -> bytes y -> zlen x = zlen y -> x <> y ->
  Z.lxor (le_val x) (le_val y) <> 0 /\ trailing_bytes (Z.lxor (le_val x) (le_val y)) = common x y.
Proof.
  induction x as [|a x IH]; intros [|b y] Hx Hy Hl Hne; rewrite ?zlen_cons in Hl; change (zlen (@nil Z)) with 0 in Hl;
    try pose proof (zlen_nonneg x); try pose proof (zlen_nonneg y); try lia; [done|].
  apply Forall_cons in Hx as [Ha Hx], Hy as [Hb Hy]. cbn [le_val common].
  pose proof (le_val_range x Hx) as Rx. pose proof (le_val_range y Hy) as Ry.
  rewrite lxor_bytes by (done || lia). pose proof (Z.lxor_nonneg (le_val x) (le_val y)) as Hd. unfold trailing_bytes. rewrite Z.shiftr_div_pow2 by lia. change (2 ^ 3) with 8.
  destruct (Z.eqb_spec a b) as [->|Hab].
  - destruct (IH y Hx Hy ltac:(lia) ltac:(congruence)) as [Hnz Hc]. rewrite Z.lxor_nilpotent, Z.add_0_l. split; [lia|].
    change 256 with (2 ^ 8). rewrite tz_pow by lia. rewrite <- Hc. unfold trailing_bytes. rewrite Z.shiftr_div_pow2 by lia. change (2 ^ 3) with 8.
    rewrite Z.add_comm. change (8 + ?t) with (1 * 8 + t). rewrite <- (Z.mul_1_l 8) at 1. rewrite Z.div_add by lia. lia.
  - assert (0 < Z.lxor a b < 256) as He.
    { unfold is_byte in *. assert (Z.lxor a b <> 0) by (by rewrite Z.lxor_eq_0_iff). pose proof (Z.lxor_nonneg a b). change 256 with (2 ^ 8).
      split; [lia|]. apply Z.log2_lt_pow2; [lia|]. eapply Z.le_lt_trans; [by apply Z.log2_lxor; lia|].
      apply Z.max_lub_lt; (destruct (Z.eq_dec a 0), (Z.eq_dec b 0); subst; try (cbn; lia); apply Z.log2_lt_pow2; lia). }
    destruct (tz_low 64 _ (Z.lxor (le_val x) (le_val y)) He ltac:(lia)) as [-> Ht]. split; [lia|]. apply Z.div_small. lia.
Qed.

Lemma le_val_inj x y : bytes x -> bytes y -> zlen x = zlen y -> le_val x = le_val y -> x = y.
Proof.
  intros Hx Hy Hl He. rewrite <- (le_bytes_le_val x Hx), <- (le_bytes_le_val y Hy), He. unfold zlen in Hl. by replace (length x) with (length y) by lia.
Qed.

(** ** The first differing byte from the mask of equal ones *)

Lemma movemask_range x : forall y, zlen x = zlen y -> 0 <= movemask x y < 2 ^ zlen x.
Proof.
  induction x as [|a x IH]; intros [|b y] Hl; rewrite ?zlen_cons in *; change (zlen (@nil Z)) with 0 in *; try pose proof (zlen_nonneg x); try pose proof (zlen_nonneg y); try lia; [done|].
  specialize (IH y ltac:(lia)). unfold movemask in *. cbn [zip zip_with foldr]. rewrite Z.pow_add_r by lia. change (2 ^ 1) with 2. destruct (a =? b); cbn [Z.b2z]; lia.
Qed.

Lemma lxor_low b m n : 0 <= m -> 0 <= n -> Z.lxor (Z.b2z b + 2 * m) (1 + 2 * n) = Z.b2z (negb b) + 2 * Z.lxor m n.
Proof.
  intros Hm Hn. apply Z.bits_inj'. intros k Hk. rewrite Z.lxor_spec. change (1 + 2 * n) with (Z.b2z true + 2 * n).
  destruct (Z.eq_dec k 0) as [->|].
  - rewrite !Z.add_b2z_double_bit0. by destruct b.
  - assert (forall z, Z.testbit z k = Z.testbit (z / 2) (k - 1)) as Hs by (intros z; rewrite <- Z.div2_div, Z.div2_spec, Z.shiftr_spec by lia; f_equal; lia).
    rewrite !Hs, !Z.add_b2z_double_div2. by rewrite Z.lxor_spec.
Qed.

Lemma movemask_common x : forall y, zlen x = zlen y ->
  (x = y -> movemask x y = 2 ^ zlen x - 1) /\
  (x <> y -> movemask x y <> 2 ^ zlen x - 1 /\ trailing_zeros 32 (Z.lxor (movemask x y) (2 ^ zlen x - 1)) = common x y).
Proof.
  induction x as [|a x IH]; intros [|b y] Hl; rewrite ?zlen_cons in *; change (zlen (@nil Z)) with 0 in *; try pose proof (zlen_nonneg x) as Hn; try pose proof (zlen_nonneg y); try lia; [done|].
  destruct (IH y ltac:(lia)) as [Heq Hne]. pose proof (movemask_range x y ltac:(lia)) as Hm. unfold movemask in *. cbn [zip zip_with foldr]. set (m := foldr _ 0 (zip x y)) in *.
  change (zip_with pair x y) with (zip x y). fold m. rewrite Z.pow_add_r by lia. change (2 ^ 1) with 2. set (n := 2 ^ zlen x - 1) in *. replace (2 ^ zlen x * 2 - 1) with (1 + 2 * n) by lia.
  cbn [common]. split.
  - intros [= -> ->]. rewrite Z.eqb_refl. cbn [Z.b2z]. rewrite Heq by done. lia.
  - intros Hd. rewrite lxor_low by lia. destruct (Z.eqb_spec a b) as [->|Hab]; cbn [Z.b2z negb].
    + destruct Hne as [Hn1 Hn2]; [congruence|]. split; [lia|].
      rewrite Z.add_0_l, tz_double, Hn2; [done|]. assert (Z.lxor m n <> 0) by (by rewrite Z.lxor_eq_0_iff). pose proof (Z.lxor_nonneg m n). lia.
    + split; [lia|]. apply tz_odd. pose proof (Z.lxor_nonneg m n). lia.
Qed.

(** ** Reads in range, and the count *)

Definition src_wf (s : Src) : Prop := bytes (sr_bytes s).

(** The [n] bytes at an index. *)
Definition at_ (s : Src) (pos n : Z) : list Z := ztake n (zdrop (pos - sr_lo s) (sr_bytes s)).

Lemma zlen_at s pos n : 0 <= n -> sr_lo s <= pos -> pos + n <= sr_end s -> zlen (at_ s pos n) = n.
Proof. unfold at_, sr_end. intros. rewrite zlen_ztake; [done|]. rewrite zlen_zdrop; lia. Qed.

Lemma at_bytes s pos n : src_wf s -> bytes (at_ s pos n).
Proof. intros. by apply Forall_take, Forall_drop. Qed.

Lemma at_split s pos n m : 0 <= n <= m -> sr_lo s <= pos -> at_ s pos m = at_ s pos n ++ at_ s (pos + n) (m - n).
Proof.
  intros. unfold at_, ztake, zdrop. replace (Z.to_nat m) with (Z.to_nat n + Z.to_nat (m - n))%nat by lia.
  replace (Z.to_nat (pos + n - sr_lo s)) with (Z.to_nat (pos - sr_lo s) + Z.to_nat n)%nat by lia. rewrite <- drop_drop. by rewrite take_take_drop.
Qed.

Section reads.
Context {E : Type} (s : Src) (Hs : src_wf s).

Lemma src_read_ok n pos : 0 <= n -> sr_lo s <= pos -> pos + n <= sr_end s -> src_read n s pos = (Ok (le_val (at_ s pos n)) : res E Z).
Proof.
  unfold sr_end. intros. unfold src_read. rewrite slice_ok by lia. cbn [mbind res_bind]. do 2 f_equal. unfold at_. f_equal. lia.
Qed.

Lemma read32_ok pos : sr_lo s <= pos -> pos + 4 <= sr_end s -> read32 s pos = (Ok (le_val (at_ s pos 4)) : res E Z).
Proof. intros. apply src_read_ok; lia. Qed.

Lemma src_slice_ok a b : sr_lo s <= a <= b -> b <= sr_end s -> src_slice s a b = (Ok (at_ s a (b - a)) : res E _).
Proof. unfold sr_end. intros. unfold src_slice, at_. rewrite slice_ok by lia. do 2 f_equal. lia. Qed.

Lemma src_byte_ok pos : sr_lo s <= pos < sr_end s -> exists x, zget (sr_bytes s) (pos - sr_lo s) = Some x /\ is_byte x /\ src_byte s pos = (Ok x : res E Z) /\ at_ s pos 1 = [x].
Proof.
  unfold sr_end. intros Hp. destruct (zget_is_Some (sr_bytes s) (pos - sr_lo s) ltac:(lia)) as [x Hx]. exists x. split; [done|].
  split; [by eapply (Forall_zget is_byte)|]. split; [by apply idx_ok|]. unfold at_. apply zget_Some in Hx as [_ Hx]. unfold zdrop.
  rewrite (drop_S _ x) by exact Hx. done.
Qed.

Lemma at_get pos n i : 0 <= i < n -> sr_lo s <= pos -> zget (at_ s pos n) i = zget (sr_bytes s) (pos - sr_lo s + i).
Proof. intros. unfold at_. by rewrite zget_ztake, zget_zdrop by lia. Qed.

(** Words are equal as their bytes are. *)
Lemma word_eqb n a b : 0 <= n -> sr_lo s <= a -> sr_lo s <= b -> a + n <= sr_end s -> b + n <= sr_end s ->
  (le_val (at_ s b n) =? le_val (at_ s a n)) = bool_decide (at_ s b n = at_ s a n).
Proof.
  intros. destruct (Z.eqb_spec (le_val (at_ s b n)) (le_val (at_ s a n))) as [He|Hne].
  - symmetry. apply bool_decide_eq_true_2. apply le_val_inj; [by apply at_bytes..| |done]. by rewrite !zlen_at by lia.
  - symmetry. apply bool_decide_eq_false_2. congruence.
Qed.

Section count.
Context (a0 b0 limit : Z) (Hlo : sr_lo s <= b0 < a0) (Hlim : a0 <= limit <= sr_end s).

(** The length of the common prefix of the bytes from [a] to the limit and
    those from [b]. *)
Definition prefix_from (a b : Z) : Z := common (at_ s b (limit - a)) (at_ s a (limit - a)).

Lemma prefix_step a b n : a0 <= a -> a - b = a0 - b0 -> 0 <= n -> a + n <= limit ->
  prefix_from a b = if bool_decide (at_ s b n = at_ s a n) then n + prefix_from (a + n) (b + n) else common (at_ s b n) (at_ s a n).
Proof.
  intros Ha Hab Hn Hl. unfold prefix_from. rewrite (at_split s b n (limit - a)), (at_split s a n (limit - a)) by lia.
  replace (limit - a - n) with (limit - (a + n)) by lia. case_bool_decide as He.
  - rewrite He, common_same, zlen_at by lia. done.
  - apply common_differ; [by rewrite !zlen_at by lia|done].
Qed.

Lemma prefix_differ a b n : a0 <= a -> a - b = a0 - b0 -> 0 <= n -> a + n <= limit -> at_ s b n <> at_ s a n -> prefix_from a b = common (at_ s b n) (at_ s a n).
Proof. intros. rewrite (prefix_step a b n) by lia. by rewrite bool_decide_eq_false_2. Qed.

Lemma prefix_same a b n : a0 <= a -> a - b = a0 - b0 -> 0 <= n -> a + n <= limit -> at_ s b n = at_ s a n -> prefix_from a b = n + prefix_from (a + n) (b + n).
Proof. intros. rewrite (prefix_step a b n) by lia. by rewrite bool_decide_eq_true_2. Qed.

(** Where a loop of the count is: what it counted and what is left are the
    prefix. *)
Definition counting (ab : Z * Z) : Prop := a0 <= ab.1 <= limit /\ ab.1 - ab.2 = a0 - b0 /\ ab.1 - a0 + prefix_from ab.1 ab.2 = prefix_from a0 b0.

Lemma counting_start : counting (a0, b0).
Proof. split; cbn; lia. Qed.

Lemma counting_same a b n : counting (a, b) -> 0 <= n -> a + n <= limit -> at_ s b n = at_ s a n -> counting (a + n, b + n).
Proof. intros (H1 & H2 & H3) Hn Hl He. cbn [fst snd] in *. rewrite (prefix_same a b n) in H3 by (lia || done). split; cbn [fst snd]; lia. Qed.

Lemma prefix_range a b : a0 <= a <= limit -> a - b = a0 - b0 -> 0 <= prefix_from a b <= limit - a.
Proof. intros. unfold prefix_from. pose proof (common_range (at_ s b (limit - a)) (at_ s a (limit - a))) as Hc. rewrite !zlen_at in Hc by lia. lia. Qed.

(** One of the last steps halves what may be left. *)
Lemma tail_step a b n : counting (a, b) -> prefix_from a b < 2 * n -> 1 <= n ->
  returns (fun ab => counting ab /\ prefix_from ab.1 ab.2 < n)
    ((if a + n <=? limit then x ← src_read n s b; y ← src_read n s a; Ok (if x =? y then (a + n, b + n) else (a, b)) else Ok (a, b)) : res E _).
Proof.
  intros Hc Hp Hn. pose proof Hc as (H1 & H2 & _). cbn [fst snd] in *. pose proof (prefix_range a b ltac:(lia) H2).
  destruct (Z.leb_spec (a + n) limit); [|cbn; split; [done|lia]].
  rewrite !src_read_ok by lia. cbn [mbind res_bind]. rewrite word_eqb by lia. pose proof (prefix_step a b n ltac:(lia) H2 ltac:(lia) ltac:(lia)) as Hs1. case_bool_decide as He; cbn.
  - split; [apply counting_same; done || lia|lia].
  - split; [done|]. rewrite Hs1. pose proof (common_range (at_ s b n) (at_ s a n)) as Hr. rewrite !zlen_at in Hr by lia.
    destruct (Z.eq_dec (common (at_ s b n) (at_ s a n)) n) as [Hf|]; [|lia]. destruct He. apply zlist_eq; [by rewrite !zlen_at by lia|].
    rewrite zlen_at by lia. intros i Hi. apply common_agree. lia.
Qed.

Lemma count_tail_ok a b : counting (a, b) -> limit - a < 8 -> returns (fun n => n = prefix_from a0 b0) (count_tail s a0 a b limit : res E Z).
Proof.
  intros Hc H8. pose proof Hc as (H1 & H2 & _). cbn [fst snd] in *. pose proof (prefix_range a b ltac:(lia) H2). unfold count_tail.
  eapply returns_bind; [apply (tail_step a b 4); [done|lia|lia]|]. intros [a1 b1] [Hc1 P1].
  eapply returns_bind; [apply (tail_step a1 b1 2); [done|exact P1|lia]|]. intros [a2 b2] [Hc2 P2].
  pose proof (tail_step a2 b2 1 Hc2 P2 ltac:(lia)) as Hlast. pose proof Hc2 as (R2 & D2 & E2). cbn [fst snd] in *.
  assert (forall ab : Z * Z, counting ab /\ prefix_from ab.1 ab.2 < 1 -> ab.1 - a0 = prefix_from a0 b0) as Hend.
  { intros [x y] [(R & D & Ec) P]. cbn [fst snd] in *. pose proof (prefix_range x y ltac:(lia) D). lia. }
  destruct (Z.ltb_spec a2 limit) as [Hlt|Hge].
  - rewrite (proj2 (Z.leb_le (a2 + 1) limit)) in Hlast by lia. rewrite !src_read_ok in Hlast by lia. cbn [mbind res_bind] in Hlast.
    destruct (src_byte_ok b2 ltac:(lia)) as (x & _ & _ & -> & Hx). destruct (src_byte_ok a2 ltac:(lia)) as (y & _ & _ & -> & Hy).
    rewrite Hx, Hy in Hlast. cbn [le_val mbind res_bind] in *. rewrite !Z.mul_0_r, !Z.add_0_r in Hlast.
    destruct (x =? y); cbn [returns] in *; by apply Hend in Hlast.
  - cbn [mbind res_bind returns]. apply (Hend (a2, b2)). split; [done|]. pose proof (prefix_range a2 b2 ltac:(lia) D2). cbn. lia.
Qed.

(** The loops: they go on over equal chunks, and stop at the limit or at the
    first difference. *)
Definition counted (left : Z) (r : Z * Z + Z) : Prop :=
  match r with
  | inl (a, b) => counting (a, b) /\ limit - a < left
  | inr n => n = prefix_from a0 b0
  end.

Lemma count_loop_ok (body : Z * Z -> res E (Z * Z + (Z * Z + Z))) n : 1 <= n ->
  (forall a b, counting (a, b) -> returns (fun r => match r with
      | inl ab => ab = (a + n, b + n) /\ a + n <= limit /\ at_ s b n = at_ s a n
      | inr (inl ab) => ab = (a, b) /\ limit < a + n
      | inr (inr k) => a + n <= limit /\ at_ s b n <> at_ s a n /\ k = a - a0 + common (at_ s b n) (at_ s a n)
      end) (body (a, b))) ->
  forall ab, counting ab -> returns (counted n) (loopM (S (Z.to_nat (limit - a0))) body ab).
Proof.
  intros Hn Hbody ab Hab.
  apply (returns_loopM counting (fun ab => Z.to_nat (limit - ab.1))); [done|destruct Hab; lia|]. clear ab Hab.
  intros [a b] Hc. pose proof Hc as (R & D & Ec). cbn [fst snd] in *. eapply returns_mono; [by apply Hbody|].
  intros [ab|[ab|k]]; cbn.
  - intros (-> & Hl & He). cbn. split; [apply counting_same; done || lia|lia].
  - intros [-> Hl]. split; [done|lia].
  - intros (Hl & He & ->). rewrite (prefix_differ a b n) in Ec by (done || lia). lia.
Qed.

Lemma count_step8_ok a b : counting (a, b) -> returns (fun r => match r with
      | inl ab => ab = (a + 8, b + 8) /\ a + 8 <= limit /\ at_ s b 8 = at_ s a 8
      | inr (inl ab) => ab = (a, b) /\ limit < a + 8
      | inr (inr k) => a + 8 <= limit /\ at_ s b 8 <> at_ s a 8 /\ k = a - a0 + common (at_ s b 8) (at_ s a 8)
      end) (count_step8 s a0 limit (a, b) : res E _).
Proof.
  intros (R & D & _). cbn [fst snd] in *. unfold count_step8. destruct (Z.leb_spec (a + 8) limit); [|cbn; split; [done|lia]].
  unfold read64. rewrite !src_read_ok by lia. cbn [mbind res_bind].
  destruct (decide (at_ s b 8 = at_ s a 8)) as [He|He].
  - rewrite He, Z.lxor_nilpotent. cbn. done.
  - destruct (trailing_common (at_ s b 8) (at_ s a 8)) as [Hnz ->]; [by apply at_bytes..|by rewrite !zlen_at by lia|done|].
    rewrite (proj2 (Z.eqb_neq _ 0)) by done. cbn. split; [lia|]. split; [done|lia].
Qed.

Lemma count_step32_ok a b : counting (a, b) -> returns (fun r => match r with
      | inl ab => ab = (a + 32, b + 32) /\ a + 32 <= limit /\ at_ s b 32 = at_ s a 32
      | inr (inl ab) => ab = (a, b) /\ limit < a + 32
      | inr (inr k) => a + 32 <= limit /\ at_ s b 32 <> at_ s a 32 /\ k = a - a0 + common (at_ s b 32) (at_ s a 32)
      end) (count_step32 s a0 limit (a, b) : res E _).
Proof.
  intros (R & D & _). cbn [fst snd] in *. unfold count_step32. destruct (Z.leb_spec (a + 32) limit); [|cbn; split; [done|lia]].
  rewrite !src_slice_ok by lia. cbn [mbind res_bind]. replace (a + 32 - a) with 32 by lia. replace (b + 32 - b) with 32 by lia.
  assert (zlen (at_ s b 32) = 32 /\ zlen (at_ s a 32) = 32) as [L1 L2] by (rewrite !zlen_at by lia; done).
  destruct (movemask_common (at_ s a 32) (at_ s b 32) ltac:(lia)) as [Heq Hne]. rewrite L2 in Heq, Hne.
  destruct (decide (at_ s a 32 = at_ s b 32)) as [He|He].
  - rewrite (Heq He), Z.eqb_refl. cbn. done.
  - destruct (Hne He) as [Hnz ->]. rewrite (proj2 (Z.eqb_neq _ _)) by done. cbn. split; [lia|]. split; [congruence|].
    assert (forall x y, common x y = common y x) as Hsym.
    { induction x as [|p x IH]; intros [|q y]; cbn [common]; try done. rewrite Z.eqb_sym, IH. done. }
    rewrite Hsym. lia.
Qed.

(** Both [count]s are the length of the common prefix. *)
Lemma count_ok avx2 : returns (fun n => n = prefix_from a0 b0) (count avx2 s a0 b0 limit : res E Z).
Proof.
  unfold count. rewrite (proj2 (Z.leb_le (sr_lo s) b0)), (proj2 (Z.ltb_lt b0 a0)), (proj2 (Z.leb_le a0 limit)), (proj2 (Z.leb_le limit (sr_end s))) by lia. cbn [andb rassert mbind res_bind].
  destruct (Z.leb_spec (a0 + 8) limit) as [H8|H8]; [|apply count_tail_ok; [apply counting_start|lia]].
  unfold read64. rewrite !src_read_ok by lia. cbn [mbind res_bind].
  destruct (decide (at_ s b0 8 = at_ s a0 8)) as [He|He].
  2: { destruct (trailing_common (at_ s b0 8) (at_ s a0 8)) as [Hnz Ht]; [by apply at_bytes..|by rewrite !zlen_at by lia|done|].
       rewrite (proj2 (Z.eqb_neq _ 0)) by done. cbn [negb returns]. rewrite Ht. symmetry. apply prefix_differ; (done || lia). }
  rewrite He, Z.lxor_nilpotent. cbn [Z.eqb negb].
  assert (counting (a0 + 8, b0 + 8)) as Hc by (apply counting_same; [apply counting_start|lia|lia|done]).
  eapply returns_bind with (P := fun r => match r with inl ab => counting ab | inr n => n = prefix_from a0 b0 end).
  { destruct avx2; [|exact Hc].
    eapply returns_mono; [apply (count_loop_ok _ 32); [lia|apply count_step32_ok|done]|]. by intros [[a b]|n]; [intros [? _]|]. }
  intros [[a b]|n]; [|done]. intros Hc'.
  eapply returns_bind; [apply (count_loop_ok _ 8); [lia|apply count_step8_ok|exact Hc']|]. intros [[a' b']|n]; cbn [counted]; [|done].
  intros [Hc2 Hl]. by apply count_tail_ok.
Qed.
End count.
End reads.

Section use.
Context {E : Type} (s : Src) (Hs : src_wf s).

(** What the count says of the bytes. *)
Lemma count_agree avx2 a b limit : sr_lo s <= b < a -> a <= limit <= sr_end s ->
  returns (fun n => 0 <= n <= limit - a /\ forall i, 0 <= i < n ->
      zget (sr_bytes s) (a - sr_lo s + i) = zget (sr_bytes s) (b - sr_lo s + i)) (count avx2 s a b limit : res E Z).
Proof.
  intros Hb Ha. eapply returns_mono; [by apply count_ok|]. intros n ->. pose proof (prefix_range s a b limit Hb Ha a b ltac:(lia) ltac:(lia)) as Hr.
  split; [done|]. intros i Hi. unfold prefix_from in Hi. pose proof (common_agree _ _ i Hi) as Hc. rewrite !at_get in Hc by (unfold prefix_from in Hr; lia). done.
Qed.

Lemma hash_ptr_ok mls pos hbits : sr_lo s <= pos -> pos + 8 <= sr_end s -> 1 <= hbits <= 32 ->
  returns (fun h => 0 <= h < 2 ^ hbits) (hash_ptr mls s pos hbits : res E Z).
Proof.
  intros Hp He Hh. unfold hash_ptr. rewrite (proj2 (Z.leb_le 1 hbits)), (proj2 (Z.leb_le hbits 32)) by lia. cbn [andb rassert mbind res_bind].
  assert (forall w x, 32 <= w -> 0 <= x < 2 ^ w -> 0 <= Z.shiftr x (w - hbits) < 2 ^ hbits) as Hsh.
  { intros w x Hw Hx. rewrite Z.shiftr_div_pow2 by lia. pose proof (Z.pow_pos_nonneg 2 (w - hbits) ltac:(lia) ltac:(lia)). split; [apply Z.div_pos; lia|].
    apply Z.div_lt_upper_bound; [done|]. rewrite <- Z.pow_add_r by lia. replace (w - hbits + hbits) with w by lia. lia. }
  assert (forall w x y, 0 < w -> 0 <= wmul w x y < 2 ^ w) as Hm by (intros; apply Z.mod_pos_bound; apply Z.pow_pos_nonneg; lia).
  unfold read64, read32. repeat (case_match; [rewrite src_read_ok by lia; cbn [mbind res_bind returns]; apply Hsh; [lia|by apply Hm]|]).
  rewrite src_read_ok by lia. cbn [mbind res_bind returns]. apply Hsh; [lia|by apply Hm].
Qed.

Lemma word_agree n a b : 0 <= n -> sr_lo s <= a -> sr_lo s <= b -> a + n <= sr_end s -> b + n <= sr_end s -> le_val (at_ s b n) = le_val (at_ s a n) ->
  forall i, 0 <= i < n -> zget (sr_bytes s) (a - sr_lo s + i) = zget (sr_bytes s) (b - sr_lo s + i).
Proof.
  intros Hn Ha Hb Hae Hbe He i Hi. apply le_val_inj in He; [|by apply at_bytes..|by rewrite !zlen_at by lia].
  rewrite <- (at_get s a n i), <- (at_get s b n i) by lia. by rewrite He.
Qed.
End use.

(** Two lists agree on their common prefix and differ right after it. *)
Lemma common_ends x : forall y, common x y < Z.min (zlen x) (zlen y) -> zget x (common x y) <> zget y (common x y).
Proof.
  induction x as [|a x IH]; intros [|b y] Hl; cbn [common] in *; rewrite ?zlen_cons in *; change (zlen (@nil Z)) with 0 in *; try pose proof (zlen_nonneg x); try pose proof (zlen_nonneg y); try lia.
  destruct (Z.eqb_spec a b) as [->|Hab]; [|intros [= He]; by apply Hab]. pose proof (common_range x y). rewrite Z.add_comm, !zget_cons_S by lia. apply IH. lia.
Qed.

(** C11: the match length count is the longest common prefix. For a position
    [a] and an earlier one [b] of the input and any limit within it, at
    either SIMD level (the loop of eight bytes, or that of thirty-two before
    it), [count] reads in bounds, ends, and returns the number of bytes up to
    the limit that are equal at both positions: all before it agree, and the
    next ones, if the limit is not reached, differ. *)
Theorem count_correct {E} avx2 s a b limit : src_wf s -> sr_lo s <= b < a -> a <= limit <= sr_end s ->
  exists n, (count avx2 s a b limit : res E Z) = Ok n /\ 0 <= n <= limit - a /\
    (forall i, 0 <= i < n -> zget (sr_bytes s) (a - sr_lo s + i) = zget (sr_bytes s) (b - sr_lo s + i)) /\
    (n < limit - a -> zget (sr_bytes s) (a - sr_lo s + n) <> zget (sr_bytes s) (b - sr_lo s + n)).
Proof.
  intros Hs Hb Ha. destruct (returns_inv _ _ (count_ok (E := E) s Hs a b limit Hb Ha avx2)) as (n & -> & Hn).
  exists n. split; [done|]. pose proof (prefix_range s a b limit Hb Ha a b ltac:(lia) ltac:(lia)) as Hr. subst n. unfold prefix_from in *. split; [done|]. split.
  - intros i Hi. pose proof (common_agree _ _ i Hi) as Hc. by rewrite !at_get in Hc by lia.
  - intros Hlt. pose proof (common_ends (at_ s b (limit - a)) (at_ s a (limit - a))) as Hd. rewrite !zlen_at in Hd by lia.
    specialize (Hd ltac:(lia)). rewrite !at_get in Hd by lia. intros He. by apply Hd.
Qed.

Lemma count_correct_witness : exists n, (count true (MkSrc [5; 6; 7; 5; 6; 7; 5; 9] 2) 5 2 10 : res unit Z) = Ok n /\ 0 <= n <= 10 - 5 /\
    (forall i, 0 <= i < n -> zget [5; 6; 7; 5; 6; 7; 5; 9] (5 - 2 + i) = zget [5; 6; 7; 5; 6; 7; 5; 9] (2 - 2 + i)) /\
    (n < 10 - 5 -> zget [5; 6; 7; 5; 6; 7; 5; 9] (5 - 2 + n) <> zget [5; 6; 7; 5; 6; 7; 5; 9] (2 - 2 + n)).
Proof.
  apply (count_correct true (MkSrc [5; 6; 7; 5; 6; 7; 5; 9] 2) 5 2 10); [by apply bytes_check; vm_compute|cbn; lia|by vm_compute].
Defined.
