(* ===== verification/MatchState.v ===== *)
(** * The match finders' state ([src/compress/matchstate.rs])

    The workspace of the index tables with its size bookkeeping, the window,
    and their reset and set-up for a block, without a dictionary. The tag
    table of the row finder and the optimal parser's statistics are not
    kept here. *)

From S2P Require Import Prelude Words Constants Errors Params Window MatchCommon.

(** ** The tables' layout *)

(** [SearchMethod] and [default_search_method]. *)
Inductive SearchMethod := HashChain | RowHash | BinaryTree.

#[export] Instance SearchMethod_eq_dec : EqDecision SearchMethod.
Proof. solve_decision. Defined.

Definition default_search_method (cp : CParams) : SearchMethod :=
  if bool_decide (strategy cp = BtLazy2) then BinaryTree
  else if row_match_finder_supported cp && (14 <? window_log cp) then RowHash
  else HashChain.

Definition PAGE_WORDS : Z := 1024.

(** [whole_pages]. *)
Definition whole_pages (words : Z) : Z := (words + (PAGE_WORDS - 1)) / PAGE_WORDS * PAGE_WORDS.

(** [Layout]. *)
Record Layout := MkLayout {
  hash_len : Z;
  chain_off : Z;
  chain_len : Z;
  hash3_off : Z;
  hash3_len : Z;
  tag_off : Z;
  tag_len : Z;
}.

(** [Layout::default]. *)
Definition layout_default : Layout := MkLayout 0 0 0 0 0 0 0.

(** [Layout::of]. *)
Definition layout_of (cp : CParams) (method : SearchMethod) : Layout :=
  let hash := wshl 64 1 (hash_log cp) in
  let chain := wshl 64 1 (chain_log cp) in
  let '(hash_len, chain_len, hash3_len, tag_len) :=
    match strategy cp with
    | Fast => (hash, 0, 0, 0)
    | DFast => (hash, chain, 0, 0)
    | Greedy | Lazy | Lazy2 =>
        match method with
        | RowHash => (hash, 0, 0, hash)
        | HashChain | BinaryTree => (hash, chain, 0, 0)
        end
    | BtLazy2 => (hash, chain, 0, 0)
    | BtOpt | BtUltra | BtUltra2 =>
        (hash, chain, (if hash_log3 cp =? 0 then 0 else wshl 64 1 (hash_log3 cp)), 0)
    end in
  let chain_off := whole_pages hash_len in
  let hash3_off := chain_off + whole_pages chain_len in
  MkLayout hash_len chain_off chain_len hash3_off hash3_len (hash3_off + whole_pages hash3_len) tag_len.

(** [Layout::index_end] and [Layout::words]. *)
Definition index_end (l : Layout) : Z := hash3_off l + hash3_len l.
Definition layout_words (l : Layout) : Z := tag_off l + whole_pages ((tag_len l + 3) / 4).

(** ** The workspace *)

(** [Workspace]; its pages are their words. *)
Record Workspace := MkWs {
  ws_words : list Z;
  ws_layout : Layout;
  ws_valid : Z;
  ws_size : Z;
  ws_used : Z;
  ws_duration : Z;
}.

(** [Workspace::default]. *)
Definition workspace_default : Workspace := MkWs [] layout_default 0 0 0 0.

Definition WORKSPACE_TOO_LARGE_FACTOR : Z := 3.
Definition WORKSPACE_TOO_LARGE_MAX_DURATION : Z := 128.

(** [Workspace::reserve]: the workspace and whether it was resized. *)
Definition ws_reserve (ws : Workspace) (needed : Z) : Workspace * bool :=
  let available := wsub 64 (ws_size ws) (ws_used ws) in
  let duration := Z.min (ws_duration ws + 1) (2 ^ 32 - 1) in
  let too_small := ws_size ws <? needed in
  let wasteful := (Z.min (needed * WORKSPACE_TOO_LARGE_FACTOR) (2 ^ 64 - 1) <=? available) && (WORKSPACE_TOO_LARGE_MAX_DURATION <? duration) in
  if too_small || wasteful then (MkWs [] (ws_layout ws) (ws_valid ws) needed needed 0, true)
  else (MkWs (ws_words ws) (ws_layout ws) (ws_valid ws) (ws_size ws) needed duration, false).

Section workspace.
Context {E : Type}.

(** [words[a..b].fill(0)]. *)
Definition fill_zero (words : list Z) (a b : Z) : res E (list Z) :=
  old ← slice words a b;
  Ok (ztake a words ++ zrepeat 0 (zlen old) ++ zdrop b words).

(** [Workspace::reset]. *)
Definition ws_reset (ws : Workspace) (cp : CParams) (method : SearchMethod) (index_reset : bool) : res E Workspace :=
  let layout := layout_of cp method in
  let index_end := index_end layout in
  let pages := layout_words layout / PAGE_WORDS in
  let '(words, valid) :=
    if zlen (ws_words ws) / PAGE_WORDS <? pages then (zrepeat 0 (pages * PAGE_WORDS), pages * PAGE_WORDS)
    else if index_reset then (ws_words ws, 0) else (ws_words ws, ws_valid ws) in
  words ← (if valid <? index_end then fill_zero words valid index_end else Ok words);
  words ← fill_zero words (hash_len layout) (chain_off layout);
  words ← fill_zero words (chain_off layout + chain_len layout) (hash3_off layout);
  let valid := if 0 <? tag_len layout then index_end else Z.max valid index_end in
  Ok (MkWs words layout valid (ws_size ws) (ws_used ws) (ws_duration ws)).

(** The index tables of [Workspace::tables_mut] and [opt_tables_mut], and the
    words with a hash table put back. *)
Definition ws_hash (ws : Workspace) : list Z := ztake (hash_len (ws_layout ws)) (ws_words ws).
Definition ws_chain (ws : Workspace) : list Z := ztake (chain_len (ws_layout ws)) (zdrop (chain_off (ws_layout ws)) (ws_words ws)).
Definition ws_hash3 (ws : Workspace) : list Z := ztake (hash3_len (ws_layout ws)) (zdrop (hash3_off (ws_layout ws)) (ws_words ws)).

Definition put_words (ws : Workspace) (off : Z) (table : list Z) : Workspace :=
  MkWs (ztake off (ws_words ws) ++ table ++ zdrop (off + zlen table) (ws_words ws)) (ws_layout ws) (ws_valid ws) (ws_size ws) (ws_used ws) (ws_duration ws).

(** [reduce_table]. *)
Definition reduce_cell (reducer : Z) (preserve_mark : bool) (cell : Z) : Z :=
  if preserve_mark && (cell =? 1) then 1
  else if cell <? wadd 32 reducer WINDOW_START_INDEX then 0
  else cell - reducer.

(** [Workspace::reduce]. *)
Definition ws_reduce (ws : Workspace) (correction : Z) (preserve_mark : bool) : Workspace :=
  let l := ws_layout ws in
  let ws := put_words ws 0 (reduce_cell correction false <$> ws_hash ws) in
  let ws := put_words ws (chain_off l) (reduce_cell correction preserve_mark <$> ws_chain ws) in
  let ws := put_words ws (hash3_off l) (reduce_cell correction false <$> ws_hash3 ws) in
  MkWs (ws_words ws) l (index_end l) (ws_size ws) (ws_used ws) (ws_duration ws).
End workspace.

(** ** The need *)

Definition CONTENTSIZE_UNKNOWN : Z := 2 ^ 64 - 1.
Definition aligned64 (size : Z) : Z := (size + 63) / 64 * 64.
Definition TMP_WORKSPACE_SIZE : Z := 8920.
Definition COMPRESSED_BLOCK_STATE_SIZE : Z := if MEM_32BITS then 4596 else 5632.
Definition ZSTD_OPT_SIZE : Z := Z.shiftl 1 12 + 3.
Definition OPT_SPACE : Z :=
  aligned64 ((MAX_ML + 1) * 4) + aligned64 ((MAX_LL + 1) * 4) + aligned64 ((MAX_OFF + 1) * 4) + aligned64 (256 * 4)
  + aligned64 (ZSTD_OPT_SIZE * 8) + aligned64 (ZSTD_OPT_SIZE * 28).

(** [match_state_size]. *)
Definition match_state_size (cp : CParams) (method : SearchMethod) : Z :=
  let row := row_match_finder_supported cp && bool_decide (method = RowHash) in
  let chain := if negb (bool_decide (strategy cp = Fast)) && negb row then wshl 64 1 (chain_log cp) else 0 in
  let hash := wshl 64 1 (hash_log cp) in
  let hash3 := if min_match cp =? 3 then wshl 64 1 (Z.min (window_log cp) ZSTD_HASHLOG3_MAX) else 0 in
  let opt := if is_opt (strategy cp) then OPT_SPACE else 0 in
  let tags := if row then aligned64 hash else 0 in
  let slack := 2 * 64 in
  4 * (chain + hash + hash3) + opt + slack + tags.

(** [needed_space]; long distance matching takes [ldm_space] of the block
    size. *)
Definition needed_space (cp : CParams) (method : SearchMethod) (ldm_space : Z -> Z) (pledged_src_size : Z) : Z :=
  let window_size := Z.max 1 (Z.min pledged_src_size (wshl 64 1 (window_log cp))) in
  let block_size := Z.min ZSTD_BLOCKSIZE_MAX window_size in
  let max_nb_seq := block_size / (if min_match cp =? 3 then 3 else 4) in
  let token_space := 32 + block_size + aligned64 (max_nb_seq * 8) + 3 * max_nb_seq in
  TMP_WORKSPACE_SIZE + 2 * COMPRESSED_BLOCK_STATE_SIZE + ldm_space block_size + match_state_size cp method + token_space.

(** ** The state *)

(** [bitmix] and [advance_hash_salt]. *)
Definition rotate_right64 (x n : Z) : Z := Z.lor (Z.shiftr x n) (wshl 64 x (64 - n)).

Definition bitmix (val len : Z) : Z :=
  let val := Z.lxor val (Z.lxor (rotate_right64 val 49) (rotate_right64 val 24)) in
  let val := wmul 64 val 0x9FB21C651E98DF25 in
  let val := Z.lxor val (wadd 64 (Z.shiftr val 35) len) in
  let val := wmul 64 val 0x9FB21C651E98DF25 in
  Z.lxor val (Z.shiftr val 28).

Definition advance_hash_salt (salt entropy : Z) : Z := Z.lxor (bitmix salt 8) (bitmix entropy 4).

(** [MatchState]. *)
Record MatchState := MkMs {
  ms_cparams : CParams;
  ms_ws : Workspace;
  ms_next : Z;
  ms_window : Window;
  ms_salt : Z;
  ms_salt_entropy : Z;
  ms_method : SearchMethod;
}.

Definition ms_with_window (ms : MatchState) (w : Window) : MatchState :=
  MkMs (ms_cparams ms) (ms_ws ms) (ms_next ms) w (ms_salt ms) (ms_salt_entropy ms) (ms_method ms).
Definition ms_with_ws (ms : MatchState) (ws : Workspace) : MatchState :=
  MkMs (ms_cparams ms) ws (ms_next ms) (ms_window ms) (ms_salt ms) (ms_salt_entropy ms) (ms_method ms).
Definition ms_with_next (ms : MatchState) (n : Z) : MatchState :=
  MkMs (ms_cparams ms) (ms_ws ms) n (ms_window ms) (ms_salt ms) (ms_salt_entropy ms) (ms_method ms).

Section state.
Context {E : Type}.

(** [MatchState::reset_needing]: the state and whether the workspace was
    resized. *)
Definition reset_needing (ms : MatchState) (cparams : CParams) (origin : Z) (method : SearchMethod) (needed : Z) : res E (MatchState * bool) :=
  let '(ws, resized) := ws_reserve (ms_ws ms) needed in
  let index_reset := resized || too_close_to_max (ms_window ms) in
  ws ← ws_reset ws cparams method index_reset;
  let window := if index_reset then window_new origin (w_frequently (ms_window ms)) else continue_at (ms_window ms) origin in
  Ok (MkMs cparams ws (w_low window) window (advance_hash_salt (ms_salt ms) (ms_salt_entropy ms)) (ms_salt_entropy ms) method, resized).

(** [MatchState::new_needing]. *)
Definition new_needing (cparams : CParams) (origin : Z) (method : SearchMethod) (needed : Z) : res E MatchState :=
  let ms := MkMs cparams workspace_default 0 (window_new origin false) 0 0 method in
  '(ms, _) ← reset_needing ms cparams origin method needed;
  Ok ms.

(** [MatchState::set_correct_frequently]. *)
Definition set_correct_frequently (ms : MatchState) (on : bool) : MatchState :=
  let w := ms_window ms in
  ms_with_window ms (MkWindow (w_base w) (w_low w) (w_dict_limit w) (w_next_src w) (w_loaded_dict_end w) (w_corrections w) on).

(** [MatchState::index] and [MatchState::pos]. *)
Definition ms_index (ms : MatchState) (pos : Z) : res E Z :=
  let i := w_index (ms_window ms) pos in
  _ ← rassert (i <=? 2 ^ 63 - 1);
  Ok i.

Definition ms_pos (ms : MatchState) (i : Z) : Z := w_pos (ms_window ms) i.

(** [MatchState::rebase]. *)
Definition ms_rebase (ms : MatchState) (shift : Z) : res E MatchState :=
  w ← window_rebase (ms_window ms) shift;
  Ok (ms_with_window ms w).

(** [MatchState::view]. *)
Definition view (ms : MatchState) (data : list Z) : res E Src :=
  let w := ms_window ms in
  src_new data (w_pos w (w_low w)) (w_low w).

(** [MatchState::reduce_index]. *)
Definition reduce_index (ms : MatchState) (correction : Z) : MatchState :=
  ms_with_ws ms (ws_reduce (ms_ws ms) correction (bool_decide (strategy (ms_cparams ms) = BtLazy2))).

(** [MatchState::correct_overflow_if_needed]. *)
Definition correct_overflow_if_needed (ms : MatchState) (range : Z * Z) : res E MatchState :=
  let cycle_log := wsub 32 (chain_log (ms_cparams ms)) (bt_scale (strategy (ms_cparams ms))) in
  let max_dist := wshl 32 1 (window_log (ms_cparams ms)) in
  if need_overflow_correction (ms_window ms) cycle_log max_dist range.1 range.2 then
    '(w, correction) ← correct_overflow (ms_window ms) cycle_log max_dist range.1;
    let ms := reduce_index (ms_with_window ms w) correction in
    Ok (ms_with_next ms (Z.max 0 (ms_next ms - correction)))
  else Ok ms.

(** [MatchState::enter]. *)
Definition ms_enter (ms : MatchState) (input : Z * Z) (indexed : option (Z * Z)) (dict : bool) : res E MatchState :=
  _ ← rassert ((w_next_src (ms_window ms) <=? input.1) && (input.1 <=? input.2));
  let w := extend_to (ms_window ms) input.2 in
  let w := if dict then window_load_dict w else w in
  let ms := ms_with_window ms w in
  match indexed with
  | Some indexed => correct_overflow_if_needed ms indexed
  | None => Ok ms
  end.

(** [MatchState::enter_block]. *)
Definition ms_enter_block (ms : MatchState) (positions : Z * Z) : res E MatchState :=
  ms ← ms_enter ms positions (Some positions) false;
  let max_dist := wshl 64 1 (window_log (ms_cparams ms)) in
  let w := check_dict_validity (ms_window ms) positions.2 max_dist in
  let w := enforce_max_dist w positions.1 max_dist in
  Ok (ms_with_next (ms_with_window ms w) (Z.max (ms_next ms) (w_low w))).

(** [MatchState::start_block]: the state, the view and the block's indices. *)
Definition start_block (ms : MatchState) (data : list Z) (positions : Z * Z) : res E (MatchState * Src * (Z * Z)) :=
  src ← view ms data;
  start ← ms_index ms positions.1;
  end_ ← ms_index ms positions.2;
  _ ← rassert (end_ <? 2 ^ 32);
  let next := if ms_next ms + 384 <? start then start - Z.min 192 (start - ms_next ms - 384) else ms_next ms in
  Ok (ms_with_next ms next, src, (start, end_)).

(** [MatchState::lowest_match_index]. *)
Definition ms_lowest_match_index (ms : MatchState) (cur : Z) : Z :=
  lowest_match_index (ms_window ms) cur (wshl 64 1 (window_log (ms_cparams ms))).

(** [MatchState::ext_dict_in_reach]. *)
Definition ext_dict_in_reach (ms : MatchState) (end_ : Z) : bool := ms_lowest_match_index ms (end_ - 1) <? w_dict_limit (ms_window ms).

(** [MatchState::ldm_sub_block]. *)
Definition ldm_sub_block (ms : MatchState) (block range : Z * Z) : res E (MatchState * (Z * Z)) :=
  _ ← rassert ((block.1 <=? range.1) && (range.1 <=? range.2) && (range.2 <=? block.2));
  let start := range.1 in
  let next := if ms_next ms + 1024 <? start then start - Z.min 512 (start - ms_next ms - 1024) else ms_next ms in
  Ok (ms_with_next ms next, (start, range.2)).

(** [MatchState::skip_window]. *)
Definition skip_window (ms : MatchState) (src : Src) (block : Z * Z) (len : Z) : res E (MatchState * Src * (Z * Z)) :=
  _ ← rassert (block.1 =? w_low (ms_window ms));
  w ← window_skip (ms_window ms) len;
  let ms := ms_with_next (ms_with_window ms w) (w_low w) in
  let block := (block.1 + len, block.2 + len) in
  _ ← rassert (block.2 <? 2 ^ 32);
  Ok (ms, src_rebased src len, block).
End state.

(** ** Proofs *)

Definition word (x : Z) : Prop := 0 <= x < 2 ^ 32.

(** The tables of the layout fit in the words. *)
Record ws_ok (ws : Workspace) (cp : CParams) : Prop := {
  wk_hash : hash_len (ws_layout ws) = 2 ^ hash_log cp /\ (strategy cp = DFast -> chain_len (ws_layout ws) = 2 ^ chain_log cp);
  wk_order : 0 <= hash_len (ws_layout ws) <= chain_off (ws_layout ws) /\ 0 <= chain_len (ws_layout ws) /\
    chain_off (ws_layout ws) + chain_len (ws_layout ws) <= hash3_off (ws_layout ws) /\ 0 <= hash3_len (ws_layout ws);
  wk_fits : hash3_off (ws_layout ws) + hash3_len (ws_layout ws) <= zlen (ws_words ws);
  wk_words : Forall word (ws_words ws);
}.

Lemma whole_pages_ge n : 0 <= n -> n <= whole_pages n /\ (PAGE_WORDS | whole_pages n).
Proof. unfold whole_pages, PAGE_WORDS. intros. split; [divlia|]. by eexists. Qed.

Lemma fill_zero_ok {E} words a b : 0 <= a <= b -> b <= zlen words -> Forall word words ->
  returns (fun w => zlen w = zlen words /\ Forall word w) (fill_zero words a b : res E _).
Proof.
  intros Ha Hb Hw. unfold fill_zero. rewrite slice_ok by lia. cbn [mbind res_bind returns]. set (n := zlen (ztake _ _)).
  assert (n = b - a) as -> by (unfold n; rewrite zlen_ztake; [lia|rewrite zlen_zdrop; lia]). split.
  - rewrite !zlen_app, zlen_ztake, zlen_zrepeat, zlen_zdrop by lia. lia.
  - apply Forall_app. split; [by apply Forall_take|]. apply Forall_app. split; [|by apply Forall_drop]. by apply Forall_zrepeat.
Qed.

Lemma put_words_ok ws off table : 0 <= off -> off + zlen table <= zlen (ws_words ws) -> Forall word (ws_words ws) -> Forall word table ->
  zlen (ws_words (put_words ws off table)) = zlen (ws_words ws) /\ Forall word (ws_words (put_words ws off table)).
Proof.
  intros Ho Hl Hw Ht. pose proof (zlen_nonneg table). unfold put_words. cbn [ws_words]. split.
  - rewrite !zlen_app, zlen_ztake, zlen_zdrop by lia. lia.
  - apply Forall_app. split; [by apply Forall_take|]. apply Forall_app. split; [done|by apply Forall_drop].
Qed.

Lemma reduce_cell_word c m x : 0 <= c <= CURRENT_MAX -> word x -> word (reduce_cell c m x).
Proof.
  unfold word, reduce_cell. change CURRENT_MAX with 3670016000. change (2 ^ 32) with 4294967296. intros Hc Hx. destruct (m && _); [lia|].
  unfold wadd. rewrite wrap_small by (change WINDOW_START_INDEX with 2; change (2 ^ 32) with 4294967296; lia). change WINDOW_START_INDEX with 2.
  destruct (Z.ltb_spec x (c + 2)); lia.
Qed.

Lemma ws_reduce_ok ws cp c m : ws_ok ws cp -> 0 <= c <= CURRENT_MAX -> ws_ok (ws_reduce ws c m) cp /\ ws_valid (ws_reduce ws c m) = index_end (ws_layout ws).
Proof.
  intros [H1 (H2 & H3 & H4 & H5) H6 H7] Hc. split; [|done]. unfold ws_reduce.
  assert (forall m t, Forall word t -> Forall word (reduce_cell c m <$> t)) as Hr.
  { intros m' t Ht. apply Forall_fmap. eapply Forall_impl; [exact Ht|]. intros x Hx. by apply reduce_cell_word. }
  assert (forall w off n, 0 <= off -> 0 <= n -> off + n <= zlen (ws_words w) -> zlen (ztake n (zdrop off (ws_words w))) = n) as Hz
    by (intros w off n ? ? ?; rewrite zlen_ztake; [done|rewrite zlen_zdrop; lia]).
  set (w0 := put_words ws 0 _). destruct (put_words_ok ws 0 (reduce_cell c false <$> ws_hash ws)) as [L0 F0]; [lia| |done|apply Hr; by apply Forall_take|].
  { rewrite zlen_fmap. pose proof (Hz ws 0 (hash_len (ws_layout ws)) ltac:(lia) ltac:(lia) ltac:(lia)) as E. unfold ws_hash. change (zdrop 0 (ws_words ws)) with (ws_words ws) in E. lia. }
  fold w0 in L0, F0. set (w1 := put_words w0 _ _). destruct (put_words_ok w0 (chain_off (ws_layout ws)) (reduce_cell c m <$> ws_chain w0)) as [L1 F1]; [lia| |done|apply Hr; by apply Forall_take, Forall_drop|].
  { rewrite zlen_fmap. unfold ws_chain. change (ws_layout w0) with (ws_layout ws). rewrite Hz by lia. lia. }
  fold w1 in L1, F1. set (w2 := put_words w1 _ _). destruct (put_words_ok w1 (hash3_off (ws_layout ws)) (reduce_cell c false <$> ws_hash3 w1)) as [L2 F2]; [lia| |done|apply Hr; by apply Forall_take, Forall_drop|].
  { rewrite zlen_fmap. unfold ws_hash3. change (ws_layout w1) with (ws_layout ws). rewrite Hz by lia. lia. }
  fold w2 in L2, F2. split; cbn [ws_layout ws_words]; [done|done|lia|done].
Qed.

Lemma layout_ok cp method : params_ok cp -> let l := layout_of cp method in
  (hash_len l = 2 ^ hash_log cp /\ (strategy cp = DFast -> chain_len l = 2 ^ chain_log cp)) /\ (0 <= hash_len l <= chain_off l /\ 0 <= chain_len l /\ chain_off l + chain_len l <= hash3_off l /\ 0 <= hash3_len l) /\
  index_end l <= layout_words l /\ (PAGE_WORDS | layout_words l).
Proof.
  intros [Hw Hc Hh _ _ _]. unfold ZSTD_HASHLOG_MIN in Hh. unfold ZSTD_WINDOWLOG_ABSOLUTEMIN in Hw.
  assert (forall k, 0 <= k <= 30 -> wshl 64 1 k = 2 ^ k /\ 0 < 2 ^ k) as Hsh.
  { intros k Hk. unfold wshl. rewrite Z.shiftl_mul_pow2, Z.mul_1_l by lia. pose proof (Z.pow_pos_nonneg 2 k ltac:(lia) ltac:(lia)). split; [|done]. apply wrap_small.
    split; [lia|]. apply Z.pow_lt_mono_r; lia. }
  destruct (Hsh (hash_log cp) ltac:(lia)) as [E1 P1]. destruct (Hsh (chain_log cp) ltac:(lia)) as [E2 P2].
  assert (0 <= (if hash_log3 cp =? 0 then 0 else wshl 64 1 (hash_log3 cp))) as H3.
  { destruct (_ =? 0); [lia|]. apply Z.mod_pos_bound. done. }
  assert (exists hl cl h3 tl, layout_of cp method = MkLayout hl (whole_pages hl) cl (whole_pages hl + whole_pages cl) h3 (whole_pages hl + whole_pages cl + whole_pages h3) tl /\
    hl = 2 ^ hash_log cp /\ (strategy cp = DFast -> cl = 2 ^ chain_log cp) /\ 0 <= cl /\ 0 <= h3 /\ 0 <= tl) as (hl & cl & h3 & tl & -> & -> & Hdf & Hcl & H3' & Htl).
  { unfold layout_of. rewrite E1, E2. destruct (strategy cp); [..]; try destruct method; do 4 eexists; split_and!; try reflexivity; (done || lia). }
  cbn [hash_len chain_off chain_len hash3_off hash3_len tag_off tag_len index_end layout_words]. cbv zeta. unfold index_end, layout_words. cbn [hash_len chain_off chain_len hash3_off hash3_len tag_off tag_len].
  destruct (whole_pages_ge (2 ^ hash_log cp) ltac:(lia)) as [W1 D1]. destruct (whole_pages_ge cl Hcl) as [W2 D2]. destruct (whole_pages_ge h3 H3') as [W3 D3].
  destruct (whole_pages_ge ((tl + 3) / 4) ltac:(divlia)) as [W4 D4]. assert (0 <= (tl + 3) / 4) by divlia.
  split; [done|]. split; [lia|]. split; [lia|]. repeat apply Z.divide_add_r; done.
Qed.

Lemma ws_reset_ok {E} ws cp method ir : params_ok cp -> Forall word (ws_words ws) -> 0 <= ws_valid ws ->
  returns (fun ws' => ws_ok ws' cp /\ 0 <= ws_valid ws') (ws_reset ws cp method ir : res E _).
Proof.
  intros Hcp Hw Hv. destruct (layout_ok cp method Hcp) as (Hh & (H1 & H2 & H3 & H4) & Hi & [pages Hp]). unfold ws_reset. set (l := layout_of cp method) in *.
  assert (layout_words l / PAGE_WORDS = pages) as -> by (rewrite Hp; by apply Z.div_mul). unfold index_end in Hi.
  assert (exists words valid, (if zlen (ws_words ws) / PAGE_WORDS <? pages then (zrepeat 0 (pages * PAGE_WORDS), pages * PAGE_WORDS)
    else if ir then (ws_words ws, 0) else (ws_words ws, ws_valid ws)) = (words, valid) /\ layout_words l <= zlen words /\ Forall word words /\ 0 <= valid) as (words & valid & -> & Hlen & Hfw & Hvv).
  { destruct (Z.ltb_spec (zlen (ws_words ws) / PAGE_WORDS) pages) as [Hlt|Hge].
    - do 2 eexists. split; [done|]. rewrite zlen_zrepeat by lia. split; [lia|]. split; [by apply Forall_zrepeat|lia].
    - assert (layout_words l <= zlen (ws_words ws)) by (rewrite Hp; unfold PAGE_WORDS in *; divlia). destruct ir; by do 2 eexists. }
  eapply returns_bind with (P := fun w => zlen w = zlen words /\ Forall word w).
  { unfold index_end. destruct (Z.ltb_spec valid (hash3_off l + hash3_len l)); [|done]. apply fill_zero_ok; (lia || done). }
  intros w1 [L1 F1]. eapply returns_bind; [apply fill_zero_ok; [lia|lia|done]|]. intros w2 [L2 F2].
  eapply returns_bind; [apply fill_zero_ok; [lia|lia|done]|]. intros w3 [L3 F3]. cbn [returns]. split.
  - split; cbn [ws_layout ws_words]; [done|done|lia|done].
  - cbn [ws_valid]. unfold index_end. destruct (0 <? tag_len l); lia.
Qed.

(** ** The state between blocks, and in one *)

Record ms_tables (ms : MatchState) : Prop := {
  mt_params : params_ok (ms_cparams ms);
  mt_ws : ws_ok (ms_ws ms) (ms_cparams ms);
  mt_valid : 0 <= ws_valid (ms_ws ms);
}.

(** At position [p] of an input; searching the block from [a] to [b]. *)
Definition ms_at (ms : MatchState) (p : Z) : Prop := ms_tables ms /\ exists d, window_at (ms_window ms) p d.
Definition ms_entered (ms : MatchState) (a b d : Z) : Prop := ms_tables ms /\ window_entered (ms_window ms) a b d.

(** What a state left by another input is good for. *)
Definition ms_kept (ms : MatchState) : Prop :=
  Forall word (ws_words (ms_ws ms)) /\ 0 <= ws_valid (ms_ws ms) /\ exists p d, window_at (ms_window ms) p d.

Lemma ms_at_kept ms p : ms_at ms p -> ms_kept ms.
Proof. intros [[_ [_ _ _ Hw] Hv] [d Hd]]. split; [done|]. split; [done|]. by exists p, d. Qed.

Lemma entered_at ms a b d : ms_entered ms a b d -> ms_at ms b.
Proof. intros [Ht [Hw _]]. split; [done|]. by exists d. Qed.

Lemma reset_needing_ok {E} ms cp origin method needed : ms_kept ms -> params_ok cp -> 0 <= origin < 2 ^ 63 ->
  returns (fun '(ms', _) => ms_at ms' origin /\ ms_cparams ms' = cp) (reset_needing ms cp origin method needed : res E _).
Proof.
  intros (Hw & Hv & p & d & Hwin) Hcp Ho. unfold reset_needing. destruct (ws_reserve (ms_ws ms) needed) as [ws resized] eqn:Er.
  assert (Forall word (ws_words ws) /\ 0 <= ws_valid ws) as [Hw' Hv'].
  { unfold ws_reserve in Er. destruct (_ || _); injection Er as <- <-; cbn [ws_words ws_valid]; by split. }
  eapply returns_bind; [by apply (ws_reset_ok ws cp method)|]. intros ws' [Hws Hv2]. cbn [returns]. split; [|done]. split; [by split|].
  cbn [ms_window]. destruct (_ || _); [eexists; by apply window_new_at|]. eexists. by apply (continue_at_at _ p d).
Qed.

Lemma new_needing_ok {E} cp origin method needed : params_ok cp -> 0 <= origin < 2 ^ 63 ->
  returns (fun ms' => ms_at ms' origin /\ ms_cparams ms' = cp) (new_needing cp origin method needed : res E _).
Proof.
  intros Hcp Ho. unfold new_needing. eapply returns_bind; [apply reset_needing_ok; [|done|done]|by intros [ms' ?]].
  split; [constructor|]. split; [done|]. eexists _, _. by apply window_new_at.
Qed.

Lemma set_frequently_at ms on p : ms_at ms p -> ms_at (set_correct_frequently ms on) p.
Proof. intros [[H1 H2 H3] [d []]]. split; [by split|]. exists d. by split. Qed.

Lemma wshl_log cp : params_ok cp -> 10 <= window_log cp <= 31 /\ wshl 32 1 (window_log cp) = 2 ^ window_log cp /\ wshl 64 1 (window_log cp) = 2 ^ window_log cp.
Proof.
  intros [Hw _ _ _ _ _]. unfold ZSTD_WINDOWLOG_ABSOLUTEMIN in Hw. change ZSTD_WINDOWLOG_MAX with 31 in Hw. split; [done|].
  unfold wshl. rewrite Z.shiftl_mul_pow2, Z.mul_1_l by lia. pose proof (Z.pow_pos_nonneg 2 (window_log cp) ltac:(lia) ltac:(lia)).
  split; (apply wrap_small; split; [lia|]; apply Z.pow_lt_mono_r; lia).
Qed.

Lemma enter_block_ok {E} ms a b : ms_at ms a -> 0 <= a < b -> b < 2 ^ 63 -> b - a <= 2 ^ 17 ->
  returns (fun ms' => (exists d, ms_entered ms' a b d) /\ ms_cparams ms' = ms_cparams ms) (ms_enter_block ms (a, b) : res E _).
Proof.
  intros [[Hcp Hws Hv] [d Hw]] Hab Hb Hlen. destruct (wshl_log _ Hcp) as (Hwl & E32 & E64). unfold ms_enter_block, ms_enter. cbn [fst snd].
  pose proof Hw as [_ _ _ _ [-> _] _]. rewrite (proj2 (Z.leb_le a a)), (proj2 (Z.leb_le a b)) by lia. cbn [andb rassert mbind res_bind].
  pose proof (extend_over _ a b d Hw ltac:(lia)) as Ho. set (w := extend_to (ms_window ms) b) in *.
  pose proof Hcp as [_ Hc _ _ _ _]. pose proof (bt_scale_range (strategy (ms_cparams ms))) as Hbt.
  eapply returns_bind with (P := fun ms' => ms_tables ms' /\ ms_cparams ms' = ms_cparams ms /\ exists d', window_over (ms_window ms') a b d' /\ b + d' <= CURRENT_MAX).
  - unfold correct_overflow_if_needed. cbn [fst snd ms_cparams ms_with_window ms_window]. rewrite E32. unfold wsub. rewrite wrap_small by (change (2 ^ 32) with 4294967296; lia).
    set (cl := chain_log _ - _). destruct (need_overflow_correction w cl _ a b) eqn:Hneed.
    + eapply returns_bind; [apply (correct_overflow_ok w a b d cl); (done || unfold cl; lia)|]. intros [w' c] (d' & Ho' & Hmax & Hcr). cbn [returns].
      destruct (ws_reduce_ok _ _ c (bool_decide (strategy (ms_cparams ms) = BtLazy2)) Hws Hcr) as [Hws' Hv'].
      split; [split; [done|exact Hws'|]|]. { cbn [ms_ws]. change (0 <= ws_valid (ws_reduce (ms_ws ms) c (bool_decide (strategy (ms_cparams ms) = BtLazy2)))). rewrite Hv'. unfold index_end. destruct Hws as [_ (H2 & H3 & H4 & H5) _ _]. lia. }
      split; [done|]. by exists d'.
    + cbn [returns]. split; [by split|]. split; [done|]. exists d. split; [done|]. unfold need_overflow_correction in Hneed. apply orb_false_iff in Hneed as [_ Hn].
      apply Z.ltb_ge in Hn. rewrite (window_over_index w a b d b Ho) in Hn; [done|]. destruct Ho as [_ _ Hl Hm _ _]. change CURRENT_MAX with 3670016000 in Hm.
      change WINDOW_START_INDEX with 2 in Hl. change (2 ^ 63) with 9223372036854775808 in Hb. change (2 ^ 17) with 131072 in Hlen. change (2 ^ 64) with 18446744073709551616. lia.
  - intros ms' ([Hcp' Hws' Hv'] & Hp & d' & Ho' & Hmax). cbn [returns]. rewrite Hp, E64. split; [|done]. exists d'. split; [by split|].
    apply enforce_ok; [done|done|lia].
Qed.

Lemma start_block_ok {E} ms data a b d : ms_entered ms a b d -> b <= zlen data ->
  returns (fun '(ms', src, block) => ms_entered ms' a b d /\ ms_cparams ms' = ms_cparams ms /\ block = (a + d, b + d) /\
      ms_window ms' = ms_window ms /\ src = MkSrc (zdrop (w_low (ms_window ms) - d) data) (w_low (ms_window ms)))
    (start_block ms data (a, b) : res E _).
Proof.
  intros [Ht Hen] Hb. pose proof Hen as [Hw [Hla Hab]]. pose proof Hw as [_ Hs [Hl Hl0] Hm [_ Hp] _]. change CURRENT_MAX with 3670016000 in Hm.
  change WINDOW_START_INDEX with 2 in Hl. change (2 ^ 63) with 9223372036854775808 in *. unfold start_block, view, ms_index. cbn [fst snd].
  rewrite (window_at_pos _ b d _ Hw) by (change (2 ^ 64) with 18446744073709551616; lia).
  rewrite !(window_at_index _ b d _ Hw) by (change (2 ^ 64) with 18446744073709551616; lia).
  unfold src_new. rewrite slice_from_ok by lia. cbn [mbind res_bind].
  rewrite !(proj2 (Z.leb_le _ (9223372036854775808 - 1))) by lia. cbn [rassert mbind res_bind].
  rewrite (proj2 (Z.ltb_lt (b + d) (2 ^ 32))) by (change (2 ^ 32) with 4294967296; lia). cbn [rassert mbind res_bind returns].
  destruct Ht as [Ht1 Ht2 Ht3]. split_and!; try done.
Qed.
