(* ===== verification/Finder.v ===== *)
(** * What a match finder promises ([src/compress/block.rs], [src/compress/seqstore.rs])

    The interface between the block loop and the match finders: a state that
    is reset for an input, entered by a block, and searched for the block's
    sequences; its law, that what it stores executes to the bytes before its
    anchor; and the store as it grows, one sequence after the other. *)

From S2P Require Import Prelude Words Constants Errors SeqExec SeqDecode SeqRun SeqStream SeqSection.
From S2P Require Import HufWeights Copy CopyProofs BlockDecode DecodeDict FrameRef FseEncode Params Split BlockEncode BlockRound.

(** ** The interface *)

(** The state is [MatchState] with the long distance matching it is reset
    for; [find_matches] is the search of [build_seq_store], from repeat
    offsets: the store, the offsets after it and the anchor, a position. *)
Class Finder (M : Type) := {
  finder_params : M -> CParams;
  finder_reset : option M -> CParams -> bool -> Z -> Z -> bool -> dec (M * bool);
  enter_block : M -> Z * Z -> dec M;
  find_matches : M -> list Z -> Z * Z -> list Z -> dec (M * SeqStore * list Z * Z);
}.

(** ** Stores *)

Section found.
Context (deep : bool) (window : Z) (data rep : list Z) (a : Z).

(** The sequences and literals stored from position [a] to the anchor. *)
Record found (seqs : list Seq) (lits hist : list Z) (anchor : Z) : Prop := {
  fn_range : 0 <= a <= anchor /\ anchor <= zlen data;
  fn_lits : bytes lits;
  fn_seqs : Forall seq_ok seqs;
  fn_codes : Forall (code_kept deep) seqs;
  fn_plain : Forall (fun '(_, _, o) => plain_offset o) (resolve rep seqs).1;
  fn_hist : (resolve rep seqs).2 = hist /\ hist_ok hist;
  fn_runs : lz_sequences false 0 window (zlen data) (ztake a data) lits (resolve rep seqs).1 = Some (ztake anchor data, []);
}.

Lemma found_nil : hist_ok rep -> 0 <= a <= zlen data -> found [] [] rep a.
Proof. intros. split; try done; cbn; try lia; constructor. Qed.

Lemma lz_match_data o n : forall p, 1 <= o <= p -> p + Z.of_nat n <= zlen data ->
  (forall i, 0 <= i < Z.of_nat n -> zget data (p + i) = zget data (p + i - o)) ->
  lz_match (ztake p data) o n = ztake (p + Z.of_nat n) data.
Proof.
  induction n as [|n IH]; intros p Ho Hp Hm; cbn [lz_match]; [by rewrite Z.add_0_r|].
  destruct (zget_is_Some data p ltac:(lia)) as [x Hx]. pose proof (Hm 0 ltac:(lia)) as H0. rewrite Z.add_0_r in H0.
  assert (ztake p data ++ [default 0 (zget (ztake p data) (zlen (ztake p data) - o))] = ztake (p + 1) data) as ->.
  { rewrite zlen_ztake, zget_ztake, <- H0, Hx by lia. cbn [default]. by rewrite (ztake_S data p x). }
  rewrite IH; [f_equal; lia|lia|lia|]. intros i Hi. replace (p + 1 + i) with (p + (1 + i)) by lia. apply Hm. lia.
Qed.

Lemma found_snoc seqs lits hist anchor ll ob ml : found seqs lits hist anchor -> bytes data -> 0 <= ll < 2 ^ 17 -> 3 <= ml <= 2 ^ 17 ->
  anchor + ll + ml <= zlen data -> 1 <= ob < 2 ^ 32 -> code_kept deep (MkSeq ll ob (ml - 3)) ->
  let '(o, hist') := repcode hist ob (ll =? 0) in
  plain_offset o -> o <= window -> o <= anchor + ll ->
  (forall i, 0 <= i < ml -> zget data (anchor + ll + i) = zget data (anchor + ll + i - o)) ->
  found (seqs ++ [MkSeq ll ob (ml - 3)]) (lits ++ ztake ll (zdrop anchor data)) hist' (anchor + ll + ml).
Proof.
  intros [Hr Hl Hq Hc Hp [Hh Hok] Hrun] Hb Hll Hml Hend Hob Hck. pose proof (repcode_ok hist ob (ll =? 0) Hok Hob) as Hro.
  destruct (repcode hist ob (ll =? 0)) as [o hist'] eqn:Er. intros Ho Hw Hfar Hm. unfold plain_offset in Ho.
  assert (hist_ok hist') as Hok'.
  { destruct Hro as [[_ ?]|Hu]; [done|]. unfold USIZE_MAX in Hu. change (2 ^ 32) with 4294967296 in Ho. lia. }
  assert (resolve rep (seqs ++ [MkSeq ll ob (ml - 3)]) = ((resolve rep seqs).1 ++ [(ll, ml, o)], hist')) as Hres.
  { rewrite resolve_app. destruct (resolve rep seqs) as [lz h1]. cbn [fst snd] in Hh. subst h1. cbn [resolve lit_len off_base ml_base]. rewrite Er.
    by replace (ml - 3 + ZSTD_MINMATCH) with ml by (unfold ZSTD_MINMATCH; lia). }
  split; rewrite ?Hres; cbn [fst snd].
  - lia.
  - apply Forall_app. split; [done|]. by apply Forall_take, Forall_drop.
  - apply Forall_app. split; [done|]. apply Forall_singleton. split; [done|]. cbn. split; [lia|done].
  - apply Forall_app. split; [done|]. by apply Forall_singleton.
  - apply Forall_app. split; [done|]. by apply Forall_singleton.
  - done.
  - rewrite lz_sequences_app.
    destruct (lz_sequences_front _ _ _ _ _ _ _ _ _ (resolved_lengths seqs rep Hq) Hrun) as (l0 & x & Hl0 & _ & _ & _ & Hfront).
    rewrite app_nil_r in Hl0. subst l0. rewrite Hfront by (rewrite zlen_ztake by lia; lia). cbn [mbind option_bind lz_sequences].
    set (new := ztake ll (zdrop anchor data)). assert (zlen new = ll) as Hnl by (unfold new; rewrite zlen_ztake by (rewrite zlen_zdrop; lia); lia).
    unfold lz_sequence. rewrite zlen_ztake by lia.
    rewrite (proj2 (Z.ltb_ge window o)), (proj2 (Z.ltb_ge (zlen new) ll)), (proj2 (Z.ltb_ge (zlen data) _)), (proj2 (Z.eqb_neq o 0)), (proj2 (Z.ltb_ge _ o)) by lia.
    cbn [andb fail_if mbind res_bind]. rewrite (ztake_all new ll) by lia.
    assert (zdrop ll new = []) as -> by (rewrite <- Hnl; unfold zdrop, zlen; by rewrite Nat2Z.id, drop_all).
    assert (ztake anchor data ++ new = ztake (anchor + ll) data) as ->.
    { unfold new, ztake, zdrop. replace (Z.to_nat (anchor + ll)) with (Z.to_nat anchor + Z.to_nat ll)%nat by lia. by rewrite take_take_drop. }
    rewrite lz_match_data; [by rewrite Z2Nat.id by lia|lia|lia|]. intros i Hi. apply Hm. lia.
Qed.
End found.

(** A larger window, or one that holds everything, takes the same offsets. *)
Lemma lz_sequences_window w w' limit qs : forall h lits h' l', Forall (fun '(ll, ml, _) => 0 <= ll /\ 3 <= ml) qs ->
  lz_sequences false 0 w limit h lits qs = Some (h', l') -> w <= w' \/ zlen h' <= w' -> lz_sequences false 0 w' limit h lits qs = Some (h', l').
Proof.
  induction qs as [|[[ll ml] o] qs IH]; intros h lits h' l' Hq Hs Hw; cbn [lz_sequences] in *; [done|].
  apply Forall_cons in Hq as [[Hl Hm] Hq]. destruct (lz_sequence false 0 w limit h lits ll ml o) as [[h1 l1]|e| |] eqn:H1; try done.
  pose proof (lz_sequence_length _ _ _ _ _ _ _ _ _ _ _ H1 Hl ltac:(lia)) as [Hn1 Hn2].
  pose proof (lz_sequences_length _ _ _ _ _ _ _ _ _ Hs Hq) as [Hn3 Hn4]. pose proof (zlen_nonneg qs).
  assert (lz_sequence false 0 w' limit h lits ll ml o = Ok (h1, l1)) as ->; [|by apply IH].
  unfold lz_sequence in H1 |- *. inv_ok. cbn [andb negb] in *. rewrite andb_true_r in *. bools.
  by rewrite (proj2 (Z.ltb_ge w' o)) by lia.
Qed.

(** The block from [a] to [b], with its last literals, is stored. *)
Lemma found_stored deep window window' bsm data rep a b seqs lits hist anchor rep' tail :
  found deep window data rep a seqs lits hist anchor -> bytes data -> anchor <= b <= zlen data -> 2 <= b - a <= bsm -> bsm <= MAX_BLOCK_SIZE ->
  (window <= window' \/ zlen data <= window') -> rep_linked deep rep' hist -> slice data anchor b = (Ok tail : dec _) ->
  exists blk, slice data a b = (Ok blk : dec _) /\ ztake a data ++ blk = ztake b data /\
    stored None deep window' bsm (ztake a data) blk (lits ++ tail) seqs rep rep'.
Proof.
  intros [Hr Hl Hq Hc Hp [Hh Hok] Hrun] Hb Hab Hlen Hbsm Hw Hrl Htail. change MAX_BLOCK_SIZE with 131072 in *.
  rewrite slice_ok in Htail by lia. injection Htail as <-. rewrite slice_ok by lia. eexists. split; [done|].
  assert (ztake a data ++ ztake (b - a) (zdrop a data) = ztake b data) as Hcut.
  { unfold ztake, zdrop. replace (Z.to_nat b) with (Z.to_nat a + Z.to_nat (b - a))%nat by lia. by rewrite take_take_drop. }
  split; [done|].
  assert (zlen (ztake (b - a) (zdrop a data)) = b - a) as Hzl by (rewrite zlen_ztake by (rewrite zlen_zdrop; lia); lia).
  split; [| |done|done|done|by rewrite Hh|].
  - split; [by apply Forall_take, Forall_drop|lia].
  - apply Forall_app. split; [done|]. by apply Forall_take, Forall_drop.
  - change (has_ext _ && _) with false. change (e_len _) with 0. pose proof (resolved_lengths seqs rep Hq) as Hrlen.
    assert (ztake anchor data ++ ztake (b - anchor) (zdrop anchor data) = ztake b data) as Hcut2.
    { unfold ztake, zdrop. replace (Z.to_nat b) with (Z.to_nat anchor + Z.to_nat (b - anchor))%nat by lia. by rewrite take_take_drop. }
    assert (lz_sequences false 0 window' (zlen data) (ztake a data) lits (resolve rep seqs).1 = Some (ztake anchor data, [])) as Hrun'
      by (apply (lz_sequences_window window); [done|done|rewrite zlen_ztake by lia; lia]).
    destruct (lz_sequences_front _ _ _ _ _ _ _ _ _ Hrlen Hrun') as (l0 & x & Hl0 & _ & _ & _ & Hfront). rewrite app_nil_r in Hl0. subst l0.
    apply (lz_block_limit window' _ _ (zlen data)); [done| |change MAX_BLOCK_SIZE with 131072; lia].
    unfold lz_block. rewrite Hfront by (rewrite zlen_ztake by lia; lia). cbn [mbind option_bind].
    rewrite zlen_ztake, (zlen_ztake (zdrop anchor data)), (proj2 (Z.leb_le _ _)) by (rewrite ?zlen_zdrop; lia). by rewrite Hcut, Hcut2.
Qed.

(** ** The law *)

(** A finder at position [a] of [data] may be entered by the next block and
    searched for it; whatever it finds, the store is the block's. *)
Class FinderLaws (M : Type) `{Finder M} := {
  fl_deep : bool;
  fl_usable : CParams -> Prop;
  fl_kept : M -> Prop;
  fl_at : M -> list Z -> Z -> Prop;
  fl_entered : M -> list Z -> Z * Z -> Prop;
  fl_reset old cp pledged freq data : params_ok cp -> fl_usable cp -> (forall m, old = Some m -> fl_kept m) -> zlen data < 2 ^ 63 ->
    returns (fun '(m, _) => fl_at m data 0 /\ finder_params m = cp) (finder_reset old cp false 0 pledged freq);
  fl_enter m data a b : fl_at m data a -> a < b -> b <= zlen data -> b - a <= 2 ^ 17 -> b - a <= 2 ^ window_log (finder_params m) ->
    returns (fun m' => fl_entered m' data (a, b) /\ finder_params m' = finder_params m) (enter_block m (a, b));
  fl_skip m data a b : fl_entered m data (a, b) -> fl_at m data b;
  fl_find m data a b rep : fl_entered m data (a, b) -> bytes data -> hist_ok rep -> attempts_compression (b - a) = true ->
    returns (fun '(m', store, rep', anchor) => fl_at m' data b /\ finder_params m' = finder_params m /\ anchor <= b <= zlen data /\
        exists hist, found fl_deep (2 ^ window_log (finder_params m)) data rep a (ss_seqs store) (ss_lits store) hist anchor /\ rep_linked fl_deep rep' hist)
      (find_matches m data (a, b) rep);
  fl_keep m data p : fl_at m data p -> fl_kept m;
}.
