(* ===== verification/Search.v ===== *)
(** * Storing a sequence, and what the block compressors share
    ([src/compress/seqstore.rs], [src/compress/fast.rs])

    [SeqStore::store_seq], and what it makes of a store that executes to the
    bytes before the anchor: the bytes before the end of the match. *)

From S2P Require Import Prelude Words Constants Errors SeqDecode FseEncode SeqStream SeqSection Split BlockEncode.
From S2P Require Import BlockRound MatchCommon Finder.

(** [REPCODE1_TO_OFFBASE] and [offset_to_offbase]. *)
Definition REPCODE1_TO_OFFBASE : Z := 1.

Definition offset_to_offbase {E} (offset : Z) : res E Z :=
  _ ← rassert (0 <? offset);
  Ok (wadd 32 offset 3).

(** The wide copies of [store_seq]. The literals go to a room that holds
    [WILDCOPY_OVERLENGTH] bytes more than they are; both pointers of a copy of
    16 bytes are as far from the literals' start. *)
Definition lit_copy16 {E} (src : Src) (anchor : Z) (room : list Z) (op : Z) : res E (list Z) :=
  w ← src_slice src (anchor + op) (anchor + op + 16);
  copy_from_slice room op (op + 16) w.

(** A turn of its loop. *)
Definition wide_step {E} (src : Src) (anchor lit_len : Z) (st : list Z * Z) : res E (list Z * Z + list Z) :=
  let '(room, op) := st in
  room ← lit_copy16 src anchor room op;
  room ← lit_copy16 src anchor room (op + 16);
  let op := op + 32 in
  Ok (if lit_len <=? op then inr room else inl (room, op)).

Definition wide_literals {E} (src : Src) (anchor lit_len : Z) : res E (list Z) :=
  room ← lit_copy16 src anchor (zrepeat 0 (lit_len + WILDCOPY_OVERLENGTH)) 0;
  room ← (if 16 <? lit_len then
            room ← lit_copy16 src anchor room 16;
            if 16 <? lit_len - 16 then loopM (Z.to_nat lit_len) (wide_step src anchor lit_len) (room, 32)
            else Ok room
          else Ok room);
  Ok (ztake lit_len room).

(** [SeqStore::store_seq]. Far enough from the end of the block the literals
    are copied 16 bytes at a time, else exactly. The capacity the source also
    asks for is no part of the store: without it the exact copy, for which the
    allocator grows the store, takes the wide one's place. *)
Definition store_seq {E} (store : SeqStore) (src : Src) (anchor lit_len lit_limit off_base match_len : Z) : res E SeqStore :=
  _ ← rassert (1 <=? off_base);
  _ ← rassert (ZSTD_MINMATCH <=? match_len);
  _ ← rassert ((sr_lo src <=? anchor) && (anchor + lit_len <=? lit_limit) && (lit_limit <=? sr_end src));
  let lit_end := anchor + lit_len in
  lits ← (if lit_end + WILDCOPY_OVERLENGTH <=? Z.min lit_limit (sr_end src) then wide_literals src anchor lit_len
          else src_slice src anchor lit_end);
  Ok (MkStore (ss_lits store ++ lits) (ss_seqs store ++ [MkSeq (wrap 32 lit_len) off_base (wrap 32 (match_len - ZSTD_MINMATCH))])).

(** ** The wide copies *)

Lemma at_add s p n m : 0 <= n -> 0 <= m -> sr_lo s <= p -> at_ s p (n + m) = at_ s p n ++ at_ s (p + n) m.
Proof.
  intros. unfold at_, ztake, zdrop. rewrite Z2Nat.inj_add by lia.
  replace (Z.to_nat (p + n - sr_lo s)) with (Z.to_nat (p - sr_lo s) + Z.to_nat n)%nat by lia.
  rewrite <- drop_drop. by rewrite take_take_drop.
Qed.

Section wide.
Context {E : Type} (s : Src) (anchor lit_len : Z).
Context (Ha : sr_lo s <= anchor) (Hl : 0 <= lit_len) (He : anchor + lit_len + WILDCOPY_OVERLENGTH <= sr_end s).

(** The room with the first [op] bytes copied. *)
Definition copied (room : list Z) (op : Z) : Prop :=
  zlen room = lit_len + WILDCOPY_OVERLENGTH /\ ztake op room = at_ s anchor op.

Lemma lit_copy16_ok room op : 0 <= op -> op + 16 <= lit_len + WILDCOPY_OVERLENGTH -> copied room op ->
  returns (fun room' => copied room' (op + 16)) (lit_copy16 s anchor room op : res E _).
Proof.
  intros Hop Hle [Hr Ht]. unfold lit_copy16. rewrite src_slice_ok by lia. cbn [mbind res_bind].
  replace (anchor + op + 16 - (anchor + op)) with 16 by lia.
  assert (zlen (at_ s (anchor + op) 16) = 16) as H16 by (apply zlen_at; lia).
  rewrite copy_from_slice_eq by lia. cbn [returns]. unfold copied.
  rewrite !zlen_app, zlen_ztake, zlen_zdrop, H16 by lia. split; [lia|].
  rewrite at_add by lia. rewrite <- Ht, app_assoc, ztake_app_le by (rewrite zlen_app, zlen_ztake; lia).
  apply ztake_all. rewrite zlen_app, zlen_ztake; lia.
Qed.

Lemma wide_literals_ok : wide_literals s anchor lit_len = (Ok (at_ s anchor lit_len) : res E _).
Proof.
  unfold WILDCOPY_OVERLENGTH in *.
  assert (forall room op, copied room op -> lit_len <= op -> 0 <= op -> ztake lit_len room = at_ s anchor lit_len) as Hend.
  { intros room op [_ Ht] Hle Hop. rewrite <- (ztake_ztake room lit_len op), Ht by lia. unfold at_. by rewrite ztake_ztake by lia. }
  enough (returns (fun lits => lits = at_ s anchor lit_len) (wide_literals s anchor lit_len : res E _)) as H
    by (apply returns_inv in H as (? & -> & ->); done).
  unfold wide_literals. eapply returns_bind; [apply (lit_copy16_ok _ 0); [lia|unfold WILDCOPY_OVERLENGTH; lia|]|].
  { split; [rewrite zlen_zrepeat by (unfold WILDCOPY_OVERLENGTH; lia); done|done]. }
  intros room H16. apply (returns_bind (fun room => exists op, copied room op /\ lit_len <= op /\ 0 <= op)).
  2: { intros room' (op & Hc & Hle & Hop). cbn [returns]. by apply (Hend room' op). }
  destruct (Z.ltb_spec 16 lit_len); [|exists 16; by split_and!].
  eapply returns_bind; [apply (lit_copy16_ok room 16); [lia|unfold WILDCOPY_OVERLENGTH; lia|exact H16]|].
  intros room2 H32. destruct (Z.ltb_spec 16 (lit_len - 16)); [|exists 32; split_and!; (done || lia)].
  apply (returns_loopM (fun '(r, op) => copied r op /\ 32 <= op < lit_len) (fun '(_, op) => Z.to_nat (lit_len - op))).
  - split; [done|lia].
  - lia.
  - intros [r op] [Hc Hop]. unfold wide_step.
    eapply returns_bind; [apply (lit_copy16_ok r op); [lia|unfold WILDCOPY_OVERLENGTH; lia|done]|]. intros r1 H1.
    eapply returns_bind; [apply (lit_copy16_ok r1 (op + 16)); [lia|unfold WILDCOPY_OVERLENGTH; lia|done]|]. intros r2 H2.
    replace (op + 16 + 16) with (op + 32) in H2 by lia. cbn [returns].
    destruct (Z.leb_spec lit_len (op + 32)); [exists (op + 32); split_and!; (done || lia)|].
    split; [split; [done|lia]|lia].
Qed.
End wide.

(** ** A view of the input *)

Section view.
Context {E : Type} (data : list Z) (d : Z) (s : Src).

(** The source reads position [i - d] of the input at index [i]. *)
Record views : Prop := {
  vw_bytes : sr_bytes s = zdrop (sr_lo s - d) data;
  vw_data : bytes data;
  vw_lo : d <= sr_lo s;
  vw_end : sr_lo s - d <= zlen data;
}.

Hypothesis Hv : views.

Lemma views_wf : src_wf s.
Proof. destruct Hv as [Hb Hd _ _]. unfold src_wf. rewrite Hb. by apply Forall_drop. Qed.

Lemma views_end : sr_end s = zlen data + d.
Proof. destruct Hv as [Hb _ Hl He]. unfold sr_end. rewrite Hb, zlen_zdrop by lia. lia. Qed.

Lemma views_get p i : sr_lo s <= p -> 0 <= i -> zget (sr_bytes s) (p - sr_lo s + i) = zget data (p - d + i).
Proof. destruct Hv as [Hb _ Hl He]. intros. rewrite Hb, zget_zdrop by lia. f_equal. lia. Qed.

(** [n] bytes at two indices are the same. *)
Definition agree (p q n : Z) : Prop := forall i, 0 <= i < n -> zget data (p - d + i) = zget data (q - d + i).

Lemma agree_app p q n m : 0 <= n -> agree p q n -> agree (p + n) (q + n) m -> agree p q (n + m).
Proof.
  intros Hn H1 H2 i Hi. destruct (Z_lt_ge_dec i n); [by apply H1; lia|]. specialize (H2 (i - n) ltac:(lia)).
  replace (p + n - d + (i - n)) with (p - d + i) in H2 by lia. by replace (q + n - d + (i - n)) with (q - d + i) in H2 by lia.
Qed.

Lemma agree_word n p q : 0 <= n -> sr_lo s <= p -> sr_lo s <= q -> p + n <= sr_end s -> q + n <= sr_end s -> le_val (at_ s q n) = le_val (at_ s p n) -> agree p q n.
Proof.
  intros Hn Hp Hq He1 He2 Hw i Hi. pose proof (word_agree s views_wf n p q Hn Hp Hq He1 He2 Hw i Hi) as Ha. by rewrite !views_get in Ha by lia.
Qed.

Lemma agree_count avx2 p q limit : sr_lo s <= q < p -> p <= limit <= sr_end s ->
  returns (fun n => 0 <= n <= limit - p /\ agree p q n) (count avx2 s p q limit : res E Z).
Proof.
  intros Hq Hp. eapply returns_mono; [by apply (count_agree s views_wf)|]. cbn beta. intros n [Hn Ha]. split; [done|].
  intros i Hi. specialize (Ha i Hi). by rewrite !views_get in Ha by lia.
Qed.

Lemma agree_byte p q x y : sr_lo s <= p -> sr_lo s <= q -> zget (sr_bytes s) (p - sr_lo s) = Some x -> zget (sr_bytes s) (q - sr_lo s) = Some y -> x = y -> agree p q 1.
Proof.
  intros Hp Hq Hx Hy -> i Hi. replace i with 0 by lia. rewrite <- !views_get, !Z.add_0_r by lia. by rewrite Hx, Hy.
Qed.

(** ** The store *)

Lemma store_seq_ok deep window rep a store hist anchor iend ip0 ob ml :
  found deep window data rep a (ss_seqs store) (ss_lits store) hist (anchor - d) -> iend <= sr_end s -> iend - d - a <= 2 ^ 17 ->
  sr_lo s <= anchor <= ip0 -> 3 <= ml -> ip0 + ml <= iend -> 1 <= ob < 2 ^ 32 -> (deep = true \/ 3 < ob \/ ob + Z.b2z (ip0 =? anchor) <= 2) ->
  let '(o, hist') := repcode hist ob (ip0 =? anchor) in
  plain_offset o -> o <= window -> o <= ip0 - d -> agree ip0 (ip0 - o) ml ->
  returns (fun store' => found deep window data rep a (ss_seqs store') (ss_lits store') hist' (ip0 + ml - d)) (store_seq store s anchor (ip0 - anchor) iend ob ml : res E _).
Proof.
  intros Hf Hend Hlen Ha Hml He Hob Hck. pose proof Hf as [[Ha0 Ha1] _ _ _ _ _ _]. change (2 ^ 17) with 131072 in *. pose proof views_end as Hve. rewrite Hve in Hend.
  assert (wrap 32 (ip0 - anchor) = ip0 - anchor /\ wrap 32 (ml - ZSTD_MINMATCH) = ml - 3) as [W1 W2]
    by (unfold ZSTD_MINMATCH; split; apply wrap_small; change (2 ^ 32) with 4294967296; lia).
  pose proof (found_snoc deep window data rep a _ _ _ _ (ip0 - anchor) ob ml Hf (vw_data Hv)) as Hsn. change (2 ^ 17) with 131072 in Hsn.
  replace (ip0 =? anchor) with (ip0 - anchor =? 0) in * by (destruct (Z.eqb_spec (ip0 - anchor) 0), (Z.eqb_spec ip0 anchor); (done || lia)).
  specialize (Hsn ltac:(lia) ltac:(lia) ltac:(lia) Hob). destruct (repcode hist ob (ip0 - anchor =? 0)) as [o hist'].
  intros Ho Hw Hfar Hag. unfold store_seq. rewrite (proj2 (Z.leb_le 1 ob)), (proj2 (Z.leb_le ZSTD_MINMATCH ml)), (proj2 (Z.leb_le (sr_lo s) anchor)),
    (proj2 (Z.leb_le (anchor + (ip0 - anchor)) iend)), (proj2 (Z.leb_le iend (sr_end s))) by (unfold ZSTD_MINMATCH; lia). cbn [andb rassert mbind res_bind].
  cbv zeta. match goal with |- returns _ (lits ← ?m; _) => assert (m = Ok (at_ s anchor (ip0 - anchor))) as -> end.
  { destruct (Z.leb_spec (anchor + (ip0 - anchor) + WILDCOPY_OVERLENGTH) (Z.min iend (sr_end s))); [by (apply wide_literals_ok; lia)|].
    rewrite src_slice_ok by lia. do 2 f_equal. lia. }
  cbn [mbind res_bind returns ss_seqs ss_lits]. rewrite W1, W2.
  replace (at_ s anchor (ip0 - anchor)) with (ztake (ip0 - anchor) (zdrop (anchor - d) data)).
  2: { unfold at_, ztake, zdrop. rewrite (vw_bytes Hv). unfold zdrop. rewrite drop_drop. do 2 f_equal. pose proof (vw_lo Hv). lia. }
  replace (ip0 + ml - d) with (anchor - d + (ip0 - anchor) + ml) by lia. apply Hsn; [unfold code_kept; cbn; tauto|done|done|lia|].
  intros i Hi. replace (anchor - d + (ip0 - anchor) + i) with (ip0 - d + i) by lia. rewrite (Hag i Hi). f_equal. lia.
Qed.
End view.

(** ** What the block compressors' proofs share

    The bounds a block's search is given, the accesses it makes within them,
    the backwards count, and the block a compressor is handed by
    [build_seq_store] with what it makes of it. *)

From S2P Require Import SeqExec SeqRun Params Window MatchState.

(** The backwards count of a match: on, or where it starts and its
    length. *)
Definition catch_up_step {E} (src : Src) (anchor low_match : Z) (st : Z * Z * Z) : res E (Z * Z * Z + Z * Z * Z) :=
  let '(ip0, match0, m_length) := st in
  if (anchor <? ip0) && (low_match <? match0) then
    x ← src_byte src (ip0 - 1);
    y ← src_byte src (match0 - 1);
    Ok (if x =? y then inl (ip0 - 1, match0 - 1, m_length + 1) else inr st)
  else Ok (inr st).

(** ** The repeat offsets *)

(** The offsets a block leaves, from those it disabled: [rep[0]] and
    [rep[1]]. *)
Definition rep_after1 (saved1 rep1 : Z) : Z := if negb (rep1 =? 0) then rep1 else saved1.
Definition rep_after2 (saved1 saved2 rep1 rep2 : Z) : Z :=
  if negb (rep2 =? 0) then rep2
  else if negb (saved1 =? 0) && negb (rep1 =? 0) then saved1 else saved2.

(** ** Table accesses *)

Definition tbl (hlog : Z) (t : list Z) : Prop := zlen t = 2 ^ hlog /\ Forall word t.

Section tables.
Context {E : Type} (hlog : Z).

Lemma tget_tbl t h : tbl hlog t -> 0 <= h < 2 ^ hlog -> returns word (tget t h : res E Z).
Proof.
  intros [Hl Hw] Hh. destruct (zget_is_Some t h ltac:(lia)) as [x Hx]. unfold tget. rewrite (idx_ok t h x Hx). by eapply (Forall_zget word).
Qed.

Lemma tset_tbl t h v : tbl hlog t -> 0 <= h < 2 ^ hlog -> returns (tbl hlog) (tset t h v : res E _).
Proof.
  intros [Hl Hw] Hh. unfold tset. rewrite store_ok by lia. split; [by rewrite zlen_zset|]. apply Forall_zset; [done|]. apply Z.mod_pos_bound. done.
Qed.
End tables.

Lemma flip_differs x : Z.lxor x 1 <> x.
Proof. intros H. apply (f_equal (fun y => Z.lxor y x)) in H. rewrite Z.lxor_nilpotent, (Z.lxor_comm x 1), Z.lxor_assoc, Z.lxor_nilpotent in H. done. Qed.

(** ** The search of a block *)

Section search.
Context {E : Type} (data : list Z) (d : Z) (s : Src) (Hv : views data d s).
Context (ps istart iend window : Z).

(** The block and the bounds its search is given. *)
Record search_in : Prop := {
  si_low : 2 <= sr_lo s <= ps;
  si_block : ps <= istart /\ istart + 2 <= iend /\ iend <= sr_end s;
  si_width : iend <= CURRENT_MAX;
  si_length : iend - istart <= 2 ^ 17;
  si_window : iend - ps <= window;
  si_half : window <= 2 ^ 31;
}.

Hypothesis Hin : search_in.

Lemma hash_in hlog mls p : 1 <= hlog <= 32 -> sr_lo s <= p -> p + 8 <= iend -> returns (fun h => 0 <= h < 2 ^ hlog) (hash_ptr mls s p hlog : res E Z).
Proof. destruct Hin. intros. apply hash_ptr_ok; lia. Qed.

(** A candidate is valid as its bounds say. *)
Lemma candidate_ok low cur m : ps <= low <= cur -> cur <= iend -> word m -> candidate_valid m low cur = (Ok ((low <=? m) && (m <? cur)) : res E bool).
Proof.
  destruct Hin as [? ? Hw ? ? ?]. change CURRENT_MAX with 3670016000 in Hw. unfold word. change (2 ^ 32) with 4294967296. intros Hc He Hm.
  unfold candidate_valid. rewrite (proj2 (Z.leb_le low cur)) by lia. cbn [rassert mbind res_bind]. f_equal.
  unfold wsub, wrap. destruct (Z.leb_spec low m); cbn [andb].
  - rewrite Z.mod_small by (change (2 ^ 64) with 18446744073709551616; lia). destruct (Z.ltb_spec (m - low) (cur - low)), (Z.ltb_spec m cur); (done || lia).
  - apply Z.ltb_ge. rewrite <- (Z.mod_unique (m - low) (2 ^ 64) (-1) (m - low + 2 ^ 64)); change (2 ^ 64) with 18446744073709551616; lia.
Qed.

(** The backwards count keeps the distance. *)
Lemma catch_up_ok anchor low ip0 m n0 : sr_lo s <= anchor <= ip0 -> sr_lo s <= low <= m -> m < ip0 -> 0 <= n0 -> ip0 + n0 <= iend -> ip0 < iend -> agree data d ip0 m n0 ->
  returns (fun '(ip, m', n) => anchor <= ip <= ip0 /\ low <= m' /\ ip - m' = ip0 - m /\ ip + n = ip0 + n0 /\ agree data d ip m' n)
    (loopM (S (Z.to_nat ip0)) (catch_up_step s anchor low) (ip0, m, n0) : res E _).
Proof.
  intros Ha Hl Hm Hn He Hlt Hag. pose proof Hin as [? ? ? ? ? ?].
  apply (returns_loopM (fun '(ip, m', n) => anchor <= ip <= ip0 /\ low <= m' /\ ip - m' = ip0 - m /\ ip + n = ip0 + n0 /\ agree data d ip m' n) (fun st => Z.to_nat st.1.1)).
  - split_and!; (lia || done).
  - cbn. lia.
  - intros [[ip m'] n] (H1 & H2 & H3 & H4 & H5). unfold catch_up_step.
    destruct ((anchor <? ip) && (low <? m')) eqn:Hg; [|done]. bools.
    destruct (src_byte_ok (E:=E) s (views_wf data d s Hv) (ip - 1) ltac:(lia)) as (vx & Hvx & _ & -> & _).
    destruct (src_byte_ok (E:=E) s (views_wf data d s Hv) (m' - 1) ltac:(lia)) as (vy & Hvy & _ & -> & _). cbn [mbind res_bind returns].
    destruct (Z.eqb_spec vx vy) as [Hxy|]; [|done]. split; [|cbn; lia]. split_and!; try lia.
    rewrite Z.add_comm. apply agree_app; [lia| |].
    + apply (agree_byte data d s Hv _ _ vx vy); (lia || done).
    + replace (ip - 1 + 1) with ip by lia. by replace (m' - 1 + 1) with m' by lia.
Qed.

(** How far back an offset may reach at a position. *)
Definition reaches (r ip : Z) : Prop := 0 <= r <= ip - sr_lo s /\ r <= window.

Lemma reaches_mono r p q : reaches r p -> p <= q -> reaches r q.
Proof. intros [? ?] ?. split; lia. Qed.

(** A match that is stored. *)
Lemma store_ok_at rep out hist anchor ip0 ob ml o hist' :
  found false window data rep (istart - d) (ss_seqs out) (ss_lits out) hist (anchor - d) -> istart <= anchor <= ip0 -> ps < ip0 -> 4 <= ml -> ip0 + ml <= iend ->
  repcode hist ob (ip0 =? anchor) = (o, hist') -> 1 <= ob < 2 ^ 32 -> 3 < ob \/ ob + Z.b2z (ip0 =? anchor) <= 2 -> 1 <= o -> reaches o ip0 -> agree data d ip0 (ip0 - o) ml ->
  returns (fun out' => found false window data rep (istart - d) (ss_seqs out') (ss_lits out') hist' (ip0 + ml - d)) (store_seq out s anchor (ip0 - anchor) iend ob ml : res E _).
Proof.
  intros Hf Ha Hp Hml He Hr Hob Hc Ho [Ho1 Ho2] Hag. pose proof Hin as [? ? ? ? ? Hh]. pose proof (vw_lo _ _ _ Hv). change (2 ^ 31) with 2147483648 in Hh.
  pose proof (store_seq_ok (E:=E) data d s Hv false window rep (istart - d) out hist anchor iend ip0 ob ml Hf ltac:(lia) ltac:(lia) ltac:(lia) ltac:(lia) He Hob ltac:(tauto)) as Hs.
  rewrite Hr in Hs. apply Hs; [unfold plain_offset; change (2 ^ 32) with 4294967296; lia|lia|lia|done].
Qed.

(** The code of an offset that a candidate gives, and the history after. *)
Lemma offset_code o : 1 <= o <= window -> (offset_to_offbase o : res E Z) = Ok (o + 3) /\ 3 < o + 3 < 2 ^ 32.
Proof.
  destruct Hin as [? ? ? ? ? Hh]. change (2 ^ 31) with 2147483648 in Hh. change (2 ^ 32) with 4294967296. intros Ho. unfold offset_to_offbase. rewrite (proj2 (Z.ltb_lt 0 o)) by lia. cbn [rassert mbind res_bind].
  unfold wadd. rewrite wrap_small by (change (2 ^ 32) with 4294967296; lia). split; [done|lia].
Qed.

Lemma offset_hist saved1 saved2 rep1 rep2 h2 o ll0 : hist_ok [rep_after1 saved1 rep1; rep_after2 saved1 saved2 rep1 rep2; h2] -> 1 <= o ->
  repcode [rep_after1 saved1 rep1; rep_after2 saved1 saved2 rep1 rep2; h2] (o + 3) ll0 =
    (o, [rep_after1 saved1 o; rep_after2 saved1 saved2 o rep1; rep_after2 saved1 saved2 rep1 rep2]).
Proof.
  intros (x0 & x1 & x2 & [= <- <- <-] & Hx & _) Ho. cbn [repcode]. rewrite (proj2 (Z.ltb_lt 3 (o + 3))) by lia. replace (o + 3 - 3) with o by lia. do 2 f_equal.
  - unfold rep_after1. by rewrite (proj2 (Z.eqb_neq o 0)) by lia.
  - unfold rep_after1, rep_after2 in *. rewrite (proj2 (Z.eqb_neq o 0)) by lia. cbn [negb]. destruct (negb (rep1 =? 0)); [done|]. by rewrite (proj2 (Z.eqb_neq saved1 0)) by lia.
Qed.
End search.

(** ** The block a compressor is handed *)

(** What a block compressor makes of an entered block: its state is at the
    block's end, and the store it fills executes to the bytes before its
    anchor. *)
Definition block_found (deep : bool) (ms : MatchState) (data : list Z) (a b d : Z) (rep : list Z) (r : MatchState * SeqStore * list Z * Z) : Prop :=
  let '(ms', store, rep', anchor) := r in
  ms_entered ms' a b d /\ ms_cparams ms' = ms_cparams ms /\ anchor - d <= b /\
  exists hist, found deep (2 ^ window_log (ms_cparams ms)) data rep a (ss_seqs store) (ss_lits store) hist (anchor - d) /\ rep_linked deep rep' hist.

(** A block whose sequences are searched for, entered. *)
Record block_in (ms : MatchState) (data : list Z) (a b d : Z) (s : Src) : Prop := {
  bi_entered : ms_entered ms a b d;
  bi_data : bytes data /\ b <= zlen data;
  bi_length : 2 <= b - a <= 2 ^ 17 /\ b - a <= 2 ^ window_log (ms_cparams ms);
  bi_src : s = MkSrc (zdrop (w_low (ms_window ms) - d) data) (w_low (ms_window ms));
}.

Lemma shifted k : 0 <= k <= 30 -> wshl 64 1 k = 2 ^ k.
Proof.
  intros Hk. unfold wshl. rewrite Z.shiftl_mul_pow2, Z.mul_1_l by lia. pose proof (Z.pow_pos_nonneg 2 k ltac:(lia) ltac:(lia)).
  apply wrap_small. split; [lia|]. apply Z.pow_lt_mono_r; lia.
Qed.

Lemma hash_table_ok ms : ms_tables ms -> tbl (hash_log (ms_cparams ms)) (ws_hash (ms_ws ms)) /\ wshl 64 1 (hash_log (ms_cparams ms)) = 2 ^ hash_log (ms_cparams ms).
Proof.
  intros [[_ _ Hh _ _ _] [H1 (H2 & H3 & H4 & H5) H6 H7] _]. unfold ZSTD_HASHLOG_MIN in Hh. split; [|apply shifted; lia].
  split; [|by apply Forall_take]. unfold ws_hash. rewrite zlen_ztake by lia. apply H1.
Qed.

(** Tables written back. *)
Lemma put_table_ok ms off t : ms_tables ms -> 0 <= off -> off + zlen t <= hash3_off (ws_layout (ms_ws ms)) + hash3_len (ws_layout (ms_ws ms)) -> Forall word t ->
  ms_tables (ms_with_ws ms (put_words (ms_ws ms) off t)).
Proof.
  intros [Hcp [H1 H2 H6 H7] Hv] Ho Hl Hw. destruct (put_words_ok (ms_ws ms) off t) as [L F]; [lia|lia|done|done|].
  split; [done| |done]. split; cbn [ms_ws ms_with_ws ms_cparams ws_layout put_words]; [done|done| |exact F].
  unfold put_words in L. cbn [ws_words] in L. cbn [ws_words put_words]. lia.
Qed.

Lemma put_hash_ok ms t : ms_tables ms -> tbl (hash_log (ms_cparams ms)) t -> ms_tables (ms_with_ws ms (put_words (ms_ws ms) 0 t)).
Proof.
  intros Hm [Hl Hw]. apply put_table_ok; [done|done| |done]. destruct Hm as [_ [[H1 _] (H2 & H3 & H4 & H5) H6 H7] _]. lia.
Qed.

(** The chain table, which [DFast] hashes into. *)
Lemma chain_table_ok ms : ms_tables ms -> strategy (ms_cparams ms) = DFast ->
  tbl (chain_log (ms_cparams ms)) (ws_chain (ms_ws ms)) /\ wshl 64 1 (chain_log (ms_cparams ms)) = 2 ^ chain_log (ms_cparams ms).
Proof.
  intros [[_ Hc _ _ _ _] [[_ H1] (H2 & H3 & H4 & H5) H6 H7] _] Hs. split; [|apply shifted; lia].
  split; [|by apply Forall_take, Forall_drop]. unfold ws_chain. rewrite zlen_ztake; [by apply H1|]. rewrite zlen_zdrop by lia. lia.
Qed.

Lemma put_chain_ok ms t : ms_tables ms -> strategy (ms_cparams ms) = DFast -> tbl (chain_log (ms_cparams ms)) t ->
  ms_tables (ms_with_ws ms (put_words (ms_ws ms) (chain_off (ws_layout (ms_ws ms))) t)).
Proof.
  intros Hm Hs [Hl Hw]. pose proof Hm as [_ [[_ H1] (H2 & H3 & H4 & H5) H6 H7] _]. apply put_table_ok; [done|lia| |done]. rewrite Hl, <- H1 by done. lia.
Qed.

Lemma block_in_views ms data a b d s : block_in ms data a b d s -> views data d s /\ 2 <= sr_lo s <= a + d /\ b + d <= sr_end s /\ b + d <= CURRENT_MAX.
Proof.
  intros [[_ [[_ _ [Hl Hl0] Hm _ _] [Hla Hab]]] [Hd Hb] _ ->]. change WINDOW_START_INDEX with 2 in *.
  assert (views data d (MkSrc (zdrop (w_low (ms_window ms) - d) data) (w_low (ms_window ms)))) as Hv by (split; cbn; (done || lia)).
  split; [done|]. rewrite (views_end _ _ _ Hv). cbn [sr_lo]. lia.
Qed.

Section block.
Context (ms : MatchState) (data : list Z) (a b d : Z) (s : Src).
Context (Hin : block_in ms data a b d s).

Lemma ms_lowest_ok cur : a + d <= cur < b + d ->
  let l := ms_lowest_match_index ms cur in sr_lo s <= l <= a + d /\ cur - l < 2 ^ window_log (ms_cparams ms).
Proof.
  intros Hc. destruct Hin as [[[Hcp _ _] Hw] _ [Hl1 Hl2] ->]. destruct (wshl_log _ Hcp) as (Hwl & _ & E64). unfold ms_lowest_match_index. rewrite E64.
  destruct (lowest_ok _ a b d (window_log (ms_cparams ms)) cur Hw Hc Hwl Hl2) as (H1 & H2 & _). cbn [sr_lo]. cbv zeta. lia.
Qed.

(** The bounds of its search. *)
Lemma block_search : search_in s (ms_lowest_match_index ms (b + d - 1)) (a + d) (b + d) (2 ^ window_log (ms_cparams ms)).
Proof.
  destruct (block_in_views _ _ _ _ _ _ Hin) as (Hv & Hlo & Hend & Hmax). pose proof Hin as [Hent [Hd Hb] [[Hl1 Hl2] Hl3] _]. pose proof Hent as [[Hcp _ _] _].
  destruct (wshl_log _ Hcp) as (Hwl & _). assert (2 ^ window_log (ms_cparams ms) <= 2 ^ 31) by (apply Z.pow_le_mono_r; lia).
  destruct (ms_lowest_ok (b + d - 1) ltac:(lia)). split; (done || lia).
Qed.

(** A repeat offset is usable from the first position searched, or
    disabled. *)
Lemma block_rep ip0 r : a + d <= ip0 < b + d -> 1 <= r < 2 ^ 32 ->
  exists v sv, (if wrap 32 (ip0 - ms_lowest_match_index ms ip0) <? r then (0, r) else (r, 0)) = (v, sv) /\
    reaches s (2 ^ window_log (ms_cparams ms)) v ip0 /\ r = rep_after1 sv v /\ (sv = 0 \/ v = 0).
Proof.
  intros Hip Hr. destruct (block_in_views _ _ _ _ _ _ Hin) as (_ & Hlo & _ & Hmax). change CURRENT_MAX with 3670016000 in Hmax. destruct (ms_lowest_ok ip0 Hip) as [Hl1 Hl2].
  rewrite wrap_small by (change (2 ^ 32) with 4294967296; lia). unfold reaches, rep_after1.
  destruct (Z.ltb_spec (ip0 - ms_lowest_match_index ms ip0) r); do 2 eexists; (split; [done|]); split_and!; try lia; try by rewrite (proj2 (Z.eqb_neq r 0)) by lia. all: cbn; lia.
Qed.
End block.

(** Both repeat offsets at the block's start, as the history. *)
Lemma rep_start saved1 saved2 v1 v2 r0 r1 : r0 = rep_after1 saved1 v1 -> saved1 = 0 \/ v1 = 0 -> r1 = rep_after1 saved2 v2 ->
  r0 = rep_after1 saved1 v1 /\ r1 = rep_after2 saved1 saved2 v1 v2.
Proof.
  intros -> Hz ->. split; [done|]. unfold rep_after1, rep_after2. destruct (negb (v2 =? 0)); [done|].
  destruct Hz as [-> | ->]; cbn; by rewrite ?andb_false_r.
Qed.

(** The offsets the block leaves are linked to the history. *)
Lemma rep_end k1 k2 r2 h2 : hist_ok [k1; k2; h2] -> 1 <= r2 < 2 ^ 32 -> rep_linked false [k1; k2; r2] [k1; k2; h2].
Proof. intros (x0 & x1 & x2 & [= <- <- <-] & X0 & X1 & X2) Hr. split_and!; [by exists k1, k2, r2|by exists k1, k2, h2|done|done]. Qed.

(** Without a dictionary, none is in reach. *)
Lemma no_ext_dict ms a b d : ms_entered ms a b d -> ext_dict_in_reach ms (b + d) = false.
Proof.
  intros [_ [[_ _ _ _ _ [Hd Hl]] _]]. unfold ext_dict_in_reach, ms_lowest_match_index, lowest_match_index. rewrite Hl, Hd. cbn [negb Z.eqb]. apply Z.ltb_ge. lia.
Qed.
