(* ===== verification/Fast.v ===== *)
(** * The fast strategy ([src/compress/fast.rs])

    The single hash table search of a block: the pipelined search loop, the
    catch-up, the table fill and the immediate repeat codes, with and
    without dictionary content in reach. The searches against an attached
    dictionary are not modelled. Then the proof that it finds the block. *)

From S2P Require Import Prelude Words Constants Errors Params Split Window MatchCommon MatchState Search.

Definition K_STEP_INCR : Z := Z.shiftl 1 (K_SEARCH_STRENGTH - 1).

(** The entry condition of [candidate_valid] and [match4_found]. *)
Definition match4_found {E} (CMOV : bool) (src : Src) (cur match_idx idx_low_limit : Z) : res E bool :=
  valid ← candidate_valid match_idx idx_low_limit cur;
  mval ← (if CMOV : bool then
            v ← read32 src (if valid : bool then match_idx else cur);
            Ok (Z.lxor v (Z.b2z (negb valid)))
          else if valid : bool then read32 src match_idx
          else v ← read32 src cur; Ok (Z.lxor v 1));
  v ← read32 src cur;
  Ok (v =? mval).

(** [Found], how the search loop exited. *)
Inductive Found :=
| FoundRep (match0 m_length : Z)
| FoundOffset
| FoundOffsetExt (hash1 ip1 : Z)
| FoundCleanup.

(** The variables of the search loop, and those it leaves. *)
Record Search := MkSearch {
  se_table : list Z;
  se_ip0 : Z;
  se_ip2 : Z;
  se_step : Z;
  se_next_step : Z;
  se_hash0 : Z;
  se_hash1 : Z;
  se_match_idx : Z;
}.

Record SearchEnd := MkEnd {
  en_table : list Z;
  en_ip0 : Z;
  en_current0 : Z;
  en_match_idx : Z;
  en_found : Found;
}.

(** A match before its forward count, with the repeat offsets after it. *)
Record Match := MkMatch {
  ma_ip0 : Z;
  ma_match0 : Z;
  ma_offcode : Z;
  ma_length : Z;
  ma_rep1 : Z;
  ma_rep2 : Z;
  ma_ext_next : option (Z * Z);
}.

(** The variables of the [start] loop. *)
Record FastState := MkFast {
  fa_table : list Z;
  fa_anchor : Z;
  fa_ip0 : Z;
  fa_rep1 : Z;
  fa_rep2 : Z;
  fa_out : SeqStore;
}.

Section fast.
Context {E : Type} (MLS : Z) (CMOV EXT avx2 : bool) (src : Src).
Context (hlog step_size prefix_start dict_limit iend : Z).

Definition fast_ilimit : Z := Z.max 0 (iend - HASH_READ_SIZE).

(** The 4 bytes a repeat code at [ip2] would match, or some that do not. *)
Definition rep_rval (rep1 ip2 : Z) : res E Z :=
  if EXT : bool then
    let rep_index := wsub 32 (wrap 32 ip2) rep1 in
    if (4 <=? wsub 32 (wrap 32 dict_limit) rep_index) && (0 <? rep1) then read32 src rep_index
    else v ← read32 src ip2; Ok (Z.lxor v 1)
  else v ← read32 src (ip2 - rep1); Ok (Z.lxor v (Z.b2z (rep1 =? 0))).

(** One round of the search loop. *)
Definition search_step (rep1 : Z) (s : Search) : res E (Search + SearchEnd) :=
  let '(MkSearch table ip0 ip2 step next_step hash0 hash1 match_idx) := s in
  rval ← rep_rval rep1 ip2;
  let current0 := ip0 in
  table ← tset table hash0 current0;
  v ← read32 src ip2;
  if v =? rval then
    let ip1 := ip0 + 1 in
    let ip0 := ip2 in
    let match0 := ip0 - rep1 in
    x ← src_byte src (ip0 - 1);
    y ← src_byte src (match0 - 1);
    let m_length := Z.b2z (x =? y) in
    table ← tset table hash1 ip1;
    Ok (inr (MkEnd table (ip0 - m_length) current0 match_idx (FoundRep (match0 - m_length) (m_length + 4))))
  else
  hit ← match4_found CMOV src ip0 match_idx prefix_start;
  if hit : bool then
    table ← tset table hash1 (ip0 + 1);
    Ok (inr (MkEnd table ip0 current0 match_idx FoundOffset))
  else
  match_idx ← tget table hash1;
  let hash0 := hash1 in
  hash1 ← hash_ptr MLS src ip2 hlog;
  let ip0 := ip0 + 1 in
  let current0 := ip0 in
  table ← tset table hash0 current0;
  hit ← match4_found CMOV src ip0 match_idx prefix_start;
  if hit : bool then
    if EXT then Ok (inr (MkEnd table ip0 current0 match_idx (FoundOffsetExt hash1 ip2)))
    else
      table ← (if step <=? 4 then tset table hash1 ip2 else Ok table);
      Ok (inr (MkEnd table ip0 current0 match_idx FoundOffset))
  else
  match_idx ← tget table hash1;
  let hash0 := hash1 in
  hash1 ← hash_ptr MLS src (ip2 + 1) hlog;
  let ip0 := ip2 in
  let ip2 := ip2 + step in
  let '(step, next_step) := if next_step <=? ip2 then (step + 1, next_step + K_STEP_INCR) else (step, next_step) in
  if fast_ilimit <=? ip2 + 1 then Ok (inr (MkEnd table ip0 current0 match_idx FoundCleanup))
  else Ok (inl (MkSearch table ip0 ip2 step next_step hash0 hash1 match_idx)).

(** [_offset]: the match of the hash table. *)
Definition offset_match (st : FastState) (en : SearchEnd) (ext_next : option (Z * Z)) : res E Match :=
  let match0 := en_match_idx en in
  let rep2 := fa_rep1 st in
  let rep1 := wrap 32 (en_ip0 en - match0) in
  offcode ← offset_to_offbase rep1;
  let low_match := if EXT && (dict_limit <=? match0) then dict_limit else prefix_start in
  '(ip0, match0, m_length) ← loopM (S (Z.to_nat (en_ip0 en))) (catch_up_step src (fa_anchor st) low_match) (en_ip0 en, match0, 4);
  Ok (MkMatch ip0 match0 offcode m_length rep1 rep2 ext_next).

(** The immediate repeat codes after a match. *)
Definition immediate_step (st : FastState) : res E (FastState + FastState) :=
  let '(MkFast table anchor ip0 rep1 rep2 out) := st in
  if (ip0 <=? fast_ilimit) && (negb EXT || index_overlap_check dict_limit (wsub 32 (wrap 32 ip0) rep2)) then
    x ← read32 src ip0;
    y ← read32 src (ip0 - rep2);
    if x =? y then
      n ← count avx2 src (ip0 + 4) (ip0 + 4 - rep2) iend;
      let r_length := n + 4 in
      let '(rep1, rep2) := (rep2, rep1) in
      h ← hash_ptr MLS src ip0 hlog;
      table ← tset table h ip0;
      out ← store_seq out src anchor 0 iend REPCODE1_TO_OFFBASE r_length;
      let ip0 := ip0 + r_length in
      Ok (inl (MkFast table ip0 ip0 rep1 rep2 out))
    else Ok (inr st)
  else Ok (inr st).

(** The table fill after a match, and the immediate repeat codes. *)
Definition after_match (current0 : Z) (st : FastState) : res E FastState :=
  let ip0 := fa_ip0 st in
  if ip0 <=? fast_ilimit then
    h ← hash_ptr MLS src (current0 + 2) hlog;
    table ← tset (fa_table st) h (current0 + 2);
    h ← hash_ptr MLS src (ip0 - 2) hlog;
    table ← tset table h (ip0 - 2);
    let st := MkFast table (fa_anchor st) ip0 (fa_rep1 st) (fa_rep2 st) (fa_out st) in
    if 0 <? fa_rep2 st then loopM (S (Z.to_nat (iend - ip0))) immediate_step st else Ok st
  else Ok st.

(** [_match]: the forward count, the sequence and what follows it. *)
Definition take_match (st : FastState) (table : list Z) (current0 : Z) (m : Match) : res E FastState :=
  n ← count avx2 src (ma_ip0 m + ma_length m) (ma_match0 m + ma_length m) iend;
  let m_length := ma_length m + n in
  out ← store_seq (fa_out st) src (fa_anchor st) (ma_ip0 m - fa_anchor st) iend (ma_offcode m) m_length;
  let ip0 := ma_ip0 m + m_length in
  table ← match ma_ext_next m with
          | Some (hash1, ip1) => if ip1 <? ip0 then tset table hash1 ip1 else Ok table
          | None => Ok table
          end;
  after_match current0 (MkFast table ip0 ip0 (ma_rep1 m) (ma_rep2 m) out).

(** The search from [ip0] on. *)
Definition search (st : FastState) : res E SearchEnd :=
  let ip0 := fa_ip0 st in
  hash0 ← hash_ptr MLS src ip0 hlog;
  hash1 ← hash_ptr MLS src (ip0 + 1) hlog;
  match_idx ← tget (fa_table st) hash0;
  loopM (S (Z.to_nat (iend - ip0))) (search_step (fa_rep1 st))
    (MkSearch (fa_table st) ip0 (ip0 + step_size) step_size (ip0 + K_STEP_INCR) hash0 hash1 match_idx).

(** One round of the [start] loop. *)
Definition start_step (st : FastState) : res E (FastState + FastState) :=
  if fast_ilimit <=? fa_ip0 st + step_size + 1 then Ok (inr st)
  else
    en ← search st;
    m ← match en_found en with
        | FoundCleanup => Ok None
        | FoundRep match0 m_length => Ok (Some (MkMatch (en_ip0 en) match0 REPCODE1_TO_OFFBASE m_length (fa_rep1 st) (fa_rep2 st) None))
        | FoundOffset => m ← offset_match st en None; Ok (Some m)
        | FoundOffsetExt hash1 ip1 => m ← offset_match st en (Some (hash1, ip1)); Ok (Some m)
        end;
    match m with
    | None => Ok (inr (MkFast (en_table en) (fa_anchor st) (en_ip0 en) (fa_rep1 st) (fa_rep2 st) (fa_out st)))
    | Some m => st ← take_match st (en_table en) (en_current0 en) m; Ok (inl st)
    end.
End fast.

(** [compress_block_generic], with the repeat offsets after the block and
    the anchor. *)
Definition compress_block_generic {E} (MLS : Z) (CMOV EXT avx2 : bool) (ms : MatchState) (src : Src) (block : Z * Z) (rep : list Z) (out : SeqStore) :
  res E (MatchState * SeqStore * list Z * Z) :=
  let hlog := hash_log (ms_cparams ms) in
  let target_length := target_length (ms_cparams ms) in
  let step_size := target_length + Z.b2z (target_length =? 0) + 1 in
  let '(istart, iend) := block in
  _ ← rassert ((istart <=? iend) && (iend <=? sr_end src));
  _ ← rassert ((1 <=? hlog) && (hlog <=? 32));
  let prefix_start := ms_lowest_match_index ms (iend - 1) in
  let dict_limit := w_dict_limit (ms_window ms) in
  let ip0 := istart + Z.b2z (istart =? prefix_start) in
  rep0 ← idx rep 0;
  rep1 ← idx rep 1;
  let max_rep := wrap 32 (if EXT : bool then ip0 - prefix_start else ip0 - ms_lowest_match_index ms ip0) in
  let '(rep_offset2, offset_saved2) := if max_rep <? rep1 then (0, rep1) else (rep1, 0) in
  let '(rep_offset1, offset_saved1) := if max_rep <? rep0 then (0, rep0) else (rep0, 0) in
  let hash_table := ws_hash (ms_ws ms) in
  _ ← rassert (zlen hash_table =? wshl 64 1 hlog);
  st ← loopM (S (S (Z.to_nat (iend - istart)))) (start_step MLS CMOV EXT avx2 src hlog step_size prefix_start dict_limit iend)
         (MkFast hash_table istart ip0 rep_offset1 rep_offset2 out);
  let offset_saved2 := if negb (offset_saved1 =? 0) && negb (fa_rep1 st =? 0) then offset_saved1 else offset_saved2 in
  rep ← store rep 0 (if negb (fa_rep1 st =? 0) then fa_rep1 st else offset_saved1);
  rep ← store rep 1 (if negb (fa_rep2 st =? 0) then fa_rep2 st else offset_saved2);
  Ok (ms_with_ws ms (put_words (ms_ws ms) 0 (fa_table st)), fa_out st, rep, fa_anchor st).

(** [compress_block_level]. *)
Definition compress_block_level {E} (EXT avx2 : bool) (ms : MatchState) (src : Src) (block : Z * Z) (rep : list Z) (out : SeqStore) :
  res E (MatchState * SeqStore * list Z * Z) :=
  let mm := min_match (ms_cparams ms) in
  let MLS := if (mm =? 5) || (mm =? 6) || (mm =? 7) then mm else 4 in
  let use_cmov := negb EXT && (window_log (ms_cparams ms) <? 19) in
  compress_block_generic MLS use_cmov EXT avx2 ms src block rep out.

(** [compress_block]; [avx2] tells the machine's level. *)
Definition compress_block_fast {E} (avx2 : bool) (ms : MatchState) (src : Src) (block : Z * Z) (rep : list Z) (out : SeqStore) :
  res E (MatchState * SeqStore * list Z * Z) :=
  compress_block_level (ext_dict_in_reach ms block.2) avx2 ms src block rep out.

(** ** The fast strategy finds the block's sequences

    For a block without dictionary content in reach, the search ends, reads
    and writes in bounds, and what it stores executes to the bytes before
    its anchor; the two repeat offsets it maintains are the decoder's. *)

From S2P Require Import SeqExec SeqDecode SeqRun FseEncode SeqStream SeqSection BlockEncode BlockRound Finder.

Section search.
Context {E : Type} (data : list Z) (d : Z) (s : Src) (Hv : views data d s).
Context (MLS : Z) (CMOV avx2 : bool) (hlog step_size ps dl istart iend window : Z).
Context (Hin : search_in s ps istart iend window) (Hhash : 1 <= hlog <= 32) (Hstep : 2 <= step_size).

Lemma match4_ok cur m : ps <= cur -> cur + 4 <= iend -> word m ->
  returns (fun b => b = true -> ps <= m < cur /\ agree data d cur m 4) (match4_found CMOV s cur m ps : res E bool).
Proof.
  intros Hc He Hm. pose proof Hin as [? ? ? ? ? ?]. unfold match4_found. rewrite (candidate_ok s ps istart iend window Hin ps) by (done || lia). cbn [mbind res_bind].
  rewrite (read32_ok s cur) by lia. cbn [mbind res_bind]. destruct (Z.leb_spec ps m); cbn [andb]; [destruct (Z.ltb_spec m cur)|].
  1: { rewrite (read32_ok s m) by lia. destruct CMOV; cbn [mbind res_bind returns negb Z.b2z]; rewrite ?Z.lxor_0_r; intros Hq%Z.eqb_eq;
       (split; [lia|]); apply (agree_word data d s Hv 4); (lia || done). }
  all: destruct CMOV; cbn [mbind res_bind returns negb Z.b2z]; rewrite ?(read32_ok s cur) by lia; cbn [mbind res_bind returns negb Z.b2z];
    intros Hq%Z.eqb_eq; symmetry in Hq; by apply flip_differs in Hq.
Qed.

(** The search loop from [st0], with the first repeat offset [rep1]. *)
Context (st0 rep1 : Z).

Record searching (x : Search) : Prop := {
  sg_table : tbl hlog (se_table x);
  sg_ip : st0 <= se_ip0 x /\ se_ip0 x + 2 <= se_ip2 x /\ se_ip2 x + 1 < fast_ilimit iend;
  sg_hash : 0 <= se_hash0 x < 2 ^ hlog /\ 0 <= se_hash1 x < 2 ^ hlog;
  sg_match : word (se_match_idx x);
  sg_step : 2 <= se_step x;
}.

Definition ended (en : SearchEnd) : Prop :=
  tbl hlog (en_table en) /\ st0 <= en_current0 en /\
  match en_found en with
  | FoundRep m0 ml => rep1 <> 0 /\ st0 < en_ip0 en /\ m0 = en_ip0 en - rep1 /\ 4 <= ml /\ en_ip0 en + ml <= iend /\
      agree data d (en_ip0 en) m0 ml /\ en_current0 en + 2 <= en_ip0 en + ml
  | FoundOffset => ps <= en_match_idx en < en_ip0 en /\ st0 <= en_ip0 en /\ en_ip0 en + 4 <= iend /\
      agree data d (en_ip0 en) (en_match_idx en) 4 /\ en_current0 en = en_ip0 en
  | FoundOffsetExt _ _ => False
  | FoundCleanup => True
  end.

Lemma rep_rval_ok ip2 : 0 <= rep1 <= ip2 - sr_lo s -> ip2 + 4 <= iend ->
  returns (fun v => le_val (at_ s ip2 4) = v -> rep1 <> 0 /\ agree data d ip2 (ip2 - rep1) 4) (rep_rval false s dl rep1 ip2 : res E Z).
Proof.
  destruct Hin as [? ? ? ? ? ?]. intros Hr He. unfold rep_rval. rewrite (read32_ok s) by lia. cbn [mbind res_bind returns].
  destruct (Z.eqb_spec rep1 0) as [->|]; cbn [Z.b2z].
  - rewrite Z.sub_0_r. intros Hq. symmetry in Hq. by apply flip_differs in Hq.
  - rewrite Z.lxor_0_r. intros Hq. split; [done|]. apply (agree_word data d s Hv 4); (lia || done).
Qed.

Lemma search_step_ok x : ps < st0 -> 0 <= rep1 <= st0 - sr_lo s -> searching x ->
  returns (fun r => match r with inl y => searching y /\ se_ip0 x < se_ip0 y | inr en => ended en end)
    (search_step MLS CMOV false s hlog ps dl iend rep1 x : res E _).
Proof.
  intros Hst Hr [Ht Hip [Hh0 Hh1] Hm Hs]. pose proof Hin as [? ? Hw ? ? ?]. change CURRENT_MAX with 3670016000 in Hw.
  destruct x as [table ip0 ip2 step next_step hash0 hash1 match_idx]. cbn [se_table se_ip0 se_ip2 se_step se_hash0 se_hash1 se_match_idx] in *.
  unfold fast_ilimit, HASH_READ_SIZE in Hip. unfold search_step.
  eapply returns_bind; [apply rep_rval_ok; lia|]. intros rval Hrval.
  eapply returns_bind; [by apply (tset_tbl hlog)|]. intros t1 Ht1. rewrite (read32_ok s) by lia. cbn [mbind res_bind].
  destruct (Z.eqb_spec (le_val (at_ s ip2 4)) rval) as [Hq|_].
  { destruct (Hrval Hq) as [Hnz Hag].
    destruct (src_byte_ok (E:=E) s (views_wf data d s Hv) (ip2 - 1) ltac:(lia)) as (vx & Hvx & _ & -> & _).
    destruct (src_byte_ok (E:=E) s (views_wf data d s Hv) (ip2 - rep1 - 1) ltac:(lia)) as (vy & Hvy & _ & -> & _). cbn [mbind res_bind].
    eapply returns_bind; [by apply (tset_tbl hlog)|]. intros t2 Ht2. cbn [returns]. split; [done|]. cbn. split; [lia|]. split; [done|].
    destruct (Z.eqb_spec vx vy) as [Hxy|]; cbn [Z.b2z].
    - split_and!; try lia. change (1 + 4) with (1 + 4)%Z. apply agree_app; [lia| |].
      + apply (agree_byte data d s Hv _ _ vx vy); [lia|lia|done|done|done].
      + replace (ip2 - 1 + 1) with ip2 by lia. by replace (ip2 - rep1 - 1 + 1) with (ip2 - rep1) by lia.
    - rewrite !Z.sub_0_r. split_and!; try lia. done. }
  eapply returns_bind; [apply match4_ok; (lia || done)|]. intros [] Hhit.
  { destruct (Hhit eq_refl) as [? ?]. eapply returns_bind; [by apply (tset_tbl hlog)|]. intros t2 Ht2. cbn [returns]. split; [done|]. cbn. split_and!; (lia || done). }
  eapply returns_bind; [by apply (tget_tbl hlog)|]. intros m1 Hm1.
  eapply returns_bind; [apply (hash_in s ps istart iend window Hin hlog); lia|]. intros h2 Hh2.
  eapply returns_bind; [by apply (tset_tbl hlog)|]. intros t2 Ht2.
  eapply returns_bind; [apply match4_ok; (lia || done)|]. intros [] Hhit2.
  { destruct (Hhit2 eq_refl) as [? ?]. eapply returns_bind with (P := tbl hlog); [destruct (step <=? 4); [by apply (tset_tbl hlog)|done]|].
    intros t3 Ht3. cbn [returns]. split; [done|]. cbn. split_and!; (lia || done). }
  eapply returns_bind; [by apply (tget_tbl hlog)|]. intros m2 Hm2.
  eapply returns_bind; [apply (hash_in s ps istart iend window Hin hlog); lia|]. intros h3 Hh3.
  set (sn := if next_step <=? ip2 + step then (step + 1, next_step + K_STEP_INCR) else (step, next_step)).
  assert (2 <= sn.1) as Hsn by (unfold sn; destruct (_ <=? _); cbn; lia). destruct sn as [step' next']. cbn [fst] in Hsn.
  unfold fast_ilimit, HASH_READ_SIZE. destruct (Z.leb_spec (Z.max 0 (iend - 8)) (ip2 + step + 1)).
  - cbn. split; [done|]. cbn. lia.
  - cbn. split; [|lia]. split; cbn; (done || (try unfold fast_ilimit, HASH_READ_SIZE; lia)).
Qed.
End search.

(** ** A round of the block *)

Section block.
Context {E : Type} (data : list Z) (d : Z) (s : Src) (Hv : views data d s).
Context (MLS : Z) (CMOV avx2 : bool) (hlog step_size ps dl istart iend window : Z).
Context (Hin : search_in s ps istart iend window) (Hhash : 1 <= hlog <= 32) (Hstep : 2 <= step_size).
Context (rep : list Z) (saved1 saved2 : Z).

Definition fa_rep_after1 (st : FastState) : Z := rep_after1 saved1 (fa_rep1 st).
Definition fa_rep_after2 (st : FastState) : Z := rep_after2 saved1 saved2 (fa_rep1 st) (fa_rep2 st).

Record going (st : FastState) : Prop := {
  gn_table : tbl hlog (fa_table st);
  gn_pos : istart <= fa_anchor st <= fa_ip0 st /\ ps < fa_ip0 st <= iend;
  gn_reps : reaches s window (fa_rep1 st) (fa_ip0 st) /\ reaches s window (fa_rep2 st) (fa_ip0 st);
  gn_found : exists h2, found false window data rep (istart - d) (ss_seqs (fa_out st)) (ss_lits (fa_out st)) [fa_rep_after1 st; fa_rep_after2 st; h2] (fa_anchor st - d);
}.

Lemma search_ok st : going st -> fa_ip0 st + step_size + 1 < fast_ilimit iend ->
  returns (ended data d hlog ps iend (fa_ip0 st) (fa_rep1 st)) (search MLS CMOV false s hlog step_size ps dl iend st : res E _).
Proof.
  intros [Ht Hp [[Hr1 _] _] _] Hlim. pose proof Hin as [? ? ? ? ? ?]. unfold fast_ilimit, HASH_READ_SIZE in Hlim. unfold search.
  eapply returns_bind; [apply (hash_in s ps istart iend window Hin hlog); lia|]. intros h0 Hh0.
  eapply returns_bind; [apply (hash_in s ps istart iend window Hin hlog); lia|]. intros h1 Hh1.
  eapply returns_bind; [by apply (tget_tbl hlog)|]. intros m Hm.
  apply (returns_loopM (searching hlog iend (fa_ip0 st)) (fun x => Z.to_nat (iend - se_ip0 x))).
  - split; cbn; (done || (try unfold fast_ilimit, HASH_READ_SIZE; lia)).
  - cbn. lia.
  - intros x Hx. eapply returns_mono; [apply (search_step_ok data d s Hv MLS CMOV hlog ps dl istart iend window Hin Hhash (fa_ip0 st) (fa_rep1 st) x); (done || lia)|].
    intros [y|en]; [|done]. intros [Hy Hlt]. split; [done|]. destruct Hx as [_ Hxi _ _ _]. unfold fast_ilimit, HASH_READ_SIZE in Hxi. lia.
Qed.

(** Where the immediate repeat codes go on. *)
Definition repeating (ip : Z) (st : FastState) : Prop := going st /\ fa_rep1 st <> 0 /\ fa_rep2 st <> 0 /\ fa_anchor st = fa_ip0 st /\ ip <= fa_ip0 st.

Lemma immediate_step_ok ip st : repeating ip st ->
  returns (fun r => match r with inl y => repeating ip y /\ fa_ip0 st < fa_ip0 y | inr y => repeating ip y end) (immediate_step MLS false avx2 s hlog dl iend st : res E _).
Proof.
  intros (Hg & N1 & N2 & Ha & Hip). pose proof Hg as [Ht Hp [Hr1 Hr2] (h2 & Hf)]. pose proof Hin as [? ? ? ? ? ?]. unfold immediate_step.
  destruct st as [table anchor ip0 rep1 rep2 out]. cbn [fa_table fa_anchor fa_ip0 fa_rep1 fa_rep2 fa_out] in *. subst anchor.
  unfold fa_rep_after1, fa_rep_after2, rep_after1, rep_after2 in Hf. cbn [fa_rep1 fa_rep2] in Hf. rewrite (proj2 (Z.eqb_neq rep1 0)), (proj2 (Z.eqb_neq rep2 0)) in Hf by done. cbn [negb] in Hf.
  destruct Hr1 as [Hr1 Hr1w], Hr2 as [Hr2 Hr2w]. cbn [negb orb]. rewrite andb_true_r. unfold fast_ilimit, HASH_READ_SIZE. destruct (Z.leb_spec ip0 (Z.max 0 (iend - 8))); [|done].
  rewrite !(read32_ok s) by lia. cbn [mbind res_bind]. destruct (Z.eqb_spec (le_val (at_ s ip0 4)) (le_val (at_ s (ip0 - rep2) 4))) as [Hq|]; [|done].
  eapply returns_bind; [apply (agree_count data d s Hv avx2); lia|]. intros n [Hn Hag].
  eapply returns_bind; [apply (hash_in s ps istart iend window Hin hlog); lia|]. intros h Hh.
  eapply returns_bind; [by apply (tset_tbl hlog)|]. intros t1 Ht1.
  assert (agree data d ip0 (ip0 - rep2) (n + 4)) as Hall.
  { rewrite Z.add_comm. apply agree_app; [lia|apply (agree_word data d s Hv 4); (lia || done)|]. by replace (ip0 - rep2 + 4) with (ip0 + 4 - rep2) by lia. }
  pose proof (store_ok_at (E:=E) data d s Hv ps istart iend window Hin rep out _ ip0 ip0 REPCODE1_TO_OFFBASE (n + 4) rep2 [rep2; rep1; h2] Hf ltac:(lia) ltac:(lia) ltac:(lia) ltac:(lia)) as Hst. rewrite Z.eqb_refl, Z.sub_diag in Hst.
  eapply returns_bind; [apply Hst; try done; [right; done|lia]|]. cbn beta. intros out' Hf'. cbn [returns].
  split; [|cbn; lia]. split; [|cbn; lia]. split; cbn [fa_table fa_anchor fa_ip0 fa_rep1 fa_rep2 fa_out]; [done|lia|unfold reaches; lia|].
  exists h2. unfold fa_rep_after1, fa_rep_after2, rep_after1, rep_after2. cbn [fa_rep1 fa_rep2]. rewrite (proj2 (Z.eqb_neq rep1 0)), (proj2 (Z.eqb_neq rep2 0)) by done. done.
Qed.

Lemma after_match_ok current0 st : going st -> fa_rep1 st <> 0 -> fa_anchor st = fa_ip0 st -> sr_lo s <= current0 -> current0 + 2 <= fa_ip0 st -> sr_lo s + 2 <= fa_ip0 st ->
  returns (fun st' => going st' /\ fa_ip0 st <= fa_ip0 st') (after_match MLS false avx2 s hlog dl iend current0 st : res E _).
Proof.
  intros Hg N1 Ha Hc0 Hc Hlo. pose proof Hg as [Ht Hp Hr Hf]. pose proof Hin as [? ? ? ? ? ?]. unfold after_match, fast_ilimit, HASH_READ_SIZE.
  destruct (Z.leb_spec (fa_ip0 st) (Z.max 0 (iend - 8))); [|cbn; split; [done|lia]].
  eapply returns_bind; [apply (hash_in s ps istart iend window Hin hlog); lia|]. intros h Hh. eapply returns_bind; [by apply (tset_tbl hlog)|]. intros t1 Ht1.
  eapply returns_bind; [apply (hash_in s ps istart iend window Hin hlog); lia|]. intros h' Hh'. eapply returns_bind; [by apply (tset_tbl hlog)|]. intros t2 Ht2.
  cbn [fa_rep2]. assert (going (MkFast t2 (fa_anchor st) (fa_ip0 st) (fa_rep1 st) (fa_rep2 st) (fa_out st))) as Hg' by (by split).
  destruct (Z.ltb_spec 0 (fa_rep2 st)) as [Hpos|]; [|cbn; split; [done|lia]].
  eapply returns_mono; [apply (returns_loopM (repeating (fa_ip0 st)) (fun st => Z.to_nat (iend - fa_ip0 st)) (repeating (fa_ip0 st)))|].
  - split; [done|]. cbn. lia.
  - cbn. lia.
  - intros x Hx. eapply returns_mono; [by apply immediate_step_ok|]. intros [y|y]; [|done]. intros [Hy Hlt]. split; [done|]. destruct Hy as [[_ Hyp _ _] _]. lia.
  - intros y (Hy & _ & _ & _ & Hl). done.
Qed.

(** A match the search found, from the state it started in. *)
Record matched (st : FastState) (current0 : Z) (m : Match) : Prop := {
  md_ip : fa_anchor st <= ma_ip0 m /\ ps < ma_ip0 m;
  md_len : 4 <= ma_length m /\ fa_ip0 st < ma_ip0 m + ma_length m <= iend;
  md_offset : 1 <= ma_rep1 m /\ ma_match0 m = ma_ip0 m - ma_rep1 m /\ reaches s window (ma_rep1 m) (ma_ip0 m) /\ reaches s window (ma_rep2 m) (ma_ip0 m + ma_length m);
  md_agree : agree data d (ma_ip0 m) (ma_match0 m) (ma_length m);
  md_current : sr_lo s <= current0 /\ current0 + 2 <= ma_ip0 m + ma_length m;
  md_next : ma_ext_next m = None;
  md_code : 1 <= ma_offcode m < 2 ^ 32 /\ (3 < ma_offcode m \/ ma_offcode m + Z.b2z (ma_ip0 m =? fa_anchor st) <= 2);
  md_rep : forall h2, hist_ok [fa_rep_after1 st; fa_rep_after2 st; h2] -> exists h2', repcode [fa_rep_after1 st; fa_rep_after2 st; h2] (ma_offcode m) (ma_ip0 m =? fa_anchor st) =
    (ma_rep1 m, [rep_after1 saved1 (ma_rep1 m); rep_after2 saved1 saved2 (ma_rep1 m) (ma_rep2 m); h2']);
}.

Lemma take_match_ok st table current0 m : going st -> tbl hlog table -> matched st current0 m ->
  returns (fun st' => going st' /\ fa_ip0 st < fa_ip0 st') (take_match MLS false avx2 s hlog dl iend st table current0 m : res E _).
Proof.
  intros Hg Htb [[Hi1 Hi2] [Hl1 Hl2] (Ho1 & Ho2 & Hr1 & Hr2) Hag [Hc1 Hc2] Hnx [Hk1 Hk2] Hrep]. pose proof Hg as [_ Hp _ (h2 & Hf)]. pose proof Hin as [? ? ? ? ? ?].
  destruct (Hrep h2 (proj2 (fn_hist _ _ _ _ _ _ _ _ _ Hf))) as (h2' & Hcode). destruct m as [ip0 match0 ob len rep1 rep2 nx].
  cbn [ma_ip0 ma_match0 ma_offcode ma_length ma_rep1 ma_rep2 ma_ext_next] in *. subst nx match0. pose proof Hr1 as [Hr1a Hr1b]. unfold take_match. cbn [ma_ip0 ma_match0 ma_offcode ma_length ma_rep1 ma_rep2 ma_ext_next].
  eapply returns_bind; [apply (agree_count data d s Hv avx2); lia|]. intros n [Hn Hag2].
  assert (agree data d ip0 (ip0 - rep1) (len + n)) as Hall by (apply agree_app; (lia || done)).
  eapply returns_bind; [apply (store_ok_at data d s Hv ps istart iend window Hin rep (fa_out st) _ (fa_anchor st) ip0 ob (len + n) rep1 _ Hf ltac:(lia) ltac:(lia) ltac:(lia) ltac:(lia) Hcode); (done || lia)|].
  cbn beta. intros out' Hf'. cbn [mbind res_bind]. set (st' := MkFast table _ _ rep1 rep2 out'). eapply returns_mono; [apply (after_match_ok current0 st')|].
  - split; cbn [st' fa_table fa_anchor fa_ip0 fa_rep1 fa_rep2 fa_out]; [done|lia|split; eapply reaches_mono; (done || lia)|].
    by exists h2'.
  - cbn. lia.
  - done.
  - done.
  - cbn. lia.
  - cbn. lia.
  - cbn beta. cbn [fa_ip0 st']. intros st'' [? ?]. split; [done|lia].
Qed.

Lemma offset_match_ok st en : going st -> ended data d hlog ps iend (fa_ip0 st) (fa_rep1 st) en -> en_found en = FoundOffset ->
  returns (matched st (en_current0 en)) (offset_match false s ps dl st en None : res E _).
Proof.
  intros Hg (Ht & Hc & Hfo) Hf. rewrite Hf in Hfo. destruct Hfo as (Hm & Hip & He & Hag & Hcur). pose proof Hg as [_ Hp [Hr1 Hr2] (h2 & Hfd)]. pose proof Hin as [? ? Hw ? ? ?].
  change CURRENT_MAX with 3670016000 in Hw. unfold offset_match. rewrite wrap_small by (change (2 ^ 32) with 4294967296; lia).
  set (o := en_ip0 en - en_match_idx en). destruct (offset_code (E:=E) s ps istart iend window Hin o ltac:(unfold o; lia)) as [-> Hcode]. cbn [mbind res_bind andb].
  eapply returns_bind; [apply (catch_up_ok data d s Hv ps istart iend window Hin (fa_anchor st) ps (en_ip0 en) (en_match_idx en) 4); (lia || done)|].
  intros [[ip m'] n] (H1 & H2 & H3 & H4 & H5). cbn [returns]. fold o in H3.
  split; cbn [ma_ip0 ma_match0 ma_offcode ma_length ma_rep1 ma_rep2 ma_ext_next].
  - lia.
  - lia.
  - split; [unfold o; lia|]. split; [lia|]. split; [unfold reaches, o in *; lia|]. eapply reaches_mono; [done|lia].
  - by replace m' with (ip - o) in * by lia.
  - lia.
  - done.
  - lia.
  - intros h2'' Hh. eexists. apply offset_hist; [done|unfold o; lia].
Qed.

Lemma rep_match_ok st en m0 ml : going st -> ended data d hlog ps iend (fa_ip0 st) (fa_rep1 st) en -> en_found en = FoundRep m0 ml ->
  matched st (en_current0 en) (MkMatch (en_ip0 en) m0 REPCODE1_TO_OFFBASE ml (fa_rep1 st) (fa_rep2 st) None).
Proof.
  intros Hg (Ht & Hc & Hfo) Hf. rewrite Hf in Hfo. destruct Hfo as (Hnz & Hip & -> & Hml & He & Hag & Hcur). pose proof Hg as [_ Hp [Hr1 Hr2] (h2 & Hfd)]. pose proof Hin as [? ? ? ? ? ?].
  split; cbn [ma_ip0 ma_match0 ma_offcode ma_length ma_rep1 ma_rep2 ma_ext_next]; try done; try lia.
  - split; [destruct Hr1; lia|]. split; [done|]. split; (eapply reaches_mono; [done|lia]).
  - split; [done|]. right. unfold REPCODE1_TO_OFFBASE. destruct (_ =? _); cbn; lia.
  - intros h2' _. exists h2'. rewrite (proj2 (Z.eqb_neq _ (fa_anchor st))) by lia. cbn. unfold fa_rep_after1, rep_after1 at 1.
    by rewrite (proj2 (Z.eqb_neq (fa_rep1 st) 0)) by done.
Qed.

(** A round of the [start] loop takes a match, or ends the block. *)
Lemma start_step_ok st : going st ->
  returns (fun r => match r with inl y => going y /\ fa_ip0 st < fa_ip0 y | inr y =>
      tbl hlog (fa_table y) /\ istart <= fa_anchor y <= iend /\
      exists h2, found false window data rep (istart - d) (ss_seqs (fa_out y)) (ss_lits (fa_out y)) [fa_rep_after1 y; fa_rep_after2 y; h2] (fa_anchor y - d) end)
    (start_step MLS CMOV false avx2 s hlog step_size ps dl iend st : res E _).
Proof.
  intros Hg. pose proof Hg as [Ht Hp _ Hf]. unfold start_step. destruct (Z.leb_spec (fast_ilimit iend) (fa_ip0 st + step_size + 1)); [cbn; split_and!; (done || lia)|].
  eapply returns_bind; [by apply search_ok|]. intros en Hen. pose proof Hen as (Hte & _ & Hfo).
  eapply returns_bind with (P := fun m => match m with Some m => matched st (en_current0 en) m | None => True end).
  - destruct (en_found en) as [m0 ml| | |] eqn:Hfe; [by apply rep_match_ok| |done|done].
    eapply returns_bind; [by apply offset_match_ok|]. done.
  - intros [m|] Hm; [|cbn; split_and!; (done || lia)]. eapply returns_bind; [by apply take_match_ok|]. by intros st' [? ?].
Qed.
End block.

(** ** The block *)

Section generic.
Context {E : Type} (ms : MatchState) (data : list Z) (a b d : Z) (s : Src) (rep : list Z).
Context (Hin : block_in ms data a b d s) (Hrep : hist_ok rep).

Lemma compress_block_generic_ok MLS CMOV avx2 :
  returns (block_found false ms data a b d rep) (compress_block_generic MLS CMOV false avx2 ms s (a + d, b + d) rep (MkStore [] []) : res E _).
Proof.
  destruct (block_in_views _ _ _ _ _ _ Hin) as (Hv & Hlo & Hend & _). pose proof Hin as [Hent [Hd Hb] [[Hl1 Hl2] Hl3] _]. pose proof Hent as [Htb [_ [_ Hab]]]. pose proof Htb as [Hcp _ _].
  pose proof Hcp as [_ _ Hh _ _ Ht]. unfold ZSTD_HASHLOG_MIN in Hh. destruct (hash_table_ok ms Htb) as [Htbl Hsh]. pose proof (block_search _ _ _ _ _ _ Hin) as Hsi.
  unfold compress_block_generic. rewrite (proj2 (Z.leb_le (a + d) (b + d))), (proj2 (Z.leb_le (b + d) (sr_end s))) by lia. cbn [andb rassert mbind res_bind].
  rewrite (proj2 (Z.leb_le 1 (hash_log _))), (proj2 (Z.leb_le (hash_log _) 32)) by lia. cbn [andb rassert mbind res_bind].
  set (ps := ms_lowest_match_index ms (b + d - 1)) in *. pose proof Hsi as [Hps1 [Hps2 _] _ _ _ _].
  set (step := target_length _ + _ + 1). assert (2 <= step) as Hstep by (unfold step; destruct (Z.eqb_spec (target_length (ms_cparams ms)) 0); cbn [Z.b2z]; lia).
  destruct Hrep as (r0 & r1 & r2 & -> & Hr0 & Hr1 & Hr2). change (idx [r0; r1; r2] 0) with (Ok r0 : res E Z). change (idx [r0; r1; r2] 1) with (Ok r1 : res E Z). cbn [mbind res_bind].
  set (ip0 := a + d + _). assert (ps < ip0 /\ a + d <= ip0 < b + d) as [Hip Hip2] by (unfold ip0; destruct (Z.eqb_spec (a + d) ps); cbn [Z.b2z]; lia).
  destruct (block_rep _ _ _ _ _ _ Hin ip0 r1 Hip2 Hr1) as (v2 & s2 & -> & Hv2 & Er1 & _). destruct (block_rep _ _ _ _ _ _ Hin ip0 r0 Hip2 Hr0) as (v1 & s1 & -> & Hv1 & Er0 & Hz1).
  rewrite Hsh. pose proof Htbl as [Htl _]. rewrite Htl, Z.eqb_refl. cbn [rassert mbind res_bind].
  set (hlog := hash_log (ms_cparams ms)) in *. set (window := 2 ^ window_log (ms_cparams ms)) in *.
  set (st0 := MkFast _ _ _ _ _ _). assert (going data d s hlog ps (a + d) (b + d) window [r0; r1; r2] s1 s2 st0) as Hgo.
  { split; cbn [st0 fa_table fa_anchor fa_ip0 fa_rep1 fa_rep2 fa_out]; [done|lia|done|]. exists r2. destruct (rep_start s1 s2 v1 v2 r0 r1 Er0 Hz1 Er1) as [E0 E1].
    unfold fa_rep_after1, fa_rep_after2. cbn [st0 fa_rep1 fa_rep2 ss_seqs ss_lits]. rewrite <- E0, <- E1. replace (a + d - d) with a by lia. apply found_nil; [|lia]. by exists r0, r1, r2. }
  eapply returns_bind; [apply (returns_loopM (going data d s hlog ps (a + d) (b + d) window [r0; r1; r2] s1 s2) (fun st => Z.to_nat (b + d - fa_ip0 st))); [done|cbn [st0 fa_ip0]; lia|]|].
  { intros st Hst. eapply returns_mono; [apply (start_step_ok data d s Hv MLS CMOV avx2 hlog step ps _ (a + d) (b + d) _ Hsi); (exact Hst || lia)|].
    intros [y|y]; [|intros Hy; exact Hy]. intros [Hy Hlt]. split; [done|]. destruct Hy as [_ Hyp _ _]. lia. }
  cbn beta. intros st (Hst & Han & h2 & Hf). fold (rep_after1 s1 (fa_rep1 st)). set (k1 := rep_after1 s1 (fa_rep1 st)).
  change (if negb (fa_rep2 st =? 0) then _ else _) with (rep_after2 s1 s2 (fa_rep1 st) (fa_rep2 st)). set (k2 := rep_after2 _ _ _ _).
  rewrite store_ok by (change (zlen [r0; r1; r2]) with 3; lia). cbn [mbind res_bind]. rewrite store_ok by (rewrite zlen_zset; change (zlen [r0; r1; r2]) with 3; lia). cbn [mbind res_bind returns].
  change (zset (zset [r0; r1; r2] 0 k1) 1 k2) with [k1; k2; r2]. unfold block_found.
  split. { destruct Hent as [_ Hwin]. split; [by apply put_hash_ok|done]. }
  split; [done|]. split; [lia|]. exists [k1; k2; h2]. replace (a + d - d) with a in Hf by lia. split; [exact Hf|]. apply rep_end; [apply Hf|done].
Qed.
End generic.

Lemma compress_block_fast_ok {E} avx2 ms data a b d s rep : block_in ms data a b d s -> hist_ok rep ->
  returns (block_found false ms data a b d rep) (compress_block_fast avx2 ms s (a + d, b + d) rep (MkStore [] []) : res E _).
Proof.
  intros Hin Hrep. unfold compress_block_fast. cbn [snd]. rewrite (no_ext_dict ms a b d) by apply Hin. by apply compress_block_generic_ok.
Qed.
