(* ===== verification/DFast.v ===== *)
(** * The double-fast strategy ([src/compress/dfast.rs])

    The search of a block with two hash tables, the long one of 8 bytes in
    the hash table and the short one in the chain table, and the variant
    with dictionary content in reach. The search against an attached
    dictionary is not modelled. Then the proof that it finds the block. *)

From S2P Require Import Prelude Words Constants Errors Params Split Window MatchCommon MatchState Search.

Definition K_STEP_INCR : Z := Z.shiftl 1 K_SEARCH_STRENGTH.

(** Whether the [n] bytes at a candidate are those at [cur]: an invalid
    candidate compares [cur] with its low bit flipped. *)
Definition masked_found {E} (n : Z) (src : Src) (cur match_idx low : Z) : res E bool :=
  valid ← candidate_valid match_idx low cur;
  v ← src_read n src (if valid : bool then match_idx else cur);
  let mval := Z.lxor v (Z.b2z (negb valid)) in
  v ← src_read n src cur;
  Ok (v =? mval).

(** [Found]; a match carries the long hash of the next position. *)
Inductive Found :=
| FoundStored (m_length : Z) (out : SeqStore)
| FoundMatch (offset m_length hl1 : Z)
| FoundCleanup.

(** The variables of the search loop, and those it leaves. *)
Record Search := MkSearch {
  se_long : list Z;
  se_small : list Z;
  se_ip : Z;
  se_ip1 : Z;
  se_step : Z;
  se_next_step : Z;
  se_hl0 : Z;
  se_idxl0 : Z;
}.

Record SearchEnd := MkEnd {
  en_long : list Z;
  en_small : list Z;
  en_ip : Z;
  en_ip1 : Z;
  en_step : Z;
  en_curr : Z;
  en_found : Found;
}.

(** The variables of the outer loop. *)
Record DFastState := MkDFast {
  df_long : list Z;
  df_small : list Z;
  df_anchor : Z;
  df_ip : Z;
  df_offset1 : Z;
  df_offset2 : Z;
  df_out : SeqStore;
}.

Section dfast.
Context {E : Type} (MLS : Z) (avx2 : bool) (src : Src).
Context (hbits_l hbits_s prefix_lowest iend : Z).

Definition dfast_ilimit : Z := Z.max 0 (iend - HASH_READ_SIZE).

(** [_search_next_long]: the short match at [ip], or a longer long one at
    [ip1]: the position, the candidate and the length. *)
Definition next_long (ip ip1 idxs0 idxl1 : Z) : res E (Z * Z * Z) :=
  n ← count avx2 src (ip + 4) (idxs0 + 4) iend;
  let m_length := n + 4 in
  valid ← candidate_valid idxl1 (prefix_lowest + 1) ip1;
  if valid : bool then
    x ← read64 src idxl1;
    y ← read64 src ip1;
    if x =? y then
      n ← count avx2 src (ip1 + 8) (idxl1 + 8) iend;
      let l1len := n + 8 in
      Ok (if m_length <? l1len then (ip1, idxl1, l1len) else (ip, idxs0, m_length))
    else Ok (ip, idxs0, m_length)
  else Ok (ip, idxs0, m_length).

(** One round of the search loop. *)
Definition search_step (anchor offset_1 : Z) (out : SeqStore) (s : Search) : res E (Search + SearchEnd) :=
  let '(MkSearch long small ip ip1 step next_step hl0 idxl0) := s in
  hs0 ← hash_ptr MLS src ip hbits_s;
  idxs0 ← tget small hs0;
  let curr := ip in
  long ← tset long hl0 curr;
  small ← tset small hs0 curr;
  x ← read32 src (ip + 1 - offset_1);
  y ← read32 src (ip + 1);
  if (0 <? offset_1) && (x =? y) then
    n ← count avx2 src (ip + 1 + 4) (ip + 1 + 4 - offset_1) iend;
    let m_length := n + 4 in
    let ip := ip + 1 in
    out ← store_seq out src anchor (ip - anchor) iend REPCODE1_TO_OFFBASE m_length;
    Ok (inr (MkEnd long small ip ip1 step curr (FoundStored m_length out)))
  else
  hl1 ← hash_ptr 8 src ip1 hbits_l;
  hit ← masked_found 8 src ip idxl0 prefix_lowest;
  if hit : bool then
    n ← count avx2 src (ip + 8) (idxl0 + 8) iend;
    let offset := wrap 32 (ip - idxl0) in
    '(ip, _, m_length) ← loopM (S (Z.to_nat ip)) (catch_up_step src anchor prefix_lowest) (ip, idxl0, n + 8);
    Ok (inr (MkEnd long small ip ip1 step curr (FoundMatch offset m_length hl1)))
  else
  idxl1 ← tget long hl1;
  hit ← masked_found 4 src ip idxs0 prefix_lowest;
  if hit : bool then
    '(ip, matchs0, m_length) ← next_long ip ip1 idxs0 idxl1;
    let offset := wrap 32 (ip - matchs0) in
    '(ip, _, m_length) ← loopM (S (Z.to_nat ip)) (catch_up_step src anchor prefix_lowest) (ip, matchs0, m_length);
    Ok (inr (MkEnd long small ip ip1 step curr (FoundMatch offset m_length hl1)))
  else
  let '(step, next_step) := if next_step <=? ip1 then (step + 1, next_step + K_STEP_INCR) else (step, next_step) in
  let ip := ip1 in
  let ip1 := ip1 + step in
  if dfast_ilimit <? ip1 then Ok (inr (MkEnd long small ip ip1 step curr FoundCleanup))
  else Ok (inl (MkSearch long small ip ip1 step next_step hl1 idxl1)).

(** The immediate repeat codes. *)
Definition immediate_step (st : DFastState) : res E (DFastState + DFastState) :=
  let '(MkDFast long small anchor ip offset_1 offset_2 out) := st in
  if ip <=? dfast_ilimit then
    x ← read32 src ip;
    y ← read32 src (ip - offset_2);
    if (0 <? offset_2) && (x =? y) then
      n ← count avx2 src (ip + 4) (ip + 4 - offset_2) iend;
      let r_length := n + 4 in
      let '(offset_1, offset_2) := (offset_2, offset_1) in
      h ← hash_ptr MLS src ip hbits_s;
      small ← tset small h ip;
      h ← hash_ptr 8 src ip hbits_l;
      long ← tset long h ip;
      out ← store_seq out src anchor 0 iend REPCODE1_TO_OFFBASE r_length;
      let ip := ip + r_length in
      Ok (inl (MkDFast long small ip ip offset_1 offset_2 out))
    else Ok (inr st)
  else Ok (inr st).

(** The complementary insertion of both loops. *)
Definition insert_after (long small : list Z) (curr ip : Z) : res E (list Z * list Z) :=
  let index_to_insert := curr + 2 in
  h ← hash_ptr 8 src index_to_insert hbits_l;
  long ← tset long h index_to_insert;
  h ← hash_ptr 8 src (ip - 2) hbits_l;
  long ← tset long h (ip - 2);
  h ← hash_ptr MLS src index_to_insert hbits_s;
  small ← tset small h index_to_insert;
  h ← hash_ptr MLS src (ip - 1) hbits_s;
  small ← tset small h (ip - 1);
  Ok (long, small).

(** [_match_stored]. *)
Definition match_stored (curr : Z) (st : DFastState) : res E DFastState :=
  let ip := df_ip st in
  if ip <=? dfast_ilimit then
    '(long, small) ← insert_after (df_long st) (df_small st) curr ip;
    loopM (S (Z.to_nat (iend - ip))) immediate_step
      (MkDFast long small (df_anchor st) ip (df_offset1 st) (df_offset2 st) (df_out st))
  else Ok st.

(** The search from [ip] on. *)
Definition search (st : DFastState) : res E SearchEnd :=
  let ip := df_ip st in
  hl0 ← hash_ptr 8 src ip hbits_l;
  idxl0 ← tget (df_long st) hl0;
  loopM (S (Z.to_nat (iend - ip))) (search_step (df_anchor st) (df_offset1 st) (df_out st))
    (MkSearch (df_long st) (df_small st) ip (ip + 1) 1 (ip + K_STEP_INCR) hl0 idxl0).

(** One round of the outer loop. *)
Definition outer_step (st : DFastState) : res E (DFastState + DFastState) :=
  if dfast_ilimit <? df_ip st + 1 then Ok (inr st)
  else
    en ← search st;
    let ip := en_ip en in
    match en_found en with
    | FoundCleanup => Ok (inr (MkDFast (en_long en) (en_small en) (df_anchor st) ip (df_offset1 st) (df_offset2 st) (df_out st)))
    | FoundStored m_length out =>
        let ip := ip + m_length in
        st ← match_stored (en_curr en) (MkDFast (en_long en) (en_small en) ip ip (df_offset1 st) (df_offset2 st) out);
        Ok (inl st)
    | FoundMatch offset m_length hl1 =>
        long ← (if en_step en <? 4 then tset (en_long en) hl1 (en_ip1 en) else Ok (en_long en));
        off_base ← offset_to_offbase offset;
        out ← store_seq (df_out st) src (df_anchor st) (ip - df_anchor st) iend off_base m_length;
        let ip := ip + m_length in
        st ← match_stored (en_curr en) (MkDFast long (en_small en) ip ip offset (df_offset1 st) out);
        Ok (inl st)
    end.

(** ** With dictionary content in reach *)

Context (dict_start prefix_start : Z).

Definition low_of (idx : Z) : Z := if idx <? prefix_start then dict_start else prefix_start.

(** The match at [curr] past the repeat code: the offset, where it starts
    and its length, with the long table; [None] moves on. *)
Definition ext_match (long : list Z) (anchor curr match_long_index match_index : Z) : res E (list Z * option (Z * Z * Z)) :=
  let caught long ip idx n := 
    '(ip', _, length) ← loopM (S (Z.to_nat ip)) (catch_up_step src anchor (low_of idx)) (ip, idx, n);
    Ok (long, Some (wrap 32 (ip - idx), ip', length)) in
  valid ← candidate_valid match_long_index dict_start curr;
  hit ← (if valid : bool then x ← read64 src match_long_index; y ← read64 src curr; Ok (x =? y) else Ok false);
  if hit : bool then
    n ← count avx2 src (curr + 8) (match_long_index + 8) iend;
    caught long curr match_long_index (n + 8)
  else
  valid ← candidate_valid match_index dict_start curr;
  hit ← (if valid : bool then x ← read32 src match_index; y ← read32 src curr; Ok (x =? y) else Ok false);
  if hit : bool then
    h3 ← hash_ptr 8 src (curr + 1) hbits_l;
    match_index3 ← tget long h3;
    long ← tset long h3 (curr + 1);
    valid ← candidate_valid match_index3 dict_start (curr + 1);
    hit ← (if valid : bool then x ← read64 src match_index3; y ← read64 src (curr + 1); Ok (x =? y) else Ok false);
    if hit : bool then
      n ← count avx2 src (curr + 9) (match_index3 + 8) iend;
      caught long (curr + 1) match_index3 (n + 8)
    else
      n ← count avx2 src (curr + 4) (match_index + 4) iend;
      caught long curr match_index (n + 4)
  else Ok (long, None).

(** A repeat code of the dictionary variant matches at [pos]. *)
Definition ext_rep (pos offset : Z) : res E (option Z) :=
  let rep_index := wsub 32 (wrap 32 pos) offset in
  if index_overlap_check prefix_start rep_index && (offset <=? pos - dict_start) then
    x ← read32 src rep_index;
    y ← read32 src pos;
    Ok (if x =? y then Some rep_index else None)
  else Ok None.

Definition ext_immediate_step (st : DFastState) : res E (DFastState + DFastState) :=
  let '(MkDFast long small anchor ip offset_1 offset_2 out) := st in
  if ip <=? dfast_ilimit then
    r ← ext_rep ip offset_2;
    match r with
    | Some rep_index2 =>
        n ← count avx2 src (ip + 4) (rep_index2 + 4) iend;
        let rep_length2 := n + 4 in
        let '(offset_1, offset_2) := (offset_2, offset_1) in
        out ← store_seq out src anchor 0 iend REPCODE1_TO_OFFBASE rep_length2;
        h ← hash_ptr MLS src ip hbits_s;
        small ← tset small h ip;
        h ← hash_ptr 8 src ip hbits_l;
        long ← tset long h ip;
        let ip := ip + rep_length2 in
        Ok (inl (MkDFast long small ip ip offset_1 offset_2 out))
    | None => Ok (inr st)
    end
  else Ok (inr st).

(** Past a stored match of the dictionary variant. *)
Definition ext_stored (curr : Z) (st : DFastState) : res E DFastState :=
  let ip := df_ip st in
  if ip <=? dfast_ilimit then
    '(long, small) ← insert_after (df_long st) (df_small st) curr ip;
    loopM (S (Z.to_nat (iend - ip))) ext_immediate_step
      (MkDFast long small (df_anchor st) ip (df_offset1 st) (df_offset2 st) (df_out st))
  else Ok st.

(** One round of its search loop. *)
Definition ext_step (st : DFastState) : res E (DFastState + DFastState) :=
  let '(MkDFast long small anchor ip offset_1 offset_2 out) := st in
  if ip <? dfast_ilimit then
    h_small ← hash_ptr MLS src ip hbits_s;
    match_index ← tget small h_small;
    h_long ← hash_ptr 8 src ip hbits_l;
    match_long_index ← tget long h_long;
    let curr := ip in
    small ← tset small h_small curr;
    long ← tset long h_long curr;
    r ← ext_rep (curr + 1) offset_1;
    match r with
    | Some rep_index =>
        n ← count avx2 src (ip + 1 + 4) (rep_index + 4) iend;
        let m_length := n + 4 in
        let ip := ip + 1 in
        out ← store_seq out src anchor (ip - anchor) iend REPCODE1_TO_OFFBASE m_length;
        st ← ext_stored curr (MkDFast long small (ip + m_length) (ip + m_length) offset_1 offset_2 out);
        Ok (inl st)
    | None =>
        '(long, m) ← ext_match long anchor curr match_long_index match_index;
        match m with
        | Some (offset, ip, m_length) =>
            off_base ← offset_to_offbase offset;
            out ← store_seq out src anchor (ip - anchor) iend off_base m_length;
            st ← ext_stored curr (MkDFast long small (ip + m_length) (ip + m_length) offset offset_1 out);
            Ok (inl st)
        | None => Ok (inl (MkDFast long small anchor (ip + (Z.shiftr (ip - anchor) K_SEARCH_STRENGTH + 1)) offset_1 offset_2 out))
        end
    end
  else Ok (inr st).
End dfast.

Definition with_dfast_tables (ms : MatchState) (st : DFastState) : MatchState :=
  let ws := put_words (ms_ws ms) 0 (df_long st) in
  ms_with_ws ms (put_words ws (chain_off (ws_layout ws)) (df_small st)).

(** [compress_block_generic]. *)
Definition compress_block_generic {E} (MLS : Z) (avx2 : bool) (ms : MatchState) (src : Src) (block : Z * Z) (rep : list Z) (out : SeqStore) :
  res E (MatchState * SeqStore * list Z * Z) :=
  let hbits_l := hash_log (ms_cparams ms) in
  let hbits_s := chain_log (ms_cparams ms) in
  let '(istart, iend) := block in
  _ ← rassert ((istart <=? iend) && (iend <=? sr_end src));
  _ ← rassert ((1 <=? hbits_l) && (hbits_l <=? 32) && (1 <=? hbits_s) && (hbits_s <=? 32));
  let prefix_lowest := ms_lowest_match_index ms (iend - 1) in
  let ip := istart + Z.b2z (istart =? prefix_lowest) in
  offset_1 ← idx rep 0;
  offset_2 ← idx rep 1;
  let max_rep := wrap 32 (ip - ms_lowest_match_index ms ip) in
  let '(offset_2, offset_saved2) := if max_rep <? offset_2 then (0, offset_2) else (offset_2, 0) in
  let '(offset_1, offset_saved1) := if max_rep <? offset_1 then (0, offset_1) else (offset_1, 0) in
  let hash_long := ws_hash (ms_ws ms) in
  let hash_small := ws_chain (ms_ws ms) in
  _ ← rassert (zlen hash_long =? wshl 64 1 hbits_l);
  _ ← rassert (zlen hash_small =? wshl 64 1 hbits_s);
  st ← loopM (S (S (Z.to_nat (iend - istart)))) (outer_step MLS avx2 src hbits_l hbits_s prefix_lowest iend)
         (MkDFast hash_long hash_small istart ip offset_1 offset_2 out);
  let offset_saved2 := if negb (offset_saved1 =? 0) && negb (df_offset1 st =? 0) then offset_saved1 else offset_saved2 in
  rep ← store rep 0 (if negb (df_offset1 st =? 0) then df_offset1 st else offset_saved1);
  rep ← store rep 1 (if negb (df_offset2 st =? 0) then df_offset2 st else offset_saved2);
  Ok (with_dfast_tables ms st, df_out st, rep, df_anchor st).

(** [compress_block_ext_generic]. *)
Definition compress_block_ext_generic {E} (MLS : Z) (avx2 : bool) (ms : MatchState) (src : Src) (block : Z * Z) (rep : list Z) (out : SeqStore) :
  res E (MatchState * SeqStore * list Z * Z) :=
  let hbits_l := hash_log (ms_cparams ms) in
  let hbits_s := chain_log (ms_cparams ms) in
  let '(istart, iend) := block in
  _ ← rassert ((istart <=? iend) && (iend <=? sr_end src));
  _ ← rassert ((1 <=? hbits_l) && (hbits_l <=? 32) && (1 <=? hbits_s) && (hbits_s <=? 32));
  let dict_start := ms_lowest_match_index ms (iend - 1) in
  let prefix_start := w_dict_limit (ms_window ms) in
  _ ← rassert ((dict_start <? prefix_start) && (prefix_start <=? istart));
  offset_1 ← idx rep 0;
  offset_2 ← idx rep 1;
  _ ← rassert ((0 <? offset_1) && (0 <? offset_2));
  let hash_long := ws_hash (ms_ws ms) in
  let hash_small := ws_chain (ms_ws ms) in
  _ ← rassert (zlen hash_long =? wshl 64 1 hbits_l);
  _ ← rassert (zlen hash_small =? wshl 64 1 hbits_s);
  st ← loopM (S (Z.to_nat (iend - istart))) (ext_step MLS avx2 src hbits_l hbits_s iend dict_start prefix_start)
         (MkDFast hash_long hash_small istart istart offset_1 offset_2 out);
  rep ← store rep 0 (df_offset1 st);
  rep ← store rep 1 (df_offset2 st);
  Ok (with_dfast_tables ms st, df_out st, rep, df_anchor st).

(** [compress_block] and [compress_block_level]; [avx2] tells the machine's
    level. *)
Definition compress_block_dfast {E} (avx2 : bool) (ms : MatchState) (src : Src) (block : Z * Z) (rep : list Z) (out : SeqStore) :
  res E (MatchState * SeqStore * list Z * Z) :=
  let mm := min_match (ms_cparams ms) in
  let MLS := if (mm =? 5) || (mm =? 6) || (mm =? 7) then mm else 4 in
  if ext_dict_in_reach ms block.2 then compress_block_ext_generic MLS avx2 ms src block rep out
  else compress_block_generic MLS avx2 ms src block rep out.

(** ** The double-fast strategy finds the block's sequences

    As for the fast one: without dictionary content in reach the search of a
    block ends, reads and writes in bounds, and what it stores executes to
    the bytes before its anchor. *)

From S2P Require Import SeqExec SeqDecode SeqRun FseEncode SeqStream SeqSection BlockEncode BlockRound Finder.

Section block.
Context {E : Type} (data : list Z) (d : Z) (s : Src) (Hv : views data d s).
Context (MLS : Z) (avx2 : bool) (hbl hbs ps istart iend window : Z).
Context (Hin : search_in s ps istart iend window) (Hhl : 1 <= hbl <= 32) (Hhs : 1 <= hbs <= 32).
Context (rep : list Z) (saved1 saved2 : Z).

Lemma masked_ok n cur m : 0 <= n -> ps <= cur -> cur + n <= iend -> word m ->
  returns (fun b => b = true -> ps <= m < cur /\ agree data d cur m n) (masked_found n s cur m ps : res E bool).
Proof.
  intros Hn Hc He Hm. pose proof Hin as [? ? ? ? ? ?]. unfold masked_found. rewrite (candidate_ok s ps istart iend window Hin ps) by (done || lia). cbn [mbind res_bind].
  rewrite (src_read_ok s n cur) by lia. destruct (Z.leb_spec ps m); cbn [andb]; [destruct (Z.ltb_spec m cur)|].
  1: { rewrite (src_read_ok s n m) by lia. cbn [mbind res_bind returns negb Z.b2z]. rewrite Z.lxor_0_r. intros Hq%Z.eqb_eq. split; [lia|]. apply (agree_word data d s Hv n); (lia || done). }
  all: rewrite ?(src_read_ok s n cur) by lia; cbn [mbind res_bind returns negb Z.b2z]; intros Hq%Z.eqb_eq; symmetry in Hq; by apply flip_differs in Hq.
Qed.

(** [n] same bytes of a candidate, then its count. *)
Lemma count_from n p q : 0 <= n -> sr_lo s <= q < p -> p + n <= iend -> agree data d p q n ->
  returns (fun k => 0 <= k /\ p + (k + n) <= iend /\ agree data d p q (k + n)) (count avx2 s (p + n) (q + n) iend : res E Z).
Proof.
  intros Hn Hq Hp Hag. pose proof Hin as [? ? ? ? ? ?]. eapply returns_mono; [apply (agree_count data d s Hv avx2); lia|]. cbn beta. intros k [Hk Ha].
  split; [lia|]. split; [lia|]. rewrite Z.add_comm. apply agree_app; (lia || done).
Qed.

Lemma next_long_ok ip ip1 m ml : ps <= m < ip -> ip < ip1 -> ip1 + 8 <= iend -> agree data d ip m 4 -> word ml ->
  returns (fun '(ip', m', n) => ip <= ip' <= ip1 /\ ps <= m' < ip' /\ 4 <= n /\ ip + 4 <= ip' + n <= iend /\ agree data d ip' m' n)
    (next_long avx2 s ps iend ip ip1 m ml : res E _).
Proof.
  intros Hm Hip He Hag Hml. pose proof Hin as [? ? ? ? ? ?]. unfold next_long.
  eapply returns_bind; [apply count_from; (lia || done)|]. intros n (Hn & Hle & Ha).
  rewrite (candidate_ok s ps istart iend window Hin (ps + 1)) by (done || lia). cbn [mbind res_bind].
  assert (ip <= ip <= ip1 /\ ps <= m < ip /\ 4 <= n + 4 /\ ip + 4 <= ip + (n + 4) <= iend /\ agree data d ip m (n + 4)) as Hshort by (split_and!; (lia || done)).
  destruct (Z.leb_spec (ps + 1) ml); cbn [andb]; [|done]. destruct (Z.ltb_spec ml ip1); [|done].
  unfold read64. rewrite !(src_read_ok s 8) by lia. cbn [mbind res_bind]. destruct (Z.eqb_spec (le_val (at_ s ml 8)) (le_val (at_ s ip1 8))) as [Hq|]; [|done].
  eapply returns_bind; [apply count_from; [lia|lia|lia|apply (agree_word data d s Hv 8); (lia || done)]|]. intros k (Hk & Hkl & Hka).
  destruct (n + 4 <? k + 8); cbn [returns]; [|done]. split_and!; (lia || done).
Qed.

(** ** The state of the search *)

Record going (st : DFastState) : Prop := {
  gn_tables : tbl hbl (df_long st) /\ tbl hbs (df_small st);
  gn_pos : istart <= df_anchor st <= df_ip st /\ ps < df_ip st <= iend;
  gn_reps : reaches s window (df_offset1 st) (df_ip st) /\ reaches s window (df_offset2 st) (df_ip st);
  gn_found : exists h2, found false window data rep (istart - d) (ss_seqs (df_out st)) (ss_lits (df_out st))
    [rep_after1 saved1 (df_offset1 st); rep_after2 saved1 saved2 (df_offset1 st) (df_offset2 st); h2] (df_anchor st - d);
}.

Record searching (st : DFastState) (x : Search) : Prop := {
  sg_tables : tbl hbl (se_long x) /\ tbl hbs (se_small x);
  sg_ip : df_ip st <= se_ip x < se_ip1 x /\ se_ip1 x <= dfast_ilimit iend;
  sg_hash : 0 <= se_hl0 x < 2 ^ hbl;
  sg_match : word (se_idxl0 x);
  sg_step : 1 <= se_step x;
}.

Definition ended (st : DFastState) (en : SearchEnd) : Prop :=
  tbl hbl (en_long en) /\ tbl hbs (en_small en) /\ df_ip st <= en_curr en /\
  match en_found en with
  | FoundStored ml out => df_offset1 st <> 0 /\ en_ip en = en_curr en + 1 /\ 4 <= ml /\ en_ip en + ml <= iend /\
      exists h2, found false window data rep (istart - d) (ss_seqs out) (ss_lits out)
        [rep_after1 saved1 (df_offset1 st); rep_after2 saved1 saved2 (df_offset1 st) (df_offset2 st); h2] (en_ip en + ml - d)
  | FoundMatch o ml hl1 => 0 <= hl1 < 2 ^ hbl /\ df_anchor st <= en_ip en /\ ps < en_ip en /\ 4 <= ml /\ en_curr en + 4 <= en_ip en + ml <= iend /\
      1 <= o /\ reaches s window o (en_ip en) /\ agree data d (en_ip en) (en_ip en - o) ml
  | FoundCleanup => True
  end.

(** A match whose length is known, counted backwards. *)
Lemma caught_ok st long small ip1 step curr hl1 ip m n : going st -> tbl hbl long -> tbl hbs small -> df_ip st <= curr -> 0 <= hl1 < 2 ^ hbl ->
  df_ip st <= ip -> ps <= m < ip -> 4 <= n -> curr + 4 <= ip + n <= iend -> agree data d ip m n ->
  returns (fun r => match r with inl y => False | inr en => ended st en end)
    ('(ip', _, m_length) ← loopM (S (Z.to_nat ip)) (catch_up_step s (df_anchor st) ps) (ip, m, n);
     (Ok (inr (MkEnd long small ip' ip1 step curr (FoundMatch (wrap 32 (ip - m)) m_length hl1))) : res E (Search + SearchEnd))).
Proof.
  intros [_ Hp _ _] Htl Hts Hc Hh Hip Hm Hn He Hag. pose proof Hin as [? ? Hw ? ? ?]. change CURRENT_MAX with 3670016000 in Hw.
  eapply returns_bind; [apply (catch_up_ok data d s Hv ps istart iend window Hin (df_anchor st) ps ip m n); (lia || done)|].
  intros [[ip' m'] n'] (H1 & H2 & H3 & H4 & H5). cbn [returns]. rewrite wrap_small by (change (2 ^ 32) with 4294967296; lia).
  split; [done|]. split; [done|]. split; [done|]. cbn. replace m' with (ip' - (ip - m)) in H5 by lia. unfold reaches. split_and!; (lia || done).
Qed.

Lemma dfast_search_step_ok st x : going st -> searching st x ->
  returns (fun r => match r with inl y => searching st y /\ se_ip x < se_ip y | inr en => ended st en end)
    (search_step MLS avx2 s hbl hbs ps iend (df_anchor st) (df_offset1 st) (df_out st) x : res E _).
Proof.
  intros Hg [[Htl Hts] [Hip Hip1] Hh0 Hm Hs]. pose proof Hg as [_ Hp [[Hr1 Hr1w] _] (h2 & Hf)]. pose proof Hin as [? ? Hw ? ? ?].
  destruct x as [long small ip ip1 step next_step hl0 idxl0]. cbn [se_long se_small se_ip se_ip1 se_step se_hl0 se_idxl0] in *. unfold dfast_ilimit, HASH_READ_SIZE in Hip1. unfold search_step.
  eapply returns_bind; [apply (hash_in s ps istart iend window Hin hbs); lia|]. intros hs0 Hhs0.
  eapply returns_bind; [by apply (tget_tbl hbs)|]. intros idxs0 Hidx.
  eapply returns_bind; [by apply (tset_tbl hbl)|]. intros l1 Hl1. eapply returns_bind; [by apply (tset_tbl hbs)|]. intros s1 Hs1.
  rewrite !(read32_ok s) by lia. cbn [mbind res_bind].
  destruct ((0 <? df_offset1 st) && _) eqn:Hrep.
  { bools. rename H0 into Hq. assert (agree data d (ip + 1) (ip + 1 - df_offset1 st) 4) as Hag by (apply (agree_word data d s Hv 4); (lia || done)).
    replace (ip + 1 + 4 - df_offset1 st) with (ip + 1 - df_offset1 st + 4) by lia.
    eapply returns_bind; [apply count_from; (lia || done)|]. intros n (Hn & Hle & Ha).
    assert (forall x y, repcode [rep_after1 saved1 (df_offset1 st); x; y] REPCODE1_TO_OFFBASE (ip + 1 =? df_anchor st) = (df_offset1 st, [rep_after1 saved1 (df_offset1 st); x; y])) as Hcode.
    { intros. rewrite (proj2 (Z.eqb_neq (ip + 1) (df_anchor st))) by lia. cbn. unfold rep_after1 at 1. by rewrite (proj2 (Z.eqb_neq (df_offset1 st) 0)) by lia. }
    eapply returns_bind; [apply (store_ok_at data d s Hv ps istart iend window Hin rep (df_out st) _ (df_anchor st) (ip + 1) REPCODE1_TO_OFFBASE (n + 4) (df_offset1 st) _ Hf ltac:(lia) ltac:(lia) ltac:(lia) Hle (Hcode _ _)); try lia|].
    - done.
    - right. rewrite (proj2 (Z.eqb_neq (ip + 1) (df_anchor st))) by lia. done.
    - unfold reaches. lia.
    - done.
    - cbn beta. intros out Hout. cbn [returns]. split; [done|]. split; [done|]. split; [cbn [en_curr]; lia|]. cbn [en_found en_ip en_curr]. split_and!; try lia. by exists h2. }
  eapply returns_bind; [apply (hash_in s ps istart iend window Hin hbl); lia|]. intros hl1 Hhl1.
  eapply returns_bind; [apply masked_ok; (lia || done)|]. intros [] Hhit.
  { destruct (Hhit eq_refl) as [? ?]. eapply returns_bind; [apply count_from; (lia || done)|]. intros n (Hn & Hle & Ha).
    eapply returns_mono; [apply caught_ok; (lia || done)|]. by intros [y|en]. }
  eapply returns_bind; [by apply (tget_tbl hbl)|]. intros idxl1 Hl.
  eapply returns_bind; [apply masked_ok; (lia || done)|]. intros [] Hhit2.
  { destruct (Hhit2 eq_refl) as [? ?]. eapply returns_bind; [apply next_long_ok; (lia || done)|]. intros [[ip' m'] n] (G1 & G2 & G3 & G4 & G5).
    eapply returns_mono; [apply caught_ok; (lia || done)|]. by intros [y|en]. }
  set (sn := if next_step <=? ip1 then (step + 1, next_step + K_STEP_INCR) else (step, next_step)).
  assert (1 <= sn.1) as Hsn by (unfold sn; destruct (_ <=? _); cbn; lia). destruct sn as [step' next']. cbn [fst] in Hsn.
  unfold dfast_ilimit, HASH_READ_SIZE. destruct (Z.ltb_spec (Z.max 0 (iend - 8)) (ip1 + step')).
  - cbn. split; [done|]. split; [done|]. cbn. lia.
  - cbn. split; [|lia]. split; cbn; (done || (try unfold dfast_ilimit, HASH_READ_SIZE; lia)).
Qed.

Lemma dfast_search_ok st : going st -> df_ip st + 1 <= dfast_ilimit iend -> returns (ended st) (search MLS avx2 s hbl hbs ps iend st : res E _).
Proof.
  intros Hg Hlim. pose proof Hg as [[Htl Hts] Hp _ _]. pose proof Hin as [? ? ? ? ? ?]. unfold search. unfold dfast_ilimit, HASH_READ_SIZE in Hlim.
  eapply returns_bind; [apply (hash_in s ps istart iend window Hin hbl); lia|]. intros h0 Hh0.
  eapply returns_bind; [by apply (tget_tbl hbl)|]. intros m Hm.
  apply (returns_loopM (searching st) (fun x => Z.to_nat (iend - se_ip x))).
  - split; cbn; (done || (try unfold dfast_ilimit, HASH_READ_SIZE; lia)).
  - cbn. lia.
  - intros x Hx. eapply returns_mono; [by apply dfast_search_step_ok|]. intros [y|en]; [|done]. intros [Hy Hlt]. split; [done|].
    destruct Hx as [_ Hxi _ _ _]. unfold dfast_ilimit, HASH_READ_SIZE in Hxi. lia.
Qed.

(** ** After a match *)

Definition repeating (ip : Z) (st : DFastState) : Prop := going st /\ df_offset1 st <> 0 /\ df_anchor st = df_ip st /\ ip <= df_ip st.

Lemma dfast_immediate_step_ok ip st : repeating ip st ->
  returns (fun r => match r with inl y => repeating ip y /\ df_ip st < df_ip y | inr y => repeating ip y end) (immediate_step MLS avx2 s hbl hbs iend st : res E _).
Proof.
  intros (Hg & N1 & Ha & Hip). pose proof Hg as [[Htl Hts] Hp [Hr1 Hr2] (h2 & Hf)]. pose proof Hin as [? ? ? ? ? ?]. unfold immediate_step.
  destruct st as [long small anchor ip0 o1 o2 out]. cbn [df_long df_small df_anchor df_ip df_offset1 df_offset2 df_out] in *. subst anchor.
  destruct Hr1 as [Hr1 Hr1w], Hr2 as [Hr2 Hr2w]. unfold dfast_ilimit, HASH_READ_SIZE. destruct (Z.leb_spec ip0 (Z.max 0 (iend - 8))); [|done].
  rewrite !(read32_ok s) by lia. cbn [mbind res_bind]. destruct ((0 <? o2) && _) eqn:Hq; [|done]. bools.
  replace (ip0 + 4 - o2) with (ip0 - o2 + 4) by lia.
  eapply returns_bind; [apply count_from; [lia|lia|lia|apply (agree_word data d s Hv 4); (lia || done)]|]. intros n (Hn & Hle & Hall).
  eapply returns_bind; [apply (hash_in s ps istart iend window Hin hbs); lia|]. intros h Hh. eapply returns_bind; [by apply (tset_tbl hbs)|]. intros s1 Hs1.
  eapply returns_bind; [apply (hash_in s ps istart iend window Hin hbl); lia|]. intros h' Hh'. eapply returns_bind; [by apply (tset_tbl hbl)|]. intros l1 Hl1.
  pose proof (store_ok_at (E:=E) data d s Hv ps istart iend window Hin rep out _ ip0 ip0 REPCODE1_TO_OFFBASE (n + 4) o2 [o2; o1; h2] Hf ltac:(lia) ltac:(lia) ltac:(lia) ltac:(lia)) as Hst. rewrite Z.eqb_refl, Z.sub_diag in Hst.
  assert (rep_after1 saved1 o1 = o1 /\ rep_after2 saved1 saved2 o1 o2 = o2) as [E1 E2].
  { unfold rep_after1, rep_after2. by rewrite (proj2 (Z.eqb_neq o1 0)), (proj2 (Z.eqb_neq o2 0)) by lia. }
  eapply returns_bind; [apply Hst; try done; [by rewrite E1, E2|by right|lia]|]. cbn beta. intros out' Hf'. cbn [returns].
  split; [|cbn; lia]. split; [|cbn; lia]. split; cbn [df_long df_small df_anchor df_ip df_offset1 df_offset2 df_out]; [done|lia|unfold reaches; lia|].
  exists h2. unfold rep_after1, rep_after2. by rewrite (proj2 (Z.eqb_neq o1 0)), (proj2 (Z.eqb_neq o2 0)) by lia.
Qed.

Lemma match_stored_ok curr st : going st -> df_offset1 st <> 0 -> df_anchor st = df_ip st -> ps < curr -> curr + 2 <= df_ip st ->
  returns (fun st' => going st' /\ df_ip st <= df_ip st') (match_stored MLS avx2 s hbl hbs iend curr st : res E _).
Proof.
  intros Hg N1 Ha Hc0 Hc. pose proof Hg as [[Htl Hts] Hp Hr Hf]. pose proof Hin as [? ? ? ? ? ?]. unfold match_stored, dfast_ilimit, HASH_READ_SIZE.
  destruct (Z.leb_spec (df_ip st) (Z.max 0 (iend - 8))); [|cbn; split; [done|lia]].
  eapply returns_bind with (P := fun '(long, small) => tbl hbl long /\ tbl hbs small).
  { unfold insert_after.
    eapply returns_bind; [apply (hash_in s ps istart iend window Hin hbl); lia|]. intros h1 Hh1. eapply returns_bind; [by apply (tset_tbl hbl)|]. intros l1 Hl1.
    eapply returns_bind; [apply (hash_in s ps istart iend window Hin hbl); lia|]. intros h2 Hh2. eapply returns_bind; [by apply (tset_tbl hbl)|]. intros l2 Hl2.
    eapply returns_bind; [apply (hash_in s ps istart iend window Hin hbs); lia|]. intros h3 Hh3. eapply returns_bind; [by apply (tset_tbl hbs)|]. intros s1 Hs1.
    eapply returns_bind; [apply (hash_in s ps istart iend window Hin hbs); lia|]. intros h4 Hh4. eapply returns_bind; [by apply (tset_tbl hbs)|]. done. }
  intros [long small] [Hl2 Hs2].
  eapply returns_mono; [apply (returns_loopM (repeating (df_ip st)) (fun st => Z.to_nat (iend - df_ip st)) (repeating (df_ip st)))|].
  - split; [by split|]. cbn. lia.
  - cbn. lia.
  - intros x Hx. eapply returns_mono; [by apply dfast_immediate_step_ok|]. intros [y|y]; [|done]. intros [Hy Hlt]. split; [done|]. destruct Hy as [[_ Hyp _ _] _]. lia.
  - intros y (Hy & _ & _ & Hl). done.
Qed.

(** A round of the outer loop stores a match, or ends the block. *)
Lemma outer_step_ok st : going st ->
  returns (fun r => match r with inl y => going y /\ df_ip st < df_ip y | inr y =>
      tbl hbl (df_long y) /\ tbl hbs (df_small y) /\ istart <= df_anchor y <= iend /\
      exists h2, found false window data rep (istart - d) (ss_seqs (df_out y)) (ss_lits (df_out y))
        [rep_after1 saved1 (df_offset1 y); rep_after2 saved1 saved2 (df_offset1 y) (df_offset2 y); h2] (df_anchor y - d) end)
    (outer_step MLS avx2 s hbl hbs ps iend st : res E _).
Proof.
  intros Hg. pose proof Hg as [[Htl Hts] Hp [Hr1 Hr2] Hf]. pose proof Hin as [? ? ? ? ? ?]. unfold outer_step. destruct (Z.ltb_spec (dfast_ilimit iend) (df_ip st + 1)); [cbn; split_and!; (done || lia)|].
  eapply returns_bind; [by apply dfast_search_ok|]. intros en (Hel & Hes & Hec & Hfo).
  destruct (en_found en) as [ml out|o ml hl1|] eqn:Hfe; [| |cbn; split_and!; (done || lia)].
  - destruct Hfo as (N1 & Hip & Hml & He & Hfd).
    eapply returns_bind; [apply match_stored_ok; cbn [df_offset1 df_anchor df_ip]; [|done|done|lia|lia]|].
    + split; cbn [df_long df_small df_anchor df_ip df_offset1 df_offset2 df_out]; [done|lia|split; (eapply reaches_mono; [done|lia])|done].
    + cbn [df_ip]. intros st' [Hg' Hl]. split; [done|lia].
  - destruct Hfo as (Hh & Hai & Hpi & Hml & He & Ho1 & Ho & Hag). destruct Hf as (h2 & Hf).
    eapply returns_bind with (P := tbl hbl); [destruct (en_step en <? 4); [by apply (tset_tbl hbl)|done]|]. intros long Hlong.
    destruct (offset_code (E:=E) s ps istart iend window Hin o ltac:(destruct Ho; lia)) as [-> Hcode]. cbn [mbind res_bind].
    pose proof (offset_hist saved1 saved2 (df_offset1 st) (df_offset2 st) h2 o (en_ip en =? df_anchor st) (proj2 (fn_hist _ _ _ _ _ _ _ _ _ Hf)) Ho1) as Hhist.
    eapply returns_bind; [apply (store_ok_at data d s Hv ps istart iend window Hin rep (df_out st) _ (df_anchor st) (en_ip en) (o + 3) ml o _ Hf ltac:(lia) ltac:(lia) Hml ltac:(lia) Hhist); (done || lia)|].
    cbn beta. intros out' Hf'. eapply returns_bind; [apply match_stored_ok; cbn [df_offset1 df_anchor df_ip]; [|lia|done|lia|lia]|].
    + split; cbn [df_long df_small df_anchor df_ip df_offset1 df_offset2 df_out]; [done|lia|split; (eapply reaches_mono; [done|lia])|]. by eexists.
    + cbn [df_ip]. intros st' [Hg' Hl]. split; [done|lia].
Qed.
End block.

(** ** The block *)

Section generic.
Context {E : Type} (ms : MatchState) (data : list Z) (a b d : Z) (s : Src) (rep : list Z).
Context (Hin : block_in ms data a b d s) (Hrep : hist_ok rep) (Hstrat : strategy (ms_cparams ms) = DFast).

Lemma compress_dfast_generic_ok MLS avx2 :
  returns (block_found false ms data a b d rep) (compress_block_generic MLS avx2 ms s (a + d, b + d) rep (MkStore [] []) : res E _).
Proof.
  destruct (block_in_views _ _ _ _ _ _ Hin) as (Hv & Hlo & Hend & _). pose proof Hin as [Hent [Hd Hb] [[Hl1 Hl2] Hl3] _]. pose proof Hent as [Htb [_ [_ Hab]]]. pose proof Htb as [Hcp _ _].
  pose proof Hcp as [_ Hc Hh _ _ _]. unfold ZSTD_HASHLOG_MIN in Hh. destruct (hash_table_ok ms Htb) as [Htbl Hsh]. destruct (chain_table_ok ms Htb Hstrat) as [Hcbl Hch]. pose proof (block_search _ _ _ _ _ _ Hin) as Hsi.
  unfold compress_block_generic. rewrite (proj2 (Z.leb_le (a + d) (b + d))), (proj2 (Z.leb_le (b + d) (sr_end s))) by lia. cbn [andb rassert mbind res_bind].
  rewrite (proj2 (Z.leb_le 1 (hash_log _))), (proj2 (Z.leb_le (hash_log _) 32)), (proj2 (Z.leb_le 1 (chain_log _))), (proj2 (Z.leb_le (chain_log _) 32)) by lia. cbn [andb rassert mbind res_bind].
  set (ps := ms_lowest_match_index ms (b + d - 1)) in *. pose proof Hsi as [Hps1 [Hps2 _] _ _ _ _].
  destruct Hrep as (r0 & r1 & r2 & -> & Hr0 & Hr1 & Hr2). change (idx [r0; r1; r2] 0) with (Ok r0 : res E Z). change (idx [r0; r1; r2] 1) with (Ok r1 : res E Z). cbn [mbind res_bind].
  set (ip0 := a + d + _). assert (ps < ip0 /\ a + d <= ip0 < b + d) as [Hip Hip2] by (unfold ip0; destruct (Z.eqb_spec (a + d) ps); cbn [Z.b2z]; lia).
  destruct (block_rep _ _ _ _ _ _ Hin ip0 r1 Hip2 Hr1) as (v2 & s2 & -> & Hv2 & Er1 & _). destruct (block_rep _ _ _ _ _ _ Hin ip0 r0 Hip2 Hr0) as (v1 & s1 & -> & Hv1 & Er0 & Hz1).
  rewrite Hsh, Hch. pose proof Htbl as [Htl _]. pose proof Hcbl as [Hcl _]. rewrite Htl, Hcl, !Z.eqb_refl. cbn [rassert mbind res_bind].
  set (hbl := hash_log (ms_cparams ms)) in *. set (hbs := chain_log (ms_cparams ms)) in *. set (window := 2 ^ window_log (ms_cparams ms)) in *.
  set (st0 := MkDFast _ _ _ _ _ _ _). assert (going data d s hbl hbs ps (a + d) (b + d) window [r0; r1; r2] s1 s2 st0) as Hgo.
  { split; cbn [st0 df_long df_small df_anchor df_ip df_offset1 df_offset2 df_out]; [done|lia|done|]. exists r2. destruct (rep_start s1 s2 v1 v2 r0 r1 Er0 Hz1 Er1) as [E0 E1].
    cbn [ss_seqs ss_lits]. rewrite <- E0, <- E1. replace (a + d - d) with a by lia. apply found_nil; [|lia]. by exists r0, r1, r2. }
  eapply returns_bind; [apply (returns_loopM (going data d s hbl hbs ps (a + d) (b + d) window [r0; r1; r2] s1 s2) (fun st => Z.to_nat (b + d - df_ip st))); [done|cbn [st0 df_ip]; lia|]|].
  { intros st Hst. eapply returns_mono; [apply (outer_step_ok data d s Hv MLS avx2 hbl hbs ps (a + d) (b + d) _ Hsi); (exact Hst || lia)|].
    intros [y|y]; [|intros Hy; exact Hy]. intros [Hy Hlt]. split; [done|]. destruct Hy as [_ Hyp _ _]. lia. }
  cbn beta. intros st (Hst & Hst2 & Han & h2 & Hf). fold (rep_after1 s1 (df_offset1 st)). set (k1 := rep_after1 s1 (df_offset1 st)).
  change (if negb (df_offset2 st =? 0) then _ else _) with (rep_after2 s1 s2 (df_offset1 st) (df_offset2 st)). set (k2 := rep_after2 _ _ _ _).
  rewrite store_ok by (change (zlen [r0; r1; r2]) with 3; lia). cbn [mbind res_bind]. rewrite store_ok by (rewrite zlen_zset; change (zlen [r0; r1; r2]) with 3; lia). cbn [mbind res_bind returns].
  change (zset (zset [r0; r1; r2] 0 k1) 1 k2) with [k1; k2; r2]. unfold block_found.
  split. { destruct Hent as [_ Hwin]. split; [|done]. apply (put_chain_ok (ms_with_ws ms (put_words (ms_ws ms) 0 (df_long st)))); [by apply put_hash_ok|done|done]. }
  split; [done|]. split; [lia|]. exists [k1; k2; h2]. replace (a + d - d) with a in Hf by lia. split; [exact Hf|]. apply rep_end; [apply Hf|done].
Qed.
End generic.

Lemma compress_block_dfast_ok {E} avx2 ms data a b d s rep : block_in ms data a b d s -> hist_ok rep -> strategy (ms_cparams ms) = DFast ->
  returns (block_found false ms data a b d rep) (compress_block_dfast avx2 ms s (a + d, b + d) rep (MkStore [] []) : res E _).
Proof.
  intros Hin Hrep Hs. unfold compress_block_dfast. cbn [snd]. rewrite (no_ext_dict ms a b d) by apply Hin. by apply compress_dfast_generic_ok.
Qed.
