(* ===== verification/Matcher.v ===== *)
(** * The match finders' state in the block loop ([src/compress/block.rs], [src/compress/mod.rs])

    The interface of [Finder] by [MatchState] and its block compressors, and
    its law. The long distance matcher and the strategies from [Greedy] up
    are not modelled: a context is not reset for them here. *)

From S2P Require Import Prelude Words Constants Errors SeqExec SeqDecode SeqRun SeqStream SeqSection FseEncode.
From S2P Require Import Params Split BlockEncode BlockRound Window MatchCommon MatchState Finder Search Fast DFast.

(** The strategies with a block compressor here. *)
Definition searched (cp : CParams) : bool :=
  match strategy cp with
  | Fast | DFast => true
  | _ => false
  end.

Section matcher.
Context (avx2 : bool).

(** [run_block_compressor] without a dictionary. *)
Definition run_block_compressor (ms : MatchState) (src : Src) (block : Z * Z) (rep : list Z) (out : SeqStore) : dec (MatchState * SeqStore * list Z * Z) :=
  match strategy (ms_cparams ms) with
  | Fast => compress_block_fast avx2 ms src block rep out
  | DFast => compress_block_dfast avx2 ms src block rep out
  | _ => Fault
  end.

(** The match state's part of [Context::reset]. *)
Definition matcher_reset (old : option MatchState) (cp : CParams) (ldm : bool) (origin pledged : Z) (frequently : bool) : dec (MatchState * bool) :=
  _ ← rassert (negb ldm);
  let method := default_search_method cp in
  let needed := needed_space cp method (fun _ => 0) pledged in
  '(ms, resized) ← match old with
                   | Some ms => reset_needing ms cp origin method needed
                   | None => ms ← new_needing cp origin method needed; Ok (ms, false)
                   end;
  Ok (set_correct_frequently ms frequently, resized).

(** The search of [build_seq_store]. *)
Definition matcher_find (ms : MatchState) (data : list Z) (positions : Z * Z) (rep : list Z) : dec (MatchState * SeqStore * list Z * Z) :=
  '(ms, src, block) ← start_block ms data positions;
  '(ms, store, rep, anchor) ← run_block_compressor ms src block rep (MkStore [] []);
  Ok (ms, store, rep, ms_pos ms anchor).

#[local] Instance matcher : Finder MatchState := {
  finder_params := ms_cparams;
  finder_reset := matcher_reset;
  enter_block := ms_enter_block;
  find_matches := matcher_find;
}.

(** ** Its law *)

Lemma run_ok ms data a b d s rep : block_in ms data a b d s -> hist_ok rep -> searched (ms_cparams ms) = true ->
  returns (block_found false ms data a b d rep) (run_block_compressor ms s (a + d, b + d) rep (MkStore [] [])).
Proof. intros Hin Hrep Hs. unfold run_block_compressor, searched in *. destruct (strategy (ms_cparams ms)) eqn:Hst; try done; [by apply compress_block_fast_ok|by apply compress_block_dfast_ok]. Qed.

(** A state at a position of an input, entered by a block of it. *)
Definition matcher_at (ms : MatchState) (data : list Z) (p : Z) : Prop := ms_at ms p /\ searched (ms_cparams ms) = true /\ zlen data < 2 ^ 63.

Definition matcher_entered (ms : MatchState) (data : list Z) (block : Z * Z) : Prop :=
  (exists d, ms_entered ms block.1 block.2 d) /\ searched (ms_cparams ms) = true /\ zlen data < 2 ^ 63 /\
  block.2 <= zlen data /\ block.2 - block.1 <= 2 ^ 17 /\ block.2 - block.1 <= 2 ^ window_log (ms_cparams ms).

Lemma matcher_reset_ok old cp pledged freq data : params_ok cp -> searched cp = true -> (forall m, old = Some m -> ms_kept m) -> zlen data < 2 ^ 63 ->
  returns (fun '(m, _) => matcher_at m data 0 /\ ms_cparams m = cp) (matcher_reset old cp false 0 pledged freq).
Proof.
  intros Hcp Hs Hold Hd. unfold matcher_reset. cbn [negb rassert mbind res_bind].
  eapply returns_bind with (P := fun '(m, _) => ms_at m 0 /\ ms_cparams m = cp).
  - destruct old as [m|]; [apply reset_needing_ok; (done || by apply Hold)|].
    eapply returns_bind; [by apply (new_needing_ok cp 0)|]. by intros m Hm.
  - intros [m r] [Hm Hc]. cbn [returns]. split; [|done]. split; [by apply set_frequently_at|]. cbn. by rewrite Hc.
Qed.

Lemma matcher_enter_ok m data a b : matcher_at m data a -> a < b -> b <= zlen data -> b - a <= 2 ^ 17 -> b - a <= 2 ^ window_log (ms_cparams m) ->
  returns (fun m' => matcher_entered m' data (a, b) /\ ms_cparams m' = ms_cparams m) (ms_enter_block m (a, b) : dec _).
Proof.
  intros (Hat & Hs & Hd) Hab Hb Hl Hw. pose proof Hat as [_ [d [_ _ _ _ [_ Hp] _]]].
  eapply returns_mono; [apply enter_block_ok; (done || lia)|]. intros m' [He Hc]. unfold matcher_entered. rewrite Hc. cbn [fst snd]. done.
Qed.

Lemma matcher_find_ok m data a b rep : matcher_entered m data (a, b) -> bytes data -> hist_ok rep -> 2 <= b - a ->
  returns (fun '(m', store, rep', anchor) => matcher_at m' data b /\ ms_cparams m' = ms_cparams m /\ anchor <= b <= zlen data /\
      exists hist, found false (2 ^ window_log (ms_cparams m)) data rep a (ss_seqs store) (ss_lits store) hist anchor /\ rep_linked false rep' hist)
    (matcher_find m data (a, b) rep).
Proof.
  intros ([d He] & Hs & Hd & Hb & Hl & Hw) Hdata Hrep H2. cbn [fst snd] in *. unfold matcher_find.
  eapply returns_bind; [by apply (start_block_ok m data a b d)|]. intros [[m1 s] blk] (He1 & Hc1 & -> & Hw1 & ->).
  assert (block_in m1 data a b d (MkSrc (zdrop (w_low (ms_window m) - d) data) (w_low (ms_window m)))) as Hin.
  { split; [done|done| |by rewrite Hw1]. rewrite Hc1. lia. }
  eapply returns_bind; [apply (run_ok m1 data a b d); [done|done|by rewrite Hc1]|].
  intros [[[m2 store] rep'] anchor] (He2 & Hc2 & Ha & hist & Hf & Hr). rewrite Hc1 in Hc2, Hf. cbn [returns].
  pose proof (fn_range _ _ _ _ _ _ _ _ _ Hf) as [Hr1 Hr2]. pose proof He2 as [_ [Hwin _]]. unfold ms_pos.
  rewrite (window_at_pos _ b d anchor Hwin) by (change (2 ^ 64) with 18446744073709551616; change (2 ^ 63) with 9223372036854775808 in *; lia).
  split. { split; [by apply (entered_at m2 a b d)|]. by rewrite Hc2. }
  split; [done|]. split; [lia|]. by exists hist.
Qed.

#[local] Instance matcher_laws : FinderLaws MatchState.
Proof.
  refine {| fl_deep := false; fl_usable := fun cp => searched cp = true; fl_kept := ms_kept; fl_at := matcher_at; fl_entered := matcher_entered |}.
  - intros old cp pledged freq data Hcp Hs Hold Hd. by apply matcher_reset_ok.
  - intros m data a b Hat Hab Hb Hl Hw. by apply matcher_enter_ok.
  - intros m data a b ([d He] & Hs & Hd & _). split; [|done]. by apply (entered_at m a b d).
  - intros m data a b rep He Hd Hr Hatt. apply matcher_find_ok; [done..|]. unfold attempts_compression in Hatt.
    change (MIN_CBLOCK_SIZE + ZSTD_BLOCKHEADERSIZE + 1) with 6 in Hatt. bools. lia.
  - intros m data p [Hat _]. by apply (ms_at_kept m p).
Defined.
End matcher.
