(* ===== verification/Blocks.v ===== *)
(** * The blocks of a frame ([src/compress/block.rs], [src/compress/mod.rs])

    The block loop over a match finder: how a job's input is cut into blocks
    as it arrives, each block's sequences, its split and its emission, and the
    frame around the one job of a single-threaded compressor without a
    dictionary. [BlockScratch]'s reusable buffers leave nothing; the table the
    splitter's estimator builds in and the pre-splitter's fingerprints are
    kept. *)

From S2P Require Import Prelude Words Constants Xxh64 Errors FseEncode Entropy Params SeqDecode.
From S2P Require Import HufCTable HufLiterals FrameWrite FrameEmit Split BlockEncode Presplit Splitter Finder.

(** ** How blocks are cut *)

(** [BlockSizing]. *)
Record BlockSizing := MkSizing {
  block_size_max : Z;
  sz_split_level : option Z;
  chunk_size : Z;
  header_len : Z;
}.

(** [MIN_OVERLAP]. *)
Definition MIN_OVERLAP : Z := Z.shiftl 32 10.

(** [InputEnd]. *)
Inductive InputEnd := Open (end_ : Z) | Chunk (end_ : Z) | JobEnd (end_ : Z).

#[export] Instance InputEnd_eq_dec : EqDecision InputEnd.
Proof. solve_decision. Defined.

(** [JobBlocks]. *)
Record JobBlocks := MkJob {
  jb_sizing : BlockSizing;
  job_start : Z;
  first_job : bool;
  last_job : bool;
  jb_done : Z;
  first_chunk_end : Z;
  gained : Z;
}.

(** [JobBlocks::new]. *)
Definition job_new (sizing : BlockSizing) (job_start : Z) (first_job last_job : bool) : JobBlocks :=
  MkJob sizing job_start first_job last_job 0 (chunk_size sizing) 0.

(** [JobBlocks::next_start]. *)
Definition next_start (jb : JobBlocks) : Z := wadd 64 (job_start jb) (jb_done jb).

(** [JobBlocks::rebase]. *)
Definition job_rebase (jb : JobBlocks) (shift : Z) : JobBlocks :=
  MkJob (jb_sizing jb) (wsub 64 (job_start jb) shift) (first_job jb) (last_job jb) (jb_done jb) (first_chunk_end jb) (gained jb).

(** [JobBlocks::unsplit_size]. *)
Definition unsplit_size (jb : JobBlocks) (start : Z) (input : InputEnd) : Z :=
  let chunk := chunk_size (jb_sizing jb) in
  let offset := wsub 64 start (job_start jb) in
  let chunk_end := Z.min ((offset / chunk + 1) * chunk) (2 ^ 64 - 1) in
  let chunk_end := match input with
                   | Chunk end_ | JobEnd end_ => Z.min chunk_end (wsub 64 end_ (job_start jb))
                   | Open _ => chunk_end
                   end in
  Z.min (wsub 64 chunk_end offset) (block_size_max (jb_sizing jb)).

(** [JobBlocks::ready]. *)
Definition ready (jb : JobBlocks) (start : Z) (input : InputEnd) : bool :=
  match input with
  | Open end_ => (start <? end_) && (block_size_max (jb_sizing jb) <? end_ - start)
  | Chunk end_ | JobEnd end_ => start <? end_
  end.

(** [JobBlocks::has_ready]. *)
Definition has_ready (jb : JobBlocks) (input : InputEnd) : bool := ready jb (next_start jb) input.

(** [JobBlocks::overlaps_at]. *)
Definition overlaps_at (jb : JobBlocks) (start : Z) (input : InputEnd) : bool :=
  ready jb start input && (MIN_OVERLAP <=? unsplit_size jb start input).

(** [JobBlocks::overlaps]. *)
Definition overlaps (jb : JobBlocks) (input : InputEnd) : bool :=
  let start := next_start jb in
  ready jb start input && overlaps_at jb (start + unsplit_size jb start input) input.

(** [JobBlocks::is_last]. *)
Definition is_last_block (jb : JobBlocks) (block : Z * Z) (input : InputEnd) : bool :=
  last_job jb && bool_decide (input = JobEnd block.2).

(** [JobBlocks::input_ended]. *)
Definition input_ended (jb : JobBlocks) (input : InputEnd) : JobBlocks :=
  match input with
  | Chunk end_ =>
      MkJob (jb_sizing jb) (job_start jb) (first_job jb) (last_job jb) (jb_done jb)
        (Z.min (first_chunk_end jb) (wsub 64 end_ (job_start jb))) (gained jb)
  | Open _ | JobEnd _ => jb
  end.

(** [JobBlocks::savings]. *)
Definition savings (jb : JobBlocks) (start gained : Z) : Z :=
  let owes_header := first_job jb && (first_chunk_end jb <=? wsub 64 start (job_start jb)) in
  gained - (if owes_header then header_len (jb_sizing jb) else 0).

(** [JobBlocks::block]. *)
Definition job_block (jb : JobBlocks) (src : list Z) (start : Z) (input : InputEnd) (savings : Z) (presplit : option Stats)
    : dec (Z * Z * option Stats) :=
  let unsplit := unsplit_size jb start input in
  '(size, presplit) ← (match sz_split_level (jb_sizing jb) with
                       | Some level =>
                           if (unsplit =? SPLIT_BLOCK_SIZE) && (3 <=? savings) then
                             data ← slice src start (start + unsplit);
                             '(size, stats) ← split_block_at presplit data level;
                             Ok (size, Some stats)
                           else Ok (unsplit, presplit)
                       | None => Ok (unsplit, presplit)
                       end);
  Ok (start, start + size, presplit).

(** [JobBlocks::is_first]. *)
Definition is_first_block (jb : JobBlocks) (block : Z * Z) : bool := block.1 =? job_start jb.

(** [JobBlocks::next]. *)
Definition next_block (jb : JobBlocks) (src : list Z) (input : InputEnd) (presplit : option Stats) : dec (Z * Z * option Stats) :=
  let start := next_start jb in
  job_block jb src start input (savings jb start (gained jb)) presplit.

(** [JobBlocks::next_unwritten]. *)
Definition next_unwritten (jb : JobBlocks) (src : list Z) (start : Z) (input : InputEnd) (least_gained : Z) (presplit : option Stats)
    : dec (option (Z * Z) * option Stats) :=
  let least_savings := savings jb start least_gained in
  let may_split := match sz_split_level (jb_sizing jb) with Some _ => true | None => false end
                   && (unsplit_size jb start input =? SPLIT_BLOCK_SIZE) in
  if may_split && (least_savings <? 3) then Ok (None, presplit)
  else
    '(a, b, presplit) ← job_block jb src start input least_savings presplit;
    Ok (Some (a, b), presplit).

(** [JobBlocks::wrote]. *)
Definition wrote (jb : JobBlocks) (block : Z * Z) (written : Z) : dec JobBlocks :=
  _ ← rassert (block.1 =? next_start jb);
  Ok (MkJob (jb_sizing jb) (job_start jb) (first_job jb) (last_job jb) (wsub 64 block.2 (job_start jb)) (first_chunk_end jb)
        (gained jb + ((block.2 - block.1) - written))).

(** ** The block loop *)

(** What is kept of [BlockScratch]. *)
Record Scratch := MkBScratch { bs_splitter : FseCTable; bs_presplit : option Stats }.

(** [BlockScratch::default]. *)
Definition scratch_default : Scratch := MkBScratch ctable_default None.

Section finder.
Context {M : Type} `{Finder M}.

(** [build_seq_store]. *)
Definition build_seq_store (ms : M) (data : list Z) (block : Z * Z) (rep : list Z) : dec (M * option (SeqStore * list Z)) :=
  let block_len := block.2 - block.1 in
  if negb (attempts_compression block_len) then Ok (ms, None)
  else
    '(ms, store, rep, anchor) ← find_matches ms data block rep;
    last ← slice data anchor block.2;
    let store := MkStore (ss_lits store ++ last) (ss_seqs store) in
    _ ← rassert (zlen (ss_lits store) + foldr Z.add 0 (match_len <$> ss_seqs store) =? block_len);
    Ok (ms, Some (store, rep)).

(** [compress_block]. *)
Definition compress_block (ms : M) (src : list Z) (block : Z * Z) (is_first is_last split : bool) (state : BlockState) (scratch : Scratch)
    (out : list Z) : dec (M * BlockState * Scratch * list Z) :=
  let cparams := finder_params ms in
  ms ← enter_block ms block;
  '(ms, built) ← build_seq_store ms src block (bs_rep state);
  '(parts, table) ← (if split then
                       match built with
                       | Some (store, _) =>
                           '(parts, table) ← derive store (bs_entropy state) cparams (block.2 - block.1) (bs_splitter scratch);
                           Ok (Some parts, table)
                       | None => Ok (Some [], bs_splitter scratch)
                       end
                     else Ok (None, bs_splitter scratch));
  '(out, state, _) ← emit_block src block built parts cparams is_first is_last state out;
  Ok (ms, state, MkBScratch table (bs_presplit scratch), out).

(** One round of the loop of [compress_blocks]. *)
Definition blocks_step (src : list Z) (input : InputEnd) (split : bool) (st : M * JobBlocks * BlockState * Scratch * list Z)
    : dec (M * JobBlocks * BlockState * Scratch * list Z + M * JobBlocks * BlockState * Scratch * list Z) :=
  let '(ms, blocks, state, scratch, out) := st in
  if ready blocks (next_start blocks) input then
    '(a, b, presplit) ← next_block blocks src input (bs_presplit scratch);
    let written := zlen out in
    '(ms, state, scratch, out) ← compress_block ms src (a, b) (is_first_block blocks (a, b)) (is_last_block blocks (a, b) input) split
                                   state (MkBScratch (bs_splitter scratch) presplit) out;
    blocks ← wrote blocks (a, b) (zlen out - written);
    Ok (inl (ms, blocks, state, scratch, out))
  else Ok (inr (ms, input_ended blocks input, state, scratch, out)).

(** [compress_blocks], not pipelined: every block takes a byte of the input. *)
Definition compress_blocks (ms : M) (src : list Z) (blocks : JobBlocks) (input : InputEnd) (split : bool) (state : BlockState)
    (scratch : Scratch) (out : list Z) : dec (M * JobBlocks * BlockState * Scratch * list Z) :=
  loopM (S (length src)) (blocks_step src input split) (ms, blocks, state, scratch, out).

(** ** The frame *)

(** The options of [CompressOptions] a single-threaded frame without a
    dictionary reads, the long distance matcher's own at their defaults. *)
Record CompressOptions := MkOpts {
  level : Z;
  opt_checksum : bool;
  ldm : ParamSwitch;
  split_after_sequences : ParamSwitch;
  block_splitter_level : Z;
  overflow_correct_frequently : bool;
}.

(** [BLOCK_SPLITTER_LEVEL_MAX] and [LDM_DEFAULT_WINDOW_LOG]. *)
Definition BLOCK_SPLITTER_LEVEL_MAX : Z := 6.
Definition LDM_DEFAULT_WINDOW_LOG : Z := 27.

(** [CompressOptions::default]. *)
Definition options_default : CompressOptions := MkOpts ZSTD_CLEVEL_DEFAULT false PsAuto PsAuto 0 false.

(** [CompressOptions::frame_cparams], and whether long distance matching is
    on. *)
Definition frame_cparams (opts : CompressOptions) (level : Z) (src_size : option Z) (dict_size : Z) (mode : CParamMode)
    : dec (CParams * bool) :=
  _ ← rassert (block_splitter_level opts <=? BLOCK_SPLITTER_LEVEL_MAX);
  cparams ← for_level_with level src_size dict_size mode;
  cparams ← (match ldm opts with
             | PsEnable => adjust_with (with_window_log cparams LDM_DEFAULT_WINDOW_LOG) src_size dict_size mode
             | PsAuto | PsDisable => Ok cparams
             end);
  let enabled := match ldm opts with
                 | PsAuto => (strategy_id BtOpt <=? strategy_id (strategy cparams)) && (27 <=? window_log cparams)
                 | PsEnable => true
                 | PsDisable => false
                 end in
  Ok (cparams, enabled).

(** [block_sizing]; [mt] is ZSTDMT's. *)
Definition block_sizing (opts : CompressOptions) (cparams : CParams) (mt : bool) (header_len : Z) : BlockSizing :=
  MkSizing (Z.min ZSTD_BLOCKSIZE_MAX (wshl 64 1 (window_log cparams))) (split_level (block_splitter_level opts) (strategy cparams))
    (if mt then 4 * ZSTD_BLOCKSIZE_MAX else 2 ^ 64 - 1) header_len.

(** [Context]: the finder once it was reset, the scratch, the state. *)
Record Context_ := MkContext { cx_ms : option M; cx_scratch : Scratch; cx_state : BlockState }.

(** [Context::new_boxed]. *)
Definition context_new : Context_ := MkContext None scratch_default (state_reset state_default).

(** [Context::reset]. *)
Definition context_reset (cx : Context_) (cparams : CParams) (origin : Z) (ldm : bool) (pledged : Z) (frequently : bool)
    : dec (M * Scratch * BlockState) :=
  '(ms, resized) ← finder_reset (cx_ms cx) cparams ldm origin pledged frequently;
  let scratch := match cx_ms cx with Some _ => if resized : bool then scratch_default else cx_scratch cx | None => cx_scratch cx end in
  Ok (ms, scratch, cx_state cx).

(** [compress_job] of the first job without a dictionary, [begin_job] with
    it. *)
Definition compress_job (cx : Context_) (data : list Z) (cparams : CParams) (ldm frequently : bool) (sizing : BlockSizing) (job : Z * Z)
    (is_last split : bool) (out : list Z) : dec (Context_ * list Z) :=
  let pledged := zlen data - job.1 in
  '(ms, scratch, state) ← context_reset cx cparams job.1 ldm pledged frequently;
  let state := state_reset state in
  let blocks := job_new sizing job.1 true is_last in
  '(ms, _, state, scratch, out) ← compress_blocks ms data blocks (JobEnd job.2) split state scratch out;
  Ok (MkContext (Some ms) scratch state, out).

(** [Compressor::compress_frame] without a dictionary and with no job size:
    the one job. *)
Definition compress_frame (opts : CompressOptions) (cx : Context_) (src out : list Z) : dec (Context_ * list Z) :=
  '(cparams, ldm) ← frame_cparams opts (level opts) (Some (zlen src)) 0 NoAttachDict;
  let header_start := zlen out in
  let out := write_frame_header out (Some (zlen src)) (window_log cparams) (opt_checksum opts) 0 in
  let header_len := zlen out - header_start in
  if is_empty src then
    '(ms, scratch, state) ← context_reset cx cparams 0 ldm 0 (overflow_correct_frequently opts);
    let out := write_raw_block out [] true in
    out ← write_epilogue out (if opt_checksum opts then Some Xxh64.new else None);
    Ok (MkContext (Some ms) scratch state, out)
  else
    let split := block_splitter_enabled (split_after_sequences opts) cparams in
    let sizing := block_sizing opts cparams false header_len in
    checksum ← (if opt_checksum opts then h ← update Xxh64.new src; Ok (Some h) else Ok None);
    '(cx, out) ← compress_job cx src cparams ldm (overflow_correct_frequently opts) sizing (0, zlen src) true split out;
    out ← write_epilogue out checksum;
    Ok (cx, out).

(** [compress_with] and [compress]. *)
Definition compress_with (data : list Z) (opts : CompressOptions) : dec (list Z) :=
  '(_, out) ← compress_frame opts context_new data [];
  Ok out.

Definition compress (data : list Z) (lv : Z) : dec (list Z) :=
  compress_with data (MkOpts lv false PsAuto PsAuto 0 false).
End finder.
