(* ===== verification/BlocksProofs.v ===== *)
(** * Compressed frames decompress ([src/compress/block.rs], [src/compress/mod.rs])

    With any match finder that keeps its law: every block is built, cut,
    coded and written, the loop ends with the whole input written, and the
    frame decompresses to the input. *)

From S2P Require Import Prelude Words Constants Xxh64 Errors FseTable FseBuild Headers SeqTables SeqExec SeqDecode SeqRun SeqStream SeqSection.
From S2P Require Import Copy CopyProofs BlockDecode DecodeDict Frame FrameRef FrameProofs Decompress.
From S2P Require Import FseEncode Entropy Params HufCStream HufCTable HufSection FrameWrite FrameEmit Split BlockEncode BlockRound.
From S2P Require Import Presplit Splitter Finder Blocks.

Lemma stored_total dict deep window bsm h data lits seqs rep rep' : stored dict deep window bsm h data lits seqs rep rep' ->
  zlen lits + foldr Z.add 0 (match_len <$> seqs) = zlen data.
Proof.
  intros [_ _ Hok _ _ _ Hr]. unfold lz_block in Hr. destruct (lz_sequences _ _ _ _ _ _ _) as [[h' l']|] eqn:Hs; [|done]. cbn [mbind option_bind] in Hr.
  destruct (_ <=? _); [|done]. injection Hr as Hr.
  destruct (lz_sequences_front _ _ _ _ _ _ _ _ _ (resolved_lengths seqs rep Hok) Hs) as (l0 & x & -> & -> & H1 & H2 & _).
  destruct (resolved_sums seqs rep Hok) as [S1 S2]. rewrite S1 in H1. rewrite S2 in H2. apply (f_equal zlen) in Hr. rewrite !zlen_app in *. lia.
Qed.

(** Codes of every kind: no dictionary restricts them. *)
Definition all_valid : SeqValid := MkValid (fun _ => True) (fun _ => True) (fun _ => True).

Lemma all_valid_ok q : seq_ok q -> seq_valid all_valid q.
Proof. done. Qed.

(** The tables of a block state, whatever they hold. *)
Record state_kept (st : BlockState) : Prop := {
  kp_huf : slots_wf (et_huf (bs_entropy st)) /\ Forall (fun t => zlen (elts t) = 256) (slots (et_huf (bs_entropy st)));
  kp_fse : forall sl, (sl = fs_ll (et_fse (bs_entropy st)) \/ sl = fs_of (et_fse (bs_entropy st)) \/ sl = fs_ml (et_fse (bs_entropy st))) ->
    slots_wf sl /\ Forall (fun ct => zlen (state_table ct) = 512) (slots sl);
}.

Lemma state_default_kept : state_kept state_default.
Proof.
  split.
  - split; [split; [done|by left]|by repeat constructor].
  - intros sl [->|[->| ->]]; (split; [split; [done|by left]|by repeat constructor]).
Qed.

Lemma linked_kept dict V deep ws st : block_linked dict V deep ws st -> state_kept st.
Proof.
  intros [_ [_ (W1 & L1 & _) (W2 & L2 & _) (W3 & L3 & _)] (W & L & _) _]. split; [done|]. by intros sl [->|[->| ->]].
Qed.

Lemma cleared_none {T} (s : Slots T) : slots_wf s -> slots_wf (slots_clear s) /\ slots (slots_clear s) = slots s /\ slots_held (slots_clear s) = (Ok HNone : dec _).
Proof.
  intros [Hl Hc]. split; [by split|]. split; [done|]. unfold slots_held, slots_clear. cbn [slots cur slot_mode].
  destruct (zget_is_Some (slots s) (cur s) ltac:(lia)) as [t Ht]. by rewrite (idx_ok _ _ _ Ht).
Qed.

(** A reset state and a fresh decoder are linked: nothing is held. *)
Lemma reset_linked deep st : state_kept st -> block_linked None all_valid deep (start_scratch scratch_new None) (state_reset st).
Proof.
  intros [[Hw H256] Hf]. destruct (cleared_none _ Hw) as (Hw' & Hs' & Hh').
  split.
  - change (start_scratch scratch_new None) with (scratch_reset scratch_new). apply (scratch_reset_ok None), scratch_new_ok.
  - assert (forall t kind W sl, (sl = fs_ll (et_fse (bs_entropy st)) \/ sl = fs_of (et_fse (bs_entropy st)) \/ sl = fs_ml (et_fse (bs_entropy st))) ->
      slot_linked None fse_new t kind W (slots_clear sl)) as H.
    { intros t kind W sl Hsl. destruct (Hf sl Hsl) as [Wf L]. destruct (cleared_none _ Wf) as (Wf' & Es & Eh). split; [done|].
      split; [by rewrite Es|]. exists HNone. split; [done|]. by exists (fun _ => True). }
    split; [apply fse_new_wf|apply H; tauto..].
  - split; [done|]. split; [done|]. exists HNone, []. split; [done|]. split; [done|]. by intros [=].
  - apply rep_linked_refl, init_hist_ok.
Qed.

Section frame.
Context {M : Type} `{FinderLaws M}.
Context (data : list Z) (Hb : bytes data) (Hn : zlen data < 2 ^ 45) (cp : CParams) (Hcp : params_ok cp).
Let window := written_window (Some (zlen data)) (window_log cp).
Let bsm := Z.min window MAX_BLOCK_SIZE.
Abbreviation linked := (block_linked None all_valid fl_deep).
Abbreviation emitted := (emits None window bsm).

Lemma window_range : 0 <= window /\ 0 <= bsm <= MAX_BLOCK_SIZE /\ bsm <= 2 ^ window_log cp /\ (2 ^ window_log cp <= window \/ zlen data <= window) /\
  forall n, n <= zlen data -> n <= MAX_BLOCK_SIZE -> n <= 2 ^ window_log cp -> n <= bsm.
Proof.
  pose proof (Z.pow_nonneg 2 (window_log cp) ltac:(lia)). pose proof (zlen_nonneg data).
  unfold bsm, window, written_window. change MAX_BLOCK_SIZE with 131072. destruct (Z.leb_spec (zlen data) (2 ^ window_log cp)); split_and!; try lia; intros; lia.
Qed.

(** A block of the input, from what the finder stores to what is written. *)
Lemma compress_block_ok ms a b first last split st sc out ws :
  fl_at ms data a -> finder_params ms = cp -> 0 <= a < b -> b <= zlen data -> b - a <= MAX_BLOCK_SIZE -> b - a <= 2 ^ window_log cp ->
  linked ws st -> table_ok (bs_splitter sc) ->
  returns (fun '(ms', st', sc', out') => fl_at ms' data b /\ finder_params ms' = cp /\ table_ok (bs_splitter sc') /\ bs_presplit sc' = bs_presplit sc /\
      exists out1 blk ws', out' = out ++ out1 /\ ztake b data = ztake a data ++ blk /\ emitted ws (ztake a data) out1 blk ws' last /\ linked ws' st')
    (compress_block ms data (a, b) first last split st sc out).
Proof.
  intros Hat Hms Hab Hbl Hmax Hwl Hlk Ht. destruct window_range as (Hw0 & Hbsm & _ & Hw & Hfit). specialize (Hfit (b - a) ltac:(lia) Hmax Hwl).
  change MAX_BLOCK_SIZE with 131072 in *. unfold compress_block. cbn [fst snd].
  eapply returns_bind; [apply (fl_enter ms data a b); [done|lia|lia|change (2 ^ 17) with 131072; lia|by rewrite Hms]|]. intros ms1 [Hen Hms1].
  rewrite Hms in Hms1. set (blk := ztake (b - a) (zdrop a data)). assert (slice data a b = (Ok blk : dec _)) as Hsl by (rewrite slice_ok by lia; done).
  assert (zlen blk = b - a) as Hzb by (unfold blk; rewrite zlen_ztake by (rewrite zlen_zdrop; lia); lia).
  assert (ztake b data = ztake a data ++ blk) as Hcut.
  { unfold blk, ztake, zdrop. replace (Z.to_nat b) with (Z.to_nat a + Z.to_nat (b - a))%nat by lia. by rewrite take_take_drop. }
  pose proof (linked_hist _ _ _ Hlk) as Hrep.
  eapply returns_bind with (P := fun '(ms2, built) => fl_at ms2 data b /\ finder_params ms2 = cp /\
    match built with Some (store, rep') => stored None fl_deep window bsm (ztake a data) blk (ss_lits store) (ss_seqs store) (bs_rep st) rep' | None => True end).
  { unfold build_seq_store. cbn [fst snd]. destruct (attempts_compression (b - a)) eqn:Hatt; cbn [negb]; [|cbn; split; [by apply (fl_skip ms1 data a b)|done]].
    eapply returns_bind; [by apply (fl_find ms1 data a b)|]. intros [[[ms2 store] rep'] anchor] (Hat2 & Hms2 & Hanc & hist & Hfound & Hrl).
    rewrite Hms1 in *. pose proof (fn_range _ _ _ _ _ _ _ _ _ Hfound) as Hrange. rewrite (slice_ok data anchor b) by lia. cbn [mbind res_bind ss_lits ss_seqs].
    unfold attempts_compression in Hatt. change (MIN_CBLOCK_SIZE + ZSTD_BLOCKHEADERSIZE + 1) with 6 in Hatt. bools.
    destruct (found_stored fl_deep _ window bsm data (bs_rep st) a b _ _ hist anchor rep' (ztake (b - anchor) (zdrop anchor data)) Hfound Hb Hanc
      ltac:(lia) ltac:(change MAX_BLOCK_SIZE with 131072; lia) Hw Hrl ltac:(by rewrite slice_ok by lia)) as (blk' & Hsl' & _ & Hst).
    rewrite Hsl in Hsl'. injection Hsl' as <-. rewrite (stored_total _ _ _ _ _ _ _ _ _ _ Hst), Hzb, Z.eqb_refl. cbn [rassert mbind res_bind]. cbn. done. }
  intros [ms2 built] (Hat2 & Hms2 & Hbuilt).
  eapply returns_bind with (P := fun '(parts, table) => table_ok table /\ block_built None all_valid fl_deep window bsm data a b (ztake a data) blk (bs_rep st) built parts).
  { assert (forall parts, match built with Some _ => parts = None \/ parts = Some [] | None => True end ->
      block_built None all_valid fl_deep window bsm data a b (ztake a data) blk (bs_rep st) built parts) as Hwhole.
    { intros parts Hp. split; [done|]. split; [by apply Forall_take, Forall_drop|]. split; [lia|]. destruct built as [[store rep']|]; [|done].
      destruct Hp as [->| ->]; (split; [done|]; by apply Forall_true). }
    destruct split; [|cbn; split; [done|]; apply Hwhole; destruct built; [by left|done]].
    destruct built as [[store rep']|]; [|cbn; split; [done|]; by apply Hwhole].
    destruct store as [lits seqs]. cbn [ss_lits ss_seqs] in *.
    eapply returns_bind; [rewrite <- Hzb; apply (derive_ok None all_valid fl_deep window bsm Hbsm all_valid_ok ws st data a (ztake a data) blk lits seqs rep' (finder_params ms) (bs_splitter sc) Hlk Hbuilt); [by rewrite Hzb, Zplus_minus|done]|].
    intros [parts table] [Ht' Hp]. cbn. split; [done|]. destruct Hp as [->|Hp]; [apply Hwhole; by right|].
    destruct parts as [|part parts]; [apply Hwhole; by right|]. split; [done|]. split; [by apply Forall_take, Forall_drop|]. split; [lia|]. by split. }
  intros [parts table] [Ht' Hbb].
  destruct (emit_block_ok None all_valid fl_deep window bsm Hbsm ltac:(by intros e [=]) data a b ws st (ztake a data) blk built parts (finder_params ms) first last out Hlk Hbb)
    as (out1 & st' & all & ws' & -> & Hem & Hlk'). cbn [mbind res_bind]. cbn. split_and!; try done. by exists out1, blk, ws'.
Qed.

(** ** The loop *)

Context (sizing : BlockSizing) (Hsize : block_size_max sizing = Z.min MAX_BLOCK_SIZE (2 ^ window_log cp)) (Hchunk : chunk_size sizing = 2 ^ 64 - 1).
Context (Hlevel : forall l, sz_split_level sizing = Some l -> 0 <= l <= 4).

(** Up to position [p], everything is written after [hdr]. *)
Definition written_upto (hdr : list Z) (p : Z) (s : M * JobBlocks * BlockState * Scratch * list Z) : Prop :=
  let '(ms, jb, st, sc, out) := s in
  fl_at ms data p /\ finder_params ms = cp /\ 0 <= p <= zlen data /\ (jb_sizing jb = sizing /\ job_start jb = 0 /\ last_job jb = true /\ jb_done jb = p) /\
  table_ok (bs_splitter sc) /\ (forall s, bs_presplit sc = Some s -> stats_ok s) /\
  exists body ws, out = hdr ++ body /\ emitted (start_scratch scratch_new None) [] body (ztake p data) ws (p =? zlen data) /\ linked ws st.

Lemma next_block_ok jb sc p : jb_sizing jb = sizing -> job_start jb = 0 -> jb_done jb = p -> 0 <= p < zlen data -> (forall s, sc = Some s -> stats_ok s) ->
  returns (fun '(a, b, sc') => a = p /\ p < b <= zlen data /\ b - p <= block_size_max sizing /\ (forall s, sc' = Some s -> stats_ok s))
    (next_block jb data (JobEnd (zlen data)) sc).
Proof.
  intros Hs Hz Hd Hp Hst. change (2 ^ 45) with 35184372088832 in Hn. unfold next_block, job_block, next_start.
  assert (wadd 64 (job_start jb) (jb_done jb) = p) as -> by (unfold wadd; rewrite Hz, Hd, wrap_small; [lia|change (2 ^ 64) with 18446744073709551616; lia]).
  pose proof (Z.pow_pos_nonneg 2 (window_log cp) ltac:(lia)) as Hpow. destruct Hcp as [Hwl _ _ _ _ _]. unfold Params.ZSTD_WINDOWLOG_ABSOLUTEMIN in Hwl.
  specialize (Hpow ltac:(lia)). change MAX_BLOCK_SIZE with 131072 in Hsize.
  assert (unsplit_size jb p (JobEnd (zlen data)) = Z.min (zlen data - p) (block_size_max sizing)) as Hu.
  { unfold unsplit_size, wsub. rewrite Hs, Hz, Hchunk, !Z.sub_0_r, (wrap_small 64 p), (wrap_small 64 (zlen data)) by (change (2 ^ 64) with 18446744073709551616; lia).
    change (2 ^ 64) with 18446744073709551616. rewrite (Z.div_small p) by lia. rewrite wrap_small; [|change (2 ^ 64) with 18446744073709551616]; lia. }
  rewrite Hu, Hs. set (u := Z.min _ _). assert (0 < u <= zlen data - p /\ u <= block_size_max sizing) as Hur by (unfold u; lia). clearbody u.
  eapply returns_bind with (P := fun '(size, sc') => 0 < size <= u /\ (forall s, sc' = Some s -> stats_ok s)).
  - destruct (sz_split_level sizing) as [l|] eqn:Hl; [|cbn; split; [lia|done]].
    destruct (Z.eqb_spec u SPLIT_BLOCK_SIZE) as [Hfull|]; cbn [andb]; [|cbn; split; [lia|done]]. destruct (3 <=? _); [|cbn; split; [lia|done]].
    rewrite slice_ok by lia. cbn [mbind res_bind]. set (blk := ztake _ _).
    assert (zlen blk = u) as Hzb by (unfold blk; rewrite zlen_ztake by (rewrite zlen_zdrop; lia); lia).
    eapply returns_bind; [apply (split_block_ok sc blk l); [done|by apply Forall_take, Forall_drop|congruence|by apply Hlevel]|].
    intros [size stats] [Hsz Hstats]. cbn in *. split; [lia|]. by intros s [= <-].
  - intros [size sc'] [Hsz Hsc]. cbn. split_and!; [done|lia|lia|lia|done].
Qed.

Lemma blocks_step_ok hdr split s p : written_upto hdr p s ->
  returns (fun r => match r with
                    | inl s' => exists p', p < p' /\ written_upto hdr p' s'
                    | inr s' => written_upto hdr (zlen data) s'
                    end) (blocks_step data (JobEnd (zlen data)) split s).
Proof.
  destruct s as [[[[ms jb] st] sc] out]. intros (Hat & Hms & Hp & (Hs & H0' & Hl & Hd) & Ht & Hps & body & ws & -> & Hem & Hlk).
  unfold blocks_step. change (2 ^ 45) with 35184372088832 in Hn.
  assert (next_start jb = p) as Hns by (unfold next_start, wadd; rewrite H0', Hd, wrap_small; [lia|change (2 ^ 64) with 18446744073709551616; lia]).
  rewrite Hns. unfold ready. destruct (Z.ltb_spec p (zlen data)) as [Hlt|Hge].
  2: { cbn [returns input_ended]. assert (p = zlen data) as <- by lia. split_and!; try done; [lia..|]. by exists body, ws. }
  eapply returns_bind; [apply (next_block_ok jb (bs_presplit sc) p); done || lia|]. intros [[a b] sc'] (-> & Hb1 & Hb2 & Hsc).
  assert (is_last_block jb (p, b) (JobEnd (zlen data)) = (b =? zlen data)) as Hlast.
  { unfold is_last_block. rewrite Hl. cbn [andb snd]. destruct (Z.eqb_spec b (zlen data)) as [->|Hne]; [by apply bool_decide_eq_true_2|apply bool_decide_eq_false_2; congruence]. }
  rewrite Hlast. rewrite (proj2 (Z.eqb_neq p (zlen data))) in Hem by lia.
  eapply returns_bind; [apply (compress_block_ok ms p b (is_first_block jb (p, b)) (b =? zlen data) split st (MkBScratch (bs_splitter sc) sc') (hdr ++ body) ws); done || lia|].
  intros [[[ms' st'] sc2] out'] (Hat' & Hms' & Ht' & Hpre & out1 & blk & ws' & -> & Hcut & Hem' & Hlk').
  unfold wrote. rewrite Hns. cbn [fst snd]. rewrite Z.eqb_refl. cbn [rassert mbind res_bind returns].
  exists b. split; [lia|]. split_and!; try done; try lia.
  - cbn [jb_done]. rewrite H0'. unfold wsub. rewrite Z.sub_0_r. apply wrap_small. change (2 ^ 64) with 18446744073709551616. lia.
  - cbn [bs_presplit] in Hpre. by rewrite Hpre.
  - exists (body ++ out1), ws'. rewrite app_assoc. split; [done|]. split; [|done]. rewrite Hcut. by apply (emits_app None window bsm _ [] body (ztake p data) ws).
Qed.

(** The loop ends with everything written. *)
Lemma compress_blocks_ok hdr split ms jb st sc out : written_upto hdr 0 (ms, jb, st, sc, out) ->
  returns (written_upto hdr (zlen data)) (compress_blocks ms data jb (JobEnd (zlen data)) split st sc out).
Proof.
  intros Hw. unfold compress_blocks.
  apply (returns_loopM (fun s => exists p, written_upto hdr p s) (fun '(_, jb, _, _, _) => Z.to_nat (zlen data - jb_done jb))).
  - by exists 0.
  - destruct Hw as (_ & _ & _ & (_ & _ & _ & ->) & _). unfold zlen. lia.
  - intros s' [p Hp]. eapply returns_mono; [by apply (blocks_step_ok hdr split s' p)|]. intros [s2|s2]; [|done]. intros (p' & Hlt & Hp'). split; [by exists p'|].
    destruct s' as [[[[? jb1] ?] ?] ?], s2 as [[[[? jb2] ?] ?] ?]. destruct Hp as (_ & _ & _ & (_ & _ & _ & ->) & _), Hp' as (_ & _ & ? & (_ & _ & _ & ->) & _). lia.
Qed.
End frame.

(** ** The frame *)

Section compressor.
Context {M : Type} `{FinderLaws M}.

(** What a context keeps between frames. *)
Record context_kept (cx : @Context_ M) : Prop := {
  ck_ms m : cx_ms cx = Some m -> fl_kept m;
  ck_table : table_ok (bs_splitter (cx_scratch cx));
  ck_stats s : bs_presplit (cx_scratch cx) = Some s -> stats_ok s;
  ck_state : state_kept (cx_state cx);
}.

Lemma context_new_kept : context_kept context_new.
Proof.
  split; [done|done|done|]. pose proof state_default_kept as [[H1 H2] H3]. split; [done|].
  intros sl [->|[->| ->]]; (split; [split; [done|by left]|by repeat constructor]).
Qed.

Lemma context_reset_ok cx cp pledged freq data : context_kept cx -> params_ok cp -> fl_usable cp -> zlen data < 2 ^ 63 ->
  returns (fun '(ms, sc, st) => fl_at ms data 0 /\ finder_params ms = cp /\ table_ok (bs_splitter sc) /\
      (forall s, bs_presplit sc = Some s -> stats_ok s) /\ st = cx_state cx) (context_reset cx cp 0 false pledged freq).
Proof.
  intros [Hms Ht Hs _] Hcp Hu Hn. unfold context_reset. eapply returns_bind; [by apply (fl_reset (cx_ms cx) cp pledged freq data)|].
  intros [m resized] [Hat Hp]. cbn. split; [done|]. split; [done|]. destruct (cx_ms cx); [destruct resized|]; done.
Qed.

Lemma write_frame_header_app out cs wl ck did : write_frame_header out cs wl ck did = out ++ write_frame_header [] cs wl ck did.
Proof. reflexivity. Qed.

(** The parameters of the options, when long distance matching is off. *)
Lemma frame_cparams_ok opts src_size cp : - 2 ^ 31 <= level opts < 2 ^ 31 -> 0 <= src_size < 2 ^ 64 ->
  frame_cparams opts (level opts) (Some src_size) 0 NoAttachDict = Ok (cp, false) ->
  params_ok cp /\ block_splitter_level opts <= BLOCK_SPLITTER_LEVEL_MAX /\ for_level (level opts) src_size = (Ok cp : dec CParams).
Proof.
  intros Hlv Hs. unfold frame_cparams, for_level. destruct (Z.leb_spec (block_splitter_level opts) BLOCK_SPLITTER_LEVEL_MAX); [|done]. cbn [rassert mbind res_bind].
  destruct (returns_inv _ _ (for_level_with_ok (E := DecodeError) (level opts) (Some src_size) 0 NoAttachDict Hlv ltac:(by intros ? [= <-]) ltac:(done))) as (cp' & -> & Hc).
  cbn [mbind res_bind]. destruct (ldm opts); cbn [mbind res_bind].
  - intros [= <- _]. split; [by apply Hc|done].
  - by destruct (adjust_with _ _ _ _).
  - intros [= <-]. split; [by apply Hc|done].
Qed.

Lemma split_level_range lv strat l : 0 <= lv <= BLOCK_SPLITTER_LEVEL_MAX -> split_level lv strat = Some l -> 0 <= l <= 4.
Proof.
  unfold split_level, BLOCK_SPLITTER_LEVEL_MAX. intros Hl. destruct (Z.eqb_spec lv 0) as [_|Hnz].
  - destruct strat; cbn; intros [= <-]; lia.
  - destruct (Z.eqb_spec lv 1); [done|]. intros [= <-]. lia.
Qed.

(** A frame's epilogue over the whole content. *)
Lemma epilogue_whole (ck : bool) src : zlen src < 2 ^ 64 -> exists sum, (if ck then h ← update Xxh64.new src; Ok (Some h) else Ok None : dec (option Xxh64)) = Ok sum /\
  forall out, write_epilogue out sum = Ok (out ++ if ck then le_bytes 4 (wrap 32 (xxh64 src)) else []).
Proof.
  intros H64. destruct (epilogue_ok ck [src] ltac:(cbn [concat]; by rewrite app_nil_r)) as (sum & Hs & He). cbn [concat] in He. rewrite app_nil_r in He. exists sum. split; [|exact He].
  rewrite <- Hs. destruct ck; [|done]. unfold update_all. cbn [foldM]. by destruct (update Xxh64.new src).
Qed.

(** A frame takes at most four times its content and 32 bytes. *)
Lemma framed_length wl ck content body : zlen body <= 4 * zlen content + 3 -> zlen (framed wl ck 0 content body) <= 4 * zlen content + 32.
Proof.
  intros Hb. unfold framed, write_frame_header. rewrite !zlen_app. change (zlen (@nil Z)) with 0. change (zlen (le_bytes 4 ZSTD_MAGIC)) with 4. change (zlen [_]) with 1.
  assert (forall (x : bool) (l : list Z), zlen (if x then l else []) <= zlen l) as Hif by (intros [] l; [lia|pose proof (zlen_nonneg l); change (zlen (@nil Z)) with 0; lia]).
  assert (forall n x, zlen (le_bytes n x) = Z.of_nat n) as Hle by (intros; unfold zlen; by rewrite length_le_bytes). change (0 <? 0) with false. change (256 <=? 0) with false. change (65536 <=? 0) with false. cbn [Z.b2z]. change (0 + 0 + 0 =? 0) with true. cbv iota. change (zlen (@nil Z)) with 0.
  set (single := zlen content <=? _). set (fcs := Z.b2z (256 <=? zlen content) + _ + _). cbn [default].
  set (field := if fcs =? 0 then _ else _). assert (zlen field <= 8) as Hf by (unfold field; repeat case_match; rewrite ?Hle; try change (zlen [_]) with 1; try change (zlen (@nil Z)) with 0; lia).
  set (win := if negb single then _ else _). assert (zlen win <= 1) by (apply Hif).
  assert (zlen (if ck then le_bytes 4 (wrap 32 (xxh64 content)) else []) <= 4) by (etransitivity; [apply Hif|rewrite Hle; lia]). lia.
Qed.

(** A frame is written, whatever the input, and decompresses to it. *)
Lemma compress_frame_ok opts cx src out cp : context_kept cx -> bytes src -> zlen src < 2 ^ 42 ->
  - 2 ^ 31 <= level opts < 2 ^ 31 -> 0 <= block_splitter_level opts ->
  frame_cparams opts (level opts) (Some (zlen src)) 0 NoAttachDict = Ok (cp, false) -> fl_usable cp ->
  returns (fun '(cx', out') => context_kept cx' /\ exists f, out' = out ++ f /\ zlen f <= 4 * zlen src + 32 /\
      forall simd, decompress_with_dict_options (fun _ _ => true) f None simd = Ok src) (compress_frame opts cx src out).
Proof.
  intros Hcx Hb Hn Hlv Hbl Hfc Hu. pose proof (zlen_nonneg src) as Hnn. change (2 ^ 42) with 4398046511104 in Hn.
  destruct (frame_cparams_ok opts (zlen src) cp Hlv ltac:(change (2 ^ 64) with 18446744073709551616; lia) Hfc) as (Hcp & Hbm & _).
  unfold compress_frame. rewrite Hfc. cbn [mbind res_bind]. rewrite write_frame_header_app. set (hdr := write_frame_header [] _ _ _ _).
  pose proof (window_range src cp) as Hwr. cbv zeta in Hwr. destruct Hwr as (_ & Hbsm & _ & _ & _).
  assert (forall body ws, emits None (written_window (Some (zlen src)) (window_log cp)) (Z.min (written_window (Some (zlen src)) (window_log cp)) MAX_BLOCK_SIZE)
      (start_scratch scratch_new None) [] body src ws true ->
    zlen (framed (window_log cp) (opt_checksum opts) 0 src body) <= 4 * zlen src + 32 /\ forall simd,
    decompress_with_dict_options (fun _ _ => true) (framed (window_log cp) (opt_checksum opts) 0 src body) None simd = Ok src) as Hdec.
  { intros body ws Hem. assert (zlen (framed (window_log cp) (opt_checksum opts) 0 src body) <= 4 * zlen src + 32) as Hf by (apply framed_length; by destruct Hem as (_ & ? & _)).
    split; [done|]. intros simd. apply framed_decompresses; try done; [|by left|change (2 ^ 64) with 18446744073709551616; lia|by destruct Hem| |change (2 ^ 45) with 35184372088832; lia].
    - destruct Hcp as [Hwl _ _ _ _ _]. unfold Params.ZSTD_WINDOWLOG_ABSOLUTEMIN in Hwl. change ZSTD_WINDOWLOG_MAX with 31 in Hwl. lia.
    - intros rest. exists ws. by apply emits_frame. }
  destruct src as [|x src']; cbn [is_empty].
  - eapply returns_bind; [by apply (context_reset_ok cx cp 0 _ [])|]. intros [[ms sc] st] (Hat & _ & Ht & Hs & ->).
    destruct (epilogue_whole (opt_checksum opts) [] ltac:(done)) as (sum & Hsum & Hep).
    assert (write_epilogue (write_raw_block (out ++ hdr) [] true) (if opt_checksum opts then Some Xxh64.new else None) =
      Ok (out ++ framed (window_log cp) (opt_checksum opts) 0 [] (write_raw_block [] [] true))) as ->.
    { assert (sum = if opt_checksum opts then Some Xxh64.new else None) as <- by (destruct (opt_checksum opts); vm_compute in Hsum; by injection Hsum as <-).
      rewrite Hep. unfold framed, write_raw_block. rewrite <- !app_assoc. done. }
    cbn [mbind res_bind]. cbn. split.
    { destruct Hcx. split; cbn [cx_ms cx_scratch cx_state]; try done. intros m [= <-]. by apply (fl_keep ms [] 0). }
    eexists. split; [done|]. eapply Hdec.
    apply (emits_one None _ _ Hbsm (start_scratch scratch_new None) [] [] None true true (start_scratch scratch_new None)); [done| |by right|done].
    change (zlen (@nil Z)) with 0 in Hbsm |- *. lia.
  - set (src := x :: src') in *. destruct (epilogue_whole (opt_checksum opts) src ltac:(change (2 ^ 64) with 18446744073709551616; lia)) as (sum & -> & Hep). cbn [mbind res_bind].
    unfold compress_job. cbn [fst snd]. eapply returns_bind with (P := fun '(cx', out') => context_kept cx' /\ exists body ws, out' = (out ++ hdr) ++ body /\
        emits None (written_window (Some (zlen src)) (window_log cp)) (Z.min (written_window (Some (zlen src)) (window_log cp)) MAX_BLOCK_SIZE)
          (start_scratch scratch_new None) [] body src ws true).
    + eapply returns_bind; [apply (context_reset_ok cx cp _ _ src); [done..|change (2 ^ 63) with 9223372036854775808; lia]|].
      intros [[ms sc] st] (Hat & Hms & Ht & Hs & ->). set (sizing := block_sizing opts cp false _).
      eapply returns_bind; [apply (compress_blocks_ok src Hb ltac:(change (2 ^ 45) with 35184372088832; lia) cp Hcp sizing)|].
      * destruct Hcp as [Hwl _ _ _ _ _]. unfold Params.ZSTD_WINDOWLOG_ABSOLUTEMIN in Hwl. change ZSTD_WINDOWLOG_MAX with 31 in Hwl. unfold sizing. cbn.
        rewrite wshl_small; [by rewrite Z.mul_1_l|lia|lia|]. rewrite Z.mul_1_l. apply Z.pow_lt_mono_r; lia.
      * done.
      * intros l Hl. eapply split_level_range; [|exact Hl]. lia.
      * split; [exact Hat|]. split; [done|]. split; [lia|]. split; [done|]. split; [done|]. split; [done|]. exists [], (start_scratch scratch_new None).
        rewrite app_nil_r. split; [done|]. split; [|apply reset_linked, Hcx].
        rewrite (proj2 (Z.eqb_neq 0 (zlen src))) by (unfold src; rewrite zlen_cons; pose proof (zlen_nonneg src'); lia). apply emits_nil.
      * intros [[[[ms' jb] st'] sc'] out'] (Hat' & _ & _ & _ & Ht' & Hs' & body & ws & -> & Hem & Hlk). cbn. rewrite Z.eqb_refl, (ztake_all src) in Hem by lia.
        split; [|by exists body, ws]. split; cbn [cx_ms cx_scratch cx_state]; try done; [intros m [= <-]; by eapply fl_keep|by eapply linked_kept].
    + intros [cx' out'] (Hk & body & ws & -> & Hem). rewrite Hep. cbn [mbind res_bind]. cbn. split; [done|]. eexists. split; [|exact (Hdec body ws Hem)].
      unfold framed. by rewrite <- !app_assoc.
Qed.
End compressor.
