(* ===== verification/RoundTrip.v ===== *)
(** * Compression and decompression, end to end

    The levels whose strategies are modelled, [Fast] and [DFast]: level 3,
    the default, and everything below. *)

From S2P Require Import Prelude Words Constants Errors SeqDecode Params Presplit Frame Decompress BlockEncode MatchState Finder Matcher Blocks BlocksProofs.

(** ** The parameters *)

(** A level up to 3 is of a modelled strategy, without the long distance
    matcher unless that is asked for. *)
Lemma frame_cparams_low opts size : - 2 ^ 31 <= level opts <= 3 -> ldm opts <> PsEnable -> block_splitter_level opts <= BLOCK_SPLITTER_LEVEL_MAX -> 0 <= size < 2 ^ 64 ->
  exists cp, frame_cparams opts (level opts) (Some size) 0 NoAttachDict = Ok (cp, false) /\ searched cp = true.
Proof.
  intros Hl Hldm Hb Hs. unfold frame_cparams. rewrite (proj2 (Z.leb_le _ _)) by done. cbn [rassert mbind res_bind].
  destruct (returns_inv _ _ (for_level_with_chosen (E := DecodeError) (level opts) (Some size) 0 NoAttachDict ltac:(lia) ltac:(by intros ? [= <-]) ltac:(done))) as (cp & -> & _ & Hlow).
  cbn [mbind res_bind]. specialize (Hlow ltac:(lia)). assert (searched cp = true) as Hsr by (unfold searched, cdict_indices_are_tagged in *; by destruct (strategy cp)).
  exists cp. split; [|done]. unfold cdict_indices_are_tagged in Hlow. destruct (ldm opts); [|done|]; cbn [mbind res_bind]; [|done].
  by destruct (strategy cp).
Qed.

Section frames.
Context (avx2 : bool).

#[local] Instance frame_finder : Finder MatchState := matcher avx2.
#[local] Instance frame_laws : FinderLaws MatchState := matcher_laws avx2.

(** A compressor's context over the frames it writes. *)
Lemma compress_frame_low opts (cx : @Context_ MatchState) src out : context_kept cx -> bytes src -> zlen src < 2 ^ 42 ->
  - 2 ^ 31 <= level opts <= 3 -> ldm opts <> PsEnable -> 0 <= block_splitter_level opts <= BLOCK_SPLITTER_LEVEL_MAX ->
  returns (fun '(cx', out') => context_kept cx' /\ exists f, out' = out ++ f /\ zlen f <= 4 * zlen src + 32 /\
      forall simd, decompress_with_dict_options (fun _ _ => true) f None simd = Ok src) (compress_frame opts cx src out).
Proof.
  intros Hcx Hb Hn Hl Hldm Hbl. pose proof (zlen_nonneg src). change (2 ^ 42) with 4398046511104 in Hn.
  destruct (frame_cparams_low opts (zlen src) Hl Hldm ltac:(lia) ltac:(change (2 ^ 64) with 18446744073709551616; lia)) as (cp & Hcp & Hs).
  apply (compress_frame_ok opts cx src out cp Hcx Hb); [change (2 ^ 42) with 4398046511104; lia|lia|lia|done|done].
Qed.
End frames.

(** ** One frame *)

(** The options the theorems are about: any level up to 3, the default 0
    included, no long distance matching by request, a splitter level within
    its bounds; the checksum, the splitting after sequences and the overflow
    correction are free. *)
Definition options_ok (opts : CompressOptions) : Prop :=
  - 2 ^ 31 <= level opts <= 3 /\ ldm opts <> PsEnable /\ 0 <= block_splitter_level opts <= BLOCK_SPLITTER_LEVEL_MAX.

(** C1: compression is correct end to end. For any bytes (below 4 TiB), any
    level up to 3 (the default and the negative ones included), with or
    without a checksum, with or without splitting after the sequences and at
    any splitter level, at either SIMD level of the match finders, compressing
    neither faults nor loops: parameters are chosen, blocks are cut, searched,
    split, entropy coded with the tables committed by those before, and written
    as a frame of at most four times the input and 32 bytes, which the
    decompressor, at either of its SIMD levels, turns back into the input. *)
Theorem compress_roundtrip avx2 opts data : bytes data -> zlen data < 2 ^ 42 -> options_ok opts ->
  exists f, @compress_with _ (matcher avx2) data opts = Ok f /\ zlen f <= 4 * zlen data + 32 /\
    forall simd, decompress_with_dict_options (fun _ _ => true) f None simd = Ok data.
Proof.
  intros Hb Hn (Hl & Hldm & Hbl). unfold compress_with.
  destruct (returns_inv _ _ (compress_frame_low avx2 opts context_new data [] context_new_kept Hb Hn Hl Hldm Hbl)) as ([cx' out] & Hc & _ & f & -> & Hf).
  change (frame_finder avx2) with (matcher avx2) in Hc. rewrite Hc. by exists f.
Qed.

(** A phrase five times, at the default level with a checksum. *)
Definition phrase : list Z := concat (repeat [116; 104; 101; 32; 113; 117; 105; 99; 107; 32; 98; 114; 111; 119; 110; 32; 102; 111; 120; 46] 5).

Lemma compress_roundtrip_witness :
  exists f, @compress_with _ (matcher true) phrase (MkOpts 0 true PsAuto PsEnable 0 false) = Ok f /\ zlen f <= 4 * zlen phrase + 32 /\
    forall simd, decompress_with_dict_options (fun _ _ => true) f None simd = Ok phrase.
Proof.
  apply (compress_roundtrip true (MkOpts 0 true PsAuto PsEnable 0 false) phrase);
    [by apply bytes_check; vm_compute|by vm_compute|split; [split; by vm_compute|split; [done|by vm_compute]]].
Defined.

(** It is compressed: 100 bytes and a checksum take less than 50. *)
Example phrase_shrinks :
  match @compress_with _ (matcher true) phrase (MkOpts 0 true PsAuto PsEnable 0 false) with Ok f => zlen f <? 50 | _ => false end = true.
Proof. by vm_compute. Qed.

(** The third repeat offset the searches commit can differ from the one the
    decoder holds: after the phrase's one match, at an offset of 20, a decoder
    has 4 there, and the block state still 8. No search emits a code that reads
    it. *)
Example third_offset_stale :
  match @compress_frame _ (matcher true) options_default context_new phrase [] with Ok (cx, _) => bs_rep (cx_state cx) | _ => [] end = [20; 1; 8] /\
  (repcode REP_START_VALUE (20 + 3) false).2 = [20; 1; 4].
Proof. split; by vm_compute. Qed.

(** ** A compressor used again *)

(** The contexts a compressor can be in: new, or after a frame from one of
    them, whatever its input and options. *)
Inductive context_used (avx2 : bool) : @Context_ MatchState -> Prop :=
| used_new : context_used avx2 context_new
| used_frame cx opts src out cx' out' : context_used avx2 cx -> bytes src -> zlen src < 2 ^ 42 -> options_ok opts ->
    @compress_frame _ (matcher avx2) opts cx src out = Ok (cx', out') -> context_used avx2 cx'.

Lemma used_kept avx2 cx : context_used avx2 cx -> @context_kept _ _ (matcher_laws avx2) cx.
Proof.
  induction 1 as [|cx opts src out cx' out' Hu IH Hb Hn (Hl & Hldm & Hbl) Hc]; [exact (@context_new_kept _ _ (matcher_laws avx2))|].
  pose proof (compress_frame_low avx2 opts cx src out IH Hb Hn Hl Hldm Hbl) as Hr. change (frame_finder avx2) with (matcher avx2) in Hr. rewrite Hc in Hr.
  by destruct Hr.
Qed.


